(* ===== verification/_CoqProject ===== *)
-Q . S2P
Prelude.v
IntMath.v
Double.v
NoCMain.v
Config.v
Element.v
Stats.v
Channel.v
VirtualChannel.v
Allocator.v
FlitCoding.v
Router.v
Network.v
RouterInv.v
RouterSafe.v
RouterVC.v
RouterSW.v
RouterCycle.v
NetworkSafe.v
Mesh.v
NetworkRun.v
Routes.v
Stuck.v
MemPacket.v
Cache.v
Directory.v
Process.v
TrafficManager.v
TrafficRun.v
TrafficLoss.v
TrafficStuck.v
TrafficCut.v
EventQueue.v
EventLinks.v
EventRun.v
EventTime.v
EventService.v
EventCheck.v
Clock.v
AddrRange.v
AbstractMem.v
MemSpec.v
AddrRangeMap.v
XBarLayer.v
SnoopFilter.v
SnoopTrack.v
XBar.v
PacketQueue.v
SimpleMem.v
SimpleMemRun.v
CoherentXBar.v
XBarTiming.v
XBarAtomic.v
CacheBlk.v
CacheTags.v
LruSpec.v
CacheQueue.v
MSHR.v
QueueRun.v
MSHRRun.v
ClassicCache.v
BlkLocks.v
CacheRun.v
CacheTransparent.v
CacheFlush.v
CacheMemory.v
