(* ===== verification/Prelude.v ===== *)
(** * ENoC: a verification library for the NoC simulator of [src/mem/enoc]

    The repository is gem5 with a network on chip and a coherent cache
    hierarchy added in [src/mem/enoc].  [CoherentXBar::recvAtomic]
    ([mem/coherent_xbar.cc]) passes every memory packet to a [TrafficManager], which
    updates caches and a directory, queues the messages this costs in a packet
    table, cuts them into flits and sends these through an 8x8 network
    of wormhole routers.  The library models this code, the packets and the
    crossbar that feed it and the event queue that makes time pass, as executable
    definitions and proves what they do, errors included.

    ** How the code is modelled

    A method of a C++ object is a computation [M S A := S → res (A * S)] on the
    record [S] of the members; [Fault] is what the program can do
    instead of returning (an index out of range, a null pointer, a failed
    [assert], a call of [exit], [fatal] or [panic], an operator applied where
    the language leaves it undefined).  A sub-object is reached with [zoom], an element
    of an array or [std::vector] with [zoom_at], which faults out of range.
    The allocation loops of a router read an item of a deque through a reference after [pop_front]
    (undefined, [router.cpp:308] and [router.cpp:389]); the model reads the item that was popped, as every
    implementation whose freed memory stays readable does.
    Objects shared by pointer (flits, channels, routers) live in a [World] of lists
    and a pointer is an index.  Integers are [Z]; [to_int], [to_uint 8],
    [to_uint 32] are the conversions to the C++ types and are written where the code
    converts or can overflow (the release time of a channel wraps in two's complement).  [double] is binary64 ([Double]).  Uninitialised
    storage is an argument ([raw...]), so a theorem holds for all contents.

    ** Files

    - [Prelude]: record update, the monad, loops, Hoare triples ([triple],
      [triple_or]), lists indexed by [Z], automation.
    - [Double], [NoCMain] ([NoCMain.h], [flit.*]), [Config] ([config.*]), [Element]
      ([element.h], [energy.*]), [Stats] ([statsNoC.*]), [Channel] ([channel.h],
      [flitchannel.*]), [VirtualChannel] ([VirtualChannel.*], [Buffer.*]),
      [Allocator] ([allocator.*]): one component each, with its properties.
    - [FlitCoding] and [Router] ([router.*]): the wires of a flit and the
      transitions charged for them; the stages of a router.
    - [Network] ([Network.*]): channels and routers in three phases,
      [ReadInputs], [clk], [WriteOutputs].
    - [RouterInv], [RouterSafe], [RouterVC], [RouterSW], [RouterCycle], [NetworkSafe]:
      the invariant of the network and that every step keeps it, proved against
      the interface [Topology] of a wiring.
    - [Mesh], [NetworkRun], [Routes], [Stuck]: the network [buildMesh] builds as an
      instance of the interface, its runs, its routes, and flits that never leave.
    - [MemPacket] ([mem/packet.*], [mem/request.hh]): gem5's memory packets.
    - [Cache] ([ENoC_cache.*]), [Directory] ([ENoC_Dir.*]), [Process]
      ([TrafficManager::process]): the memory side, on the record [MemSystem].
    - [TrafficManager] ([trafficmanager.*] and the crossbar hook): the rest of the
      traffic manager; [TrafficRun], [TrafficCut], [TrafficLoss], [TrafficStuck]: its
      invariant together with the network, and what happens to packets.

    - [IntMath] ([base/bitfield.hh], [base/intmath.*]) and [Clock]
      ([sim/clocked_object.hh]): machine arithmetic and clock edges.
    - [AddrRange] and [AddrRangeMap] ([base/addr_range*.hh]), [XBar] and [XBarLayer]
      ([mem/xbar.*]), [SnoopFilter] and [SnoopTrack] ([mem/snoop_filter.*]): the crossbar
      that holds the hook: ranges of addresses and their map, the decoding
      of addresses, the layers that arbitrate, and the filter of snoops with its
      specification by sets of ports.
    - [AbstractMem] ([mem/abstract_mem.*]): memories; [MemSpec]: their specification, an
      array of bytes with reservations, and the refinement.  [SimpleMem]
      ([mem/simple_mem.*]): the controller in front of a memory; [SimpleMemRun]: its runs.
    - [PacketQueue] ([mem/packet_queue.*]): the queues behind the crossbar's slave ports.
      [CoherentXBar] ([mem/coherent_xbar.*]): the whole crossbar, whose ports' peers are the
      class [Peers]; [XBarTiming] and [XBarAtomic]: its requests and responses in timing
      mode, its snoops and the hook in atomic mode.
    - [CacheBlk] ([mem/cache/blk.hh]) and [CacheTags] ([mem/cache/tags]): gem5's classic cache, its
      blocks and tags; [LruSpec]: the tags as lists in the order of use.  [CacheQueue]
      ([queue*], [write_queue*]) and [MSHR] ([mshr*]): its write queue and its outstanding misses;
      [QueueRun], [MSHRRun]: what their lists keep.  [ClassicCache] ([cache.*], [base.*]): the
      cache in atomic mode; [BlkLocks]: the reservations of its blocks.  [CacheRun]: what each part
      of an access does; [CacheTransparent]: whole accesses, against the class [MemoryBelow] of
      what a cache needs of its memory; [CacheFlush]: flushes; [CacheMemory]: the simple memory as an instance
      of the class, and the theorems on the two together.
    - [EventQueue] ([sim/eventq.*], [doSimLoop] of [sim/simulate.cc]): events and the
      queues that make time pass, on a heap of events with the two kinds of
      links; [EventLinks] relates the links to an agenda, [EventRun] proves
      what the operations do to it, [EventTime], [EventService] and [EventCheck] hold its properties.

    ** What the theorems show

    Network: for every configuration and every sequence of injections the
    built network never faults and delivers every flit at most once, unchanged
    and at its destination ([network_conserves_flits]); every flit
    stays on its XY route ([flits_stay_on_xy_route]), which is a shortest one of the grid, though not of
    the torus with its wrap-around links ([xy_route_is_shortest_in_grid]); the channel dependencies are acyclic; the
    constructor builds the torus it should ([built_network_wiring]).  Yet a head that
    was refused a virtual channel can strand its tail, as an example of two packets shows ([refused_head_strands_tail]).
    The parts refine their specifications: buffers are FIFO queues, channels
    delay lines while the clock is in the range of [int] ([channel_is_delay_line]), a round of the allocator a matching, flits on the wires can be
    decoded.

    Memory: every access restores the invariant of caches, directory, packet table and
    network or ends with an index out of range ([accesses_keep_invariant]); a write of a known line
    invalidates the recorded copies, takes the line and queues exactly its messages ([write_takes_line]); what a read
    hit, an invalidation and a shared read do exactly.  The protocol is not coherent
    ([two_modified_copies], [last_writer_is_not_invalidated]) and the replacement
    counters run out ([lru_counters_run_out]).

    Traffic: packets that carry data are sent by the whole system without a fault
    ([packets_with_data_never_fault]), and cutting a packet into flits loses
    nothing ([nextFlit_cuts_line]); packets without data stop the simulator, packets
    sent in the same cycle or back to back destroy each other.

    Crossbar: interleaved ranges are merged exactly ([merge_is_partition]), the map of
    ranges decodes addresses up to one gap ([map_lookup_decodes],
    [map_misses_addresses]), and the port cache before it is invisible
    ([port_cache_is_invisible]); a layer never fails an assertion and never forgets
    a port that waits ([layer_never_loses_a_port], [layer_serves_in_order]); the snoop
    filter implements two sets of ports for every line ([filter_implements_sets]) and
    selects exactly the ports it should ([lookups_select_tracked_ports]), with up to 64
    of them ([filter_supports_64_ports]).  A request that is refused changes nothing the crossbar
    tracks ([refused_request_keeps_crossbar]) and the response to one that is accepted returns to
    its source ([responses_return_to_requester]); the queues of responses lose
    nothing and always send on ([queue_never_stalls], [queue_order]).  An atomic access
    passes the traffic manager first ([atomic_access_through_hook]) and asks every snooper
    once ([forwardAtomic_asks_each_once]).

    Main memory: the accesses of a memory implement an array of bytes with one reservation
    per context ([memory_refines_bytes]); a store-conditional succeeds exactly when no
    store came to its granule ([store_conditional_is_atomic]), but swaps and stores from an
    earlier granule pass unnoticed ([swaps_keep_reservations]).  The simple memory answers
    what it accepts once, right and in time ([memory_answers_requests]).

    Classic caches: the processor cannot tell a cache in front of a memory from the memory, for
    every geometry with LRU replacement and every sequence of reads, writes, swaps and
    uncacheable requests ([cache_is_transparent]), and a flush leaves the memory
    right ([flush_leaves_memory_right]); the theorems are about atomic mode, requests to the
    non-secure space (a secure line is another line of the same address), and a cache that nothing
    above it snoops.  The tags are lists in the order of use ([lru_tags_are_recency_lists]), the write queue is
    a list of which the entry ready first is sent first ([write_queue_implements_list]), the queue
    of misses keeps its books ([mshr_queue_keeps_books]).  A store-conditional needs a reservation of its context
    that nothing broke ([store_conditional_needs_reservation]), and a failed one breaks those of
    others, so that two contexts can starve each other ([lockstep_contexts_starve]).

    Time: the queues implement agendas sorted by time and priority
    ([scheduling_refines_agendas]), time never goes backwards whatever handlers do
    ([time_never_goes_backwards]), [serviceEvents] calls the handler of every event that is due once and in
    order and stops, if the handlers leave the events that are due alone ([serviceEvents_services_until]); the queue's own
    check and the restoring of checkpoints have a gap each
    ([debugVerify_accepts_agendas], [checkpoint_reschedules_squashed]).  Clock edges are
    the multiples of the period ([clock_edges_are_multiples]).

    ** Bounds and fuel

    The constants are the ones of [NoCMain.h] (64 nodes, 5 ports, 8 virtual channels of
    8 flits).  Loops are folds over ranges and terminate by definition.  The search of the
    allocator runs on fuel, and [rr_search_is_cyclic_first_fit] shows that it
    is enough; the searches in the lists of an event queue run on one more than the
    number of events, and the theorems on the queue show that this is enough.  The
    loops of [serviceEvents] and [doSimLoop] are bounded by nothing in the
    code and take their fuel as an argument, as does [prevPrime]; [prime_fuel] is enough
    for every [int] that [isPrime] can test without overflow.  The clock of a cycle is arbitrary except where a channel
    needs consecutive cycles, as its statement says.

    ** Not modelled

    Printing, the parsing of configuration files, destructors, [routefunc.cpp] and the
    stand-alone driver, which are not built; of gem5 itself the timing mode and the prefetchers of the
    classic caches and their fully associative tags, DRAM, Ruby, CPUs, devices and bindings.  The deletion of packets is left out: a packet
    is a value that the handlers pass in and out.  Queues of events run in one thread:
    locks and barriers are left out, and the theorems on queues assume serial mode.
    [masterId], [addr] and [time] of a request are fields of the model's
    record; the theorems state which values they need. *)

From Stdlib Require Export ZArith Lia Sorting.Sorted.
From stdpp Require Export base tactics option list list_numbers gmap numbers strings.

#[global] Open Scope Z_scope.

(** ** Record update

    A record type declares the list of its fields once ([Settable]); the
    setter of a field is then found by unification. *)

Class Settable (R : Type) := rebuild : R → R.

Class Setter {R T : Type} (proj : R → T) := set : (T → T) → R → R.
Arguments set {R T} proj {Setter} f r /.

Ltac derive_setter :=
  match goal with
  | |- @Setter ?R _ ?proj =>
      let inst := constr:(_ : Settable R) in
      let body := eval hnf in inst in
      let abstracted := eval pattern proj in body in
      match abstracted with
      | ?k _ => let s := eval cbv beta in (λ f, k (λ r, f (proj r))) in exact s
      end
  end.

#[export] Hint Extern 1 (Setter _) => derive_setter : typeclass_instances.

Declare Scope enoc_scope.
Delimit Scope enoc_scope with enoc.
Notation "r '.{' proj := v '}'" := (set proj (λ _, v) r)
  (at level 1, left associativity, proj at level 99,
   format "r  '.{'  proj  :=  v  '}'") : enoc_scope.
Notation "r '.{' proj '::=' f '}'" := (set proj f r)
  (at level 1, left associativity, proj at level 99,
   format "r  '.{'  proj  '::='  f  '}'") : enoc_scope.
#[global] Open Scope enoc_scope.

(** ** Faults

    What the C++ program can do instead of returning: read or write outside
    an array, dereference a null pointer, fail an [assert], call [exit], leave the
    range of a conversion, or apply an operator where the language leaves it
    undefined (a shift by the width of the type, a division by zero, a
    signed overflow).  [OutOfFuel] marks a loop of the model that was
    given too little fuel; the theorems show that it never happens. *)

Inductive fault :=
  | OutOfRange
  | NullDeref
  | AssertFailed
  | BadConversion
  | UndefinedOp
  | ExitCalled
  | OutOfFuel.

#[export] Instance fault_eq_dec : EqDecision fault.
Proof. solve_decision. Defined.

Inductive res (A : Type) :=
  | Ok (a : A)
  | Fault (f : fault).
Arguments Ok {A} a.
Arguments Fault {A} f.

#[export] Instance res_eq_dec {A} `{!EqDecision A} : EqDecision (res A).
Proof. solve_decision. Defined.

#[export] Instance res_ret : MRet res := λ A a, Ok a.
#[export] Instance res_bind : MBind res := λ A B f m,
  match m with Ok a => f a | Fault e => Fault e end.

Definition is_Ok {A} (m : res A) : Prop := ∃ a, m = Ok a.

Definition of_option {A} (e : fault) (o : option A) : res A :=
  match o with Some a => Ok a | None => Fault e end.

(** ** State and faults

    A method of a C++ object is a computation on the state of that object. *)

Definition M (S A : Type) : Type := S → res (A * S).

#[export] Instance M_ret {S} : MRet (M S) := λ A a s, Ok (a, s).
#[export] Instance M_bind {S} : MBind (M S) := λ A B f m s,
  match m s with Ok (a, s') => f a s' | Fault e => Fault e end.

Definition get {S} : M S S := λ s, Ok (s, s).
Definition gets {S A} (f : S → A) : M S A := λ s, Ok (f s, s).
Definition put {S} (s : S) : M S unit := λ _, Ok (tt, s).
Definition modify {S} (f : S → S) : M S unit := λ s, Ok (tt, f s).
Definition throw {S A} (e : fault) : M S A := λ _, Fault e.
Definition lift {S A} (m : res A) : M S A := λ s,
  match m with Ok a => Ok (a, s) | Fault e => Fault e end.
(** [assert(b)] *)
Definition check {S} (b : bool) : M S unit :=
  if b then mret tt else throw AssertFailed.
(** [if (b) m;] *)
Definition when {S} (b : bool) (m : M S unit) : M S unit :=
  if b then m else mret tt.
(** dereference of a pointer that may be [NULL] *)
Definition nonnull {S A} (o : option A) : M S A := lift (of_option NullDeref o).

(** [zoom]: run a method of a member object. *)
Definition zoom {S T A} (getter : S → T) (setter : T → S → S) (m : M T A) : M S A :=
  λ s, match m (getter s) with
       | Ok (a, t) => Ok (a, setter t s)
       | Fault e => Fault e
       end.

(** ** Vectors

    [v[i]] of a C++ vector with a signed index: any index outside
    [0 .. size-1] is a fault. *)

Definition vlookup {A} (l : list A) (i : Z) : option A :=
  if decide (0 ≤ i) then l !! Z.to_nat i else None.
Definition vinsert {A} (i : Z) (x : A) (l : list A) : list A :=
  if decide (0 ≤ i) then <[Z.to_nat i := x]> l else l.
Notation "l !z i" := (vlookup l i) (at level 20) : enoc_scope.

Definition vget {A} (l : list A) (i : Z) : res A := of_option OutOfRange (l !z i).
Definition vset {A} (l : list A) (i : Z) (x : A) : res (list A) :=
  match l !z i with Some _ => Ok (vinsert i x l) | None => Fault OutOfRange end.

(** Run a method of the element [i] of a vector of objects. *)
Definition zoom_at {T A} (i : Z) (m : M T A) : M (list T) A := λ l,
  match l !z i with
  | None => Fault OutOfRange
  | Some t => match m t with
              | Ok (a, t') => Ok (a, vinsert i t' l)
              | Fault e => Fault e
              end
  end.

Definition zlength {A} (l : list A) : Z := Z.of_nat (length l).

(** ** Loops *)

Fixpoint for_each {S A} (l : list A) (body : A → M S unit) : M S unit :=
  match l with
  | [] => mret tt
  | a :: l' => body a ;; for_each l' body
  end.

(** a loop that also updates a local variable *)
Fixpoint fold_M {S A B} (body : A → B → M S B) (l : list A) (b : B) : M S B :=
  match l with
  | [] => mret b
  | a :: l' => b' ← body a b; fold_M body l' b'
  end.

(** a loop over a container that replaces every element *)
Fixpoint map_M {S A B} (body : A → M S B) (l : list A) : M S (list B) :=
  match l with
  | [] => mret []
  | a :: l' => b ← body a; bs ← map_M body l'; mret (b :: bs)
  end.

(** a loop that only updates local variables *)
Fixpoint fold_res {A B} (f : A → B → res B) (l : list A) (b : B) : res B :=
  match l with
  | [] => Ok b
  | a :: l' => b' ← f a b; fold_res f l' b'
  end.

(** [for (int i = lo; i < hi; ++i) body(i)] *)
Definition for_range {S} (lo hi : Z) (body : Z → M S unit) : M S unit :=
  for_each (seqZ lo (hi - lo)) body.

(** ** Machine integers *)

Definition to_uint (w z : Z) : Z := z `mod` 2 ^ w.
Definition to_sint (w z : Z) : Z :=
  let u := z `mod` 2 ^ w in if decide (u < 2 ^ (w - 1)) then u else u - 2 ^ w.
(** conversion of a wider integer to [int] *)
Definition to_int (z : Z) : Z := to_sint 32 z.

(** ** Statistics

    A vector of counters is the finite map of those that were touched: [m[k] += n]. *)
Definition bump `{Countable K} (k : K) (n : Z) (m : gmap K Z) : gmap K Z := <[k := default 0 (m !! k) + n]> m.

(** ** [std::map<int, T>]: a list sorted by key *)

Section ordered_map.
Context {V : Type}.
Implicit Types m : list (Z * V).

Fixpoint om_find (k : Z) m : option V :=
  match m with
  | [] => None
  | (k', v) :: m' => if decide (k' = k) then Some v else om_find k m'
  end.

(** [m[k] = v] *)
Fixpoint om_set (k : Z) (v : V) m : list (Z * V) :=
  match m with
  | [] => [(k, v)]
  | (k', v') :: m' =>
      if decide (k < k') then (k, v) :: m
      else if decide (k = k') then (k, v) :: m'
      else (k', v') :: om_set k v m'
  end.

(** [m.insert(make_pair(k, v))]: keeps the element that is there *)
Definition om_insert (k : Z) (v : V) m : list (Z * V) :=
  match om_find k m with Some _ => m | None => om_set k v m end.

(** [m.erase(k)] *)
Fixpoint om_erase (k : Z) m : list (Z * V) :=
  match m with
  | [] => []
  | (k', v') :: m' => if decide (k = k') then m' else (k', v') :: om_erase k m'
  end.

Definition om_wf m : Prop := StronglySorted Z.lt m.*1.
End ordered_map.

(** ** Hoare triples: [m] started in a state of [P] returns and satisfies [Q] *)

Definition triple {S A} (P : S → Prop) (m : M S A) (Q : A → S → Prop) : Prop :=
  ∀ s, P s → ∃ a s', m s = Ok (a, s') ∧ Q a s'.

(** The same for computations that may also end with a fault of [E]. *)
Definition triple_or {S A} (E : fault → Prop) (P : S → Prop) (m : M S A) (Q : A → S → Prop) : Prop :=
  ∀ s, P s → match m s with Ok (a, s') => Q a s' | Fault f => E f end.
Definition only (e : fault) : fault → Prop := λ f, f = e.

(** ** Lemmas: vectors *)

Section vectors.
Context {A : Type}.
Implicit Types (l : list A) (x y : A) (i j : Z).

Lemma vlookup_Some l i x : l !z i = Some x ↔ 0 ≤ i ∧ l !! Z.to_nat i = Some x.
Proof. unfold vlookup. case_decide; [tauto | split; [done | by intros [? _]]]. Qed.

Lemma vlookup_nat l (n : nat) : l !z Z.of_nat n = l !! n.
Proof. unfold vlookup. rewrite decide_True by lia. by rewrite Nat2Z.id. Qed.

Lemma vlookup_is_Some l i : is_Some (l !z i) ↔ 0 ≤ i < zlength l.
Proof.
  unfold vlookup, zlength. case_decide.
  - rewrite lookup_lt_is_Some. lia.
  - split; [intros [? ?]; done | lia].
Qed.

Lemma vlookup_in_range l i : 0 ≤ i < zlength l → ∃ x, l !z i = Some x.
Proof. intros Hi. by apply vlookup_is_Some in Hi. Qed.

Lemma vlookup_Some_range l i x : l !z i = Some x → 0 ≤ i < zlength l.
Proof. intros Hi. apply vlookup_is_Some. by exists x. Qed.

Lemma vlookup_None l i : ¬ (0 ≤ i < zlength l) → l !z i = None.
Proof. intros Hi. rewrite <-vlookup_is_Some in Hi. by apply eq_None_not_Some. Qed.

Lemma zlength_vinsert l i x : zlength (vinsert i x l) = zlength l.
Proof. unfold zlength, vinsert. case_decide; [|done]. by rewrite length_insert. Qed.

Lemma length_vinsert l i x : length (vinsert i x l) = length l.
Proof. unfold vinsert. case_decide; [|done]. by rewrite length_insert. Qed.

Lemma vlookup_vinsert_eq l i x : 0 ≤ i < zlength l → vinsert i x l !z i = Some x.
Proof.
  unfold vlookup, vinsert, zlength. intros. rewrite !decide_True by lia.
  apply list_lookup_insert_eq. lia.
Qed.

Lemma vlookup_vinsert_ne l i j x : i ≠ j → vinsert i x l !z j = l !z j.
Proof.
  unfold vlookup, vinsert. intros. repeat case_decide; try done.
  apply list_lookup_insert_ne. lia.
Qed.

Lemma vlookup_vinsert l i j x y :
  vinsert i x l !z j = Some y →
  (i = j ∧ y = x) ∨ (i ≠ j ∧ l !z j = Some y).
Proof.
  destruct (decide (i = j)) as [->|Hne].
  - intros Hy. left. split; [done|].
    rewrite vlookup_vinsert_eq in Hy; [congruence|].
    apply vlookup_Some_range in Hy. by rewrite zlength_vinsert in Hy.
  - rewrite vlookup_vinsert_ne by done. by right.
Qed.

Lemma vinsert_id l i x : l !z i = Some x → vinsert i x l = l.
Proof.
  unfold vinsert. intros [? Hx]%vlookup_Some. rewrite decide_True by done.
  by apply list_insert_id.
Qed.

Lemma vinsert_vinsert l i x y : vinsert i x (vinsert i y l) = vinsert i x l.
Proof. unfold vinsert. case_decide; [|done]. apply list_insert_insert_eq. Qed.

Lemma vlookup_elem_of l i x : l !z i = Some x → x ∈ l.
Proof. intros [_ Hx]%vlookup_Some. by apply list_elem_of_lookup_2 in Hx. Qed.

Lemma elem_of_vlookup l x : x ∈ l → ∃ i, l !z i = Some x.
Proof.
  intros [n Hn]%list_elem_of_lookup. exists (Z.of_nat n). by rewrite vlookup_nat.
Qed.

Lemma Forall_vinsert (P : A → Prop) l i x :
  Forall P l → P x → Forall P (vinsert i x l).
Proof. intros. unfold vinsert. case_decide; [|done]. by apply Forall_insert. Qed.

Lemma Forall_vlookup (P : A → Prop) l i x : Forall P l → l !z i = Some x → P x.
Proof. intros Hl [_ Hx]%vlookup_Some. eapply Forall_lookup_1; eauto. Qed.

Lemma vget_Some l i x : l !z i = Some x → vget l i = Ok x.
Proof. unfold vget. by intros ->. Qed.

Lemma vset_Some l i x y : l !z i = Some y → vset l i x = Ok (vinsert i x l).
Proof. unfold vset. by intros ->. Qed.

Lemma zoom_at_Some {B} (m : M A B) l i x :
  l !z i = Some x →
  zoom_at i m l =
    match m x with Ok (b, x') => Ok (b, vinsert i x' l) | Fault e => Fault e end.
Proof. unfold zoom_at. by intros ->. Qed.

Lemma vlookup_replicate (n : nat) x i :
  0 ≤ i < Z.of_nat n → replicate n x !z i = Some x.
Proof. intros. apply vlookup_Some. split; [lia|]. apply lookup_replicate_2. lia. Qed.

Lemma zlength_nonneg l : 0 ≤ zlength l.
Proof. unfold zlength. lia. Qed.
End vectors.

(** Two sweeps over a vector that differ in one element. *)
Lemma imap_vinsert {A B} (g g' : nat → A → B) (l : list A) (j : Z) (x : A) :
  l !z j = Some x → (∀ i y, Z.of_nat i ≠ j → g' i y = g i y) →
  imap g' l = vinsert j (g' (Z.to_nat j) x) (imap g l).
Proof.
  intros [Hj Hx]%vlookup_Some Hg. unfold vinsert. rewrite decide_True by done. apply list_eq. intros i.
  rewrite list_lookup_imap. destruct (decide (i = Z.to_nat j)) as [->|Hne].
  - rewrite list_lookup_insert_eq; [by rewrite Hx|]. rewrite length_imap.
    apply lookup_lt_is_Some. by eexists.
  - rewrite list_lookup_insert_ne, list_lookup_imap by done.
    destruct (l !! i); simpl; [|done]. f_equal. apply Hg. lia.
Qed.

Lemma vlookup_imap {A B} (g : nat → A → B) (l : list A) (j : Z) :
  imap g l !z j = g (Z.to_nat j) <$> (l !z j).
Proof. unfold vlookup. case_decide; [|done]. by rewrite list_lookup_imap. Qed.

Lemma zlength_imap {A B} (g : nat → A → B) (l : list A) : zlength (imap g l) = zlength l.
Proof. unfold zlength. by rewrite length_imap. Qed.

(** A vector of size [n] whose element [i] is [f i]. *)
Definition represents {A} (l : list A) (n : Z) (f : Z → A) : Prop :=
  zlength l = n ∧ ∀ i, 0 ≤ i < n → l !z i = Some (f i).

(** the element [i] of a vector as a total function *)
Definition vat {A} (d : A) (l : list A) (i : Z) : A := default d (l !z i).

Section represents.
Context {A : Type}.
Implicit Types (l : list A) (f g : Z → A).

Lemma represents_vat (d : A) l n : zlength l = n → represents l n (vat d l).
Proof.
  intros Hl. split; [done|]. intros i Hi. rewrite <-Hl in Hi.
  apply vlookup_is_Some in Hi as [x Hx]. unfold vat. by rewrite Hx.
Qed.

Lemma represents_lookup l n f i : represents l n f → 0 ≤ i < n → l !z i = Some (f i).
Proof. intros [_ H]. apply H. Qed.

Lemma represents_Some l n f i x : represents l n f → l !z i = Some x → 0 ≤ i < n ∧ x = f i.
Proof.
  intros [Hl H] Hx. pose proof (vlookup_Some_range _ _ _ Hx) as Hi. rewrite Hl in Hi.
  rewrite H in Hx by done. by simplify_eq.
Qed.

Lemma represents_ext l n f g :
  represents l n f → (∀ i, 0 ≤ i < n → f i = g i) → represents l n g.
Proof. intros [Hl H] Hfg. split; [done|]. intros i Hi. rewrite <-Hfg by done. by apply H. Qed.

Lemma represents_vinsert l n f i x :
  represents l n f → 0 ≤ i < n →
  represents (vinsert i x l) n (λ j, if decide (j = i) then x else f j).
Proof.
  intros [Hl H] Hi. split; [by rewrite zlength_vinsert|]. intros j Hj. case_decide.
  - subst. apply vlookup_vinsert_eq. lia.
  - rewrite vlookup_vinsert_ne by done. by apply H.
Qed.

Lemma represents_replicate (x : A) n : 0 ≤ n → represents (replicate (Z.to_nat n) x) n (λ _, x).
Proof.
  intros Hn. split; [unfold zlength; rewrite length_replicate; lia|].
  intros i Hi. apply vlookup_replicate. lia.
Qed.

Lemma represents_unique l l' n f : represents l n f → represents l' n f → l = l'.
Proof.
  intros [Hl H] [Hl' H']. apply list_eq. intros i.
  destruct (decide (Z.of_nat i < n)) as [Hi|Hi].
  - rewrite <-!vlookup_nat, H, H' by lia. done.
  - unfold zlength in *. rewrite !lookup_ge_None_2 by lia. done.
Qed.
End represents.

(** ** Lemmas: triples *)

Section triples.
Context {S : Type}.
Implicit Types (P : S → Prop).

Lemma triple_ret {A} (a : A) (Q : A → S → Prop) : triple (Q a) (mret a) Q.
Proof. intros s HQ. by exists a, s. Qed.

Lemma triple_bind {A B} P (m : M S A) (R : A → S → Prop) (k : A → M S B) Q :
  triple P m R → (∀ a, triple (R a) (k a) Q) → triple P (m ≫= k) Q.
Proof.
  intros Hm Hk s HP. destruct (Hm s HP) as (a & s' & Hrun & HR).
  destruct (Hk a s' HR) as (b & s'' & Hrun' & HQ).
  exists b, s''. split; [|done]. unfold mbind, M_bind. by rewrite Hrun.
Qed.

Lemma triple_conseq {A} P P' (m : M S A) (Q Q' : A → S → Prop) :
  triple P' m Q' → (∀ s, P s → P' s) → (∀ a s, Q' a s → Q a s) → triple P m Q.
Proof.
  intros Hm HP HQ s Hs. destruct (Hm s (HP s Hs)) as (a & s' & ? & ?).
  exists a, s'. eauto.
Qed.

Lemma triple_modify P (f : S → S) (Q : unit → S → Prop) :
  (∀ s, P s → Q tt (f s)) → triple P (modify f) Q.
Proof. intros H s Hs. exists tt, (f s). eauto. Qed.

Lemma triple_gets {A} P (f : S → A) (Q : A → S → Prop) :
  (∀ s, P s → Q (f s) s) → triple P (gets f) Q.
Proof. intros H s Hs. exists (f s), s. eauto. Qed.

Lemma triple_check P (b : bool) (Q : unit → S → Prop) :
  (∀ s, P s → b = true ∧ Q tt s) → triple P (check b) Q.
Proof. intros H s Hs. destruct (H s Hs) as [-> ?]. exists tt, s. eauto. Qed.

Lemma triple_for_each {A} (l : list A) (body : A → M S unit) (I : list A → S → Prop) :
  (∀ pre a post, l = pre ++ a :: post →
     triple (I pre) (body a) (λ _, I (pre ++ [a]))) →
  triple (I []) (for_each l body) (λ _, I l).
Proof.
  intros Hbody.
  enough (∀ post pre, l = pre ++ post →
    triple (I pre) (for_each post body) (λ _, I l)) as Hgen by by apply (Hgen l []).
  induction post as [|a post IH]; intros pre ->.
  - rewrite app_nil_r. intros s HI. exists tt, s. done.
  - simpl. eapply triple_bind; [by apply (Hbody pre a post)|].
    intros []. apply IH. by rewrite <-app_assoc.
Qed.

Lemma triple_for_range (lo hi : Z) (body : Z → M S unit) (I : Z → S → Prop) :
  lo ≤ hi →
  (∀ i, lo ≤ i < hi → triple (I i) (body i) (λ _, I (i + 1))) →
  triple (I lo) (for_range lo hi body) (λ _, I hi).
Proof.
  intros Hle Hbody. unfold for_range.
  eapply triple_conseq;
    [apply (triple_for_each _ _ (λ pre, I (lo + Z.of_nat (length pre))))| |].
  - intros pre i post Heq.
    assert (seqZ lo (hi - lo) !! length pre = Some i) as Hi
      by (rewrite Heq; by apply list_lookup_middle).
    apply lookup_seqZ in Hi as [Hi Hlt]. rewrite <-Hi. clear Heq.
    eapply triple_conseq; [apply Hbody; lia|done|].
    intros [] s. simpl. rewrite length_app. simpl.
    by replace (lo + Z.of_nat (length pre + 1)) with (i + 1) by lia.
  - intros s. simpl. by rewrite Z.add_0_r.
  - intros [] s. simpl. rewrite length_seqZ.
    by replace (lo + Z.of_nat (Z.to_nat (hi - lo))) with hi by lia.
Qed.

(** the same invariant before and after every iteration *)
Lemma triple_for_each_inv {A} (l : list A) (body : A → M S unit) (I : S → Prop) :
  (∀ a, a ∈ l → triple I (body a) (λ _, I)) →
  triple I (for_each l body) (λ _, I).
Proof.
  intros Hbody. apply (triple_for_each l body (λ _, I)).
  intros pre a post Heq. apply Hbody. rewrite Heq. set_solver.
Qed.

Lemma elem_of_range lo hi i : i ∈ seqZ lo (hi - lo) ↔ lo ≤ i < hi.
Proof. rewrite elem_of_seqZ. lia. Qed.
End triples.

Section triples_or.
Context {S : Type} (E : fault → Prop).
Implicit Types (P : S → Prop).

Lemma triple_or_ret {A} (a : A) (Q : A → S → Prop) : triple_or E (Q a) (mret a) Q.
Proof. by intros s HQ. Qed.

Lemma triple_or_bind {A B} P (m : M S A) (R : A → S → Prop) (k : A → M S B) Q :
  triple_or E P m R → (∀ a, triple_or E (R a) (k a) Q) → triple_or E P (m ≫= k) Q.
Proof.
  intros Hm Hk s HP. specialize (Hm s HP). unfold mbind, M_bind. destruct (m s) as [[a s']|f]; [|done].
  by apply Hk.
Qed.

Lemma triple_or_conseq {A} P P' (m : M S A) (Q Q' : A → S → Prop) :
  triple_or E P' m Q' → (∀ s, P s → P' s) → (∀ a s, Q' a s → Q a s) → triple_or E P m Q.
Proof.
  intros Hm HP HQ s Hs. specialize (Hm s (HP s Hs)). destruct (m s) as [[a s']|f]; [|done]. by apply HQ.
Qed.

Lemma triple_or_triple {A} P (m : M S A) Q : triple P m Q → triple_or E P m Q.
Proof. intros Hm s HP. destruct (Hm s HP) as (a & s' & -> & HQ). done. Qed.

Lemma triple_or_pure {A} (φ : Prop) P (m : M S A) Q :
  (φ → triple_or E P m Q) → triple_or E (λ s, φ ∧ P s) m Q.
Proof. intros H s [Hφ HP]. by apply H. Qed.

(** a state-independent part of the precondition *)
Lemma triple_or_lift {A} P (m : res A) (Q : A → S → Prop) :
  (∀ s, P s → match m with Ok a => Q a s | Fault f => E f end) → triple_or E P (lift m) Q.
Proof. intros H s HP. specialize (H s HP). unfold lift. by destruct m. Qed.

Lemma triple_or_gets {A} P (f : S → A) (Q : A → S → Prop) :
  (∀ s, P s → Q (f s) s) → triple_or E P (gets f) Q.
Proof. intros H s HP. by apply H. Qed.

Lemma triple_or_when P (b : bool) (m : M S unit) :
  triple_or E P m (λ _, P) → triple_or E P (when b m) (λ _, P).
Proof. intros Hm. destruct b; [done|]. by intros s HP. Qed.

Lemma triple_or_for_each {A} P (l : list A) (body : A → M S unit) :
  (∀ a, a ∈ l → triple_or E P (body a) (λ _, P)) → triple_or E P (for_each l body) (λ _, P).
Proof.
  induction l as [|a l IH]; intros Hb; [by intros s HP|].
  eapply triple_or_bind; [apply Hb; by left|]. intros []. apply IH. intros. apply Hb. by right.
Qed.

Lemma triple_or_zoom_at {A} (I : S → Prop) (i : Z) (m : M S A) :
  (E OutOfRange) → triple_or E I m (λ _, I) →
  triple_or E (λ l, Forall I l) (zoom_at i m) (λ _ l, Forall I l).
Proof.
  intros HE Hm l Hl. unfold zoom_at. destruct (l !z i) as [t|] eqn:Et; [|done].
  specialize (Hm t (Forall_vlookup _ _ _ _ Hl Et)). destruct (m t) as [[a t']|f]; [|done].
  by apply Forall_vinsert.
Qed.

(** a vector of [n] objects that satisfy [I], and a method of one of them *)
Lemma zoom_at_all {A} (I : S → Prop) n i (m : M S A) :
  E OutOfRange → triple_or E I m (λ _, I) →
  triple_or E (λ l, zlength l = n ∧ Forall I l) (zoom_at i m) (λ _ l, zlength l = n ∧ Forall I l).
Proof.
  intros HE Hm l [Hn Hl]. pose proof (triple_or_zoom_at I i m HE Hm l Hl) as H. revert H.
  unfold zoom_at. destruct (l !z i) as [t|]; [|done]. destruct (m t) as [[a t']|f]; [|done].
  intros H. by rewrite zlength_vinsert.
Qed.
End triples_or.

Lemma triple_or_zoom {S T A} E (getter : S → T) setter (m : M T A) (P : T → Prop) (R : A → T → Prop)
    (Q : A → S → Prop) PS :
  triple_or E P m R → (∀ s, PS s → P (getter s)) →
  (∀ s a t, PS s → R a t → Q a (setter t s)) → triple_or E PS (zoom getter setter m) Q.
Proof.
  intros Hm HP HQ s Hs. unfold zoom. specialize (Hm _ (HP s Hs)). destruct (m (getter s)) as [[a t]|f]; [|done].
  by apply HQ.
Qed.

Lemma fold_res_inv {A B} (f : A → B → res B) (l : list A) (I : list A → B → Prop) b :
  (∀ pre a post b, l = pre ++ a :: post → I pre b → ∃ b', f a b = Ok b' ∧ I (pre ++ [a]) b') →
  I [] b → ∃ b', fold_res f l b = Ok b' ∧ I l b'.
Proof.
  intros Hf.
  enough (∀ post pre b, l = pre ++ post → I pre b → ∃ b', fold_res f post b = Ok b' ∧ I l b')
    as Hgen by by apply (Hgen l []).
  induction post as [|a post IH]; intros pre c -> HI; simpl.
  - rewrite app_nil_r in *. by exists c.
  - destruct (Hf pre a post c eq_refl HI) as (c' & -> & HI').
    apply (IH (pre ++ [a])); [by rewrite <-app_assoc|done].
Qed.

Lemma triple_zoom {S T A} (getter : S → T) setter (m : M T A) P Q (R : A → S → Prop) :
  (∀ s, P s → ∃ a t, m (getter s) = Ok (a, t) ∧ Q a t) →
  (∀ s a t, P s → Q a t → R a (setter t s)) →
  triple P (zoom getter setter m) R.
Proof.
  intros Hm HR s HP. destruct (Hm s HP) as (a & t & Hrun & HQ).
  exists a, (setter t s). unfold zoom. rewrite Hrun. eauto.
Qed.

(** ** Lemmas: ordered maps *)

Section ordered_map_lemmas.
Context {V : Type}.
Implicit Types m : list (Z * V).

Lemma om_find_Some_elem m k v : om_find k m = Some v → (k, v) ∈ m.
Proof.
  induction m as [|[k' v'] m IH]; simpl; [done|].
  case_decide; [intros; simplify_eq; left|right; auto].
Qed.

Lemma om_find_elem m k v : om_wf m → (k, v) ∈ m → om_find k m = Some v.
Proof.
  unfold om_wf. induction m as [|[k' v'] m IH]; simpl; intros Hwf Hin.
  - by apply elem_of_nil in Hin.
  - apply StronglySorted_inv in Hwf as [Hwf Hall].
    apply elem_of_cons in Hin as [?|Hin]; simplify_eq.
    + by rewrite decide_True.
    + rewrite decide_False; [auto|]. intros ->.
      rewrite Forall_forall in Hall.
      enough (k < k) by lia. apply Hall. apply list_elem_of_fmap. by exists (k, v).
Qed.

Lemma om_find_set_eq m k v : om_find k (om_set k v m) = Some v.
Proof.
  induction m as [|[k' v'] m IH]; simpl; [by rewrite decide_True|].
  repeat case_decide; simpl; rewrite ?decide_True by done; try done.
  by rewrite decide_False by lia.
Qed.

Lemma om_find_set_ne m k j v : k ≠ j → om_find j (om_set k v m) = om_find j m.
Proof.
  intros Hne. induction m as [|[k' v'] m IH]; simpl.
  - by rewrite decide_False.
  - repeat case_decide; simpl; subst; repeat case_decide; try done; lia.
Qed.

Lemma om_set_nonempty m k v : om_set k v m ≠ [].
Proof. destruct m as [|[k' v'] m]; simpl; repeat case_decide; done. Qed.

Lemma om_set_keys_elem m k v j : j ∈ (om_set k v m).*1 → j = k ∨ j ∈ m.*1.
Proof.
  induction m as [|[k' v'] m IH]; simpl; [set_solver|].
  repeat case_decide; set_solver.
Qed.

Lemma om_wf_set m k v : om_wf m → om_wf (om_set k v m).
Proof.
  unfold om_wf. induction m as [|[k' v'] m IH]; simpl; intros Hwf.
  - by repeat constructor.
  - apply StronglySorted_inv in Hwf as [Hwf Hall].
    repeat case_decide; simpl; subst; constructor; auto.
    + by constructor.
    + constructor; [done|]. eapply Forall_impl; [done|]. simpl. lia.
    + apply Forall_forall. intros j [->|Hj]%om_set_keys_elem; [lia|].
      by rewrite Forall_forall in Hall; apply Hall.
Qed.

Lemma om_erase_keys_elem m k j : j ∈ (om_erase k m).*1 → j ∈ m.*1.
Proof. induction m as [|[k' v'] m IH]; simpl; [done|]. case_decide; set_solver. Qed.

Lemma om_wf_erase m k : om_wf m → om_wf (om_erase k m).
Proof.
  unfold om_wf. induction m as [|[k' v'] m IH]; simpl; intros Hwf; [done|].
  apply StronglySorted_inv in Hwf as [Hwf Hall].
  case_decide; simpl; [done|]. constructor; [auto|].
  apply Forall_forall. intros j Hj%om_erase_keys_elem.
  by rewrite Forall_forall in Hall; apply Hall.
Qed.

Lemma om_find_None_keys m k : k ∉ m.*1 → om_find k m = None.
Proof.
  induction m as [|[k' v'] m IH]; simpl; [done|]. intros Hk.
  rewrite decide_False by set_solver. apply IH. set_solver.
Qed.

Lemma om_find_erase_eq m k : om_wf m → om_find k (om_erase k m) = None.
Proof.
  unfold om_wf. induction m as [|[k' v'] m IH]; simpl; intros Hwf; [done|].
  apply StronglySorted_inv in Hwf as [Hwf Hall].
  case_decide; simpl.
  - subst. apply om_find_None_keys. intros Hk.
    rewrite Forall_forall in Hall. specialize (Hall _ Hk). lia.
  - rewrite decide_False by done. auto.
Qed.

Lemma om_find_erase_ne m k j : k ≠ j → om_find j (om_erase k m) = om_find j m.
Proof.
  intros Hne. induction m as [|[k' v'] m IH]; simpl; [done|].
  case_decide; simpl; subst; [by rewrite decide_False|].
  case_decide; done.
Qed.
End ordered_map_lemmas.

(** ** Lemmas: machine integers *)

Lemma to_uint_range w z : 0 ≤ w → 0 ≤ to_uint w z < 2 ^ w.
Proof. intros. unfold to_uint. apply Z.mod_pos_bound. lia. Qed.

Lemma to_uint_small w z : 0 ≤ z < 2 ^ w → to_uint w z = z.
Proof. intros. unfold to_uint. by apply Z.mod_small. Qed.

Lemma to_int_range z : -2 ^ 31 ≤ to_int z < 2 ^ 31.
Proof.
  unfold to_int, to_sint.
  pose proof (Z.mod_pos_bound z (2 ^ 32)). simpl Z.sub. case_decide; lia.
Qed.

Lemma to_int_small z : -2 ^ 31 ≤ z < 2 ^ 31 → to_int z = z.
Proof.
  intros Hz. unfold to_int, to_sint. simpl Z.sub.
  destruct (decide (0 ≤ z)).
  - rewrite Z.mod_small by lia. rewrite decide_True; lia.
  - rewrite <-(Z.mod_unique z (2 ^ 32) (-1) (z + 2 ^ 32)) by lia.
    rewrite decide_False; lia.
Qed.

(** ** Automation *)

Create HintDb enoc.
#[export] Hint Rewrite @zlength_vinsert @length_vinsert : enoc.
#[export] Hint Resolve om_wf_set om_wf_erase om_find_set_eq om_set_nonempty : enoc.
#[export] Hint Resolve Forall_vinsert zlength_nonneg : enoc.

(** Case analysis on a lookup in an updated vector. *)
Ltac vinsert_cases H :=
  apply vlookup_vinsert in H as [[? ?]|[? H]]; simplify_eq.

(** Execute the binds of a computation whose steps are known. *)
Ltac run_steps :=
  repeat (first
    [ progress unfold mbind, M_bind, mret, M_ret, res_bind, res_ret
    | progress simpl
    | match goal with H : ?m ?s = Ok _ |- context [?m ?s] => rewrite H end ]).

(** ** Sums of integer lists, and sums modulo [2^w] *)

Fixpoint sumZ (l : list Z) : Z :=
  match l with [] => 0 | a :: l' => a + sumZ l' end.

Section sums.
Context {A : Type} (f : A → Z).
Implicit Types (l : list A) (i : Z) (x y : A).

Lemma sumZ_cons (a : Z) l : sumZ (a :: (f <$> l)) = a + sumZ (f <$> l).
Proof. done. Qed.

Lemma sumZ_app (l1 l2 : list Z) : sumZ (l1 ++ l2) = sumZ l1 + sumZ l2.
Proof. induction l1 as [|a l1 IH]; simpl; [done|]. rewrite IH. lia. Qed.

Lemma sumZ_insert l (n : nat) x y :
  l !! n = Some x → sumZ (f <$> <[n := y]> l) = sumZ (f <$> l) - f x + f y.
Proof.
  revert n. induction l as [|a l IH]; intros n Hn; [done|].
  destruct n as [|n]; csimpl in *; simplify_eq; [lia|].
  specialize (IH _ Hn). lia.
Qed.

Lemma sumZ_vinsert l i x y :
  l !z i = Some x → sumZ (f <$> vinsert i y l) = sumZ (f <$> l) - f x + f y.
Proof.
  intros [Hi Hx]%vlookup_Some. unfold vinsert. rewrite decide_True by done.
  by apply sumZ_insert.
Qed.

Lemma to_int_mod z : to_int z `mod` 2 ^ 32 = z `mod` 2 ^ 32.
Proof.
  unfold to_int, to_sint. simpl Z.sub. case_decide.
  - by rewrite Z.mod_mod by lia.
  - rewrite Zminus_mod, Z.mod_mod, Z_mod_same_full, Z.sub_0_r by lia.
    by rewrite Z.mod_mod by lia.
Qed.

Lemma foldl_to_int_sum l n :
  to_uint 32 (foldl (λ n x, to_int (n + f x)) n l) = (n + sumZ (f <$> l)) `mod` 2 ^ 32.
Proof.
  revert n. induction l as [|a l IH]; intros n; csimpl.
  - unfold to_uint. by rewrite Z.add_0_r.
  - rewrite IH. rewrite <-Zplus_mod_idemp_l, to_int_mod, Zplus_mod_idemp_l.
    csimpl. f_equal. lia.
Qed.

Lemma foldl_to_uint_sum w l n :
  0 ≤ w →
  foldl (λ n x, to_uint w (n + f x)) (n `mod` 2 ^ w) l = (n + sumZ (f <$> l)) `mod` 2 ^ w.
Proof.
  intros Hw. revert n. induction l as [|a l IH]; intros n; csimpl.
  - by rewrite Z.add_0_r.
  - replace (to_uint w (n `mod` 2 ^ w + f a)) with ((n + f a) `mod` 2 ^ w)
      by (unfold to_uint; by rewrite Zplus_mod_idemp_l).
    rewrite IH. csimpl. f_equal. lia.
Qed.
End sums.

(** ** Filters that keep all or nothing *)

Section filters.
Context {A : Type} (P : A → Prop) `{∀ x, Decision (P x)}.

Lemma filter_keep l : Forall P l → filter P l = l.
Proof. induction 1 as [|x l Hx _ IH]; [done|]. rewrite filter_cons_True by done. by rewrite IH. Qed.

Lemma filter_none l : (∀ x, x ∈ l → ¬ P x) → filter P l = [].
Proof.
  intros HP. destruct (filter P l) as [|x l'] eqn:E; [done|].
  assert (Hx : x ∈ filter P l) by (rewrite E; by left).
  apply list_elem_of_filter in Hx as [Hp Hx]. by destruct (HP x Hx).
Qed.
End filters.

(** ** Running a computation step by step *)

Section running.
Context {S : Type}.

Lemma bind_Ok {A B} (m : M S A) (k : A → M S B) s a s' X : m s = Ok (a, s') → k a s' = X → (m ≫= k) s = X.
Proof. intros Hm <-. unfold mbind, M_bind. by rewrite Hm. Qed.

Lemma bind_Fault {A B} (m : M S A) (k : A → M S B) s e : m s = Fault e → (m ≫= k) s = Fault e.
Proof. intros Hm. unfold mbind, M_bind. by rewrite Hm. Qed.

Lemma lift_run {A B} (m : res A) (k : A → M S B) s a X : m = Ok a → k a s = X → (lift m ≫= k) s = X.
Proof. by intros -> <-. Qed.

Lemma check_run {B} (b : bool) (k : unit → M S B) s X : b = true → k tt s = X → (check b ≫= k) s = X.
Proof. by intros -> <-. Qed.

Lemma check_fails {B} (b : bool) (k : unit → M S B) s : b = false → (check b ≫= k) s = Fault AssertFailed.
Proof. by intros ->. Qed.
End running.

(** ** Inversion of a run that returned *)

Section inversion.
Context {S : Type}.

Lemma bind_inv {A B} (m : M S A) (f : A → M S B) s b s' :
  (m ≫= f) s = Ok (b, s') → ∃ a s1, m s = Ok (a, s1) ∧ f a s1 = Ok (b, s').
Proof. unfold mbind, M_bind. destruct (m s) as [[a s1]|]; [|done]. by exists a, s1. Qed.

Lemma lift_inv {A} (m : res A) (s : S) a s' : lift m s = Ok (a, s') → m = Ok a ∧ s' = s.
Proof. unfold lift. destruct m; naive_solver. Qed.

Lemma check_inv b (s : S) u s' : check b s = Ok (u, s') → b = true ∧ s' = s.
Proof. destruct b; unfold check, mret, M_ret, throw; naive_solver. Qed.

Lemma zoom_inv {T A} (g : S → T) st (m : M T A) s a s' :
  zoom g st m s = Ok (a, s') → ∃ t, m (g s) = Ok (a, t) ∧ s' = st t s.
Proof. unfold zoom. destruct (m (g s)) as [[b t]|]; naive_solver. Qed.
End inversion.

Lemma zoom_at_inv {T A} i (m : M T A) l a l' :
  zoom_at i m l = Ok (a, l') → ∃ t t', l !z i = Some t ∧ m t = Ok (a, t') ∧ l' = vinsert i t' l.
Proof.
  unfold zoom_at. destruct (l !z i) as [t|]; [|done]. destruct (m t) as [[b t']|] eqn:Hm; [|done].
  intros [= <- <-]. by exists t, t'.
Qed.

Lemma res_bind_inv {A B} (m : res A) (f : A → res B) b : (m ≫= f) = Ok b → ∃ a, m = Ok a ∧ f a = Ok b.
Proof. destruct m as [a|]; [|done]. by exists a. Qed.

(** take the first step off a run [H] that returned *)
Ltac inv_step H :=
  match type of H with
  | (mbind _ _) _ = Ok _ =>
      let a := fresh "v" in let s := fresh "s" in let H1 := fresh "Hstep" in
      apply bind_inv in H as (a & s & H1 & H);
      lazymatch type of H1 with
      | check _ _ = _ => let Hb := fresh "Hchk" in apply check_inv in H1 as [Hb ->]
      | lift _ _ = _ => let Hb := fresh "Hlift" in apply lift_inv in H1 as [Hb ->]
      | get _ = _ => injection H1 as <- <-
      | gets _ _ = _ => injection H1 as <- <-
      | modify _ _ = _ => injection H1 as <- <-
      | mret _ _ = _ => injection H1 as <- <-
      | _ => idtac
      end
  | mret _ _ = Ok _ => first [discriminate H | injection H; clear H; repeat (intros <-)]
  | modify _ _ = Ok _ => injection H; clear H; repeat (intros <-)
  end.
