(* ===== verification/IntMath.v ===== *)
(** * Bit fields and integer arithmetic ([base/bitfield.hh], [base/intmath.*])

    The helper functions on unsigned integers that the memory system uses,
    with the operators that C++ leaves undefined as faults.  A [uint64_t] is a
    [Z] in [0 .. 2^64 - 1]; subtraction, addition and complement wrap. *)

From Stdlib Require Import Znumtheory.
From S2P Require Import Prelude.

(** ** Operators of [uint64_t] *)

Definition u64 (z : Z) : Z := to_uint 64 z.
Definition u64_not (z : Z) : Z := u64 (Z.lnot z).
(** [val >> n] and [val << n] *)
Definition u64_shr (val n : Z) : res Z :=
  if decide (0 ≤ n < 64) then Ok (Z.shiftr val n) else Fault UndefinedOp.
Definition u64_shl (val n : Z) : res Z :=
  if decide (0 ≤ n < 64) then Ok (u64 (Z.shiftl val n)) else Fault UndefinedOp.
(** a value of type [int] computed without leaving its range *)
Definition int_of (z : Z) : res Z :=
  if decide (-2 ^ 31 ≤ z < 2 ^ 31) then Ok z else Fault UndefinedOp.

(** ** [base/bitfield.hh] *)

Definition mask (nbits : Z) : res Z :=
  if decide (nbits = 64) then Ok (2 ^ 64 - 1)
  else b ← u64_shl 1 nbits; Ok (u64 (b - 1)).

Definition bits (val first last : Z) : res Z :=
  let nbits := first - last + 1 in
  v ← u64_shr val last; m ← mask nbits; Ok (Z.land v m).

Definition bit (val b : Z) : res Z := bits val b b.

Definition mbits (val first last : Z) : res Z :=
  hi ← mask (first + 1); lo ← mask last; Ok (Z.land val (Z.land hi (u64_not lo))).

Definition mask_range (first last : Z) : res Z := mbits (2 ^ 64 - 1) first last.

Definition insertBits (val first last bit_val : Z) : res Z :=
  m ← mask (first - last + 1);
  bmask ← u64_shl m last;
  v ← u64_shl bit_val last;
  Ok (Z.lor (Z.land v bmask) (Z.land val (u64_not bmask))).

(** [if (bits(val, first, last)) { msb += n; val >>= n; }] *)
Definition msb_step (n : Z) (first last : Z) (s : Z * Z) : res (Z * Z) :=
  b ← bits s.2 first last;
  if decide (b = 0) then Ok s else Ok (s.1 + n, Z.shiftr s.2 n).

Definition findMsbSet (val : Z) : res Z :=
  if decide (val = 0) then Ok 0 else
  s ← msb_step 32 63 32 (0, val);
  s ← msb_step 16 31 16 s;
  s ← msb_step 8 15 8 s;
  s ← msb_step 4 7 4 s;
  s ← msb_step 2 3 2 s;
  s ← msb_step 1 1 1 s;
  Ok s.1.

(** [if (!bits(val, first, 0)) { lsb += n; val >>= n; }] *)
Definition lsb_step (n : Z) (first : Z) (s : Z * Z) : res (Z * Z) :=
  b ← bits s.2 first 0;
  if decide (b = 0) then Ok (s.1 + n, Z.shiftr s.2 n) else Ok s.

Definition findLsbSet (val : Z) : res Z :=
  if decide (val = 0) then Ok 64 else
  s ← lsb_step 32 31 (0, val);
  s ← lsb_step 16 15 s;
  s ← lsb_step 8 7 s;
  s ← lsb_step 4 3 s;
  s ← lsb_step 2 1 s;
  s ← lsb_step 1 0 s;
  Ok s.1.

Definition isPow2 (v : Z) : bool := bool_decide (Z.land v (u64 (v - 1)) = 0).

Definition or_shift (k : Z) (val : Z) : Z := Z.lor val (Z.shiftr val k).
Definition alignToPowerOfTwo (val : Z) : Z :=
  let val := u64 (val - 1) in
  let val := or_shift 1 val in
  let val := or_shift 2 val in
  let val := or_shift 4 val in
  let val := or_shift 8 val in
  let val := or_shift 16 val in
  let val := or_shift 32 val in
  u64 (val + 1).

(** ** [base/intmath.hh] *)

Definition leastSigBit (n : Z) : Z := Z.land n (u64_not (u64 (n - 1))).
Definition isPowerOf2 (n : Z) : bool := bool_decide (n ≠ 0 ∧ leastSigBit n = n).

(** [result] after [k] rounds; [int x] counts up to the unsigned [e] *)
Definition power (n e : Z) : res Z :=
  if decide (e = 0) then Ok 1
  else if decide (2 ^ 31 ≤ e) then Fault UndefinedOp
  else Ok (Nat.iter (Z.to_nat (e - 1)) (λ r, u64 (r * n)) n).

(** [if (x & m) { y += n; x >>= n; }] *)
Definition log_step (m n : Z) (s : Z * Z) : Z * Z :=
  if decide (Z.land s.2 m = 0) then s else (s.1 + n, Z.shiftr s.2 n).
(** the five tests that all the overloads share *)
Definition log_steps (s : Z * Z) : Z :=
  (log_step 2 1 (log_step 12 2 (log_step 240 4 (log_step 65280 8 (log_step 4294901760 16 s))))).1.

Definition floorLog2_u32 (x : Z) : res Z :=
  if decide (0 < x) then Ok (log_steps (0, x)) else Fault AssertFailed.
(** [unsigned long] and [unsigned long long] where both have 64 bits *)
Definition floorLog2_u64 (x : Z) : res Z :=
  if decide (0 < x) then Ok (log_steps (log_step 18446744069414584320 32 (0, x)))
  else Fault AssertFailed.
Definition floorLog2_int (x : Z) : res Z :=
  if decide (0 < x) then floorLog2_u32 (to_uint 32 x) else Fault AssertFailed.
Definition floorLog2_long (x : Z) : res Z :=
  if decide (0 < x) then floorLog2_u64 (u64 x) else Fault AssertFailed.

(** the templates at [uint64_t] *)
Definition ceilLog2 (n : Z) : res Z :=
  if decide (n = 1) then Ok 0 else l ← floorLog2_u64 (u64 (n - 1)); Ok (l + 1).
Definition floorPow2 (n : Z) : res Z := l ← floorLog2_u64 n; u64_shl 1 l.
Definition ceilPow2 (n : Z) : res Z := l ← ceilLog2 n; u64_shl 1 l.
Definition divCeil (a b : Z) : res Z :=
  if decide (b = 0) then Fault UndefinedOp else Ok (u64 (a + b - 1) / b).
Definition roundUp (val align : Z) : Z :=
  let m := u64 (align - 1) in Z.land (u64 (val + m)) (u64_not m).
Definition roundDown (val align : Z) : Z :=
  let m := u64 (align - 1) in Z.land val (u64_not m).

(** ** Digits; a [char] is its code *)

Definition isHex (c : Z) : bool :=
  bool_decide (48 ≤ c ≤ 57) || bool_decide (65 ≤ c ≤ 70) || bool_decide (97 ≤ c ≤ 102).
Definition isOct (c : Z) : bool := bool_decide (48 ≤ c ≤ 55).
Definition isDec (c : Z) : bool := bool_decide (48 ≤ c ≤ 57).
Definition hex2Int (c : Z) : Z :=
  if decide (48 ≤ c ≤ 57) then c - 48
  else if decide (65 ≤ c ≤ 70) then c - 65 + 10
  else if decide (97 ≤ c ≤ 102) then c - 97 + 10
  else 0.

(** ** Primes *)

(** [for (i = 5; i*i <= n; i += 6)] at [int]; [%] truncates *)
Fixpoint isPrime_loop (fuel : nat) (i n : Z) : res bool :=
  match fuel with
  | O => Fault OutOfFuel
  | S fuel =>
      sq ← int_of (i * i);
      if decide (sq ≤ n) then
        if decide (Z.rem n i = 0 ∨ Z.rem n (i + 2) = 0) then Ok false
        else i' ← int_of (i + 6); isPrime_loop fuel i' n
      else Ok true
  end.

(** more than the number of candidates up to the square root of [INT_MAX] *)
Definition prime_fuel : nat := 7730.

Definition isPrime (n : Z) : res bool :=
  if decide (n = 2 ∨ n = 3) then Ok true else isPrime_loop prime_fuel 5 n.

Fixpoint prevPrime_loop (fuel : nat) (n decr : Z) : res Z :=
  match fuel with
  | O => Fault OutOfFuel
  | S fuel =>
      p ← isPrime n;
      if (p : bool) then Ok n
      else n' ← int_of (n - decr); prevPrime_loop fuel n' (6 - decr)
  end.

Definition prevPrime (fuel : nat) (n : Z) : res Z :=
  n ← (if decide (Z.land n 1 = 0) then int_of (n - 1) else Ok n);
  let decr := Z.rem n 3 in
  if decide (decr = 0) then n ← int_of (n - 2); prevPrime_loop fuel n 2
  else if decide (decr = 1) then prevPrime_loop fuel n 4
  else prevPrime_loop fuel n decr.

(** ** Lemmas: bit fields *)

Definition is_u64 (x : Z) : Prop := 0 ≤ x < 2 ^ 64.

Lemma u64_range z : is_u64 (u64 z).
Proof. by apply to_uint_range. Qed.

Lemma u64_small z : is_u64 z → u64 z = z.
Proof. apply to_uint_small. Qed.

Lemma int_of_run z : -2 ^ 31 ≤ z < 2 ^ 31 → int_of z = Ok z.
Proof. intros. unfold int_of. by rewrite decide_True. Qed.

Lemma mask_ones n : 0 ≤ n ≤ 64 → mask n = Ok (Z.ones n).
Proof.
  intros Hn. unfold mask. case_decide as Hd; [by subst|]. unfold u64_shl. rewrite decide_True by lia. simpl.
  f_equal. rewrite Z.ones_equiv, Z.shiftl_1_l.
  assert (1 ≤ 2 ^ n < 2 ^ 64) by (split; [lia|apply Z.pow_lt_mono_r; lia]).
  rewrite (u64_small (2 ^ n)) by (unfold is_u64; lia). rewrite u64_small by (unfold is_u64; lia). lia.
Qed.

(** a field of a 64-bit integer, as the quotient and remainder it is *)
Lemma bits_run val first last :
  0 ≤ last ≤ first → first < 64 →
  bits val first last = Ok (Z.shiftr val last `mod` 2 ^ (first - last + 1)).
Proof.
  intros Hl Hf. unfold bits, u64_shr. rewrite decide_True by lia. simpl.
  rewrite mask_ones by lia. simpl. by rewrite Z.land_ones by lia.
Qed.

Lemma shiftr_small x k : 0 ≤ k → 0 ≤ x → (Z.shiftr x k = 0 ↔ x < 2 ^ k).
Proof. intros. rewrite Z.shiftr_div_pow2 by lia. pose proof (Z.pow_pos_nonneg 2 k). rewrite Z.div_small_iff by lia. lia. Qed.

Lemma shiftr_bounds x k w : 0 ≤ k → 0 ≤ x < 2 ^ (k + w) → 0 ≤ w → 0 ≤ Z.shiftr x k < 2 ^ w.
Proof.
  intros Hk Hx Hw. rewrite Z.shiftr_div_pow2 by lia. rewrite Z.pow_add_r in Hx by lia.
  pose proof (Z.pow_pos_nonneg 2 k). split; [apply Z.div_pos; lia|apply Z.div_lt_upper_bound; lia].
Qed.

(** *** Halving searches for the highest bit

    [(y, x)]: of the number [x0], [y] bits have been skipped and [x], of [w]
    bits, is left. *)

Definition log_inv (w x0 : Z) (s : Z * Z) : Prop :=
  0 < s.2 < 2 ^ w ∧ Z.log2 x0 = s.1 + Z.log2 s.2.

Lemma log_inv_init w x : 0 < x < 2 ^ w → log_inv w x (0, x).
Proof. done. Qed.

Lemma log_inv_shift k x0 s :
  0 < k → log_inv (k + k) x0 s → Z.shiftr s.2 k ≠ 0 → log_inv k x0 (s.1 + k, Z.shiftr s.2 k).
Proof.
  intros Hk [Hx Hl] Hs. pose proof (shiftr_bounds s.2 k k ltac:(lia) ltac:(lia) ltac:(lia)).
  split; [simpl; lia|]. simpl. rewrite Hl, Z.log2_shiftr by lia.
  assert (k ≤ Z.log2 s.2); [|lia]. apply Z.log2_le_pow2; [lia|].
  rewrite shiftr_small in Hs by lia. lia.
Qed.

Lemma log_inv_keep k x0 s :
  0 < k → log_inv (k + k) x0 s → Z.shiftr s.2 k = 0 → log_inv k x0 s.
Proof. intros Hk [Hx Hl] Hs%shiftr_small; [|lia..]. split; [lia|done]. Qed.

Lemma log_inv_end x0 s : log_inv 1 x0 s → Z.log2 x0 = s.1.
Proof. intros [Hx ->]. assert (s.2 = 1) as -> by lia. simpl. lia. Qed.

Lemma land_high x k :
  0 < k → 0 ≤ x < 2 ^ (k + k) → Z.land x (Z.shiftl (Z.ones k) k) = Z.shiftl (Z.shiftr x k) k.
Proof.
  intros Hk Hx. apply Z.bits_inj'. intros i Hi. rewrite Z.land_spec, !Z.shiftl_spec by lia.
  destruct (decide (i < k)).
  { by rewrite !(Z.testbit_neg_r _ (i - k)), andb_false_r by lia. }
  rewrite Z.shiftr_spec, Z.testbit_ones_nonneg by lia. replace (i - k + k) with i by lia.
  destruct (decide (i < k + k)); [by rewrite (proj2 (Z.ltb_lt _ _)), andb_true_r by lia|].
  rewrite (proj2 (Z.ltb_ge _ _)), andb_false_r by lia.
  symmetry. rewrite <-(Z.mod_small x (2 ^ (k + k))) by lia. by apply Z.mod_pow2_bits_high; lia.
Qed.

Lemma log_step_inv k x0 s :
  0 < k → log_inv (k + k) x0 s → log_inv k x0 (log_step (Z.shiftl (Z.ones k) k) k s).
Proof.
  intros Hk Hi. unfold log_step. rewrite land_high by (try lia; destruct Hi; lia).
  case_decide as Hd; rewrite Z.shiftl_eq_0_iff in Hd by lia;
    [by apply log_inv_keep|by apply log_inv_shift].
Qed.

Lemma msb_step_run k first x0 s :
  0 < k ≤ 32 → first = k + k - 1 → log_inv (k + k) x0 s →
  ∃ s', msb_step k first k s = Ok s' ∧ log_inv k x0 s'.
Proof.
  intros Hk -> Hi. unfold msb_step. rewrite bits_run by lia. simpl.
  pose proof (shiftr_bounds s.2 k k ltac:(lia) ltac:(destruct Hi; lia) ltac:(lia)) as Hb.
  rewrite Z.mod_small by (split; [lia|eapply Z.lt_le_trans; [apply Hb|apply Z.pow_le_mono_r; lia]]).
  case_decide as Hd; eexists; (split; [done|]); [by apply log_inv_keep; try lia|by apply log_inv_shift; try lia].
Qed.

(** *** The search for the lowest bit *)

Definition low_inv (w x0 : Z) (s : Z * Z) : Prop :=
  0 ≤ s.1 ∧ 0 < s.2 ∧ s.2 `mod` 2 ^ w ≠ 0 ∧ x0 = s.2 * 2 ^ s.1.

Lemma lsb_step_run k first x0 s :
  0 < k ≤ 32 → first = k - 1 → low_inv (k + k) x0 s →
  ∃ s', lsb_step k first s = Ok s' ∧ low_inv k x0 s'.
Proof.
  intros Hk -> (H1 & H2 & Hm & Hx). unfold lsb_step. rewrite bits_run by lia. simpl.
  rewrite Z.shiftr_0_r. replace (k - 1 - 0 + 1) with k by lia.
  case_decide as Hd; eexists; (split; [done|]); [|by repeat split].
  assert (Hp : 0 < 2 ^ k) by (apply Z.pow_pos_nonneg; lia).
  assert (Hq : s.2 = Z.shiftr s.2 k * 2 ^ k).
  { rewrite Z.shiftr_div_pow2 by lia. pose proof (Z.div_mod s.2 (2 ^ k)). lia. }
  split; [simpl; lia|]. simpl. split; [nia|]. split.
  - intros Hz. apply Hm. rewrite Hq, Z.pow_add_r by lia.
    rewrite Zmult_mod_distr_r. by rewrite Hz.
  - rewrite Hx, Hq at 1. rewrite Z.pow_add_r by lia. ring.
Qed.

Lemma low_inv_end x0 s : low_inv 1 x0 s → ∃ q, 0 ≤ s.1 ∧ x0 = (2 * q + 1) * 2 ^ s.1.
Proof.
  intros (H1 & H2 & Hm & Hx). exists (s.2 / 2). split; [done|]. rewrite Hx. f_equal.
  change (2 ^ 1) with 2 in Hm. pose proof (Z.div_mod s.2 2). pose proof (Z.mod_pos_bound s.2 2). lia.
Qed.

(** ** Lemmas: rounding *)

Lemma land_u64 x y : is_u64 x → Z.land x (u64 y) = Z.land x y.
Proof.
  intros Hx. unfold u64, to_uint. rewrite <-Z.land_ones, (Z.land_comm y), Z.land_assoc by lia.
  by rewrite (Z.land_ones x), Z.mod_small by (unfold is_u64 in Hx; lia).
Qed.

Lemma land_not_low x k :
  is_u64 x → 0 ≤ k → Z.land x (u64_not (2 ^ k - 1)) = x - x `mod` 2 ^ k.
Proof.
  intros Hx Hk. unfold u64_not. rewrite land_u64 by done.
  replace (2 ^ k - 1) with (Z.ones k) by (rewrite Z.ones_equiv; lia).
  rewrite <-Z.ldiff_land, Z.ldiff_ones_r by lia. rewrite Z.shiftl_mul_pow2, Z.shiftr_div_pow2 by lia.
  pose proof (Z.pow_pos_nonneg 2 k). pose proof (Z.div_mod x (2 ^ k)). lia.
Qed.

Lemma pow2_u64 k : 0 ≤ k < 64 → is_u64 (2 ^ k) ∧ is_u64 (2 ^ k - 1).
Proof.
  intros Hk. unfold is_u64. assert (1 ≤ 2 ^ k < 2 ^ 64) by (split; [lia|apply Z.pow_lt_mono_r; lia]). lia.
Qed.

(** rounding down to a power of two *)
Lemma roundDown_run val k :
  is_u64 val → 0 ≤ k < 64 → roundDown val (2 ^ k) = val - val `mod` 2 ^ k.
Proof.
  intros Hv Hk. unfold roundDown. pose proof (pow2_u64 k Hk) as [_ ?].
  rewrite (u64_small (2 ^ k - 1)) by done. apply land_not_low; [done|lia].
Qed.

(** rounding up: the sum must not wrap *)
Lemma roundUp_run val k :
  is_u64 val → 0 ≤ k < 64 → val + 2 ^ k - 1 < 2 ^ 64 →
  roundUp val (2 ^ k) = (val + 2 ^ k - 1) - (val + 2 ^ k - 1) `mod` 2 ^ k.
Proof.
  intros Hv Hk Hs. unfold roundUp. pose proof (pow2_u64 k Hk) as [_ ?].
  assert (1 ≤ 2 ^ k) by lia. unfold is_u64 in *.
  rewrite (u64_small (2 ^ k - 1)) by done. rewrite (u64_small (val + _)) by (unfold is_u64; lia).
  rewrite land_not_low by (unfold is_u64; lia). by rewrite Z.add_sub_assoc.
Qed.

Lemma divCeil_run a b :
  0 ≤ a → 0 < b → a + b - 1 < 2 ^ 64 →
  ∃ q, divCeil a b = Ok q ∧ 0 ≤ q ∧ a ≤ q * b < a + b.
Proof.
  intros Ha Hb Hs. unfold divCeil. rewrite decide_False by lia.
  rewrite u64_small by (unfold is_u64; lia). eexists. split; [done|].
  pose proof (Z.div_mod (a + b - 1) b). pose proof (Z.mod_pos_bound (a + b - 1) b).
  split; [apply Z.div_pos; lia|nia].
Qed.

(** *** Powers of two *)

Lemma isPow2_spec v : is_u64 v → isPow2 v = true ↔ v = 0 ∨ ∃ k, 0 ≤ k ∧ v = 2 ^ k.
Proof.
  intros Hv. unfold isPow2. rewrite bool_decide_eq_true. destruct (decide (v = 0)) as [->|H0].
  { split; [by left|done]. }
  unfold is_u64 in Hv. rewrite (u64_small (v - 1)) by (unfold is_u64; lia).
  set (k := Z.log2 v). pose proof (Z.log2_nonneg v) as Hk. fold k in Hk.
  pose proof (Z.log2_spec v ltac:(lia)) as Hlog. fold k in Hlog. rewrite Z.pow_succ_r in Hlog by lia.
  split.
  - intros Hz. right. exists k. split; [done|]. destruct (decide (v = 2 ^ k)) as [|Hne]; [done|].
    assert (Hb : Z.testbit (Z.land v (v - 1)) k = true).
    { assert (Hk' : Z.testbit v k = true) by (apply Z.bit_log2; lia).
      rewrite Z.land_spec, Hk'. simpl.
      replace k with (Z.log2 (v - 1)); [apply Z.bit_log2; lia|].
      apply Z.log2_unique; [done|]. rewrite Z.pow_succ_r by lia. lia. }
    by rewrite Hz, Z.bits_0 in Hb.
  - intros [?|(j & Hj & ->)]; [done|].
    replace (2 ^ j - 1) with (Z.ones j) by (rewrite Z.ones_equiv; lia).
    rewrite Z.land_ones by lia. apply Z.mod_same. lia.
Qed.

(** *** Filling the bits below the highest one

    [smeared x k y]: bit [i] of [y] is set when [x] has a bit in [i .. i+k-1]. *)

Definition smeared (x k y : Z) : Prop :=
  0 ≤ y ∧ ∀ i, 0 ≤ i → Z.testbit y i = true ↔ ∃ j, i ≤ j < i + k ∧ Z.testbit x j = true.

Lemma smeared_init x : 0 ≤ x → smeared x 1 x.
Proof.
  intros Hx. split; [done|]. intros i Hi. split; [intros ?; exists i; split; [lia|done]|].
  intros (j & ? & ?). by replace i with j by lia.
Qed.

Lemma smeared_step x k y : 0 < k → smeared x k y → smeared x (k + k) (or_shift k y).
Proof.
  intros Hk [Hy Hs]. unfold or_shift. split.
  { apply Z.lor_nonneg. split; [done|]. by apply Z.shiftr_nonneg. }
  intros i Hi. rewrite Z.lor_spec, Z.shiftr_spec, orb_true_iff by lia.
  rewrite !Hs by lia. split.
  - intros [(j & ? & ?)|(j & ? & ?)]; exists j; (split; [lia|done]).
  - intros (j & ? & ?). destruct (decide (j < i + k)); [left|right]; exists j; (split; [lia|done]).
Qed.

Lemma smeared_end x y : 0 < x < 2 ^ 64 → smeared x 64 y → y = Z.ones (Z.log2 x + 1).
Proof.
  intros Hx [Hy Hs]. pose proof (Z.log2_nonneg x).
  assert (Hl : Z.log2 x < 64) by (apply Z.log2_lt_pow2; lia).
  apply Z.bits_inj'. intros i Hi. apply eq_true_iff_eq. rewrite Hs by done.
  rewrite Z.testbit_ones_nonneg, Z.ltb_lt by lia. split.
  - intros (j & Hj & Hb). destruct (decide (Z.log2 x < j)); [|lia].
    by rewrite Z.bits_above_log2 in Hb by lia.
  - intros Hlt. exists (Z.log2 x). split; [lia|]. apply Z.bit_log2. lia.
Qed.

(** ** Properties *)

(** The searches for the highest and for the lowest set bit are right on every
    64-bit integer: for a nonzero value [findMsbSet] and [floorLog2] return
    the integer logarithm and [findLsbSet] the exponent of the largest power of two that
    divides it, no shift of theirs being undefined; for zero [findMsbSet] returns 0,
    which is also its answer for one, [findLsbSet] returns 64 and [floorLog2] fails
    its assertion. *)
Theorem bit_searches_are_logarithms (val : Z) (Hval : is_u64 val) :
  if decide (val = 0) then
    findMsbSet val = Ok 0 ∧ findMsbSet 1 = Ok 0 ∧ findLsbSet val = Ok 64
    ∧ floorLog2_u64 val = Fault AssertFailed
  else
    findMsbSet val = Ok (Z.log2 val) ∧ floorLog2_u64 val = Ok (Z.log2 val)
    ∧ ∃ l q, findLsbSet val = Ok l ∧ 0 ≤ l ∧ val = (2 * q + 1) * 2 ^ l.
Proof.
  case_decide as Hz; [by subst|]. unfold is_u64 in Hval.
  assert (Hi : log_inv (32 + 32) val (0, val)) by (by split; [simpl; lia|]). split; [|split].
  - unfold findMsbSet. rewrite decide_False by done.
    destruct (msb_step_run 32 63 _ _ ltac:(lia) eq_refl Hi) as (s1 & -> & H1). simpl.
    destruct (msb_step_run 16 31 _ _ ltac:(lia) eq_refl H1) as (s2 & -> & H2). simpl.
    destruct (msb_step_run 8 15 _ _ ltac:(lia) eq_refl H2) as (s3 & -> & H3). simpl.
    destruct (msb_step_run 4 7 _ _ ltac:(lia) eq_refl H3) as (s4 & -> & H4). simpl.
    destruct (msb_step_run 2 3 _ _ ltac:(lia) eq_refl H4) as (s5 & -> & H5). simpl.
    destruct (msb_step_run 1 1 _ _ ltac:(lia) eq_refl H5) as (s6 & -> & H6). simpl.
    f_equal. symmetry. by apply log_inv_end.
  - unfold floorLog2_u64. rewrite decide_True by lia. f_equal. symmetry. unfold log_steps.
    apply log_inv_end. do 6 (apply log_step_inv; [lia|]). done.
  - unfold findLsbSet. rewrite decide_False by done.
    assert (H0 : low_inv (32 + 32) val (0, val)).
    { repeat split; simpl; try lia. by rewrite Z.mod_small by lia. }
    destruct (lsb_step_run 32 31 _ _ ltac:(lia) eq_refl H0) as (s1 & -> & H1). simpl.
    destruct (lsb_step_run 16 15 _ _ ltac:(lia) eq_refl H1) as (s2 & -> & H2). simpl.
    destruct (lsb_step_run 8 7 _ _ ltac:(lia) eq_refl H2) as (s3 & -> & H3). simpl.
    destruct (lsb_step_run 4 3 _ _ ltac:(lia) eq_refl H3) as (s4 & -> & H4). simpl.
    destruct (lsb_step_run 2 1 _ _ ltac:(lia) eq_refl H4) as (s5 & -> & H5). simpl.
    destruct (lsb_step_run 1 0 _ _ ltac:(lia) eq_refl H5) as (s6 & -> & H6). simpl.
    destruct (low_inv_end _ _ H6) as (q & ? & ?). by exists s6.1, q.
Qed.

Lemma bit_searches_are_logarithms_witness :
  is_u64 40 ∧ findMsbSet 40 = Ok 5 ∧ floorLog2_u64 40 = Ok 5.
Proof.
  assert (H : is_u64 40) by (unfold is_u64; lia). split; [done|].
  pose proof (bit_searches_are_logarithms 40 H) as (H1 & H2 & _). by split.
Defined.

(** Rounding up to a power of two: the least power that is not smaller, and
    zero when that power is [2^64] or the argument is zero. *)
Theorem align_is_least_power (val : Z) (Hval : is_u64 val) :
  if decide (1 ≤ val ≤ 2 ^ 63) then
    ∃ k, 0 ≤ k ≤ 63 ∧ alignToPowerOfTwo val = 2 ^ k ∧ val ≤ 2 ^ k ∧ (k = 0 ∨ 2 ^ (k - 1) < val)
  else alignToPowerOfTwo val = 0.
Proof.
  unfold is_u64 in Hval. assert (Hrun : 1 < val → alignToPowerOfTwo val = u64 (2 ^ (Z.log2 (val - 1) + 1))).
  { intros H1. unfold alignToPowerOfTwo. rewrite (u64_small (val - 1)) by (unfold is_u64; lia).
    f_equal. erewrite (smeared_end (val - 1) (or_shift 32 _)); [rewrite Z.ones_equiv; lia|lia|].
    apply (smeared_step _ 32); [lia|]. apply (smeared_step _ 16); [lia|]. apply (smeared_step _ 8); [lia|].
    apply (smeared_step _ 4); [lia|]. apply (smeared_step _ 2); [lia|]. apply (smeared_step _ 1); [lia|].
    apply smeared_init. lia. }
  destruct (decide (val = 0)) as [->|]; [done|]. destruct (decide (val = 1)) as [->|].
  { rewrite decide_True by lia. exists 0. repeat split; [lia|lia|lia|by left]. }
  rewrite Hrun by lia. pose proof (Z.log2_spec (val - 1) ltac:(lia)) as [Hlo Hhi].
  rewrite <-Z.add_1_r in Hhi. pose proof (Z.log2_nonneg (val - 1)). case_decide as Hd.
  - assert (Z.log2 (val - 1) < 63) by (apply Z.log2_lt_pow2; lia).
    exists (Z.log2 (val - 1) + 1). rewrite Z.add_simpl_r. split; [lia|]. split; [|lia].
    apply u64_small. apply pow2_u64. lia.
  - assert (Z.log2 (val - 1) = 63) as -> by (apply Z.log2_unique; [lia|split; simpl; lia]). done.
Qed.

(** *** Trial division *)

Lemma prime_of_no_small_divisor n i :
  1 < n → n < i * i → 0 < i → (∀ d, 1 < d < i → ¬ (d | n)) → prime n.
Proof.
  intros Hn Hi Hi0 Hd. apply prime_alt. split; [done|]. intros d Hd1 [e He].
  assert (1 < e < n) by nia. destruct (decide (d < i)); [by apply (Hd d); [lia|exists e]|].
  apply (Hd e); [nia|]. exists d. lia.
Qed.

Lemma no_divisor_of_multiple n d k : k ≠ 0 → ¬ (k | n) → (k | d) → ¬ (d | n).
Proof. intros _ Hk Hd Hn. apply Hk. by eapply Z.divide_trans. Qed.

Section trial_division.
Context (n : Z) (Hn : 5 ≤ n < 2147117569) (H2 : ¬ (2 | n)) (H3 : ¬ (3 | n)).

Lemma rem_zero_divide d : 0 < d → Z.rem n d = 0 ↔ (d | n).
Proof. intros Hd. rewrite Z.rem_divide by lia. done. Qed.

Lemma next_candidates i j :
  i = 5 + 6 * j → 0 ≤ j → (∀ d, 1 < d < i → ¬ (d | n)) → ¬ (i | n) → ¬ (i + 2 | n) →
  ∀ d, 1 < d < i + 6 → ¬ (d | n).
Proof.
  intros Hij Hj Hlt Hi Hi2 d Hd. destruct (decide (d < i)); [by apply Hlt; lia|].
  destruct (decide (d = i)) as [->|]; [done|]. destruct (decide (d = i + 2)) as [->|]; [done|].
  destruct (decide (d = i + 4)) as [->|].
  - apply (no_divisor_of_multiple n _ 3); [done..|]. exists (3 + 2 * j). lia.
  - apply (no_divisor_of_multiple n _ 2); [done..|].
    pose proof (Z.div_mod d 2). pose proof (Z.mod_pos_bound d 2).
    assert (d = i + 1 ∨ d = i + 3 ∨ d = i + 5) as [-> | [-> | ->]] by lia;
      [exists (3 + 3 * j)|exists (4 + 3 * j)|exists (5 + 3 * j)]; lia.
Qed.

Lemma isPrime_loop_run fuel j :
  let i := 5 + 6 * j in
  0 ≤ j → i ≤ 46337 → 46337 < i + 6 * Z.of_nat fuel → (∀ d, 1 < d < i → ¬ (d | n)) →
  ∃ b, isPrime_loop fuel i n = Ok b ∧ (b = true ↔ prime n).
Proof.
  revert j. induction fuel as [|fuel IH]; intros j i Hj Hi Hf Hd; [lia|]. cbn [isPrime_loop].
  assert (Hij : i = 5 + 6 * j) by done. clearbody i.
  assert (0 ≤ i * i ≤ 46337 * 46337) by (split; [nia|apply Z.mul_le_mono_nonneg; lia]).
  rewrite (int_of_run (i * i)) by lia. cbn [mbind res_bind].
  case_decide as Hsq.
  - assert (i < 46337) by nia. case_decide as Hdiv.
    + exists false. split; [done|]. split; [done|]. intros Hp. exfalso.
      apply prime_alt in Hp as [_ Hp]. destruct Hdiv as [Hdiv|Hdiv];
        (apply rem_zero_divide in Hdiv; [|lia]); eapply Hp; try exact Hdiv; nia.
    + rewrite int_of_run by lia. cbn [mbind res_bind]. replace (i + 6) with (5 + 6 * (j + 1)) by lia.
      apply IH; [lia..|]. replace (5 + 6 * (j + 1)) with (i + 6) by lia.
      apply (next_candidates i j); [done..| |]; rewrite <-rem_zero_divide by lia; tauto.
  - exists true. split; [done|]. split; [|done]. intros _.
    apply (prime_of_no_small_divisor n i); [lia..|done].
Qed.

(** on the numbers that the search for a prime is meant to visit, [isPrime] is right *)
Lemma isPrime_run : ∃ b, isPrime n = Ok b ∧ (b = true ↔ prime n).
Proof.
  unfold isPrime. rewrite decide_False by lia.
  apply (isPrime_loop_run prime_fuel 0); [lia|lia|by vm_compute|].
  intros d Hd. destruct (decide (d = 2)) as [->|]; [done|]. destruct (decide (d = 3)) as [->|]; [done|].
  assert (d = 4) as -> by lia. apply (no_divisor_of_multiple n 4 2); [done..|by exists 2].
Qed.
End trial_division.

(** [isPrime] decides primality, without a signed overflow, of every number from 5 up to
    2147117568 that neither 2 nor 3 divides; on the multiples of 2 and 3 it answers
    as if they were not tried, so 4 and 9 count as primes.  [prevPrime] is
    meant to visit only the former numbers but starts stepping in the wrong phase: after
    25 it tries 21, after 35 it tries 33, and it returns both. *)
Theorem prevPrime_returns_composites :
  (∀ n, 5 ≤ n < 2147117569 → ¬ (2 | n) → ¬ (3 | n) → ∃ b, isPrime n = Ok b ∧ (b = true ↔ prime n))
  ∧ isPrime 4 = Ok true ∧ isPrime 9 = Ok true
  ∧ (∀ fuel, (2 ≤ fuel)%nat → prevPrime fuel 25 = Ok (3 * 7))
  ∧ (∀ fuel, (2 ≤ fuel)%nat → prevPrime fuel 35 = Ok (3 * 11)).
Proof.
  split; [exact isPrime_run|]. split; [by vm_compute|]. split; [by vm_compute|].
  split; intros [|[|fuel]] Hf; try lia; by vm_compute.
Qed.

Example ex_msb : findMsbSet 0x8000000100000000 = Ok 63. Proof. reflexivity. Qed.
Example ex_lsb : findLsbSet 0x8000000100000000 = Ok 32. Proof. reflexivity. Qed.
Example ex_align : alignToPowerOfTwo 1000 = 1024. Proof. reflexivity. Qed.
Example ex_prev : prevPrime 10 100 = Ok 97. Proof. vm_compute. reflexivity. Qed.
Example ex_prev35 : prevPrime 10 35 = Ok 33. Proof. vm_compute. reflexivity. Qed.
Example ex_prev25 : prevPrime 10 25 = Ok 21. Proof. vm_compute. reflexivity. Qed.
