(* ===== verification/Double.v ===== *)
(** * C++ [double]: IEEE 754 binary64

    The arithmetic of the energy model, executed by the Standard Library's
    specification of binary floating point (round to nearest, ties to even).
    Every operation below is the correctly rounded one, so a computation of
    the model gives the bits the program computes. *)

From Stdlib Require Import SpecFloat.
From S2P Require Import Prelude.

Definition double := spec_float.

Definition prec : Z := 53.
Definition emax : Z := 1024.

Definition d_add (x y : double) : double := SFadd prec emax x y.
Definition d_mul (x y : double) : double := SFmul prec emax x y.
Definition d_div (x y : double) : double := SFdiv prec emax x y.
Definition d_eqb (x y : double) : bool := SFeqb x y.
Definition d_ltb (x y : double) : bool := SFltb x y.

(** conversion of an integer *)
Definition d_of_Z (z : Z) : double := binary_normalize prec emax z 0 false.

(** the literal [m * 10^-k]; exact integers up to 2^53 make the quotient
    the correctly rounded value of the decimal literal (up to k = 22) *)
Definition d_dec (m k : Z) : double := d_div (d_of_Z m) (d_of_Z (10 ^ k)).

Definition d_zero : double := S754_zero false.

(** conversion to [int]: truncation toward zero, a fault outside its range *)
Definition d_to_int (d : double) : res Z :=
  match d with
  | S754_zero _ => Ok 0
  | S754_finite s m e =>
      let a := if decide (0 ≤ e) then Z.pos m * 2 ^ e else Z.pos m / 2 ^ (- e) in
      let z := if s then - a else a in
      if decide (-2 ^ 31 ≤ z < 2 ^ 31) then Ok z else Fault BadConversion
  | _ => Fault BadConversion
  end.

(** conversion to [uint64_t] *)
Definition d_to_uint64 (d : double) : res Z :=
  match d with
  | S754_zero _ => Ok 0
  | S754_finite s m e =>
      let a := if decide (0 ≤ e) then Z.pos m * 2 ^ e else Z.pos m / 2 ^ (- e) in
      let z := if s then - a else a in
      if decide (0 ≤ z < 2 ^ 64) then Ok z else Fault BadConversion
  | _ => Fault BadConversion
  end.

Declare Scope double_scope.
Delimit Scope double_scope with D.
Bind Scope double_scope with spec_float.
Infix "+" := d_add : double_scope.
Infix "*" := d_mul : double_scope.
Infix "/" := d_div : double_scope.

#[export] Instance double_eq_dec : EqDecision double.
Proof. solve_decision. Defined.

Example d_add_ex : (d_of_Z 2 + d_of_Z 3)%D = d_of_Z 5.
Proof. reflexivity. Qed.
Example d_dec_ex : d_dec 25 2 = (d_of_Z 1 / d_of_Z 4)%D.
Proof. reflexivity. Qed.
Example d_to_int_ex : d_to_int (d_dec (-27) 1) = Ok (-2).
Proof. reflexivity. Qed.
