(* ===== verification/NoCMain.v ===== *)
(** * Constants, packets and flits

    [NoCMain.h], [flit.h] and [flit.cpp]: the parameters of the network, the
    packets of the traffic manager, and the flits.  Flits are heap objects
    that routers and channels share by pointer; [Flits] is the heap: a
    pointer is an index of the list, and the program never frees a flit. *)

From S2P Require Import Prelude Double.

Definition NUMBER_OF_NODES : Z := 64.
Definition DIRECTORY_ADDRESS_0 : Z := 8.
Definition DIRECTORY_ADDRESS_1 : Z := 24.
Definition DIRECTORY_ADDRESS_2 : Z := 40.
Definition DIRECTORY_ADDRESS_3 : Z := 56.

Definition DEFAULT_MESH_DIM_X : Z := 8.
Definition DEFAULT_NUM_VCS : Z := 8.
Definition DEFAULT_VCS_SIZE : Z := 8.
Definition _total_sims_def : Z := 78000.

(** [0.25*1e-9], [1e-12] and [0.25] *)
Definition CYCLE_TIME : double := (d_dec 25 2 * d_dec 1 9)%D.
Definition BIT_TRANSITION_DYNAMIC_ENERGY : double := d_dec 1 12.
Definition SWITCHING_ACTIVITY : double := d_dec 25 2.

Definition SIGNALING_LEVEL : Z := 0.
Definition SIGNALING_TRANSITION : Z := 1.
Definition ENCODING_BINARY : Z := 0.
Definition ENCODING_BUS_INVERT : Z := 1.

Inductive FlitType := FLIT_TYPE_HEAD | FLIT_TYPE_BODY | FLIT_TYPE_TAIL.
#[export] Instance FlitType_eq_dec : EqDecision FlitType.
Proof. solve_decision. Defined.

(** [struct PacketNoC]; [data] is a [std::string], a list of characters *)
Record PacketNoC := mkPacketNoC {
  pk_src_id : Z;
  pk_dst_id : Z;
  pk_size : Z;
  pk_flit_left : Z;
  pk_packet_type : Z;
  pk_data : list Z;
  pk_time : Z;
}.
#[export] Instance PacketNoC_settable : Settable PacketNoC := λ r,
  mkPacketNoC (pk_src_id r) (pk_dst_id r) (pk_size r) (pk_flit_left r)
    (pk_packet_type r) (pk_data r) (pk_time r).

(** [RandomInt]: the generator is commented out in the source *)
Definition RandomInt (max : Z) : Z := max + 1.

(** ** Flits *)

Record Flit := mkFlit {
  src_id : Z;
  dst_id : Z;
  flit_type : FlitType;
  sequence_no : Z;
  payload : Z;                     (* uint32_t *)
  timestamp : Z;
  flipNumber : Z;                  (* unsigned long long *)
  flit_is_inverted : bool;
  f_vc : Z;
  output_port_vc_start : Z;
  output_port_vc_end : Z;
  output_port : Z;
  out_vc : Z;
  link_dynamic_energy : double;
  buffer_dynamic_energy : double;
  crossbar_dynamic_energy : double;
  vc_allocator_dynamic_energy : double;
  sw_allocator_dynamic_energy : double;
  packet_type : Z;
}.
#[export] Instance Flit_settable : Settable Flit := λ r,
  mkFlit (src_id r) (dst_id r) (flit_type r) (sequence_no r) (payload r) (timestamp r)
    (flipNumber r) (flit_is_inverted r) (f_vc r) (output_port_vc_start r)
    (output_port_vc_end r) (output_port r) (out_vc r) (link_dynamic_energy r)
    (buffer_dynamic_energy r) (crossbar_dynamic_energy r)
    (vc_allocator_dynamic_energy r) (sw_allocator_dynamic_energy r) (packet_type r).

(** [Flit::Flit()]: the constructor leaves the fields it does not name as
    they are in [raw], the storage [new] returned. *)
Definition Flit_Flit (raw : Flit) : Flit :=
  raw.{src_id := -1}.{dst_id := -1}.{timestamp := -1}.{f_vc := 0}
     .{link_dynamic_energy := d_zero}.{buffer_dynamic_energy := d_zero}
     .{crossbar_dynamic_energy := d_zero}.{vc_allocator_dynamic_energy := d_zero}
     .{sw_allocator_dynamic_energy := d_zero}.

Definition Update_link_dyn_energy (e : double) (f : Flit) : Flit :=
  f.{link_dynamic_energy ::= λ d, d_add d e}.
Definition Update_buff_dyn_energy (e : double) (f : Flit) : Flit :=
  f.{buffer_dynamic_energy ::= λ d, d_add d e}.
Definition Update_xbar_dyn_energy (e : double) (f : Flit) : Flit :=
  f.{crossbar_dynamic_energy ::= λ d, d_add d e}.
Definition Update_VCA_dyn_energy (e : double) (f : Flit) : Flit :=
  f.{vc_allocator_dynamic_energy ::= λ d, d_add d e}.
Definition Update_SWA_dyn_energy (e : double) (f : Flit) : Flit :=
  f.{sw_allocator_dynamic_energy ::= λ d, d_add d e}.

Definition Get_link_dyn_energy (f : Flit) : double := link_dynamic_energy f.
Definition Get_buff_dyn_energy (f : Flit) : double := buffer_dynamic_energy f.
Definition Get_xbar_dyn_energy (f : Flit) : double := crossbar_dynamic_energy f.
Definition Get_VCA_dyn_energy (f : Flit) : double := vc_allocator_dynamic_energy f.
Definition Get_SWA_dyn_energy (f : Flit) : double := sw_allocator_dynamic_energy f.

Definition SetOutputVC (vcnumber : Z) (f : Flit) : Flit := f.{out_vc := vcnumber}.
Definition GetOutputVC (f : Flit) : Z := out_vc f.

(** ** The heap of flits *)

Abbreviation flit_ptr := nat (only parsing).
Abbreviation Flits := (list Flit) (only parsing).

(** [Flit::New()] *)
Definition Flit_New (raw : Flit) : M Flits flit_ptr := λ h,
  Ok (length h, h ++ [Flit_Flit raw]).

(** read and write through a pointer *)
Definition deref (p : flit_ptr) : M Flits Flit := λ h,
  match h !! p with Some f => Ok (f, h) | None => Fault NullDeref end.
Definition update (p : flit_ptr) (g : Flit → Flit) : M Flits unit := λ h,
  match h !! p with Some f => Ok (tt, <[p := g f]> h) | None => Fault NullDeref end.
