(* ===== verification/Config.v ===== *)
(** * Configuration ([config.h], [config.cpp])

    The three string-keyed maps of a [Configuration], the defaults of its
    constructor and its accessors.  An unknown field is reported on [cout]
    and answered with a default value, as in the source; [ParseFile] and
    [ShowConfigParameters] only read a file and print, and are not modelled. *)

From S2P Require Import Prelude Double.

Record Configuration := mkConfiguration {
  _str_map : gmap string string;
  _int_map : gmap string Z;
  _float_map : gmap string double;
}.
#[export] Instance Configuration_settable : Settable Configuration := λ r,
  mkConfiguration (_str_map r) (_int_map r) (_float_map r).

Definition AddStrField (field value : string) (c : Configuration) : Configuration :=
  c.{_str_map ::= <[field := value]>}.

Definition GetStr (field : string) (c : Configuration) : string :=
  match _str_map c !! field with Some v => v | None => "exit"%string end.
Definition GetInt (field : string) (c : Configuration) : Z :=
  match _int_map c !! field with Some v => v | None => -1 end.
Definition GetFloat (field : string) (c : Configuration) : double :=
  match _float_map c !! field with Some v => v | None => d_of_Z (-1) end.

Definition Assign_str (field value : string) (c : Configuration) : Configuration :=
  c.{_str_map ::= <[field := value]>}.
Definition Assign_int (field : string) (value : Z) (c : Configuration) : Configuration :=
  c.{_int_map ::= <[field := value]>}.
Definition Assign_float (field : string) (value : double) (c : Configuration) : Configuration :=
  c.{_float_map ::= <[field := value]>}.

Local Open Scope string_scope.

(** [Configuration::Configuration()]; a literal such as [14.35*1e-9] is the
    rounded product of two literals. *)
Definition default_ints : list (string * Z) :=
  [("use_noc_latency", 1); ("dimx", 8); ("dimy", 8); ("in_ports", 5); ("out_ports", 5);
   ("num_vcs", 8); ("vcs_size", 8); ("_total_sims", 1)]%Z.

Definition default_floats : list (string * double) :=
  [("SCALING_FACTOR_45n_TO_32nm_LATENCY", d_dec 91 2);
   ("SCALING_FACTOR_45n_TO_32nm_POWER", d_dec 66 2);
   ("SCALING_FACTOR_45n_TO_32nm_ENERGY", d_dec 66 2);
   ("InvX1_delay", d_dec 1 11);
   ("InvX1_leakagePower", (d_dec 1435 2 * d_dec 1 9)%D);
   ("InvX1_dynamicEnergy", (d_dec 185 2 * d_dec 1 15)%D);
   ("AND2_X1_delay", d_dec 2 11);
   ("AND2_X1_leakagePower", (d_dec 2507 2 * d_dec 1 9)%D);
   ("AND2_X1_dynamicEnergy", (d_dec 304 2 * d_dec 1 15)%D);
   ("OR2_X1_delay", d_dec 4 11);
   ("OR2_X1_leakagePower", (d_dec 2269 2 * d_dec 1 9)%D);
   ("OR2_X1_dynamicEnergy", (d_dec 310 2 * d_dec 1 15)%D);
   ("OR4_X1_delay", d_dec 11 11);
   ("OR4_X1_leakagePower", (d_dec 2673 2 * d_dec 1 9)%D);
   ("OR4_X1_dynamicEnergy", (d_dec 467 2 * d_dec 1 15)%D);
   ("FF_X1_delay", d_dec 8 11);
   ("FF_X1_leakagePower", (d_dec 7911 2 * d_dec 1 9)%D);
   ("FF_X1_dynamicEnergy", (d_dec 436 2 * d_dec 1 15)%D)].

Definition Configuration_Configuration : Configuration :=
  AddStrField "encoding" "binary"
    (AddStrField "signaling" "level"
       (AddStrField "routing_function" "xy"
          (mkConfiguration ∅
             (foldl (λ m kv, <[kv.1 := kv.2]> m) ∅ default_ints)
             (foldl (λ m kv, <[kv.1 := kv.2]> m) ∅ default_floats)))).

(** ** Lemmas *)

Section accessors.
Implicit Types (c : Configuration) (k : string).

(** Each kind of value has its own map: assigning one kind changes neither
    the other kinds nor the other fields of its own kind. *)
Lemma GetStr_Assign_str c k k' v :
  GetStr k' (Assign_str k v c) = if decide (k = k') then v else GetStr k' c.
Proof. unfold GetStr, Assign_str. simpl. rewrite lookup_insert. by case_decide. Qed.

Lemma GetInt_Assign_int c k k' v :
  GetInt k' (Assign_int k v c) = if decide (k = k') then v else GetInt k' c.
Proof. unfold GetInt, Assign_int. simpl. rewrite lookup_insert. by case_decide. Qed.

Lemma GetFloat_Assign_float c k k' v :
  GetFloat k' (Assign_float k v c) = if decide (k = k') then v else GetFloat k' c.
Proof. unfold GetFloat, Assign_float. simpl. rewrite lookup_insert. by case_decide. Qed.
End accessors.

Example default_dimx : GetInt "dimx" Configuration_Configuration = 8%Z.
Proof. vm_compute. reflexivity. Qed.
Example default_missing : GetInt "cycle_time" Configuration_Configuration = (-1)%Z.
Proof. vm_compute. reflexivity. Qed.
