(* ===== verification/Element.v ===== *)
(** * Circuit elements and the energy meter ([element.h], [energy.h], [energy.cpp])

    The cells, the allocators built from them, and the [Energy] accumulator
    of a router, computed in binary64 as the program computes them.  A field
    that a constructor leaves unset has the value of the storage, the [raw]
    argument. *)

From S2P Require Import Prelude Double NoCMain Config.

Record Element := mkElement {
  area : double;
  delay : double;
  leakage_power : double;
  dynamic_energy : double;
}.
#[export] Instance Element_settable : Settable Element := λ r,
  mkElement (area r) (delay r) (leakage_power r) (dynamic_energy r).

Local Abbreviation LATENCY := "SCALING_FACTOR_45n_TO_32nm_LATENCY"%string.
Local Abbreviation POWER := "SCALING_FACTOR_45n_TO_32nm_POWER"%string.
Local Abbreviation ENERGY := "SCALING_FACTOR_45n_TO_32nm_ENERGY"%string.

(** the shape of the five [Initialize] functions of the cells *)
Definition cell_Initialize (kd kl ke : string) (config : Configuration) (e : Element) : Element :=
  e.{delay := (GetFloat LATENCY config * GetFloat kd config)%D}
   .{leakage_power := (GetFloat POWER config * GetFloat kl config)%D}
   .{dynamic_energy := (GetFloat ENERGY config * GetFloat ke config)%D}.

Definition Inv_Initialize : Configuration → Element → Element :=
  cell_Initialize "InvX1_delay" "InvX1_leakagePower" "InvX1_dynamicEnergy".
Definition AND2_X1_Initialize : Configuration → Element → Element :=
  cell_Initialize "AND2_X1_delay" "AND2_X1_leakagePower" "AND2_X1_dynamicEnergy".
Definition OR2_X1_Initialize : Configuration → Element → Element :=
  cell_Initialize "OR2_X1_delay" "OR2_X1_leakagePower" "OR2_X1_dynamicEnergy".
Definition OR4_X1_Initialize : Configuration → Element → Element :=
  cell_Initialize "OR4_X1_delay" "OR4_X1_leakagePower" "OR4_X1_dynamicEnergy".
Definition FF_X1_Initialize : Configuration → Element → Element :=
  cell_Initialize "FF_X1_delay" "FF_X1_leakagePower" "FF_X1_dynamicEnergy".

(** [class InputBuffer]: its constructor does not set [dynamic_energy] *)
Record InputBuffer := mkInputBuffer {
  inb_element : Element;
  dynamic_energy_per_vc : double;
}.
Definition InputBuffer_InputBuffer (raw : Element) : InputBuffer :=
  mkInputBuffer
    raw.{delay := (d_dec 780 3 * d_dec 1 9)%D}.{leakage_power := (d_dec 1697 3 * d_dec 1 7)%D}
    (d_dec 745 3 * d_dec 1 12)%D.

(** The gates of one arbiter cell:
    [3*and2 + 2*or2 + 2*not1 + ff1], in the order of the C++ expression. *)
Definition cell_sum (and2 or2 not1 ff1 : double) : double :=
  (d_of_Z 3 * and2 + d_of_Z 2 * or2 + d_of_Z 2 * not1 + ff1)%D.

Section allocators.
Variables (raw : Element) (config : Configuration).
Let and2 := AND2_X1_Initialize config raw.
Let or2 := OR2_X1_Initialize config raw.
Let or4 := OR4_X1_Initialize config raw.
Let not1 := Inv_Initialize config raw.
Let ff1 := FF_X1_Initialize config raw.

Definition allocator_delay : double :=
  (delay or4 + delay not1 + delay and2 + delay or2)%D.
(** [int leakage_tmp = ...], [int dynamic_tmp = ...]: converted to [int] *)
Definition leakage_tmp : res Z :=
  d_to_int (cell_sum (leakage_power and2) (leakage_power or2) (leakage_power not1)
              (leakage_power ff1)).
Definition dynamic_tmp : res Z :=
  d_to_int (cell_sum (dynamic_energy and2) (dynamic_energy or2) (dynamic_energy not1)
              (dynamic_energy ff1)).

Definition VCAllocator_Initialize (e : Element) : res Element :=
  l ← leakage_tmp;
  d ← dynamic_tmp;
  Ok (e.{delay := allocator_delay}
       .{leakage_power :=
           (d_of_Z (5 * 8 * l + 8 * 5 * l) + d_of_Z 5 * leakage_power or4
            + d_of_Z 8 * leakage_power or4)%D}
       .{dynamic_energy :=
           (d_of_Z (5 * 8 * d + 8 * 5 * d) + d_of_Z 5 * dynamic_energy or4
            + d_of_Z 8 * dynamic_energy or4)%D}).

Definition SWAllocator_Initialize (e : Element) : res Element :=
  l ← leakage_tmp;
  d ← dynamic_tmp;
  Ok (e.{delay := allocator_delay}
       .{leakage_power := (d_of_Z (5 * 5 * l) + d_of_Z 5 * leakage_power or4)%D}
       .{dynamic_energy := (d_of_Z (5 * 5 * d) + d_of_Z 5 * dynamic_energy or4)%D}).
End allocators.

Definition CrossBar_Initialize (config : Configuration) (e : Element) : Element :=
  e.{delay := (GetFloat LATENCY config * d_dec 15 2 * d_dec 1 9)%D}
   .{leakage_power := (GetFloat POWER config * d_of_Z 170 * d_dec 14372 2 * d_dec 1 9)%D}
   .{dynamic_energy := (GetFloat ENERGY config * d_of_Z 170 * d_dec 152 1 * d_dec 1 15)%D}.

(** ** [class Energy] *)

Record Energy := mkEnergy {
  cycle_time : double;
  SwitchingActivity : double;
  e_dynamic_energy : double;
  e_static_energy : double;
  e_swa : Element;
  e_vca : Element;
  e_inb : InputBuffer;
  e_xbar : Element;
}.
#[export] Instance Energy_settable : Settable Energy := λ r,
  mkEnergy (cycle_time r) (SwitchingActivity r) (e_dynamic_energy r) (e_static_energy r)
    (e_swa r) (e_vca r) (e_inb r) (e_xbar r).

Definition Energy_Energy (raw : Element) : Energy :=
  mkEnergy CYCLE_TIME SWITCHING_ACTIVITY d_zero d_zero raw raw (InputBuffer_InputBuffer raw) raw.

Definition Energy_Initialize (raw : Element) (config : Configuration) (e : Energy) : res Energy :=
  swa ← SWAllocator_Initialize raw config (e_swa e);
  vca ← VCAllocator_Initialize raw config (e_vca e);
  Ok (e.{e_swa := swa}.{e_vca := vca}.{e_xbar ::= CrossBar_Initialize config}).

Definition add_dynamic (d : double) (e : Energy) : Energy :=
  e.{e_dynamic_energy ::= λ x, (x + SwitchingActivity e * d)%D}.
Definition add_static (p : double) (e : Energy) : Energy :=
  e.{e_static_energy ::= λ x, (x + p * cycle_time e)%D}.

Definition InputBuffer_dynamic_energy_per_vc_access (e : Energy) : Energy :=
  add_dynamic (dynamic_energy (inb_element (e_inb e))) e.
Definition InputBuffer_static_energy (e : Energy) : Energy :=
  add_static (leakage_power (inb_element (e_inb e))) e.
Definition VCAlocator_dynamic_energy (e : Energy) : Energy :=
  add_dynamic (dynamic_energy (e_vca e)) e.
Definition VCAlocator_static_energy (e : Energy) : Energy :=
  add_static (leakage_power (e_vca e)) e.
Definition SWAlocator_dynamic_energy (e : Energy) : Energy :=
  add_dynamic (dynamic_energy (e_swa e)) e.
Definition SWAlocator_static_energy (e : Energy) : Energy :=
  add_static (leakage_power (e_swa e)) e.
Definition CrossBar_dynamic_energy (e : Energy) : Energy :=
  add_dynamic (dynamic_energy (e_xbar e)) e.
Definition CrossBar_static_energy (e : Energy) : Energy :=
  add_static (leakage_power (e_xbar e)) e.

Definition GetStaticEnergy (e : Energy) : double := e_static_energy e.
Definition GetDynamicEnergy (e : Energy) : double := e_dynamic_energy e.

(** ** Properties *)

(** [std::double] values the cell sums would have without the conversion *)
Definition leakage_sum (raw : Element) (config : Configuration) : double :=
  cell_sum (leakage_power (AND2_X1_Initialize config raw))
    (leakage_power (OR2_X1_Initialize config raw))
    (leakage_power (Inv_Initialize config raw))
    (leakage_power (FF_X1_Initialize config raw)).

Lemma default_tmp raw :
  leakage_tmp raw Configuration_Configuration = Ok 0 ∧
  dynamic_tmp raw Configuration_Configuration = Ok 0.
Proof. split; vm_compute; reflexivity. Qed.

(** A cell conversion that yields 0 leaves only the OR4 gates in the model. *)
Lemma VCAllocator_of_tmp raw config e l d :
  leakage_tmp raw config = Ok l → dynamic_tmp raw config = Ok d →
  VCAllocator_Initialize raw config e =
    Ok (e.{delay := allocator_delay raw config}
         .{leakage_power :=
             (d_of_Z (5 * 8 * l + 8 * 5 * l)
              + d_of_Z 5 * leakage_power (OR4_X1_Initialize config raw)
              + d_of_Z 8 * leakage_power (OR4_X1_Initialize config raw))%D}
         .{dynamic_energy :=
             (d_of_Z (5 * 8 * d + 8 * 5 * d)
              + d_of_Z 5 * dynamic_energy (OR4_X1_Initialize config raw)
              + d_of_Z 8 * dynamic_energy (OR4_X1_Initialize config raw))%D}).
Proof. intros Hl Hd. unfold VCAllocator_Initialize. by rewrite Hl, Hd. Qed.

Lemma SWAllocator_of_tmp raw config e l d :
  leakage_tmp raw config = Ok l → dynamic_tmp raw config = Ok d →
  SWAllocator_Initialize raw config e =
    Ok (e.{delay := allocator_delay raw config}
         .{leakage_power :=
             (d_of_Z (5 * 5 * l) + d_of_Z 5 * leakage_power (OR4_X1_Initialize config raw))%D}
         .{dynamic_energy :=
             (d_of_Z (5 * 5 * d)
              + d_of_Z 5 * dynamic_energy (OR4_X1_Initialize config raw))%D}).
Proof. intros Hl Hd. unfold SWAllocator_Initialize. by rewrite Hl, Hd. Qed.

Lemma Energy_Initialize_Ok raw config e l d :
  leakage_tmp raw config = Ok l → dynamic_tmp raw config = Ok d →
  is_Ok (Energy_Initialize raw config e).
Proof.
  intros Hl Hd. unfold Energy_Initialize.
  rewrite (SWAllocator_of_tmp _ _ _ _ _ Hl Hd). cbn [mbind res_bind].
  rewrite (VCAllocator_of_tmp _ _ _ _ _ Hl Hd). cbn [mbind res_bind].
  by eexists.
Qed.
