(* ===== verification/Stats.v ===== *)
(** * Statistics of a router ([statsNoC.h], [statsNoC.cpp])

    What a router records about the flits that reach their destination:
    a [CommHistory] per source node, the totals per flit type, and the
    totals per packet type.  Counters have the width of their C++ type. *)

From S2P Require Import Prelude Double NoCMain Config Element.

Definition Num_Packet_Types : nat := 9.

Record CommHistory := mkCommHistory {
  ch_src_id : Z;
  delays : list double;
  total_received_flits : Z;      (* unsigned int *)
  total_received_packets : Z;    (* unsigned int *)
  flip_numbers : Z;              (* unsigned long long *)
  ch_link : double;
  ch_buffer : double;
  ch_crossbar : double;
  ch_vc_allocator : double;
  ch_sw_allocator : double;
}.
#[export] Instance CommHistory_settable : Settable CommHistory := λ r,
  mkCommHistory (ch_src_id r) (delays r) (total_received_flits r) (total_received_packets r)
    (flip_numbers r) (ch_link r) (ch_buffer r) (ch_crossbar r) (ch_vc_allocator r)
    (ch_sw_allocator r).

Record packet_info := mkpacket_info {
  pi_flip_numbers : Z;           (* unsigned long long *)
  pi_dynamic : double;
  pi_link : double;
  pi_buffer : double;
  pi_crossbar : double;
  pi_vc_allocator : double;
  pi_sw_allocator : double;
}.
#[export] Instance packet_info_settable : Settable packet_info := λ r,
  mkpacket_info (pi_flip_numbers r) (pi_dynamic r) (pi_link r) (pi_buffer r) (pi_crossbar r)
    (pi_vc_allocator r) (pi_sw_allocator r).

Record StatsNoC := mkStatsNoC {
  energy_router : Energy;
  head_flit_dynamic_energy : double;
  body_flit_dynamic_energy : double;
  tail_flit_dynamic_energy : double;
  Num_head_flit : double;
  Num_body_flit : double;
  Num_tail_flit : double;
  chist : list CommHistory;
  pkt_info : list packet_info;
}.
#[export] Instance StatsNoC_settable : Settable StatsNoC := λ r,
  mkStatsNoC (energy_router r) (head_flit_dynamic_energy r) (body_flit_dynamic_energy r)
    (tail_flit_dynamic_energy r) (Num_head_flit r) (Num_body_flit r) (Num_tail_flit r)
    (chist r) (pkt_info r).

(** the value-initialised elements of [chist.resize(2)] and [pkt_info.resize] *)
Definition CommHistory_zero : CommHistory :=
  mkCommHistory 0 [] 0 0 0 d_zero d_zero d_zero d_zero d_zero.
Definition packet_info_zero : packet_info :=
  mkpacket_info 0 d_zero d_zero d_zero d_zero d_zero d_zero.

Definition StatsNoC_StatsNoC (raw : Element) : StatsNoC :=
  mkStatsNoC (Energy_Energy raw) d_zero d_zero d_zero d_zero d_zero d_zero
    (replicate 2 CommHistory_zero) (replicate Num_Packet_Types packet_info_zero).

(** [searchCommHistory]: the first index whose source is [src], or -1 *)
Fixpoint search_from (i : Z) (src : Z) (l : list CommHistory) : Z :=
  match l with
  | [] => -1
  | ch :: l' => if decide (ch_src_id ch = src) then i else search_from (i + 1) src l'
  end.
Definition searchCommHistory (src : Z) (s : StatsNoC) : Z := search_from 0 src (chist s).

Definition u32_incr (n : Z) : Z := to_uint 32 (n + 1).
Definition u64_add (n m : Z) : Z := to_uint 64 (n + m).

(** [SWITCHING_ACTIVITY * e] *)
Definition switched (e : double) : double := (SWITCHING_ACTIVITY * e)%D.

(** the history of a source seen for the first time, and the update of a known one *)
Definition new_history (f : Flit) : CommHistory :=
  mkCommHistory (src_id f) [] 0 0 (flipNumber f) (link_dynamic_energy f)
    (switched (buffer_dynamic_energy f)) (switched (crossbar_dynamic_energy f))
    (switched (vc_allocator_dynamic_energy f)) (switched (sw_allocator_dynamic_energy f)).

Definition add_history (f : Flit) (ch : CommHistory) : CommHistory :=
  ch.{flip_numbers ::= λ n, u64_add n (flipNumber f)}
    .{ch_link ::= λ d, (d + link_dynamic_energy f)%D}
    .{ch_buffer ::= λ d, (d + switched (buffer_dynamic_energy f))%D}
    .{ch_crossbar ::= λ d, (d + switched (crossbar_dynamic_energy f))%D}
    .{ch_vc_allocator ::= λ d, (d + switched (vc_allocator_dynamic_energy f))%D}
    .{ch_sw_allocator ::= λ d, (d + switched (sw_allocator_dynamic_energy f))%D}.

Definition count_flit (arrival_time : Z) (f : Flit) (ch : CommHistory) : CommHistory :=
  (if decide (flit_type f = FLIT_TYPE_HEAD)
   then ch.{total_received_packets ::= u32_incr} else ch)
    .{delays ::= λ l, l ++ [d_of_Z (arrival_time - timestamp f)] }
    .{total_received_flits ::= u32_incr}.

Definition flit_energy (f : Flit) : double :=
  (link_dynamic_energy f
   + SWITCHING_ACTIVITY * (buffer_dynamic_energy f + crossbar_dynamic_energy f
       + vc_allocator_dynamic_energy f + sw_allocator_dynamic_energy f))%D.

Definition d_incr (d : double) : double := (d + d_of_Z 1)%D.

Definition count_type (f : Flit) (s : StatsNoC) : StatsNoC :=
  match flit_type f with
  | FLIT_TYPE_HEAD =>
      s.{head_flit_dynamic_energy ::= λ d, (d + flit_energy f)%D}.{Num_head_flit ::= d_incr}
  | FLIT_TYPE_BODY =>
      s.{body_flit_dynamic_energy ::= λ d, (d + flit_energy f)%D}.{Num_body_flit ::= d_incr}
  | FLIT_TYPE_TAIL =>
      s.{tail_flit_dynamic_energy ::= λ d, (d + flit_energy f)%D}.{Num_tail_flit ::= d_incr}
  end.

Definition add_packet_info (f : Flit) (p : packet_info) : packet_info :=
  p.{pi_flip_numbers ::= λ n, u64_add n (flipNumber f)}
   .{pi_link ::= λ d, (d + link_dynamic_energy f)%D}
   .{pi_buffer ::= λ d, (d + switched (buffer_dynamic_energy f))%D}
   .{pi_crossbar ::= λ d, (d + switched (crossbar_dynamic_energy f))%D}
   .{pi_vc_allocator ::= λ d, (d + switched (vc_allocator_dynamic_energy f))%D}
   .{pi_sw_allocator ::= λ d, (d + switched (sw_allocator_dynamic_energy f))%D}
   .{pi_dynamic ::= λ d, (d + flit_energy f)%D}.

Definition modify_at {A} (i : Z) (g : A → A) (l : list A) : res (list A) :=
  x ← vget l i; vset l i (g x).

Definition receivedFlit (arrival_time : Z) (f : Flit) : M StatsNoC unit := λ s,
  let i := searchCommHistory (src_id f) s in
  hist_i ← (if decide (i = -1)
            then Ok (chist s ++ [new_history f], zlength (chist s))
            else h ← modify_at i (add_history f) (chist s); Ok (h, i));
  h ← modify_at hist_i.2 (count_flit arrival_time f) hist_i.1;
  let s := count_type f (s.{chist := h}) in
  p ← modify_at (packet_type f) (add_packet_info f) (pkt_info s);
  Ok (tt, s.{pkt_info := p}).

(** ** Accessors: the sums over the histories *)

(** [int n = 0; ... n += chist[i].total_received_flits; return n;] *)
Definition getReceivedFlits (s : StatsNoC) : Z :=
  to_uint 32 (foldl (λ n ch, to_int (n + total_received_flits ch)) 0 (chist s)).
Definition getReceivedPackets (s : StatsNoC) : Z :=
  to_uint 32 (foldl (λ n ch, to_int (n + total_received_packets ch)) 0 (chist s)).
Definition getNumberFlips (s : StatsNoC) : Z :=
  foldl (λ n ch, u64_add n (flip_numbers ch)) 0 (chist s).
(** the comparison converts [flipnum] to the unsigned type of the counter *)
Definition getNumberFlips_Num (flipnum : Z) (s : StatsNoC) : Z :=
  to_uint 32 (foldl (λ n ch,
    if decide (to_uint 64 flipnum = flip_numbers ch) then n + 1 else n) 0 (chist s)).

Definition d_sum (l : list double) : double := foldl d_add d_zero l.

Definition getAverageDelay (s : StatsNoC) : double :=
  let total_flits := to_int (getReceivedFlits s) in
  if decide (total_flits = 0) then d_zero
  else (foldl (λ sum ch, foldl d_add sum (delays ch)) d_zero (chist s) / d_of_Z total_flits)%D.

Definition Stats_Get_link_dyn_energy (s : StatsNoC) : double := d_sum (ch_link <$> chist s).
Definition Stats_Get_buff_dyn_energy (s : StatsNoC) : double := d_sum (ch_buffer <$> chist s).
Definition Stats_Get_xbar_dyn_energy (s : StatsNoC) : double := d_sum (ch_crossbar <$> chist s).
Definition Stats_Get_VCA_dyn_energy (s : StatsNoC) : double := d_sum (ch_vc_allocator <$> chist s).
Definition Stats_Get_SWA_dyn_energy (s : StatsNoC) : double := d_sum (ch_sw_allocator <$> chist s).

Definition Get_head_flit_dynamic_energy (s : StatsNoC) : double := head_flit_dynamic_energy s.
Definition Get_body_flit_dynamic_energy (s : StatsNoC) : double := body_flit_dynamic_energy s.
Definition Get_tail_flit_dynamic_energy (s : StatsNoC) : double := tail_flit_dynamic_energy s.
Definition Get_Num_head_flit (s : StatsNoC) : double := Num_head_flit s.
Definition Get_Num_body_flit (s : StatsNoC) : double := Num_body_flit s.
Definition Get_Num_tail_flit (s : StatsNoC) : double := Num_tail_flit s.

(** ** Lemmas *)

Lemma search_from_spec i src l :
  0 ≤ i →
  (search_from i src l = -1 ∧ Forall (λ ch, ch_src_id ch ≠ src) l) ∨
  (∃ ch, l !z (search_from i src l - i) = Some ch ∧ ch_src_id ch = src ∧
         i ≤ search_from i src l).
Proof.
  revert i. induction l as [|a l IH]; intros i Hi; simpl; [by left|].
  case_decide as Ha.
  - right. exists a. by rewrite Z.sub_diag.
  - destruct (IH (i + 1)) as [[Hs Hall]|(ch & Hch & Hsrc & Hle)]; [lia| |].
    + left. by split; [|constructor].
    + right. exists ch. split_and!; [|done|lia].
      apply vlookup_Some in Hch as [H0 Hch]. apply vlookup_Some. split; [lia|].
      replace (Z.to_nat _) with (S (Z.to_nat (search_from (i + 1) src l - (i + 1)))) by lia.
      done.
Qed.

Lemma searchCommHistory_found src s :
  searchCommHistory src s ≠ -1 →
  ∃ ch, chist s !z searchCommHistory src s = Some ch ∧ ch_src_id ch = src.
Proof.
  unfold searchCommHistory. intros Hne.
  destruct (search_from_spec 0 src (chist s)) as [[? _]|(ch & Hch & ? & _)]; [lia|done|].
  exists ch. by rewrite Z.sub_0_r in Hch.
Qed.

Lemma modify_at_Some {A} i (g : A → A) l x :
  l !z i = Some x → modify_at i g l = Ok (vinsert i (g x) l).
Proof.
  intros Hx. unfold modify_at. rewrite (vget_Some _ _ _ Hx). run_steps.
  by rewrite (vset_Some _ _ _ _ Hx).
Qed.

Definition is_head (f : Flit) : Z := if decide (flit_type f = FLIT_TYPE_HEAD) then 1 else 0.

(** The three totals of a state, and the flits it can take. *)
Definition sum_flits (s : StatsNoC) : Z := sumZ (total_received_flits <$> chist s).
Definition sum_packets (s : StatsNoC) : Z := sumZ (total_received_packets <$> chist s).
Definition sum_flips (s : StatsNoC) : Z := sumZ (flip_numbers <$> chist s).
Definition stats_wf (s : StatsNoC) : Prop := length (pkt_info s) = Num_Packet_Types.
Definition countable_flit (f : Flit) : Prop := 0 ≤ packet_type f < Z.of_nat Num_Packet_Types.

Lemma StatsNoC_StatsNoC_wf raw : stats_wf (StatsNoC_StatsNoC raw).
Proof. done. Qed.

Lemma count_type_frame f s :
  chist (count_type f s) = chist s ∧ pkt_info (count_type f s) = pkt_info s ∧
  energy_router (count_type f s) = energy_router s.
Proof. unfold count_type. by destruct (flit_type f). Qed.

(** the effect on the histories, shared by both branches of [receivedFlit] *)
Definition history_step (t : Z) (f : Flit) (s : StatsNoC) (h' : list CommHistory) : Prop :=
  (∃ ch, chist s !z searchCommHistory (src_id f) s = Some ch ∧ ch_src_id ch = src_id f ∧
     h' = vinsert (searchCommHistory (src_id f) s) (count_flit t f (add_history f ch)) (chist s)) ∨
  (searchCommHistory (src_id f) s = -1 ∧
     h' = chist s ++ [count_flit t f (new_history f)]).

Lemma receivedFlit_run t f s :
  stats_wf s → countable_flit f →
  ∃ s', receivedFlit t f s = Ok (tt, s') ∧ stats_wf s' ∧
        energy_router s' = energy_router s ∧ history_step t f s (chist s').
Proof.
  intros Hwf Hf. unfold receivedFlit.
  destruct (vlookup_in_range (pkt_info s) (packet_type f)) as [p Hp].
  { unfold countable_flit in Hf. unfold zlength. rewrite Hwf. lia. }
  case_decide as Hi; run_steps.
  - erewrite modify_at_Some
      by (unfold zlength; rewrite vlookup_nat; by apply list_lookup_middle).
    run_steps. match goal with |- context [count_type f ?x] =>
      destruct (count_type_frame f x) as (Hc & Hpi & He) end.
    rewrite Hpi. simpl. rewrite (modify_at_Some _ _ _ _ Hp). run_steps.
    eexists. split_and!; [done| |exact He|].
    + unfold stats_wf. simpl. by rewrite length_vinsert.
    + right. split; [done|]. simpl. rewrite Hc. simpl.
      unfold vinsert, zlength. rewrite decide_True by lia. rewrite Nat2Z.id.
      rewrite insert_app_r_alt by lia. by rewrite Nat.sub_diag.
  - destruct (searchCommHistory_found _ _ Hi) as (ch & Hch & Hsrc).
    rewrite (modify_at_Some _ _ _ _ Hch). run_steps.
    erewrite modify_at_Some; [|apply vlookup_vinsert_eq; by eapply vlookup_Some_range].
    run_steps. rewrite vinsert_vinsert.
    match goal with |- context [count_type f ?x] =>
      destruct (count_type_frame f x) as (Hc & Hpi & He) end.
    rewrite Hpi. simpl. rewrite (modify_at_Some _ _ _ _ Hp). run_steps.
    eexists. split_and!; [done| |exact He|].
    + unfold stats_wf. simpl. by rewrite length_vinsert.
    + left. exists ch. split_and!; [done|done|]. simpl. by rewrite Hc.
Qed.

Lemma count_flit_flits t f ch :
  total_received_flits (count_flit t f ch) = to_uint 32 (total_received_flits ch + 1).
Proof. unfold count_flit. by case_decide. Qed.
Lemma count_flit_packets t f ch :
  total_received_packets (count_flit t f ch) `mod` 2 ^ 32 =
    (total_received_packets ch + is_head f) `mod` 2 ^ 32.
Proof.
  unfold count_flit, is_head. case_decide; simpl.
  - unfold u32_incr, to_uint. by rewrite Z.mod_mod by lia.
  - by rewrite Z.add_0_r.
Qed.
Lemma count_flit_flips t f ch : flip_numbers (count_flit t f ch) = flip_numbers ch.
Proof. unfold count_flit. by case_decide. Qed.

(** A step that adds [d] to one summand modulo [m] adds [d] to the sum modulo [m]. *)
Lemma sum_step_vinsert {A} (g : A → Z) (m d : Z) (l : list A) i x y :
  l !z i = Some x → g y `mod` m = (g x + d) `mod` m →
  sumZ (g <$> vinsert i y l) `mod` m = (sumZ (g <$> l) + d) `mod` m.
Proof.
  intros Hx Hy. rewrite (sumZ_vinsert _ _ _ _ _ Hx).
  rewrite Zplus_mod, Hy, <-Zplus_mod. f_equal. lia.
Qed.

Lemma sum_step_app {A} (g : A → Z) (m d : Z) (l : list A) y :
  g y `mod` m = d `mod` m →
  sumZ (g <$> (l ++ [y])) `mod` m = (sumZ (g <$> l) + d) `mod` m.
Proof.
  intros Hy. rewrite fmap_app, sumZ_app. csimpl. rewrite Z.add_0_r.
  by rewrite Zplus_mod, Hy, <-Zplus_mod.
Qed.

Lemma history_step_sums t f s h' :
  history_step t f s h' →
  sumZ (total_received_flits <$> h') `mod` 2 ^ 32 = (sum_flits s + 1) `mod` 2 ^ 32 ∧
  sumZ (total_received_packets <$> h') `mod` 2 ^ 32 = (sum_packets s + is_head f) `mod` 2 ^ 32 ∧
  sumZ (flip_numbers <$> h') `mod` 2 ^ 64 = (sum_flips s + flipNumber f) `mod` 2 ^ 64.
Proof.
  intros [(ch & Hch & _ & ->)|[_ ->]].
  - split_and!; (eapply sum_step_vinsert; [exact Hch|]).
    + rewrite count_flit_flits. simpl. unfold to_uint. by rewrite Z.mod_mod.
    + by rewrite count_flit_packets.
    + rewrite count_flit_flips. simpl. unfold u64_add, to_uint. by rewrite Z.mod_mod.
  - split_and!; apply sum_step_app.
    + rewrite count_flit_flits. simpl. unfold to_uint. by rewrite Z.mod_mod.
    + by rewrite count_flit_packets.
    + by rewrite count_flit_flips.
Qed.

Lemma getReceivedFlits_sum s : getReceivedFlits s = sum_flits s `mod` 2 ^ 32.
Proof. unfold getReceivedFlits. by rewrite foldl_to_int_sum. Qed.
Lemma getReceivedPackets_sum s : getReceivedPackets s = sum_packets s `mod` 2 ^ 32.
Proof. unfold getReceivedPackets. by rewrite foldl_to_int_sum. Qed.
Lemma getNumberFlips_sum s : getNumberFlips s = sum_flips s `mod` 2 ^ 64.
Proof. exact (foldl_to_uint_sum flip_numbers 64 (chist s) 0 ltac:(lia)). Qed.

(** the arrival of a sequence of flits, each with its arrival time *)
Definition receive_all (l : list (Z * Flit)) : M StatsNoC unit :=
  for_each l (λ tf, receivedFlit tf.1 tf.2).

Lemma receive_all_sums l s :
  stats_wf s → Forall (λ tf, countable_flit tf.2) l →
  ∃ s', receive_all l s = Ok (tt, s') ∧ stats_wf s' ∧ energy_router s' = energy_router s ∧
    sum_flits s' `mod` 2 ^ 32 = (sum_flits s + zlength l) `mod` 2 ^ 32 ∧
    sum_packets s' `mod` 2 ^ 32 = (sum_packets s + sumZ ((is_head ∘ snd) <$> l)) `mod` 2 ^ 32 ∧
    sum_flips s' `mod` 2 ^ 64 = (sum_flips s + sumZ ((flipNumber ∘ snd) <$> l)) `mod` 2 ^ 64.
Proof.
  intros Hwf Hl. revert s Hwf.
  induction Hl as [|[t f] l Hf Hl IH]; intros s Hwf.
  - exists s. unfold zlength. simpl. by rewrite !Z.add_0_r.
  - destruct (receivedFlit_run t f s Hwf Hf) as (s1 & Hrun & Hwf1 & He & Hh).
    destruct (history_step_sums _ _ _ _ Hh) as (H1 & H2 & H3).
    destruct (IH s1 Hwf1) as (s' & Hrun' & Hwf' & He' & H1' & H2' & H3').
    exists s'. split_and!; [|done|congruence| | |].
    + unfold receive_all in *. by run_steps.
    + rewrite H1', <-Zplus_mod_idemp_l. fold (sum_flits s1) in H1.
      rewrite H1, Zplus_mod_idemp_l. f_equal. unfold zlength. simpl. lia.
    + rewrite H2', <-Zplus_mod_idemp_l. fold (sum_packets s1) in H2.
      rewrite H2, Zplus_mod_idemp_l. csimpl. f_equal. lia.
    + rewrite H3', <-Zplus_mod_idemp_l. fold (sum_flips s1) in H3.
      rewrite H3, Zplus_mod_idemp_l. csimpl. f_equal. lia.
Qed.

(** ** Property *)

(** A flit of packet type [pt] with [flips] bit flips; the other fields do
    not matter for the counts. *)
Definition sample_flit (src dst : Z) (ty : FlitType) (pt flips : Z) : Flit :=
  mkFlit src dst ty 0 0 0 flips false 0 0 0 0 0 d_zero d_zero d_zero d_zero d_zero pt.

(** The statistics of a router count every arrival: after any
    sequence of flits with packet types in range, a fresh [StatsNoC] reports
    the number of flits and of head flits modulo 2^32 and the sum of their
    bit flips modulo 2^64, whatever the sources and their order, and never
    faults. *)
Theorem stats_count_arrivals (raw : Element) (l : list (Z * Flit)) :
  Forall (λ tf, countable_flit tf.2) l →
  ∃ s', receive_all l (StatsNoC_StatsNoC raw) = Ok (tt, s') ∧
    getReceivedFlits s' = zlength l `mod` 2 ^ 32 ∧
    getReceivedPackets s' = sumZ ((is_head ∘ snd) <$> l) `mod` 2 ^ 32 ∧
    getNumberFlips s' = sumZ ((flipNumber ∘ snd) <$> l) `mod` 2 ^ 64.
Proof.
  intros Hl.
  destruct (receive_all_sums l _ (StatsNoC_StatsNoC_wf raw) Hl)
    as (s' & Hrun & _ & _ & H1 & H2 & H3).
  exists s'. rewrite getReceivedFlits_sum, getReceivedPackets_sum, getNumberFlips_sum.
  by split_and!.
Qed.

Lemma stats_count_arrivals_witness :
  ∃ s', receive_all [(7, sample_flit 3 9 FLIT_TYPE_HEAD 8 2); (8, sample_flit 3 9 FLIT_TYPE_TAIL 8 5)]
          (StatsNoC_StatsNoC (mkElement d_zero d_zero d_zero d_zero)) = Ok (tt, s') ∧
    getReceivedFlits s' = 2 ∧ getReceivedPackets s' = 1 ∧ getNumberFlips s' = 7.
Proof.
  destruct (stats_count_arrivals (mkElement d_zero d_zero d_zero d_zero)
    [(7, sample_flit 3 9 FLIT_TYPE_HEAD 8 2); (8, sample_flit 3 9 FLIT_TYPE_TAIL 8 5)])
    as (s' & Hrun & H1 & H2 & H3).
  - rewrite !Forall_cons. unfold countable_flit. simpl. split_and!; (lia || constructor).
  - exists s'. split; [exact Hrun|]. split; [rewrite H1; reflexivity|].
    split; [rewrite H2; reflexivity|rewrite H3; reflexivity].
Defined.
