(* ===== verification/Channel.v ===== *)
(** * Channels ([channel.h], [flitchannel.h], [flitchannel.cpp])

    A [Channel] delays what is sent into it by a number of cycles.  [A] is
    the pointer type; [None] is [NULL].  [FlitChannel] adds the routers at
    its two ends and an idle counter. *)

From S2P Require Import Prelude.

Section channel.
Context {A : Type}.

Record Channel := mkChannel {
  _delay : Z;
  _input : option A;
  _output : option A;
  _wait_queue : list (Z * A);
}.
#[export] Instance Channel_settable : Settable Channel := λ r,
  mkChannel (_delay r) (_input r) (_output r) (_wait_queue r).

Definition Channel_Channel : Channel := mkChannel 1 None None [].

(** [Error] prints its message and calls [exit(-1)] *)
Definition Channel_SetLatency (cycles : Z) : M Channel unit :=
  if decide (cycles ≤ 0) then throw ExitCalled
  else modify (λ c, c.{_delay := cycles}).

Definition Channel_Send (data : option A) : M Channel unit :=
  modify (λ c, c.{_input := data}).

Definition Channel_Receive : M Channel (option A) := gets _output.

(** [global_clk + _delay - 1] in the arithmetic of [int] *)
Definition release_time (global_clk delay : Z) : Z := to_int (to_int (global_clk + delay) - 1).

(** the parameter [global_clk] is an [int], to which the value of the caller is converted *)
Definition Channel_ReadInputs (global_clk : Z) : M Channel unit :=
  modify (λ c, match _input c with
               | Some f => c.{_wait_queue ::= λ q, q ++ [(release_time global_clk (_delay c), f)] }
                            .{_input := None}
               | None => c
               end).

Definition Channel_WriteOutputs (global_clk : Z) : M Channel unit :=
  modify (λ c, c.{_output := None}) ;;
  q ← gets _wait_queue;
  match q with
  | [] => mret tt
  | (time, f) :: q' =>
      if decide (to_int global_clk < time) then mret tt
      else check (bool_decide (to_int global_clk = time)) ;;
           modify (λ c, c.{_output := Some f}.{_wait_queue := q'})
  end.
End channel.
Arguments Channel A : clear implicits.
Arguments mkChannel {A}.

(** ** [class FlitChannel] *)

Record FlitChannel := mkFlitChannel {
  base_channel : Channel nat;           (* Channel<Flit>: flits by pointer *)
  _routerSource : option Z;             (* a router, by its node number *)
  _routerSourcePort : Z;
  _routerSink : option Z;
  _routerSinkPort : Z;
  fc_active : list Z;
  _idle : Z;
}.
#[export] Instance FlitChannel_settable : Settable FlitChannel := λ r,
  mkFlitChannel (base_channel r) (_routerSource r) (_routerSourcePort r) (_routerSink r)
    (_routerSinkPort r) (fc_active r) (_idle r).

Definition FlitChannel_FlitChannel (classes : Z) : FlitChannel :=
  mkFlitChannel Channel_Channel None (-1) None (-1) (replicate (Z.to_nat classes) 0) 0.

Definition on_base {B} : M (Channel nat) B → M FlitChannel B :=
  zoom base_channel (λ c fc, fc.{base_channel := c}).

Definition SetSource (router : option Z) (port : Z) : M FlitChannel unit :=
  modify (λ fc, fc.{_routerSource := router}.{_routerSourcePort := port}).
Definition SetSink (router : option Z) (port : Z) : M FlitChannel unit :=
  modify (λ fc, fc.{_routerSink := router}.{_routerSinkPort := port}).
Definition GetSource (fc : FlitChannel) : option Z := _routerSource fc.
Definition GetSourcePort (fc : FlitChannel) : Z := _routerSourcePort fc.
Definition GetSink (fc : FlitChannel) : option Z := _routerSink fc.
Definition GetSinkPort (fc : FlitChannel) : Z := _routerSinkPort fc.

Definition FlitChannel_Send (f : option nat) : M FlitChannel unit :=
  when (bool_decide (f = None)) (modify (λ fc, fc.{_idle ::= λ n, n + 1})) ;;
  on_base (Channel_Send f).
Definition FlitChannel_Receive : M FlitChannel (option nat) := on_base Channel_Receive.
Definition FlitChannel_ReadInputs (global_clk : Z) : M FlitChannel unit :=
  on_base (Channel_ReadInputs global_clk).
Definition FlitChannel_WriteOutputs (global_clk : Z) : M FlitChannel unit :=
  on_base (Channel_WriteOutputs global_clk).
(** [FlitChannel::clk] does nothing *)
Definition FlitChannel_clk (global_clk : Z) : M FlitChannel unit := mret tt.

(** with a delay of 1 a value is due in the cycle that reads it, at any time *)
Lemma to_int_ext a b : a `mod` 2 ^ 32 = b `mod` 2 ^ 32 → to_int a = to_int b.
Proof. intros H. unfold to_int, to_sint. by rewrite H. Qed.
Lemma release_time_1 clk : release_time clk 1 = to_int clk.
Proof.
  apply to_int_ext. rewrite Zminus_mod, to_int_mod, <-Zminus_mod. f_equal. lia.
Qed.
Lemma release_time_small clk d : -2 ^ 31 ≤ clk + d - 1 → clk + d < 2 ^ 31 → release_time clk d = clk + d - 1.
Proof.
  intros H1 H2. unfold release_time. destruct (decide (-2 ^ 31 ≤ clk + d)); [|lia].
  rewrite (to_int_small (clk + d)), to_int_small by lia. done.
Qed.

(** ** One cycle of a channel, as [NetworkNoC::clk] drives it *)

Section delay_line.
Context {A : Type}.
Implicit Types (c : Channel A) (x : option A).

(** what was sent since the last cycle, then the two phases at [clk] *)
Definition channel_cycle (x : option A) (clk : Z) : M (Channel A) (option A) :=
  Channel_Send x ;; Channel_ReadInputs clk ;; Channel_WriteOutputs clk ;; Channel_Receive.

(** With a delay of 1 the wait queue is empty between cycles, so the value
    comes out in the cycle that reads it, at whatever time that is. *)
Lemma channel_cycle_delay1 c x clk :
  _delay c = 1 → _wait_queue c = [] →
  channel_cycle x clk c = Ok (x, mkChannel 1 None x []).
Proof.
  destruct c as [d i o q]. simpl. intros -> ->.
  unfold channel_cycle. run_steps. destruct x as [a|]; run_steps.
  - unfold Channel_WriteOutputs. run_steps. rewrite release_time_1.
    rewrite decide_False by lia. rewrite bool_decide_true by lia. done.
  - unfold Channel_WriteOutputs. by run_steps.
Qed.

(** The values sent at offsets [lo .. hi-1] with their release times. *)
Definition pending (t0 d : Z) (xs : Z → option A) (lo hi : Z) : list (Z * A) :=
  omap (λ j, pair (t0 + j + d - 1) <$> xs j) (seqZ lo (hi - lo)).

Definition channel_at (t0 d : Z) (xs : Z → option A) (k : Z) (out : option A) : Channel A :=
  mkChannel d None out (pending t0 d xs (Z.max 0 (k - (d - 1))) k).

Lemma pending_snoc t0 d xs lo hi :
  lo ≤ hi →
  pending t0 d xs lo (hi + 1) =
    pending t0 d xs lo hi ++ match xs hi with Some a => [(t0 + hi + d - 1, a)] | None => [] end.
Proof.
  intros Hle. unfold pending.
  replace (hi + 1 - lo) with (hi - lo + 1) by lia. rewrite seqZ_app by lia.
  rewrite omap_app. f_equal. replace (lo + (hi - lo)) with hi by lia.
  rewrite seqZ_cons, seqZ_nil by lia. simpl. by destruct (xs hi).
Qed.

Lemma pending_cons t0 d xs lo hi :
  lo < hi →
  pending t0 d xs lo hi =
    match xs lo with Some a => [(t0 + lo + d - 1, a)] | None => [] end
    ++ pending t0 d xs (lo + 1) hi.
Proof.
  intros Hlt. unfold pending. rewrite seqZ_cons by lia. simpl.
  rewrite <-Z.add_1_r. replace (Z.pred (hi - lo)) with (hi - (lo + 1)) by lia.
  by destruct (xs lo).
Qed.

(** every pending time is a release time of an offset of the range *)
Lemma pending_times t0 d xs lo hi time a q :
  pending t0 d xs lo hi = (time, a) :: q → ∃ j, lo ≤ j < hi ∧ time = t0 + j + d - 1.
Proof.
  intros Hq. assert ((time, a) ∈ pending t0 d xs lo hi) as Hin by (rewrite Hq; set_solver).
  unfold pending in Hin. apply list_elem_of_omap in Hin as (j & Hj & Hx).
  rewrite elem_of_seqZ in Hj. destruct (xs j); simpl in Hx; simplify_eq.
  exists j. lia.
Qed.

Lemma channel_step t0 d xs k out :
  1 ≤ d → 0 ≤ k → -2 ^ 31 ≤ t0 → t0 + k + d < 2 ^ 31 →
  let out' := if decide (k < d - 1) then None else xs (k - (d - 1)) in
  channel_cycle (xs k) (t0 + k) (channel_at t0 d xs k out) =
    Ok (out', channel_at t0 d xs (k + 1) out').
Proof.
  intros Hd Hk Hlow Hhigh out'. subst out'. assert (Hnow : to_int (t0 + k) = t0 + k) by (apply to_int_small; lia).
  set (lo := Z.max 0 (k - (d - 1))).
  transitivity ((Channel_WriteOutputs (t0 + k) ;; Channel_Receive)
    (mkChannel d None out (pending t0 d xs lo (k + 1)))).
  { unfold channel_cycle, Channel_Send, Channel_ReadInputs, modify, channel_at.
    rewrite pending_snoc by lia. fold lo. run_steps.
    destruct (xs k); run_steps; [by rewrite release_time_small by lia|]. by rewrite app_nil_r. }
  unfold Channel_WriteOutputs, Channel_Receive, channel_at. run_steps. rewrite Hnow.
  destruct (decide (k < d - 1)) as [Hearly|Hlate].
  - replace (Z.max 0 (k + 1 - (d - 1))) with lo by lia.
    destruct (pending t0 d xs lo (k + 1)) as [|[time a] q] eqn:Hq; [done|].
    apply pending_times in Hq as (j & Hj & ->). by rewrite decide_True by lia.
  - assert (lo = k - (d - 1)) as Hlo by lia. clearbody lo. subst lo.
    rewrite (pending_cons t0 d xs (k - (d - 1))) by lia.
    replace (Z.max 0 (k + 1 - (d - 1))) with (k - (d - 1) + 1) by lia.
    destruct (xs (k - (d - 1))) as [a|]; simpl.
    + rewrite decide_False by lia. rewrite bool_decide_true by lia. done.
    + destruct (pending t0 d xs (k - (d - 1) + 1) (k + 1)) as [|[time a] q] eqn:Hq; [done|].
      apply pending_times in Hq as (j & Hj & ->). by rewrite decide_True by lia.
Qed.

(** a release time that [int] cannot hold *)
Lemma late_release_fails t0 d xs a :
  1 ≤ d < 2 ^ 31 → -2 ^ 31 ≤ t0 < 2 ^ 31 → 2 ^ 31 ≤ t0 + d - 1 →
  channel_cycle (Some a) t0 (channel_at t0 d xs 0 None) = Fault AssertFailed.
Proof.
  intros Hd Ht Hlate. assert (Hr : release_time t0 d = t0 + d - 1 - 2 ^ 32).
  { unfold release_time. rewrite <-(to_int_small (t0 + d - 1 - 2 ^ 32)) by lia. apply to_int_ext.
    rewrite Zminus_mod, to_int_mod, <-Zminus_mod. rewrite (Zminus_mod _ (2 ^ 32)), Z_mod_same_full, Z.sub_0_r.
    by rewrite Z.mod_mod by lia. }
  unfold channel_at, pending. rewrite seqZ_nil by lia. unfold channel_cycle, Channel_Send, Channel_ReadInputs, modify. run_steps.
  unfold Channel_WriteOutputs. run_steps. rewrite Hr, to_int_small by lia. rewrite decide_False by lia.
  by rewrite bool_decide_false by lia.
Qed.

(** the outputs of [n] consecutive cycles from time [t0] *)
Fixpoint channel_outputs (t0 : Z) (xs : Z → option A) (k : Z) (n : nat) :
    M (Channel A) (list (option A)) :=
  match n with
  | O => mret []
  | S n' => o ← channel_cycle (xs k) (t0 + k);
            os ← channel_outputs t0 xs (k + 1) n';
            mret (o :: os)
  end.

(** the abstract channel: a delay line of [d - 1] further cycles *)
Definition delay_line (d : Z) (xs : Z → option A) (k : Z) : option A :=
  if decide (k < d - 1) then None else xs (k - (d - 1)).

Lemma channel_outputs_spec t0 d xs k n out :
  1 ≤ d → 0 ≤ k → -2 ^ 31 ≤ t0 → t0 + k + Z.of_nat n + d ≤ 2 ^ 31 →
  ∃ c', channel_outputs t0 xs k n (channel_at t0 d xs k out) =
    Ok (delay_line d xs <$> seqZ k (Z.of_nat n), c').
Proof.
  intros Hd. revert k out. induction n as [|n IH]; intros k out Hk Hlow Hhigh.
  - by eexists.
  - pose proof (channel_step t0 d xs k out Hd Hk Hlow ltac:(lia)) as Hstep. cbv zeta in Hstep.
    destruct (IH (k + 1) (delay_line d xs k)) as [c' Hc']; [lia..|].
    exists c'. rewrite (seqZ_cons k (Z.of_nat (S n))) by lia.
    replace (Z.pred (Z.of_nat (S n))) with (Z.of_nat n) by lia.
    run_steps. fold (delay_line d xs k). by rewrite Hc'.
Qed.
End delay_line.

(** ** Property *)

(** C33: A channel of latency [d >= 1] clocked at consecutive times, as long as these and the
    release times are in the range of [int], refines a delay line: whatever is sent, the value read in
    cycle [k] comes out in cycle [k + d - 1], nothing comes out earlier, and the assertion on the release
    time never fails.  A value whose release time exceeds that range makes the assertion fail in the
    cycle that reads it, since the sum wraps to a negative time. *)
Theorem channel_is_delay_line {A} (d t0 : Z) (xs : Z → option A) (n : nat) :
  1 ≤ d < 2 ^ 31 → -2 ^ 31 ≤ t0 < 2 ^ 31 →
  ∃ c0, Channel_SetLatency d Channel_Channel = Ok (tt, c0) ∧
    (t0 + Z.of_nat n + d ≤ 2 ^ 31 →
       ∃ c', channel_outputs t0 xs 0 n c0 = Ok (delay_line d xs <$> seqZ 0 (Z.of_nat n), c')) ∧
    (2 ^ 31 ≤ t0 + d - 1 → ∀ a, channel_cycle (Some a) t0 c0 = Fault AssertFailed).
Proof.
  intros Hd Ht. exists (channel_at t0 d xs 0 None). split; [|split].
  - unfold Channel_SetLatency. rewrite decide_False by lia. unfold channel_at, pending. by rewrite seqZ_nil by lia.
  - intros Hn. apply channel_outputs_spec; lia.
  - intros Hlate a. apply late_release_fails; lia.
Qed.

Lemma channel_is_delay_line_witness :
  ∃ c0, Channel_SetLatency 2 Channel_Channel = Ok (tt, c0) ∧
    (∃ c', channel_outputs 100 (λ k, if decide (k = 1) then Some 7%nat else None) 0 4 c0 =
      Ok ([None; None; Some 7%nat; None], c')).
Proof.
  destruct (channel_is_delay_line 2 100 (λ k, if decide (k = 1) then Some 7%nat else None) 4
           ltac:(lia) ltac:(lia)) as (c0 & H1 & H2 & _).
  exists c0. split; [exact H1|]. apply H2. lia.
Defined.
