(* ===== verification/VirtualChannel.v ===== *)
(** * Virtual channels and input buffers
    ([VirtualChannel.h], [VirtualChannel.cpp], [Buffer.h], [Buffer.cpp])

    A [VirtualChannel] is a queue of flits with an allocation state, a
    [Buffer] the array of virtual channels of one input port.  Messages
    printed on [cout] are not modelled: in particular [Buffer::AddFlit] only
    reports an overflow and stores the flit all the same. *)

From S2P Require Import Prelude NoCMain.

Inductive VCState := idle | routing | vc_alloc | active.
#[export] Instance VCState_eq_dec : EqDecision VCState.
Proof. solve_decision. Defined.

Record VirtualChannel := mkVirtualChannel {
  _buffer : list flit_ptr;
  _state : VCState;
  _out_port : Z;
  _out_vc : Z;
  occupancy : Z;
}.
#[export] Instance VirtualChannel_settable : Settable VirtualChannel := λ r,
  mkVirtualChannel (_buffer r) (_state r) (_out_port r) (_out_vc r) (occupancy r).

Definition VirtualChannel_VirtualChannel : VirtualChannel :=
  mkVirtualChannel [] idle (-1) (-1) 0.

Definition VC_SetOutput (port vc : Z) : M VirtualChannel unit :=
  modify (λ v, v.{_out_port := port}.{_out_vc := vc}).

Definition VC_AddFlit (f : flit_ptr) : M VirtualChannel unit :=
  modify (λ v, v.{_buffer ::= λ q, q ++ [f] }.{occupancy ::= λ n, n + 1}).

Definition VC_RemoveFlit : M VirtualChannel (option flit_ptr) :=
  q ← gets _buffer;
  match q with
  | f :: q' => modify (λ v, v.{_buffer := q'}.{occupancy ::= λ n, n - 1}) ;; mret (Some f)
  | [] => mret None
  end.

Definition VC_FrontFlit (v : VirtualChannel) : option flit_ptr := head (_buffer v).
Definition VC_Empty (v : VirtualChannel) : bool := bool_decide (_buffer v = []).
Definition VC_GetOutputPort (v : VirtualChannel) : Z := _out_port v.
Definition VC_GetOutputVC (v : VirtualChannel) : Z := _out_vc v.
Definition VC_GetState (v : VirtualChannel) : VCState := _state v.
Definition VC_GetOccupancy (v : VirtualChannel) : Z := occupancy v.
Definition VC_SetState (s : VCState) : M VirtualChannel unit := modify (λ v, v.{_state := s}).

(** ** Routing *)

Definition gN : Z := 2.
Definition gK : Z := DEFAULT_MESH_DIM_X.
Definition gNodes : Z := DEFAULT_MESH_DIM_X * DEFAULT_MESH_DIM_X.

(** the two loops of [dor_next_mesh]; the result is [dim_left], [cur], [dest] *)
Fixpoint dor_descending (dim_left : nat) (cur dest : Z) : Z * Z * Z :=
  match dim_left with
  | O => (0, cur, dest)
  | S d =>
      if decide (Z.quot (cur * gK) gNodes ≠ Z.quot (dest * gK) gNodes)
      then (Z.of_nat dim_left, cur, dest)
      else dor_descending d (Z.rem (cur * gK) gNodes) (Z.rem (dest * gK) gNodes)
  end.
Fixpoint dor_ascending (left : nat) (dim_left cur dest : Z) : Z * Z * Z :=
  match left with
  | O => (dim_left, cur, dest)
  | S l =>
      if decide (Z.rem cur gK ≠ Z.rem dest gK) then (dim_left, cur, dest)
      else dor_ascending l (dim_left + 1) (Z.quot cur gK) (Z.quot dest gK)
  end.

Definition dor_next_mesh (cur dest : Z) (descending : bool) : Z :=
  if decide (cur = dest) then 2 * gN
  else
    let '(dim_left, c, d) :=
      if descending then
        let '(dl, c, d) := dor_descending (Z.to_nat (gN - 1)) cur dest in
        (dl, Z.quot (c * gK) gNodes, Z.quot (d * gK) gNodes)
      else
        let '(dl, c, d) := dor_ascending (Z.to_nat (gN - 1)) 0 cur dest in
        (dl, Z.rem c gK, Z.rem d gK) in
    if decide (c < d) then 2 * dim_left else 2 * dim_left + 1.

(** [VirtualChannel::xy_yx_mesh]: the output port at router [id] *)
Definition xy_yx_mesh_port (id dst : Z) : Z :=
  let cur_coordx := Z.rem id DEFAULT_MESH_DIM_X in
  let cur_coordy := Z.quot id DEFAULT_MESH_DIM_X in
  let dst_coordx := Z.rem dst DEFAULT_MESH_DIM_X in
  let dst_coordy := Z.quot dst DEFAULT_MESH_DIM_X in
  if decide (dst_coordx < cur_coordx) then 1
  else if decide (dst_coordx > cur_coordx) then 0
  else if decide (dst_coordy < cur_coordy) then 3
  else if decide (dst_coordy > cur_coordy) then 2
  else 4.
Definition xy_yx_mesh (id : Z) (f : flit_ptr) (in_channel : Z) : M Flits unit :=
  update f (λ fl, fl.{output_port := xy_yx_mesh_port id (dst_id fl)}).

Definition VC_Route (id : Z) (f : flit_ptr) (in_channel : Z) : M Flits unit :=
  xy_yx_mesh id f in_channel.

(** The routing function of [routefunc.cpp], which splits the virtual
    channels between the two dimension orders. *)
Definition routefunc_xy_yx_mesh (router_id : Z) (in_channel : Z) (f : Flit) : Flit :=
  let vcBegin := 0 in
  let vcEnd := DEFAULT_NUM_VCS - 1 in
  let '(out_port, vcBegin, vcEnd) :=
    if decide (router_id = dst_id f) then (2 * gN, vcBegin, vcEnd)
    else
      let available_vcs := Z.quot (vcEnd - vcBegin + 1) 2 in
      let x_then_y :=
        if decide (in_channel < 2 * gN) then bool_decide (f_vc f < vcBegin + available_vcs)
        else bool_decide (RandomInt 1 > 0) in
      if x_then_y then
        (dor_next_mesh router_id (dst_id f) false, vcBegin, vcEnd - available_vcs)
      else
        (dor_next_mesh router_id (dst_id f) true, vcBegin + available_vcs, vcEnd) in
  f.{output_port_vc_start := vcBegin}.{output_port_vc_end := vcEnd}.{output_port := out_port}.

(** ** [class Buffer] *)

Record Buffer := mkBuffer {
  _size : Z;
  buf_vc : list VirtualChannel;
  _occupancy : list Z;
}.
#[export] Instance Buffer_settable : Settable Buffer := λ r,
  mkBuffer (_size r) (buf_vc r) (_occupancy r).

Definition Buffer_Buffer : Buffer :=
  mkBuffer DEFAULT_VCS_SIZE
    (replicate (Z.to_nat DEFAULT_NUM_VCS) VirtualChannel_VirtualChannel)
    (replicate (Z.to_nat DEFAULT_NUM_VCS) 0).

Definition on_vc {A} (vc : Z) (m : M VirtualChannel A) : M Buffer A :=
  zoom buf_vc (λ l b, b.{buf_vc := l}) (zoom_at vc m).
Definition on_occupancy (vc : Z) (g : Z → Z) : M Buffer unit :=
  zoom _occupancy (λ l b, b.{_occupancy := l}) (zoom_at vc (modify g)).
Definition of_vc {A} (vc : Z) (g : VirtualChannel → A) (b : Buffer) : res A :=
  v ← vget (buf_vc b) vc; Ok (g v).

(** the part of [Buffer::AddFlit] inside the buffer; it also writes [f->vc] *)
Definition Buffer_AddFlit_queue (vc : Z) (f : flit_ptr) : M Buffer unit :=
  on_occupancy vc (λ n, n + 1) ;; on_vc vc (VC_AddFlit f).
Definition Buffer_AddFlit_flit (vc : Z) (f : flit_ptr) : M Flits unit :=
  update f (λ fl, fl.{f_vc := vc}).

Definition Buffer_RemoveFlit (vc : Z) : M Buffer (option flit_ptr) :=
  on_occupancy vc (λ n, n - 1) ;; on_vc vc VC_RemoveFlit.
Definition Buffer_FrontFlit (vc : Z) : Buffer → res (option flit_ptr) := of_vc vc VC_FrontFlit.
Definition Buffer_Empty (vc : Z) : Buffer → res bool := of_vc vc VC_Empty.
Definition Buffer_Full (vc : Z) (b : Buffer) : res bool :=
  n ← vget (_occupancy b) vc; Ok (bool_decide (_size b ≤ n)).
Definition Buffer_GetState (vc : Z) : Buffer → res VCState := of_vc vc VC_GetState.
Definition Buffer_SetState (vc : Z) (s : VCState) : M Buffer unit := on_vc vc (VC_SetState s).
Definition Buffer_GetOutputPort (vc : Z) : Buffer → res Z := of_vc vc VC_GetOutputPort.
Definition Buffer_GetOutputVC (vc : Z) : Buffer → res Z := of_vc vc VC_GetOutputVC.
Definition Buffer_SetOutput (vc out_port out_vc : Z) : M Buffer unit :=
  on_vc vc (VC_SetOutput out_port out_vc).
Definition Buffer_GetOccupancy (vc : Z) : Buffer → res Z := of_vc vc VC_GetOccupancy.

(** ** Buffers refine arrays of FIFO queues *)

Definition vc_counts (b : Buffer) (i : Z) (v : VirtualChannel) : Prop :=
  occupancy v = zlength (_buffer v) ∧ _occupancy b !z i = Some (zlength (_buffer v)).

Record buffer_wf (b : Buffer) : Prop := {
  bw_size : _size b = DEFAULT_VCS_SIZE;
  bw_vcs : zlength (buf_vc b) = DEFAULT_NUM_VCS;
  bw_occ : zlength (_occupancy b) = DEFAULT_NUM_VCS;
  bw_counts : ∀ i v, buf_vc b !z i = Some v → vc_counts b i v;
}.

Lemma on_vc_run {A} b i v (m : M VirtualChannel A) a v' :
  buf_vc b !z i = Some v → m v = Ok (a, v') →
  on_vc i m b = Ok (a, b.{buf_vc := vinsert i v' (buf_vc b)}).
Proof.
  intros Hv Hm. unfold on_vc, zoom. by rewrite (zoom_at_Some _ _ _ _ Hv), Hm.
Qed.

Lemma on_occupancy_run b i n g :
  _occupancy b !z i = Some n →
  on_occupancy i g b = Ok (tt, b.{_occupancy := vinsert i (g n) (_occupancy b)}).
Proof. intros Hn. unfold on_occupancy, zoom. by rewrite (zoom_at_Some _ _ _ _ Hn). Qed.

Lemma of_vc_run {A} b i v (g : VirtualChannel → A) :
  buf_vc b !z i = Some v → of_vc i g b = Ok (g v).
Proof. intros Hv. unfold of_vc. by rewrite (vget_Some _ _ _ Hv). Qed.

Lemma buffer_wf_lookup b i :
  buffer_wf b → 0 ≤ i < DEFAULT_NUM_VCS → ∃ v, buf_vc b !z i = Some v ∧ vc_counts b i v.
Proof.
  intros Hwf Hi. destruct (vlookup_in_range (buf_vc b) i) as [v Hv].
  { by rewrite (bw_vcs _ Hwf). }
  exists v. split; [done|]. by apply (bw_counts _ Hwf).
Qed.

(** Replacing a virtual channel and its count consistently keeps the buffer
    well formed. *)
Lemma buffer_wf_update b i v v' :
  buffer_wf b → buf_vc b !z i = Some v → occupancy v' = zlength (_buffer v') →
  buffer_wf (b.{_occupancy := vinsert i (zlength (_buffer v')) (_occupancy b)}
              .{buf_vc := vinsert i v' (buf_vc b)}).
Proof.
  intros Hwf Hv Hocc. split; simpl.
  - apply (bw_size _ Hwf).
  - rewrite zlength_vinsert. apply (bw_vcs _ Hwf).
  - rewrite zlength_vinsert. apply (bw_occ _ Hwf).
  - intros j w Hw. unfold vc_counts. simpl. vinsert_cases Hw.
    + split; [done|]. apply vlookup_vinsert_eq.
      rewrite (bw_occ _ Hwf), <-(bw_vcs _ Hwf). by eapply vlookup_Some_range.
    + rewrite vlookup_vinsert_ne by done. by apply (bw_counts _ Hwf).
Qed.

(** Changing only the state and the output of a virtual channel *)
Lemma buffer_wf_same_queue b i v v' :
  buffer_wf b → buf_vc b !z i = Some v →
  _buffer v' = _buffer v → occupancy v' = occupancy v →
  buffer_wf (b.{buf_vc := vinsert i v' (buf_vc b)}).
Proof.
  intros Hwf Hv Hq Hocc. destruct (bw_counts _ Hwf _ _ Hv) as [Ho Hc].
  replace (b.{buf_vc := vinsert i v' (buf_vc b)})
    with (b.{_occupancy := vinsert i (zlength (_buffer v')) (_occupancy b)}
           .{buf_vc := vinsert i v' (buf_vc b)}).
  - eapply buffer_wf_update; [done|done|]. congruence.
  - rewrite (vinsert_id (_occupancy b)); [by destruct b|]. by rewrite Hq.
Qed.

Lemma AddFlit_run b i v f :
  buffer_wf b → buf_vc b !z i = Some v →
  let v' := v.{_buffer ::= λ q, q ++ [f] }.{occupancy ::= λ n, n + 1} in
  let b' := b.{_occupancy := vinsert i (zlength (_buffer v')) (_occupancy b)}
             .{buf_vc := vinsert i v' (buf_vc b)} in
  Buffer_AddFlit_queue i f b = Ok (tt, b') ∧ buffer_wf b'.
Proof.
  intros Hwf Hv v' b'. destruct (bw_counts _ Hwf _ _ Hv) as [Ho Hc].
  assert (zlength (_buffer v ++ [f]) = zlength (_buffer v) + 1) as Hlen
    by (unfold zlength; rewrite length_app; simpl; lia).
  split.
  - unfold Buffer_AddFlit_queue, mbind, M_bind. rewrite (on_occupancy_run _ _ _ _ Hc).
    erewrite on_vc_run; [|exact Hv|done]. simpl. by rewrite <-Hlen.
  - eapply buffer_wf_update; [done|done|]. simpl. lia.
Qed.

Lemma RemoveFlit_run b i v f q :
  buffer_wf b → buf_vc b !z i = Some v → _buffer v = f :: q →
  let v' := v.{_buffer := q}.{occupancy ::= λ n, n - 1} in
  let b' := b.{_occupancy := vinsert i (zlength q) (_occupancy b)}
             .{buf_vc := vinsert i v' (buf_vc b)} in
  Buffer_RemoveFlit i b = Ok (Some f, b') ∧ buffer_wf b'.
Proof.
  intros Hwf Hv Hq v' b'. destruct (bw_counts _ Hwf _ _ Hv) as [Ho Hc].
  assert (zlength (_buffer v) = zlength q + 1) as Hlen
    by (rewrite Hq; unfold zlength; simpl; lia).
  split.
  - unfold Buffer_RemoveFlit, mbind, M_bind. rewrite (on_occupancy_run _ _ _ _ Hc).
    erewrite on_vc_run with (v := v) (v' := v'); [|exact Hv|].
    + subst b'. simpl. by replace (zlength (_buffer v) - 1) with (zlength q) by lia.
    + unfold VC_RemoveFlit. run_steps. by rewrite Hq.
  - apply (buffer_wf_update b i v v'); [done|done|]. simpl. lia.
Qed.

(** The specification: an array of queues, without capacity. *)
Inductive buf_op := OpAdd (vc : Z) (f : flit_ptr) | OpRemove (vc : Z).

Definition queue_step (op : buf_op) (qs : list (list flit_ptr)) :
    option (option flit_ptr * list (list flit_ptr)) :=
  match op with
  | OpAdd vc f => q ← qs !z vc; Some (None, vinsert vc (q ++ [f]) qs)
  | OpRemove vc => q ← qs !z vc;
      match q with [] => None | f :: q' => Some (Some f, vinsert vc q' qs) end
  end.

Definition buffer_step (op : buf_op) : M Buffer (option flit_ptr) :=
  match op with
  | OpAdd vc f => Buffer_AddFlit_queue vc f ;; mret None
  | OpRemove vc => Buffer_RemoveFlit vc
  end.

Fixpoint queue_steps (ops : list buf_op) (qs : list (list flit_ptr)) :
    option (list (option flit_ptr) * list (list flit_ptr)) :=
  match ops with
  | [] => Some ([], qs)
  | op :: ops => '(r, qs) ← queue_step op qs; '(rs, qs) ← queue_steps ops qs; Some (r :: rs, qs)
  end.
Fixpoint buffer_steps (ops : list buf_op) : M Buffer (list (option flit_ptr)) :=
  match ops with
  | [] => mret []
  | op :: ops => r ← buffer_step op; rs ← buffer_steps ops; mret (r :: rs)
  end.

Definition buffer_queues (b : Buffer) : list (list flit_ptr) := _buffer <$> buf_vc b.

Lemma vinsert_fmap {A B} (g : A → B) i x l : g <$> vinsert i x l = vinsert i (g x) (g <$> l).
Proof. unfold vinsert. case_decide; [apply list_fmap_insert|done]. Qed.

Lemma vlookup_fmap {A B} (g : A → B) l i : (g <$> l) !z i = g <$> (l !z i).
Proof. unfold vlookup. case_decide; [apply list_lookup_fmap|done]. Qed.

Lemma buffer_step_refines op b r qs' :
  buffer_wf b → queue_step op (buffer_queues b) = Some (r, qs') →
  ∃ b', buffer_step op b = Ok (r, b') ∧ buffer_wf b' ∧ buffer_queues b' = qs'.
Proof.
  unfold buffer_queues. intros Hwf Hstep.
  destruct op as [vc f|vc]; simpl in Hstep; rewrite vlookup_fmap in Hstep;
    destruct (buf_vc b !z vc) as [v|] eqn:Hv; simplify_option_eq.
  - destruct (AddFlit_run b vc v f Hwf Hv) as [Hrun Hwf'].
    eexists. split_and!; [simpl; unfold mbind, M_bind; by rewrite Hrun|done|].
    simpl. by rewrite vinsert_fmap.
  - destruct (_buffer v) as [|f q] eqn:Hq; simplify_eq.
    destruct (RemoveFlit_run b vc v f q Hwf Hv Hq) as [Hrun Hwf'].
    eexists. split_and!; [exact Hrun|done|]. simpl. by rewrite vinsert_fmap.
Qed.

Lemma buffer_steps_refine ops b rs qs' :
  buffer_wf b → queue_steps ops (buffer_queues b) = Some (rs, qs') →
  ∃ b', buffer_steps ops b = Ok (rs, b') ∧ buffer_wf b' ∧ buffer_queues b' = qs'.
Proof.
  revert b rs. induction ops as [|op ops IH]; intros b rs Hwf Hs; simpl in Hs.
  - simplify_eq. by exists b.
  - destruct (queue_step op _) as [[r qs1]|] eqn:Hstep; [|done]. simpl in Hs.
    destruct (buffer_step_refines op b r qs1 Hwf Hstep) as (b1 & Hrun & Hwf1 & <-).
    destruct (queue_steps ops _) as [[rs' qs2]|] eqn:Hsteps; simplify_eq/=.
    destruct (IH b1 rs' Hwf1) as (b' & Hrun' & Hwf' & Hq); [done|].
    exists b'. split_and!; [|done|done]. by run_steps.
Qed.

Lemma Buffer_Buffer_wf : buffer_wf Buffer_Buffer.
Proof.
  split; [done|done|done|]. intros i v Hv.
  pose proof (vlookup_Some_range _ _ _ Hv) as Hr.
  unfold Buffer_Buffer, vc_counts in *. cbn [buf_vc _occupancy] in *.
  unfold zlength in Hr. rewrite length_replicate in Hr.
  rewrite vlookup_replicate in Hv by done. simplify_eq.
  split; [done|]. by apply vlookup_replicate.
Qed.

(** ** Properties *)

(** C32: An input buffer refines an array of unbounded FIFO queues, one
    per virtual channel: any sequence of [AddFlit] and [RemoveFlit] that the
    queues allow (indices in range, no removal from an empty queue) runs
    without a fault, returns the same flits in the same order, and keeps both
    occupancy counters ([Buffer::_occupancy] and
    [VirtualChannel::GetOccupancy]) equal to the length of the queue; the
    declared capacity is never enforced. *)
Theorem buffer_refines_fifo (ops : list buf_op) rs qs' :
  queue_steps ops (replicate (Z.to_nat DEFAULT_NUM_VCS) []) = Some (rs, qs') →
  ∃ b', buffer_steps ops Buffer_Buffer = Ok (rs, b') ∧ buffer_queues b' = qs' ∧
    ∀ vc q, qs' !z vc = Some q →
      Buffer_GetOccupancy vc b' = Ok (zlength q) ∧ vget (_occupancy b') vc = Ok (zlength q).
Proof.
  intros Hs.
  destruct (buffer_steps_refine ops Buffer_Buffer rs qs' Buffer_Buffer_wf Hs)
    as (b' & Hrun & Hwf & Hq).
  exists b'. split_and!; [done|done|]. intros vc q Hvc.
  unfold buffer_queues in Hq. rewrite <-Hq, vlookup_fmap in Hvc.
  destruct (buf_vc b' !z vc) as [v|] eqn:Hv; simplify_eq/=.
  destruct (bw_counts _ Hwf _ _ Hv) as [Ho Hc]. split.
  - unfold Buffer_GetOccupancy. rewrite (of_vc_run _ _ _ _ Hv). unfold VC_GetOccupancy. by rewrite Ho.
  - by apply vget_Some.
Qed.

Lemma buffer_refines_fifo_witness :
  ∃ b', buffer_steps [OpAdd 2 10%nat; OpAdd 2 11%nat; OpAdd 5 12%nat; OpRemove 2] Buffer_Buffer =
      Ok ([None; None; None; Some 10%nat], b') ∧
    Buffer_GetOccupancy 2 b' = Ok 1 ∧ Buffer_GetOccupancy 5 b' = Ok 1.
Proof.
  destruct (buffer_refines_fifo [OpAdd 2 10%nat; OpAdd 2 11%nat; OpAdd 5 12%nat; OpRemove 2]
    [None; None; None; Some 10%nat] [[]; []; [11%nat]; []; []; [12%nat]; []; []] eq_refl)
    as (b' & Hrun & _ & Hocc).
  exists b'. split; [exact Hrun|]. split.
  - exact (proj1 (Hocc 2 [11%nat] eq_refl)).
  - exact (proj1 (Hocc 5 [12%nat] eq_refl)).
Defined.

(** The dimension-order function in ascending order and the
    coordinate comparison of [VirtualChannel::xy_yx_mesh] choose the same
    output port for every pair of routers of the 8x8 mesh. *)
Theorem dor_next_mesh_is_xy (cur dest : Z) :
  0 ≤ cur < gNodes → 0 ≤ dest < gNodes →
  dor_next_mesh cur dest false = xy_yx_mesh_port cur dest.
Proof.
  intros Hc Hd.
  assert (Hall : Forall (λ c, Forall (λ d, dor_next_mesh c d false = xy_yx_mesh_port c d)
                   (seqZ 0 gNodes)) (seqZ 0 gNodes))
    by (apply (bool_decide_unpack _); vm_compute; exact I).
  rewrite Forall_forall in Hall. specialize (Hall cur). rewrite Forall_forall in Hall.
  apply Hall; rewrite elem_of_seqZ; lia.
Qed.

Lemma dor_next_mesh_is_xy_witness : dor_next_mesh 9 30 false = 0 ∧ dor_next_mesh 9 30 true = 2.
Proof. split; [exact (dor_next_mesh_is_xy 9 30 ltac:(easy) ltac:(easy))|reflexivity]. Defined.
