(* ===== verification/Allocator.v ===== *)
(** * The iSLIP allocator ([allocator.h], [allocator.cpp])

    [Allocator], [SparseAllocator] and [iSLIP_Sparse]: a matching of inputs
    to outputs from the requests of a cycle, one [std::map] of requests per
    input and per output, with round-robin pointers on both sides. *)

From S2P Require Import Prelude.

Record sRequest := mksRequest { port : Z; label : Z; in_pri : Z; out_pri : Z }.
#[export] Instance sRequest_settable : Settable sRequest := λ r,
  mksRequest (port r) (label r) (in_pri r) (out_pri r).
#[export] Instance sRequest_eq_dec : EqDecision sRequest.
Proof. solve_decision. Defined.

Abbreviation req_map := (list (Z * sRequest)) (only parsing).

Record iSLIP_Sparse := mkiSLIP_Sparse {
  al_inputs : Z;
  al_outputs : Z;
  _dirty : bool;
  _inmatch : list Z;
  _outmatch : list Z;
  _in_occ : gset Z;
  _out_occ : gset Z;
  _in_req : list req_map;
  _out_req : list req_map;
  _iSLIP_iter : Z;
  _gptrs : list Z;
  _aptrs : list Z;
}.
#[export] Instance iSLIP_Sparse_settable : Settable iSLIP_Sparse := λ r,
  mkiSLIP_Sparse (al_inputs r) (al_outputs r) (_dirty r) (_inmatch r) (_outmatch r) (_in_occ r)
    (_out_occ r) (_in_req r) (_out_req r) (_iSLIP_iter r) (_gptrs r) (_aptrs r).

(** ** Construction and requests *)

(** [Allocator], [SparseAllocator] and [iSLIP_Sparse] constructors *)
Definition iSLIP_Sparse_iSLIP_Sparse (inputs outputs iters : Z) : iSLIP_Sparse :=
  mkiSLIP_Sparse inputs outputs false
    (replicate (Z.to_nat inputs) (-1)) (replicate (Z.to_nat outputs) (-1)) ∅ ∅
    (replicate (Z.to_nat inputs) []) (replicate (Z.to_nat outputs) []) iters
    (replicate (Z.to_nat outputs) 0) (replicate (Z.to_nat inputs) 0).

(** [Allocator::Clear]: [assign] gives the vectors their full size again *)
Definition Allocator_Clear : M iSLIP_Sparse unit :=
  modify (λ a, if _dirty a then
    a.{_inmatch := replicate (Z.to_nat (al_inputs a)) (-1)}
     .{_outmatch := replicate (Z.to_nat (al_outputs a)) (-1)}.{_dirty := false}
    else a).
(** [SparseAllocator::Clear] *)
Definition SparseAllocator_Clear : M iSLIP_Sparse unit :=
  a ← get;
  for_range 0 (al_inputs a) (λ i,
    zoom _in_req (λ l a, a.{_in_req := l}) (zoom_at i (modify (λ _, [])))) ;;
  for_range 0 (al_outputs a) (λ j,
    zoom _out_req (λ l a, a.{_out_req := l}) (zoom_at j (modify (λ _, [])))) ;;
  modify (λ a, a.{_in_occ := ∅}.{_out_occ := ∅}) ;;
  Allocator_Clear.

Definition Allocator_AddRequest : M iSLIP_Sparse unit := modify (λ a, a.{_dirty := true}).

(** [_inmatch[in]] and [_outmatch[out]] *)
Definition OutputAssigned (inp : Z) (a : iSLIP_Sparse) : res Z := vget (_inmatch a) inp.
Definition InputAssigned (out : Z) (a : iSLIP_Sparse) : res Z := vget (_outmatch a) out.

Definition ReadRequest_req (inp out : Z) (a : iSLIP_Sparse) : res (option sRequest) :=
  m ← vget (_in_req a) inp; Ok (om_find out m).
Definition ReadRequest (inp out : Z) (a : iSLIP_Sparse) : res Z :=
  r ← ReadRequest_req inp out a;
  Ok (match r with Some q => label q | None => -1 end).

Definition AddRequest (inp out lbl ipri opri : Z) : M iSLIP_Sparse unit :=
  Allocator_AddRequest ;;
  a ← get;
  mi ← lift (vget (_in_req a) inp);
  when (bool_decide (mi = [])) (modify (λ a, a.{_in_occ ::= λ s, {[inp]} ∪ s})) ;;
  mo ← lift (vget (_out_req a) out);
  when (bool_decide (mo = [])) (modify (λ a, a.{_out_occ ::= λ s, {[out]} ∪ s})) ;;
  let req := mksRequest out lbl ipri opri in
  zoom _in_req (λ l a, a.{_in_req := l}) (zoom_at inp (modify (om_set out req))) ;;
  zoom _out_req (λ l a, a.{_out_req := l}) (zoom_at out (modify (om_set inp (req.{port := inp})))).

Definition RemoveRequest (inp out lbl : Z) : M iSLIP_Sparse unit :=
  zoom _in_req (λ l a, a.{_in_req := l}) (zoom_at inp (modify (om_erase out))) ;;
  a ← get;
  mi ← lift (vget (_in_req a) inp);
  when (bool_decide (mi = [])) (modify (λ a, a.{_in_occ ::= λ s, s ∖ {[inp]} })) ;;
  zoom _out_req (λ l a, a.{_out_req := l}) (zoom_at out (modify (om_erase inp))) ;;
  a ← get;
  mo ← lift (vget (_out_req a) out);
  when (bool_decide (mo = [])) (modify (λ a, a.{_out_occ ::= λ s, s ∖ {[out]} })) ;;
  zoom _inmatch (λ l a, a.{_inmatch := l}) (zoom_at inp (modify (λ _, -1))) ;;
  zoom _outmatch (λ l a, a.{_outmatch := l}) (zoom_at out (modify (λ _, -1))).

(** [count(x) > 0] and [count(x)] *)
Definition InputHasRequests (inp : Z) (a : iSLIP_Sparse) : bool := bool_decide (inp ∈ _in_occ a).
Definition OutputHasRequests (out : Z) (a : iSLIP_Sparse) : bool := bool_decide (out ∈ _out_occ a).
Definition NumInputRequests (inp : Z) (a : iSLIP_Sparse) : Z :=
  if InputHasRequests inp a then 1 else 0.
Definition NumOutputRequests (out : Z) (a : iSLIP_Sparse) : Z :=
  if OutputHasRequests out a then 1 else 0.

(** ** Allocation *)

(** The iterator after [while (p != end && p->second.port < offset) p++;].
    An iterator is the list of the elements from it to the end. *)
Fixpoint skip_below (offset : Z) (p : req_map) : req_map :=
  match p with
  | [] => []
  | (_, r) :: p' => if decide (port r < offset) then skip_below offset p' else p
  end.

(** The second [while] loop of both phases: [begin] is the whole map, [p] the
    iterator; the result is the port of the first element that [test]
    accepts. *)
Fixpoint rr_loop (fuel : nat) (begin : req_map) (offset : Z) (test : Z → res bool)
    (p : req_map) (wrapped : bool) : res (option Z) :=
  match fuel with
  | O => Fault OutOfFuel
  | S fuel' =>
      let visit r p' wrapped :=
        b ← test (port r);
        if (b : bool) then Ok (Some (port r)) else rr_loop fuel' begin offset test p' wrapped in
      match p with
      | [] =>
          if wrapped then Ok None
          else match begin with
               | [] => Fault NullDeref
               | (_, r) :: p' => visit r p' true
               end
      | (_, r) :: p' =>
          if wrapped && bool_decide (¬ port r < offset) then Ok None else visit r p' wrapped
      end
  end.

Definition rr_search (begin : req_map) (offset : Z) (test : Z → res bool) : res (option Z) :=
  rr_loop (S (length begin + length begin)) begin offset test (skip_below offset begin) false.

Definition grant_output (a : iSLIP_Sparse) (output : Z) (grants : list Z) : res (list Z) :=
  reqs ← vget (_out_req a) output;
  om ← vget (_outmatch a) output;
  if decide (reqs = [] ∨ om ≠ -1) then Ok grants
  else
    input_offset ← vget (_gptrs a) output;
    g ← rr_search reqs input_offset (λ input,
          im ← vget (_inmatch a) input; Ok (bool_decide (im = -1)));
    match g with Some input => vset grants output input | None => Ok grants end.

(** the grant phase of an iteration *)
Definition grant_phase (a : iSLIP_Sparse) : res (list Z) :=
  fold_res (grant_output a) (seqZ 0 (al_outputs a)) (replicate (Z.to_nat (al_outputs a)) (-1)).

Definition accept_input (iter : Z) (grants : list Z) (input : Z) : M iSLIP_Sparse unit :=
  a ← get;
  reqs ← lift (vget (_in_req a) input);
  if decide (reqs = []) then mret tt
  else
    output_offset ← lift (vget (_aptrs a) input);
    g ← lift (rr_search reqs output_offset (λ output,
          gr ← vget grants output; Ok (bool_decide (gr = input))));
    match g with
    | None => mret tt
    | Some output =>
        zoom _inmatch (λ l a, a.{_inmatch := l}) (zoom_at input (modify (λ _, output))) ;;
        zoom _outmatch (λ l a, a.{_outmatch := l}) (zoom_at output (modify (λ _, input))) ;;
        when (bool_decide (iter = 0))
          (zoom _gptrs (λ l a, a.{_gptrs := l})
             (zoom_at output (modify (λ _, Z.rem (input + 1) (al_inputs a)))) ;;
           zoom _aptrs (λ l a, a.{_aptrs := l})
             (zoom_at input (modify (λ _, Z.rem (output + 1) (al_outputs a)))))
    end.

Definition Allocate : M iSLIP_Sparse unit :=
  a ← get;
  for_range 0 (_iSLIP_iter a) (λ iter,
    a ← get;
    grants ← lift (grant_phase a);
    for_range 0 (al_inputs a) (accept_input iter grants)).

(** ** The round-robin search and its reference *)

Fixpoint first (test : Z → bool) (l : list Z) : option Z :=
  match l with [] => None | x :: l' => if test x then Some x else first test l' end.

Definition ports (m : req_map) : list Z := (port ∘ snd) <$> m.

(** the reference: in cyclic order from [offset] *)
Definition rr_pick (offset : Z) (test : Z → bool) (l : list Z) : option Z :=
  first test (filter (λ x, ¬ x < offset) l ++ filter (λ x, x < offset) l).

Lemma first_app test l1 l2 :
  first test (l1 ++ l2) = match first test l1 with Some x => Some x | None => first test l2 end.
Proof. induction l1 as [|x l1 IH]; simpl; [done|]. by destruct (test x). Qed.

Lemma first_Some test l x : first test l = Some x → x ∈ l ∧ test x = true.
Proof.
  induction l as [|y l IH]; simpl; [done|]. destruct (test y) eqn:Hy.
  - intros ?; simplify_eq. split; [left|done].
  - intros [? ?]%IH. split; [by right|done].
Qed.

Lemma first_None test l : first test l = None ↔ ∀ x, x ∈ l → test x = false.
Proof.
  induction l as [|y l IH]; simpl; [set_solver|]. destruct (test y) eqn:Hy.
  - split; [done|]. intros Hall. rewrite Hall in Hy; [done|left].
  - rewrite IH. set_solver.
Qed.

Lemma rr_pick_Some offset test l x : rr_pick offset test l = Some x → x ∈ l ∧ test x = true.
Proof.
  unfold rr_pick. intros [Hin ?]%first_Some. split; [|done].
  apply elem_of_app in Hin as [Hin|Hin]; by apply list_elem_of_filter in Hin as [_ ?].
Qed.

Lemma rr_pick_None offset test l : rr_pick offset test l = None → ∀ x, x ∈ l → test x = false.
Proof.
  unfold rr_pick. rewrite first_None. intros Hall x Hx. apply Hall.
  rewrite elem_of_app, !list_elem_of_filter. destruct (decide (x < offset)); tauto.
Qed.

(** in a sorted list nothing above [a] is below an offset that [a] is not below *)
Lemma Forall_lt_filter a offset (l : list Z) :
  Forall (Z.lt a) l → ¬ a < offset →
  filter (λ x, x < offset) l = [] ∧ filter (λ x, ¬ x < offset) l = l.
Proof.
  intros Hall Ha. induction Hall as [|y l Hy Hall [IH1 IH2]]; [done|].
  rewrite filter_cons_False, filter_cons_True by lia. by rewrite IH1, IH2.
Qed.

Section rr.
Variables (begin : req_map) (offset : Z) (test : Z → res bool) (tb : Z → bool).
Hypothesis Htest : ∀ x, x ∈ ports begin → test x = Ok (tb x).
Hypothesis Hsorted : StronglySorted Z.lt (ports begin).

Lemma sorted_filter_nil p :
  StronglySorted Z.lt (ports p) →
  match p with
  | [] => True
  | (_, r) :: _ => ¬ port r < offset → filter (λ x, x < offset) (ports p) = []
  end.
Proof.
  clear Htest Hsorted. destruct p as [|[k r] p]; [done|]. intros Hs Hr.
  apply StronglySorted_inv in Hs as [_ Hall]. unfold ports. csimpl.
  rewrite filter_cons_False by done. by eapply Forall_lt_filter.
Qed.

Lemma rr_loop_wrapped p fuel :
  (length p < fuel)%nat → StronglySorted Z.lt (ports p) →
  (∀ x, x ∈ ports p → test x = Ok (tb x)) →
  rr_loop fuel begin offset test p true = Ok (first tb (filter (λ x, x < offset) (ports p))).
Proof.
  clear Htest Hsorted.
  revert fuel. induction p as [|[k r] p IH]; intros fuel Hfuel Hs Ht;
    (destruct fuel as [|fuel]; [simpl in Hfuel; lia|]); csimpl; [done|].
  case_bool_decide as Hr.
  - pose proof (sorted_filter_nil ((k, r) :: p) Hs Hr) as Hnil.
    unfold ports in *. csimpl in *. by rewrite Hnil.
  - unfold ports in *. csimpl in *.
    rewrite filter_cons_True by done. simpl. rewrite Ht by set_solver. simpl.
    destruct (tb (port r)); [done|]. apply StronglySorted_inv in Hs as [Hs _].
    apply IH; [lia|done|]. intros x Hx. apply Ht. by right.
Qed.

Lemma rr_loop_unwrapped p fuel :
  begin ≠ [] → (length p + length begin < fuel)%nat →
  (∀ x, x ∈ ports p → test x = Ok (tb x)) →
  rr_loop fuel begin offset test p false =
    Ok (match first tb (ports p) with
        | Some x => Some x
        | None => match begin with
                  | [] => None
                  | (_, r) :: p' => if tb (port r) then Some (port r)
                                    else first tb (filter (λ x, x < offset) (ports p'))
                  end
        end).
Proof.
  intros Hne. revert fuel. induction p as [|[k r] p IH]; intros fuel Hfuel Ht;
    (destruct fuel as [|fuel]; [simpl in Hfuel; lia|]); simpl.
  - destruct begin as [|[k r] p'] eqn:Hb; [done|]. clear Hne.
    rewrite Htest by (unfold ports; csimpl; left). simpl.
    destruct (tb (port r)); [done|]. rewrite <-Hb. simpl in Hfuel.
    rewrite rr_loop_wrapped; [done|simpl in *; lia| |].
    + by apply StronglySorted_inv in Hsorted as [? _].
    + intros x Hx. apply Htest. unfold ports. csimpl. by right.
  - unfold ports in *. csimpl in *. rewrite Ht by set_solver. simpl.
    destruct (tb (port r)); [done|]. apply IH; [lia|]. intros x Hx. apply Ht. by right.
Qed.

Lemma skip_below_spec p :
  StronglySorted Z.lt (ports p) →
  ports (skip_below offset p) = filter (λ x, ¬ x < offset) (ports p).
Proof.
  clear Htest Hsorted.
  induction p as [|[k r] p IH]; intros Hs; [done|]. unfold ports in *. csimpl in *.
  apply StronglySorted_inv in Hs as [Hs Hall]. case_decide as Hr.
  - rewrite filter_cons_False by tauto. by apply IH.
  - rewrite filter_cons_True by done. csimpl. f_equal.
    symmetry. by eapply Forall_lt_filter.
Qed.

Lemma skip_below_length p : (length (skip_below offset p) ≤ length p)%nat.
Proof.
  clear Htest Hsorted. induction p as [|[k r] p IH]; simpl; [done|].
  case_decide; simpl; lia.
Qed.

(** The pointer search of the allocator is the cyclic first fit. *)
Lemma rr_search_spec :
  begin ≠ [] → rr_search begin offset test = Ok (rr_pick offset tb (ports begin)).
Proof.
  intros Hne. unfold rr_search.
  rewrite rr_loop_unwrapped; [|done|pose proof (skip_below_length begin); lia|].
  2:{ intros x Hx. apply Htest. rewrite skip_below_spec in Hx by done.
      by apply list_elem_of_filter in Hx as [_ ?]. }
  f_equal. unfold rr_pick. rewrite first_app, skip_below_spec by done.
  destruct (first tb (filter (λ x, ¬ x < offset) (ports begin))) as [x|] eqn:Hfirst; [done|].
  destruct begin as [|[k r] p']; [done|]. unfold ports in *. csimpl in *.
  destruct (decide (port r < offset)) as [Hr|Hr].
  - by rewrite (filter_cons_True (λ x, x < offset)) by done.
  - rewrite first_None in Hfirst. rewrite Hfirst.
    + rewrite (filter_cons_False (λ x, x < offset)) by done. done.
    + rewrite filter_cons_True by done. left.
Qed.
End rr.

(** ** Well-formed allocators *)

Definition in_has (a : iSLIP_Sparse) (i o : Z) : Prop :=
  ∃ m r, _in_req a !z i = Some m ∧ (o, r) ∈ m.
Definition out_has (a : iSLIP_Sparse) (i o : Z) : Prop :=
  ∃ m r, _out_req a !z o = Some m ∧ (i, r) ∈ m.

(** a map of requests sorted by key, whose keys are the ports, all below [n] *)
Definition req_map_wf (n : Z) (m : req_map) : Prop :=
  om_wf m ∧ ∀ k r, (k, r) ∈ m → port r = k ∧ 0 ≤ k < n.

Record alloc_wf (a : iSLIP_Sparse) : Prop := {
  aw_inputs : 0 < al_inputs a;
  aw_outputs : 0 < al_outputs a;
  aw_inmatch : zlength (_inmatch a) = al_inputs a;
  aw_outmatch : zlength (_outmatch a) = al_outputs a;
  aw_in_req : zlength (_in_req a) = al_inputs a;
  aw_out_req : zlength (_out_req a) = al_outputs a;
  aw_gptrs : zlength (_gptrs a) = al_outputs a;
  aw_aptrs : zlength (_aptrs a) = al_inputs a;
  aw_in_maps : Forall (req_map_wf (al_outputs a)) (_in_req a);
  aw_out_maps : Forall (req_map_wf (al_inputs a)) (_out_req a);
  aw_transpose : ∀ i o, in_has a i o ↔ out_has a i o;
  aw_in_occ : ∀ i, i ∈ _in_occ a ↔ ∃ o, in_has a i o;
  aw_out_occ : ∀ o, o ∈ _out_occ a ↔ ∃ i, out_has a i o;
  aw_dirty : _dirty a = false →
    Forall (eq (-1)) (_inmatch a) ∧ Forall (eq (-1)) (_outmatch a) ∧ ∀ i o, ¬ in_has a i o;
  aw_in_range : Forall (λ o, -1 ≤ o < al_outputs a) (_inmatch a);
  aw_out_range : Forall (λ i, -1 ≤ i < al_inputs a) (_outmatch a);
  aw_gptr_range : Forall (λ g, 0 ≤ g < al_inputs a) (_gptrs a);
  aw_aptr_range : Forall (λ g, 0 ≤ g < al_outputs a) (_aptrs a);
}.

(** the two match vectors describe one partial matching *)
Definition matching (a : iSLIP_Sparse) : Prop :=
  (∀ i o, _inmatch a !z i = Some o → o = -1 ∨ _outmatch a !z o = Some i) ∧
  (∀ i o, _outmatch a !z o = Some i → i = -1 ∨ _inmatch a !z i = Some o).

Lemma req_map_wf_ports n m : req_map_wf n m → ports m = m.*1.
Proof.
  intros [_ Hm]. unfold ports. apply list_fmap_ext. intros j [k r] Hj. simpl.
  apply list_elem_of_lookup_2 in Hj. by apply Hm in Hj as [? _].
Qed.

Lemma req_map_wf_sorted n m : req_map_wf n m → StronglySorted Z.lt (ports m).
Proof. intros Hm. rewrite (req_map_wf_ports _ _ Hm). by destruct Hm. Qed.

Lemma req_map_wf_port n m x : req_map_wf n m → x ∈ ports m → 0 ≤ x < n ∧ ∃ r, (x, r) ∈ m.
Proof.
  intros Hm Hx. rewrite (req_map_wf_ports _ _ Hm) in Hx.
  apply list_elem_of_fmap in Hx as ([k r] & -> & Hin). simpl.
  split; [by apply (proj2 Hm) in Hin as [_ ?]|by exists r].
Qed.

Lemma req_map_wf_nil n : req_map_wf n [].
Proof. split; [constructor|]. intros k r Hin. by apply elem_of_nil in Hin. Qed.

Lemma om_set_elem (k : Z) (r : sRequest) m k' r' :
  om_wf m → (k', r') ∈ om_set k r m ↔ (k' = k ∧ r' = r) ∨ (k' ≠ k ∧ (k', r') ∈ m).
Proof.
  intros Hm. pose proof (om_wf_set m k r Hm) as Hm'. split.
  - intros Hin. apply om_find_elem in Hin; [|done].
    destruct (decide (k' = k)) as [->|Hne].
    + rewrite om_find_set_eq in Hin. left. split; congruence.
    + rewrite om_find_set_ne in Hin by done. right. split; [done|]. by apply om_find_Some_elem.
  - intros [[-> ->]|[Hne Hin]].
    + apply om_find_Some_elem. apply om_find_set_eq.
    + apply om_find_Some_elem. rewrite om_find_set_ne by done. by apply om_find_elem.
Qed.

Lemma om_erase_elem (k : Z) (m : req_map) k' r' :
  om_wf m → (k', r') ∈ om_erase k m ↔ k' ≠ k ∧ (k', r') ∈ m.
Proof.
  intros Hm. pose proof (om_wf_erase m k Hm) as Hm'. split.
  - intros Hin. apply om_find_elem in Hin; [|done]. destruct (decide (k' = k)) as [->|Hne].
    + by rewrite om_find_erase_eq in Hin.
    + rewrite om_find_erase_ne in Hin by done. split; [done|]. by apply om_find_Some_elem.
  - intros [Hne Hin]. apply om_find_Some_elem. rewrite om_find_erase_ne by done.
    by apply om_find_elem.
Qed.

Lemma req_map_wf_set n k r m :
  req_map_wf n m → port r = k → 0 ≤ k < n → req_map_wf n (om_set k r m).
Proof.
  intros [Hm Hp] Hr Hk. split; [by apply om_wf_set|].
  intros k' r' [[-> ->]|[_ Hin]]%om_set_elem; [done| |done]. by apply Hp.
Qed.

Lemma req_map_wf_erase n k m : req_map_wf n m → req_map_wf n (om_erase k m).
Proof.
  intros [Hm Hp]. split; [by apply om_wf_erase|].
  intros k' r' [_ Hin]%om_erase_elem; [|done]. by apply Hp.
Qed.

Lemma iSLIP_Sparse_wf inputs outputs iters :
  0 < inputs → 0 < outputs →
  alloc_wf (iSLIP_Sparse_iSLIP_Sparse inputs outputs iters) ∧
  matching (iSLIP_Sparse_iSLIP_Sparse inputs outputs iters).
Proof.
  intros Hi Ho.
  assert (Hrep : ∀ {A} (x : A) n i y, replicate n x !z i = Some y → y = x).
  { intros A x n i y Hy. apply vlookup_elem_of in Hy. by apply elem_of_replicate_inv in Hy. }
  assert (Hall : ∀ {A} (P : A → Prop) n x, P x → Forall P (replicate n x)).
  { intros A P n x Hx. by apply Forall_replicate. }
  assert (Hno : ∀ n k x (r : sRequest),
    (∃ m r, replicate n ([] : req_map) !z k = Some m ∧ (x, r) ∈ m) → False).
  { intros n k x r (m & r' & Hm & Hin). apply Hrep in Hm as ->. by apply elem_of_nil in Hin. }
  split.
  - split; simpl; try (unfold zlength; rewrite length_replicate; lia); try done;
      try (apply Hall; first [lia|apply req_map_wf_nil]).
    + intros i o. unfold in_has, out_has. simpl. split; intros H; exfalso;
        by eapply Hno, H; constructor.
    + intros i. split; [set_solver|]. intros (o & H). exfalso. eapply Hno, H; constructor; exact 0.
    + intros o. split; [set_solver|]. intros (i & H). exfalso. eapply Hno, H; constructor; exact 0.
    + intros _. split_and!; [by apply Hall|by apply Hall|].
      intros i o H. eapply Hno, H; constructor; exact 0.
  - split; simpl; intros i o H; apply Hrep in H; by left.
Qed.

(** ** One iteration, as a function of the state it starts in *)

Section iteration.
Variable a : iSLIP_Sparse.

(** the input that output [o] grants, or -1 *)
Definition grantF (o : Z) : Z :=
  if decide (vat [] (_out_req a) o = [] ∨ vat (-1) (_outmatch a) o ≠ -1) then -1
  else default (-1) (rr_pick (vat 0 (_gptrs a) o)
         (λ i, bool_decide (vat (-1) (_inmatch a) i = -1)) (ports (vat [] (_out_req a) o))).

Hypothesis Hwf : alloc_wf a.

Lemma out_req_at o :
  0 ≤ o < al_outputs a →
  _out_req a !z o = Some (vat [] (_out_req a) o) ∧
  req_map_wf (al_inputs a) (vat [] (_out_req a) o).
Proof.
  intros Ho. pose proof (represents_vat [] _ _ (aw_out_req _ Hwf)) as Hr.
  pose proof (represents_lookup _ _ _ _ Hr Ho) as Hl. split; [done|].
  by apply (Forall_vlookup _ _ _ _ (aw_out_maps _ Hwf) Hl).
Qed.

Lemma in_req_at i :
  0 ≤ i < al_inputs a →
  _in_req a !z i = Some (vat [] (_in_req a) i) ∧
  req_map_wf (al_outputs a) (vat [] (_in_req a) i).
Proof.
  intros Hi. pose proof (represents_vat [] _ _ (aw_in_req _ Hwf)) as Hr.
  pose proof (represents_lookup _ _ _ _ Hr Hi) as Hl. split; [done|].
  by apply (Forall_vlookup _ _ _ _ (aw_in_maps _ Hwf) Hl).
Qed.

Lemma vget_vat {A} (d : A) l n i : zlength l = n → 0 ≤ i < n → vget l i = Ok (vat d l i).
Proof.
  intros Hl Hi. apply vget_Some. apply (represents_lookup l n (vat d l)); [|done].
  by apply represents_vat.
Qed.

Lemma grant_output_run o grants :
  0 ≤ o < al_outputs a → zlength grants = al_outputs a → grants !z o = Some (-1) →
  grant_output a o grants = Ok (vinsert o (grantF o) grants).
Proof.
  intros Ho Hg Hgo. destruct (out_req_at o Ho) as [Hreq Hm].
  unfold grant_output, grantF. rewrite (vget_Some _ _ _ Hreq). simpl.
  rewrite (vget_vat (-1) _ _ _ (aw_outmatch _ Hwf) Ho). simpl.
  case_decide as Hskip; [by rewrite vinsert_id|].
  rewrite (vget_vat 0 _ _ _ (aw_gptrs _ Hwf) Ho). simpl.
  erewrite rr_search_spec; [| |by eapply req_map_wf_sorted|tauto].
  2:{ intros i Hi. destruct (req_map_wf_port _ _ _ Hm Hi) as [Hr _].
      rewrite (vget_vat (-1) _ _ _ (aw_inmatch _ Hwf) Hr). done. }
  simpl. destruct (rr_pick _ _ _) as [i|] eqn:Hpick; simpl.
  - by apply vset_Some with (y := -1).
  - by rewrite vinsert_id.
Qed.

Lemma grant_phase_spec :
  ∃ grants, grant_phase a = Ok grants ∧ represents grants (al_outputs a) grantF.
Proof.
  pose proof (aw_outputs _ Hwf) as Hpos. unfold grant_phase.
  destruct (fold_res_inv (grant_output a) (seqZ 0 (al_outputs a))
    (λ pre g, represents g (al_outputs a) (λ o, if decide (o < zlength pre) then grantF o else -1))
    (replicate (Z.to_nat (al_outputs a)) (-1))) as (g & Hrun & Hg).
  - intros pre o post g Heq Hg.
    assert (seqZ 0 (al_outputs a) !! length pre = Some o) as Ho
      by (rewrite Heq; by apply list_lookup_middle).
    apply lookup_seqZ in Ho as [Ho Hlt].
    assert (o = zlength pre) as Hoz by (unfold zlength; lia). clear Heq.
    exists (vinsert o (grantF o) g). split.
    + apply grant_output_run; [unfold zlength in *; lia|by destruct Hg|].
      rewrite (represents_lookup _ _ _ _ Hg) by (unfold zlength in *; lia).
      by rewrite decide_False by lia.
    + eapply represents_ext;
        [apply (represents_vinsert _ _ _ o _ Hg); unfold zlength in *; lia|].
      intros i Hi. simpl. unfold zlength in *. rewrite length_app. simpl.
      repeat case_decide; subst; try done; lia.
  - eapply represents_ext; [apply represents_replicate; lia|].
    intros i Hi. simpl. rewrite decide_False; [done|unfold zlength; simpl; lia].
  - exists g. split; [done|]. eapply represents_ext; [done|]. intros i Hi. simpl.
    rewrite decide_True; [done|]. unfold zlength. rewrite length_seqZ. lia.
Qed.

Variable gr : Z → Z.

(** the grant that input [i] accepts *)
Definition acceptF (i : Z) : option Z :=
  if decide (vat [] (_in_req a) i = []) then None
  else rr_pick (vat 0 (_aptrs a) i) (λ o, bool_decide (gr o = i))
         (ports (vat [] (_in_req a) i)).

(** output [o] is accepted by an input below [n] *)
Definition accepted (n o : Z) : bool :=
  bool_decide (0 ≤ gr o < n) && bool_decide (acceptF (gr o) = Some o).

Variable iter : Z.

(** the state after the inputs below [n] have accepted *)
Record accept_state (n : Z) (s : iSLIP_Sparse) : Prop := {
  as_dims : al_inputs s = al_inputs a ∧ al_outputs s = al_outputs a ∧
            _iSLIP_iter s = _iSLIP_iter a ∧ _dirty s = _dirty a;
  as_reqs : _in_req s = _in_req a ∧ _out_req s = _out_req a ∧
            _in_occ s = _in_occ a ∧ _out_occ s = _out_occ a;
  as_inmatch : represents (_inmatch s) (al_inputs a)
    (λ i, if decide (i < n) then default (vat (-1) (_inmatch a) i) (acceptF i)
          else vat (-1) (_inmatch a) i);
  as_outmatch : represents (_outmatch s) (al_outputs a)
    (λ o, if accepted n o then gr o else vat (-1) (_outmatch a) o);
  as_gptrs : represents (_gptrs s) (al_outputs a)
    (λ o, if decide (iter = 0 ∧ accepted n o = true) then Z.rem (gr o + 1) (al_inputs a)
          else vat 0 (_gptrs a) o);
  as_aptrs : represents (_aptrs s) (al_inputs a)
    (λ i, match (if decide (iter = 0 ∧ i < n) then acceptF i else None) with
          | Some o => Z.rem (o + 1) (al_outputs a)
          | None => vat 0 (_aptrs a) i
          end);
}.

Lemma acceptF_Some i o :
  0 ≤ i < al_inputs a → acceptF i = Some o →
  gr o = i ∧ 0 ≤ o < al_outputs a ∧ in_has a i o.
Proof.
  intros Hi. destruct (in_req_at i Hi) as [Hreq Hm]. unfold acceptF.
  case_decide; [done|]. intros [Hin Hgr]%rr_pick_Some.
  apply bool_decide_eq_true in Hgr.
  destruct (req_map_wf_port _ _ _ Hm Hin) as [Hr [r Hr']].
  split_and!; [done|lia|lia|]. by exists (vat [] (_in_req a) i), r.
Qed.

Lemma accept_state_0 : accept_state 0 a.
Proof.
  split; [done|done| | | |].
  - eapply represents_ext; [apply (represents_vat (-1)), (aw_inmatch _ Hwf)|].
    intros i Hi. by rewrite decide_False by lia.
  - eapply represents_ext; [apply (represents_vat (-1)), (aw_outmatch _ Hwf)|].
    intros o Ho. unfold accepted. by rewrite bool_decide_false by lia.
  - eapply represents_ext; [apply (represents_vat 0), (aw_gptrs _ Hwf)|].
    intros o Ho. unfold accepted. rewrite bool_decide_false by lia. simpl.
    rewrite decide_False; [done|]. by intros [_ ?].
  - eapply represents_ext; [apply (represents_vat 0), (aw_aptrs _ Hwf)|].
    intros i Hi. rewrite decide_False; [done|lia].
Qed.

Lemma accepted_succ n o :
  accepted (n + 1) o = (if decide (0 ≤ n ∧ gr o = n) then bool_decide (acceptF n = Some o)
                        else accepted n o).
Proof.
  unfold accepted. case_decide as H.
  - destruct H as [H <-]. by rewrite bool_decide_true by lia.
  - destruct (decide (0 ≤ gr o < n)).
    + by rewrite (bool_decide_true (0 ≤ gr o < n + 1)), (bool_decide_true (0 ≤ gr o < n)) by lia.
    + by rewrite (bool_decide_false (0 ≤ gr o < n + 1)), (bool_decide_false (0 ≤ gr o < n)) by lia.
Qed.

(** an input that accepts nothing leaves the state as it is *)
Lemma accept_state_skip n s :
  0 ≤ n < al_inputs a → acceptF n = None → accept_state n s → accept_state (n + 1) s.
Proof.
  intros Hn Hacc Hs.
  assert (Hext : ∀ o, accepted (n + 1) o = accepted n o).
  { intros o. rewrite accepted_succ. case_decide as H; [|done]. rewrite Hacc.
    unfold accepted. by rewrite !bool_decide_false by (lia || done). }
  split; [apply Hs|apply Hs| | | |].
  - eapply represents_ext; [apply (as_inmatch _ _ Hs)|]. intros i Hi. simpl.
    destruct (decide (i = n)) as [->|].
    + rewrite decide_False by lia. rewrite decide_True by lia. by rewrite Hacc.
    + repeat case_decide; done || lia.
  - eapply represents_ext; [apply (as_outmatch _ _ Hs)|]. intros o Ho. by rewrite Hext.
  - eapply represents_ext; [apply (as_gptrs _ _ Hs)|]. intros o Ho. by rewrite Hext.
  - eapply represents_ext; [apply (as_aptrs _ _ Hs)|]. intros i Hi. simpl.
    destruct (decide (i = n)) as [->|].
    + rewrite decide_False by lia. case_decide; [by rewrite Hacc|done].
    + repeat case_decide; done || lia.
Qed.

(** the state after input [n] has accepted output [o] *)
Definition accept_update (n o : Z) (s : iSLIP_Sparse) : iSLIP_Sparse :=
  let s := s.{_inmatch ::= vinsert n o}.{_outmatch ::= vinsert o n} in
  if bool_decide (iter = 0) then
    s.{_gptrs ::= vinsert o (Z.rem (n + 1) (al_inputs a))}
     .{_aptrs ::= vinsert n (Z.rem (o + 1) (al_outputs a))}
  else s.

Lemma accept_state_take n o s :
  0 ≤ n < al_inputs a → acceptF n = Some o → accept_state n s →
  accept_state (n + 1) (accept_update n o s).
Proof.
  intros Hn Hacc Hs. destruct (acceptF_Some n o Hn Hacc) as (Hgr & Ho & _).
  assert (Hnew : ∀ o', accepted (n + 1) o' = if decide (o' = o) then true else accepted n o').
  { intros o'. rewrite accepted_succ. destruct (decide (o' = o)) as [->|Hne].
    - rewrite decide_True by lia. by rewrite bool_decide_true.
    - case_decide as H; [|done]. rewrite Hacc. unfold accepted.
      rewrite (bool_decide_false (0 ≤ _ < _)) by lia. by rewrite bool_decide_false by congruence. }
  assert (represents (vinsert n o (_inmatch s)) (al_inputs a)
    (λ i, if decide (i < n + 1) then default (vat (-1) (_inmatch a) i) (acceptF i)
          else vat (-1) (_inmatch a) i)) as Him.
  { eapply represents_ext; [apply (represents_vinsert _ _ _ _ _ (as_inmatch _ _ Hs) Hn)|].
    intros i Hi. simpl. destruct (decide (i = n)) as [->|].
    - rewrite decide_True by lia. by rewrite Hacc.
    - repeat case_decide; done || lia. }
  assert (represents (vinsert o n (_outmatch s)) (al_outputs a)
    (λ o', if accepted (n + 1) o' then gr o' else vat (-1) (_outmatch a) o')) as Hom.
  { eapply represents_ext; [apply (represents_vinsert _ _ _ _ _ (as_outmatch _ _ Hs) Ho)|].
    intros o' Ho'. simpl. rewrite Hnew. case_decide; [by subst|done]. }
  unfold accept_update. case_bool_decide as Hit;
    (split; simpl; [apply Hs|apply Hs|exact Him|exact Hom| |]).
  - eapply represents_ext; [apply (represents_vinsert _ _ _ _ _ (as_gptrs _ _ Hs) Ho)|].
    intros o' Ho'. simpl. rewrite Hnew. destruct (decide (o' = o)) as [->|]; [|done].
    rewrite decide_True by done. by rewrite Hgr.
  - eapply represents_ext; [apply (represents_vinsert _ _ _ _ _ (as_aptrs _ _ Hs) Hn)|].
    intros i Hi. simpl. destruct (decide (i = n)) as [->|].
    + rewrite decide_True by lia. by rewrite Hacc.
    + repeat case_decide; done || lia.
  - eapply represents_ext; [apply (as_gptrs _ _ Hs)|]. intros o' Ho'. simpl.
    by rewrite !decide_False by tauto.
  - eapply represents_ext; [apply (as_aptrs _ _ Hs)|]. intros i Hi. simpl.
    by rewrite !decide_False by tauto.
Qed.

Lemma accept_input_run grants n s :
  represents grants (al_outputs a) gr → 0 ≤ n < al_inputs a → accept_state n s →
  ∃ s', accept_input iter grants n s = Ok (tt, s') ∧ accept_state (n + 1) s'.
Proof.
  intros Hgrants Hn Hs. destruct (in_req_at n Hn) as [Hreq Hm].
  destruct (as_reqs _ _ Hs) as (Hir & _).
  unfold accept_input, mbind, M_bind, get, lift. rewrite Hir, (vget_Some _ _ _ Hreq).
  assert (Hacc := eq_refl (acceptF n)). unfold acceptF at 1 in Hacc.
  case_decide as Hnil.
  { exists s. split; [done|]. by apply accept_state_skip. }
  assert (vget (_aptrs s) n = Ok (vat 0 (_aptrs a) n)) as Hap.
  { apply vget_Some. rewrite (represents_lookup _ _ _ _ (as_aptrs _ _ Hs) Hn).
    by rewrite decide_False by lia. }
  rewrite Hap.
  erewrite rr_search_spec; [| |by eapply req_map_wf_sorted|done].
  2:{ intros o Ho. destruct (req_map_wf_port _ _ _ Hm Ho) as [Hr _].
      rewrite (vget_Some _ _ _ (represents_lookup _ _ _ _ Hgrants Hr)). done. }
  rewrite Hacc. destruct (acceptF n) as [o|] eqn:Ho; cycle 1.
  { exists s. split; [done|]. by apply accept_state_skip. }
  destruct (acceptF_Some n o Hn Ho) as (_ & Hor & _).
  exists (accept_update n o s). split; [|by apply accept_state_take].
  pose proof (represents_lookup _ _ _ _ (as_inmatch _ _ Hs) Hn) as H1.
  pose proof (represents_lookup _ _ _ _ (as_outmatch _ _ Hs) Hor) as H2.
  pose proof (represents_lookup _ _ _ _ (as_gptrs _ _ Hs) Hor) as H3.
  pose proof (represents_lookup _ _ _ _ (as_aptrs _ _ Hs) Hn) as H4.
  destruct (as_dims _ _ Hs) as (Hi & Hou & _).
  unfold zoom. rewrite (zoom_at_Some _ _ _ _ H1). simpl.
  rewrite (zoom_at_Some _ _ _ _ H2). simpl. unfold when, accept_update.
  case_bool_decide; [|done]. unfold M_bind. simpl.
  rewrite (zoom_at_Some _ _ _ _ H3). simpl. rewrite (zoom_at_Some _ _ _ _ H4). simpl.
  by rewrite Hi, Hou.
Qed.
End iteration.

(** The effect of one iteration of [Allocate]. *)
Lemma iteration_run a iter :
  alloc_wf a →
  ∃ s', (a ← get; grants ← lift (grant_phase a);
         for_range 0 (al_inputs a) (accept_input iter grants)) a = Ok (tt, s') ∧
        accept_state a (grantF a) iter (al_inputs a) s'.
Proof.
  intros Hwf. destruct (grant_phase_spec a Hwf) as (grants & Hrun & Hg).
  pose proof (aw_inputs _ Hwf).
  destruct (triple_for_range 0 (al_inputs a) (accept_input iter grants)
    (λ n s, accept_state a (grantF a) iter n s)) with (s := a) as ([] & s' & Hrun' & Hs').
  - lia.
  - intros n Hn s Hs.
    destruct (accept_input_run a Hwf (grantF a) iter grants n s Hg Hn Hs) as (s' & ? & ?).
    by exists tt, s'.
  - by apply accept_state_0.
  - exists s'. split; [|done]. unfold mbind, M_bind, get, lift. by rewrite Hrun.
Qed.

Lemma Forall_represents {A} (P : A → Prop) l n f :
  represents l n f → (∀ i, 0 ≤ i < n → P (f i)) → Forall P l.
Proof.
  intros Hr HP. apply Forall_forall. intros x [i Hi]%elem_of_vlookup.
  destruct (represents_Some _ _ _ _ _ Hr Hi) as [? ->]. auto.
Qed.

Section iteration_lemmas.
Variable a : iSLIP_Sparse.
Hypothesis Hwf : alloc_wf a.

Lemma inmatch_vat i o : _inmatch a !z i = Some o ↔ 0 ≤ i < al_inputs a ∧ o = vat (-1) (_inmatch a) i.
Proof.
  pose proof (represents_vat (-1) _ _ (aw_inmatch _ Hwf)) as Hr. split.
  - intros H. by apply (represents_Some _ _ _ _ _ Hr).
  - intros [Hi ->]. by apply (represents_lookup _ _ _ _ Hr).
Qed.

Lemma outmatch_vat o i : _outmatch a !z o = Some i ↔ 0 ≤ o < al_outputs a ∧ i = vat (-1) (_outmatch a) o.
Proof.
  pose proof (represents_vat (-1) _ _ (aw_outmatch _ Hwf)) as Hr. split.
  - intros H. by apply (represents_Some _ _ _ _ _ Hr).
  - intros [Ho ->]. by apply (represents_lookup _ _ _ _ Hr).
Qed.

Lemma in_has_range i o : in_has a i o → 0 ≤ i < al_inputs a ∧ 0 ≤ o < al_outputs a.
Proof.
  intros (m & r & Hm & Hin). pose proof (vlookup_Some_range _ _ _ Hm) as Hi.
  rewrite (aw_in_req _ Hwf) in Hi. split; [done|].
  destruct (Forall_vlookup _ _ _ _ (aw_in_maps _ Hwf) Hm) as [_ Hp]. by apply Hp in Hin as [_ ?].
Qed.

(** a grant goes to a free input that requests the free output *)
Lemma grantF_Some o :
  0 ≤ o < al_outputs a → grantF a o ≠ -1 →
  in_has a (grantF a o) o ∧ vat (-1) (_inmatch a) (grantF a o) = -1 ∧
  vat (-1) (_outmatch a) o = -1.
Proof.
  intros Ho. destruct (out_req_at a Hwf o Ho) as [Hreq Hm]. unfold grantF.
  case_decide as Hskip; [done|]. destruct (rr_pick _ _ _) as [i|] eqn:Hpick; [|done].
  intros _. simpl. apply rr_pick_Some in Hpick as [Hin Hfree].
  apply bool_decide_eq_true in Hfree.
  destruct (req_map_wf_port _ _ _ Hm Hin) as [_ [r Hr]].
  split_and!; [|done|destruct (decide (vat (-1) (_outmatch a) o = -1)); tauto].
  apply (aw_transpose _ Hwf). by exists (vat [] (_out_req a) o), r.
Qed.

(** an output with a request from a free input grants *)
Lemma grantF_progress i o :
  in_has a i o → vat (-1) (_inmatch a) i = -1 → vat (-1) (_outmatch a) o = -1 →
  grantF a o ≠ -1.
Proof.
  intros Hhas Hi Ho. pose proof (in_has_range _ _ Hhas) as [Hir Hor].
  destruct (out_req_at a Hwf o Hor) as [Hreq Hm].
  apply (aw_transpose _ Hwf) in Hhas as (m & r & Hm' & Hin). rewrite Hreq in Hm'. simplify_eq.
  assert (i ∈ ports (vat [] (_out_req a) o)) as Hport.
  { rewrite (req_map_wf_ports _ _ Hm). apply list_elem_of_fmap. by exists (i, r). }
  unfold grantF. rewrite decide_False.
  2:{ intros [Hnil|?]; [|done]. rewrite Hnil in Hin. by apply elem_of_nil in Hin. }
  destruct (rr_pick _ _ _) as [j|] eqn:Hpick; simpl.
  - apply rr_pick_Some in Hpick as [Hj _].
    destruct (req_map_wf_port _ _ _ Hm Hj) as [? _]. lia.
  - exfalso. pose proof (rr_pick_None _ _ _ Hpick i Hport) as Hf. simpl in Hf.
    by rewrite bool_decide_true in Hf.
Qed.

(** an input with a grant accepts one *)
Lemma acceptF_progress o :
  0 ≤ o < al_outputs a → grantF a o ≠ -1 → is_Some (acceptF a (grantF a) (grantF a o)).
Proof.
  intros Ho Hg. destruct (grantF_Some o Ho Hg) as (Hhas & _ & _).
  pose proof (in_has_range _ _ Hhas) as [Hir _].
  destruct (in_req_at a Hwf _ Hir) as [Hreq Hm].
  destruct Hhas as (m & r & Hm' & Hin). rewrite Hreq in Hm'. simplify_eq.
  unfold acceptF. rewrite decide_False by (intros Hnil; rewrite Hnil in Hin; by apply elem_of_nil in Hin).
  destruct (rr_pick _ _ _) as [o'|] eqn:Hpick; [by eexists|]. exfalso.
  assert (o ∈ ports (vat [] (_in_req a) (grantF a o))) as Hport.
  { rewrite (req_map_wf_ports _ _ Hm). apply list_elem_of_fmap. by exists (o, r). }
  pose proof (rr_pick_None _ _ _ Hpick o Hport) as Hf. simpl in Hf.
  by rewrite bool_decide_true in Hf.
Qed.

Lemma grantF_range o : 0 ≤ o < al_outputs a → -1 ≤ grantF a o < al_inputs a.
Proof.
  intros Ho. pose proof (aw_inputs _ Hwf). destruct (decide (grantF a o = -1)); [lia|].
  destruct (grantF_Some o Ho) as (Hhas & _); [done|].
  apply in_has_range in Hhas. lia.
Qed.

Variables (iter : Z) (s : iSLIP_Sparse).
Hypothesis Hs : accept_state a (grantF a) iter (al_inputs a) s.

Lemma step_inmatch i o :
  _inmatch s !z i = Some o →
  0 ≤ i < al_inputs a ∧
  ((acceptF a (grantF a) i = Some o) ∨
   (acceptF a (grantF a) i = None ∧ o = vat (-1) (_inmatch a) i)).
Proof.
  intros H. apply (represents_Some _ _ _ _ _ (as_inmatch _ _ _ _ _ Hs)) in H as [Hi ->].
  split; [done|]. simpl. rewrite decide_True by lia.
  destruct (acceptF _ _ i); [by left|by right].
Qed.

Lemma step_outmatch o i :
  _outmatch s !z o = Some i →
  0 ≤ o < al_outputs a ∧
  ((i = grantF a o ∧ 0 ≤ i ∧ acceptF a (grantF a) i = Some o) ∨
   (accepted a (grantF a) (al_inputs a) o = false ∧ i = vat (-1) (_outmatch a) o)).
Proof.
  intros H. apply (represents_Some _ _ _ _ _ (as_outmatch _ _ _ _ _ Hs)) in H as [Ho ->].
  split; [done|]. simpl. destruct (accepted _ _ _ o) eqn:Hacc; [left|by right].
  unfold accepted in Hacc. apply andb_prop in Hacc as [H1%bool_decide_eq_true H2%bool_decide_eq_true].
  split_and!; [done|lia|done].
Qed.

Lemma step_matching : matching a → matching s.
Proof.
  intros [Hin Hout]. split; intros i o.
  - intros [Hi [Hacc|[Hacc ->]]]%step_inmatch.
    + right. destruct (acceptF_Some a Hwf _ _ _ Hi Hacc) as (Hg & Ho & _).
      rewrite (represents_lookup _ _ _ _ (as_outmatch _ _ _ _ _ Hs) Ho). simpl.
      unfold accepted. rewrite Hg, !bool_decide_true by (done || lia). done.
    + destruct (Hin i (vat (-1) (_inmatch a) i)) as [?|Hom]; [by apply inmatch_vat|by left|].
      right. pose proof (proj1 (outmatch_vat _ _) Hom) as [Ho Hoi].
      rewrite (represents_lookup _ _ _ _ (as_outmatch _ _ _ _ _ Hs) Ho). simpl.
      destruct (accepted _ _ _ _) eqn:Ha; [|by rewrite <-Hoi].
      unfold accepted in Ha. apply andb_prop in Ha as [H1%bool_decide_eq_true _].
      destruct (grantF_Some _ Ho) as (_ & _ & Hfree); [lia|]. lia.
  - intros [Ho [(-> & Hpos & Hacc)|[Hacc ->]]]%step_outmatch.
    + right. pose proof (grantF_range o Ho).
      rewrite (represents_lookup _ _ _ _ (as_inmatch _ _ _ _ _ Hs)) by lia. simpl.
      rewrite decide_True by lia. by rewrite Hacc.
    + destruct (Hout (vat (-1) (_outmatch a) o) o) as [?|Him]; [by apply outmatch_vat|by left|].
      right. pose proof (proj1 (inmatch_vat _ _) Him) as [Hi Hio].
      rewrite (represents_lookup _ _ _ _ (as_inmatch _ _ _ _ _ Hs) Hi). simpl.
      rewrite decide_True by lia.
      destruct (acceptF _ _ _) as [o'|] eqn:Hacc'; [|by rewrite <-Hio].
      destruct (acceptF_Some a Hwf _ _ _ Hi Hacc') as (Hg & Ho' & _).
      destruct (grantF_Some o' Ho') as (_ & Hfree & _); [lia|]. rewrite Hg in Hfree. lia.
Qed.

Lemma step_in_has i o : in_has s i o ↔ in_has a i o.
Proof. unfold in_has. by destruct (as_reqs _ _ _ _ _ Hs) as (-> & _). Qed.
Lemma step_out_has i o : out_has s i o ↔ out_has a i o.
Proof. unfold out_has. by destruct (as_reqs _ _ _ _ _ Hs) as (_ & -> & _). Qed.

Lemma step_wf : alloc_wf s.
Proof.
  destruct (as_dims _ _ _ _ _ Hs) as (Hdi & Hdo & _ & Hdd).
  destruct (as_reqs _ _ _ _ _ Hs) as (Hr1 & Hr2 & Hr3 & Hr4).
  pose proof (aw_inputs _ Hwf) as Hi0. pose proof (aw_outputs _ Hwf) as Ho0.
  split; rewrite ?Hdi, ?Hdo, ?Hr1, ?Hr2, ?Hr3, ?Hr4; try apply Hwf;
    try (by apply Hs).
  - intros i o. rewrite step_in_has, step_out_has. apply Hwf.
  - intros i. rewrite (aw_in_occ _ Hwf). by setoid_rewrite step_in_has.
  - intros o. rewrite (aw_out_occ _ Hwf). by setoid_rewrite step_out_has.
  - rewrite Hdd. intros Hclean. destruct (aw_dirty _ Hwf Hclean) as (H1 & H2 & Hno).
    assert (Hnone : ∀ i, 0 ≤ i < al_inputs a → acceptF a (grantF a) i = None).
    { intros i Hi. destruct (acceptF _ _ i) as [o|] eqn:Hacc; [|done].
      destruct (acceptF_Some a Hwf _ _ _ Hi Hacc) as (_ & _ & Hhas). by destruct (Hno i o). }
    split_and!.
    + eapply Forall_represents; [apply (as_inmatch _ _ _ _ _ Hs)|]. intros i Hi. simpl.
      rewrite decide_True, (Hnone i Hi) by lia. simpl.
      apply (Forall_vlookup _ (_inmatch a) i); [done|]. by apply inmatch_vat.
    + eapply Forall_represents; [apply (as_outmatch _ _ _ _ _ Hs)|]. intros o Ho. simpl.
      destruct (accepted _ _ _ o) eqn:Hacc.
      * unfold accepted in Hacc.
        apply andb_prop in Hacc as [Hg%bool_decide_eq_true Hb%bool_decide_eq_true].
        by rewrite (Hnone _ Hg) in Hb.
      * apply (Forall_vlookup _ (_outmatch a) o); [done|]. by apply outmatch_vat.
    + intros i o. rewrite step_in_has. apply Hno.
  - eapply Forall_represents; [apply (as_inmatch _ _ _ _ _ Hs)|]. intros i Hi. simpl.
    rewrite decide_True by lia. destruct (acceptF _ _ i) as [o|] eqn:Hacc; simpl.
    + destruct (acceptF_Some a Hwf _ _ _ Hi Hacc) as (_ & ? & _). lia.
    + apply (Forall_vlookup _ (_inmatch a) i _ (aw_in_range _ Hwf)). by apply inmatch_vat.
  - eapply Forall_represents; [apply (as_outmatch _ _ _ _ _ Hs)|]. intros o Ho. simpl.
    destruct (accepted _ _ _ o); [by apply grantF_range|].
    apply (Forall_vlookup _ (_outmatch a) o _ (aw_out_range _ Hwf)). by apply outmatch_vat.
  - eapply Forall_represents; [apply (as_gptrs _ _ _ _ _ Hs)|]. intros o Ho. simpl.
    case_decide as Hc; [|apply (Forall_vlookup _ (_gptrs a) o _ (aw_gptr_range _ Hwf)),
      (represents_lookup _ _ _ _ (represents_vat 0 _ _ (aw_gptrs _ Hwf)) Ho)].
    destruct Hc as [_ Hacc]. unfold accepted in Hacc.
    apply andb_prop in Hacc as [Hg%bool_decide_eq_true _]. apply Z.rem_bound_pos; lia.
  - eapply Forall_represents; [apply (as_aptrs _ _ _ _ _ Hs)|]. intros i Hi. simpl.
    destruct (if decide _ then _ else _) as [o|] eqn:Hacc;
      [|apply (Forall_vlookup _ (_aptrs a) i _ (aw_aptr_range _ Hwf)),
        (represents_lookup _ _ _ _ (represents_vat 0 _ _ (aw_aptrs _ Hwf)) Hi)].
    case_decide; [|done].
    destruct (acceptF_Some a Hwf _ _ _ Hi Hacc) as (_ & ? & _). apply Z.rem_bound_pos; lia.
Qed.

(** matches are kept, and every new one was requested *)
Lemma step_sound i o :
  _inmatch s !z i = Some o → o = -1 ∨ _inmatch a !z i = Some o ∨ in_has a i o.
Proof.
  intros [Hi [Hacc|[Hacc ->]]]%step_inmatch.
  - right; right. by destruct (acceptF_Some a Hwf _ _ _ Hi Hacc) as (_ & _ & ?).
  - right; left. by apply inmatch_vat.
Qed.

Lemma step_keeps i o : _inmatch a !z i = Some o → o ≠ -1 → _inmatch s !z i = Some o.
Proof.
  intros [Hi ->]%inmatch_vat Hne.
  rewrite (represents_lookup _ _ _ _ (as_inmatch _ _ _ _ _ Hs) Hi). simpl.
  rewrite decide_True by lia. destruct (acceptF _ _ i) as [o'|] eqn:Hacc; [|done].
  destruct (acceptF_Some a Hwf _ _ _ Hi Hacc) as (Hg & Ho' & _).
  destruct (grantF_Some o' Ho') as (_ & Hfree & _); [lia|]. rewrite Hg in Hfree. lia.
Qed.

(** a request between free ports makes a match somewhere *)
Lemma step_progress i o :
  in_has a i o → vat (-1) (_inmatch a) i = -1 → vat (-1) (_outmatch a) o = -1 →
  ∃ i' o', _inmatch s !z i' = Some o' ∧ o' ≠ -1.
Proof.
  intros Hhas Hi Ho. pose proof (in_has_range _ _ Hhas) as [_ Hor].
  pose proof (grantF_progress _ _ Hhas Hi Ho) as Hg.
  destruct (acceptF_progress o Hor Hg) as [o' Hacc].
  pose proof (grantF_range o Hor) as Hgr.
  exists (grantF a o), o'.
  rewrite (represents_lookup _ _ _ _ (as_inmatch _ _ _ _ _ Hs)) by lia. simpl.
  rewrite decide_True by lia. rewrite Hacc. split; [done|].
  destruct (acceptF_Some a Hwf _ (grantF a o) o' ltac:(lia) Hacc) as (_ & ? & _). lia.
Qed.
End iteration_lemmas.

(** ** The specifications of the operations *)

(** [s] has the dimensions and the requests of [a] *)
Definition same_requests (a s : iSLIP_Sparse) : Prop :=
  al_inputs s = al_inputs a ∧ al_outputs s = al_outputs a ∧ _iSLIP_iter s = _iSLIP_iter a ∧
  ∀ i o, in_has s i o ↔ in_has a i o.

Record allocated (a s : iSLIP_Sparse) : Prop := {
  al_wf : alloc_wf s;
  al_matching : matching s;
  al_requests : same_requests a s;
  al_sound : ∀ i o, _inmatch s !z i = Some o → o = -1 ∨ _inmatch a !z i = Some o ∨ in_has a i o;
  al_keeps : ∀ i o, _inmatch a !z i = Some o → o ≠ -1 → _inmatch s !z i = Some o;
}.

Lemma allocated_refl a : alloc_wf a → matching a → allocated a a.
Proof. intros. by split; auto. Qed.

Lemma allocated_step a s s' iter :
  allocated a s → accept_state s (grantF s) iter (al_inputs s) s' → allocated a s'.
Proof.
  intros [Hwf Hm (Hd1 & Hd2 & Hd3 & Hreq) Hsound Hkeep] Hs.
  destruct (as_dims _ _ _ _ _ Hs) as (He1 & He2 & He3 & _). split.
  - by eapply step_wf.
  - by eapply step_matching.
  - split_and!; [congruence|congruence|congruence|]. intros i o.
    by rewrite (step_in_has s iter s' Hs).
  - intros i o [?|[Hold|Hhas]]%(step_sound s Hwf iter s' Hs); [by left|by apply Hsound|].
    right; right. by apply Hreq.
  - intros i o Hold Hne. by eapply (step_keeps s Hwf iter s' Hs); [apply Hkeep|].
Qed.

Definition iteration (iter : Z) : M iSLIP_Sparse unit :=
  a ← get; grants ← lift (grant_phase a); for_range 0 (al_inputs a) (accept_input iter grants).

Lemma iterations_run l a s :
  allocated a s → ∃ s', for_each l iteration s = Ok (tt, s') ∧ allocated a s'.
Proof.
  intros Hs. destruct (triple_for_each_inv l iteration (allocated a)) with (s := s)
    as ([] & s' & Hrun & Hs'); [|done|by exists s'].
  intros iter _ s1 Hs1. destruct (iteration_run s1 iter) as (s' & Hrun & Hs'); [apply Hs1|].
  exists tt, s'. split; [exact Hrun|]. by eapply allocated_step.
Qed.

Lemma Allocate_run a :
  alloc_wf a → matching a → ∃ s, Allocate a = Ok (tt, s) ∧ allocated a s.
Proof. intros Hwf Hm. by apply (iterations_run (seqZ 0 (_iSLIP_iter a - 0))), allocated_refl. Qed.

(** A request between two unmatched ports makes a match somewhere. *)
Lemma Allocate_progress a s i o :
  alloc_wf a → matching a → 1 ≤ _iSLIP_iter a → in_has a i o →
  vat (-1) (_inmatch a) i = -1 → vat (-1) (_outmatch a) o = -1 →
  Allocate a = Ok (tt, s) → ∃ i' o', _inmatch s !z i' = Some o' ∧ o' ≠ -1.
Proof.
  intros Hwf Hm Hit Hhas Hi Ho Hrun.
  destruct (iteration_run a 0 Hwf) as (s1 & Hrun1 & Hs1).
  destruct (step_progress a Hwf 0 s1 Hs1 i o Hhas Hi Ho) as (i' & o' & Hmatch & Hne).
  pose proof (allocated_step a a s1 0 (allocated_refl a Hwf Hm) Hs1) as Ha1.
  destruct (iterations_run (seqZ (Z.succ 0) (Z.pred (_iSLIP_iter a - 0))) s1 s1)
    as (s' & Hrun' & Hs'); [apply allocated_refl; apply Ha1|].
  exists i', o'. split; [|done].
  enough (s = s') as -> by by apply (al_keeps _ _ Hs').
  enough (Allocate a = Ok (tt, s')) by congruence.
  transitivity (for_each (seqZ 0 (_iSLIP_iter a - 0)) iteration a); [done|].
  rewrite seqZ_cons by lia. simpl. unfold mbind at 1, M_bind at 1.
  change (iteration 0 a) with ((a ← get; grants ← lift (grant_phase a);
         for_range 0 (al_inputs a) (accept_input 0 grants)) a).
  by rewrite Hrun1.
Qed.

(** ** Clearing and requesting *)

(** [Clear] empties the elements of a vector one by one. *)
Lemma clear_loop_run {S} (getter : S → list req_map) (setter : list req_map → S → S) n s :
  (∀ l s, getter (setter l s) = l) → (∀ l l' s, setter l (setter l' s) = setter l s) →
  setter (getter s) s = s → 0 ≤ n → zlength (getter s) = n →
  for_range 0 n (λ i, zoom getter setter (zoom_at i (modify (λ _, [])))) s =
    Ok (tt, setter (replicate (Z.to_nat n) []) s).
Proof.
  intros Hgs Hss Hsg Hn Hlen.
  destruct (triple_for_range 0 n (λ i, zoom getter setter (zoom_at i (modify (λ _, []))))
    (λ k s', ∃ l, s' = setter l s ∧
       represents l n (λ i, if decide (i < k) then [] else vat [] (getter s) i)))
    with (s := s) as ([] & s' & Hrun & l & -> & Hl); [done| | |].
  - intros i Hi s' (l & -> & Hl).
    pose proof (represents_lookup _ _ _ _ Hl Hi) as Hli.
    exists tt, (setter (vinsert i [] l) s). split.
    + unfold zoom. rewrite Hgs, (zoom_at_Some _ _ _ _ Hli). simpl. by rewrite Hss.
    + eexists. split; [done|]. eapply represents_ext; [by apply represents_vinsert|].
      intros j Hj. simpl. repeat case_decide; done || lia.
  - exists (getter s). split; [done|]. eapply represents_ext; [by apply (represents_vat [])|].
    intros i Hi. simpl. by rewrite decide_False by lia.
  - rewrite Hrun. do 3 f_equal. eapply represents_unique; [done|].
    eapply represents_ext; [by apply represents_replicate|].
    intros i Hi. simpl. by rewrite decide_True by lia.
Qed.

Lemma Forall_eq_replicate {A} (x : A) l n :
  zlength l = n → Forall (eq x) l → l = replicate (Z.to_nat n) x.
Proof.
  intros <- Hall. unfold zlength. rewrite Nat2Z.id.
  induction Hall as [|y l <- Hall IH]; [done|]. simpl. by f_equal.
Qed.

(** the state [Clear] leaves: as constructed, but for the pointers *)
Definition cleared (a : iSLIP_Sparse) : iSLIP_Sparse :=
  (iSLIP_Sparse_iSLIP_Sparse (al_inputs a) (al_outputs a) (_iSLIP_iter a))
    .{_gptrs := _gptrs a}.{_aptrs := _aptrs a}.

Lemma SparseAllocator_Clear_run a :
  alloc_wf a → SparseAllocator_Clear a = Ok (tt, cleared a).
Proof.
  intros Hwf. pose proof (aw_inputs _ Hwf). pose proof (aw_outputs _ Hwf).
  unfold SparseAllocator_Clear, mbind, M_bind, get.
  rewrite clear_loop_run; [|done|done|by destruct a|lia|apply Hwf].
  rewrite clear_loop_run; [|done|done|by destruct a|lia|apply Hwf].
  unfold modify, Allocator_Clear, modify. simpl. destruct (_dirty a) eqn:Hd; simpl; [done|].
  destruct (aw_dirty _ Hwf Hd) as (Hi & Ho & _).
  apply Forall_eq_replicate with (n := al_inputs a) in Hi; [|apply Hwf].
  apply Forall_eq_replicate with (n := al_outputs a) in Ho; [|apply Hwf].
  unfold cleared. simpl. by rewrite Hi, Ho.
Qed.

Lemma cleared_wf a : alloc_wf a → alloc_wf (cleared a) ∧ matching (cleared a).
Proof.
  intros Hwf. destruct (iSLIP_Sparse_wf (al_inputs a) (al_outputs a) (_iSLIP_iter a))
    as [[] Hm]; [apply Hwf|apply Hwf|].
  split; [|exact Hm]. by split; try assumption; apply Hwf.
Qed.

Lemma cleared_no_request a i o : ¬ in_has (cleared a) i o.
Proof.
  intros (m & r & Hm & Hin). simpl in Hm. apply vlookup_elem_of, elem_of_replicate_inv in Hm.
  subst. by apply elem_of_nil in Hin.
Qed.

Definition in_row (a : iSLIP_Sparse) (i : Z) : req_map := vat [] (_in_req a) i.
Definition out_row (a : iSLIP_Sparse) (o : Z) : req_map := vat [] (_out_req a) o.

Lemma in_has_row a i o : in_has a i o ↔ ∃ r, (o, r) ∈ in_row a i.
Proof.
  unfold in_has, in_row, vat. destruct (_in_req a !z i) as [m|]; simpl.
  - split; [intros (m' & r & ? & ?); simplify_eq; eauto|intros [r ?]; eauto].
  - split; [intros (m' & r & ? & ?); done|intros [r Hin]; by apply elem_of_nil in Hin].
Qed.

Lemma out_has_row a i o : out_has a i o ↔ ∃ r, (i, r) ∈ out_row a o.
Proof.
  unfold out_has, out_row, vat. destruct (_out_req a !z o) as [m|]; simpl.
  - split; [intros (m' & r & ? & ?); simplify_eq; eauto|intros [r ?]; eauto].
  - split; [intros (m' & r & ? & ?); done|intros [r Hin]; by apply elem_of_nil in Hin].
Qed.

Lemma vat_vinsert {A} (d : A) l i j x :
  0 ≤ i < zlength l → vat d (vinsert i x l) j = if decide (i = j) then x else vat d l j.
Proof.
  intros Hi. unfold vat. case_decide; subst.
  - by rewrite vlookup_vinsert_eq.
  - by rewrite vlookup_vinsert_ne.
Qed.

(** Replacing one row and one column: what the operations on requests do. *)
Definition set_rows (a : iSLIP_Sparse) (i o : Z) (mi mo : req_map) : iSLIP_Sparse :=
  a.{_in_req ::= vinsert i mi}.{_out_req ::= vinsert o mo}.

Section set_rows.
Variables (a : iSLIP_Sparse) (i o : Z) (mi mo : req_map).
Hypothesis Hwf : alloc_wf a.
Hypothesis Hi : 0 ≤ i < al_inputs a.
Hypothesis Ho : 0 ≤ o < al_outputs a.
Let s := set_rows a i o mi mo.

Lemma set_rows_in j p :
  in_has s j p ↔ if decide (j = i) then ∃ r, (p, r) ∈ mi else in_has a j p.
Proof.
  rewrite in_has_row. unfold in_row, s. simpl.
  rewrite vat_vinsert by (rewrite (aw_in_req _ Hwf); lia).
  destruct (decide (i = j)), (decide (j = i)); subst; try done. by rewrite in_has_row.
Qed.

Lemma set_rows_out j p :
  out_has s j p ↔ if decide (p = o) then ∃ r, (j, r) ∈ mo else out_has a j p.
Proof.
  rewrite out_has_row. unfold out_row, s. simpl.
  rewrite vat_vinsert by (rewrite (aw_out_req _ Hwf); lia).
  destruct (decide (o = p)), (decide (p = o)); subst; try done. by rewrite out_has_row.
Qed.
End set_rows.

(** [AddRequest] in closed form *)
Definition added (i o lbl ipri opri : Z) (a : iSLIP_Sparse) : iSLIP_Sparse :=
  (set_rows a i o (om_set o (mksRequest o lbl ipri opri) (in_row a i))
                  (om_set i (mksRequest i lbl ipri opri) (out_row a o)))
    .{_dirty := true}.{_in_occ ::= λ x, {[i]} ∪ x}.{_out_occ ::= λ x, {[o]} ∪ x}.

Lemma in_row_nonempty a i : alloc_wf a → in_row a i ≠ [] → i ∈ _in_occ a.
Proof.
  intros Hwf Hne. apply (aw_in_occ _ Hwf). destruct (in_row a i) as [|[k r] m] eqn:Hr; [done|].
  exists k. apply in_has_row. exists r. rewrite Hr. left.
Qed.

Lemma out_row_nonempty a o : alloc_wf a → out_row a o ≠ [] → o ∈ _out_occ a.
Proof.
  intros Hwf Hne. apply (aw_out_occ _ Hwf). destruct (out_row a o) as [|[k r] m] eqn:Hr; [done|].
  exists k. apply out_has_row. exists r. rewrite Hr. left.
Qed.

(** a conditional update that does nothing when the condition fails *)
Lemma when_modify_run {S} (b : Prop) `{!Decision b} (f : S → S) s :
  (¬ b → f s = s) → when (bool_decide b) (modify f) s = Ok (tt, f s).
Proof.
  intros Hb. unfold when. case_bool_decide; [done|]. unfold mret, M_ret. by rewrite Hb.
Qed.

Lemma set_absorb (x : Z) (X : gset Z) : x ∈ X → {[x]} ∪ X = X.
Proof. set_solver. Qed.

Lemma AddRequest_run a i o lbl ipri opri :
  alloc_wf a → 0 ≤ i < al_inputs a → 0 ≤ o < al_outputs a →
  AddRequest i o lbl ipri opri a = Ok (tt, added i o lbl ipri opri a).
Proof.
  intros Hwf Hi Ho. destruct (in_req_at a Hwf i Hi) as [Hri _].
  destruct (out_req_at a Hwf o Ho) as [Hro _].
  unfold AddRequest, Allocator_AddRequest. unfold mbind, M_bind, modify at 1, get, lift. simpl.
  rewrite (vget_Some _ _ _ Hri).
  rewrite when_modify_run; cycle 1.
  { intros Hne. simpl. rewrite (set_absorb i); [done|]. by apply (in_row_nonempty a i). }
  simpl. rewrite (vget_Some _ _ _ Hro). rewrite when_modify_run; cycle 1.
  { intros Hne. simpl. rewrite (set_absorb o); [done|]. by apply (out_row_nonempty a o). }
  unfold zoom. simpl. rewrite (zoom_at_Some _ _ _ _ Hri). simpl.
  rewrite (zoom_at_Some _ _ _ _ Hro). simpl. done.
Qed.

(** Setting the request of the pair [(i, o)] to [b] in both directions, with
    the occupancy sets updated to match, keeps the allocator well formed. *)
Section set_request.
Variables (a : iSLIP_Sparse) (i o : Z) (mi mo : req_map) (X Y : gset Z) (d : bool) (b : Prop).
Hypothesis Hwf : alloc_wf a.
Hypothesis Hi : 0 ≤ i < al_inputs a.
Hypothesis Ho : 0 ≤ o < al_outputs a.
Hypothesis Hmi : req_map_wf (al_outputs a) mi.
Hypothesis Hmo : req_map_wf (al_inputs a) mo.
Hypothesis Hrow : ∀ p, (∃ r, (p, r) ∈ mi) ↔ if decide (p = o) then b else in_has a i p.
Hypothesis Hcol : ∀ j, (∃ r, (j, r) ∈ mo) ↔ if decide (j = i) then b else out_has a j o.
Hypothesis HX : (i ∈ X ↔ mi ≠ []) ∧ ∀ j, j ≠ i → j ∈ X ↔ j ∈ _in_occ a.
Hypothesis HY : (o ∈ Y ↔ mo ≠ []) ∧ ∀ p, p ≠ o → p ∈ Y ↔ p ∈ _out_occ a.
Hypothesis Hd : d = false → _dirty a = false ∧ ¬ b.

Definition set_request : iSLIP_Sparse :=
  (set_rows a i o mi mo).{_dirty := d}.{_in_occ := X}.{_out_occ := Y}.

Lemma set_request_in j p :
  in_has set_request j p ↔ if decide (j = i ∧ p = o) then b else in_has a j p.
Proof.
  transitivity (in_has (set_rows a i o mi mo) j p); [done|].
  rewrite set_rows_in by done. destruct (decide (j = i)) as [->|].
  - rewrite Hrow. destruct (decide (p = o)) as [->|]; [by rewrite decide_True|].
    by rewrite decide_False by tauto.
  - by rewrite decide_False by tauto.
Qed.

Lemma set_request_out j p :
  out_has set_request j p ↔ if decide (j = i ∧ p = o) then b else out_has a j p.
Proof.
  transitivity (out_has (set_rows a i o mi mo) j p); [done|].
  rewrite set_rows_out by done. destruct (decide (p = o)) as [->|].
  - rewrite Hcol. destruct (decide (j = i)) as [->|]; [by rewrite decide_True|].
    by rewrite decide_False by tauto.
  - by rewrite decide_False by tauto.
Qed.

Lemma ne_nil_elem (m : req_map) : m ≠ [] ↔ ∃ p r, (p, r) ∈ m.
Proof.
  split.
  - destruct m as [|[p r] m]; [done|]. intros _. exists p, r. left.
  - intros (p & r & Hin) ->. by apply elem_of_nil in Hin.
Qed.

Lemma set_request_wf : alloc_wf set_request.
Proof.
  split; try apply Hwf; simpl; try (rewrite zlength_vinsert; apply Hwf).
  - apply Forall_vinsert; [apply Hwf|done].
  - apply Forall_vinsert; [apply Hwf|done].
  - intros j p. rewrite set_request_in, set_request_out. case_decide; [done|]. apply Hwf.
  - intros j. destruct HX as [HXi HXj]. destruct (decide (j = i)) as [->|Hne].
    + rewrite HXi, ne_nil_elem. apply exist_proper. intros p.
      rewrite Hrow, set_request_in. destruct (decide (p = o)) as [->|].
      * by rewrite decide_True.
      * by rewrite decide_False by tauto.
    + rewrite HXj, (aw_in_occ _ Hwf) by done. apply exist_proper. intros p.
      rewrite set_request_in. by rewrite decide_False by tauto.
  - intros p. destruct HY as [HYo HYp]. destruct (decide (p = o)) as [->|Hne].
    + rewrite HYo, ne_nil_elem. apply exist_proper. intros j.
      rewrite Hcol, set_request_out. destruct (decide (j = i)) as [->|].
      * by rewrite decide_True.
      * by rewrite decide_False by tauto.
    + rewrite HYp, (aw_out_occ _ Hwf) by done. apply exist_proper. intros j.
      rewrite set_request_out. by rewrite decide_False by tauto.
  - intros [Hda Hb]%Hd. destruct (aw_dirty _ Hwf Hda) as (H1 & H2 & H3).
    split_and!; [done|done|]. intros j p. rewrite set_request_in. by case_decide.
Qed.
End set_request.

Lemma om_set_keys (k : Z) (r : sRequest) m p :
  om_wf m → (∃ r', (p, r') ∈ om_set k r m) ↔ p = k ∨ ∃ r', (p, r') ∈ m.
Proof.
  intros Hm. setoid_rewrite om_set_elem; [|done]. split.
  - intros (r' & [[-> _]|[_ ?]]); eauto.
  - destruct (decide (p = k)) as [->|]; [eauto|]. intros [->|[r' ?]]; [done|eauto].
Qed.

Lemma om_erase_keys (k : Z) (m : req_map) p :
  om_wf m → (∃ r', (p, r') ∈ om_erase k m) ↔ p ≠ k ∧ ∃ r', (p, r') ∈ m.
Proof. intros Hm. setoid_rewrite om_erase_elem; [|done]. naive_solver. Qed.

Section requests.
Variables (a : iSLIP_Sparse) (i o : Z).
Hypothesis Hwf : alloc_wf a.
Hypothesis Hi : 0 ≤ i < al_inputs a.
Hypothesis Ho : 0 ≤ o < al_outputs a.

Lemma in_row_wf : req_map_wf (al_outputs a) (in_row a i).
Proof. by apply (in_req_at a Hwf i Hi). Qed.
Lemma out_row_wf : req_map_wf (al_inputs a) (out_row a o).
Proof. by apply (out_req_at a Hwf o Ho). Qed.

Lemma added_wf lbl ipri opri : alloc_wf (added i o lbl ipri opri a).
Proof.
  pose proof in_row_wf. pose proof out_row_wf.
  apply (set_request_wf a i o _ _ ({[i]} ∪ _in_occ a) ({[o]} ∪ _out_occ a) true True Hwf Hi Ho).
  - by apply req_map_wf_set.
  - by apply req_map_wf_set.
  - intros p. rewrite om_set_keys by apply in_row_wf. case_decide; rewrite ?in_has_row; naive_solver.
  - intros j. rewrite om_set_keys by apply out_row_wf. case_decide; rewrite ?out_has_row; naive_solver.
  - split; [|set_solver]. split; [intros _; apply om_set_nonempty|set_solver].
  - split; [|set_solver]. split; [intros _; apply om_set_nonempty|set_solver].
  - done.
Qed.

Lemma added_in lbl ipri opri j p :
  in_has (added i o lbl ipri opri a) j p ↔ (j = i ∧ p = o) ∨ in_has a j p.
Proof.
  transitivity (in_has (set_rows a i o (om_set o (mksRequest o lbl ipri opri) (in_row a i))
                (om_set i (mksRequest i lbl ipri opri) (out_row a o))) j p); [done|].
  rewrite set_rows_in by done. case_decide as Hj; [subst|tauto].
  rewrite om_set_keys by apply in_row_wf. rewrite in_has_row. tauto.
Qed.
End requests.

(** [RemoveRequest] in closed form; it also forgets the matches of the pair *)
Definition removed (i o : Z) (a : iSLIP_Sparse) : iSLIP_Sparse :=
  let mi := om_erase o (in_row a i) in
  let mo := om_erase i (out_row a o) in
  (set_rows a i o mi mo)
    .{_in_occ ::= λ X, if decide (mi = []) then X ∖ {[i]} else X}
    .{_out_occ ::= λ Y, if decide (mo = []) then Y ∖ {[o]} else Y}
    .{_inmatch ::= vinsert i (-1)}.{_outmatch ::= vinsert o (-1)}.

Lemma when_bool_run {S} (b : Prop) `{!Decision b} (f : S → S) s :
  when (bool_decide b) (modify f) s = Ok (tt, if decide b then f s else s).
Proof. unfold when. case_bool_decide; case_decide; done. Qed.

Lemma unmatch_wf a i o :
  alloc_wf a → alloc_wf (a.{_inmatch ::= vinsert i (-1)}.{_outmatch ::= vinsert o (-1)}).
Proof.
  intros Hwf. pose proof (aw_inputs _ Hwf). pose proof (aw_outputs _ Hwf).
  split; try apply Hwf; simpl; try (rewrite zlength_vinsert; apply Hwf).
  - intros (H1 & H2 & H3)%(aw_dirty _ Hwf). split_and!; [by apply Forall_vinsert..|done].
  - apply Forall_vinsert; [apply Hwf|lia].
  - apply Forall_vinsert; [apply Hwf|lia].
Qed.

Section remove.
Variables (a : iSLIP_Sparse) (i o : Z).
Hypothesis Hwf : alloc_wf a.
Hypothesis Hi : 0 ≤ i < al_inputs a.
Hypothesis Ho : 0 ≤ o < al_outputs a.

Lemma RemoveRequest_run lbl : RemoveRequest i o lbl a = Ok (tt, removed i o a).
Proof.
  destruct (in_req_at a Hwf i Hi) as [Hri _]. destruct (out_req_at a Hwf o Ho) as [Hro _].
  pose proof Hi as Hi'. pose proof Ho as Ho'.
  rewrite <-(aw_in_req _ Hwf) in Hi'. rewrite <-(aw_out_req _ Hwf) in Ho'.
  destruct (vlookup_in_range (_inmatch a) i) as [x Hx]; [by rewrite (aw_inmatch _ Hwf)|].
  destruct (vlookup_in_range (_outmatch a) o) as [y Hy]; [by rewrite (aw_outmatch _ Hwf)|].
  unfold RemoveRequest, mbind, M_bind, get, lift.
  unfold zoom at 1. rewrite (zoom_at_Some _ _ _ _ Hri). simpl.
  rewrite (vget_Some (vinsert i _ _) i _ (vlookup_vinsert_eq _ _ _ Hi')).
  rewrite when_bool_run. unfold zoom at 1.
  match goal with |- context [_out_req (if ?c then ?s1 else ?s2)] =>
    replace (_out_req (if c then s1 else s2)) with (_out_req a) by (by case_decide) end.
  rewrite (zoom_at_Some _ _ _ _ Hro). simpl.
  rewrite (vget_Some (vinsert o _ _) o _ (vlookup_vinsert_eq _ _ _ Ho')).
  rewrite when_bool_run. unfold removed, zoom, in_row, out_row.
  repeat case_decide; simpl; rewrite (zoom_at_Some _ _ _ _ Hx); simpl;
    rewrite (zoom_at_Some _ _ _ _ Hy); done.
Qed.

Lemma removed_wf : alloc_wf (removed i o a).
Proof.
  pose proof (in_row_wf a i Hwf Hi) as Hmi. pose proof (out_row_wf a o Hwf Ho) as Hmo.
  apply unmatch_wf.
  apply (set_request_wf a i o _ _
    (if decide (om_erase o (in_row a i) = []) then _in_occ a ∖ {[i]} else _in_occ a)
    (if decide (om_erase i (out_row a o) = []) then _out_occ a ∖ {[o]} else _out_occ a)
    (_dirty a) False Hwf Hi Ho).
  - by apply req_map_wf_erase.
  - by apply req_map_wf_erase.
  - intros p. rewrite om_erase_keys by apply Hmi. case_decide; rewrite ?in_has_row; naive_solver.
  - intros j. rewrite om_erase_keys by apply Hmo. case_decide; rewrite ?out_has_row; naive_solver.
  - split; [|intros; case_decide; set_solver]. case_decide as He; [set_solver|].
    split; [done|]. intros _. apply in_row_nonempty; [done|]. intros Hnil. by rewrite Hnil in He.
  - split; [|intros; case_decide; set_solver]. case_decide as He; [set_solver|].
    split; [done|]. intros _. apply out_row_nonempty; [done|]. intros Hnil. by rewrite Hnil in He.
  - intros Hd. split; [done|tauto].
Qed.
End remove.

(** the dimensions of an allocator, which no operation changes *)
Definition dims (a : iSLIP_Sparse) : Z * Z * Z := (al_inputs a, al_outputs a, _iSLIP_iter a).

Lemma dims_cleared a : dims (cleared a) = dims a. Proof. done. Qed.
Lemma dims_added i o l p q a : dims (added i o l p q a) = dims a. Proof. done. Qed.
Lemma dims_removed i o a : dims (removed i o a) = dims a. Proof. done. Qed.
Lemma dims_allocated a s : allocated a s → dims s = dims a.
Proof. intros [_ _ (H1 & H2 & H3 & _) _ _]. unfold dims. congruence. Qed.
#[export] Hint Rewrite dims_cleared dims_added dims_removed : enoc.

(** ** A whole allocation round: clear, request, allocate *)

Definition request_all (reqs : list (Z * Z)) : M iSLIP_Sparse unit :=
  for_each reqs (λ io, AddRequest io.1 io.2 0 0 0).

Definition allocation_round (reqs : list (Z * Z)) : M iSLIP_Sparse unit :=
  SparseAllocator_Clear ;; request_all reqs ;; Allocate.

Definition pair_in_range (a : iSLIP_Sparse) (io : Z * Z) : Prop :=
  0 ≤ io.1 < al_inputs a ∧ 0 ≤ io.2 < al_outputs a.

Lemma pair_in_range_dims a b reqs :
  dims a = dims b → Forall (pair_in_range b) reqs → Forall (pair_in_range a) reqs.
Proof. unfold dims, pair_in_range. intros Hd. injection Hd as -> -> _. done. Qed.

Lemma request_all_run reqs a :
  alloc_wf a → matching a → Forall (pair_in_range a) reqs →
  ∃ s, request_all reqs a = Ok (tt, s) ∧ alloc_wf s ∧ matching s ∧ dims s = dims a ∧
    _inmatch s = _inmatch a ∧ _outmatch s = _outmatch a ∧
    ∀ i o, in_has s i o ↔ (i, o) ∈ reqs ∨ in_has a i o.
Proof.
  intros Hwf Hm Hreqs. revert a Hwf Hm Hreqs.
  induction reqs as [|[i o] reqs IH]; intros a Hwf Hm Hreqs.
  - exists a. split_and!; [done..|]. intros i o. rewrite elem_of_nil. tauto.
  - apply Forall_cons in Hreqs as [[Hi Ho] Hreqs]. simpl in Hi, Ho.
    destruct (IH (added i o 0 0 0 a)) as (s & Hrun & Hws & Hms & Hd & He1 & He2 & Hin).
    + by apply added_wf.
    + exact Hm.
    + exact Hreqs.
    + exists s. split_and!; [|done..|].
      * unfold request_all in *. simpl. unfold mbind, M_bind.
        by rewrite AddRequest_run by done.
      * intros i' o'. rewrite Hin, (added_in a i o Hwf Hi Ho), elem_of_cons. naive_solver.
Qed.

Lemma allocation_round_run reqs a :
  alloc_wf a → Forall (pair_in_range a) reqs →
  ∃ b s, Allocate b = Ok (tt, s) ∧ allocation_round reqs a = Ok (tt, s) ∧
    alloc_wf b ∧ matching b ∧ dims b = dims a ∧ allocated b s ∧
    (∀ i o, in_has b i o ↔ (i, o) ∈ reqs) ∧
    _inmatch b = replicate (Z.to_nat (al_inputs a)) (-1) ∧
    _outmatch b = replicate (Z.to_nat (al_outputs a)) (-1).
Proof.
  intros Hwf Hreqs. destruct (cleared_wf a Hwf) as [Hwc Hmc].
  destruct (request_all_run reqs (cleared a) Hwc Hmc Hreqs)
    as (b & Hrun & Hwb & Hmb & Hd & He1 & He2 & Hin).
  destruct (Allocate_run b Hwb Hmb) as (s & Hrun' & Hs).
  exists b, s. split_and!; try done.
  - unfold allocation_round, mbind, M_bind.
    by rewrite (SparseAllocator_Clear_run a Hwf), Hrun, Hrun'.
  - intros i o. rewrite Hin. split; [|by left]. intros [?|?]; [done|].
    by apply cleared_no_request in H.
Qed.

(** ** Properties *)

(** C30: A round of the iSLIP allocator (clear, any sequence of requests in
    range, allocate) runs without a fault from every well-formed state, and
    its result is a matching contained in the requests: an input and an output are
    assigned to each other or not at all, so no port is assigned twice, and only
    requested pairs are assigned. *)
Theorem islip_matching (inputs outputs iters : Z) (rounds : list (list (Z * Z))) (reqs : list (Z * Z)) :
  0 < inputs → 0 < outputs →
  let a0 := iSLIP_Sparse_iSLIP_Sparse inputs outputs iters in
  Forall (Forall (pair_in_range a0)) rounds → Forall (pair_in_range a0) reqs →
  ∃ s, (for_each rounds allocation_round ;; allocation_round reqs) a0 = Ok (tt, s) ∧
    ∀ i o, 0 ≤ i < inputs → 0 ≤ o < outputs →
      (OutputAssigned i s = Ok o ↔ InputAssigned o s = Ok i) ∧
      (OutputAssigned i s = Ok o → (i, o) ∈ reqs).
Proof.
  intros Hi Ho a0 Hrounds Hreqs.
  destruct (iSLIP_Sparse_wf inputs outputs iters Hi Ho) as [Hwf0 _]. fold a0 in Hwf0.
  assert (∃ a, for_each rounds allocation_round a0 = Ok (tt, a) ∧ alloc_wf a ∧ dims a = dims a0)
    as (a & Hrun & Hwf & Hdims).
  { destruct (triple_for_each_inv rounds allocation_round (λ a, alloc_wf a ∧ dims a = dims a0))
      with (s := a0) as ([] & a & ? & ? & ?); [|done|by exists a].
    intros reqs' Hin a [Hwf Hd]. rewrite Forall_forall in Hrounds.
    destruct (allocation_round_run reqs' a Hwf) as (b & s & _ & Hrun & _ & _ & Hdb & Hs & _).
    { eapply pair_in_range_dims; [done|]. by apply Hrounds. }
    exists tt, s. split_and!; [done|apply Hs|]. rewrite (dims_allocated _ _ Hs). congruence. }
  destruct (allocation_round_run reqs a Hwf) as (b & s & _ & Hrun' & _ & _ & Hdb & Hs & Hin & Hi0 & Ho0).
  { by eapply pair_in_range_dims. }
  exists s. split; [unfold mbind, M_bind; by rewrite Hrun|].
  intros i o Hir Hor.
  assert (∀ (l : list Z) k x, vget l k = Ok x ↔ l !z k = Some x) as Hget.
  { intros l k x. unfold vget. destruct (l !z k); simpl; naive_solver. }
  unfold OutputAssigned, InputAssigned. rewrite !Hget.
  destruct (al_matching _ _ Hs) as [Hm1 Hm2]. split.
  - split; [intros [?|?]%Hm1|intros [?|?]%Hm2]; (lia || done).
  - intros Hio. destruct (al_sound _ _ Hs _ _ Hio) as [?|[Hb|?]]; [lia| |by apply Hin].
    rewrite Hi0 in Hb. apply vlookup_elem_of, elem_of_replicate_inv in Hb. lia.
Qed.

Lemma islip_matching_witness :
  ∃ s, (for_each [[(0, 0); (1, 0)]] allocation_round ;; allocation_round [(0, 0); (1, 0); (1, 2)])
         (iSLIP_Sparse_iSLIP_Sparse 3 3 1) = Ok (tt, s) ∧
    OutputAssigned 1 s = Ok 0 ∧ (1, 0) ∈ [(0, 0); (1, 0); (1, 2)].
Proof.
  destruct (islip_matching 3 3 1 [[(0, 0); (1, 0)]] [(0, 0); (1, 0); (1, 2)]) as (s & Hrun & Hm);
    [lia|lia| |  |].
  - repeat constructor; simpl; lia.
  - repeat constructor; simpl; lia.
  - exists s. split; [exact Hrun|].
    assert (Ha : OutputAssigned 1 s = Ok 0).
    { revert Hrun. vm_compute. intros [= <-]. reflexivity. }
    split; [exact Ha|]. apply (Hm 1 0); [lia|lia|exact Ha].
Defined.

(** The allocator is never idle when there is work: with at
    least one iteration, a round with at least one request assigns at least
    one output. *)
Theorem islip_progress (inputs outputs iters : Z) (reqs : list (Z * Z)) :
  0 < inputs → 0 < outputs → 1 ≤ iters → reqs ≠ [] →
  let a0 := iSLIP_Sparse_iSLIP_Sparse inputs outputs iters in
  Forall (pair_in_range a0) reqs →
  ∃ s i o, allocation_round reqs a0 = Ok (tt, s) ∧ OutputAssigned i s = Ok o ∧ 0 ≤ o < outputs.
Proof.
  intros Hi Ho Hit Hne a0 Hreqs.
  destruct (iSLIP_Sparse_wf inputs outputs iters Hi Ho) as [Hwf0 _].
  destruct (allocation_round_run reqs a0 Hwf0 Hreqs)
    as (b & s & Hb & Hrun & Hwb & Hmb & Hd & Hs & Hin & Hi0 & Ho0).
  destruct reqs as [|[i o] reqs]; [done|]. inversion Hreqs as [|? ? [Hir Hor] _]; subst.
  assert (Hrep : ∀ (n k : Z), vat (-1) (replicate (Z.to_nat n) (-1)) k = -1).
  { intros n k. unfold vat. destruct (_ !z k) eqn:Hk; [|done].
    by apply vlookup_elem_of, elem_of_replicate_inv in Hk. }
  destruct (Allocate_progress b s i o) as (i' & o' & Hio & Hpos); try done.
  - unfold dims in Hd. simpl in Hd. congruence.
  - apply Hin. left.
  - by rewrite Hi0.
  - by rewrite Ho0.
  - exists s, i', o'. split; [done|split].
    + by apply vget_Some.
    + pose proof (Forall_vlookup _ _ _ _ (aw_in_range _ (al_wf _ _ Hs)) Hio) as Hr.
      simpl in Hr.
      destruct (al_requests _ _ Hs) as (_ & Hou & _). rewrite Hou in Hr.
      unfold dims in Hd. simpl in Hd. injection Hd as _ Hdo _. rewrite Hdo in Hr. lia.
Qed.

Lemma islip_progress_witness :
  ∃ s i o, allocation_round [(4, 2); (3, 2)] (iSLIP_Sparse_iSLIP_Sparse 5 5 1) = Ok (tt, s) ∧
    OutputAssigned i s = Ok o ∧ 0 ≤ o < 5.
Proof.
  apply (islip_progress 5 5 1 [(4, 2); (3, 2)]); [lia|lia|lia|done|]. repeat constructor; simpl; lia.
Defined.

(** The two-loop pointer search of the allocator (start at the first
    element not below the offset, wrap around once) finds exactly the first
    element, in cyclic order from the offset, that the test accepts, and
    terminates on every sorted non-empty request map. *)
Theorem rr_search_is_cyclic_first_fit (n : Z) (m : req_map) (offset : Z) (test : Z → bool) :
  req_map_wf n m → m ≠ [] →
  rr_search m offset (λ x, Ok (test x)) = Ok (rr_pick offset test m.*1).
Proof.
  intros Hm Hne. rewrite <-(req_map_wf_ports n m Hm).
  apply rr_search_spec; [done|by eapply req_map_wf_sorted|done].
Qed.

Lemma rr_search_is_cyclic_first_fit_witness :
  let m := om_set 4 (mksRequest 4 0 0 0) (om_set 1 (mksRequest 1 0 0 0) []) in
  rr_search m 3 (λ x, Ok (bool_decide (x < 4))) = Ok (Some 1).
Proof.
  intros m. rewrite (rr_search_is_cyclic_first_fit 5 m 3); [reflexivity| |done].
  apply req_map_wf_set; [|done|lia]. apply req_map_wf_set; [|done|lia]. apply req_map_wf_nil.
Defined.
