(* ===== verification/FlitCoding.v ===== *)
(** * Bits of a flit and link transitions ([router.cpp], 538-756)

    The 34 wires of a link as the program computes them for a flit, and the
    number of transitions it charges to the link for each signaling and
    encoding.  [bool b[n]] is a list of [n] booleans. *)

From S2P Require Import Prelude Double NoCMain.

(** [(c & (1<<i)) != 0] *)
Definition bit_of (c i : Z) : bool := bool_decide (Z.land c (Z.shiftl 1 i) ≠ 0).

(** the argument is converted to [uint8_t] and to [uint32_t] *)
Definition From8bitINT (c : Z) : list bool := bit_of (to_uint 8 c) <$> seqZ 0 8.
Definition From32bitINT (c : Z) : list bool := bit_of (to_uint 32 c) <$> seqZ 0 32.

Definition Get_Bits_of_Flits (flit : option Flit) : list bool :=
  match flit with
  | None => replicate 34 false
  | Some f =>
      match flit_type f with
      | FLIT_TYPE_HEAD =>
          From8bitINT (src_id f) ++ From8bitINT (dst_id f) ++ replicate 16 false ++ [true; false]
      | FLIT_TYPE_BODY => From32bitINT (payload f) ++ [false; false]
      | FLIT_TYPE_TAIL => replicate 32 false ++ [false; true]
      end
  end.

(** the number of indices where the two arrays differ *)
Definition differences (a b : list bool) : Z := sumZ (zip_with (λ x y, Z.b2z (xorb x y)) a b).

(** [~b] of a [bool] promotes to [int]: -1 or -2, both true *)
Definition bitwise_not_bool (b : bool) : bool := bool_decide (Z.lnot (Z.b2z b) ≠ 0).

(** the flips added by [Calc_Flips]; [None] when no case applies *)
Definition flips_of (signaling encoding : Z) (cur last : list bool) : option Z :=
  if decide (signaling = 0) then
    if decide (encoding = 0) then Some (differences cur last)
    else if decide (encoding = 1) then
      let Not_curr_flit := bitwise_not_bool <$> cur in
      let n_flip := differences cur last in
      let not_n_flip := differences Not_curr_flit last in
      Some (if decide (not_n_flip < n_flip) then not_n_flip else n_flip)
    else None
  else if decide (signaling = 1) then
    if decide (encoding = 0) then Some (sumZ (Z.b2z <$> cur))
    else if decide (encoding = 1) then
      let n_flip := sumZ ((λ b : bool, if b then 1 else 0) <$> cur) in
      let not_n_flip := sumZ ((λ b : bool, if b then 0 else 1) <$> cur) in
      Some (if decide (not_n_flip < n_flip) then not_n_flip else n_flip)
    else None
  else None.

Definition add_flips (n : Z) (f : Flit) : Flit :=
  f.{flipNumber ::= λ k, to_uint 64 (k + n)}.

(** the flit behind a pointer that may be [NULL] *)
Definition deref_opt (p : option flit_ptr) : M Flits (option Flit) :=
  match p with None => mret None | Some p => f ← deref p; mret (Some f) end.

Definition Calc_Flips (signaling encoding : Z) (cur : flit_ptr) (last : option flit_ptr) :
    M Flits unit :=
  c ← deref cur;
  l ← deref_opt last;
  match flips_of signaling encoding (Get_Bits_of_Flits (Some c)) (Get_Bits_of_Flits l) with
  | None => mret tt
  | Some n =>
      update cur (λ f, Update_link_dyn_energy (d_of_Z n * BIT_TRANSITION_DYNAMIC_ENERGY)%D
                         (add_flips n f))
  end.

(** [Bus_Invert_coding], which nothing calls *)
Definition Bus_Invert_coding (flit : flit_ptr) (cur_flit last_flit : list bool) : M Flits unit :=
  let Not_curr_flit := bitwise_not_bool <$> cur_flit in
  let n_flip := differences cur_flit last_flit in
  let not_n_flip := differences Not_curr_flit last_flit in
  update flit (add_flips (if decide (not_n_flip < n_flip) then not_n_flip else n_flip)).

(** ** Lemmas *)

(** the number of wires at one *)
Definition weight (l : list bool) : Z := sumZ (Z.b2z <$> l).

Lemma bit_of_testbit c i : 0 ≤ i → bit_of c i = Z.testbit c i.
Proof.
  intros Hi. unfold bit_of. rewrite Z.shiftl_1_l.
  assert (Z.land c (2 ^ i) = if Z.testbit c i then 2 ^ i else 0) as ->.
  { apply Z.bits_inj'. intros n Hn. rewrite Z.land_spec, Z.pow2_bits_eqb by done.
    destruct (Z.eqb_spec i n) as [<-|Hne].
    - destruct (Z.testbit c i); [by rewrite Z.pow2_bits_true|by rewrite Z.bits_0].
    - rewrite andb_false_r. destruct (Z.testbit c i); [by rewrite Z.pow2_bits_false|by rewrite Z.bits_0]. }
  destruct (Z.testbit c i); [|done]. apply bool_decide_eq_true_2. lia.
Qed.

(** the integer with the given bits, least significant first *)
Definition of_bits (l : list bool) : Z := foldr (λ b n, Z.b2z b + 2 * n) 0 l.

Lemma of_bits_testbit c k (n : nat) :
  0 ≤ k → of_bits (Z.testbit c <$> seqZ k (Z.of_nat n)) = Z.shiftr c k `mod` 2 ^ Z.of_nat n.
Proof.
  intros Hk. revert k Hk. induction n as [|n IH]; intros k Hk.
  - by rewrite Z.mod_1_r.
  - rewrite seqZ_cons by lia. csimpl.
    replace (Z.pred (Z.of_nat (S n))) with (Z.of_nat n) by lia.
    change (foldr _ 0 ?l) with (of_bits l). rewrite IH by lia.
    rewrite Nat2Z.inj_succ, Z.pow_succ_r by lia.
    rewrite <-(Z.add_0_l k) at 1. rewrite <-Z.shiftr_spec, Z.bit0_mod by lia.
    replace (Z.succ k) with (k + 1) by lia.
    rewrite <-Z.shiftr_shiftr, (Z.shiftr_div_pow2 _ 1) by lia.
    generalize (Z.shiftr c k). intros x. change (2 ^ 1) with 2.
    rewrite Z.rem_mul_r by lia. lia.
Qed.

Lemma bits_seqZ c n : 0 ≤ n → of_bits (bit_of c <$> seqZ 0 n) = c `mod` 2 ^ n.
Proof.
  intros Hn. rewrite <-(Z2Nat.id n) at 1 by done.
  rewrite (list_fmap_ext _ (Z.testbit c)).
  - rewrite of_bits_testbit by lia. by rewrite Z.shiftr_0_r, Z2Nat.id.
  - intros i x Hx. apply lookup_seqZ in Hx as [-> _]. apply bit_of_testbit. lia.
Qed.

Lemma length_From8 c : length (From8bitINT c) = 8%nat.
Proof. unfold From8bitINT. by rewrite length_fmap, length_seqZ. Qed.
Lemma length_From32 c : length (From32bitINT c) = 32%nat.
Proof. unfold From32bitINT. by rewrite length_fmap, length_seqZ. Qed.
Lemma of_bits_From8 c : of_bits (From8bitINT c) = to_uint 8 c.
Proof. unfold From8bitINT. rewrite bits_seqZ by lia. apply Z.mod_mod. lia. Qed.
Lemma of_bits_From32 c : of_bits (From32bitINT c) = to_uint 32 c.
Proof. unfold From32bitINT. rewrite bits_seqZ by lia. apply Z.mod_mod. lia. Qed.

Lemma length_Get_Bits f : length (Get_Bits_of_Flits f) = 34%nat.
Proof.
  destruct f as [f|]; [|done]. unfold Get_Bits_of_Flits.
  destruct (flit_type f); by rewrite ?length_app, ?length_From8, ?length_From32.
Qed.

Lemma weight_app a b : weight (a ++ b) = weight a + weight b.
Proof. unfold weight. by rewrite fmap_app, sumZ_app. Qed.

Lemma weight_bounds l : 0 ≤ weight l ≤ zlength l.
Proof.
  unfold weight, zlength. induction l as [|b l IH]; csimpl; [lia|]. destruct b; simpl; lia.
Qed.

Lemma count_ones l : sumZ ((λ b : bool, if b then 1 else 0) <$> l) = weight l.
Proof. unfold weight. induction l as [|[] l IH]; csimpl in *; lia. Qed.

Lemma count_zeros l : sumZ ((λ b : bool, if b then 0 else 1) <$> l) = zlength l - weight l.
Proof.
  unfold weight, zlength. induction l as [|b l IH]; csimpl; [done|]. destruct b; simpl; lia.
Qed.

(** the complement of a [bool] is always true, so the inverted flit is all ones *)
Lemma differences_not cur last :
  length cur = length last →
  differences (bitwise_not_bool <$> cur) last = zlength last - weight last.
Proof.
  unfold differences, weight, zlength. revert last.
  induction cur as [|b cur IH]; intros [|c last] Hlen; simplify_eq/=; [done|].
  rewrite IH by done. destruct b, c; simpl; lia.
Qed.

Lemma differences_bounds a b : 0 ≤ differences a b ≤ zlength a.
Proof.
  unfold differences, zlength. revert b. induction a as [|x a IH]; intros [|y b]; simpl; try lia.
  specialize (IH b). destruct (xorb x y); simpl; lia.
Qed.

Lemma differences_cons x a y b :
  differences (x :: a) (y :: b) = Z.b2z (xorb x y) + differences a b.
Proof. done. Qed.

Lemma differences_zero a b : length a = length b → a = b ↔ differences a b = 0.
Proof.
  revert b. induction a as [|x a IH]; intros [|y b] Hlen; simplify_eq/=; [done|].
  pose proof (differences_bounds a b). specialize (IH b Hlen). rewrite differences_cons.
  destruct (decide (x = y)) as [->|Hne].
  - rewrite xorb_nilpotent. simpl. rewrite <-IH. naive_solver.
  - split; [intros [= ? ?]; done|]. destruct x, y; simpl in *; (done || lia).
Qed.

(** The effect of [Calc_Flips] on the heap. *)
Lemma deref_opt_run h p : 
  match p with None => True | Some p => is_Some (h !! p) end →
  deref_opt p h = Ok (p ≫= (h !!.), h).
Proof.
  destruct p as [p|]; [|done]. intros [f Hf]. unfold deref_opt, mbind, M_bind, deref. simpl.
  by rewrite Hf.
Qed.

Definition charged (n : Z) (f : Flit) : Flit :=
  Update_link_dyn_energy (d_of_Z n * BIT_TRANSITION_DYNAMIC_ENERGY)%D (add_flips n f).

Lemma Calc_Flips_run h signaling encoding cur last c :
  h !! cur = Some c → match last with None => True | Some p => is_Some (h !! p) end →
  Calc_Flips signaling encoding cur last h =
    Ok (tt, match flips_of signaling encoding (Get_Bits_of_Flits (Some c))
                    (Get_Bits_of_Flits (last ≫= (h !!.))) with
            | None => h
            | Some n => <[cur := charged n c]> h
            end).
Proof.
  intros Hc Hl. unfold Calc_Flips. unfold mbind, M_bind. unfold deref at 1. rewrite Hc.
  rewrite deref_opt_run by done. destruct (flips_of _ _ _ _); [|done].
  unfold update. by rewrite Hc.
Qed.

(** ** Properties *)

(** The wire encoding of a flit is lossless: the low 32 wires of a
    body flit are its payload, and the two bytes of a head flit are the
    source and the destination modulo 256, so a head flit between nodes of
    the network can be decoded; the last two wires tell the three types
    apart. *)
Theorem flit_bits_roundtrip (f : Flit) :
  let bits := Get_Bits_of_Flits (Some f) in
  length bits = 34%nat ∧
  match flit_type f with
  | FLIT_TYPE_HEAD =>
      of_bits (take 8 bits) = to_uint 8 (src_id f) ∧
      of_bits (take 8 (drop 8 bits)) = to_uint 8 (dst_id f) ∧ drop 32 bits = [true; false]
  | FLIT_TYPE_BODY => of_bits (take 32 bits) = to_uint 32 (payload f) ∧ drop 32 bits = [false; false]
  | FLIT_TYPE_TAIL => of_bits (take 32 bits) = 0 ∧ drop 32 bits = [false; true]
  end.
Proof.
  intros bits. subst bits. split; [apply length_Get_Bits|].
  unfold Get_Bits_of_Flits. destruct (flit_type f); [| |done].
  - split_and!.
    + rewrite take_app_length' by (by rewrite length_From8). apply of_bits_From8.
    + rewrite drop_app_length' by (by rewrite length_From8).
      rewrite take_app_length' by (by rewrite length_From8). apply of_bits_From8.
    + rewrite !app_assoc. apply drop_app_length'. by rewrite !length_app, !length_From8.
  - rewrite take_app_length' by (by rewrite length_From32).
    rewrite drop_app_length' by (by rewrite length_From32).
    split; [apply of_bits_From32|done].
Qed.

(** a flit with the given type and payload, for the witnesses *)
Definition coding_flit (ty : FlitType) (data : Z) : Flit :=
  mkFlit 3 9 ty 0 data 0 0 false 0 0 0 0 0 d_zero d_zero d_zero d_zero d_zero 8.

(** With transition signaling and bus-invert coding, the setting of
    [_SendFlits], [Calc_Flips] charges a flit [min(w, 34 - w)] transitions,
    where [w] is the number of wires at one: at most 17 per hop whatever the
    flit and the flit before it, and it changes nothing but the counter
    and the link energy of that flit. *)
Theorem transition_bus_invert_flips (h : list Flit) (cur : flit_ptr) (last : option flit_ptr) (c : Flit) :
  h !! cur = Some c → match last with None => True | Some p => is_Some (h !! p) end →
  let w := weight (Get_Bits_of_Flits (Some c)) in
  let n := Z.min w (34 - w) in
  Calc_Flips SIGNALING_TRANSITION ENCODING_BUS_INVERT cur last h =
    Ok (tt, <[cur := Update_link_dyn_energy (d_of_Z n * BIT_TRANSITION_DYNAMIC_ENERGY)%D
                       c.{flipNumber := to_uint 64 (flipNumber c + n)}]> h) ∧
  0 ≤ n ≤ 17.
Proof.
  intros Hc Hl w n. pose proof (weight_bounds (Get_Bits_of_Flits (Some c))) as Hw.
  assert (zlength (Get_Bits_of_Flits (Some c)) = 34) as Hlen
    by (unfold zlength; by rewrite length_Get_Bits).
  rewrite Hlen in Hw. fold w in Hw. split; [|lia].
  rewrite (Calc_Flips_run h _ _ cur last c Hc Hl). unfold flips_of. cbn -[Get_Bits_of_Flits sumZ].
  rewrite count_ones, count_zeros, Hlen. fold w.
  replace (if decide (34 - w < w) then 34 - w else w) with n by (case_decide; lia). done.
Qed.

Lemma transition_bus_invert_flips_witness :
  let c := coding_flit FLIT_TYPE_BODY (2 ^ 32 - 1) in
  Calc_Flips SIGNALING_TRANSITION ENCODING_BUS_INVERT 0%nat None [c] =
    Ok (tt, [Update_link_dyn_energy (d_of_Z 2 * BIT_TRANSITION_DYNAMIC_ENERGY)%D
               c.{flipNumber := 2}]).
Proof.
  intros c. destruct (transition_bus_invert_flips [c] 0%nat None c eq_refl I) as [H _].
  rewrite H. reflexivity.
Defined.

(** With level signaling and bus-invert coding the program does
    not invert the flit: [~] of a [bool] is true for both values, so the
    alternative it compares with is the all-ones word, and the flips it charges are
    [min(d, 34 - weight(last))], where [d] is the distance to the last flit.
    The bound of a bus-invert code (half of the 34 wires) fails:
    an all-ones payload after an idle link is charged 32 flips. *)
Theorem level_bus_invert_not_inverted :
  (∀ cur last : option Flit,
     let d := differences (Get_Bits_of_Flits cur) (Get_Bits_of_Flits last) in
     flips_of SIGNALING_LEVEL ENCODING_BUS_INVERT (Get_Bits_of_Flits cur) (Get_Bits_of_Flits last) =
       Some (Z.min d (34 - weight (Get_Bits_of_Flits last)))) ∧
  flips_of SIGNALING_LEVEL ENCODING_BUS_INVERT
    (Get_Bits_of_Flits (Some (coding_flit FLIT_TYPE_BODY (2 ^ 32 - 1)))) (Get_Bits_of_Flits None) =
    Some 32.
Proof.
  split; [|reflexivity]. intros cur last d.
  unfold flips_of. cbn -[Get_Bits_of_Flits differences].
  rewrite differences_not by (by rewrite !length_Get_Bits). fold d.
  unfold zlength. rewrite length_Get_Bits. f_equal. case_decide; lia.
Qed.

(** With level signaling and binary encoding the flips of a
    flit are the Hamming distance to the flit sent before it on the link,
    zero when the flit repeats, and at most 34. *)
Theorem level_binary_is_hamming (cur last : option Flit) :
  flips_of SIGNALING_LEVEL ENCODING_BINARY (Get_Bits_of_Flits cur) (Get_Bits_of_Flits last) =
    Some (differences (Get_Bits_of_Flits cur) (Get_Bits_of_Flits last)) ∧
  0 ≤ differences (Get_Bits_of_Flits cur) (Get_Bits_of_Flits last) ≤ 34 ∧
  (Get_Bits_of_Flits cur = Get_Bits_of_Flits last ↔
     differences (Get_Bits_of_Flits cur) (Get_Bits_of_Flits last) = 0).
Proof.
  split; [done|]. pose proof (differences_bounds (Get_Bits_of_Flits cur) (Get_Bits_of_Flits last)) as Hb.
  unfold zlength in Hb. rewrite length_Get_Bits in Hb. split; [lia|].
  apply differences_zero. by rewrite !length_Get_Bits.
Qed.
