(* ===== verification/Router.v ===== *)
(** * The router ([router.h], [router.cpp])

    The state of an [ENoCRouter] and its methods.  A router reads and writes
    the channels it is wired to and, through [GetSink] of an output channel, the
    input buffers of its neighbours; its methods therefore run in a [World]
    that holds the heap of flits, all channels and all routers, with pointers
    as indices, and take the index of the object as [self]. *)

From S2P Require Import Prelude Double NoCMain Config Element Stats Channel.
From S2P Require Import VirtualChannel Allocator FlitCoding.

(** [pair<int, pair<pair<int, int>, int> >]: the output VC found for the
    entry (or -1), the input port, the VC, and a field that stays -1 *)
Record vc_entry := mkentry { e_first : Z; e_input : Z; e_vc : Z; e_last : Z }.
#[export] Instance vc_entry_settable : Settable vc_entry := λ r,
  mkentry (e_first r) (e_input r) (e_vc r) (e_last r).

Record ENoCRouter := mkENoCRouter {
  _id : Z;
  _vcs : Z;
  _inputs : Z;
  _outputs : Z;
  _active : bool;
  _input_channels : list Z;
  _output_channels : list Z;
  _buf : list Buffer;
  _in_queue_flits : list (Z * flit_ptr);
  _output_buffer : list (list flit_ptr);
  _output_channels_last_flit : list (option flit_ptr);
  _vc_allocator : iSLIP_Sparse;
  _sw_allocator : iSLIP_Sparse;
  _vc_alloc_vcs : list vc_entry;
  _sw_alloc_vcs : list vc_entry;
  _vc_alloc_vcs_tmp : list vc_entry;
  _sw_alloc_vcs_tmp : list vc_entry;
  stats : StatsNoC;
  _swa : Element;
  _vca : Element;
  _inb : InputBuffer;
  _xbar : Element;
}.
#[export] Instance ENoCRouter_settable : Settable ENoCRouter := λ r,
  mkENoCRouter (_id r) (_vcs r) (_inputs r) (_outputs r) (_active r) (_input_channels r)
    (_output_channels r) (_buf r) (_in_queue_flits r) (_output_buffer r)
    (_output_channels_last_flit r) (_vc_allocator r) (_sw_allocator r) (_vc_alloc_vcs r)
    (_sw_alloc_vcs r) (_vc_alloc_vcs_tmp r) (_sw_alloc_vcs_tmp r) (stats r) (_swa r) (_vca r)
    (_inb r) (_xbar r).

(** Everything a method of a router can reach. *)
Record World := mkWorld {
  flits : list Flit;
  channels : list FlitChannel;
  routers : list ENoCRouter;
}.
#[export] Instance World_settable : Settable World := λ w,
  mkWorld (flits w) (channels w) (routers w).

Definition on_flits {A} : M (list Flit) A → M World A := zoom flits (λ l w, w.{flits := l}).
Definition on_channel {A} (c : Z) (m : M FlitChannel A) : M World A :=
  zoom channels (λ l w, w.{channels := l}) (zoom_at c m).
Definition on_router {A} (n : Z) (m : M ENoCRouter A) : M World A :=
  zoom routers (λ l w, w.{routers := l}) (zoom_at n m).

(** members of a router *)
Definition on_buf {A} (input : Z) (m : M Buffer A) : M ENoCRouter A :=
  zoom _buf (λ l r, r.{_buf := l}) (zoom_at input m).
Definition on_vc_allocator {A} : M iSLIP_Sparse A → M ENoCRouter A :=
  zoom _vc_allocator (λ a r, r.{_vc_allocator := a}).
Definition on_sw_allocator {A} : M iSLIP_Sparse A → M ENoCRouter A :=
  zoom _sw_allocator (λ a r, r.{_sw_allocator := a}).
Definition on_output_buffer {A} (output : Z) (m : M (list flit_ptr) A) : M ENoCRouter A :=
  zoom _output_buffer (λ l r, r.{_output_buffer := l}) (zoom_at output m).
Definition meter (g : Energy → Energy) : M ENoCRouter unit :=
  modify (λ r, r.{stats ::= λ s, s.{energy_router ::= g} }).
(** a query of [_buf[input]] *)
Definition ask_buf {A} (input : Z) (q : Buffer → res A) : M ENoCRouter A :=
  b ← gets _buf; lift (b ← vget b input; q b).

(** ** Construction and wiring *)

(** [raw] is the storage of the members the constructor leaves unset, and
    [raw_active] that of [_active]. *)
Definition ENoCRouter_ENoCRouter (raw : Element) (raw_active : bool) (config : Configuration)
    (id inputs outputs : Z) : res ENoCRouter :=
  let vcs := DEFAULT_NUM_VCS in
  let iters := 1 in
  let stats := StatsNoC_StatsNoC raw in
  e ← Energy_Initialize raw config (energy_router stats);
  swa ← SWAllocator_Initialize raw config raw;
  vca ← VCAllocator_Initialize raw config raw;
  Ok (mkENoCRouter id vcs inputs outputs raw_active [] []
        (replicate (Z.to_nat inputs) Buffer_Buffer) []
        (replicate (Z.to_nat outputs) []) (replicate (Z.to_nat outputs) None)
        (iSLIP_Sparse_iSLIP_Sparse (vcs * inputs) (vcs * outputs) iters)
        (iSLIP_Sparse_iSLIP_Sparse inputs outputs iters) [] [] [] []
        (stats.{energy_router := e}) swa vca (InputBuffer_InputBuffer raw) raw).

(** [NewRouter] returns the new object *)
Definition NewRouter := ENoCRouter_ENoCRouter.

Definition AddInputChannel (self channel : Z) : M World unit :=
  on_router self (modify (λ r, r.{_input_channels ::= λ l, l ++ [channel] })) ;;
  n ← on_router self (gets (λ r, zlength (_input_channels r)));
  on_channel channel (SetSink (Some self) (n - 1)).

Definition AddOutputChannel (self channel : Z) : M World unit :=
  on_router self (modify (λ r, r.{_output_channels ::= λ l, l ++ [channel] })) ;;
  n ← on_router self (gets (λ r, zlength (_output_channels r)));
  on_channel channel (SetSource (Some self) (n - 1)).

Definition GetID (r : ENoCRouter) : Z := _id r.

(** ** Receiving *)

(** the body of the loop over the inputs; [activity] is the local variable *)
Definition receive_input (self input : Z) (activity : bool) : M World bool :=
  c ← on_router self (cs ← gets _input_channels; lift (vget cs input));
  f ← on_channel c FlitChannel_Receive;
  activity ← match f with
             | None => mret activity
             | Some f => on_router self (modify (λ r, r.{_in_queue_flits ::= om_insert input f})) ;;
                         mret true
             end;
  on_router self (meter InputBuffer_static_energy) ;;
  on_router self (meter VCAlocator_static_energy) ;;
  on_router self (meter SWAlocator_static_energy) ;;
  on_router self (meter CrossBar_static_energy) ;;
  mret activity.

Definition _ReceiveFlits (self : Z) : M World bool :=
  inputs ← on_router self (gets _inputs);
  fold_M (receive_input self) (seqZ 0 inputs) false.

Definition Router_ReadInputs (self global_clk : Z) : M World unit :=
  have_flits ← _ReceiveFlits self;
  on_router self (modify (λ r, r.{_active ::= λ a, a || have_flits})).

(** the part of the loop of [_InputQueuing] for a flit that stays here *)
Definition queue_flit (self input vc : Z) (f : flit_ptr) : M World unit :=
  on_router self (on_buf input (Buffer_AddFlit_queue vc f)) ;;
  on_flits (Buffer_AddFlit_flit vc f) ;;
  on_router self (meter InputBuffer_dynamic_energy_per_vc_access) ;;
  e ← on_router self (gets (λ r, dynamic_energy_per_vc (_inb r)));
  on_flits (update f (Update_buff_dyn_energy e)) ;;
  fl ← on_flits (deref f);
  when (bool_decide (flit_type fl = FLIT_TYPE_HEAD))
    (on_router self (modify (λ r, r.{_vc_alloc_vcs ::= λ l, l ++ [mkentry (-1) input vc (-1)] })) ;;
     on_router self (on_buf input (Buffer_SetState vc vc_alloc))) ;;
  on_router self (modify (λ r, r.{_sw_alloc_vcs ::= λ l, l ++ [mkentry (-1) input vc (-1)] })).

Definition queue_input (self global_clk : Z) (iter : Z * flit_ptr) : M World unit :=
  let '(input, f) := iter in
  r ← on_router self get;
  check (bool_decide (0 ≤ input < _inputs r)) ;;
  fl ← on_flits (deref f);
  let vc := f_vc fl in
  check (bool_decide (0 ≤ vc < _vcs r)) ;;
  v ← on_router self (ask_buf input (of_vc vc id));
  on_flits (VC_Route (_id r) f input) ;;
  fl ← on_flits (deref f);
  if decide (output_port fl = 4) then
    on_router self (on_output_buffer (output_port fl) (modify (λ q, q ++ [f]))) ;;
    on_router self (zoom stats (λ s r, r.{stats := s}) (receivedFlit global_clk fl))
  else queue_flit self input vc f.

Definition _InputQueuing (self global_clk : Z) : M World unit :=
  q ← on_router self (gets _in_queue_flits);
  for_each q (queue_input self global_clk) ;;
  on_router self (modify (λ r, r.{_in_queue_flits := [] })).

(** ** The neighbour behind an output port *)

(** the input port of the neighbour that the output port leads to *)
Definition opposite_port (out_port : Z) : Z :=
  if decide (out_port = 0) then 1
  else if decide (out_port = 1) then 0
  else if decide (out_port = 2) then 3
  else 2.

(** [_output_channels[out_port]->GetSink()] *)
Definition neighbour (self out_port : Z) : M World (option Z) :=
  c ← on_router self (cs ← gets _output_channels; lift (vget cs out_port));
  on_channel c (gets GetSink).

(** the loop of [FindIdleVC] over the VC numbers *)
Fixpoint find_idle (r in_port dst_id : Z) (vc_numbers : list Z) : M World Z :=
  match vc_numbers with
  | [] => mret (-1)
  | vc_number :: rest =>
      state ← on_router r (ask_buf in_port (Buffer_GetState vc_number));
      if decide (state = idle) then
        id ← on_router r (gets GetID);
        when (bool_decide (id ≠ dst_id))
          (on_router r (on_buf in_port (Buffer_SetState vc_number routing))) ;;
        mret vc_number
      else find_idle r in_port dst_id rest
  end.

Definition FindIdleVC (self out_port dst_id : Z) : M World Z :=
  r ← neighbour self out_port;
  vcs ← on_router self (gets _vcs);
  r ← nonnull r;
  find_idle r (opposite_port out_port) dst_id (seqZ 0 vcs).

Definition SetIdleVC (self out_port vc_number : Z) : M World unit :=
  r ← neighbour self out_port;
  r ← nonnull r;
  on_router r (on_buf (opposite_port out_port) (Buffer_SetState vc_number idle)).

Definition FindFreeSpace (self out_port vc_number : Z) : M World bool :=
  r ← neighbour self out_port;
  r ← nonnull r;
  size ← on_router r (ask_buf (opposite_port out_port) (Buffer_GetOccupancy vc_number));
  mret (bool_decide (size < DEFAULT_VCS_SIZE)).

(** ** Virtual-channel allocation *)

(** the first loop of [_VCAllocEvaluate]: request an idle VC of the neighbour *)
Definition vc_request (self size_vc_alloc : Z) (iter : vc_entry) : M World vc_entry :=
  let input := e_input iter in
  let vc := e_vc iter in
  f ← on_router self (ask_buf input (Buffer_FrontFlit vc));
  f ← nonnull f;
  fl ← on_flits (deref f);
  let out_port := output_port fl in
  out_vc ← FindIdleVC self out_port (dst_id fl);
  vcs ← on_router self (gets _vcs);
  when (bool_decide (out_vc ≠ -1))
    (on_router self (on_vc_allocator
       (AddRequest (input * vcs + vc) (out_port * vcs + out_vc) 0 0 0)) ;;
     e ← on_router self (gets (λ r, dynamic_energy (_vca r)));
     on_flits (update f (Update_VCA_dyn_energy (e / d_of_Z size_vc_alloc)%D))) ;;
  mret iter.{e_first := out_vc}.

(** the second loop: take the result of the allocator for one entry *)
Definition vc_grant (self : Z) (item : vc_entry) : M World unit :=
  let input := e_input item in
  let vc := e_vc item in
  f ← on_router self (ask_buf input (Buffer_FrontFlit vc));
  f ← nonnull f;
  fl ← on_flits (deref f);
  let out_port := output_port fl in
  vcs ← on_router self (gets _vcs);
  output_and_vc ← on_router self (a ← gets _vc_allocator; lift (OutputAssigned (input * vcs + vc) a));
  state ← on_router self (ask_buf input (Buffer_GetState vc));
  when (bool_decide (state = vc_alloc))
    (if decide (output_and_vc >= 0) then
       let match_output := Z.quot output_and_vc vcs in
       let match_vc := Z.rem output_and_vc vcs in
       on_router self (on_buf input (Buffer_SetState vc active)) ;;
       on_router self (on_buf input (Buffer_SetOutput vc match_output match_vc)) ;;
       check (bool_decide (match_output = output_port fl))
     else
       when (bool_decide (e_first item ≠ -1)) (SetIdleVC self out_port (e_first item)) ;;
       on_router self (modify (λ r, r.{_vc_alloc_vcs_tmp ::= λ l, l ++ [mkentry (-1) input vc (-1)] })) ;;
       on_router self (on_buf input (Buffer_SetState vc vc_alloc))).

(** [while(!q.empty()) { item = q.front(); q.pop_front(); ... }]: nothing in
    the loop bodies appends to the deque, so the loop visits its elements in
    order and leaves it empty.  (The source reads [item] through a reference
    after [pop_front]; the model takes the value popped.) *)
Definition _VCAllocEvaluate (self : Z) : M World unit :=
  q ← on_router self (gets _vc_alloc_vcs);
  q ← map_M (vc_request self (zlength q)) q;
  on_router self (modify (λ r, r.{_vc_alloc_vcs := q})) ;;
  on_router self (on_vc_allocator Allocate) ;;
  on_router self (modify (λ r, r.{_vc_alloc_vcs := [] })) ;;
  for_each q (vc_grant self) ;;
  on_router self (modify (λ r,
    r.{_vc_alloc_vcs := _vc_alloc_vcs_tmp r ++ _vc_alloc_vcs r}.{_vc_alloc_vcs_tmp := [] })).

(** ** Switch allocation *)

Definition sw_request (self : Z) (iter : vc_entry) : M World unit :=
  let input := e_input iter in
  let vc := e_vc iter in
  f ← on_router self (ask_buf input (Buffer_FrontFlit vc));
  state ← on_router self (ask_buf input (Buffer_GetState vc));
  when (bool_decide (state = active))
    (dest_output ← on_router self (ask_buf input (Buffer_GetOutputPort vc));
     on_router self (on_sw_allocator (AddRequest input dest_output 0 0 0)) ;;
     e ← on_router self (gets (λ r, dynamic_energy (_swa r)));
     f ← nonnull f;
     on_flits (update f (Update_SWA_dyn_energy e))).

(** the winner leaves its buffer for the output queue *)
Definition sw_pop (self size_sw_alloc input vc out_port dest_vc : Z) (f : flit_ptr) : M World unit :=
  fl ← on_flits (deref f);
  ovc ← on_router self (ask_buf input (Buffer_GetOutputVC (f_vc fl)));
  on_flits (update f (λ fl, fl.{f_vc := ovc})) ;;
  removed ← on_router self (on_buf input (Buffer_RemoveFlit vc));
  on_router self (meter InputBuffer_dynamic_energy_per_vc_access) ;;
  e ← on_router self (gets (λ r, dynamic_energy_per_vc (_inb r)));
  on_flits (update f (Update_buff_dyn_energy (e / d_of_Z size_sw_alloc)%D)) ;;
  vcs ← on_router self (gets _vcs);
  when (bool_decide (flit_type fl = FLIT_TYPE_TAIL))
    (on_router self (on_buf input (Buffer_SetState vc idle)) ;;
     on_router self (on_vc_allocator
       (RemoveRequest (input * vcs + vc) (out_port * vcs + dest_vc) 0))) ;;
  on_router self (on_output_buffer out_port (modify (λ q, q ++ [f]))).

Definition sw_grant (self size_sw_alloc : Z) (item : vc_entry) : M World unit :=
  let input := e_input item in
  let vc := e_vc item in
  f ← on_router self (ask_buf input (Buffer_FrontFlit vc));
  state ← on_router self (ask_buf input (Buffer_GetState vc));
  when (bool_decide (state = active))
    (f ← nonnull f;
     fl ← on_flits (deref f);
     let out_port := output_port fl in
     dest_vc ← on_router self (ask_buf input (Buffer_GetOutputVC vc));
     output_and_vc ← on_router self (a ← gets _sw_allocator; lift (OutputAssigned input a));
     freespace ← FindFreeSpace self out_port dest_vc;
     if decide (output_and_vc >= 0 ∧ freespace = true) then
       sw_pop self size_sw_alloc input vc out_port dest_vc f
     else
       on_router self (modify (λ r, r.{_sw_alloc_vcs_tmp ::= λ l, l ++ [mkentry (-1) input vc (-1)] })) ;;
       on_router self (on_buf input (Buffer_SetState vc active))).

Definition _SWAllocEvaluate (self : Z) : M World unit :=
  q ← on_router self (gets _sw_alloc_vcs);
  for_each q (sw_request self) ;;
  on_router self (on_sw_allocator Allocate) ;;
  on_router self (modify (λ r, r.{_sw_alloc_vcs := [] })) ;;
  for_each q (sw_grant self (zlength q)) ;;
  on_router self (modify (λ r,
    r.{_sw_alloc_vcs := _sw_alloc_vcs_tmp r ++ _sw_alloc_vcs r}.{_sw_alloc_vcs_tmp := [] })).

(** ** One cycle, and sending *)

Definition Router_clk (self global_clk : Z) : M World unit :=
  _InputQueuing self global_clk ;;
  on_router self (on_vc_allocator SparseAllocator_Clear) ;;
  _VCAllocEvaluate self ;;
  on_router self (meter VCAlocator_dynamic_energy) ;;
  on_router self (on_sw_allocator SparseAllocator_Clear) ;;
  _SWAllocEvaluate self ;;
  on_router self (meter SWAlocator_dynamic_energy).

Definition send_flit (self output : Z) : M World unit :=
  q ← on_router self (qs ← gets _output_buffer; lift (vget qs output));
  match q with
  | [] => mret tt
  | f :: q' =>
      last_flit ← on_router self (l ← gets _output_channels_last_flit; lift (vget l output));
      on_flits (Calc_Flips SIGNALING_TRANSITION ENCODING_BUS_INVERT f last_flit) ;;
      on_router self (zoom _output_channels_last_flit (λ l r, r.{_output_channels_last_flit := l})
                        (zoom_at output (modify (λ _, Some f)))) ;;
      on_router self (on_output_buffer output (modify (λ _, q'))) ;;
      c ← on_router self (cs ← gets _output_channels; lift (vget cs output));
      on_channel c (FlitChannel_Send (Some f)) ;;
      on_router self (meter CrossBar_dynamic_energy) ;;
      e ← on_router self (gets (λ r, dynamic_energy (_xbar r)));
      on_flits (update f (Update_xbar_dyn_energy e))
  end.

Definition _SendFlits (self : Z) : M World unit :=
  outputs ← on_router self (gets _outputs);
  for_range 0 outputs (send_flit self).

Definition Router_WriteOutputs (self global_clk : Z) : M World unit := _SendFlits self.

Definition Router_GetStaticEnergy (r : ENoCRouter) : double := GetStaticEnergy (energy_router (stats r)).
Definition Router_GetDynamicEnergy (r : ENoCRouter) : double := GetDynamicEnergy (energy_router (stats r)).
