(* ===== verification/Network.v ===== *)
(** * The network ([Network.h], [Network.cpp], [timed_module.h])

    A [NetworkNoC] owns the channels and the routers, wires them into a
    k-ary n-dimensional grid with wrap-around links, and clocks them in
    three phases. *)

From S2P Require Import Prelude Double NoCMain Config Element Stats Channel.
From S2P Require Import VirtualChannel Allocator Router.

(** [TimedModule *]: a channel or a router *)
Inductive TimedModule := TmChannel (c : Z) | TmRouter (n : Z).

Record NetworkNoC := mkNetworkNoC {
  world : World;
  _routers : list (option Z);
  _chan : list Z;
  _inject : list Z;
  _eject : list Z;
  _timed_modules : list TimedModule;
  _k : Z;
  _n : Z;
  _channels : Z;
  net_size : Z;
  _nodes : Z;
}.
#[export] Instance NetworkNoC_settable : Settable NetworkNoC := λ r,
  mkNetworkNoC (world r) (_routers r) (_chan r) (_inject r) (_eject r) (_timed_modules r) (_k r)
    (_n r) (_channels r) (net_size r) (_nodes r).

Definition on_world {A} : M World A → M NetworkNoC A := zoom world (λ w n, n.{world := w}).

(** ** Geometry *)

Definition _LeftChannel (n node dim : Z) : Z :=
  let base := 2 * n * node in
  let off := 2 * dim + 1 in
  base + off.

Definition _RightChannel (n node dim : Z) : Z :=
  let base := 2 * n * node in
  let off := 2 * dim in
  base + off.

Definition powi (x y : Z) : Z := foldl (λ r _, r * x) 1 (seqZ 0 y).

Definition _LeftNode (k node dim : Z) : Z :=
  let k_to_dim := powi k dim in
  let loc_in_dim := Z.rem (Z.quot node k_to_dim) k in
  if decide (loc_in_dim = 0) then node + (k - 1) * k_to_dim else node - k_to_dim.

Definition _RightNode (k node dim : Z) : Z :=
  let k_to_dim := powi k dim in
  let loc_in_dim := Z.rem (Z.quot node k_to_dim) k in
  if decide (loc_in_dim = k - 1) then node - (k - 1) * k_to_dim else node + k_to_dim.

(** ** Construction *)

(** [new FlitChannel(this, name, _classes)] *)
Definition new_FlitChannel (classes : Z) : M World Z := λ w,
  Ok (zlength (channels w), w.{channels ::= λ l, l ++ [FlitChannel_FlitChannel classes] }).

(** [resize] followed by the loop that fills the vector in order *)
Definition _Alloc : M NetworkNoC unit :=
  modify (λ n, n.{_routers := replicate (Z.to_nat (net_size n)) None}) ;;
  let classes := 1 in
  n ← get;
  for_range 0 (_nodes n) (λ s,
    c ← on_world (new_FlitChannel classes);
    on_world (on_channel c (SetSource None s)) ;;
    modify (λ n, n.{_inject ::= λ l, l ++ [c] }.{_timed_modules ::= λ l, l ++ [TmChannel c] })) ;;
  for_range 0 (_nodes n) (λ d,
    c ← on_world (new_FlitChannel classes);
    on_world (on_channel c (SetSink None d)) ;;
    modify (λ n, n.{_eject ::= λ l, l ++ [c] }.{_timed_modules ::= λ l, l ++ [TmChannel c] })) ;;
  for_range 0 (_channels n) (λ _,
    c ← on_world (new_FlitChannel classes);
    modify (λ n, n.{_chan ::= λ l, l ++ [c] }.{_timed_modules ::= λ l, l ++ [TmChannel c] })).

Section build.
Variables (raw : Z → Element) (raw_active : Z → bool) (config : Configuration).

Definition SetLatency (c latency : Z) : M World unit :=
  on_channel c (on_base (Channel_SetLatency latency)).

(** the inner loop of [buildMesh] *)
Definition connect_dim (node dim : Z) : M NetworkNoC unit :=
  let latency := 1 in
  net ← get;
  let left_node := _LeftNode (_k net) node dim in
  let right_node := _RightNode (_k net) node dim in
  right_input ← lift (vget (_chan net) (_LeftChannel (_n net) right_node dim));
  left_input ← lift (vget (_chan net) (_RightChannel (_n net) left_node dim));
  on_world (AddInputChannel node right_input) ;;
  on_world (AddInputChannel node left_input) ;;
  right_output ← lift (vget (_chan net) (_RightChannel (_n net) node dim));
  left_output ← lift (vget (_chan net) (_LeftChannel (_n net) node dim));
  on_world (AddOutputChannel node right_output) ;;
  on_world (AddOutputChannel node left_output) ;;
  on_world (SetLatency right_input latency) ;;
  on_world (SetLatency left_input latency) ;;
  on_world (SetLatency right_output latency) ;;
  on_world (SetLatency left_output latency).

Definition build_node (node : Z) : M NetworkNoC unit :=
  let latency := 1 in
  n ← gets _n;
  r ← lift (NewRouter (raw node) (raw_active node) config node (2 * n + 1) (2 * n + 1));
  p ← on_world (λ w, Ok (zlength (routers w), w.{routers ::= λ l, l ++ [r] }));
  zoom _routers (λ l n, n.{_routers := l}) (zoom_at node (modify (λ _, Some p))) ;;
  modify (λ n, n.{_timed_modules ::= λ l, l ++ [TmRouter p] }) ;;
  for_range 0 n (connect_dim p) ;;
  net ← get;
  inj ← lift (vget (_inject net) node);
  ej ← lift (vget (_eject net) node);
  on_world (AddInputChannel p inj) ;;
  on_world (AddOutputChannel p ej) ;;
  on_world (SetLatency inj latency) ;;
  on_world (SetLatency ej latency).

Definition buildMesh : M NetworkNoC unit :=
  net ← get;
  for_range 0 (net_size net) build_node.

(** [NetworkNoC::NetworkNoC]; the heap of flits it starts with is [h] *)
Definition NetworkNoC_NetworkNoC (h : list Flit) : res NetworkNoC :=
  let k := DEFAULT_MESH_DIM_X in
  let n := 2 in
  let size := powi k n in
  let net := mkNetworkNoC (mkWorld h [] []) [] [] [] [] [] k n (2 * n * size) size size in
  r ← (_Alloc ;; buildMesh) net;
  Ok r.2.
End build.

(** ** Clocking *)

Definition Tm_ReadInputs (global_clk : Z) (m : TimedModule) : M World unit :=
  match m with
  | TmChannel c => on_channel c (FlitChannel_ReadInputs global_clk)
  | TmRouter n => Router_ReadInputs n global_clk
  end.
Definition Tm_clk (global_clk : Z) (m : TimedModule) : M World unit :=
  match m with
  | TmChannel c => on_channel c (FlitChannel_clk global_clk)
  | TmRouter n => Router_clk n global_clk
  end.
Definition Tm_WriteOutputs (global_clk : Z) (m : TimedModule) : M World unit :=
  match m with
  | TmChannel c => on_channel c (FlitChannel_WriteOutputs global_clk)
  | TmRouter n => Router_WriteOutputs n global_clk
  end.

Definition Network_ReadInputs (global_clk : Z) : M NetworkNoC unit :=
  ms ← gets _timed_modules;
  on_world (for_each ms (Tm_ReadInputs global_clk)).
Definition Network_WriteOutputs (global_clk : Z) : M NetworkNoC unit :=
  ms ← gets _timed_modules;
  on_world (for_each ms (Tm_WriteOutputs global_clk)).
Definition Network_clk (global_clk : Z) : M NetworkNoC unit :=
  Network_ReadInputs global_clk ;;
  ms ← gets _timed_modules;
  on_world (for_each ms (Tm_clk global_clk)) ;;
  Network_WriteOutputs global_clk.

(** ** Injection and ejection *)

Definition WriteFlit (f : option flit_ptr) (source : Z) : M NetworkNoC unit :=
  net ← get;
  check (bool_decide (0 ≤ source < _nodes net)) ;;
  c ← lift (vget (_inject net) source);
  on_world (on_channel c (FlitChannel_Send f)).

Definition ReadFlit (dest : Z) : M NetworkNoC (option flit_ptr) :=
  net ← get;
  check (bool_decide (0 ≤ dest < _nodes net)) ;;
  c ← lift (vget (_eject net) dest);
  on_world (on_channel c FlitChannel_Receive).

Definition GetInject (index : Z) (net : NetworkNoC) : res Z := vget (_inject net) index.
Definition GetEject (index : Z) (net : NetworkNoC) : res Z := vget (_eject net) index.
Definition NumNodes (net : NetworkNoC) : Z := net_size net.
Definition NumRouters (net : NetworkNoC) : Z := net_size net.
Definition GetRouters (net : NetworkNoC) : list (option Z) := _routers net.
