(* ===== verification/RouterInv.v ===== *)
(** * The invariant of the routers and of the flits they hold

    What every router of a network satisfies between two steps, stated
    against an interface for the wiring ([Topology]), and the ownership
    discipline of flits: every flit in the network is in exactly one place,
    and the fields a place relies on have the values it needs. *)

From S2P Require Import Prelude Double NoCMain Config Element Stats Channel.
From S2P Require Import VirtualChannel Allocator FlitCoding Router.

(** ** The wiring a router needs *)

Class Topology := {
  n_nodes : Z;
  n_chans : Z;
  in_chans : Z → list Z;
  out_chans : Z → list Z;
  sink_of : Z → option Z;
  sink_port : Z → Z;
  in_chans_ok : ∀ n, 0 ≤ n < n_nodes →
    zlength (in_chans n) = 5 ∧ Forall (λ c, 0 ≤ c < n_chans) (in_chans n);
  out_chans_ok : ∀ n, 0 ≤ n < n_nodes →
    zlength (out_chans n) = 5 ∧ Forall (λ c, 0 ≤ c < n_chans) (out_chans n);
  (** a link leads to another router *)
  out_sink : ∀ n p c, 0 ≤ n < n_nodes → 0 ≤ p < 4 → out_chans n !z p = Some c →
    ∃ m, sink_of c = Some m ∧ 0 ≤ m < n_nodes ∧ m ≠ n;
  (** a channel is driven by one output port *)
  out_inj : ∀ n p n' p' c, 0 ≤ n < n_nodes → 0 ≤ n' < n_nodes →
    out_chans n !z p = Some c → out_chans n' !z p' = Some c → n = n' ∧ p = p';
  (** the channels with a sink are the inputs of the routers, each once *)
  in_sink : ∀ n i c, 0 ≤ n < n_nodes → in_chans n !z i = Some c →
    sink_of c = Some n ∧ sink_port c = i;
  sink_in : ∀ c n, sink_of c = Some n →
    0 ≤ n < n_nodes ∧ in_chans n !z sink_port c = Some c;
}.

(** ** Routers *)

Definition out_ok (c : VirtualChannel) : Prop :=
  _state c = active → 0 ≤ _out_port c < 4 ∧ 0 ≤ _out_vc c < DEFAULT_NUM_VCS.

Definition buf_ok (b : Buffer) : Prop :=
  buffer_wf b ∧ ∀ v c, buf_vc b !z v = Some c → out_ok c.

Definition bqueue (b : Buffer) (v : Z) : list flit_ptr :=
  match buf_vc b !z v with Some c => _buffer c | None => [] end.
Definition queue (r : ENoCRouter) (i v : Z) : list flit_ptr :=
  match _buf r !z i with Some b => bqueue b v | None => [] end.
Definition vc_at (r : ENoCRouter) (i v : Z) : option VirtualChannel :=
  b ← _buf r !z i; buf_vc b !z v.

Lemma queue_vc_at r i v : queue r i v = match vc_at r i v with Some c => _buffer c | None => [] end.
Proof. unfold queue, vc_at, bqueue. by destruct (_buf r !z i). Qed.

Section invariant.
Context `{Topology} (hlen : nat).

(** the part that holds at every step of a router *)
Record router_base (n : Z) (r : ENoCRouter) : Prop := {
  rb_id : _id r = n;
  rb_vcs : _vcs r = DEFAULT_NUM_VCS;
  rb_inputs : _inputs r = 5;
  rb_outputs : _outputs r = 5;
  rb_in : _input_channels r = in_chans n;
  rb_out : _output_channels r = out_chans n;
  rb_buf : zlength (_buf r) = 5;
  rb_bufs : ∀ i b, _buf r !z i = Some b → buf_ok b;
  rb_outbuf : zlength (_output_buffer r) = 5;
  rb_last : zlength (_output_channels_last_flit r) = 5;
  rb_last_valid : Forall (λ p, ∀ q, p = Some q → (q < hlen)%nat) (_output_channels_last_flit r);
  rb_vca : alloc_wf (_vc_allocator r);
  rb_vca_dims : dims (_vc_allocator r) = (40, 40, 1);
  rb_swa : alloc_wf (_sw_allocator r);
  rb_swa_dims : dims (_sw_allocator r) = (5, 5, 1);
  rb_stats : stats_wf (stats r);
}.

Definition entry_ok (e : vc_entry) : Prop := 0 ≤ e_input e < 5 ∧ 0 ≤ e_vc e < DEFAULT_NUM_VCS.

(** an entry waiting for a virtual channel: its VC holds a flit and is not
    active (the traffic manager may have set it back to [routing]) *)
Definition vc_ready (r : ENoCRouter) (e : vc_entry) : Prop :=
  entry_ok e ∧ ∃ c, vc_at r (e_input e) (e_vc e) = Some c ∧ _state c ≠ active ∧ _buffer c ≠ [].

Definition same_vc (i v : Z) (e : vc_entry) : Prop := e_input e = i ∧ e_vc e = v.
#[export] Instance same_vc_dec i v e : Decision (same_vc i v e).
Proof. unfold same_vc. apply _. Defined.
Definition sw_count (i v : Z) (l : list vc_entry) : nat := length (filter (same_vc i v) l).

(** no VC has more switch requests than flits *)
Definition sw_ok (r : ENoCRouter) (l : list vc_entry) : Prop :=
  Forall entry_ok l ∧ ∀ i v, (sw_count i v l ≤ length (queue r i v))%nat.

Definition inq_ok (r : ENoCRouter) : Prop :=
  om_wf (_in_queue_flits r) ∧ Forall (λ ip, 0 ≤ ip.1 < 5) (_in_queue_flits r).

(** what a router satisfies between its own steps *)
Record router_ok (n : Z) (r : ENoCRouter) : Prop := {
  ro_base : router_base n r;
  ro_inq : inq_ok r;
  ro_vc : Forall (vc_ready r) (_vc_alloc_vcs r);
  ro_sw : sw_ok r (_sw_alloc_vcs r);
  ro_tmp : _vc_alloc_vcs_tmp r = [] ∧ _sw_alloc_vcs_tmp r = [];
}.
End invariant.

(** ** Places *)

Inductive rplace := RIn (i : Z) | RBuf (i v : Z) | ROut (o : Z).
Inductive place := Wire (c : Z) | Done (c : Z) | At (n : Z) (p : rplace).
#[export] Instance rplace_eq_dec : EqDecision rplace.
Proof. solve_decision. Defined.
#[export] Instance place_eq_dec : EqDecision place.
Proof. solve_decision. Defined.

Definition rslot (r : ENoCRouter) (p : rplace) : list flit_ptr :=
  match p with
  | RIn i => option_list (om_find i (_in_queue_flits r))
  | RBuf i v => queue r i v
  | ROut o => match _output_buffer r !z o with Some q => q | None => [] end
  end.

Definition wire_slot (fc : FlitChannel) : list flit_ptr :=
  option_list (_input (base_channel fc)) ++ (_wait_queue (base_channel fc)).*2.
Definition done_slot (fc : FlitChannel) : list flit_ptr := option_list (_output (base_channel fc)).

Definition slot (w : World) (l : place) : list flit_ptr :=
  match l with
  | Wire c => match channels w !z c with Some fc => wire_slot fc | None => [] end
  | Done c => match channels w !z c with Some fc => done_slot fc | None => [] end
  | At n p => match routers w !z n with Some r => rslot r p | None => [] end
  end.

(** what the flit in a place looks like: the place is on the
    dimension-ordered route of the flit *)
Definition flit_ok `{Topology} (l : place) (f : Flit) : Prop :=
  countable_flit f ∧
  match l with
  | At n (RBuf _ v) =>
      f_vc f = v ∧ 0 ≤ output_port f < 4 ∧ output_port f = xy_yx_mesh_port n (dst_id f)
  | At n (ROut o) => 0 ≤ f_vc f < DEFAULT_NUM_VCS ∧ o = xy_yx_mesh_port n (dst_id f)
  | At _ (RIn _) => 0 ≤ f_vc f < DEFAULT_NUM_VCS
  | Wire c | Done c =>
      0 ≤ f_vc f < DEFAULT_NUM_VCS ∧
      ∀ n p, 0 ≤ n < n_nodes → out_chans n !z p = Some c → p = xy_yx_mesh_port n (dst_id f)
  end.

(** the heap [h] and the places [S] hold exactly the flits of [K], each once *)
Record placed `{Topology} (K : flit_ptr → Prop) (h : list Flit) (S : place → list flit_ptr) : Prop := {
  pl_ok : ∀ l p, p ∈ S l → ∃ f, h !! p = Some f ∧ flit_ok l f;
  pl_nodup : ∀ l, NoDup (S l);
  pl_unique : ∀ l l' p, p ∈ S l → p ∈ S l' → l = l';
  pl_all : ∀ p, K p ↔ ∃ l, p ∈ S l;
}.

(** ** Flits keep their contents *)

(** the fields no router writes *)
Definition same_flit (f f' : Flit) : Prop :=
  src_id f' = src_id f ∧ dst_id f' = dst_id f ∧ flit_type f' = flit_type f ∧
  sequence_no f' = sequence_no f ∧ payload f' = payload f ∧ timestamp f' = timestamp f ∧
  packet_type f' = packet_type f.
(** ... and those that only routing and buffering write *)
Definition flit_sim (f f' : Flit) : Prop :=
  same_flit f f' ∧ f_vc f' = f_vc f ∧ output_port f' = output_port f.

Definition heap_rel (R : Flit → Flit → Prop) (h h' : list Flit) : Prop :=
  ∀ p f, h !! p = Some f → ∃ f', h' !! p = Some f' ∧ R f f'.
Abbreviation heap_sim := (heap_rel flit_sim).
Abbreviation heap_same := (heap_rel same_flit).

#[export] Instance same_flit_preorder : PreOrder same_flit.
Proof. unfold same_flit. split; [done|]. intros f1 f2 f3. naive_solver congruence. Qed.
#[export] Instance flit_sim_preorder : PreOrder flit_sim.
Proof.
  split; [by split|]. intros f1 f2 f3 (H1 & H2 & H3) (H1' & H2' & H3').
  split; [by etrans|]. split; congruence.
Qed.
#[export] Instance heap_rel_preorder R : PreOrder R → PreOrder (heap_rel R).
Proof.
  intros HR. split.
  - intros h p f Hp. by exists f.
  - intros h1 h2 h3 H1 H2 p f Hp. destruct (H1 p f Hp) as (f2 & Hp2 & ?).
    destruct (H2 p f2 Hp2) as (f3 & Hp3 & ?). exists f3. split; [done|by etrans].
Qed.

Lemma heap_sim_same h h' : heap_sim h h' → heap_same h h'.
Proof. intros Hs p f Hp. destruct (Hs p f Hp) as (f' & ? & ? & _). by exists f'. Qed.

Lemma heap_rel_insert (R : Flit → Flit → Prop) `{!Reflexive R} h p f f' :
  h !! p = Some f → R f f' → heap_rel R h (<[p := f']> h).
Proof.
  intros Hp HR q g Hq. destruct (decide (q = p)) as [->|Hne].
  - simplify_eq. exists f'. split; [|done]. apply list_lookup_insert_eq. by eapply lookup_lt_Some.
  - exists g. by rewrite list_lookup_insert_ne.
Qed.

Lemma flit_ok_sim `{Topology} l f f' : flit_sim f f' → flit_ok l f → flit_ok l f'.
Proof.
  intros ((_ & Hd & _ & _ & _ & _ & Ht) & Hv & Ho). unfold flit_ok, countable_flit. rewrite Ht, Hd.
  destruct l as [| |n [| |]]; by rewrite ?Hv, ?Ho.
Qed.

Section placed.
Context `{Topology} (K : flit_ptr → Prop).
Implicit Types (h : list Flit) (S : place → list flit_ptr) (p : flit_ptr).

Lemma placed_ext h h' S S' :
  placed K h S → heap_sim h h' → (∀ l, S' l = S l) → placed K h' S'.
Proof.
  intros [Hok Hnd Huq Hall] Hsim HS. split.
  - intros l p. rewrite HS. intros Hp. destruct (Hok l p Hp) as (f & Hf & Hfo).
    destruct (Hsim p f Hf) as (f' & Hf' & Hff). exists f'. split; [done|]. by eapply flit_ok_sim.
  - intros l. by rewrite HS.
  - intros l l' p. rewrite !HS. apply Huq.
  - intros p. rewrite Hall. by setoid_rewrite HS.
Qed.

(** Moving the first flit of one place to the end of another. *)
Lemma placed_move h S S' p q l l' f' :
  placed K h S → S l = p :: q → l ≠ l' →
  S' l = q → S' l' = S l' ++ [p] → (∀ x, x ≠ l → x ≠ l' → S' x = S x) →
  flit_ok l' f' → placed K (<[p := f']> h) S'.
Proof.
  intros [Hok Hnd Huq Hall] Hl Hne HSl HSl' HSx Hf'.
  assert (Hpl : p ∈ S l) by (rewrite Hl; left).
  assert (Hpq : p ∉ q) by (pose proof (Hnd l) as Hn; rewrite Hl in Hn; by apply NoDup_cons in Hn as [? _]).
  assert (Hsub : ∀ x y, x ≠ l' → y ∈ S' x → y ∈ S x ∧ y ≠ p).
  { intros x y Hx Hy. destruct (decide (x = l)) as [->|Hxl].
    - rewrite HSl in Hy. rewrite Hl. split; [by right|]. by intros ->.
    - rewrite HSx in Hy by done. split; [done|]. intros ->. by apply Hxl, (Huq x l p). }
  assert (Hpl' : p ∉ S l') by (intros Hp; by apply Hne, (Huq l l' p)).
  split.
  - intros x y Hy. destruct (decide (x = l')) as [->|Hx].
    + rewrite HSl', elem_of_app, list_elem_of_singleton in Hy. destruct Hy as [Hy| ->].
      * assert (y ≠ p) by (by intros ->). rewrite list_lookup_insert_ne by done. by apply Hok.
      * destruct (Hok l p Hpl) as (f & Hf & _). exists f'. split; [|done].
        apply list_lookup_insert_eq. by eapply lookup_lt_Some.
    + destruct (Hsub x y Hx Hy) as [Hy' Hyp]. rewrite list_lookup_insert_ne by done. by apply Hok.
  - intros x. destruct (decide (x = l')) as [->|Hx].
    + rewrite HSl'. apply NoDup_app. split_and!; [done| |apply NoDup_singleton].
      intros y Hy ->%list_elem_of_singleton. done.
    + destruct (decide (x = l)) as [->|Hxl].
      * rewrite HSl. pose proof (Hnd l) as Hn. rewrite Hl in Hn. by apply NoDup_cons in Hn as [_ ?].
      * by rewrite HSx.
  - intros x x' y Hy Hy'.
    assert (Hin : ∀ z, y ∈ S' z → (z = l' ∧ y = p) ∨ (y ∈ S z ∧ y ≠ p)).
    { intros z Hz. destruct (decide (z = l')) as [->|Hz']; [|right; by apply Hsub].
      rewrite HSl', elem_of_app, list_elem_of_singleton in Hz. destruct Hz as [Hz| ->]; [|by left].
      right. split; [done|]. by intros ->. }
    destruct (Hin x Hy) as [[-> ->]|[Hyx Hyp]], (Hin x' Hy') as [[-> ?]|[Hyx' ?]]; try done.
    by apply (Huq _ _ y).
  - intros y. rewrite Hall. split.
    + intros [x Hx]. destruct (decide (y = p)) as [->|Hyp].
      * exists l'. rewrite HSl'. set_solver.
      * destruct (decide (x = l)) as [->|Hxl]; [exists l|destruct (decide (x = l')) as [->|]; [exists l'|exists x]].
        -- rewrite HSl. rewrite Hl in Hx. set_solver.
        -- rewrite HSl'. set_solver.
        -- by rewrite HSx.
    + intros [x Hx]. destruct (decide (x = l')) as [->|Hx'].
      * rewrite HSl', elem_of_app, list_elem_of_singleton in Hx. destruct Hx as [Hx| ->]; eauto.
      * exists x. by apply Hsub.
Qed.

(** Changing the flit of a place in a way the place allows. *)
Lemma placed_update h S p l f' :
  placed K h S → p ∈ S l → flit_ok l f' → placed K (<[p := f']> h) S.
Proof.
  intros [Hok Hnd Huq Hall] Hp Hf'. split; [|done..].
  intros x y Hy. destruct (decide (y = p)) as [->|Hne].
  - destruct (Hok l p Hp) as (f & Hf & _). exists f'.
    rewrite (Huq x l p Hy Hp). split; [|done]. apply list_lookup_insert_eq. by eapply lookup_lt_Some.
  - rewrite list_lookup_insert_ne by done. by apply Hok.
Qed.
End placed.

(** ** Steps that do not move flits

    While one router runs, the others can only have idle virtual channels
    reserved and reserved ones released ([FindIdleVC], [SetIdleVC]), and
    flits can only accumulate energy. *)

Definition quiet (s : VCState) : Prop := s = idle ∨ s = routing.
Definition vc_touch (c c' : VirtualChannel) : Prop :=
  c' = c ∨ (quiet (_state c) ∧ ∃ s, quiet s ∧ c' = c.{_state := s}).
Definition buf_touch (b b' : Buffer) : Prop :=
  ∃ vcs, b' = b.{buf_vc := vcs} ∧ Forall2 vc_touch (buf_vc b) vcs.
Definition router_touch (r r' : ENoCRouter) : Prop :=
  ∃ bufs, r' = r.{_buf := bufs} ∧ Forall2 buf_touch (_buf r) bufs.

#[export] Instance vc_touch_preorder : PreOrder vc_touch.
Proof.
  split; [by left|]. intros c1 c2 c3 [->|(Hq & s & Hs & ->)]; [done|].
  intros [->|(Hq' & s' & Hs' & ->)]; right; eauto.
Qed.
#[export] Instance buf_touch_preorder : PreOrder buf_touch.
Proof.
  split.
  - intros b. exists (buf_vc b). by destruct b.
  - intros b1 b2 b3 (v1 & -> & H1) (v2 & -> & H2). exists v2. split; [done|]. by etrans.
Qed.
#[export] Instance router_touch_preorder : PreOrder router_touch.
Proof.
  split.
  - intros r. exists (_buf r). by destruct r.
  - intros r1 r2 r3 (v1 & -> & H1) (v2 & -> & H2). exists v2. split; [done|]. by etrans.
Qed.

Lemma Forall2_vlookup_l {A B} (P : A → B → Prop) l k i x :
  Forall2 P l k → l !z i = Some x → ∃ y, k !z i = Some y ∧ P x y.
Proof.
  intros HP [Hi Hx]%vlookup_Some. destruct (Forall2_lookup_l _ _ _ _ _ HP Hx) as (y & Hy & ?).
  exists y. split; [|done]. by apply vlookup_Some.
Qed.
Lemma Forall2_vlookup_r {A B} (P : A → B → Prop) l k i y :
  Forall2 P l k → k !z i = Some y → ∃ x, l !z i = Some x ∧ P x y.
Proof.
  intros HP [Hi Hx]%vlookup_Some. destruct (Forall2_lookup_r _ _ _ _ _ HP Hx) as (x & Hy & ?).
  exists x. split; [|done]. by apply vlookup_Some.
Qed.
Lemma Forall2_vinsert_l {A} (P : A → A → Prop) `{!Reflexive P} l i x y :
  l !z i = Some x → P x y → Forall2 P l (vinsert i y l).
Proof.
  intros [Hi Hx]%vlookup_Some HP. unfold vinsert. rewrite decide_True by done.
  rewrite <-(list_insert_id l _ _ Hx) at 1. by apply Forall2_insert.
Qed.
Lemma Forall2_zlength {A B} (P : A → B → Prop) l k : Forall2 P l k → zlength k = zlength l.
Proof. intros HP. unfold zlength. by rewrite (Forall2_length _ _ _ HP). Qed.

Lemma vc_touch_same c c' :
  vc_touch c c' → _buffer c' = _buffer c ∧ occupancy c' = occupancy c ∧
  (_state c' = _state c ∨ (quiet (_state c) ∧ quiet (_state c'))) ∧
  (¬ quiet (_state c) → c' = c) ∧ (out_ok c → out_ok c').
Proof.
  intros [->|(Hq & s & Hs & ->)]; simpl; [naive_solver|].
  split_and!; [done|done|by right|done|].
  intros _ Ha. simpl in Ha. destruct Hs; congruence.
Qed.

Lemma buf_touch_ok b b' : buf_touch b b' → buf_ok b → buf_ok b'.
Proof.
  intros (vcs & -> & Hv) [[Hs Hl Ho Hc] Hok]. split; [split|]; simpl.
  - done.
  - by rewrite (Forall2_zlength _ _ _ Hv).
  - done.
  - intros i c' Hc'. destruct (Forall2_vlookup_r _ _ _ _ _ Hv Hc') as (c & Hbc & Ht).
    destruct (vc_touch_same _ _ Ht) as (Hb & Hocc & _).
    destruct (Hc i c Hbc) as [H1 H2]. unfold vc_counts. simpl. by rewrite Hb, Hocc.
  - intros v c' Hc'. destruct (Forall2_vlookup_r _ _ _ _ _ Hv Hc') as (c & Hbc & Ht).
    apply (vc_touch_same _ _ Ht). by eapply Hok.
Qed.

Lemma touch_vc_at r r' i v c :
  router_touch r r' → vc_at r i v = Some c → ∃ c', vc_at r' i v = Some c' ∧ vc_touch c c'.
Proof.
  intros (bufs & -> & Hb) Hc. unfold vc_at in *. simpl.
  destruct (_buf r !z i) as [b|] eqn:Hbi; [|done]. simpl in Hc.
  destruct (Forall2_vlookup_l _ _ _ _ _ Hb Hbi) as (b' & -> & vcs & -> & Hv). simpl.
  by eapply Forall2_vlookup_l.
Qed.

Lemma touch_queue r r' i v : router_touch r r' → queue r' i v = queue r i v.
Proof.
  intros (bufs & -> & Hb). unfold queue, bqueue. simpl.
  destruct (bufs !z i) as [b'|] eqn:Hb'.
  - destruct (Forall2_vlookup_r _ _ _ _ _ Hb Hb') as (b & -> & vcs & -> & Hv). simpl.
    destruct (vcs !z v) as [c'|] eqn:Hc'.
    + destruct (Forall2_vlookup_r _ _ _ _ _ Hv Hc') as (c & -> & Ht).
      by destruct (vc_touch_same _ _ Ht).
    + destruct (buf_vc b !z v) as [c|] eqn:Hc; [|done].
      destruct (Forall2_vlookup_l _ _ _ _ _ Hv Hc) as (c' & ? & _). congruence.
  - destruct (_buf r !z i) as [b|] eqn:Hbi; [|done].
    destruct (Forall2_vlookup_l _ _ _ _ _ Hb Hbi) as (b' & ? & _). congruence.
Qed.

Lemma touch_rslot r r' p : router_touch r r' → rslot r' p = rslot r p.
Proof.
  intros Ht. destruct p as [i|i v|o]; simpl; [|by apply touch_queue|];
    destruct Ht as (bufs & -> & _); done.
Qed.

Section touch.
Context `{Topology} (hlen : nat).

Lemma touch_base n r r' : router_touch r r' → router_base hlen n r → router_base hlen n r'.
Proof.
  intros (bufs & -> & Hb) []. split; simpl; try done.
  - by rewrite (Forall2_zlength _ _ _ Hb).
  - intros i b' Hb'. destruct (Forall2_vlookup_r _ _ _ _ _ Hb Hb') as (b & Hbi & Ht).
    eapply buf_touch_ok; [done|]. eauto.
Qed.

Lemma touch_ready r r' e : router_touch r r' → vc_ready r e → vc_ready r' e.
Proof.
  intros Ht (He & c & Hc & Hst & Hne). split; [done|].
  destruct (touch_vc_at _ _ _ _ _ Ht Hc) as (c' & Hc' & Htc). exists c'. split; [done|].
  destruct Htc as [->|(_ & s & Hs & ->)]; [done|]. split; [|done]. simpl. by destruct Hs as [-> | ->].
Qed.

Lemma touch_ok n r r' : router_touch r r' → router_ok hlen n r → router_ok hlen n r'.
Proof.
  intros Ht [Hb Hi Hv Hs Hm]. split.
  - by eapply touch_base.
  - by destruct Ht as (bufs & -> & _).
  - assert (_vc_alloc_vcs r' = _vc_alloc_vcs r) as -> by (by destruct Ht as (bufs & -> & _)).
    eapply Forall_impl; [exact Hv|]. intros e. by apply touch_ready.
  - assert (_sw_alloc_vcs r' = _sw_alloc_vcs r) as -> by (by destruct Ht as (bufs & -> & _)).
    destruct Hs as [? Hs]. split; [done|]. intros i v. by rewrite (touch_queue _ _ _ _ Ht).
  - by destruct Ht as (bufs & -> & _).
Qed.
End touch.

(** ** The places that count while the routers are clocked

    Between [ReadInputs] and [WriteOutputs] the output of a channel has
    already been read: its flit is counted in the input queue of the router
    behind it (or has left the network). *)
Definition mid_slot (w : World) (l : place) : list flit_ptr :=
  match l with Done _ => [] | _ => slot w l end.

(** the effect on the places of replacing one router *)
Lemma mid_slot_set w h self r r' l :
  routers w !z self = Some r →
  mid_slot (w.{flits := h}.{routers := vinsert self r' (routers w)}) l =
    match l with
    | At n p => if decide (n = self) then rslot r' p else mid_slot w l
    | _ => mid_slot w l
    end.
Proof.
  intros Hr. destruct l as [c|c|n p]; [done|done|]. simpl. case_decide as Hn.
  - subst. by rewrite vlookup_vinsert_eq by (by eapply vlookup_Some_range).
  - by rewrite vlookup_vinsert_ne by done.
Qed.

Lemma mid_slot_at w self r p : routers w !z self = Some r → mid_slot w (At self p) = rslot r p.
Proof. intros Hr. simpl. by rewrite Hr. Qed.
