(* ===== verification/RouterSafe.v ===== *)
(** * The steps of a router are safe

    Every method that [ENoCRouter::clk] and [WriteOutputs] run returns from
    every state that satisfies the invariant of [RouterInv], restores the
    invariant, and moves flits between places without losing, duplicating or
    altering one. *)

From S2P Require Import Prelude Double NoCMain Config Element Stats Channel.
From S2P Require Import VirtualChannel Allocator FlitCoding Router RouterInv.

(** ** Running the steps of a computation *)

Lemma on_router_run {A} n (m : M ENoCRouter A) w r a r' :
  routers w !z n = Some r → m r = Ok (a, r') →
  on_router n m w = Ok (a, w.{routers := vinsert n r' (routers w)}).
Proof. intros Hr Hm. unfold on_router, zoom. by rewrite (zoom_at_Some _ _ _ _ Hr), Hm. Qed.

Lemma on_router_read {A} n (m : M ENoCRouter A) w r a :
  routers w !z n = Some r → m r = Ok (a, r) → on_router n m w = Ok (a, w).
Proof.
  intros Hr Hm. rewrite (on_router_run _ _ _ _ _ _ Hr Hm). rewrite vinsert_id by done.
  by destruct w.
Qed.

Lemma on_channel_read {A} c (m : M FlitChannel A) w fc a :
  channels w !z c = Some fc → m fc = Ok (a, fc) → on_channel c m w = Ok (a, w).
Proof.
  intros Hc Hm. unfold on_channel, zoom. rewrite (zoom_at_Some _ _ _ _ Hc), Hm.
  rewrite vinsert_id by done. by destruct w.
Qed.

Lemma on_channel_run {A} c (m : M FlitChannel A) w fc a fc' :
  channels w !z c = Some fc → m fc = Ok (a, fc') →
  on_channel c m w = Ok (a, w.{channels := vinsert c fc' (channels w)}).
Proof. intros Hc Hm. unfold on_channel, zoom. by rewrite (zoom_at_Some _ _ _ _ Hc), Hm. Qed.

Lemma deref_run p w f : flits w !! p = Some f → on_flits (deref p) w = Ok (f, w).
Proof. intros Hf. unfold on_flits, zoom, deref. rewrite Hf. by destruct w. Qed.

Lemma update_run p g w f :
  flits w !! p = Some f →
  on_flits (update p g) w = Ok (tt, w.{flits := <[p := g f]> (flits w)}).
Proof. intros Hf. unfold on_flits, zoom, update. by rewrite Hf. Qed.

Lemma ask_buf_run {A} i (q : Buffer → res A) r b a :
  _buf r !z i = Some b → q b = Ok a → ask_buf i q r = Ok (a, r).
Proof.
  intros Hb Hq. unfold ask_buf, mbind at 1, M_bind, gets, lift.
  rewrite (vget_Some _ _ _ Hb). simpl. by rewrite Hq.
Qed.

Lemma ask_vc_run {A} i v (g : VirtualChannel → A) r c :
  vc_at r i v = Some c → ask_buf i (of_vc v g) r = Ok (g c, r).
Proof.
  unfold vc_at. intros Hc. destruct (_buf r !z i) as [b|] eqn:Hb; [|done]. simpl in Hc.
  eapply ask_buf_run; [done|]. by apply of_vc_run.
Qed.

(** ** The world with another heap and another router [self]

    A method that only touches flits and its own router runs in these worlds. *)

Definition put_router (w : World) (self : Z) (h : list Flit) (r : ENoCRouter) : World :=
  w.{flits := h}.{routers := vinsert self r (routers w)}.

Section put.
Context (w : World) (self : Z) (r0 : ENoCRouter).
Hypothesis Hself : routers w !z self = Some r0.

Lemma put_start : w = put_router w self (flits w) r0.
Proof. unfold put_router. simpl. rewrite vinsert_id by done. by destruct w. Qed.

Lemma put_lookup h r : routers (put_router w self h r) !z self = Some r.
Proof. simpl. apply vlookup_vinsert_eq. by eapply vlookup_Some_range. Qed.

Lemma put_run {A} h r (m : M ENoCRouter A) a r' :
  m r = Ok (a, r') → on_router self m (put_router w self h r) = Ok (a, put_router w self h r').
Proof.
  intros Hm. rewrite (on_router_run _ _ _ _ _ _ (put_lookup h r) Hm).
  unfold put_router. simpl. by rewrite vinsert_vinsert.
Qed.

Lemma put_update h r p g f :
  h !! p = Some f →
  on_flits (update p g) (put_router w self h r) = Ok (tt, put_router w self (<[p := g f]> h) r).
Proof. intros Hf. by rewrite (update_run p g _ f). Qed.

Lemma put_deref h r p f :
  h !! p = Some f → on_flits (deref p) (put_router w self h r) = Ok (f, put_router w self h r).
Proof. intros Hf. by rewrite (deref_run p _ f). Qed.
End put.

(** an update of one virtual channel that leaves its queue alone *)
Definition set_vc (i v : Z) (c' : VirtualChannel) (r : ENoCRouter) : ENoCRouter :=
  match _buf r !z i with
  | Some b => r.{_buf ::= vinsert i (b.{buf_vc ::= vinsert v c'})}
  | None => r
  end.

Lemma on_vc_set i v (m : M VirtualChannel unit) r c c' :
  vc_at r i v = Some c → m c = Ok (tt, c') → on_buf i (on_vc v m) r = Ok (tt, set_vc i v c' r).
Proof.
  unfold vc_at, set_vc. intros Hc Hm. destruct (_buf r !z i) as [b|] eqn:Hb; [|done]. simpl in Hc.
  unfold on_buf, zoom. rewrite (zoom_at_Some _ _ _ _ Hb). rewrite (on_vc_run _ _ _ _ _ _ Hc Hm).
  done.
Qed.

Lemma vc_at_set_vc i v c' r c j u :
  vc_at r i v = Some c →
  vc_at (set_vc i v c' r) j u = if decide (j = i ∧ u = v) then Some c' else vc_at r j u.
Proof.
  unfold vc_at, set_vc. intros Hc. destruct (_buf r !z i) as [b|] eqn:Hb; [|done]. simpl in Hc. simpl.
  destruct (decide (j = i)) as [->|Hj].
  - rewrite vlookup_vinsert_eq by (by eapply vlookup_Some_range). simpl.
    destruct (decide (u = v)) as [->|Hu].
    + rewrite decide_True by done. apply vlookup_vinsert_eq. by eapply vlookup_Some_range.
    + rewrite decide_False by tauto. rewrite vlookup_vinsert_ne by done. by rewrite Hb.
  - rewrite decide_False by tauto. by rewrite vlookup_vinsert_ne by done.
Qed.

Lemma set_vc_frame i v c' r :
  ∃ bufs, set_vc i v c' r = r.{_buf := bufs}.
Proof.
  unfold set_vc. destruct (_buf r !z i); [by eexists|]. exists (_buf r). by destruct r.
Qed.

Lemma queue_set_vc i v c c' r j u :
  vc_at r i v = Some c → _buffer c' = _buffer c → queue (set_vc i v c' r) j u = queue r j u.
Proof.
  intros Hc Hq. rewrite !queue_vc_at, (vc_at_set_vc _ _ _ _ _ _ _ Hc).
  case_decide as Hju; [|done]. destruct Hju as [-> ->]. by rewrite Hc.
Qed.

Lemma set_vc_set_vc i v c1 c2 c r :
  vc_at r i v = Some c → set_vc i v c2 (set_vc i v c1 r) = set_vc i v c2 r.
Proof.
  unfold vc_at, set_vc. intros Hc. destruct (_buf r !z i) as [b|] eqn:Hb; [|done]. simpl.
  rewrite vlookup_vinsert_eq by (by eapply vlookup_Some_range).
  simpl. by rewrite !vinsert_vinsert.
Qed.

Lemma set_vc_id i v c r : vc_at r i v = Some c → set_vc i v c r = r.
Proof.
  unfold vc_at, set_vc. intros Hc. destruct (_buf r !z i) as [b|] eqn:Hb; [|done]. simpl in Hc.
  assert (b.{buf_vc ::= vinsert v c} = b) as ->.
  { simpl. rewrite (vinsert_id _ _ _ Hc). by destruct b. }
  simpl. rewrite vinsert_id by done. by destruct r.
Qed.

(** an update of one virtual channel together with its queue and count *)
Definition set_vcq (i v : Z) (c' : VirtualChannel) (r : ENoCRouter) : ENoCRouter :=
  match _buf r !z i with
  | Some b => r.{_buf ::= vinsert i (b.{_occupancy ::= vinsert v (zlength (_buffer c'))}
                                       .{buf_vc ::= vinsert v c'})}
  | None => r
  end.

Lemma vc_at_set_vcq i v c' r c j u :
  vc_at r i v = Some c →
  vc_at (set_vcq i v c' r) j u = if decide (j = i ∧ u = v) then Some c' else vc_at r j u.
Proof.
  unfold vc_at, set_vcq. intros Hc. destruct (_buf r !z i) as [b|] eqn:Hb; [|done]. simpl in Hc. simpl.
  destruct (decide (j = i)) as [->|Hj].
  - rewrite vlookup_vinsert_eq by (by eapply vlookup_Some_range). simpl.
    destruct (decide (u = v)) as [->|Hu].
    + rewrite decide_True by done. apply vlookup_vinsert_eq. by eapply vlookup_Some_range.
    + rewrite decide_False by tauto. rewrite vlookup_vinsert_ne by done. by rewrite Hb.
  - rewrite decide_False by tauto. by rewrite vlookup_vinsert_ne by done.
Qed.

Lemma queue_set_vcq i v c c' r j u :
  vc_at r i v = Some c →
  queue (set_vcq i v c' r) j u = if decide (j = i ∧ u = v) then _buffer c' else queue r j u.
Proof.
  intros Hc. rewrite !queue_vc_at, (vc_at_set_vcq _ _ _ _ _ _ _ Hc). by case_decide.
Qed.

Lemma set_vcq_frame i v c' r : ∃ bufs, set_vcq i v c' r = r.{_buf := bufs}.
Proof.
  unfold set_vcq. destruct (_buf r !z i); [by eexists|]. exists (_buf r). by destruct r.
Qed.

Lemma set_vc_set_vcq i v c1 c2 c r :
  vc_at r i v = Some c → _buffer c2 = _buffer c1 →
  set_vc i v c2 (set_vcq i v c1 r) = set_vcq i v c2 r.
Proof.
  unfold vc_at, set_vc, set_vcq. intros Hc Hq. destruct (_buf r !z i) as [b|] eqn:Hb; [|done]. simpl.
  rewrite vlookup_vinsert_eq by (by eapply vlookup_Some_range). simpl.
  by rewrite !vinsert_vinsert, Hq.
Qed.

Lemma set_vc_stats i v c r s : set_vc i v c (r.{stats := s}) = (set_vc i v c r).{stats := s}.
Proof. unfold set_vc. simpl. by destruct (_buf r !z i). Qed.

Lemma set_vc_entries i v c r l :
  set_vc i v c (r.{_vc_alloc_vcs := l}) = (set_vc i v c r).{_vc_alloc_vcs := l}.
Proof. unfold set_vc. simpl. by destruct (_buf r !z i). Qed.

Section safe.
Context `{Topology} (hlen : nat).

Lemma vc_at_range n r i v c :
  router_base hlen n r → vc_at r i v = Some c → 0 ≤ i < 5 ∧ 0 ≤ v < DEFAULT_NUM_VCS.
Proof.
  unfold vc_at. intros Hb Hc. destruct (_buf r !z i) as [b|] eqn:Hbi; [|done]. simpl in Hc.
  split.
  - rewrite <-(rb_buf _ _ _ Hb). by eapply vlookup_Some_range.
  - destruct (rb_bufs _ _ _ Hb _ _ Hbi) as [Hwf _]. rewrite <-(bw_vcs _ Hwf).
    by eapply vlookup_Some_range.
Qed.

Lemma vc_at_exists n r i v :
  router_base hlen n r → 0 ≤ i < 5 → 0 ≤ v < DEFAULT_NUM_VCS →
  ∃ c, vc_at r i v = Some c ∧ out_ok c ∧ occupancy c = zlength (_buffer c).
Proof.
  intros Hb Hi Hv. destruct (vlookup_in_range (_buf r) i) as [b Hbi]; [by rewrite (rb_buf _ _ _ Hb)|].
  destruct (rb_bufs _ _ _ Hb _ _ Hbi) as [Hwf Hok].
  destruct (buffer_wf_lookup b v Hwf Hv) as (c & Hc & Hocc & _).
  exists c. unfold vc_at. rewrite Hbi. simpl. split_and!; [done|by eapply Hok|done].
Qed.

Lemma set_vc_base n i v c c' r :
  router_base hlen n r → vc_at r i v = Some c → _buffer c' = _buffer c → occupancy c' = occupancy c →
  out_ok c' → router_base hlen n (set_vc i v c' r).
Proof.
  unfold vc_at, set_vc. intros Hb Hc Hq Ho Hok. destruct (_buf r !z i) as [b|] eqn:Hbi; [|done].
  simpl in Hc. destruct (rb_bufs _ _ _ Hb _ _ Hbi) as [Hwf Hoks].
  split; simpl; try apply Hb.
  - rewrite zlength_vinsert. apply Hb.
  - intros j b' Hb'. vinsert_cases Hb'; [|by eapply Hb]. split.
    + by apply (buffer_wf_same_queue b v c).
    + intros u d Hd. simpl in Hd. vinsert_cases Hd; [done|by eapply Hoks].
Qed.

Lemma buf_ok_at n r i v c :
  router_base hlen n r → vc_at r i v = Some c →
  ∃ b, _buf r !z i = Some b ∧ buf_vc b !z v = Some c ∧ buf_ok b.
Proof.
  unfold vc_at. intros Hb Hc. destruct (_buf r !z i) as [b|] eqn:Hbi; [|done]. simpl in Hc.
  exists b. by pose proof (rb_bufs _ _ _ Hb i b Hbi).
Qed.

Lemma set_vcq_base n i v c c' r :
  router_base hlen n r → vc_at r i v = Some c → occupancy c' = zlength (_buffer c') → out_ok c' →
  router_base hlen n (set_vcq i v c' r).
Proof.
  intros Hb Hc Hocc Hok. destruct (buf_ok_at _ _ _ _ _ Hb Hc) as (b & Hbi & Hbc & Hwf & Hoks).
  unfold set_vcq. rewrite Hbi. split; simpl; try apply Hb.
  - rewrite zlength_vinsert. apply Hb.
  - intros j b' Hb'. vinsert_cases Hb'; [|by eapply Hb]. split.
    + by apply (buffer_wf_update b v c).
    + intros u d Hd. simpl in Hd. vinsert_cases Hd; [done|by eapply Hoks].
Qed.

Lemma remove_run n i v c p q r :
  router_base hlen n r → vc_at r i v = Some c → _buffer c = p :: q →
  on_buf i (Buffer_RemoveFlit v) r =
    Ok (Some p, set_vcq i v (c.{_buffer := q}.{occupancy ::= λ n, n - 1}) r).
Proof.
  intros Hb Hc Hq. destruct (buf_ok_at _ _ _ _ _ Hb Hc) as (b & Hbi & Hbc & Hwf & _).
  destruct (RemoveFlit_run b v c p q Hwf Hbc Hq) as [Hrun _].
  unfold on_buf, zoom, set_vcq. rewrite (zoom_at_Some _ _ _ _ Hbi), Hrun, Hbi. done.
Qed.

Lemma add_run n i v c p r :
  router_base hlen n r → vc_at r i v = Some c →
  on_buf i (Buffer_AddFlit_queue v p) r =
    Ok (tt, set_vcq i v (c.{_buffer ::= λ q, q ++ [p] }.{occupancy ::= λ n, n + 1}) r).
Proof.
  intros Hb Hc. destruct (buf_ok_at _ _ _ _ _ Hb Hc) as (b & Hbi & Hbc & Hwf & _).
  destruct (AddFlit_run b v c p Hwf Hbc) as [Hrun _].
  unfold on_buf, zoom, set_vcq. rewrite (zoom_at_Some _ _ _ _ Hbi), Hrun, Hbi. done.
Qed.

(** ** What one router may do to the rest of the world *)

(** From [w] to [w'], router [self] became [r'], the other routers were
    touched, the flits only gained energy, and nothing else changed. *)
Record step_rel (self : Z) (w : World) (r' : ENoCRouter) (w' : World) : Prop := {
  sr_heap : heap_sim (flits w) (flits w');
  sr_hlen : length (flits w') = length (flits w);
  sr_chans : channels w' = channels w;
  sr_len : zlength (routers w') = zlength (routers w);
  sr_self : routers w' !z self = Some r';
  sr_others : ∀ n r, n ≠ self → routers w !z n = Some r →
    ∃ r', routers w' !z n = Some r' ∧ router_touch r r';
}.

Lemma step_refl self w r : routers w !z self = Some r → step_rel self w r w.
Proof. intros Hr. split; try done. intros n r1 _ Hr1. by exists r1. Qed.

Lemma step_trans self w r1 w1 r2 w2 :
  step_rel self w r1 w1 → step_rel self w1 r2 w2 → step_rel self w r2 w2.
Proof.
  intros H1 H2. split.
  - etrans; [apply H1|apply H2].
  - etrans; [apply H2|apply H1].
  - etrans; [apply H2|apply H1].
  - etrans; [apply H2|apply H1].
  - apply H2.
  - intros n r Hn Hr. destruct (sr_others _ _ _ _ H1 n r Hn Hr) as (r' & Hr' & Ht).
    destruct (sr_others _ _ _ _ H2 n r' Hn Hr') as (r'' & Hr'' & Ht').
    exists r''. split; [done|by etrans].
Qed.

(** a step of the router itself *)
Lemma step_self self w r r' :
  routers w !z self = Some r →
  step_rel self w r' (w.{routers := vinsert self r' (routers w)}).
Proof.
  intros Hr. split; simpl; try done.
  - apply zlength_vinsert.
  - apply vlookup_vinsert_eq. by eapply vlookup_Some_range.
  - intros n r1 Hn Hr1. exists r1. by rewrite vlookup_vinsert_ne by done.
Qed.

(** energy added to a flit *)
Lemma step_flit self w r p f f' :
  routers w !z self = Some r → flits w !! p = Some f → flit_sim f f' →
  step_rel self w r (w.{flits := <[p := f']> (flits w)}).
Proof.
  intros Hr Hf Hs. split; simpl; try done.
  - by apply (heap_rel_insert flit_sim _ _ f).
  - by rewrite length_insert.
  - intros n r1 _ Hr1. by exists r1.
Qed.

(** a neighbour touched *)
Lemma step_other self w r m rm rm' :
  routers w !z self = Some r → m ≠ self → routers w !z m = Some rm → router_touch rm rm' →
  step_rel self w r (w.{routers := vinsert m rm' (routers w)}).
Proof.
  intros Hr Hm Hrm Ht. split; simpl; try done.
  - apply zlength_vinsert.
  - by rewrite vlookup_vinsert_ne.
  - intros n r1 Hn Hr1. destruct (decide (m = n)) as [->|Hne].
    + exists rm'. rewrite vlookup_vinsert_eq by (by eapply vlookup_Some_range).
      split; [done|]. by simplify_eq.
    + exists r1. by rewrite vlookup_vinsert_ne by done.
Qed.

Lemma set_vc_touch i v c s r :
  vc_at r i v = Some c → quiet (_state c) → quiet s →
  router_touch r (set_vc i v (c.{_state := s}) r).
Proof.
  unfold vc_at, set_vc. intros Hc Hq Hs. destruct (_buf r !z i) as [b|] eqn:Hb; [|done]. simpl in Hc.
  eexists. split; [done|]. apply (Forall2_vinsert_l _ _ _ b); [done|].
  eexists. split; [done|]. apply (Forall2_vinsert_l _ _ _ c); [done|]. right. eauto.
Qed.

Lemma mid_slot_step self w r r' w' l :
  routers w !z self = Some r → step_rel self w r' w' → (∀ p, rslot r' p = rslot r p) →
  mid_slot w' l = mid_slot w l.
Proof.
  intros Hr Hs Hsame. destruct l as [c|c|n p]; simpl; [by rewrite (sr_chans _ _ _ _ Hs)|done|].
  destruct (decide (n = self)) as [->|Hn].
  - by rewrite (sr_self _ _ _ _ Hs), Hr.
  - destruct (routers w !z n) as [rn|] eqn:Hrn.
    + destruct (sr_others _ _ _ _ Hs n rn Hn Hrn) as (rn' & -> & Ht). by apply touch_rslot.
    + rewrite vlookup_None; [done|]. rewrite (sr_len _ _ _ _ Hs).
      intros Hlt. apply vlookup_is_Some in Hlt as [? ?]. congruence.
Qed.

(** ** The context of a step *)

(** the channels, which no router writes while it is clocked *)
Context (cs : list FlitChannel).
Definition chan_static (c : Z) (fc : FlitChannel) : Prop :=
  _routerSink fc = sink_of c ∧ _delay (base_channel fc) = 1.

Record others_ok (self : Z) (w : World) : Prop := {
  oo_len : zlength (routers w) = n_nodes;
  oo_clen : zlength (channels w) = n_chans;
  oo_chans : channels w = cs;
  oo_static : ∀ c fc, cs !z c = Some fc → chan_static c fc;
  oo_hlen : length (flits w) = hlen;
  oo_routers : ∀ n r, n ≠ self → routers w !z n = Some r → router_ok hlen n r;
  (** the routers before this one have been clocked in this cycle *)
  oo_clocked : ∀ n r, n < self → routers w !z n = Some r → _in_queue_flits r = [];
}.

Lemma step_lookup self w r' w' n r1 :
  step_rel self w r' w' → n ≠ self → routers w' !z n = Some r1 →
  ∃ r, routers w !z n = Some r ∧ router_touch r r1.
Proof.
  intros Hs Hn Hr1. destruct (vlookup_in_range (routers w) n) as [r0 Hr0].
  { rewrite <-(sr_len _ _ _ _ Hs). by eapply vlookup_Some_range. }
  destruct (sr_others _ _ _ _ Hs n r0 Hn Hr0) as (r2 & Hr2 & Ht). simplify_eq. by exists r0.
Qed.

Lemma others_step self w r' w' : others_ok self w → step_rel self w r' w' → others_ok self w'.
Proof.
  intros [] Hs. split.
  - by rewrite (sr_len _ _ _ _ Hs).
  - by rewrite (sr_chans _ _ _ _ Hs).
  - by rewrite (sr_chans _ _ _ _ Hs).
  - done.
  - by rewrite (sr_hlen _ _ _ _ Hs).
  - intros n r1 Hn Hr1. destruct (step_lookup _ _ _ _ _ _ Hs Hn Hr1) as (r0 & Hr0 & Ht).
    eapply touch_ok; [done|]. eauto.
  - intros n r1 Hn Hr1. destruct (step_lookup self w r' w' n r1 Hs) as (r0 & Hr0 & bufs & -> & _);
      [lia|done|]. simpl. eauto.
Qed.

(** ... and when only the heap and the router itself are replaced *)
Lemma others_put self w r h r' :
  others_ok self w → routers w !z self = Some r → length h = length (flits w) →
  others_ok self (put_router w self h r').
Proof.
  intros [] Hr Hh. split; simpl; try done.
  - by rewrite zlength_vinsert.
  - by rewrite Hh.
  - intros n r1 Hn Hr1. rewrite vlookup_vinsert_ne in Hr1 by done. eauto.
  - intros n r1 Hn Hr1. rewrite vlookup_vinsert_ne in Hr1 by lia. eauto.
Qed.

(** the router behind output port [p] *)
Definition nb (self p : Z) : option Z := c ← out_chans self !z p; sink_of c.

Lemma neighbour_run self w r p :
  others_ok self w → 0 ≤ self < n_nodes → routers w !z self = Some r →
  _output_channels r = out_chans self → 0 ≤ p < 4 →
  ∃ m, nb self p = Some m ∧ m ≠ self ∧ 0 ≤ m < n_nodes ∧ neighbour self p w = Ok (Some m, w).
Proof.
  intros Ho Hself Hr Hout Hp. destruct (out_chans_ok self Hself) as [Hlen Hrange].
  destruct (vlookup_in_range (out_chans self) p) as [c Hc]; [lia|].
  destruct (out_sink self p c Hself Hp Hc) as (m & Hm & Hmr & Hne).
  exists m. unfold nb. rewrite Hc. simpl. split_and!; [done|done|lia|lia|].
  pose proof (Forall_vlookup _ _ _ _ Hrange Hc) as Hcr. simpl in Hcr.
  destruct (vlookup_in_range (channels w) c) as [fc Hfc]; [by rewrite (oo_clen _ _ Ho)|].
  unfold neighbour. eapply bind_Ok.
  - eapply on_router_read; [done|]. unfold mbind, M_bind, gets, lift.
    by rewrite Hout, (vget_Some _ _ _ Hc).
  - eapply on_channel_read; [done|]. unfold gets, GetSink.
    rewrite (oo_chans _ _ Ho) in Hfc. destruct (oo_static _ _ Ho _ _ Hfc) as [-> _].
    by rewrite Hm.
Qed.

Lemma opposite_port_range p : 0 ≤ opposite_port p < 5.
Proof. unfold opposite_port. repeat case_decide; lia. Qed.

Lemma others_lookup self w m :
  others_ok self w → m ≠ self → 0 ≤ m < n_nodes →
  ∃ rm, routers w !z m = Some rm ∧ router_ok hlen m rm.
Proof.
  intros Ho Hne Hm. destruct (vlookup_in_range (routers w) m) as [rm Hrm].
  { by rewrite (oo_len _ _ Ho). }
  exists rm. split; [done|]. by eapply oo_routers.
Qed.

(** a virtual channel of another router that is idle or reserved *)
Definition quiet_at (w : World) (m i v : Z) : Prop :=
  ∃ r c, routers w !z m = Some r ∧ vc_at r i v = Some c ∧ quiet (_state c).

Lemma quiet_step self w r' w' m i v :
  step_rel self w r' w' → m ≠ self → quiet_at w m i v → quiet_at w' m i v.
Proof.
  intros Hs Hm (r & c & Hr & Hc & Hq). destruct (sr_others _ _ _ _ Hs m r Hm Hr) as (r1 & Hr1 & Ht).
  destruct (touch_vc_at _ _ _ _ _ Ht Hc) as (c' & Hc' & Htc).
  exists r1, c'. split_and!; [done|done|].
  destruct (vc_touch_same _ _ Htc) as (_ & _ & [->|[_ ?]] & _); done.
Qed.

(** setting the state of a quiet VC of a neighbour *)
Lemma set_state_other_run self w r m rm i v c s :
  routers w !z self = Some r → m ≠ self → routers w !z m = Some rm → vc_at rm i v = Some c →
  quiet (_state c) → quiet s →
  ∃ w', on_router m (on_buf i (Buffer_SetState v s)) w = Ok (tt, w') ∧ step_rel self w r w' ∧
    quiet_at w' m i v.
Proof.
  intros Hr Hm Hrm Hc Hq Hs. eexists. split_and!.
  - eapply on_router_run; [done|]. by eapply (on_vc_set i v).
  - apply (step_other self w r m rm); [done|done|done|]. by apply set_vc_touch.
  - exists (set_vc i v (c.{_state := s}) rm), (c.{_state := s}). simpl. split_and!; [|  |done].
    + apply vlookup_vinsert_eq. by eapply vlookup_Some_range.
    + rewrite (vc_at_set_vc _ _ _ _ _ _ _ Hc). by rewrite decide_True.
Qed.

Lemma find_idle_run self w r m i dst l :
  others_ok self w → routers w !z self = Some r → m ≠ self → 0 ≤ m < n_nodes → 0 ≤ i < 5 →
  Forall (λ v, 0 ≤ v < DEFAULT_NUM_VCS) l →
  ∃ v w', find_idle m i dst l w = Ok (v, w') ∧ step_rel self w r w' ∧
    (v = -1 ∨ (0 ≤ v < DEFAULT_NUM_VCS ∧ quiet_at w' m i v)).
Proof.
  intros Ho Hr Hne Hm Hi Hl. destruct (others_lookup self w m Ho Hne Hm) as (rm & Hrm & Hok).
  induction Hl as [|v l Hv Hl IH]; simpl.
  { exists (-1), w. split_and!; [done|by apply step_refl|by left]. }
  destruct (vc_at_exists m rm i v (ro_base _ _ _ Hok) Hi Hv) as (c & Hc & _).
  setoid_rewrite (bind_Ok _ _ _ _ _ _ (on_router_read _ _ _ _ _ Hrm (ask_vc_run i v _ _ _ Hc)) eq_refl).
  unfold VC_GetState. destruct (decide (_state c = idle)) as [Hidle|]; [|exact IH].
  setoid_rewrite (bind_Ok _ _ _ _ _ _ (on_router_read m (gets GetID) _ _ _ Hrm eq_refl) eq_refl).
  unfold when. case_bool_decide.
  - destruct (set_state_other_run self w r m rm i v c routing) as (w' & Hrun & Hs & Hq);
      [done|done|done|done|by left|by right|].
    exists v, w'. split_and!; [|done|by right]. by eapply bind_Ok; [exact Hrun|].
  - exists v, w. split_and!; [done|by apply step_refl|]. right. split; [done|].
    exists rm, c. split_and!; [done|done|by left].
Qed.

Lemma FindIdleVC_run self w r p dst :
  others_ok self w → 0 ≤ self < n_nodes → routers w !z self = Some r → router_base hlen self r →
  0 ≤ p < 4 →
  ∃ m v w', nb self p = Some m ∧ m ≠ self ∧ FindIdleVC self p dst w = Ok (v, w') ∧
    step_rel self w r w' ∧
    (v = -1 ∨ (0 ≤ v < DEFAULT_NUM_VCS ∧ quiet_at w' m (opposite_port p) v)).
Proof.
  intros Ho Hself Hr Hb Hp.
  destruct (neighbour_run self w r p Ho Hself Hr (rb_out _ _ _ Hb) Hp) as (m & Hm & Hne & Hmr & Hrun).
  destruct (find_idle_run self w r m (opposite_port p) dst (seqZ 0 (_vcs r))) as (v & w' & Hf & Hs & Hv);
    try done.
  - apply opposite_port_range.
  - apply Forall_forall. intros v Hv%elem_of_seqZ. rewrite (rb_vcs _ _ _ Hb) in Hv. lia.
  - exists m, v, w'. split_and!; try done. unfold FindIdleVC.
    eapply bind_Ok; [exact Hrun|]. eapply bind_Ok; [by eapply on_router_read|].
    by eapply bind_Ok; [|exact Hf].
Qed.

Lemma SetIdleVC_run self w r p m v :
  others_ok self w → 0 ≤ self < n_nodes → routers w !z self = Some r → router_base hlen self r →
  0 ≤ p < 4 → nb self p = Some m → m ≠ self → quiet_at w m (opposite_port p) v →
  ∃ w', SetIdleVC self p v w = Ok (tt, w') ∧ step_rel self w r w'.
Proof.
  intros Ho Hself Hr Hb Hp Hm Hne (rm & c & Hrm & Hc & Hq).
  destruct (neighbour_run self w r p Ho Hself Hr (rb_out _ _ _ Hb) Hp) as (m' & Hm' & _ & _ & Hrun).
  simplify_eq.
  destruct (set_state_other_run self w r m rm (opposite_port p) v c idle) as (w' & Hrun' & Hs & _);
    try done; [by left|].
  exists w'. split; [|done]. unfold SetIdleVC. eapply bind_Ok; [exact Hrun|].
  by eapply bind_Ok.
Qed.

Lemma FindFreeSpace_run self w r p v :
  others_ok self w → 0 ≤ self < n_nodes → routers w !z self = Some r → router_base hlen self r →
  0 ≤ p < 4 → 0 ≤ v < DEFAULT_NUM_VCS →
  ∃ free, FindFreeSpace self p v w = Ok (free, w).
Proof.
  intros Ho Hself Hr Hb Hp Hv.
  destruct (neighbour_run self w r p Ho Hself Hr (rb_out _ _ _ Hb) Hp) as (m & Hm & Hne & Hmr & Hrun).
  destruct (others_lookup self w m Ho Hne Hmr) as (rm & Hrm & Hok).
  destruct (vc_at_exists m rm (opposite_port p) v (ro_base _ _ _ Hok)) as (c & Hc & _);
    [apply opposite_port_range|done|].
  eexists. unfold FindFreeSpace. eapply bind_Ok; [exact Hrun|]. eapply bind_Ok; [done|].
  eapply bind_Ok; [|done]. eapply on_router_read; [done|]. by eapply ask_vc_run.
Qed.
End safe.
