(* ===== verification/RouterVC.v ===== *)
(** * Virtual-channel allocation is safe

    [_VCAllocEvaluate] from a state whose waiting entries are ready: it
    returns, the assertion on the matched output holds, every entry that
    remains is ready, and no flit moves. *)

From S2P Require Import Prelude Double NoCMain Config Element Stats Channel.
From S2P Require Import VirtualChannel Allocator FlitCoding Router RouterInv RouterSafe.

Section vc.
Context `{Topology} (hlen : nat) (cs : list FlitChannel) (self : Z) (w0 : World) (r0 : ENoCRouter).
Hypothesis Hself : 0 ≤ self < n_nodes.
Hypothesis Hr0 : routers w0 !z self = Some r0.
Hypothesis Hb0 : router_base hlen self r0.
Hypothesis Ho0 : others_ok hlen cs self w0.
Hypothesis Hfront : ∀ i v p q, queue r0 i v = p :: q →
  ∃ f, flits w0 !! p = Some f ∧ 0 ≤ output_port f < 4.

Definition front_of (e : vc_entry) (p : flit_ptr) (f : Flit) : Prop :=
  ∃ q, queue r0 (e_input e) (e_vc e) = p :: q ∧ flits w0 !! p = Some f.

(** the row of the VC allocator that belongs to an entry *)
Definition row_of (e : vc_entry) : Z := e_input e * DEFAULT_NUM_VCS + e_vc e.

Lemma row_of_inj e e' : entry_ok e → entry_ok e' → row_of e = row_of e' →
  e_input e = e_input e' ∧ e_vc e = e_vc e'.
Proof. unfold row_of, entry_ok, DEFAULT_NUM_VCS. lia. Qed.

(** every request is for the output port of the front flit *)
Definition reqs_ok (a : iSLIP_Sparse) : Prop := ∀ row o, in_has a row o →
  ∃ e p f v, entry_ok e ∧ row = row_of e ∧ front_of e p f ∧
    0 ≤ v < DEFAULT_NUM_VCS ∧ o = output_port f * DEFAULT_NUM_VCS + v.

Definition with_vca (a : iSLIP_Sparse) : ENoCRouter := r0.{_vc_allocator := a}.

Record requesting (w : World) (a : iSLIP_Sparse) : Prop := {
  rq_step : step_rel self w0 (with_vca a) w;
  rq_wf : alloc_wf a;
  rq_matching : matching a;
  rq_dims : dims a = (40, 40, 1);
  rq_free : Forall (eq (-1)) (_inmatch a);
  rq_reqs : reqs_ok a;
}.

(** the VC an entry found is quiet at the neighbour *)
Definition first_ok (w : World) (e : vc_entry) : Prop :=
  e_first e = -1 ∨
  ∃ p f m, front_of e p f ∧ nb self (output_port f) = Some m ∧ m ≠ self ∧
    quiet_at w m (opposite_port (output_port f)) (e_first e).

Lemma first_ok_step w r w' e : step_rel self w r w' → first_ok w e → first_ok w' e.
Proof.
  intros Hs [?|(p & f & m & Hf & Hm & Hne & Hq)]; [by left|right].
  exists p, f, m. split_and!; [done..|]. by eapply quiet_step.
Qed.

Lemma base_with_vca a : alloc_wf a → dims a = (40, 40, 1) → router_base hlen self (with_vca a).
Proof. intros. destruct Hb0. by split. Qed.

Lemma ready_front e : vc_ready r0 e → ∃ c p f, vc_at r0 (e_input e) (e_vc e) = Some c ∧
  head (_buffer c) = Some p ∧ front_of e p f ∧ 0 ≤ output_port f < 4.
Proof.
  intros (_ & c & Hc & _ & Hne). destruct (_buffer c) as [|p q] eqn:Hq; [done|].
  assert (queue r0 (e_input e) (e_vc e) = p :: q) as Hqu by (by rewrite queue_vc_at, Hc).
  destruct (Hfront _ _ _ _ Hqu) as (f & Hf & ?).
  exists c, p, f. split_and!; [done|by rewrite Hq|by exists q|lia|lia].
Qed.

Lemma dims_40 a : dims a = (40, 40, 1) → al_inputs a = 40 ∧ al_outputs a = 40 ∧ _iSLIP_iter a = 1.
Proof. unfold dims. intros [= -> -> ->]. done. Qed.

Lemma row_range e : entry_ok e → 0 ≤ row_of e < 40.
Proof. unfold entry_ok, row_of, DEFAULT_NUM_VCS. lia. Qed.

Lemma vc_request_run sz e w a :
  requesting w a → vc_ready r0 e →
  ∃ v w' a' r', vc_request self sz e w = Ok (e.{e_first := v}, w') ∧ requesting w' a' ∧
    first_ok w' (e.{e_first := v}) ∧ step_rel self w r' w'.
Proof.
  intros [Hst Hwf Hmt Hd Hfree Hreq] He. pose proof He as [Heok _].
  destruct (ready_front e He) as (c & p & f & Hc & Hhd & Hfr & Hp).
  pose proof Hfr as (q & Hq & Hf).
  destruct (sr_heap _ _ _ _ Hst p f Hf) as (f1 & Hf1 & (_ & _ & Hport)).
  pose proof (sr_self _ _ _ _ Hst) as Hrs.
  pose proof (base_with_vca a Hwf Hd) as Hba.
  pose proof (others_step hlen cs self w0 _ w Ho0 Hst) as Ho.
  destruct (FindIdleVC_run hlen cs self w (with_vca a) (output_port f1) (dst_id f1)) as
    (m & v & w1 & Hm & Hne & Hrun & Hs1 & Hv); [done..|lia|].
  assert (Hrun1 : ∀ X, (vcs ← on_router self (gets _vcs);
     when (bool_decide (v ≠ -1))
       (on_router self (on_vc_allocator
          (AddRequest (e_input e * vcs + e_vc e) (output_port f1 * vcs + v) 0 0 0)) ;;
        en ← on_router self (gets (λ r, dynamic_energy (_vca r)));
        on_flits (update p (Update_VCA_dyn_energy (en / d_of_Z sz)%D))) ;;
     mret e.{e_first := v}) w1 = X → vc_request self sz e w = X).
  { intros X HX. unfold vc_request.
    eapply bind_Ok; [eapply on_router_read; [done|]; by eapply ask_vc_run|].
    eapply bind_Ok; [unfold VC_FrontFlit; by rewrite Hhd|].
    eapply bind_Ok; [by apply deref_run|]. by eapply bind_Ok. }
  pose proof (sr_self _ _ _ _ Hs1) as Hrs1.
  destruct (decide (v = -1)) as [->|Hv1].
  { exists (-1), w1, a, (with_vca a). split_and!; [| |by left|done].
    - apply Hrun1. by eapply bind_Ok; [by eapply on_router_read|].
    - split; try done. by eapply step_trans. }
  destruct Hv as [?|[Hvr Hqa]]; [done|].
  destruct (dims_40 a Hd) as (Hi40 & Ho40 & _).
  set (row := row_of e). set (o := output_port f1 * DEFAULT_NUM_VCS + v).
  assert (0 ≤ row < al_inputs a) as Hrow by (rewrite Hi40; by apply row_range).
  assert (0 ≤ o < al_outputs a) as Horange by (unfold o, DEFAULT_NUM_VCS in *; lia).
  set (a' := added row o 0 0 0 a).
  set (w2 := w1.{routers := vinsert self (with_vca a') (routers w1)}).
  pose proof (step_self self w1 _ (with_vca a') Hrs1) as Hs2. fold w2 in Hs2.
  pose proof (step_trans _ _ _ _ _ _ Hst (step_trans _ _ _ _ _ _ Hs1 Hs2)) as Hs02.
  destruct (sr_heap _ _ _ _ Hs02 p f Hf) as (f2 & Hf2 & _).
  set (g := Update_VCA_dyn_energy (dynamic_energy (_vca (with_vca a')) / d_of_Z sz)%D).
  assert (step_rel self w2 (with_vca a') (w2.{flits := <[p := g f2]> (flits w2)})) as Hs3.
  { by apply (step_flit self w2 _ p f2); [apply Hs2| |]. }
  exists v, (w2.{flits := <[p := g f2]> (flits w2)}), a', (with_vca a'). split_and!.
  - apply Hrun1. eapply bind_Ok; [by eapply on_router_read|].
    eapply bind_Ok; [|done]. unfold when. rewrite bool_decide_true by done.
    eapply bind_Ok; [eapply on_router_run; [done|]|].
    { change (_vcs (with_vca a)) with (_vcs r0). rewrite (rb_vcs _ _ _ Hb0).
      unfold on_vc_allocator, zoom. simpl. fold row o.
      change (AddRequest (e_input e * DEFAULT_NUM_VCS + e_vc e) o 0 0 0 a) with (AddRequest row o 0 0 0 a).
      rewrite AddRequest_run by done. done. }
    change (w1.{routers := _ }) with w2.
    eapply bind_Ok; [eapply on_router_read; [apply Hs2|done]|]. by apply update_run.
  - split; try done.
    + by eapply step_trans.
    + by apply added_wf.
    + intros row' o'. unfold a'. rewrite added_in by done. intros [[-> ->]|Hin]; [|by apply Hreq].
      exists e, p, f, v. split; [done|]. split; [done|]. split; [done|]. split; [lia|]. unfold o. by rewrite Hport.
  - right. exists p, f, m. split; [done|]. rewrite <-Hport. split; [done|]. split; [done|].
    eapply quiet_step; [exact Hs3|done|]. eapply quiet_step; [exact Hs2|done|exact Hqa].
  - by eapply step_trans; [|eapply step_trans].
Qed.

Lemma vc_requests_run sz es w a :
  requesting w a → Forall (vc_ready r0) es →
  ∃ es' w' a', map_M (vc_request self sz) es w = Ok (es', w') ∧ requesting w' a' ∧
    Forall (first_ok w') es' ∧ Forall (vc_ready r0) es' ∧ ∃ r, step_rel self w r w'.
Proof.
  intros Hw Hes. revert w a Hw. induction Hes as [|e es He Hes IH]; intros w a Hw; simpl.
  { exists [], w, a. split_and!; [done|done|done|done|].
    eexists. apply step_refl. apply Hw. }
  destruct (vc_request_run sz e w a Hw He) as (v & w1 & a1 & r1 & Hrun & Hw1 & Hf1 & Hs1).
  destruct (IH w1 a1 Hw1) as (es' & w' & a' & Hrun' & Hw' & Hf' & Hr' & r' & Hs').
  exists (e.{e_first := v} :: es'), w', a'. split_and!.
  - eapply bind_Ok; [exact Hrun|]. by eapply bind_Ok; [exact Hrun'|].
  - done.
  - constructor; [|done]. by eapply first_ok_step.
  - by constructor.
  - exists r'. by eapply step_trans.
Qed.

(** ** Granting *)

(** the router while the second loop runs *)
Definition granting_router (bufs : list Buffer) (s : iSLIP_Sparse) (l tmp : list vc_entry) : ENoCRouter :=
  r0.{_buf := bufs}.{_vc_allocator := s}.{_vc_alloc_vcs := l}.{_vc_alloc_vcs_tmp := tmp}.

(** every match is a request for the front flit's output port *)
Definition grants_ok (s : iSLIP_Sparse) : Prop := ∀ row o, _inmatch s !z row = Some o →
  o = -1 ∨ ∃ e p f v, entry_ok e ∧ row = row_of e ∧ front_of e p f ∧
    0 ≤ v < DEFAULT_NUM_VCS ∧ o = output_port f * DEFAULT_NUM_VCS + v.

Definition denied (s : iSLIP_Sparse) (e : vc_entry) : Prop := _inmatch s !z row_of e = Some (-1).

Record granting (s : iSLIP_Sparse) (w : World) (bufs : list Buffer) (tmp : list vc_entry) : Prop := {
  gr_step : step_rel self w0 (granting_router bufs s [] tmp) w;
  gr_base : router_base hlen self (granting_router bufs s [] tmp);
  gr_queue : ∀ i v, queue (granting_router bufs s [] tmp) i v = queue r0 i v;
  gr_ready : Forall (vc_ready (granting_router bufs s [] tmp)) tmp;
  gr_denied : Forall (denied s) tmp;
}.

Lemma vc_ready_ext r r' e : (∀ i v, vc_at r' i v = vc_at r i v) → vc_ready r e → vc_ready r' e.
Proof. intros He (? & c & Hc & ?). split; [done|]. exists c. by rewrite He. Qed.

Lemma base_tmp r n tmp :
  router_base hlen n r → router_base hlen n (r.{_vc_alloc_vcs_tmp := tmp}).
Proof. intros []. by split. Qed.

Section grant.
Context (s : iSLIP_Sparse).
Hypothesis Hs : alloc_wf s.
Hypothesis Hds : dims s = (40, 40, 1).
Hypothesis Hg : grants_ok s.

Lemma assigned_lookup e : entry_ok e → ∃ o, _inmatch s !z row_of e = Some o.
Proof.
  intros He. apply vlookup_in_range. rewrite (aw_inmatch _ Hs).
  destruct (dims_40 s Hds) as (-> & _ & _). by apply row_range.
Qed.

(** the VC of an entry that was assigned an output becomes active *)
Lemma grant_active w bufs tmp e c o p f :
  granting s w bufs tmp → entry_ok e → _inmatch s !z row_of e = Some o → o >= 0 →
  vc_at (granting_router bufs s [] tmp) (e_input e) (e_vc e) = Some c → front_of e p f →
  let r := granting_router bufs s [] tmp in
  let c' := c.{_state := active}.{_out_port := Z.quot o DEFAULT_NUM_VCS}
             .{_out_vc := Z.rem o DEFAULT_NUM_VCS} in
  Z.quot o DEFAULT_NUM_VCS = output_port f ∧
  ∃ bufs', set_vc (e_input e) (e_vc e) c' r = granting_router bufs' s [] tmp ∧
    granting s (w.{routers := vinsert self (granting_router bufs' s [] tmp) (routers w)}) bufs' tmp.
Proof.
  intros [Hst Hb Hq Hrd Hdn] He Hrow Hpos Hc Hfr r c'.
  assert (Z.quot o DEFAULT_NUM_VCS = output_port f ∧ 0 ≤ Z.rem o DEFAULT_NUM_VCS < DEFAULT_NUM_VCS)
    as [Hport Hvc].
  { destruct (Hg _ _ Hrow) as [?|(e1 & p1 & f1 & v1 & He1 & Hr1 & Hf1 & Hv1 & Ho)]; [lia|].
    destruct (row_of_inj e e1 He He1 Hr1) as [Hi Hv]. destruct Hfr as (q & Hq1 & Hf).
    destruct Hf1 as (q1 & Hq2 & Hf2). rewrite <-Hi, <-Hv, Hq1 in Hq2. simplify_eq.
    destruct (Hfront _ _ _ _ Hq1) as (f' & Hf' & Hp). simplify_eq.
    unfold DEFAULT_NUM_VCS in *.
    rewrite Z.quot_div_nonneg, Z.rem_mod_nonneg by lia.
    rewrite Z.add_comm, Z.div_add, Z.mod_add by lia.
    rewrite Z.div_small, Z.mod_small by lia. lia. }
  split; [done|].
  assert (Hport4 : 0 ≤ output_port f < 4).
  { destruct Hfr as (q & Hq1 & Hf). destruct (Hfront _ _ _ _ Hq1) as (f' & Hf' & Hp).
    by simplify_eq. }
  destruct (set_vc_frame (e_input e) (e_vc e) c' r) as [bufs' Hr']. exists bufs'. split; [done|].
  assert (set_vc (e_input e) (e_vc e) c' r = granting_router bufs' s [] tmp) as Heq by (by rewrite Hr').
  split.
  - eapply step_trans; [exact Hst|]. apply step_self with (r := r). apply Hst.
  - rewrite <-Heq. apply (set_vc_base hlen self _ _ c); try done. intros _. simpl. by rewrite Hport.
  - intros i v. rewrite <-Heq. rewrite (queue_set_vc _ _ c); [apply Hq|done|done].
  - rewrite <-Heq. rewrite Forall_forall in *. intros e1 He1. specialize (Hrd e1 He1).
    specialize (Hdn e1 He1). destruct Hrd as (Hok1 & c1 & Hc1 & Hst1 & Hne1).
    split; [done|]. exists c1. rewrite (vc_at_set_vc _ _ _ _ _ _ _ Hc).
    rewrite decide_False; [done|]. intros [H1 H2].
    unfold denied, row_of in *. rewrite H1, H2 in Hdn. rewrite Hdn in Hrow. simplify_eq.
  - done.
Qed.

Lemma vc_grant_run w bufs tmp e :
  granting s w bufs tmp → vc_ready r0 e → first_ok w e →
  ∃ w' bufs' tmp' r', vc_grant self e w = Ok (tt, w') ∧ granting s w' bufs' tmp' ∧
    step_rel self w r' w'.
Proof.
  intros Hgr He Hfst. pose proof Hgr as [Hst Hb Hq Hrd Hdn]. pose proof He as [Heok _].
  destruct (ready_front e He) as (c0 & p & f & Hc0 & Hhd & Hfr & Hp).
  pose proof Hfr as (q & Hqu & Hf).
  destruct (sr_heap _ _ _ _ Hst p f Hf) as (f1 & Hf1 & (_ & _ & Hport)).
  pose proof (sr_self _ _ _ _ Hst) as Hrs. set (r := granting_router bufs s [] tmp) in *.
  destruct (vc_at_exists hlen self r (e_input e) (e_vc e) Hb) as (c & Hc & Hoc & _);
    [apply Heok|apply Heok|].
  assert (Hbq : _buffer c = p :: q).
  { rewrite <-Hqu, <-Hq, queue_vc_at. by rewrite Hc. }
  destruct (assigned_lookup e Heok) as (o & Hrow).
  assert (Hrun : ∀ X, (when (bool_decide (_state c = vc_alloc))
    (if decide (o >= 0) then
       let match_output := Z.quot o DEFAULT_NUM_VCS in
       let match_vc := Z.rem o DEFAULT_NUM_VCS in
       on_router self (on_buf (e_input e) (Buffer_SetState (e_vc e) active)) ;;
       on_router self (on_buf (e_input e) (Buffer_SetOutput (e_vc e) match_output match_vc)) ;;
       check (bool_decide (match_output = output_port f1))
     else
       when (bool_decide (e_first e ≠ -1)) (SetIdleVC self (output_port f1) (e_first e)) ;;
       on_router self (modify (λ r, r.{_vc_alloc_vcs_tmp ::= λ l, l ++ [mkentry (-1) (e_input e) (e_vc e) (-1)] })) ;;
       on_router self (on_buf (e_input e) (Buffer_SetState (e_vc e) vc_alloc)))) w = X →
     vc_grant self e w = X).
  { intros X HX. unfold vc_grant.
    eapply bind_Ok; [eapply on_router_read; [done|]; by eapply ask_vc_run|].
    eapply bind_Ok; [unfold VC_FrontFlit; by rewrite Hbq|].
    eapply bind_Ok; [by apply deref_run|].
    eapply bind_Ok; [by eapply on_router_read|].
    assert (_vcs r = DEFAULT_NUM_VCS) as -> by apply Hb.
    eapply bind_Ok; [eapply on_router_read; [done|]|].
    { unfold mbind, M_bind, gets, lift, OutputAssigned. simpl.
      fold (row_of e). by rewrite (vget_Some _ _ _ Hrow). }
    eapply bind_Ok; [eapply on_router_read; [done|]; by eapply ask_vc_run|]. exact HX. }
  destruct (decide (_state c = vc_alloc)) as [Hsc|Hsc].
  2:{ exists w, bufs, tmp, r. split_and!; [|done|by apply step_refl].
      apply Hrun. unfold when. by rewrite bool_decide_false. }
  unfold when at 1 in Hrun. rewrite (bool_decide_true (_state c = _)) in Hrun by done.
  case_decide as Ho.
  - destruct (grant_active w bufs tmp e c o p f Hgr Heok Hrow Ho Hc Hfr) as (Hpt & bufs' & Heq & Hgr').
    eexists _, bufs', tmp, _. split_and!; [|exact Hgr'|by apply (step_self self w r)].
    apply Hrun. cbv zeta.
    eapply bind_Ok; [eapply on_router_run; [done|]; by eapply on_vc_set|].
    eapply bind_Ok.
    { eapply on_router_run; [apply vlookup_vinsert_eq; by eapply vlookup_Some_range|].
      eapply on_vc_set; [|done]. rewrite (vc_at_set_vc _ _ _ _ _ _ _ Hc). by rewrite decide_True. }
    simpl. rewrite vinsert_vinsert, (set_vc_set_vc _ _ _ _ _ _ Hc).
    unfold check. rewrite bool_decide_true by congruence. unfold mret, M_ret.
    do 3 f_equal. by rewrite <-Heq.
  - assert (∃ w1, when (bool_decide (e_first e ≠ -1)) (SetIdleVC self (output_port f1) (e_first e)) w
        = Ok (tt, w1) ∧ step_rel self w r w1) as (w1 & Hrun1 & Hs1).
    { unfold when. case_bool_decide as Hfe; [|exists w; split; [done|by apply step_refl]].
      destruct Hfst as [?|(p' & f' & m & (q' & Hq' & Hf') & Hm & Hne & Hqa)]; [done|].
      rewrite Hqu in Hq'. simplify_eq. rewrite <-Hport in Hm, Hqa.
      apply (SetIdleVC_run hlen cs self w r _ m); try done; [|lia].
      by eapply others_step. }
    pose proof (sr_self _ _ _ _ Hs1) as Hrs1.
    set (tmp' := tmp ++ [mkentry (-1) (e_input e) (e_vc e) (-1)]).
    set (r' := granting_router bufs s [] tmp').
    exists (w1.{routers := vinsert self r' (routers w1)}), bufs, tmp', r'.
    assert (Hs2 : step_rel self w r' (w1.{routers := vinsert self r' (routers w1)})).
    { eapply step_trans; [exact Hs1|]. by apply (step_self self w1 r). }
    split_and!; [|split|done].
    + apply Hrun. eapply bind_Ok; [exact Hrun1|].
      eapply bind_Ok; [by eapply on_router_run|].
      erewrite on_router_run; [|apply vlookup_vinsert_eq; by eapply vlookup_Some_range|].
      2:{ apply (on_vc_set _ _ _ _ c c); [exact Hc|]. unfold VC_SetState, modify.
          do 2 f_equal. destruct c. simpl in Hsc. by subst. }
      rewrite set_vc_id by exact Hc. simpl. by rewrite vinsert_vinsert.
    + by eapply step_trans.
    + by apply (base_tmp _ _ tmp') in Hb.
    + exact Hq.
    + apply Forall_app. split; [by eapply Forall_impl; [exact Hrd|intros e1; by apply vc_ready_ext]|].
      constructor; [|done]. split; [done|]. exists c. split_and!; [done|by rewrite Hsc|]. by rewrite Hbq.
    + apply Forall_app. split; [done|]. constructor; [|done]. unfold denied.
      change (row_of (mkentry _ _ _ _)) with (row_of e). rewrite Hrow. f_equal.
      destruct (Forall_vlookup _ _ _ _ (aw_in_range _ Hs) Hrow). lia.
Qed.

Lemma vc_grants_run es w bufs tmp :
  granting s w bufs tmp → Forall (vc_ready r0) es → Forall (first_ok w) es →
  ∃ w' bufs' tmp', for_each es (vc_grant self) w = Ok (tt, w') ∧ granting s w' bufs' tmp'.
Proof.
  revert w bufs tmp. induction es as [|e es IH]; intros w bufs tmp Hgr Hes Hf; simpl.
  { by exists w, bufs, tmp. }
  apply Forall_cons in Hes as [He Hes]. apply Forall_cons in Hf as [Hfe Hf].
  destruct (vc_grant_run w bufs tmp e Hgr He Hfe) as (w1 & bufs1 & tmp1 & r1 & Hrun & Hgr1 & Hs1).
  destruct (IH w1 bufs1 tmp1 Hgr1 Hes) as (w' & bufs' & tmp' & Hrun' & Hgr').
  { eapply Forall_impl; [exact Hf|]. intros e1. by apply first_ok_step with (r := r1). }
  exists w', bufs', tmp'. split; [|done]. by eapply bind_Ok.
Qed.
End grant.

(** ** The whole evaluation *)

Lemma reqs_grants_ok a s :
  Forall (eq (-1)) (_inmatch a) → reqs_ok a → allocated a s → grants_ok s.
Proof.
  intros Hfree Hreq Hal row o Hrow. destruct (al_sound _ _ Hal _ _ Hrow) as [?|[Ha|Ha]]; [by left| |].
  - left. symmetry. by apply (Forall_vlookup _ _ _ _ Hfree Ha).
  - right. destruct (Hreq _ _ Ha) as (e & p & f & v & ?). by exists e, p, f, v.
Qed.

Lemma VCAllocEvaluate_run :
  requesting w0 (_vc_allocator r0) → Forall (vc_ready r0) (_vc_alloc_vcs r0) →
  _vc_alloc_vcs_tmp r0 = [] →
  ∃ w' bufs s l, _VCAllocEvaluate self w0 = Ok (tt, w') ∧
    let r' := granting_router bufs s l [] in
    step_rel self w0 r' w' ∧ router_base hlen self r' ∧ (∀ i v, queue r' i v = queue r0 i v) ∧
    Forall (vc_ready r') l.
Proof.
  intros Hreq Hready Htmp.
  destruct (vc_requests_run (zlength (_vc_alloc_vcs r0)) (_vc_alloc_vcs r0) w0 (_vc_allocator r0) Hreq Hready)
    as (es & w1 & a1 & Hrun1 & Hrq1 & Hfst & Hes & _).
  destruct (Allocate_run a1) as (s & Hal & Hs); [apply Hrq1|apply Hrq1|].
  set (r1 := with_vca a1). pose proof (sr_self _ _ _ _ (rq_step _ _ Hrq1)) as Hr1. fold r1 in Hr1.
  set (r2 := granting_router (_buf r0) s [] []).
  set (w2 := w1.{routers := vinsert self r2 (routers w1)}).
  assert (Hds : dims s = (40, 40, 1)) by (rewrite (dims_allocated _ _ Hs); apply Hrq1).
  pose proof (step_self self w1 r1 r2 Hr1) as Hs12. fold w2 in Hs12.
  assert (Hgr : granting s w2 (_buf r0) []).
  { split; [|  |done|done|done].
    - eapply step_trans; [apply Hrq1|exact Hs12].
    - destruct Hb0. split; try done. apply Hs. }
  destruct (vc_grants_run s (al_wf _ _ Hs) Hds (reqs_grants_ok a1 s (rq_free _ _ Hrq1) (rq_reqs _ _ Hrq1) Hs)
    es w2 (_buf r0) [] Hgr Hes) as (w3 & bufs & tmp & Hrun3 & Hgr3).
  { eapply Forall_impl; [exact Hfst|]. intros e. by apply first_ok_step with (r := r2). }
  destruct Hgr3 as [Hst3 Hb3 Hq3 Hrd3 _]. set (r3 := granting_router bufs s [] tmp) in *.
  set (r4 := granting_router bufs s tmp []).
  exists (w3.{routers := vinsert self r4 (routers w3)}), bufs, s, tmp. split; [|split_and!].
  - unfold _VCAllocEvaluate.
    eapply bind_Ok; [by eapply on_router_read|]. eapply bind_Ok; [exact Hrun1|].
    eapply bind_Ok; [by eapply on_router_run|].
    eapply bind_Ok; [eapply on_router_run; [apply vlookup_vinsert_eq; by eapply vlookup_Some_range|]|].
    { unfold on_vc_allocator, zoom. simpl. by rewrite Hal. }
    eapply bind_Ok; [by eapply on_router_run; [apply vlookup_vinsert_eq; simpl;
      rewrite zlength_vinsert; eapply vlookup_Some_range|]|].
    simpl. rewrite !vinsert_vinsert.
    eapply bind_Ok.
    { replace (_vc_alloc_vcs_tmp r0) with (@nil vc_entry). exact Hrun3. }
    erewrite on_router_run; [|apply Hst3|done]. simpl. by rewrite app_nil_r.
  - eapply step_trans; [exact Hst3|]. apply (step_self self w3 r3). apply Hst3.
  - destruct Hb3. by split.
  - exact Hq3.
  - eapply Forall_impl; [exact Hrd3|]. intros e. by apply vc_ready_ext.
Qed.
End vc.
