(* ===== verification/RouterSW.v ===== *)
(** * Switch allocation is safe

    [_SWAllocEvaluate] returns, moves at most the front flit of a virtual
    channel per request into an output queue, and never has more requests
    than flits. *)

From S2P Require Import Prelude Double NoCMain Config Element Stats Channel.
From S2P Require Import VirtualChannel Allocator FlitCoding Router RouterInv RouterSafe.

Section sw.
Context `{Topology} (hlen : nat) (cs : list FlitChannel) (self : Z).
Hypothesis Hself : 0 ≤ self < n_nodes.

(** ** Requests *)

Section request.
Context (w0 : World) (r0 : ENoCRouter).
Hypothesis Hb0 : router_base hlen self r0.
Hypothesis Hvalid : ∀ i v p, p ∈ queue r0 i v → is_Some (flits w0 !! p).

Definition with_swa (a : iSLIP_Sparse) : ENoCRouter := r0.{_sw_allocator := a}.

Record sw_requesting (w : World) (a : iSLIP_Sparse) : Prop := {
  sq_step : step_rel self w0 (with_swa a) w;
  sq_wf : alloc_wf a;
  sq_matching : matching a;
  sq_dims : dims a = (5, 5, 1);
}.

Lemma sw_request_run e w a :
  sw_requesting w a → entry_ok e → queue r0 (e_input e) (e_vc e) ≠ [] →
  ∃ w' a', sw_request self e w = Ok (tt, w') ∧ sw_requesting w' a'.
Proof.
  intros [Hst Hwf Hmt Hd] He Hne. pose proof (sr_self _ _ _ _ Hst) as Hrs.
  destruct (vc_at_exists hlen self r0 (e_input e) (e_vc e) Hb0) as (c & Hc & Hoc & _); [apply He..|].
  rewrite queue_vc_at, Hc in Hne. destruct (_buffer c) as [|p q] eqn:Hq; [done|].
  destruct (Hvalid (e_input e) (e_vc e) p) as [f Hf]; [rewrite queue_vc_at, Hc, Hq; left|].
  assert (Hrun : ∀ X, (when (bool_decide (_state c = active))
    (dest_output ← on_router self (ask_buf (e_input e) (Buffer_GetOutputPort (e_vc e)));
     on_router self (on_sw_allocator (AddRequest (e_input e) dest_output 0 0 0)) ;;
     en ← on_router self (gets (λ r, dynamic_energy (_swa r)));
     f ← nonnull (Some p);
     on_flits (update f (Update_SWA_dyn_energy en)))) w = X → sw_request self e w = X).
  { intros X HX. unfold sw_request.
    eapply bind_Ok; [eapply on_router_read; [done|]; by eapply ask_vc_run|].
    eapply bind_Ok; [eapply on_router_read; [done|]; by eapply ask_vc_run|].
    unfold VC_FrontFlit. rewrite Hq. exact HX. }
  destruct (decide (_state c = active)) as [Ha|Ha]; cycle 1.
  { exists w, a. split; [|done]. apply Hrun. unfold when. by rewrite bool_decide_false. }
  destruct (Hoc Ha) as [Hp _]. unfold dims in Hd. injection Hd as Hi5 Ho5 Hit.
  pose proof He as [Hir _].
  set (a' := added (e_input e) (_out_port c) 0 0 0 a).
  set (w1 := w.{routers := vinsert self (with_swa a') (routers w)}).
  pose proof (step_self self w _ (with_swa a') Hrs) as Hs1. fold w1 in Hs1.
  pose proof (step_trans _ _ _ _ _ _ Hst Hs1) as Hs01.
  destruct (sr_heap _ _ _ _ Hs01 p f Hf) as (f1 & Hf1 & _).
  set (g := Update_SWA_dyn_energy (dynamic_energy (_swa r0))).
  exists (w1.{flits := <[p := g f1]> (flits w1)}), a'. split.
  - apply Hrun. unfold when. rewrite bool_decide_true by done.
    eapply bind_Ok; [eapply on_router_read; [done|]; by eapply ask_vc_run|].
    eapply bind_Ok; [eapply on_router_run; [done|]|].
    { unfold on_sw_allocator, zoom, VC_GetOutputPort. simpl.
      rewrite AddRequest_run by (done || lia). done. }
    change (w.{routers := _ }) with w1.
    eapply bind_Ok; [eapply on_router_read; [apply Hs1|done]|].
    eapply bind_Ok; [done|]. by apply update_run.
  - split.
    + eapply step_trans; [exact Hs01|]. by apply (step_flit self w1 _ p f1); [apply Hs1| |].
    + apply added_wf; [done|lia|lia].
    + exact Hmt.
    + unfold dims. simpl. by rewrite Hi5, Ho5, Hit.
Qed.

Lemma sw_requests_run es w a :
  sw_requesting w a → Forall (λ e, entry_ok e ∧ queue r0 (e_input e) (e_vc e) ≠ []) es →
  ∃ w' a', for_each es (sw_request self) w = Ok (tt, w') ∧ sw_requesting w' a'.
Proof.
  intros Hw Hes. revert w a Hw. induction Hes as [|e es [He Hne] Hes IH]; intros w a Hw; simpl.
  { by exists w, a. }
  destruct (sw_request_run e w a Hw He Hne) as (w1 & a1 & Hrun & Hw1).
  destruct (IH w1 a1 Hw1) as (w' & a' & Hrun' & Hw').
  exists w', a'. split; [|done]. by eapply bind_Ok.
Qed.
End request.

Lemma sw_count_cons i v e l :
  sw_count i v (e :: l) = ((if decide (same_vc i v e) then 1 else 0) + sw_count i v l)%nat.
Proof. unfold sw_count. rewrite filter_cons. by case_decide. Qed.

Lemma sw_count_app i v l1 l2 : sw_count i v (l1 ++ l2) = (sw_count i v l1 + sw_count i v l2)%nat.
Proof. unfold sw_count. by rewrite filter_app, length_app. Qed.

(** ** Grants *)

Context (K : flit_ptr → Prop) (h0 : list Flit).

(** the state of the second loop, with the entries still to visit *)
Record sw_state (w : World) (r : ENoCRouter) (post : list vc_entry) : Prop := {
  ss_self : routers w !z self = Some r;
  ss_base : router_base hlen self r;
  ss_others : others_ok hlen cs self w;
  ss_placed : placed K (flits w) (mid_slot w);
  ss_same : heap_same h0 (flits w);
  ss_ready : Forall (vc_ready r) (_vc_alloc_vcs r);
  ss_tmp : Forall entry_ok (_sw_alloc_vcs_tmp r);
  ss_post : Forall entry_ok post;
  ss_count : ∀ i v, (sw_count i v (_sw_alloc_vcs_tmp r) + sw_count i v post ≤ length (queue r i v))%nat;
  ss_empty : _sw_alloc_vcs r = [] ∧ _vc_alloc_vcs_tmp r = [] ∧ _in_queue_flits r = [];
}.

(** The front flit [p] of a VC moves to an output queue. *)
Definition popped (i v op : Z) (p : flit_ptr) (c' : VirtualChannel) (st : StatsNoC)
    (a : iSLIP_Sparse) (ob : list flit_ptr) (r : ENoCRouter) : ENoCRouter :=
  (set_vcq i v c' r).{stats := st}.{_vc_allocator := a}
    .{_output_buffer := vinsert op (ob ++ [p]) (_output_buffer r)}.

#[local] Arguments popped : simpl never.

Lemma popped_queue i v op p c c' st a ob r j u :
  vc_at r i v = Some c →
  queue (popped i v op p c' st a ob r) j u = if decide (j = i ∧ u = v) then _buffer c' else queue r j u.
Proof. intros Hc. by apply (queue_set_vcq i v c c' r). Qed.

Lemma popped_vc_at i v op p c c' st a ob r j u :
  vc_at r i v = Some c →
  vc_at (popped i v op p c' st a ob r) j u = if decide (j = i ∧ u = v) then Some c' else vc_at r j u.
Proof. intros Hc. by apply (vc_at_set_vcq i v c' r c). Qed.

Lemma popped_fields i v op p c' st a ob r :
  let r' := popped i v op p c' st a ob r in
  _vc_alloc_vcs r' = _vc_alloc_vcs r ∧ _sw_alloc_vcs_tmp r' = _sw_alloc_vcs_tmp r ∧
  _sw_alloc_vcs r' = _sw_alloc_vcs r ∧ _vc_alloc_vcs_tmp r' = _vc_alloc_vcs_tmp r ∧
  _in_queue_flits r' = _in_queue_flits r ∧
  _output_buffer r' = vinsert op (ob ++ [p]) (_output_buffer r).
Proof.
  unfold popped. destruct (set_vcq_frame i v c' r) as [bufs ->]. done.
Qed.

Lemma popped_base i v op p c c' st a ob r :
  router_base hlen self r → vc_at r i v = Some c → occupancy c' = zlength (_buffer c') → out_ok c' →
  stats_wf st → alloc_wf a → dims a = (40, 40, 1) →
  router_base hlen self (popped i v op p c' st a ob r).
Proof.
  intros Hb Hc Hocc Hok Hst Ha Hd. pose proof (set_vcq_base hlen self i v c c' r Hb Hc Hocc Hok) as Hb'.
  unfold popped. destruct (set_vcq_frame i v c' r) as [bufs Hr]. rewrite Hr in *.
  destruct Hb'. split; try done. simpl. rewrite zlength_vinsert. apply Hb.
Qed.

Lemma popped_state w r e post i v op p q c c' st a ob f' :
  sw_state w r (e :: post) → same_vc i v e → vc_at r i v = Some c → _buffer c = p :: q →
  _state c = active → 0 ≤ op < 5 →
  _buffer c' = q → occupancy c' = zlength q → out_ok c' → stats_wf st → alloc_wf a →
  dims a = (40, 40, 1) → _output_buffer r !z op = Some ob →
  (∀ f, flits w !! p = Some f → same_flit f f') → 0 ≤ f_vc f' < DEFAULT_NUM_VCS →
  op = xy_yx_mesh_port self (dst_id f') →
  let r' := popped i v op p c' st a ob r in
  sw_state (w.{flits := <[p := f']> (flits w)}.{routers := vinsert self r' (routers w)}) r' post.
Proof.
  intros [Hs Hb Ho Hp Hh Hrd Htm Hpo Hct He] Hsv Hc Hq Hact Hop Hq' Hocc Hok Hst Ha Hd Hob Hsame Hv Hxy r'.
  destruct (popped_fields i v op p c' st a ob r) as (E1 & E2 & E3 & E4 & E5 & E6).
  pose proof (popped_base i v op p c c' st a ob r Hb Hc) as Hb'. rewrite Hq' in Hb'.
  assert (Hqr : queue r i v = p :: q) by (by rewrite queue_vc_at, Hc).
  destruct (pl_ok _ _ _ Hp (At self (RBuf i v)) p) as (f & Hf & Hfo & _).
  { rewrite (mid_slot_at _ _ _ _ Hs). simpl. rewrite Hqr. left. }
  specialize (Hsame f Hf).
  assert (Hcf : countable_flit f').
  { unfold countable_flit in *. by destruct Hsame as (_ & _ & _ & _ & _ & _ & ->). }
  split.
  - simpl. apply vlookup_vinsert_eq. by eapply vlookup_Some_range.
  - by apply Hb'.
  - eapply others_put; [done|done|]. apply length_insert.
  - apply (placed_move K (flits w) (mid_slot w) _ p q (At self (RBuf i v)) (At self (ROut op)));
      [done|by rewrite (mid_slot_at _ _ _ _ Hs)|done| | | |by split].
    + rewrite (mid_slot_set _ _ _ _ _ _ Hs), decide_True by done. simpl.
      unfold r'. rewrite (popped_queue _ _ _ _ c) by done. by rewrite decide_True.
    + rewrite (mid_slot_set _ _ _ _ _ _ Hs), decide_True by done.
      rewrite (mid_slot_at _ _ _ _ Hs). simpl. unfold r'. rewrite ?E6, Hob.
      by rewrite vlookup_vinsert_eq by (by eapply vlookup_Some_range).
    + intros x Hx1 Hx2. rewrite (mid_slot_set _ _ _ _ _ _ Hs).
      destruct x as [| |n pl]; [done|done|]. case_decide as Hn; [|done]. subst n.
      rewrite (mid_slot_at _ _ _ _ Hs). destruct pl as [j|j u|o]; simpl; unfold r'.
      * unfold r', popped. by destruct (set_vcq_frame i v c' r) as [bufs ->].
      * rewrite (popped_queue _ _ _ _ c) by done. rewrite decide_False; [done|].
        intros [-> ->]. done.
      * rewrite ?E6, vlookup_vinsert_ne; [done|]. intros ->. done.
  - simpl. etrans; [exact Hh|]. by apply (heap_rel_insert same_flit _ _ f).
  - unfold r'. rewrite E1. eapply Forall_impl; [exact Hrd|].
    intros e1 (Hok1 & c1 & Hc1 & Hst1 & Hne1). split; [done|]. exists c1.
    rewrite (popped_vc_at _ _ _ _ _ _ _ _ _ _ _ _ Hc). rewrite decide_False; [done|].
    intros [H1 H2]. rewrite H1, H2 in Hc1. by simplify_eq.
  - unfold r'. by rewrite E2.
  - by apply Forall_cons in Hpo as [_ ?].
  - intros j u. unfold r'. rewrite E2, (popped_queue _ _ _ _ c) by done.
    specialize (Hct j u). rewrite sw_count_cons in Hct.
    destruct (decide (j = i ∧ u = v)) as [[-> ->]|_].
    + rewrite decide_True in Hct by done. rewrite Hq'. rewrite Hqr in Hct. simpl in Hct. lia.
    + case_decide; lia.
  - unfold r'. by rewrite E3, E4, E5.
Qed.

Lemma sw_pop_run w r e post sz i v p q c f :
  sw_state w r (e :: post) → same_vc i v e → vc_at r i v = Some c → _buffer c = p :: q →
  _state c = active → flits w !! p = Some f →
  ∃ w' r', sw_pop self sz i v (output_port f) (_out_vc c) p w = Ok (tt, w') ∧ sw_state w' r' post.
Proof.
  intros Hss Hsv Hc Hq Hact Hf. pose proof Hss as [Hs Hb Ho Hp Hh Hrd Htm Hpo Hct He].
  destruct (vc_at_range hlen self r i v c Hb Hc) as [Hir Hvr].
  destruct (vc_at_exists hlen self r i v Hb Hir Hvr) as (c0 & Hc0 & Hoc & Hocc). simplify_eq.
  destruct (Hoc Hact) as [Hport Hovc].
  assert (Hqr : queue r i v = p :: q) by (by rewrite queue_vc_at, Hc).
  destruct (pl_ok _ _ _ Hp (At self (RBuf i v)) p) as (f0 & Hf0 & Hcf & Hfv & Hop & Hxy).
  { rewrite (mid_slot_at _ _ _ _ Hs). simpl. rewrite Hqr. left. }
  simplify_eq.
  set (op := output_port f) in *. set (ovc := _out_vc c) in *.
  set (c1 := c.{_buffer := q}.{occupancy ::= λ n, n - 1}).
  set (c2 := if decide (flit_type f = FLIT_TYPE_TAIL) then c1.{_state := idle} else c1).
  set (st := (stats r).{energy_router ::= InputBuffer_dynamic_energy_per_vc_access}).
  set (a := if decide (flit_type f = FLIT_TYPE_TAIL)
            then removed (i * DEFAULT_NUM_VCS + f_vc f) (op * DEFAULT_NUM_VCS + ovc) (_vc_allocator r)
            else _vc_allocator r).
  set (f1 := f.{f_vc := ovc}).
  set (f2 := Update_buff_dyn_energy (dynamic_energy_per_vc (_inb r) / d_of_Z sz)%D f1).
  destruct (vlookup_in_range (_output_buffer r) op) as [ob Hob].
  { rewrite (rb_outbuf _ _ _ Hb). lia. }
  assert (Hdims := rb_vca_dims _ _ _ Hb).
  assert (Hal : al_inputs (_vc_allocator r) = 40 ∧ al_outputs (_vc_allocator r) = 40)
    by (unfold dims in Hdims; by injection Hdims as -> -> _).
  destruct Hal as [Hal1 Hal2].
  assert (Hi40 : 0 ≤ i * DEFAULT_NUM_VCS + f_vc f < al_inputs (_vc_allocator r))
    by (rewrite Hal1; unfold DEFAULT_NUM_VCS in *; lia).
  assert (Ho40 : 0 ≤ op * DEFAULT_NUM_VCS + ovc < al_outputs (_vc_allocator r))
    by (rewrite Hal2; unfold DEFAULT_NUM_VCS in *; lia).
  set (r' := popped i (f_vc f) op p c2 st a ob r).
  exists (put_router w self (<[p := f2]> (flits w)) r'), r'. split.
  - rewrite (put_start w self r Hs) at 1. unfold sw_pop.
    eapply bind_Ok; [by apply put_deref|].
    eapply bind_Ok; [eapply put_run; [done|]; by eapply ask_vc_run|].
    eapply bind_Ok; [by apply put_update|].
    eapply bind_Ok; [eapply put_run; [done|]; by eapply (remove_run hlen self)|].
    fold c1. set (r1 := set_vcq i (f_vc f) c1 r).
    assert (Hfr : ∀ c', ∃ bufs, set_vcq i (f_vc f) c' r = r.{_buf := bufs})
      by (intros; apply set_vcq_frame).
    eapply bind_Ok with (a := tt) (s' := put_router w self (<[p := f1]> (flits w)) (r1.{stats := st})).
    { eapply put_run; [done|]. unfold meter, modify, r1. by destruct (Hfr c1) as [bufs ->]. }
    eapply bind_Ok with (a := dynamic_energy_per_vc (_inb r))
      (s' := put_router w self (<[p := f1]> (flits w)) (r1.{stats := st})).
    { eapply put_run; [done|]. unfold gets, r1. by destruct (Hfr c1) as [bufs ->]. }
    eapply bind_Ok.
    { apply put_update. apply list_lookup_insert_eq. by eapply lookup_lt_Some. }
    rewrite list_insert_insert_eq. fold f2. set (h2 := <[p := f2]> (flits w)).
    eapply bind_Ok with (a := DEFAULT_NUM_VCS) (s' := put_router w self h2 (r1.{stats := st})).
    { eapply put_run; [done|]. unfold gets, r1. destruct (Hfr c1) as [bufs ->]. simpl.
      by rewrite (rb_vcs _ _ _ Hb). }
    eapply bind_Ok with (a := tt) (s' := put_router w self h2
      ((set_vcq i (f_vc f) c2 r).{stats := st}.{_vc_allocator := a})).
    + unfold when, c2, a. destruct (decide (flit_type f = FLIT_TYPE_TAIL)) as [Ht|Ht].
      * rewrite bool_decide_true by done.
        eapply bind_Ok; [eapply put_run; [done|]|].
        { apply (on_vc_set i (f_vc f) _ _ c1); [|done].
          transitivity (vc_at r1 i (f_vc f)); [done|].
          unfold r1. rewrite (vc_at_set_vcq _ _ _ _ _ _ _ Hc). by rewrite decide_True. }
        rewrite set_vc_stats. unfold r1. rewrite (set_vc_set_vcq _ _ _ _ _ _ Hc) by done.
        eapply put_run; [done|]. unfold on_vc_allocator, zoom.
        destruct (Hfr (c1.{_state := idle})) as [bufs ->]. simpl.
        by rewrite RemoveRequest_run by (done || apply Hb).
      * rewrite bool_decide_false by done. unfold mret, M_ret. fold r1. do 2 f_equal.
        unfold r1. by destruct (Hfr c1) as [bufs ->].
    + eapply put_run; [done|]. unfold on_output_buffer, zoom, r', popped.
      destruct (Hfr c2) as [bufs ->]. simpl. by rewrite (zoom_at_Some _ _ _ _ Hob).
  - apply (popped_state w r e post i (f_vc f) op p q c c2 st a ob f2); try done.
    + lia.
    + unfold c2. by case_decide.
    + unfold c2. case_decide; simpl; rewrite Hocc, Hq; unfold zlength; simpl; lia.
    + unfold c2. case_decide; [by intros ?|]. intros _. by apply Hoc.
    + apply Hb.
    + unfold a. case_decide; [|apply Hb]. apply removed_wf; [apply Hb|done|done].
    + unfold a. case_decide; [|done]. by rewrite dims_removed.
    + intros f' Hf'. by simplify_eq.
Qed.

(** an entry that stays: it is queued again *)
Lemma sw_retry_state w r e post :
  sw_state w r (e :: post) →
  let r' := r.{_sw_alloc_vcs_tmp ::= λ l, l ++ [mkentry (-1) (e_input e) (e_vc e) (-1)] } in
  sw_state (w.{routers := vinsert self r' (routers w)}) r' post.
Proof.
  intros [Hs Hb Ho Hp Hh Hrd Htm Hpo Hct He] r'. apply Forall_cons in Hpo as [Heok Hpo].
  split; simpl; try done.
  - apply vlookup_vinsert_eq. by eapply vlookup_Some_range.
  - destruct Hb. by split.
  - eapply others_step; [done|]. by eapply step_self.
  - eapply placed_ext; [done|done|]. intros l.
    apply (mid_slot_step self w r r'); [done|by eapply step_self|]. by intros [].
  - apply Forall_app. split; [done|]. constructor; [exact Heok|done].
  - intros i v. specialize (Hct i v). rewrite sw_count_app. rewrite !sw_count_cons in *.
    change (queue r' i v) with (queue r i v). change (sw_count i v []) with 0%nat.
    change (decide (same_vc i v (mkentry (-1) (e_input e) (e_vc e) (-1))))
      with (decide (same_vc i v e)). case_decide; lia.
Qed.

(** an entry that is dropped *)
Lemma sw_drop_state w r e post : sw_state w r (e :: post) → sw_state w r post.
Proof.
  intros [Hs Hb Ho Hp Hh Hrd Htm Hpo Hct He]. apply Forall_cons in Hpo as [_ Hpo].
  split; try done. intros i v. specialize (Hct i v). rewrite sw_count_cons in Hct. lia.
Qed.

Lemma sw_front w r e post c :
  sw_state w r (e :: post) → vc_at r (e_input e) (e_vc e) = Some c →
  ∃ p q f, _buffer c = p :: q ∧ flits w !! p = Some f ∧ 0 ≤ output_port f < 4.
Proof.
  intros Hss Hc. pose proof (ss_count _ _ _ Hss (e_input e) (e_vc e)) as Hct.
  rewrite sw_count_cons, decide_True in Hct by done.
  rewrite queue_vc_at, Hc in Hct. destruct (_buffer c) as [|p q] eqn:Hq; [simpl in Hct; lia|].
  destruct (pl_ok _ _ _ (ss_placed _ _ _ Hss) (At self (RBuf (e_input e) (e_vc e))) p)
    as (f & Hf & _ & _ & Hop & _).
  { rewrite (mid_slot_at _ _ _ _ (ss_self _ _ _ Hss)). simpl. rewrite queue_vc_at, Hc, Hq. left. }
  by exists p, q, f.
Qed.

Lemma sw_grant_run w r e post sz :
  sw_state w r (e :: post) →
  ∃ w' r', sw_grant self sz e w = Ok (tt, w') ∧ sw_state w' r' post.
Proof.
  intros Hss. pose proof Hss as [Hs Hb Ho Hp Hh Hrd Htm Hpo Hct He].
  apply Forall_cons in Hpo as [[Hir Hvr] Hpo].
  destruct (vc_at_exists hlen self r (e_input e) (e_vc e) Hb Hir Hvr) as (c & Hc & Hoc & _).
  destruct (sw_front w r e post c Hss Hc) as (p & q & f & Hq & Hf & Hop).
  assert (Hrun : ∀ X, (when (bool_decide (_state c = active))
    (f ← nonnull (Some p); fl ← on_flits (deref f);
     let out_port := output_port fl in
     dest_vc ← on_router self (ask_buf (e_input e) (Buffer_GetOutputVC (e_vc e)));
     output_and_vc ← on_router self (a ← gets _sw_allocator; lift (OutputAssigned (e_input e) a));
     freespace ← FindFreeSpace self out_port dest_vc;
     if decide (output_and_vc >= 0 ∧ freespace = true) then
       sw_pop self sz (e_input e) (e_vc e) out_port dest_vc f
     else
       on_router self (modify (λ r, r.{_sw_alloc_vcs_tmp ::= λ l, l ++ [mkentry (-1) (e_input e) (e_vc e) (-1)] })) ;;
       on_router self (on_buf (e_input e) (Buffer_SetState (e_vc e) active)))) w = X →
     sw_grant self sz e w = X).
  { intros X HX. unfold sw_grant.
    eapply bind_Ok; [eapply on_router_read; [done|]; by eapply ask_vc_run|].
    eapply bind_Ok; [eapply on_router_read; [done|]; by eapply ask_vc_run|].
    unfold VC_FrontFlit. rewrite Hq. exact HX. }
  destruct (decide (_state c = active)) as [Ha|Ha]; cycle 1.
  { exists w, r. split; [|by eapply sw_drop_state]. apply Hrun. unfold when. by rewrite bool_decide_false. }
  destruct (Hoc Ha) as [_ Hovc].
  destruct (vlookup_in_range (_inmatch (_sw_allocator r)) (e_input e)) as [o Hrow].
  { rewrite (aw_inmatch _ (rb_swa _ _ _ Hb)). pose proof (rb_swa_dims _ _ _ Hb) as Hd.
    unfold dims in Hd. injection Hd as -> _ _. done. }
  destruct (FindFreeSpace_run hlen cs self w r (output_port f) (_out_vc c)) as [free Hfree]; [done..|].
  assert (Hrun' : ∀ X, (if decide (o >= 0 ∧ free = true) then
       sw_pop self sz (e_input e) (e_vc e) (output_port f) (_out_vc c) p
     else
       on_router self (modify (λ r, r.{_sw_alloc_vcs_tmp ::= λ l, l ++ [mkentry (-1) (e_input e) (e_vc e) (-1)] })) ;;
       on_router self (on_buf (e_input e) (Buffer_SetState (e_vc e) active))) w = X →
     sw_grant self sz e w = X).
  { intros X HX. apply Hrun. unfold when. rewrite bool_decide_true by done.
    eapply bind_Ok; [done|]. eapply bind_Ok; [by apply deref_run|].
    eapply bind_Ok; [eapply on_router_read; [done|]; by eapply ask_vc_run|].
    eapply bind_Ok; [eapply on_router_read; [done|]|].
    { unfold mbind, M_bind, gets, lift, OutputAssigned. by rewrite (vget_Some _ _ _ Hrow). }
    eapply bind_Ok; [exact Hfree|]. exact HX. }
  case_decide as Hgo.
  - destruct (sw_pop_run w r e post sz (e_input e) (e_vc e) p q c f) as (w' & r' & Hpop & Hss');
      [done..|]. exists w', r'. split; [by apply Hrun'|done].
  - pose proof (sw_retry_state w r e post Hss) as Hss'. cbv zeta in Hss'.
    eexists _, _. split; [|exact Hss'].
    apply Hrun'. eapply bind_Ok; [by eapply on_router_run|].
    erewrite on_router_run; [|apply vlookup_vinsert_eq; by eapply vlookup_Some_range|].
    2:{ apply (on_vc_set _ _ _ _ c c); [exact Hc|]. unfold VC_SetState, modify.
        do 2 f_equal. destruct c. simpl in Ha. by subst. }
    rewrite set_vc_id by exact Hc. simpl. by rewrite vinsert_vinsert.
Qed.

Lemma sw_grants_run es w r sz :
  sw_state w r es →
  ∃ w' r', for_each es (sw_grant self sz) w = Ok (tt, w') ∧ sw_state w' r' [].
Proof.
  revert w r. induction es as [|e es IH]; intros w r Hss; simpl; [by exists w, r|].
  destruct (sw_grant_run w r e es sz Hss) as (w1 & r1 & Hrun & Hss1).
  destruct (IH w1 r1 Hss1) as (w' & r' & Hrun' & Hss').
  exists w', r'. split; [|done]. by eapply bind_Ok.
Qed.

(** ** The whole evaluation *)

(** the router between its virtual-channel and its switch allocation *)
Record sw_ready (w : World) (r : ENoCRouter) : Prop := {
  sd_self : routers w !z self = Some r;
  sd_base : router_base hlen self r;
  sd_others : others_ok hlen cs self w;
  sd_placed : placed K (flits w) (mid_slot w);
  sd_same : heap_same h0 (flits w);
  sd_vc : Forall (vc_ready r) (_vc_alloc_vcs r);
  sd_sw : sw_ok r (_sw_alloc_vcs r);
  sd_empty : _vc_alloc_vcs_tmp r = [] ∧ _sw_alloc_vcs_tmp r = [] ∧ _in_queue_flits r = [];
}.

Lemma SWAllocEvaluate_run w r :
  sw_ready w r → matching (_sw_allocator r) →
  ∃ w' r', _SWAllocEvaluate self w = Ok (tt, w') ∧ sw_ready w' r'.
Proof.
  intros [Hs Hb Ho Hp Hh Hvc [Hsw1 Hsw2] (He1 & He2 & He3)] Hm.
  assert (Hents : Forall (λ e, entry_ok e ∧ queue r (e_input e) (e_vc e) ≠ []) (_sw_alloc_vcs r)).
  { rewrite Forall_forall in *. intros e He. split; [by apply Hsw1|]. intros Hnil.
    specialize (Hsw2 (e_input e) (e_vc e)). rewrite Hnil in Hsw2. unfold sw_count in Hsw2.
    assert (e ∈ filter (same_vc (e_input e) (e_vc e)) (_sw_alloc_vcs r)) as Hin
      by (by apply list_elem_of_filter).
    destruct (filter _ _); [by apply elem_of_nil in Hin|simpl in Hsw2; lia]. }
  destruct (sw_requests_run w r Hb) with (es := _sw_alloc_vcs r) (w := w) (a := _sw_allocator r)
    as (w1 & a1 & Hrun1 & [Hst1 Hwf1 Hm1 Hd1]); [| |done|].
  { intros i v p Hin. destruct (pl_ok _ _ _ Hp (At self (RBuf i v)) p) as (f & Hf & _); [|by eexists].
    by rewrite (mid_slot_at _ _ _ _ Hs). }
  { split; [|apply Hb|done|apply Hb]. replace (with_swa r (_sw_allocator r)) with r by (by destruct r).
    by apply step_refl. }
  destruct (Allocate_run a1 Hwf1 Hm1) as (s & Hal & Hals).
  set (r2 := (with_swa r s).{_sw_alloc_vcs := [] }).
  set (w2 := w1.{routers := vinsert self r2 (routers w1)}).
  pose proof (sr_self _ _ _ _ Hst1) as Hr1.
  assert (Hst2 : step_rel self w r2 w2).
  { eapply step_trans; [exact Hst1|]. by eapply step_self. }
  assert (Hss : sw_state w2 r2 (_sw_alloc_vcs r)).
  { split; simpl; try done.
    - apply Hst2.
    - destruct Hb. split; try done; simpl; [apply Hals|]. by rewrite (dims_allocated _ _ Hals).
    - by eapply others_step.
    - eapply placed_ext; [exact Hp|apply Hst2|]. intros l.
      apply (mid_slot_step self w r r2); [done|done|]. by intros [].
    - etrans; [exact Hh|]. apply heap_sim_same. apply Hst1.
    - by rewrite He2.
    - intros i v. rewrite He2. apply Hsw2. }
  destruct (sw_grants_run (_sw_alloc_vcs r) w2 r2 (zlength (_sw_alloc_vcs r)) Hss)
    as (w3 & r3 & Hrun3 & [Hs3 Hb3 Ho3 Hp3 Hh3 Hrd3 Htm3 _ Hct3 (E1 & E2 & E3)]).
  set (r4 := r3.{_sw_alloc_vcs := _sw_alloc_vcs_tmp r3}.{_sw_alloc_vcs_tmp := [] }).
  exists (w3.{routers := vinsert self r4 (routers w3)}), r4. split.
  - unfold _SWAllocEvaluate. eapply bind_Ok; [by eapply on_router_read|].
    eapply bind_Ok; [exact Hrun1|].
    eapply bind_Ok; [eapply on_router_run; [done|]|].
    { unfold on_sw_allocator, zoom. simpl. by rewrite Hal. }
    eapply bind_Ok; [by eapply on_router_run; [apply vlookup_vinsert_eq; eapply vlookup_Some_range|]|].
    simpl. rewrite vinsert_vinsert. eapply bind_Ok; [exact Hrun3|].
    erewrite on_router_run; [|exact Hs3|done]. simpl. by rewrite E1, app_nil_r.
  - split; simpl; try done.
    + apply vlookup_vinsert_eq. by eapply vlookup_Some_range.
    + destruct Hb3. by split.
    + eapply others_step; [done|]. by eapply step_self.
    + eapply placed_ext; [exact Hp3|done|]. intros l.
      apply (mid_slot_step self w3 r3 r4); [done|by eapply step_self|]. by intros [].
    + split; [done|]. intros i v. specialize (Hct3 i v). change (queue r4 i v) with (queue r3 i v).
      unfold sw_count in *. simpl in Hct3. lia.
Qed.
End sw.
