(* ===== verification/RouterCycle.v ===== *)
(** * A cycle of a router is safe

    [_InputQueuing], the whole of [ENoCRouter::clk], and [_SendFlits]. *)

From S2P Require Import Prelude Double NoCMain Config Element Stats Channel.
From S2P Require Import VirtualChannel Allocator FlitCoding Router RouterInv RouterSafe.
From S2P Require Import RouterVC RouterSW.

Lemma xy_yx_mesh_port_range id dst : 0 ≤ xy_yx_mesh_port id dst ≤ 4.
Proof. unfold xy_yx_mesh_port. repeat case_decide; lia. Qed.

(** the input queue of router [self] replaced by the part still to process *)
Definition over (self : Z) (rem : list (Z * flit_ptr)) (S : place → list flit_ptr) (l : place) :
    list flit_ptr :=
  match l with
  | At n (RIn i) => if decide (n = self) then option_list (om_find i rem) else S l
  | _ => S l
  end.

Lemma om_wf_cons {V} k (v : V) m : om_wf ((k, v) :: m) → om_wf m ∧ om_find k m = None.
Proof.
  unfold om_wf. simpl. intros [Hs Hall]%StronglySorted_inv. split; [done|].
  apply om_find_None_keys. intros Hk. rewrite Forall_forall in Hall. specialize (Hall _ Hk). lia.
Qed.

Section cycle.
Context `{Topology} (hlen : nat) (cs : list FlitChannel) (self : Z).
Hypothesis Hself : 0 ≤ self < n_nodes.
Context (K : flit_ptr → Prop) (h0 : list Flit).

Record iq_state (w : World) (r : ENoCRouter) (rem : list (Z * flit_ptr)) : Prop := {
  iq_self : routers w !z self = Some r;
  iq_base : router_base hlen self r;
  iq_others : others_ok hlen cs self w;
  iq_placed : placed K (flits w) (over self rem (mid_slot w));
  iq_same : heap_same h0 (flits w);
  iq_vc : Forall (vc_ready r) (_vc_alloc_vcs r);
  iq_sw : sw_ok r (_sw_alloc_vcs r);
  iq_empty : _vc_alloc_vcs_tmp r = [] ∧ _sw_alloc_vcs_tmp r = [];
  iq_rem : om_wf rem ∧ Forall (λ ip, 0 ≤ ip.1 < 5) rem;
}.

(** The flit [p] of input [i] moves to another place of the router. *)
Lemma iq_move w r r' rem i p f' (pl : rplace) :
  iq_state w r ((i, p) :: rem) → router_base hlen self r' →
  (∀ j, pl ≠ RIn j) →
  rslot r' pl = rslot r pl ++ [p] → (∀ x, x ≠ pl → (∀ j, x ≠ RIn j) → rslot r' x = rslot r x) →
  Forall (vc_ready r') (_vc_alloc_vcs r') → sw_ok r' (_sw_alloc_vcs r') →
  _vc_alloc_vcs_tmp r' = [] ∧ _sw_alloc_vcs_tmp r' = [] →
  (∀ f, flits w !! p = Some f → same_flit f f') →
  match pl with
  | RIn _ => True
  | RBuf _ v => f_vc f' = v ∧ 0 ≤ output_port f' < 4 ∧ output_port f' = xy_yx_mesh_port self (dst_id f')
  | ROut o => 0 ≤ f_vc f' < DEFAULT_NUM_VCS ∧ o = xy_yx_mesh_port self (dst_id f')
  end →
  iq_state (put_router w self (<[p := f']> (flits w)) r') r' rem.
Proof.
  intros [Hs Hb Ho Hp Hh Hvc Hsw He [Hw1 Hw2]] Hb' Hpl Hto Hrest Hvc' Hsw' He' Hsame Hfl.
  destruct (om_wf_cons _ _ _ Hw1) as [Hwr Hnone].
  apply Forall_cons in Hw2 as [Hi Hw2].
  assert (Hin : over self ((i, p) :: rem) (mid_slot w) (At self (RIn i)) = [p]).
  { simpl. by rewrite decide_True, decide_True. }
  destruct (pl_ok _ _ _ Hp (At self (RIn i)) p) as (f & Hf & Hcf & _); [rewrite Hin; left|].
  specialize (Hsame f Hf).
  assert (Hcf' : countable_flit f').
  { unfold countable_flit in *. by destruct Hsame as (_ & _ & _ & _ & _ & _ & ->). }
  split; try done.
  - by apply put_lookup with (r0 := r).
  - eapply others_put; [done|done|]. apply length_insert.
  - apply (placed_move K (flits w) (over self ((i, p) :: rem) (mid_slot w)) _ p []
      (At self (RIn i)) (At self pl)); [done|done|intros [= Heq]; by destruct (Hpl i)| | | |].
    + simpl. rewrite decide_True by done. by rewrite Hnone.
    + destruct pl as [j|j u|o]; [by destruct (Hpl j)| |];
        unfold over, put_router; rewrite (mid_slot_set _ _ _ _ _ _ Hs), decide_True by done;
        rewrite (mid_slot_at _ _ _ _ Hs); exact Hto.
    + intros x Hx1 Hx2. unfold over, put_router.
      destruct x as [c|c|n [j|j u|o]]; [done|done| | |].
      * case_decide as Hn.
        -- subst. simpl. rewrite decide_False; [done|]. intros ->. done.
        -- rewrite (mid_slot_set _ _ _ _ _ _ Hs). by rewrite decide_False.
      * rewrite (mid_slot_set _ _ _ _ _ _ Hs). case_decide; [|done]. subst.
        rewrite (mid_slot_at _ _ _ _ Hs). apply Hrest; [congruence|done].
      * rewrite (mid_slot_set _ _ _ _ _ _ Hs). case_decide; [|done]. subst.
        rewrite (mid_slot_at _ _ _ _ Hs). apply Hrest; [congruence|done].
    + split; [done|]. destruct pl; [by edestruct Hpl|done|done].
  - simpl. etrans; [exact Hh|]. by apply (heap_rel_insert same_flit _ _ f).
Qed.

(** ** A flit that leaves the network here *)

Lemma queue_eject_run w r rem i p f clk :
  iq_state w r ((i, p) :: rem) → flits w !! p = Some f → xy_yx_mesh_port self (dst_id f) = 4 →
  let f1 := f.{output_port := 4} in
  ∃ w' r',
    (on_router self (on_output_buffer 4 (modify (λ q, q ++ [p]))) ;;
     on_router self (zoom stats (λ s r, r.{stats := s}) (receivedFlit clk f1)))
      (put_router w self (<[p := f1]> (flits w)) r) = Ok (tt, w') ∧ iq_state w' r' rem.
Proof.
  intros Hiq Hf Hxy f1. pose proof Hiq as [Hs Hb Ho Hp Hh Hvc Hsw He [Hw1 Hw2]].
  destruct (pl_ok _ _ _ Hp (At self (RIn i)) p) as (f0 & Hf0 & Hcf & Hv).
  { simpl. rewrite !decide_True by done. left. }
  simplify_eq.
  destruct (vlookup_in_range (_output_buffer r) 4) as [ob Hob]; [by rewrite (rb_outbuf _ _ _ Hb)|].
  destruct (receivedFlit_run clk f1 (stats r) (rb_stats _ _ _ Hb) Hcf) as (st & Hst & Hwf & _ & _).
  set (r' := r.{_output_buffer := vinsert 4 (ob ++ [p]) (_output_buffer r)}.{stats := st}).
  eexists _, r'. split.
  - eapply bind_Ok.
    { eapply put_run; [done|]. unfold on_output_buffer, zoom. by rewrite (zoom_at_Some _ _ _ _ Hob). }
    eapply put_run; [done|]. unfold zoom. simpl. by rewrite Hst.
  - apply (iq_move w r r' rem i p f1 (ROut 4)); try done.
    + destruct Hb. split; try done. simpl. by rewrite zlength_vinsert.
    + simpl. rewrite Hob. by rewrite vlookup_vinsert_eq by (by eapply vlookup_Some_range).
    + intros x Hx1 Hx2. destruct x as [j|j u|o]; [by destruct (Hx2 j)|done|].
      simpl. rewrite vlookup_vinsert_ne; [done|]. intros <-. done.
    + intros f' Hf'. by simplify_eq.
Qed.

(** ** A flit that is queued *)

Definition queued (i v : Z) (c' : VirtualChannel) (st : StatsNoC) (l : list vc_entry) (r : ENoCRouter) :
    ENoCRouter :=
  (set_vcq i v c' r).{stats := st}.{_vc_alloc_vcs := l}
    .{_sw_alloc_vcs := _sw_alloc_vcs r ++ [mkentry (-1) i v (-1)] }.

Lemma queued_state w r rem i p f v c c' st l :
  iq_state w r ((i, p) :: rem) → flits w !! p = Some f → vc_at r i v = Some c →
  _buffer c' = _buffer c ++ [p] → occupancy c' = zlength (_buffer c') → out_ok c' →
  (_state c ≠ active → _state c' ≠ active) → stats_wf st →
  (∀ e, e ∈ l → e ∈ _vc_alloc_vcs r ∨ (e = mkentry (-1) i v (-1) ∧ _state c' ≠ active)) →
  ∀ f', same_flit f f' → f_vc f' = v → 0 ≤ output_port f' < 4 →
  output_port f' = xy_yx_mesh_port self (dst_id f') →
  let r' := queued i v c' st l r in
  iq_state (put_router w self (<[p := f']> (flits w)) r') r' rem.
Proof.
  intros Hiq Hf Hc Hq Hocc Hok Hstate Hst Hl f' Hsame Hfv Hop Hxy r'.
  pose proof Hiq as [Hs Hb Ho Hp Hh Hvc [Hsw1 Hsw2] He [Hw1 Hw2]].
  destruct (vc_at_range hlen self r i v c Hb Hc) as [Hir Hvr].
  pose proof (set_vcq_base hlen self i v c c' r Hb Hc Hocc Hok) as Hb'.
  assert (Hfr : ∃ bufs, set_vcq i v c' r = r.{_buf := bufs}) by apply set_vcq_frame.
  assert (Hqu : ∀ j u, queue r' j u = if decide (j = i ∧ u = v) then _buffer c' else queue r j u).
  { intros j u. transitivity (queue (set_vcq i v c' r) j u); [done|]. by apply (queue_set_vcq i v c). }
  assert (Hva : ∀ j u, vc_at r' j u = if decide (j = i ∧ u = v) then Some c' else vc_at r j u).
  { intros j u. transitivity (vc_at (set_vcq i v c' r) j u); [done|].
    by apply (vc_at_set_vcq i v c' r c). }
  assert (Hne : _buffer c' ≠ []) by (rewrite Hq; by destruct (_buffer c)).
  assert (Hready : ∀ e, vc_ready r e → vc_ready r' e).
  { intros e (Heo & c1 & Hc1 & Hst1 & Hne1). split; [done|]. rewrite Hva.
    case_decide as Hj; [|by exists c1]. destruct Hj as [Hj1 Hj2].
    rewrite Hj1, Hj2, Hc in Hc1. simplify_eq.
    exists c'. split_and!; [done|by apply Hstate|done]. }
  apply (iq_move w r r' rem i p f' (RBuf i v)); try done.
  - unfold r', queued. destruct Hfr as [bufs Hfr]. rewrite Hfr in *. destruct Hb'. by split.
  - simpl. rewrite Hqu, decide_True by done. rewrite Hq. by rewrite queue_vc_at, Hc.
  - intros x Hx1 Hx2. destruct x as [j|j u|o]; [by destruct (Hx2 j)| |].
    + simpl. rewrite Hqu, decide_False; [done|]. intros [-> ->]. done.
    + unfold r', queued. by destruct Hfr as [bufs ->].
  - rewrite Forall_forall in *. intros e Hin. destruct (Hl e Hin) as [Hold|[-> Hst']].
    + apply Hready. by apply Hvc.
    + split; [by split|]. exists c'. simpl. by rewrite Hva, decide_True.
  - split; simpl.
    + apply Forall_app. split; [done|]. constructor; [by split|done].
    + intros j u. rewrite sw_count_app, Hqu. specialize (Hsw2 j u).
      change (sw_count j u [mkentry (-1) i v (-1)]) with
        (length (filter (same_vc j u) [mkentry (-1) i v (-1)])).
      rewrite filter_cons. unfold same_vc at 1. simpl. case_decide as Hju.
      * destruct Hju as [<- <-]. rewrite decide_True by done. rewrite Hq, length_app.
        rewrite queue_vc_at, Hc in Hsw2. simpl. lia.
      * rewrite decide_False by naive_solver. simpl. lia.
  - unfold r', queued. destruct Hfr as [bufs ->]. done.
  - intros g Hg. by simplify_eq.
Qed.

Lemma queue_flit_run w r rem i p f port :
  iq_state w r ((i, p) :: rem) → flits w !! p = Some f → 0 ≤ port < 4 →
  port = xy_yx_mesh_port self (dst_id f) →
  ∃ w' r', queue_flit self i (f_vc f) p
      (put_router w self (<[p := f.{output_port := port}]> (flits w)) r) = Ok (tt, w') ∧
    iq_state w' r' rem.
Proof.
  intros Hiq Hf Hport Hxy. pose proof Hiq as [Hs Hb Ho Hp Hh Hvc Hsw He [Hw1 Hw2]].
  apply Forall_cons in Hw2 as [Hir _]. simpl in Hir.
  destruct (pl_ok _ _ _ Hp (At self (RIn i)) p) as (f0 & Hf0 & Hcf & Hv).
  { simpl. rewrite !decide_True by done. left. }
  revert Hxy. simplify_eq. intros Hxy. set (v := f_vc f) in *.
  destruct (vc_at_exists hlen self r i v Hb Hir Hv) as (c & Hc & Hoc & Hocc).
  set (c1 := c.{_buffer ::= λ q, q ++ [p] }.{occupancy ::= λ n, n + 1}).
  set (hd := bool_decide (flit_type f = FLIT_TYPE_HEAD)).
  set (c2 := if hd then c1.{_state := vc_alloc} else c1).
  set (st := (stats r).{energy_router ::= InputBuffer_dynamic_energy_per_vc_access}).
  set (l := if hd then _vc_alloc_vcs r ++ [mkentry (-1) i v (-1)] else _vc_alloc_vcs r).
  set (f1 := f.{output_port := port}). set (f2 := f1.{f_vc := v}).
  set (f3 := Update_buff_dyn_energy (dynamic_energy_per_vc (_inb r)) f2).
  set (r1 := set_vcq i v c1 r).
  assert (Hfr : ∀ c', ∃ bufs, set_vcq i v c' r = r.{_buf := bufs}) by (intros; apply set_vcq_frame).
  assert (Hpl : ∀ g h, flits w !! p = Some g → <[p := h]> (flits w) !! p = Some h).
  { intros g h Hg. apply list_lookup_insert_eq. by eapply lookup_lt_Some. }
  exists (put_router w self (<[p := f3]> (flits w)) (queued i v c2 st l r)), (queued i v c2 st l r). split.
  - unfold queue_flit.
    eapply bind_Ok; [eapply put_run; [done|]; by eapply (add_run hlen self)|].
    eapply bind_Ok; [by apply put_update, Hpl with (g := f)|].
    rewrite list_insert_insert_eq. fold f2 c1 r1.
    eapply bind_Ok with (a := tt) (s' := put_router w self (<[p := f2]> (flits w)) (r1.{stats := st})).
    { eapply put_run; [done|]. unfold meter, modify, r1. by destruct (Hfr c1) as [bufs ->]. }
    eapply bind_Ok with (a := dynamic_energy_per_vc (_inb r))
      (s' := put_router w self (<[p := f2]> (flits w)) (r1.{stats := st})).
    { eapply put_run; [done|]. unfold gets, r1. by destruct (Hfr c1) as [bufs ->]. }
    eapply bind_Ok; [by apply put_update, Hpl with (g := f)|].
    rewrite list_insert_insert_eq. fold f3.
    eapply bind_Ok; [by apply put_deref, Hpl with (g := f)|].
    change (flit_type f3) with (flit_type f). fold hd.
    eapply bind_Ok with (a := tt) (s' := put_router w self (<[p := f3]> (flits w))
      ((set_vcq i v c2 r).{stats := st}.{_vc_alloc_vcs := l})).
    + unfold when, c2, l. destruct hd.
      * eapply bind_Ok with (a := tt) (s' := put_router w self (<[p := f3]> (flits w))
          (r1.{stats := st}.{_vc_alloc_vcs := _vc_alloc_vcs r ++ [mkentry (-1) i v (-1)] })).
        { eapply put_run; [done|]. unfold modify, r1. by destruct (Hfr c1) as [bufs ->]. }
        eapply put_run; [done|].
        unfold Buffer_SetState. erewrite (on_vc_set i v _ _ c1); [| |done].
        -- rewrite set_vc_entries, set_vc_stats. unfold r1.
           by rewrite (set_vc_set_vcq _ _ _ _ _ _ Hc).
        -- transitivity (vc_at r1 i v); [done|]. unfold r1.
           rewrite (vc_at_set_vcq _ _ _ _ _ _ _ Hc). by rewrite decide_True.
      * unfold mret, M_ret. do 2 f_equal. unfold r1. by destruct (Hfr c1) as [bufs ->].
    + eapply put_run; [done|]. unfold modify, queued. by destruct (Hfr c2) as [bufs ->].
  - apply (queued_state w r rem i p f v c c2 st l Hiq Hf Hc); try done.
    + unfold c2. by destruct hd.
    + unfold c2. destruct hd; simpl; rewrite Hocc; unfold zlength; rewrite length_app; simpl; lia.
    + unfold c2. destruct hd; [by intros ?|]. intros Hact. by apply Hoc.
    + unfold c2. by destruct hd.
    + apply Hb.
    + intros e. unfold l, c2. destruct hd; [|by left].
      rewrite elem_of_app, list_elem_of_singleton. intros [?|?]; [by left|by right].
Qed.

Lemma queue_input_run w r rem i p clk :
  iq_state w r ((i, p) :: rem) →
  ∃ w' r', queue_input self clk (i, p) w = Ok (tt, w') ∧ iq_state w' r' rem.
Proof.
  intros Hiq. pose proof Hiq as [Hs Hb Ho Hp Hh Hvc Hsw He [Hw1 Hw2]].
  apply Forall_cons in Hw2 as [Hir _]. simpl in Hir.
  destruct (pl_ok _ _ _ Hp (At self (RIn i)) p) as (f & Hf & Hcf & Hv).
  { simpl. rewrite !decide_True by done. left. }
  destruct (vc_at_exists hlen self r i (f_vc f) Hb Hir Hv) as (c & Hc & _).
  set (port := xy_yx_mesh_port (_id r) (dst_id f)).
  pose proof (xy_yx_mesh_port_range (_id r) (dst_id f)) as Hport. fold port in Hport.
  assert (Hrun : ∀ X, (if decide (port = 4) then
    (on_router self (on_output_buffer 4 (modify (λ q, q ++ [p]))) ;;
     on_router self (zoom stats (λ s r, r.{stats := s}) (receivedFlit clk f.{output_port := port})))
    else queue_flit self i (f_vc f) p)
      (put_router w self (<[p := f.{output_port := port}]> (flits w)) r) = X →
    queue_input self clk (i, p) w = X).
  { intros X HX. rewrite (put_start w self r Hs) at 1. unfold queue_input.
    eapply bind_Ok; [by eapply put_run|].
    eapply bind_Ok; [unfold check; rewrite bool_decide_true by (by rewrite (rb_inputs _ _ _ Hb)); done|].
    eapply bind_Ok; [by apply put_deref|].
    eapply bind_Ok; [unfold check; rewrite bool_decide_true by (by rewrite (rb_vcs _ _ _ Hb)); done|].
    eapply bind_Ok; [eapply put_run; [done|]; by eapply ask_vc_run|].
    eapply bind_Ok with (a := tt)
      (s' := put_router w self (<[p := f.{output_port := port}]> (flits w)) r).
    { unfold VC_Route, xy_yx_mesh. by erewrite put_update. }
    eapply bind_Ok; [apply put_deref; apply list_lookup_insert_eq; by eapply lookup_lt_Some|].
    change (output_port f.{output_port := port}) with port.
    destruct (decide (port = 4)) as [Hp4|]; [|done]. by rewrite Hp4 in HX |- *. }
  case_decide as H4.
  - rewrite H4 in Hrun. destruct (queue_eject_run w r rem i p f clk Hiq Hf) as (w' & r' & Hrun' & Hiq').
    { rewrite <-H4. unfold port. by rewrite (rb_id _ _ _ Hb). }
    exists w', r'. split; [|done]. by apply Hrun.
  - destruct (queue_flit_run w r rem i p f port Hiq Hf) as (w' & r' & Hrun' & Hiq'); [lia| |].
    { unfold port. by rewrite (rb_id _ _ _ Hb). }
    exists w', r'. split; [|done]. by apply Hrun.
Qed.

Lemma queue_inputs_run w r rem clk :
  iq_state w r rem →
  ∃ w' r', for_each rem (queue_input self clk) w = Ok (tt, w') ∧ iq_state w' r' [].
Proof.
  revert w r. induction rem as [|[i p] rem IH]; intros w r Hiq; simpl; [by exists w, r|].
  destruct (queue_input_run w r rem i p clk Hiq) as (w1 & r1 & Hrun & Hiq1).
  destruct (IH w1 r1 Hiq1) as (w' & r' & Hrun' & Hiq').
  exists w', r'. split; [|done]. by eapply bind_Ok.
Qed.

(** ** The whole cycle *)

Record clk_state (w : World) (r : ENoCRouter) : Prop := {
  cl_self : routers w !z self = Some r;
  cl_ok : router_ok hlen self r;
  cl_others : others_ok hlen cs self w;
  cl_placed : placed K (flits w) (mid_slot w);
  cl_same : heap_same h0 (flits w);
}.

Lemma clk_state_step w r r' w' :
  clk_state w r → step_rel self w r' w' → router_ok hlen self r' →
  (∀ p, rslot r' p = rslot r p) → clk_state w' r'.
Proof.
  intros [Hs Hok Ho Hp Hh] Hst Hok' Hsame. split.
  - apply Hst.
  - done.
  - by eapply others_step.
  - eapply placed_ext; [done|apply Hst|]. intros l. by eapply mid_slot_step.
  - etrans; [done|]. apply heap_sim_same, Hst.
Qed.

(** a change of the router that keeps its places *)
Lemma clk_state_self w r r' :
  clk_state w r → router_ok hlen self r' → (∀ p, rslot r' p = rslot r p) →
  clk_state (w.{routers := vinsert self r' (routers w)}) r'.
Proof. intros Hc. eapply clk_state_step; [done|]. by apply (step_self self w r), Hc. Qed.

Lemma InputQueuing_run w r clk :
  clk_state w r →
  ∃ w' r', _InputQueuing self clk w = Ok (tt, w') ∧ clk_state w' r' ∧ _in_queue_flits r' = [].
Proof.
  intros [Hs [Hb [Hi1 Hi2] Hvc Hsw [Ht1 Ht2]] Ho Hp Hh].
  destruct (queue_inputs_run w r (_in_queue_flits r) clk) as (w1 & r1 & Hrun & Hiq).
  { split; try done. eapply placed_ext; [done|done|]. intros l. unfold over.
    destruct l as [| |n [i|i v|o]]; try done.
    case_decide; [|done]. subst. simpl. by rewrite Hs. }
  destruct Hiq as [Hs1 Hb1 Ho1 Hp1 Hh1 Hvc1 Hsw1 [E1 E2] _].
  set (r2 := r1.{_in_queue_flits := [] }).
  exists (w1.{routers := vinsert self r2 (routers w1)}), r2. split_and!; [|split|done].
  - unfold _InputQueuing. eapply bind_Ok; [by eapply on_router_read|].
    eapply bind_Ok; [exact Hrun|]. by eapply on_router_run.
  - simpl. apply vlookup_vinsert_eq. by eapply vlookup_Some_range.
  - split; try done. destruct Hb1. by split. by split; [constructor|].
  - eapply others_step; [done|]. by eapply step_self.
  - eapply placed_ext; [exact Hp1|done|]. intros l.
    transitivity (mid_slot (put_router w1 self (flits w1) r2) l); [done|]. unfold put_router, over.
    rewrite (mid_slot_set _ _ _ _ _ _ Hs1). destruct l as [| |n p]; [done|done|].
    destruct p as [i| |]; (case_decide; [|done]); subst; simpl; by rewrite ?Hs1.
  - done.
Qed.

(** fields that [router_ok] looks at only through the allocators and the statistics *)
Lemma router_ok_allocators r av as_ st :
  router_ok hlen self r → alloc_wf av → dims av = (40, 40, 1) → alloc_wf as_ → dims as_ = (5, 5, 1) →
  stats_wf st → router_ok hlen self (r.{_vc_allocator := av}.{_sw_allocator := as_}.{stats := st}).
Proof. intros [[] Hi Hv Hs Ht] ? ? ? ? ?. by split. Qed.

Lemma clear_vc_run w r :
  clk_state w r →
  let r' := r.{_vc_allocator ::= cleared} in
  on_router self (on_vc_allocator SparseAllocator_Clear) w =
    Ok (tt, w.{routers := vinsert self r' (routers w)}) ∧
  clk_state (w.{routers := vinsert self r' (routers w)}) r'.
Proof.
  intros Hc r'. pose proof Hc as [Hs Hok Ho Hp Hh]. pose proof Hok as [Hb Hi Hv Hsw Ht].
  split.
  - eapply on_router_run; [done|]. unfold on_vc_allocator, zoom.
    by rewrite SparseAllocator_Clear_run by apply Hb.
  - apply (clk_state_self w r r' Hc); [|by intros []].
    replace r' with (r.{_vc_allocator := cleared (_vc_allocator r)}.{_sw_allocator := _sw_allocator r}
      .{stats := stats r}) by (by destruct r).
    apply router_ok_allocators; try apply Hb; [done|by apply cleared_wf, Hb].
Qed.

Lemma clear_sw_run w r :
  clk_state w r →
  let r' := r.{_sw_allocator ::= cleared} in
  on_router self (on_sw_allocator SparseAllocator_Clear) w =
    Ok (tt, w.{routers := vinsert self r' (routers w)}) ∧
  clk_state (w.{routers := vinsert self r' (routers w)}) r'.
Proof.
  intros Hc r'. pose proof Hc as [Hs Hok Ho Hp Hh]. pose proof Hok as [Hb Hi Hv Hsw Ht].
  split.
  - eapply on_router_run; [done|]. unfold on_sw_allocator, zoom.
    by rewrite SparseAllocator_Clear_run by apply Hb.
  - apply (clk_state_self w r r' Hc); [|by intros []].
    replace r' with (r.{_vc_allocator := _vc_allocator r}.{_sw_allocator := cleared (_sw_allocator r)}
      .{stats := stats r}) by (by destruct r).
    apply router_ok_allocators; try apply Hb; [done|by apply cleared_wf, Hb].
Qed.

Lemma meter_run w r g :
  clk_state w r →
  let r' := r.{stats ::= λ s, s.{energy_router ::= g} } in
  on_router self (meter g) w = Ok (tt, w.{routers := vinsert self r' (routers w)}) ∧
  clk_state (w.{routers := vinsert self r' (routers w)}) r'.
Proof.
  intros Hc r'. pose proof Hc as [Hs Hok Ho Hp Hh]. pose proof Hok as [Hb Hi Hv Hsw Ht].
  split; [by eapply on_router_run|].
  apply (clk_state_self w r r' Hc); [|by intros []].
  replace r' with (r.{_vc_allocator := _vc_allocator r}.{_sw_allocator := _sw_allocator r}
    .{stats := stats r'}) by (by destruct r).
  apply router_ok_allocators; try apply Hb; done.
Qed.

(** a router whose places hold flits gives the fronts the VC allocation needs *)
Lemma placed_fronts w r :
  routers w !z self = Some r → placed K (flits w) (mid_slot w) →
  ∀ i v p q, queue r i v = p :: q → ∃ f, flits w !! p = Some f ∧ 0 ≤ output_port f < 4.
Proof.
  intros Hs Hp i v p q Hq. destruct (pl_ok _ _ _ Hp (At self (RBuf i v)) p) as (f & Hf & _ & _ & ? & _).
  { rewrite (mid_slot_at _ _ _ _ Hs). simpl. rewrite Hq. left. }
  by exists f.
Qed.

Lemma VCAlloc_clk_run w r :
  clk_state w r → _vc_allocator r = cleared (_vc_allocator r) →
  ∃ w' r', _VCAllocEvaluate self w = Ok (tt, w') ∧ clk_state w' r' ∧
    _in_queue_flits r' = _in_queue_flits r.
Proof.
  intros Hc Hcl. pose proof Hc as [Hs Hok Ho Hp Hh]. pose proof Hok as [Hb Hi Hv Hsw [Ht1 Ht2]].
  destruct (VCAllocEvaluate_run hlen cs self w r Hself Hs Hb Ho (placed_fronts w r Hs Hp))
    as (w' & bufs & s & l & Hrun & Hst & Hb' & Hq' & Hl'); [|done|done|].
  { split; [|apply Hb| |apply Hb| |].
    - replace (with_vca r (_vc_allocator r)) with r by (by destruct r). by apply step_refl.
    - rewrite Hcl. by apply cleared_wf, Hb.
    - rewrite Hcl. by apply Forall_replicate.
    - intros row o Hin. rewrite Hcl in Hin. by apply cleared_no_request in Hin. }
  exists w', (granting_router r bufs s l []). split; [done|]. split; [|done].
  eapply clk_state_step; [exact Hc|exact Hst| |].
  - split; try done.
    destruct Hsw as [? Hsw]. split; [done|]. intros i v. by rewrite Hq'.
  - intros [i|i v|o]; [done|apply Hq'|done].
Qed.

Lemma SWAlloc_clk_run w r :
  clk_state w r → _in_queue_flits r = [] → matching (_sw_allocator r) →
  ∃ w' r', _SWAllocEvaluate self w = Ok (tt, w') ∧ clk_state w' r' ∧ _in_queue_flits r' = [].
Proof.
  intros [Hs [Hb Hi Hv Hsw [Ht1 Ht2]] Ho Hp Hh] Hq Hm.
  destruct (SWAllocEvaluate_run hlen cs self Hself K h0 w r) as (w' & r' & Hrun & Hr'); [|done|].
  { by split. }
  destruct Hr' as [Hs' Hb' Ho' Hp' Hh' Hv' Hsw' (E1 & E2 & E3)].
  exists w', r'. split_and!; [done| |done]. split; try done. split; try done.
  unfold inq_ok. rewrite E3. split; constructor.
Qed.

(** One call of [ENoCRouter::clk]. *)
Lemma Router_clk_run w r clk :
  clk_state w r →
  ∃ w' r', Router_clk self clk w = Ok (tt, w') ∧ clk_state w' r' ∧ _in_queue_flits r' = [].
Proof.
  intros Hc. destruct (InputQueuing_run w r clk Hc) as (w1 & r1 & Hrun1 & Hc1 & Hq1).
  destruct (clear_vc_run w1 r1 Hc1) as [Hrun2 Hc2].
  destruct (VCAlloc_clk_run _ _ Hc2 eq_refl) as (w3 & r3 & Hrun3 & Hc3 & Hq3).
  destruct (meter_run w3 r3 VCAlocator_dynamic_energy Hc3) as [Hrun4 Hc4].
  destruct (clear_sw_run _ _ Hc4) as [Hrun5 Hc5].
  destruct (SWAlloc_clk_run _ _ Hc5) as (w6 & r6 & Hrun6 & Hc6 & Hq6).
  { simpl. by rewrite Hq3. }
  { by apply cleared_wf, (cl_ok _ _ Hc3). }
  destruct (meter_run w6 r6 SWAlocator_dynamic_energy Hc6) as [Hrun7 Hc7].
  eexists _, _. split; [|split; [exact Hc7|done]]. unfold Router_clk.
  eapply bind_Ok; [exact Hrun1|]. eapply bind_Ok; [exact Hrun2|].
  eapply bind_Ok; [exact Hrun3|]. eapply bind_Ok; [exact Hrun4|].
  eapply bind_Ok; [exact Hrun5|]. eapply bind_Ok; [exact Hrun6|]. exact Hrun7.
Qed.
End cycle.
