(* ===== verification/NetworkSafe.v ===== *)
(** * A cycle of the network is safe and conserves flits

    The three phases of [NetworkNoC::clk] over all channels and routers,
    against the wiring interface: from a state of the invariant [net_ok] the
    cycle returns, restores the invariant, changes no packet field of a
    flit, and loses exactly the flits that the ejection channels had
    delivered. *)

From S2P Require Import Prelude Double NoCMain Config Element Stats Channel.
From S2P Require Import VirtualChannel Allocator FlitCoding Router Network RouterInv RouterSafe.
From S2P Require Import RouterVC RouterSW RouterCycle.

Lemma for_each_fmap {S A B} (f : A → B) (l : list A) (body : B → M S unit) s :
  for_each (f <$> l) body s = for_each l (λ a, body (f a)) s.
Proof.
  revert s. induction l as [|a l IH]; intros s; csimpl; [done|].
  unfold mbind, M_bind. destruct (body (f a) s) as [[[] s']|]; [|done]. apply IH.
Qed.

Lemma for_each_ext {S A} (l : list A) (f g : A → M S unit) s :
  (∀ a, f a = g a) → for_each l f s = for_each l g s.
Proof.
  intros Hfg. revert s. induction l as [|a l IH]; intros s; simpl; [done|].
  rewrite Hfg. unfold mbind, M_bind. destruct (g a s) as [[[] s']|]; [|done]. apply IH.
Qed.

Lemma for_each_app_run {S A} (l1 l2 : list A) (body : A → M S unit) s s1 x :
  for_each l1 body s = Ok (tt, s1) → for_each l2 body s1 = x → for_each (l1 ++ l2) body s = x.
Proof.
  revert s. induction l1 as [|a l1 IH]; intros s H1 H2; simpl in *.
  - unfold mret, M_ret in H1. by simplify_eq.
  - unfold mbind, M_bind in *. destruct (body a s) as [[[] s']|]; [|done]. by apply IH.
Qed.

(** the same method on every channel *)
Lemma all_channels_run (m : M FlitChannel unit) (g : FlitChannel → FlitChannel) (w : World) n :
  zlength (channels w) = n →
  (∀ c fc, channels w !z c = Some fc → m fc = Ok (tt, g fc)) →
  for_each (seqZ 0 n) (λ c, on_channel c m) w = Ok (tt, w.{channels := g <$> channels w}).
Proof.
  intros Hn Hm. pose proof (zlength_nonneg (channels w)).
  destruct (triple_for_range 0 n (λ c, on_channel c m)
    (λ k w', ∃ l, w' = w.{channels := l} ∧ zlength l = n ∧
       ∀ i, l !z i = if decide (i < k) then g <$> channels w !z i else channels w !z i))
    with (s := w) as ([] & w' & Hrun & l & -> & Hl & Hli); [lia| | |].
  - intros k Hk w' (l & -> & Hl & Hli).
    destruct (vlookup_in_range (channels w) k) as [fc Hfc]; [lia|].
    assert (l !z k = Some fc) as Hk'. { rewrite Hli. by rewrite decide_False by lia. }
    exists tt, (w.{channels := vinsert k (g fc) l}). split.
    { by rewrite (on_channel_run k m _ fc tt (g fc)) by (done || by apply (Hm k)). }
    exists (vinsert k (g fc) l). split_and!; [done|by rewrite zlength_vinsert|].
    intros i. destruct (decide (i = k)) as [->|Hne].
    + rewrite vlookup_vinsert_eq by lia. rewrite decide_True by lia. by rewrite Hfc.
    + rewrite vlookup_vinsert_ne by done. rewrite Hli.
      destruct (decide (i < k)), (decide (i < k + 1)); try done; lia.
  - exists (channels w). split_and!; [by destruct w|done|]. intros i.
    case_decide as Hi; [|done]. rewrite vlookup_None by lia. done.
  - unfold for_range in Hrun. rewrite Z.sub_0_r in Hrun. rewrite Hrun.
    enough (l = g <$> channels w) as -> by done. apply list_eq. intros i. rewrite list_lookup_fmap, <-!vlookup_nat, Hli.
    case_decide; [done|]. rewrite vlookup_None by lia. done.
Qed.

(** the effect of the two phases on one channel *)
Definition read_channel (clk : Z) (fc : FlitChannel) : FlitChannel :=
  fc.{base_channel ::= λ c, match _input c with
    | Some f => c.{_wait_queue ::= λ q, q ++ [(release_time clk (_delay c), f)] }.{_input := None}
    | None => c
    end}.
Definition write_channel (fc : FlitChannel) : FlitChannel :=
  fc.{base_channel ::= λ c, c.{_output := snd <$> head (_wait_queue c)}.{_wait_queue := [] } }.

Definition at_most_one (clk : Z) (fc : FlitChannel) : Prop :=
  _wait_queue (base_channel fc) = [] ∨ ∃ p, _wait_queue (base_channel fc) = [(to_int clk, p)].

Lemma read_channel_run clk fc : FlitChannel_ReadInputs clk fc = Ok (tt, read_channel clk fc).
Proof. done. Qed.

Lemma write_channel_run clk fc :
  at_most_one clk fc → FlitChannel_WriteOutputs clk fc = Ok (tt, write_channel fc).
Proof.
  unfold FlitChannel_WriteOutputs, on_base, zoom, Channel_WriteOutputs, write_channel.
  destruct fc as [[d i o q] ? ? ? ? ? ?]. intros [Hq|[p Hq]]; simpl in Hq; subst; run_steps; [done|].
  rewrite decide_False by lia. by rewrite bool_decide_true by done.
Qed.

Section net.
Context `{Topology} (hlen : nat).
Hypothesis Hnn : 0 ≤ n_nodes.

Definition modules : list TimedModule :=
  (TmChannel <$> seqZ 0 n_chans) ++ (TmRouter <$> seqZ 0 n_nodes).

(** ** The invariant between cycles *)

Record net_ok (K : flit_ptr → Prop) (w : World) : Prop := {
  no_len : zlength (routers w) = n_nodes;
  no_clen : zlength (channels w) = n_chans;
  no_routers : ∀ n r, routers w !z n = Some r → router_ok hlen n r ∧ _in_queue_flits r = [];
  no_chans : ∀ c fc, channels w !z c = Some fc →
    chan_static c fc ∧ _wait_queue (base_channel fc) = [];
  no_hlen : length (flits w) = hlen;
  no_placed : placed K (flits w) (slot w);
}.

(** the flits that have left the network at the start of a cycle *)
Definition delivered (w : World) (p : flit_ptr) : Prop :=
  ∃ c, sink_of c = None ∧ p ∈ slot w (Done c).

(** ** Phase 1: reading *)

(** the output of channel [c] has not been read, when the routers before
    [n0] and the inputs before [i0] of router [n0] have *)
Definition unread (n0 i0 c : Z) : Prop :=
  match sink_of c with
  | Some n => n0 < n ∨ (n = n0 ∧ i0 ≤ sink_port c)
  | None => False
  end.
#[export] Instance unread_dec n0 i0 c : Decision (unread n0 i0 c).
Proof. unfold unread. destruct (sink_of c); apply _. Defined.

Definition read_slot (n0 i0 : Z) (w : World) (l : place) : list flit_ptr :=
  match l with
  | Done c => if decide (unread n0 i0 c) then slot w l else []
  | _ => slot w l
  end.

Section cycle.
Context (K : flit_ptr → Prop) (clk : Z) (h0 : list Flit) (cs : list FlitChannel).
(** the channels after they have read their input *)
Hypothesis Hcs : ∀ c fc, cs !z c = Some fc →
  chan_static c fc ∧ _input (base_channel fc) = None ∧ at_most_one clk fc.
Hypothesis Hclen : zlength cs = n_chans.

Record rd_state (n0 i0 : Z) (w : World) : Prop := {
  rd_len : zlength (routers w) = n_nodes;
  rd_cs : channels w = cs;
  rd_hlen : length (flits w) = hlen;
  rd_flits : flits w = h0;
  rd_routers : ∀ n r, routers w !z n = Some r → router_ok hlen n r;
  rd_todo : ∀ n r, n0 < n → routers w !z n = Some r → _in_queue_flits r = [];
  rd_here : ∀ r, routers w !z n0 = Some r → Forall (λ ip, ip.1 < i0) (_in_queue_flits r);
  rd_placed : placed K (flits w) (read_slot n0 i0 w);
}.

Lemma in_chan_at n i :
  0 ≤ n < n_nodes → 0 ≤ i < 5 →
  ∃ c fc, in_chans n !z i = Some c ∧ cs !z c = Some fc ∧ sink_of c = Some n ∧ sink_port c = i.
Proof.
  intros Hn Hi. destruct (in_chans_ok n Hn) as [Hlen Hr].
  destruct (vlookup_in_range (in_chans n) i) as [c Hc]; [lia|].
  pose proof (Forall_vlookup _ _ _ _ Hr Hc) as Hcr. simpl in Hcr.
  destruct (vlookup_in_range cs c) as [fc Hfc]; [by rewrite Hclen|].
  destruct (in_sink n i c Hn Hc) as [? ?]. by exists c, fc.
Qed.

Lemma unread_step n0 i0 c :
  unread n0 i0 c ↔ unread n0 (i0 + 1) c ∨ (sink_of c = Some n0 ∧ sink_port c = i0).
Proof.
  unfold unread. destruct (sink_of c) as [n|]; [|split; [done|]; by intros [|[? _]]].
  split.
  - intros [?|[-> ?]]; [by left; left|]. destruct (decide (sink_port c = i0)); [by right|].
    left; right. lia.
  - intros [[?|[-> ?]]|[[= ->] ?]]; [by left|right; lia|right; lia].
Qed.

(** the router after it has read one input *)
Definition received (i : Z) (o : option flit_ptr) (st : StatsNoC) (r : ENoCRouter) : ENoCRouter :=
  (match o with Some f => r.{_in_queue_flits ::= om_insert i f} | None => r end).{stats := st}.

Lemma received_ok n i o st r :
  router_ok hlen n r → 0 ≤ i < 5 → stats_wf st → Forall (λ ip, ip.1 < i) (_in_queue_flits r) →
  router_ok hlen n (received i o st r) ∧
  Forall (λ ip, ip.1 < i + 1) (_in_queue_flits (received i o st r)) ∧
  (∀ p, (∀ j, p ≠ RIn j) → rslot (received i o st r) p = rslot r p) ∧
  ∀ j, rslot (received i o st r) (RIn j) = if decide (j = i) then option_list o else rslot r (RIn j).
Proof.
  intros Hok Hi Hst Hlt. pose proof Hok as [Hb [Hi1 Hi2] Hv Hs Ht].
  assert (Hnone : om_find i (_in_queue_flits r) = None).
  { apply om_find_None_keys. intros (ip & -> & Hin)%list_elem_of_fmap.
    rewrite Forall_forall in Hlt. specialize (Hlt _ Hin). simpl in Hlt. lia. }
  assert (Hset : ∀ f ip, ip ∈ om_set i f (_in_queue_flits r) → ip.1 = i ∨ ip.1 ∈ (_in_queue_flits r).*1).
  { intros f ip Hin. apply (om_set_keys_elem (_in_queue_flits r) i f).
    apply list_elem_of_fmap. by exists ip. }
  assert (Hkeys : ∀ (P : Z → Prop) k, Forall (λ ip : Z * flit_ptr, P ip.1) (_in_queue_flits r) →
    k ∈ (_in_queue_flits r).*1 → P k).
  { intros P k Hall (ip & -> & Hin)%list_elem_of_fmap. by apply (proj1 (Forall_forall _ _) Hall ip). }
  split_and!.
  - destruct Hb. destruct o as [f|]; (split; [by split| |done|done|done]); [|by split].
    unfold inq_ok. simpl. unfold om_insert. rewrite Hnone. split; [by apply om_wf_set|].
    apply Forall_forall. intros ip [->|Hk]%Hset; [lia|]. by apply (Hkeys (λ k, 0 ≤ k < 5)).
  - destruct o as [f|]; simpl; [|eapply Forall_impl; [exact Hlt|]; intros [a b]; simpl; lia].
    unfold om_insert. rewrite Hnone. apply Forall_forall. intros ip [->|Hk]%Hset; [lia|].
    pose proof (Hkeys (λ k, k < i) _ Hlt Hk). simpl in *. lia.
  - intros [j|j v|k] Hp; [by destruct (Hp j)| |]; by destruct o.
  - intros j. destruct o as [f|]; simpl.
    + unfold om_insert. rewrite Hnone. case_decide as Hj.
      * subst. by rewrite om_find_set_eq.
      * by rewrite om_find_set_ne.
    + case_decide as Hj; [|done]. subst. by rewrite Hnone.
Qed.

Definition static_metered (e : Energy) : Energy :=
  CrossBar_static_energy (SWAlocator_static_energy (VCAlocator_static_energy (InputBuffer_static_energy e))).

Lemma receive_input_eq w n r i act c fc :
  routers w !z n = Some r → _input_channels r !z i = Some c → channels w !z c = Some fc →
  let o := _output (base_channel fc) in
  receive_input n i act w =
    Ok (bool_decide (is_Some o) || act,
        put_router w n (flits w)
          (received i o (stats r).{energy_router ::= static_metered} r)).
Proof.
  intros Hr Hc Hfc o. unfold receive_input.
  eapply bind_Ok; [eapply on_router_read; [done|]; unfold mbind, M_bind, gets, lift;
    by rewrite (vget_Some _ _ _ Hc)|].
  eapply bind_Ok; [apply (on_channel_read c _ w fc o); [done|by destruct fc]|].
  rewrite (put_start w n r Hr) at 1.
  eapply bind_Ok with (a := bool_decide (is_Some o) || act)
    (s' := put_router w n (flits w) (received i o (stats r) r)).
  { destruct o as [f|].
    - eapply bind_Ok; [by eapply put_run|]. by rewrite bool_decide_true by done.
    - rewrite bool_decide_false by (by intros [? ?]). unfold mret, M_ret.
      by replace (received i None (stats r) r) with r by (by destruct r). }
  eapply bind_Ok; [by eapply put_run|]. eapply bind_Ok; [by eapply put_run|].
  eapply bind_Ok; [by eapply put_run|]. eapply bind_Ok; [by eapply put_run|].
  destruct o; done.
Qed.

Lemma receive_step n0 i0 act w :
  0 ≤ n0 < n_nodes → 0 ≤ i0 < 5 → rd_state n0 i0 w →
  ∃ b w', receive_input n0 i0 act w = Ok (b, w') ∧ rd_state n0 (i0 + 1) w'.
Proof.
  intros Hn Hi [Hl Hc Hh Hf Hr Htd Hhe Hp].
  destruct (vlookup_in_range (routers w) n0) as [r Hr0]; [by rewrite Hl|].
  destruct (in_chan_at n0 i0 Hn Hi) as (c & fc & Hic & Hfc & Hsk & Hsp).
  pose proof (Hr _ _ Hr0) as Hok. pose proof (ro_base _ _ _ Hok) as Hb.
  set (o := _output (base_channel fc)).
  set (st := (stats r).{energy_router ::= static_metered}).
  destruct (received_ok n0 i0 o st r Hok Hi (rb_stats _ _ _ Hb) (Hhe _ Hr0))
    as (Hok' & Hlt' & Hsl & Hin).
  set (r' := received i0 o st r) in *.
  exists (bool_decide (is_Some o) || act), (put_router w n0 (flits w) r'). split.
  { apply receive_input_eq with (c := c); [done|by rewrite (rb_in _ _ _ Hb)|by rewrite Hc]. }
  assert (Hself : routers (put_router w n0 (flits w) r') !z n0 = Some r') by (by apply put_lookup with r).
  split; try done.
  - simpl. by rewrite zlength_vinsert.
  - intros n r1 Hr1. simpl in Hr1. vinsert_cases Hr1; [done|by apply Hr].
  - intros n r1 Hlt Hr1. simpl in Hr1. rewrite vlookup_vinsert_ne in Hr1 by lia. eauto.
  - intros r1 Hr1. rewrite Hself in Hr1. by simplify_eq.
  - set (w' := put_router w n0 (flits w) r') in *.
    assert (Hslot : ∀ l, slot w' l =
      match l with At n p => if decide (n = n0) then rslot r' p else slot w l | _ => slot w l end).
    { intros [?|?|n p]; [done|done|]. simpl. case_decide as Hne.
      - subst. by rewrite vlookup_vinsert_eq by (by eapply vlookup_Some_range).
      - by rewrite vlookup_vinsert_ne by done. }
    assert (Hsr : ∀ p, slot w (At n0 p) = rslot r p) by (intros p; simpl; by rewrite Hr0).
    assert (Hrin : rslot r (RIn i0) = []).
    { pose proof (Hin i0) as Hx. simpl. rewrite om_find_None_keys; [done|].
      intros (ip & -> & Hip)%list_elem_of_fmap.
      pose proof (proj1 (Forall_forall _ _) (Hhe _ Hr0) ip Hip) as Hb'. simpl in Hb'. lia. }
    assert (Hdone : slot w (Done c) = option_list o).
    { simpl. by rewrite Hc, Hfc. }
    assert (Hother : ∀ x, x ≠ Done c → x ≠ At n0 (RIn i0) → read_slot n0 (i0 + 1) w' x = read_slot n0 i0 w x).
    { intros x Hx1 Hx2. destruct x as [d|d|n p]; unfold read_slot; rewrite Hslot; [done| |].
      - assert (unread n0 i0 d ↔ unread n0 (i0 + 1) d) as Hiff.
        { rewrite unread_step. split; [|by left]. intros [?|[Hd1 Hd2]]; [done|].
          destruct (sink_in _ _ Hd1) as [_ Hd3]. rewrite Hd2, Hic in Hd3. by simplify_eq. }
        destruct (decide (unread n0 i0 d)), (decide (unread n0 (i0 + 1) d)); tauto.
      - case_decide as Hne; [|done]. subst. rewrite Hsr.
        destruct p as [j|j v|k]; [|by apply Hsl..]. rewrite Hin, decide_False; [done|congruence]. }
    assert (Hd1 : read_slot n0 (i0 + 1) w' (Done c) = []).
    { unfold read_slot. rewrite decide_False; [done|]. unfold unread. rewrite Hsk, Hsp. lia. }
    assert (Hd0 : read_slot n0 i0 w (Done c) = option_list o).
    { unfold read_slot. rewrite decide_True; [done|]. unfold unread. rewrite Hsk, Hsp. lia. }
    assert (Ha1 : read_slot n0 (i0 + 1) w' (At n0 (RIn i0)) = option_list o).
    { unfold read_slot. rewrite Hslot, decide_True by done. rewrite Hin. by rewrite decide_True. }
    assert (Ha0 : read_slot n0 i0 w (At n0 (RIn i0)) = []).
    { unfold read_slot. by rewrite Hsr. }
    destruct o as [p|] eqn:Ho.
    + change (option_list (Some p)) with [p] in *. destruct (pl_ok _ _ _ Hp (Done c) p) as (f & Hfp & Hfo); [rewrite Hd0; left|].
      change (flits w') with (flits w). rewrite <-(list_insert_id (flits w) p f Hfp).
      apply (placed_move K (flits w) (read_slot n0 i0 w) _ p [] (Done c) (At n0 (RIn i0)));
        try done; [by rewrite Ha1, Ha0|]. by destruct Hfo as (? & ? & _).
    + eapply placed_ext; [exact Hp|done|]. intros l.
      destruct (decide (l = Done c)) as [->|H1]; [by rewrite Hd1, Hd0|].
      destruct (decide (l = At n0 (RIn i0))) as [->|H2]; [by rewrite Ha1, Ha0|]. by apply Hother.
Qed.

Lemma receive_loop n0 act w (k : nat) :
  0 ≤ n0 < n_nodes → (k ≤ 5)%nat → rd_state n0 (5 - Z.of_nat k) w →
  ∃ b w', fold_M (receive_input n0) (seqZ (5 - Z.of_nat k) (Z.of_nat k)) act w = Ok (b, w') ∧
    rd_state n0 5 w'.
Proof.
  intros Hn. revert act w. induction k as [|k IH]; intros act w Hk Hrd.
  - exists act, w. rewrite Z.sub_0_r in Hrd. done.
  - destruct (receive_step n0 (5 - Z.of_nat (S k)) act w Hn) as (b & w1 & Hrun & Hrd1); [lia|done|].
    replace (5 - Z.of_nat (S k) + 1) with (5 - Z.of_nat k) in Hrd1 by lia.
    destruct (IH b w1) as (b' & w' & Hrun' & Hrd'); [lia|done|].
    exists b', w'. split; [|done]. rewrite seqZ_cons by lia. simpl.
    eapply bind_Ok; [exact Hrun|].
    replace (Z.succ (5 - Z.of_nat (S k))) with (5 - Z.of_nat k) by lia.
    by replace (Z.pred (Z.of_nat (S k))) with (Z.of_nat k) by lia.
Qed.

Lemma unread_next n0 c : unread n0 5 c ↔ unread (n0 + 1) 0 c.
Proof.
  unfold unread. destruct (sink_of c) as [n|] eqn:Hc; [|done].
  destruct (sink_in c n Hc) as [Hn Hin]. destruct (in_chans_ok n Hn) as [Hlen _].
  pose proof (vlookup_Some_range _ _ _ Hin). lia.
Qed.

Lemma router_read_run n0 w :
  0 ≤ n0 < n_nodes → rd_state n0 0 w →
  ∃ w', Router_ReadInputs n0 clk w = Ok (tt, w') ∧ rd_state (n0 + 1) 0 w'.
Proof.
  intros Hn Hrd. destruct (vlookup_in_range (routers w) n0) as [r Hr]; [by rewrite (rd_len _ _ _ Hrd)|].
  pose proof (ro_base _ _ _ (rd_routers _ _ _ Hrd _ _ Hr)) as Hb.
  destruct (receive_loop n0 false w 5) as (b & w1 & Hrun & [Hl Hc Hh Hf Hrs Htd Hhe Hp]);
    [done|lia|done|].
  destruct (vlookup_in_range (routers w1) n0) as [r1 Hr1]; [by rewrite Hl|].
  set (r2 := r1.{_active ::= λ a, a || b}).
  exists (w1.{routers := vinsert n0 r2 (routers w1)}). split.
  - unfold Router_ReadInputs, _ReceiveFlits.
    eapply bind_Ok; [eapply bind_Ok; [by eapply on_router_read|]|by eapply on_router_run].
    rewrite (rb_inputs _ _ _ Hb). exact Hrun.
  - split; try done.
    + simpl. by rewrite zlength_vinsert.
    + intros n x Hx. simpl in Hx. vinsert_cases Hx; [|by apply Hrs].
      destruct (Hrs _ _ Hr1) as [[] ? ? ? ?]. split; [by split|done..].
    + intros n x Hlt Hx. simpl in Hx. rewrite vlookup_vinsert_ne in Hx by lia.
      apply (Htd n); [lia|done].
    + intros x Hx. simpl in Hx. rewrite vlookup_vinsert_ne in Hx by lia.
      rewrite (Htd (n0 + 1) x); [done|lia|done].
    + eapply placed_ext; [exact Hp|done|]. intros l. destruct l as [d|d|n p]; simpl; [done| |].
      * destruct (decide (unread n0 5 d)) as [Hu|Hu]; rewrite unread_next in Hu;
          [by rewrite decide_True|by rewrite decide_False].
      * destruct (decide (n = n0)) as [->|Hne].
        -- rewrite vlookup_vinsert_eq by (by eapply vlookup_Some_range). rewrite Hr1. by destruct p.
        -- by rewrite vlookup_vinsert_ne by done.
Qed.

(** a loop over the routers from [n0] on *)
Lemma routers_loop (body : Z → M World unit) (I : Z → World → Prop) w :
  (∀ n w, 0 ≤ n < n_nodes → I n w → ∃ w', body n w = Ok (tt, w') ∧ I (n + 1) w') →
  I 0 w → ∃ w', for_each (seqZ 0 n_nodes) body w = Ok (tt, w') ∧ I n_nodes w'.
Proof.
  intros Hbody Hw.
  destruct (triple_for_range 0 n_nodes body I) with (s := w) as ([] & w' & Hrun & Hw'); [done| |done|].
  - intros n Hn s Hs. destruct (Hbody n s Hn Hs) as (s' & ? & ?). by exists tt, s'.
  - exists w'. split; [|done]. unfold for_range in Hrun. by rewrite Z.sub_0_r in Hrun.
Qed.

(** ** Phase 2: clocking *)

Record mid_state (n0 : Z) (w : World) : Prop := {
  md_len : zlength (routers w) = n_nodes;
  md_cs : channels w = cs;
  md_hlen : length (flits w) = hlen;
  md_same : heap_same h0 (flits w);
  md_routers : ∀ n r, routers w !z n = Some r → router_ok hlen n r;
  md_clocked : ∀ n r, n < n0 → routers w !z n = Some r → _in_queue_flits r = [];
  md_placed : placed K (flits w) (mid_slot w);
}.

Lemma rd_mid w : rd_state n_nodes 0 w → mid_state 0 w.
Proof.
  intros [Hl Hc Hh Hf Hrs Htd Hhe Hp]. split; try done.
  - by rewrite Hf.
  - intros n r Hn Hr. apply vlookup_Some_range in Hr. lia.
  - eapply placed_ext; [exact Hp|done|]. intros [d|d|n p]; simpl; [done| |done].
    rewrite decide_False; [done|]. unfold unread. destruct (sink_of d) as [n|] eqn:Hd; [|tauto].
    destruct (sink_in _ _ Hd). lia.
Qed.

Lemma router_clk_step n w :
  0 ≤ n < n_nodes → mid_state n w →
  ∃ w', Router_clk n clk w = Ok (tt, w') ∧ mid_state (n + 1) w'.
Proof.
  intros Hn [Hl Hc Hh Hs Hrs Hcl Hp].
  destruct (vlookup_in_range (routers w) n) as [r Hr]; [by rewrite Hl|].
  assert (Hcs' : clk_state hlen cs n K h0 w r).
  { split; [done|by apply Hrs| |done|done]. split; try done.
    - by rewrite Hc.
    - intros c fc Hfc. by destruct (Hcs c fc Hfc).
    - intros m x _ Hx. by apply Hrs. }
  destruct (Router_clk_run hlen cs n Hn K h0 w r clk Hcs') as (w' & r' & Hrun & Hst & Hq).
  destruct Hst as [Hr' Hok' [? ? ? ? ? Hro Hcl'] Hp' Hh'].
  exists w'. split; [exact Hrun|]. split; try done.
  - intros m x Hx. destruct (decide (m = n)) as [->|Hne]; [by simplify_eq|].
    by apply (Hro m).
  - intros m x Hm Hx. destruct (decide (m = n)) as [->|Hne]; [by simplify_eq|].
    apply (Hcl' m); [lia|done].
Qed.
End cycle.

(** ** Phase 3: writing *)

Section write.
Context (K : flit_ptr → Prop) (h0 : list Flit).

(** the output ports that have not sent yet *)
Definition unsent (n0 o0 n p : Z) : Prop := n0 < n ∨ (n = n0 ∧ o0 ≤ p).

(** no flit waits at a channel that no router drives *)
Definition undriven (w : World) : Prop :=
  ∀ c fc, (∀ n p, 0 ≤ n < n_nodes → out_chans n !z p ≠ Some c) → channels w !z c = Some fc →
    _input (base_channel fc) = None.

Record snd_state (n0 o0 : Z) (w : World) : Prop := {
  sn_len : zlength (routers w) = n_nodes;
  sn_clen : zlength (channels w) = n_chans;
  sn_hlen : length (flits w) = hlen;
  sn_same : heap_same h0 (flits w);
  sn_routers : ∀ n r, routers w !z n = Some r → router_ok hlen n r ∧ _in_queue_flits r = [];
  sn_chans : ∀ c fc, channels w !z c = Some fc →
    chan_static c fc ∧ _wait_queue (base_channel fc) = [];
  sn_free : ∀ n p c fc, 0 ≤ n < n_nodes → unsent n0 o0 n p → out_chans n !z p = Some c →
    channels w !z c = Some fc → _input (base_channel fc) = None;
  sn_undriven : undriven w;
  sn_placed : placed K (flits w) (slot w);
}.

Lemma charged_sim n f : flit_sim f (charged n f).
Proof. by repeat split. Qed.

(** the router and the channel after output [o] has sent [p] *)
Definition sent (o : Z) (p : flit_ptr) (q : list flit_ptr) (r : ENoCRouter) : ENoCRouter :=
  r.{_output_channels_last_flit ::= vinsert o (Some p)}.{_output_buffer ::= vinsert o q}
   .{stats ::= λ s, s.{energy_router ::= CrossBar_dynamic_energy} }.

Lemma sent_ok n o p q r :
  router_ok hlen n r → (p < hlen)%nat →
  router_ok hlen n (sent o p q r).
Proof.
  intros [[] Hi Hv Hs Ht] Hp. split; [split; try done|done..]; simpl.
  - by rewrite zlength_vinsert.
  - by rewrite zlength_vinsert.
  - apply Forall_vinsert; [done|]. by intros ? [= <-].
Qed.

Lemma rslot_sent o p q r x :
  0 ≤ o < zlength (_output_buffer r) →
  rslot (sent o p q r) x = if decide (x = ROut o) then q else rslot r x.
Proof.
  intros Ho. destruct x as [i|i v|k]; [done|done|]. simpl. case_decide as Hk.
  - simplify_eq. by rewrite vlookup_vinsert_eq.
  - rewrite vlookup_vinsert_ne; [done|congruence].
Qed.

Lemma send_flit_eq w n o r p q fl c fc :
  routers w !z n = Some r → router_ok hlen n r → length (flits w) = hlen →
  _output_buffer r !z o = Some (p :: q) → flits w !! p = Some fl →
  out_chans n !z o = Some c → channels w !z c = Some fc →
  ∃ fl', flit_sim fl fl' ∧
    send_flit n o w = Ok (tt, put_router
      (w.{channels := vinsert c (fc.{base_channel ::= λ ch, ch.{_input := Some p} }) (channels w)})
      n (<[p := fl']> (flits w)) (sent o p q r)).
Proof.
  intros Hr Hok Hh Hqo Hfl Hco Hfc. pose proof (ro_base _ _ _ Hok) as Hb.
  pose proof (vlookup_Some_range _ _ _ Hqo) as Hor. rewrite (rb_outbuf _ _ _ Hb) in Hor.
  destruct (vlookup_in_range (_output_channels_last_flit r) o) as [last Hlast];
    [by rewrite (rb_last _ _ _ Hb)|].
  pose proof (Forall_vlookup _ _ _ _ (rb_last_valid _ _ _ Hb) Hlast) as Hlv. simpl in Hlv.
  assert (Hlok : match last with None => True | Some q => is_Some (flits w !! q) end).
  { destruct last as [l|]; [|done]. apply lookup_lt_is_Some. rewrite Hh. by apply Hlv. }
  pose proof (Calc_Flips_run (flits w) SIGNALING_TRANSITION ENCODING_BUS_INVERT p last fl Hfl Hlok) as Hcf.
  set (n1 := flips_of _ _ _ _) in Hcf.
  assert (∃ nf, n1 = Some nf) as [nf Hnf] by (by eexists).
  rewrite Hnf in Hcf. clearbody n1.
  set (fl' := Update_xbar_dyn_energy (dynamic_energy (_xbar (sent o p q r))) (charged nf fl)).
  exists fl'. split; [by repeat split|]. unfold send_flit.
  eapply bind_Ok; [eapply on_router_read; [done|]; unfold mbind, M_bind, gets, lift;
    by rewrite (vget_Some _ _ _ Hqo)|]. cbv beta iota.
  eapply bind_Ok; [eapply on_router_read; [done|]; unfold mbind, M_bind, gets, lift;
    by rewrite (vget_Some _ _ _ Hlast)|]. cbv beta.
  rewrite (put_start w n r Hr) at 1.
  eapply bind_Ok with (s' := put_router w n (<[p := charged nf fl]> (flits w)) r).
  { unfold on_flits, zoom. simpl. by rewrite Hcf. }
  eapply bind_Ok; [eapply put_run; [done|]; unfold zoom; by rewrite (zoom_at_Some _ _ _ _ Hlast)|].
  eapply bind_Ok; [eapply put_run; [done|]; unfold on_output_buffer, zoom; by rewrite (zoom_at_Some _ _ _ _ Hqo)|].
  eapply bind_Ok with (a := c) (s' := put_router w n (<[p := charged nf fl]> (flits w))
    (r.{_output_channels_last_flit ::= vinsert o (Some p)}.{_output_buffer ::= vinsert o q})).
  { eapply put_run; [done|]. unfold mbind, M_bind, gets, lift. simpl.
    by rewrite (rb_out _ _ _ Hb), (vget_Some _ _ _ Hco). }
  eapply bind_Ok; [eapply on_channel_run; [exact Hfc|done]|].
  set (w1 := w.{channels := _}).
  eapply bind_Ok; [by eapply (put_run w1)|].
  eapply bind_Ok; [by eapply (put_run w1)|].
  etrans.
  - apply (put_update w1 n (<[p := charged nf fl]> (flits w)) _ p _ (charged nf fl)).
    apply list_lookup_insert_eq. by eapply lookup_lt_Some.
  - pose proof (list_insert_insert_eq (flits w) p fl' (charged nf fl)) as Hii.
    change (Ok (tt, put_router w1 n (<[p := fl']> (<[p := charged nf fl]> (flits w))) (sent o p q r)) =
      Ok (tt, put_router w1 n (<[p := fl']> (flits w)) (sent o p q r))).
    by rewrite Hii.
Qed.

Lemma send_flit_step n o w :
  0 ≤ n < n_nodes → 0 ≤ o < 5 → snd_state n o w →
  ∃ w', send_flit n o w = Ok (tt, w') ∧ snd_state n (o + 1) w'.
Proof.
  intros Hn Ho [Hl Hc Hh Hs Hrs Hch Hfree Hud Hp].
  destruct (vlookup_in_range (routers w) n) as [r Hr]; [by rewrite Hl|].
  destruct (Hrs _ _ Hr) as [Hok Hq]. pose proof (ro_base _ _ _ Hok) as Hb.
  destruct (vlookup_in_range (_output_buffer r) o) as [q Hqo]; [by rewrite (rb_outbuf _ _ _ Hb)|].
  assert (Hun : ∀ m p, unsent n (o + 1) m p → unsent n o m p) by (unfold unsent; intros; lia).
  destruct q as [|p q].
  { exists w. split.
    - unfold send_flit. eapply bind_Ok with (a := []); [eapply on_router_read; [done|]|done].
      unfold mbind, M_bind, gets, lift. by rewrite (vget_Some _ _ _ Hqo).
    - split; try done. intros m p c fc Hm Hu. by eapply Hfree, Hun. }
  destruct (out_chans_ok n Hn) as [Hol Hor].
  destruct (vlookup_in_range (out_chans n) o) as [c Hco]; [lia|].
  pose proof (Forall_vlookup _ _ _ _ Hor Hco) as Hcr. simpl in Hcr.
  destruct (vlookup_in_range (channels w) c) as [fc Hfc]; [by rewrite Hc|].
  assert (Hslot0 : slot w (At n (ROut o)) = p :: q) by (simpl; by rewrite Hr, Hqo).
  destruct (pl_ok _ _ _ Hp (At n (ROut o)) p) as (fl & Hfl & Hflo); [rewrite Hslot0; left|].
  destruct (send_flit_eq w n o r p q fl c fc) as (fl' & Hsim & Hrun); try done.
  destruct (Hch _ _ Hfc) as [Hst Hwq].
  assert (Hin : _input (base_channel fc) = None).
  { eapply (Hfree n o c fc); try done. right. lia. }
  assert (Hplt : (p < hlen)%nat) by (rewrite <-Hh; by eapply lookup_lt_Some).
  eexists. split; [exact Hrun|]. split; simpl.
  - by rewrite zlength_vinsert.
  - by rewrite zlength_vinsert.
  - by rewrite length_insert.
  - etrans; [exact Hs|]. eapply heap_rel_insert; [apply _|exact Hfl|apply Hsim].
  - clear Hh. intros m x Hx. vinsert_cases Hx; [|by apply Hrs]. split; [|done].
    by apply sent_ok.
  - clear Hh. intros d x Hx. vinsert_cases Hx; [|by apply Hch]. by destruct Hst.
  - clear Hh. intros m j d x Hm Hu Hd Hx. vinsert_cases Hx.
    + destruct (out_inj m j n o d) as [-> ->]; [done..|]. unfold unsent in Hu. lia.
    + eapply Hfree; try done. by apply Hun.
  - clear Hh. intros d x Hno Hx. simpl in Hx. vinsert_cases Hx; [|by eapply Hud].
    by destruct (Hno n o Hn).
  - apply (placed_move K (flits w) (slot w) _ p q (At n (ROut o)) (Wire c)); try done.
    + unfold slot. change (routers ?w') with (vinsert n (sent o p q r) (routers w)).
      rewrite vlookup_vinsert_eq by (by eapply vlookup_Some_range).
      rewrite rslot_sent by (by rewrite (rb_outbuf _ _ _ Hb)). by rewrite decide_True.
    + simpl. rewrite vlookup_vinsert_eq by (by eapply vlookup_Some_range). rewrite Hfc.
      unfold wire_slot. simpl. by rewrite Hwq, Hin.
    + intros [d|d|m y] H1 H2; simpl.
      * by rewrite vlookup_vinsert_ne by congruence.
      * destruct (decide (d = c)) as [->|Hne]; [|by rewrite vlookup_vinsert_ne by congruence].
        rewrite vlookup_vinsert_eq by (by eapply vlookup_Some_range). by rewrite Hfc.
      * destruct (decide (m = n)) as [->|Hne]; [|by rewrite vlookup_vinsert_ne by done].
        rewrite vlookup_vinsert_eq by (by eapply vlookup_Some_range). rewrite Hr.
        rewrite rslot_sent by (by rewrite (rb_outbuf _ _ _ Hb)). rewrite decide_False; [done|congruence].
    + destruct (flit_ok_sim (At n (ROut o)) fl fl' Hsim Hflo) as (? & ? & ?).
      split; [done|]. split; [done|]. intros m j Hm Hj. by destruct (out_inj m j n o c) as [-> ->].
Qed.

Lemma router_send_step n w clk :
  0 ≤ n < n_nodes → snd_state n 0 w →
  ∃ w', Router_WriteOutputs n clk w = Ok (tt, w') ∧ snd_state (n + 1) 0 w'.
Proof.
  intros Hn Hw. pose proof Hw as [Hl _ _ _ Hrs _ _ _ _].
  destruct (vlookup_in_range (routers w) n) as [r Hr]; [by rewrite Hl|].
  pose proof (ro_base _ _ _ (proj1 (Hrs _ _ Hr))) as Hb.
  destruct (triple_for_range 0 5 (send_flit n) (snd_state n)) with (s := w)
    as ([] & w' & Hrun & [Hl' Hc' Hh' Hs' Hrs' Hch' Hf' Hud' Hp']); [lia| |done|].
  { intros o Ho s Hs. destruct (send_flit_step n o s Hn Ho Hs) as (s' & ? & ?). by exists tt, s'. }
  exists w'. split.
  - unfold Router_WriteOutputs, _SendFlits.
    eapply bind_Ok; [by eapply on_router_read|]. by rewrite (rb_outputs _ _ _ Hb).
  - split; try done. intros m p c fc Hm Hu. apply (Hf' m p c fc Hm).
    unfold unsent in *. lia.
Qed.
End write.

(** ** The three phases *)

Definition network_cycle (clk : Z) : M World unit :=
  for_each modules (Tm_ReadInputs clk) ;;
  for_each modules (Tm_clk clk) ;;
  for_each modules (Tm_WriteOutputs clk).

(** all channels, then all routers *)
Lemma modules_run {m : TimedModule → M World unit} {mc : M FlitChannel unit} {mr} g w
    (I : Z → World → Prop) :
  (∀ c, m (TmChannel c) = on_channel c mc) → (∀ n, m (TmRouter n) = mr n) →
  zlength (channels w) = n_chans →
  (∀ c fc, channels w !z c = Some fc → mc fc = Ok (tt, g fc)) →
  (∀ n w, 0 ≤ n < n_nodes → I n w → ∃ w', mr n w = Ok (tt, w') ∧ I (n + 1) w') →
  I 0 (w.{channels := g <$> channels w}) →
  ∃ w', for_each modules m w = Ok (tt, w') ∧ I n_nodes w'.
Proof.
  intros Hmc Hmr Hlen Hg Hbody HI.
  destruct (routers_loop mr I _ Hbody HI) as (w' & Hrun & Hw').
  exists w'. split; [|done]. unfold modules. eapply for_each_app_run.
  - rewrite for_each_fmap, (for_each_ext _ _ (λ c, on_channel c mc)) by apply Hmc.
    by apply all_channels_run.
  - rewrite for_each_fmap, (for_each_ext _ _ mr) by apply Hmr. exact Hrun.
Qed.

(** relabelling the places of the channels *)
Lemma placed_channels (K K' : flit_ptr → Prop) h (S S' : place → list flit_ptr) :
  placed K h S →
  (∀ l, S' l = [] ∨ S' l = S l ∨ ∃ c, l = Done c ∧ S' l = S (Wire c) ∧ S (Done c) = [] ∧ S' (Wire c) = []) →
  (∀ p, K' p ↔ ∃ l, p ∈ S' l) →
  placed K' h S'.
Proof.
  intros [Hok Hnd Huq Hall] HS HK.
  assert (Hsrc : ∀ l p, p ∈ S' l → ∃ l0, p ∈ S l0 ∧ S' l = S l0 ∧
    (l0 = l ∨ ∃ c, l = Done c ∧ l0 = Wire c ∧ S' (Wire c) = [])).
  { intros l p Hp. destruct (HS l) as [H0|[H0|(c & -> & H0 & H1 & H2)]].
    - rewrite H0 in Hp. by apply elem_of_nil in Hp.
    - exists l. rewrite <-H0. split_and!; [done|done|by left].
    - exists (Wire c). rewrite <-H0. split_and!; [done|done|]. right. by exists c. }
  split; [| | |done].
  - intros l p Hp. destruct (Hsrc l p Hp) as (l0 & Hp0 & _ & [->|(c & -> & -> & _)]);
      destruct (Hok _ p Hp0) as (f & ? & ?); by exists f.
  - intros l. destruct (HS l) as [->|[->|(c & _ & -> & _)]]; [constructor|apply Hnd..].
  - intros l l' p Hp Hp'.
    destruct (Hsrc l p Hp) as (l0 & Hp0 & _ & Hl0), (Hsrc l' p Hp') as (l1 & Hp1 & _ & Hl1).
    pose proof (Huq _ _ _ Hp0 Hp1) as Heq.
    destruct Hl0 as [->|(c & -> & -> & Hc)], Hl1 as [->|(c' & -> & -> & Hc')]; simplify_eq; try done.
    + rewrite Hc' in Hp. by apply elem_of_nil in Hp.
    + rewrite Hc in Hp'. by apply elem_of_nil in Hp'.
Qed.

Lemma read_channel_slots clk fc :
  wire_slot (read_channel clk fc) = (_wait_queue (base_channel fc)).*2 ++ option_list (_input (base_channel fc)) ∧
  done_slot (read_channel clk fc) = done_slot fc.
Proof.
  unfold wire_slot, done_slot, read_channel. destruct fc as [[d [i|] o q] ? ? ? ? ? ?]; simpl.
  - by rewrite fmap_app.
  - by rewrite app_nil_r.
Qed.

(** the flits in the network after a cycle *)
Definition kept (K : flit_ptr → Prop) (w : World) (p : flit_ptr) : Prop := K p ∧ ¬ delivered w p.

Lemma unread_start c : unread 0 0 c ↔ is_Some (sink_of c).
Proof.
  unfold unread. destruct (sink_of c) as [n|] eqn:Hc; [|by split; [|intros [? ?]]].
  destruct (sink_in c n Hc) as [Hn Hin]. pose proof (vlookup_Some_range _ _ _ Hin).
  split; [by eexists|lia].
Qed.

Lemma read_start K clk w :
  net_ok K w →
  let w1 := w.{channels := read_channel clk <$> channels w} in
  rd_state (kept K w) (flits w) (channels w1) 0 0 w1 ∧
  ∀ c fc, channels w1 !z c = Some fc →
    chan_static c fc ∧ _input (base_channel fc) = None ∧ at_most_one clk fc.
Proof.
  intros [Hl Hc Hr Hch Hh Hp] w1.
  assert (Hsl : ∀ l, slot w1 l = slot w l).
  { intros [c|c|n p]; [| |done]; simpl; rewrite vlookup_fmap;
      destruct (channels w !z c) as [fc|] eqn:Hfc; [|done| |done]; simpl;
      destruct (read_channel_slots clk fc) as [Hsw Hsd]; [rewrite Hsw|exact Hsd].
    unfold wire_slot. destruct (Hch _ _ Hfc) as [_ ->]. simpl. by rewrite app_nil_r. }
  split.
  - split; try done.
    + intros n r Hn. by apply Hr.
    + intros n r _ Hn. by apply (Hr n).
    + intros r Hn. by rewrite (proj2 (Hr 0 r Hn)).
    + apply (placed_channels K (kept K w) (flits w) (slot w)); [done| |].
      * intros l. unfold read_slot. rewrite !Hsl. destruct l; [by right; left| |by right; left].
        case_decide; [by right; left|by left].
      * intros p. unfold kept. rewrite (pl_all _ _ _ Hp). split.
        -- intros [[l Hl'] Hnd]. exists l. unfold read_slot. rewrite Hsl. destruct l as [c|c|n x]; [done| |done].
           rewrite decide_True; [done|]. apply unread_start. destruct (sink_of c) eqn:Hsk; [done|].
           destruct Hnd. by exists c.
        -- intros [l Hl']. unfold read_slot in Hl'. rewrite Hsl in Hl'.
           destruct l as [c|c|n x]; [| |].
           ++ split; [by eexists|]. intros (d & _ & Hd). by pose proof (pl_unique _ _ _ Hp _ _ _ Hl' Hd).
           ++ case_decide as Hu; [|by apply elem_of_nil in Hl'].
              apply unread_start in Hu as [m Hm]. split; [by eexists|]. intros (d & Hdn & Hd).
              pose proof (pl_unique _ _ _ Hp _ _ _ Hl' Hd). simplify_eq.
           ++ split; [by eexists|]. intros (d & _ & Hd). by pose proof (pl_unique _ _ _ Hp _ _ _ Hl' Hd).
  - intros c fc1. simpl. rewrite vlookup_fmap.
    destruct (channels w !z c) as [fc|] eqn:Hfc; [|done]. intros [= <-].
    destruct (Hch _ _ Hfc) as [[Hs Hd] Hq]. unfold read_channel, at_most_one, chan_static.
    destruct fc as [[d [i|] o q] ? ? ? ? ? ?]; simpl in *; subst.
    + split_and!; [done|done|done|]. right. exists i. by rewrite release_time_1.
    + split_and!; try done. by left.
Qed.

Lemma write_start K clk h0 cs w :
  (∀ c fc, cs !z c = Some fc →
    chan_static c fc ∧ _input (base_channel fc) = None ∧ at_most_one clk fc) →
  zlength cs = n_chans →
  mid_state K h0 cs n_nodes w →
  snd_state K h0 0 0 (w.{channels := write_channel <$> channels w}).
Proof.
  intros Hcs Hclen [Hl Hc Hh Hs Hr Hq Hp].
  assert (Hch : ∀ c fc1, (write_channel <$> channels w) !z c = Some fc1 →
    ∃ fc, cs !z c = Some fc ∧ fc1 = write_channel fc).
  { intros c fc1. rewrite vlookup_fmap, Hc. destruct (cs !z c) as [fc|]; [|done].
    intros [= <-]. by exists fc. }
  set (w1 := w.{channels := write_channel <$> channels w}).
  assert (Hslot : ∀ l, slot w1 l =
    match l with Wire _ => [] | Done c => mid_slot w (Wire c) | _ => mid_slot w l end).
  { intros [c|c|n p]; [| |done]; simpl; rewrite vlookup_fmap, Hc;
      destruct (cs !z c) as [fc|] eqn:Hfc; try done; destruct (Hcs _ _ Hfc) as (_ & Hin & Hone);
      unfold wire_slot, done_slot, write_channel; simpl; rewrite Hin; [done|].
    by destruct Hone as [->|[p ->]]. }
  split; try done.
  - simpl. unfold zlength. rewrite length_fmap. change (zlength (channels w) = n_chans). by rewrite Hc.
  - intros n r Hn. split; [by apply Hr|]. apply (Hq n); [|done].
    change (routers w !z n = Some r) in Hn. apply vlookup_Some_range in Hn. lia.
  - intros c fc1 H1. destruct (Hch _ _ H1) as (fc & Hfc & ->). by destruct (Hcs _ _ Hfc).
  - intros n p c fc1 _ _ _ H1. destruct (Hch _ _ H1) as (fc & Hfc & ->). by destruct (Hcs _ _ Hfc) as (_ & ? & _).
  - intros c fc1 _ H1. destruct (Hch _ _ H1) as (fc & Hfc & ->). by destruct (Hcs _ _ Hfc) as (_ & ? & _).
  - apply (placed_channels K K (flits w) (mid_slot w)); [done| |].
    + intros l. rewrite !Hslot. destruct l as [c|c|n p]; [by left| |by right; left].
      right; right. exists c. by rewrite Hslot.
    + intros p. rewrite (pl_all _ _ _ Hp). split.
      * intros [l Hl']. destruct l as [c|c|n x]; [exists (Done c)|by apply elem_of_nil in Hl'|exists (At n x)];
          by rewrite Hslot.
      * intros [l Hl']. rewrite Hslot in Hl'. destruct l as [c|c|n x];
          [by apply elem_of_nil in Hl'|exists (Wire c)|exists (At n x)]; done.
Qed.

Lemma cycle_run K clk w :
  net_ok K w →
  ∃ w', network_cycle clk w = Ok (tt, w') ∧ net_ok (kept K w) w' ∧
    heap_same (flits w) (flits w') ∧ length (flits w') = length (flits w) ∧ undriven w'.
Proof.
  intros Hw. destruct (read_start K clk w Hw) as [Hrd Hcs].
  set (cs := channels (w.{channels := read_channel clk <$> channels w})) in *.
  assert (Hclen : zlength cs = n_chans).
  { change (zlength (read_channel clk <$> channels w) = n_chans). unfold zlength.
    rewrite length_fmap. apply Hw. }
  destruct (@modules_run (Tm_ReadInputs clk) (FlitChannel_ReadInputs clk) (λ n, Router_ReadInputs n clk)
    (read_channel clk) w (λ n, rd_state (kept K w) (flits w) cs n 0)) as (w1 & Hrun1 & Hrd1);
    try done; [apply Hw| |].
  { intros n s Hn Hs. by apply router_read_run. }
  pose proof (rd_mid _ _ _ _ Hrd1) as Hmid.
  destruct (@modules_run (Tm_clk clk) (FlitChannel_clk clk) (λ n, Router_clk n clk)
    id w1 (λ n, mid_state (kept K w) (flits w) cs n)) as (w2 & Hrun2 & Hmid2); try done.
  { by rewrite (md_cs _ _ _ _ _ Hmid). }
  { intros n s Hn Hs. by eapply router_clk_step. }
  { rewrite list_fmap_id. by destruct w1. }
  destruct (@modules_run (Tm_WriteOutputs clk) (FlitChannel_WriteOutputs clk) (λ n, Router_WriteOutputs n clk)
    write_channel w2 (λ n, snd_state (kept K w) (flits w) n 0)) as (w3 & Hrun3 & Hsnd); try done.
  { by rewrite (md_cs _ _ _ _ _ Hmid2). }
  { intros c fc Hfc. rewrite (md_cs _ _ _ _ _ Hmid2) in Hfc. apply write_channel_run. by apply (Hcs c). }
  { intros n s Hn Hs. by apply router_send_step. }
  { by eapply write_start. }
  exists w3. split.
  { unfold network_cycle. eapply bind_Ok; [exact Hrun1|]. by eapply bind_Ok. }
  destruct Hsnd. split_and!; [by split|done| |done]. by rewrite (no_hlen _ _ Hw).
Qed.
End net.

(** ** Injection *)

Section inject.
Context `{Topology}.

Lemma router_ok_mono hlen hlen' n r :
  (hlen ≤ hlen')%nat → router_ok hlen n r → router_ok hlen' n r.
Proof.
  intros Hle [[] Hi Hv Hs Ht]. split; [split|..]; try done.
  eapply Forall_impl; [done|]. intros p Hp q Hq. specialize (Hp q Hq). simpl in Hp. lia.
Qed.

Lemma net_ok_iff hlen (K K' : flit_ptr → Prop) w : (∀ p, K p ↔ K' p) → net_ok hlen K w → net_ok hlen K' w.
Proof.
  intros HK [? ? ? ? ? [? ? ? Hall]]. split; try done. split; try done. intros p. by rewrite <-HK.
Qed.

(** a heap in which the flits of the network are the same *)
Lemma heap_ok hlen hlen' K w h' :
  net_ok hlen K w → length h' = hlen' → (hlen ≤ hlen')%nat →
  (∀ p f, K p → flits w !! p = Some f → h' !! p = Some f) → net_ok hlen' K (w.{flits := h'}).
Proof.
  intros [Hl Hc Hr Hch Hh [Hok Hnd Huq Hall]] Hlen Hle Hf. split; try done.
  - intros n r Hn. destruct (Hr _ _ Hn). split; [by eapply router_ok_mono|done].
  - split; try done. intros l p Hp. destruct (Hok l p Hp) as (f & Hpf & Hfo).
    exists f. split; [|done]. apply Hf; [|done]. apply Hall. by exists l.
Qed.

(** the flit [p] of the heap, which is nowhere in the network, is written
    into channel [c], which no router drives; a flit already written is lost *)
Definition sent_into (c : Z) (p : flit_ptr) (fc : FlitChannel) (w : World) : World :=
  w.{channels ::= vinsert c (fc.{base_channel ::= λ ch, ch.{_input := Some p} })}.

Lemma slot_sent_into c p fc w l : channels w !z c = Some fc → _wait_queue (base_channel fc) = [] →
  slot (sent_into c p fc w) l = if decide (l = Wire c) then [p] else slot w l.
Proof.
  intros Hfc Hq. destruct l as [d|d|n x]; simpl; [| |done].
  - case_decide as Hd.
    + simplify_eq. rewrite vlookup_vinsert_eq by (by eapply vlookup_Some_range).
      unfold wire_slot. simpl. by rewrite Hq.
    + rewrite vlookup_vinsert_ne; [done|congruence].
  - destruct (decide (d = c)) as [->|Hd].
    + rewrite vlookup_vinsert_eq by (by eapply vlookup_Some_range). by rewrite Hfc.
    + by rewrite vlookup_vinsert_ne.
Qed.

Lemma send_ok hlen K w c fc p f :
  net_ok hlen K w → channels w !z c = Some fc →
  (∀ n o, 0 ≤ n < n_nodes → out_chans n !z o ≠ Some c) →
  ¬ K p → flits w !! p = Some f → countable_flit f → 0 ≤ f_vc f < DEFAULT_NUM_VCS →
  net_ok hlen (λ q, q = p ∨ (K q ∧ _input (base_channel fc) ≠ Some q)) (sent_into c p fc w).
Proof.
  intros [Hl Hc Hr Hch Hh Hp] Hfc Hno HKp Hf Hcf Hv. destruct (Hch _ _ Hfc) as [Hst Hq].
  pose proof (λ l, slot_sent_into c p fc w l Hfc Hq) as Hsl.
  assert (Hw0 : slot w (Wire c) = option_list (_input (base_channel fc))).
  { simpl. rewrite Hfc. unfold wire_slot. by rewrite Hq, ?app_nil_r. }
  assert (Hfresh : ∀ l, p ∉ slot w l) by (intros l Hl'; apply HKp, (pl_all _ _ _ Hp); by exists l).
  split; try done.
  - simpl. by rewrite zlength_vinsert.
  - intros d x Hx. simpl in Hx. apply vlookup_vinsert in Hx as [[-> ->]|[_ Hx]]; [by split|by apply Hch].
  - split.
    + intros l q. rewrite Hsl. case_decide as Hd; [|apply (pl_ok _ _ _ Hp)].
      intros ->%list_elem_of_singleton. subst. exists f. split; [done|].
      split; [done|]. split; [done|]. intros n j Hn Hj. by destruct (Hno n j Hn).
    + intros l. rewrite Hsl. case_decide; [apply NoDup_singleton|apply Hp].
    + intros l l' q. rewrite !Hsl. repeat case_decide; subst; try done.
      * intros ->%list_elem_of_singleton Hin. by destruct (Hfresh l').
      * intros Hin ->%list_elem_of_singleton. by destruct (Hfresh l).
      * by apply (pl_unique _ _ _ Hp).
    + intros q. rewrite (pl_all _ _ _ Hp). split.
      * intros [->|[[l Hl'] Hin]].
        -- exists (Wire c). rewrite Hsl, decide_True by done. by left.
        -- exists l. rewrite Hsl. case_decide; [|done]. subst. rewrite Hw0 in Hl'.
           destruct (_input (base_channel fc)); simpl in Hl'; [|by apply elem_of_nil in Hl'].
           apply list_elem_of_singleton in Hl'. by subst.
      * intros [l Hl']. rewrite Hsl in Hl'. case_decide as Hd.
        -- apply list_elem_of_singleton in Hl'. by left.
        -- right. split; [by exists l|]. intros Hin. apply Hd, (pl_unique _ _ _ Hp _ _ q); [done|].
           rewrite Hw0, Hin. by left.
Qed.

(** a new flit [f] written into channel [c] *)
Definition injected (c : Z) (f : Flit) (fc : FlitChannel) (w : World) : World :=
  w.{flits ::= λ h, h ++ [f] }
   .{channels ::= vinsert c (fc.{base_channel ::= λ ch, ch.{_input := Some (length (flits w))} })}.

Lemma inject_ok hlen K w c fc f :
  net_ok hlen K w → channels w !z c = Some fc →
  (∀ n p, 0 ≤ n < n_nodes → out_chans n !z p ≠ Some c) →
  countable_flit f → 0 ≤ f_vc f < DEFAULT_NUM_VCS → _input (base_channel fc) = None →
  net_ok (S hlen) (λ q, q = length (flits w) ∨ K q) (injected c f fc w).
Proof.
  intros Hw Hfc Hno Hcf Hv Hin. pose proof (no_hlen _ _ _ Hw) as Hlen.
  assert (Hlt : ∀ q, K q → (q < hlen)%nat).
  { intros q [l Hq]%(pl_all _ _ _ (no_placed _ _ _ Hw)).
    destruct (pl_ok _ _ _ (no_placed _ _ _ Hw) _ _ Hq) as (g & Hg & _). apply lookup_lt_Some in Hg. lia. }
  apply (net_ok_iff _ (λ q, q = length (flits w) ∨ (K q ∧ _input (base_channel fc) ≠ Some q))).
  { intros q. rewrite Hin. naive_solver. }
  change (injected c f fc w) with (sent_into c (length (flits w)) fc (w.{flits := flits w ++ [f] })).
  apply send_ok with f; try done.
  - eapply heap_ok; [done|rewrite length_app, Hlen; simpl; lia|lia|].
    intros p g _ Hg. by apply lookup_app_l_Some.
  - intros Hq%Hlt. lia.
  - by apply list_lookup_middle.
Qed.

(** a virtual channel of a router is set to a state that is not active *)
Lemma set_state_ok hlen n r i v c s :
  s ≠ active → router_ok hlen n r → vc_at r i v = Some c →
  router_ok hlen n (set_vc i v (c.{_state := s}) r).
Proof.
  intros Hs [Hb Hi Hvc [Hsw1 Hsw2] Htm] Hc. set (c' := c.{_state := s}).
  destruct (set_vc_frame i v c' r) as [bufs E].
  pose proof (set_vc_base hlen n i v c c' r Hb Hc eq_refl eq_refl) as Hb'.
  assert (E1 : _vc_alloc_vcs (set_vc i v c' r) = _vc_alloc_vcs r) by (by rewrite E).
  assert (E2 : _sw_alloc_vcs (set_vc i v c' r) = _sw_alloc_vcs r) by (by rewrite E).
  split.
  - apply Hb'. by intros ?.
  - by rewrite E.
  - rewrite E1. eapply Forall_impl; [exact Hvc|]. intros e (He & d & Hd & Hsd & Hne). split; [done|].
    rewrite (vc_at_set_vc _ _ _ _ _ _ _ Hc). case_decide as Hev; [|by exists d].
    destruct Hev as [<- <-]. rewrite Hc in Hd. simplify_eq. by eexists.
  - rewrite E2. split; [done|]. intros j u. rewrite (queue_set_vc _ _ c); [apply Hsw2|done|done].
  - by rewrite E.
Qed.

Lemma force_state_ok hlen K w n r i v c s :
  s ≠ active → net_ok hlen K w → routers w !z n = Some r → vc_at r i v = Some c →
  net_ok hlen K (w.{routers ::= vinsert n (set_vc i v (c.{_state := s}) r)}).
Proof.
  intros Hs [Hl Hcl Hr Hch Hh Hp] Hn Hc. destruct (Hr n r Hn) as [Hok Hq].
  set (c' := c.{_state := s}). destruct (set_vc_frame i v c' r) as [bufs E].
  assert (Hsl : ∀ l, slot (w.{routers ::= vinsert n (set_vc i v c' r)}) l = slot w l).
  { intros [d|d|m x]; [done|done|]. simpl. destruct (decide (m = n)) as [->|Hm].
    - rewrite vlookup_vinsert_eq by (by eapply vlookup_Some_range). rewrite Hn.
      destruct x; simpl; [|by apply (queue_set_vc _ _ c)|]; by rewrite E.
    - by rewrite vlookup_vinsert_ne. }
  split; try done; simpl.
  - by rewrite zlength_vinsert.
  - intros m x Hx. apply vlookup_vinsert in Hx as [[-> ->]|[_ Hx]]; [|by apply Hr].
    split; [by apply set_state_ok|by rewrite E].
  - by eapply placed_ext; [| |exact Hsl].
Qed.

(** a delivered flit is at its destination *)
Lemma delivered_dst hlen K w n c p :
  net_ok hlen K w → 0 ≤ n < n_nodes → out_chans n !z 4 = Some c → p ∈ slot w (Done c) →
  ∃ f, flits w !! p = Some f ∧ dst_id f = n.
Proof.
  intros Hw Hn Hc Hp. destruct (pl_ok _ _ _ (no_placed _ _ _ Hw) _ _ Hp) as (f & Hf & _ & _ & Hxy).
  exists f. split; [done|]. specialize (Hxy n 4 Hn Hc). revert Hxy.
  unfold xy_yx_mesh_port. repeat case_decide; try done. intros _.
  pose proof (Z.quot_rem' n DEFAULT_MESH_DIM_X). pose proof (Z.quot_rem' (dst_id f) DEFAULT_MESH_DIM_X).
  unfold DEFAULT_MESH_DIM_X in *. lia.
Qed.
End inject.
