(* ===== verification/Mesh.v ===== *)
(** * The network that [NetworkNoC::buildMesh] builds

    The wiring of the 8x8 network in closed form, as an instance of the
    interface the router theorems are proved against; that the constructor
    returns exactly this wiring, with empty routers and channels; and the
    geometry of the dimension-ordered routes on it. *)

From S2P Require Import Prelude Double NoCMain Config Element Stats Channel.
From S2P Require Import VirtualChannel Allocator FlitCoding Router Network RouterInv RouterSafe NetworkSafe.

(** ** The wiring in closed form *)

(** channel numbers: 64 injection channels, 64 ejection channels, then four
    links per node *)
Definition link (c : Z) : Z := 128 + c.
Definition mesh_in (n : Z) : list Z :=
  [link (_LeftChannel 2 (_RightNode 8 n 0) 0); link (_RightChannel 2 (_LeftNode 8 n 0) 0);
   link (_LeftChannel 2 (_RightNode 8 n 1) 1); link (_RightChannel 2 (_LeftNode 8 n 1) 1); n].
Definition mesh_out (n : Z) : list Z :=
  [link (_RightChannel 2 n 0); link (_LeftChannel 2 n 0);
   link (_RightChannel 2 n 1); link (_LeftChannel 2 n 1); 64 + n].

(** the router and the port at the end, and at the start, of a channel *)
Definition mesh_sink (c : Z) : option (Z * Z) :=
  if decide (0 ≤ c < 64) then Some (c, 4)
  else if decide (128 ≤ c < 384) then
    let n := (c - 128) / 4 in
    let r := (c - 128) `mod` 4 in
    Some (if decide (r = 0) then (_RightNode 8 n 0, 1)
          else if decide (r = 1) then (_LeftNode 8 n 0, 0)
          else if decide (r = 2) then (_RightNode 8 n 1, 3) else (_LeftNode 8 n 1, 2))
  else None.
Definition mesh_source (c : Z) : option (Z * Z) :=
  if decide (64 ≤ c < 128) then Some (c - 64, 4)
  else if decide (128 ≤ c < 384) then Some ((c - 128) / 4, (c - 128) `mod` 4)
  else None.

(** a property of every node and port, checked by evaluation *)
Lemma all_nodes (P : Z → Prop) `{!∀ n, Decision (P n)} (m : Z) :
  bool_decide (Forall P (seqZ 0 m)) = true → ∀ n, 0 ≤ n < m → P n.
Proof.
  intros HP%bool_decide_eq_true n Hn. rewrite Forall_forall in HP. apply HP, elem_of_seqZ. lia.
Qed.

(** a property of the entries of a list *)
Definition all_entries (P : Z → Z → Prop) (l : list Z) : Prop :=
  Forall (λ ic, P ic.1 ic.2) (zip (seqZ 0 (zlength l)) l).
#[export] Instance all_entries_dec P l : (∀ i c, Decision (P i c)) → Decision (all_entries P l).
Proof. unfold all_entries. apply _. Defined.

Lemma all_entries_lookup P l i c : all_entries P l → l !z i = Some c → P i c.
Proof.
  unfold all_entries. rewrite Forall_forall. intros HP Hc.
  pose proof (vlookup_Some_range _ _ _ Hc) as Hr. apply vlookup_Some in Hc as [_ Hc].
  apply (HP (i, c)). apply list_elem_of_lookup. exists (Z.to_nat i).
  apply lookup_zip_with_Some. exists i, c. split; [done|]. split; [|done].
  apply lookup_seqZ. lia.
Qed.

Definition node_wired (n : Z) : Prop :=
  zlength (mesh_in n) = 5 ∧ zlength (mesh_out n) = 5 ∧
  all_entries (λ i c, 0 ≤ c < 384 ∧ mesh_sink c = Some (n, i)) (mesh_in n) ∧
  all_entries (λ p c, 0 ≤ c < 384 ∧ mesh_source c = Some (n, p) ∧
    match mesh_sink c with Some (m, _) => 0 ≤ m < 64 ∧ m ≠ n | None => p = 4 end) (mesh_out n).
#[export] Instance node_wired_dec n : Decision (node_wired n).
Proof.
  unfold node_wired. repeat apply and_dec; try apply _.
  apply all_entries_dec. intros p c. repeat apply and_dec; try apply _.
  destruct (mesh_sink c) as [[m ?]|]; apply _.
Defined.

Definition sink_wired (c : Z) : Prop :=
  match mesh_sink c with Some (n, i) => 0 ≤ n < 64 ∧ mesh_in n !z i = Some c | None => True end.
#[export] Instance sink_wired_dec c : Decision (sink_wired c).
Proof. unfold sink_wired. destruct (mesh_sink c) as [[n i]|]; apply _. Defined.

Lemma nodes_wired n : 0 ≤ n < 64 → node_wired n.
Proof. apply (all_nodes node_wired). vm_compute. reflexivity. Qed.
Lemma sinks_wired c : 0 ≤ c < 384 → sink_wired c.
Proof. apply (all_nodes sink_wired). vm_compute. reflexivity. Qed.

Lemma mesh_sink_range c x : mesh_sink c = Some x → 0 ≤ c < 384.
Proof. unfold mesh_sink. intros Hc. repeat case_decide; (lia || done). Qed.

Definition source_wired (c : Z) : Prop :=
  match mesh_source c with Some (n, o) => 0 ≤ n < 64 ∧ mesh_out n !z o = Some c | None => True end.
#[export] Instance source_wired_dec c : Decision (source_wired c).
Proof. unfold source_wired. destruct (mesh_source c) as [[n i]|]; apply _. Defined.
Lemma sources_wired c : 0 ≤ c < 384 → source_wired c.
Proof. apply (all_nodes source_wired). vm_compute. reflexivity. Qed.

Lemma mesh_source_out c n o :
  mesh_source c = Some (n, o) → 0 ≤ n < 64 ∧ mesh_out n !z o = Some c.
Proof.
  intros Hs. assert (0 ≤ c < 384) as Hc.
  { unfold mesh_source in Hs. repeat case_decide; (done || lia). }
  pose proof (sources_wired c Hc) as Hw. unfold source_wired in Hw. by rewrite Hs in Hw.
Qed.

Definition mesh_sink_port (c : Z) : Z := match mesh_sink c with Some (_, i) => i | None => -1 end.

#[export] Program Instance mesh_topology : Topology := {|
  n_nodes := 64;
  n_chans := 384;
  in_chans := mesh_in;
  out_chans := mesh_out;
  sink_of := λ c, fst <$> mesh_sink c;
  sink_port := mesh_sink_port;
|}.
Next Obligation.
  intros n Hn. destruct (nodes_wired n Hn) as (H1 & _ & H2 & _). split; [done|].
  apply Forall_forall. intros c [i Hi]%list_elem_of_lookup.
  by apply (all_entries_lookup _ _ (Z.of_nat i) _ H2); rewrite vlookup_nat.
Qed.
Next Obligation.
  intros n Hn. destruct (nodes_wired n Hn) as (_ & H1 & _ & H2). split; [done|].
  apply Forall_forall. intros c [i Hi]%list_elem_of_lookup.
  by apply (all_entries_lookup _ _ (Z.of_nat i) _ H2); rewrite vlookup_nat.
Qed.
Next Obligation.
  intros n p c Hn Hp Hc. destruct (nodes_wired n Hn) as (_ & _ & _ & H2).
  destruct (all_entries_lookup _ _ _ _ H2 Hc) as (_ & _ & Hs).
  destruct (mesh_sink c) as [[m i]|]; [by exists m|lia].
Qed.
Next Obligation.
  intros n p n' p' c Hn Hn' Hc Hc'.
  destruct (nodes_wired n Hn) as (_ & _ & _ & H2), (nodes_wired n' Hn') as (_ & _ & _ & H2').
  destruct (all_entries_lookup _ _ _ _ H2 Hc) as (_ & Hs & _).
  destruct (all_entries_lookup _ _ _ _ H2' Hc') as (_ & Hs' & _). rewrite Hs in Hs'. by simplify_eq.
Qed.
Next Obligation.
  intros n i c Hn Hc. destruct (nodes_wired n Hn) as (_ & _ & H2 & _).
  destruct (all_entries_lookup _ _ _ _ H2 Hc) as [_ Hs]. unfold mesh_sink_port. by rewrite Hs.
Qed.
Next Obligation.
  intros c n Hc. unfold mesh_sink_port. simpl in *.
  destruct (mesh_sink c) as [[m i]|] eqn:Hs; simplify_eq/=.
  pose proof (sinks_wired c (mesh_sink_range _ _ Hs)) as Hw. unfold sink_wired in Hw. rewrite Hs in Hw.
  exact Hw.
Qed.

(** ** The constructor returns this wiring *)

(** what [buildMesh] does to the channels, as a function on their vector *)
Definition upd (c : Z) (g : FlitChannel → FlitChannel) (l : list FlitChannel) : list FlitChannel :=
  match l !z c with Some x => vinsert c (g x) l | None => l end.
Definition wire_sink (n i c : Z) : list FlitChannel → list FlitChannel :=
  upd c (λ fc, fc.{_routerSink := Some n}.{_routerSinkPort := i}).
Definition wire_source (n i c : Z) : list FlitChannel → list FlitChannel :=
  upd c (λ fc, fc.{_routerSource := Some n}.{_routerSourcePort := i}).
Definition wire_latency (c : Z) : list FlitChannel → list FlitChannel :=
  upd c (λ fc, fc.{base_channel ::= λ ch, ch.{_delay := 1} }).

Definition dim_in (n dim : Z) : list Z :=
  [link (_LeftChannel 2 (_RightNode 8 n dim) dim); link (_RightChannel 2 (_LeftNode 8 n dim) dim)].
Definition dim_out (n dim : Z) : list Z := [link (_RightChannel 2 n dim); link (_LeftChannel 2 n dim)].

Definition wire_two (wire : Z → Z → list FlitChannel → list FlitChannel) (i : Z) (cs : list Z)
    (l : list FlitChannel) : list FlitChannel :=
  match cs with [a; b] => wire (i + 1) b (wire i a l) | _ => l end.
Definition wire_dim (n dim : Z) (l : list FlitChannel) : list FlitChannel :=
  let l := wire_two (wire_sink n) (2 * dim) (dim_in n dim) l in
  let l := wire_two (wire_source n) (2 * dim) (dim_out n dim) l in
  let l := wire_two (λ _, wire_latency) 0 (dim_in n dim) l in
  wire_two (λ _, wire_latency) 0 (dim_out n dim) l.
Definition wire_node (n : Z) (l : list FlitChannel) : list FlitChannel :=
  wire_latency (64 + n) (wire_latency n (wire_source n 4 (64 + n) (wire_sink n 4 n
    (wire_dim n 1 (wire_dim n 0 l))))).

Lemma zlength_upd c g l : zlength (upd c g l) = zlength l.
Proof. unfold upd. destruct (l !z c); [apply zlength_vinsert|done]. Qed.

Lemma on_channel_upd c (m : M FlitChannel unit) g h l rts :
  0 ≤ c < zlength l → (∀ fc, m fc = Ok (tt, g fc)) →
  on_channel c m (mkWorld h l rts) = Ok (tt, mkWorld h (upd c g l) rts).
Proof.
  intros Hc Hm. destruct (vlookup_in_range l c Hc) as [fc Hfc].
  rewrite (on_channel_run c m _ fc tt (g fc)) by (done || apply Hm).
  unfold upd. by rewrite Hfc.
Qed.

Lemma vinsert_last {A} (l : list A) x y : vinsert (zlength l) y (l ++ [x]) = l ++ [y].
Proof.
  unfold vinsert, zlength. rewrite decide_True by lia. rewrite Nat2Z.id.
  by rewrite insert_app_r_alt, Nat.sub_diag by lia.
Qed.
Lemma vlookup_last {A} (l : list A) x : (l ++ [x]) !z zlength l = Some x.
Proof. unfold zlength. rewrite vlookup_nat. by apply list_lookup_middle. Qed.

Lemma on_router_last {A} h l rts r n (m : M ENoCRouter A) a r' :
  zlength rts = n → m r = Ok (a, r') →
  on_router n m (mkWorld h l (rts ++ [r])) = Ok (a, mkWorld h l (rts ++ [r'])).
Proof.
  intros <- Hm. rewrite (on_router_run _ m (mkWorld h l (rts ++ [r])) r a r' (vlookup_last rts r) Hm). simpl.
  by rewrite vinsert_last.
Qed.

Lemma AddInputChannel_run h l rts r n c i :
  zlength rts = n → 0 ≤ c < zlength l → zlength (_input_channels r) = i →
  AddInputChannel n c (mkWorld h l (rts ++ [r])) =
    Ok (tt, mkWorld h (wire_sink n i c l) (rts ++ [r.{_input_channels ::= λ l, l ++ [c] }])).
Proof.
  intros Hn Hc Hi. unfold AddInputChannel.
  eapply bind_Ok; [by eapply on_router_last|]. eapply bind_Ok; [by eapply on_router_last|].
  apply on_channel_upd; [done|]. intros fc. unfold SetSink, modify. simpl.
  unfold zlength in *. rewrite length_app. simpl. by replace (Z.of_nat (length (_input_channels r) + 1) - 1) with i by lia.
Qed.

Lemma AddOutputChannel_run h l rts r n c i :
  zlength rts = n → 0 ≤ c < zlength l → zlength (_output_channels r) = i →
  AddOutputChannel n c (mkWorld h l (rts ++ [r])) =
    Ok (tt, mkWorld h (wire_source n i c l) (rts ++ [r.{_output_channels ::= λ l, l ++ [c] }])).
Proof.
  intros Hn Hc Hi. unfold AddOutputChannel.
  eapply bind_Ok; [by eapply on_router_last|]. eapply bind_Ok; [by eapply on_router_last|].
  apply on_channel_upd; [done|]. intros fc. unfold SetSource, modify. simpl.
  unfold zlength in *. rewrite length_app. simpl. by replace (Z.of_nat (length (_output_channels r) + 1) - 1) with i by lia.
Qed.

Lemma SetLatency_run h l rts c :
  0 ≤ c < zlength l → SetLatency c 1 (mkWorld h l rts) = Ok (tt, mkWorld h (wire_latency c l) rts).
Proof. intros Hc. by apply on_channel_upd. Qed.

(** the network while it is built *)
Definition net_of (h : list Flit) (l : list FlitChannel) (rts : list ENoCRouter)
    (rs : list (option Z)) (ms : list TimedModule) : NetworkNoC :=
  mkNetworkNoC (mkWorld h l rts) rs (seqZ 128 256) (seqZ 0 64) (seqZ 64 64) ms 8 2 256 64 64.

Lemma on_world_run {A} (m : M World A) h l rts rs ms a l' rts' :
  m (mkWorld h l rts) = Ok (a, mkWorld h l' rts') →
  on_world m (net_of h l rts rs ms) = Ok (a, net_of h l' rts' rs ms).
Proof. intros Hm. unfold on_world, zoom. simpl. by rewrite Hm. Qed.

Definition dim_in_range (n : Z) : Prop :=
  Forall (λ dim, Forall (λ c, 0 ≤ c < 256)
    [_LeftChannel 2 (_RightNode 8 n dim) dim; _RightChannel 2 (_LeftNode 8 n dim) dim;
     _RightChannel 2 n dim; _LeftChannel 2 n dim]) [0; 1].
#[export] Instance dim_in_range_dec n : Decision (dim_in_range n).
Proof. unfold dim_in_range. apply _. Defined.
Lemma dims_in_range n : 0 ≤ n < 64 → dim_in_range n.
Proof. apply (all_nodes dim_in_range). vm_compute. reflexivity. Qed.

Lemma chan_run c net (st : NetworkNoC) :
  _chan net = seqZ 128 256 → 0 ≤ c < 256 → lift (vget (_chan net) c) st = Ok (link c, st).
Proof.
  intros -> Hc. unfold lift. erewrite vget_Some; [done|]. apply vlookup_Some. split; [lia|].
  apply lookup_seqZ. unfold link. lia.
Qed.

Lemma connect_dim_run h l rts r rs ms n dim :
  zlength rts = n → 0 ≤ n < 64 → dim = 0 ∨ dim = 1 → zlength l = 384 →
  zlength (_input_channels r) = 2 * dim → zlength (_output_channels r) = 2 * dim →
  connect_dim n dim (net_of h l (rts ++ [r]) rs ms) =
    Ok (tt, net_of h (wire_dim n dim l)
      (rts ++ [r.{_input_channels ::= λ l, l ++ dim_in n dim}.{_output_channels ::= λ l, l ++ dim_out n dim}])
      rs ms).
Proof.
  intros Hn Hr Hdim Hl Hi Ho.
  assert (Hc : Forall (λ c, 0 ≤ c < 256)
    [_LeftChannel 2 (_RightNode 8 n dim) dim; _RightChannel 2 (_LeftNode 8 n dim) dim;
     _RightChannel 2 n dim; _LeftChannel 2 n dim]).
  { pose proof (dims_in_range n Hr) as Hd. unfold dim_in_range in Hd.
    apply Forall_cons in Hd as [Hd0 [Hd1 _]%Forall_cons]. by destruct Hdim as [->| ->]. }
  rewrite !Forall_cons in Hc. destruct Hc as (H1 & H2 & H3 & H4 & _).
  assert (Hlink : ∀ c, 0 ≤ c < 256 → 0 ≤ link c < 384) by (unfold link; lia).
  unfold connect_dim.
  eapply bind_Ok; [done|]. cbv beta zeta.
  change (_k (net_of _ _ _ _ _)) with 8. change (_n (net_of _ _ _ _ _)) with 2.
  eapply bind_Ok; [by apply chan_run|]. eapply bind_Ok; [by apply chan_run|].
  eapply bind_Ok; [eapply on_world_run, AddInputChannel_run; [done|rewrite Hl; auto|exact Hi]|].
  eapply bind_Ok; [eapply on_world_run, AddInputChannel_run with (i := 2 * dim + 1);
    [done|unfold wire_sink; rewrite zlength_upd, Hl; auto|]|].
  { simpl. unfold zlength in *. rewrite length_app. simpl. lia. }
  eapply bind_Ok; [by apply chan_run|]. eapply bind_Ok; [by apply chan_run|].
  eapply bind_Ok; [eapply on_world_run, AddOutputChannel_run with (i := 2 * dim);
    [done|unfold wire_sink; rewrite !zlength_upd, Hl; auto|exact Ho]|].
  eapply bind_Ok; [eapply on_world_run, AddOutputChannel_run with (i := 2 * dim + 1);
    [done|unfold wire_sink, wire_source; rewrite !zlength_upd, Hl; auto|]|].
  { simpl. unfold zlength in *. rewrite length_app. simpl. lia. }
  do 3 (eapply bind_Ok; [eapply on_world_run, SetLatency_run;
    unfold wire_sink, wire_source, wire_latency; rewrite !zlength_upd, Hl; auto|]).
  etrans; [eapply on_world_run, SetLatency_run;
    unfold wire_sink, wire_source, wire_latency; rewrite !zlength_upd, Hl; auto|].
  unfold wire_dim, wire_two, dim_in, dim_out. simpl. by rewrite <-!app_assoc.
Qed.

Definition wired (n : Z) (r : ENoCRouter) : ENoCRouter :=
  r.{_input_channels := mesh_in n}.{_output_channels := mesh_out n}.

Section build.
Context (raw : Z → Element) (raw_active : Z → bool) (config : Configuration).
(** the conversions to [int] in the element model do not overflow *)
Definition config_ok : Prop :=
  ∀ raw, ∃ l d, leakage_tmp raw config = Ok l ∧ dynamic_tmp raw config = Ok d.
Hypothesis Hconfig : config_ok.

(** a router as its constructor leaves it *)
Record new_router (n : Z) (r : ENoCRouter) : Prop := {
  nr_id : _id r = n;
  nr_sizes : _vcs r = DEFAULT_NUM_VCS ∧ _inputs r = 5 ∧ _outputs r = 5;
  nr_in : _input_channels r = [];
  nr_out : _output_channels r = [];
  nr_buf : _buf r = replicate 5 Buffer_Buffer;
  nr_inq : _in_queue_flits r = [];
  nr_outbuf : _output_buffer r = replicate 5 [];
  nr_last : _output_channels_last_flit r = replicate 5 None;
  nr_vca : _vc_allocator r = iSLIP_Sparse_iSLIP_Sparse 40 40 1;
  nr_swa : _sw_allocator r = iSLIP_Sparse_iSLIP_Sparse 5 5 1;
  nr_lists : _vc_alloc_vcs r = [] ∧ _sw_alloc_vcs r = [] ∧
    _vc_alloc_vcs_tmp r = [] ∧ _sw_alloc_vcs_tmp r = [];
  nr_stats : stats_wf (stats r);
}.

Lemma NewRouter_run n :
  ∃ r, NewRouter (raw n) (raw_active n) config n 5 5 = Ok r ∧ new_router n r.
Proof.
  destruct (Hconfig (raw n)) as (l & d & Hl & Hd).
  destruct (Energy_Initialize_Ok (raw n) config (energy_router (StatsNoC_StatsNoC (raw n))) l d Hl Hd)
    as [e He].
  unfold NewRouter, ENoCRouter_ENoCRouter. rewrite He.
  rewrite (VCAllocator_of_tmp _ _ _ _ _ Hl Hd), (SWAllocator_of_tmp _ _ _ _ _ Hl Hd).
  eexists. split; [done|]. by split.
Qed.

Lemma build_node_run h l rts rs ms n :
  zlength rts = n → 0 ≤ n < 64 → zlength l = 384 → zlength rs = 64 →
  ∃ r, new_router n r ∧
    build_node raw raw_active config n (net_of h l rts rs ms) =
      Ok (tt, net_of h (wire_node n l) (rts ++ [wired n r]) (vinsert n (Some n) rs) (ms ++ [TmRouter n])).
Proof.
  intros Hn Hr Hl Hrs. destruct (NewRouter_run n) as (r & Hnew & Hok). exists r. split; [done|].
  assert (Hp : ∀ a b i c l, zlength (wire_two (λ _, wire_latency) 0 (dim_out a b)
    (wire_two (λ _, wire_latency) 0 (dim_in a b) (wire_two (wire_source a) i (dim_out a b)
      (wire_two (wire_sink a) c (dim_in a b) l)))) = zlength l).
  { intros. unfold wire_two, dim_in, dim_out, wire_sink, wire_source, wire_latency. by rewrite !zlength_upd. }
  assert (Hd : ∀ a b l, zlength (wire_dim a b l) = zlength l) by (intros; apply Hp).
  unfold build_node.
  eapply bind_Ok with (a := 2); [done|]. change (2 * 2 + 1) with 5.
  eapply bind_Ok; [unfold lift; by rewrite Hnew|].
  eapply bind_Ok with (a := n) (s' := net_of h l (rts ++ [r]) rs ms);
    [apply on_world_run; simpl; by rewrite Hn|].
  eapply bind_Ok with (s' := net_of h l (rts ++ [r]) (vinsert n (Some n) rs) ms).
  { unfold zoom, zoom_at. simpl. destruct (vlookup_in_range rs n) as [x Hx]; [by rewrite Hrs|].
    by rewrite Hx. }
  eapply bind_Ok with (s' := net_of h l (rts ++ [r]) (vinsert n (Some n) rs) (ms ++ [TmRouter n])); [done|].
  set (rs' := vinsert n (Some n) rs). set (ms' := ms ++ [TmRouter n]).
  set (r2 := r.{_input_channels := dim_in n 0 ++ dim_in n 1}.{_output_channels := dim_out n 0 ++ dim_out n 1}).
  set (l2 := wire_dim n 1 (wire_dim n 0 l)).
  assert (Hl2 : zlength l2 = 384) by (unfold l2; by rewrite !Hd).
  eapply bind_Ok with (a := tt) (s' := net_of h l2 (rts ++ [r2]) rs' ms').
  { change (for_range 0 2 ?b) with (b 0 ;; b 1 ;; mret tt).
    eapply bind_Ok; [apply connect_dim_run; (done || by left || by rewrite ?(nr_in _ _ Hok), ?(nr_out _ _ Hok))|].
    eapply bind_Ok; [apply connect_dim_run; try done; [by right|by rewrite Hd| |];
      simpl; by rewrite ?(nr_in _ _ Hok), ?(nr_out _ _ Hok)|].
    unfold mret, M_ret. do 4 f_equal. simpl. by rewrite (nr_in _ _ Hok), (nr_out _ _ Hok). }
  eapply bind_Ok; [done|]. cbv beta.
  eapply bind_Ok with (a := n) (s' := net_of h l2 (rts ++ [r2]) rs' ms').
  { unfold lift. erewrite vget_Some; [done|]. apply vlookup_Some. split; [lia|]. apply lookup_seqZ. lia. }
  eapply bind_Ok with (a := 64 + n) (s' := net_of h l2 (rts ++ [r2]) rs' ms').
  { unfold lift. erewrite vget_Some; [done|]. apply vlookup_Some. split; [lia|]. apply lookup_seqZ. lia. }
  eapply bind_Ok; [eapply on_world_run, AddInputChannel_run with (i := 4); [done|lia|done]|].
  eapply bind_Ok; [eapply on_world_run, AddOutputChannel_run with (i := 4);
    [done|unfold wire_sink; rewrite zlength_upd; lia|done]|].
  eapply bind_Ok; [eapply on_world_run, SetLatency_run;
    unfold wire_sink, wire_source; rewrite !zlength_upd; lia|].
  etrans; [eapply on_world_run, SetLatency_run;
    unfold wire_sink, wire_source, wire_latency; rewrite !zlength_upd; lia|]. done.
Qed.

(** the channels before and after [buildMesh] *)
Definition alloc_channels : list FlitChannel :=
  ((λ s, mkFlitChannel Channel_Channel None s None (-1) [0] 0) <$> seqZ 0 64) ++
  ((λ d, mkFlitChannel Channel_Channel None (-1) None d [0] 0) <$> seqZ 0 64) ++
  replicate 256 (FlitChannel_FlitChannel 1).
Definition mesh_channel (c : Z) : FlitChannel :=
  let end_of o d := match o with Some (n, i) => (Some n, i) | None => (None, d) end in
  let '(src, src_port) := end_of (mesh_source c) c in
  let '(snk, snk_port) := end_of (mesh_sink c) (c - 64) in
  mkFlitChannel Channel_Channel src src_port snk snk_port [0] 0.
Definition mesh_channels : list FlitChannel := mesh_channel <$> seqZ 0 384.

Lemma _Alloc_run h :
  _Alloc (mkNetworkNoC (mkWorld h [] []) [] [] [] [] [] 8 2 256 64 64) =
    Ok (tt, net_of h alloc_channels [] (replicate 64 None) (TmChannel <$> seqZ 0 384)).
Proof. vm_compute. reflexivity. Qed.

Definition wire_nodes (k : Z) (l : list FlitChannel) : list FlitChannel :=
  foldl (λ l n, wire_node n l) l (seqZ 0 k).

Lemma wire_nodes_mesh : wire_nodes 64 alloc_channels = mesh_channels.
Proof. vm_compute. reflexivity. Qed.

Lemma wire_nodes_next k l : 0 ≤ k → wire_nodes (k + 1) l = wire_node k (wire_nodes k l).
Proof. intros Hk. unfold wire_nodes. by rewrite seqZ_app, foldl_app, (seqZ_cons (0 + k)) by lia. Qed.

Lemma zlength_wire_nodes k l : zlength (wire_nodes k l) = zlength l.
Proof.
  unfold wire_nodes. generalize (seqZ 0 k). intros ns. revert l.
  induction ns as [|n ns IH]; intros l; [done|]. simpl. rewrite IH.
  unfold wire_node, wire_dim, wire_two, dim_in, dim_out, wire_sink, wire_source, wire_latency.
  by rewrite !zlength_upd.
Qed.

(** the routers of the built network *)
Definition built_routers (k : Z) (rts : list ENoCRouter) : Prop :=
  zlength rts = k ∧
  ∀ n r, rts !z n = Some r → ∃ r0, new_router n r0 ∧ r = wired n r0.

Lemma NetworkNoC_run h :
  ∃ rts, built_routers 64 rts ∧
    NetworkNoC_NetworkNoC raw raw_active config h =
      Ok (net_of h mesh_channels rts (Some <$> seqZ 0 64) modules).
Proof.
  destruct (triple_for_range 0 64 (build_node raw raw_active config) (λ k net, ∃ rts rs ms,
    net = net_of h (wire_nodes k alloc_channels) rts rs ms ∧ built_routers k rts ∧
    zlength rs = 64 ∧ (∀ i, rs !z i = if decide (0 ≤ i < k) then Some (Some i) else replicate 64 None !z i) ∧
    ms = (TmChannel <$> seqZ 0 384) ++ (TmRouter <$> seqZ 0 k)))
    with (s := net_of h alloc_channels [] (replicate 64 None) (TmChannel <$> seqZ 0 384))
    as ([] & net & Hrun & rts & rs & ms & -> & Hrts & Hrs & Hrsi & ->); [lia| | |].
  - intros k Hk net (rts & rs & ms & -> & [Hrl Hr] & Hrs & Hrsi & ->).
    destruct (build_node_run h (wire_nodes k alloc_channels) rts rs
      ((TmChannel <$> seqZ 0 384) ++ (TmRouter <$> seqZ 0 k)) k) as (r & Hnew & Hrun);
      [done|done|by rewrite zlength_wire_nodes|done|].
    eexists tt, _. split; [exact Hrun|]. eexists _, _, _. split; [by rewrite wire_nodes_next by lia|].
    unfold built_routers. split_and!.
    + unfold zlength in *. rewrite length_app. simpl. lia.
    + intros n r' Hr'. destruct (decide (n = k)) as [->|Hne].
      * rewrite <-Hrl, vlookup_last in Hr'. simplify_eq. by exists r.
      * apply Hr. pose proof (vlookup_Some_range _ _ _ Hr') as Hrange.
        unfold zlength in Hrange, Hrl. rewrite length_app in Hrange. simpl in Hrange.
        apply vlookup_Some in Hr' as [? Hr']. apply vlookup_Some. split; [done|].
        rewrite lookup_app_l in Hr' by lia. done.
    + by rewrite zlength_vinsert.
    + intros i. destruct (decide (i = k)) as [->|Hne].
      * rewrite vlookup_vinsert_eq by lia. by rewrite decide_True by lia.
      * rewrite vlookup_vinsert_ne by done. rewrite Hrsi.
        destruct (decide (0 ≤ i < k)), (decide (0 ≤ i < k + 1)); (done || lia).
    + rewrite <-app_assoc, (seqZ_app 0 k 1), fmap_app, (seqZ_cons (0 + k)) by lia. done.
  - exists [], (replicate 64 None), (TmChannel <$> seqZ 0 384). split; [done|]. split.
    { split; [done|]. intros n r Hr%vlookup_Some_range. unfold zlength in Hr. simpl in Hr. lia. }
    split; [done|]. split; [by intros i; rewrite decide_False by lia|]. done.
  - exists rts. split; [done|]. unfold NetworkNoC_NetworkNoC.
    change (DEFAULT_MESH_DIM_X) with 8. change (powi 8 2) with 64. change (2 * 2 * 64) with 256.
    rewrite (bind_Ok _ _ _ _ _ _ (_Alloc_run h) eq_refl).
    unfold buildMesh.
    assert (rs = Some <$> seqZ 0 64) as ->.
    { apply list_eq. intros i. rewrite <-!vlookup_nat, Hrsi, vlookup_fmap.
      case_decide as Hi.
      - rewrite (proj2 (vlookup_Some (seqZ 0 64) (Z.of_nat i) (Z.of_nat i))); [done|].
        split; [lia|]. apply lookup_seqZ. lia.
      - rewrite !vlookup_None; [done| |]; unfold zlength; rewrite ?length_seqZ, ?length_replicate; lia. }
    erewrite (bind_Ok get); [|done|exact Hrun]. simpl. by rewrite wire_nodes_mesh.
Qed.
End build.
