(* ===== verification/NetworkRun.v ===== *)
(** * Runs of the built network

    The network of [NetworkNoC::NetworkNoC], driven from outside as the
    traffic manager drives it: flits are written to injection channels, the
    network is clocked, the ejection channels are read.  Over every such run
    no step faults, and every flit is delivered once, at its destination,
    with the contents it was injected with, or still in the network. *)

From S2P Require Import Prelude Double NoCMain Config Element Stats Channel.
From S2P Require Import VirtualChannel Allocator FlitCoding Router Network RouterInv RouterSafe.
From S2P Require Import NetworkSafe Mesh.

(** ** The outside world *)

(** [new Flit], written to the injection channel of a node *)
Definition new_flit (f : Flit) : M NetworkNoC flit_ptr := λ net,
  Ok (length (flits (world net)), net.{world ::= λ w, w.{flits ::= λ h, h ++ [f] } }).
Definition inject_flit (nf : Z * Flit) : M NetworkNoC unit :=
  p ← new_flit nf.2; WriteFlit (Some p) nf.1.

Definition read_node (d : Z) : M NetworkNoC (list (Z * flit_ptr)) :=
  f ← ReadFlit d; mret (match f with Some p => [(d, p)] | None => [] end).

(** one cycle: the flits injected, and the flits read with their nodes *)
Definition drive (clk : Z) (ins : list (Z * Flit)) : M NetworkNoC (list (Z * flit_ptr)) :=
  for_each ins inject_flit ;;
  Network_clk clk ;;
  outs ← map_M read_node (seqZ 0 64);
  mret (mjoin outs).

Fixpoint drive_all (clk : Z) (l : list (list (Z * Flit))) : M NetworkNoC (list (Z * flit_ptr)) :=
  match l with
  | [] => mret []
  | ins :: l' => outs ← drive clk ins; rest ← drive_all (clk + 1) l'; mret (outs ++ rest)
  end.

(** what may be injected in a cycle: one flit per node, with a virtual
    channel and a packet type that exist *)
Definition injectable (ins : list (Z * Flit)) : Prop :=
  NoDup ins.*1 ∧
  Forall (λ nf, 0 ≤ nf.1 < 64 ∧ countable_flit nf.2 ∧ 0 ≤ f_vc nf.2 < DEFAULT_NUM_VCS) ins.
#[export] Instance injectable_dec ins : Decision (injectable ins).
Proof. unfold injectable, countable_flit. apply _. Defined.

(** the places of the network between cycles *)
Definition node_places (n : Z) : list place :=
  ((λ iv, At n (RBuf iv.1 iv.2)) <$> (i ← seqZ 0 5; pair i <$> seqZ 0 8)) ++
  (At n ∘ ROut <$> seqZ 0 5).
Definition places : list place :=
  (Wire <$> seqZ 0 384) ++
  (Done <$> (seqZ 0 64 ++ seqZ 128 256)) ++
  (seqZ 0 64 ≫= node_places).
(** the flits inside the network, [ReadFlit] having been called *)
Definition in_network (w : World) : list flit_ptr := places ≫= slot w.

(** ** The built network satisfies the invariant *)

Lemma new_router_ok hlen n r :
  0 ≤ n < 64 → new_router n r → router_ok hlen n (wired n r).
Proof.
  intros Hn [Hid (Hs1 & Hs2 & Hs3) Hin Hout Hbuf Hq Hob Hlast Hva Hsa (Hl1 & Hl2 & Hl3 & Hl4) Hst].
  destruct (iSLIP_Sparse_wf 40 40 1) as [Hwv _]; [lia..|].
  destruct (iSLIP_Sparse_wf 5 5 1) as [Hws _]; [lia..|].
  split.
  - split; simpl; rewrite ?Hid, ?Hs1, ?Hs2, ?Hs3, ?Hbuf, ?Hob, ?Hlast, ?Hva, ?Hsa; try done.
    + intros i b Hb. apply vlookup_Some in Hb as [_ Hb].
      apply list_elem_of_lookup_2, elem_of_replicate_inv in Hb. subst. split; [apply Buffer_Buffer_wf|].
      intros v c Hc. apply vlookup_Some in Hc as [_ Hc].
      apply list_elem_of_lookup_2, elem_of_replicate_inv in Hc. by subst.
    + by repeat constructor.
  - split; simpl; rewrite Hq; [constructor|done].
  - simpl. by rewrite Hl1.
  - split; simpl; rewrite Hl2; [done|]. intros i v. unfold sw_count. simpl. lia.
  - done.
Qed.

Lemma mesh_channel_at c fc :
  mesh_channels !z c = Some fc → 0 ≤ c < 384 ∧ fc = mesh_channel c.
Proof.
  unfold mesh_channels. rewrite vlookup_fmap. intros Hc.
  destruct (seqZ 0 384 !z c) as [x|] eqn:Hx; [|done]. simplify_eq/=.
  apply vlookup_Some in Hx as [? Hx]. apply lookup_seqZ in Hx as [-> ?].
  replace (0 + Z.of_nat (Z.to_nat c)) with c by lia. split; [lia|done].
Qed.

Lemma mesh_channel_fields c :
  base_channel (mesh_channel c) = Channel_Channel ∧
  _routerSink (mesh_channel c) = (fst <$> mesh_sink c) ∧
  _routerSinkPort (mesh_channel c) = match mesh_sink c with Some (_, i) => i | None => c - 64 end ∧
  _routerSource (mesh_channel c) = (fst <$> mesh_source c) ∧
  _routerSourcePort (mesh_channel c) = match mesh_source c with Some (_, i) => i | None => c end.
Proof.
  unfold mesh_channel. by destruct (mesh_source c) as [[? ?]|], (mesh_sink c) as [[? ?]|].
Qed.

Lemma built_net_ok rts :
  built_routers 64 rts →
  net_ok 0 (λ _, False) (mkWorld [] mesh_channels rts) ∧ undriven (mkWorld [] mesh_channels rts).
Proof.
  intros [Hl Hr].
  assert (Hrt : ∀ n r, rts !z n = Some r → router_ok 0 n r ∧ _in_queue_flits r = [] ∧
    ∀ p, rslot r p = []).
  { intros n r Hn. destruct (Hr n r Hn) as (r0 & Hnew & ->).
    pose proof (vlookup_Some_range _ _ _ Hn). split; [apply new_router_ok; [lia|done]|].
    pose proof Hnew as []. split; [done|]. intros [i|i v|o]; simpl.
    - by rewrite nr_inq.
    - unfold queue, wired. simpl. rewrite nr_buf.
      destruct (replicate 5 Buffer_Buffer !z i) as [b|] eqn:Hb; [|done].
      apply vlookup_Some in Hb as [_ Hb]. apply list_elem_of_lookup_2, elem_of_replicate_inv in Hb. subst b.
      unfold bqueue. destruct (buf_vc Buffer_Buffer !z v) as [c|] eqn:Hc; [|done].
      apply vlookup_Some in Hc as [_ Hc]. apply list_elem_of_lookup_2, elem_of_replicate_inv in Hc. by subst.
    - rewrite nr_outbuf. destruct (replicate 5 [] !z o) as [b|] eqn:Hb; [|done].
      apply vlookup_Some in Hb as [_ Hb]. by apply list_elem_of_lookup_2, elem_of_replicate_inv in Hb. }
  assert (Hch : ∀ c fc, mesh_channels !z c = Some fc →
    chan_static c fc ∧ base_channel fc = Channel_Channel).
  { intros c fc Hc. destruct (mesh_channel_at _ _ Hc) as [_ ->].
    destruct (mesh_channel_fields c) as (Hb & Hs & _). split; [|done]. split; [exact Hs|by rewrite Hb]. }
  split; [|intros c fc _ Hc; by destruct (Hch c fc Hc) as [_ ->]].
  assert (Hsl : ∀ l, slot (mkWorld [] mesh_channels rts) l = []).
  { intros [c|c|n p]; simpl.
    - destruct (mesh_channels !z c) as [fc|] eqn:Hc; [|done].
      unfold wire_slot. by destruct (Hch c fc Hc) as [_ ->].
    - destruct (mesh_channels !z c) as [fc|] eqn:Hc; [|done].
      unfold done_slot. by destruct (Hch c fc Hc) as [_ ->].
    - destruct (rts !z n) as [r|] eqn:Hn; [|done]. by apply (Hrt n r Hn). }
  split; [done|done| | |done|].
  - intros n r Hn. by destruct (Hrt n r Hn) as (? & ? & _).
  - intros c fc Hc. by destruct (Hch c fc Hc) as [? ->].
  - split.
    + intros l p. by rewrite Hsl, elem_of_nil.
    + intros l. rewrite Hsl. constructor.
    + intros l l' p. by rewrite Hsl, elem_of_nil.
    + intros p. split; [done|]. intros [l Hp]. rewrite Hsl in Hp. by apply elem_of_nil in Hp.
Qed.

(** ** One cycle from outside *)

Definition net_at (w : World) : NetworkNoC :=
  mkNetworkNoC w (Some <$> seqZ 0 64) (seqZ 128 256) (seqZ 0 64) (seqZ 64 64) modules 8 2 256 64 64.

Lemma on_world_at {A} (m : M World A) w a w' :
  m w = Ok (a, w') → on_world m (net_at w) = Ok (a, net_at w').
Proof. intros Hm. unfold on_world, zoom. simpl. by rewrite Hm. Qed.

Lemma nth_seqZ {S} lo n i (s : S) : 0 ≤ i < n → lift (vget (seqZ lo n) i) s = Ok (lo + i, s).
Proof.
  intros Hi. unfold lift. erewrite vget_Some; [done|]. apply vlookup_Some. split; [lia|].
  apply lookup_seqZ. lia.
Qed.

Lemma inject_flit_run n f w fc :
  0 ≤ n < 64 → channels w !z n = Some fc →
  inject_flit (n, f) (net_at w) = Ok (tt, net_at (injected n f fc w)).
Proof.
  intros Hn Hfc. unfold inject_flit.
  eapply bind_Ok with (s' := net_at (w.{flits ::= λ h, h ++ [f] })); [done|]. unfold WriteFlit.
  eapply bind_Ok; [done|].
  eapply bind_Ok; [unfold check; rewrite bool_decide_true by done; done|].
  eapply bind_Ok; [by apply (nth_seqZ 0 64)|].
  apply on_world_at. by rewrite (on_channel_run _ _ _ fc tt
    (fc.{base_channel ::= λ ch, ch.{_input := Some (length (flits w))} })) by done.
Qed.

Lemma Network_clk_run clk w w' :
  network_cycle clk w = Ok (tt, w') → Network_clk clk (net_at w) = Ok (tt, net_at w').
Proof.
  unfold network_cycle, Network_clk, Network_ReadInputs, Network_WriteOutputs.
  unfold mbind, M_bind. intros Hrun.
  destruct (for_each modules (Tm_ReadInputs clk) w) as [[[] w1]|] eqn:H1; [|done].
  destruct (for_each modules (Tm_clk clk) w1) as [[[] w2]|] eqn:H2; [|done].
  cbn [gets _timed_modules net_at].
  rewrite (on_world_at _ _ _ _ H1). cbn [gets _timed_modules net_at].
  rewrite (on_world_at _ _ _ _ H2). cbn [gets _timed_modules net_at].
  by rewrite (on_world_at _ _ _ _ Hrun).
Qed.

(** what [ReadFlit] returns at node [d] *)
Definition ejected (w : World) (d : Z) : list (Z * flit_ptr) := pair d <$> slot w (Done (64 + d)).

Lemma read_node_run w d :
  0 ≤ d < 64 → zlength (channels w) = 384 → read_node d (net_at w) = Ok (ejected w d, net_at w).
Proof.
  intros Hd Hlen. destruct (vlookup_in_range (channels w) (64 + d)) as [fc Hfc]; [lia|].
  unfold read_node, ReadFlit.
  eapply bind_Ok with (a := _output (base_channel fc)).
  - eapply bind_Ok; [done|].
    eapply bind_Ok; [unfold check; rewrite bool_decide_true by done; done|].
    eapply bind_Ok; [by apply (nth_seqZ 64 64)|].
    apply on_world_at. eapply on_channel_read; [done|]. by destruct fc.
  - unfold ejected, slot. rewrite Hfc. unfold done_slot. by destruct (_output (base_channel fc)).
Qed.

Lemma map_M_run {S A B} (body : A → M S B) (g : A → B) l s :
  Forall (λ a, body a s = Ok (g a, s)) l → map_M body l s = Ok (g <$> l, s).
Proof.
  induction 1 as [|a l Ha Hl IH]; [done|]. simpl.
  eapply bind_Ok; [done|]. by eapply bind_Ok.
Qed.

(** the flits read after a cycle *)
Definition all_ejected (w : World) : list (Z * flit_ptr) := seqZ 0 64 ≫= ejected w.

Lemma elem_of_all_ejected w d p :
  (d, p) ∈ all_ejected w ↔ 0 ≤ d < 64 ∧ p ∈ slot w (Done (64 + d)).
Proof.
  unfold all_ejected. rewrite list_elem_of_bind. split.
  - intros (d' & Hp & Hd). apply elem_of_seqZ in Hd.
    unfold ejected in Hp. apply list_elem_of_fmap in Hp as (q & Hq & Hpq). simplify_eq. split; [lia|done].
  - intros [Hd Hp]. exists d. split.
    + unfold ejected. apply list_elem_of_fmap. by exists p.
    + apply elem_of_seqZ. lia.
Qed.

Lemma delivered_ejected hlen K w p :
  net_ok hlen K w → delivered w p ↔ p ∈ (all_ejected w).*2.
Proof.
  intros Hw. unfold delivered. rewrite list_elem_of_fmap. split.
  - intros (c & Hs & Hp). exists (c - 64, p). split; [done|]. apply elem_of_all_ejected.
    assert (0 ≤ c < 384) as Hc.
    { simpl in Hp. destruct (channels w !z c) as [fc|] eqn:Hfc; [|by apply elem_of_nil in Hp].
      apply vlookup_Some_range in Hfc. by rewrite (no_clen _ _ _ Hw) in Hfc. }
    simpl in Hs. unfold mesh_sink in Hs. repeat case_decide; try done; try lia.
    replace (64 + (c - 64)) with c by lia. split; [lia|done].
  - intros ([d q] & -> & [Hd Hq]%elem_of_all_ejected). exists (64 + d). split; [|done]. simpl.
    unfold mesh_sink. by rewrite !decide_False by lia.
Qed.

Lemma NoDup_all_ejected hlen K w : net_ok hlen K w → NoDup (all_ejected w).*2.
Proof.
  intros Hw. pose proof (no_placed _ _ _ Hw) as Hp.
  apply NoDup_fmap_2_strong.
  - intros [d p] [d' p'] [_ H1]%elem_of_all_ejected [_ H2]%elem_of_all_ejected. simpl. intros ->.
    pose proof (pl_unique _ _ _ Hp _ _ _ H1 H2) as He. simplify_eq. f_equal. lia.
  - unfold all_ejected. apply NoDup_bind; [|intros d _|apply NoDup_seqZ].
    + intros d d' [x p] _ _ Hx Hx'. unfold ejected in *.
      apply list_elem_of_fmap in Hx as (? & ? & _), Hx' as (? & ? & _). by simplify_eq.
    + apply (NoDup_fmap_2 (pair d)), Hp.
Qed.

(** ** The invariant of a run *)

(** [F] are the flits injected so far, as they were injected, and [log] the
    flits that were read, with the node *)
Record run_ok (F : list Flit) (log : list (Z * flit_ptr)) (w : World) : Prop := {
  ru_net : ∃ K, net_ok (length F) K w ∧ ∀ p, kept K w p ↔ (p < length F)%nat ∧ p ∉ log.*2;
  ru_same : heap_same F (flits w);
  ru_nodup : NoDup log.*2;
  ru_log : Forall (λ np, ∃ f, F !! np.2 = Some f ∧ dst_id f = np.1) log;
}.

(** no flit waits at the injection channels of the nodes not in [done] *)
Definition inject_free (done : list Z) (w : World) : Prop :=
  ∀ n fc, 0 ≤ n < 64 → n ∉ done → channels w !z n = Some fc → _input (base_channel fc) = None.

Lemma mesh_out_range n p c : 0 ≤ n < 64 → mesh_out n !z p = Some c → 64 ≤ c.
Proof.
  intros Hn Hc. destruct (nodes_wired n Hn) as (_ & _ & _ & H2).
  destruct (all_entries_lookup _ _ _ _ H2 Hc) as (_ & Hs & _). revert Hs.
  unfold mesh_source. repeat case_decide; (done || lia).
Qed.

Lemma undriven_free w : undriven w → inject_free [] w.
Proof.
  intros Hu n fc Hn _ Hfc. apply (Hu n fc); [|done]. intros m p Hm Hc.
  pose proof (mesh_out_range m p n Hm Hc). lia.
Qed.

Lemma heap_rel_app (R : Flit → Flit → Prop) h h' f :
  (∀ f, R f f) → length h = length h' → heap_rel R h h' → heap_rel R (h ++ [f]) (h' ++ [f]).
Proof.
  intros HR Hlen Hh p g Hp. apply lookup_app_Some in Hp as [Hp|[Hle Hp]].
  - destruct (Hh p g Hp) as (g' & Hg' & ?). exists g'. split; [|done]. by apply lookup_app_l_Some.
  - apply list_lookup_singleton_Some in Hp as [Hz <-]. exists f. split; [|done].
    replace p with (length h') by lia. by apply list_lookup_middle.
Qed.

Lemma inject_step F log fin w n f :
  run_ok F log w → inject_free fin w → 0 ≤ n < 64 → n ∉ fin →
  countable_flit f → 0 ≤ f_vc f < DEFAULT_NUM_VCS →
  ∃ w', inject_flit (n, f) (net_at w) = Ok (tt, net_at w') ∧
    run_ok (F ++ [f]) log w' ∧ inject_free (n :: fin) w'.
Proof.
  intros [(K & Hw & HK) Hsame Hnd Hlog] Hfree Hn Hnf Hcf Hv.
  destruct (vlookup_in_range (channels w) n) as [fc Hfc]; [rewrite (no_clen _ _ _ Hw); simpl; lia|].
  exists (injected n f fc w). split; [by apply inject_flit_run|].
  pose proof (no_hlen _ _ _ Hw) as Hlen.
  assert (Hw' : net_ok (S (length F)) (λ q, q = length (flits w) ∨ K q) (injected n f fc w)).
  { eapply inject_ok; try done; [|by apply (Hfree n fc)].
    intros m p Hm Hc. pose proof (mesh_out_range m p n Hm Hc). lia. }
  assert (HlenF : length (F ++ [f]) = S (length F)) by (rewrite length_app; simpl; lia).
  assert (Hdel : ∀ q, delivered (injected n f fc w) q ↔ delivered w q).
  { intros q. unfold delivered. apply exist_proper. intros c. simpl.
    destruct (decide (c = n)) as [->|Hc].
    - rewrite vlookup_vinsert_eq by (by eapply vlookup_Some_range). by rewrite Hfc.
    - by rewrite vlookup_vinsert_ne. }
  split; [split|].
  - exists (λ q, q = length (flits w) ∨ K q). rewrite HlenF. split; [done|].
    intros q. unfold kept in *. rewrite Hdel. specialize (HK q). rewrite Hlen.
    assert (Hold : q ∈ log.*2 → (q < length F)%nat).
    { intros ([d q'] & -> & Hin)%list_elem_of_fmap. rewrite Forall_forall in Hlog.
      destruct (Hlog _ Hin) as (g & Hg & _). by apply lookup_lt_Some in Hg. }
    assert (Hd : delivered w q → (q < length F)%nat).
    { intros (c & _ & Hq). destruct (pl_ok _ _ _ (no_placed _ _ _ Hw) _ _ Hq) as (g & Hg & _).
      apply lookup_lt_Some in Hg. lia. }
    destruct (decide (q = length F)) as [->|Hne].
    + assert (length F ∉ log.*2) by (intros Hin; specialize (Hold Hin); lia).
      assert (¬ delivered w (length F)) by (intros Hin; specialize (Hd Hin); lia).
      split; intros _; (split; [|done]); [lia|by left].
    + split.
      * intros [[?|HKq] Hnq]; [done|]. destruct HK as [HK _]. destruct HK; [done|]. split; [lia|done].
      * intros [Hlt Hq]. destruct HK as [_ HK]. destruct HK as [? ?]; [split; [lia|done]|]. tauto.
  - apply heap_rel_app; [done| |done]. by rewrite Hlen.
  - done.
  - eapply Forall_impl; [exact Hlog|]. intros np (g & Hg & ?). exists g.
    split; [by apply lookup_app_l_Some|done].
  - intros m x Hm Hin Hx. apply not_elem_of_cons in Hin as [Hne Hin]. simpl in Hx.
    rewrite vlookup_vinsert_ne in Hx by done. by apply (Hfree m x).
Qed.

Lemma inject_all F log fin w ins :
  run_ok F log w → inject_free fin w → injectable ins → (∀ n, n ∈ ins.*1 → n ∉ fin) →
  ∃ w', for_each ins inject_flit (net_at w) = Ok (tt, net_at w') ∧ run_ok (F ++ ins.*2) log w'.
Proof.
  revert F fin w. induction ins as [|[n f] ins IH]; intros F fin w Hrun Hfree [Hnd Hall] Hfin.
  - exists w. split; [done|]. simpl. by rewrite app_nil_r.
  - simpl in *. apply NoDup_cons in Hnd as [Hni Hnd]. apply Forall_cons in Hall as [(Hn & Hcf & Hv) Hall].
    destruct (inject_step F log fin w n f Hrun Hfree Hn) as (w1 & Hr1 & Hrun1 & Hfree1);
      [apply Hfin; by left|done|done|].
    destruct (IH (F ++ [f]) (n :: fin) w1 Hrun1 Hfree1) as (w2 & Hr2 & Hrun2).
    { by split. }
    { intros m Hm. apply not_elem_of_cons. split; [by intros ->|]. apply Hfin. by right. }
    exists w2. split; [by eapply bind_Ok|]. by rewrite <-app_assoc in Hrun2.
Qed.

Lemma drive_step clk F log w ins :
  run_ok F log w → inject_free [] w → injectable ins →
  ∃ outs w', drive clk ins (net_at w) = Ok (outs, net_at w') ∧
    run_ok (F ++ ins.*2) (log ++ outs) w' ∧ inject_free [] w'.
Proof.
  intros Hrun Hfree Hins.
  destruct (inject_all F log [] w ins Hrun Hfree Hins) as (w1 & Hr1 & [(K & Hw1 & HK) Hsame Hnd Hlog]).
  { intros n _. apply not_elem_of_nil. }
  set (F1 := F ++ ins.*2) in *.
  assert (Hnn : 0 ≤ n_nodes) by (simpl; lia).
  destruct (cycle_run (length F1) Hnn K clk w1 Hw1)
    as (w2 & Hr2 & Hw2 & Hs2 & Hl2 & Hu2).
  exists (all_ejected w2), w2. split; [|split; [split|by apply undriven_free]].
  - unfold drive. eapply bind_Ok; [exact Hr1|]. eapply bind_Ok; [by apply Network_clk_run|].
    eapply bind_Ok; [apply (map_M_run _ (ejected w2))|].
    + apply Forall_forall. intros d Hd%elem_of_seqZ. apply read_node_run; [lia|apply Hw2].
    + done.
  - exists (kept K w1). split; [done|]. intros p. unfold kept at 1.
    rewrite HK, (delivered_ejected _ _ _ _ Hw2), fmap_app, not_elem_of_app. tauto.
  - by etrans.
  - rewrite fmap_app. apply NoDup_app. split_and!; [done| |by eapply NoDup_all_ejected].
    intros p Hp Hq. apply (delivered_ejected _ _ _ _ Hw2) in Hq as (c & _ & Hq).
    assert (kept K w1 p) as Hk%HK by (apply (pl_all _ _ _ (no_placed _ _ _ Hw2)); by exists (Done c)).
    by destruct Hk.
  - apply Forall_app. split; [done|]. apply Forall_forall. intros [d p] Hin.
    apply elem_of_all_ejected in Hin as [Hd Hp].
    destruct (delivered_dst _ _ _ d (64 + d) p Hw2) as (f & Hf & Hdst); [done|done|done|].
    assert (kept K w1 p) as Hk%HK by (apply (pl_all _ _ _ (no_placed _ _ _ Hw2)); by eexists).
    destruct Hk as [Hlt _]. destruct (lookup_lt_is_Some_2 F1 p Hlt) as [f0 Hf0].
    exists f0. split; [done|]. simpl.
    destruct (Hsame p f0 Hf0) as (f1 & Hf1 & _ & Hd1 & _).
    destruct (Hs2 p f1 Hf1) as (f2 & Hf2 & _ & Hd2 & _). simplify_eq. congruence.
Qed.

Lemma drive_all_run clk F log w l :
  run_ok F log w → inject_free [] w → Forall injectable l →
  ∃ outs w', drive_all clk l (net_at w) = Ok (outs, net_at w') ∧
    run_ok (F ++ mjoin (fmap snd <$> l)) (log ++ outs) w'.
Proof.
  revert clk F log w. induction l as [|ins l IH]; intros clk F log w Hrun Hfree Hall.
  - exists [], w. split; [done|]. simpl. by rewrite !app_nil_r.
  - apply Forall_cons in Hall as [Hins Hall].
    destruct (drive_step clk F log w ins Hrun Hfree Hins) as (o1 & w1 & Hr1 & Hrun1 & Hfree1).
    destruct (IH (clk + 1) _ _ _ Hrun1 Hfree1 Hall) as (o2 & w2 & Hr2 & Hrun2).
    exists (o1 ++ o2), w2. split.
    + eapply bind_Ok; [exact Hr1|]. by eapply bind_Ok.
    + simpl. by rewrite !app_assoc.
Qed.

(** ** The flits of the network, counted *)

Lemma NoDup_small {A} `{EqDecision A} (l : list A) : bool_decide (NoDup l) = true → NoDup l.
Proof. apply bool_decide_eq_true. Qed.

Lemma NoDup_node_places n : NoDup (node_places n).
Proof.
  unfold node_places. apply NoDup_app. split_and!.
  - apply NoDup_fmap_2; [intros [? ?] [? ?] ?; by simplify_eq/=|]. apply NoDup_small. reflexivity.
  - intros l Hl Hl'. apply list_elem_of_fmap in Hl as (? & -> & _), Hl' as (? & ? & _). done.
  - apply NoDup_fmap_2; [intros ? ? ?; by simplify_eq/=|apply NoDup_seqZ].
Qed.

Lemma node_places_at n l : l ∈ node_places n → ∃ p, l = At n p.
Proof.
  unfold node_places. rewrite elem_of_app, !list_elem_of_fmap.
  intros [(? & -> & _)|(? & -> & _)]; by eexists.
Qed.

Lemma NoDup_places : NoDup places.
Proof.
  unfold places. apply NoDup_app. split_and!.
  - apply NoDup_fmap_2; [intros ? ? ?; by simplify_eq|apply NoDup_seqZ].
  - intros l (c & -> & _)%list_elem_of_fmap. rewrite elem_of_app.
    intros [(? & ? & _)%list_elem_of_fmap|(n & (? & ?)%node_places_at & _)%list_elem_of_bind]; done.
  - apply NoDup_app. split_and!.
    + apply NoDup_fmap_2; [intros ? ? ?; by simplify_eq|]. apply NoDup_small. vm_compute. reflexivity.
    + intros l (c & -> & _)%list_elem_of_fmap (n & (? & ?)%node_places_at & _)%list_elem_of_bind. done.
    + apply NoDup_bind; [|intros; apply NoDup_node_places|apply NoDup_seqZ].
      intros n n' l _ _ (? & ->)%node_places_at (? & ?)%node_places_at. by simplify_eq.
Qed.

(** a place that holds a flit is counted, unless the flit was just read *)
Lemma slot_counted hlen K w l p :
  net_ok hlen K w → p ∈ slot w l → l ∈ places ∨ ∃ d, 0 ≤ d < 64 ∧ l = Done (64 + d).
Proof.
  intros Hw Hp. unfold places. rewrite !elem_of_app, !list_elem_of_fmap.
  destruct l as [c|c|n x]; simpl in Hp.
  - destruct (channels w !z c) as [fc|] eqn:Hc; [|by apply elem_of_nil in Hp].
    apply vlookup_Some_range in Hc. rewrite (no_clen _ _ _ Hw) in Hc. simpl in Hc.
    left; left. exists c. split; [done|]. apply elem_of_seqZ. lia.
  - destruct (channels w !z c) as [fc|] eqn:Hc; [|by apply elem_of_nil in Hp].
    apply vlookup_Some_range in Hc. rewrite (no_clen _ _ _ Hw) in Hc. simpl in Hc.
    destruct (decide (64 ≤ c < 128)) as [Hr|Hr].
    + right. exists (c - 64). split; [lia|f_equal; lia].
    + left; right; left. exists c. split; [done|]. rewrite elem_of_app, !elem_of_seqZ. lia.
  - destruct (routers w !z n) as [r|] eqn:Hr; [|by apply elem_of_nil in Hp].
    destruct (no_routers _ _ _ Hw _ _ Hr) as [Hok Hq]. pose proof (ro_base _ _ _ Hok) as Hb.
    apply vlookup_Some_range in Hr. rewrite (no_len _ _ _ Hw) in Hr. simpl in Hr.
    left; right; right. apply list_elem_of_bind. exists n.
    split; [|apply elem_of_seqZ; lia]. unfold node_places. rewrite elem_of_app, !list_elem_of_fmap.
    destruct x as [i|i v|o]; simpl in Hp.
    + rewrite Hq in Hp. by apply elem_of_nil in Hp.
    + left. exists (i, v). split; [done|]. rewrite queue_vc_at in Hp.
      destruct (vc_at r i v) as [c|] eqn:Hc; [|by apply elem_of_nil in Hp].
      destruct (vc_at_range _ _ _ _ _ _ Hb Hc) as [Hi Hv]. unfold DEFAULT_NUM_VCS in Hv.
      apply list_elem_of_bind. exists i. rewrite elem_of_seqZ, list_elem_of_fmap. split; [|lia].
      exists v. rewrite elem_of_seqZ. split; [done|lia].
    + right. exists o. split; [done|]. rewrite elem_of_seqZ.
      destruct (_output_buffer r !z o) as [q|] eqn:Ho; [|by apply elem_of_nil in Hp].
      apply vlookup_Some_range in Ho. rewrite (rb_outbuf _ _ _ Hb) in Ho. lia.
Qed.

Lemma run_permutation F log w :
  run_ok F log w → log.*2 ++ in_network w ≡ₚ seq 0 (length F).
Proof.
  intros [(K & Hw & HK) _ Hnd Hlog]. pose proof (no_placed _ _ _ Hw) as Hp.
  assert (Hin : ∀ p, p ∈ in_network w ↔ (p < length F)%nat ∧ p ∉ log.*2).
  { intros p. rewrite <-HK. unfold in_network, kept. rewrite list_elem_of_bind, (pl_all _ _ _ Hp). split.
    - intros (l & Hpl & Hl). split; [by exists l|]. intros (c & Hs & Hpc).
      pose proof (pl_unique _ _ _ Hp _ _ _ Hpl Hpc) as ->. revert Hl. unfold places.
      rewrite !elem_of_app, !list_elem_of_fmap. simpl in Hs.
      intros [(? & ? & _)|[(c' & ? & Hc)|(n & (? & ?)%node_places_at & _)%list_elem_of_bind]]; try done.
      simplify_eq. rewrite elem_of_app, !elem_of_seqZ in Hc.
      unfold mesh_sink in Hs. repeat case_decide; (done || lia).
    - intros [[l Hpl] Hnd']. exists l. split; [done|].
      destruct (slot_counted _ _ _ _ _ Hw Hpl) as [?|(d & Hd & ->)]; [done|]. destruct Hnd'.
      apply (delivered_ejected _ _ _ _ Hw), list_elem_of_fmap. exists (d, p). split; [done|].
      by apply elem_of_all_ejected. }
  apply NoDup_Permutation; [|apply NoDup_seq|].
  - apply NoDup_app. split_and!; [done|by intros p Hl [_ ?]%Hin|].
    apply NoDup_bind; [|intros l _; apply Hp|apply NoDup_places].
    intros l l' p _ _. apply (pl_unique _ _ _ Hp).
  - intros p. rewrite elem_of_app, Hin, elem_of_seq.
    assert (H : p ∈ log.*2 → (p < length F)%nat).
    { intros ([d q] & -> & Hq)%list_elem_of_fmap. rewrite Forall_forall in Hlog.
      destruct (Hlog _ Hq) as (f & Hf & _). by apply lookup_lt_Some in Hf. }
    split; [intros [Hin'|[? _]]; [specialize (H Hin')|]; lia|].
    intros Hlt. destruct (decide (p ∈ log.*2)); [by left|right]. split; [lia|done].
Qed.

Lemma built_run_ok rts :
  built_routers 64 rts → run_ok [] [] (mkWorld [] mesh_channels rts) ∧ inject_free [] (mkWorld [] mesh_channels rts).
Proof.
  intros Hr. destruct (built_net_ok rts Hr) as [Hw Hu]. split; [|by apply undriven_free].
  split; [|done|constructor|constructor]. exists (λ _, False). split; [done|].
  intros p. unfold kept. simpl. split; [by intros [? _]|lia].
Qed.

Lemma network_run raw raw_active config l :
  config_ok config → Forall injectable l →
  ∃ w0 outs w, NetworkNoC_NetworkNoC raw raw_active config [] = Ok (net_at w0) ∧
    drive_all 0 l (net_at w0) = Ok (outs, net_at w) ∧ run_ok (mjoin (fmap snd <$> l)) outs w.
Proof.
  intros Hcfg Hl. destruct (NetworkNoC_run raw raw_active config Hcfg []) as (rts & Hrts & Hrun).
  destruct (built_run_ok rts Hrts) as [Hok Hfree].
  destruct (drive_all_run 0 [] [] _ l Hok Hfree Hl) as (outs & w & Hd & Hw).
  exists (mkWorld [] mesh_channels rts), outs, w.
  split; [exact Hrun|]. split; [exact Hd|exact Hw].
Qed.

Lemma default_config_ok : config_ok Configuration_Configuration.
Proof. intros raw. exists 0, 0. apply default_tmp. Qed.

(** ** Properties *)

(** C1: Whatever flits are injected (at most one per node and
    cycle, with an existing VC and packet type), the network that the
    constructor builds runs any number of cycles without a fault, from any
    uninitialised memory; and at the end the flits that came out of the
    ejection channels together with those still in the network are the
    injected flits, each exactly once: none is lost, duplicated or made up.
    A flit comes out only at its destination, and its source, destination,
    type, sequence number, payload and time stamp are those it was injected
    with. *)
Theorem network_conserves_flits raw raw_active config (l : list (list (Z * Flit))) :
  config_ok config → Forall injectable l →
  let F := mjoin (fmap snd <$> l) in
  ∃ net0 outs net', NetworkNoC_NetworkNoC raw raw_active config [] = Ok net0 ∧
    drive_all 0 l net0 = Ok (outs, net') ∧
    outs.*2 ++ in_network (world net') ≡ₚ seq 0 (length F) ∧
    heap_same F (flits (world net')) ∧
    ∀ d p, (d, p) ∈ outs → ∃ f, F !! p = Some f ∧ dst_id f = d.
Proof.
  intros Hcfg Hl F. destruct (network_run raw raw_active config l Hcfg Hl) as (w0 & outs & w & H1 & H2 & Hw).
  exists (net_at w0), outs, (net_at w). split; [exact H1|]. split; [exact H2|].
  split; [by apply run_permutation|]. split; [apply Hw|].
  intros d p Hin. pose proof (ru_log _ _ _ Hw) as Hlog. rewrite Forall_forall in Hlog.
  exact (Hlog _ Hin).
Qed.

(** a three-flit packet from node 9 to node 10, one flit per cycle *)
Definition demo_packet : list (list (Z * Flit)) :=
  [[(9, (coding_flit FLIT_TYPE_HEAD 0).{dst_id := 10})];
   [(9, (coding_flit FLIT_TYPE_BODY 77).{dst_id := 10})];
   [(9, (coding_flit FLIT_TYPE_TAIL 0).{dst_id := 10})]; []; []; []; []].

Lemma network_conserves_flits_witness :
  ∃ net0 outs net', NetworkNoC_NetworkNoC (λ _, mkElement d_zero d_zero d_zero d_zero) (λ _, false)
      Configuration_Configuration [] = Ok net0 ∧
    drive_all 0 demo_packet net0 = Ok (outs, net') ∧
    outs.*2 ++ in_network (world net') ≡ₚ seq 0 3.
Proof.
  destruct (network_conserves_flits (λ _, mkElement d_zero d_zero d_zero d_zero) (λ _, false)
    Configuration_Configuration demo_packet default_config_ok
    ltac:(apply (bool_decide_unpack _); vm_compute; exact I))
    as (net0 & outs & net' & H1 & H2 & H3 & _).
  exists net0, outs, net'. split; [exact H1|]. split; [exact H2|exact H3].
Defined.

(** C24: At the end of every cycle of every run, each flit that waits in a
    channel behind an output port of a router is there because that port
    is the one the XY rule chooses at that router for its destination; flits in
    output buffers are at their XY port, and flits in input buffers are
    recorded with the XY port and in the VC their header names. *)
Theorem flits_stay_on_xy_route raw raw_active config (l : list (list (Z * Flit))) :
  config_ok config → Forall injectable l →
  ∃ net0 outs net', NetworkNoC_NetworkNoC raw raw_active config [] = Ok net0 ∧
    drive_all 0 l net0 = Ok (outs, net') ∧
    let w := world net' in
    ∀ p f, flits w !! p = Some f →
      (∀ c n o, mesh_source c = Some (n, o) → p ∈ slot w (Wire c) ∨ p ∈ slot w (Done c) →
         o = xy_yx_mesh_port n (dst_id f)) ∧
      (∀ n o, p ∈ slot w (At n (ROut o)) → o = xy_yx_mesh_port n (dst_id f)) ∧
      (∀ n i v, p ∈ slot w (At n (RBuf i v)) →
         output_port f = xy_yx_mesh_port n (dst_id f) ∧ output_port f < 4 ∧ f_vc f = v).
Proof.
  intros Hcfg Hl. destruct (network_run raw raw_active config l Hcfg Hl) as (w0 & outs & w & H1 & H2 & Hw).
  exists (net_at w0), outs, (net_at w). split; [exact H1|]. split; [exact H2|].
  destruct (ru_net _ _ _ Hw) as (K & Hnet & _). pose proof (no_placed _ _ _ Hnet) as Hp.
  cbn [world net_at]. intros p f Hf.
  assert (Hok : ∀ l, p ∈ slot w l → flit_ok l f).
  { intros l' Hl'. destruct (pl_ok _ _ _ Hp _ _ Hl') as (g & Hg & ?). rewrite Hf in Hg. by injection Hg as ->. }
  split_and!.
  - intros c n o Hs. destruct (mesh_source_out _ _ _ Hs) as [Hn Hc].
    intros [[_ [_ Hx]]%Hok|[_ [_ Hx]]%Hok]; by apply Hx.
  - intros n o Hin. by destruct (Hok _ Hin) as (_ & _ & ?).
  - intros n i v Hin. destruct (Hok _ Hin) as (_ & ? & ? & ?). split_and!; [done|lia|done].
Qed.

Lemma flits_stay_on_xy_route_witness :
  ∃ net0 outs net', NetworkNoC_NetworkNoC (λ _, mkElement d_zero d_zero d_zero d_zero) (λ _, false)
      Configuration_Configuration [] = Ok net0 ∧
    drive_all 0 (take 2 demo_packet) net0 = Ok (outs, net') ∧
    ∀ f, flits (world net') !! 1%nat = Some f → 
      1%nat ∈ slot (world net') (Done 164) → 0 = xy_yx_mesh_port 9 (dst_id f).
Proof.
  destruct (flits_stay_on_xy_route (λ _, mkElement d_zero d_zero d_zero d_zero) (λ _, false)
    Configuration_Configuration (take 2 demo_packet) default_config_ok
    ltac:(apply (bool_decide_unpack _); vm_compute; exact I))
    as (net0 & outs & net' & H1 & H2 & H3).
  exists net0, outs, net'. split; [exact H1|]. split; [exact H2|].
  intros f Hf Hin. apply (proj1 (H3 1%nat f Hf) 164 9 0); [reflexivity|by right].
Defined.
