(* ===== verification/Routes.v ===== *)
(** * Routes of the built network

    The XY rule on the wiring that [buildMesh] produces: it reaches every
    destination on a path that uses no wrap-around link and is the shortest of those, it cannot
    close a cycle of channels, and a packet for a node outside of the mesh
    never leaves the network. *)

From S2P Require Import Prelude Double NoCMain Config Element Stats Channel.
From S2P Require Import VirtualChannel Allocator FlitCoding Router Network RouterInv RouterSafe.
From S2P Require Import RouterVC RouterSW RouterCycle NetworkSafe Mesh NetworkRun.

(** ** One hop *)

Definition mesh_x (n : Z) : Z := Z.rem n DEFAULT_MESH_DIM_X.
Definition mesh_y (n : Z) : Z := Z.quot n DEFAULT_MESH_DIM_X.
Definition distance (a b : Z) : Z := Z.abs (mesh_x a - mesh_x b) + Z.abs (mesh_y a - mesh_y b).

(** the next router and its input port behind output port [o] of router
    [n], as the router and the channel record them *)
Definition hop_in (w : World) (n o : Z) : option (Z * Z) :=
  r ← routers w !z n;
  c ← _output_channels r !z o;
  fc ← channels w !z c;
  m ← GetSink fc;
  Some (m, GetSinkPort fc).
(** the same in the closed form of the built network *)
Definition hop (n o : Z) : option (Z * Z) :=
  c ← mesh_out n !z o;
  fc ← mesh_channels !z c;
  m ← GetSink fc;
  Some (m, GetSinkPort fc).

(** the routers a packet from [n] to [d] visits, in at most [fuel] hops *)
Fixpoint follow (w : World) (fuel : nat) (n d : Z) : list Z :=
  match fuel with
  | O => []
  | S fuel' =>
      n :: match hop_in w n (xy_yx_mesh_port n d) with
           | Some (m, _) => follow w fuel' m d
           | None => []
           end
  end.

(** a position in the order of channels: the X channels in the direction
    they lead, then the Y channels *)
Definition channel_rank (n o : Z) : Z :=
  if decide (o = 0) then mesh_x n
  else if decide (o = 1) then DEFAULT_MESH_DIM_X - 1 - mesh_x n
  else if decide (o = 2) then DEFAULT_MESH_DIM_X + mesh_y n
  else if decide (o = 3) then 2 * DEFAULT_MESH_DIM_X - 1 - mesh_y n
  else 2 * DEFAULT_MESH_DIM_X.

(** what is checked of every router and destination *)
Definition hop_ok (n d : Z) : Prop :=
  let o := xy_yx_mesh_port n d in
  if decide (o = 4) then n = d ∧ hop n o = None
  else
    0 ≤ o < 4 ∧ n ≠ d ∧
    match hop n o with
    | Some (m, i) =>
        0 ≤ m < 64 ∧ i = opposite_port o ∧ distance m d = distance n d - 1 ∧ distance n m = 1 ∧
        channel_rank n o < channel_rank m (xy_yx_mesh_port m d)
    | None => False
    end.
#[export] Instance hop_ok_dec n d : Decision (hop_ok n d).
Proof.
  unfold hop_ok. destruct (decide (xy_yx_mesh_port n d = 4)); [apply _|].
  destruct (hop n (xy_yx_mesh_port n d)) as [[m i]|]; apply _.
Defined.

Definition hops_from (n : Z) : Prop := Forall (hop_ok n) (seqZ 0 64).
#[export] Instance hops_from_dec n : Decision (hops_from n).
Proof. unfold hops_from. apply _. Defined.

Lemma hops_ok n d : 0 ≤ n < 64 → 0 ≤ d < 64 → hop_ok n d.
Proof.
  intros Hn Hd. assert (Hf : hops_from n).
  { revert n Hn. apply (all_nodes hops_from). vm_compute. reflexivity. }
  unfold hops_from in Hf. rewrite Forall_forall in Hf. apply Hf, elem_of_seqZ. lia.
Qed.

(** ** The wiring, router by router *)

Definition wired_router (n : Z) : Prop :=
  Forall (λ o : Z,
    match mesh_out n !z o, hop n o with
    | Some c, Some (m, i) =>
        m = (if decide (o = 0) then _RightNode 8 n 0 else if decide (o = 1) then _LeftNode 8 n 0
             else if decide (o = 2) then _RightNode 8 n 1 else _LeftNode 8 n 1) ∧
        i = opposite_port o ∧ mesh_in m !z i = Some c ∧ hop m i = Some (n, o)
    | _, _ => False
    end) [0; 1; 2; 3].
#[export] Instance wired_router_dec n : Decision (wired_router n).
Proof.
  unfold wired_router. apply Forall_dec. intros o.
  destruct (mesh_out n !z o); [|apply _]. destruct (hop n o) as [[m i]|]; apply _.
Defined.
Lemma wired_routers n : 0 ≤ n < 64 → wired_router n.
Proof. apply (all_nodes wired_router). vm_compute. reflexivity. Qed.

Lemma hop_range n o m i : hop n o = Some (m, i) → 0 ≤ m < 64.
Proof.
  unfold hop. destruct (mesh_out n !z _) as [c|] eqn:Hc; [|done]. simpl.
  destruct (mesh_channels !z c) as [fc|] eqn:Hfc; [|done]. simpl.
  destruct (mesh_channel_at _ _ Hfc) as [_ ->]. unfold GetSink.
  destruct (mesh_channel_fields c) as (_ & -> & _). destruct (mesh_sink c) as [[m' i']|] eqn:Hs; [|done].
  simpl. intros [= <- _]. pose proof (sinks_wired c (mesh_sink_range _ _ Hs)) as Hw.
  unfold sink_wired in Hw. rewrite Hs in Hw. exact (proj1 Hw).
Qed.

Lemma wired_link n o :
  0 ≤ n < 64 → 0 ≤ o < 4 → ∃ c m,
    mesh_out n !z o = Some c ∧ hop n o = Some (m, opposite_port o) ∧
    hop m (opposite_port o) = Some (n, o) ∧
    m = (if decide (o = 0) then _RightNode 8 n 0 else if decide (o = 1) then _LeftNode 8 n 0
         else if decide (o = 2) then _RightNode 8 n 1 else _LeftNode 8 n 1) ∧
    0 ≤ m < 64 ∧ mesh_in m !z opposite_port o = Some c.
Proof.
  intros Hn Ho. pose proof (wired_routers n Hn) as Hw. unfold wired_router in Hw.
  rewrite Forall_forall in Hw. specialize (Hw o ltac:(rewrite !elem_of_cons; lia)).
  destruct (mesh_out n !z o) as [c|]; [|done].
  destruct (hop n o) as [[m i]|] eqn:Hhop; [|done]. destruct Hw as (Hm & -> & Hic & Hback).
  exists c, m. pose proof (hop_range _ _ _ _ Hhop). done.
Qed.

Section built.
Context (rts : list ENoCRouter).
Hypothesis Hrts : built_routers 64 rts.
Let w : World := mkWorld [] mesh_channels rts.

Lemma built_at n : 0 ≤ n < 64 → ∃ r, rts !z n = Some r ∧
  _input_channels r = mesh_in n ∧ _output_channels r = mesh_out n.
Proof.
  intros Hn. destruct Hrts as [Hl Hr]. destruct (vlookup_in_range rts n) as [r Hrn]; [lia|].
  destruct (Hr n r Hrn) as (r0 & _ & ->). by eexists.
Qed.

Lemma built_hop n o : 0 ≤ n < 64 → hop_in w n o = hop n o.
Proof.
  intros Hn. destruct (built_at n Hn) as (r & Hr & _ & Ho). unfold hop_in, hop. simpl.
  rewrite Hr. simpl. by rewrite Ho.
Qed.

(** a packet inside the mesh arrives after as many hops as the distance *)
Lemma follow_run k n d :
  0 ≤ n < 64 → 0 ≤ d < 64 → distance n d = Z.of_nat k →
  ∃ route, (∀ fuel, (k < fuel)%nat → follow w fuel n d = route) ∧
    length route = S k ∧ last route = Some d ∧
    ∀ i a b, route !! i = Some a → route !! S i = Some b → distance a b = 1.
Proof.
  revert n. induction k as [|k IH]; intros n Hn Hd Hk.
  - pose proof (hops_ok n d Hn Hd) as Hh. unfold hop_ok in Hh. case_decide as H4.
    + destruct Hh as [-> Hnone]. exists [d]. split_and!; [|done|done|by intros [|i] a b].
      intros [|fuel] Hf; [lia|]. simpl. by rewrite built_hop, Hnone.
    + destruct Hh as (_ & _ & Hh). destruct (hop n _) as [[m i]|]; [|done].
      destruct Hh as (Hm & _ & Hdist & _). unfold distance in *. lia.
  - pose proof (hops_ok n d Hn Hd) as Hh. unfold hop_ok in Hh. case_decide as H4.
    + destruct Hh as [-> _]. unfold distance in Hk. lia.
    + destruct Hh as (_ & _ & Hh). destruct (hop n _) as [[m i]|] eqn:Hhop; [|done].
      destruct Hh as (Hm & _ & Hdist & Hone & _).
      destruct (IH m Hm Hd) as (route & Hrun & Hlen & Hlast & Hstep); [lia|].
      exists (n :: route). split_and!.
      * intros [|fuel] Hf; [lia|]. simpl. rewrite built_hop, Hhop by done. rewrite Hrun by lia. done.
      * simpl. by rewrite Hlen.
      * destruct route; [done|]. exact Hlast.
      * intros [|j] a b Ha Hb; [|by apply (Hstep j)]. simpl in *.
        assert (∃ t, route = m :: t) as [t ->].
        { specialize (Hrun (S k) ltac:(lia)). simpl in Hrun. rewrite <-Hrun. by eexists. }
        by simplify_eq/=.
Qed.

(** a packet for a node outside of the mesh is forwarded by every router *)
Lemma outside_port n d : 0 ≤ n < 64 → 64 ≤ d → 0 ≤ xy_yx_mesh_port n d < 4.
Proof.
  intros Hn Hd. pose proof (xy_yx_mesh_port_range n d).
  enough (xy_yx_mesh_port n d ≠ 4) by lia. unfold xy_yx_mesh_port.
  assert (n ÷ DEFAULT_MESH_DIM_X < 8) by (apply Z.quot_lt_upper_bound; unfold DEFAULT_MESH_DIM_X; lia).
  assert (8 ≤ d ÷ DEFAULT_MESH_DIM_X) by (apply Z.quot_le_lower_bound; unfold DEFAULT_MESH_DIM_X; lia).
  repeat case_decide; lia.
Qed.

Lemma follow_outside fuel n d :
  0 ≤ n < 64 → 64 ≤ d → length (follow w fuel n d) = fuel.
Proof.
  intros Hn Hd. revert n Hn. induction fuel as [|fuel IH]; intros n Hn; [done|]. simpl.
  rewrite built_hop by done. pose proof (outside_port n d Hn Hd) as Ho.
  destruct (wired_link n _ Hn Ho) as (c & m & _ & -> & _ & _ & Hm & _). f_equal. by apply IH.
Qed.
End built.

(** ** Properties *)

(** C29: The constructor builds an 8x8 torus with consistent ends:
    router [n] sits at index [n]; each of its output channels 0-3 leads to
    the right or left neighbour in that dimension, is recorded there as
    the input of the opposite port ([opposite_port], the table [FindIdleVC] and
    [FindFreeSpace] index the neighbour's buffers with), and the channel
    back is the one paired with it; port 4 is the injection and the ejection
    channel of the node. *)
Theorem built_network_wiring raw raw_active config :
  config_ok config →
  ∃ net, NetworkNoC_NetworkNoC raw raw_active config [] = Ok net ∧
    zlength (routers (world net)) = 64 ∧
    ∀ n r, routers (world net) !z n = Some r →
      _id r = n ∧ _input_channels r !z 4 = vlookup (_inject net) n ∧
      _output_channels r !z 4 = vlookup (_eject net) n ∧
      ∀ o, 0 ≤ o < 4 → ∃ c m r',
        _output_channels r !z o = Some c ∧
        hop_in (world net) n o = Some (m, opposite_port o) ∧
        hop_in (world net) m (opposite_port o) = Some (n, o) ∧
        m = (if decide (o = 0) then _RightNode 8 n 0 else if decide (o = 1) then _LeftNode 8 n 0
             else if decide (o = 2) then _RightNode 8 n 1 else _LeftNode 8 n 1) ∧
        routers (world net) !z m = Some r' ∧ _input_channels r' !z opposite_port o = Some c.
Proof.
  intros Hcfg. destruct (NetworkNoC_run raw raw_active config Hcfg []) as (rts & Hrts & Hrun).
  eexists. split; [exact Hrun|]. pose proof Hrts as [Hl Hr]. split; [exact Hl|].
  intros n r Hn. simpl in Hn. pose proof (vlookup_Some_range _ _ _ Hn) as Hrange.
  assert (Hn64 : 0 ≤ n < 64) by lia.
  destruct (Hr n r Hn) as (r0 & Hnew & Hw). split; [rewrite Hw; exact (nr_id _ _ Hnew)|].
  assert (Hseq : ∀ lo, seqZ lo 64 !z n = Some (lo + n)).
  { intros lo. apply vlookup_Some. split; [lia|]. apply lookup_seqZ. lia. }
  split; [rewrite Hw; symmetry; exact (Hseq 0)|]. split; [rewrite Hw; symmetry; exact (Hseq 64)|].
  intros o Ho. destruct (wired_link n o Hn64 Ho) as (c & m & Hc & Hhop & Hback & Hm & Hm64 & Hic).
  destruct (built_at rts Hrts m Hm64) as (r' & Hr' & Hin' & _).
  exists c, m, r'. split; [by rewrite Hw|]. split; [etrans; [by apply (built_hop rts Hrts)|exact Hhop]|].
  split; [etrans; [by apply (built_hop rts Hrts)|exact Hback]|].
  split; [exact Hm|]. split; [exact Hr'|]. by rewrite Hin'.
Qed.

Lemma built_network_wiring_witness :
  ∃ net, NetworkNoC_NetworkNoC (λ _, mkElement d_zero d_zero d_zero d_zero) (λ _, false)
    Configuration_Configuration [] = Ok net ∧ zlength (routers (world net)) = 64.
Proof.
  destruct (built_network_wiring (λ _, mkElement d_zero d_zero d_zero d_zero) (λ _, false)
    Configuration_Configuration default_config_ok) as (net & H1 & H2 & _).
  exists net. split; [exact H1|exact H2].
Defined.

(** two wrap-around links *)
Lemma wrap_hops : hop 7 0 = Some (0, 1) ∧ hop 0 3 = Some (56, 2).
Proof. split; vm_compute; reflexivity. Qed.

(** every list of routers with two consecutive ones next to each other has more of them than the distance of its ends *)
Lemma distance_path p : ∀ s d, head p = Some s → last p = Some d →
  (∀ i a b, p !! i = Some a → p !! S i = Some b → distance a b = 1) → distance s d + 1 ≤ zlength p.
Proof.
  induction p as [|x p IH]; intros s d Hs Hd Hstep; [done|]. injection Hs as ->. destruct p as [|y p].
  - injection Hd as ->. unfold distance, zlength. cbn [length]. lia.
  - specialize (IH y d eq_refl Hd (λ i, Hstep (S i))). pose proof (Hstep 0%nat s y eq_refl eq_refl) as H1.
    unfold distance, zlength in *. cbn [length] in *. lia.
Qed.

(** C10: In the built network the packets from any router [s] to any
    router [d] visit exactly [distance s d + 1] routers and end at [d], and
    consecutive routers are next to each other in the 8x8 grid: the route uses no
    wrap-around link, and no route without wrap-around links visits fewer
    routers.  The wrap-around links are there and are not taken: two of them lead
    from router 7 to router 56, 14 hops away by this route. *)
Theorem xy_route_is_shortest_in_grid raw raw_active config :
  config_ok config →
  ∃ net, NetworkNoC_NetworkNoC raw raw_active config [] = Ok net ∧
    (∀ s d, 0 ≤ s < 64 → 0 ≤ d < 64 →
      ∃ route, (∀ fuel, distance s d < Z.of_nat fuel → follow (world net) fuel s d = route) ∧
        zlength route = distance s d + 1 ∧ last route = Some d ∧
        (∀ i a b, route !! i = Some a → route !! S i = Some b → distance a b = 1) ∧
        ∀ p, head p = Some s → last p = Some d →
          (∀ i a b, p !! i = Some a → p !! S i = Some b → distance a b = 1) → zlength route ≤ zlength p) ∧
    hop_in (world net) 7 0 = Some (0, 1) ∧ hop_in (world net) 0 3 = Some (56, 2) ∧ distance 7 56 = 14.
Proof.
  intros Hcfg. destruct (NetworkNoC_run raw raw_active config Hcfg []) as (rts & Hrts & Hrun).
  eexists. split; [exact Hrun|]. split; [intros s d Hs Hd|].
  - assert (distance s d = Z.of_nat (Z.to_nat (distance s d))) as Hk by (unfold distance; lia).
    destruct (follow_run rts Hrts _ s d Hs Hd Hk) as (route & Hf & Hlen & Hlast & Hstep).
    exists route. split; [intros fuel Hfuel; apply Hf; lia|].
    split; [unfold zlength; lia|]. split; [exact Hlast|]. split; [exact Hstep|].
    intros p Hp1 Hp2 Hp. pose proof (distance_path p s d Hp1 Hp2 Hp). unfold zlength in *. lia.
  - split; [exact (eq_trans (built_hop rts Hrts 7 0 ltac:(lia)) (proj1 wrap_hops))|].
    split; [exact (eq_trans (built_hop rts Hrts 0 3 ltac:(lia)) (proj2 wrap_hops))|reflexivity].
Qed.

Lemma xy_route_is_shortest_in_grid_witness :
  ∃ net, NetworkNoC_NetworkNoC (λ _, mkElement d_zero d_zero d_zero d_zero) (λ _, false)
      Configuration_Configuration [] = Ok net ∧
    ∃ route, (∀ fuel, 14 < Z.of_nat fuel → follow (world net) fuel 7 56 = route) ∧
      zlength route = 15 ∧ last route = Some 56.
Proof.
  destruct (xy_route_is_shortest_in_grid (λ _, mkElement d_zero d_zero d_zero d_zero) (λ _, false)
    Configuration_Configuration default_config_ok) as (net & H1 & H2 & _).
  exists net. split; [exact H1|].
  destruct (H2 7 56 ltac:(lia) ltac:(lia)) as (route & Hf & Hlen & Hlast & _).
  exists route. split; [exact Hf|]. split; [exact Hlen|exact Hlast].
Defined.

(** a flit for [d] that holds output channel [a] of a router next asks for
    output channel [b] of the router behind it *)
Definition waits_for (a b : Z * Z) : Prop :=
  ∃ d, 0 ≤ a.1 < 64 ∧ 0 ≤ d < 64 ∧ a.2 = xy_yx_mesh_port a.1 d ∧
    fst <$> hop a.1 a.2 = Some b.1 ∧ b.2 = xy_yx_mesh_port b.1 d.

(** C23: The channel dependencies of the XY rule on the built wiring
    have no cycle, although the wiring has wrap-around links: following a packet strictly increases the rank of
    the channels, so packets inside the mesh cannot wait for each other in a
    circle. *)
Theorem channel_dependencies_acyclic :
  (∀ a b, waits_for a b → channel_rank a.1 a.2 < channel_rank b.1 b.2) ∧
  ∀ a, ¬ tc waits_for a a.
Proof.
  assert (Hrank : ∀ a b, waits_for a b → channel_rank a.1 a.2 < channel_rank b.1 b.2).
  { intros [n o] [m o'] (d & Hn & Hd & Ho & Hm & Ho'). simpl in *. subst.
    pose proof (hops_ok n d Hn Hd) as Hh. unfold hop_ok in Hh.
    destruct (decide (xy_yx_mesh_port n d = 4)) as [H4|H4].
    - destruct Hh as [_ Hnone]. by rewrite Hnone in Hm.
    - destruct Hh as (_ & _ & Hh). destruct (hop n _) as [[m' i]|]; [|done]. simplify_eq/=. apply Hh. }
  split; [exact Hrank|]. intros a Ha.
  assert (Htc : ∀ a b, tc waits_for a b → channel_rank a.1 a.2 < channel_rank b.1 b.2).
  { clear a Ha. induction 1 as [a b Hab|a b c Hab _ IH]; [by apply Hrank|].
    specialize (Hrank a b Hab). lia. }
  specialize (Htc a a Ha). lia.
Qed.

(** A flit whose destination is not a node of the mesh (64 or more; the
    directory id of the traffic manager comes from an address) is forwarded by
    every router it reaches: no router ever ejects it, it circulates on the
    links for ever. *)
Theorem outside_destination_circulates raw raw_active config :
  config_ok config →
  ∃ net, NetworkNoC_NetworkNoC raw raw_active config [] = Ok net ∧
    ∀ n d fuel, 0 ≤ n < 64 → 64 ≤ d →
      0 ≤ xy_yx_mesh_port n d < 4 ∧ length (follow (world net) fuel n d) = fuel.
Proof.
  intros Hcfg. destruct (NetworkNoC_run raw raw_active config Hcfg []) as (rts & Hrts & Hrun).
  eexists. split; [exact Hrun|]. intros n d fuel Hn Hd.
  split; [by apply outside_port|]. by apply follow_outside.
Qed.

Lemma outside_destination_circulates_witness :
  ∃ net, NetworkNoC_NetworkNoC (λ _, mkElement d_zero d_zero d_zero d_zero) (λ _, false)
      Configuration_Configuration [] = Ok net ∧
    length (follow (world net) 1000 9 64) = 1000%nat.
Proof.
  destruct (outside_destination_circulates (λ _, mkElement d_zero d_zero d_zero d_zero) (λ _, false)
    Configuration_Configuration default_config_ok) as (net & H1 & H2).
  exists net. split; [exact H1|]. exact (proj2 (H2 9 64 1000%nat ltac:(lia) ltac:(lia))).
Defined.
