(* ===== verification/Stuck.v ===== *)
(** * Flits that never leave

    [ENoCRouter::_SWAllocEvaluate] drops the switch requests of virtual
    channels that are not active yet, and a flit asks for the switch only once,
    when it arrives.  A head flit that is refused a virtual channel
    in the cycle it arrives therefore depends on the next flit of its packet to leave,
    and the last flit of the packet has nothing to depend on.  This file shows
    that a network without requests stands still for ever, and that the
    network reaches such a state with a flit inside. *)

From S2P Require Import Prelude Double NoCMain Config Element Stats Channel.
From S2P Require Import VirtualChannel Allocator FlitCoding Router Network RouterInv RouterSafe.
From S2P Require Import RouterVC RouterSW RouterCycle NetworkSafe Mesh NetworkRun.

(** ** Networks without requests *)

Definition idle_router (r : ENoCRouter) : Prop :=
  _in_queue_flits r = [] ∧ _vc_alloc_vcs r = [] ∧ _sw_alloc_vcs r = [] ∧
  _vc_alloc_vcs_tmp r = [] ∧ _sw_alloc_vcs_tmp r = [] ∧ Forall (eq []) (_output_buffer r).
Definition idle_chan (fc : FlitChannel) : Prop :=
  _input (base_channel fc) = None ∧ _output (base_channel fc) = None ∧
  _wait_queue (base_channel fc) = [].
Definition idle_world (w : World) : Prop :=
  Forall (λ r, _vc_alloc_vcs r = [] ∧ _sw_alloc_vcs r = [] ∧ Forall (eq []) (_output_buffer r)) (routers w) ∧
  Forall idle_chan (channels w).
#[export] Instance idle_world_dec w : Decision (idle_world w).
Proof. unfold idle_world, idle_chan. solve_decision. Defined.

(** the two states of a router differ in the allocators, the activity flag
    and the statistics *)
Definition still (r r' : ENoCRouter) : Prop :=
  ∃ act av as_ st, r' = r.{_active := act}.{_vc_allocator := av}.{_sw_allocator := as_}.{stats := st} ∧
    alloc_wf av ∧ dims av = (40, 40, 1) ∧ alloc_wf as_ ∧ dims as_ = (5, 5, 1) ∧ stats_wf st.

Lemma still_trans r1 r2 r3 : still r1 r2 → still r2 r3 → still r1 r3.
Proof.
  intros (a & av & as_ & st & -> & _) (a' & av' & as' & st' & -> & H). by exists a', av', as', st'.
Qed.
Lemma still_idle r r' : still r r' → idle_router r → idle_router r'.
Proof. by intros (a & av & as_ & st & -> & _). Qed.
Lemma still_queue r r' i v : still r r' → queue r' i v = queue r i v.
Proof. by intros (a & av & as_ & st & -> & _). Qed.

Lemma M_bind_assoc {S A B C} (m : M S A) (k : A → M S B) (k' : B → M S C) s :
  (m ≫= λ a, k a ≫= k') s = ((m ≫= k) ≫= k') s.
Proof. unfold mbind, M_bind. by destruct (m s) as [[a s']|]. Qed.

Section idle.
Context `{Topology} (hlen : nat).
Hypothesis Hnn : 0 ≤ n_nodes.

Lemma still_base n r r' : still r r' → router_base hlen n r → router_base hlen n r'.
Proof. intros (a & av & as_ & st & -> & ? & ? & ? & ? & ?) []. by split. Qed.

Record idle_net (w : World) : Prop := {
  id_len : zlength (routers w) = n_nodes;
  id_clen : zlength (channels w) = n_chans;
  id_routers : ∀ n r, routers w !z n = Some r → router_base hlen n r ∧ idle_router r;
  id_chans : ∀ c fc, channels w !z c = Some fc → idle_chan fc;
}.

Record still_world (w w' : World) : Prop := {
  sw_flits : flits w' = flits w;
  sw_chans : channels w' = channels w;
  sw_len : zlength (routers w') = zlength (routers w);
  sw_routers : ∀ n r, routers w !z n = Some r → ∃ r', routers w' !z n = Some r' ∧ still r r';
}.

Lemma still_world_trans w1 w2 w3 : still_world w1 w2 → still_world w2 w3 → still_world w1 w3.
Proof.
  intros [F1 C1 L1 R1] [F2 C2 L2 R2]. split; [congruence..|].
  intros n r Hr. destruct (R1 n r Hr) as (r' & Hr' & ?), (R2 n r' Hr') as (r'' & Hr'' & ?).
  exists r''. split; [done|by eapply still_trans].
Qed.

Lemma still_back w w' n r' :
  still_world w w' → routers w' !z n = Some r' → ∃ r, routers w !z n = Some r ∧ still r r'.
Proof.
  intros [_ _ Hl Hr] Hr'. destruct (vlookup_in_range (routers w) n) as [r Hn].
  { rewrite <-Hl. by eapply vlookup_Some_range. }
  destruct (Hr n r Hn) as (r1 & Hr1 & ?). exists r. split; [done|]. congruence.
Qed.

Lemma still_idle_net w w' : still_world w w' → idle_net w → idle_net w'.
Proof.
  intros Hs [Hl Hc Hr Hch]. split.
  - by rewrite (sw_len _ _ Hs).
  - by rewrite (sw_chans _ _ Hs).
  - intros n r' Hr'. destruct (still_back _ _ _ _ Hs Hr') as (r & Hn & Hst).
    destruct (Hr n r Hn). split; [by eapply still_base|by eapply still_idle].
  - rewrite (sw_chans _ _ Hs). exact Hch.
Qed.

Lemma base_still n r act st :
  router_base hlen n r → stats_wf st → still r (r.{_active := act}.{stats := st}).
Proof.
  intros Hb Hst. exists act, (_vc_allocator r), (_sw_allocator r), st.
  split; [by destruct r|]. split_and!; try apply Hb. done.
Qed.

(** computations that leave an idle network still *)
Definition stays {A} (m : M World A) (a : A) : Prop :=
  ∀ w, idle_net w → ∃ w', m w = Ok (a, w') ∧ still_world w w' ∧ idle_net w'.

Lemma stays_ret {A} (a : A) : stays (mret a) a.
Proof.
  intros w Hw. exists w. split; [done|]. split; [|done]. split; [done..|].
  intros n r Hn. exists r. split; [done|]. destruct (id_routers _ Hw n r Hn) as [Hb _].
  pose proof (base_still n r (_active r) (stats r) Hb (rb_stats _ _ _ Hb)) as Hst. by destruct r.
Qed.
Lemma stays_bind {A B} (m : M World A) (k : A → M World B) a b :
  stays m a → stays (k a) b → stays (m ≫= k) b.
Proof.
  intros Hm Hk w Hw. destruct (Hm w Hw) as (w1 & Hrun1 & Hs1 & Hw1).
  destruct (Hk w1 Hw1) as (w2 & Hrun2 & Hs2 & Hw2). exists w2.
  split; [by eapply bind_Ok|]. split; [by eapply still_world_trans|done].
Qed.

(** a step of one router *)
Lemma stays_router {A} n (m : M ENoCRouter A) (a : A) :
  0 ≤ n < n_nodes →
  (∀ r, router_base hlen n r → idle_router r → ∃ r', m r = Ok (a, r') ∧ still r r') →
  stays (on_router n m) a.
Proof.
  intros Hn Hm w Hw. destruct (vlookup_in_range (routers w) n) as [r Hr]; [by rewrite (id_len _ Hw)|].
  destruct (id_routers _ Hw n r Hr) as [Hb Hi]. destruct (Hm r Hb Hi) as (r' & Hrun & Hst).
  set (w' := w.{routers := vinsert n r' (routers w)}).
  assert (Hs : still_world w w').
  { split; [done|done|by apply zlength_vinsert|]. intros m' x Hx. simpl.
    destruct (decide (m' = n)) as [->|Hne].
    - exists r'. rewrite vlookup_vinsert_eq by (by eapply vlookup_Some_range). split; [done|].
      congruence.
    - destruct (stays_ret tt w Hw) as (w1 & [= <-] & Hs1 & _). rewrite vlookup_vinsert_ne by done.
      by apply (sw_routers _ _ Hs1). }
  exists w'. split; [by apply on_router_run with r|]. split; [exact Hs|by eapply still_idle_net].
Qed.

Lemma stays_meter n g : 0 ≤ n < n_nodes → stays (on_router n (meter g)) tt.
Proof.
  intros Hn. apply stays_router; [done|]. intros r Hb _. eexists. split; [done|].
  pose proof (base_still n r (_active r) ((stats r).{energy_router ::= g}) Hb) as Hst.
  replace (r.{stats ::= λ s, s.{energy_router ::= g} })
    with (r.{_active := _active r}.{stats := (stats r).{energy_router ::= g} }) by (by destruct r).
  apply Hst, (rb_stats _ _ _ Hb).
Qed.

Lemma still_refl n r : router_base hlen n r → still r r.
Proof.
  intros Hb. pose proof (base_still n r (_active r) (stats r) Hb (rb_stats _ _ _ Hb)) as Hst. by destruct r.
Qed.
Lemma stays_read {A} n (m : M ENoCRouter A) (a : A) :
  0 ≤ n < n_nodes →
  (∀ r, router_base hlen n r → idle_router r → m r = Ok (a, r)) → stays (on_router n m) a.
Proof.
  intros Hn Hm. apply stays_router; [done|]. intros r Hb Hi. exists r.
  split; [by apply Hm|by eapply still_refl].
Qed.

(** an allocator round without requests *)
Lemma vc_stage n w r :
  routers w !z n = Some r → router_base hlen n r → idle_router r →
  ∃ r', (on_router n (on_vc_allocator SparseAllocator_Clear) ;; _VCAllocEvaluate n) w =
    Ok (tt, put_router w n (flits w) r') ∧ still r r'.
Proof.
  intros Hr Hb (_ & Hv & _ & Ht & _ & _).
  destruct (cleared_wf _ (rb_vca _ _ _ Hb)) as [Hcw Hcm].
  destruct (Allocate_run _ Hcw Hcm) as (s & Hrun & Hs).
  exists (r.{_vc_allocator := s}). split.
  - rewrite (put_start w n r Hr) at 1.
    eapply bind_Ok with (s' := put_router w n (flits w) (r.{_vc_allocator ::= cleared})).
    { eapply put_run; [done|]. unfold on_vc_allocator, zoom.
      by rewrite SparseAllocator_Clear_run by apply Hb. }
    unfold _VCAllocEvaluate.
    eapply bind_Ok; [eapply put_run; [done|]; unfold gets; simpl; by rewrite Hv|].
    eapply bind_Ok; [done|]. eapply bind_Ok; [by eapply put_run|].
    eapply bind_Ok.
    { eapply put_run; [done|]. unfold on_vc_allocator, zoom. simpl. by rewrite Hrun. }
    eapply bind_Ok; [by eapply put_run|]. eapply bind_Ok; [done|].
    erewrite put_run; [|done|done]. do 3 f_equal. simpl. rewrite Ht. destruct r. simpl in *. by subst.
  - exists (_active r), s, (_sw_allocator r), (stats r). split; [by destruct r|].
    split; [apply Hs|]. split; [rewrite (dims_allocated _ _ Hs); apply Hb|]. split_and!; apply Hb.
Qed.

Lemma sw_stage n w r :
  routers w !z n = Some r → router_base hlen n r → idle_router r →
  ∃ r', (on_router n (on_sw_allocator SparseAllocator_Clear) ;; _SWAllocEvaluate n) w =
    Ok (tt, put_router w n (flits w) r') ∧ still r r'.
Proof.
  intros Hr Hb (_ & _ & Hv & _ & Ht & _).
  destruct (cleared_wf _ (rb_swa _ _ _ Hb)) as [Hcw Hcm].
  destruct (Allocate_run _ Hcw Hcm) as (s & Hrun & Hs).
  exists (r.{_sw_allocator := s}). split.
  - rewrite (put_start w n r Hr) at 1.
    eapply bind_Ok with (s' := put_router w n (flits w) (r.{_sw_allocator ::= cleared})).
    { eapply put_run; [done|]. unfold on_sw_allocator, zoom.
      by rewrite SparseAllocator_Clear_run by apply Hb. }
    unfold _SWAllocEvaluate.
    eapply bind_Ok; [eapply put_run; [done|]; unfold gets; simpl; by rewrite Hv|].
    eapply bind_Ok; [done|].
    eapply bind_Ok.
    { eapply put_run; [done|]. unfold on_sw_allocator, zoom. simpl. by rewrite Hrun. }
    eapply bind_Ok; [by eapply put_run|]. eapply bind_Ok; [done|].
    erewrite put_run; [|done|done]. do 3 f_equal. simpl. rewrite Ht. destruct r. simpl in *. by subst.
  - exists (_active r), (_vc_allocator r), s, (stats r). split; [by destruct r|].
    split; [apply Hb|]. split; [apply Hb|]. split; [apply Hs|].
    split; [rewrite (dims_allocated _ _ Hs); apply Hb|apply Hb].
Qed.

Lemma put_still w n r r' :
  idle_net w → routers w !z n = Some r → still r r' → still_world w (put_router w n (flits w) r').
Proof.
  intros Hw Hr Hst. split; [done|done|by apply zlength_vinsert|]. intros m x Hx. simpl.
  destruct (decide (m = n)) as [->|Hne].
  - exists r'. rewrite vlookup_vinsert_eq by (by eapply vlookup_Some_range). split; [done|]. congruence.
  - exists x. rewrite vlookup_vinsert_ne by done. split; [done|].
    by eapply still_refl, (id_routers _ Hw m x).
Qed.

Lemma stays_stage n (m : M World unit) :
  0 ≤ n < n_nodes →
  (∀ w r, routers w !z n = Some r → router_base hlen n r → idle_router r →
    ∃ r', m w = Ok (tt, put_router w n (flits w) r') ∧ still r r') → stays m tt.
Proof.
  intros Hn Hm w Hw. destruct (vlookup_in_range (routers w) n) as [r Hr]; [by rewrite (id_len _ Hw)|].
  destruct (id_routers _ Hw n r Hr) as [Hb Hi]. destruct (Hm w r Hr Hb Hi) as (r' & Hrun & Hst).
  exists (put_router w n (flits w) r'). split; [exact Hrun|].
  pose proof (put_still w n r r' Hw Hr Hst) as Hs. split; [exact Hs|by eapply still_idle_net].
Qed.

Lemma stays_ext {A} (m m' : M World A) a : (∀ w, m w = m' w) → stays m' a → stays m a.
Proof.
  intros Hmm Hm w Hw. destruct (Hm w Hw) as (w' & Hrun & H'). exists w'. by rewrite Hmm.
Qed.

Lemma stays_clk n clk : 0 ≤ n < n_nodes → stays (Router_clk n clk) tt.
Proof.
  intros Hn. unfold Router_clk. apply stays_bind with (a := tt).
  { unfold _InputQueuing. apply stays_bind with (a := []).
    - apply stays_read; [done|]. intros r _ (Hq & _). unfold gets. by rewrite Hq.
    - apply stays_bind with (a := tt); [apply stays_ret|]. apply stays_read; [done|].
      intros r _ (Hq & _). unfold modify. destruct r. simpl in *. by subst. }
  eapply stays_ext; [intros w; apply (M_bind_assoc _ (λ _, _VCAllocEvaluate n))|].
  apply stays_bind with (a := tt); [apply (stays_stage n); [done|]; intros; by apply vc_stage|].
  apply stays_bind with (a := tt); [by apply stays_meter|].
  eapply stays_ext; [intros w; apply (M_bind_assoc _ (λ _, _SWAllocEvaluate n))|].
  apply stays_bind with (a := tt); [apply (stays_stage n); [done|]; intros; by apply sw_stage|].
  by apply stays_meter.
Qed.

Lemma stays_channel {A} c (m : M FlitChannel A) (a : A) :
  0 ≤ c < n_chans → (∀ fc, idle_chan fc → m fc = Ok (a, fc)) → stays (on_channel c m) a.
Proof.
  intros Hc Hm w Hw. destruct (vlookup_in_range (channels w) c) as [fc Hfc]; [by rewrite (id_clen _ Hw)|].
  destruct (stays_ret a w Hw) as (w' & [= <-] & Hs & Hw'). exists w. split; [|done].
  apply on_channel_read with fc; [done|]. apply Hm. by eapply id_chans.
Qed.

Lemma stays_for_each {A} (l : list A) (body : A → M World unit) :
  Forall (λ a, stays (body a) tt) l → stays (for_each l body) tt.
Proof.
  induction 1 as [|a l Ha Hl IH]; [apply stays_ret|]. simpl. by apply stays_bind with (a := tt).
Qed.
Lemma stays_fold {A B} (l : list A) (body : A → B → M World B) b :
  Forall (λ a, stays (body a b) b) l → stays (fold_M body l b) b.
Proof.
  induction 1 as [|a l Ha Hl IH]; [apply stays_ret|]. simpl. by apply stays_bind with (a := b).
Qed.

Lemma stays_receive n i act : 0 ≤ n < n_nodes → 0 ≤ i < 5 → stays (receive_input n i act) act.
Proof.
  intros Hn Hi. destruct (in_chans_ok n Hn) as [Hlen Hrange].
  destruct (vlookup_in_range (in_chans n) i) as [c Hc]; [lia|].
  pose proof (Forall_vlookup _ _ _ _ Hrange Hc) as Hcr. simpl in Hcr. unfold receive_input.
  apply stays_bind with (a := c).
  { apply stays_read; [done|]. intros r Hb _. unfold mbind, M_bind, gets, lift.
    by rewrite (rb_in _ _ _ Hb), (vget_Some _ _ _ Hc). }
  apply stays_bind with (a := None).
  { apply stays_channel; [done|]. intros fc (_ & Ho & _). unfold FlitChannel_Receive, on_base, zoom,
      Channel_Receive, gets. rewrite Ho. by destruct fc. }
  apply stays_bind with (a := act); [apply stays_ret|].
  do 4 (apply stays_bind with (a := tt); [by apply stays_meter|]). apply stays_ret.
Qed.

Lemma stays_router_read n clk : 0 ≤ n < n_nodes → stays (Router_ReadInputs n clk) tt.
Proof.
  intros Hn. unfold Router_ReadInputs, _ReceiveFlits. apply stays_bind with (a := false).
  - apply stays_bind with (a := 5).
    + apply stays_read; [done|]. intros r Hb _. unfold gets. by rewrite (rb_inputs _ _ _ Hb).
    + apply stays_fold, Forall_forall. intros i Hi%elem_of_seqZ. apply stays_receive; [done|lia].
  - apply stays_router; [done|]. intros r Hb _. eexists. split; [done|].
    pose proof (base_still n r (_active r || false) (stats r) Hb (rb_stats _ _ _ Hb)) as Hst.
    by destruct r.
Qed.

Lemma stays_router_write n clk : 0 ≤ n < n_nodes → stays (Router_WriteOutputs n clk) tt.
Proof.
  intros Hn. unfold Router_WriteOutputs, _SendFlits. apply stays_bind with (a := 5).
  - apply stays_read; [done|]. intros r Hb _. unfold gets. by rewrite (rb_outputs _ _ _ Hb).
  - apply stays_for_each, Forall_forall. intros o Ho%elem_of_seqZ. unfold send_flit.
    apply stays_bind with (a := []); [|apply stays_ret].
    apply stays_read; [done|]. intros r Hb (_ & _ & _ & _ & _ & Hout).
    destruct (vlookup_in_range (_output_buffer r) o) as [q Hq]; [rewrite (rb_outbuf _ _ _ Hb); lia|].
    pose proof (Forall_vlookup _ _ _ _ Hout Hq) as <-.
    unfold mbind, M_bind, gets, lift. by rewrite (vget_Some _ _ _ Hq).
Qed.

Lemma stays_modules (m : TimedModule → M World unit) :
  (∀ c, 0 ≤ c < n_chans → stays (m (TmChannel c)) tt) →
  (∀ n, 0 ≤ n < n_nodes → stays (m (TmRouter n)) tt) → stays (for_each modules m) tt.
Proof.
  intros Hc Hn. apply stays_for_each, Forall_app. rewrite !Forall_fmap.
  split; apply Forall_forall; intros i Hi%elem_of_seqZ; [apply Hc|apply Hn]; lia.
Qed.

Lemma stays_cycle clk : stays (network_cycle clk) tt.
Proof.
  unfold network_cycle. apply stays_bind with (a := tt); [|apply stays_bind with (a := tt)];
    apply stays_modules; intros i Hi; simpl.
  - apply stays_channel; [done|]. intros [[d j o q] ? ? ? ? ? ?] (Hj & _ & _). simpl in Hj. by subst.
  - by apply stays_router_read.
  - apply stays_channel; [done|]. by intros fc _.
  - by apply stays_clk.
  - apply stays_channel; [done|]. intros [[d j o q] ? ? ? ? ? ?] (_ & Ho & Hq). simpl in *. by subst.
  - by apply stays_router_write.
Qed.

Lemma still_world_queue w w' n r i v :
  still_world w w' → routers w !z n = Some r →
  ∃ r', routers w' !z n = Some r' ∧ queue r' i v = queue r i v.
Proof.
  intros Hs Hr. destruct (sw_routers _ _ Hs n r Hr) as (r' & Hr' & Hst).
  exists r'. split; [done|by apply still_queue].
Qed.
End idle.

(** ** The built network: idle cycles change nothing *)

Lemma net_idle hlen K w : net_ok hlen K w → idle_world w → idle_net hlen w.
Proof.
  intros Hw [Hr Hc]. split.
  - apply Hw.
  - apply Hw.
  - intros n r Hn. destruct (no_routers _ _ _ Hw n r Hn) as [[Hb Hi Hv Hs [Ht1 Ht2]] Hq].
    split; [done|]. by destruct (Forall_vlookup _ _ _ _ Hr Hn) as (? & ? & ?).
  - intros c fc Hfc. exact (Forall_vlookup _ _ _ _ Hc Hfc).
Qed.

Lemma idle_drive hlen clk w :
  idle_net hlen w →
  ∃ w', drive clk [] (net_at w) = Ok ([], net_at w') ∧ still_world w w' ∧ idle_net hlen w'.
Proof.
  intros Hw. destruct (stays_cycle hlen clk w Hw) as (w' & Hrun & Hs & Hw').
  exists w'. split; [|done]. unfold drive.
  eapply bind_Ok; [done|]. eapply bind_Ok; [by apply Network_clk_run|].
  eapply bind_Ok with (a := (λ _, []) <$> seqZ 0 64); [|done].
  apply map_M_run, Forall_forall. intros d Hd%elem_of_seqZ.
  rewrite read_node_run; [|lia|apply Hw']. unfold ejected, slot.
  destruct (channels w' !z (64 + d)) as [fc|] eqn:Hfc; [|done].
  destruct (id_chans _ _ Hw' _ _ Hfc) as (_ & Ho & _). unfold done_slot. by rewrite Ho.
Qed.

Lemma idle_forever hlen k clk w :
  idle_net hlen w →
  ∃ w', drive_all clk (replicate k []) (net_at w) = Ok ([], net_at w') ∧
    ∀ n r i v, routers w !z n = Some r →
      ∃ r', routers w' !z n = Some r' ∧ queue r' i v = queue r i v.
Proof.
  revert clk w. induction k as [|k IH]; intros clk w Hw.
  - exists w. split; [done|]. intros n r i v Hr. by exists r.
  - destruct (idle_drive hlen clk w Hw) as (w1 & Hr1 & Hs1 & Hw1).
    destruct (IH (clk + 1) w1 Hw1) as (w2 & Hr2 & Hq2). exists w2. split.
    + simpl. eapply bind_Ok; [exact Hr1|]. by eapply bind_Ok.
    + intros n r i v Hr. destruct (still_world_queue _ _ _ _ i v Hs1 Hr) as (r1 & Hn1 & <-).
      by apply Hq2.
Qed.

(** ** Property *)

Definition zero_element : Element := mkElement d_zero d_zero d_zero d_zero.
Definition flit_to (ty : FlitType) (dst : Z) : Flit := (coding_flit ty 0).{dst_id := dst}.
(** two packets of two flits for router 10, whose heads meet at router 9 *)
Definition two_packets : list (list (Z * Flit)) :=
  [[(8, flit_to FLIT_TYPE_HEAD 10)]; [(8, flit_to FLIT_TYPE_TAIL 10)];
   [(9, flit_to FLIT_TYPE_HEAD 10)]; [(9, flit_to FLIT_TYPE_TAIL 10)]] ++ replicate 8 [].

(** the delivered flits, that no request is left, and what router 9 holds *)
Definition outcome (net : NetworkNoC) (outs : list (Z * flit_ptr)) : bool :=
  bool_decide (outs.*2 = [0; 2; 1]%nat) && bool_decide (idle_world (world net)) &&
  match routers (world net) !z 9 with
  | Some r => bool_decide (queue r 4 0 = [3%nat])
  | None => false
  end.

Lemma two_packets_outcome :
  match NetworkNoC_NetworkNoC (λ _, zero_element) (λ _, false) Configuration_Configuration [] with
  | Ok net0 => match drive_all 0 two_packets net0 with
               | Ok (outs, net) => outcome net outs
               | Fault _ => false
               end
  | Fault _ => false
  end = true.
Proof. vm_compute. reflexivity. Qed.

(** C3: A flit can stay in the network for ever although nothing blocks
    it.  Two two-flit packets for router 10 meet at router 9: the head from
    node 9 is refused a virtual channel in the cycle it arrives, its switch
    request is dropped, and it leaves on the request of its own tail; the
    tail (flit 3) has no request left.  After twelve cycles the other three flits
    are delivered, all channels and output buffers are empty and no router
    has a request, and in every longer run without injections nothing is
    delivered and flit 3 is still at the head of its queue in router 9. *)
Theorem refused_head_strands_tail :
  ∃ net0 outs net,
    NetworkNoC_NetworkNoC (λ _, zero_element) (λ _, false) Configuration_Configuration [] = Ok net0 ∧
    drive_all 0 two_packets net0 = Ok (outs, net) ∧ outs.*2 = [0; 2; 1]%nat ∧
    idle_world (world net) ∧
    ∀ k, ∃ net' r, drive_all 12 (replicate k []) net = Ok ([], net') ∧
      routers (world net') !z 9 = Some r ∧ queue r 4 0 = [3%nat].
Proof.
  destruct (network_run (λ _, zero_element) (λ _, false) Configuration_Configuration two_packets
    default_config_ok) as (w0 & outs & w & H1 & H2 & Hw).
  { apply (bool_decide_unpack _). vm_compute. exact I. }
  pose proof two_packets_outcome as Ho. rewrite H1, H2 in Ho. unfold outcome in Ho.
  apply andb_true_iff in Ho as [[Ho1%bool_decide_eq_true Ho2%bool_decide_eq_true]%andb_true_iff Ho3].
  exists (net_at w0), outs, (net_at w). split; [exact H1|]. split; [exact H2|]. split; [exact Ho1|].
  split; [exact Ho2|]. intros k. clear H1 H2. cbn [world net_at] in *.
  destruct (routers w !z 9) as [r|] eqn:Hr; [|discriminate].
  apply bool_decide_eq_true in Ho3. destruct (ru_net _ _ _ Hw) as (K & Hnet & _).
  destruct (idle_forever _ k 12 w (net_idle _ _ _ Hnet Ho2)) as (w' & Hrun & Hq).
  destruct (Hq 9 r 4 0 Hr) as (r' & Hr' & Hqr).
  exists (net_at w'), r'. split; [exact Hrun|]. split; [exact Hr'|]. by rewrite Hqr.
Qed.
