(* ===== verification/MemPacket.v ===== *)
(** * Memory packets ([mem/packet.hh], [mem/packet.cc])

    The commands of gem5's memory system with their attributes, the part
    of a [Packet] and of its [Request] that the NoC model reads, and the
    functional access of a packet against a block of data. *)

From S2P Require Import Prelude IntMath.

(** ** Commands *)

Inductive Command :=
  | InvalidCmd | ReadReq | ReadResp | ReadRespWithInvalidate | WriteReq | WriteResp
  | WritebackDirty | WritebackClean | CleanEvict | SoftPFReq | HardPFReq | SoftPFResp
  | HardPFResp | WriteLineReq | UpgradeReq | SCUpgradeReq | UpgradeResp | SCUpgradeFailReq
  | UpgradeFailResp | ReadExReq | ReadExResp | ReadCleanReq | ReadSharedReq | LoadLockedReq
  | StoreCondReq | StoreCondFailReq | StoreCondResp | SwapReq | SwapResp | MessageReq
  | MessageResp | MemFenceReq | MemFenceResp | InvalidDestError | BadAddressError
  | FunctionalReadError | FunctionalWriteError | PrintReq | FlushReq | InvalidateReq
  | InvalidateResp.
#[export] Instance Command_eq_dec : EqDecision Command.
Proof. solve_decision. Defined.

(** the commands in the order of the [enum] *)
Definition all_commands : list Command :=
  [InvalidCmd; ReadReq; ReadResp; ReadRespWithInvalidate; WriteReq; WriteResp; WritebackDirty;
   WritebackClean; CleanEvict; SoftPFReq; HardPFReq; SoftPFResp; HardPFResp; WriteLineReq;
   UpgradeReq; SCUpgradeReq; UpgradeResp; SCUpgradeFailReq; UpgradeFailResp; ReadExReq;
   ReadExResp; ReadCleanReq; ReadSharedReq; LoadLockedReq; StoreCondReq; StoreCondFailReq;
   StoreCondResp; SwapReq; SwapResp; MessageReq; MessageResp; MemFenceReq; MemFenceResp;
   InvalidDestError; BadAddressError; FunctionalReadError; FunctionalWriteError; PrintReq;
   FlushReq; InvalidateReq; InvalidateResp].

(** [(int)cmd] *)
Definition toInt (c : Command) : Z :=
  match c with
  | InvalidCmd => 0 | ReadReq => 1 | ReadResp => 2 | ReadRespWithInvalidate => 3
  | WriteReq => 4 | WriteResp => 5 | WritebackDirty => 6 | WritebackClean => 7
  | CleanEvict => 8 | SoftPFReq => 9 | HardPFReq => 10 | SoftPFResp => 11 | HardPFResp => 12
  | WriteLineReq => 13 | UpgradeReq => 14 | SCUpgradeReq => 15 | UpgradeResp => 16
  | SCUpgradeFailReq => 17 | UpgradeFailResp => 18 | ReadExReq => 19 | ReadExResp => 20
  | ReadCleanReq => 21 | ReadSharedReq => 22 | LoadLockedReq => 23 | StoreCondReq => 24
  | StoreCondFailReq => 25 | StoreCondResp => 26 | SwapReq => 27 | SwapResp => 28
  | MessageReq => 29 | MessageResp => 30 | MemFenceReq => 31 | MemFenceResp => 32
  | InvalidDestError => 33 | BadAddressError => 34 | FunctionalReadError => 35
  | FunctionalWriteError => 36 | PrintReq => 37 | FlushReq => 38 | InvalidateReq => 39
  | InvalidateResp => 40
  end.

Inductive Attribute :=
  | IsRead | IsWrite | IsUpgrade | IsInvalidate | NeedsWritable | IsRequest | IsResponse
  | NeedsResponse | IsEviction | IsSWPrefetch | IsHWPrefetch | IsLlsc | HasData | IsError
  | IsPrint | IsFlush | FromCache.
#[export] Instance Attribute_eq_dec : EqDecision Attribute.
Proof. solve_decision. Defined.

(** the position of an attribute in the bit set *)
Definition attr_index (a : Attribute) : Z :=
  match a with
  | IsRead => 0 | IsWrite => 1 | IsUpgrade => 2 | IsInvalidate => 3 | NeedsWritable => 4
  | IsRequest => 5 | IsResponse => 6 | NeedsResponse => 7 | IsEviction => 8 | IsSWPrefetch => 9
  | IsHWPrefetch => 10 | IsLlsc => 11 | HasData => 12 | IsError => 13 | IsPrint => 14
  | IsFlush => 15 | FromCache => 16
  end.

(** the macros [SET1] to [SET7] *)
Definition SET1 (a1 : Attribute) : Z := Z.shiftl 1 (attr_index a1).
Definition SET2 (a1 a2 : Attribute) : Z := Z.lor (SET1 a1) (SET1 a2).
Definition SET3 (a1 a2 a3 : Attribute) : Z := Z.lor (SET2 a1 a2) (SET1 a3).
Definition SET4 (a1 a2 a3 a4 : Attribute) : Z := Z.lor (SET3 a1 a2 a3) (SET1 a4).
Definition SET5 (a1 a2 a3 a4 a5 : Attribute) : Z := Z.lor (SET4 a1 a2 a3 a4) (SET1 a5).
Definition SET6 (a1 a2 a3 a4 a5 a6 : Attribute) : Z := Z.lor (SET5 a1 a2 a3 a4 a5) (SET1 a6).
Definition SET7 (a1 a2 a3 a4 a5 a6 a7 : Attribute) : Z :=
  Z.lor (SET6 a1 a2 a3 a4 a5 a6) (SET1 a7).

Record CommandInfo := mkCommandInfo {
  attributes : Z;
  response : Command;
  str : string;
}.

Definition commandInfo : list CommandInfo :=
  [
    mkCommandInfo 0 InvalidCmd "InvalidCmd"%string;
    mkCommandInfo (SET3 IsRead IsRequest NeedsResponse) ReadResp "ReadReq"%string;
    mkCommandInfo (SET3 IsRead IsResponse HasData) InvalidCmd "ReadResp"%string;
    mkCommandInfo (SET4 IsRead IsResponse HasData IsInvalidate) InvalidCmd "ReadRespWithInvalidate"%string;
    mkCommandInfo (SET5 IsWrite NeedsWritable IsRequest NeedsResponse HasData) WriteResp "WriteReq"%string;
    mkCommandInfo (SET2 IsWrite IsResponse) InvalidCmd "WriteResp"%string;
    mkCommandInfo (SET5 IsWrite IsRequest IsEviction HasData FromCache) InvalidCmd "WritebackDirty"%string;
    mkCommandInfo (SET5 IsWrite IsRequest IsEviction HasData FromCache) InvalidCmd "WritebackClean"%string;
    mkCommandInfo (SET3 IsRequest IsEviction FromCache) InvalidCmd "CleanEvict"%string;
    mkCommandInfo (SET4 IsRead IsRequest IsSWPrefetch NeedsResponse) SoftPFResp "SoftPFReq"%string;
    mkCommandInfo (SET5 IsRead IsRequest IsHWPrefetch NeedsResponse FromCache) HardPFResp "HardPFReq"%string;
    mkCommandInfo (SET4 IsRead IsResponse IsSWPrefetch HasData) InvalidCmd "SoftPFResp"%string;
    mkCommandInfo (SET4 IsRead IsResponse IsHWPrefetch HasData) InvalidCmd "HardPFResp"%string;
    mkCommandInfo (SET5 IsWrite NeedsWritable IsRequest NeedsResponse HasData) WriteResp "WriteLineReq"%string;
    mkCommandInfo (SET6 IsInvalidate NeedsWritable IsUpgrade IsRequest NeedsResponse FromCache) UpgradeResp "UpgradeReq"%string;
    mkCommandInfo (SET7 IsInvalidate NeedsWritable IsUpgrade IsLlsc IsRequest NeedsResponse FromCache) UpgradeResp "SCUpgradeReq"%string;
    mkCommandInfo (SET2 IsUpgrade IsResponse) InvalidCmd "UpgradeResp"%string;
    mkCommandInfo (SET7 IsRead NeedsWritable IsInvalidate IsLlsc IsRequest NeedsResponse FromCache) UpgradeFailResp "SCUpgradeFailReq"%string;
    mkCommandInfo (SET3 IsRead IsResponse HasData) InvalidCmd "UpgradeFailResp"%string;
    mkCommandInfo (SET6 IsRead NeedsWritable IsInvalidate IsRequest NeedsResponse FromCache) ReadExResp "ReadExReq"%string;
    mkCommandInfo (SET3 IsRead IsResponse HasData) InvalidCmd "ReadExResp"%string;
    mkCommandInfo (SET4 IsRead IsRequest NeedsResponse FromCache) ReadResp "ReadCleanReq"%string;
    mkCommandInfo (SET4 IsRead IsRequest NeedsResponse FromCache) ReadResp "ReadSharedReq"%string;
    mkCommandInfo (SET4 IsRead IsLlsc IsRequest NeedsResponse) ReadResp "LoadLockedReq"%string;
    mkCommandInfo (SET6 IsWrite NeedsWritable IsLlsc IsRequest NeedsResponse HasData) StoreCondResp "StoreCondReq"%string;
    mkCommandInfo (SET6 IsWrite NeedsWritable IsLlsc IsRequest NeedsResponse HasData) StoreCondResp "StoreCondFailReq"%string;
    mkCommandInfo (SET3 IsWrite IsLlsc IsResponse) InvalidCmd "StoreCondResp"%string;
    mkCommandInfo (SET6 IsRead IsWrite NeedsWritable IsRequest HasData NeedsResponse) SwapResp "SwapReq"%string;
    mkCommandInfo (SET4 IsRead IsWrite IsResponse HasData) InvalidCmd "SwapResp"%string;
    mkCommandInfo (SET4 IsWrite IsRequest NeedsResponse HasData) MessageResp "MessageReq"%string;
    mkCommandInfo (SET2 IsWrite IsResponse) InvalidCmd "MessageResp"%string;
    mkCommandInfo (SET2 IsRequest NeedsResponse) MemFenceResp "MemFenceReq"%string;
    mkCommandInfo (SET1 IsResponse) InvalidCmd "MemFenceResp"%string;
    mkCommandInfo (SET2 IsResponse IsError) InvalidCmd "InvalidDestError"%string;
    mkCommandInfo (SET2 IsResponse IsError) InvalidCmd "BadAddressError"%string;
    mkCommandInfo (SET3 IsRead IsResponse IsError) InvalidCmd "FunctionalReadError"%string;
    mkCommandInfo (SET3 IsWrite IsResponse IsError) InvalidCmd "FunctionalWriteError"%string;
    mkCommandInfo (SET2 IsRequest IsPrint) InvalidCmd "PrintReq"%string;
    mkCommandInfo (SET3 IsRequest IsFlush NeedsWritable) InvalidCmd "FlushReq"%string;
    mkCommandInfo (SET5 IsInvalidate IsRequest NeedsWritable NeedsResponse FromCache) InvalidateResp "InvalidateReq"%string;
    mkCommandInfo (SET2 IsInvalidate IsResponse) InvalidCmd "InvalidateResp"%string
  ].

Definition testCmdAttrib (c : Command) (attrib : Attribute) : bool :=
  match commandInfo !z toInt c with
  | Some info => Z.testbit (attributes info) (attr_index attrib)
  | None => false
  end.

Definition isRead (c : Command) : bool := testCmdAttrib c IsRead.
Definition isWrite (c : Command) : bool := testCmdAttrib c IsWrite.
Definition isUpgrade (c : Command) : bool := testCmdAttrib c IsUpgrade.
Definition isRequest (c : Command) : bool := testCmdAttrib c IsRequest.
Definition isResponse (c : Command) : bool := testCmdAttrib c IsResponse.
Definition needsWritable (c : Command) : bool := testCmdAttrib c NeedsWritable.
Definition needsResponse (c : Command) : bool := testCmdAttrib c NeedsResponse.
Definition isInvalidate (c : Command) : bool := testCmdAttrib c IsInvalidate.
Definition isEviction (c : Command) : bool := testCmdAttrib c IsEviction.
Definition fromCache (c : Command) : bool := testCmdAttrib c FromCache.
Definition isWriteback (c : Command) : bool := testCmdAttrib c IsEviction && testCmdAttrib c HasData.
Definition hasData (c : Command) : bool := testCmdAttrib c HasData.
Definition isLLSC (c : Command) : bool := testCmdAttrib c IsLlsc.
Definition isSWPrefetch (c : Command) : bool := testCmdAttrib c IsSWPrefetch.
Definition isHWPrefetch (c : Command) : bool := testCmdAttrib c IsHWPrefetch.
Definition isPrefetch (c : Command) : bool := testCmdAttrib c IsSWPrefetch || testCmdAttrib c IsHWPrefetch.
Definition isError (c : Command) : bool := testCmdAttrib c IsError.
Definition isPrint (c : Command) : bool := testCmdAttrib c IsPrint.
Definition isFlush (c : Command) : bool := testCmdAttrib c IsFlush.
Definition responseCommand (c : Command) : Command :=
  match commandInfo !z toInt c with Some info => response info | None => InvalidCmd end.
Definition cmd_toString (c : Command) : string :=
  match commandInfo !z toInt c with Some info => str info | None => EmptyString end.

(** ** Requests and packets

    A field whose accessor asserts that a flag is set is an [option]: [None]
    when the flag is clear.  The other flags are booleans.  [req_ptr] stands
    for the address of the request object, which a response shares with its request. *)

Record Request := mkRequest {
  req_ptr : nat;
  masterId : Z;                    (* uint16_t *)
  req_paddr : option Z;            (* VALID_PADDR *)
  req_size : option Z;             (* VALID_SIZE *)
  req_time : option Z;             (* VALID_PADDR | VALID_VADDR *)
  isInstFetch : bool;
  isUncacheable : bool;
  req_isSecure : bool;
  req_isLLSC : bool;
  req_isPrefetch : bool;
  req_isSwap : bool;
  isCondSwap : bool;
  isAtomic : bool;                 (* ATOMIC_RETURN_OP | ATOMIC_NO_RETURN_OP *)
  req_contextId : option Z;        (* VALID_CONTEXT_ID *)
  req_extraData : option Z;        (* VALID_EXTRA_DATA *)
  taskId : Z;                      (* uint32_t *)
  accessDepth : Z;                 (* int *)
}.
#[export] Instance Request_settable : Settable Request := λ r,
  mkRequest (req_ptr r) (masterId r) (req_paddr r) (req_size r) (req_time r) (isInstFetch r) (isUncacheable r)
    (req_isSecure r) (req_isLLSC r) (req_isPrefetch r) (req_isSwap r) (isCondSwap r) (isAtomic r)
    (req_contextId r) (req_extraData r) (taskId r) (accessDepth r).

Record Packet := mkPacket {
  pkt_cmd : Command;
  req : Request;
  pkt_addr : option Z;             (* VALID_ADDR *)
  _isSecure : bool;
  pkt_size : option Z;             (* VALID_SIZE *)
  pkt_bytes : option (list Z);     (* STATIC_DATA | DYNAMIC_DATA *)
  pkt_static : bool;               (* STATIC_DATA *)
  bytesValid : list bool;
  hasSharers : bool;               (* HAS_SHARERS *)
  isExpressSnoop : bool;           (* EXPRESS_SNOOP *)
  responderHadWritable : bool;     (* RESPONDER_HAD_WRITABLE *)
  cacheResponding : bool;          (* CACHE_RESPONDING *)
  isBlockCached : bool;            (* BLOCK_CACHED *)
  headerDelay : Z;                 (* uint32_t *)
  snoopDelay : Z;
  payloadDelay : Z;
}.
#[export] Instance Packet_settable : Settable Packet := λ r,
  mkPacket (pkt_cmd r) (req r) (pkt_addr r) (_isSecure r) (pkt_size r) (pkt_bytes r) (pkt_static r)
    (bytesValid r) (hasSharers r) (isExpressSnoop r) (responderHadWritable r) (cacheResponding r)
    (isBlockCached r) (headerDelay r) (snoopDelay r) (payloadDelay r).

Definition request_time (r : Request) : res Z := of_option AssertFailed (req_time r).
Definition getPaddr (r : Request) : res Z := of_option AssertFailed (req_paddr r).
Definition req_getSize (r : Request) : res Z := of_option AssertFailed (req_size r).
Definition contextId (r : Request) : res Z := of_option AssertFailed (req_contextId r).
Definition getExtraData (r : Request) : res Z := of_option AssertFailed (req_extraData r).
Definition setExtraData (e : Z) (r : Request) : Request := r.{req_extraData := Some e}.
Definition incAccessDepth (r : Request) : Request := r.{accessDepth ::= λ d, to_int (d + 1)}.
Definition getAddr (p : Packet) : res Z := of_option AssertFailed (pkt_addr p).
Definition getSize (p : Packet) : res Z := of_option AssertFailed (pkt_size p).
(** the bytes behind [getPtr<uint8_t>()] and [getConstPtr<uint8_t>()] *)
Definition getPtr (p : Packet) : res (list Z) := of_option AssertFailed (pkt_bytes p).

Definition setAddr (a : Z) (p : Packet) : res Packet := getAddr p ;; Ok (p.{pkt_addr := Some a}).
Definition setSize (n : Z) (p : Packet) : res Packet :=
  if decide (pkt_size p = None) then Ok (p.{pkt_size := Some n}) else Fault AssertFailed.
(** [blk_size] is an [unsigned int] *)
Definition getOffset (blk_size : Z) (p : Packet) : res Z :=
  a ← getAddr p; Ok (Z.land a (to_uint 32 (blk_size - 1))).
Definition getBlockAddr (blk_size : Z) (p : Packet) : res Z :=
  a ← getAddr p; Ok (Z.land a (u64_not (to_uint 32 (blk_size - 1)))).
Definition isSecure (p : Packet) : res bool := getAddr p ;; Ok (_isSecure p).

(** *** Flags *)

Definition pkt_needsWritable (p : Packet) : res bool :=
  if isRequest (pkt_cmd p) then Ok (needsWritable (pkt_cmd p)) else Fault AssertFailed.
Definition hasRespData (p : Packet) : bool := hasData (responseCommand (pkt_cmd p)).
Definition setCacheResponding (p : Packet) : res Packet :=
  if isRequest (pkt_cmd p) && negb (cacheResponding p) then Ok (p.{cacheResponding := true})
  else Fault AssertFailed.
Definition setHasSharers (p : Packet) : Packet := p.{hasSharers := true}.
Definition setExpressSnoop (p : Packet) : Packet := p.{isExpressSnoop := true}.
Definition setResponderHadWritable (p : Packet) : res Packet :=
  if cacheResponding p && negb (responderHadWritable p) then Ok (p.{responderHadWritable := true})
  else Fault AssertFailed.
Definition setBlockCached (p : Packet) : Packet := p.{isBlockCached := true}.
Definition clearBlockCached (p : Packet) : Packet := p.{isBlockCached := false}.
Definition mustCheckAbove (p : Packet) : bool :=
  bool_decide (pkt_cmd p = HardPFReq) || isEviction (pkt_cmd p).
Definition isCleanEviction (p : Packet) : bool :=
  bool_decide (pkt_cmd p = CleanEvict) || bool_decide (pkt_cmd p = WritebackClean).

(** *** Commands of a packet *)

Definition setBadAddress (p : Packet) : res Packet :=
  if isResponse (pkt_cmd p) then Ok (p.{pkt_cmd := BadAddressError}) else Fault AssertFailed.
Definition copyError (p other : Packet) : res Packet :=
  if isError (pkt_cmd other) then Ok (p.{pkt_cmd := pkt_cmd other}) else Fault AssertFailed.
Definition convertScToWrite (p : Packet) : res Packet :=
  if isLLSC (pkt_cmd p) && isWrite (pkt_cmd p) then Ok (p.{pkt_cmd := WriteReq}) else Fault AssertFailed.
Definition convertLlToRead (p : Packet) : res Packet :=
  if isLLSC (pkt_cmd p) && isRead (pkt_cmd p) then Ok (p.{pkt_cmd := ReadReq}) else Fault AssertFailed.
Definition makeResponse (p : Packet) : res Packet :=
  if needsResponse (pkt_cmd p) && isRequest (pkt_cmd p) then
    Ok (p.{pkt_cmd := responseCommand (pkt_cmd p)}.{isExpressSnoop := false})
  else Fault AssertFailed.
Definition setFunctionalResponseStatus (success : bool) (p : Packet) : Packet :=
  if success then p
  else if isWrite (pkt_cmd p) then p.{pkt_cmd := FunctionalWriteError}
  else p.{pkt_cmd := FunctionalReadError}.

(** *** Construction *)

Definition makeReadCmd (r : Request) : Command :=
  if req_isLLSC r then LoadLockedReq else if req_isPrefetch r then SoftPFReq else ReadReq.
Definition makeWriteCmd (r : Request) : Command :=
  if req_isLLSC r then StoreCondReq else if req_isSwap r then SwapReq else WriteReq.

(** a request without special flags, for examples *)
Definition plain_request (node t : Z) : Request :=
  mkRequest 0 node None None (Some t) false false false false false false false false None None 1024 0.

Definition Packet_new (r : Request) (c : Command) : Packet :=
  mkPacket c r (req_paddr r) (bool_decide (req_paddr r ≠ None) && req_isSecure r) (req_size r)
    None false [] false false false false false 0 0 0.
(** [addr = req->getPaddr() & ~(_blkSize - 1)]: the mask is an [int], which is sign-extended *)
Definition Packet_block (r : Request) (c : Command) (blkSize : Z) : Packet :=
  (Packet_new r c).{pkt_addr := (λ a, Z.land a (u64 (Z.lnot (to_int (blkSize - 1))))) <$> req_paddr r}
    .{pkt_size := Some blkSize}.
Definition createRead (r : Request) : Packet := Packet_new r (makeReadCmd r).
Definition createWrite (r : Request) : Packet := Packet_new r (makeWriteCmd r).

(** [raw] is the contents of the bytes [new] returns *)
Definition allocate (raw : Z → list Z) (p : Packet) : res Packet :=
  if hasData (pkt_cmd p) || hasRespData p then
    if decide (pkt_bytes p = None) then
      n ← getSize p; Ok (p.{pkt_bytes := Some (raw n)}.{pkt_static := false})
    else Fault AssertFailed
  else Ok p.

(** the copy of a packet; a static array is shared, so that the copy sees the same bytes *)
Definition Packet_copy (raw : Z → list Z) (pkt : Packet) (clear_flags alloc_data : bool) : res Packet :=
  let p := mkPacket (pkt_cmd pkt) (req pkt) (pkt_addr pkt) (_isSecure pkt) (pkt_size pkt) None false
    (bytesValid pkt) (negb clear_flags && hasSharers pkt) (negb clear_flags && isExpressSnoop pkt)
    (negb clear_flags && responderHadWritable pkt) (negb clear_flags && cacheResponding pkt) false
    (headerDelay pkt) 0 (payloadDelay pkt) in
  if (alloc_data : bool) then
    if pkt_static pkt then Ok (p.{pkt_bytes := pkt_bytes pkt}.{pkt_static := true})
    else allocate raw p
  else Ok p.

Definition deleteData (p : Packet) : Packet := p.{pkt_bytes := None}.{pkt_static := false}.

(** [memcpy(dest + doff, src + soff, n)] inside two arrays *)
Definition memcpy (dest : list Z) (doff : Z) (src : list Z) (soff n : Z) : res (list Z) :=
  if decide (0 ≤ n ∧ 0 ≤ doff ∧ doff + n ≤ zlength dest ∧ 0 ≤ soff ∧ soff + n ≤ zlength src) then
    Ok (take (Z.to_nat doff) dest ++ take (Z.to_nat n) (drop (Z.to_nat soff) src)
        ++ drop (Z.to_nat (doff + n)) dest)
  else Fault OutOfRange.

(** ** Copying data

    [setData(p)] with [p] the bytes of [src] from [off] on; [same] tells that [p] is the packet's
    own array.  [writeData(p)] with [p] the bytes of [dest] from [off] on. *)
Definition setData (same : bool) (src : list Z) (off : Z) (p : Packet) : res Packet :=
  data ← getPtr p;
  if (same : bool) then if pkt_static p then Ok p else Fault AssertFailed
  else n ← getSize p; data ← memcpy data 0 src off n; Ok (p.{pkt_bytes := Some data}).
Definition setDataFromBlock (blk_data : list Z) (blkSize : Z) (p : Packet) : res Packet :=
  off ← getOffset blkSize p; setData false blk_data off p.
Definition writeData (p : Packet) (dest : list Z) (off : Z) : res (list Z) :=
  data ← getPtr p; n ← getSize p; memcpy dest off data 0 n.
Definition writeDataToBlock (p : Packet) (blk_data : list Z) (blkSize : Z) : res (list Z) :=
  off ← getOffset blkSize p; writeData p blk_data off.

(** ** The check of a functional access

    [for (; all && i < hi; ++i) all &= valid[i];] *)
Definition all_valid (valid : list bool) (lo hi : Z) (all : bool) : res bool :=
  fold_res (λ i all, if (all : bool) then vget valid i else Ok false) (seqZ lo (hi - lo)) all.

(** the offsets and the size of a partial overlap *)
Definition overlap (func_start func_end val_start val_end size : Z) : res (Z * Z * Z) :=
  if decide (val_start < func_start ∧ val_end ≤ func_end) then
    Ok (to_int (func_start - val_start), 0, to_int (val_end - func_start))
  else if decide (func_start ≤ val_start ∧ func_end < val_end) then
    Ok (0, to_int (val_start - func_start), to_int (func_end - val_start))
  else if decide (func_start ≤ val_start ∧ val_end ≤ func_end) then
    Ok (0, to_int (val_start - func_start), size)
  else if decide (val_start < func_start ∧ func_end < val_end) then
    Ok (to_int (func_start - val_start), 0, to_int (func_end - func_start))
  else Fault ExitCalled.

Definition read_partial (p : Packet) (func_start func_end val_start val_end size : Z)
    (block : list Z) : res (bool * Packet) :=
  '(val_offset, func_offset, overlap_size) ← overlap func_start func_end val_start val_end size;
  data ← getPtr p;
  data ← memcpy data func_offset block val_offset overlap_size;
  n ← getSize p;
  let valid := match bytesValid p with [] => replicate (Z.to_nat n) false | v => v end in
  all ← all_valid valid 0 func_offset true;
  valid ← fold_res (λ i v, vset v i true) (seqZ func_offset overlap_size) valid;
  all ← all_valid valid (Z.max func_offset (func_offset + overlap_size)) n all;
  Ok (all, p.{pkt_bytes := Some data}.{bytesValid := valid}).

(** The result, the packet and the block afterwards.  [panic] and the
    printing of [PrintReq] end in [ExitCalled] and in no effect. *)
Definition checkFunctional (p : Packet) (addr : Z) (is_secure : bool) (size : Z)
    (_data : option (list Z)) : res (bool * Packet * option (list Z)) :=
  func_start ← getAddr p;
  func_size ← getSize p;
  let func_end := to_uint 64 (func_start + func_size - 1) in
  let val_start := addr in
  let val_end := to_uint 64 (val_start + size - 1) in
  if decide (is_secure ≠ _isSecure p ∨ func_start > val_end ∨ val_start > func_end) then
    Ok (false, p, _data)
  else if isPrint (pkt_cmd p) then
    if decide (_data = None) then Ok (false, p, _data) else Fault AssertFailed
  else
    match _data with
    | None => Ok (false, p, _data)
    | Some block =>
        let offset := to_int (to_uint 64 (func_start - val_start)) in
        if isRead (pkt_cmd p) then
          if decide (val_start ≤ func_start ∧ func_end ≤ val_end) then
            data ← getPtr p;
            data ← memcpy data 0 block offset func_size;
            let valid := match bytesValid p with
                         | [] => replicate (Z.to_nat func_size) true | v => v end in
            Ok (true, p.{pkt_bytes := Some data}.{bytesValid := valid}, _data)
          else
            '(r, p') ← read_partial p func_start func_end val_start val_end size block;
            Ok (r, p', _data)
        else if isWrite (pkt_cmd p) then
          data ← getPtr p;
          block ← (if decide (0 ≤ offset) then
                     memcpy block offset data 0 (Z.min func_end val_end - func_start + 1)
                   else memcpy block 0 data (- offset) (Z.min func_end val_end - val_start + 1));
          Ok (false, p, Some block)
        else Fault ExitCalled
    end.

(** [checkFunctional(PacketPtr other)]: the packet and the other one afterwards *)
Definition checkFunctional_packet (p other : Packet) : res (bool * Packet * Packet) :=
  a ← getAddr other; sec ← isSecure other; n ← getSize other;
  data ← (if hasData (pkt_cmd other) then d ← getPtr other; Ok (Some d) else Ok None);
  '(r, p', data') ← checkFunctional p a sec n data;
  Ok (r, p', match data' with Some d => other.{pkt_bytes := Some d} | None => other end).

(** ** Lemmas *)

Lemma memcpy_run dest doff src soff n :
  0 ≤ n → 0 ≤ doff → doff + n ≤ zlength dest → 0 ≤ soff → soff + n ≤ zlength src →
  memcpy dest doff src soff n =
    Ok (take (Z.to_nat doff) dest ++ take (Z.to_nat n) (drop (Z.to_nat soff) src)
        ++ drop (Z.to_nat (doff + n)) dest).
Proof. intros. unfold memcpy. by rewrite decide_True. Qed.

(** copying a whole array *)
Lemma memcpy_whole dest src soff :
  0 ≤ soff → soff + zlength dest ≤ zlength src →
  memcpy dest 0 src soff (zlength dest) = Ok (take (length dest) (drop (Z.to_nat soff) src)).
Proof.
  intros Hs Hl. pose proof (Zle_0_nat (length dest)). rewrite memcpy_run by (unfold zlength in *; lia).
  unfold zlength. rewrite Nat2Z.id. simpl. rewrite (drop_ge dest) by lia. by rewrite app_nil_r.
Qed.

(** setting the valid bits of a range *)
Lemma mark_valid (v : list bool) lo n :
  0 ≤ lo → 0 ≤ n → lo + n ≤ zlength v →
  ∃ v', fold_res (λ i v, vset v i true) (seqZ lo n) v = Ok v' ∧
    represents v' (zlength v) (λ j, if decide (lo ≤ j < lo + n) then true else vat false v j).
Proof.
  intros Hlo Hn Hhi.
  destruct (fold_res_inv (λ i v, vset v i true) (seqZ lo n)
    (λ pre w, represents w (zlength v) (λ j, if decide (j ∈ pre) then true else vat false v j)) v)
    as (v' & Hrun & Hv').
  - intros pre i post w Hl Hw.
    assert (Hi : lo ≤ i < lo + n) by (apply elem_of_seqZ; rewrite Hl; set_solver).
    erewrite vset_Some by (eapply represents_lookup; [exact Hw|lia]).
    eexists. split; [done|]. eapply represents_ext; [apply represents_vinsert; [exact Hw|lia]|].
    intros j _. simpl. repeat case_decide; set_solver.
  - eapply represents_ext; [by apply (represents_vat false)|]. intros j _.
    rewrite decide_False; [done|apply not_elem_of_nil].
  - exists v'. split; [done|]. eapply represents_ext; [exact Hv'|]. intros j _. simpl.
    apply decide_ext. rewrite elem_of_seqZ. lia.
Qed.

(** a byte of the range that is not valid ends the check *)
Lemma all_valid_false valid lo hi b :
  0 ≤ lo → hi ≤ zlength valid →
  b = false ∨ (∃ i, lo ≤ i < hi ∧ valid !z i = Some false) → all_valid valid lo hi b = Ok false.
Proof.
  intros Hlo Hhi Hb. unfold all_valid.
  destruct (fold_res_inv (λ i all, if (all : bool) then vget valid i else Ok false) (seqZ lo (hi - lo))
    (λ pre r, b = false ∨ (∃ i, i ∈ pre ∧ valid !z i = Some false) → r = false) b) as (r & -> & Hr).
  - intros pre i post r Hl Hr.
    assert (Hi : lo ≤ i < hi) by (apply elem_of_range; rewrite Hl; set_solver).
    destruct (vlookup_in_range valid i ltac:(lia)) as [x Hx]. unfold vget. rewrite Hx.
    destruct r; eexists; (split; [done|]); [|done]. intros [?|(j & Hj & Hf)]; [by discriminate Hr; left|].
    apply elem_of_app in Hj as [Hj|Hj%list_elem_of_singleton]; [|congruence].
    discriminate Hr. right. by exists j.
  - intros [?|(i & Hi & _)]; [done|by apply elem_of_nil in Hi].
  - f_equal. apply Hr. destruct Hb as [?|(i & Hi & Hf)]; [by left|right].
    exists i. by rewrite elem_of_range.
Qed.

Section access.
Context (p : Packet) (a n : Z) (data : list Z).
Hypothesis Haddr : pkt_addr p = Some a.
Hypothesis Hsize : pkt_size p = Some n.
Hypothesis Hdata : pkt_bytes p = Some data.
Hypothesis Hlen : zlength data = n.
Hypothesis Hn : 0 < n.
(** a block whose addresses do not wrap around *)
Context (addr : Z) (block : list Z).
Hypothesis Hblock : 0 ≤ addr ∧ 0 < zlength block < 2 ^ 31 ∧ addr + zlength block ≤ 2 ^ 64.
Hypothesis Ha : 0 ≤ a ∧ a + n ≤ 2 ^ 64.

Lemma check_start :
  addr ≤ a + n - 1 → a ≤ addr + zlength block - 1 → isPrint (pkt_cmd p) = false →
  checkFunctional p addr (_isSecure p) (zlength block) (Some block) =
    (let offset := to_int (to_uint 64 (a - addr)) in
     if isRead (pkt_cmd p) then
       if decide (addr ≤ a ∧ a + n - 1 ≤ addr + zlength block - 1) then
         data ← memcpy data 0 block offset n;
         let valid := match bytesValid p with [] => replicate (Z.to_nat n) true | v => v end in
         Ok (true, p.{pkt_bytes := Some data}.{bytesValid := valid}, Some block)
       else
         '(r, p') ← read_partial p a (a + n - 1) addr (addr + zlength block - 1) (zlength block) block;
         Ok (r, p', Some block)
     else if isWrite (pkt_cmd p) then
       block ← (if decide (0 ≤ offset) then
                  memcpy block offset data 0 (Z.min (a + n - 1) (addr + zlength block - 1) - a + 1)
                else memcpy block 0 data (- offset)
                       (Z.min (a + n - 1) (addr + zlength block - 1) - addr + 1));
       Ok (false, p, Some block)
     else Fault ExitCalled).
Proof.
  intros H1 H2 Hpr. unfold checkFunctional, getAddr, getSize, getPtr.
  rewrite Haddr, Hsize, Hdata. cbn [of_option mbind res_bind].
  rewrite !(to_uint_small 64 (_ + _ - 1)) by lia.
  rewrite decide_False; [|intros [?|[?|?]]; [done|lia|lia]]. by rewrite Hpr.
Qed.

(** a fresh read against a block that ends inside the packet *)
Lemma first_part :
  bytesValid p = [] → isRead (pkt_cmd p) = true →
  addr < a → a < addr + zlength block → addr + zlength block < a + n →
  let k := addr + zlength block - 1 - a in
  ∃ valid data', checkFunctional p addr (_isSecure p) (zlength block) (Some block) =
      Ok (false, p.{pkt_bytes := Some data'}.{bytesValid := valid}, Some block) ∧
    represents valid n (λ j, if decide (j < k) then true else false) ∧
    zlength data' = n ∧ data' !z k = data !z k.
Proof.
  intros Hv Hr H1 H2 H3 k.
  assert (Hpr : isPrint (pkt_cmd p) = false) by (by destruct (pkt_cmd p)).
  rewrite check_start by (done || lia). cbv zeta. rewrite Hr, decide_False by lia.
  unfold read_partial, overlap. rewrite decide_True by lia. simpl. unfold getPtr, getSize.
  rewrite Hdata, Hsize, Hv, !to_int_small by lia. simpl.
  replace (addr + zlength block - 1 - a) with k by done.
  rewrite memcpy_run by lia. simpl.
  destruct (mark_valid (replicate (Z.to_nat n) false) 0 k) as (v' & Hrun & Hv'); [lia|lia| |].
  { unfold zlength. rewrite length_replicate. lia. }
  assert (Hn' : zlength (replicate (Z.to_nat n) false) = n)
    by (unfold zlength; rewrite length_replicate; lia).
  rewrite Hn' in Hv'.
  assert (Hlow : represents v' n (λ j, if decide (j < k) then true else false)).
  { eapply represents_ext; [exact Hv'|]. intros j Hj. simpl. unfold vat.
    rewrite vlookup_replicate by lia. repeat case_decide; done || lia. }
  change (all_valid _ 0 0 true) with (Ok true). simpl. rewrite Hrun. simpl.
  rewrite all_valid_false by
    (first [lia | right; exists k; split; [lia|];
       rewrite (represents_lookup _ _ _ k Hlow) by lia; by rewrite decide_False by lia
     | by rewrite (proj1 Hlow)]).
  exists v'. eexists. split; [done|]. split; [done|]. unfold zlength in *. split.
  - rewrite length_app, length_drop, length_take, length_drop. lia.
  - unfold vlookup. rewrite !decide_True by lia.
    rewrite lookup_app_r, length_take, length_drop by (rewrite length_take, length_drop; lia).
    rewrite lookup_drop. f_equal. lia.
Qed.

(** a read with an invalid byte before the block, which ends behind the packet *)
Lemma second_part :
  isRead (pkt_cmd p) = true → a < addr < a + 2 ^ 31 → addr < a + n → a + n < addr + zlength block →
  zlength (bytesValid p) = n →
  ∀ k, 0 ≤ k < addr - a → bytesValid p !z k = Some false →
  ∃ valid data', checkFunctional p addr (_isSecure p) (zlength block) (Some block) =
      Ok (false, p.{pkt_bytes := Some data'}.{bytesValid := valid}, Some block) ∧
    valid !z k = Some false ∧ data' !z k = data !z k.
Proof.
  intros Hr H1 H2 H3 Hv k Hk Hkv.
  assert (Hpr : isPrint (pkt_cmd p) = false) by (by destruct (pkt_cmd p)).
  rewrite check_start by (done || lia). cbv zeta. rewrite Hr, decide_False by lia.
  unfold read_partial, overlap. rewrite decide_False by lia. rewrite decide_True by lia.
  simpl. unfold getPtr, getSize. rewrite Hdata, Hsize, !to_int_small by lia. simpl.
  rewrite memcpy_run by lia. simpl.
  destruct (bytesValid p) as [|b v] eqn:Hb; [by vm_compute in Hkv; destruct k|]. rewrite <-Hb in *.
  destruct (mark_valid (bytesValid p) (addr - a) (a + n - 1 - addr)) as (v' & Hrun & Hv'); [lia..|].
  rewrite all_valid_false by (first [lia | right; by exists k]). simpl. rewrite Hrun. simpl.
  rewrite all_valid_false by (first [lia | by left | by rewrite (proj1 Hv'), Hv]). simpl.
  eexists _, _. split; [done|]. split.
  - rewrite (represents_lookup _ _ _ k Hv') by lia. rewrite decide_False by lia. unfold vat. by rewrite Hkv.
  - unfold zlength, vlookup in *. rewrite !decide_True by lia.
    rewrite lookup_app_l by (rewrite length_take; lia). by rewrite lookup_take_lt by lia.
Qed.
End access.

(** ** Properties *)

(** A functional read that lies inside a block of
    memory succeeds and returns exactly the bytes of the block at the
    addresses of the packet. *)
Theorem functional_read_inside (p : Packet) (a addr : Z) (data block : list Z) :
  pkt_addr p = Some a → pkt_size p = Some (zlength data) → pkt_bytes p = Some data → 0 < zlength data →
  0 ≤ addr → addr + zlength block ≤ 2 ^ 64 → zlength block < 2 ^ 31 →
  addr ≤ a → a + zlength data ≤ addr + zlength block → isRead (pkt_cmd p) = true →
  ∃ p', checkFunctional p addr (_isSecure p) (zlength block) (Some block) = Ok (true, p', Some block) ∧
    ∃ data', pkt_bytes p' = Some data' ∧ zlength data' = zlength data ∧
    ∀ i, 0 ≤ i < zlength data → data' !z i = block !z (a + i - addr).
Proof.
  intros Haddr Hsize Hdata Hn Hlo Hhi Hsmall Hal Har Hr.
  assert (Hpr : isPrint (pkt_cmd p) = false) by (by destruct (pkt_cmd p)).
  rewrite (check_start p a (zlength data) data) by (done || lia). cbv zeta. rewrite Hr.
  rewrite decide_True by lia. rewrite to_uint_small, to_int_small by lia.
  rewrite memcpy_whole by lia. simpl. eexists. split; [done|]. eexists. split; [done|].
  unfold zlength in *. split.
  - rewrite length_take, length_drop. lia.
  - intros i Hi. unfold vlookup. rewrite !decide_True by lia.
    rewrite lookup_take_lt, lookup_drop by lia. f_equal. lia.
Qed.

Definition sample_packet (c : Command) (a : Z) (data : list Z) : Packet :=
  (Packet_new (plain_request 1 0) c).{pkt_addr := Some a}.{pkt_size := Some (zlength data)}.{pkt_bytes := Some data}.

Lemma functional_read_inside_witness :
  ∃ p', checkFunctional (sample_packet ReadReq 102 [0; 0]) 100 false 5 (Some [1; 2; 3; 4; 5]) =
    Ok (true, p', Some [1; 2; 3; 4; 5]).
Proof.
  destruct (functional_read_inside (sample_packet ReadReq 102 [0; 0]) 102 100 [0; 0] [1; 2; 3; 4; 5])
    as (p' & Hp' & _); [reflexivity..|lia|vm_compute; discriminate|reflexivity|lia|
    vm_compute; discriminate|reflexivity|].
  exists p'. exact Hp'.
Defined.

(** A functional write that lies inside a block stores the
    bytes of the packet at its addresses and leaves every other byte of the
    block as it was. *)
Theorem functional_write_inside (p : Packet) (a addr : Z) (data block : list Z) :
  pkt_addr p = Some a → pkt_size p = Some (zlength data) → pkt_bytes p = Some data → 0 < zlength data →
  0 ≤ addr → addr + zlength block ≤ 2 ^ 64 → zlength block < 2 ^ 31 →
  addr ≤ a → a + zlength data ≤ addr + zlength block →
  isRead (pkt_cmd p) = false → isWrite (pkt_cmd p) = true →
  ∃ block', checkFunctional p addr (_isSecure p) (zlength block) (Some block) = Ok (false, p, Some block') ∧
    zlength block' = zlength block ∧
    ∀ i, 0 ≤ i < zlength block →
      block' !z i = if decide (a ≤ addr + i < a + zlength data) then data !z (addr + i - a) else block !z i.
Proof.
  intros Haddr Hsize Hdata Hn Hlo Hhi Hsmall Hal Har Hr Hw.
  assert (Hpr : isPrint (pkt_cmd p) = false) by (by destruct (pkt_cmd p)).
  rewrite (check_start p a (zlength data) data) by (done || lia). cbv zeta. rewrite Hr, Hw.
  rewrite to_uint_small, to_int_small by lia. rewrite decide_True by lia.
  replace (Z.min (a + zlength data - 1) (addr + zlength block - 1) - a + 1) with (zlength data) by lia.
  rewrite memcpy_run by lia. simpl. eexists. split; [done|]. unfold zlength in *.
  rewrite Nat2Z.id, (take_ge data) by lia.
  split.
  - rewrite !length_app, length_take, length_drop. lia.
  - intros i Hi. unfold vlookup. rewrite decide_True by lia. case_decide as Hin.
    + rewrite decide_True by lia. rewrite lookup_app_r by (rewrite length_take; lia).
      rewrite lookup_app_l by (rewrite length_take; lia). f_equal. rewrite length_take. lia.
    + rewrite decide_True by lia. destruct (decide (addr + i < a)).
      * rewrite lookup_app_l by (rewrite length_take; lia). rewrite lookup_take_lt by lia. done.
      * rewrite !lookup_app_r by (rewrite ?length_take; lia). rewrite lookup_drop, length_take.
        f_equal. lia.
Qed.

Lemma functional_write_inside_witness :
  ∃ block', checkFunctional (sample_packet WriteReq 102 [8; 9]) 100 false 5 (Some [1; 2; 3; 4; 5]) =
    Ok (false, sample_packet WriteReq 102 [8; 9], Some block') ∧ block' !z 3 = Some 9.
Proof.
  destruct (functional_write_inside (sample_packet WriteReq 102 [8; 9]) 102 100 [8; 9] [1; 2; 3; 4; 5])
    as (b & Hb & _ & Hi); [reflexivity..|lia|vm_compute; discriminate|reflexivity|lia|
    vm_compute; discriminate|reflexivity|reflexivity|].
  exists b. split; [exact Hb|]. rewrite Hi by (vm_compute; split; [discriminate|reflexivity]). reflexivity.
Defined.

(** A functional read whose bytes lie in two adjacent blocks
    is never completed, although the blocks hold all of them: the code takes the
    difference of the two end addresses for the number of bytes of a partial overlap,
    which is one too small, so the last byte of the first block is
    neither copied into the packet nor marked valid, and both accesses return [false]. *)
Theorem functional_read_straddling_incomplete (p : Packet) (a addr : Z) (data b1 b2 : list Z) :
  pkt_addr p = Some a → pkt_size p = Some (zlength data) → pkt_bytes p = Some data → bytesValid p = [] →
  0 ≤ addr → addr + zlength b1 + zlength b2 ≤ 2 ^ 64 → zlength b1 < 2 ^ 31 → zlength b2 < 2 ^ 31 →
  addr < a → a < addr + zlength b1 → addr + zlength b1 < a + zlength data →
  a + zlength data < addr + zlength b1 + zlength b2 → isRead (pkt_cmd p) = true →
  let k := addr + zlength b1 - 1 - a in
  ∃ p1 p2, checkFunctional p addr (_isSecure p) (zlength b1) (Some b1) = Ok (false, p1, Some b1) ∧
    checkFunctional p1 (addr + zlength b1) (_isSecure p) (zlength b2) (Some b2) = Ok (false, p2, Some b2) ∧
    bytesValid p2 !z k = Some false ∧
    ∃ data', pkt_bytes p2 = Some data' ∧ data' !z k = data !z k.
Proof.
  intros Haddr Hsize Hdata Hfresh Hlo Hhi Hs1 Hs2 H1 H2 H3 H4 Hr k.
  assert (Hpr : isPrint (pkt_cmd p) = false) by (by destruct (pkt_cmd p)).
  pose proof (zlength_nonneg data). pose proof (zlength_nonneg b1).
  destruct (first_part p a (zlength data) data Haddr Hsize Hdata eq_refl ltac:(lia) addr b1
    ltac:(lia) ltac:(lia) Hfresh Hr ltac:(lia) ltac:(lia) ltac:(lia)) as (v1 & d1 & Hrun1 & Hv1 & Hd1 & Hk1).
  fold k in Hrun1, Hv1, Hk1.
  set (q := p.{pkt_bytes := Some d1}.{bytesValid := v1}) in *.
  destruct (second_part q a (zlength data) d1 Haddr Hsize eq_refl
    Hd1 ltac:(lia) (addr + zlength b1) b2 ltac:(lia) ltac:(lia) Hr ltac:(lia) ltac:(lia) ltac:(lia)
    (proj1 Hv1) k ltac:(lia)) as (v2 & d2 & Hrun2 & Hv2 & Hk2).
  { simpl. rewrite (represents_lookup _ _ _ k Hv1) by lia. rewrite decide_False; [done|lia]. }
  eexists _, _. split; [exact Hrun1|]. split; [exact Hrun2|]. simpl.
  split; [done|]. exists d2. split; [done|]. congruence.
Qed.

Lemma functional_read_straddling_incomplete_witness :
  ∃ p1 p2, checkFunctional (sample_packet ReadReq 102 [0; 0; 0]) 100 false 4 (Some [1; 2; 3; 4]) =
      Ok (false, p1, Some [1; 2; 3; 4]) ∧
    checkFunctional p1 104 false 4 (Some [5; 6; 7; 8]) = Ok (false, p2, Some [5; 6; 7; 8]) ∧
    bytesValid p2 !z 1 = Some false.
Proof.
  destruct (functional_read_straddling_incomplete (sample_packet ReadReq 102 [0; 0; 0]) 102 100 [0; 0; 0]
    [1; 2; 3; 4] [5; 6; 7; 8]) as (p1 & p2 & H1 & H2 & H3 & _);
    [reflexivity..|lia|vm_compute; discriminate|reflexivity|reflexivity|lia|reflexivity|reflexivity
    |reflexivity|reflexivity|].
  exists p1, p2. split; [exact H1|]. split; [exact H2|exact H3].
Defined.
