(* ===== verification/Cache.v ===== *)
(** * Set-associative caches ([ENoC_cache.h], [ENoC_cache.cpp])

    The lines of an [ENoCCache], the lookup of a tag, the least-recently-used
    counters, and how an address is split into an index and a tag. *)

From S2P Require Import Prelude.

(** the macros [M], [E], [S] and [I] *)
Definition MESI_M : Z := 0.
Definition MESI_E : Z := 1.
Definition MESI_S : Z := 2.
Definition MESI_I : Z := 3.

Record cacheline := mkcacheline {
  MESIbits : Z;
  LRUbits : Z;
  cl_tag : Z;
  cl_address : Z;
  cl_data : Z;
  dirty : bool;
}.
#[export] Instance cacheline_settable : Settable cacheline := λ r,
  mkcacheline (MESIbits r) (LRUbits r) (cl_tag r) (cl_address r) (cl_data r) (dirty r).

Record ENoCCache := mkENoCCache {
  LINES : Z;
  WAYS : Z;
  Cache : list (list cacheline);
}.
#[export] Instance ENoCCache_settable : Settable ENoCCache := λ r,
  mkENoCCache (LINES r) (WAYS r) (Cache r).

(** [ENoCCache::ENoCCache]: [new] leaves the lines as they are in memory *)
Definition ENoCCache_ENoCCache (raw : Z → Z → cacheline) (lines ways : Z) : ENoCCache :=
  mkENoCCache lines ways ((λ i, raw i <$> seqZ 0 ways) <$> seqZ 0 lines).

(** read and write [Cache[index][way]] *)
Definition of_line {A} (index way : Z) (g : cacheline → A) : M ENoCCache A :=
  c ← get;
  l ← lift (vget (Cache c) index);
  cl ← lift (vget l way);
  mret (g cl).
Definition on_line (index way : Z) (g : cacheline → cacheline) : M ENoCCache unit :=
  zoom Cache (λ v c, c.{Cache := v}) (zoom_at index (zoom_at way (modify g))).

Definition setLRUbitsToWay : M ENoCCache unit :=
  c ← get;
  for_range 0 (LINES c) (λ index,
    for_range 0 (WAYS c) (λ way,
      on_line index way (λ l, l.{LRUbits := way}.{MESIbits := 3}.{cl_tag := 0}))).

(** the first way of a list of ways that satisfies [p], otherwise [ways] *)
Fixpoint first_way (index : Z) (p : cacheline → bool) (l : list Z) (ways : Z) : M ENoCCache Z :=
  match l with
  | [] => mret ways
  | way :: l' => b ← of_line index way p; if (b : bool) then mret way else first_way index p l' ways
  end.
Definition find_way (index : Z) (p : cacheline → bool) : M ENoCCache Z :=
  c ← get;
  first_way index p (seqZ 0 (WAYS c)) (WAYS c).

Definition checkTag (index tag : Z) : M ENoCCache Z :=
  find_way index (λ l, bool_decide (cl_tag l = tag)).

Definition checkLRU (index : Z) : M ENoCCache Z :=
  find_way index (λ l, bool_decide (LRUbits l = 0)).

(** the body of the loop over [testbits] *)
Definition age_line (index testbits : Z) : M ENoCCache unit :=
  c ← get;
  testway ← find_way index (λ l, bool_decide (testbits = LRUbits l));
  when (bool_decide (testway < WAYS c)) (on_line index testway (λ l, l.{LRUbits ::= Z.pred})).

Definition updateLRU (index ourway : Z) : M ENoCCache unit :=
  c ← get;
  ourbits ← of_line index ourway LRUbits;
  if decide (ourbits = WAYS c) then mret tt
  else
    for_range 0 (WAYS c) (age_line index) ;;
    on_line index ourway (λ l, l.{LRUbits := WAYS c}).

(** [testIndex]: its argument [way] is only a local variable *)
Definition testIndex (index : Z) : M ENoCCache Z :=
  c ← get;
  way ← find_way index (λ l, bool_decide (MESIbits l ≠ MESI_I));
  mret (if decide (way < WAYS c) then 0 else 1).

(** how the callers split an address: [(addr >> 6) & (LINES - 1)] and [addr >> 20] *)
Definition cache_index (lines addr : Z) : Z := to_int (Z.land (Z.shiftr addr 6) (lines - 1)).
Definition cache_tag (addr : Z) : Z := to_int (Z.shiftr addr 20).

(** ** Lemmas *)

Definition cell (c : ENoCCache) (i w : Z) : option cacheline := Cache c !z i ≫= λ l, l !z w.

(** the array has the size that [LINES] and [WAYS] say *)
Definition cache_wf (c : ENoCCache) : Prop :=
  0 ≤ WAYS c ∧ zlength (Cache c) = LINES c ∧ Forall (λ l, zlength l = WAYS c) (Cache c).

Definition in_cache (c : ENoCCache) (i w : Z) : Prop := 0 ≤ i < LINES c ∧ 0 ≤ w < WAYS c.

Lemma cell_in_cache c i w : cache_wf c → in_cache c i w → ∃ cl, cell c i w = Some cl.
Proof.
  intros (_ & Hl & Hw) [Hi Hway]. unfold cell.
  destruct (vlookup_in_range (Cache c) i) as [l El]; [lia|]. rewrite El. simpl.
  apply vlookup_in_range. pose proof (Forall_vlookup _ _ _ _ Hw El) as Hlen. simpl in Hlen. lia.
Qed.

Lemma of_line_run {A} c i w cl (g : cacheline → A) :
  cell c i w = Some cl → of_line i w g c = Ok (g cl, c).
Proof.
  unfold cell, of_line. intros H. destruct (Cache c !z i) as [l|] eqn:El; [|done]. simpl in H.
  unfold mbind, M_bind, get, lift. by rewrite (vget_Some _ _ _ El), (vget_Some _ _ _ H).
Qed.

Lemma of_line_outside {A} c i w (g : cacheline → A) :
  cell c i w = None → of_line i w g c = Fault OutOfRange.
Proof.
  unfold cell, of_line. intros H. unfold mbind, M_bind, get, lift, vget.
  destruct (Cache c !z i) as [l|]; [|done]. simpl in *. by rewrite H.
Qed.

(** writing one line *)
Definition with_cell (c : ENoCCache) (i w : Z) (g : cacheline → cacheline) : ENoCCache :=
  c.{Cache ::= λ v, match v !z i with
                    | Some l => match l !z w with Some cl => vinsert i (vinsert w (g cl) l) v | None => v end
                    | None => v
                    end}.

Lemma on_line_run c i w cl g :
  cell c i w = Some cl → on_line i w g c = Ok (tt, with_cell c i w g).
Proof.
  unfold cell, on_line, with_cell. intros H. destruct (Cache c !z i) as [l|] eqn:El; [|done].
  simpl in H. unfold zoom. rewrite (zoom_at_Some _ _ _ _ El), (zoom_at_Some _ _ _ _ H). simpl.
  by rewrite El, H.
Qed.

Lemma with_cell_wf c i w g : cache_wf c → cache_wf (with_cell c i w g).
Proof.
  intros (Hn & Hl & Hw). unfold with_cell. destruct (Cache c !z i) as [l|] eqn:El; simpl.
  - destruct (l !z w) as [cl|] eqn:Ew; [|by rewrite El; destruct c; rewrite Ew].
    unfold cache_wf. simpl. rewrite El, Ew, zlength_vinsert. split; [done|]. split; [done|].
    apply Forall_vinsert; [done|]. rewrite zlength_vinsert. by apply (Forall_vlookup _ _ _ _ Hw El).
  - unfold cache_wf. simpl. by rewrite El.
Qed.

Lemma with_cell_cell c i w g j v :
  cell (with_cell c i w g) j v = if decide (i = j ∧ w = v) then g <$> cell c j v else cell c j v.
Proof.
  unfold cell, with_cell. simpl. destruct (Cache c !z i) as [l|] eqn:El.
  - destruct (l !z w) as [cl|] eqn:Ew.
    + destruct (decide (i = j)) as [<-|Hij].
      * rewrite vlookup_vinsert_eq by (by eapply vlookup_Some_range). rewrite El. simpl.
        destruct (decide (w = v)) as [<-|Hwv].
        -- rewrite decide_True by done. rewrite vlookup_vinsert_eq by (by eapply vlookup_Some_range).
           by rewrite Ew.
        -- rewrite decide_False by naive_solver. by rewrite vlookup_vinsert_ne.
      * rewrite decide_False by naive_solver. by rewrite vlookup_vinsert_ne.
    + case_decide as Hd; [|done]. destruct Hd as [<- <-]. rewrite El. simpl. by rewrite Ew.
  - case_decide as Hd; [|done]. destruct Hd as [<- <-]. by rewrite El.
Qed.

Lemma first_way_run c i p (k : nat) : cache_wf c → 0 ≤ i < LINES c →
  ∀ a, 0 ≤ a → a + Z.of_nat k = WAYS c →
  ∃ w, first_way i p (seqZ a (Z.of_nat k)) (WAYS c) c = Ok (w, c) ∧ a ≤ w ≤ WAYS c ∧
    (w < WAYS c → ∃ cl, cell c i w = Some cl ∧ p cl = true) ∧
    (∀ v cl, a ≤ v < w → cell c i v = Some cl → p cl = false).
Proof.
  intros Hwf Hi. induction k as [|k IH]; intros a Ha Hk.
  - exists (WAYS c). split; [done|]. split; [lia|]. split; [lia|]. intros. lia.
  - rewrite seqZ_cons by lia. simpl first_way.
    destruct (cell_in_cache c i a Hwf) as [cl Hcl]; [split; lia|].
    unfold mbind, M_bind. rewrite (of_line_run c i a cl p Hcl). destruct (p cl) eqn:Hp.
    + exists a. split; [done|]. split; [lia|]. split; [by exists cl|]. intros. lia.
    + replace (Z.pred (Z.of_nat (S k))) with (Z.of_nat k) by lia.
      destruct (IH (Z.succ a)) as (w & Hrun & Hw & Hin & Hno); [lia..|].
      exists w. split; [exact Hrun|]. split; [lia|]. split; [done|].
      intros v cl' Hv Hcl'. destruct (decide (v = a)) as [->|]; [congruence|]. apply (Hno v); [lia|done].
Qed.

Lemma find_way_run c i p : cache_wf c → 0 ≤ i < LINES c →
  ∃ w, find_way i p c = Ok (w, c) ∧ 0 ≤ w ≤ WAYS c ∧
    (w < WAYS c → ∃ cl, cell c i w = Some cl ∧ p cl = true) ∧
    (∀ v cl, 0 ≤ v < w → cell c i v = Some cl → p cl = false).
Proof.
  intros Hwf Hi. pose proof (proj1 Hwf) as Hn.
  destruct (first_way_run c i p (Z.to_nat (WAYS c)) Hwf Hi 0) as (w & Hw); [lia..|].
  exists w. rewrite Z2Nat.id in Hw by done. exact Hw.
Qed.

(** *** The counters of a line *)

(** [c'] is [c] with other LRU counters in line [i] *)
Definition blank (i j : Z) (cl : cacheline) : cacheline :=
  if decide (j = i) then cl.{LRUbits := 0} else cl.
Definition lru_frame (i : Z) (c c' : ENoCCache) : Prop :=
  LINES c' = LINES c ∧ WAYS c' = WAYS c ∧ ∀ j v, blank i j <$> cell c' j v = blank i j <$> cell c j v.

#[export] Instance lru_frame_preorder i : PreOrder (lru_frame i).
Proof.
  split; [done|]. intros a b c (H1 & H2 & H3) (H4 & H5 & H6).
  split; [congruence|]. split; [congruence|]. intros j v. by rewrite H6.
Qed.

Definition bits_are (c : ENoCCache) (i : Z) (g : Z → Z) : Prop :=
  ∀ v, 0 ≤ v < WAYS c → LRUbits <$> cell c i v = Some (g v).

Lemma with_cell_bits c i w h g :
  bits_are c i g → 0 ≤ w < WAYS c →
  (∀ cl, blank i i (h cl) = blank i i cl) →
  lru_frame i c (with_cell c i w h).
Proof.
  intros _ _ Hh. split; [done|]. split; [done|]. intros j v. rewrite with_cell_cell.
  case_decide as Hd; [|done]. destruct Hd as [<- <-]. destruct (cell c i w) as [cl|]; [|done].
  simpl. f_equal. apply Hh.
Qed.

Lemma bits_at c i g w cl : bits_are c i g → cell c i w = Some cl → 0 ≤ w < WAYS c → LRUbits cl = g w.
Proof. intros Hb Hcl Hw. specialize (Hb w Hw). rewrite Hcl in Hb. by injection Hb. Qed.

Lemma set_bits_run c i w g h :
  cache_wf c → in_cache c i w → bits_are c i g →
  (∀ cl, blank i i (h cl) = blank i i cl) →
  ∃ c', on_line i w h c = Ok (tt, c') ∧ cache_wf c' ∧ lru_frame i c c' ∧
    ∀ b, (∀ cl, cell c i w = Some cl → LRUbits (h cl) = b) →
      bits_are c' i (λ v, if decide (v = w) then b else g v).
Proof.
  intros Hwf Hin Hb Hh. destruct (cell_in_cache c i w Hwf Hin) as [cl Hcl].
  exists (with_cell c i w h). split; [by apply (on_line_run _ _ _ cl)|].
  split; [by apply with_cell_wf|]. split; [by eapply with_cell_bits, Hh; [|apply Hin]|].
  intros b Hbits v Hv. rewrite with_cell_cell. destruct (decide (v = w)) as [->|Hne].
  - rewrite decide_True, Hcl by done. simpl. f_equal. by apply Hbits.
  - rewrite decide_False by naive_solver. by apply Hb.
Qed.

Lemma age_line_run c i t g : cache_wf c → 0 ≤ i < LINES c → bits_are c i g →
  ∃ c' way, age_line i t c = Ok (tt, c') ∧ cache_wf c' ∧ lru_frame i c c' ∧
    bits_are c' i (λ v, if decide (v = way) then g v - 1 else g v) ∧
    0 ≤ way ≤ WAYS c ∧ (way < WAYS c → g way = t) ∧ (∀ v, 0 ≤ v < way → g v ≠ t).
Proof.
  intros Hwf Hi Hb. unfold age_line, mbind, M_bind, get.
  destruct (find_way_run c i (λ l, bool_decide (t = LRUbits l)) Hwf Hi) as (way & -> & Hr & Hfound & Hno).
  assert (Hbefore : ∀ v, 0 ≤ v < way → g v ≠ t).
  { intros v Hv <-. destruct (cell_in_cache c i v Hwf) as [cl Hcl]; [split; lia|].
    specialize (Hno v cl Hv Hcl). apply bool_decide_eq_false in Hno. apply Hno.
    symmetry. apply (bits_at c i g v cl Hb Hcl). lia. }
  destruct (decide (way < WAYS c)) as [Hlt|Hge].
  - rewrite bool_decide_true by done. simpl. destruct (Hfound Hlt) as (cl & Hcl & Ht).
    apply bool_decide_eq_true in Ht. pose proof (bits_at c i g way cl Hb Hcl ltac:(lia)) as Hg.
    destruct (set_bits_run c i way g (λ l, l.{LRUbits ::= Z.pred}) Hwf) as (c' & Hrun & Hwf' & Hf & Hb');
      [split; lia|done|by intros []; unfold blank; rewrite !decide_True by done|].
    exists c', way. split; [exact Hrun|]. split; [done|]. split; [done|]. split; [|split; [done|split; [congruence|done]]].
    intros v Hv. rewrite (Hb' (g way - 1)).
    + case_decide; by subst.
    + intros cl' Hcl'. assert (cl' = cl) as -> by congruence. simpl. lia.
    + done.
  - rewrite bool_decide_false by done. exists c, way. simpl. split; [done|]. split; [done|].
    split; [done|]. split; [|split; [done|split; [lia|done]]].
    intros v Hv. rewrite decide_False by lia. by apply Hb.
Qed.

(** the loop of [updateLRU]: [step] describes how the counters move *)
Lemma age_loop_run c i (I : Z → (Z → Z) → Prop) g : cache_wf c → 0 ≤ i < LINES c → bits_are c i g → I 0 g →
  (∀ t way h, 0 ≤ t < WAYS c → I t h → 0 ≤ way ≤ WAYS c → (way < WAYS c → h way = t) →
    (∀ v, 0 ≤ v < way → h v ≠ t) → I (t + 1) (λ v, if decide (v = way) then h v - 1 else h v)) →
  ∃ c' h, for_range 0 (WAYS c) (age_line i) c = Ok (tt, c') ∧ cache_wf c' ∧ lru_frame i c c' ∧
    bits_are c' i h ∧ I (WAYS c) h.
Proof.
  intros Hwf Hi Hb HI Hstep. pose proof (proj1 Hwf) as Hn.
  destruct (triple_for_range 0 (WAYS c) (age_line i)
    (λ t s, cache_wf s ∧ lru_frame i c s ∧ ∃ h, bits_are s i h ∧ I t h) Hn) with (s := c)
    as ([] & c' & Hrun & Hwf' & Hf & h & Hb' & HI').
  - intros t Ht s (Hs & Hf & h & Hbs & HIh). pose proof Hf as (HL & HW & _).
    destruct (age_line_run s i t h Hs ltac:(lia) Hbs) as (s' & way & Hrun & Hs' & Hf' & Hbs' & Hr & Hw & Hno).
    rewrite HW in *. exists tt, s'. split; [done|]. split; [done|]. split; [by etrans|].
    eexists. split; [exact Hbs'|]. by apply Hstep.
  - split; [done|]. split; [done|]. by exists g.
  - by exists c', h.
Qed.

Lemma updateLRU_run c i w g (I : Z → (Z → Z) → Prop) : cache_wf c → in_cache c i w → bits_are c i g →
  g w ≠ WAYS c → I 0 g →
  (∀ t way h, 0 ≤ t < WAYS c → I t h → 0 ≤ way ≤ WAYS c → (way < WAYS c → h way = t) →
    (∀ v, 0 ≤ v < way → h v ≠ t) → I (t + 1) (λ v, if decide (v = way) then h v - 1 else h v)) →
  ∃ c' h, updateLRU i w c = Ok (tt, c') ∧ cache_wf c' ∧ lru_frame i c c' ∧
    bits_are c' i (λ v, if decide (v = w) then WAYS c else h v) ∧ I (WAYS c) h.
Proof.
  intros Hwf Hin Hb Hne HI Hstep. unfold updateLRU, mbind, M_bind, get.
  destruct (cell_in_cache c i w Hwf Hin) as [cl Hcl].
  rewrite (of_line_run _ _ _ _ _ Hcl), (bits_at c i g w cl Hb Hcl (proj2 Hin)), decide_False by done.
  destruct (age_loop_run c i I g Hwf (proj1 Hin) Hb HI Hstep) as (c1 & h & -> & Hwf1 & Hf1 & Hb1 & HI1).
  pose proof Hf1 as (HL & HW & _).
  destruct (set_bits_run c1 i w h (λ l, l.{LRUbits := WAYS c}) Hwf1) as (c2 & Hrun & Hwf2 & Hf2 & Hb2);
    [unfold in_cache in *; lia|done|by intros []; unfold blank; rewrite !decide_True by done|].
  exists c2, h. split; [exact Hrun|]. split; [done|]. split; [by etrans|]. split; [|done].
  by apply Hb2.
Qed.

(** a use makes the way the most recently used one and raises no other counter *)
Lemma updateLRU_touch c i w g : cache_wf c → in_cache c i w → bits_are c i g →
  ∃ c' h, updateLRU i w c = Ok (tt, c') ∧ cache_wf c' ∧ lru_frame i c c' ∧ bits_are c' i h ∧
    h w = WAYS c ∧ (∀ v, 0 ≤ v < WAYS c → g v = WAYS c → h v = WAYS c) ∧ (∀ v, v ≠ w → h v ≤ g v).
Proof.
  intros Hwf Hin Hb. destruct (decide (g w = WAYS c)) as [He|Hne].
  - exists c, g. split; [|done]. unfold updateLRU, mbind, M_bind, get.
    destruct (cell_in_cache c i w Hwf Hin) as [cl Hcl].
    by rewrite (of_line_run _ _ _ _ _ Hcl), (bits_at c i g w cl Hb Hcl (proj2 Hin)), decide_True.
  - destruct (updateLRU_run c i w g
      (λ _ h, (∀ v, 0 ≤ v < WAYS c → g v = WAYS c → h v = WAYS c) ∧ ∀ v, h v ≤ g v) Hwf Hin Hb Hne)
      as (c' & h & Hrun & Hwf' & Hf & Hb' & Hk & Hle).
    + by split.
    + intros t way h Ht [Hk Hle] Hway Hat _. split; intros v; [intros Hv Hg|]; case_decide as Hd; subst; auto.
      * specialize (Hk _ Hv Hg). rewrite Hat in Hk by lia. lia.
      * specialize (Hle way). lia.
    + eexists c', _. split; [exact Hrun|]. split; [done|]. split; [done|]. split; [exact Hb'|].
      simpl. rewrite decide_True by done. split; [done|]. split; intros v Hv; [intros Hg|]; case_decide; auto; done.
Qed.

(** *** What every operation keeps *)

(** the size of the cache *)
Definition shaped (L W : Z) (c : ENoCCache) : Prop := cache_wf c ∧ LINES c = L ∧ WAYS c = W.

Section shape.
Context (L W : Z).
(** [m] keeps the shape, and can only fail by an index out of range *)
Definition keeps {A} (m : M ENoCCache A) : Prop := triple_or (only OutOfRange) (shaped L W) m (λ _, shaped L W).

Lemma keeps_ret {A} (a : A) : keeps (mret a).
Proof. apply (triple_or_ret (only OutOfRange) a (λ _, shaped L W)). Qed.
Lemma keeps_bind {A B} (m : M ENoCCache A) (k : A → M ENoCCache B) :
  keeps m → (∀ a, keeps (k a)) → keeps (m ≫= k).
Proof. apply triple_or_bind. Qed.
Lemma keeps_get : keeps get. Proof. by intros c Hc. Qed.
Lemma keeps_when (b : bool) m : keeps m → keeps (when b m). Proof. apply triple_or_when. Qed.

Lemma keeps_of_line {A} i w (g : cacheline → A) : keeps (of_line i w g).
Proof.
  intros c Hc. destruct (cell c i w) as [cl|] eqn:Hcl.
  - by rewrite (of_line_run _ _ _ _ _ Hcl).
  - by rewrite of_line_outside.
Qed.

Lemma keeps_on_line i w g : keeps (on_line i w g).
Proof.
  intros c (Hwf & HL & HW). destruct (cell c i w) as [cl|] eqn:Hcl.
  - rewrite (on_line_run _ _ _ _ _ Hcl). split; [by apply with_cell_wf|done].
  - unfold cell in Hcl. unfold on_line, zoom, zoom_at.
    destruct (Cache c !z i) as [l|]; [|done]. simpl in Hcl. by rewrite Hcl.
Qed.

Lemma keeps_find_way i p : keeps (find_way i p).
Proof.
  apply keeps_bind; [apply keeps_get|]. intros c. generalize (seqZ 0 (WAYS c)) as l.
  induction l as [|w l IH]; [apply keeps_ret|]. apply keeps_bind; [apply keeps_of_line|].
  intros []; [apply keeps_ret|done].
Qed.

Lemma keeps_updateLRU i w : keeps (updateLRU i w).
Proof.
  apply keeps_bind; [apply keeps_get|]. intros c. apply keeps_bind; [apply keeps_of_line|]. intros b.
  case_decide; [apply keeps_ret|]. apply keeps_bind; [|intros; apply keeps_on_line].
  apply triple_or_for_each. intros t _. apply keeps_bind; [apply keeps_get|]. intros c'.
  apply keeps_bind; [apply keeps_find_way|]. intros v. apply keeps_when, keeps_on_line.
Qed.
End shape.

(** The operations that keep an invariant, closed under sequencing by [keeps_steps]. *)
Create HintDb keeps discriminated.
#[export] Hint Constants Opaque : keeps.
#[export] Hint Resolve keeps_ret keeps_get keeps_of_line keeps_on_line keeps_find_way keeps_updateLRU : keeps.

Ltac keeps_step :=
  match goal with
  | |- keeps _ _ (_ ≫= _) => apply keeps_bind; [|intros ?]
  | |- keeps _ _ (when _ _) => apply keeps_when
  | |- keeps _ _ (if decide _ then _ else _) => case_decide
  | |- keeps _ _ (match _ with _ => _ end) => case_match
  | |- keeps _ _ _ => solve [auto with keeps]
  end.
Ltac keeps_steps := repeat keeps_step.

(** *** Address splitting *)

Definition l1_lines : Z := 16484.
Definition l1_ways : Z := 8.
Definition l2_lines : Z := 32968.
Definition l2_ways : Z := 16.

(** the mask with the given bits, and all the values under it *)
Definition mask_of (bits : list Z) : Z := foldr (λ b m, Z.lor (2 ^ b) m) 0 bits.
Definition masked (bits : list Z) : list Z := foldr (λ b l, l ++ (Z.lor (2 ^ b) <$> l)) [0] bits.

Lemma land_bit x b : 0 ≤ b → Z.land x (2 ^ b) = if Z.testbit x b then 2 ^ b else 0.
Proof.
  intros Hb. apply Z.bits_inj'. intros k Hk. rewrite Z.land_spec.
  destruct (decide (k = b)) as [->|Hne].
  - rewrite Z.pow2_bits_true, andb_true_r by done. destruct (Z.testbit x b) eqn:E.
    + by rewrite Z.pow2_bits_true.
    + by rewrite Z.bits_0.
  - rewrite Z.pow2_bits_false, andb_false_r by congruence.
    destruct (Z.testbit x b); [by rewrite Z.pow2_bits_false by congruence|by rewrite Z.bits_0].
Qed.

Lemma land_masked x bits : Forall (λ b, 0 ≤ b) bits → Z.land x (mask_of bits) ∈ masked bits.
Proof.
  induction 1 as [|b bits Hb _ IH]; simpl.
  - rewrite Z.land_0_r. by left.
  - rewrite Z.land_lor_distr_r, land_bit by done. apply elem_of_app.
    destruct (Z.testbit x b); [right|left; by rewrite Z.lor_0_l].
    apply list_elem_of_fmap. by eexists.
Qed.

(** two values with the same bits under the mask *)
Lemma land_mask_ext x y bits :
  Forall (λ b, 0 ≤ b ∧ Z.testbit x b = Z.testbit y b) bits → Z.land x (mask_of bits) = Z.land y (mask_of bits).
Proof.
  induction 1 as [|b bits [Hb He] _ IH]; simpl; [by rewrite !Z.land_0_r|].
  by rewrite !Z.land_lor_distr_r, !land_bit, He, IH by done.
Qed.

Lemma masked_bounds m bits n : m ∈ masked bits → Forall (λ b, 0 ≤ b < n) bits → 0 ≤ n → 0 ≤ m < 2 ^ n.
Proof.
  intros Hm Hb Hn. revert m Hm. induction Hb as [|b bits Hb _ IH]; simpl; intros m.
  - intros ->%list_elem_of_singleton. lia.
  - intros [Hm|(m' & -> & Hm')%list_elem_of_fmap]%elem_of_app; [by apply IH|].
    specialize (IH _ Hm'). assert (0 ≤ 2 ^ b) by lia.
    destruct (decide (Z.lor (2 ^ b) m' = 0)) as [->|Hne]; [lia|].
    assert (0 ≤ Z.lor (2 ^ b) m') by (apply Z.lor_nonneg; lia). split; [done|].
    apply Z.log2_lt_pow2; [lia|]. rewrite Z.log2_lor by lia. rewrite Z.log2_pow2 by lia.
    apply Z.max_lub_lt; [lia|]. destruct (decide (m' = 0)) as [->|]; [simpl; lia|].
    apply Z.log2_lt_pow2; lia.
Qed.

(** the set bits of [LINES - 1] *)
Definition l1_bits : list Z := [0; 1; 5; 6; 14].
Definition l2_bits : list Z := [0; 1; 2; 6; 7; 15].
Lemma l1_mask : l1_lines - 1 = mask_of l1_bits. Proof. reflexivity. Qed.
Lemma l2_mask : l2_lines - 1 = mask_of l2_bits. Proof. reflexivity. Qed.

Lemma index_masked lines bits addr :
  lines - 1 = mask_of bits → Forall (λ b, 0 ≤ b < 31) bits →
  cache_index lines addr = Z.land (Z.shiftr addr 6) (mask_of bits) ∧ cache_index lines addr ∈ masked bits.
Proof.
  intros Hm Hb. unfold cache_index. rewrite Hm.
  assert (Hin : Z.land (Z.shiftr addr 6) (mask_of bits) ∈ masked bits).
  { apply land_masked. eapply Forall_impl; [exact Hb|]. simpl. lia. }
  pose proof (masked_bounds _ _ 31 Hin Hb ltac:(lia)) as Hr.
  rewrite to_int_small by lia. done.
Qed.

(** the caches of the traffic manager *)
Definition is_l1 : ENoCCache → Prop := shaped l1_lines l1_ways.
Definition is_l2 : ENoCCache → Prop := shaped l2_lines l2_ways.

Lemma masked_below bits n m : Forall (λ k, 0 ≤ k < n) (masked bits) → m ∈ masked bits → 0 ≤ m < n.
Proof. rewrite Forall_forall. auto. Qed.

Lemma l1_index_range addr : 0 ≤ cache_index l1_lines addr < l1_lines.
Proof.
  apply (masked_below l1_bits); [|apply (index_masked l1_lines l1_bits addr l1_mask)].
  - apply (bool_decide_unpack _). vm_compute. exact I.
  - apply (bool_decide_unpack _). vm_compute. exact I.
Qed.
Lemma l2_index_range addr : 0 ≤ cache_index l2_lines addr < l2_lines.
Proof.
  apply (masked_below l2_bits); [|apply (index_masked l2_lines l2_bits addr l2_mask)].
  - apply (bool_decide_unpack _). vm_compute. exact I.
  - apply (bool_decide_unpack _). vm_compute. exact I.
Qed.

(** *** Initialisation and replacement *)

Lemma on_line_at c i w g : cache_wf c → in_cache c i w → on_line i w g c = Ok (tt, with_cell c i w g).
Proof.
  intros Hwf Hin. destruct (cell_in_cache c i w Hwf Hin) as [cl Hcl]. by apply (on_line_run _ _ _ cl).
Qed.

Definition reset_line (w : Z) (l : cacheline) : cacheline := l.{LRUbits := w}.{MESIbits := 3}.{cl_tag := 0}.

(** the first [n] lines and the first [m] ways of line [n] are reset *)
Definition reset_until (c : ENoCCache) (n m : Z) (c' : ENoCCache) : Prop :=
  cache_wf c' ∧ LINES c' = LINES c ∧ WAYS c' = WAYS c ∧
  ∀ i w, in_cache c i w →
    cell c' i w = if decide (i < n ∨ i = n ∧ w < m) then reset_line w <$> cell c i w else cell c i w.

Lemma setLRUbitsToWay_run c : cache_wf c → 0 ≤ LINES c →
  ∃ c', setLRUbitsToWay c = Ok (tt, c') ∧ reset_until c (LINES c) 0 c'.
Proof.
  intros Hwf HL. pose proof (proj1 Hwf) as HW. unfold setLRUbitsToWay, mbind, M_bind, get.
  destruct (triple_for_range 0 (LINES c) (λ index, for_range 0 (WAYS c) (λ way,
      on_line index way (reset_line way))) (λ n, reset_until c n 0) HL) with (s := c)
    as ([] & c' & Hrun & Hc'); [| |by exists c'].
  - intros i Hi. eapply triple_conseq with (P' := reset_until c i 0);
      [apply (triple_for_range 0 (WAYS c) _ (λ m, reset_until c i m) HW)|done|].
    + intros w Hw s (Hs & HLs & HWs & Hcells). exists tt, (with_cell s i w (reset_line w)).
      split; [apply on_line_at; [done|unfold in_cache; lia]|]. split; [by apply with_cell_wf|].
      split; [done|]. split; [done|]. intros j v Hjv. rewrite with_cell_cell, Hcells by done.
      repeat case_decide; destruct_and?; subst; done || lia.
    + intros [] s (Hs & HLs & HWs & Hcells). split; [done|]. split; [done|]. split; [done|].
      intros j v Hjv. rewrite Hcells by done. unfold in_cache in Hjv. repeat case_decide; done || lia.
  - split; [done|]. split; [done|]. split; [done|]. intros i w Hin. unfold in_cache in Hin.
    rewrite decide_False by lia. done.
Qed.

Lemma reset_bits c c' i : cache_wf c → 0 ≤ i < LINES c → reset_until c (LINES c) 0 c' → bits_are c' i id.
Proof.
  intros Hwf Hi (_ & HL & HW & Hcells) w Hw. rewrite HW in Hw.
  destruct (cell_in_cache c i w Hwf) as [cl Hcl]; [done|].
  rewrite Hcells, decide_True, Hcl by first [done | left; lia]. done.
Qed.

(** the counters after [k] misses of a fresh line *)
Definition after_misses (ways k v : Z) : Z := if decide (v < k) then ways else v - k.

Lemma find_way_at c i p w : cache_wf c → in_cache c i w →
  (∃ cl, cell c i w = Some cl ∧ p cl = true) →
  (∀ v cl, 0 ≤ v < w → cell c i v = Some cl → p cl = false) → find_way i p c = Ok (w, c).
Proof.
  intros Hwf [Hi Hw] (cl & Hcl & Hp) Hbefore.
  destruct (find_way_run c i p Hwf Hi) as (w' & -> & Hr & Hfound & Hno).
  enough (w' = w) by by subst. destruct (Z.lt_trichotomy w' w) as [Hlt|[?|Hgt]]; [|done|].
  - destruct Hfound as (cl' & Hcl' & Hp'); [lia|]. rewrite (Hbefore w' cl') in Hp'; [done|lia|done].
  - rewrite (Hno w cl) in Hp; [done|lia|done].
Qed.

(** a line none of whose ways satisfies [p] *)
Lemma find_way_none c i p : cache_wf c → 0 ≤ i < LINES c →
  (∀ v cl, 0 ≤ v < WAYS c → cell c i v = Some cl → p cl = false) → find_way i p c = Ok (WAYS c, c).
Proof.
  intros Hwf Hi Hno. destruct (find_way_run c i p Hwf Hi) as (w & -> & Hr & Hfound & _).
  destruct (decide (w < WAYS c)) as [Hlt|]; [|by replace w with (WAYS c) by lia].
  destruct (Hfound Hlt) as (cl & Hcl & Hp). rewrite (Hno w cl) in Hp; [done|lia|done].
Qed.

Lemma miss_run c i k : cache_wf c → 0 ≤ i < LINES c → 0 ≤ k < WAYS c →
  bits_are c i (after_misses (WAYS c) k) →
  ∃ c', (w ← checkLRU i; updateLRU i w ;; mret w) c = Ok (k, c') ∧ cache_wf c' ∧ lru_frame i c c' ∧
    bits_are c' i (after_misses (WAYS c) (k + 1)).
Proof.
  intros Hwf Hi Hk Hb. unfold checkLRU, mbind, M_bind.
  rewrite (find_way_at c i _ k Hwf).
  - destruct (updateLRU_run c i k _ (λ t h, ∀ v, 0 ≤ v < WAYS c →
      h v = if decide (v < k) then WAYS c else if decide (v - k < t) then v - k - 1 else v - k) Hwf
      ltac:(split; lia) Hb) as (c' & h & -> & Hwf' & Hf & Hb' & Hh).
    + unfold after_misses. rewrite decide_False; lia.
    + intros v Hv. unfold after_misses. repeat case_decide; lia.
    + intros t way h Ht Hh Hway Hat Hbefore v Hv.
      assert (Hx : k + t < WAYS c → way = k + t).
      { intros Hlt. destruct (decide (way < WAYS c)) as [Hw|Hw].
        - specialize (Hat Hw). rewrite Hh in Hat by lia. repeat case_decide; lia.
        - exfalso. apply (Hbefore (k + t)); [lia|]. rewrite Hh by lia. repeat case_decide; lia. }
      assert (Hy : way < WAYS c → k + t < WAYS c).
      { intros Hw. specialize (Hat Hw). rewrite Hh in Hat by lia. repeat case_decide; lia. }
      specialize (Hh v Hv). repeat case_decide; lia.
    + exists c'. split; [done|]. split; [done|]. split; [done|].
      intros v Hv. rewrite Hb' by done. f_equal. rewrite (proj1 (proj2 Hf)) in Hv.
      specialize (Hh v Hv). unfold after_misses. repeat case_decide; lia.
  - split; lia.
  - destruct (cell_in_cache c i k Hwf) as [cl Hcl]; [split; lia|]. exists cl. split; [done|].
    apply bool_decide_eq_true. rewrite (bits_at c i _ k cl Hb Hcl Hk). unfold after_misses. case_decide; lia.
  - intros v cl Hv Hcl. apply bool_decide_eq_false. rewrite (bits_at c i _ v cl Hb Hcl) by lia.
    unfold after_misses. case_decide; lia.
Qed.

Lemma new_cache_wf raw lines ways : 0 ≤ lines → 0 ≤ ways → cache_wf (ENoCCache_ENoCCache raw lines ways).
Proof.
  intros Hl Hw. unfold cache_wf, zlength. simpl. split; [done|]. split.
  - rewrite length_fmap, length_seqZ. lia.
  - apply Forall_fmap, Forall_forall. intros i _. simpl. rewrite length_fmap, length_seqZ. lia.
Qed.

(** a miss: the victim is looked up and becomes the most recently used way *)
Definition miss (i : Z) : M ENoCCache Z := w ← checkLRU i; updateLRU i w ;; mret w.

Lemma misses_run i (n : nat) : ∀ c k, cache_wf c → 0 ≤ i < LINES c → 0 ≤ k → k + Z.of_nat n = WAYS c →
  bits_are c i (after_misses (WAYS c) k) →
  ∃ c', map_M (λ _, miss i) (seqZ k (Z.of_nat n)) c = Ok (seqZ k (Z.of_nat n), c') ∧ cache_wf c' ∧
    lru_frame i c c' ∧ bits_are c' i (λ _, WAYS c).
Proof.
  induction n as [|n IH]; intros c k Hwf Hi Hk Hn Hb.
  - exists c. split; [done|]. split; [done|]. split; [done|]. intros v Hv. rewrite (Hb v Hv).
    unfold after_misses. rewrite decide_True by lia. done.
  - rewrite seqZ_cons by lia. replace (Z.pred (Z.of_nat (S n))) with (Z.of_nat n) by lia. simpl.
    destruct (miss_run c i k Hwf Hi ltac:(lia) Hb) as (c1 & Hrun & Hwf1 & Hf1 & Hb1).
    pose proof Hf1 as (HL & HW & _).
    destruct (IH c1 (Z.succ k)) as (c2 & Hrun2 & Hwf2 & Hf2 & Hb2); [done|lia|lia|lia|by rewrite HW|].
    exists c2. split; [|split; [done|split; [by etrans|by rewrite HW in Hb2]]].
    unfold mbind at 1, M_bind at 1. unfold miss at 1. rewrite Hrun. unfold mbind, M_bind. by rewrite Hrun2.
Qed.

Lemma exhausted_faults c i : cache_wf c → 0 ≤ i < LINES c → bits_are c i (λ _, WAYS c) →
  checkLRU i c = Ok (WAYS c, c) ∧ miss i c = Fault OutOfRange.
Proof.
  intros Hwf Hi Hb.
  assert (Hc : checkLRU i c = Ok (WAYS c, c)).
  { apply find_way_none; [done..|]. intros v cl Hv Hcl. apply bool_decide_eq_false.
    rewrite (bits_at c i _ v cl Hb Hcl Hv). lia. }
  split; [done|]. unfold miss, mbind, M_bind. rewrite Hc. unfold updateLRU, mbind, M_bind, get.
  rewrite of_line_outside; [done|]. unfold cell. destruct Hwf as (Hn & Hl & Hw).
  destruct (Cache c !z i) as [l|] eqn:El; [|done]. simpl. apply vlookup_None.
  rewrite (Forall_vlookup _ _ _ _ Hw El). lia.
Qed.

(** ** Properties *)

(** C37: The replacement counters run out: once every way of a line has
    been used, in any order and with any repetitions, all its counters are equal to
    [WAYS], none is 0, [checkLRU] answers [WAYS], and the next miss in the line
    indexes the line outside its ways. *)
Theorem lru_counters_run_out (c : ENoCCache) (i : Z) (ws : list Z) :
  cache_wf c → 0 ≤ i < LINES c → (∀ w, w ∈ ws ↔ 0 ≤ w < WAYS c) →
  ∃ c', for_each ws (updateLRU i) c = Ok (tt, c') ∧ cache_wf c' ∧
    checkLRU i c' = Ok (WAYS c, c') ∧ miss i c' = Fault OutOfRange.
Proof.
  intros Hwf Hi Hws.
  assert (∃ g, bits_are c i g) as [g0 Hb0].
  { exists (λ v, default 0 (LRUbits <$> cell c i v)). intros v Hv.
    destruct (cell_in_cache c i v Hwf) as [cl Hcl]; [done|]. by rewrite Hcl. }
  destruct (triple_for_each ws (updateLRU i) (λ pre s, cache_wf s ∧ lru_frame i c s ∧
    ∃ g, bits_are s i g ∧ ∀ w, w ∈ pre → g w = WAYS c)) with (s := c)
    as ([] & c' & Hrun & Hwf' & Hf & g & Hb & Hg).
  - intros pre w post Heq s (Hs & Hf & g & Hb & Hg). pose proof Hf as (HL & HW & _).
    assert (Hw : 0 ≤ w < WAYS c) by (apply Hws; rewrite Heq; set_solver).
    destruct (updateLRU_touch s i w g Hs ltac:(split; lia) Hb) as (s' & h & Hrun & Hs' & Hf' & Hb' & Hh & Hk & _).
    exists tt, s'. split; [done|]. split; [done|]. split; [by etrans|]. exists h. split; [done|].
    intros v [Hv| ->%list_elem_of_singleton]%elem_of_app; [|congruence].
    rewrite HW in Hk. apply Hk; [apply Hws; rewrite Heq; set_solver|auto].
  - split; [done|]. split; [done|]. exists g0. split; [done|]. intros w Hw. by apply elem_of_nil in Hw.
  - pose proof Hf as (HL & HW & _). exists c'. split; [done|]. split; [done|]. rewrite <-HW.
    apply exhausted_faults; [done|lia|]. intros v Hv. rewrite (Hb v Hv), HW. f_equal. apply Hg, Hws. lia.
Qed.

Definition small_cache : ENoCCache := ENoCCache_ENoCCache (λ _ w, mkcacheline 3 w 0 0 0 false) 2 2.

Lemma lru_counters_run_out_witness :
  ∃ c', for_each [1; 0; 1] (updateLRU 1) small_cache = Ok (tt, c') ∧ miss 1 c' = Fault OutOfRange.
Proof.
  destruct (lru_counters_run_out small_cache 1 [1; 0; 1]) as (c' & H1 & _ & _ & H2).
  - split; [discriminate|]. split; [reflexivity|]. repeat constructor.
  - vm_compute. split; [discriminate|reflexivity].
  - intros w. change (WAYS small_cache) with 2. rewrite !elem_of_cons, elem_of_nil. lia.
  - exists c'. split; [exact H1|exact H2].
Defined.

(** After [setLRUbitsToWay], from any uninitialised memory, the
    misses of a line replace its ways [0], [1], ..., [WAYS - 1] in that
    order, each exactly once, without a fault and without touching another line;
    the miss after them has no way left and faults. *)
Theorem fresh_cache_fills_in_order (raw : Z → Z → cacheline) (lines ways i : Z) :
  0 ≤ ways → 0 ≤ i < lines →
  ∃ c0 c, setLRUbitsToWay (ENoCCache_ENoCCache raw lines ways) = Ok (tt, c0) ∧
    map_M (λ _, miss i) (seqZ 0 ways) c0 = Ok (seqZ 0 ways, c) ∧
    (∀ j v, j ≠ i → cell c j v = cell c0 j v) ∧ miss i c = Fault OutOfRange.
Proof.
  intros Hw Hi. set (c := ENoCCache_ENoCCache raw lines ways).
  assert (Hwf : cache_wf c) by (apply new_cache_wf; lia).
  destruct (setLRUbitsToWay_run c Hwf ltac:(simpl; lia)) as (c0 & Hrun0 & Hreset).
  pose proof Hreset as (Hwf0 & HL & HW & _). pose proof (reset_bits c c0 i Hwf Hi Hreset) as Hb.
  destruct (misses_run i (Z.to_nat ways) c0 0 Hwf0) as (c1 & Hrun & Hwf1 & Hf & Hb1);
    [by rewrite HL|lia|rewrite HW; simpl; lia| |].
  - intros v Hv. rewrite (Hb v Hv). unfold after_misses, id. rewrite decide_False by lia. f_equal. lia.
  - rewrite Z2Nat.id in Hrun by done. pose proof Hf as (HL1 & HW1 & Hcells).
    exists c0, c1. split; [done|]. split; [done|]. split.
    + intros j v Hj. specialize (Hcells j v). unfold blank in Hcells.
      destruct (cell c1 j v), (cell c0 j v); simpl in Hcells; rewrite ?decide_False in Hcells by done; done.
    + apply exhausted_faults; [done|rewrite HL1, HL; done|]. by rewrite HW1.
Qed.

Lemma fresh_cache_fills_in_order_witness :
  ∃ c0 c, setLRUbitsToWay small_cache = Ok (tt, c0) ∧
    map_M (λ _, miss 1) [0; 1] c0 = Ok ([0; 1], c) ∧ miss 1 c = Fault OutOfRange.
Proof.
  destruct (fresh_cache_fills_in_order (λ _ w, mkcacheline 3 w 0 0 0 false) 2 2 1)
    as (c0 & c & H1 & H2 & _ & H3); [lia|lia|].
  exists c0, c. split; [exact H1|]. split; [exact H2|exact H3].
Defined.

(** The index the callers compute is always a line of the cache,
    but since the numbers of lines, 16484 and 32968, are not powers of
    two, [& (LINES - 1)] reaches only 32 lines of an L1 and 64 lines of an
    L2 cache, whatever the address. *)
Theorem index_reaches_few_lines :
  ∃ l1 l2 : list Z, length l1 = 32%nat ∧ length l2 = 64%nat ∧
    ∀ addr, 0 ≤ cache_index l1_lines addr < l1_lines ∧ cache_index l1_lines addr ∈ l1 ∧
      0 ≤ cache_index l2_lines addr < l2_lines ∧ cache_index l2_lines addr ∈ l2.
Proof.
  exists (masked l1_bits), (masked l2_bits). split; [reflexivity|]. split; [reflexivity|].
  intros addr. split; [apply l1_index_range|]. split.
  - apply (index_masked l1_lines l1_bits addr l1_mask). apply (bool_decide_unpack _). exact I.
  - split; [apply l2_index_range|].
    apply (index_masked l2_lines l2_bits addr l2_mask). apply (bool_decide_unpack _). exact I.
Qed.

(** Two addresses of the same mebibyte that agree in the bits 6, 7, 8,
    11, 12 and 13 are the same line to every cache: they have the same tag and
    the same index in the L1 and the L2 caches, whatever their
    other bits, so a lookup of one finds the data of the other. *)
Theorem addresses_alias (a b : Z) :
  Z.shiftr a 20 = Z.shiftr b 20 →
  Forall (λ k, Z.testbit a k = Z.testbit b k) [6; 7; 8; 11; 12; 13] →
  cache_tag a = cache_tag b ∧ cache_index l1_lines a = cache_index l1_lines b ∧
  cache_index l2_lines a = cache_index l2_lines b ∧
  ∀ c, checkTag (cache_index l1_lines a) (cache_tag a) c = checkTag (cache_index l1_lines b) (cache_tag b) c.
Proof.
  intros Ht Hbits. assert (H1 : cache_tag a = cache_tag b) by (unfold cache_tag; by rewrite Ht).
  assert (Hhigh : ∀ k, 0 ≤ k → Z.testbit a (k + 20) = Z.testbit b (k + 20)).
  { intros k Hk. by rewrite <-!Z.shiftr_spec, Ht by done. }
  pose proof (Hhigh 0 ltac:(lia)). pose proof (Hhigh 1 ltac:(lia)).
  assert (H2 : cache_index l1_lines a = cache_index l1_lines b).
  { unfold cache_index. f_equal. rewrite l1_mask. apply land_mask_ext. decompose_Forall_hyps.
    repeat constructor; try lia; rewrite !Z.shiftr_spec by lia; done. }
  assert (H3 : cache_index l2_lines a = cache_index l2_lines b).
  { unfold cache_index. f_equal. rewrite l2_mask. apply land_mask_ext. decompose_Forall_hyps.
    repeat constructor; try lia; rewrite !Z.shiftr_spec by lia; done. }
  split; [done|]. split; [done|]. split; [done|]. intros c. by rewrite H1, H2.
Qed.

Lemma addresses_alias_witness :
  cache_tag 0 = cache_tag 512 ∧ ∀ c, checkTag (cache_index l1_lines 0) (cache_tag 0) c =
    checkTag (cache_index l1_lines 512) (cache_tag 512) c.
Proof.
  destruct (addresses_alias 0 512) as (H1 & _ & _ & H2); [reflexivity|repeat constructor|].
  split; [exact H1|exact H2].
Defined.
