(* ===== verification/Directory.v ===== *)
(** * The directory ([ENoC_Dir.h], [ENoC_Dir.cpp], [ENoCCache::sendSharedData])

    One row per known address: the address and one owner state per node.
    The handlers change the caches of all nodes and queue
    messages in the packet table of the traffic manager; [MemSystem] is the state they
    share. *)

From S2P Require Import Prelude Double NoCMain Stats MemPacket Cache.

Record ENoCDir := mkENoCDir {
  dir_lines : list (list Z);
  L1DLines : list Z;
  L1ILines : list Z;
  L2Lines : list Z;
  L1DWays : list Z;
  L1IWays : list Z;
  L2Ways : list Z;
}.
#[export] Instance ENoCDir_settable : Settable ENoCDir := λ r,
  mkENoCDir (dir_lines r) (L1DLines r) (L1ILines r) (L2Lines r) (L1DWays r) (L1IWays r) (L2Ways r).

(** The part of a [TrafficManager] that the handlers reach. *)
Record MemSystem := mkMemSystem {
  L1DCache : list ENoCCache;
  L1ICache : list ENoCCache;
  L2Cache : list ENoCCache;
  Directory : ENoCDir;
  packet_table : list (list (list PacketNoC));
}.
#[export] Instance MemSystem_settable : Settable MemSystem := λ r,
  mkMemSystem (L1DCache r) (L1ICache r) (L2Cache r) (Directory r) (packet_table r).

(** a method of the cache of a node *)
Definition on_L1D {A} (node : Z) (m : M ENoCCache A) : M MemSystem A :=
  zoom L1DCache (λ v s, s.{L1DCache := v}) (zoom_at node m).
Definition on_L1I {A} (node : Z) (m : M ENoCCache A) : M MemSystem A :=
  zoom L1ICache (λ v s, s.{L1ICache := v}) (zoom_at node m).
Definition on_L2 {A} (node : Z) (m : M ENoCCache A) : M MemSystem A :=
  zoom L2Cache (λ v s, s.{L2Cache := v}) (zoom_at node m).

(** [packet_table[src][type].push(pk)] *)
Definition push_packet (src type : Z) (pk : PacketNoC) : M MemSystem unit :=
  zoom packet_table (λ t s, s.{packet_table := t})
    (zoom_at src (zoom_at type (modify (λ q, q ++ [pk])))).

Definition on_dir_lines {A} (m : M (list (list Z)) A) : M MemSystem A :=
  zoom (λ s, dir_lines (Directory s)) (λ l s, s.{Directory ::= λ d, d.{dir_lines := l} }) m.
(** [lines[index][slot]] *)
Definition get_owner (index slot : Z) : M MemSystem Z :=
  on_dir_lines (l ← get; row ← lift (vget l index); lift (vget row slot)).
Definition set_owner (index slot x : Z) : M MemSystem unit :=
  on_dir_lines (zoom_at index (zoom_at slot (put x))).

(** [ENoCDir::ENoCDir] *)
Definition ENoCDir_ENoCDir (L1D L1I L2 : list ENoCCache) : res ENoCDir :=
  let each {A} (f : ENoCCache → A) (l : list ENoCCache) :=
    fold_res (λ i acc, c ← vget l i; Ok (acc ++ [f c])) (seqZ 0 NUMBER_OF_NODES) [] in
  l1d ← each LINES L1D; l1i ← each LINES L1I; l2 ← each LINES L2;
  w1d ← each WAYS L1D; w1i ← each WAYS L1I; w2 ← each WAYS L2;
  Ok (mkENoCDir (replicate (Z.to_nat NUMBER_OF_NODES) (replicate (Z.to_nat (NUMBER_OF_NODES + 1)) 0))
        l1d l1i l2 w1d w1i w2).

(** [((int)pkt->req->masterId()) % 6] *)
Definition node_of (pkt : Packet) : Z := Z.rem (masterId (req pkt)) 6.

(** the row of an address: [lines[i][0] == addr] *)
Fixpoint find_entry (addr : Z) (l : list (list Z)) (i : Z) : res (option Z) :=
  match l with
  | [] => Ok None
  | row :: l' => a ← vget row 0; if decide (a = addr) then Ok (Some i) else find_entry addr l' (i + 1)
  end.

(** [newline]: zeros, the address, and [E] for the node *)
Definition newline (addr node : Z) : res (list Z) :=
  row ← vset (replicate (Z.to_nat (NUMBER_OF_NODES + 1)) 0) 0 addr;
  vset row node MESI_E.
Definition add_newline (addr node : Z) : M MemSystem unit :=
  row ← lift (newline addr node);
  on_dir_lines (modify (λ l, l ++ [row])).

(** the index computed from the line count the directory recorded for the node *)
Definition dir_index_of (field : ENoCDir → list Z) (node addr : Z) : M MemSystem Z :=
  d ← gets Directory;
  n ← lift (vget (field d) node);
  mret (cache_index n addr).

(** the chain of [if]s over [dir_index] *)
Definition from_directory (dir_index : Z) (pk : PacketNoC) : PacketNoC :=
  if decide (dir_index = 0) then pk.{pk_src_id := DIRECTORY_ADDRESS_0}
  else if decide (dir_index = 1) then pk.{pk_src_id := DIRECTORY_ADDRESS_1}
  else if decide (dir_index = 2) then pk.{pk_src_id := DIRECTORY_ADDRESS_2}
  else if decide (dir_index = 3) then pk.{pk_src_id := DIRECTORY_ADDRESS_3}
  else pk.

(** [if (way < WAYS) Cache[index][way].MESIbits = x] *)
Definition mark (index way x : Z) : M ENoCCache unit :=
  c ← get;
  when (bool_decide (way < WAYS c)) (on_line index way (λ l, l.{MESIbits := x})).

Section handlers.
(** the storage of the local [PacketNoC], whose [string] member is empty *)
Variable raw : PacketNoC.
Definition PacketNoC_PacketNoC : PacketNoC := raw.{pk_data := [] }.

(** the body of the loop of [invalidatePacket] for an owner [i] *)
Definition invalidate_node (L1Dindex L1Iindex L2index tag time dir_index i : Z) : M MemSystem unit :=
  L1Iway ← on_L1I i (checkTag L1Iindex tag);
  L1Dway ← on_L1D i (checkTag L1Dindex tag);
  L2way ← on_L2 i (checkTag L2index tag);
  on_L1D i (mark L1Dindex L1Dway MESI_I) ;;
  on_L1I i (mark L1Iindex L1Iway MESI_I) ;;
  on_L2 i (mark L2index L2way MESI_I) ;;
  let packetNoC := (from_directory dir_index PacketNoC_PacketNoC)
    .{pk_dst_id := i}.{pk_time := to_int (time + 5)}.{pk_packet_type := 4} in
  push_packet (pk_src_id packetNoC) 2 packetNoC.

Definition invalidatePacket (pkt : Packet) (time dir_index : Z) : M MemSystem unit :=
  a ← lift (getAddr pkt);
  let addr := to_int a in
  let node := node_of pkt in
  let tag := cache_tag a in
  L1Dindex ← dir_index_of L1DLines node a;
  L1Iindex ← dir_index_of L1ILines node a;
  L2index ← dir_index_of L2Lines node a;
  l ← gets (λ s, dir_lines (Directory s));
  found ← lift (find_entry addr l 0);
  match found with
  | Some index =>
      for_range 0 NUMBER_OF_NODES (λ i,
        owner ← get_owner index (i + 1);
        when (bool_decide (owner ≠ MESI_I))
          (invalidate_node L1Dindex L1Iindex L2index tag time dir_index i ;;
           set_owner index (i + 1) MESI_I)) ;;
      set_owner index node MESI_E
  | None => add_newline addr node
  end.

(** [ENoCCache::sendSharedData] of the L2 cache of node [self] *)
Definition sendSharedData (self src node : Z) (pkt : Packet) (time : Z) : M MemSystem unit :=
  a ← lift (getAddr pkt);
  let addr := to_int a in
  let tag := cache_tag a in
  bytes ← lift (getPtr pkt);
  on_L2 self (
    c ← get;
    let Lindex := cache_index (LINES c) a in
    Lway ← checkTag Lindex tag;
    if decide (Lway < WAYS c) then
      on_line Lindex Lway (λ l, l.{MESIbits := MESI_S}) ;;
      updateLRU Lindex Lway
    else
      Lway ← checkLRU Lindex;
      updateLRU Lindex Lway ;;
      on_line Lindex Lway (λ l, l.{cl_tag := tag}.{cl_address := addr}.{MESIbits := MESI_S})) ;;
  b ← lift (vget bytes 0);
  push_packet src 2 PacketNoC_PacketNoC
    .{pk_src_id := src}.{pk_dst_id := node}.{pk_time := to_int (time + 5)}
    .{pk_data := [b] }.{pk_packet_type := 8}.

(** The loop of [receivePacket] over the owners: the slot at which it stops. *)
Fixpoint find_sharer (index node : Z) (slots : list Z) : M MemSystem (option Z) :=
  match slots with
  | [] => mret None
  | i :: slots' =>
      owner ← get_owner index i;
      if decide (owner = MESI_S) then set_owner index node MESI_S ;; mret (Some i)
      else if decide (owner = MESI_M ∨ owner = MESI_E) then
        set_owner index node MESI_S ;; set_owner index i MESI_S ;; mret (Some i)
      else find_sharer index node slots'
  end.

(** the branch [Sharedfind == true]; the result is its new value *)
Definition share_from (L1Dindex L1Iindex L2index tag i node : Z) (pkt : Packet) (time dir_index : Z) :
    M MemSystem bool :=
  L1Iway ← on_L1I i (checkTag L1Iindex tag);
  L1Dway ← on_L1D i (checkTag L1Dindex tag);
  L2way ← on_L2 i (checkTag L2index tag);
  on_L1D i (mark L1Dindex L1Dway MESI_S) ;;
  on_L1I i (mark L1Iindex L1Iway MESI_S) ;;
  ways ← on_L2 i (gets WAYS);
  if decide (L2way < ways) then
    on_L2 i (on_line L2index L2way (λ l, l.{MESIbits := MESI_S})) ;;
    sendSharedData i i node pkt (to_int (time + 5)) ;;
    let packetNoC := (from_directory dir_index PacketNoC_PacketNoC)
      .{pk_dst_id := i}.{pk_time := to_int (time + 5)}.{pk_packet_type := 5} in
    push_packet (pk_src_id packetNoC) 2 packetNoC ;;
    mret true
  else mret false.

(** [if (way < WAYS) { MESIbits = E; updateLRU }] of an L1 cache *)
Definition fill_exclusive (index way : Z) : M ENoCCache unit :=
  c ← get;
  when (bool_decide (way < WAYS c))
    (on_line index way (λ l, l.{MESIbits := MESI_E}) ;; updateLRU index way).

(** the branch [Sharedfind == false]: the line comes from memory *)
Definition fetch_from_memory (L1Dindex L1Iindex L2index tag node : Z) (pkt : Packet) (time dir_index : Z) :
    M MemSystem unit :=
  a ← lift (getAddr pkt);
  L1Iway ← on_L1I node (checkTag L1Iindex tag);
  L1Dway ← on_L1D node (checkTag L1Dindex tag);
  L2way ← on_L2 node (checkTag L2index tag);
  (if isInstFetch (req pkt) then on_L1I node (fill_exclusive L1Iindex L1Iway)
   else on_L1D node (fill_exclusive L1Dindex L1Dway)) ;;
  on_L2 node (
    c ← get;
    if decide (L2way < WAYS c) then
      on_line L2index L2way (λ l, l.{MESIbits := MESI_E}) ;;
      updateLRU L2index L2way
    else
      L2way ← checkLRU L2index;
      updateLRU L2index L2way ;;
      on_line L2index L2way (λ l, l.{cl_tag := tag}.{cl_address := to_int a}.{MESIbits := MESI_E})) ;;
  let packetNoC := (from_directory dir_index PacketNoC_PacketNoC)
    .{pk_dst_id := to_int (Z.shiftr a 26)}.{pk_time := to_int (time + 5)}.{pk_packet_type := 6} in
  push_packet (pk_src_id packetNoC) 1 packetNoC ;;
  bytes ← lift (getPtr pkt);
  b ← lift (vget bytes 0);
  push_packet (Z.shiftr a 26) 2 packetNoC
    .{pk_src_id := to_int (Z.shiftr a 26)}.{pk_dst_id := node}.{pk_time := to_int (time + 10)}
    .{pk_data := [b] }.{pk_packet_type := 7}.

Definition receivePacket (pkt : Packet) (time dir_index : Z) : M MemSystem unit :=
  a ← lift (getAddr pkt);
  let addr := to_int a in
  let node := node_of pkt in
  let tag := cache_tag a in
  L1Dindex ← dir_index_of L1DLines node a;
  L1Iindex ← dir_index_of L1ILines node a;
  L2index ← dir_index_of L2Lines node a;
  l ← gets (λ s, dir_lines (Directory s));
  found ← lift (find_entry addr l 0);
  sharer ← match found with
           | Some index => find_sharer index node (seqZ 1 NUMBER_OF_NODES)
           | None => add_newline addr node ;; mret None
           end;
  shared ← match sharer with
           | Some slot => share_from L1Dindex L1Iindex L2index tag (slot - 1) node pkt time dir_index
           | None => mret false
           end;
  if (shared : bool) then mret tt
  else fetch_from_memory L1Dindex L1Iindex L2index tag node pkt time dir_index.

Definition evictPacket (pkt : Packet) : M MemSystem unit :=
  a ← lift (getAddr pkt);
  let addr := to_int a in
  let node := node_of pkt in
  l ← gets (λ s, dir_lines (Directory s));
  found ← lift (find_entry addr l 0);
  match found with
  | Some index => set_owner index node MESI_I
  | None => add_newline addr node
  end.
End handlers.

(** ** Lemmas: one cache of the system *)

Lemma on_L1D_run {A} n (m : M ENoCCache A) s c a c' :
  L1DCache s !z n = Some c → m c = Ok (a, c') →
  on_L1D n m s = Ok (a, s.{L1DCache := vinsert n c' (L1DCache s)}).
Proof. intros Hc Hm. unfold on_L1D, zoom. rewrite (zoom_at_Some _ _ _ _ Hc), Hm. done. Qed.
Lemma on_L1I_run {A} n (m : M ENoCCache A) s c a c' :
  L1ICache s !z n = Some c → m c = Ok (a, c') →
  on_L1I n m s = Ok (a, s.{L1ICache := vinsert n c' (L1ICache s)}).
Proof. intros Hc Hm. unfold on_L1I, zoom. rewrite (zoom_at_Some _ _ _ _ Hc), Hm. done. Qed.
Lemma on_L2_run {A} n (m : M ENoCCache A) s c a c' :
  L2Cache s !z n = Some c → m c = Ok (a, c') →
  on_L2 n m s = Ok (a, s.{L2Cache := vinsert n c' (L2Cache s)}).
Proof. intros Hc Hm. unfold on_L2, zoom. rewrite (zoom_at_Some _ _ _ _ Hc), Hm. done. Qed.

Lemma on_L1D_read {A} n (m : M ENoCCache A) s c a :
  L1DCache s !z n = Some c → m c = Ok (a, c) → on_L1D n m s = Ok (a, s).
Proof. intros Hc Hm. rewrite (on_L1D_run _ _ _ _ _ _ Hc Hm), vinsert_id by done. by destruct s. Qed.
Lemma on_L1I_read {A} n (m : M ENoCCache A) s c a :
  L1ICache s !z n = Some c → m c = Ok (a, c) → on_L1I n m s = Ok (a, s).
Proof. intros Hc Hm. rewrite (on_L1I_run _ _ _ _ _ _ Hc Hm), vinsert_id by done. by destruct s. Qed.
Lemma on_L2_read {A} n (m : M ENoCCache A) s c a :
  L2Cache s !z n = Some c → m c = Ok (a, c) → on_L2 n m s = Ok (a, s).
Proof. intros Hc Hm. rewrite (on_L2_run _ _ _ _ _ _ Hc Hm), vinsert_id by done. by destruct s. Qed.

(** ** The line of a tag *)

(** the line [checkTag] finds *)
Definition lookup_tag (index tag : Z) (c : ENoCCache) : option cacheline :=
  match checkTag index tag c with Ok (w, _) => cell c index w | Fault _ => None end.
(** the cache with another MESI state for that line *)
Definition set_mesi (index tag x : Z) (c : ENoCCache) : ENoCCache :=
  match checkTag index tag c with
  | Ok (w, _) => if decide (w < WAYS c) then with_cell c index w (λ l, l.{MESIbits := x}) else c
  | Fault _ => c
  end.

Lemma cell_outside c i w : cache_wf c → WAYS c ≤ w → cell c i w = None.
Proof.
  intros (_ & _ & Hw) Hout. unfold cell. destruct (Cache c !z i) as [l|] eqn:El; [|done]. simpl.
  apply vlookup_None. rewrite (Forall_vlookup _ _ _ _ Hw El). lia.
Qed.

Lemma checkTag_run c i tag : cache_wf c → 0 ≤ i < LINES c →
  ∃ w, checkTag i tag c = Ok (w, c) ∧ 0 ≤ w ≤ WAYS c.
Proof. intros Hwf Hi. destruct (find_way_run c i (λ l, bool_decide (cl_tag l = tag)) Hwf Hi) as (w & Hw & Hr & _). by exists w. Qed.

Lemma mark_run c i tag w x : cache_wf c → 0 ≤ i < LINES c → checkTag i tag c = Ok (w, c) → 0 ≤ w →
  mark i w x c = Ok (tt, set_mesi i tag x c).
Proof.
  intros Hwf Hi Hw Hr. unfold mark, set_mesi, mbind, M_bind, get. rewrite Hw.
  case_decide as Hlt; [rewrite bool_decide_true by done|by rewrite bool_decide_false].
  simpl. apply on_line_at; [done|split; lia].
Qed.

Lemma set_mesi_shape i tag x c : LINES (set_mesi i tag x c) = LINES c ∧ WAYS (set_mesi i tag x c) = WAYS c.
Proof. unfold set_mesi. destruct (checkTag i tag c) as [[w c']|]; [|done]. by case_decide. Qed.
Lemma set_mesi_wf i tag x c : cache_wf c → cache_wf (set_mesi i tag x c).
Proof.
  intros Hwf. unfold set_mesi. destruct (checkTag i tag c) as [[w c']|]; [|done].
  case_decide; [by apply with_cell_wf|done].
Qed.

(** an update that keeps the tags does not change what [checkTag] finds *)
Lemma checkTag_ext c c' i tag : cache_wf c → cache_wf c' → 0 ≤ i < LINES c → LINES c' = LINES c →
  WAYS c' = WAYS c → (∀ v, cl_tag <$> cell c' i v = cl_tag <$> cell c i v) →
  ∀ w, checkTag i tag c = Ok (w, c) → checkTag i tag c' = Ok (w, c').
Proof.
  intros Hwf Hwf' Hi HL HW Htag w Hw.
  destruct (find_way_run c i (λ l, bool_decide (cl_tag l = tag)) Hwf Hi) as (v & Hv & Hr & Hfound & Hno).
  unfold checkTag in Hw. assert (v = w) as -> by congruence.
  assert (Hcell : ∀ v cl, cell c' i v = Some cl → ∃ cl0, cell c i v = Some cl0 ∧ cl_tag cl0 = cl_tag cl).
  { intros v cl Hcl. specialize (Htag v). rewrite Hcl in Htag.
    destruct (cell c i v) as [cl0|]; simplify_eq/=. by exists cl0. }
  assert (Hbefore : ∀ v cl, 0 ≤ v < w → cell c' i v = Some cl → bool_decide (cl_tag cl = tag) = false).
  { intros v cl Hv' Hcl. destruct (Hcell v cl Hcl) as (cl0 & Hcl0 & <-). by apply (Hno v). }
  destruct (decide (w < WAYS c)) as [Hlt|].
  - apply find_way_at; [done|split; lia| |done]. destruct (Hfound Hlt) as (cl0 & Hcl0 & Ht).
    specialize (Htag w). rewrite Hcl0 in Htag. destruct (cell c' i w) as [cl|]; simplify_eq/=.
    exists cl. split; [done|]. by rewrite Htag.
  - replace w with (WAYS c') by lia. apply find_way_none; [done|lia|].
    intros v cl Hv' Hcl. apply (Hbefore v); [lia|done].
Qed.

Lemma set_mesi_tags i tag x c j v : cl_tag <$> cell (set_mesi i tag x c) j v = cl_tag <$> cell c j v.
Proof.
  unfold set_mesi. destruct (checkTag i tag c) as [[w c']|]; [|done]. case_decide; [|done].
  rewrite with_cell_cell. case_decide; [|done]. by destruct (cell c j v).
Qed.

Lemma lookup_set_mesi i tag x c : cache_wf c → 0 ≤ i < LINES c →
  lookup_tag i tag (set_mesi i tag x c) = (λ l, l.{MESIbits := x}) <$> lookup_tag i tag c.
Proof.
  intros Hwf Hi. destruct (checkTag_run c i tag Hwf Hi) as (w & Hw & Hr).
  pose proof (set_mesi_shape i tag x c) as [HL HW].
  unfold lookup_tag. rewrite (checkTag_ext c (set_mesi i tag x c) i tag Hwf) with (w := w);
    [|by apply set_mesi_wf|done|done|done|intros; apply set_mesi_tags|done].
  rewrite Hw. unfold set_mesi. rewrite Hw. case_decide.
  - rewrite with_cell_cell. by rewrite decide_True.
  - by rewrite cell_outside by first [done | lia].
Qed.

(** ** Lemmas: the packet table *)

Definition queue_at (tb : list (list (list PacketNoC))) (src type : Z) : option (list PacketNoC) :=
  tb !z src ≫= λ t, t !z type.

Definition enqueue (src type : Z) (pks : list PacketNoC) (tb : list (list (list PacketNoC))) :
    list (list (list PacketNoC)) :=
  match tb !z src with
  | Some t => match t !z type with
              | Some q => vinsert src (vinsert type (q ++ pks) t) tb
              | None => tb
              end
  | None => tb
  end.

(** a message of a type the statistics count, with no data, one byte or the
    characters of a whole line; the caches and the directory queue no lines *)
Definition sendable (pk : PacketNoC) : Prop :=
  0 ≤ pk_packet_type pk < Z.of_nat Num_Packet_Types ∧ (zlength (pk_data pk) ≤ 1 ∨ 127 ≤ zlength (pk_data pk)).
Definition node_table_ok (t : list (list PacketNoC)) : Prop := zlength t = 3 ∧ Forall (Forall sendable) t.
(** one queue of messages per node and type *)
Definition table_ok (tb : list (list (list PacketNoC))) : Prop :=
  zlength tb = NUMBER_OF_NODES ∧ Forall node_table_ok tb.

Lemma table_queue tb src type : table_ok tb → 0 ≤ src < NUMBER_OF_NODES → 0 ≤ type < 3 →
  ∃ t q, tb !z src = Some t ∧ t !z type = Some q.
Proof.
  intros [Hl Ht] Hs Hty. destruct (vlookup_in_range tb src) as [t Et]; [lia|].
  destruct (Forall_vlookup _ _ _ _ Ht Et) as [Hlen _].
  destruct (vlookup_in_range t type) as [q Eq]; [lia|]. by exists t, q.
Qed.

Lemma push_packet_run src type pk s :
  table_ok (packet_table s) → 0 ≤ src < NUMBER_OF_NODES → 0 ≤ type < 3 →
  push_packet src type pk s = Ok (tt, s.{packet_table := enqueue src type [pk] (packet_table s)}).
Proof.
  intros Hok Hs Hty. destruct (table_queue _ _ _ Hok Hs Hty) as (t & q & Et & Eq).
  unfold push_packet, zoom, enqueue. rewrite (zoom_at_Some _ _ _ _ Et), (zoom_at_Some _ _ _ _ Eq), Et, Eq.
  done.
Qed.

Lemma enqueue_ok src type pks tb :
  Forall sendable pks → table_ok tb → table_ok (enqueue src type pks tb).
Proof.
  intros Hp [Hl Ht]. unfold enqueue. destruct (tb !z src) as [t|] eqn:Et; [|done].
  destruct (Forall_vlookup _ _ _ _ Ht Et) as [Hlen Hq].
  destruct (t !z type) as [q|] eqn:Eq; [|done]. split; [by rewrite zlength_vinsert|].
  apply Forall_vinsert; [done|]. split; [by rewrite zlength_vinsert|].
  apply Forall_vinsert; [done|]. apply Forall_app. split; [|done]. by apply (Forall_vlookup _ _ _ _ Hq Eq).
Qed.

Lemma enqueue_nil src type tb : enqueue src type [] tb = tb.
Proof.
  unfold enqueue. destruct (tb !z src) as [t|] eqn:Et; [|done].
  destruct (t !z type) as [q|] eqn:Eq; [|done].
  by rewrite app_nil_r, (vinsert_id t), (vinsert_id tb) by done.
Qed.

Lemma enqueue_app src type a b tb : enqueue src type b (enqueue src type a tb) = enqueue src type (a ++ b) tb.
Proof.
  unfold enqueue. destruct (tb !z src) as [t|] eqn:Et; [|by rewrite Et].
  destruct (t !z type) as [q|] eqn:Eq; [|by rewrite Et, Eq].
  rewrite vlookup_vinsert_eq by (by eapply vlookup_Some_range).
  rewrite vlookup_vinsert_eq by (by eapply vlookup_Some_range).
  by rewrite !vinsert_vinsert, <-app_assoc.
Qed.

Lemma queue_enqueue src type pks tb :
  queue_at (enqueue src type pks tb) src type = (λ q, q ++ pks) <$> queue_at tb src type.
Proof.
  unfold queue_at, enqueue. destruct (tb !z src) as [t|] eqn:Et; [|by rewrite Et].
  destruct (t !z type) as [q|] eqn:Eq; simpl; [|by rewrite Et; simpl; rewrite Eq].
  rewrite vlookup_vinsert_eq by (by eapply vlookup_Some_range). simpl.
  rewrite vlookup_vinsert_eq by (by eapply vlookup_Some_range). by rewrite Eq.
Qed.

(** ** Lemmas: sweeps over the nodes *)

(** the caches after the nodes below [j] that satisfy [p] were changed by [f] *)
Definition sweep (p : Z → bool) (f : ENoCCache → ENoCCache) (j : Z) : list ENoCCache → list ENoCCache :=
  imap (λ i c, if decide (Z.of_nat i < j) then if p (Z.of_nat i) then f c else c else c).

Lemma sweep_0 p f l : sweep p f 0 l = l.
Proof.
  unfold sweep. apply list_eq. intros i. rewrite list_lookup_imap. destruct (l !! i); [|done].
  simpl. by rewrite decide_False by lia.
Qed.

Lemma sweep_lookup p f j l i c : l !z i = Some c →
  sweep p f j l !z i = Some (if decide (i < j) then if p i then f c else c else c).
Proof.
  intros Hc. pose proof (vlookup_Some_range _ _ _ Hc). unfold sweep. rewrite vlookup_imap, Hc. simpl.
  by rewrite Z2Nat.id by lia.
Qed.

Lemma sweep_step p f j l c : l !z j = Some c →
  sweep p f (j + 1) l = vinsert j (if p j then f c else c) (sweep p f j l).
Proof.
  intros Hc. pose proof (vlookup_Some_range _ _ _ Hc). unfold sweep.
  etrans; [apply (imap_vinsert (λ i c, if decide (Z.of_nat i < j) then if p (Z.of_nat i) then f c else c else c)
    _ l j c Hc)|].
  - intros i y Hi. simpl. repeat case_decide; done || lia.
  - cbv beta. rewrite Z2Nat.id, decide_True by lia. done.
Qed.

Lemma zlength_sweep p f j l : zlength (sweep p f j l) = zlength l.
Proof. apply zlength_imap. Qed.

Lemma sweep_Forall (P : ENoCCache → Prop) p f j l :
  (∀ c, P c → P (f c)) → Forall P l → Forall P (sweep p f j l).
Proof.
  intros Hf Hl. rewrite Forall_lookup in *. intros i c. unfold sweep. rewrite list_lookup_imap.
  destruct (l !! i) as [c0|] eqn:E; intros; simplify_eq/=. repeat case_match; eauto.
Qed.

(** the row of an address after the owners below [j] were cleared *)
Definition cleared (j : Z) : list Z → list Z :=
  imap (λ k x, if decide (1 ≤ Z.of_nat k ≤ j) then MESI_I else x).

Lemma cleared_0 row : cleared 0 row = row.
Proof.
  unfold cleared. apply list_eq. intros i. rewrite list_lookup_imap. destruct (row !! i); [|done].
  simpl. by rewrite decide_False by lia.
Qed.

Lemma cleared_step j row x : 0 ≤ j → row !z (j + 1) = Some x →
  cleared (j + 1) row = vinsert (j + 1) MESI_I (cleared j row).
Proof.
  intros Hj Hx. unfold cleared. etrans; [apply (imap_vinsert (λ k x, if decide (1 ≤ Z.of_nat k ≤ j) then MESI_I else x)
    _ row (j + 1) x Hx)|].
  - intros i y Hi. simpl. repeat case_decide; done || lia.
  - cbv beta. rewrite decide_True by lia. done.
Qed.

Lemma cleared_lookup j row k x : row !z k = Some x →
  cleared j row !z k = Some (if decide (1 ≤ k ≤ j) then MESI_I else x).
Proof.
  intros Hx. pose proof (vlookup_Some_range _ _ _ Hx). unfold cleared. rewrite vlookup_imap, Hx. simpl.
  by rewrite Z2Nat.id by lia.
Qed.

(** ** The invariant of the memory system *)

Record sys_ok (s : MemSystem) : Prop := {
  sys_l1d : zlength (L1DCache s) = NUMBER_OF_NODES ∧ Forall is_l1 (L1DCache s);
  sys_l1i : zlength (L1ICache s) = NUMBER_OF_NODES ∧ Forall is_l1 (L1ICache s);
  sys_l2 : zlength (L2Cache s) = NUMBER_OF_NODES ∧ Forall is_l2 (L2Cache s);
  sys_rows : Forall (λ row, zlength row = NUMBER_OF_NODES + 1) (dir_lines (Directory s));
  sys_l1d_lines : L1DLines (Directory s) = replicate 64 l1_lines;
  sys_l1i_lines : L1ILines (Directory s) = replicate 64 l1_lines;
  sys_l2_lines : L2Lines (Directory s) = replicate 64 l2_lines;
  sys_table : table_ok (packet_table s);
}.

Lemma sys_caches s n : sys_ok s → 0 ≤ n < NUMBER_OF_NODES →
  ∃ d i l, L1DCache s !z n = Some d ∧ is_l1 d ∧ L1ICache s !z n = Some i ∧ is_l1 i ∧
    L2Cache s !z n = Some l ∧ is_l2 l.
Proof.
  intros [[Hd Fd] [Hi Fi] [Hl Fl] _ _ _ _ _] Hn.
  destruct (vlookup_in_range (L1DCache s) n) as [d Ed]; [lia|].
  destruct (vlookup_in_range (L1ICache s) n) as [i Ei]; [lia|].
  destruct (vlookup_in_range (L2Cache s) n) as [l El]; [lia|].
  pose proof (Forall_vlookup _ _ _ _ Fd Ed). pose proof (Forall_vlookup _ _ _ _ Fi Ei).
  pose proof (Forall_vlookup _ _ _ _ Fl El). by exists d, i, l.
Qed.

Lemma node_of_range pkt : 0 ≤ masterId (req pkt) → 0 ≤ node_of pkt < 6.
Proof. intros H. unfold node_of. rewrite Z.rem_mod_nonneg by lia. apply Z.mod_pos_bound. lia. Qed.

Lemma dir_index_run field n s a lines : field (Directory s) = replicate 64 lines → 0 ≤ n < NUMBER_OF_NODES →
  dir_index_of field n a s = Ok (cache_index lines a, s).
Proof.
  intros Hf Hn. unfold NUMBER_OF_NODES in Hn. unfold dir_index_of, mbind, M_bind, gets, lift. rewrite Hf.
  by rewrite (vget_Some _ _ lines) by (apply vlookup_replicate; lia).
Qed.

Lemma is_l1_index c a : is_l1 c → cache_wf c ∧ 0 ≤ cache_index l1_lines a < LINES c.
Proof. intros (Hwf & -> & _). split; [done|apply l1_index_range]. Qed.
Lemma is_l2_index c a : is_l2 c → cache_wf c ∧ 0 ≤ cache_index l2_lines a < LINES c.
Proof. intros (Hwf & -> & _). split; [done|apply l2_index_range]. Qed.
Lemma is_l1_set_mesi i tag x c : is_l1 c → is_l1 (set_mesi i tag x c).
Proof.
  intros (Hwf & HL & HW). pose proof (set_mesi_shape i tag x c) as [HL' HW'].
  split; [by apply set_mesi_wf|]. split; congruence.
Qed.
Lemma is_l2_set_mesi i tag x c : is_l2 c → is_l2 (set_mesi i tag x c).
Proof.
  intros (Hwf & HL & HW). pose proof (set_mesi_shape i tag x c) as [HL' HW'].
  split; [by apply set_mesi_wf|]. split; congruence.
Qed.

(** *** Owners *)

Lemma get_owner_run s index row slot x :
  dir_lines (Directory s) !z index = Some row → row !z slot = Some x → get_owner index slot s = Ok (x, s).
Proof.
  intros Hr Hx. unfold get_owner, on_dir_lines, zoom, mbind, M_bind, get, lift.
  rewrite (vget_Some _ _ _ Hr), (vget_Some _ _ _ Hx). simpl. destruct s as [? ? ? [] ?]. done.
Qed.
Lemma set_owner_run s index row slot x y :
  dir_lines (Directory s) !z index = Some row → row !z slot = Some x →
  set_owner index slot y s =
    Ok (tt, s.{Directory ::= λ d, d.{dir_lines ::= vinsert index (vinsert slot y row)} }).
Proof.
  intros Hr Hx. unfold set_owner, on_dir_lines, zoom.
  rewrite (zoom_at_Some _ _ _ _ Hr), (zoom_at_Some _ _ _ _ Hx). done.
Qed.

(** [find_entry] finds the first row of the address *)
Lemma find_entry_run addr l : Forall (λ row, zlength row = NUMBER_OF_NODES + 1) l → ∀ i,
  (∃ k row, find_entry addr l i = Ok (Some (i + Z.of_nat k)) ∧ l !! k = Some row ∧ row !z 0 = Some addr ∧
     ∀ j r, (j < k)%nat → l !! j = Some r → r !z 0 ≠ Some addr) ∨
  (find_entry addr l i = Ok None ∧ ∀ r, r ∈ l → r !z 0 ≠ Some addr).
Proof.
  induction 1 as [|row l Hrow _ IH]; intros i; simpl.
  - right. split; [done|]. intros r Hr. by apply elem_of_nil in Hr.
  - destruct (vlookup_in_range row 0) as [a Ha]; [unfold NUMBER_OF_NODES in *; lia|].
    rewrite (vget_Some _ _ _ Ha). simpl. case_decide as Hd.
    + left. subst a. exists 0%nat, row. split; [f_equal; f_equal; lia|]. split; [done|]. split; [done|]. intros; lia.
    + destruct (IH (i + 1)) as [(k & r & -> & Hk & Hr & Hno)|[-> Hno]].
      * left. exists (S k), r. split; [f_equal; f_equal; lia|]. split; [done|]. split; [done|].
        intros [|j] r' Hj Hr'; simplify_eq/=; [congruence|]. apply (Hno j); [lia|done].
      * right. split; [done|]. intros r [->|Hr]%elem_of_cons; [congruence|auto].
Qed.

(** the entry of an address, as an index of the directory *)
Definition entry_at (s : MemSystem) (addr : Z) (index : Z) (row : list Z) : Prop :=
  find_entry addr (dir_lines (Directory s)) 0 = Ok (Some index) ∧
  dir_lines (Directory s) !z index = Some row ∧ row !z 0 = Some addr ∧ zlength row = NUMBER_OF_NODES + 1.

Lemma entry_cases s addr : sys_ok s →
  (∃ index row, entry_at s addr index row) ∨
  (find_entry addr (dir_lines (Directory s)) 0 = Ok None ∧
   ∀ r, r ∈ dir_lines (Directory s) → r !z 0 ≠ Some addr).
Proof.
  intros Hok. pose proof (sys_rows s Hok) as Hrows.
  destruct (find_entry_run addr _ Hrows 0) as [(k & row & Hf & Hk & Hr & _)|]; [left|by right].
  exists (Z.of_nat k), row. split; [done|]. rewrite vlookup_nat. split; [done|]. split; [done|].
  eapply Forall_lookup_1 in Hrows; [|exact Hk]. done.
Qed.

(** ** [invalidatePacket] of a known line *)

(** the node of the directory with this number *)
Definition directory_node (k : Z) : Z := 16 * k + 8.
Lemma from_directory_eq k pk : 0 ≤ k < 4 → from_directory k pk = pk.{pk_src_id := directory_node k}.
Proof.
  intros Hk. assert (k = 0 ∨ k = 1 ∨ k = 2 ∨ k = 3) as [->|[->|[->| ->]]] by lia; reflexivity.
Qed.
Lemma directory_node_range k : 0 ≤ k < 4 → 0 ≤ directory_node k < NUMBER_OF_NODES.
Proof. unfold directory_node, NUMBER_OF_NODES. lia. Qed.

Section invalidate.
Context (raw : PacketNoC) (s : MemSystem) (a time dir_index index : Z) (row : list Z).
Hypothesis Hok : sys_ok s.
Hypothesis Hdir : 0 ≤ dir_index < 4.
Hypothesis Hrow : dir_lines (Directory s) !z index = Some row.
Hypothesis Hlen : zlength row = NUMBER_OF_NODES + 1.

Definition recorded (i : Z) : bool := bool_decide (row !z (i + 1) ≠ Some MESI_I).
Definition drop_l1 : ENoCCache → ENoCCache := set_mesi (cache_index l1_lines a) (cache_tag a) MESI_I.
Definition drop_l2 : ENoCCache → ENoCCache := set_mesi (cache_index l2_lines a) (cache_tag a) MESI_I.
Definition inv_message (i : Z) : PacketNoC :=
  (PacketNoC_PacketNoC raw).{pk_src_id := directory_node dir_index}
    .{pk_dst_id := i}.{pk_time := to_int (time + 5)}.{pk_packet_type := 4}.

Lemma inv_messages_sendable l : Forall sendable (inv_message <$> l).
Proof. apply Forall_fmap, Forall_true. intros i. split; [done|by left]. Qed.

(** the state after the iterations below [j] *)
Definition inv_state (j : Z) : MemSystem :=
  mkMemSystem (sweep recorded drop_l1 j (L1DCache s)) (sweep recorded drop_l1 j (L1ICache s))
    (sweep recorded drop_l2 j (L2Cache s))
    ((Directory s).{dir_lines ::= vinsert index (cleared j row)})
    (enqueue (directory_node dir_index) 2 (inv_message <$> filter (λ i, recorded i) (seqZ 0 j)) (packet_table s)).

Lemma inv_state_0 : inv_state 0 = s.
Proof.
  unfold inv_state. rewrite !sweep_0, cleared_0. simpl. rewrite enqueue_nil.
  destruct s as [? ? ? [] ?]. simpl in *. by rewrite vinsert_id.
Qed.

Lemma invalidate_node_run j : 0 ≤ j < NUMBER_OF_NODES →
  invalidate_node raw (cache_index l1_lines a) (cache_index l1_lines a) (cache_index l2_lines a)
    (cache_tag a) time dir_index j (inv_state j) =
  Ok (tt, mkMemSystem
    (vinsert j (drop_l1 (vat (mkENoCCache 0 0 []) (L1DCache s) j)) (sweep recorded drop_l1 j (L1DCache s)))
    (vinsert j (drop_l1 (vat (mkENoCCache 0 0 []) (L1ICache s) j)) (sweep recorded drop_l1 j (L1ICache s)))
    (vinsert j (drop_l2 (vat (mkENoCCache 0 0 []) (L2Cache s) j)) (sweep recorded drop_l2 j (L2Cache s)))
    (Directory (inv_state j))
    (enqueue (directory_node dir_index) 2 [inv_message j] (packet_table (inv_state j)))).
Proof.
  intros Hj. destruct (sys_caches s j Hok Hj) as (d & i & l & Hd & Hd1 & Hi & Hi1 & Hl & Hl2).
  unfold vat. rewrite Hd, Hi, Hl. simpl.
  destruct (is_l1_index d a Hd1) as [Wd Id]. destruct (is_l1_index i a Hi1) as [Wi Ii].
  destruct (is_l2_index l a Hl2) as [Wl Il].
  destruct (checkTag_run d _ (cache_tag a) Wd Id) as (wd & Td & Rd).
  destruct (checkTag_run i _ (cache_tag a) Wi Ii) as (wi & Ti & Ri).
  destruct (checkTag_run l _ (cache_tag a) Wl Il) as (wl & Tl & Rl).
  pose proof (mark_run d _ _ wd MESI_I Wd Id Td ltac:(lia)) as Md.
  pose proof (mark_run i _ _ wi MESI_I Wi Ii Ti ltac:(lia)) as Mi.
  pose proof (mark_run l _ _ wl MESI_I Wl Il Tl ltac:(lia)) as Ml.
  assert (Sd : L1DCache (inv_state j) !z j = Some d)
    by (simpl; rewrite (sweep_lookup _ _ _ _ _ _ Hd), decide_False by lia; done).
  assert (Si : L1ICache (inv_state j) !z j = Some i)
    by (simpl; rewrite (sweep_lookup _ _ _ _ _ _ Hi), decide_False by lia; done).
  assert (Sl : L2Cache (inv_state j) !z j = Some l)
    by (simpl; rewrite (sweep_lookup _ _ _ _ _ _ Hl), decide_False by lia; done).
  unfold invalidate_node. unfold mbind, M_bind.
  rewrite (on_L1I_read _ _ _ _ _ Si Ti), (on_L1D_read _ _ _ _ _ Sd Td), (on_L2_read _ _ _ _ _ Sl Tl).
  rewrite (on_L1D_run _ _ _ _ _ _ Sd Md).
  erewrite on_L1I_run; [|exact Si|exact Mi]. erewrite on_L2_run; [|exact Sl|exact Ml].
  rewrite from_directory_eq by done. simpl.
  rewrite push_packet_run; [done| |by apply directory_node_range|lia].
  apply enqueue_ok, (sys_table s Hok). apply inv_messages_sendable.
Qed.

Lemma vat_lookup {A} (d : A) l i x : l !z i = Some x → vat d l i = x.
Proof. unfold vat. by intros ->. Qed.

Lemma inv_step j : 0 ≤ j < NUMBER_OF_NODES →
  (owner ← get_owner index (j + 1);
   when (bool_decide (owner ≠ MESI_I))
     (invalidate_node raw (cache_index l1_lines a) (cache_index l1_lines a) (cache_index l2_lines a)
        (cache_tag a) time dir_index j ;; set_owner index (j + 1) MESI_I)) (inv_state j) =
  Ok (tt, inv_state (j + 1)).
Proof.
  intros Hj. destruct (sys_caches s j Hok Hj) as (d & i & l & Hd & _ & Hi & _ & Hl & _).
  destruct (vlookup_in_range row (j + 1)) as [x Hx]; [lia|].
  assert (Hc : cleared j row !z (j + 1) = Some x)
    by (rewrite (cleared_lookup _ _ _ _ Hx), decide_False by lia; done).
  assert (Hr : dir_lines (Directory (inv_state j)) !z index = Some (cleared j row))
    by (simpl; apply vlookup_vinsert_eq; by eapply vlookup_Some_range).
  unfold mbind at 1, M_bind at 1. rewrite (get_owner_run _ _ _ _ _ Hr Hc).
  assert (Hnext : inv_state (j + 1) = mkMemSystem
    (vinsert j (if recorded j then drop_l1 d else d) (L1DCache (inv_state j)))
    (vinsert j (if recorded j then drop_l1 i else i) (L1ICache (inv_state j)))
    (vinsert j (if recorded j then drop_l2 l else l) (L2Cache (inv_state j)))
    ((Directory (inv_state j)).{dir_lines ::= vinsert index (vinsert (j + 1) MESI_I (cleared j row))})
    (enqueue (directory_node dir_index) 2 (if recorded j then [inv_message j] else [])
       (packet_table (inv_state j)))).
  { unfold inv_state. rewrite (sweep_step _ _ _ _ _ Hd), (sweep_step _ _ _ _ _ Hi), (sweep_step _ _ _ _ _ Hl).
    rewrite (cleared_step j row x (proj1 Hj) Hx). simpl. rewrite vinsert_vinsert. f_equal.
    rewrite enqueue_app, (seqZ_app 0 j 1), filter_app, fmap_app by lia. f_equal. f_equal. simpl.
    rewrite Z.add_0_l, (seqZ_cons j 1) by lia. change (seqZ (Z.succ j) (Z.pred 1)) with (@nil Z).
    rewrite filter_cons, filter_nil. by destruct (recorded j). }
  assert (Sd : L1DCache (inv_state j) !z j = Some d)
    by (simpl; rewrite (sweep_lookup _ _ _ _ _ _ Hd), decide_False by lia; done).
  assert (Si : L1ICache (inv_state j) !z j = Some i)
    by (simpl; rewrite (sweep_lookup _ _ _ _ _ _ Hi), decide_False by lia; done).
  assert (Sl : L2Cache (inv_state j) !z j = Some l)
    by (simpl; rewrite (sweep_lookup _ _ _ _ _ _ Hl), decide_False by lia; done).
  assert (Hrec : recorded j = bool_decide (x ≠ MESI_I))
    by (unfold recorded; apply bool_decide_ext; rewrite Hx; naive_solver).
  rewrite Hnext, Hrec. destruct (decide (x = MESI_I)) as [->|Hne].
  - rewrite bool_decide_false by (intros Hf; by apply Hf). cbn [when]. rewrite enqueue_nil.
    rewrite (vinsert_id _ _ _ Sd), (vinsert_id _ _ _ Si), (vinsert_id _ _ _ Sl), (vinsert_id _ _ _ Hc).
    unfold inv_state. simpl. by rewrite vinsert_vinsert.
  - rewrite !bool_decide_true by congruence. simpl. unfold mbind, M_bind.
    rewrite invalidate_node_run by done.
    rewrite (vat_lookup _ _ _ _ Hd), (vat_lookup _ _ _ _ Hi), (vat_lookup _ _ _ _ Hl).
    by rewrite (set_owner_run _ index (cleared j row) (j + 1) x).
Qed.
Definition inv_final (node : Z) : MemSystem :=
  (inv_state NUMBER_OF_NODES).{Directory ::= λ d,
    d.{dir_lines ::= vinsert index (vinsert node MESI_E (cleared NUMBER_OF_NODES row))} }.

Lemma invalidatePacket_known pkt :
  pkt_addr pkt = Some a → 0 ≤ masterId (req pkt) →
  find_entry (to_int a) (dir_lines (Directory s)) 0 = Ok (Some index) →
  invalidatePacket raw pkt time dir_index s = Ok (tt, inv_final (node_of pkt)).
Proof.
  intros Ha Hm Hf. pose proof (node_of_range pkt Hm) as Hn.
  assert (Hn' : 0 ≤ node_of pkt < NUMBER_OF_NODES) by (unfold NUMBER_OF_NODES; lia).
  unfold invalidatePacket, mbind, M_bind, lift, getAddr. rewrite Ha. cbn [of_option].
  rewrite (dir_index_run L1DLines _ s a _ (sys_l1d_lines s Hok) Hn').
  rewrite (dir_index_run L1ILines _ s a _ (sys_l1i_lines s Hok) Hn').
  rewrite (dir_index_run L2Lines _ s a _ (sys_l2_lines s Hok) Hn').
  unfold gets. rewrite Hf.
  destruct (triple_for_range 0 NUMBER_OF_NODES (λ i,
    owner ← get_owner index (i + 1);
    when (bool_decide (owner ≠ MESI_I))
      (invalidate_node raw (cache_index l1_lines a) (cache_index l1_lines a) (cache_index l2_lines a)
        (cache_tag a) time dir_index i ;; set_owner index (i + 1) MESI_I)) (λ i s', s' = inv_state i)
    ltac:(done)) with (s := s) as ([] & s' & Hrun & ->).
  - intros j Hj s' ->. exists tt, (inv_state (j + 1)). split; [by apply inv_step|done].
  - by rewrite inv_state_0.
  - unfold mbind, M_bind in Hrun. rewrite Hrun.
    destruct (vlookup_in_range row (node_of pkt)) as [x Hx]; [unfold NUMBER_OF_NODES in *; lia|].
    rewrite (set_owner_run _ index (cleared NUMBER_OF_NODES row) (node_of pkt)
      (if decide (1 ≤ node_of pkt ≤ NUMBER_OF_NODES) then MESI_I else x)); [done| |by apply cleared_lookup].
    simpl. apply vlookup_vinsert_eq. by eapply vlookup_Some_range.
Qed.

Lemma inv_final_ok node : sys_ok (inv_final node).
Proof.
  destruct Hok as [[Hd Fd] [Hi Fi] [Hl Fl] Hr H1 H2 H3 Ht]. split; simpl.
  - split; [by rewrite zlength_sweep|]. apply sweep_Forall; [|done]. intros c. apply is_l1_set_mesi.
  - split; [by rewrite zlength_sweep|]. apply sweep_Forall; [|done]. intros c. apply is_l1_set_mesi.
  - split; [by rewrite zlength_sweep|]. apply sweep_Forall; [|done]. intros c. apply is_l2_set_mesi.
  - rewrite vinsert_vinsert. apply Forall_vinsert; [done|]. rewrite zlength_vinsert. unfold cleared.
    by rewrite zlength_imap.
  - done.
  - done.
  - done.
  - apply enqueue_ok; [apply inv_messages_sendable|done].
Qed.
End invalidate.

(** *** A new line *)

Definition fresh_row (addr node : Z) : list Z :=
  vinsert node MESI_E (vinsert 0 addr (replicate 65 0)).

Lemma add_newline_run addr node s : 0 ≤ node < NUMBER_OF_NODES →
  add_newline addr node s =
    Ok (tt, s.{Directory ::= λ d, d.{dir_lines ::= λ l, l ++ [fresh_row addr node] } }).
Proof.
  unfold NUMBER_OF_NODES. intros Hn.
  enough (newline addr node = Ok (fresh_row addr node)) as Hrow
    by (unfold add_newline, mbind, M_bind, lift; by rewrite Hrow).
  unfold newline. change (Z.to_nat (NUMBER_OF_NODES + 1)) with 65%nat.
  rewrite (vset_Some _ 0 addr 0) by (apply vlookup_replicate; lia). cbn [mbind res_bind].
  destruct (vlookup_in_range (vinsert 0 addr (replicate 65 0)) node) as [x Hx];
    [rewrite zlength_vinsert; unfold zlength; rewrite length_replicate; lia|].
  by rewrite (vset_Some _ _ _ _ Hx).
Qed.

Lemma zlength_fresh_row addr node : zlength (fresh_row addr node) = NUMBER_OF_NODES + 1.
Proof. unfold fresh_row. by rewrite !zlength_vinsert. Qed.

Lemma add_newline_ok addr node s : sys_ok s →
  sys_ok (s.{Directory ::= λ d, d.{dir_lines ::= λ l, l ++ [fresh_row addr node] } }).
Proof.
  intros [H1 H2 H3 Hr H4 H5 H6 H7]. split; try done. simpl. apply Forall_app. split; [done|].
  constructor; [apply zlength_fresh_row|constructor].
Qed.

Lemma invalidatePacket_new raw pkt a time dir_index s : sys_ok s →
  pkt_addr pkt = Some a → 0 ≤ masterId (req pkt) →
  find_entry (to_int a) (dir_lines (Directory s)) 0 = Ok None →
  invalidatePacket raw pkt time dir_index s =
    Ok (tt, s.{Directory ::= λ d, d.{dir_lines ::= λ l, l ++ [fresh_row (to_int a) (node_of pkt)] } }).
Proof.
  intros Hok Ha Hm Hf. pose proof (node_of_range pkt Hm) as Hn.
  assert (Hn' : 0 ≤ node_of pkt < NUMBER_OF_NODES) by (unfold NUMBER_OF_NODES; lia).
  unfold invalidatePacket, mbind, M_bind, lift, getAddr. rewrite Ha. cbn [of_option].
  rewrite (dir_index_run L1DLines _ s a _ (sys_l1d_lines s Hok) Hn').
  rewrite (dir_index_run L1ILines _ s a _ (sys_l1i_lines s Hok) Hn').
  rewrite (dir_index_run L2Lines _ s a _ (sys_l2_lines s Hok) Hn').
  unfold gets. rewrite Hf. by apply add_newline_run.
Qed.

Lemma invalidatePacket_run raw pkt a time dir_index s : sys_ok s →
  pkt_addr pkt = Some a → 0 ≤ masterId (req pkt) → 0 ≤ dir_index < 4 →
  ∃ s', invalidatePacket raw pkt time dir_index s = Ok (tt, s') ∧ sys_ok s'.
Proof.
  intros Hok Ha Hm Hd. destruct (entry_cases s (to_int a) Hok) as [(index & row & Hf & Hr & _ & Hlen)|[Hf _]].
  - eexists. split; [by eapply invalidatePacket_known|]. by apply inv_final_ok.
  - eexists. split; [by eapply invalidatePacket_new|]. by apply add_newline_ok.
Qed.

(** ** [receivePacket]: what it keeps *)

Section kept.
(** the rows of the directory *)
Context (D : list (list Z)).
Definition sys_at (s : MemSystem) : Prop := sys_ok s ∧ dir_lines (Directory s) = D.
Definition kept {A} (m : M MemSystem A) : Prop := triple_or (only OutOfRange) sys_at m (λ _, sys_at).

Lemma kept_ret {A} (a : A) : kept (mret a).
Proof. apply (triple_or_ret (only OutOfRange) a (λ _, sys_at)). Qed.
Lemma kept_bind {A B} (m : M MemSystem A) (k : A → M MemSystem B) : kept m → (∀ a, kept (k a)) → kept (m ≫= k).
Proof. apply triple_or_bind. Qed.
Lemma kept_when (b : bool) m : kept m → kept (when b m). Proof. apply triple_or_when. Qed.

Lemma kept_L1D {A} n (m : M ENoCCache A) : keeps l1_lines l1_ways m → kept (on_L1D n m).
Proof.
  intros Hm. eapply triple_or_zoom; [apply (zoom_at_all (only OutOfRange) is_l1 NUMBER_OF_NODES n m eq_refl Hm)| |].
  - intros s [Hok _]. apply (sys_l1d s Hok).
  - intros s a t [Hok HD] Ht. split; [|done]. destruct Hok. by split.
Qed.
Lemma kept_L1I {A} n (m : M ENoCCache A) : keeps l1_lines l1_ways m → kept (on_L1I n m).
Proof.
  intros Hm. eapply triple_or_zoom; [apply (zoom_at_all (only OutOfRange) is_l1 NUMBER_OF_NODES n m eq_refl Hm)| |].
  - intros s [Hok _]. apply (sys_l1i s Hok).
  - intros s a t [Hok HD] Ht. split; [|done]. destruct Hok. by split.
Qed.
Lemma kept_L2 {A} n (m : M ENoCCache A) : keeps l2_lines l2_ways m → kept (on_L2 n m).
Proof.
  intros Hm. eapply triple_or_zoom; [apply (zoom_at_all (only OutOfRange) is_l2 NUMBER_OF_NODES n m eq_refl Hm)| |].
  - intros s [Hok _]. apply (sys_l2 s Hok).
  - intros s a t [Hok HD] Ht. split; [|done]. destruct Hok. by split.
Qed.

Lemma from_directory_data k pk : pk_data (from_directory k pk) = pk_data pk.
Proof. unfold from_directory. by repeat case_decide. Qed.

Lemma kept_push src type pk : sendable pk → kept (push_packet src type pk).
Proof.
  intros Hpk. eapply triple_or_zoom; [apply (zoom_at_all (only OutOfRange) node_table_ok NUMBER_OF_NODES src); [done|]| |].
  - apply (zoom_at_all (only OutOfRange) (Forall sendable) 3 type); [done|]. intros q Hq. simpl. by apply Forall_app_2, Forall_singleton.
  - intros s [Hok _]. apply (sys_table s Hok).
  - intros s a t [Hok HD] Ht. split; [|done]. destruct Hok. by split.
Qed.

Lemma kept_lift {A} (m : res A) : (∀ f, m = Fault f → f = OutOfRange) → kept (lift m).
Proof. intros Hm s Hs. unfold lift. destruct m; [done|by apply Hm]. Qed.

Lemma kept_dir_index field n a : kept (dir_index_of field n a).
Proof.
  apply kept_bind; [by intros s Hs|]. intros d. apply kept_bind; [|intros; apply kept_ret].
  apply kept_lift. unfold vget. by destruct (field d !z n); intros f [= <-].
Qed.

(** a packet with an address, a time and data *)
Definition full_packet (pkt : Packet) : Prop :=
  is_Some (pkt_addr pkt) ∧ is_Some (req_time (req pkt)) ∧ 0 ≤ masterId (req pkt) ∧
  ∃ b bs, pkt_bytes pkt = Some (b :: bs).

Lemma kept_addr pkt : full_packet pkt → kept (lift (getAddr pkt)).
Proof. intros ([a Ha] & _). apply kept_lift. unfold getAddr. by rewrite Ha. Qed.
Lemma kept_time pkt : full_packet pkt → kept (lift (request_time (req pkt))).
Proof. intros (_ & [t Ht] & _). apply kept_lift. unfold request_time. by rewrite Ht. Qed.
Lemma kept_bytes pkt : full_packet pkt → kept (lift (getPtr pkt)).
Proof. intros (_ & _ & _ & b & bs & Hb). apply kept_lift. unfold getPtr. by rewrite Hb. Qed.
Lemma kept_vget {A} (l : list A) i : kept (lift (vget l i)).
Proof. apply kept_lift. unfold vget. by destruct (l !z i); intros f [= <-]. Qed.
End kept.

(** the messages the handlers build *)
Ltac solve_sendable :=
  split; simpl; [unfold Num_Packet_Types; lia|left; rewrite ?from_directory_data; simpl; unfold zlength; simpl; lia].
#[export] Hint Extern 1 (sendable _) => solve_sendable : keeps.
#[export] Hint Resolve kept_ret kept_L1D kept_L1I kept_L2 kept_push kept_dir_index kept_addr kept_time
  kept_bytes kept_vget : keeps.

(** [m] is a chain of operations that keep the invariant and the directory *)
Ltac kept_step :=
  match goal with
  | |- kept _ (_ ≫= _) => apply kept_bind; [|intros ?]
  | |- kept _ (when _ _) => apply kept_when
  | |- kept _ (on_L1D _ _) => apply kept_L1D
  | |- kept _ (on_L1I _ _) => apply kept_L1I
  | |- kept _ (on_L2 _ _) => apply kept_L2
  | |- kept _ (if decide _ then _ else _) => case_decide
  | |- kept _ (match _ with _ => _ end) => case_match
  | |- kept _ _ => solve [auto with keeps]
  end.
Ltac kept_steps := repeat (first [kept_step | keeps_step]).

Lemma keeps_mark L W i w x : keeps L W (mark i w x).
Proof. unfold mark. keeps_steps. Qed.
Lemma keeps_fill L W i w : keeps L W (fill_exclusive i w).
Proof. unfold fill_exclusive. keeps_steps. Qed.
#[export] Hint Resolve keeps_mark keeps_fill : keeps.
Lemma keeps_checkTag L W i t : keeps L W (checkTag i t). Proof. apply keeps_find_way. Qed.
Lemma keeps_checkLRU L W i : keeps L W (checkLRU i). Proof. apply keeps_find_way. Qed.
#[export] Hint Resolve keeps_checkTag keeps_checkLRU : keeps.
Lemma keeps_gets L W {A} (f : ENoCCache → A) : keeps L W (gets f). Proof. by intros c Hc. Qed.
#[export] Hint Resolve keeps_gets : keeps.

Lemma kept_send D raw self src node pkt time : full_packet pkt → kept D (sendSharedData raw self src node pkt time).
Proof. intros Hp. unfold sendSharedData. kept_steps. Qed.
#[export] Hint Resolve kept_send : keeps.

Lemma kept_share D raw i1 i2 i3 tag i node pkt time dir : full_packet pkt →
  kept D (share_from raw i1 i2 i3 tag i node pkt time dir).
Proof. intros Hp. unfold share_from. kept_steps. Qed.

Lemma kept_fetch D raw i1 i2 i3 tag node pkt time dir : full_packet pkt →
  kept D (fetch_from_memory raw i1 i2 i3 tag node pkt time dir).
Proof. intros Hp. unfold fetch_from_memory. kept_steps. Qed.
#[export] Hint Resolve kept_share kept_fetch : keeps.

(** ** [receivePacket]: the directory *)

Definition shareable (x : Z) : bool := bool_decide (x = MESI_S ∨ x = MESI_M ∨ x = MESI_E).
(** the first of the slots whose state is not [I] *)
Definition first_sharer (row : list Z) (slots : list Z) : option Z :=
  head (filter (λ i, shareable (vat MESI_I row i)) slots).

Definition with_rows (f : list (list Z) → list (list Z)) (s : MemSystem) : MemSystem :=
  s.{Directory ::= λ d, d.{dir_lines ::= f} }.

Lemma with_rows_ok f s : sys_ok s → Forall (λ row, zlength row = NUMBER_OF_NODES + 1) (f (dir_lines (Directory s))) →
  sys_ok (with_rows f s).
Proof. intros [H1 H2 H3 Hr H4 H5 H6 H7] Hf. by split. Qed.

Lemma find_sharer_run index row node s : dir_lines (Directory s) !z index = Some row →
  0 ≤ node < zlength row → ∀ slots, Forall (λ i, 0 ≤ i < zlength row) slots →
  find_sharer index node slots s = Ok (first_sharer row slots,
    match first_sharer row slots with
    | Some i => with_rows (vinsert index (vinsert i MESI_S (vinsert node MESI_S row))) s
    | None => s
    end).
Proof.
  intros Hr Hn slots. induction 1 as [|i slots Hi _ IH]; [done|]. unfold first_sharer. simpl.
  destruct (vlookup_in_range row i Hi) as [x Hx]. destruct (vlookup_in_range row node Hn) as [y Hy].
  unfold mbind, M_bind. rewrite (get_owner_run _ _ _ _ _ Hr Hx), filter_cons.
  rewrite (vat_lookup _ _ _ _ Hx).
  pose proof (bool_decide_spec (x = MESI_S ∨ x = MESI_M ∨ x = MESI_E)) as Hsh. fold (shareable x) in Hsh.
  case_decide as HS.
  - rewrite decide_True by (destruct Hsh; tauto). rewrite (set_owner_run _ _ _ _ _ _ Hr Hy). simpl.
    unfold with_rows. simpl. rewrite (vinsert_id (vinsert node MESI_S row) i); [done|].
    destruct (decide (node = i)) as [->|].
    + by apply vlookup_vinsert_eq.
    + rewrite vlookup_vinsert_ne by done. congruence.
  - case_decide as Hd.
    + rewrite decide_True by (destruct Hsh; tauto). rewrite (set_owner_run _ _ _ _ _ _ Hr Hy).
      destruct (vlookup_in_range (vinsert node MESI_S row) i) as [z Hz]; [by rewrite zlength_vinsert|].
      erewrite set_owner_run; [|simpl; apply vlookup_vinsert_eq; by eapply vlookup_Some_range|exact Hz].
      unfold with_rows. simpl. by rewrite vinsert_vinsert.
    + rewrite decide_False by (destruct Hsh; tauto). exact IH.
Qed.

(** the rows after a read by [node] *)
Definition rows_after_read (addr node : Z) (l : list (list Z)) : list (list Z) :=
  match find_entry addr l 0 with
  | Ok (Some index) =>
      let row := vat [] l index in
      match first_sharer row (seqZ 1 NUMBER_OF_NODES) with
      | Some i => vinsert index (vinsert i MESI_S (vinsert node MESI_S row)) l
      | None => l
      end
  | _ => l ++ [fresh_row addr node]
  end.

Lemma receivePacket_or raw pkt a time dir_index s : sys_ok s → full_packet pkt → pkt_addr pkt = Some a →
  match receivePacket raw pkt time dir_index s with
  | Ok (_, s') => sys_ok s' ∧
      dir_lines (Directory s') = rows_after_read (to_int a) (node_of pkt) (dir_lines (Directory s))
  | Fault f => f = OutOfRange
  end.
Proof.
  intros Hok Hp Ha. pose proof Hp as (_ & _ & Hm & _). pose proof (node_of_range pkt Hm) as Hn.
  assert (Hn' : 0 ≤ node_of pkt < NUMBER_OF_NODES) by (unfold NUMBER_OF_NODES; lia).
  unfold receivePacket, getAddr. rewrite Ha. unfold mbind at 1, M_bind at 1, lift at 1. cbn [of_option].
  unfold mbind at 1, M_bind at 1. rewrite (dir_index_run L1DLines _ s a _ (sys_l1d_lines s Hok) Hn').
  unfold mbind at 1, M_bind at 1. rewrite (dir_index_run L1ILines _ s a _ (sys_l1i_lines s Hok) Hn').
  unfold mbind at 1, M_bind at 1. rewrite (dir_index_run L2Lines _ s a _ (sys_l2_lines s Hok) Hn').
  unfold mbind at 1, M_bind at 1. unfold gets at 1. unfold mbind at 1, M_bind at 1. unfold lift at 1.
  assert (Hrest : ∀ sharer s1, sys_ok s1 → kept (dir_lines (Directory s1))
    (shared ← match sharer with
              | Some slot => share_from raw (cache_index l1_lines a) (cache_index l1_lines a)
                  (cache_index l2_lines a) (cache_tag a) (slot - 1) (node_of pkt) pkt time dir_index
              | None => mret false
              end;
     if (shared : bool) then mret tt
     else fetch_from_memory raw (cache_index l1_lines a) (cache_index l1_lines a) (cache_index l2_lines a)
            (cache_tag a) (node_of pkt) pkt time dir_index)).
  { intros sharer s1 Hs1. kept_steps. }
  unfold rows_after_read.
  destruct (entry_cases s (to_int a) Hok) as [(index & row & Hf & Hr & Ha0 & Hlen)|[Hf _]]; rewrite Hf.
  - rewrite (vat_lookup [] _ _ _ Hr). unfold mbind at 1, M_bind at 1.
    rewrite (find_sharer_run index row) by
      (first [done | lia | apply Forall_forall; intros i Hi%elem_of_seqZ; lia]).
    destruct (first_sharer row (seqZ 1 NUMBER_OF_NODES)) as [i|]; [|by apply (Hrest None s)].
    apply (Hrest (Some i) (with_rows (vinsert index (vinsert i MESI_S (vinsert (node_of pkt) MESI_S row))) s)).
    + apply with_rows_ok; [done|]. apply Forall_vinsert; [apply sys_rows, Hok|]. by rewrite !zlength_vinsert.
    + split; [|done]. apply with_rows_ok; [done|]. apply Forall_vinsert; [apply sys_rows, Hok|].
      by rewrite !zlength_vinsert.
  - unfold mbind at 1, M_bind at 1. unfold mbind at 1, M_bind at 1. rewrite (add_newline_run _ _ _ Hn').
    unfold mret at 1, M_ret at 1. apply (Hrest None (with_rows (λ l, l ++ [fresh_row (to_int a) (node_of pkt)]) s)).
    + by apply add_newline_ok.
    + split; [by apply add_newline_ok|done].
Qed.

(** an unknown line is entered and fetched from memory *)
Lemma receivePacket_unknown raw pkt a time dir_index s : sys_ok s → full_packet pkt → pkt_addr pkt = Some a →
  find_entry (to_int a) (dir_lines (Directory s)) 0 = Ok None →
  receivePacket raw pkt time dir_index s =
    fetch_from_memory raw (cache_index l1_lines a) (cache_index l1_lines a) (cache_index l2_lines a)
      (cache_tag a) (node_of pkt) pkt time dir_index
      (with_rows (λ l, l ++ [fresh_row (to_int a) (node_of pkt)]) s).
Proof.
  intros Hok (_ & _ & Hm & _) Ha Hf. pose proof (node_of_range pkt Hm) as Hn.
  assert (Hn' : 0 ≤ node_of pkt < NUMBER_OF_NODES) by (unfold NUMBER_OF_NODES; lia).
  unfold receivePacket, getAddr. rewrite Ha. unfold mbind, M_bind, lift. cbn [of_option].
  rewrite (dir_index_run L1DLines _ s a _ (sys_l1d_lines s Hok) Hn').
  rewrite (dir_index_run L1ILines _ s a _ (sys_l1i_lines s Hok) Hn').
  rewrite (dir_index_run L2Lines _ s a _ (sys_l2_lines s Hok) Hn').
  unfold gets. rewrite Hf. by rewrite (add_newline_run _ _ _ Hn').
Qed.

(** memory addresses of 4 GiB and above have no memory node *)
Lemma fetch_above_4GiB raw i1 i2 i3 tag node pkt a time d s : sys_ok s → full_packet pkt →
  pkt_addr pkt = Some a → 2 ^ 32 ≤ a →
  fetch_from_memory raw i1 i2 i3 tag node pkt time d s = Fault OutOfRange.
Proof.
  intros Hok Hp Ha Hbig. set (D := dir_lines (Directory s)).
  assert (H : triple_or (only OutOfRange) (sys_at D) (fetch_from_memory raw i1 i2 i3 tag node pkt time d) (λ _ _, False)).
  { unfold fetch_from_memory.
    eapply (triple_or_bind (only OutOfRange) _ _ (λ x s, x = a ∧ sys_at D s));
      [intros s' Hs'; unfold getAddr; by rewrite Ha|intros x; apply triple_or_pure; intros ->].
    repeat (eapply (triple_or_bind (only OutOfRange) _ _ (λ _, sys_at D));
      [match goal with |- triple_or _ _ ?m _ => change (kept D m) end; solve [kept_steps]|intros ?]).
    intros s' [Hok' _]. destruct (sys_table s' Hok') as [Hl _]. unfold push_packet, zoom, zoom_at.
    cbv beta. rewrite vlookup_None; [done|]. rewrite Hl, Z.shiftr_div_pow2 by lia. unfold NUMBER_OF_NODES.
    pose proof (Z.div_le_lower_bound a (2 ^ 26) 64 ltac:(lia) ltac:(lia)). lia. }
  specialize (H s (conj Hok eq_refl)).
  destruct (fetch_from_memory raw i1 i2 i3 tag node pkt time d s) as [[u s']|f]; [done|by rewrite H].
Qed.

Lemma evictPacket_run pkt a s : sys_ok s → pkt_addr pkt = Some a → 0 ≤ masterId (req pkt) →
  ∃ f, evictPacket pkt s = Ok (tt, with_rows f s) ∧ sys_ok (with_rows f s) ∧
    match find_entry (to_int a) (dir_lines (Directory s)) 0 with
    | Ok (Some index) => ∃ row, dir_lines (Directory s) !z index = Some row ∧
        f = vinsert index (vinsert (node_of pkt) MESI_I row)
    | _ => f = (λ l, l ++ [fresh_row (to_int a) (node_of pkt)])
    end.
Proof.
  intros Hok Ha Hm. pose proof (node_of_range pkt Hm) as Hn.
  assert (Hn' : 0 ≤ node_of pkt < NUMBER_OF_NODES) by (unfold NUMBER_OF_NODES; lia).
  unfold evictPacket, mbind, M_bind, lift, getAddr, gets. rewrite Ha. cbn [of_option].
  destruct (entry_cases s (to_int a) Hok) as [(index & row & Hf & Hr & _ & Hlen)|[Hf _]]; rewrite Hf.
  - destruct (vlookup_in_range row (node_of pkt)) as [x Hx]; [lia|].
    exists (vinsert index (vinsert (node_of pkt) MESI_I row)). split; [by apply (set_owner_run _ _ _ _ x)|].
    split; [|by exists row]. apply with_rows_ok; [done|]. apply Forall_vinsert; [apply sys_rows, Hok|].
    by rewrite zlength_vinsert.
  - exists (λ l, l ++ [fresh_row (to_int a) (node_of pkt)]). split; [by apply add_newline_run|].
    split; [by apply add_newline_ok|done].
Qed.

(** ** Lemmas: the same line again *)

Lemma find_entry_first addr l (k : nat) row :
  Forall (λ row, zlength row = NUMBER_OF_NODES + 1) l → l !! k = Some row → row !z 0 = Some addr →
  (∀ j r, (j < k)%nat → l !! j = Some r → r !z 0 ≠ Some addr) → find_entry addr l 0 = Ok (Some (Z.of_nat k)).
Proof.
  intros Hl Hk Ha Hno.
  destruct (find_entry_run addr l Hl 0) as [(k' & r & -> & Hk' & Hr & Hno')|[_ Hno']].
  - destruct (Nat.lt_trichotomy k k') as [Hlt|[->|Hlt]]; [|done|].
    + by destruct (Hno' k row Hlt Hk).
    + by destruct (Hno k' r Hlt Hk').
  - apply list_elem_of_lookup_2 in Hk. by destruct (Hno' row Hk).
Qed.

Lemma entry_update s addr index row row' : sys_ok s → entry_at s addr index row →
  row' !z 0 = Some addr → zlength row' = NUMBER_OF_NODES + 1 →
  find_entry addr (vinsert index row' (dir_lines (Directory s))) 0 = Ok (Some index).
Proof.
  intros Hok (Hf & Hr & Ha & Hlen) Ha' Hlen'. pose proof (sys_rows s Hok) as Hrows.
  destruct (find_entry_run addr _ Hrows 0) as [(k & r & Hf' & Hk & Hr' & Hno)|[Hf' _]]; [|congruence].
  assert (index = Z.of_nat k) as -> by (rewrite Hf in Hf'; injection Hf'; lia).
  unfold vinsert. rewrite decide_True, Nat2Z.id by lia.
  apply (find_entry_first addr _ k row'); [by apply Forall_insert| |done|].
  - apply list_lookup_insert_eq. apply lookup_lt_is_Some. by eexists.
  - intros j r' Hj. rewrite list_lookup_insert_ne by lia. by apply Hno.
Qed.

(** the row of a written line: [E] in the slot of the writer, [I] in all others *)
Lemma written_row row node i : zlength row = NUMBER_OF_NODES + 1 → 1 ≤ node < NUMBER_OF_NODES → 0 ≤ i < NUMBER_OF_NODES →
  vinsert node MESI_E (cleared NUMBER_OF_NODES row) !z (i + 1) =
    Some (if decide (i + 1 = node) then MESI_E else MESI_I).
Proof.
  intros Hlen Hn Hi. destruct (vlookup_in_range row (i + 1)) as [x Hx]; [lia|].
  case_decide as Hd.
  - subst. apply vlookup_vinsert_eq. unfold cleared. rewrite zlength_imap. lia.
  - rewrite vlookup_vinsert_ne by done. rewrite (cleared_lookup _ _ _ _ Hx), decide_True by lia. done.
Qed.

(** a cache after the sweep over all nodes *)
Lemma swept_line (P : ENoCCache → Prop) row index tag l i c c' :
  (∀ c, P c → cache_wf c ∧ 0 ≤ index < LINES c) → Forall P l → zlength l = NUMBER_OF_NODES →
  l !z i = Some c → sweep (recorded row) (set_mesi index tag MESI_I) NUMBER_OF_NODES l !z i = Some c' →
  if recorded row i then ∀ cl, lookup_tag index tag c' = Some cl → MESIbits cl = MESI_I else c' = c.
Proof.
  intros HP Hl Hn Hc. pose proof (vlookup_Some_range _ _ _ Hc). rewrite (sweep_lookup _ _ _ _ _ _ Hc).
  rewrite decide_True by lia. intros [= <-]. destruct (recorded row i); [|done].
  destruct (HP c (Forall_vlookup _ _ _ _ Hl Hc)) as [Hwf Hi]. rewrite lookup_set_mesi by done.
  intros cl. destruct (lookup_tag index tag c); [|done]. by intros [= <-].
Qed.

(** the cache [c'] is [c] without the line of [tag], or [c] itself *)
Definition drops (index tag : Z) (drop : bool) (c c' : ENoCCache) : Prop :=
  c' = (if drop then set_mesi index tag MESI_I c else c) ∧
  (drop = true → ∀ l, lookup_tag index tag c' = Some l → MESIbits l = MESI_I).

Lemma swept_drops (P : ENoCCache → Prop) row index tag l i c c' :
  (∀ c, P c → cache_wf c ∧ 0 ≤ index < LINES c) → Forall P l → zlength l = NUMBER_OF_NODES →
  l !z i = Some c → sweep (recorded row) (set_mesi index tag MESI_I) NUMBER_OF_NODES l !z i = Some c' →
  drops index tag (recorded row i) c c'.
Proof.
  intros HP Hl Hn Hc Hc'. pose proof (swept_line P row index tag l i c c' HP Hl Hn Hc Hc') as H.
  pose proof (vlookup_Some_range _ _ _ Hc). rewrite (sweep_lookup _ _ _ _ _ _ Hc), decide_True in Hc' by lia.
  split; [by injection Hc'|by intros Hr; rewrite Hr in H].
Qed.

(** a sweep over one recorded node *)
Lemma sweep_untouched row f k l i : (∀ i, 0 ≤ i < NUMBER_OF_NODES → recorded row i = bool_decide (i = k)) →
  i ≠ k → sweep (recorded row) f NUMBER_OF_NODES l !z i = l !z i.
Proof.
  intros Hrec Hi. destruct (l !z i) as [c|] eqn:Hc.
  - pose proof (vlookup_Some_range _ _ _ Hc). rewrite (sweep_lookup _ _ _ _ _ _ Hc). case_decide; [|done].
    by rewrite Hrec, bool_decide_false by lia.
  - unfold sweep. by rewrite vlookup_imap, Hc.
Qed.

Lemma filter_single {A} (P : A → Prop) `{∀ x, Decision (P x)} (l : list A) k :
  NoDup l → k ∈ l → (∀ x, x ∈ l → P x ↔ x = k) → filter P l = [k].
Proof.
  induction 1 as [|x l Hx Hl IH]; intros Hk HP; [by apply elem_of_nil in Hk|]. rewrite filter_cons.
  apply elem_of_cons in Hk as [<-|Hk].
  - rewrite decide_True by (apply HP; [by left|done]). f_equal.
    apply filter_none. intros y Hy Hp. apply HP in Hp; [|by right]. by subst.
  - rewrite decide_False; [apply IH; [done|intros y Hy; apply HP; by right]|].
    intros Hp. apply HP in Hp; [|by left]. by subst.
Qed.

Lemma filter_recorded row k : 0 ≤ k < NUMBER_OF_NODES →
  (∀ i, 0 ≤ i < NUMBER_OF_NODES → recorded row i = bool_decide (i = k)) →
  filter (λ i, recorded row i) (seqZ 0 NUMBER_OF_NODES) = [k].
Proof.
  intros Hk Hrec. apply filter_single; [apply NoDup_seqZ|by apply elem_of_seqZ|].
  intros i Hi%elem_of_seqZ. rewrite Hrec by lia. apply bool_decide_spec.
Qed.

Lemma recorded_at row i x : row !z (i + 1) = Some x → recorded row i = bool_decide (x ≠ MESI_I).
Proof. intros Hx. unfold recorded. apply bool_decide_ext. rewrite Hx. naive_solver. Qed.

Lemma fresh_row_0 addr node : 0 ≤ node < 65 →
  fresh_row addr node !z 0 = Some (if decide (node = 0) then MESI_E else addr).
Proof.
  intros Hn. unfold fresh_row. case_decide as Hd.
  - subst. apply vlookup_vinsert_eq. rewrite zlength_vinsert. unfold zlength. rewrite length_replicate. lia.
  - rewrite vlookup_vinsert_ne by done. apply vlookup_vinsert_eq. unfold zlength. rewrite length_replicate. lia.
Qed.

Lemma fresh_row_owner addr node i : 0 ≤ node < 6 → 0 ≤ i < NUMBER_OF_NODES →
  fresh_row addr node !z (i + 1) = Some (if decide (i + 1 = node) then MESI_E else MESI_M).
Proof.
  unfold NUMBER_OF_NODES. intros Hn Hi. unfold fresh_row. case_decide as Hd.
  - subst. apply vlookup_vinsert_eq. rewrite zlength_vinsert. unfold zlength. rewrite length_replicate. lia.
  - rewrite vlookup_vinsert_ne by done. rewrite vlookup_vinsert_ne by lia. apply vlookup_replicate. lia.
Qed.

Lemma find_entry_none addr l : Forall (λ row, zlength row = NUMBER_OF_NODES + 1) l →
  (∀ r, r ∈ l → r !z 0 ≠ Some addr) → find_entry addr l 0 = Ok None.
Proof.
  intros Hl Hno. destruct (find_entry_run addr l Hl 0) as [(k & r & _ & Hk & Hr & _)|[-> _]]; [|done].
  apply list_elem_of_lookup_2 in Hk. by destruct (Hno r Hk).
Qed.

(** A write by [n], then a write by another node on a state with the same
    directory: the second invalidation finds node [n - 1] recorded only. *)
Lemma second_write raw pkt1 pkt2 a t1 t2 d1 d2 s s1 s2 s3 index row :
  sys_ok s → entry_at s (to_int a) index row → pkt_addr pkt1 = Some a → pkt_addr pkt2 = Some a →
  0 ≤ masterId (req pkt1) → 0 ≤ masterId (req pkt2) → 0 ≤ d1 < 4 → 0 ≤ d2 < 4 → 1 ≤ node_of pkt1 →
  invalidatePacket raw pkt1 t1 d1 s = Ok (tt, s1) →
  sys_ok s2 → Directory s2 = Directory s1 → invalidatePacket raw pkt2 t2 d2 s2 = Ok (tt, s3) →
  ∃ row1, s3 = inv_final raw s2 a t2 d2 index row1 (node_of pkt2) ∧
    ∀ i, 0 ≤ i < NUMBER_OF_NODES → recorded row1 i = bool_decide (i = node_of pkt1 - 1).
Proof.
  intros Hok He Ha1 Ha2 Hm1 Hm2 Hd1 Hd2 Hn Hinv1 Hok2 Hdir Hinv2. pose proof He as (Hf & Hr & Ha & Hlen).
  pose proof (node_of_range pkt1 Hm1) as Hn6. set (n := node_of pkt1) in *.
  set (row1 := vinsert n MESI_E (cleared NUMBER_OF_NODES row)).
  assert (Hlen1 : zlength row1 = NUMBER_OF_NODES + 1)
    by (unfold row1, cleared; by rewrite zlength_vinsert, zlength_imap).
  assert (Ha1' : row1 !z 0 = Some (to_int a)).
  { unfold row1. rewrite vlookup_vinsert_ne by lia. by rewrite (cleared_lookup _ _ _ _ Ha). }
  assert (s1 = inv_final raw s a t1 d1 index row n) as ->.
  { pose proof (invalidatePacket_known raw s a t1 d1 index row Hok Hd1 Hr Hlen pkt1 Ha1 Hm1 Hf) as H.
    rewrite Hinv1 in H. by injection H. }
  assert (Hrows : dir_lines (Directory s2) = vinsert index row1 (dir_lines (Directory s)))
    by (rewrite Hdir; simpl; by rewrite vinsert_vinsert).
  assert (Hrow2 : dir_lines (Directory s2) !z index = Some row1)
    by (rewrite Hrows; apply vlookup_vinsert_eq; by eapply vlookup_Some_range).
  assert (Hf2 : find_entry (to_int a) (dir_lines (Directory s2)) 0 = Ok (Some index))
    by (rewrite Hrows; by apply (entry_update s (to_int a) index row)).
  exists row1. split.
  - pose proof (invalidatePacket_known raw s2 a t2 d2 index row1 Hok2 Hd2 Hrow2 Hlen1 pkt2 Ha2 Hm2 Hf2) as H.
    rewrite Hinv2 in H. by injection H.
  - intros i Hi. unfold recorded, row1. rewrite written_row by (first [done | unfold NUMBER_OF_NODES; lia]).
    apply bool_decide_ext. case_decide; split; intros ?; first [lia | done].
Qed.

Lemma recorded_one_keeps raw s a t d index row node k :
  (∀ i, 0 ≤ i < NUMBER_OF_NODES → recorded row i = bool_decide (i = k)) →
  let s' := inv_final raw s a t d index row node in
  ∀ i, i ≠ k → L1DCache s' !z i = L1DCache s !z i ∧ L1ICache s' !z i = L1ICache s !z i ∧
    L2Cache s' !z i = L2Cache s !z i.
Proof. intros Hrec s' i Hi. split; [|split]; by apply (sweep_untouched _ _ k). Qed.

(** *** A system whose lines are all in their initial state *)

Definition initial_line (_ way : Z) : cacheline := mkcacheline 3 way 0 0 0 false.
Definition initial_system : MemSystem :=
  let l1 := ENoCCache_ENoCCache initial_line l1_lines l1_ways in
  let l2 := ENoCCache_ENoCCache initial_line l2_lines l2_ways in
  mkMemSystem (replicate 64 l1) (replicate 64 l1) (replicate 64 l2)
    (mkENoCDir (replicate 64 (replicate 65 0)) (replicate 64 l1_lines) (replicate 64 l1_lines)
       (replicate 64 l2_lines) (replicate 64 l1_ways) (replicate 64 l1_ways) (replicate 64 l2_ways))
    (replicate 64 [[]; []; []]).

Lemma Forall_replicate_same {A} (P : A → Prop) n x : P x → Forall P (replicate n x).
Proof. intros HP. by apply Forall_replicate. Qed.

Lemma initial_system_ok : sys_ok initial_system.
Proof.
  assert (H1 : is_l1 (ENoCCache_ENoCCache initial_line l1_lines l1_ways))
    by (split; [apply new_cache_wf; done|done]).
  assert (H2 : is_l2 (ENoCCache_ENoCCache initial_line l2_lines l2_ways))
    by (split; [apply new_cache_wf; done|done]).
  split; try reflexivity.
  - split; [reflexivity|by apply Forall_replicate_same].
  - split; [reflexivity|by apply Forall_replicate_same].
  - split; [reflexivity|by apply Forall_replicate_same].
  - by apply Forall_replicate_same.
  - split; [reflexivity|apply Forall_replicate_same; split; [done|by repeat constructor]].
Qed.

Definition request_from (node a : Z) (c : Command) : Packet :=
  (Packet_new (plain_request node 7) c).{pkt_addr := Some a}.{pkt_size := Some 1}.{pkt_bytes := Some [42] }.
Definition blank_packet : PacketNoC := mkPacketNoC 0 0 0 0 0 [] 0.

Lemma initial_entry : entry_at initial_system 0 0 (replicate 65 0).
Proof. split; [reflexivity|]. split; [reflexivity|]. split; reflexivity. Qed.

(** ** Properties *)

(** A write or an invalidation of a line the directory knows, by
    any node, never faults and keeps the invariant; every cache of every
    node the row records as an owner loses the line (if the tag is there, it is now
    invalid), the caches of the other nodes are not touched; exactly one
    invalidation message per recorded owner is queued at the directory, in the
    order of the nodes; and all owner slots of the row are [I] except the slot with the
    number of the writer, which is [E]. *)
Theorem invalidatePacket_drops_owners raw s pkt a time dir_index index row :
  sys_ok s → pkt_addr pkt = Some a → 0 ≤ masterId (req pkt) → 0 ≤ dir_index < 4 →
  entry_at s (to_int a) index row →
  ∃ s', invalidatePacket raw pkt time dir_index s = Ok (tt, s') ∧ sys_ok s' ∧
    (∀ i c c', L1DCache s !z i = Some c → L1DCache s' !z i = Some c' →
       if recorded row i
       then ∀ l, lookup_tag (cache_index l1_lines a) (cache_tag a) c' = Some l → MESIbits l = MESI_I
       else c' = c) ∧
    (∀ i c c', L1ICache s !z i = Some c → L1ICache s' !z i = Some c' →
       if recorded row i
       then ∀ l, lookup_tag (cache_index l1_lines a) (cache_tag a) c' = Some l → MESIbits l = MESI_I
       else c' = c) ∧
    (∀ i c c', L2Cache s !z i = Some c → L2Cache s' !z i = Some c' →
       if recorded row i
       then ∀ l, lookup_tag (cache_index l2_lines a) (cache_tag a) c' = Some l → MESIbits l = MESI_I
       else c' = c) ∧
    queue_at (packet_table s') (directory_node dir_index) 2 =
      (λ q, q ++ (inv_message raw time dir_index <$> filter (λ i, recorded row i) (seqZ 0 NUMBER_OF_NODES)))
        <$> queue_at (packet_table s) (directory_node dir_index) 2 ∧
    dir_lines (Directory s') = vinsert index (vinsert (node_of pkt) MESI_E
      (cleared NUMBER_OF_NODES row)) (dir_lines (Directory s)).
Proof.
  intros Hok Ha Hm Hd (Hf & Hr & _ & Hlen). exists (inv_final raw s a time dir_index index row (node_of pkt)).
  split; [by apply invalidatePacket_known|]. split; [by apply inv_final_ok|].
  split; [|split; [|split; [|split]]].
  - intros i c c' Hc Hc'. destruct (sys_l1d s Hok) as [Hn Hall].
    eapply (swept_line is_l1); [intros c0; apply is_l1_index|exact Hall|exact Hn|exact Hc|exact Hc'].
  - intros i c c' Hc Hc'. destruct (sys_l1i s Hok) as [Hn Hall].
    eapply (swept_line is_l1); [intros c0; apply is_l1_index|exact Hall|exact Hn|exact Hc|exact Hc'].
  - intros i c c' Hc Hc'. destruct (sys_l2 s Hok) as [Hn Hall].
    eapply (swept_line is_l2); [intros c0; apply is_l2_index|exact Hall|exact Hn|exact Hc|exact Hc'].
  - simpl. apply queue_enqueue.
  - simpl. by rewrite vinsert_vinsert.
Qed.

Lemma invalidatePacket_drops_owners_witness :
  ∃ s', invalidatePacket blank_packet (request_from 2 0 WriteReq) 7 0 initial_system = Ok (tt, s') ∧
    dir_lines (Directory s') !z 0 = Some (vinsert 2 MESI_E (cleared 64 (replicate 65 0))).
Proof.
  destruct (invalidatePacket_drops_owners blank_packet initial_system (request_from 2 0 WriteReq) 0 7 0 0
    (replicate 65 0)) as (s' & H1 & _ & _ & _ & _ & _ & H2);
    [exact initial_system_ok|reflexivity|simpl; lia|lia|exact initial_entry|].
  exists s'. split; [exact H1|]. rewrite H2. reflexivity.
Defined.

(** The owner slots are off by one: slot [i + 1] is read as
    the state of node [i], but a writer [n] is entered in slot [n].  After a
    write of a known line by node [n >= 1], the next write of the line, by any node, changes
    no cache but those of node [n - 1], which also gets the only invalidation
    message: node [n], the last writer, keeps its copy. *)
Theorem last_writer_is_not_invalidated raw s pkt1 pkt2 a t1 t2 d1 d2 index row :
  sys_ok s → entry_at s (to_int a) index row → pkt_addr pkt1 = Some a → pkt_addr pkt2 = Some a →
  0 ≤ masterId (req pkt1) → 0 ≤ masterId (req pkt2) → 0 ≤ d1 < 4 → 0 ≤ d2 < 4 →
  let n := node_of pkt1 in 1 ≤ n →
  ∃ s1 s2, invalidatePacket raw pkt1 t1 d1 s = Ok (tt, s1) ∧ invalidatePacket raw pkt2 t2 d2 s1 = Ok (tt, s2) ∧
    (∀ i, i ≠ n - 1 → L1DCache s2 !z i = L1DCache s1 !z i ∧ L1ICache s2 !z i = L1ICache s1 !z i ∧
       L2Cache s2 !z i = L2Cache s1 !z i) ∧
    queue_at (packet_table s2) (directory_node d2) 2 =
      (λ q, q ++ [inv_message raw t2 d2 (n - 1)]) <$> queue_at (packet_table s1) (directory_node d2) 2.
Proof.
  intros Hok He Ha1 Ha2 Hm1 Hm2 Hd1 Hd2 n Hn.
  destruct (invalidatePacket_run raw pkt1 a t1 d1 s Hok Ha1 Hm1 Hd1) as (s1 & Hrun1 & Hok1).
  destruct (invalidatePacket_run raw pkt2 a t2 d2 s1 Hok1 Ha2 Hm2 Hd2) as (s2 & Hrun2 & _).
  destruct (second_write raw pkt1 pkt2 a t1 t2 d1 d2 s s1 s1 s2 index row) as (row1 & -> & Hrec); [done..|].
  fold n in Hrec. pose proof (node_of_range pkt1 Hm1) as Hn6. fold n in Hn6.
  exists s1, (inv_final raw s1 a t2 d2 index row1 (node_of pkt2)). split; [done|]. split; [done|]. split.
  - by apply recorded_one_keeps.
  - simpl. rewrite queue_enqueue. rewrite (filter_recorded row1 (n - 1)); [done|unfold NUMBER_OF_NODES; lia|done].
Qed.

Lemma last_writer_is_not_invalidated_witness :
  ∃ s1 s2, invalidatePacket blank_packet (request_from 2 0 WriteReq) 7 0 initial_system = Ok (tt, s1) ∧
    invalidatePacket blank_packet (request_from 3 0 WriteReq) 8 0 s1 = Ok (tt, s2) ∧
    L1DCache s2 !z 2 = L1DCache s1 !z 2.
Proof.
  destruct (last_writer_is_not_invalidated blank_packet initial_system (request_from 2 0 WriteReq)
    (request_from 3 0 WriteReq) 0 7 8 0 0 0 (replicate 65 0)) as (s1 & s2 & H1 & H2 & H3 & _);
    [exact initial_system_ok|exact initial_entry|reflexivity|reflexivity|simpl; lia|simpl; lia|lia|lia
    |vm_compute; discriminate|].
  exists s1, s2. split; [exact H1|]. split; [exact H2|]. apply H3. vm_compute. discriminate.
Defined.

(** A line the directory does not know is entered, by a write as
    by an eviction, with every node as an owner: the other slots stay 0,
    which is [M], and the slot of the node becomes [E] even when the node evicts the line; for
    node 0 that slot is the address itself, so the row is not a row of the line. *)
Theorem new_line_owned_by_all raw s pkt a time dir_index :
  sys_ok s → pkt_addr pkt = Some a → 0 ≤ masterId (req pkt) → 0 ≤ dir_index < 4 →
  find_entry (to_int a) (dir_lines (Directory s)) 0 = Ok None →
  ∃ s' row, invalidatePacket raw pkt time dir_index s = Ok (tt, s') ∧ evictPacket pkt s = Ok (tt, s') ∧
    dir_lines (Directory s') = dir_lines (Directory s) ++ [row] ∧
    row !z 0 = Some (if decide (node_of pkt = 0) then MESI_E else to_int a) ∧
    ∀ i, 0 ≤ i < NUMBER_OF_NODES → recorded row i = true ∧
      row !z (i + 1) = Some (if decide (i + 1 = node_of pkt) then MESI_E else MESI_M).
Proof.
  intros Hok Ha Hm Hd Hf. pose proof (node_of_range pkt Hm) as Hn.
  eexists _, (fresh_row (to_int a) (node_of pkt)). split; [by eapply invalidatePacket_new|]. split.
  { destruct (evictPacket_run pkt a s Hok Ha Hm) as (f & Hrun & _ & Hfind). rewrite Hf in Hfind. by subst f. }
  split; [done|]. split; [apply fresh_row_0; lia|].
  intros i Hi. rewrite (recorded_at _ _ _ (fresh_row_owner _ _ _ Hn Hi)).
  split; [by case_decide|by apply fresh_row_owner].
Qed.

Lemma new_line_owned_by_all_witness :
  ∃ s' row, evictPacket (request_from 2 4096 WritebackDirty) initial_system = Ok (tt, s') ∧
    dir_lines (Directory s') = dir_lines (Directory initial_system) ++ [row] ∧ row !z 64 = Some MESI_M.
Proof.
  destruct (new_line_owned_by_all blank_packet initial_system (request_from 2 4096 WritebackDirty) 4096 7 0)
    as (s' & row & _ & H2 & H3 & _ & H4); [exact initial_system_ok|reflexivity|simpl; lia|lia|reflexivity|].
  exists s', row. split; [exact H2|]. split; [exact H3|]. apply (H4 63). unfold NUMBER_OF_NODES. lia.
Defined.

(** The directory grows without bound: node 0 overwrites the
    address of the row it adds, so the line is never found again, and [k]
    accesses of node 0 to the same unknown line (other than address 1) add [k] rows. *)
Theorem node_0_rows_never_found s pkt a (k : nat) :
  sys_ok s → pkt_addr pkt = Some a → 0 ≤ masterId (req pkt) → node_of pkt = 0 → to_int a ≠ 1 →
  find_entry (to_int a) (dir_lines (Directory s)) 0 = Ok None →
  ∃ s', for_each (replicate k pkt) evictPacket s = Ok (tt, s') ∧
    zlength (dir_lines (Directory s')) = zlength (dir_lines (Directory s)) + Z.of_nat k ∧
    find_entry (to_int a) (dir_lines (Directory s')) 0 = Ok None.
Proof.
  intros Hok Ha Hm Hn H1. revert s Hok. induction k as [|k IH]; intros s Hok Hf.
  - exists s. split; [done|]. split; [lia|done].
  - destruct (evictPacket_run pkt a s Hok Ha Hm) as (f & Hrun & Hok' & Hfind). rewrite Hf, Hn in Hfind. subst f.
    destruct (IH _ Hok') as (s' & Hrun' & Hl & Hf').
    + simpl. apply find_entry_none; [apply Hok'|]. intros r [Hr|Hr%list_elem_of_singleton]%elem_of_app.
      * destruct (entry_cases s (to_int a) Hok) as [(i & row & Hf' & _)|[_ Hno]]; [congruence|auto].
      * subst r. rewrite fresh_row_0 by lia. rewrite decide_True by done. intros [= He]. by apply H1.
    + exists s'. split; [simpl; unfold mbind, M_bind; by rewrite Hrun|]. split; [|done].
      rewrite Hl. simpl. unfold zlength. rewrite length_app. simpl. lia.
Qed.

Lemma node_0_rows_never_found_witness :
  ∃ s', for_each (replicate 1000 (request_from 6 4096 WritebackDirty)) evictPacket initial_system = Ok (tt, s') ∧
    zlength (dir_lines (Directory s')) = zlength (dir_lines (Directory initial_system)) + Z.of_nat 1000.
Proof.
  destruct (node_0_rows_never_found initial_system (request_from 6 4096 WritebackDirty) 4096 1000)
    as (s' & H1 & H2 & _);
    [exact initial_system_ok|reflexivity|simpl; lia|reflexivity|vm_compute; discriminate|reflexivity|].
  exists s'. split; [exact H1|exact H2].
Defined.

(** A read never changes the directory in any other way than
    this, and its only fault is an index out of range: if the line is
    known and some owner slot is not [I], the first such slot and the slot of the
    reader become [S]; if it is known without owners the directory
    stays as it is; an unknown line gets a new row. *)
Theorem read_downgrades_first_owner raw pkt a time dir_index s :
  sys_ok s → full_packet pkt → pkt_addr pkt = Some a →
  match receivePacket raw pkt time dir_index s with
  | Ok (_, s') => sys_ok s' ∧
      dir_lines (Directory s') = rows_after_read (to_int a) (node_of pkt) (dir_lines (Directory s))
  | Fault f => f = OutOfRange
  end.
Proof. apply receivePacket_or. Qed.

Lemma read_downgrades_first_owner_witness :
  match receivePacket blank_packet (request_from 2 0 ReadReq) 7 0 initial_system with
  | Ok (_, s') => dir_lines (Directory s') !z 0 = Some (vinsert 1 MESI_S (vinsert 2 MESI_S (replicate 65 0)))
  | Fault f => f = OutOfRange
  end.
Proof.
  pose proof (read_downgrades_first_owner blank_packet (request_from 2 0 ReadReq) 0 7 0 initial_system
    initial_system_ok (ltac:(split; [by exists 0|split; [by exists 7|split; [simpl; lia|by exists 42, []]]]))
    eq_refl) as H.
  destruct (receivePacket _ _ _ _ _) as [[u s']|f]; [|exact H]. destruct H as [_ ->]. reflexivity.
Defined.
