(* ===== verification/Process.v ===== *)
(** * Memory requests ([TrafficManager::process])

    A memory packet of gem5 is classified by its command and handled by the
    caches of its node and the directory; the messages this costs are queued
    in the packet table. *)

From S2P Require Import Prelude NoCMain Stats MemPacket Cache Directory.

(** the chain of [if]s that computes [cmd]; a packet that matches none keeps
    the initial value 1 *)
Definition request_case (inst_fetch : bool) (c : Command) : Z :=
  if inst_fetch then 0
  else if isRead c then 1
  else if isWrite c then 2
  else if isUpgrade c then 3
  else if isInvalidate c then 4
  else if isEviction c then 5
  else if isRequest c then 6
  else if isResponse c then 7
  else if needsResponse c then 8
  else 1.

(** the chain of [if]s over [node] *)
Definition to_directory (node : Z) (pk : PacketNoC) : PacketNoC :=
  if decide (node < 16) then pk.{pk_dst_id := DIRECTORY_ADDRESS_0}
  else if decide (node < 32) then pk.{pk_dst_id := DIRECTORY_ADDRESS_1}
  else if decide (node < 48) then pk.{pk_dst_id := DIRECTORY_ADDRESS_2}
  else if decide (node < 64) then pk.{pk_dst_id := DIRECTORY_ADDRESS_3}
  else pk.

(** the cases 0 and 1 are the same code for the two L1 caches of a node *)
Definition on_L1 {A} (inst : bool) (node : Z) (m : M ENoCCache A) : M MemSystem A :=
  if inst then on_L1I node m else on_L1D node m.

Definition valid_mesi (x : Z) : bool := bool_decide (x = MESI_M ∨ x = MESI_E ∨ x = MESI_S).

(** the way that will hold a tag: where it is, or else the least recently
    used one, whose tag is replaced *)
Definition claim_way (index tag : Z) : M ENoCCache Z :=
  c ← get;
  way ← checkTag index tag;
  if decide (way < WAYS c) then mret way
  else
    way ← checkLRU index;
    on_line index way (λ l, l.{cl_tag := tag}) ;;
    mret way.

Section process.
Variable raw : PacketNoC.

(** the message to the directory that the cases share *)
Definition send_to_directory (node packet_type : Z) (pkt : Packet) : M MemSystem unit :=
  t ← lift (request_time (req pkt));
  let packetNoC := (to_directory node (PacketNoC_PacketNoC raw).{pk_src_id := node})
    .{pk_time := to_int t}.{pk_packet_type := packet_type} in
  push_packet node 0 packetNoC.

(** the line is not in the caches of the node *)
Definition ask_directory (node : Z) (pkt : Packet) : M MemSystem unit :=
  t ← lift (request_time (req pkt));
  receivePacket raw pkt (to_int t) (Z.quot node 16) ;;
  send_to_directory node 0 pkt.

(** cases 0 and 1 *)
Definition process_read (inst : bool) (node L1index L2index tag addr : Z) (pkt : Packet) : M MemSystem unit :=
  L1way ← on_L1 inst node (checkTag L1index tag);
  ways ← on_L1 inst node (gets WAYS);
  if decide (L1way < ways) then
    MESI ← on_L1 inst node (of_line L1index L1way MESIbits);
    if valid_mesi MESI then on_L1 inst node (updateLRU L1index L1way)
    else
      L2way ← on_L2 node (checkTag L2index tag);
      ways2 ← on_L2 node (gets WAYS);
      if decide (L2way < ways2) then
        MESI ← on_L2 node (of_line L2index L2way MESIbits);
        if valid_mesi MESI then
          on_L2 node (updateLRU L2index L2way) ;;
          on_L1 inst node (updateLRU L1index L1way) ;;
          on_L1 inst node (on_line L1index L1way (λ l, l.{cl_address := addr})) ;;
          MESI ← on_L2 node (of_line L2index L2way MESIbits);
          on_L1 inst node (on_line L1index L1way (λ l, l.{MESIbits := MESI}))
        else ask_directory node pkt
      else ask_directory node pkt
  else ask_directory node pkt.

(** the update of a claimed line; case 4 stores no data *)
Definition fill_line (index way mesi addr : Z) (b : option Z) : M ENoCCache unit :=
  updateLRU index way ;;
  on_line index way (λ l,
    let l := l.{MESIbits := mesi}.{cl_address := addr} in
    match b with Some b => l.{cl_data := b} | None => l end).

(** cases 2 and 3 ([M], with data) and case 4 ([E], without) *)
Definition process_write (node L1index L2index tag addr mesi : Z) (b : option Z) (pkt : Packet) :
    M MemSystem unit :=
  L1way ← on_L1D node (claim_way L1index tag);
  t ← lift (request_time (req pkt));
  invalidatePacket raw pkt (to_int t) (Z.quot node 16) ;;
  send_to_directory node 1 pkt ;;
  on_L1D node (fill_line L1index L1way mesi addr b) ;;
  L2way ← on_L2 node (claim_way L2index tag);
  on_L2 node (fill_line L2index L2way mesi addr b).

(** case 5 *)
Definition process_evict (node L1index L2index tag : Z) (pkt : Packet) : M MemSystem unit :=
  a ← lift (getAddr pkt);
  L1way ← on_L1D node (checkTag L1index tag);
  on_L1D node (mark L1index L1way MESI_I) ;;
  evictPacket pkt ;;
  send_to_directory node 2 pkt ;;
  t ← lift (request_time (req pkt));
  data ← on_L1D node (of_line L1index L1way cl_data);
  push_packet node 1 (PacketNoC_PacketNoC raw)
    .{pk_src_id := node}.{pk_dst_id := to_int (Z.shiftr a 26)}.{pk_time := to_int (to_int t + 2)}
    .{pk_data := [to_uint 8 data] }.{pk_packet_type := 3} ;;
  L2way ← on_L2 node (checkTag L2index tag);
  on_L2 node (mark L2index L2way MESI_I).

Definition process (pkt : Packet) : M MemSystem unit :=
  let node := node_of pkt in
  a ← lift (getAddr pkt);
  let tag := cache_tag a in
  let addr := to_int a in
  l1d ← on_L1D node (gets LINES);
  l1i ← on_L1I node (gets LINES);
  l2 ← on_L2 node (gets LINES);
  let L1Dindex := cache_index l1d a in
  let L1Iindex := cache_index l1i a in
  let L2index := cache_index l2 a in
  data ← lift (getPtr pkt);
  let cmd := request_case (isInstFetch (req pkt)) (pkt_cmd pkt) in
  if decide (cmd = 0) then process_read true node L1Iindex L2index tag addr pkt
  else if decide (cmd = 1) then process_read false node L1Dindex L2index tag addr pkt
  else if decide (cmd = 2 ∨ cmd = 3) then
    b ← lift (vget data 0);
    process_write node L1Dindex L2index tag addr MESI_M (Some b) pkt
  else if decide (cmd = 4) then process_write node L1Dindex L2index tag addr MESI_E None pkt
  else if decide (cmd = 5) then process_evict node L1Dindex L2index tag pkt
  else mret tt.
End process.

(** ** What a request keeps *)

Lemma keeps_claim L W i t : keeps L W (claim_way i t).
Proof. unfold claim_way. keeps_steps. Qed.
Lemma keeps_fill_line L W i w x a b : keeps L W (fill_line i w x a b).
Proof. unfold fill_line. keeps_steps. Qed.
#[export] Hint Resolve keeps_claim keeps_fill_line : keeps.

Lemma kept_L1 D {A} inst n (m : M ENoCCache A) : keeps l1_lines l1_ways m → kept D (on_L1 inst n m).
Proof. intros Hm. destruct inst; [by apply kept_L1I|by apply kept_L1D]. Qed.

Lemma to_directory_data n pk : pk_data (to_directory n pk) = pk_data pk.
Proof. unfold to_directory. by repeat case_decide. Qed.
Lemma directory_message_sendable n raw t ty : 0 ≤ ty < 3 →
  sendable (to_directory n (PacketNoC_PacketNoC raw).{pk_src_id := n}).{pk_time := t}.{pk_packet_type := ty}.
Proof. intros Hty. split; simpl; [unfold Num_Packet_Types; lia|]. left. by rewrite to_directory_data. Qed.
Lemma kept_to_directory D raw n ty pkt : full_packet pkt → 0 ≤ ty < 3 → kept D (send_to_directory raw n ty pkt).
Proof.
  intros Hp Hty. unfold send_to_directory. apply kept_bind; [by apply kept_time|]. intros t.
  by apply kept_push, directory_message_sendable.
Qed.
#[export] Hint Extern 1 (0 ≤ _ < 3) => lia : keeps.
#[export] Hint Resolve kept_L1 kept_to_directory : keeps.

(** the invariant, whatever the rows of the directory are *)
Definition safe {A} (m : M MemSystem A) : Prop := triple_or (only OutOfRange) sys_ok m (λ _, sys_ok).

Lemma safe_ret {A} (a : A) : safe (mret a).
Proof. apply (triple_or_ret (only OutOfRange) a (λ _, sys_ok)). Qed.
Lemma safe_bind {A B} (m : M MemSystem A) (k : A → M MemSystem B) : safe m → (∀ a, safe (k a)) → safe (m ≫= k).
Proof. apply triple_or_bind. Qed.
Lemma safe_kept {A} (m : M MemSystem A) : (∀ D, kept D m) → safe m.
Proof.
  intros Hm s Hs. specialize (Hm _ s (conj Hs eq_refl)). destruct (m s) as [[a s']|f]; [apply Hm|done].
Qed.

Lemma safe_receive raw pkt t d : full_packet pkt → safe (receivePacket raw pkt t d).
Proof.
  intros Hp s Hs. pose proof Hp as ([a Ha] & _). pose proof (receivePacket_or raw pkt a t d s Hs Hp Ha) as H.
  destruct (receivePacket raw pkt t d s) as [[u s']|f]; [apply H|done].
Qed.
Lemma safe_invalidate raw pkt t d : full_packet pkt → 0 ≤ d < 4 → safe (invalidatePacket raw pkt t d).
Proof.
  intros ([a Ha] & _ & Hm & _) Hd s Hs.
  destruct (invalidatePacket_run raw pkt a t d s Hs Ha Hm Hd) as (s' & -> & Hs'). done.
Qed.
Lemma safe_evict pkt : full_packet pkt → safe (evictPacket pkt).
Proof.
  intros ([a Ha] & _ & Hm & _) s Hs. destruct (evictPacket_run pkt a s Hs Ha Hm) as (f & -> & Hs' & _). done.
Qed.

#[export] Hint Resolve safe_ret safe_receive safe_invalidate safe_evict : keeps.

(** [m] is a chain of operations that keep the invariant *)
Ltac safe_step :=
  match goal with
  | |- safe (_ ≫= _) => apply safe_bind; [|intros ?]
  | |- safe (if decide _ then _ else _) => case_decide
  | |- safe (match _ with _ => _ end) => case_match
  | |- safe _ => solve [auto with keeps]
  | |- safe _ => apply safe_kept; intros ?; solve [kept_steps]
  end.
Ltac safe_steps := repeat safe_step.

Lemma node_quot pkt : full_packet pkt → 0 ≤ Z.quot (node_of pkt) 16 < 4.
Proof.
  intros (_ & _ & Hm & _). pose proof (node_of_range pkt Hm). rewrite Z.quot_small by lia. lia.
Qed.

Lemma safe_ask raw pkt : full_packet pkt → safe (ask_directory raw (node_of pkt) pkt).
Proof. intros Hp. unfold ask_directory. safe_steps. Qed.
#[export] Hint Resolve safe_ask : keeps.

Lemma safe_read raw inst i1 i2 tag addr pkt : full_packet pkt →
  safe (process_read raw inst (node_of pkt) i1 i2 tag addr pkt).
Proof. intros Hp. unfold process_read. safe_steps. Qed.
Lemma safe_write raw i1 i2 tag addr x b pkt : full_packet pkt →
  safe (process_write raw (node_of pkt) i1 i2 tag addr x b pkt).
Proof. intros Hp. pose proof (node_quot pkt Hp). unfold process_write. safe_steps. Qed.
Lemma safe_process_evict raw i1 i2 tag pkt : full_packet pkt →
  safe (process_evict raw (node_of pkt) i1 i2 tag pkt).
Proof. intros Hp. unfold process_evict. safe_steps. Qed.
#[export] Hint Resolve safe_read safe_write safe_process_evict : keeps.

Lemma process_safe raw pkt : full_packet pkt → safe (process raw pkt).
Proof. intros Hp. unfold process. safe_steps. Qed.

(** ** Claiming and filling a line *)

Lemma claim_way_hit c i tag w : checkTag i tag c = Ok (w, c) → w < WAYS c → claim_way i tag c = Ok (w, c).
Proof. intros Hw Hlt. unfold claim_way, mbind, M_bind, get. rewrite Hw, decide_True by done. done. Qed.

(** a claimed way is the first one with the tag *)
Lemma claim_way_or c i tag : cache_wf c → 0 ≤ i < LINES c →
  match claim_way i tag c with
  | Ok (w, c') => cache_wf c' ∧ LINES c' = LINES c ∧ WAYS c' = WAYS c ∧ 0 ≤ w < WAYS c ∧
      checkTag i tag c' = Ok (w, c')
  | Fault f => f = OutOfRange
  end.
Proof.
  intros Hwf Hi.
  destruct (find_way_run c i (λ l, bool_decide (cl_tag l = tag)) Hwf Hi) as (w & Hw & Hr & _ & Hno).
  change (checkTag i tag c = Ok (w, c)) in Hw.
  unfold claim_way, mbind, M_bind, get. rewrite Hw. case_decide as Hlt; [by split_and!; try lia|].
  destruct (find_way_run c i (λ l, bool_decide (LRUbits l = 0)) Hwf Hi) as (v & Hv & Hrv & _).
  unfold checkLRU. rewrite Hv. destruct (decide (v < WAYS c)) as [Hlt'|].
  - rewrite on_line_at by first [done | split; lia]. pose proof (with_cell_wf c i v (λ l, l.{cl_tag := tag}) Hwf) as Hwf'.
    split; [done|]. split; [done|]. split; [done|]. split; [lia|].
    apply find_way_at; [done|split; [exact Hi|exact (conj (proj1 Hrv) Hlt')]| |].
    + destruct (cell_in_cache c i v Hwf) as [cl Hcl]; [split; lia|]. rewrite with_cell_cell, decide_True, Hcl by done.
      eexists. split; [done|]. by apply bool_decide_eq_true.
    + intros u cl Hu. rewrite with_cell_cell, decide_False by lia. intros Hcl. apply (Hno u); [lia|done].
  - unfold on_line, zoom, zoom_at. pose proof (cell_outside c i v Hwf ltac:(lia)) as Hout. unfold cell in Hout.
    destruct (Cache c !z i) as [l|]; [|done]. simpl in Hout. by rewrite Hout.
Qed.

Lemma frame_tags i c c' j v : lru_frame i c c' → cl_tag <$> cell c' j v = cl_tag <$> cell c j v.
Proof.
  intros (_ & _ & H). specialize (H j v). unfold blank in H.
  destruct (cell c' j v) as [[]|], (cell c j v) as [[]|]; simpl in *; try done; case_decide; by simplify_eq/=.
Qed.

Lemma touch_run c i w : cache_wf c → in_cache c i w →
  ∃ c', updateLRU i w c = Ok (tt, c') ∧ cache_wf c' ∧ lru_frame i c c'.
Proof.
  intros Hwf Hin. destruct (updateLRU_touch c i w (λ v, default 0 (LRUbits <$> cell c i v)) Hwf Hin)
    as (c' & h & Hrun & Hwf' & Hf & _); [|by exists c'].
  intros v Hv. destruct (cell_in_cache c i v Hwf) as [cl Hcl]; [split; [apply Hin|done]|]. by rewrite Hcl.
Qed.

(** the line a write leaves *)
Definition filled (mesi addr : Z) (b : option Z) (l : cacheline) : Prop :=
  MESIbits l = mesi ∧ cl_address l = addr ∧ match b with Some b => cl_data l = b | None => True end.

Lemma fill_line_run c i tag w mesi addr b : cache_wf c → 0 ≤ i < LINES c → checkTag i tag c = Ok (w, c) →
  0 ≤ w < WAYS c →
  ∃ c', fill_line i w mesi addr b c = Ok (tt, c') ∧ cache_wf c' ∧ LINES c' = LINES c ∧ WAYS c' = WAYS c ∧
    ∃ l, lookup_tag i tag c' = Some l ∧ filled mesi addr b l.
Proof.
  intros Hwf Hi Hw Hr. destruct (touch_run c i w Hwf (conj Hi Hr)) as (c1 & Hrun & Hwf1 & Hf).
  pose proof Hf as (HL & HW & _).
  set (g := λ l : cacheline, let l := l.{MESIbits := mesi}.{cl_address := addr} in
    match b with Some b => l.{cl_data := b} | None => l end).
  exists (with_cell c1 i w g). unfold fill_line, mbind, M_bind. rewrite Hrun.
  rewrite on_line_at by first [done | split; lia]. pose proof (with_cell_wf c1 i w g Hwf1) as Hwf2.
  split; [done|]. split; [done|]. split; [done|]. split; [done|].
  destruct (cell_in_cache c1 i w Hwf1) as [cl Hcl]; [split; lia|]. exists (g cl).
  unfold lookup_tag. rewrite (checkTag_ext c (with_cell c1 i w g) i tag) with (w := w);
    [|done|done|done|done|done| |done].
  - rewrite with_cell_cell, decide_True, Hcl by done. split; [done|]. unfold filled, g. by destruct b.
  - intros v. rewrite with_cell_cell, <-(frame_tags _ _ _ i v Hf). case_decide; [|done].
    destruct (cell c1 i v) as [l|]; [|done]. simpl. unfold g. by destruct b.
Qed.

(** ** A write that finds room *)

(** some way of the line has the tag or is the least recently used one *)
Definition claimable (i tag : Z) (c : ENoCCache) : Prop :=
  ∃ w cl, 0 ≤ w < WAYS c ∧ cell c i w = Some cl ∧ (cl_tag cl = tag ∨ LRUbits cl = 0).

(** the same tags and counters *)
Definition same_keys (c c' : ENoCCache) : Prop :=
  cache_wf c' ∧ LINES c' = LINES c ∧ WAYS c' = WAYS c ∧
  ∀ j v, (λ l, (cl_tag l, LRUbits l)) <$> cell c' j v = (λ l, (cl_tag l, LRUbits l)) <$> cell c j v.

Lemma same_keys_set_mesi i tag x c : cache_wf c → same_keys c (set_mesi i tag x c).
Proof.
  intros Hwf. pose proof (set_mesi_shape i tag x c) as [HL HW]. split; [by apply set_mesi_wf|].
  split; [done|]. split; [done|]. intros j v. unfold set_mesi.
  destruct (checkTag i tag c) as [[w c']|]; [|done]. case_decide; [|done].
  rewrite with_cell_cell. case_decide; [|done]. by destruct (cell c j v).
Qed.

Lemma same_keys_claimable i tag c c' : same_keys c c' → claimable i tag c → claimable i tag c'.
Proof.
  intros (_ & _ & HW & H) (w & cl & Hw & Hcl & Hkey). specialize (H i w). rewrite Hcl in H.
  destruct (cell c' i w) as [cl'|] eqn:Hcl'; [|done]. simpl in H. injection H as Ht Hb.
  exists w, cl'. rewrite HW, Ht, Hb. done.
Qed.

Lemma claim_way_run c i tag : cache_wf c → 0 ≤ i < LINES c → claimable i tag c →
  ∃ w c', claim_way i tag c = Ok (w, c') ∧ cache_wf c' ∧ LINES c' = LINES c ∧ WAYS c' = WAYS c ∧
    0 ≤ w < WAYS c ∧ checkTag i tag c' = Ok (w, c').
Proof.
  intros Hwf Hi (k & cl & Hk & Hcl & Hkey). pose proof (claim_way_or c i tag Hwf Hi) as H.
  destruct (claim_way i tag c) as [[w c']|f] eqn:Hrun; [by exists w, c'|]. exfalso.
  destruct (find_way_run c i (λ l, bool_decide (cl_tag l = tag)) Hwf Hi) as (w & Hw & Hr & _ & Hno).
  change (checkTag i tag c = Ok (w, c)) in Hw.
  unfold claim_way, mbind, M_bind, get in Hrun. rewrite Hw in Hrun. case_decide as Hlt; [done|].
  assert (HL0 : LRUbits cl = 0).
  { destruct Hkey as [Ht|]; [|done]. specialize (Hno k cl ltac:(lia) Hcl). by apply bool_decide_eq_false in Hno. }
  destruct (find_way_run c i (λ l, bool_decide (LRUbits l = 0)) Hwf Hi) as (v & Hv & Hrv & _ & Hno').
  unfold checkLRU in Hrun. rewrite Hv in Hrun. destruct (decide (v < WAYS c)) as [Hlt'|].
  - by rewrite on_line_at in Hrun by first [done | split; lia].
  - specialize (Hno' k cl ltac:(lia) Hcl). by apply bool_decide_eq_false in Hno'.
Qed.

(** what an invalidation does to the caches of a node, whoever the owners are *)
Lemma invalidatePacket_keys raw pkt a t d s n : sys_ok s → pkt_addr pkt = Some a → 0 ≤ masterId (req pkt) →
  0 ≤ d < 4 → 0 ≤ n < NUMBER_OF_NODES →
  ∃ s', invalidatePacket raw pkt t d s = Ok (tt, s') ∧ sys_ok s' ∧
    (∀ c, L1DCache s !z n = Some c → ∃ c', L1DCache s' !z n = Some c' ∧ same_keys c c') ∧
    (∀ c, L2Cache s !z n = Some c → ∃ c', L2Cache s' !z n = Some c' ∧ same_keys c c').
Proof.
  intros Hok Ha Hm Hd Hn.
  destruct (entry_cases s (to_int a) Hok) as [(index & row & Hf & Hr & _ & Hlen)|[Hf _]].
  - eexists. split; [by eapply invalidatePacket_known|]. split; [by apply inv_final_ok|].
    destruct (sys_l1d s Hok) as [_ H1]. destruct (sys_l2 s Hok) as [_ H2]. split; intros c Hc.
    + pose proof (Forall_vlookup _ _ _ _ H1 Hc) as Hc1. eexists.
      split; [simpl; by apply (sweep_lookup _ _ _ _ _ c)|]. repeat case_match.
      all: try (apply same_keys_set_mesi, Hc1). all: split; [apply Hc1|done].
    + pose proof (Forall_vlookup _ _ _ _ H2 Hc) as Hc1. eexists.
      split; [simpl; by apply (sweep_lookup _ _ _ _ _ c)|]. repeat case_match.
      all: try (apply same_keys_set_mesi, Hc1). all: split; [apply Hc1|done].
  - eexists. split; [by eapply invalidatePacket_new|]. split; [by apply add_newline_ok|].
    destruct (sys_l1d s Hok) as [_ H1]. destruct (sys_l2 s Hok) as [_ H2]. split; intros c Hc; exists c.
    + split; [done|]. split; [apply (Forall_vlookup _ _ _ _ H1 Hc)|done].
    + split; [done|]. split; [apply (Forall_vlookup _ _ _ _ H2 Hc)|done].
Qed.

Lemma safe_Ok {A} (m : M MemSystem A) s a s' : safe m → sys_ok s → m s = Ok (a, s') → sys_ok s'.
Proof. intros Hm Hs Hrun. specialize (Hm s Hs). by rewrite Hrun in Hm. Qed.

Lemma same_keys_tags c c' i tag w : cache_wf c → 0 ≤ i < LINES c → same_keys c c' →
  checkTag i tag c = Ok (w, c) → checkTag i tag c' = Ok (w, c').
Proof.
  intros Hwf Hi (Hwf' & HL & HW & H). apply checkTag_ext; [done..|]. intros v. specialize (H i v).
  destruct (cell c' i v), (cell c i v); simpl in *; try done. by injection H as <- _.
Qed.

(** the message of [send_to_directory] *)
Definition directory_request (raw : PacketNoC) (n ty t : Z) : PacketNoC :=
  (to_directory n (PacketNoC_PacketNoC raw).{pk_src_id := n}).{pk_time := to_int t}.{pk_packet_type := ty}.
Lemma send_to_directory_run raw n ty pkt t s : sys_ok s → req_time (req pkt) = Some t → 0 ≤ n < NUMBER_OF_NODES →
  0 ≤ ty < 3 →
  ∃ tb, send_to_directory raw n ty pkt s = Ok (tt, s.{packet_table := tb}) ∧ table_ok tb ∧
    tb = enqueue n 0 [directory_request raw n ty t] (packet_table s).
Proof.
  intros Hok Ht Hn Hty. unfold send_to_directory, request_time, mbind, M_bind, lift. rewrite Ht. cbn [of_option].
  rewrite push_packet_run; [|apply (sys_table s Hok)|done|lia]. eexists. split; [done|].
  split; [|done]. apply enqueue_ok, (sys_table s Hok). apply Forall_singleton. by apply directory_message_sendable.
Qed.

Section write.
Context (raw : PacketNoC) (pkt : Packet) (a t : Z) (s : MemSystem) (c1 c2 : ENoCCache).
Hypothesis Hok : sys_ok s.
Hypothesis Hp : full_packet pkt.
Hypothesis Ha : pkt_addr pkt = Some a.
Hypothesis Ht : req_time (req pkt) = Some t.
Hypothesis Hc1 : L1DCache s !z node_of pkt = Some c1.
Hypothesis Hc2 : L2Cache s !z node_of pkt = Some c2.
Hypothesis Hroom1 : claimable (cache_index l1_lines a) (cache_tag a) c1.
Hypothesis Hroom2 : claimable (cache_index l2_lines a) (cache_tag a) c2.

(** the node holds the written line in its L1 data cache and in its L2 cache *)
Definition holds (s : MemSystem) (n a x : Z) (b : option Z) : Prop :=
  (∃ c l, L1DCache s !z n = Some c ∧ lookup_tag (cache_index l1_lines a) (cache_tag a) c = Some l ∧
     filled x (to_int a) b l) ∧
  (∃ c l, L2Cache s !z n = Some c ∧ lookup_tag (cache_index l2_lines a) (cache_tag a) c = Some l ∧
     filled x (to_int a) b l).

Lemma process_write_run x b :
  ∃ c1' s2 s', let s1 := s.{L1DCache := vinsert (node_of pkt) c1' (L1DCache s)} in
    process_write raw (node_of pkt) (cache_index l1_lines a) (cache_index l2_lines a) (cache_tag a)
      (to_int a) x b pkt s = Ok (tt, s') ∧ sys_ok s' ∧ sys_ok s1 ∧
    invalidatePacket raw pkt (to_int t) (Z.quot (node_of pkt) 16) s1 = Ok (tt, s2) ∧
    (Directory s' = Directory s2 ∧ L1ICache s' = L1ICache s2 ∧
     packet_table s' = enqueue (node_of pkt) 0 [directory_request raw (node_of pkt) 1 t] (packet_table s2)) ∧
    (∀ i, i ≠ node_of pkt → L1DCache s' !z i = L1DCache s2 !z i ∧ L2Cache s' !z i = L2Cache s2 !z i) ∧
    holds s' (node_of pkt) a x b.
Proof.
  pose proof Hp as (_ & _ & Hm & _). pose proof (node_of_range pkt Hm) as Hn6.
  set (n := node_of pkt) in *. assert (Hn : 0 ≤ n < NUMBER_OF_NODES) by (unfold NUMBER_OF_NODES; lia).
  destruct (sys_l1d s Hok) as [_ F1]. destruct (sys_l2 s Hok) as [_ F2].
  destruct (is_l1_index c1 a (Forall_vlookup _ _ _ _ F1 Hc1)) as [W1 I1].
  destruct (claim_way_run c1 _ _ W1 I1 Hroom1) as (w1 & c1' & Hclaim1 & Wc1' & HL1 & HW1 & Rw1 & Tw1).
  set (s1 := s.{L1DCache := vinsert n c1' (L1DCache s)}).
  assert (Hrun1 : on_L1D n (claim_way (cache_index l1_lines a) (cache_tag a)) s = Ok (w1, s1))
    by by apply (on_L1D_run _ _ _ c1).
  assert (Hok1 : sys_ok s1)
    by (eapply safe_Ok; [|exact Hok|exact Hrun1]; apply safe_kept; intros; apply kept_L1D, keeps_claim).
  assert (Hc1' : L1DCache s1 !z n = Some c1')
    by (simpl; apply vlookup_vinsert_eq; by eapply vlookup_Some_range).
  destruct (invalidatePacket_keys raw pkt a (to_int t) (Z.quot n 16) s1 n Hok1 Ha Hm (node_quot pkt Hp) Hn)
    as (s2 & Hinv & Hok2 & K1 & K2).
  destruct (K1 c1' Hc1') as (d1 & Hd1 & Hk1). destruct (K2 c2 Hc2) as (d2 & Hd2 & Hk2).
  destruct (send_to_directory_run raw n 1 pkt t s2 Hok2 Ht Hn ltac:(lia)) as (tb & Hsend & _ & Htb).
  assert (Td1 : checkTag (cache_index l1_lines a) (cache_tag a) d1 = Ok (w1, d1))
    by (eapply same_keys_tags; [exact Wc1'|rewrite HL1; exact I1|exact Hk1|exact Tw1]).
  destruct (fill_line_run d1 (cache_index l1_lines a) (cache_tag a) w1 x (to_int a) b) as
    (e1 & Hfill1 & We1 & _ & _ & l1 & Hl1 & Hf1);
    [apply Hk1|destruct Hk1 as (_ & -> & _); lia|done|destruct Hk1 as (_ & _ & -> & _); lia|].
  destruct (is_l2_index c2 a (Forall_vlookup _ _ _ _ F2 Hc2)) as [W2 I2].
  destruct (claim_way_run d2 (cache_index l2_lines a) (cache_tag a)) as (w2 & d2' & Hclaim2 & Wd2' & HL2 & HW2 & Rw2 & Tw2);
    [apply Hk2|destruct Hk2 as (_ & -> & _); lia|by eapply same_keys_claimable|].
  destruct (fill_line_run d2' (cache_index l2_lines a) (cache_tag a) w2 x (to_int a) b) as
    (e2 & Hfill2 & We2 & _ & _ & l2 & Hl2 & Hf2); [done|rewrite HL2; destruct Hk2 as (_ & -> & _); lia|done|lia|].
  set (s' := s2.{packet_table := tb}.{L1DCache := vinsert n e1 (L1DCache s2)}.{L2Cache := vinsert n e2 (L2Cache s2)}).
  assert (Hrun : process_write raw n (cache_index l1_lines a) (cache_index l2_lines a) (cache_tag a)
    (to_int a) x b pkt s = Ok (tt, s')).
  { unfold process_write, mbind, M_bind, lift, request_time. rewrite Hrun1, Ht. cbn [of_option]. rewrite Hinv, Hsend.
    erewrite on_L1D_run; [|exact Hd1|exact Hfill1]. erewrite on_L2_run; [|exact Hd2|exact Hclaim2].
    erewrite on_L2_run; [|simpl; apply vlookup_vinsert_eq; by eapply vlookup_Some_range|exact Hfill2].
    simpl. by rewrite vinsert_vinsert. }
  exists c1', s2, s'. split; [done|]. split; [by eapply safe_Ok, Hrun; [apply safe_write|]|].
  split; [done|]. split; [done|]. split; [done|]. split.
  - intros i Hi. simpl. by rewrite !vlookup_vinsert_ne by done.
  - split; [exists e1, l1|exists e2, l2]; (split; [|done]); simpl; apply vlookup_vinsert_eq; by eapply vlookup_Some_range.
Qed.
End write.

Lemma on_caches_gets s n : sys_ok s → 0 ≤ n < NUMBER_OF_NODES →
  on_L1D n (gets LINES) s = Ok (l1_lines, s) ∧ on_L1I n (gets LINES) s = Ok (l1_lines, s) ∧
  on_L2 n (gets LINES) s = Ok (l2_lines, s).
Proof.
  intros Hok Hn. destruct (sys_caches s n Hok Hn) as (d & i & l & Hd & (_ & HLd & _) & Hi & (_ & HLi & _) & Hl & (_ & HLl & _)).
  split; [|split].
  - apply (on_L1D_read _ _ _ d); [done|]. unfold gets. by rewrite HLd.
  - apply (on_L1I_read _ _ _ i); [done|]. unfold gets. by rewrite HLi.
  - apply (on_L2_read _ _ _ l); [done|]. unfold gets. by rewrite HLl.
Qed.

(** the dispatch of [process] *)
Lemma process_dispatch raw pkt a b bs s : sys_ok s → full_packet pkt → pkt_addr pkt = Some a →
  pkt_bytes pkt = Some (b :: bs) →
  process raw pkt s =
    (let node := node_of pkt in
     let i1 := cache_index l1_lines a in let i2 := cache_index l2_lines a in
     let tag := cache_tag a in let addr := to_int a in
     let cmd := request_case (isInstFetch (req pkt)) (pkt_cmd pkt) in
     if decide (cmd = 0) then process_read raw true node i1 i2 tag addr pkt
     else if decide (cmd = 1) then process_read raw false node i1 i2 tag addr pkt
     else if decide (cmd = 2 ∨ cmd = 3) then process_write raw node i1 i2 tag addr MESI_M (Some b) pkt
     else if decide (cmd = 4) then process_write raw node i1 i2 tag addr MESI_E None pkt
     else if decide (cmd = 5) then process_evict raw node i1 i2 tag pkt
     else mret tt) s.
Proof.
  intros Hok Hp Ha Hb. pose proof Hp as (_ & _ & Hm & _). pose proof (node_of_range pkt Hm).
  destruct (on_caches_gets s (node_of pkt) Hok ltac:(unfold NUMBER_OF_NODES; lia)) as (H1 & H2 & H3).
  unfold process, getAddr, getPtr. rewrite Ha, Hb. unfold mbind at 1, M_bind at 1, lift at 1. cbn [of_option].
  unfold mbind at 1, M_bind at 1. rewrite H1. unfold mbind at 1, M_bind at 1. rewrite H2.
  unfold mbind at 1, M_bind at 1. rewrite H3. unfold mbind at 1, M_bind at 1, lift at 1. cbv zeta.
  repeat case_decide; try done.
Qed.

(** a write or an upgrade *)
Definition is_write (pkt : Packet) : Prop :=
  request_case (isInstFetch (req pkt)) (pkt_cmd pkt) = 2 ∨ request_case (isInstFetch (req pkt)) (pkt_cmd pkt) = 3.

Lemma process_of_write raw pkt a b bs s : sys_ok s → full_packet pkt → pkt_addr pkt = Some a →
  pkt_bytes pkt = Some (b :: bs) → is_write pkt →
  process raw pkt s = process_write raw (node_of pkt) (cache_index l1_lines a) (cache_index l2_lines a)
    (cache_tag a) (to_int a) MESI_M (Some b) pkt s.
Proof.
  intros Hok Hp Ha Hb Hw. rewrite (process_dispatch raw pkt a b bs) by done. cbv zeta.
  unfold is_write in Hw. do 2 (rewrite decide_False by lia). by rewrite decide_True.
Qed.

(** room for the line of [a] in the caches of node [n] *)
Definition has_room (s : MemSystem) (n a : Z) : Prop :=
  (∃ c, L1DCache s !z n = Some c ∧ claimable (cache_index l1_lines a) (cache_tag a) c) ∧
  (∃ c, L2Cache s !z n = Some c ∧ claimable (cache_index l2_lines a) (cache_tag a) c).

Lemma new_cell raw lines ways i w : 0 ≤ i < lines → 0 ≤ w < ways →
  cell (ENoCCache_ENoCCache raw lines ways) i w = Some (raw i w).
Proof.
  intros Hi Hw. unfold cell, vlookup. simpl. rewrite decide_True by lia. rewrite list_lookup_fmap, lookup_seqZ_lt by lia.
  simpl. rewrite decide_True by lia. rewrite list_lookup_fmap, lookup_seqZ_lt by lia. simpl. do 2 f_equal; lia.
Qed.

(** an initial line has room for every address *)
Lemma initial_room n a : 0 ≤ n < NUMBER_OF_NODES → has_room initial_system n a.
Proof.
  unfold NUMBER_OF_NODES. intros Hn. split; eexists.
  - split; [apply (vlookup_replicate 64); lia|]. exists 0. eexists.
    split; [done|]. split; [|right]; [apply new_cell; [apply l1_index_range|done]|done].
  - split; [apply (vlookup_replicate 64); lia|]. exists 0. eexists.
    split; [done|]. split; [|right]; [apply new_cell; [apply l2_index_range|done]|done].
Qed.

Lemma request_full node a c : 0 ≤ node → full_packet (request_from node a c).
Proof. intros Hn. split; [by exists a|]. split; [by exists 7|]. split; [done|]. by exists 42, []. Qed.

(** the room of another node after an invalidation *)
Lemma room_after raw pkt a t d s s' n b : sys_ok s → pkt_addr pkt = Some a → 0 ≤ masterId (req pkt) → 0 ≤ d < 4 →
  0 ≤ n < NUMBER_OF_NODES → invalidatePacket raw pkt t d s = Ok (tt, s') → has_room s n b → has_room s' n b.
Proof.
  intros Hok Ha Hm Hd Hn Hrun ((c1 & Hc1 & R1) & (c2 & Hc2 & R2)).
  destruct (invalidatePacket_keys raw pkt a t d s n Hok Ha Hm Hd Hn) as (s'' & Hrun' & _ & K1 & K2).
  assert (s'' = s') as -> by congruence.
  destruct (K1 c1 Hc1) as (d1 & Hd1 & Hk1). destruct (K2 c2 Hc2) as (d2 & Hd2 & Hk2).
  split; [exists d1|exists d2]; (split; [done|]); by eapply same_keys_claimable.
Qed.

Lemma holds_ext s s' n a x b : L1DCache s' !z n = L1DCache s !z n → L2Cache s' !z n = L2Cache s !z n →
  holds s n a x b → holds s' n a x b.
Proof. unfold holds. by intros -> ->. Qed.

(** a write with room *)
Lemma write_runs raw pkt a b bs s : sys_ok s → full_packet pkt → pkt_addr pkt = Some a →
  pkt_bytes pkt = Some (b :: bs) → is_write pkt → has_room s (node_of pkt) a →
  ∃ s', process raw pkt s = Ok (tt, s') ∧ sys_ok s' ∧ holds s' (node_of pkt) a MESI_M (Some b).
Proof.
  intros Hok Hp Ha Hb Hw ((c1 & Hc1 & R1) & (c2 & Hc2 & R2)). pose proof Hp as (_ & [t Ht] & _).
  destruct (process_write_run raw pkt a t s c1 c2 Hok Hp Ha Ht Hc1 Hc2 R1 R2 MESI_M (Some b))
    as (c1' & s2 & s' & Hrun & Hok' & _ & _ & _ & _ & Hh).
  exists s'. split; [|done]. by rewrite (process_of_write raw pkt a b bs).
Qed.

(** a tag that is not there *)
Lemma tag_missing s pkt a c : sys_ok s → full_packet pkt → L1DCache s !z node_of pkt = Some c →
  lookup_tag (cache_index l1_lines a) (cache_tag a) c = None →
  ∃ w, checkTag (cache_index l1_lines a) (cache_tag a) c = Ok (w, c) ∧ WAYS c ≤ w.
Proof.
  intros Hok Hp Hc Hl. destruct (sys_l1d s Hok) as [_ F1].
  destruct (is_l1_index c a (Forall_vlookup _ _ _ _ F1 Hc)) as [W1 I1].
  destruct (checkTag_run c _ (cache_tag a) W1 I1) as (w & Tw & Rw). exists w. split; [done|].
  unfold lookup_tag in Hl. rewrite Tw in Hl. destruct (decide (w < WAYS c)); [|lia].
  destruct (cell_in_cache c (cache_index l1_lines a) w W1) as [cl Hcl]; [split; lia|congruence].
Qed.

Lemma initial_missing a : cache_tag a ≠ 0 →
  lookup_tag (cache_index l1_lines a) (cache_tag a) (ENoCCache_ENoCCache initial_line l1_lines l1_ways) = None.
Proof.
  intros Ht. pose proof (l1_index_range a) as Hi. unfold lookup_tag.
  assert (Hwf : cache_wf (ENoCCache_ENoCCache initial_line l1_lines l1_ways)) by by apply new_cache_wf.
  unfold checkTag. rewrite find_way_none; [by apply cell_outside|done|done|].
  intros v cl Hv. rewrite new_cell by done. intros [= <-]. apply bool_decide_eq_false. simpl. congruence.
Qed.

(** ** Properties *)

(** C26: A write or an upgrade of a line the directory knows, by a node with
    room for the line, takes the line over.  It returns; the node then holds the line in its L1
    data cache and in its L2 cache, with the address and the first byte of the packet and
    the state [M]; the copies of the line in the caches of every node the row records as an owner
    are invalid, and the caches of the other nodes are what they were; the row names the writer
    (in the slot with its number) and no one else; and exactly these messages
    are queued: an invalidation from the directory to each recorded owner, in the order of the
    nodes, and one message from the node to the directory. *)
Theorem write_takes_line raw pkt a t b bs s index row :
  sys_ok s → full_packet pkt → pkt_addr pkt = Some a → req_time (req pkt) = Some t → pkt_bytes pkt = Some (b :: bs) →
  is_write pkt → has_room s (node_of pkt) a → entry_at s (to_int a) index row →
  let n := node_of pkt in
  let i1 := cache_index l1_lines a in let i2 := cache_index l2_lines a in let tag := cache_tag a in
  ∃ s', process raw pkt s = Ok (tt, s') ∧ sys_ok s' ∧ holds s' n a MESI_M (Some b) ∧
    (∀ i c c', i ≠ n → L1DCache s !z i = Some c → L1DCache s' !z i = Some c' → drops i1 tag (recorded row i) c c') ∧
    (∀ i c c', L1ICache s !z i = Some c → L1ICache s' !z i = Some c' → drops i1 tag (recorded row i) c c') ∧
    (∀ i c c', i ≠ n → L2Cache s !z i = Some c → L2Cache s' !z i = Some c' → drops i2 tag (recorded row i) c c') ∧
    dir_lines (Directory s') =
      vinsert index (vinsert n MESI_E (cleared NUMBER_OF_NODES row)) (dir_lines (Directory s)) ∧
    packet_table s' = enqueue n 0 [directory_request raw n 1 t]
      (enqueue (directory_node 0) 2
         (inv_message raw (to_int t) 0 <$> filter (λ i, recorded row i) (seqZ 0 NUMBER_OF_NODES)) (packet_table s)).
Proof.
  intros Hok Hp Ha Ht Hb Hw ((c1 & Hc1 & R1) & (c2 & Hc2 & R2)) He n i1 i2 tag. pose proof Hp as (_ & _ & Hm & _).
  pose proof (node_of_range pkt Hm) as Hn6. fold n in Hn6.
  destruct (process_write_run raw pkt a t s c1 c2 Hok Hp Ha Ht Hc1 Hc2 R1 R2 MESI_M (Some b))
    as (c1' & s2 & s' & Hrun & Hok' & Hok1 & Hinv & (Hdir & Hl1i & Htb) & Hoth & Hh). fold n in Hok1, Hinv, Htb, Hoth, Hh.
  assert (Hd : Z.quot n 16 = 0) by (apply Z.quot_small; lia). rewrite Hd in Hinv.
  set (s1 := s.{L1DCache := vinsert n c1' (L1DCache s)}) in *. destruct He as (Hf & Hr & _ & Hlen).
  pose proof (invalidatePacket_known raw s1 a (to_int t) 0 index row Hok1 ltac:(lia) Hr Hlen pkt Ha Hm Hf) as Hinv'.
  assert (s2 = inv_final raw s1 a (to_int t) 0 index row n) as ->.
  { rewrite Hinv in Hinv'. by injection Hinv'. }
  exists s'. split; [by rewrite (process_of_write raw pkt a b bs)|]. split; [exact Hok'|]. split; [exact Hh|].
  destruct (sys_l1d s1 Hok1) as [Hn1 F1]. destruct (sys_l1i s Hok) as [Hn2 F2]. destruct (sys_l2 s Hok) as [Hn3 F3].
  split; [|split; [|split; [|split]]].
  - intros i c c' Hi Hc Hc'. rewrite (proj1 (Hoth i Hi)) in Hc'.
    apply (swept_drops is_l1 row i1 tag (L1DCache s1) i c c'); [intros c0; apply is_l1_index|exact F1|exact Hn1| |exact Hc'].
    simpl. by rewrite vlookup_vinsert_ne.
  - intros i c c' Hc Hc'. rewrite Hl1i in Hc'.
    apply (swept_drops is_l1 row i1 tag (L1ICache s) i c c'); [intros c0; apply is_l1_index|exact F2|exact Hn2|exact Hc|exact Hc'].
  - intros i c c' Hi Hc Hc'. rewrite (proj2 (Hoth i Hi)) in Hc'.
    apply (swept_drops is_l2 row i2 tag (L2Cache s) i c c'); [intros c0; apply is_l2_index|exact F3|exact Hn3|exact Hc|exact Hc'].
  - rewrite Hdir. simpl. by rewrite vinsert_vinsert.
  - exact Htb.
Qed.

Lemma write_takes_line_witness :
  ∃ s', process blank_packet (request_from 2 0 WriteReq) initial_system = Ok (tt, s') ∧
    holds s' 2 0 MESI_M (Some 42) ∧
    dir_lines (Directory s') !z 0 = Some (vinsert 2 MESI_E (cleared 64 (replicate 65 0))).
Proof.
  destruct (write_takes_line blank_packet (request_from 2 0 WriteReq) 0 7 42 [] initial_system 0 (replicate 65 0))
    as (s' & H1 & _ & H2 & _ & _ & _ & H3 & _); [exact initial_system_ok|by apply request_full|reflexivity|reflexivity|reflexivity
    |left; reflexivity|apply initial_room; vm_compute; split; [discriminate|reflexivity]|exact initial_entry|].
  exists s'. split; [exact H1|]. split; [exact H2|]. rewrite H3. reflexivity.
Defined.

(** C34: The protocol does not keep a single writer: after a write of a known
    line by node [n >= 1] and then by another node [m], both nodes hold the
    line modified, each with its own data, in the L1 and the L2 caches. *)
Theorem two_modified_copies raw pkt1 pkt2 a b1 bs1 b2 bs2 s index row :
  sys_ok s → entry_at s (to_int a) index row →
  full_packet pkt1 → pkt_addr pkt1 = Some a → pkt_bytes pkt1 = Some (b1 :: bs1) → is_write pkt1 →
  full_packet pkt2 → pkt_addr pkt2 = Some a → pkt_bytes pkt2 = Some (b2 :: bs2) → is_write pkt2 →
  let n := node_of pkt1 in let m := node_of pkt2 in
  1 ≤ n → m ≠ n → has_room s n a → has_room s m a →
  ∃ s1 s2, process raw pkt1 s = Ok (tt, s1) ∧ process raw pkt2 s1 = Ok (tt, s2) ∧
    holds s2 n a MESI_M (Some b1) ∧ holds s2 m a MESI_M (Some b2).
Proof.
  intros Hok He Hp1 Ha1 Hb1 Hw1 Hp2 Ha2 Hb2 Hw2 n m Hn Hmn ((c1 & Hc1 & R1) & (c2 & Hc2 & R2)) Hroom2.
  pose proof Hp1 as (_ & [t1 Ht1] & Hm1 & _). pose proof Hp2 as (_ & [t2 Ht2] & Hm2 & _).
  pose proof (node_of_range pkt1 Hm1) as Hn6. pose proof (node_of_range pkt2 Hm2) as Hm6.
  fold n in Hn6. fold m in Hm6.
  destruct (process_write_run raw pkt1 a t1 s c1 c2 Hok Hp1 Ha1 Ht1 Hc1 Hc2 R1 R2 MESI_M (Some b1))
    as (c1' & s1i & s1 & Hrun1 & Hok1 & Hok1a & Hinv1 & (Hdir1 & _ & _) & Hoth1 & Hh1). fold n in Hinv1, Hoth1, Hh1, Hok1a.
  assert (Hroom1 : has_room s1 m a).
  { assert (Hr : has_room s1i m a).
    { apply (room_after raw pkt1 a (to_int t1) (Z.quot n 16) _ s1i m a Hok1a Ha1 Hm1 (node_quot pkt1 Hp1));
        [unfold NUMBER_OF_NODES; lia|exact Hinv1|]. destruct Hroom2 as [(x & Hx & Rx) H2].
      split; [|exact H2]. exists x. split; [|done]. simpl. by rewrite vlookup_vinsert_ne. }
    unfold has_room in *. destruct (Hoth1 m Hmn) as [-> ->]. exact Hr. }
  destruct Hroom1 as ((e1 & He1 & Q1) & (e2 & He2 & Q2)).
  destruct (process_write_run raw pkt2 a t2 s1 e1 e2 Hok1 Hp2 Ha2 Ht2 He1 He2 Q1 Q2 MESI_M (Some b2))
    as (e1' & s2i & s2 & Hrun2 & Hok2 & Hok2a & Hinv2 & (Hdir2 & _ & _) & Hoth2 & Hh2). fold m in Hinv2, Hoth2, Hh2, Hok2a.
  exists s1, s2. split; [by rewrite (process_of_write raw pkt1 a b1 bs1)|].
  split; [by rewrite (process_of_write raw pkt2 a b2 bs2)|]. split; [|done].
  destruct (second_write raw pkt1 pkt2 a _ _ _ _ _ s1i _ s2i index row Hok1a He Ha1 Ha2 Hm1 Hm2
    (node_quot pkt1 Hp1) (node_quot pkt2 Hp2) Hn Hinv1 Hok2a Hdir1 Hinv2) as (row1 & Hs2i & Hrec).
  fold m in Hs2i. fold n in Hrec.
  pose proof (recorded_one_keeps raw (s1.{L1DCache := vinsert m e1' (L1DCache s1)}) a (to_int t2) (Z.quot m 16)
    index row1 m (n - 1) Hrec n ltac:(lia)) as (K1 & _ & K2).
  cbv zeta in K1, K2. rewrite <-Hs2i in K1, K2. destruct (Hoth2 n ltac:(congruence)) as [E1 E2].
  apply (holds_ext s1); [|rewrite E2, K2; done|done]. rewrite E1, K1. simpl. by rewrite vlookup_vinsert_ne.
Qed.

Lemma two_modified_copies_witness :
  ∃ s1 s2, process blank_packet (request_from 2 0 WriteReq) initial_system = Ok (tt, s1) ∧
    process blank_packet (request_from 3 0 WriteReq) s1 = Ok (tt, s2) ∧
    holds s2 2 0 MESI_M (Some 42) ∧ holds s2 3 0 MESI_M (Some 42).
Proof.
  destruct (two_modified_copies blank_packet (request_from 2 0 WriteReq) (request_from 3 0 WriteReq) 0
    42 [] 42 [] initial_system 0 (replicate 65 0)) as (s1 & s2 & H);
    [exact initial_system_ok|exact initial_entry|by apply request_full|reflexivity|reflexivity|left; reflexivity
    |by apply request_full|reflexivity|reflexivity|left; reflexivity|vm_compute; discriminate
    |vm_compute; discriminate
    |apply initial_room; vm_compute; split; [discriminate|reflexivity]
    |apply initial_room; vm_compute; split; [discriminate|reflexivity]|].
  exists s1, s2. exact H.
Defined.

(** A read that hits a valid line of the L1 data cache of its node changes
    nothing but the replacement counters of that line: no message, no
    directory access, no other cache. *)
Theorem read_hit_is_local raw pkt a b bs s c l :
  sys_ok s → full_packet pkt → pkt_addr pkt = Some a → pkt_bytes pkt = Some (b :: bs) →
  request_case (isInstFetch (req pkt)) (pkt_cmd pkt) = 1 →
  L1DCache s !z node_of pkt = Some c → lookup_tag (cache_index l1_lines a) (cache_tag a) c = Some l →
  valid_mesi (MESIbits l) = true →
  ∃ c', process raw pkt s = Ok (tt, s.{L1DCache := vinsert (node_of pkt) c' (L1DCache s)}) ∧
    lru_frame (cache_index l1_lines a) c c'.
Proof.
  intros Hok Hp Ha Hb Hcase Hc Hl Hv. destruct (sys_l1d s Hok) as [_ F1].
  pose proof (Forall_vlookup _ _ _ _ F1 Hc) as Hc1. destruct (is_l1_index c a Hc1) as [W1 I1].
  destruct (checkTag_run c _ (cache_tag a) W1 I1) as (w & Tw & Rw).
  unfold lookup_tag in Hl. rewrite Tw in Hl.
  assert (Hw : w < WAYS c).
  { destruct (decide (w < WAYS c)); [done|]. by rewrite cell_outside in Hl by (done || lia). }
  destruct (touch_run c _ w W1 (conj I1 (conj (proj1 Rw) Hw))) as (c' & Hrun & _ & Hf).
  exists c'. split; [|done]. rewrite (process_dispatch raw pkt a b bs) by done. cbv zeta. rewrite Hcase.
  rewrite decide_False, decide_True by done. unfold process_read, on_L1, mbind, M_bind.
  rewrite (on_L1D_read _ _ _ _ _ Hc Tw), (on_L1D_read _ (gets WAYS) _ _ _ Hc eq_refl), decide_True by done.
  rewrite (on_L1D_read _ _ _ _ _ Hc (of_line_run _ _ _ _ MESIbits Hl)), Hv.
  by apply (on_L1D_run _ _ _ c).
Qed.

Lemma read_hit_is_local_witness :
  ∃ s1 s2 c', process blank_packet (request_from 2 8192 WriteReq) initial_system = Ok (tt, s1) ∧
    process blank_packet (request_from 2 8192 ReadReq) s1 = Ok (tt, s2) ∧
    s2 = s1.{L1DCache := vinsert 2 c' (L1DCache s1)}.
Proof.
  destruct (write_runs blank_packet (request_from 2 8192 WriteReq) 8192 42 [] initial_system)
    as (s1 & H1 & Hok1 & ((c & l & Hc & Hl & Hm & _) & _)); [exact initial_system_ok|by apply request_full|reflexivity
    |reflexivity|left; reflexivity|apply initial_room; vm_compute; split; [discriminate|reflexivity]|].
  destruct (read_hit_is_local blank_packet (request_from 2 8192 ReadReq) 8192 42 [] s1 c l) as (c' & H2 & _);
    [exact Hok1|by apply request_full|reflexivity|reflexivity|reflexivity|exact Hc|exact Hl|by rewrite Hm|].
  exists s1. eexists. exists c'. split; [exact H1|]. split; [exact H2|reflexivity].
Defined.

(** A read of a line that is neither in the L1 data cache of the
    node nor known to the directory, at an address of 4 GiB or above,
    fails: the packet table is indexed with [addr >> 26], which is not a node. *)
Theorem read_above_4GiB_faults raw pkt a b bs s c :
  sys_ok s → full_packet pkt → pkt_addr pkt = Some a → pkt_bytes pkt = Some (b :: bs) → 2 ^ 32 ≤ a →
  request_case (isInstFetch (req pkt)) (pkt_cmd pkt) = 1 →
  L1DCache s !z node_of pkt = Some c → lookup_tag (cache_index l1_lines a) (cache_tag a) c = None →
  find_entry (to_int a) (dir_lines (Directory s)) 0 = Ok None →
  process raw pkt s = Fault OutOfRange.
Proof.
  intros Hok Hp Ha Hb Hbig Hcase Hc Hl Hf. pose proof Hp as (_ & [t Ht] & _).
  destruct (tag_missing s pkt a c Hok Hp Hc Hl) as (w & Tw & Rw).
  rewrite (process_dispatch raw pkt a b bs) by done. cbv zeta. rewrite Hcase, decide_False, decide_True by done.
  unfold process_read, on_L1, mbind, M_bind.
  rewrite (on_L1D_read _ _ _ _ _ Hc Tw), (on_L1D_read _ (gets WAYS) _ _ _ Hc eq_refl), decide_False by lia.
  unfold ask_directory, mbind, M_bind, lift, request_time. rewrite Ht. cbn [of_option].
  rewrite (receivePacket_unknown raw pkt a) by done.
  by rewrite (fetch_above_4GiB raw _ _ _ _ _ pkt a) by (first [done | by apply add_newline_ok]).
Qed.

Lemma read_above_4GiB_faults_witness :
  process blank_packet (request_from 2 (2 ^ 32 + 4096) ReadReq) initial_system = Fault OutOfRange.
Proof.
  apply (read_above_4GiB_faults blank_packet (request_from 2 (2 ^ 32 + 4096) ReadReq) (2 ^ 32 + 4096) 42 [] initial_system
    (ENoCCache_ENoCCache initial_line l1_lines l1_ways));
    [exact initial_system_ok|by apply request_full|reflexivity|reflexivity|lia|reflexivity|reflexivity
    |apply initial_missing; vm_compute; discriminate|reflexivity].
Defined.

(** The eviction of a line that is not in the L1 data cache
    of the node fails: the miss leaves the way at [WAYS], and the data to
    write back are read from that way. *)
Theorem evict_miss_faults raw pkt a b bs s c :
  sys_ok s → full_packet pkt → pkt_addr pkt = Some a → pkt_bytes pkt = Some (b :: bs) →
  request_case (isInstFetch (req pkt)) (pkt_cmd pkt) = 5 →
  L1DCache s !z node_of pkt = Some c → lookup_tag (cache_index l1_lines a) (cache_tag a) c = None →
  process raw pkt s = Fault OutOfRange.
Proof.
  intros Hok Hp Ha Hb Hcase Hc Hl. pose proof Hp as (_ & [t Ht] & Hm & _). pose proof (node_of_range pkt Hm) as Hn.
  destruct (tag_missing s pkt a c Hok Hp Hc Hl) as (w & Tw & Rw).
  assert (Hwf : cache_wf c) by (destruct (sys_l1d s Hok) as [_ F1]; apply (Forall_vlookup _ _ _ _ F1 Hc)).
  rewrite (process_dispatch raw pkt a b bs) by done. cbv zeta. rewrite Hcase.
  do 4 rewrite decide_False by (done || lia). rewrite decide_True by done.
  unfold process_evict, getAddr. rewrite Ha. unfold mbind, M_bind, lift. cbn [of_option].
  rewrite (on_L1D_read _ _ _ _ _ Hc Tw).
  assert (Hmark : mark (cache_index l1_lines a) w MESI_I c = Ok (tt, c))
    by (unfold mark, mbind, M_bind, get; by rewrite bool_decide_false by lia).
  rewrite (on_L1D_read _ _ _ _ _ Hc Hmark).
  destruct (evictPacket_run pkt a s Hok Ha Hm) as (f & -> & Hok' & _).
  destruct (send_to_directory_run raw (node_of pkt) 2 pkt t (with_rows f s) Hok' Ht) as (tb & -> & _);
    [unfold NUMBER_OF_NODES; lia|lia|].
  unfold request_time. rewrite Ht. cbn [of_option].
  unfold on_L1D, zoom. rewrite (zoom_at_Some _ _ _ c) by done.
  by rewrite of_line_outside by (apply cell_outside; [done|lia]).
Qed.

Lemma evict_miss_faults_witness :
  process blank_packet (request_from 2 (2 ^ 21) CleanEvict) initial_system = Fault OutOfRange.
Proof.
  apply (evict_miss_faults blank_packet (request_from 2 (2 ^ 21) CleanEvict) (2 ^ 21) 42 [] initial_system
    (ENoCCache_ENoCCache initial_line l1_lines l1_ways));
    [exact initial_system_ok|by apply request_full|reflexivity|reflexivity|reflexivity|reflexivity
    |apply initial_missing; vm_compute; discriminate].
Defined.

(** How the 41 commands are classified: only [CleanEvict]
    takes the eviction case (the write-backs are writes), only [UpgradeReq], [SCUpgradeReq] and
    [UpgradeResp] are upgrades and handled as writes, only the two invalidation
    commands take the invalidation case, and every response that carries data or
    acknowledges a write is handled like a request. *)
Theorem command_cases (c : Command) :
  (request_case false c = 5 ↔ c = CleanEvict) ∧
  (request_case false c = 3 ↔ c = UpgradeReq ∨ c = SCUpgradeReq ∨ c = UpgradeResp) ∧
  (request_case false c = 4 ↔ c = InvalidateReq ∨ c = InvalidateResp) ∧
  (isRead c = true → request_case false c = 1) ∧
  (isWrite c = true → isRead c = false → request_case false c = 2) ∧
  (isWriteback c = true → request_case false c = 2) ∧ request_case true c = 0.
Proof. destruct c; vm_compute; naive_solver. Qed.
