(* ===== verification/TrafficManager.v ===== *)
(** * The traffic manager ([trafficmanager.h], [trafficmanager.cpp]) and its
    hook in the crossbar ([CoherentXBar::recvAtomic])

    A [TrafficManager] owns the caches, the directory and the packet table
    ([MemSystem]) and drives the network: every cycle it takes packets whose
    time has come from the table, cuts them into flits and writes the
    flits to the injection channels of the nodes. *)

From S2P Require Import Prelude Double NoCMain Config Element Stats Channel.
From S2P Require Import VirtualChannel Router Network MemPacket Cache Directory Process.

(** [_nodes], [_routers], [_vcs], [_net] and [_router] are prefixed with [tm]: the
    network and the routers have members of the same names.  [tm_seq] is the
    static variable of [nextFlit]. *)
Record TrafficManager := mkTrafficManager {
  tm_nodes : Z;
  tm_routers : Z;
  tm_vcs : Z;
  tm_net : NetworkNoC;
  tm_router : list (option Z);
  packet_queue_length : Z;
  in_use_vc : list (list Z);
  sys : MemSystem;
  packet_queue : list (list (list PacketNoC));
  tm_seq : Z;
}.
#[export] Instance TrafficManager_settable : Settable TrafficManager := λ r,
  mkTrafficManager (tm_nodes r) (tm_routers r) (tm_vcs r) (tm_net r) (tm_router r)
    (packet_queue_length r) (in_use_vc r) (sys r) (packet_queue r) (tm_seq r).

Definition on_net {A} : M NetworkNoC A → M TrafficManager A := zoom tm_net (λ n t, t.{tm_net := n}).
Definition on_sys {A} : M MemSystem A → M TrafficManager A := zoom sys (λ s t, t.{sys := s}).
Definition on_heap {A} (m : M (list Flit) A) : M TrafficManager A := on_net (on_world (on_flits m)).
(** a queue of [packet_table] or [packet_queue] *)
Definition on_table {A} (src type : Z) (m : M (list PacketNoC) A) : M TrafficManager A :=
  on_sys (zoom packet_table (λ t s, s.{packet_table := t}) (zoom_at src (zoom_at type m))).
Definition on_queue {A} (src type : Z) (m : M (list PacketNoC) A) : M TrafficManager A :=
  zoom packet_queue (λ q t, t.{packet_queue := q}) (zoom_at src (zoom_at type m)).
Definition on_in_use {A} (src type : Z) (m : M Z A) : M TrafficManager A :=
  zoom in_use_vc (λ v t, t.{in_use_vc := v}) (zoom_at src (zoom_at type m)).
(** [_ru[node]->_buf[4]] *)
Definition on_inject_buf {A} (node : Z) (m : M Buffer A) : M TrafficManager A :=
  ru ← gets (λ t, GetRouters (tm_net t));
  r ← lift (vget ru node);
  r ← nonnull r;
  on_net (on_world (on_router r (on_buf 4 m))).
Definition ask_inject_buf {A} (node : Z) (q : Buffer → res A) : M TrafficManager A :=
  ru ← gets (λ t, GetRouters (tm_net t));
  r ← lift (vget ru node);
  r ← nonnull r;
  on_net (on_world (on_router r (ask_buf 4 q))).

(** ** [std::queue] and [std::string] *)

Definition front {A} : M (list A) A := λ q,
  match q with x :: _ => Ok (x, q) | [] => Fault OutOfRange end.
Definition pop {A} : M (list A) unit := modify tail.
(** [q.front().flit_left--] *)
Definition update_front {A} (g : A → A) : M (list A) unit := λ q,
  match q with x :: q' => Ok (tt, g x :: q') | [] => Fault OutOfRange end.
(** [s[k]]: the character after the last one is ['\0'] *)
Definition str_at (s : list Z) (k : Z) : res Z := vget (s ++ [0]) k.

(** ** Construction *)

Section build.
(** the storage of the cache lines, by cache array and node, and that of the
    counter the constructor leaves unset *)
Variables (raw_cache : Z → Z → Z → Z → cacheline) (raw_length : Z).

Definition new_cache (raw : Z → Z → cacheline) (lines ways : Z) : res ENoCCache :=
  r ← setLRUbitsToWay (ENoCCache_ENoCCache raw lines ways); Ok r.2.
(** the loop over the nodes, for one of the three arrays *)
Definition new_caches (array lines ways nodes : Z) : res (list ENoCCache) :=
  fold_res (λ i l, c ← new_cache (raw_cache array i) lines ways; Ok (l ++ [c])) (seqZ 0 nodes) [].

Definition TrafficManager_TrafficManager (net : NetworkNoC) : res TrafficManager :=
  let nodes := NumNodes net in
  let num_of_type := 3 in
  l1d ← new_caches 0 16484 8 nodes;
  l1i ← new_caches 1 16484 8 nodes;
  l2 ← new_caches 2 32968 16 nodes;
  dir ← ENoCDir_ENoCDir l1d l1i l2;
  let empty_queues := replicate (Z.to_nat nodes) (replicate (Z.to_nat num_of_type) []) in
  Ok (mkTrafficManager nodes (NumRouters net) DEFAULT_NUM_VCS net (GetRouters net) raw_length
        (replicate (Z.to_nat nodes) (replicate (Z.to_nat num_of_type) 0))
        (mkMemSystem l1d l1i l2 dir empty_queues) empty_queues 0).

Definition TrafficManager_New := TrafficManager_TrafficManager.
End build.

(** ** Packets *)

Definition load_traffic (pk : PacketNoC) (src type : Z) : M TrafficManager bool :=
  on_table src type (modify (λ q, q ++ [pk])) ;; mret true.

(** the number of flits a packet is cut into *)
Definition size_of_packet (pk : PacketNoC) : Z := if decide (zlength (pk_data pk) = 1) then 2 else 18.

(** [pk] is an output parameter, which the caller only uses when the result
    is [true]: the two results are one option *)
Definition ReadPacket (time src type : Z) : M TrafficManager (option PacketNoC) :=
  q ← on_table src type get;
  match q with
  | [] => mret None
  | pk :: _ =>
      if decide (time >= pk_time pk ∧ pk_src_id pk = src) then
        on_table src type pop ;;
        mret (Some pk.{pk_size := size_of_packet pk}.{pk_flit_left := size_of_packet pk})
      else mret None
  end.

(** [toInt]: the [-1] of the last line is converted to [unsigned int] *)
Definition toInt (c : Z) : Z :=
  if decide (48 ≤ c ≤ 57) then c - 48
  else if decide (65 ≤ c ≤ 70) then 10 + c - 65
  else if decide (97 ≤ c ≤ 102) then 10 + c - 97
  else 2 ^ 32 - 1.

(** the byte [output[i]] of two characters *)
Definition byte_of (c1 c2 : Z) : Z := to_uint 8 (16 * toInt c1 + toInt c2).
(** the shifts and additions of [u] *)
Definition word_of (output : list Z) : Z :=
  foldl (λ u b, to_uint 32 (Z.shiftl u 8 + b)) 0 output.

(** the payload of a body flit: eight characters of the data, from
    [flit_size * 8] on *)
Definition body_payload (data : list Z) (flit_left : Z) : res Z :=
  let flit_size := 18 - flit_left - 1 in
  s2 ← fold_res (λ j s, c ← str_at data (flit_size * 8 + j); Ok (s ++ [c])) (seqZ 0 8) [];
  output ← fold_res (λ i o, c1 ← vget s2 (2 * i); c2 ← vget s2 (2 * i + 1); Ok (o ++ [byte_of c1 c2]))
    (seqZ 0 4) [];
  Ok (word_of output).

Section clk.
(** the storage [new] returns for the flit with this address *)
Variable raw_flit : flit_ptr → Flit.

Definition new_Flit : M (list Flit) flit_ptr := h ← get; Flit_New (raw_flit (length h)).

(** the end of [nextFlit]: the flit is taken from its packet *)
Definition advance (src type : Z) : M TrafficManager unit :=
  on_queue src type (update_front (λ p, p.{pk_flit_left ::= λ n, to_int (n - 1)})) ;;
  p ← on_queue src type front;
  when (bool_decide (pk_flit_left p = 0))
    (on_queue src type pop ;;
     modify (λ t, t.{packet_queue_length ::= λ n, to_int (n - 1)})).

Definition nextFlit (src global_clk type : Z) : M TrafficManager flit_ptr :=
  flit ← on_heap new_Flit;
  packet ← on_queue src type front;
  on_heap (update flit (λ f, f.{src_id := pk_src_id packet}.{dst_id := pk_dst_id packet}
    .{packet_type := pk_packet_type packet}.{flit_is_inverted := false}.{flipNumber := 0})) ;;
  (if decide (pk_size packet = pk_flit_left packet) then
     on_heap (update flit (λ f, f.{flit_type := FLIT_TYPE_HEAD})) ;;
     modify (λ t, t.{tm_seq := 0})
   else if decide (pk_flit_left packet = 1) then
     on_heap (update flit (λ f, f.{flit_type := FLIT_TYPE_TAIL})) ;;
     modify (λ t, t.{tm_seq ::= λ s, to_int (s + 1)})
   else
     on_heap (update flit (λ f, f.{flit_type := FLIT_TYPE_BODY})) ;;
     modify (λ t, t.{tm_seq ::= λ s, to_int (s + 1)}) ;;
     u ← lift (body_payload (pk_data packet) (pk_flit_left packet));
     on_heap (update flit (λ f, f.{payload := u}))) ;;
  seq ← gets tm_seq;
  on_heap (update flit (λ f, f.{sequence_no := seq}.{timestamp := global_clk})) ;;
  advance src type ;;
  mret flit.

(** ** Virtual channels of the injection port *)

Definition IsNextFlitHead (nodes type : Z) : M TrafficManager bool :=
  packet ← on_queue nodes type front;
  mret (bool_decide (pk_size packet = pk_flit_left packet)).

Definition SetIdleStateForVC (nodes vc_number : Z) (s : VCState) : M TrafficManager unit :=
  on_inject_buf nodes (Buffer_SetState vc_number s).

Definition TM_FindFreeSpace (nodes vc_number : Z) : M TrafficManager bool :=
  if decide (vc_number ≠ -1) then
    size ← ask_inject_buf nodes (Buffer_GetOccupancy vc_number);
    mret (bool_decide (size < DEFAULT_VCS_SIZE))
  else mret false.

(** the loop keeps the candidate and its occupancy; nothing calls this method *)
Definition FindAvailableVC (nodes : Z) : M TrafficManager Z :=
  occup_tmp ← ask_inject_buf nodes (Buffer_GetOccupancy 0);
  vcs ← gets tm_vcs;
  r ← fold_M (λ vc_number acc,
    occup ← ask_inject_buf nodes (Buffer_GetOccupancy vc_number);
    mret (if decide (occup ≤ acc.2) then (vc_number, occup) else acc)) (seqZ 1 (vcs - 1)) (-1, occup_tmp);
  mret r.1.

(** the loop of [FindIdleVC] over the VC numbers *)
Fixpoint TM_find_idle (nodes : Z) (vc_numbers : list Z) : M TrafficManager Z :=
  match vc_numbers with
  | [] => mret (-1)
  | vc_number :: rest =>
      state ← ask_inject_buf nodes (Buffer_GetState vc_number);
      if decide (state = idle) then
        on_inject_buf nodes (Buffer_SetState vc_number routing) ;; mret vc_number
      else TM_find_idle nodes rest
  end.
Definition TM_FindIdleVC (nodes : Z) : M TrafficManager Z :=
  vcs ← gets tm_vcs; TM_find_idle nodes (seqZ 2 (vcs - 2)).

(** the [switch] of [SendFlit] *)
Definition choose_vc (nodes type : Z) : M TrafficManager Z :=
  if decide (type = 0) then mret 0
  else if decide (type = 1) then mret 1
  else if decide (type = 2) then TM_FindIdleVC nodes
  else mret (-1).

Definition SendFlit (nodes global_clk type : Z) : M TrafficManager unit :=
  head ← IsNextFlitHead nodes type;
  if (head : bool) then
    out_vc ← choose_vc nodes type;
    when (bool_decide (out_vc ≠ -1))
      (f ← nextFlit nodes global_clk type;
       on_heap (update f (λ fl, fl.{f_vc := out_vc})) ;;
       on_net (WriteFlit (Some f) nodes) ;;
       on_in_use nodes type (modify (λ _, out_vc)) ;;
       SetIdleStateForVC nodes out_vc routing)
  else
    vc ← on_in_use nodes type get;
    free ← TM_FindFreeSpace nodes vc;
    when free
      (f ← nextFlit nodes global_clk type;
       vc ← on_in_use nodes type get;
       on_heap (update f (λ fl, fl.{f_vc := vc})) ;;
       fl ← on_heap (deref f);
       when (bool_decide (flit_type fl = FLIT_TYPE_TAIL)) (on_in_use nodes type (modify (λ _, -1))) ;;
       on_net (WriteFlit (Some f) nodes)).

(** ** One cycle *)

(** the body of the inner loop of [clk] *)
Definition serve (global_clk nodes types : Z) : M TrafficManager unit :=
  pk ← ReadPacket global_clk nodes types;
  match pk with
  | Some pk => on_queue nodes types (modify (λ q, q ++ [pk]))
  | None => mret tt
  end ;;
  q ← on_queue nodes types get;
  when (bool_decide (q ≠ [])) (SendFlit nodes global_clk types).

Definition TM_clk (global_clk : Z) : M TrafficManager unit :=
  on_net (Network_clk global_clk) ;;
  nodes ← gets tm_nodes;
  for_range 0 nodes (λ n, for_range 0 3 (serve global_clk n)).

(** ** The hook of the crossbar *)

(** the lines added to [CoherentXBar::recvAtomic]; [tick] is [curTick()] and [raw] the
    storage of the local packets of the handlers *)
Definition recvAtomic (raw : PacketNoC) (pkt : Packet) (tick : Z) : M TrafficManager unit :=
  on_sys (process raw pkt) ;; TM_clk (to_int tick).
End clk.
