(* ===== verification/TrafficRun.v ===== *)
(** * The traffic manager and the network

    What the traffic manager does to the network between two cycles (it
    allocates flits, writes them to injection channels and sets states of
    virtual channels) keeps the invariant of the network; therefore every access
    of the memory system keeps the invariant of the whole system. *)

From S2P Require Import Prelude Double NoCMain Config Element Stats Channel.
From S2P Require Import VirtualChannel Allocator FlitCoding Router Network RouterInv RouterSafe.
From S2P Require Import NetworkSafe Mesh NetworkRun MemPacket Cache Directory Process TrafficManager.

(** ** Steps of the traffic manager on the network *)

Definition net_ok_at (w : World) (K : flit_ptr → Prop) : Prop := net_ok (length (flits w)) K w.
(** the network is in a state of its invariant *)
Definition net_fine (n : NetworkNoC) : Prop := ∃ w K, n = net_at w ∧ net_ok_at w K.
(** ... and [p] is a flit with [Φ] that is not in the network yet *)
Definition net_with (p : flit_ptr) (Φ : Flit → Prop) (n : NetworkNoC) : Prop :=
  ∃ w K f, n = net_at w ∧ net_ok_at w K ∧ ¬ K p ∧ flits w !! p = Some f ∧ Φ f.

Lemma placed_in_heap w K p : net_ok_at w K → K p → (p < length (flits w))%nat.
Proof.
  intros Hw [l Hp]%(pl_all _ _ _ (no_placed _ _ _ Hw)).
  destruct (pl_ok _ _ _ (no_placed _ _ _ Hw) _ _ Hp) as (f & Hf & _). by apply lookup_lt_Some in Hf.
Qed.

Definition grown (f : Flit) (w : World) : World := w.{flits := flits w ++ [f] }.
Lemma net_alloc_run raw w :
  on_world (on_flits (new_Flit raw)) (net_at w) =
    Ok (length (flits w), net_at (grown (Flit_Flit (raw (length (flits w)))) w)).
Proof. done. Qed.
Lemma grown_ok w K f : net_ok_at w K → net_ok_at (grown f w) K.
Proof.
  intros Hw. unfold net_ok_at. eapply heap_ok; [exact Hw|done|simpl; rewrite length_app; lia|].
  intros p g _ Hg. by apply lookup_app_l_Some.
Qed.

Definition updated (p : flit_ptr) (f : Flit) (w : World) : World := w.{flits := <[p := f]> (flits w)}.
Lemma net_update_run p g w f :
  flits w !! p = Some f → on_world (on_flits (update p g)) (net_at w) = Ok (tt, net_at (updated p (g f) w)).
Proof. intros Hf. apply on_world_at. by apply update_run. Qed.
Lemma updated_ok w K p f : net_ok_at w K → ¬ K p → net_ok_at (updated p f w) K.
Proof.
  intros Hw Hp. unfold net_ok_at. eapply heap_ok; [exact Hw|done|simpl; rewrite length_insert; lia|].
  intros q g Hq Hg. rewrite list_lookup_insert_ne; [done|]. by intros ->.
Qed.

Lemma net_write_run p n w fc :
  0 ≤ n < 64 → channels w !z n = Some fc →
  WriteFlit (Some p) n (net_at w) = Ok (tt, net_at (sent_into n p fc w)).
Proof.
  intros Hn Hfc. unfold WriteFlit. eapply bind_Ok; [done|].
  eapply bind_Ok; [unfold check; rewrite bool_decide_true by done; done|].
  eapply bind_Ok; [by apply (nth_seqZ 0 64)|].
  apply on_world_at. by rewrite (on_channel_run _ _ _ fc tt
    (fc.{base_channel ::= λ ch, ch.{_input := Some p} })) by done.
Qed.
Lemma sent_ok_at w K n fc p f :
  net_ok_at w K → 0 ≤ n < 64 → channels w !z n = Some fc → ¬ K p → flits w !! p = Some f →
  countable_flit f → 0 ≤ f_vc f < DEFAULT_NUM_VCS →
  net_ok_at (sent_into n p fc w) (λ q, q = p ∨ (K q ∧ _input (base_channel fc) ≠ Some q)).
Proof.
  intros Hw Hn Hfc Hp Hf Hcf Hv. apply (send_ok _ _ _ _ _ _ f); try done.
  intros m o Hm Hc. pose proof (mesh_out_range m o n Hm Hc). lia.
Qed.

Lemma router_pointer w n : 0 ≤ n < NUMBER_OF_NODES → vget (GetRouters (net_at w)) n = Ok (Some n).
Proof.
  unfold NUMBER_OF_NODES. intros Hn. apply vget_Some, vlookup_Some. split; [lia|].
  change (GetRouters (net_at w)) with (Some <$> seqZ 0 64).
  rewrite list_lookup_fmap, lookup_seqZ_lt by lia. simpl. do 2 f_equal. lia.
Qed.

Lemma inject_channel w K n : net_ok_at w K → 0 ≤ n < 64 → ∃ fc, channels w !z n = Some fc.
Proof. intros Hw Hn. apply vlookup_in_range. rewrite (no_clen _ _ _ Hw). simpl. lia. Qed.

(** the virtual channel [v] of the injection port of router [n] *)
Lemma inject_vc w K n v : net_ok_at w K → 0 ≤ n < 64 → 0 ≤ v < DEFAULT_NUM_VCS →
  ∃ r c, routers w !z n = Some r ∧ vc_at r 4 v = Some c.
Proof.
  intros Hw Hn Hv. destruct (vlookup_in_range (routers w) n) as [r Hr].
  { rewrite (no_len _ _ _ Hw). simpl. lia. }
  destruct (no_routers _ _ _ Hw n r Hr) as [Hok _].
  destruct (vc_at_exists _ n r 4 v (ro_base _ _ _ Hok)) as (c & Hc & _); [lia|done|]. by exists r, c.
Qed.

Definition forced (n v : Z) (s : VCState) (r : ENoCRouter) (c : VirtualChannel) (w : World) : World :=
  w.{routers ::= vinsert n (set_vc 4 v (c.{_state := s}) r)}.
Lemma net_state_run n v s r c w :
  routers w !z n = Some r → vc_at r 4 v = Some c →
  on_world (on_router n (on_buf 4 (Buffer_SetState v s))) (net_at w) = Ok (tt, net_at (forced n v s r c w)).
Proof. intros Hr Hc. apply on_world_at. eapply on_router_run; [done|]. by eapply on_vc_set. Qed.
Lemma forced_ok w K n v s r c : net_ok_at w K → s ≠ active → routers w !z n = Some r → vc_at r 4 v = Some c →
  net_ok_at (forced n v s r c w) K.
Proof. intros Hw Hs Hr Hc. by apply force_state_ok. Qed.

Lemma net_ask_run {A} n v (g : VirtualChannel → A) r c w :
  routers w !z n = Some r → vc_at r 4 v = Some c →
  on_world (on_router n (ask_buf 4 (of_vc v g))) (net_at w) = Ok (g c, net_at w).
Proof. intros Hr Hc. apply on_world_at. eapply on_router_read; [done|]. by apply ask_vc_run. Qed.

Lemma net_clk_fine clk n : net_fine n → ∃ n', Network_clk clk n = Ok (tt, n') ∧ net_fine n'.
Proof.
  intros (w & K & -> & Hw). assert (Hnn : 0 ≤ n_nodes) by (simpl; lia).
  destruct (cycle_run _ Hnn K clk w Hw) as (w' & Hrun & Hw' & _ & Hl & _).
  exists (net_at w'). split; [by apply Network_clk_run|]. exists w', (NetworkSafe.kept K w). split; [done|].
  unfold net_ok_at. by rewrite Hl.
Qed.

(** ** The invariant of the traffic manager *)

Definition per_node {A} (P : A → Prop) (l : list (list A)) : Prop :=
  zlength l = NUMBER_OF_NODES ∧ Forall (λ t, zlength t = 3 ∧ Forall P t) l.

Lemma per_node_lookup {A} (P : A → Prop) l n ty :
  per_node P l → 0 ≤ n < NUMBER_OF_NODES → 0 ≤ ty < 3 →
  ∃ t x, l !z n = Some t ∧ t !z ty = Some x ∧ P x.
Proof.
  intros [Hl Hf] Hn Hty. destruct (vlookup_in_range l n) as [t Ht]; [lia|].
  destruct (Forall_vlookup _ _ _ _ Hf Ht) as [Hlt Hft].
  destruct (vlookup_in_range t ty) as [x Hx]; [lia|]. exists t, x.
  split; [done|]. split; [done|]. by apply (Forall_vlookup _ _ _ _ Hft Hx).
Qed.
Lemma per_node_update {A} (P : A → Prop) l n ty t x :
  per_node P l → l !z n = Some t → P x → per_node P (vinsert n (vinsert ty x t) l).
Proof.
  intros [Hl Hf] Ht Hx. destruct (Forall_vlookup _ _ _ _ Hf Ht) as [Hlt Hft].
  split; [by rewrite zlength_vinsert|]. apply Forall_vinsert; [done|].
  split; [by rewrite zlength_vinsert|by apply Forall_vinsert].
Qed.
(** a method of one of these objects *)
Lemma nested_run {A B} (m : M A B) l n ty t x b x' :
  l !z n = Some t → t !z ty = Some x → m x = Ok (b, x') →
  zoom_at n (zoom_at ty m) l = Ok (b, vinsert n (vinsert ty x' t) l).
Proof. intros Ht Hx Hm. by rewrite (zoom_at_Some _ _ _ _ Ht), (zoom_at_Some _ _ _ _ Hx), Hm. Qed.
Lemma nested_id {A} (l : list (list A)) n ty t x :
  l !z n = Some t → t !z ty = Some x → vinsert n (vinsert ty x t) l = l.
Proof. intros Ht Hx. by rewrite (vinsert_id t), (vinsert_id l) by done. Qed.

(** ** The payload of a body flit *)

Lemma str_at_run (s : list Z) k : 0 ≤ k ≤ zlength s → ∃ c, str_at s k = Ok c.
Proof.
  intros Hk. destruct (vlookup_in_range (s ++ [0]) k) as [c Hc].
  { unfold zlength in *. rewrite length_app. simpl. lia. }
  exists c. unfold str_at. by rewrite (vget_Some _ _ _ Hc).
Qed.

Lemma body_payload_run data left (ch : Z → Z) :
  (∀ j, 0 ≤ j < 8 → str_at data ((17 - left) * 8 + j) = Ok (ch j)) →
  body_payload data left = Ok (word_of [byte_of (ch 0) (ch 1); byte_of (ch 2) (ch 3);
    byte_of (ch 4) (ch 5); byte_of (ch 6) (ch 7)]).
Proof.
  intros Hch. unfold body_payload. replace (18 - left - 1) with (17 - left) by lia. cbv zeta.
  change (seqZ 0 8) with [0; 1; 2; 3; 4; 5; 6; 7]. cbn [fold_res].
  by rewrite !Hch by lia.
Qed.
Lemma body_payload_total data left : 2 ≤ left ≤ 17 → 127 ≤ zlength data → ∃ u, body_payload data left = Ok u.
Proof.
  intros Hl Hd. eexists. apply (body_payload_run _ _ (λ j, vat 0 (data ++ [0]) ((17 - left) * 8 + j))).
  intros j Hj. destruct (str_at_run data ((17 - left) * 8 + j)) as [c Hc]; [lia|].
  rewrite Hc. unfold str_at, vget, vat in *. by destruct (_ !z _).
Qed.

Lemma fold_res_fault {A B} (f : A → B → res B) l b e e0 :
  (∀ a b e, f a b = Fault e → e = e0) → fold_res f l b = Fault e → e = e0.
Proof.
  intros Hf. revert b. induction l as [|a l IH]; intros b; [done|]. simpl.
  destruct (f a b) as [b'|] eqn:E; [apply IH|]. intros [= <-]. by eapply Hf.
Qed.
Lemma body_payload_fault data left e : body_payload data left = Fault e → e = OutOfRange.
Proof.
  assert (Hv : ∀ (l : list Z) i e, vget l i = Fault e → e = OutOfRange).
  { intros l i e'. unfold vget. by destruct (l !z i); intros [= <-]. }
  unfold body_payload. cbv zeta. unfold mbind, res_bind. destruct (fold_res _ (seqZ 0 8) []) as [s2|] eqn:E1.
  - destruct (fold_res _ (seqZ 0 4) []) as [o|] eqn:E2; [done|]. intros [= <-].
    eapply fold_res_fault; [|exact E2]. intros i o e'. simpl.
    destruct (vget s2 (2 * i)) eqn:G1; [|intros [= <-]; by eapply Hv].
    destruct (vget s2 (2 * i + 1)) eqn:G2; [done|intros [= <-]; by eapply Hv].
  - intros [= <-]. eapply fold_res_fault; [|exact E1]. intros i o e'. unfold str_at. simpl.
    destruct (vget (data ++ [0]) _) eqn:G1; [done|intros [= <-]; by eapply Hv].
Qed.

Section traffic.
(** [whole]: whether all packets have data, so that no fault can happen *)
Context (raw : flit_ptr → Flit) (whole : bool).

Definition faults (f : fault) : Prop := f = OutOfRange ∧ whole = false.
Definition cuttable (pk : PacketNoC) : Prop := sendable pk ∧ (whole = true → pk_data pk ≠ []).
Definition queued (pk : PacketNoC) : Prop :=
  cuttable pk ∧ pk_size pk = size_of_packet pk ∧ 1 ≤ pk_flit_left pk ≤ pk_size pk.

(** all but the network *)
Record tm_rest (t : TrafficManager) : Prop := {
  tr_nodes : tm_nodes t = NUMBER_OF_NODES;
  tr_vcs : tm_vcs t = DEFAULT_NUM_VCS;
  tr_sys : sys_ok (sys t);
  tr_table : Forall (Forall (Forall cuttable)) (packet_table (sys t));
  tr_queue : per_node (Forall queued) (packet_queue t);
  tr_use : per_node (λ v, -1 ≤ v < DEFAULT_NUM_VCS) (in_use_vc t);
}.
Definition tm_ok (t : TrafficManager) : Prop := tm_rest t ∧ net_fine (tm_net t).

(** [pk] is at the front of a queue *)
Definition front_at (src ty : Z) (pk : PacketNoC) (t : TrafficManager) : Prop :=
  ∃ ts q, packet_queue t !z src = Some ts ∧ ts !z ty = Some (pk :: q).
(** a condition [nextFlit] does not touch *)
Definition framed (U : TrafficManager → Prop) : Prop :=
  ∀ t n s q l, U t → U (t.{tm_net := n}.{tm_seq := s}.{packet_queue := q}.{packet_queue_length := l}).
Definition rest_and (U : TrafficManager → Prop) (t : TrafficManager) : Prop := tm_rest t ∧ U t.
Definition rest_with (U : TrafficManager → Prop) (src ty : Z) (pk : PacketNoC) (t : TrafficManager) : Prop :=
  rest_and U t ∧ front_at src ty pk t.

(** predicates the network and the counters do not matter to *)
Definition stable (R : TrafficManager → Prop) : Prop :=
  ∀ t n s, R t → R (t.{tm_net := n}.{tm_seq := s}).
Lemma stable_rest : stable tm_rest.
Proof. intros t n s []. by split. Qed.
Lemma framed_stable U : framed U → stable U.
Proof. intros HU t n s Ht. specialize (HU t n s (packet_queue t) (packet_queue_length t) Ht). by destruct t. Qed.
Lemma stable_and U : framed U → stable (rest_and U).
Proof. intros HU t n s [Hr Hf]. split; [by apply stable_rest|by apply framed_stable]. Qed.
Lemma stable_with U src ty pk : framed U → stable (rest_with U src ty pk).
Proof. intros HU t n s [Hr Hf]. split; [by apply stable_and|exact Hf]. Qed.

(** the assertions of the proofs: [R] of the traffic manager, [N] of its network *)
Definition both (R : TrafficManager → Prop) (N : NetworkNoC → Prop) (t : TrafficManager) : Prop :=
  R t ∧ N (tm_net t).

Lemma or_net {A} R N (N' : A → NetworkNoC → Prop) m :
  stable R → triple N m N' → triple_or faults (both R N) (on_net m) (λ a, both R (N' a)).
Proof.
  intros HR Hm t [HRt HN]. destruct (Hm _ HN) as (a & n & Hrun & HN'). unfold on_net, zoom. rewrite Hrun.
  split; [|done]. pose proof (HR t n (tm_seq t) HRt) as H. by destruct t.
Qed.
Lemma or_seq R N (g : Z → Z) : stable R →
  triple_or faults (both R N) (modify (λ t, t.{tm_seq ::= g})) (λ _, both R N).
Proof.
  intros HR t [HRt HN]. split; [|done]. pose proof (HR t (tm_net t) (g (tm_seq t)) HRt) as H. by destruct t.
Qed.
Lemma or_gets {A} P (f : TrafficManager → A) : triple_or faults P (gets f) (λ _, P).
Proof. by intros t Ht. Qed.

(** *** Flits *)

Lemma or_new R : stable R →
  triple_or faults (both R net_fine) (on_heap (new_Flit raw)) (λ p, both R (net_with p (λ _, True))).
Proof.
  intros HR. apply or_net; [done|]. intros n (w & K & -> & Hw). eexists _, _.
  split; [apply net_alloc_run|]. eexists _, K, _. split; [done|]. split; [by apply grown_ok|].
  split; [intros Hp; pose proof (placed_in_heap _ _ _ Hw Hp); lia|].
  split; [simpl; by apply list_lookup_middle|done].
Qed.
Lemma or_update R p (Φ Ψ : Flit → Prop) g : stable R → (∀ f, Φ f → Ψ (g f)) →
  triple_or faults (both R (net_with p Φ)) (on_heap (update p g)) (λ _, both R (net_with p Ψ)).
Proof.
  intros HR Hg. apply or_net; [done|]. intros n (w & K & f & -> & Hw & Hp & Hf & HΦ). eexists _, _.
  split; [by apply net_update_run|]. eexists _, K, (g f). split; [done|]. split; [by apply updated_ok|].
  split; [done|]. split; [|by apply Hg]. simpl. apply list_lookup_insert_eq. by eapply lookup_lt_Some.
Qed.
Lemma or_deref R p (Φ : Flit → Prop) : stable R →
  triple_or faults (both R (net_with p Φ)) (on_heap (deref p)) (λ _, both R (net_with p Φ)).
Proof.
  intros HR. apply or_net; [done|]. intros n (w & K & f & -> & Hw & Hp & Hf & HΦ). exists f, (net_at w).
  split; [apply on_world_at; by apply deref_run|]. by exists w, K, f.
Qed.
(** a flit that may be written to an injection channel *)
Definition ready_flit (f : Flit) : Prop := countable_flit f ∧ 0 ≤ f_vc f < DEFAULT_NUM_VCS.
Lemma or_write R p n : stable R → 0 ≤ n < NUMBER_OF_NODES →
  triple_or faults (both R (net_with p ready_flit)) (on_net (WriteFlit (Some p) n)) (λ _, both R net_fine).
Proof.
  intros HR Hn. apply or_net; [done|]. intros x (w & K & f & -> & Hw & Hp & Hf & Hc & Hv).
  destruct (inject_channel w K n Hw Hn) as [fc Hfc]. eexists tt, _.
  split; [by apply net_write_run|]. eexists _, _. split; [done|].
  by apply (sent_ok_at w K n fc p f).
Qed.

(** *** Virtual channels *)

Lemma or_inject {A} R (N : NetworkNoC → Prop) (N' : A → NetworkNoC → Prop) n m :
  stable R → 0 ≤ n < NUMBER_OF_NODES → (∀ x, N x → net_fine x) → triple N (on_world (on_router n m)) N' →
  triple_or faults (both R N) (ru ← gets (λ t, GetRouters (tm_net t)); r ← lift (vget ru n); r ← nonnull r;
    on_net (on_world (on_router r m))) (λ a, both R (N' a)).
Proof.
  intros HR Hn Hfine Hm t [HRt HN]. destruct (Hfine _ HN) as (w & K & E & _).
  unfold mbind at 1, M_bind at 1, gets. cbv beta iota. rewrite E.
  unfold mbind at 1, M_bind at 1, lift. rewrite (router_pointer w n Hn).
  exact (or_net R N N' _ HR Hm t (conj HRt HN)).
Qed.

Lemma or_set_state R n v s : stable R → 0 ≤ n < NUMBER_OF_NODES → 0 ≤ v < DEFAULT_NUM_VCS → s ≠ active →
  triple_or faults (both R net_fine) (on_inject_buf n (Buffer_SetState v s)) (λ _, both R net_fine).
Proof.
  intros HR Hn Hv Hs. apply or_inject; [done..|]. intros x (w & K & -> & Hw).
  destruct (inject_vc w K n v Hw Hn Hv) as (r & c & Hr & Hc). eexists tt, _.
  split; [by apply (net_state_run n v s r c)|]. eexists _, K. split; [done|]. by apply forced_ok.
Qed.
Lemma or_ask {A} R n v (g : VirtualChannel → A) : stable R → 0 ≤ n < NUMBER_OF_NODES → 0 ≤ v < DEFAULT_NUM_VCS →
  triple_or faults (both R net_fine) (ask_inject_buf n (of_vc v g)) (λ _, both R net_fine).
Proof.
  intros HR Hn Hv. apply or_inject; [done..|]. intros x (w & K & -> & Hw).
  destruct (inject_vc w K n v Hw Hn Hv) as (r & c & Hr & Hc). eexists _, _.
  split; [by apply (net_ask_run n v g r c)|]. by exists w, K.
Qed.

(** *** Packets *)

Lemma or_front U src ty pk N :
  triple_or faults (both (rest_with U src ty pk) N) (on_queue src ty front)
    (λ a t, a = pk ∧ both (rest_with U src ty pk) N t).
Proof.
  intros t [[Hr Hf] HN]. pose proof Hf as (ts & q & Hts & Hq). unfold on_queue, zoom.
  rewrite (nested_run front _ _ _ _ _ pk (pk :: q) Hts Hq eq_refl). split; [done|].
  rewrite (nested_id _ _ _ _ _ Hts Hq). by destruct t.
Qed.

Definition advanced (pk : PacketNoC) (q : list PacketNoC) : list PacketNoC :=
  if decide (pk_flit_left pk = 1) then q else pk.{pk_flit_left := pk_flit_left pk - 1} :: q.

Lemma size_small pk : size_of_packet pk = 2 ∨ size_of_packet pk = 18.
Proof. unfold size_of_packet. case_decide; lia. Qed.
Lemma queued_left pk : queued pk → 1 ≤ pk_flit_left pk ≤ 18.
Proof. intros (_ & Hs & Hl). destruct (size_small pk); lia. Qed.

Lemma advance_run src ty pk ts q t :
  queued pk → packet_queue t !z src = Some ts → ts !z ty = Some (pk :: q) →
  ∃ len, advance src ty t = Ok (tt, t.{packet_queue := vinsert src (vinsert ty (advanced pk q) ts) (packet_queue t)}
    .{packet_queue_length := len}).
Proof.
  intros Hpk Hts Hq. pose proof (queued_left _ Hpk) as Hl.
  set (pk' := pk.{pk_flit_left ::= λ n, to_int (n - 1)}).
  assert (Hleft : pk_flit_left pk' = pk_flit_left pk - 1) by (simpl; apply to_int_small; lia).
  set (ts1 := vinsert ty (pk' :: q) ts). set (t1 := t.{packet_queue := vinsert src ts1 (packet_queue t)}).
  assert (Hts1 : packet_queue t1 !z src = Some ts1) by (apply vlookup_vinsert_eq; by eapply vlookup_Some_range).
  assert (Hq1 : ts1 !z ty = Some (pk' :: q)) by (apply vlookup_vinsert_eq; by eapply vlookup_Some_range).
  unfold advance. assert (H1 : on_queue src ty (update_front (λ p, p.{pk_flit_left ::= λ n, to_int (n - 1)})) t
    = Ok (tt, t1)) by (unfold on_queue, zoom; by rewrite (nested_run _ _ _ _ _ _ tt (pk' :: q) Hts Hq)).
  assert (H2 : on_queue src ty front t1 = Ok (pk', t1)).
  { unfold on_queue, zoom. rewrite (nested_run front _ _ _ _ _ pk' _ Hts1 Hq1 eq_refl).
    by rewrite (nested_id _ _ _ _ _ Hts1 Hq1). }
  unfold mbind, M_bind. rewrite H1, H2. unfold advanced, when. case_bool_decide as Hz.
  - rewrite decide_True by lia. eexists. unfold on_queue, zoom.
    rewrite (nested_run pop _ _ _ _ _ tt q Hts1 Hq1 eq_refl). unfold modify, t1, ts1. simpl.
    by rewrite !vinsert_vinsert.
  - rewrite decide_False by lia. exists (packet_queue_length t). unfold t1, ts1, mret, M_ret.
    do 2 f_equal. replace (pk.{pk_flit_left := pk_flit_left pk - 1}) with pk'; [by destruct t|].
    unfold pk'. destruct pk. simpl in *. by f_equal.
Qed.

Lemma or_advance U src ty pk N : framed U →
  triple_or faults (both (rest_with U src ty pk) N) (advance src ty) (λ _, both (rest_and U) N).
Proof.
  intros HU t [[[Hr HUt] (ts & q & Hts & Hq)] HN].
  destruct (tr_queue _ Hr) as [_ Hall]. destruct (Forall_vlookup _ _ _ _ Hall Hts) as [_ Hall'].
  pose proof (Forall_vlookup _ _ _ _ Hall' Hq) as Hqs. apply Forall_cons in Hqs as [Hpk Hqs].
  destruct (advance_run src ty pk ts q t Hpk Hts Hq) as [len ->]. split; [|done].
  split; [|specialize (HU t (tm_net t) (tm_seq t) (vinsert src (vinsert ty (advanced pk q) ts) (packet_queue t)) len HUt);
    by destruct t].
  destruct Hr. split; try done. simpl. apply per_node_update; [done|done|].
  unfold advanced. case_decide as H1; [done|]. constructor; [|done].
  destruct Hpk as (Hc & Hs & Hl). split; [exact Hc|]. split; [exact Hs|]. simpl. lia.
Qed.

Lemma front_queued U src ty pk t : rest_with U src ty pk t → queued pk.
Proof.
  intros [[Hr _] (ts & q & Hts & Hq)]. destruct (tr_queue _ Hr) as [_ Hall].
  destruct (Forall_vlookup _ _ _ _ Hall Hts) as [_ Hall'].
  pose proof (Forall_vlookup _ _ _ _ Hall' Hq) as Hqs. by apply Forall_cons in Hqs as [Hpk _].
Qed.

(** only a packet without data can fail, and only if [whole] is false *)
Lemma or_payload pk (R : TrafficManager → Prop) : queued pk → pk_size pk ≠ pk_flit_left pk → pk_flit_left pk ≠ 1 →
  triple_or faults R (lift (body_payload (pk_data pk) (pk_flit_left pk))) (λ _, R).
Proof.
  intros ((Hs & Hw) & Hsz & Hl) Hne H1 t HR. unfold lift.
  destruct (body_payload _ _) as [u|e] eqn:E; [done|]. split; [by eapply body_payload_fault|].
  destruct whole; [|done]. specialize (Hw eq_refl). exfalso.
  destruct (body_payload_total (pk_data pk) (pk_flit_left pk)) as [u Hu]; [| |congruence].
  - destruct (size_small pk); lia.
  - destruct Hs as [_ [Hd|Hd]]; [|done]. unfold size_of_packet in Hsz. case_decide as Hd1; [lia|].
    destruct (pk_data pk); [done|]. unfold zlength in *. simpl in *. lia.
Qed.

Lemma or_nextFlit U src clk ty pk : framed U →
  triple_or faults (both (rest_with U src ty pk) net_fine) (nextFlit raw src clk ty)
    (λ p, both (rest_and U) (net_with p countable_flit)).
Proof.
  intros HU. pose proof (stable_with U src ty pk HU) as HR. unfold nextFlit.
  eapply triple_or_bind; [by apply or_new|]. intros p.
  eapply triple_or_bind; [apply or_front|]. intros pk'. apply triple_or_pure. intros ->.
  intros t Ht. pose proof (front_queued _ _ _ _ _ (proj1 Ht)) as Hpk. revert t Ht.
  assert (Hcf : ∀ g, (∀ f, packet_type (g f) = packet_type f) →
    ∀ f, countable_flit f → countable_flit (g f)) by (intros g Hg f; unfold countable_flit; by rewrite Hg).
  eapply triple_or_bind; [apply (or_update _ p _ countable_flit); [done|intros f _; apply Hpk]|]. intros [].
  eapply (triple_or_bind _ _ _ (λ _, both (rest_with U src ty pk) (net_with p countable_flit))).
  - case_decide; [|case_decide].
    + eapply triple_or_bind; [apply (or_update _ p _ countable_flit); [done|by apply Hcf]|].
      intros []. by apply or_seq.
    + eapply triple_or_bind; [apply (or_update _ p _ countable_flit); [done|by apply Hcf]|].
      intros []. by apply or_seq.
    + eapply triple_or_bind; [apply (or_update _ p _ countable_flit); [done|by apply Hcf]|].
      intros []. eapply triple_or_bind; [by apply or_seq|]. intros [].
      eapply triple_or_bind; [by apply or_payload|]. intros u.
      apply or_update; [done|by apply Hcf].
  - intros []. eapply triple_or_bind; [apply or_gets|]. intros seq.
    eapply triple_or_bind; [apply (or_update _ p _ countable_flit); [done|by apply Hcf]|]. intros [].
    eapply triple_or_bind; [by apply or_advance|]. intros [].
    apply (triple_or_ret _ p (λ p, both (rest_and U) (net_with p countable_flit))).
Qed.

(** *** Sending *)

(** the virtual channel a node uses for a type *)
Definition uses (src ty v : Z) (t : TrafficManager) : Prop :=
  ∃ u, in_use_vc t !z src = Some u ∧ u !z ty = Some v.
Lemma framed_uses src ty v : framed (uses src ty v).
Proof. by intros t n s q l Ht. Qed.
Lemma framed_true : framed (λ _, True).
Proof. by intros t n s q l Ht. Qed.
Lemma uses_run src ty v t : uses src ty v t → on_in_use src ty get t = Ok (v, t).
Proof.
  intros (u & Hu & Hv). unfold on_in_use, zoom.
  rewrite (nested_run get _ _ _ _ _ v v Hu Hv eq_refl), (nested_id _ _ _ _ _ Hu Hv). by destruct t.
Qed.
Lemma rest_uses src ty t : tm_rest t → 0 ≤ src < NUMBER_OF_NODES → 0 ≤ ty < 3 →
  ∃ v, uses src ty v t ∧ -1 ≤ v < DEFAULT_NUM_VCS.
Proof.
  intros Hr Hs Hty. destruct (per_node_lookup _ _ _ _ (tr_use _ Hr) Hs Hty) as (u & v & Hu & Hv & Hvr).
  exists v. split; [by exists u|done].
Qed.
Lemma or_set_use src ty v N : 0 ≤ src < NUMBER_OF_NODES → 0 ≤ ty < 3 → -1 ≤ v < DEFAULT_NUM_VCS →
  triple_or faults (both tm_rest N) (on_in_use src ty (modify (λ _, v))) (λ _, both tm_rest N).
Proof.
  intros Hs Hty Hv t [Hr HN]. destruct (per_node_lookup _ _ _ _ (tr_use _ Hr) Hs Hty) as (u & v0 & Hu & Hv0 & _).
  unfold on_in_use, zoom. rewrite (nested_run (modify (λ _, v)) _ _ _ _ _ tt v Hu Hv0 eq_refl). split; [|done].
  destruct Hr. split; try done. by apply per_node_update.
Qed.

Lemma or_find_idle R n vcs : stable R → 0 ≤ n < NUMBER_OF_NODES →
  Forall (λ v, 0 ≤ v < DEFAULT_NUM_VCS) vcs →
  triple_or faults (both R net_fine) (TM_find_idle n vcs) (λ v t, -1 ≤ v < DEFAULT_NUM_VCS ∧ both R net_fine t).
Proof.
  intros HR Hn. induction 1 as [|v vcs Hv Hvs IH]; simpl; [by intros t Ht|].
  eapply triple_or_bind; [by apply or_ask|]. intros s. case_decide; [|exact IH].
  eapply triple_or_bind; [by apply or_set_state|]. intros [] t Ht. split; [lia|done].
Qed.
Lemma or_choose_vc U src ty pk n : framed U → 0 ≤ n < NUMBER_OF_NODES →
  triple_or faults (both (rest_with U src ty pk) net_fine) (choose_vc n ty)
    (λ v t, -1 ≤ v < DEFAULT_NUM_VCS ∧ both (rest_with U src ty pk) net_fine t).
Proof.
  intros HU Hn. unfold choose_vc. pose proof (stable_with U src ty pk HU).
  repeat (case_decide; [|]); try (intros t Ht; split; [unfold DEFAULT_NUM_VCS; lia|exact Ht]).
  unfold TM_FindIdleVC. eapply (triple_or_bind _ _ _ (λ v t, v = DEFAULT_NUM_VCS ∧ both (rest_with U src ty pk) net_fine t)).
  { intros t Ht. split; [apply (proj1 (proj1 (proj1 Ht)))|done]. }
  intros v. apply triple_or_pure. intros ->. apply or_find_idle; [done|done|].
  apply Forall_forall. intros v Hv%elem_of_seqZ. unfold DEFAULT_NUM_VCS in *. lia.
Qed.

Lemma or_free n v R : stable R → 0 ≤ n < NUMBER_OF_NODES → -1 ≤ v < DEFAULT_NUM_VCS →
  triple_or faults (both R net_fine) (TM_FindFreeSpace n v)
    (λ b t, (b = true → v ≠ -1) ∧ both R net_fine t).
Proof.
  intros HR Hn Hv. unfold TM_FindFreeSpace. case_decide; [|by intros t Ht].
  eapply triple_or_bind; [apply or_ask; [done|done|lia]|]. by intros size t Ht.
Qed.


Lemma or_SendFlit n clk ty pk : 0 ≤ n < NUMBER_OF_NODES → 0 ≤ ty < 3 →
  triple_or faults (both (rest_with (λ _, True) n ty pk) net_fine) (SendFlit raw n clk ty) (λ _, tm_ok).
Proof.
  intros Hn Hty. pose proof (stable_and _ framed_true) as HR. unfold SendFlit, IsNextFlitHead.
  eapply (triple_or_bind _ _ _ (λ _, both (rest_with (λ _, True) n ty pk) net_fine)).
  { eapply triple_or_bind; [apply or_front|]. intros pk'. by intros t [_ Ht]. }
  assert (Hdone : ∀ t, both (rest_and (λ _, True)) net_fine t → tm_ok t) by (intros t [[? _] ?]; done).
  intros [|].
  - eapply triple_or_bind; [apply or_choose_vc; [apply framed_true|done]|]. intros v.
    apply triple_or_pure. intros Hv. unfold when. case_bool_decide as Hv1; [|by intros t [[[? _] _] ?]].
    eapply triple_or_bind; [apply or_nextFlit, framed_true|]. intros p.
    eapply triple_or_bind; [apply (or_update _ p _ ready_flit); [done|]|].
    { intros f Hf. split; [exact Hf|]. simpl. lia. }
    intros []. eapply triple_or_bind; [by apply or_write|]. intros [].
    eapply (triple_or_bind _ _ _ (λ _, both tm_rest net_fine)).
    { eapply triple_or_conseq; [apply (or_set_use n ty v net_fine); [done|done|lia]| |done].
      intros t [[? _] ?]. done. }
    intros []. apply or_set_state; [apply stable_rest|done|lia|done].
  - intros t Ht. destruct (rest_uses n ty t (proj1 (proj1 (proj1 Ht))) Hn Hty) as (v & Hu & Hv).
    unfold mbind at 1, M_bind at 1. rewrite (uses_run n ty v t Hu).
    assert (Ht' : both (rest_with (uses n ty v) n ty pk) net_fine t) by (destruct Ht as [[[? _] ?] ?]; done).
    clear Ht Hu. revert t Ht'. pose proof (framed_uses n ty v) as HU. pose proof (stable_and _ HU) as HR'.
    eapply triple_or_bind; [apply or_free; [by apply stable_with|done|done]|]. intros b.
    apply triple_or_pure. intros Hb. unfold when at 1. destruct b; [|by intros t [[[? _] _] ?]].
    eapply triple_or_bind; [by apply or_nextFlit|]. intros p.
    eapply (triple_or_bind _ _ _ (λ v' t, v' = v ∧ both (rest_and (uses n ty v)) (net_with p countable_flit) t)).
    { intros t Ht. by rewrite (uses_run n ty v t (proj2 (proj1 Ht))). }
    intros v'. apply triple_or_pure. intros ->.
    eapply triple_or_bind; [apply (or_update _ p _ ready_flit); [done|]|].
    { intros f Hf. split; [exact Hf|]. simpl. specialize (Hb eq_refl). lia. }
    intros []. eapply triple_or_bind; [by apply or_deref|]. intros fl.
    eapply (triple_or_bind _ _ _ (λ _, both tm_rest (net_with p ready_flit))).
    { unfold when. case_bool_decide; [|by intros t [[? _] ?]].
      eapply triple_or_conseq; [apply (or_set_use n ty (-1) (net_with p ready_flit)); [done|done|unfold DEFAULT_NUM_VCS; lia]| |done].
      intros t [[? _] ?]. done. }
    intros []. by apply or_write; [apply stable_rest|].
Qed.

(** *** One cycle *)

Lemma table_at t n ty : tm_rest t → 0 ≤ n < NUMBER_OF_NODES → 0 ≤ ty < 3 →
  ∃ ts q, packet_table (sys t) !z n = Some ts ∧ ts !z ty = Some q ∧ Forall cuttable q.
Proof.
  intros Hr Hn Hty. destruct (table_queue _ n ty (sys_table _ (tr_sys _ Hr)) Hn Hty) as (ts & q & Hts & Hq).
  exists ts, q. split; [done|]. split; [done|].
  exact (Forall_vlookup _ _ _ _ (Forall_vlookup _ _ _ _ (tr_table _ Hr) Hts) Hq).
Qed.

Lemma on_table_run {A} n ty (m : M (list PacketNoC) A) t ts q a q' :
  packet_table (sys t) !z n = Some ts → ts !z ty = Some q → m q = Ok (a, q') →
  on_table n ty m t = Ok (a, t.{sys ::= λ s, s.{packet_table ::= vinsert n (vinsert ty q' ts)} }).
Proof.
  intros Hts Hq Hm. unfold on_table, on_sys, zoom. by rewrite (nested_run m _ _ _ _ _ _ _ Hts Hq Hm).
Qed.

Lemma rest_table t n ty ts q : tm_rest t → packet_table (sys t) !z n = Some ts → Forall cuttable q →
  tm_rest (t.{sys ::= λ s, s.{packet_table ::= vinsert n (vinsert ty q ts)} }).
Proof.
  intros [Hn Hv Hs Htb Hq Hu] Hts Hall. split; try done; simpl.
  - destruct Hs. split; try done. simpl. destruct sys_table as [Hl Ht].
    destruct (Forall_vlookup _ _ _ _ Ht Hts) as [Hlt Hft].
    split; [by rewrite zlength_vinsert|]. apply Forall_vinsert; [done|].
    split; [by rewrite zlength_vinsert|]. apply Forall_vinsert; [done|].
    eapply Forall_impl; [exact Hall|]. by intros pk [? _].
  - apply Forall_vinsert; [done|]. apply Forall_vinsert; [|done]. by apply (Forall_vlookup _ _ _ _ Htb Hts).
Qed.

Lemma or_ReadPacket time n ty : 0 ≤ n < NUMBER_OF_NODES → 0 ≤ ty < 3 →
  triple_or faults tm_ok (ReadPacket time n ty)
    (λ o t, (∀ pk, o = Some pk → queued pk) ∧ tm_ok t).
Proof.
  intros Hn Hty t [Hr HN]. destruct (table_at t n ty Hr Hn Hty) as (ts & q & Hts & Hq & Hall).
  unfold ReadPacket, mbind, M_bind. rewrite (on_table_run n ty get t ts q q q Hts Hq eq_refl).
  pose proof (rest_table t n ty ts q Hr Hts Hall) as Hr1.
  destruct q as [|pk q]; [done|]. case_decide; [|done].
  apply Forall_cons in Hall as [Hpk Hall]. set (t1 := t.{sys ::= _ }) in *.
  set (ts1 := vinsert ty (pk :: q) ts).
  assert (Hts1 : packet_table (sys t1) !z n = Some ts1) by (apply vlookup_vinsert_eq; by eapply vlookup_Some_range).
  assert (Hq1 : ts1 !z ty = Some (pk :: q)) by (apply vlookup_vinsert_eq; by eapply vlookup_Some_range).
  rewrite (on_table_run n ty pop t1 ts1 (pk :: q) tt q Hts1 Hq1 eq_refl). split.
  - intros pk' [= <-]. split; [exact Hpk|]. split; [done|]. simpl. destruct (size_small pk); lia.
  - split; [by apply rest_table|exact HN].
Qed.

Lemma queue_run {A} n ty (m : M (list PacketNoC) A) t ts q a q' :
  packet_queue t !z n = Some ts → ts !z ty = Some q → m q = Ok (a, q') →
  on_queue n ty m t = Ok (a, t.{packet_queue ::= vinsert n (vinsert ty q' ts)}).
Proof. intros Hts Hq Hm. unfold on_queue, zoom. by rewrite (nested_run m _ _ _ _ _ _ _ Hts Hq Hm). Qed.

Lemma or_serve clk n ty : 0 ≤ n < NUMBER_OF_NODES → 0 ≤ ty < 3 →
  triple_or faults tm_ok (serve raw clk n ty) (λ _, tm_ok).
Proof.
  intros Hn Hty. unfold serve. eapply triple_or_bind; [by apply or_ReadPacket|]. intros o.
  apply triple_or_pure. intros Ho. eapply (triple_or_bind _ _ _ (λ _, tm_ok)).
  { destruct o as [pk|]; [|by intros t Ht]. specialize (Ho pk eq_refl). intros t [Hr HN].
    destruct (per_node_lookup _ _ n ty (tr_queue _ Hr) Hn Hty) as (ts & q & Hts & Hq & Hall).
    rewrite (queue_run n ty (modify (λ q, q ++ [pk])) t ts q tt (q ++ [pk]) Hts Hq eq_refl).
    split; [|exact HN]. destruct Hr. split; try done. apply per_node_update; [done|done|].
    by apply Forall_app_2, Forall_singleton. }
  intros []. intros t [Hr HN].
  destruct (per_node_lookup _ _ n ty (tr_queue _ Hr) Hn Hty) as (ts & q & Hts & Hq & Hall).
  unfold mbind, M_bind. rewrite (queue_run n ty get t ts q q q Hts Hq eq_refl).
  replace (t.{packet_queue ::= vinsert n (vinsert ty q ts)}) with t
    by (simpl; rewrite (nested_id _ _ _ _ _ Hts Hq); by destruct t).
  unfold when. case_bool_decide as Hne; [|done]. destruct q as [|pk q]; [done|].
  apply (or_SendFlit n clk ty pk Hn Hty). split; [|done]. split; [done|]. by exists ts, q.
Qed.

Lemma or_clk clk : triple_or faults tm_ok (TM_clk raw clk) (λ _, tm_ok).
Proof.
  unfold TM_clk. eapply (triple_or_bind _ _ _ (λ _, tm_ok)).
  { apply (or_net tm_rest net_fine (λ _, net_fine)); [apply stable_rest|]. intros n Hn.
    destruct (net_clk_fine clk n Hn) as (n' & Hrun & Hn'). by exists tt, n'. }
  intros []. eapply (triple_or_bind _ _ _ (λ v t, v = NUMBER_OF_NODES ∧ tm_ok t)).
  { intros t Ht. split; [apply Ht|done]. }
  intros v. apply triple_or_pure. intros ->. apply triple_or_for_each. intros n Hn%elem_of_seqZ.
  apply triple_or_for_each. intros ty Hty%elem_of_seqZ. apply or_serve; lia.
Qed.
End traffic.

(** ** Construction *)

(** loops that build a vector by appending one element per iteration *)
Lemma append_loop {A} (f : Z → res A) (P : A → Prop) n :
  0 ≤ n → (∀ i, 0 ≤ i < n → ∃ a, f i = Ok a ∧ P a) →
  ∃ l, fold_res (λ i acc, a ← f i; Ok (acc ++ [a])) (seqZ 0 n) [] = Ok l ∧ zlength l = n ∧ Forall P l.
Proof.
  intros Hn Hf. assert (H : ∀ k acc (m : nat), k + Z.of_nat m = n → 0 ≤ k → zlength acc = k → Forall P acc →
    ∃ l, fold_res (λ i acc, a ← f i; Ok (acc ++ [a])) (seqZ k (Z.of_nat m)) acc = Ok l ∧ zlength l = n ∧ Forall P l).
  { intros k acc m. revert k acc. induction m as [|m IH]; intros k acc Hm Hk Hl HP.
    - exists acc. split; [done|]. split; [lia|done].
    - rewrite seqZ_cons by lia. replace (Z.pred (Z.of_nat (S m))) with (Z.of_nat m) by lia. simpl.
      destruct (Hf k) as (a & -> & Ha); [lia|]. simpl. apply IH; [lia|lia| |].
      + unfold zlength in *. rewrite length_app. simpl. lia.
      + by apply Forall_app_2, Forall_singleton. }
  destruct (H 0 [] (Z.to_nat n)) as (l & Hl & Hr); [lia|lia|done|done|].
  rewrite Z2Nat.id in Hl by done. by exists l.
Qed.

Lemma new_cache_run raw lines ways : 0 ≤ lines → 0 ≤ ways →
  ∃ c, new_cache raw lines ways = Ok c ∧ shaped lines ways c.
Proof.
  intros Hl Hw. pose proof (new_cache_wf raw lines ways Hl Hw) as Hwf.
  destruct (setLRUbitsToWay_run _ Hwf Hl) as (c & Hrun & Hwf' & HL & HW & _).
  exists c. unfold new_cache. rewrite Hrun. split; [done|]. split; [exact Hwf'|]. split; [exact HL|exact HW].
Qed.
Lemma new_caches_run raw_cache array lines ways : 0 ≤ lines → 0 ≤ ways →
  ∃ l, new_caches raw_cache array lines ways NUMBER_OF_NODES = Ok l ∧
    zlength l = NUMBER_OF_NODES ∧ Forall (shaped lines ways) l.
Proof.
  intros Hl Hw. apply append_loop; [done|]. intros i _. by apply new_cache_run.
Qed.

(** the vector of a field that is the same in all elements *)
Lemma same_field {A} (f : ENoCCache → A) (x : A) l : zlength l = NUMBER_OF_NODES → Forall (λ c, f c = x) l →
  fold_res (λ i acc, c ← vget l i; Ok (acc ++ [f c])) (seqZ 0 NUMBER_OF_NODES) [] = Ok (replicate 64 x).
Proof.
  intros Hl Hf. destruct (append_loop (λ i, c ← vget l i; Ok (f c)) (eq x) NUMBER_OF_NODES)
    as (r & Hr & Hlr & Hfr); [done| |].
  - intros i Hi. destruct (vlookup_in_range l i) as [c Hc]; [lia|]. exists (f c).
    rewrite (vget_Some _ _ _ Hc). split; [done|]. by rewrite (Forall_vlookup _ _ _ _ Hf Hc).
  - transitivity (Ok r).
    + rewrite <-Hr. clear.
      assert (H : ∀ js acc, fold_res (λ i acc, c ← vget l i; Ok (acc ++ [f c])) js acc =
        fold_res (λ i acc, a ← (c ← vget l i; Ok (f c)); Ok (acc ++ [a])) js acc); [|apply H].
      induction js as [|j js IH]; intros acc; [done|]. simpl. destruct (vget l j); [apply IH|done].
    + f_equal. symmetry. apply replicate_as_Forall_2; [|done]. unfold zlength, NUMBER_OF_NODES in *. lia.
Qed.

Lemma directory_run d i l :
  zlength d = NUMBER_OF_NODES ∧ Forall is_l1 d → zlength i = NUMBER_OF_NODES ∧ Forall is_l1 i →
  zlength l = NUMBER_OF_NODES ∧ Forall is_l2 l →
  ENoCDir_ENoCDir d i l = Ok (mkENoCDir (replicate 64 (replicate 65 0)) (replicate 64 l1_lines)
    (replicate 64 l1_lines) (replicate 64 l2_lines) (replicate 64 l1_ways) (replicate 64 l1_ways) (replicate 64 l2_ways)).
Proof.
  intros [Hd Fd] [Hi Fi] [Hl Fl].
  assert (HL : ∀ x L W, Forall (shaped L W) x → Forall (λ c, LINES c = L) x)
    by (intros x L W Hx; eapply Forall_impl; [exact Hx|]; by intros c (_ & ? & _)).
  assert (HW : ∀ x L W, Forall (shaped L W) x → Forall (λ c, WAYS c = W) x)
    by (intros x L W Hx; eapply Forall_impl; [exact Hx|]; by intros c (_ & _ & ?)).
  unfold ENoCDir_ENoCDir. cbv zeta.
  rewrite (same_field LINES l1_lines d Hd (HL _ _ _ Fd)), (same_field LINES l1_lines i Hi (HL _ _ _ Fi)).
  rewrite (same_field LINES l2_lines l Hl (HL _ _ _ Fl)), (same_field WAYS l1_ways d Hd (HW _ _ _ Fd)).
  by rewrite (same_field WAYS l1_ways i Hi (HW _ _ _ Fi)), (same_field WAYS l2_ways l Hl (HW _ _ _ Fl)).
Qed.

(** the traffic manager with given caches *)
Definition new_tm (d i l : list ENoCCache) (dir : ENoCDir) (raw_length : Z) (net : NetworkNoC) : TrafficManager :=
  mkTrafficManager 64 64 8 net (GetRouters net) raw_length (replicate 64 [0; 0; 0])
    (mkMemSystem d i l dir (replicate 64 [[]; []; []])) (replicate 64 [[]; []; []]) 0.

Lemma traffic_manager_run raw_cache raw_length w whole : net_fine (net_at w) →
  ∃ d i l dir, TrafficManager_New raw_cache raw_length (net_at w) = Ok (new_tm d i l dir raw_length (net_at w)) ∧
    tm_ok whole (new_tm d i l dir raw_length (net_at w)).
Proof.
  intros Hnet.
  destruct (new_caches_run raw_cache 0 l1_lines l1_ways) as (d & Hd & Hd1); [done|done|].
  destruct (new_caches_run raw_cache 1 l1_lines l1_ways) as (i & Hi & Hi1); [done|done|].
  destruct (new_caches_run raw_cache 2 l2_lines l2_ways) as (l & Hl & Hl1); [done|done|].
  eexists d, i, l, _. split.
  { unfold TrafficManager_New, TrafficManager_TrafficManager. change (NumNodes (net_at w)) with NUMBER_OF_NODES.
    cbv zeta. unfold l1_lines, l1_ways, l2_lines, l2_ways in Hd, Hi, Hl. rewrite Hd, Hi, Hl. cbn [mbind res_bind].
    rewrite (directory_run d i l Hd1 Hi1 Hl1). reflexivity. }
  assert (Htb : table_ok (replicate 64 [[]; []; []])).
  { split; [done|]. apply Forall_replicate_same. split; [done|by repeat constructor]. }
  split; [|exact Hnet]. split; [reflexivity|reflexivity|..].
  - split; [exact Hd1|exact Hi1|exact Hl1|by apply Forall_replicate_same|reflexivity..|exact Htb].
  - apply Forall_replicate_same. by repeat constructor.
  - split; [done|]. apply Forall_replicate_same. split; [done|by repeat constructor].
  - split; [done|]. apply Forall_replicate_same. split; [done|]. repeat constructor; unfold DEFAULT_NUM_VCS; lia.
Qed.

(** the network and the traffic manager the crossbar creates *)
Lemma fresh_system raw raw_active config raw_cache raw_length whole : config_ok config →
  ∃ w d i l dir, let tm0 := new_tm d i l dir raw_length (net_at w) in
    NetworkNoC_NetworkNoC raw raw_active config [] = Ok (net_at w) ∧
    TrafficManager_New raw_cache raw_length (net_at w) = Ok tm0 ∧ tm_rest whole tm0 ∧
    net_ok_at w (λ _, False) ∧ flits w = [].
Proof.
  intros Hcfg. destruct (NetworkNoC_run raw raw_active config Hcfg []) as (rts & Hrts & Hrun).
  destruct (built_net_ok rts Hrts) as [Hw _].
  assert (Hfine : net_fine (net_at (mkWorld [] mesh_channels rts)))
    by (exists (mkWorld [] mesh_channels rts), (λ _, False); split; [reflexivity|exact Hw]).
  destruct (traffic_manager_run raw_cache raw_length _ whole Hfine) as (d & i & l & dir & Htm & [Hok _]).
  exists (mkWorld [] mesh_channels rts), d, i, l, dir. split; [exact Hrun|]. split; [exact Htm|]. split; [exact Hok|].
  split; [exact Hw|reflexivity].
Qed.
Lemma system_run raw raw_active config raw_cache raw_length whole : config_ok config →
  ∃ net0 tm0, NetworkNoC_NetworkNoC raw raw_active config [] = Ok net0 ∧
    TrafficManager_New raw_cache raw_length net0 = Ok tm0 ∧ tm_ok whole tm0.
Proof.
  intros Hcfg. destruct (fresh_system raw raw_active config raw_cache raw_length whole Hcfg)
    as (w & d & i & l & dir & Hrun & Htm & Hok & Hw & _). eexists (net_at w), _.
  split; [exact Hrun|]. split; [exact Htm|]. split; [exact Hok|]. exists w, (λ _, False).
  split; [reflexivity|exact Hw].
Qed.

(** ** Accesses *)

Lemma process_or pk pkt N : full_packet pkt →
  triple_or (faults false) (both (tm_rest false) N) (on_sys (process pk pkt)) (λ _, both (tm_rest false) N).
Proof.
  intros Hp t [[Hn Hv Hs Htb Hq Hu] HN]. pose proof (process_safe pk pkt Hp (sys t) Hs) as H.
  unfold on_sys, zoom. destruct (process pk pkt (sys t)) as [[[] s']|f]; [|by split].
  split; [|exact HN]. split; try done. simpl. destruct (sys_table _ H) as [_ Ht].
  eapply Forall_impl; [exact Ht|]. intros ts [_ Hts]. eapply Forall_impl; [exact Hts|].
  intros q Hqs. eapply Forall_impl; [exact Hqs|]. intros p Hsp. by split.
Qed.

Lemma recvAtomic_or raw pk pkt tick : full_packet pkt →
  triple_or (faults false) (tm_ok false) (recvAtomic raw pk pkt tick) (λ _, tm_ok false).
Proof.
  intros Hp. unfold recvAtomic. eapply triple_or_bind; [by apply process_or|]. intros []. apply or_clk.
Qed.

Lemma load_run whole pk src ty t : 0 ≤ src < NUMBER_OF_NODES → 0 ≤ ty < 3 → cuttable whole pk → tm_ok whole t →
  ∃ t', load_traffic pk src ty t = Ok (true, t') ∧ tm_ok whole t'.
Proof.
  intros Hs Hty Hpk [Hr HN]. destruct (table_at _ t src ty Hr Hs Hty) as (ts & q & Hts & Hq & Hall).
  eexists. unfold load_traffic, mbind, M_bind.
  rewrite (on_table_run src ty (modify (λ q, q ++ [pk])) t ts q tt (q ++ [pk]) Hts Hq eq_refl). split; [reflexivity|].
  split; [|exact HN]. apply rest_table; [done|done|]. by apply Forall_app_2, Forall_singleton.
Qed.

(** ** Properties *)

(** C31: The system that the crossbar creates is safe up to indices:
    whatever full requests arrive (with an address, a time, data and a master id that is not negative), at whatever ticks, every access either
    returns with the invariant of the memory system, the traffic manager and the
    network restored, or ends with an index out of range; no null
    pointer is followed, no assertion of the network fails. *)
Theorem accesses_keep_invariant raw raw_element raw_active config raw_cache raw_length pk
    (l : list (Packet * Z)) :
  config_ok config → Forall (λ a, full_packet a.1) l →
  ∃ net0 tm0, NetworkNoC_NetworkNoC raw_element raw_active config [] = Ok net0 ∧
    TrafficManager_New raw_cache raw_length net0 = Ok tm0 ∧
    match for_each l (λ a, recvAtomic raw pk a.1 a.2) tm0 with
    | Ok (_, tm) => tm_ok false tm
    | Fault f => f = OutOfRange
    end.
Proof.
  intros Hcfg Hl. destruct (system_run raw_element raw_active config raw_cache raw_length false Hcfg)
    as (net0 & tm0 & H1 & H2 & Hok). exists net0, tm0. split; [exact H1|]. split; [exact H2|].
  assert (H : triple_or (faults false) (tm_ok false) (for_each l (λ a, recvAtomic raw pk a.1 a.2)) (λ _, tm_ok false)).
  { apply triple_or_for_each. intros a Ha. apply recvAtomic_or.
    rewrite Forall_forall in Hl. by apply Hl. }
  specialize (H tm0 Hok). destruct (for_each l _ tm0) as [[u tm]|f]; [exact H|apply H].
Qed.

Definition some_line (_ _ _ way : Z) : cacheline := mkcacheline 3 way 0 0 0 false.

Lemma accesses_keep_invariant_witness :
  ∃ net0 tm0, NetworkNoC_NetworkNoC (λ _, mkElement d_zero d_zero d_zero d_zero) (λ _, false)
      Configuration_Configuration [] = Ok net0 ∧
    TrafficManager_New some_line 0 net0 = Ok tm0 ∧
    match for_each [(request_from 1 64 WriteReq, 7); (request_from 2 64 ReadReq, 9)]
        (λ a, recvAtomic (λ _, coding_flit FLIT_TYPE_BODY 0) blank_packet a.1 a.2) tm0 with
    | Ok (_, tm) => tm_ok false tm
    | Fault f => f = OutOfRange
    end.
Proof.
  apply (accesses_keep_invariant (λ _, coding_flit FLIT_TYPE_BODY 0)
    (λ _, mkElement d_zero d_zero d_zero d_zero) (λ _, false) Configuration_Configuration some_line 0 blank_packet
    [(request_from 1 64 WriteReq, 7); (request_from 2 64 ReadReq, 9)] default_config_ok).
  repeat constructor; apply request_full; lia.
Defined.

(** what may be loaded into the packet table of the property below *)
Definition loadable (x : PacketNoC * (Z * Z)) : Prop :=
  cuttable true x.1 ∧ 0 ≤ x.2.1 < NUMBER_OF_NODES ∧ 0 ≤ x.2.2 < 3.

(** C2: Packets that carry exactly one character, or a whole line of at least 127, are sent
    without a fault: any such packets, for any nodes and types, loaded into the system that
    the crossbar creates, and any sequence of cycles with any clock values: every cycle returns and
    restores the invariants of the traffic manager and of the network. *)
Theorem packets_with_data_never_fault raw raw_element raw_active config raw_cache raw_length
    (loads : list (PacketNoC * (Z * Z))) (clks : list Z) :
  config_ok config → Forall loadable loads →
  ∃ net0 tm0 tm, NetworkNoC_NetworkNoC raw_element raw_active config [] = Ok net0 ∧
    TrafficManager_New raw_cache raw_length net0 = Ok tm0 ∧
    (for_each loads (λ x, load_traffic x.1 x.2.1 x.2.2 ;; mret tt) ;; for_each clks (TM_clk raw)) tm0 = Ok (tt, tm) ∧
    tm_ok true tm.
Proof.
  intros Hcfg Hl. destruct (system_run raw_element raw_active config raw_cache raw_length true Hcfg)
    as (net0 & tm0 & H1 & H2 & Hok).
  assert (H : triple_or (faults true) (tm_ok true)
    (for_each loads (λ x, load_traffic x.1 x.2.1 x.2.2 ;; mret tt) ;; for_each clks (TM_clk raw)) (λ _, tm_ok true)).
  { eapply (triple_or_bind _ _ _ (λ _, tm_ok true)); [|intros []; apply triple_or_for_each; intros clk _; apply or_clk].
    apply triple_or_for_each. intros [pk [src ty]] Hx. rewrite Forall_forall in Hl.
    destruct (Hl _ Hx) as (Hpk & Hs & Hty). intros t Ht.
    destruct (load_run true pk src ty t Hs Hty Hpk Ht) as (t' & Hrun & Ht').
    unfold mbind, M_bind. simpl. by rewrite Hrun. }
  specialize (H tm0 Hok). revert H. destruct ((for_each loads _ ;; _) tm0) as [[[] tm]|f] eqn:E; [intros H|by intros []].
  exists net0, tm0, tm. split; [exact H1|]. split; [exact H2|]. split; [exact E|exact H].
Qed.

Definition byte_packet (src dst type : Z) : PacketNoC := mkPacketNoC src dst 0 0 type [65] 0.

Lemma packets_with_data_never_fault_witness :
  ∃ net0 tm0 tm, NetworkNoC_NetworkNoC (λ _, mkElement d_zero d_zero d_zero d_zero) (λ _, false)
      Configuration_Configuration [] = Ok net0 ∧
    TrafficManager_New some_line 0 net0 = Ok tm0 ∧
    (for_each [(byte_packet 9 10 3, (9, 1)); (byte_packet 8 70 8, (8, 2))]
       (λ x, load_traffic x.1 x.2.1 x.2.2 ;; mret tt) ;;
     for_each [0; 5; 1000] (TM_clk (λ _, coding_flit FLIT_TYPE_BODY 0))) tm0 = Ok (tt, tm) ∧
    tm_ok true tm.
Proof.
  apply (packets_with_data_never_fault (λ _, coding_flit FLIT_TYPE_BODY 0)
    (λ _, mkElement d_zero d_zero d_zero d_zero) (λ _, false) Configuration_Configuration some_line 0
    [(byte_packet 9 10 3, (9, 1)); (byte_packet 8 70 8, (8, 2))] [0; 5; 1000] default_config_ok).
  repeat constructor; simpl; unfold NUMBER_OF_NODES, Num_Packet_Types, zlength; simpl; try lia; try (left; lia); by intros.
Defined.
