(* ===== verification/TrafficLoss.v ===== *)
(** * Flits and packets the traffic manager loses

    The head of a packet is followed step by step through [SendFlit]:
    what happens when two types of a node send in the same cycle, and when a
    packet carries no data. *)

From S2P Require Import Prelude Double NoCMain Config Element Stats Channel.
From S2P Require Import VirtualChannel Allocator FlitCoding Router Network RouterInv RouterSafe.
From S2P Require Import NetworkSafe Mesh NetworkRun MemPacket Cache Directory Process TrafficManager TrafficRun.

(** ** The next flit of a packet *)

Definition cut_kind (pk : PacketNoC) : FlitType :=
  if decide (pk_size pk = pk_flit_left pk) then FLIT_TYPE_HEAD
  else if decide (pk_flit_left pk = 1) then FLIT_TYPE_TAIL
  else FLIT_TYPE_BODY.
Definition cut_seq (pk : PacketNoC) (seq : Z) : Z :=
  if decide (pk_size pk = pk_flit_left pk) then 0 else to_int (seq + 1).
(** the flit [nextFlit] makes in the storage [raw] *)
Definition cut_flit (raw : Flit) (pk : PacketNoC) (clk seq : Z) : res Flit :=
  let f := (Flit_Flit raw).{src_id := pk_src_id pk}.{dst_id := pk_dst_id pk}.{packet_type := pk_packet_type pk}
    .{flit_is_inverted := false}.{flipNumber := 0}.{flit_type := cut_kind pk} in
  f ← match cut_kind pk with
      | FLIT_TYPE_BODY => u ← body_payload (pk_data pk) (pk_flit_left pk); Ok (f.{payload := u})
      | _ => Ok f
      end;
  Ok (f.{sequence_no := seq}.{timestamp := clk}).

Lemma grown_update_run g f w :
  on_world (on_flits (update (length (flits w)) g)) (net_at (grown f w)) = Ok (tt, net_at (grown (g f) w)).
Proof.
  rewrite (net_update_run _ g _ f) by (simpl; by apply list_lookup_middle).
  do 2 f_equal. unfold updated, grown. simpl. by rewrite insert_app_r_alt, Nat.sub_diag by lia.
Qed.

Lemma heap_run {A} (m : M (list Flit) A) t n a n' :
  on_world (on_flits m) n = Ok (a, n') → tm_net t = n → on_heap m t = Ok (a, t.{tm_net := n'}).
Proof. intros Hm <-. unfold on_heap, on_net, zoom. by rewrite Hm. Qed.

Lemma front_run n ty pk ts q t : packet_queue t !z n = Some ts → ts !z ty = Some (pk :: q) →
  on_queue n ty front t = Ok (pk, t).
Proof.
  intros Hts Hq. unfold on_queue, zoom. rewrite (nested_run front _ _ _ _ _ pk (pk :: q) Hts Hq eq_refl).
  rewrite (nested_id _ _ _ _ _ Hts Hq). by destruct t.
Qed.

(** a step that updates the new flit *)
Lemma heap_step {B} g t f w (k : unit → M TrafficManager B) X : tm_net t = net_at (grown f w) →
  k tt (t.{tm_net := net_at (grown (g f) w)}) = X →
  (on_heap (update (length (flits w)) g) ≫= k) t = X.
Proof. intros Hnet HX. eapply bind_Ok; [|exact HX]. by eapply heap_run; [apply grown_update_run|]. Qed.

Lemma nextFlit_run raw whole n ty clk pk ts q t w f :
  tm_net t = net_at w → packet_queue t !z n = Some ts → ts !z ty = Some (pk :: q) → queued whole pk →
  cut_flit (raw (length (flits w))) pk clk (cut_seq pk (tm_seq t)) = Ok f →
  ∃ len, nextFlit raw n clk ty t = Ok (length (flits w),
    t.{tm_net := net_at (grown f w)}.{tm_seq := cut_seq pk (tm_seq t)}
     .{packet_queue := vinsert n (vinsert ty (advanced pk q) ts) (packet_queue t)}.{packet_queue_length := len}).
Proof.
  intros Hnet Hts Hq Hpk Hf. set (p := length (flits w)) in *.
  set (t1 := t.{tm_net := net_at (grown f w)}.{tm_seq := cut_seq pk (tm_seq t)}).
  destruct (advance_run whole n ty pk ts q t1 Hpk Hts Hq) as [len Hadv]. exists len.
  unfold nextFlit. eapply bind_Ok; [by eapply heap_run; [apply net_alloc_run|]|].
  eapply bind_Ok; [by apply (front_run n ty pk ts q)|]. apply heap_step with (f := Flit_Flit (raw p)); [done|].
  assert (Hend : ∀ t2 f2, tm_net t2 = net_at (grown f2 w) → t2.{tm_net := net_at (grown f w)} = t1 →
    f2.{sequence_no := cut_seq pk (tm_seq t)}.{timestamp := clk} = f →
    (seq ← gets tm_seq; on_heap (update p (λ f, f.{sequence_no := seq}.{timestamp := clk})) ;; advance n ty ;; mret p) t2 =
      Ok (p, t1.{packet_queue := vinsert n (vinsert ty (advanced pk q) ts) (packet_queue t)}.{packet_queue_length := len})).
  { intros t2 f2 Hn2 Ht2 Hf2. assert (Hs2 : tm_seq t2 = cut_seq pk (tm_seq t)) by exact (f_equal tm_seq Ht2).
    eapply bind_Ok; [done|]. apply heap_step with (f := f2); [done|]. rewrite Hs2, Hf2, Ht2.
    eapply bind_Ok; [exact Hadv|]. done. }
  unfold cut_flit, cut_kind, cut_seq in *. case_decide as Hh; [|case_decide as Ht].
  - injection Hf as Hf. eapply bind_Ok; [apply heap_step with (f := (Flit_Flit (raw p)).{src_id := pk_src_id pk}
      .{dst_id := pk_dst_id pk}.{packet_type := pk_packet_type pk}.{flit_is_inverted := false}.{flipNumber := 0}); done|].
    eapply Hend; [reflexivity|reflexivity|exact Hf].
  - injection Hf as Hf. eapply bind_Ok; [apply heap_step with (f := (Flit_Flit (raw p)).{src_id := pk_src_id pk}
      .{dst_id := pk_dst_id pk}.{packet_type := pk_packet_type pk}.{flit_is_inverted := false}.{flipNumber := 0}); done|].
    eapply Hend; [reflexivity|reflexivity|exact Hf].
  - destruct (body_payload (pk_data pk) (pk_flit_left pk)) as [u|] eqn:Hu; [|discriminate]. injection Hf as Hf.
    set (f1 := (Flit_Flit (raw p)).{src_id := pk_src_id pk}.{dst_id := pk_dst_id pk}
      .{packet_type := pk_packet_type pk}.{flit_is_inverted := false}.{flipNumber := 0}).
    eapply bind_Ok with (s' := t.{tm_net := net_at (grown (f1.{flit_type := FLIT_TYPE_BODY}.{payload := u}) w)}
      .{tm_seq := to_int (tm_seq t + 1)}).
    { apply heap_step with (f := f1); [done|]. eapply bind_Ok; [done|].
      eapply bind_Ok; [reflexivity|].
      etrans; [by eapply heap_run; [apply grown_update_run|]|reflexivity]. }
    eapply Hend; [reflexivity|reflexivity|exact Hf].
Qed.

(** a head of a packet of type 0 or 1 is always sent *)
Lemma send_head_run raw whole n ty clk pk ts q t w K :
  tm_rest whole t → tm_net t = net_at w → net_ok_at w K → 0 ≤ n < NUMBER_OF_NODES → ty = 0 ∨ ty = 1 →
  packet_queue t !z n = Some ts → ts !z ty = Some (pk :: q) → pk_size pk = pk_flit_left pk →
  ∃ t' w' f fc fc', SendFlit raw n clk ty t = Ok (tt, t') ∧ tm_rest whole t' ∧ tm_net t' = net_at w' ∧
    packet_queue t' = vinsert n (vinsert ty (advanced pk q) ts) (packet_queue t) ∧ sys t' = sys t ∧
    uses n ty ty t' ∧
    flits w' = flits w ++ [f] ∧ flit_type f = FLIT_TYPE_HEAD ∧ dst_id f = pk_dst_id pk ∧
    channels w !z n = Some fc ∧ channels w' !z n = Some fc' ∧ _input (base_channel fc') = Some (length (flits w)) ∧
    net_ok_at w' (λ p, p = length (flits w) ∨ (K p ∧ _input (base_channel fc) ≠ Some p)).
Proof.
  intros Hr Hnet Hw Hn Hty Hts Hq Hhead.
  assert (Hpk : queued whole pk) by (apply (front_queued whole (λ _, True) n ty pk t); split; [by split|by exists ts, q]).
  assert (Hv : 0 ≤ ty < DEFAULT_NUM_VCS) by (unfold DEFAULT_NUM_VCS; lia).
  set (p := length (flits w)).
  assert (Hkind : cut_kind pk = FLIT_TYPE_HEAD) by (unfold cut_kind; by rewrite decide_True).
  destruct (cut_flit (raw p) pk clk (cut_seq pk (tm_seq t))) as [f0|] eqn:Hf0;
    [|unfold cut_flit in Hf0; by rewrite Hkind in Hf0].
  assert (Hfields : flit_type f0 = FLIT_TYPE_HEAD ∧ dst_id f0 = pk_dst_id pk ∧ packet_type f0 = pk_packet_type pk)
    by (unfold cut_flit in Hf0; rewrite Hkind in Hf0; injection Hf0 as <-; done).
  set (f := f0.{f_vc := ty}).
  destruct (nextFlit_run raw whole n ty clk pk ts q t w f0 Hnet Hts Hq Hpk Hf0) as [len Hnext].
  destruct (inject_channel _ _ n Hw Hn) as [fc Hfc].
  pose proof (grown_ok w K f Hw) as Hw1.
  assert (HKp : ¬ K p) by (intros H; pose proof (placed_in_heap _ _ _ Hw H); lia).
  pose proof (sent_ok_at (grown f w) K n fc p f Hw1 Hn Hfc HKp) as Hw2.
  set (w2 := sent_into n p fc (grown f w)) in *.
  assert (Hw2' : net_ok_at w2 (λ q, q = p ∨ (K q ∧ _input (base_channel fc) ≠ Some q))).
  { apply Hw2; [simpl; by apply list_lookup_middle| |done].
    destruct Hfields as (_ & _ & Ht). unfold countable_flit. simpl. rewrite Ht. apply Hpk. }
  destruct (inject_vc w2 _ n ty Hw2' Hn Hv) as (r & c & Hrr & Hc).
  destruct (per_node_lookup _ _ n ty (tr_use _ _ Hr) Hn) as (u & v & Hu & Hv1 & _); [lia|].
  assert (Hrun : SendFlit raw n clk ty t = Ok (tt,
    t.{tm_net := net_at (forced n ty routing r c w2)}.{tm_seq := cut_seq pk (tm_seq t)}
     .{packet_queue := vinsert n (vinsert ty (advanced pk q) ts) (packet_queue t)}.{packet_queue_length := len}
     .{in_use_vc ::= vinsert n (vinsert ty ty u)})).
  { unfold SendFlit, IsNextFlitHead. eapply bind_Ok with (a := true).
    { eapply bind_Ok; [by eapply front_run|]. by rewrite bool_decide_true. }
    eapply bind_Ok with (a := ty) (s' := t); [unfold choose_vc; destruct Hty as [-> | ->]; done|].
    unfold when at 1. rewrite bool_decide_true by lia. eapply bind_Ok; [exact Hnext|].
    fold p. set (t1 := t.{tm_net := net_at (grown f w)}.{tm_seq := cut_seq pk (tm_seq t)}
      .{packet_queue := vinsert n (vinsert ty (advanced pk q) ts) (packet_queue t)}.{packet_queue_length := len}).
    eapply bind_Ok with (a := tt) (s' := t1).
    { etrans; [by eapply heap_run; [apply grown_update_run|]|reflexivity]. }
    eapply bind_Ok with (a := tt) (s' := t.{tm_net := net_at w2}.{tm_seq := cut_seq pk (tm_seq t)}
      .{packet_queue := vinsert n (vinsert ty (advanced pk q) ts) (packet_queue t)}.{packet_queue_length := len}).
    { unfold on_net, zoom. change (tm_net t1) with (net_at (grown f w)).
      rewrite (net_write_run p n (grown f w) fc Hn Hfc). reflexivity. }
    eapply bind_Ok.
    { unfold on_in_use, zoom. simpl. by rewrite (nested_run (modify (λ _, ty)) _ _ _ _ _ tt ty Hu Hv1 eq_refl). }
    unfold SetIdleStateForVC, on_inject_buf.
    eapply bind_Ok with (a := GetRouters (net_at w2)); [reflexivity|].
    eapply bind_Ok with (a := Some n).
    { unfold lift. rewrite (router_pointer w2 n Hn). reflexivity. }
    eapply bind_Ok; [done|]. unfold on_net, zoom. simpl. rewrite (net_state_run n ty routing r c w2 Hrr Hc). done. }
  exists (t.{tm_net := net_at (forced n ty routing r c w2)}.{tm_seq := cut_seq pk (tm_seq t)}
     .{packet_queue := vinsert n (vinsert ty (advanced pk q) ts) (packet_queue t)}.{packet_queue_length := len}
     .{in_use_vc ::= vinsert n (vinsert ty ty u)}), (forced n ty routing r c w2), f, fc,
    (fc.{base_channel ::= λ ch, ch.{_input := Some p} }).
  split; [exact Hrun|]. split.
  { assert (H0 : 0 ≤ ty < 3) by lia.
    pose proof (or_SendFlit raw whole n clk ty pk Hn H0 t) as H. rewrite Hrun in H. apply H.
    split; [split; [done|by exists ts, q]|]. rewrite Hnet. by exists w, K. }
  split; [reflexivity|]. split; [reflexivity|]. split; [reflexivity|]. split.
  { exists (vinsert ty ty u). simpl. split; apply vlookup_vinsert_eq; by eapply vlookup_Some_range. }
  split; [reflexivity|]. split; [apply Hfields|]. split; [apply Hfields|]. split; [exact Hfc|].
  split; [simpl; apply vlookup_vinsert_eq; by eapply vlookup_Some_range|]. split; [reflexivity|].
  by apply forced_ok.
Qed.

(** ** Queues *)

Lemma queue_at_Some tb n y q : queue_at tb n y = Some q ↔ ∃ ts, tb !z n = Some ts ∧ ts !z y = Some q.
Proof.
  unfold queue_at. destruct (tb !z n) as [ts|]; simpl; [|naive_solver].
  split; [intros H; by exists ts|by intros (? & [= <-] & ?)].
Qed.
Lemma queue_at_update tb n y ts q q' m u :
  tb !z n = Some ts → ts !z y = Some q →
  queue_at (vinsert n (vinsert y q' ts) tb) m u = if decide (m = n ∧ u = y) then Some q' else queue_at tb m u.
Proof.
  intros Hts Hq. unfold queue_at. destruct (decide (m = n)) as [->|Hm].
  - rewrite vlookup_vinsert_eq by (by eapply vlookup_Some_range). simpl. rewrite Hts. simpl.
    destruct (decide (u = y)) as [->|Hu].
    + rewrite decide_True by done. apply vlookup_vinsert_eq. by eapply vlookup_Some_range.
    + rewrite decide_False by tauto. by apply vlookup_vinsert_ne.
  - rewrite decide_False by tauto. by rewrite vlookup_vinsert_ne.
Qed.

Definition table_of (t : TrafficManager) := packet_table (sys t).
(** nothing waits at a node for a type *)
Definition empty_at (m y : Z) (t : TrafficManager) : Prop :=
  queue_at (table_of t) m y = Some [] ∧ queue_at (packet_queue t) m y = Some [].

Lemma on_table_get n y t q : queue_at (table_of t) n y = Some q → on_table n y get t = Ok (q, t).
Proof.
  intros (ts & Hts & Hq)%queue_at_Some. rewrite (on_table_run n y get t ts q q q Hts Hq eq_refl).
  do 2 f_equal. simpl. destruct t as [? ? ? ? ? ? ? [] ? ?]. unfold table_of in Hts. simpl in *.
  by rewrite (nested_id _ _ _ _ _ Hts Hq).
Qed.
Lemma on_queue_get n y t q : queue_at (packet_queue t) n y = Some q → on_queue n y get t = Ok (q, t).
Proof.
  intros (ts & Hts & Hq)%queue_at_Some. rewrite (queue_run n y get t ts q q q Hts Hq eq_refl).
  do 2 f_equal. simpl. rewrite (nested_id _ _ _ _ _ Hts Hq). by destruct t.
Qed.

Section serve.
Context (raw : flit_ptr → Flit) (whole : bool).

Lemma serve_quiet clk m y t : empty_at m y t → serve raw clk m y t = Ok (tt, t).
Proof.
  intros [Ht Hq]. unfold serve, ReadPacket.
  eapply bind_Ok with (a := None); [by eapply bind_Ok; [by apply on_table_get|]|].
  eapply bind_Ok; [done|]. eapply bind_Ok; [by apply on_queue_get|]. done.
Qed.

Lemma quiet_nodes clk l t : Forall (λ m, ∀ y, 0 ≤ y < 3 → empty_at m y t) l →
  for_each l (λ m, for_range 0 3 (serve raw clk m)) t = Ok (tt, t).
Proof.
  induction 1 as [|m l Hm Hl IH]; [done|]. simpl. eapply bind_Ok; [|exact IH].
  unfold for_range. change (seqZ 0 (3 - 0)) with [0; 1; 2]. simpl.
  do 3 (eapply bind_Ok; [apply serve_quiet, Hm; lia|]). done.
Qed.

(** only node [n] has something to send *)
Lemma one_node clk n t X : 0 ≤ n < NUMBER_OF_NODES →
  (∀ m y, 0 ≤ m < NUMBER_OF_NODES → m ≠ n → 0 ≤ y < 3 → empty_at m y t) →
  for_range 0 3 (serve raw clk n) t = X →
  (∀ t', X = Ok (tt, t') → ∀ m y, 0 ≤ m < NUMBER_OF_NODES → m ≠ n → 0 ≤ y < 3 → empty_at m y t') →
  for_range 0 NUMBER_OF_NODES (λ m, for_range 0 3 (serve raw clk m)) t = X.
Proof.
  intros Hn Hbefore HX Hafter. unfold for_range at 1.
  replace (seqZ 0 (NUMBER_OF_NODES - 0)) with (seqZ 0 n ++ n :: seqZ (n + 1) (NUMBER_OF_NODES - n - 1)).
  2:{ rewrite Z.sub_0_r. replace NUMBER_OF_NODES with (n + (NUMBER_OF_NODES - n)) at 2 by lia.
      rewrite seqZ_app by lia. f_equal. rewrite Z.add_0_l.
      rewrite (seqZ_cons n (NUMBER_OF_NODES - n)) by lia. do 2 f_equal; lia. }
  apply for_each_app_run with t.
  - apply quiet_nodes, Forall_forall. intros m Hm%elem_of_seqZ y. apply Hbefore; lia.
  - destruct X as [[[] t']|f]; simpl.
    + eapply bind_Ok; [exact HX|]. apply quiet_nodes, Forall_forall. intros m Hm%elem_of_seqZ y.
      apply (Hafter t' eq_refl); lia.
    + by apply bind_Fault.
Qed.

(** a packet of type 0 or 1 is read and its head is sent *)
Lemma serve_head_run clk n ty pk t w K :
  tm_rest whole t → tm_net t = net_at w → net_ok_at w K → 0 ≤ n < NUMBER_OF_NODES → ty = 0 ∨ ty = 1 →
  queue_at (table_of t) n ty = Some [pk] → queue_at (packet_queue t) n ty = Some [] →
  pk_time pk ≤ clk → pk_src_id pk = n →
  let pk' := pk.{pk_size := size_of_packet pk}.{pk_flit_left := size_of_packet pk - 1} in
  ∃ t' w' f fc fc', serve raw clk n ty t = Ok (tt, t') ∧ tm_rest whole t' ∧ tm_net t' = net_at w' ∧
    (∀ m y, queue_at (table_of t') m y = if decide (m = n ∧ y = ty) then Some [] else queue_at (table_of t) m y) ∧
    (∀ m y, queue_at (packet_queue t') m y =
      if decide (m = n ∧ y = ty) then Some [pk'] else queue_at (packet_queue t) m y) ∧
    uses n ty ty t' ∧ flits w' = flits w ++ [f] ∧ flit_type f = FLIT_TYPE_HEAD ∧ dst_id f = pk_dst_id pk ∧
    channels w !z n = Some fc ∧ channels w' !z n = Some fc' ∧ _input (base_channel fc') = Some (length (flits w)) ∧
    net_ok_at w' (λ p, p = length (flits w) ∨ (K p ∧ _input (base_channel fc) ≠ Some p)).
Proof.
  intros Hr Hnet Hw Hn Hty Htb Hqu Htime Hsrc pk'.
  set (pk1 := pk.{pk_size := size_of_packet pk}.{pk_flit_left := size_of_packet pk}).
  assert (Hty3 : 0 ≤ ty < 3) by lia.
  pose proof (or_ReadPacket whole clk n ty Hn Hty3 t (conj Hr (ex_intro _ w (ex_intro _ K (conj Hnet Hw))))) as Hread.
  apply queue_at_Some in Htb as (ts & Hts & Hq). apply queue_at_Some in Hqu as (us & Hus & Hqu).
  set (t1 := t.{sys ::= λ s, s.{packet_table ::= vinsert n (vinsert ty [] ts)} }).
  assert (Hrun1 : ReadPacket clk n ty t = Ok (Some pk1, t1)).
  { unfold ReadPacket. eapply bind_Ok; [apply on_table_get, queue_at_Some; by exists ts|].
    cbv beta iota. rewrite decide_True by lia.
    eapply bind_Ok; [apply (on_table_run n ty pop t ts [pk] tt [] Hts Hq eq_refl)|]. done. }
  rewrite Hrun1 in Hread. destruct Hread as [Hpk1 [Hr1 _]]. specialize (Hpk1 pk1 eq_refl).
  set (us2 := vinsert ty [pk1] us). set (t2 := t1.{packet_queue := vinsert n us2 (packet_queue t)}).
  assert (Hus2 : packet_queue t2 !z n = Some us2) by (apply vlookup_vinsert_eq; by eapply vlookup_Some_range).
  assert (Hq2 : us2 !z ty = Some [pk1]) by (apply vlookup_vinsert_eq; by eapply vlookup_Some_range).
  assert (Hr2 : tm_rest whole t2).
  { destruct Hr1 as [Rn Rv Rs Rt Rq Ru]. split; try done. apply per_node_update; [exact Rq|exact Hus|].
    by apply Forall_singleton. }
  destruct (send_head_run raw whole n ty clk pk1 us2 [] t2 w K Hr2 Hnet Hw Hn Hty Hus2 Hq2 eq_refl)
    as (t' & w' & f & fc & fc' & Hrun & Hr' & Hnet' & Hpq & Hsys & Huse & Hfl & Hf1 & Hf2 & Hfc & Hfc' & Hin & Hw').
  exists t', w', f, fc, fc'. split.
  { unfold serve. eapply bind_Ok; [exact Hrun1|].
    eapply bind_Ok with (a := tt) (s' := t2).
    { rewrite (queue_run n ty (modify (λ q, q ++ [pk1])) t1 us [] tt [pk1] Hus Hqu eq_refl). reflexivity. }
    eapply bind_Ok; [apply on_queue_get, queue_at_Some; by exists us2|]. exact Hrun. }
  split; [exact Hr'|]. split; [exact Hnet'|]. split.
  { intros m y. unfold table_of. rewrite Hsys. by apply (queue_at_update _ n ty ts [pk]). }
  split.
  { intros m y. rewrite Hpq. unfold t2, us2. simpl. rewrite !vinsert_vinsert.
    rewrite (queue_at_update _ n ty us []) by done. case_decide; [|done].
    unfold advanced. rewrite decide_False; [done|]. simpl. destruct (size_small pk); lia. }
  split; [exact Huse|]. split; [exact Hfl|]. split; [exact Hf1|]. split; [exact Hf2|].
  split; [exact Hfc|]. split; [exact Hfc'|]. split; [exact Hin|exact Hw'].
Qed.
End serve.

(** ** The start of a run *)

Lemma clk_start clk t w K : tm_net t = net_at w → net_ok_at w K →
  ∃ w', on_net (Network_clk clk) t = Ok (tt, t.{tm_net := net_at w'}) ∧
    net_ok_at w' (NetworkSafe.kept K w) ∧ length (flits w') = length (flits w).
Proof.
  intros Hnet Hw. assert (Hnn : 0 ≤ n_nodes) by (simpl; lia).
  destruct (cycle_run _ Hnn K clk w Hw) as (w' & Hrun & Hw' & _ & Hl & _).
  exists w'. split; [|split; [unfold net_ok_at; by rewrite Hl|exact Hl]].
  unfold on_net, zoom. by rewrite Hnet, (Network_clk_run _ _ _ Hrun).
Qed.

Lemma TM_clk_run raw clk t t1 X : tm_nodes t = NUMBER_OF_NODES → on_net (Network_clk clk) t = Ok (tt, t1) →
  tm_nodes t1 = NUMBER_OF_NODES → for_range 0 NUMBER_OF_NODES (λ n, for_range 0 3 (serve raw clk n)) t1 = X →
  TM_clk raw clk t = X.
Proof.
  intros _ Hclk Hn HX. unfold TM_clk. eapply bind_Ok; [exact Hclk|].
  eapply bind_Ok with (a := NUMBER_OF_NODES); [unfold gets; by rewrite Hn|]. exact HX.
Qed.

(** what a packet table holds after one [load_traffic] *)
Lemma load_queue whole pk src ty t q : 0 ≤ src < NUMBER_OF_NODES → 0 ≤ ty < 3 → cuttable whole pk →
  tm_rest whole t → queue_at (table_of t) src ty = Some q →
  ∃ t', load_traffic pk src ty t = Ok (true, t') ∧ tm_rest whole t' ∧ tm_net t' = tm_net t ∧
    packet_queue t' = packet_queue t ∧
    ∀ m y, queue_at (table_of t') m y =
      if decide (m = src ∧ y = ty) then Some (q ++ [pk]) else queue_at (table_of t) m y.
Proof.
  intros Hs Hty Hpk Hr (ts & Hts & Hq)%queue_at_Some.
  destruct (table_at _ t src ty Hr Hs Hty) as (ts' & q' & Hts' & Hq' & Hall).
  unfold table_of in Hts. rewrite Hts in Hts'. injection Hts' as <-. rewrite Hq in Hq'. injection Hq' as <-.
  eexists. unfold load_traffic, mbind, M_bind.
  rewrite (on_table_run src ty (modify (λ q, q ++ [pk])) t ts q tt (q ++ [pk]) Hts Hq eq_refl). split; [reflexivity|].
  split; [apply rest_table; [done|done|]; by apply Forall_app_2, Forall_singleton|].
  split; [reflexivity|]. split; [reflexivity|]. intros m y. by apply (queue_at_update _ src ty ts q).
Qed.

Lemma empty_queues m y : 0 ≤ m < NUMBER_OF_NODES → 0 ≤ y < 3 →
  queue_at (replicate 64 [[]; []; []]) m y = Some [].
Proof.
  unfold NUMBER_OF_NODES. intros Hm Hy. apply queue_at_Some. exists [[]; []; []]. split.
  - apply vlookup_Some. split; [lia|]. apply lookup_replicate. split; [done|lia].
  - assert (y = 0 ∨ y = 1 ∨ y = 2) as [->|[->| ->]] by lia; reflexivity.
Qed.

(** a system in which nothing has happened *)
Record silent (whole : bool) (t : TrafficManager) (w : World) : Prop := {
  si_rest : tm_rest whole t;
  si_net : tm_net t = net_at w;
  si_ok : net_ok_at w (λ _, False);
  si_flits : flits w = [];
  si_queue : ∀ m y, 0 ≤ m < NUMBER_OF_NODES → 0 ≤ y < 3 → queue_at (packet_queue t) m y = Some [];
}.
Definition nothing_loaded (t : TrafficManager) : Prop :=
  ∀ m y, 0 ≤ m < NUMBER_OF_NODES → 0 ≤ y < 3 → queue_at (table_of t) m y = Some [].

Lemma fresh_silent raw raw_active config raw_cache raw_length whole : config_ok config →
  ∃ w tm0, NetworkNoC_NetworkNoC raw raw_active config [] = Ok (net_at w) ∧
    TrafficManager_New raw_cache raw_length (net_at w) = Ok tm0 ∧ silent whole tm0 w ∧ nothing_loaded tm0.
Proof.
  intros Hcfg. destruct (fresh_system raw raw_active config raw_cache raw_length whole Hcfg)
    as (w0 & d & i & l & dir & H1 & H2 & Hr0 & Hw0 & Hf0).
  eexists w0, _. split; [exact H1|]. split; [exact H2|]. clear H1 H2.
  split; [split; [exact Hr0|reflexivity|exact Hw0|exact Hf0|]|]; exact empty_queues.
Qed.

Lemma silent_load whole pk src ty t w q : silent whole t w → 0 ≤ src < NUMBER_OF_NODES → 0 ≤ ty < 3 →
  cuttable whole pk → queue_at (table_of t) src ty = Some q →
  ∃ t', load_traffic pk src ty t = Ok (true, t') ∧ silent whole t' w ∧
    ∀ m y, queue_at (table_of t') m y =
      if decide (m = src ∧ y = ty) then Some (q ++ [pk]) else queue_at (table_of t) m y.
Proof.
  intros [Hr Hnet Hw Hf Hqu] Hs Hty Hpk Hq.
  destruct (load_queue whole pk src ty t q Hs Hty Hpk Hr Hq) as (t' & Hrun & Hr' & Hn' & Hq' & Ht').
  exists t'. split; [exact Hrun|]. split; [|exact Ht']. split; [exact Hr'|by rewrite Hn'|done|done|by rewrite Hq'].
Qed.

Lemma silent_clk whole clk t w : silent whole t w →
  ∃ t1 w1, on_net (Network_clk clk) t = Ok (tt, t1) ∧ silent whole t1 w1 ∧ table_of t1 = table_of t.
Proof.
  intros [Hr Hnet Hw Hf Hqu]. destruct (clk_start clk t w (λ _, False) Hnet Hw) as (w1 & Hclk & Hw1 & Hl1).
  exists (t.{tm_net := net_at w1}), w1. split; [exact Hclk|]. split; [|done].
  split; [destruct Hr; by split|done| |apply nil_length_inv; by rewrite Hl1, Hf|exact Hqu].
  eapply net_ok_iff; [|exact Hw1]. intros p. unfold NetworkSafe.kept. tauto.
Qed.

Lemma first_serve raw whole clk n ty pk t w : silent whole t w → 0 ≤ n < NUMBER_OF_NODES → ty = 0 ∨ ty = 1 →
  queue_at (table_of t) n ty = Some [pk] → pk_time pk ≤ clk → pk_src_id pk = n →
  let pk' := pk.{pk_size := size_of_packet pk}.{pk_flit_left := size_of_packet pk - 1} in
  ∃ t' w' f fc, serve raw clk n ty t = Ok (tt, t') ∧ tm_rest whole t' ∧ tm_net t' = net_at w' ∧
    (∀ m y, queue_at (table_of t') m y = if decide (m = n ∧ y = ty) then Some [] else queue_at (table_of t) m y) ∧
    (∀ m y, queue_at (packet_queue t') m y =
      if decide (m = n ∧ y = ty) then Some [pk'] else queue_at (packet_queue t) m y) ∧
    uses n ty ty t' ∧ flits w' = [f] ∧ flit_type f = FLIT_TYPE_HEAD ∧ dst_id f = pk_dst_id pk ∧
    channels w' !z n = Some fc ∧ _input (base_channel fc) = Some 0%nat ∧ net_ok_at w' (λ p, p = 0%nat).
Proof.
  intros [Hr Hnet Hw Hf Hqu] Hn Hty Htb Ht Hs pk'.
  destruct (serve_head_run raw whole clk n ty pk t w _ Hr Hnet Hw Hn Hty Htb)
    as (t' & w' & f & c1 & c2 & Hrun & Hr' & Hnet' & Htab & Hq' & Hu & Hfl & Hh & Hd & _ & Hc & Hin & Hw');
    [apply Hqu; lia|done|done|]. rewrite Hf in Hfl, Hin, Hw'. exists t', w', f, c2.
  split; [exact Hrun|]. split; [exact Hr'|]. split; [exact Hnet'|]. split; [exact Htab|]. split; [exact Hq'|].
  split; [exact Hu|]. split; [exact Hfl|]. split; [exact Hh|]. split; [exact Hd|]. split; [exact Hc|].
  split; [exact Hin|]. eapply net_ok_iff; [|exact Hw']. intros p. simpl. tauto.
Qed.

(** the cycle in which a node sends the heads of two packets *)
Lemma two_heads raw clk n pk0 pk1 t w : silent true t w → 0 ≤ n < NUMBER_OF_NODES →
  pk_src_id pk0 = n → pk_src_id pk1 = n → pk_time pk0 ≤ clk → pk_time pk1 ≤ clk →
  (∀ m y, 0 ≤ m < NUMBER_OF_NODES → 0 ≤ y < 3 → queue_at (table_of t) m y =
    if decide (m = n ∧ y = 1) then Some [pk1] else if decide (m = n ∧ y = 0) then Some [pk0] else Some []) →
  ∃ tm w' f0 f1, for_range 0 NUMBER_OF_NODES (λ m, for_range 0 3 (serve raw clk m)) t = Ok (tt, tm) ∧
    tm_net tm = net_at w' ∧ flits w' = [f0; f1] ∧
    flit_type f0 = FLIT_TYPE_HEAD ∧ dst_id f0 = pk_dst_id pk0 ∧
    flit_type f1 = FLIT_TYPE_HEAD ∧ dst_id f1 = pk_dst_id pk1 ∧
    (∀ l p, p ∈ slot w' l ↔ l = Wire n ∧ p = 1%nat) ∧
    queue_at (packet_queue tm) n 0 =
      Some [pk0.{pk_size := size_of_packet pk0}.{pk_flit_left := size_of_packet pk0 - 1}].
Proof.
  intros Hsil Hn Hs0 Hs1 Ht0 Ht1 Htt. pose proof (si_queue _ _ _ Hsil) as Hqu.
  destruct (first_serve raw true clk n 0 pk0 t w Hsil Hn (or_introl eq_refl))
    as (t2 & w2 & f0 & c2 & Hrun2 & Hr2 & Hnet2 & Htab2 & Hqu2 & _ & Hfl2 & Hh2 & Hd2 & Hc2 & Hin2 & Hw2);
    [rewrite Htt, decide_False, decide_True by lia; done|done|done|].
  destruct (serve_head_run raw true clk n 1 pk1 t2 w2 _ Hr2 Hnet2 Hw2 Hn (or_intror eq_refl))
    as (t3 & w3 & f1 & c3 & c4 & Hrun3 & Hr3 & Hnet3 & Htab3 & Hqu3 & _ & Hfl3 & Hh3 & Hd3 & Hc3 & Hc4 & Hin3 & Hw3);
    [rewrite Htab2, decide_False, Htt, decide_True by lia; done
    |rewrite Hqu2, decide_False by lia; apply Hqu; lia|done|done|]. rewrite Hfl2 in Hfl3, Hin3, Hw3.
  assert (Hlast : ∀ m y, 0 ≤ m < NUMBER_OF_NODES → 0 ≤ y < 3 → m ≠ n ∨ y = 2 → empty_at m y t3).
  { intros m y Hm Hy Hor. split.
    - rewrite Htab3, decide_False, Htab2, decide_False, Htt, !decide_False by lia. done.
    - rewrite Hqu3, decide_False, Hqu2, decide_False by lia. by apply Hqu. }
  exists t3, w3, f0, f1. split.
  { apply (one_node raw clk n); [done| | |].
    - intros m y Hm Hne Hy. split; [rewrite Htt, !decide_False by lia; done|by apply Hqu].
    - unfold for_range. change (seqZ 0 (3 - 0)) with [0; 1; 2]. simpl.
      eapply bind_Ok; [exact Hrun2|]. eapply bind_Ok; [exact Hrun3|].
      eapply bind_Ok; [apply serve_quiet, Hlast; lia|]. done.
    - intros t' [= <-] m y Hm Hne Hy. apply Hlast; [done|done|by left]. }
  split; [exact Hnet3|]. split; [exact Hfl3|]. do 4 (split; [done|]).
  split; [|rewrite Hqu3, decide_False, Hqu2, decide_True by lia; done].
  pose proof (no_placed _ _ _ Hw3) as Hp. pose proof (pl_all _ _ _ Hp) as Hall.
  assert (Hp1 : 1%nat ∈ slot w3 (Wire n)).
  { simpl. rewrite Hc4. unfold wire_slot. rewrite Hin3. by left. }
  intros l p. split; [|by intros [-> ->]]. intros Hpl.
  assert (p = 1%nat) as ->; [|by split; [apply (pl_unique _ _ _ Hp _ _ _ Hpl Hp1)|]].
  assert (Hx : ∃ l, p ∈ slot w3 l) by (by exists l). apply Hall in Hx as [->|[-> Hne]]; [done|].
  rewrite Hc2 in Hc3. injection Hc3 as <-. by destruct Hne.
Qed.

(** ** A packet without data *)

Lemma ask_inject_run {A} n v (g : VirtualChannel → A) t w r c : tm_net t = net_at w → 0 ≤ n < NUMBER_OF_NODES →
  routers w !z n = Some r → vc_at r 4 v = Some c → ask_inject_buf n (of_vc v g) t = Ok (g c, t).
Proof.
  intros Hnet Hn Hr Hc. unfold ask_inject_buf.
  eapply bind_Ok with (a := GetRouters (net_at w)); [unfold gets; by rewrite Hnet|].
  eapply bind_Ok with (a := Some n); [unfold lift; by rewrite (router_pointer w n Hn)|].
  eapply bind_Ok; [done|]. unfold on_net, zoom. rewrite Hnet, (net_ask_run n v g r c w Hr Hc), <-Hnet. by destruct t.
Qed.

(** at most one flit in the network: a virtual channel has room *)
Lemma one_flit_room w K n v : net_ok_at w K → (∀ p, K p → p = 0%nat) → 0 ≤ n < 64 → 0 ≤ v < DEFAULT_NUM_VCS →
  ∃ r c, routers w !z n = Some r ∧ vc_at r 4 v = Some c ∧ occupancy c < DEFAULT_VCS_SIZE.
Proof.
  intros Hw HK Hn Hv. destruct (inject_vc w K n v Hw Hn Hv) as (r & c & Hr & Hc). exists r, c.
  split; [done|]. split; [done|]. destruct (no_routers _ _ _ Hw n r Hr) as [Hok _].
  destruct (vc_at_exists _ n r 4 v (ro_base _ _ _ Hok)) as (c' & Hc' & _ & Hocc); [lia|done|].
  rewrite Hc in Hc'. injection Hc' as <-. rewrite Hocc. pose proof (no_placed _ _ _ Hw) as Hp.
  assert (Hsl : slot w (At n (RBuf 4 v)) = _buffer c) by (simpl; rewrite Hr; simpl; by rewrite queue_vc_at, Hc).
  pose proof (pl_nodup _ _ _ Hp (At n (RBuf 4 v))) as Hnd. rewrite Hsl in Hnd.
  assert (H0 : ∀ p, p ∈ _buffer c → p = 0%nat).
  { intros p Hin. apply HK, (pl_all _ _ _ Hp). exists (At n (RBuf 4 v)). by rewrite Hsl. }
  destruct (_buffer c) as [|x [|y q]]; [done|done|]. exfalso.
  pose proof (H0 x ltac:(left)). pose proof (H0 y ltac:(right; left)). subst.
  apply NoDup_cons in Hnd as [Hnd _]. apply Hnd. by left.
Qed.

Lemma empty_body_faults raw whole clk n ty pk t w K : tm_rest whole t → tm_net t = net_at w → net_ok_at w K →
  (∀ p, K p → p = 0%nat) → 0 ≤ n < NUMBER_OF_NODES → ty = 0 ∨ ty = 1 → uses n ty ty t →
  queue_at (packet_queue t) n ty = Some [pk] → pk_data pk = [] → pk_size pk = 18 → pk_flit_left pk = 17 →
  SendFlit raw n clk ty t = Fault OutOfRange.
Proof.
  intros Hr Hnet Hw HK Hn Hty Hu Hq Hd Hs Hl. apply queue_at_Some in Hq as (ts & Hts & Hq).
  destruct (one_flit_room w K n ty Hw HK Hn) as (r & c & Hrr & Hc & Hocc); [unfold DEFAULT_NUM_VCS; lia|].
  unfold SendFlit. eapply bind_Ok with (a := false).
  { unfold IsNextFlitHead. eapply bind_Ok; [by eapply front_run|]. by rewrite bool_decide_false by lia. }
  cbv beta iota. eapply bind_Ok; [by apply uses_run|]. eapply bind_Ok with (a := true).
  { unfold TM_FindFreeSpace. rewrite decide_True by lia. eapply bind_Ok; [by eapply ask_inject_run|].
    unfold VC_GetOccupancy. by rewrite bool_decide_true. }
  unfold when at 1. apply bind_Fault. unfold nextFlit. set (p := length (flits w)). set (f := Flit_Flit (raw p)).
  eapply bind_Ok; [by eapply heap_run; [apply net_alloc_run|]|].
  eapply bind_Ok with (a := pk) (s' := t.{tm_net := net_at (grown f w)}).
  { unfold on_queue, zoom. simpl. rewrite (nested_run front _ _ _ _ _ pk [pk] Hts Hq eq_refl).
    rewrite (nested_id _ _ _ _ _ Hts Hq). by destruct t. }
  eapply bind_Ok; [by eapply heap_run; [apply grown_update_run|]|].
  apply bind_Fault. rewrite decide_False by lia. rewrite decide_False by lia.
  eapply bind_Ok; [by eapply heap_run; [apply grown_update_run|]|].
  eapply bind_Ok; [done|]. apply bind_Fault. rewrite Hd, Hl. reflexivity.
Qed.

(** the second cycle of a packet without data *)
Lemma second_cycle_faults raw clk n ty pk t w f K :
  tm_rest false t → tm_net t = net_at w → net_ok_at w K → (∀ p, K p → p = 0%nat) → flits w = [f] →
  0 ≤ n < NUMBER_OF_NODES → ty = 0 ∨ ty = 1 → uses n ty ty t →
  pk_data pk = [] → pk_size pk = 18 → pk_flit_left pk = 17 →
  nothing_loaded t →
  (∀ m y, 0 ≤ m < NUMBER_OF_NODES → 0 ≤ y < 3 → queue_at (packet_queue t) m y =
    if decide (m = n ∧ y = ty) then Some [pk] else Some []) →
  TM_clk raw clk t = Fault OutOfRange.
Proof.
  intros Hr Hnet Hw HK Hfl Hn Hty Hu Hd Hs Hl Htb Hqu.
  destruct (clk_start clk t w K Hnet Hw) as (w' & Hclk & Hw' & _).
  set (t1 := t.{tm_net := net_at w'}). assert (Hr1 : tm_rest false t1) by (destruct Hr; by split).
  assert (Hq1 : queue_at (packet_queue t1) n ty = Some [pk])
    by (change (packet_queue t1) with (packet_queue t); rewrite Hqu, decide_True by lia; done).
  assert (Hsend : serve raw clk n ty t1 = Fault OutOfRange).
  { unfold serve, ReadPacket. eapply bind_Ok with (a := None) (s' := t1).
    { eapply bind_Ok; [apply on_table_get, Htb; lia|]. done. }
    eapply bind_Ok; [done|]. eapply bind_Ok; [by apply on_queue_get|]. unfold when. rewrite bool_decide_true by done.
    apply (empty_body_faults raw false clk n ty pk t1 w' (NetworkSafe.kept K w)); try done.
    intros p [Hp _]. by apply HK. }
  apply (TM_clk_run raw clk t t1); [apply Hr|exact Hclk|apply Hr|]. apply (one_node raw clk n); [done| | |done].
  - intros m y Hm Hne Hy. split; [by apply Htb|].
    change (packet_queue t1) with (packet_queue t). rewrite Hqu, decide_False by lia. done.
  - unfold for_range. change (seqZ 0 (3 - 0)) with [0; 1; 2]. simpl.
    destruct Hty as [-> | ->]; [by apply bind_Fault|].
    eapply bind_Ok; [|by apply bind_Fault]. apply serve_quiet. split; [apply Htb; lia|].
    change (packet_queue t1) with (packet_queue t). rewrite Hqu, decide_False by lia. done.
Qed.

(** ** Properties *)

(** Two types of a node that send in the same cycle overwrite each other:
    the injection channel holds one flit.  Two packets with data are loaded at a
    node, one of type 0 and one of type 1; the first cycle takes a flit from each, the
    network accepts both writes, but only the head of the second packet is in
    the network afterwards.  The first packet continues without its head. *)
Theorem same_cycle_head_lost raw raw_element raw_active config raw_cache raw_length n pk0 pk1 clk :
  config_ok config → 0 ≤ n < NUMBER_OF_NODES → cuttable true pk0 → cuttable true pk1 →
  pk_src_id pk0 = n → pk_src_id pk1 = n → pk_time pk0 ≤ clk → pk_time pk1 ≤ clk →
  ∃ net0 tm0 tm w f0 f1, NetworkNoC_NetworkNoC raw_element raw_active config [] = Ok net0 ∧
    TrafficManager_New raw_cache raw_length net0 = Ok tm0 ∧
    (load_traffic pk0 n 0 ;; load_traffic pk1 n 1 ;; TM_clk raw clk) tm0 = Ok (tt, tm) ∧
    tm_net tm = net_at w ∧ flits w = [f0; f1] ∧
    flit_type f0 = FLIT_TYPE_HEAD ∧ dst_id f0 = pk_dst_id pk0 ∧
    flit_type f1 = FLIT_TYPE_HEAD ∧ dst_id f1 = pk_dst_id pk1 ∧
    (∀ l p, p ∈ slot w l ↔ l = Wire n ∧ p = 1%nat) ∧
    queue_at (packet_queue tm) n 0 =
      Some [pk0.{pk_size := size_of_packet pk0}.{pk_flit_left := size_of_packet pk0 - 1}].
Proof.
  intros Hcfg Hn Hc0 Hc1 Hs0 Hs1 Ht0 Ht1.
  destruct (fresh_silent raw_element raw_active config raw_cache raw_length true Hcfg)
    as (w0 & tm0 & H1 & H2 & Hsil & Hload). exists (net_at w0), tm0.
  enough (∃ tm w f0 f1, (load_traffic pk0 n 0 ;; load_traffic pk1 n 1 ;; TM_clk raw clk) tm0 = Ok (tt, tm) ∧
    tm_net tm = net_at w ∧ flits w = [f0; f1] ∧
    flit_type f0 = FLIT_TYPE_HEAD ∧ dst_id f0 = pk_dst_id pk0 ∧
    flit_type f1 = FLIT_TYPE_HEAD ∧ dst_id f1 = pk_dst_id pk1 ∧
    (∀ l p, p ∈ slot w l ↔ l = Wire n ∧ p = 1%nat) ∧
    queue_at (packet_queue tm) n 0 =
      Some [pk0.{pk_size := size_of_packet pk0}.{pk_flit_left := size_of_packet pk0 - 1}])
    as (tm & w & f0 & f1 & H) by (exists tm, w, f0, f1; exact (conj H1 (conj H2 H))).
  clear H1 H2.
  destruct (silent_load true pk0 n 0 tm0 w0 [] Hsil Hn ltac:(lia) Hc0) as (ta & Hla & Hsa & Hta);
    [apply Hload; lia|].
  destruct (silent_load true pk1 n 1 ta w0 [] Hsa Hn ltac:(lia) Hc1) as (tb & Hlb & Hsb & Htb);
    [rewrite Hta, decide_False by lia; apply Hload; lia|].
  destruct (silent_clk true clk tb w0 Hsb) as (t1 & w1 & Hclk & Hs & Heq).
  destruct (two_heads raw clk n pk0 pk1 t1 w1 Hs Hn Hs0 Hs1 Ht0 Ht1) as (tm & w & f0 & f1 & Hrun & H).
  { intros m y Hm Hy. rewrite Heq, Htb, Hta. by rewrite (Hload m y Hm Hy). }
  exists tm, w, f0, f1. split; [|exact H].
  eapply bind_Ok; [exact Hla|]. eapply bind_Ok; [exact Hlb|].
  apply (TM_clk_run raw clk tb t1); [apply Hsb|exact Hclk|apply Hs|exact Hrun].
Qed.

Lemma same_cycle_head_lost_witness :
  ∃ net0 tm0 tm w, NetworkNoC_NetworkNoC (λ _, mkElement d_zero d_zero d_zero d_zero) (λ _, false)
      Configuration_Configuration [] = Ok net0 ∧
    TrafficManager_New some_line 0 net0 = Ok tm0 ∧
    (load_traffic (byte_packet 9 10 3) 9 0 ;; load_traffic (byte_packet 9 12 3) 9 1 ;;
     TM_clk (λ _, coding_flit FLIT_TYPE_BODY 0) 0) tm0 = Ok (tt, tm) ∧
    tm_net tm = net_at w ∧ ∀ l p, p ∈ slot w l ↔ l = Wire 9 ∧ p = 1%nat.
Proof.
  destruct (same_cycle_head_lost (λ _, coding_flit FLIT_TYPE_BODY 0) (λ _, mkElement d_zero d_zero d_zero d_zero)
    (λ _, false) Configuration_Configuration some_line 0 9 (byte_packet 9 10 3) (byte_packet 9 12 3) 0 default_config_ok)
    as (net0 & tm0 & tm & w & f0 & f1 & H1 & H2 & H3 & H4 & _ & _ & _ & _ & _ & H5 & _).
  - unfold NUMBER_OF_NODES. lia.
  - split; [split; [vm_compute; split; [discriminate|reflexivity]|left; vm_compute; discriminate]|discriminate].
  - split; [split; [vm_compute; split; [discriminate|reflexivity]|left; vm_compute; discriminate]|discriminate].
  - reflexivity.
  - reflexivity.
  - simpl. lia.
  - simpl. lia.
  - exists net0, tm0, tm, w. split; [exact H1|]. split; [exact H2|]. split; [exact H3|]. split; [exact H4|exact H5].
Defined.

(** A packet without data stops the simulator one cycle after its
    head: it is cut into 18 flits, and the payload of the second is read from
    characters it does not have.  This holds for every such packet of
    type 0 or 1, at every node, and every message of the caches to the directory
    is one: [send_to_directory] sets no data and uses type 0. *)
Theorem packet_without_data_faults raw raw_element raw_active config raw_cache raw_length n ty pk c1 c2 :
  config_ok config → 0 ≤ n < NUMBER_OF_NODES → ty = 0 ∨ ty = 1 → sendable pk → pk_data pk = [] →
  pk_src_id pk = n → pk_time pk ≤ c1 →
  ∃ net0 tm0 tm1, NetworkNoC_NetworkNoC raw_element raw_active config [] = Ok net0 ∧
    TrafficManager_New raw_cache raw_length net0 = Ok tm0 ∧
    (load_traffic pk n ty ;; TM_clk raw c1) tm0 = Ok (tt, tm1) ∧ TM_clk raw c2 tm1 = Fault OutOfRange.
Proof.
  intros Hcfg Hn Hty Hpk Hd Hsrc Htime.
  destruct (fresh_silent raw_element raw_active config raw_cache raw_length false Hcfg)
    as (w0 & tm0 & H1 & H2 & Hsil & Hload). exists (net_at w0), tm0.
  enough (∃ tm1, (load_traffic pk n ty ;; TM_clk raw c1) tm0 = Ok (tt, tm1) ∧ TM_clk raw c2 tm1 = Fault OutOfRange)
    as (tm1 & H) by (exists tm1; exact (conj H1 (conj H2 H))).
  clear H1 H2. assert (Hty3 : 0 ≤ ty < 3) by lia.
  assert (Hc : cuttable false pk) by (by split).
  destruct (silent_load false pk n ty tm0 w0 [] Hsil Hn Hty3 Hc) as (ta & Hla & Hsa & Hta); [by apply Hload|].
  destruct (silent_clk false c1 ta w0 Hsa) as (t1 & w1 & Hclk & Hs1 & Heq).
  pose proof (si_queue _ _ _ Hs1) as Hqu.
  destruct (first_serve raw false c1 n ty pk t1 w1 Hs1 Hn Hty)
    as (t2 & w2 & f & fc & Hrun & Hr2 & Hnet2 & Htab & Hq2 & Hu & Hfl & _ & _ & _ & _ & Hw2);
    [rewrite Heq, Hta, decide_True by done; done|done|done|].
  assert (Hsize : size_of_packet pk = 18) by (unfold size_of_packet; by rewrite Hd).
  assert (Htt : nothing_loaded t2).
  { intros m y Hm Hy. rewrite Htab, Heq, Hta. case_decide; [done|]. by apply Hload. }
  assert (Hq2' : ∀ m y, 0 ≤ m < NUMBER_OF_NODES → 0 ≤ y < 3 → m ≠ n ∨ y ≠ ty → empty_at m y t2).
  { intros m y Hm Hy Hor. split; [by apply Htt|]. rewrite Hq2, decide_False by lia. by apply Hqu. }
  exists t2. split.
  - eapply bind_Ok; [exact Hla|]. apply (TM_clk_run raw c1 ta t1); [apply Hsa|exact Hclk|apply Hs1|].
    assert (Hq1 : ∀ m y, 0 ≤ m < NUMBER_OF_NODES → 0 ≤ y < 3 → m ≠ n ∨ y ≠ ty → empty_at m y t1).
    { intros m y Hm Hy Hor. split; [|by apply Hqu]. rewrite Heq, Hta, decide_False by lia. by apply Hload. }
    apply (one_node raw c1 n); [done| | |].
    + intros m y Hm Hne Hy. apply Hq1; [done|done|by left].
    + unfold for_range. change (seqZ 0 (3 - 0)) with [0; 1; 2]. simpl. destruct Hty as [-> | ->].
      * eapply bind_Ok; [exact Hrun|]. eapply bind_Ok; [apply serve_quiet, Hq2'; lia|].
        eapply bind_Ok; [apply serve_quiet, Hq2'; lia|]. done.
      * eapply bind_Ok; [apply serve_quiet, Hq1; lia|]. eapply bind_Ok; [exact Hrun|].
        eapply bind_Ok; [apply serve_quiet, Hq2'; lia|]. done.
    + intros t' [= <-] m y Hm Hne Hy. apply Hq2'; [done|done|by left].
  - apply (second_cycle_faults raw c2 n ty (pk.{pk_size := size_of_packet pk}.{pk_flit_left := size_of_packet pk - 1})
      t2 w2 f (λ p, p = 0%nat)); try done; simpl; [lia|].
    intros m y Hm Hy. rewrite Hq2. case_decide; [done|]. by apply Hqu.
Qed.

Lemma packet_without_data_faults_witness :
  ∃ net0 tm0 tm1, NetworkNoC_NetworkNoC (λ _, mkElement d_zero d_zero d_zero d_zero) (λ _, false)
      Configuration_Configuration [] = Ok net0 ∧
    TrafficManager_New some_line 0 net0 = Ok tm0 ∧
    (load_traffic (blank_packet.{pk_src_id := 5}.{pk_dst_id := 8}) 5 0 ;;
     TM_clk (λ _, coding_flit FLIT_TYPE_BODY 0) 3) tm0 = Ok (tt, tm1) ∧
    TM_clk (λ _, coding_flit FLIT_TYPE_BODY 0) 4 tm1 = Fault OutOfRange.
Proof.
  apply (packet_without_data_faults (λ _, coding_flit FLIT_TYPE_BODY 0) (λ _, mkElement d_zero d_zero d_zero d_zero)
    (λ _, false) Configuration_Configuration some_line 0 5 0 (blank_packet.{pk_src_id := 5}.{pk_dst_id := 8}) 3 4
    default_config_ok).
  - unfold NUMBER_OF_NODES. lia.
  - by left.
  - split; [vm_compute; split; [discriminate|reflexivity]|left; vm_compute; discriminate].
  - reflexivity.
  - reflexivity.
  - simpl. lia.
Defined.
