(* ===== verification/TrafficStuck.v ===== *)
(** * Packets the traffic manager strands

    [SendFlit] gives every packet of type 0 or 1 the same virtual channel and
    sets its state to [routing], whether or not the channel still carries the
    packet before.  A node that sends two such packets one after the other
    therefore loses the second one inside the network. *)

From S2P Require Import Prelude Double NoCMain Config Element Stats Channel.
From S2P Require Import VirtualChannel Allocator FlitCoding Router Network RouterInv RouterSafe.
From S2P Require Import RouterVC RouterSW RouterCycle NetworkSafe Mesh NetworkRun Stuck.
From S2P Require Import MemPacket Cache Directory Process TrafficManager TrafficRun TrafficLoss.

(** ** A traffic manager with nothing to send *)

Definition all_empty (tb : list (list (list PacketNoC))) : bool :=
  forallb (λ ts, bool_decide (length ts = 3%nat) && forallb (λ q : list PacketNoC, match q with [] => true | _ => false end) ts) tb.

Lemma all_empty_at tb m y : zlength tb = NUMBER_OF_NODES → all_empty tb = true →
  0 ≤ m < NUMBER_OF_NODES → 0 ≤ y < 3 → queue_at tb m y = Some [].
Proof.
  unfold all_empty. rewrite forallb_forall. intros Hl Hall Hm Hy.
  destruct (vlookup_in_range tb m) as [ts Hts]; [lia|].
  assert (Hin : In ts tb) by (apply list_elem_of_In; by eapply vlookup_elem_of).
  apply Hall, andb_true_iff in Hin as [Hlen%bool_decide_eq_true Hq].
  destruct (vlookup_in_range ts y) as [q Hq']; [unfold zlength; lia|].
  rewrite forallb_forall in Hq. assert (Hin : In q ts) by (apply list_elem_of_In; by eapply vlookup_elem_of).
  apply Hq in Hin. destruct q; [|done]. apply queue_at_Some. by exists ts.
Qed.

(** cycles of such a traffic manager on an idle network *)
Lemma idle_clocks raw hlen clks t w :
  tm_nodes t = NUMBER_OF_NODES → tm_net t = net_at w → idle_net hlen w →
  (∀ m y, 0 ≤ m < NUMBER_OF_NODES → 0 ≤ y < 3 → empty_at m y t) →
  ∃ w', for_each clks (TM_clk raw) t = Ok (tt, t.{tm_net := net_at w'}) ∧
    ∀ n r i v, routers w !z n = Some r → ∃ r', routers w' !z n = Some r' ∧ queue r' i v = queue r i v.
Proof.
  revert t w. induction clks as [|clk clks IH]; intros t w Hn Hnet Hw Hq.
  { exists w. split; [simpl; rewrite <-Hnet; by destruct t|]. intros n r i v Hr. by exists r. }
  destruct (stays_cycle hlen clk w Hw) as (w1 & Hrun & Hs & Hw1).
  set (t1 := t.{tm_net := net_at w1}).
  assert (Hclk : TM_clk raw clk t = Ok (tt, t1)).
  { apply (TM_clk_run raw clk t t1); [done|unfold on_net, zoom; by rewrite Hnet, (Network_clk_run _ _ _ Hrun)|done|].
    unfold for_range at 1. apply quiet_nodes, Forall_forall. intros m Hm%elem_of_seqZ y Hy.
    apply Hq; [lia|done]. }
  destruct (IH t1 w1 Hn eq_refl Hw1 Hq) as (w' & Hrun' & Hq'). exists w'. split.
  - simpl. eapply bind_Ok; [exact Hclk|]. exact Hrun'.
  - intros n r i v Hr. destruct (still_world_queue _ _ _ _ i v Hs Hr) as (r1 & Hr1 & <-). by apply Hq'.
Qed.

(** ** The run *)

Definition any_flit : flit_ptr → Flit := λ _, coding_flit FLIT_TYPE_BODY 0.
(** two packets of type 1 with one byte each, loaded at node 9 for node 10 *)
Definition two_writebacks (n : nat) : M TrafficManager unit :=
  load_traffic (byte_packet 9 10 3) 9 1 ;; load_traffic (byte_packet 9 10 3) 9 1 ;;
  for_each (seqZ 0 (Z.of_nat n)) (TM_clk any_flit).

Definition stranded (tm : TrafficManager) : bool :=
  let w := world (tm_net tm) in
  bool_decide (flit_type <$> flits w = [FLIT_TYPE_HEAD; FLIT_TYPE_TAIL; FLIT_TYPE_HEAD; FLIT_TYPE_TAIL]) &&
  bool_decide (in_network w = [2%nat; 3%nat]) && bool_decide (idle_world w) &&
  all_empty (packet_table (sys tm)) && all_empty (packet_queue tm) &&
  match routers w !z 9 with Some r => bool_decide (queue r 4 1 = [2%nat; 3%nat]) | None => false end.

Lemma two_writebacks_run d i l dir len :
  match NetworkNoC_NetworkNoC (λ _, zero_element) (λ _, false) Configuration_Configuration [] with
  | Ok net0 => match two_writebacks 10 (new_tm d i l dir len net0) with
               | Ok (_, tm) => stranded tm
               | Fault _ => false
               end
  | Fault _ => false
  end = true.
Proof. vm_compute. reflexivity. Qed.

Lemma two_writebacks_ok n t : tm_ok true t → match two_writebacks n t with Ok (_, tm) => tm_ok true tm | Fault _ => True end.
Proof.
  intros Ht. assert (Hpk : cuttable true (byte_packet 9 10 3)).
  { split; [split; [vm_compute; split; [discriminate|reflexivity]|left; vm_compute; discriminate]|discriminate]. }
  assert (H9 : 0 ≤ 9 < NUMBER_OF_NODES) by (unfold NUMBER_OF_NODES; lia).
  destruct (load_run true _ 9 1 t H9 ltac:(lia) Hpk Ht) as (t1 & Hl1 & Ht1).
  destruct (load_run true _ 9 1 t1 H9 ltac:(lia) Hpk Ht1) as (t2 & Hl2 & Ht2).
  assert (H : triple_or (faults true) (tm_ok true) (for_each (seqZ 0 (Z.of_nat n)) (TM_clk any_flit)) (λ _, tm_ok true))
    by (apply triple_or_for_each; intros clk _; apply or_clk).
  specialize (H t2 Ht2). unfold two_writebacks, mbind, M_bind. rewrite Hl1, Hl2.
  by destruct (for_each _ _ t2) as [[[] tm]|].
Qed.

(** Two packets of type 1 sent one after the other by a node
    destroy each other: when the head of the second is written, the virtual
    channel, which still carries the first, is set back to [routing].  Two
    write-backs of two flits for a neighbour, with nothing else in the
    network: after ten cycles all four flits have been written, the first packet
    is delivered, no router has a request left, and both flits of the second
    packet are in a buffer of their first router; however many
    cycles follow, with any clock values, they are still there. *)
Theorem back_to_back_packets_strand raw_cache raw_length :
  ∃ net0 tm0 tm, NetworkNoC_NetworkNoC (λ _, zero_element) (λ _, false) Configuration_Configuration [] = Ok net0 ∧
    TrafficManager_New raw_cache raw_length net0 = Ok tm0 ∧ two_writebacks 10 tm0 = Ok (tt, tm) ∧
    flit_type <$> flits (world (tm_net tm)) = [FLIT_TYPE_HEAD; FLIT_TYPE_TAIL; FLIT_TYPE_HEAD; FLIT_TYPE_TAIL] ∧
    in_network (world (tm_net tm)) = [2%nat; 3%nat] ∧
    ∀ clks, ∃ tm' r, for_each clks (TM_clk any_flit) tm = Ok (tt, tm') ∧
      routers (world (tm_net tm')) !z 9 = Some r ∧ queue r 4 1 = [2%nat; 3%nat].
Proof.
  destruct (fresh_system (λ _, zero_element) (λ _, false) Configuration_Configuration raw_cache raw_length true
    default_config_ok) as (w0 & d & i & l & dir & H1 & H2 & Hr0 & Hw0 & _).
  pose proof (two_writebacks_run d i l dir raw_length) as Ho. rewrite H1 in Ho.
  set (tm0 := new_tm d i l dir raw_length (net_at w0)) in *.
  assert (Hok0 : tm_ok true tm0) by (split; [exact Hr0|]; exists w0, (λ _, False); split; [reflexivity|exact Hw0]).
  pose proof (two_writebacks_ok 10 tm0 Hok0) as Hok. destruct (two_writebacks 10 tm0) as [[[] tm]|] eqn:Hrun; [|discriminate].
  exists (net_at w0), tm0, tm. split; [exact H1|]. split; [exact H2|]. split; [exact Hrun|]. clear H1 H2 Hrun Hok0 Hr0 Hw0.
  destruct Hok as [Hr (w & K & Hnet & Hw)]. unfold stranded in Ho. rewrite Hnet in *. cbn [world net_at] in *.
  repeat (apply andb_true_iff in Ho as [Ho ?]). apply bool_decide_eq_true in Ho.
  destruct (routers w !z 9) as [r|] eqn:Hr9; [|discriminate].
  repeat match goal with H : bool_decide _ = true |- _ => apply bool_decide_eq_true in H end.
  split; [assumption|]. split; [assumption|]. intros clks.
  destruct (idle_clocks any_flit (length (flits w)) clks tm w) as (w' & Hrun' & Hq'); [apply Hr|exact Hnet| | |].
  - by eapply net_idle.
  - intros m y Hm Hy. split; (apply all_empty_at; [|assumption|done|done]); [apply (sys_table _ (tr_sys _ _ Hr))|apply Hr].
  - destruct (Hq' 9 r 4 1 Hr9) as (r' & Hr' & Hqr). exists (tm.{tm_net := net_at w'}), r'.
    split; [exact Hrun'|]. split; [exact Hr'|congruence].
Qed.
