(* ===== verification/TrafficCut.v ===== *)
(** * Cutting a packet into flits

    [TrafficManager::nextFlit] turns a packet of a whole line, 64 bytes as 128 hexadecimal
    characters, into 18 flits, called once per flit and possibly in
    different cycles.  The flits can be put together again. *)

From S2P Require Import Prelude Double NoCMain Config Element Stats Channel.
From S2P Require Import VirtualChannel Allocator FlitCoding Router Network RouterInv RouterSafe.
From S2P Require Import NetworkSafe Mesh NetworkRun MemPacket Cache Directory Process TrafficManager TrafficRun TrafficLoss.

(** ** Hexadecimal *)

Definition lower_hex (c : Z) : Prop := 48 ≤ c ≤ 57 ∨ 97 ≤ c ≤ 102.
#[export] Instance lower_hex_dec c : Decision (lower_hex c).
Proof. unfold lower_hex. apply _. Defined.
Definition hex_digit (d : Z) : Z := if decide (d < 10) then 48 + d else 87 + d.
(** a 32-bit word as [%08x] prints it *)
Definition hex8 (u : Z) : list Z := (λ k, hex_digit ((u / 16 ^ k) `mod` 16)) <$> [7; 6; 5; 4; 3; 2; 1; 0].

Lemma toInt_hex c : lower_hex c → 0 ≤ toInt c < 16 ∧ hex_digit (toInt c) = c.
Proof. unfold lower_hex, toInt, hex_digit. intros Hc. repeat case_decide; lia. Qed.

Lemma byte_of_hex c1 c2 : lower_hex c1 → lower_hex c2 → byte_of c1 c2 = 16 * toInt c1 + toInt c2.
Proof.
  intros [H1 _]%toInt_hex [H2 _]%toInt_hex. unfold byte_of. apply to_uint_small. lia.
Qed.
Lemma word_of_bytes a b c d : 0 ≤ a < 256 → 0 ≤ b < 256 → 0 ≤ c < 256 → 0 ≤ d < 256 →
  word_of [a; b; c; d] = ((a * 256 + b) * 256 + c) * 256 + d.
Proof.
  intros Ha Hb Hc Hd. unfold word_of. simpl. rewrite !Z.shiftl_mul_pow2 by lia.
  rewrite (to_uint_small 32 (0 * 2 ^ 8 + a)) by lia. rewrite (to_uint_small 32 (_ + b)) by lia.
  rewrite (to_uint_small 32 (_ + c)) by lia. rewrite to_uint_small by lia. lia.
Qed.

Lemma hex8_digits d7 d6 d5 d4 d3 d2 d1 d0 :
  Forall (λ d, 0 ≤ d < 16) [d7; d6; d5; d4; d3; d2; d1; d0] →
  hex8 (((((((d7 * 16 + d6) * 16 + d5) * 16 + d4) * 16 + d3) * 16 + d2) * 16 + d1) * 16 + d0) =
    hex_digit <$> [d7; d6; d5; d4; d3; d2; d1; d0].
Proof.
  rewrite !Forall_cons. intros (? & ? & ? & ? & ? & ? & ? & ? & _). unfold hex8. cbn [fmap list_fmap].
  assert (Hstep : ∀ x d m k, 0 ≤ d < 16 → 0 ≤ k → m = k + 1 → (x * 16 + d) / 16 ^ m = x / 16 ^ k).
  { intros x d m k Hd Hk ->. rewrite Z.pow_add_r, (Z.mul_comm (16 ^ k)), <-Z.div_div by lia. f_equal.
    change (16 ^ 1) with 16. rewrite Z.div_add_l, Z.div_small by lia. lia. }
  assert (Hmod : ∀ x d, 0 ≤ d < 16 → ((x * 16 + d) / 16 ^ 0) `mod` 16 = d).
  { intros x d Hd. change (16 ^ 0) with 1. rewrite Z.div_1_r, Z.add_comm, Z.mod_add, Z.mod_small by lia. lia. }
  repeat match goal with |- _ :: _ = _ :: _ => f_equal end; try done; apply (f_equal hex_digit);
    repeat (match goal with |- context [(_ * 16 + _) / 16 ^ ?k] =>
      let k' := eval vm_compute in (k - 1) in rewrite (Hstep _ _ k k') by lia end);
    (by apply Hmod) || by apply (Hmod 0).
Qed.

Lemma hex8_word (ch : Z → Z) : (∀ j, 0 ≤ j < 8 → lower_hex (ch j)) →
  hex8 (word_of [byte_of (ch 0) (ch 1); byte_of (ch 2) (ch 3); byte_of (ch 4) (ch 5); byte_of (ch 6) (ch 7)]) =
    ch <$> [0; 1; 2; 3; 4; 5; 6; 7].
Proof.
  intros Hch. assert (Hd : ∀ j, 0 ≤ j < 8 → 0 ≤ toInt (ch j) < 16 ∧ hex_digit (toInt (ch j)) = ch j)
    by (intros j Hj; by apply toInt_hex, Hch).
  pose proof (Hd 0 ltac:(lia)). pose proof (Hd 1 ltac:(lia)). pose proof (Hd 2 ltac:(lia)).
  pose proof (Hd 3 ltac:(lia)). pose proof (Hd 4 ltac:(lia)). pose proof (Hd 5 ltac:(lia)).
  pose proof (Hd 6 ltac:(lia)). pose proof (Hd 7 ltac:(lia)).
  rewrite !byte_of_hex by (apply Hch; lia). rewrite word_of_bytes by lia.
  transitivity (hex_digit <$> ((λ j, toInt (ch j)) <$> [0; 1; 2; 3; 4; 5; 6; 7])).
  - cbn [fmap list_fmap]. etrans; [|apply (hex8_digits _ _ _ _ _ _ _ _); repeat constructor; lia]. f_equal. lia.
  - simpl. repeat f_equal; tauto.
Qed.

(** the payload of the body flit with [left] flits left *)
Definition word_at (data : list Z) (left : Z) : Z :=
  let ch j := vat 0 data ((17 - left) * 8 + j) in
  word_of [byte_of (ch 0) (ch 1); byte_of (ch 2) (ch 3); byte_of (ch 4) (ch 5); byte_of (ch 6) (ch 7)].

Lemma line_payload data left : zlength data = 128 → 2 ≤ left ≤ 17 → body_payload data left = Ok (word_at data left).
Proof.
  intros Hlen Hl. apply (body_payload_run data left (λ j, vat 0 data ((17 - left) * 8 + j))). intros j Hj.
  destruct (vlookup_in_range data ((17 - left) * 8 + j)) as [c Hc]; [lia|].
  rewrite (vat_lookup 0 data _ c Hc). unfold str_at. apply vget_Some. apply vlookup_Some in Hc as [? Hc].
  apply vlookup_Some. split; [done|]. by apply lookup_app_l_Some.
Qed.
Lemma line_hex data left : zlength data = 128 → Forall lower_hex data → 2 ≤ left ≤ 17 →
  hex8 (word_at data left) = (λ j, vat 0 data ((17 - left) * 8 + j)) <$> [0; 1; 2; 3; 4; 5; 6; 7].
Proof.
  intros Hlen Hhex Hl. apply (hex8_word (λ j, vat 0 data ((17 - left) * 8 + j))). intros j Hj.
  destruct (vlookup_in_range data ((17 - left) * 8 + j)) as [c Hc]; [lia|].
  rewrite (vat_lookup 0 data _ c Hc). by apply (Forall_vlookup _ _ _ _ Hhex Hc).
Qed.
Lemma line_again (data : list Z) : zlength data = 128 → vat 0 data <$> seqZ 0 128 = data.
Proof.
  intros Hlen. apply list_eq. intros i. rewrite list_lookup_fmap. unfold zlength in Hlen.
  destruct (decide (i < 128)%nat) as [Hi|Hi].
  - rewrite lookup_seqZ_lt by lia. simpl. destruct (lookup_lt_is_Some_2 data i) as [c Hc]; [lia|].
    rewrite Hc. f_equal. apply vat_lookup, vlookup_Some. split; [lia|]. by rewrite Z.add_0_l, Nat2Z.id.
  - rewrite lookup_seqZ_ge by lia. symmetry. apply lookup_ge_None. lia.
Qed.

(** ** The flits of a line *)

Definition flit_ends (pk : PacketNoC) (f : Flit) : Prop :=
  src_id f = pk_src_id pk ∧ dst_id f = pk_dst_id pk ∧ packet_type f = pk_packet_type pk ∧
  flit_is_inverted f = false ∧ flipNumber f = 0.

(** what [nextFlit] makes of the rest of a packet, called once for each of the cycles [clks] *)
Record cut_rest (pk : PacketNoC) (clks : list Z) (fs : list Flit) : Prop := {
  cr_types : flit_type <$> fs = replicate (length clks - 1) FLIT_TYPE_BODY ++ [FLIT_TYPE_TAIL];
  cr_numbers : sequence_no <$> fs = seqZ (18 - pk_flit_left pk) (pk_flit_left pk);
  cr_times : timestamp <$> fs = clks;
  cr_ends : Forall (flit_ends pk) fs;
  cr_words : payload <$> take (length clks - 1) fs = word_at (pk_data pk) <$> (Z.sub (pk_flit_left pk) <$> seqZ 0 (pk_flit_left pk - 1));
}.

Lemma cut_tail pk raw c seq : pk_size pk = 18 → pk_flit_left pk = 1 →
  ∃ f, cut_flit raw pk c seq = Ok f ∧ flit_type f = FLIT_TYPE_TAIL ∧ sequence_no f = seq ∧ timestamp f = c ∧
    flit_ends pk f.
Proof.
  intros Hs Hl. unfold cut_flit, cut_kind. rewrite decide_False, decide_True by lia. eexists. by split.
Qed.
Lemma cut_body pk raw c seq : pk_size pk = 18 → 2 ≤ pk_flit_left pk ≤ 17 → zlength (pk_data pk) = 128 →
  ∃ f, cut_flit raw pk c seq = Ok f ∧ flit_type f = FLIT_TYPE_BODY ∧ sequence_no f = seq ∧ timestamp f = c ∧
    payload f = word_at (pk_data pk) (pk_flit_left pk) ∧ flit_ends pk f.
Proof.
  intros Hs Hl Hd. unfold cut_flit, cut_kind. rewrite decide_False, decide_False by lia.
  rewrite (line_payload _ _ Hd Hl). eexists. by split.
Qed.
Lemma cut_head pk raw c seq : pk_size pk = pk_flit_left pk →
  ∃ f, cut_flit raw pk c seq = Ok f ∧ flit_type f = FLIT_TYPE_HEAD ∧ sequence_no f = seq ∧ timestamp f = c ∧
    flit_ends pk f.
Proof. intros Hs. unfold cut_flit, cut_kind. rewrite decide_True by done. eexists. by split. Qed.

Lemma cut_rest_cons pk c clks f fs :
  cut_rest (pk.{pk_flit_left := pk_flit_left pk - 1}) clks fs → pk_flit_left pk = zlength (c :: clks) → clks ≠ [] →
  flit_type f = FLIT_TYPE_BODY → sequence_no f = 18 - pk_flit_left pk → timestamp f = c →
  payload f = word_at (pk_data pk) (pk_flit_left pk) → flit_ends pk f → cut_rest pk (c :: clks) (f :: fs).
Proof.
  intros [Hty Hno Hti He Hw] Hl Hne Ef En Et Ew Ee. unfold zlength in Hl. simpl in *.
  destruct clks as [|c' clks]; [done|]. simpl in *.
  split; rewrite ?fmap_cons.
  - simpl length. by rewrite Ef, Hty, !Nat.sub_0_r.
  - rewrite En, (seqZ_cons _ (pk_flit_left pk)), Hno by lia. f_equal. f_equal; lia.
  - by rewrite Et, Hti.
  - by constructor.
  - rewrite (seqZ_cons _ (pk_flit_left pk - 1)) by lia. rewrite Nat.sub_0_r in Hw.
    simpl length. change (S (S (length clks)) - 1)%nat with (S (length clks)). rewrite firstn_cons, !fmap_cons, Ew, Z.sub_0_r, Hw. f_equal. f_equal.
    apply list_eq. intros i. rewrite !list_lookup_fmap.
    replace (Z.pred (pk_flit_left pk - 1)) with (pk_flit_left pk - 1 - 1) by lia.
    destruct (decide (Z.of_nat i < pk_flit_left pk - 1 - 1)).
    + rewrite !lookup_seqZ_lt by lia. simpl. f_equal. lia.
    + by rewrite !lookup_seqZ_ge by lia.
Qed.

Section rest.
Context (raw : flit_ptr → Flit) (n ty : Z).

Lemma rest_run clks : ∀ pk ts q t w,
  pk_size pk = 18 → pk_flit_left pk = zlength clks → 1 ≤ pk_flit_left pk ≤ 17 → tm_seq t = 17 - pk_flit_left pk →
  queued false pk → zlength (pk_data pk) = 128 →
  tm_net t = net_at w → packet_queue t !z n = Some ts → ts !z ty = Some (pk :: q) →
  ∃ fs t', map_M (λ c, nextFlit raw n c ty) clks t = Ok (seq (length (flits w)) (length clks), t') ∧
    cut_rest pk clks fs ∧ tm_net t' = net_at (w.{flits := flits w ++ fs}) ∧
    ∃ ts', packet_queue t' !z n = Some ts' ∧ ts' !z ty = Some q.
Proof.
  induction clks as [|c clks IH]; intros pk ts q t w Hsize Hleft Hl Hseq Hpk Hlen Hnet Hts Hq.
  { unfold zlength in Hleft. simpl in Hleft. lia. }
  assert (Hseq' : cut_seq pk (tm_seq t) = 18 - pk_flit_left pk).
  { unfold cut_seq. rewrite decide_False, Hseq, to_int_small by lia. lia. }
  destruct (decide (pk_flit_left pk = 1)) as [H1|H1].
  - assert (clks = []) as -> by (unfold zlength in Hleft; destruct clks; simpl in Hleft; [done|lia]).
    destruct (cut_tail pk (raw (length (flits w))) c (18 - pk_flit_left pk)) as (f & Hf & Hk & Hn & Ht & He); [lia..|].
    rewrite <-Hseq' in Hf.
    destruct (nextFlit_run raw false n ty c pk ts q t w f Hnet Hts Hq Hpk Hf) as [len Hrun].
    eexists [f], (t.{tm_net := net_at (grown f w)}.{tm_seq := cut_seq pk (tm_seq t)}
      .{packet_queue := vinsert n (vinsert ty (advanced pk q) ts) (packet_queue t)}.{packet_queue_length := len}).
    split; [|split; [|split; [reflexivity|]]].
    + simpl. eapply bind_Ok; [exact Hrun|reflexivity].
    + split; simpl; rewrite ?Hk, ?Hn, ?Ht, ?H1; try done. by apply Forall_singleton.
    + exists (vinsert ty (advanced pk q) ts). simpl. rewrite !vlookup_vinsert_eq by (by eapply vlookup_Some_range).
      unfold advanced. by rewrite decide_True.
  - destruct (cut_body pk (raw (length (flits w))) c (18 - pk_flit_left pk)) as (f & Hf & Hk & Hn & Ht & Hw & He); [lia..|].
    rewrite <-Hseq' in Hf.
    destruct (nextFlit_run raw false n ty c pk ts q t w f Hnet Hts Hq Hpk Hf) as [len Hrun].
    set (pk' := pk.{pk_flit_left := pk_flit_left pk - 1}).
    set (t1 := t.{tm_net := net_at (grown f w)}.{tm_seq := cut_seq pk (tm_seq t)}
      .{packet_queue := vinsert n (vinsert ty (advanced pk q) ts) (packet_queue t)}.{packet_queue_length := len}) in Hrun.
    destruct (IH pk' (vinsert ty (advanced pk q) ts) q t1 (grown f w)) as (fs & t' & Hrest & Hcut & Hnet' & Hq').
    + done.
    + simpl. unfold zlength in *. simpl in Hleft. lia.
    + simpl. lia.
    + simpl. lia.
    + destruct Hpk as (Hc & Hs & _). split; [done|]. split; [done|]. simpl. lia.
    + done.
    + reflexivity.
    + simpl. by rewrite vlookup_vinsert_eq by (by eapply vlookup_Some_range).
    + rewrite vlookup_vinsert_eq by (by eapply vlookup_Some_range). unfold advanced. by rewrite decide_False.
    + exists (f :: fs), t'. split; [|split; [|split; [|exact Hq']]].
      * simpl. eapply bind_Ok; [exact Hrun|]. eapply bind_Ok; [exact Hrest|]. do 3 f_equal.
        unfold grown. simpl. rewrite length_app. simpl. by rewrite Nat.add_1_r.
      * apply (cut_rest_cons pk c clks f fs); try done. intros ->. unfold zlength in Hleft. simpl in Hleft. lia.
      * rewrite Hnet'. unfold grown. simpl. by rewrite <-app_assoc.
Qed.
End rest.

(** C25: Cutting a packet of a whole line loses nothing.  Called 18 times in a row for a
    packet of 128 lower-case hexadecimal characters, in any 18 cycles,
    [nextFlit] allocates one flit per call, a head, 16 bodies and a tail in
    this order, with the sequence numbers 0 to 17, the packet's source,
    destination and type, and the cycle of the call as its time stamp;
    the packet has then left the queue, and the payloads
    of the bodies, printed as 32-bit words in hexadecimal and in sequence,
    are the data of the packet. *)
Theorem nextFlit_cuts_line raw n ty pk ts q t w clks :
  tm_net t = net_at w → packet_queue t !z n = Some ts → ts !z ty = Some (pk :: q) → sendable pk →
  pk_size pk = 18 → pk_flit_left pk = 18 → zlength (pk_data pk) = 128 → Forall lower_hex (pk_data pk) →
  zlength clks = 18 →
  ∃ fs t' ts', map_M (λ c, nextFlit raw n c ty) clks t = Ok (seq (length (flits w)) 18, t') ∧
    tm_net t' = net_at (w.{flits := flits w ++ fs}) ∧
    flit_type <$> fs = FLIT_TYPE_HEAD :: replicate 16 FLIT_TYPE_BODY ++ [FLIT_TYPE_TAIL] ∧
    sequence_no <$> fs = seqZ 0 18 ∧ timestamp <$> fs = clks ∧ Forall (flit_ends pk) fs ∧
    mjoin ((hex8 ∘ payload) <$> take 16 (drop 1 fs)) = pk_data pk ∧
    packet_queue t' !z n = Some ts' ∧ ts' !z ty = Some q.
Proof.
  intros Hnet Hts Hq Hsend Hsize Hleft Hlen Hhex Hclks. destruct clks as [|c clks]; [done|].
  assert (Hn : length clks = 17%nat) by (unfold zlength in Hclks; simpl in Hclks; lia).
  assert (Hpk : queued false pk).
  { split; [by split|]. unfold size_of_packet. rewrite decide_False by lia. lia. }
  destruct (cut_head pk (raw (length (flits w))) c 0) as (f & Hf & Ek & En & Et & Ee); [congruence|].
  assert (Hseq : cut_seq pk (tm_seq t) = 0) by (unfold cut_seq; rewrite decide_True by congruence; done).
  rewrite <-Hseq in Hf.
  destruct (nextFlit_run raw false n ty c pk ts q t w f Hnet Hts Hq Hpk Hf) as [len Hrun].
  set (pk' := pk.{pk_flit_left := pk_flit_left pk - 1}).
  set (t1 := t.{tm_net := net_at (grown f w)}.{tm_seq := cut_seq pk (tm_seq t)}
    .{packet_queue := vinsert n (vinsert ty (advanced pk q) ts) (packet_queue t)}.{packet_queue_length := len}) in Hrun.
  destruct (rest_run raw n ty clks pk' (vinsert ty (advanced pk q) ts) q t1 (grown f w))
    as (fs & t' & Hrest & Hcut & Hnet' & ts' & Hq1 & Hq2).
  - done.
  - simpl. unfold zlength. lia.
  - simpl. lia.
  - simpl. rewrite Hseq. lia.
  - destruct Hpk as (Hc & Hs & _). split; [done|]. split; [done|]. simpl. lia.
  - done.
  - reflexivity.
  - simpl. by rewrite vlookup_vinsert_eq by (by eapply vlookup_Some_range).
  - rewrite vlookup_vinsert_eq by (by eapply vlookup_Some_range). unfold advanced. by rewrite decide_False by lia.
  - exists (f :: fs), t', ts'. destruct Hcut as [Hty Hno Hti He Hw]. rewrite Hn in *.
    repeat split; [..|exact Hq1|exact Hq2].
    + simpl. eapply bind_Ok; [exact Hrun|]. eapply bind_Ok; [exact Hrest|]. do 3 f_equal.
      unfold grown. simpl. rewrite length_app. simpl. by rewrite Nat.add_1_r.
    + rewrite Hnet'. unfold grown. simpl. by rewrite <-app_assoc.
    + by rewrite fmap_cons, Ek, Hty.
    + rewrite fmap_cons, En, (seqZ_cons 0 18), Hno by lia. simpl. f_equal. rewrite Hleft. f_equal; lia.
    + by rewrite fmap_cons, Et, Hti.
    + by constructor.
    + change (drop 1 (f :: fs)) with fs. rewrite list_fmap_compose. change (17 - 1)%nat with 16%nat in Hw.
      etrans; [|by apply (line_again (pk_data pk))]. rewrite Hw. change (pk_data pk') with (pk_data pk). change (pk_flit_left pk') with (pk_flit_left pk - 1). rewrite Hleft.
      change (Z.sub (18 - 1) <$> seqZ 0 (18 - 1 - 1)) with [17; 16; 15; 14; 13; 12; 11; 10; 9; 8; 7; 6; 5; 4; 3; 2].
      rewrite !fmap_cons, fmap_nil, !line_hex by (done || lia). reflexivity.
Qed.

(** a line of the bytes 0 to 63, as [process] writes it *)
Definition line_data : list Z := mjoin ((λ b, [hex_digit (b / 16); hex_digit (b `mod` 16)]) <$> seqZ 0 64).
Definition line_packet : PacketNoC := mkPacketNoC 9 10 18 18 3 line_data 0.
Lemma line_sendable : sendable line_packet.
Proof. split; [split; [discriminate|reflexivity]|right; discriminate]. Qed.
Lemma line_data_hex : Forall lower_hex line_data.
Proof. apply (bool_decide_unpack _). vm_compute. exact I. Qed.

Lemma nextFlit_cuts_line_witness :
  ∃ net0 tm0 fs t', NetworkNoC_NetworkNoC (λ _, mkElement d_zero d_zero d_zero d_zero) (λ _, false)
      Configuration_Configuration [] = Ok net0 ∧
    TrafficManager_New some_line 0 net0 = Ok tm0 ∧
    map_M (λ c, nextFlit (λ _, coding_flit FLIT_TYPE_BODY 0) 9 c 0) (seqZ 5 18)
      (tm0.{packet_queue := replicate 64 [[line_packet]; []; []] }) = Ok (seq 0 18, t') ∧
    mjoin ((hex8 ∘ payload) <$> take 16 (drop 1 fs)) = line_data.
Proof.
  destruct (fresh_system (λ _, mkElement d_zero d_zero d_zero d_zero) (λ _, false) Configuration_Configuration
    some_line 0 false default_config_ok) as (w & d & i & l & dir & H1 & H2 & _ & _ & Hf).
  eexists (net_at w), _.
  destruct (nextFlit_cuts_line (λ _, coding_flit FLIT_TYPE_BODY 0) 9 0 line_packet [[line_packet]; []; []] []
    ((new_tm d i l dir 0 (net_at w)).{packet_queue := replicate 64 [[line_packet]; []; []] }) w (seqZ 5 18))
    as (fs & t' & ts' & Hrun & _ & _ & _ & _ & _ & Hdata & _).
  - reflexivity.
  - reflexivity.
  - reflexivity.
  - exact line_sendable.
  - reflexivity.
  - reflexivity.
  - reflexivity.
  - exact line_data_hex.
  - reflexivity.
  - rewrite Hf in Hrun. exists fs, t'. split; [exact H1|]. split; [exact H2|]. split; [exact Hrun|exact Hdata].
Defined.
