(* ===== verification/EventQueue.v ===== *)
(** * The event queue of the simulator ([sim/eventq.hh], [sim/eventq_impl.hh],
    [sim/eventq.cc], [sim/simulate.cc])

    Time in the simulator, the tick that the crossbar passes to the NoC,
    advances when an [EventQueue] services its next [Event].  A queue is a
    linked list of bins of the same time and priority, each a stack of
    events linked through [nextInBin]; only the top event of a bin has a valid
    [nextBin].  Events are shared by pointer: they live in a heap, a pointer is an
    index of it, and a deleted event is [None].  [delete] and the hooks [acquireImpl] and
    [releaseImpl] are those of [Event]; locks, traces and the identity of
    events for debugging are left out. *)

From S2P Require Import Prelude.

(** ** Flags ([base/flags.hh]) *)

Definition isSet (x f : Z) : bool := bool_decide (Z.land x f ≠ 0).
Definition flags_set (f x : Z) : Z := Z.lor x f.
Definition flags_clear (f x : Z) : Z := Z.land x (Z.lnot f).

Definition PublicWrite : Z := 0x1d.
Definition Squashed : Z := 1.
Definition Scheduled : Z := 2.
Definition Managed : Z := 4.
Definition IsExitEvent : Z := 0x10.
Definition IsMainQueue : Z := 0x20.
Definition Initialized : Z := 0x7a40.
Definition InitMask : Z := 0xffc0.

(** ** Events *)

Notation ev_ptr := nat.

Record Event := mkEvent {
  nextBin : option ev_ptr;
  nextInBin : option ev_ptr;
  _when : Z;
  _priority : Z;
  flags : Z;
  ev_queue : option Z;
}.
#[export] Instance Event_settable : Settable Event := λ r,
  mkEvent (nextBin r) (nextInBin r) (_when r) (_priority r) (flags r) (ev_queue r).

Definition scheduled (e : Event) : bool := isSet (flags e) Scheduled.
Definition squashed (e : Event) : bool := isSet (flags e) Squashed.
Definition isExitEvent (e : Event) : bool := isSet (flags e) IsExitEvent.
Definition isManaged (e : Event) : bool := isSet (flags e) Managed.
Definition initialized (e : Event) : bool := bool_decide (Z.land (flags e) InitMask = Initialized).

(** the comparison operators *)
Definition ev_lt (l r : Event) : bool :=
  bool_decide (_when l < _when r ∨ (_when l = _when r ∧ _priority l < _priority r)).
Definition ev_le (l r : Event) : bool :=
  bool_decide (_when l < _when r ∨ (_when l = _when r ∧ _priority l ≤ _priority r)).
Definition ev_eq (l r : Event) : bool :=
  bool_decide (_when l = _when r ∧ _priority l = _priority r).
Definition ev_ne (l r : Event) : bool :=
  bool_decide (_when l ≠ _when r ∨ _priority l ≠ _priority r).

Definition setWhen (t q : Z) (e : Event) : Event := e.{_when := t}.{ev_queue := Some q}.

(** ** The state: the heap of events and the main queues *)

Record EventQueue := mkEventQueue {
  eq_head : option ev_ptr;
  _curTick : Z;
  async_queue : list ev_ptr;
}.
#[export] Instance EventQueue_settable : Settable EventQueue := λ r,
  mkEventQueue (eq_head r) (_curTick r) (async_queue r).

Definition EventQueue_EventQueue : EventQueue := mkEventQueue None 0 [].

Record Sim := mkSim {
  events : list (option Event);
  mainEventQueue : list EventQueue;
  inParallelMode : bool;
  _curEventQueue : option Z;
}.
#[export] Instance Sim_settable : Settable Sim := λ r,
  mkSim (events r) (mainEventQueue r) (inParallelMode r) (_curEventQueue r).

(** a method of an event; a deleted event is not there *)
Definition on_event {A} (e : ev_ptr) (m : M Event A) : M Sim A := λ s,
  match events s !! e with
  | Some (Some ev) =>
      match m ev with
      | Ok (a, ev') => Ok (a, s.{events := <[e := Some ev']> (events s)})
      | Fault f => Fault f
      end
  | _ => Fault NullDeref
  end.
Definition event_at (e : ev_ptr) : M Sim Event := λ s,
  match events s !! e with Some (Some ev) => Ok (ev, s) | _ => Fault NullDeref end.
Definition on_eventq {A} (self : Z) (m : M EventQueue A) : M Sim A :=
  zoom mainEventQueue (λ q s, s.{mainEventQueue := q}) (zoom_at self m).

(** [getEventQueue]: the queues up to [index] are created *)
Definition getEventQueue (index : Z) : M Sim Z :=
  modify (λ s, s.{mainEventQueue ::= λ q,
    q ++ replicate (Z.to_nat (index + 1 - zlength q)) EventQueue_EventQueue}) ;;
  mret index.

Definition curTick : M Sim Z :=
  q ← gets _curEventQueue; q ← nonnull q; on_eventq q (gets _curTick).
(** [this == curEventQueue()] *)
Definition is_current (self : Z) : M Sim bool :=
  q ← gets _curEventQueue; mret (bool_decide (q = Some self)).

(** [new Event(p, f)] *)
Definition Event_Event (p f : Z) : M Sim ev_ptr :=
  check (bool_decide (Z.land f (Z.land 0xffff (Z.lnot PublicWrite)) = 0)) ;;
  e ← gets (λ s, length (events s));
  modify (λ s, s.{events ::= λ h, h ++ [Some (mkEvent None None 0 p (flags_set f Initialized) None)] }) ;;
  mret e.
(** [delete]: the destructor, then the storage is gone *)
Definition delete_Event (e : ev_ptr) : M Sim unit :=
  ev ← event_at e;
  check (negb (scheduled ev)) ;;
  modify (λ s, s.{events ::= <[e := None]> }).

Definition squash (e : ev_ptr) : M Sim unit := on_event e (modify (λ ev, ev.{flags ::= flags_set Squashed})).

Definition acquireImpl (e : ev_ptr) : M Sim unit := mret tt.
Definition releaseImpl (e : ev_ptr) : M Sim unit :=
  ev ← event_at e; when (negb (scheduled ev)) (delete_Event e).
Definition acquire (e : ev_ptr) : M Sim unit := ev ← event_at e; when (isManaged ev) (acquireImpl e).
Definition release (e : ev_ptr) : M Sim unit := ev ← event_at e; when (isManaged ev) (releaseImpl e).

(** ** The linked lists *)

Definition insertBefore (event : ev_ptr) (curr : option ev_ptr) : M Sim ev_ptr :=
  ev ← event_at event;
  match curr with
  | None => on_event event (modify (λ e, e.{nextBin := None}.{nextInBin := None}))
  | Some c =>
      cv ← event_at c;
      if ev_lt ev cv then on_event event (modify (λ e, e.{nextBin := curr}.{nextInBin := None}))
      else on_event event (modify (λ e, e.{nextBin := nextBin cv}.{nextInBin := curr}))
  end ;;
  mret event.

(** the [while] loop of [insert] and [remove] *)
Fixpoint find_bin (fuel : nat) (event prev : ev_ptr) (curr : option ev_ptr) :
    M Sim (ev_ptr * option ev_ptr) :=
  match fuel with
  | O => throw OutOfFuel
  | S fuel' =>
      match curr with
      | None => mret (prev, None)
      | Some c =>
          cv ← event_at c;
          ev ← event_at event;
          if ev_lt cv ev then find_bin fuel' event c (nextBin cv) else mret (prev, Some c)
      end
  end.
(** no list is longer than the heap *)
Definition heap_size : M Sim nat := gets (λ s, S (length (events s))).

Definition EventQueue_insert (self : Z) (event : ev_ptr) : M Sim unit :=
  hd ← on_eventq self (gets eq_head);
  ev ← event_at event;
  match hd with
  | None =>
      top ← insertBefore event None;
      on_eventq self (modify (λ q, q.{eq_head := Some top}))
  | Some h =>
      hv ← event_at h;
      if ev_le ev hv then
        top ← insertBefore event hd;
        on_eventq self (modify (λ q, q.{eq_head := Some top}))
      else
        n ← heap_size;
        pc ← find_bin n event h (nextBin hv);
        top ← insertBefore event pc.2;
        on_event pc.1 (modify (λ e, e.{nextBin := Some top}))
  end.

(** the [while] loop of [removeItem]; [panic] ends the program *)
Fixpoint find_item (fuel : nat) (event curr : ev_ptr) (next : option ev_ptr) : M Sim (ev_ptr * ev_ptr) :=
  match fuel with
  | O => throw OutOfFuel
  | S fuel' =>
      match next with
      | None => throw ExitCalled
      | Some n =>
          if decide (event = n) then mret (curr, n)
          else nv ← event_at n; find_item fuel' event n (nextInBin nv)
      end
  end.

Definition removeItem (event top : ev_ptr) : M Sim (option ev_ptr) :=
  tv ← event_at top;
  if decide (event = top) then
    match nextInBin tv with
    | None => mret (nextBin tv)
    | Some n => on_event n (modify (λ e, e.{nextBin := nextBin tv})) ;; mret (Some n)
    end
  else
    n ← heap_size;
    cn ← find_item n event top (nextInBin tv);
    nv ← event_at cn.2;
    on_event cn.1 (modify (λ e, e.{nextInBin := nextInBin nv})) ;;
    mret (Some top).

Definition EventQueue_remove (self : Z) (event : ev_ptr) : M Sim unit :=
  hd ← on_eventq self (gets eq_head);
  match hd with
  | None => throw ExitCalled
  | Some h =>
      ev ← event_at event;
      check (bool_decide (ev_queue ev = Some self)) ;;
      hv ← event_at h;
      if ev_eq hv ev then
        top ← removeItem event h;
        on_eventq self (modify (λ q, q.{eq_head := top}))
      else
        n ← heap_size;
        pc ← find_bin n event h (nextBin hv);
        match pc.2 with
        | None => throw ExitCalled
        | Some c =>
            cv ← event_at c;
            if ev_ne cv ev then throw ExitCalled
            else top ← removeItem event c;
                 on_event pc.1 (modify (λ e, e.{nextBin := top}))
        end
  end.

(** ** Scheduling *)

Definition asyncInsert (self : Z) (event : ev_ptr) : M Sim unit :=
  on_eventq self (modify (λ q, q.{async_queue ::= λ l, l ++ [event] })).

Definition schedule (self : Z) (event : ev_ptr) (t : Z) (global : bool) : M Sim unit :=
  now ← on_eventq self (gets _curTick);
  check (bool_decide (t >= now)) ;;
  ev ← event_at event;
  check (negb (scheduled ev)) ;;
  check (initialized ev) ;;
  on_event event (modify (setWhen t self)) ;;
  par ← gets inParallelMode;
  cur ← is_current self;
  (if par && (negb cur || global) then asyncInsert self event else EventQueue_insert self event) ;;
  on_event event (modify (λ e, e.{flags ::= flags_set Scheduled})) ;;
  acquire event.

(** [!inParallelMode || this == curEventQueue()] *)
Definition may_touch (self : Z) : M Sim bool :=
  par ← gets inParallelMode; cur ← is_current self; mret (negb par || cur).

Definition deschedule (self : Z) (event : ev_ptr) : M Sim unit :=
  ev ← event_at event;
  check (scheduled ev) ;;
  check (initialized ev) ;;
  b ← may_touch self;
  check b ;;
  EventQueue_remove self event ;;
  on_event event (modify (λ e, e.{flags ::= flags_clear Squashed})) ;;
  on_event event (modify (λ e, e.{flags ::= flags_clear Scheduled})) ;;
  release event.

Definition reschedule (self : Z) (event : ev_ptr) (t : Z) (always : bool) : M Sim unit :=
  now ← on_eventq self (gets _curTick);
  check (bool_decide (t >= now)) ;;
  ev ← event_at event;
  check (always || scheduled ev) ;;
  check (initialized ev) ;;
  b ← may_touch self;
  check b ;;
  (if scheduled ev then EventQueue_remove self event else acquire event) ;;
  on_event event (modify (setWhen t self)) ;;
  EventQueue_insert self event ;;
  on_event event (modify (λ e, e.{flags ::= flags_clear Squashed})) ;;
  on_event event (modify (λ e, e.{flags ::= flags_set Scheduled})).

Definition handleAsyncInsertions (self : Z) : M Sim unit :=
  b ← is_current self;
  check b ;;
  q ← on_eventq self (gets async_queue);
  for_each q (EventQueue_insert self) ;;
  on_eventq self (modify (λ q, q.{async_queue := [] })).

Definition replaceHead (self : Z) (s : option ev_ptr) : M Sim (option ev_ptr) :=
  t ← on_eventq self (gets eq_head);
  on_eventq self (modify (λ q, q.{eq_head := s})) ;;
  mret t.

(** ** Checkpoints: the three scalars a checkpoint holds of an event *)

Definition serialize (ev : Event) : Z * Z * Z := (_when ev, _priority ev, to_sint 16 (flags ev)).
Definition unserialize (e : ev_ptr) (cp : Z * Z * Z) : M Sim unit :=
  ev ← event_at e;
  check (negb (scheduled ev)) ;;
  on_event e (modify (λ ev, ev.{_when := cp.1.1}.{_priority := cp.1.2})) ;;
  ev ← event_at e;
  check (initialized ev) ;;
  on_event e (modify (λ ev, ev.{flags := flags_set Initialized (to_uint 16 cp.2)})) ;;
  ev ← event_at e;
  when (scheduled ev && negb (squashed ev))
    (on_event e (modify (λ ev, ev.{flags ::= flags_clear (Z.lor Squashed Scheduled)}))).
Definition checkpointReschedule (self : Z) (e : ev_ptr) : M Sim unit :=
  ev ← event_at e; when (scheduled ev) (EventQueue_insert self e).

(** ** Servicing *)

Section process.
(** the pure virtual method of the events *)
Variable process : ev_ptr → M Sim unit.

Definition serviceOne (self : Z) : M Sim (option ev_ptr) :=
  hd ← on_eventq self (gets eq_head);
  event ← nonnull hd;
  ev ← event_at event;
  on_event event (modify (λ e, e.{flags ::= flags_clear Scheduled})) ;;
  match nextInBin ev with
  | Some next =>
      on_event next (modify (λ e, e.{nextBin := nextBin ev})) ;;
      on_eventq self (modify (λ q, q.{eq_head := Some next}))
  | None => on_eventq self (modify (λ q, q.{eq_head := nextBin ev}))
  end ;;
  if negb (squashed ev) then
    on_eventq self (modify (λ q, q.{_curTick := _when ev})) ;;
    process event ;;
    ev ← event_at event;
    if isExitEvent ev then
      check (negb (isManaged ev) || negb (isSet (flags ev) IsMainQueue)) ;;
      mret (Some event)
    else release event ;; mret None
  else
    on_event event (modify (λ e, e.{flags ::= flags_clear Squashed})) ;;
    release event ;;
    mret None.

(** the loop of [serviceEvents]: nothing bounds the events a handler schedules *)
Fixpoint service_loop (fuel : nat) (self t : Z) : M Sim unit :=
  match fuel with
  | O => throw OutOfFuel
  | S fuel' =>
      hd ← on_eventq self (gets eq_head);
      match hd with
      | None => mret tt
      | Some h =>
          hv ← event_at h;
          if decide (_when hv > t) then mret tt
          else serviceOne self ;; service_loop fuel' self t
      end
  end.
Definition serviceEvents (fuel : nat) (self t : Z) : M Sim unit :=
  service_loop fuel self t ;;
  on_eventq self (modify (λ q, q.{_curTick := t})).

(** the block of [doSimLoop] that serves the requests of host signals (statistics,
    I/O, user interrupts), if there are any; [true] is [return NULL] *)
Variable async_service : M Sim bool.

Fixpoint sim_loop (fuel : nat) (self : Z) : M Sim (option ev_ptr) :=
  match fuel with
  | O => throw OutOfFuel
  | S fuel' =>
      hd ← on_eventq self (gets eq_head);
      check (bool_decide (hd ≠ None)) ;;
      now ← curTick;
      h ← nonnull hd;
      hv ← event_at h;
      check (bool_decide (now ≤ _when hv)) ;;
      stop ← async_service;
      if (stop : bool) then mret None
      else
        exit_event ← serviceOne self;
        match exit_event with Some e => mret (Some e) | None => sim_loop fuel' self end
  end.
Definition doSimLoop (fuel : nat) (self : Z) : M Sim (option ev_ptr) :=
  modify (λ s, s.{_curEventQueue := Some self}) ;;
  handleAsyncInsertions self ;;
  sim_loop fuel self.
End process.

(** ** The queue's own check *)

(** the inner loop of [debugVerify]: the events seen, the last time and
    priority; [None] is [return false] *)
Fixpoint verify_bin (fuel : nat) (p : option ev_ptr) (st : list ev_ptr * Z * Z) :
    M Sim (option (list ev_ptr * Z * Z)) :=
  match fuel with
  | O => throw OutOfFuel
  | S fuel' =>
      match p with
      | None => mret (Some st)
      | Some e =>
          ev ← event_at e;
          let '(seen, time, priority) := st in
          if decide (_when ev < time) then mret None
          else if decide (_when ev = time ∧ _priority ev < priority) then mret None
          else if decide (e ∈ seen) then mret None
          else verify_bin fuel' (nextInBin ev) (e :: seen, _when ev, _priority ev)
      end
  end.
Fixpoint verify_bins (fuel : nat) (p : option ev_ptr) (st : list ev_ptr * Z * Z) : M Sim bool :=
  match fuel with
  | O => throw OutOfFuel
  | S fuel' =>
      match p with
      | None => mret true
      | Some e =>
          n ← heap_size;
          st ← verify_bin n p st;
          match st with
          | None => mret false
          | Some st => ev ← event_at e; verify_bins fuel' (nextBin ev) st
          end
      end
  end.
Definition debugVerify (self : Z) : M Sim bool :=
  hd ← on_eventq self (gets eq_head);
  n ← heap_size;
  verify_bins n hd ([], 0, 0).
