(* ===== verification/EventLinks.v ===== *)
(** * The linked lists of an event queue

    What the pointers of a queue mean: an [agenda], the events in the order
    they will be serviced, each with its time and priority.  [EventQueue_insert] and
    [EventQueue_remove] change the pointers so that the agenda is
    changed as [ag_insert] and [ag_remove] say, and nothing else. *)

From S2P Require Import Prelude EventQueue.

(** ** Agendas *)

Notation ev_key := (Z * Z)%type.
Definition klt (k1 k2 : ev_key) : Prop := k1.1 < k2.1 ∨ (k1.1 = k2.1 ∧ k1.2 < k2.2).
Definition kle (k1 k2 : ev_key) : Prop := k1.1 < k2.1 ∨ (k1.1 = k2.1 ∧ k1.2 ≤ k2.2).
#[export] Instance klt_dec k1 k2 : Decision (klt k1 k2).
Proof. unfold klt. apply _. Defined.
#[export] Instance kle_dec k1 k2 : Decision (kle k1 k2).
Proof. unfold kle. apply _. Defined.
Definition ekey (e : Event) : ev_key := (_when e, _priority e).

Notation agenda := (list (ev_key * ev_ptr)).
(** before the first event that is not earlier: the last one in is the first one out *)
Fixpoint ag_insert (k : ev_key) (e : ev_ptr) (ag : agenda) : agenda :=
  match ag with
  | [] => [(k, e)]
  | x :: ag' => if decide (klt x.1 k) then x :: ag_insert k e ag' else (k, e) :: ag
  end.
Definition ag_remove (e : ev_ptr) (ag : agenda) : agenda := filter (λ x, x.2 ≠ e) ag.

Lemma ev_lt_key a b : ev_lt a b = bool_decide (klt (ekey a) (ekey b)).
Proof. apply bool_decide_ext. done. Qed.
Lemma ev_le_key a b : ev_le a b = bool_decide (¬ klt (ekey b) (ekey a)).
Proof. apply bool_decide_ext. unfold klt. simpl. lia. Qed.
Lemma ev_eq_key a b : ev_eq a b = bool_decide (ekey a = ekey b).
Proof. apply bool_decide_ext. unfold ekey. split; [by intros [-> ->]|by intros [= -> ->]]. Qed.
Lemma ev_ne_key a b : ev_ne a b = negb (bool_decide (ekey a = ekey b)).
Proof.
  unfold ev_ne. rewrite <-bool_decide_not. apply bool_decide_ext. unfold ekey. split.
  - intros H [= H1 H2]. lia.
  - intros H. destruct (decide (_when a = _when b)); [|by left]. right. congruence.
Qed.
Lemma klt_trans a b c : klt a b → klt b c → klt a c.
Proof. unfold klt. lia. Qed.
Lemma klt_irrefl a : ¬ klt a a.
Proof. unfold klt. lia. Qed.
Lemma klt_total a b : klt a b ∨ a = b ∨ klt b a.
Proof. destruct a, b. unfold klt. simpl. destruct (decide (z = z1)), (decide (z0 = z2)); subst; auto; lia. Qed.

Lemma ag_insert_app k e ag1 ag2 : Forall (λ x, klt x.1 k) ag1 →
  ag_insert k e (ag1 ++ ag2) = ag1 ++ ag_insert k e ag2.
Proof. induction 1 as [|x ag1 Hx _ IH]; [done|]. simpl. rewrite decide_True by done. by rewrite IH. Qed.
Lemma ag_insert_here k e ag : Forall (λ x, ¬ klt x.1 k) ag → ag_insert k e ag = (k, e) :: ag.
Proof. destruct 1; [done|]. simpl. by rewrite decide_False. Qed.
Lemma ag_insert_perm k e ag : ag_insert k e ag ≡ₚ (k, e) :: ag.
Proof.
  induction ag as [|x ag IH]; simpl; [done|]. case_decide; [|done]. rewrite IH. by constructor.
Qed.
Lemma ag_remove_not e ag : e ∉ ag.*2 → ag_remove e ag = ag.
Proof.
  induction ag as [|x ag IH]; [done|]. rewrite fmap_cons, not_elem_of_cons. intros [Hx He].
  unfold ag_remove. rewrite filter_cons_True by done. f_equal. by apply IH.
Qed.
Lemma ag_remove_app e ag1 ag2 : ag_remove e (ag1 ++ ag2) = ag_remove e ag1 ++ ag_remove e ag2.
Proof. apply filter_app. Qed.
Lemma ag_remove_here k e ag : e ∉ ag.*2 → ag_remove e ((k, e) :: ag) = ag.
Proof. intros He. unfold ag_remove. rewrite filter_cons_False by (by intros []). by apply ag_remove_not. Qed.
Lemma ag_remove_insert k e ag : e ∉ ag.*2 → ag_remove e (ag_insert k e ag) = ag.
Proof.
  induction ag as [|x ag IH]; intros He; [by apply ag_remove_here|]. simpl.
  case_decide; [|by apply ag_remove_here]. rewrite fmap_cons, not_elem_of_cons in He. destruct He as [Hx He].
  unfold ag_remove. rewrite filter_cons_True by done. f_equal. by apply IH.
Qed.

(** ** Heaps *)

Notation heap := (list (option Event)).
Definition live (h : heap) (e : ev_ptr) (ev : Event) : Prop := h !! e = Some (Some ev).
Definition unlinked (ev : Event) : Event := ev.{nextBin := None}.{nextInBin := None}.
(** what the heap holds besides the links *)
Definition contents (h : heap) : heap := fmap (M := option) unlinked <$> h.

Lemma contents_live h h' e ev : contents h' = contents h → live h e ev → ∃ ev', live h' e ev' ∧ unlinked ev' = unlinked ev.
Proof.
  intros Hc He. assert (H : contents h' !! e = Some (Some (unlinked ev))).
  { rewrite Hc. unfold contents. rewrite list_lookup_fmap. by rewrite He. }
  unfold contents in H. rewrite list_lookup_fmap in H. unfold live in *.
  destruct (h' !! e) as [[ev'|]|] eqn:E; [|discriminate..]. exists ev'. split; [done|].
  by apply (inj Some), (inj Some) in H.
Qed.
Lemma contents_length h h' : contents h' = contents h → length h' = length h.
Proof. intros H. apply (f_equal length) in H. unfold contents in H. by rewrite !length_fmap in H. Qed.
Lemma live_lt h e ev : live h e ev → (e < length h)%nat.
Proof. apply lookup_lt_Some. Qed.
Lemma contents_insert h e ev ev' : live h e ev → unlinked ev' = unlinked ev → contents (<[e := Some ev']> h) = contents h.
Proof.
  intros He Hu. unfold contents. rewrite list_fmap_insert. apply list_insert_id. rewrite list_lookup_fmap, He.
  simpl. congruence.
Qed.
Lemma unlinked_key ev ev' : unlinked ev' = unlinked ev → ekey ev' = ekey ev.
Proof. intros H. unfold ekey. f_equal; [exact (f_equal _when H)|exact (f_equal _priority H)]. Qed.

(** ** Lists *)

(** [b] is the stack that starts at [p] *)
Fixpoint stack (h : heap) (p : option ev_ptr) (b : list ev_ptr) : Prop :=
  match b with
  | [] => p = None
  | e :: b' => p = Some e ∧ ∃ ev, live h e ev ∧ stack h (nextInBin ev) b'
  end.
Notation bin := (ev_key * list ev_ptr)%type.
(** the bins from [p] to [r] *)
Fixpoint bseg (h : heap) (p : option ev_ptr) (bs : list bin) (r : option ev_ptr) : Prop :=
  match bs with
  | [] => p = r
  | (_, b) :: bs' =>
      ∃ e b' ev, b = e :: b' ∧ p = Some e ∧ live h e ev ∧ stack h (nextInBin ev) b' ∧ bseg h (nextBin ev) bs' r
  end.
Definition flat1 (b : bin) : agenda := (λ e, (b.1, e)) <$> b.2.
Definition flat (bs : list bin) : agenda := bs ≫= flat1.
(** all events of the agenda are in the heap with their time and priority *)
Definition keyed (h : heap) (ag : agenda) : Prop :=
  Forall (λ x, ∃ ev, live h x.2 ev ∧ ekey ev = x.1) ag.
Definition links (h : heap) (p : option ev_ptr) (bs : list bin) : Prop :=
  bseg h p bs None ∧ keyed h (flat bs) ∧ StronglySorted klt bs.*1 ∧ NoDup (flat bs).*2.

Lemma stack_frame h h' p b : (∀ e, e ∈ b → h' !! e = h !! e) → stack h p b → stack h' p b.
Proof.
  revert p. induction b as [|e b IH]; intros p Hf; [done|]. intros (-> & ev & He & Hs). split; [done|].
  exists ev. split; [unfold live; rewrite Hf by set_solver; exact He|]. apply IH; [set_solver|done].
Qed.
Lemma flat_cons k b bs : flat ((k, b) :: bs) = flat1 (k, b) ++ flat bs.
Proof. done. Qed.
Lemma flat_app bs1 bs2 : flat (bs1 ++ bs2) = flat bs1 ++ flat bs2.
Proof. apply bind_app. Qed.
Lemma flat1_snd k b : (flat1 (k, b)).*2 = b.
Proof. unfold flat1. rewrite <-list_fmap_compose. apply list_fmap_id. Qed.
Lemma flat_snd_cons k b bs : (flat ((k, b) :: bs)).*2 = b ++ (flat bs).*2.
Proof. rewrite flat_cons, fmap_app. by rewrite flat1_snd. Qed.
Lemma bseg_frame h h' p bs r : (∀ e, e ∈ (flat bs).*2 → h' !! e = h !! e) → bseg h p bs r → bseg h' p bs r.
Proof.
  revert p. induction bs as [|[k b] bs IH]; intros p Hf; [done|]. intros (e & b' & ev & -> & -> & He & Hs & Hb).
  setoid_rewrite flat_snd_cons in Hf. exists e, b', ev.
  split; [done|]. split; [done|]. split; [unfold live; rewrite Hf by set_solver; exact He|].
  split; [eapply stack_frame; [|exact Hs]; intros; apply Hf; set_solver|]. apply IH; [|done].
  intros x Hx. apply Hf. set_solver.
Qed.
Lemma bseg_app h p bs1 bs2 r : bseg h p (bs1 ++ bs2) r ↔ ∃ m, bseg h p bs1 m ∧ bseg h m bs2 r.
Proof.
  revert p. induction bs1 as [|[k b] bs1 IH]; intros p; simpl.
  - split; [intros H; by exists p|by intros (m & -> & H)].
  - setoid_rewrite IH. naive_solver.
Qed.
Lemma keyed_frame h h' ag : contents h' = contents h → keyed h ag → keyed h' ag.
Proof.
  intros Hc Hk. eapply Forall_impl; [exact Hk|]. intros x (ev & He & Hx).
  destruct (contents_live _ _ _ _ Hc He) as (ev' & He' & Hu). exists ev'. split; [done|].
  by rewrite (unlinked_key _ _ Hu).
Qed.

(** a new end of the last bin *)
Lemma bseg_relink h p bs k e b r r' ev : NoDup (flat (bs ++ [(k, e :: b)])).*2 → live h e ev →
  bseg h p (bs ++ [(k, e :: b)]) r → bseg (<[e := Some (ev.{nextBin := r'})]> h) p (bs ++ [(k, e :: b)]) r'.
Proof.
  rewrite flat_app, fmap_app, flat_snd_cons. simpl. rewrite app_nil_r, NoDup_app, NoDup_cons.
  intros (_ & Hdis & Hb & _) He. rewrite !bseg_app. intros (m & Hs & Hl). exists m. split.
  - eapply bseg_frame; [|exact Hs]. intros x Hx. apply list_lookup_insert_ne. intros ->. apply (Hdis x Hx). by left.
  - destruct Hl as (e' & b' & ev' & [= <- <-] & -> & He' & Hst & _). unfold live in *. simplify_eq.
    exists e, b, (ev.{nextBin := r'}). split; [done|]. split; [done|].
    split; [apply list_lookup_insert_eq; by eapply live_lt|]. split; [|done].
    eapply stack_frame; [|exact Hst]. intros x Hx. apply list_lookup_insert_ne. by intros ->.
Qed.

Lemma short_list (l : list ev_ptr) h : NoDup l → (∀ e, e ∈ l → ∃ ev, live h e ev) → (length l ≤ length h)%nat.
Proof.
  intros Hd Hl. transitivity (length (seq 0 (length h))); [|by rewrite length_seq]. apply submseteq_length, NoDup_submseteq; [done|].
  intros e He. destruct (Hl e He) as [ev Hev]. apply elem_of_seq. apply live_lt in Hev. lia.
Qed.
Lemma keyed_live h ag e : keyed h ag → e ∈ ag.*2 → ∃ ev, live h e ev.
Proof.
  intros Hk (x & -> & Hx)%list_elem_of_fmap. unfold keyed in Hk. rewrite Forall_forall in Hk.
  destruct (Hk x Hx) as (ev & He & _). by exists ev.
Qed.
Lemma bseg_nonempty h p bs r : bseg h p bs r → (length bs ≤ length (flat bs))%nat.
Proof.
  revert p. induction bs as [|[k b] bs IH]; intros p; [done|]. intros (e & b' & ev & -> & _ & _ & _ & Hb).
  apply IH in Hb. rewrite flat_cons, length_app. unfold flat1. rewrite length_fmap. simpl. lia.
Qed.
Lemma links_short h p bs : links h p bs → (length bs ≤ length h)%nat.
Proof.
  intros (Hb & Hk & _ & Hd). apply bseg_nonempty in Hb. etrans; [exact Hb|].
  rewrite <-(length_fmap snd). apply short_list; [done|]. intros e. by apply keyed_live.
Qed.

(** ** Runs *)

Lemma on_event_run {A} e (m : M Event A) s ev a ev' : live (events s) e ev → m ev = Ok (a, ev') →
  on_event e m s = Ok (a, s.{events := <[e := Some ev']> (events s)}).
Proof. unfold live, on_event. by intros -> ->. Qed.
Lemma event_at_run e s ev : live (events s) e ev → event_at e s = Ok (ev, s).
Proof. unfold live, event_at. by intros ->. Qed.
Lemma on_eventq_run {A} self (m : M EventQueue A) s q a q' : mainEventQueue s !z self = Some q → m q = Ok (a, q') →
  on_eventq self m s = Ok (a, s.{mainEventQueue := vinsert self q' (mainEventQueue s)}).
Proof. intros Hq Hm. unfold on_eventq, zoom. by rewrite (zoom_at_Some _ _ _ _ Hq), Hm. Qed.
Lemma same_queue s self q h : mainEventQueue s !z self = Some q →
  s.{events := h}.{mainEventQueue := vinsert self q (mainEventQueue s)} = s.{events := h}.
Proof. intros Hq. rewrite (vinsert_id _ _ _ Hq). by destruct s. Qed.
Lemma ask_eventq_run {A} self (f : EventQueue → A) s q : mainEventQueue s !z self = Some q →
  on_eventq self (gets f) s = Ok (f q, s).
Proof.
  intros Hq. rewrite (on_eventq_run _ _ _ _ _ _ Hq eq_refl), (vinsert_id _ _ _ Hq). by destruct s.
Qed.
Lemma find_bin_run event ev s fuel : ∀ bs prev kp bp curr,
  (length bs < fuel)%nat → live (events s) event ev → bseg (events s) curr bs None →
  keyed (events s) (flat bs) → StronglySorted klt bs.*1 →
  ∃ prev' curr' bs0 kq bq bs2, find_bin fuel event prev curr s = Ok ((prev', curr'), s) ∧
    (kp, prev :: bp) :: bs = bs0 ++ (kq, prev' :: bq) :: bs2 ∧
    Forall (λ b, b = (kp, prev :: bp) ∨ klt b.1 (ekey ev)) (bs0 ++ [(kq, prev' :: bq)]) ∧
    Forall (λ b, ¬ klt b.1 (ekey ev)) bs2 ∧ bseg (events s) curr' bs2 None.
Proof.
  induction fuel as [|fuel IH]; intros bs prev kp bp curr Hlen He Hb Hk Hs; [lia|]. simpl.
  destruct bs as [|[k b] bs].
  - simpl in Hb. subst curr. exists prev, None, [], kp, bp, []. split; [done|]. split; [done|].
    split; [by repeat constructor; left|]. split; [constructor|done].
  - destruct Hb as (c & b' & cv & -> & -> & Hc & Hst & Hb). pose proof Hk as Hk'.
    unfold keyed in Hk. rewrite flat_cons, Forall_app in Hk. destruct Hk as [Hk1 Hk2].
    apply Forall_cons in Hk1 as [(cv' & Hc' & Hkey) _]. simpl in Hc', Hkey.
    assert (cv' = cv) as -> by (unfold live in *; congruence).
    apply StronglySorted_inv in Hs as [Hs Hall].
    assert (Hstep : ∀ X, (if ev_lt cv ev then find_bin fuel event c (nextBin cv) else mret (prev, Some c)) s = X →
      (cv ← event_at c; ev ← event_at event;
       if ev_lt cv ev then find_bin fuel event c (nextBin cv) else mret (prev, Some c)) s = X).
    { intros X HX. eapply bind_Ok; [by apply event_at_run|]. by eapply bind_Ok; [apply event_at_run|]. }
    rewrite ev_lt_key, Hkey in Hstep. case_bool_decide as Hlt.
    + destruct (IH bs c k b' (nextBin cv)) as (prev' & curr' & bs0 & kq & bq & bs2 & Hrun & Heq & Hf1 & Hf2 & Hb2);
        [simpl in Hlen; lia|done..|].
      exists prev', curr', ((kp, prev :: bp) :: bs0), kq, bq, bs2. split; [by apply Hstep|].
      split; [exact (f_equal (cons (kp, prev :: bp)) Heq)|]. split; [|done]. simpl. constructor; [by left|].
      eapply Forall_impl; [exact Hf1|]. intros x [-> |Hx]; by right.
    + exists prev, (Some c), [], kp, bp, ((k, c :: b') :: bs). split; [by apply Hstep|]. split; [done|].
      split; [by repeat constructor; left|]. split.
      * constructor; [done|]. apply Forall_forall. intros x Hx Hxk. apply Hlt.
        rewrite Forall_forall in Hall. eapply klt_trans; [|exact Hxk]. apply Hall. by apply list_elem_of_fmap_2.
      * simpl. exists c, b', cv. by repeat (split; [done|]).
Qed.

Lemma insertBefore_run s event ev curr bs :
  live (events s) event ev → event ∉ (flat bs).*2 → bseg (events s) curr bs None → keyed (events s) (flat bs) →
  StronglySorted klt bs.*1 → Forall (λ b, ¬ klt b.1 (ekey ev)) bs →
  ∃ ev' bs', insertBefore event curr s = Ok (event, s.{events := <[event := Some ev']> (events s)}) ∧
    unlinked ev' = unlinked ev ∧ bseg (<[event := Some ev']> (events s)) (Some event) bs' None ∧
    flat bs' = (ekey ev, event) :: flat bs ∧ StronglySorted klt bs'.*1 ∧
    Forall (λ b, b.1 = ekey ev ∨ b.1 ∈ bs.*1) bs'.
Proof.
  intros He Hn Hb Hk Hs Hf. set (k := ekey ev) in *.
  assert (Hset : ∀ (g : Event → Event) (m : M Sim unit) X,
    m s = on_event event (modify g) s → X = Ok (event, s.{events := <[event := Some (g ev)]> (events s)}) →
    (m ;; mret event) s = X).
  { intros g m X Hm ->. unfold mbind, M_bind. rewrite Hm. by erewrite on_event_run. }
  assert (Hframe : ∀ x o, x ∈ (flat bs).*2 → <[event := o]> (events s) !! x = events s !! x)
    by (intros x o Hx; apply list_lookup_insert_ne; by intros ->).
  assert (Hhere : ∀ o, <[event := Some o]> (events s) !! event = Some (Some o))
    by (intros o; apply list_lookup_insert_eq; by eapply live_lt).
  destruct bs as [|[k2 b2] bs].
  - simpl in Hb. subst curr. exists (ev.{nextBin := None}.{nextInBin := None}), [(k, [event])].
    split; [unfold insertBefore; eapply bind_Ok; [by apply event_at_run|]; eapply Hset; reflexivity|]. split; [done|].
    split; [exists event, [], (ev.{nextBin := None}.{nextInBin := None}); do 2 (split; [done|]); by split; [apply Hhere|]|].
    split; [done|]. split; [by repeat constructor|]. by repeat constructor; left.
  - pose proof Hb as (c & b' & cv & -> & -> & Hc & Hst & Hb2).
    apply Forall_cons in Hf as [Hk2 Hf]. apply StronglySorted_inv in Hs as [Hs Hall].
    pose proof Hk as Hk'. unfold keyed in Hk. rewrite flat_cons, Forall_app in Hk. destruct Hk as [Hk1 _].
    apply Forall_cons in Hk1 as [(cv' & Hc' & Hkey) _]. simpl in Hc', Hkey, Hk2.
    assert (cv' = cv) as -> by (unfold live in *; congruence).
    destruct (ev_lt ev cv) eqn:Hlt; pose proof Hlt as Hlt'; rewrite ev_lt_key, Hkey in Hlt'; fold k in Hlt'.
    + apply bool_decide_eq_true in Hlt'.
      exists (ev.{nextBin := Some c}.{nextInBin := None}), ((k, [event]) :: (k2, c :: b') :: bs).
      split; [unfold insertBefore; eapply bind_Ok; [by apply event_at_run|]; eapply Hset;
        [eapply bind_Ok; [by apply event_at_run|]; rewrite Hlt; reflexivity|done]|]. split; [done|].
      split; [exists event, [], (ev.{nextBin := Some c}.{nextInBin := None}); do 2 (split; [done|]); split; [apply Hhere|];
        split; [done|]; by eapply bseg_frame; [intros; by apply Hframe|]|].
      split; [done|]. split.
      * constructor; [by constructor|]. constructor; [done|]. eapply Forall_impl; [exact Hall|].
        intros x. by apply klt_trans.
      * constructor; [by left|]. apply Forall_forall. intros x Hx. right. by apply list_elem_of_fmap_2.
    + apply bool_decide_eq_false in Hlt'. assert (k2 = k) as -> by (destruct (klt_total k k2) as [?|[?|?]]; done).
      exists (ev.{nextBin := nextBin cv}.{nextInBin := Some c}), ((k, event :: c :: b') :: bs).
      split; [unfold insertBefore; eapply bind_Ok; [by apply event_at_run|]; eapply Hset;
        [eapply bind_Ok; [by apply event_at_run|]; rewrite Hlt; reflexivity|done]|]. split; [done|].
      rewrite flat_snd_cons in Hframe.
      split.
      * exists event, (c :: b'), (ev.{nextBin := nextBin cv}.{nextInBin := Some c}). do 2 (split; [done|]). split; [apply Hhere|]. split.
        -- eapply stack_frame; [intros; apply Hframe, elem_of_app; by left|]. split; [done|]. by exists cv.
        -- eapply bseg_frame; [intros; apply Hframe, elem_of_app; by right|done].
      * split; [done|]. split; [by constructor|]. constructor; [by left|].
        apply Forall_forall. intros x Hx. right. right. by apply list_elem_of_fmap_2.
Qed.

Definition with_head (self : Z) (q : EventQueue) (h : heap) (hd : option ev_ptr) (s : Sim) : Sim :=
  s.{events := h}.{mainEventQueue := vinsert self (q.{eq_head := hd}) (mainEventQueue s)}.
Lemma with_head_same self q h s : mainEventQueue s !z self = Some q → with_head self q h (eq_head q) s = s.{events := h}.
Proof. intros Hq. unfold with_head. destruct q. by apply (same_queue s). Qed.

Lemma set_head_run self q h hd s : mainEventQueue s !z self = Some q →
  on_eventq self (modify (λ q, q.{eq_head := hd})) (s.{events := h}) = Ok (tt, with_head self q h hd s).
Proof. intros Hq. unfold on_eventq, zoom. simpl. by rewrite (zoom_at_Some _ _ _ _ Hq). Qed.

Lemma set_event_run e g h ev s : live h e ev →
  on_event e (modify g) (s.{events := h}) = Ok (tt, s.{events := <[e := Some (g ev)]> h}).
Proof. unfold live, on_event. simpl. by intros ->. Qed.

(** [h'] differs from [h] only in links, and only at [e] and the events of the agenda *)
Definition relinked (h h' : heap) (e : ev_ptr) (ag : agenda) : Prop :=
  contents h' = contents h ∧ ∀ x, x ≠ e → x ∉ ag.*2 → h' !! x = h !! x.

Lemma keyed_flat_first h bs1 k e b bs2 ev : keyed h (flat (bs1 ++ (k, e :: b) :: bs2)) → live h e ev → ekey ev = k.
Proof.
  unfold keyed. rewrite flat_app, flat_cons, !Forall_app. intros (_ & [(ev' & He' & Hk) _]%Forall_cons & _) He.
  simpl in *. unfold live in *. congruence.
Qed.
Lemma flat_all (P : ev_key → Prop) bs : Forall (λ b, P b.1) bs → Forall (λ x, P x.1) (flat bs).
Proof.
  induction 1 as [|[k b] bs Hb _ IH]; [constructor|]. rewrite flat_cons. apply Forall_app_2; [|done].
  apply Forall_fmap, Forall_forall. by intros x _.
Qed.
Lemma sorted_app (l1 l2 : list ev_key) : StronglySorted klt l1 → StronglySorted klt l2 →
  (∀ x y, x ∈ l1 → y ∈ l2 → klt x y) → StronglySorted klt (l1 ++ l2).
Proof.
  induction 1 as [|x l1 Hl IH Hx]; intros H2 H; [done|]. simpl. constructor; [apply IH; [done|]; intros; apply H; set_solver|].
  apply Forall_app_2; [done|]. apply Forall_forall. intros y Hy. apply H; [by left|done].
Qed.
Lemma sorted_app_inv (l1 l2 : list ev_key) : StronglySorted klt (l1 ++ l2) →
  StronglySorted klt l1 ∧ StronglySorted klt l2 ∧ ∀ x y, x ∈ l1 → y ∈ l2 → klt x y.
Proof.
  induction l1 as [|x l1 IH]; simpl; intros H; [split; [constructor|split; [done|]]; intros ? ? []%elem_of_nil|].
  apply StronglySorted_inv in H as [H Hall]. apply IH in H as (H1 & H2 & H12). apply Forall_app in Hall as [Ha1 Ha2].
  split; [by constructor|]. split; [done|]. intros y z [-> |Hy]%elem_of_cons Hz; [|by apply H12].
  rewrite Forall_forall in Ha2. by apply Ha2.
Qed.

(** linking [event] in front of the bins [bs2], behind the bins [bs1] *)
Lemma links_insert h h' hd bs1 bs2 bs2' k event ev : links h hd (bs1 ++ bs2) → live h event ev → ekey ev = k →
  event ∉ (flat (bs1 ++ bs2)).*2 → contents h' = contents h →
  Forall (λ b, klt b.1 k) bs1 → Forall (λ b, ¬ klt b.1 k) bs2 → flat bs2' = (k, event) :: flat bs2 →
  StronglySorted klt bs2'.*1 → Forall (λ b, b.1 = k ∨ b.1 ∈ bs2.*1) bs2' →
  ∀ hd', bseg h' hd' (bs1 ++ bs2') None →
  links h' hd' (bs1 ++ bs2') ∧ flat (bs1 ++ bs2') = ag_insert k event (flat (bs1 ++ bs2)).
Proof.
  intros (Hb & Hk & Hs & Hd) He Hkey Hn Hc H1 H2 Hf Hs2 Hb2 hd' Hb'.
  assert (Hflat : flat (bs1 ++ bs2') = ag_insert k event (flat (bs1 ++ bs2))).
  { rewrite !flat_app, ag_insert_app by (by apply (flat_all (λ x, klt x k))).
    rewrite ag_insert_here by (by apply (flat_all (λ x, ¬ klt x k))). by rewrite Hf. }
  split; [|done]. split; [done|]. split; [|split].
  - rewrite Hflat. unfold keyed. rewrite ag_insert_perm. constructor; [|by eapply keyed_frame].
    destruct (contents_live _ _ _ _ Hc He) as (ev' & He' & Hu). exists ev'. split; [done|].
    by rewrite (unlinked_key _ _ Hu).
  - rewrite fmap_app in *. apply sorted_app_inv in Hs as (Hs1 & _ & Hs12). apply sorted_app; [done|done|].
    intros x y Hx (b & -> & Hy)%list_elem_of_fmap. rewrite Forall_forall in Hb2.
    destruct (Hb2 b Hy) as [-> |Hy']; [|by apply Hs12].
    apply list_elem_of_fmap in Hx as (b1 & -> & Hx). rewrite Forall_forall in H1. by apply H1.
  - rewrite Hflat. rewrite ag_insert_perm. by constructor.
Qed.

Lemma insert_front_run self event ev s q bs : mainEventQueue s !z self = Some q → links (events s) (eq_head q) bs →
  live (events s) event ev → event ∉ (flat bs).*2 → Forall (λ b, ¬ klt b.1 (ekey ev)) bs →
  ∃ h' hd' bs',
    (top ← insertBefore event (eq_head q); on_eventq self (modify (λ q, q.{eq_head := Some top}))) s =
      Ok (tt, with_head self q h' hd' s) ∧ links h' hd' bs' ∧
    flat bs' = ag_insert (ekey ev) event (flat bs) ∧ relinked (events s) h' event (flat bs).
Proof.
  intros Hq Hl He Hn Hf. pose proof Hl as (Hb & Hk & Hs & Hd).
  destruct (insertBefore_run s event ev (eq_head q) bs He Hn Hb Hk Hs Hf)
    as (ev' & bs' & Hrun & Hu & Hb' & Hflat & Hs' & Hkeys).
  exists (<[event := Some ev']> (events s)), (Some event), bs'. split.
  { eapply bind_Ok; [exact Hrun|]. by apply set_head_run. }
  assert (Hc : contents (<[event := Some ev']> (events s)) = contents (events s)) by (by eapply contents_insert).
  destruct (links_insert (events s) (<[event := Some ev']> (events s)) (eq_head q) [] bs bs' (ekey ev) event ev)
    with (hd' := Some event) as [Hl' Hfl']; try done.
  split; [done|]. split; [done|]. split; [done|]. intros x Hx _. by apply list_lookup_insert_ne.
Qed.

(** the top event of the last bin is in the heap *)
Lemma bseg_last h p bs k e b r : bseg h p (bs ++ [(k, e :: b)]) r → ∃ ev, live h e ev.
Proof. rewrite bseg_app. intros (m & _ & e' & b' & ev & [= <- <-] & _ & He & _). by exists ev. Qed.

Lemma insert_behind_run event ev prev s hd curr bs0 kq bq bs2 : let bs1 := bs0 ++ [(kq, prev :: bq)] in
  links (events s) hd (bs1 ++ bs2) → live (events s) event ev → event ∉ (flat (bs1 ++ bs2)).*2 →
  Forall (λ b, klt b.1 (ekey ev)) bs1 → Forall (λ b, ¬ klt b.1 (ekey ev)) bs2 → bseg (events s) curr bs2 None →
  ∃ h' bs', (top ← insertBefore event curr; on_event prev (modify (λ e, e.{nextBin := Some top}))) s =
      Ok (tt, s.{events := h'}) ∧ links h' hd bs' ∧
    flat bs' = ag_insert (ekey ev) event (flat (bs1 ++ bs2)) ∧ relinked (events s) h' event (flat (bs1 ++ bs2)).
Proof.
  intros bs1 Hl He Hn H1 H2 Hb2. pose proof Hl as (Hb & Hk & Hs & Hd).
  rewrite flat_app, fmap_app in Hn, Hd. apply not_elem_of_app in Hn as [Hn1 Hn2].
  apply NoDup_app in Hd as (Hd1 & Hdis & _). apply bseg_app in Hb as (m & Hb1 & _).
  assert (Hp : prev ∈ (flat bs1).*2).
  { unfold bs1. rewrite flat_app, fmap_app, flat_snd_cons. apply elem_of_app. right. by left. }
  assert (Hpe : prev ≠ event) by (by intros ->).
  destruct (insertBefore_run s event ev curr bs2) as (ev' & bs2' & Hrun & Hu & Hb' & Hflat & Hs' & Hkeys); try done.
  { unfold keyed in Hk. rewrite flat_app, Forall_app in Hk. apply Hk. }
  { rewrite fmap_app in Hs. by apply sorted_app_inv in Hs as (_ & ? & _). }
  set (h1 := <[event := Some ev']> (events s)) in *.
  assert (Hc1 : contents h1 = contents (events s)) by (by eapply contents_insert).
  assert (Hseg1 : bseg h1 hd bs1 m).
  { eapply bseg_frame; [|exact Hb1]. intros x Hx. apply list_lookup_insert_ne. by intros ->. }
  destruct (bseg_last _ _ _ _ _ _ _ Hseg1) as [pv Hpv].
  set (h2 := <[prev := Some (pv.{nextBin := Some event})]> h1).
  assert (Hc2 : contents h2 = contents (events s)) by (rewrite <-Hc1; by eapply contents_insert).
  exists h2, (bs1 ++ bs2'). split.
  { eapply bind_Ok; [exact Hrun|]. by apply set_event_run. }
  destruct (links_insert (events s) h2 hd bs1 bs2 bs2' (ekey ev) event ev) with (hd' := hd) as [Hl' Hfl']; try done.
  { by rewrite flat_app, fmap_app, not_elem_of_app. }
  { apply bseg_app. exists (Some event). split; [by eapply bseg_relink|].
    eapply bseg_frame; [|exact Hb']. intros x Hx. apply list_lookup_insert_ne. intros <-.
    rewrite Hflat in Hx. apply elem_of_cons in Hx as [Hx|Hx]; [done|]. by eapply Hdis. }
  split; [done|]. split; [done|]. split; [done|]. intros x Hx Hx'.
  unfold h2, h1. rewrite !list_lookup_insert_ne; [done|done|]. intros ->. apply Hx'. rewrite flat_app, fmap_app. apply elem_of_app. by left.
Qed.

Lemma ev_insert_run self event ev s q bs : mainEventQueue s !z self = Some q → links (events s) (eq_head q) bs →
  live (events s) event ev → event ∉ (flat bs).*2 →
  ∃ h' hd' bs', EventQueue_insert self event s = Ok (tt, with_head self q h' hd' s) ∧ links h' hd' bs' ∧
    flat bs' = ag_insert (ekey ev) event (flat bs) ∧ relinked (events s) h' event (flat bs).
Proof.
  intros Hq Hl He Hn. pose proof Hl as (Hb & Hk & Hs & Hd). unfold EventQueue_insert.
  assert (Hstart : ∀ F X, F (eq_head q) ev s = X →
    (hd ← on_eventq self (gets eq_head); ev ← event_at event; F hd ev) s = X :> res (unit * Sim)).
  { intros F X HX. eapply bind_Ok; [by apply ask_eventq_run|]. by eapply bind_Ok; [by apply event_at_run|]. }
  pose proof (insert_front_run self event ev s q bs Hq Hl He Hn) as Hfront.
  destruct bs as [|[k0 b0] bs].
  { pose proof Hb as Hnil. simpl in Hnil. rewrite Hnil in Hfront, Hstart.
    destruct Hfront as (h' & hd' & bs' & Hrun & H); [constructor|]. exists h', hd', bs'. split; [|exact H].
    apply Hstart. exact Hrun. }
  pose proof Hb as (t & b & tv & -> & Hhd & Ht & Hst & Hb2). rewrite Hhd in Hfront, Hstart.
  assert (Hk0 : ekey tv = k0) by (by eapply (keyed_flat_first _ [])).
  apply StronglySorted_inv in Hs as [Hs Hall].
  destruct (ev_le ev tv) eqn:Hle; pose proof Hle as Hle'; rewrite ev_le_key, Hk0 in Hle'.
  { apply bool_decide_eq_true in Hle'. destruct Hfront as (h' & hd' & bs' & Hrun & H).
    - constructor; [done|]. apply Forall_forall. intros x Hx Hxk. apply Hle'.
      rewrite Forall_forall in Hall. eapply klt_trans; [|exact Hxk]. apply Hall. by apply list_elem_of_fmap_2.
    - exists h', hd', bs'. split; [|exact H]. apply Hstart. eapply bind_Ok; [by apply event_at_run|]. rewrite Hle. exact Hrun. }
  apply bool_decide_eq_false, dec_stable in Hle'.
  destruct (find_bin_run event ev s (S (length (events s))) bs t k0 b (nextBin tv))
    as (prev & curr & bs0 & kq & bq & bs2 & Hfind & Heq & Hf1 & Hf2 & Hcurr); try done.
  { apply links_short in Hl. simpl in Hl. lia. }
  { unfold keyed in Hk. rewrite flat_cons, Forall_app in Hk. apply Hk. }
  rewrite (cons_middle (kq, prev :: bq)), app_assoc in Heq. rewrite Heq in Hl, Hn |- *.
  destruct (insert_behind_run event ev prev s (eq_head q) curr bs0 kq bq bs2) as (h' & bs' & Hrun & H); try done.
  { eapply Forall_impl; [exact Hf1|]. by intros x [-> |Hx]. }
  exists h', (eq_head q), bs'. split; [|exact H]. apply Hstart. eapply bind_Ok; [by apply event_at_run|]. rewrite Hle.
  rewrite (with_head_same _ _ _ _ Hq). eapply bind_Ok; [done|]. eapply bind_Ok; [exact Hfind|exact Hrun].
Qed.

(** ** Removal *)

Lemma find_item_run event s : ∀ fuel b curr cv, (length b < fuel)%nat → stack (events s) (nextInBin cv) b →
  event ∈ b → ∃ c l1 l2, find_item fuel event curr (nextInBin cv) s = Ok ((c, event), s) ∧ curr :: b = l1 ++ c :: event :: l2.
Proof.
  induction fuel as [|fuel IH]; intros b curr cv Hlen Hst Hin; [lia|].
  destruct b as [|e b]; [by apply elem_of_nil in Hin|]. destruct Hst as (Hn & ev & He & Hst). simpl. rewrite Hn.
  case_decide as Hee; [subst e; by exists curr, [], b|].
  apply elem_of_cons in Hin as [?|Hin]; [done|]. destruct (IH b e ev) as (c & l1 & l2 & Hrun & Heq); [simpl in Hlen; lia|done..|].
  exists c, (curr :: l1), l2. split; [|by rewrite Heq]. eapply bind_Ok; [by apply event_at_run|]. exact Hrun.
Qed.

Lemma stack_unlink h c e cv ev l1 l2 : ∀ p, NoDup (l1 ++ c :: e :: l2) → stack h p (l1 ++ c :: e :: l2) →
  live h c cv → live h e ev → stack (<[c := Some (cv.{nextInBin := nextInBin ev})]> h) p (l1 ++ c :: l2).
Proof.
  induction l1 as [|x l1 IH]; intros p Hd Hst Hc He; simpl in *.
  - destruct Hst as (-> & cv' & Hc' & Hn & ev' & He' & Hst). unfold live in *. simplify_eq.
    split; [done|]. exists (cv'.{nextInBin := nextInBin ev'}). split; [apply list_lookup_insert_eq; by eapply live_lt|].
    eapply stack_frame; [|exact Hst]. intros y Hy. apply list_lookup_insert_ne. intros ->.
    apply NoDup_cons in Hd as [Hd _]. apply Hd. by right.
  - destruct Hst as (-> & xv & Hx & Hst). apply NoDup_cons in Hd as [Hx' Hd]. split; [done|]. exists xv.
    split; [unfold live; rewrite list_lookup_insert_ne; [done|]; intros ->; apply Hx', elem_of_app; right; by left|].
    by apply IH.
Qed.

Definition without (e : ev_ptr) (b : list ev_ptr) : list ev_ptr := filter (λ x, x ≠ e) b.
Lemma without_not e b : e ∉ b → without e b = b.
Proof.
  induction b as [|x b IH]; [done|]. rewrite not_elem_of_cons. intros [Hx He].
  unfold without. rewrite filter_cons_True by done. f_equal. by apply IH.
Qed.
Lemma without_middle e l1 l2 : NoDup (l1 ++ e :: l2) → without e (l1 ++ e :: l2) = l1 ++ l2.
Proof.
  rewrite NoDup_app, NoDup_cons. intros (_ & Hdis & He & _). unfold without. rewrite filter_app, filter_cons_False by (by intros []).
  f_equal; apply without_not; [|done]. intros Hin. apply (Hdis e Hin). by left.
Qed.

(** the bins that are left when the events of one are [b] *)
Definition rest (k : ev_key) (b : list ev_ptr) (bs : list bin) : list bin :=
  match b with [] => bs | _ => (k, b) :: bs end.
Lemma flat_rest k b bs : flat (rest k b bs) = flat1 (k, b) ++ flat bs.
Proof. by destruct b. Qed.

Lemma stack_live h p b e : stack h p b → e ∈ b → ∃ ev, live h e ev.
Proof.
  revert p. induction b as [|x b IH]; intros p; [by intros _ ?%elem_of_nil|].
  intros (_ & xv & Hx & Hst) [-> |Hin]%elem_of_cons; [by exists xv|by eapply IH].
Qed.

(** [event] is the top of its bin *)
Lemma removeItem_top t tv b k bs s : live (events s) t tv → stack (events s) (nextInBin tv) b →
  bseg (events s) (nextBin tv) bs None → NoDup (t :: b ++ (flat bs).*2) →
  ∃ h' top', removeItem t t s = Ok (top', s.{events := h'}) ∧ contents h' = contents (events s) ∧
    (∀ x, x ∉ t :: b → h' !! x = events s !! x) ∧ bseg h' top' (rest k b bs) None.
Proof.
  intros Ht Hst Hbs Hd. unfold removeItem. destruct b as [|n b]; simpl in Hst.
  - exists (events s), (nextBin tv). split; [|done]. eapply bind_Ok; [by apply event_at_run|]. rewrite decide_True, Hst by done.
    by destruct s.
  - destruct Hst as (Hn & nv & Hnv & Hst). set (h1 := <[n := Some (nv.{nextBin := nextBin tv})]> (events s)).
    exists h1, (Some n). split; [|split; [by eapply contents_insert|split]].
    + eapply bind_Ok; [by apply event_at_run|]. rewrite decide_True, Hn by done.
      eapply bind_Ok; [by apply (on_event_run n (modify (λ e, e.{nextBin := nextBin tv})) s nv tt (nv.{nextBin := nextBin tv}))|]. done.
    + intros x Hx. apply list_lookup_insert_ne. intros ->. apply Hx. right. by left.
    + assert (Hf : ∀ x, x ∈ b ++ (flat bs).*2 → h1 !! x = events s !! x).
      { intros x Hx. apply list_lookup_insert_ne. intros ->. apply NoDup_cons in Hd as [_ Hd]. simpl in Hd.
        by apply NoDup_cons in Hd as [Hd _]. }
      exists n, b, (nv.{nextBin := nextBin tv}). do 2 (split; [done|]).
      split; [apply list_lookup_insert_eq; by eapply live_lt|].
      split; [eapply stack_frame|eapply bseg_frame]; [|exact Hst| |exact Hbs]; intros x Hx; apply Hf, elem_of_app; [by left|by right].
Qed.

(** [event] is below the top *)
Lemma removeItem_below event t tv b k bs s : live (events s) t tv → stack (events s) (nextInBin tv) b →
  bseg (events s) (nextBin tv) bs None → NoDup (t :: b ++ (flat bs).*2) → event ≠ t → event ∈ b →
  ∃ h' top', removeItem event t s = Ok (top', s.{events := h'}) ∧ contents h' = contents (events s) ∧
    (∀ x, x ∉ t :: b → h' !! x = events s !! x) ∧ bseg h' top' (rest k (without event (t :: b)) bs) None.
Proof.
  intros Ht Hst Hbs Hd Hne Hin. unfold removeItem.
  apply (NoDup_app (t :: b) (flat bs).*2) in Hd as (Hd & Hdis & _).
  assert (Hall : stack (events s) (Some t) (t :: b)) by (split; [done|]; by exists tv).
  assert (Hlen : (length (t :: b) ≤ length (events s))%nat)
    by (apply short_list; [done|]; intros e He; by eapply stack_live).
  destruct (find_item_run event s (S (length (events s))) b t tv) as (c & l1 & l2 & Hfind & Heq); [simpl in Hlen; lia|done..|].
  assert (Hcin : c ∈ t :: b) by (rewrite Heq; apply elem_of_app; right; by left).
  destruct (stack_live _ _ _ c Hall Hcin) as [cv Hc]. destruct (stack_live _ _ _ event Hst Hin) as [ev He].
  set (h1 := <[c := Some (cv.{nextInBin := nextInBin ev})]> (events s)).
  exists h1, (Some t). split; [|split; [by eapply contents_insert|split]].
  - eapply bind_Ok; [by apply event_at_run|]. rewrite decide_False by done. eapply bind_Ok; [done|].
    eapply bind_Ok; [exact Hfind|]. eapply bind_Ok; [by apply event_at_run|].
    eapply bind_Ok; [by apply (on_event_run c (modify (λ e, e.{nextInBin := nextInBin ev})) s cv tt (cv.{nextInBin := nextInBin ev}))|]. done.
  - intros x Hx. apply list_lookup_insert_ne. by intros ->.
  - rewrite Heq in Hall, Hd |- *. pose proof (stack_unlink _ c event cv ev l1 l2 _ Hd Hall Hc He) as Hst'. fold h1 in Hst'.
    rewrite (cons_middle c), app_assoc in Hd |- *. rewrite without_middle by done. rewrite <-app_assoc. simpl.
    assert (Hbs' : bseg h1 (nextBin tv) bs None).
    { eapply bseg_frame; [|exact Hbs]. intros x Hx. apply list_lookup_insert_ne. intros ->. by apply (Hdis x). }
    destruct l1 as [|x l1]; simpl in *; injection Heq as -> Heq.
    + destruct Hst' as (_ & cv' & Hc' & Hst'). assert (cv = tv) as -> by (unfold live in *; congruence).
      exists c, l2, cv'. do 3 (split; [done|]). split; [done|].
      assert (cv' = tv.{nextInBin := nextInBin ev}) as ->.
      { unfold live, h1 in *. rewrite list_lookup_insert_eq in Hc'; [|by eapply live_lt]. by apply (inj Some), (inj Some) in Hc'. }
      done.
    + destruct Hst' as (_ & xv & Hx & Hst'). exists x, (l1 ++ c :: l2), xv. do 4 (split; [done|]).
      assert (xv = tv) as ->; [|done]. unfold live, h1 in *. rewrite list_lookup_insert_ne in Hx; [congruence|]. intros ->.
      apply NoDup_cons in Hd as [Hd _]. apply Hd. set_solver.
Qed.

Lemma removeItem_run event t tv b k bs s : live (events s) t tv → stack (events s) (nextInBin tv) b →
  bseg (events s) (nextBin tv) bs None → NoDup (t :: b ++ (flat bs).*2) → event ∈ t :: b →
  ∃ h' top', removeItem event t s = Ok (top', s.{events := h'}) ∧ contents h' = contents (events s) ∧
    (∀ x, x ∉ t :: b → h' !! x = events s !! x) ∧ bseg h' top' (rest k (without event (t :: b)) bs) None.
Proof.
  intros Ht Hst Hbs Hd Hin. destruct (decide (event = t)) as [->|Hne].
  - replace (without t (t :: b)) with b; [by eapply removeItem_top|]. symmetry. apply (without_middle t [] b).
    by apply (NoDup_app (t :: b) (flat bs).*2) in Hd as [Hd _].
  - apply elem_of_cons in Hin as [?|Hin]; [done|]. by eapply removeItem_below.
Qed.

Lemma find_owner h hd bs e ev : links h hd bs → e ∈ (flat bs).*2 → live h e ev →
  ∃ bs1 b bs2, bs = bs1 ++ (ekey ev, b) :: bs2 ∧ e ∈ b.
Proof.
  intros (_ & Hk & _) He Hl. apply list_elem_of_fmap in He as ([k e'] & -> & He). simpl in *.
  unfold flat in He. apply list_elem_of_bind in He as ([k' b] & He & Hb).
  apply list_elem_of_fmap in He as (e'' & [= -> ->] & He). simpl in *.
  apply list_elem_of_split in Hb as (bs1 & bs2 & ->). exists bs1, b, bs2. split; [|done].
  unfold keyed in Hk. rewrite Forall_forall in Hk. destruct (Hk (k', e'')) as (ev' & He' & Hkey).
  { rewrite flat_app, flat_cons. apply elem_of_app. right. apply elem_of_app. left.
    apply list_elem_of_fmap. by exists e''. }
  simpl in *. unfold live in *. by simplify_eq.
Qed.

Lemma ag_remove_flat1 e k b : ag_remove e (flat1 (k, b)) = flat1 (k, without e b).
Proof.
  unfold flat1, ag_remove, without. cbn [fst snd]. induction b as [|x b IH]; [done|]. rewrite fmap_cons.
  destruct (decide (x = e)) as [->|Hx].
  - rewrite !filter_cons_False by (by intros []). done.
  - rewrite !filter_cons_True by done. by rewrite fmap_cons, IH.
Qed.

Lemma links_remove h h' hd hd' bs1 k b bs2 e : links h hd (bs1 ++ (k, b) :: bs2) → e ∈ b → contents h' = contents h →
  bseg h' hd' (bs1 ++ rest k (without e b) bs2) None →
  links h' hd' (bs1 ++ rest k (without e b) bs2) ∧
    flat (bs1 ++ rest k (without e b) bs2) = ag_remove e (flat (bs1 ++ (k, b) :: bs2)).
Proof.
  intros (Hb & Hk & Hs & Hd) He Hc Hb'.
  assert (Hflat : flat (bs1 ++ rest k (without e b) bs2) = ag_remove e (flat (bs1 ++ (k, b) :: bs2))).
  { rewrite !flat_app, flat_rest, flat_cons, !ag_remove_app, ag_remove_flat1.
    rewrite flat_app, fmap_app, flat_snd_cons in Hd. apply NoDup_app in Hd as (_ & Hd1 & Hd).
    apply NoDup_app in Hd as (_ & Hd2 & _). f_equal; [|f_equal]; symmetry; apply ag_remove_not; [|by apply Hd2].
    intros H. apply (Hd1 _ H), elem_of_app. by left. }
  assert (Hsub : ag_remove e (flat (bs1 ++ (k, b) :: bs2)) `sublist_of` flat (bs1 ++ (k, b) :: bs2))
    by apply sublist_filter.
  split; [|done]. split; [done|]. split; [|split].
  - rewrite Hflat. eapply keyed_frame; [exact Hc|]. unfold keyed in *. rewrite Forall_forall in Hk |- *.
    intros x Hx. apply Hk. by eapply elem_of_sublist.
  - rewrite fmap_app in *. apply sorted_app_inv in Hs as (H1 & H2 & H12).
    apply sorted_app; [done| |]; destruct (without e b); simpl in *; try done.
    + by apply StronglySorted_inv in H2 as [? _].
    + intros x y Hx Hy. apply H12; [done|]. by right.
  - rewrite Hflat. eapply sublist_NoDup; [exact Hd|]. by apply fmap_sublist.
Qed.

(** the bins before one with time and priority [k] *)
Lemma split_unique (k : ev_key) (b : list ev_ptr) bs1 bs2 (A B : list bin) : bs1 ++ (k, b) :: bs2 = A ++ B →
  Forall (λ x, klt x.1 k) bs1 → Forall (λ x, klt x.1 k) A → Forall (λ x, ¬ klt x.1 k) B → bs1 = A ∧ B = (k, b) :: bs2.
Proof.
  intros Heq H1. revert A Heq. induction H1 as [|x bs1 Hx H1 IH]; intros A Heq HA HB.
  - destruct HA as [|a A Ha HA]; simpl in Heq; [done|]. injection Heq as <- Heq. by destruct (klt_irrefl k).
  - destruct HA as [|a A Ha HA]; simpl in Heq.
    + subst B. apply Forall_cons in HB as [HB _]. done.
    + injection Heq as <- Heq. destruct (IH A Heq HA HB) as [-> ->]. done.
Qed.

(** [event] is taken out of the bin at [c], behind the bins that end with [prev] *)
Lemma remove_behind_run event c cv prev s hd bs0 kq bq k b bs2 : let bs1 := bs0 ++ [(kq, prev :: bq)] in
  links (events s) hd (bs1 ++ (k, c :: b) :: bs2) → bseg (events s) hd bs1 (Some c) → live (events s) c cv →
  stack (events s) (nextInBin cv) b → bseg (events s) (nextBin cv) bs2 None → event ∈ c :: b →
  ∃ h' bs', (top ← removeItem event c; on_event prev (modify (λ e, e.{nextBin := top}))) s = Ok (tt, s.{events := h'}) ∧
    links h' hd bs' ∧ flat bs' = ag_remove event (flat (bs1 ++ (k, c :: b) :: bs2)) ∧ contents h' = contents (events s) ∧
    ∀ x, x ∉ (flat (bs1 ++ (k, c :: b) :: bs2)).*2 → h' !! x = events s !! x.
Proof.
  intros bs1 Hl Hb1 Hc Hst Hb2 He. pose proof Hl as (_ & _ & _ & Hd).
  rewrite flat_app, fmap_app, flat_snd_cons in Hd. apply NoDup_app in Hd as (Hd1 & Hdis & Hd2).
  destruct (removeItem_run event c cv b k bs2 s Hc Hst Hb2 Hd2 He) as (h1 & top & Hrun & Hc1 & Hf1 & Hseg).
  assert (Hseg1 : bseg h1 hd bs1 (Some c)).
  { eapply bseg_frame; [|exact Hb1]. intros x Hx. apply Hf1. intros Hx'. apply (Hdis x Hx), elem_of_app. by left. }
  destruct (bseg_last _ _ _ _ _ _ _ Hseg1) as [pv Hpv].
  set (h2 := <[prev := Some (pv.{nextBin := top})]> h1).
  assert (Hc2 : contents h2 = contents (events s)) by (rewrite <-Hc1; by eapply contents_insert).
  assert (Hp : prev ∈ (flat bs1).*2).
  { unfold bs1. rewrite flat_app, fmap_app, flat_snd_cons. apply elem_of_app. right. by left. }
  destruct (links_remove (events s) h2 hd hd bs1 k (c :: b) bs2 event Hl He Hc2) as [Hl' Hfl'].
  { apply bseg_app. exists top. split; [by eapply bseg_relink|].
    eapply bseg_frame; [|exact Hseg]. intros x Hx. apply list_lookup_insert_ne. intros <-. apply (Hdis _ Hp).
    rewrite flat_rest, fmap_app, flat1_snd in Hx. apply elem_of_app in Hx as [Hx|Hx]; apply elem_of_app; [left|by right].
    by apply list_elem_of_filter in Hx as [_ Hx]. }
  exists h2, (bs1 ++ rest k (without event (c :: b)) bs2).
  split; [eapply bind_Ok; [exact Hrun|]; by apply set_event_run|]. do 3 (split; [done|]).
  intros x Hx. rewrite flat_app, fmap_app, flat_snd_cons, !not_elem_of_app in Hx.
  unfold h2. rewrite list_lookup_insert_ne by (intros ->; tauto). apply Hf1. tauto.
Qed.

(** [event] is in the first bin *)
Lemma remove_front_run self event ev s q b bs2 : mainEventQueue s !z self = Some q →
  links (events s) (eq_head q) ((ekey ev, b) :: bs2) → live (events s) event ev → ev_queue ev = Some self → event ∈ b →
  ∃ h' hd' bs', EventQueue_remove self event s = Ok (tt, with_head self q h' hd' s) ∧ links h' hd' bs' ∧
    flat bs' = ag_remove event (flat ((ekey ev, b) :: bs2)) ∧ contents h' = contents (events s) ∧
    ∀ x, x ∉ (flat ((ekey ev, b) :: bs2)).*2 → h' !! x = events s !! x.
Proof.
  intros Hq Hl He Heq Hinb. pose proof Hl as (Hb & Hk & _ & Hd).
  destruct Hb as (t & b' & tv & -> & Hhd & Ht & Hst & Hb2).
  assert (Hkt : ekey tv = ekey ev) by (by eapply (keyed_flat_first _ [])).
  rewrite flat_snd_cons in Hd.
  destruct (removeItem_run event t tv b' (ekey ev) bs2 s Ht Hst Hb2 Hd Hinb) as (h1 & top & Hrun & Hc1 & Hf1 & Hseg).
  destruct (links_remove (events s) h1 (eq_head q) top [] (ekey ev) (t :: b') bs2 event Hl Hinb Hc1 Hseg) as [Hl' Hfl'].
  exists h1, top, (rest (ekey ev) (without event (t :: b')) bs2).
  split; [unfold EventQueue_remove|split; [done|split; [done|split; [done|]]]].
  - eapply bind_Ok; [by apply ask_eventq_run|]. rewrite Hhd. eapply bind_Ok; [by apply event_at_run|].
    rewrite bool_decide_true by done. eapply bind_Ok; [done|]. eapply bind_Ok; [by apply event_at_run|].
    rewrite ev_eq_key, bool_decide_true by done. eapply bind_Ok; [exact Hrun|]. by apply set_head_run.
  - intros x Hx. apply Hf1. rewrite flat_snd_cons, not_elem_of_app in Hx. tauto.
Qed.

Lemma ev_remove_run self event ev s q bs : mainEventQueue s !z self = Some q → links (events s) (eq_head q) bs →
  live (events s) event ev → ev_queue ev = Some self → event ∈ (flat bs).*2 →
  ∃ h' hd' bs', EventQueue_remove self event s = Ok (tt, with_head self q h' hd' s) ∧ links h' hd' bs' ∧
    flat bs' = ag_remove event (flat bs) ∧ contents h' = contents (events s) ∧
    ∀ x, x ∉ (flat bs).*2 → h' !! x = events s !! x.
Proof.
  intros Hq Hl He Heq Hin. pose proof Hl as (Hb & Hk & Hs & Hd). unfold EventQueue_remove.
  destruct (find_owner _ _ _ _ _ Hl Hin He) as (bs1 & b & bs2 & -> & Hinb).
  destruct bs1 as [|[k0 b0] bs1].
  - by apply (remove_front_run self event ev s q b bs2).
  - destruct Hb as (t & b0' & tv & -> & Hhd & Ht & _ & Hb2). set (bs := bs1 ++ (ekey ev, b) :: bs2) in *.
    change (((k0, t :: b0') :: bs1) ++ (ekey ev, b) :: bs2) with ((k0, t :: b0') :: bs) in *.
    assert (Hk0 : ekey tv = k0) by (by eapply (keyed_flat_first _ [])).
    assert (Hbefore : Forall (λ x, klt x.1 (ekey ev)) ((k0, t :: b0') :: bs1)).
    { apply Forall_forall. intros x Hx. assert (Hs' : StronglySorted klt (((k0, t :: b0') :: bs1).*1 ++ ((ekey ev, b) :: bs2).*1))
        by (by rewrite <-fmap_app). apply sorted_app_inv in Hs' as (_ & _ & H). apply H; [by apply list_elem_of_fmap_2|by left]. }
    pose proof Hs as Hs'. apply StronglySorted_inv in Hs' as [Hs' _].
    destruct (find_bin_run event ev s (S (length (events s))) bs t k0 b0' (nextBin tv))
      as (prev & curr & bsA & kq & bq & bsB & Hfind & Hsplit & Hf1 & Hf2 & Hcurr); try done.
    { apply links_short in Hl. simpl in Hl. lia. }
    { unfold keyed in Hk. rewrite flat_cons, Forall_app in Hk. apply Hk. }
    rewrite (cons_middle (kq, prev :: bq)), app_assoc in Hsplit.
    destruct (split_unique (ekey ev) b ((k0, t :: b0') :: bs1) bs2 (bsA ++ [(kq, prev :: bq)]) bsB) as [HA ->]; try done.
    { eapply Forall_impl; [exact Hf1|]. intros x [-> |Hx]; [|done]. by apply Forall_cons in Hbefore as [? _]. }
    rewrite Hsplit in Hl |- *. pose proof Hl as (Hb & _). apply bseg_app in Hb as (m & HbA & HbB).
    destruct HbB as (c & b' & cv & -> & -> & Hc & Hst & Hbs2).
    destruct Hcurr as (c' & b'' & _ & [= <- <-] & -> & _).
    destruct (remove_behind_run event c cv prev s (eq_head q) bsA kq bq (ekey ev) b' bs2) as (h' & bs' & Hrun & H); try done.
    exists h', (eq_head q), bs'. split; [|exact H]. rewrite (with_head_same _ _ _ _ Hq).
    eapply bind_Ok; [by apply ask_eventq_run|]. rewrite Hhd. eapply bind_Ok; [by apply event_at_run|].
    rewrite bool_decide_true by done. eapply bind_Ok; [done|]. eapply bind_Ok; [by apply event_at_run|].
    rewrite ev_eq_key, bool_decide_false.
    2: { rewrite Hk0. intros ->. apply Forall_cons in Hbefore as [Hlt _]. by apply klt_irrefl in Hlt. }
    eapply bind_Ok; [done|]. eapply bind_Ok; [exact Hfind|]. cbn [fst snd]. eapply bind_Ok; [by apply event_at_run|].
    assert (Hkc : ekey cv = ekey ev) by (destruct Hl as (_ & Hk' & _); by eapply keyed_flat_first).
    rewrite ev_ne_key, bool_decide_true by done. exact Hrun.
Qed.
