(* ===== verification/EventRun.v ===== *)
(** * Scheduling and servicing events

    The invariant of the event queues and what the public methods do to their
    agendas: [schedule], [deschedule], [reschedule], [serviceOne] and the
    queue's own check [debugVerify]. *)

From S2P Require Import Prelude EventQueue EventLinks.

(** ** Flags *)

Lemma isSet_bit k x : 0 ≤ k → isSet x (2 ^ k) = Z.testbit x k.
Proof.
  intros Hk. unfold isSet. assert (H : Z.land x (2 ^ k) = if Z.testbit x k then 2 ^ k else 0).
  { apply Z.bits_inj'. intros n Hn. rewrite Z.land_spec, Z.pow2_bits_eqb by done.
    destruct (Z.eqb_spec k n) as [->|Hne].
    - rewrite andb_true_r. destruct (Z.testbit x n) eqn:E; [by rewrite Z.pow2_bits_true|by rewrite Z.bits_0].
    - rewrite andb_false_r. destruct (Z.testbit x k); [|by rewrite Z.bits_0]. symmetry. by apply Z.pow2_bits_false. }
  rewrite H. destruct (Z.testbit x k); [apply bool_decide_true; lia|by apply bool_decide_false; intros []].
Qed.
Lemma scheduled_bit e : scheduled e = Z.testbit (flags e) 1.
Proof. by apply (isSet_bit 1). Qed.
Lemma squashed_bit e : squashed e = Z.testbit (flags e) 0.
Proof. by apply (isSet_bit 0). Qed.
Lemma exit_bit e : isExitEvent e = Z.testbit (flags e) 4.
Proof. by apply (isSet_bit 4). Qed.
Lemma managed_bit e : isManaged e = Z.testbit (flags e) 2.
Proof. by apply (isSet_bit 2). Qed.

Ltac flag_bits :=
  rewrite ?scheduled_bit, ?squashed_bit, ?managed_bit, ?exit_bit; cbn -[Z.testbit Z.lor Z.land Z.lnot];
  unfold flags_set, flags_clear; rewrite ?Z.land_spec, ?Z.lor_spec, ?Z.land_spec, ?Z.lnot_spec by lia;
  cbn -[flags]; rewrite ?orb_true_r, ?orb_false_r, ?andb_true_r, ?andb_false_r.

Definition set_sched (e : Event) : Event := e.{flags ::= flags_set Scheduled}.
Definition clear_sched (e : Event) : Event := e.{flags ::= flags_clear Scheduled}.
Definition clear_squashed (e : Event) : Event := e.{flags ::= flags_clear Squashed}.

Lemma set_sched_exit e : isExitEvent (set_sched e) = isExitEvent e.
Proof. by flag_bits. Qed.
Lemma set_sched_flags e : scheduled (set_sched e) = true ∧ squashed (set_sched e) = squashed e ∧
  isManaged (set_sched e) = isManaged e ∧ initialized (set_sched e) = initialized e.
Proof.
  split; [by flag_bits|]. split; [by flag_bits|]. split; [by flag_bits|].
  unfold initialized, flags_set. cbn -[Z.lor Z.land]. unfold flags_set. by rewrite Z.land_lor_distr_l, Z.lor_0_r.
Qed.
Lemma clear_initialized f e : Z.land (Z.lnot f) InitMask = InitMask →
  initialized (e.{flags ::= flags_clear f}) = initialized e.
Proof.
  intros Hf. unfold initialized. cbn -[Z.lor Z.land]. unfold flags_clear. by rewrite <-Z.land_assoc, Hf.
Qed.
Lemma clear_sched_flags e : scheduled (clear_sched e) = false ∧ squashed (clear_sched e) = squashed e ∧
  isManaged (clear_sched e) = isManaged e ∧ initialized (clear_sched e) = initialized e.
Proof. split; [by flag_bits|]. split; [by flag_bits|]. split; [by flag_bits|]. by apply clear_initialized. Qed.
Lemma clear_squashed_flags e : scheduled (clear_squashed e) = scheduled e ∧ squashed (clear_squashed e) = false ∧
  isManaged (clear_squashed e) = isManaged e ∧ initialized (clear_squashed e) = initialized e.
Proof. split; [by flag_bits|]. split; [by flag_bits|]. split; [by flag_bits|]. by apply clear_initialized. Qed.

(** ** The invariant *)

(** an event that is in the queue [i] *)
Definition ev_ok (h : heap) (i : Z) (e : ev_ptr) : Prop :=
  ∃ ev, live h e ev ∧ scheduled ev = true ∧ initialized ev = true ∧ ev_queue ev = Some i.
Definition on_agenda (h : heap) (p : option ev_ptr) (ag : agenda) : Prop := ∃ bs, links h p bs ∧ flat bs = ag.
Record queue_ok (h : heap) (i : Z) (q : EventQueue) (ag : agenda) : Prop := {
  qo_links : on_agenda h (eq_head q) ag;
  qo_events : Forall (λ x, ev_ok h i x.2) ag;
  qo_time : Forall (λ x, _curTick q ≤ x.1.1) ag;
  qo_async : async_queue q = [];
}.
(** the agendas of all queues; every scheduled event is on the one of its queue *)
Record sim_ok (s : Sim) (ags : list agenda) : Prop := {
  so_serial : inParallelMode s = false;
  so_length : length ags = length (mainEventQueue s);
  so_queue : ∀ i q ag, mainEventQueue s !z i = Some q → ags !z i = Some ag → queue_ok (events s) i q ag;
  so_sched : ∀ e ev, live (events s) e ev → scheduled ev = true →
    ∃ i ag, ev_queue ev = Some i ∧ ags !z i = Some ag ∧ e ∈ ag.*2;
}.

Lemma links_frame h h' p bs : (∀ x, x ∈ (flat bs).*2 → h' !! x = h !! x) → links h p bs → links h' p bs.
Proof.
  intros Hf (Hb & Hk & Hs). split; [by eapply bseg_frame|]. split; [|done].
  unfold keyed in *. rewrite Forall_forall in Hk |- *. intros x Hx. destruct (Hk x Hx) as (ev & He & Hkey).
  exists ev. split; [|done]. unfold live. rewrite Hf; [done|]. by apply list_elem_of_fmap_2.
Qed.
Lemma queue_ok_frame h h' i q ag : (∀ x, x ∈ ag.*2 → h' !! x = h !! x) → queue_ok h i q ag → queue_ok h' i q ag.
Proof.
  intros Hf [(bs & Hl & Hbs) He Ht Ha]. split; [| |done|done].
  - exists bs. split; [|done]. eapply links_frame; [|exact Hl]. by rewrite Hbs.
  - rewrite Forall_forall in He |- *. intros x Hx. destruct (He x Hx) as (ev & Hev & H). exists ev. split; [|done].
    unfold live. rewrite Hf; [done|]. by apply list_elem_of_fmap_2.
Qed.

(** an event changes, but not its links, time or priority *)
Lemma links_update h p bs e ev ev' : links h p bs → live h e ev → nextBin ev' = nextBin ev → nextInBin ev' = nextInBin ev →
  ekey ev' = ekey ev → links (<[e := Some ev']> h) p bs.
Proof.
  intros (Hb & Hk & Hs) He H1 H2 H3.
  assert (Hlive : ∀ x xv, live h x xv → ∃ xv', live (<[e := Some ev']> h) x xv' ∧ nextBin xv' = nextBin xv ∧
    nextInBin xv' = nextInBin xv ∧ ekey xv' = ekey xv).
  { intros x xv Hx. destruct (decide (x = e)) as [->|Hne].
    - exists ev'. split; [apply list_lookup_insert_eq; by eapply live_lt|]. assert (xv = ev) as -> by (unfold live in *; congruence). done.
    - exists xv. split; [|done]. unfold live. by rewrite list_lookup_insert_ne. }
  assert (Hst : ∀ b p, stack h p b → stack (<[e := Some ev']> h) p b).
  { induction b as [|x b IH]; intros r; [done|]. intros (-> & xv & Hx & Hr). split; [done|].
    destruct (Hlive x xv Hx) as (xv' & Hx' & _ & Hn & _). exists xv'. split; [done|]. rewrite Hn. by apply IH. }
  split; [|split; [|done]].
  - clear Hk Hs. revert p Hb. induction bs as [|[k b] bs IH]; intros r; [done|].
    intros (x & b' & xv & -> & -> & Hx & Hr & Hb). destruct (Hlive x xv Hx) as (xv' & Hx' & Hn & Hi & _).
    exists x, b', xv'. do 3 (split; [done|]). rewrite Hi, Hn. split; [by apply Hst|by apply IH].
  - eapply Forall_impl; [exact Hk|]. intros x (xv & Hx & Hkey). destruct (Hlive _ _ Hx) as (xv' & Hx' & _ & _ & Hk').
    exists xv'. split; [done|]. by rewrite Hk'.
Qed.

(** What a step on the queue [self] may do: the agenda [ag] becomes [ag'], only
    the event [e] and the links of the events of [ag] change. *)
Record queue_step (s : Sim) (ags : list agenda) (self : Z) (q : EventQueue) (ag ag' : agenda) (e : ev_ptr)
    (h' : heap) (hd' : option ev_ptr) (now : Z) : Prop := {
  qs_links : on_agenda h' hd' ag';
  qs_frame : ∀ x, x ≠ e → x ∉ ag.*2 → h' !! x = events s !! x;
  qs_contents : ∀ x, x ≠ e → contents h' !! x = contents (events s) !! x;
  qs_elem : ∀ x, x ≠ e → x ∈ ag'.*2 ↔ x ∈ ag.*2;
  qs_event : if decide (e ∈ ag'.*2) then ev_ok h' self e else ∀ ev, live h' e ev → scheduled ev = false;
  qs_other : ∀ j ag2, j ≠ self → ags !z j = Some ag2 → e ∉ ag2.*2;
  qs_time : Forall (λ x, now ≤ x.1.1) ag';
}.

Lemma contents_lookup h h' x : contents h' !! x = contents h !! x → ∀ ev, live h x ev →
  ∃ ev', live h' x ev' ∧ unlinked ev' = unlinked ev.
Proof.
  unfold contents, live. rewrite !list_lookup_fmap. intros Hc ev He. rewrite He in Hc. 
  destruct (h' !! x) as [[ev'|]|]; [|discriminate..]. exists ev'. split; [done|]. by apply (inj Some), (inj Some) in Hc.
Qed.
Lemma unlinked_facts ev ev' : unlinked ev' = unlinked ev → flags ev' = flags ev ∧ ev_queue ev' = ev_queue ev ∧ ekey ev' = ekey ev.
Proof.
  intros H. split; [exact (f_equal flags H)|]. split; [exact (f_equal ev_queue H)|]. by apply unlinked_key.
Qed.
Lemma ev_ok_contents h h' i x : contents h' !! x = contents h !! x → ev_ok h i x → ev_ok h' i x.
Proof.
  intros Hc (ev & He & H1 & H2 & H3). destruct (contents_lookup _ _ _ Hc ev He) as (ev' & He' & Hu).
  apply unlinked_facts in Hu as (Hf & Hq & _). exists ev'. split; [done|].
  unfold scheduled, initialized in *. by rewrite Hf, Hq.
Qed.

Definition stepped (self : Z) (q : EventQueue) (h : heap) (hd : option ev_ptr) (now : Z) (s : Sim) : Sim :=
  s.{events := h}.{mainEventQueue := vinsert self (q.{eq_head := hd}.{_curTick := now}) (mainEventQueue s)}.

Lemma elem_other h i (ag : agenda) e ev : Forall (λ x, ev_ok h i x.2) ag → e ∈ ag.*2 → live h e ev →
  ev_queue ev = Some i ∧ scheduled ev = true ∧ initialized ev = true.
Proof.
  intros Hag (x & -> & Hx)%list_elem_of_fmap He. rewrite Forall_forall in Hag.
  destruct (Hag x Hx) as (ev' & He' & H1 & H2 & H3). unfold live in *. by simplify_eq.
Qed.

Lemma sim_ok_step s ags self q ag ag' e h' hd' now : sim_ok s ags → mainEventQueue s !z self = Some q →
  ags !z self = Some ag → queue_step s ags self q ag ag' e h' hd' now →
  sim_ok (stepped self q h' hd' now s) (vinsert self ag' ags).
Proof.
  intros [Hser Hlen Hqs Hsch] Hq Hag [S1 S2 S3 S4 S5 S6 S7]. pose proof (Hqs self q ag Hq Hag) as [_ Hev _ Ha].
  split; [done|simpl; by rewrite !length_vinsert| |].
  - intros i q' ag2 Hq' Hag2. simpl in Hq'. destruct (decide (i = self)) as [->|Hi].
    + rewrite vlookup_vinsert_eq in Hq' by (by eapply vlookup_Some_range).
      rewrite vlookup_vinsert_eq in Hag2 by (by eapply vlookup_Some_range). injection Hq' as <-. injection Hag2 as <-.
      split; [exact S1| |exact S7|exact Ha]. apply Forall_forall. intros x Hx.
      assert (Hx2 : x.2 ∈ ag'.*2) by (by apply list_elem_of_fmap_2).
      destruct (decide (x.2 = e)) as [He|He]; [rewrite He in *; by rewrite decide_True in S5|].
      eapply ev_ok_contents; [by apply S3|]. apply S4 in Hx2; [|done]. apply list_elem_of_fmap in Hx2 as (y & -> & Hy).
      rewrite Forall_forall in Hev. by apply Hev.
    + rewrite vlookup_vinsert_ne in Hq' by done. rewrite vlookup_vinsert_ne in Hag2 by done.
      pose proof (Hqs i q' ag2 Hq' Hag2) as Hok. eapply queue_ok_frame; [|exact Hok]. intros x Hx. apply S2.
      * intros ->. by apply (S6 i ag2).
      * intros Hx'. apply Hi. destruct Hok as [_ Hev2 _ _]. apply list_elem_of_fmap in Hx as (y & -> & Hy).
        rewrite Forall_forall in Hev2. destruct (Hev2 y Hy) as (ev & He & _ & _ & Hqi).
        destruct (elem_other _ _ _ _ _ Hev Hx' He) as [Hqs' _]. congruence.
  - intros x ev Hx Hs. simpl in Hx. destruct (decide (x = e)) as [->|Hxe].
    + case_decide as Hin; [|by rewrite (S5 ev Hx) in Hs]. destruct S5 as (ev' & He' & _ & _ & Hqe).
      assert (ev' = ev) as -> by (unfold live in *; congruence). exists self, ag'. split; [done|]. split; [|done].
      apply vlookup_vinsert_eq. by eapply vlookup_Some_range.
    + destruct (contents_lookup h' (events s) x (eq_sym (S3 x Hxe)) ev Hx) as (ev0 & Hx0 & Hu).
      apply unlinked_facts in Hu as (Hf & Hqu & _). destruct (Hsch x ev0 Hx0) as (i & ag2 & Hi & Hag2 & Hin).
      { unfold scheduled in *. by rewrite Hf. }
      rewrite Hqu in Hi. destruct (decide (i = self)) as [->|Hne].
      * exists self, ag'. split; [done|]. split; [apply vlookup_vinsert_eq; by eapply vlookup_Some_range|].
        assert (ag2 = ag) as -> by congruence. by apply S4.
      * exists i, ag2. split; [done|]. by rewrite vlookup_vinsert_ne.
Qed.

(** ** The steps of scheduling *)

(** an event off the agenda changes *)
Lemma on_agenda_other h p ag e o : e ∉ ag.*2 → on_agenda h p ag → on_agenda (<[e := o]> h) p ag.
Proof.
  intros He (bs & Hl & Hf). exists bs. split; [|done]. eapply links_frame; [|exact Hl]. rewrite Hf. intros x Hx.
  apply list_lookup_insert_ne. by intros ->.
Qed.
(** the flags of an event change *)
Lemma on_agenda_flags h p ag e ev g : live h e ev → on_agenda h p ag →
  on_agenda (<[e := Some (ev.{flags := g})]> h) p ag.
Proof. intros He (bs & Hl & Hf). exists bs. split; [|done]. by eapply links_update. Qed.
Lemma contents_other h e o x : x ≠ e → contents (<[e := o]> h) !! x = contents h !! x.
Proof. intros Hx. unfold contents. rewrite !list_lookup_fmap. by rewrite list_lookup_insert_ne. Qed.
Lemma ag_insert_elem k e ag x : x ∈ (ag_insert k e ag).*2 ↔ x = e ∨ x ∈ ag.*2.
Proof. rewrite ag_insert_perm. rewrite fmap_cons. by rewrite elem_of_cons. Qed.
Lemma ag_remove_elem e ag x : x ∈ (ag_remove e ag).*2 ↔ x ≠ e ∧ x ∈ ag.*2.
Proof.
  unfold ag_remove. split.
  - intros (y & -> & Hy)%list_elem_of_fmap. apply list_elem_of_filter in Hy as [Hne Hy]. split; [done|]. by apply list_elem_of_fmap_2.
  - intros [Hne (y & -> & Hy)%list_elem_of_fmap]. apply list_elem_of_fmap_2. by apply list_elem_of_filter.
Qed.

Lemma ag_remove_Forall (P : ev_key * ev_ptr → Prop) e ag : Forall P ag → Forall P (ag_remove e ag).
Proof. rewrite !Forall_forall. intros H x Hx. apply list_elem_of_filter in Hx as [_ Hx]. by apply H. Qed.

Lemma enqueue_run s self q ag e ev t : mainEventQueue s !z self = Some q → on_agenda (events s) (eq_head q) ag →
  live (events s) e ev → e ∉ ag.*2 →
  ∃ h hd ev1, EventQueue_insert self e (s.{events := <[e := Some (setWhen t self ev)]> (events s)}) =
      Ok (tt, with_head self q h hd s) ∧ on_agenda h hd (ag_insert (t, _priority ev) e ag) ∧
    live h e ev1 ∧ unlinked ev1 = unlinked (setWhen t self ev) ∧
    (∀ x, x ≠ e → contents h !! x = contents (events s) !! x) ∧ (∀ x, x ≠ e → x ∉ ag.*2 → h !! x = events s !! x).
Proof.
  intros Hq Hag He Hn. set (h0 := <[e := Some (setWhen t self ev)]> (events s)).
  assert (He0 : live h0 e (setWhen t self ev)) by (apply list_lookup_insert_eq; by eapply live_lt).
  destruct (on_agenda_other _ _ _ e (Some (setWhen t self ev)) Hn Hag) as (bs & Hl & <-).
  set (s0 := s.{events := h0}).
  destruct (ev_insert_run self e (setWhen t self ev) s0 q bs Hq Hl He0 Hn)
    as (h & hd & bs' & Hrun & Hl' & Hf & Hc & Hfr).
  destruct (contents_live _ _ _ _ Hc He0) as (ev1 & He1 & Hu).
  exists h, hd, ev1. split; [exact Hrun|]. split; [by exists bs'|]. split; [done|]. split; [done|]. split.
  - intros x Hx. rewrite Hc. by apply contents_other.
  - intros x Hx Hx'. rewrite Hfr by done. by apply list_lookup_insert_ne.
Qed.

Lemma dequeue_run s self q ag e ev : mainEventQueue s !z self = Some q → on_agenda (events s) (eq_head q) ag →
  live (events s) e ev → ev_queue ev = Some self → e ∈ ag.*2 →
  ∃ h hd ev1, EventQueue_remove self e s = Ok (tt, with_head self q h hd s) ∧ on_agenda h hd (ag_remove e ag) ∧
    live h e ev1 ∧ unlinked ev1 = unlinked ev ∧ contents h = contents (events s) ∧
    ∀ x, x ∉ ag.*2 → h !! x = events s !! x.
Proof.
  intros Hq (bs & Hl & <-) He Hqe Hin.
  destruct (ev_remove_run self e ev s q bs Hq Hl He Hqe Hin) as (h & hd & bs' & Hrun & Hl' & Hf & Hc & Hfr).
  destruct (contents_live _ _ _ _ Hc He) as (ev1 & He1 & Hu).
  exists h, hd, ev1. split; [exact Hrun|]. split; [by exists bs'|]. done.
Qed.

Lemma release_run h e ev s : live h e ev →
  release e (s.{events := h}) =
    Ok (tt, s.{events := if isManaged ev && negb (scheduled ev) then <[e := None]> h else h}).
Proof.
  intros He. unfold release. eapply bind_Ok; [by apply event_at_run|]. destruct (isManaged ev); [|done]. simpl.
  unfold releaseImpl. eapply bind_Ok; [by apply event_at_run|]. destruct (scheduled ev) eqn:Es; [done|]. simpl.
  unfold delete_Event. eapply bind_Ok; [by apply event_at_run|]. rewrite Es. simpl. eapply bind_Ok; [done|]. done.
Qed.
Lemma acquire_run e ev s : live (events s) e ev → acquire e s = Ok (tt, s).
Proof. intros He. unfold acquire. eapply bind_Ok; [by apply event_at_run|]. by destruct (isManaged ev). Qed.

(** the event of a queue is on no other agenda *)
Lemma only_agenda s ags self e ev : sim_ok s ags → live (events s) e ev → (scheduled ev = true → ev_queue ev = Some self) →
  ∀ j ag2, j ≠ self → ags !z j = Some ag2 → e ∉ ag2.*2.
Proof.
  intros [_ Hlen Hqs _] He Hs j ag2 Hj Hag2 Hin.
  assert (is_Some (mainEventQueue s !z j)) as [q2 Hq2].
  { apply vlookup_is_Some. apply vlookup_Some_range in Hag2. unfold zlength in *. by rewrite <-Hlen. }
  destruct (Hqs j q2 ag2 Hq2 Hag2) as [_ Hev _ _]. destruct (elem_other _ _ _ _ _ Hev Hin He) as (Hq & Hsc & _).
  rewrite Hs in Hq by done. congruence.
Qed.
Lemma unscheduled_off s ags e ev i ag : sim_ok s ags → live (events s) e ev → scheduled ev = false →
  ags !z i = Some ag → e ∉ ag.*2.
Proof. intros Hok He Hs Hag. apply (only_agenda s ags (i + 1) e ev Hok He) with (j := i); [by rewrite Hs|lia|done]. Qed.

Lemma schedule_run s ags self q ag e ev t global : sim_ok s ags → mainEventQueue s !z self = Some q →
  ags !z self = Some ag → live (events s) e ev → scheduled ev = false → initialized ev = true → _curTick q ≤ t →
  ∃ h hd, schedule self e t global s = Ok (tt, stepped self q h hd (_curTick q) s) ∧
    queue_step s ags self q ag (ag_insert (t, _priority ev) e ag) e h hd (_curTick q) ∧
    ∃ ev', live h e ev' ∧ isExitEvent ev' = isExitEvent ev.
Proof.
  intros Hok Hq Hag He Hs Hi Ht. pose proof Hok as [Hser _ Hqs _]. destruct (Hqs self q ag Hq Hag) as [Hon _ Htime _].
  assert (Hn : e ∉ ag.*2) by (by eapply unscheduled_off).
  destruct (enqueue_run s self q ag e ev t Hq Hon He Hn) as (h & hd & ev1 & Hrun & Hon' & He1 & Hu & Hc & Hf).
  apply unlinked_facts in Hu as (Hfl & Hqu & _).
  destruct (set_sched_flags ev1) as (F1 & _ & _ & F2).
  set (h2 := <[e := Some (set_sched ev1)]> h).
  assert (He2 : live h2 e (set_sched ev1)) by (apply list_lookup_insert_eq; by eapply live_lt).
  exists h2, hd. split.
  - unfold schedule. eapply bind_Ok; [by apply ask_eventq_run|]. apply check_run; [apply bool_decide_true; lia|].
    eapply bind_Ok; [by apply event_at_run|]. apply check_run; [by rewrite Hs|]. apply check_run; [done|].
    eapply bind_Ok; [by apply (on_event_run e (modify (setWhen t self)) s ev tt (setWhen t self ev))|].
    eapply (bind_Ok _ _ _ false); [by rewrite <-Hser|]. eapply bind_Ok; [done|]. cbn [andb].
    eapply bind_Ok; [exact Hrun|].
    eapply bind_Ok; [by apply (set_event_run e (λ e, e.{flags ::= flags_set Scheduled}) h ev1 (with_head self q h hd s))|].
    etrans; [by apply (acquire_run e (set_sched ev1))|]. unfold stepped, with_head. simpl. by destruct q.
  - split; [split|exists (set_sched ev1); split; [done|by rewrite set_sched_exit; unfold isExitEvent; rewrite Hfl]].
    + by apply on_agenda_flags.
    + intros x Hx Hx'. unfold h2. rewrite list_lookup_insert_ne by done. by apply Hf.
    + intros x Hx. unfold h2. rewrite contents_other by done. by apply Hc.
    + intros x Hx. rewrite ag_insert_elem. naive_solver.
    + rewrite decide_True by (apply ag_insert_elem; by left). exists (set_sched ev1). split; [done|]. split; [done|].
      split; [|exact Hqu]. rewrite F2. unfold initialized in *. by rewrite Hfl.
    + eapply only_agenda; [done|done|by rewrite Hs].
    + rewrite ag_insert_perm. by constructor.
Qed.

Lemma may_touch_run self s : inParallelMode s = false → may_touch self s = Ok (true, s).
Proof. intros Hp. unfold may_touch. eapply (bind_Ok _ _ _ false); [by rewrite <-Hp|]. done. Qed.
Lemma agenda_event s ags self q ag e ev : sim_ok s ags → mainEventQueue s !z self = Some q → ags !z self = Some ag →
  live (events s) e ev → e ∈ ag.*2 → ev_queue ev = Some self ∧ scheduled ev = true ∧ initialized ev = true.
Proof. intros [_ _ Hqs _] Hq Hag He Hin. destruct (Hqs self q ag Hq Hag) as [_ Hev _ _]. by eapply elem_other. Qed.

Lemma deschedule_run s ags self q ag e ev : sim_ok s ags → mainEventQueue s !z self = Some q →
  ags !z self = Some ag → live (events s) e ev → e ∈ ag.*2 →
  ∃ h hd, deschedule self e s = Ok (tt, stepped self q h hd (_curTick q) s) ∧
    queue_step s ags self q ag (ag_remove e ag) e h hd (_curTick q) ∧
    h !! e = Some (if isManaged ev then None else h !! e ≫= id) .
Proof.
  intros Hok Hq Hag He Hin. pose proof Hok as [Hser _ Hqs _]. destruct (Hqs self q ag Hq Hag) as [Hon _ Htime _].
  destruct (agenda_event s ags self q ag e ev Hok Hq Hag He Hin) as (Hqe & Hs & Hi).
  destruct (dequeue_run s self q ag e ev Hq Hon He Hqe Hin) as (h & hd & ev1 & Hrun & Hon' & He1 & Hu & Hc & Hf).
  apply unlinked_facts in Hu as (Hfl & _ & _).
  set (ev2 := clear_squashed ev1). set (ev3 := clear_sched ev2).
  set (h2 := <[e := Some ev2]> h). set (h3 := <[e := Some ev3]> h2).
  assert (He2 : live h2 e ev2) by (apply list_lookup_insert_eq; by eapply live_lt).
  assert (He3 : live h3 e ev3) by (apply list_lookup_insert_eq; by eapply live_lt).
  destruct (clear_sched_flags ev2) as (F1 & _ & F2 & _). destruct (clear_squashed_flags ev1) as (_ & _ & F3 & _).
  set (o := if isManaged ev then None else Some ev3). set (h4 := <[e := o]> h3).
  assert (Hm : isManaged ev3 = isManaged ev) by (unfold ev3; rewrite F2; unfold ev2; rewrite F3; unfold isManaged; by rewrite Hfl).
  assert (Hlen : (e < length h3)%nat) by (by eapply live_lt).
  exists h4, hd. split; [|split].
  - unfold deschedule. eapply bind_Ok; [by apply event_at_run|]. apply check_run; [done|]. apply check_run; [done|].
    eapply bind_Ok; [by apply may_touch_run|]. apply check_run; [done|]. eapply bind_Ok; [exact Hrun|].
    eapply bind_Ok; [by apply (set_event_run e (λ e, e.{flags ::= flags_clear Squashed}) h ev1 (with_head self q h hd s))|].
    eapply bind_Ok; [by apply (set_event_run e (λ e, e.{flags ::= flags_clear Scheduled}) h2 ev2 (with_head self q h hd s))|].
    etrans; [by apply (release_run h3 e ev3 (with_head self q h hd s))|]. rewrite Hm. unfold ev3 at 1. rewrite F1.
    unfold stepped, with_head, h4, o. simpl. destruct (isManaged ev); simpl; [by destruct q|].
    rewrite (list_insert_id h3 e (Some ev3)) by done. by destruct q.
  - assert (Hne : e ∉ (ag_remove e ag).*2) by (rewrite ag_remove_elem; tauto). split.
    + unfold h4, h3, h2. by repeat apply on_agenda_other.
    + intros x Hx Hx'. unfold h4, h3, h2. rewrite !list_lookup_insert_ne by done. by apply Hf.
    + intros x Hx. unfold h4, h3, h2. rewrite !contents_other by done. by rewrite Hc.
    + intros x Hx. rewrite ag_remove_elem. tauto.
    + rewrite decide_False by done. intros ev' He'. unfold live, h4, o in He'. rewrite list_lookup_insert_eq in He' by done.
      destruct (isManaged ev); [done|]. injection He' as <-. exact F1.
    + by eapply only_agenda.
    + by apply ag_remove_Forall.
  - unfold h4, o. rewrite list_lookup_insert_eq by done. by destruct (isManaged ev).
Qed.

(** the event is taken off its agenda, if it is on one *)
Lemma unqueue_run s ags self q ag e ev (always : bool) : sim_ok s ags → mainEventQueue s !z self = Some q →
  ags !z self = Some ag → live (events s) e ev → e ∈ ag.*2 ∨ (always = true ∧ scheduled ev = false) →
  always || scheduled ev = true ∧ ∃ h hd ev1,
    (if scheduled ev then EventQueue_remove self e else acquire e) s = Ok (tt, with_head self q h hd s) ∧
    on_agenda h hd (ag_remove e ag) ∧ live h e ev1 ∧ unlinked ev1 = unlinked ev ∧
    contents h = contents (events s) ∧ ∀ x, x ∉ ag.*2 → h !! x = events s !! x.
Proof.
  intros Hok Hq Hag He Hcase. destruct (so_queue s ags Hok self q ag Hq Hag) as [Hon _ _ _].
  destruct Hcase as [Hin|[-> Hs]].
  - destruct (agenda_event s ags self q ag e ev Hok Hq Hag He Hin) as (Hqe & Hs & _).
    rewrite Hs, orb_true_r. split; [done|]. by eapply dequeue_run.
  - split; [done|]. rewrite Hs. exists (events s), (eq_head q), ev.
    split; [rewrite (with_head_same _ _ _ _ Hq); etrans; [by eapply acquire_run|by destruct s]|].
    rewrite ag_remove_not by (by eapply unscheduled_off). done.
Qed.

Lemma reschedule_run s ags self q ag e ev t always : sim_ok s ags → mainEventQueue s !z self = Some q →
  ags !z self = Some ag → live (events s) e ev → initialized ev = true → _curTick q ≤ t →
  e ∈ ag.*2 ∨ (always = true ∧ scheduled ev = false) →
  ∃ h hd, reschedule self e t always s = Ok (tt, stepped self q h hd (_curTick q) s) ∧
    queue_step s ags self q ag (ag_insert (t, _priority ev) e (ag_remove e ag)) e h hd (_curTick q).
Proof.
  intros Hok Hq Hag He Hi Ht Hcase. destruct (so_queue s ags Hok self q ag Hq Hag) as [_ _ Htime _].
  destruct (unqueue_run s ags self q ag e ev always Hok Hq Hag He Hcase)
    as (Hal & h1 & hd1 & ev1 & Hrun1 & Hon1 & He1 & Hu1 & Hc1 & Hf1).
  set (s1 := with_head self q h1 hd1 s) in *. set (q1 := q.{eq_head := hd1}).
  assert (Hq1 : mainEventQueue s1 !z self = Some q1) by (apply vlookup_vinsert_eq; by eapply vlookup_Some_range).
  assert (Hn : e ∉ (ag_remove e ag).*2) by (rewrite ag_remove_elem; tauto).
  destruct (enqueue_run s1 self q1 (ag_remove e ag) e ev1 t Hq1 Hon1 He1 Hn) as (h & hd & ev2 & Hrun & Hon & He2 & Hu2 & Hc & Hf).
  assert (Hp : _priority ev1 = _priority ev) by exact (f_equal _priority Hu1). rewrite Hp in Hon.
  apply unlinked_facts in Hu1 as (Hfl1 & _ & _). apply unlinked_facts in Hu2 as (Hfl2 & Hqu & _).
  set (ev3 := clear_squashed ev2). set (ev4 := set_sched ev3).
  set (h3 := <[e := Some ev3]> h). set (h4 := <[e := Some ev4]> h3).
  assert (He3 : live h3 e ev3) by (apply list_lookup_insert_eq; by eapply live_lt).
  assert (He4 : live h4 e ev4) by (apply list_lookup_insert_eq; by eapply live_lt).
  destruct (set_sched_flags ev3) as (F1 & _ & _ & F2). destruct (clear_squashed_flags ev2) as (_ & _ & _ & F3).
  exists h4, hd. split.
  - unfold reschedule. eapply bind_Ok; [by apply ask_eventq_run|]. apply check_run; [apply bool_decide_true; lia|].
    eapply bind_Ok; [by apply event_at_run|]. apply check_run; [done|]. apply check_run; [done|].
    eapply bind_Ok; [by apply may_touch_run, (so_serial s ags Hok)|]. apply check_run; [done|].
    eapply bind_Ok; [exact Hrun1|].
    eapply bind_Ok; [by apply (on_event_run e (modify (setWhen t self)) s1 ev1 tt (setWhen t self ev1))|].
    eapply bind_Ok; [exact Hrun|].
    eapply bind_Ok; [by apply (set_event_run e (λ e, e.{flags ::= flags_clear Squashed}) h ev2 (with_head self q1 h hd s1))|].
    etrans; [by apply (set_event_run e (λ e, e.{flags ::= flags_set Scheduled}) h3 ev3 (with_head self q1 h hd s1))|].
    unfold stepped, with_head, s1, q1. simpl. rewrite vinsert_vinsert. by destruct q.
  - split.
    + apply on_agenda_flags; [done|]. by apply on_agenda_flags.
    + intros x Hx Hx'. unfold h4, h3. rewrite !list_lookup_insert_ne by done. rewrite Hf; [by apply Hf1|done|].
      rewrite ag_remove_elem. tauto.
    + intros x Hx. unfold h4, h3. rewrite !contents_other by done. rewrite Hc by done. simpl. by rewrite Hc1.
    + intros x Hx. rewrite ag_insert_elem, ag_remove_elem. naive_solver.
    + rewrite decide_True by (apply ag_insert_elem; by left). exists ev4. split; [done|]. split; [done|].
      split; [|exact Hqu]. unfold ev4. rewrite F2. unfold ev3. rewrite F3. unfold initialized in *. rewrite Hfl2. simpl. by rewrite Hfl1.
    + eapply only_agenda; [done|done|]. intros Hs. destruct Hcase as [Hin|[_ Hs']]; [|congruence].
      by eapply agenda_event.
    + rewrite ag_insert_perm. constructor; [done|]. by apply ag_remove_Forall.
Qed.

(** ** Events off the agendas *)

Lemma sim_ok_heap s ags h' : sim_ok s ags →
  (∀ x ev, live (events s) x ev → scheduled ev = true → h' !! x = events s !! x) →
  (∀ x ev, live h' x ev → scheduled ev = true → live (events s) x ev) →
  sim_ok (s.{events := h'}) ags.
Proof.
  intros [Hser Hlen Hqs Hsch] H1 H2. split; [done|done| |].
  - intros i q ag Hq Hag. pose proof (Hqs i q ag Hq Hag) as Hok. eapply queue_ok_frame; [|exact Hok].
    intros x Hx. destruct Hok as [_ Hev _ _]. apply list_elem_of_fmap in Hx as (y & -> & Hy). rewrite Forall_forall in Hev.
    destruct (Hev y Hy) as (ev & He & Hs & _). by apply (H1 _ ev).
  - intros x ev Hx Hs. apply (Hsch x ev); [by apply H2|done].
Qed.
(** an event off the agendas changes or is deleted *)
Lemma sim_ok_off s ags e ev o : sim_ok s ags → live (events s) e ev → scheduled ev = false →
  (∀ ev', o = Some ev' → scheduled ev' = false) → sim_ok (s.{events := <[e := o]> (events s)}) ags.
Proof.
  intros Hok He Hs Ho. apply sim_ok_heap; [done| |].
  - intros x xv Hx Hxs. apply list_lookup_insert_ne. intros ->. unfold live in *. simplify_eq. congruence.
  - intros x xv Hx Hxs. unfold live in *. destruct (decide (x = e)) as [->|Hne].
    + rewrite list_lookup_insert_eq in Hx by (by eapply live_lt). simplify_eq. by rewrite (Ho xv) in Hxs.
    + by rewrite list_lookup_insert_ne in Hx.
Qed.
Lemma sim_ok_new s ags ev : sim_ok s ags → scheduled ev = false → sim_ok (s.{events := events s ++ [Some ev] }) ags.
Proof.
  intros Hok Hs. apply sim_ok_heap; [done| |].
  - intros x xv Hx _. apply lookup_app_l. by eapply live_lt.
  - intros x xv Hx Hxs. unfold live in *. apply lookup_app_Some in Hx as [Hx|[Hle Hx]]; [done|].
    apply list_lookup_singleton_Some in Hx as [_ [= ->]]. congruence.
Qed.
(** the squashed flag of any event *)
Lemma sim_ok_squash s ags e ev : sim_ok s ags → live (events s) e ev →
  sim_ok (s.{events := <[e := Some (ev.{flags ::= flags_set Squashed})]> (events s)}) ags.
Proof.
  set (ev' := ev.{flags ::= flags_set Squashed}). intros Hok He. pose proof Hok as [Hser Hlen Hqs Hsch].
  assert (Hs : scheduled ev' = scheduled ev) by (unfold ev'; by flag_bits).
  assert (Hi : initialized ev' = initialized ev).
  { unfold ev', initialized. cbn -[Z.lor Z.land]. unfold flags_set. by rewrite Z.land_lor_distr_l, Z.lor_0_r. }
  destruct (scheduled ev) eqn:Hsev; [|eapply sim_ok_off; [done|done|done|by intros ? [= <-]]].
  split; [done|done| |].
  - intros i q ag Hq Hag. pose proof (Hqs i q ag Hq Hag) as [H1 H2 H3 H4]. split; [by apply on_agenda_flags| |done|done].
    eapply Forall_impl; [exact H2|]. intros x (xv & Hx & Hrest). destruct (decide (x.2 = e)) as [Heq|Hne].
    + rewrite Heq in Hx |- *. exists ev'. assert (xv = ev) as -> by (unfold live in *; congruence).
      split; [apply list_lookup_insert_eq; by eapply live_lt|].
      rewrite Hs, Hi. destruct Hrest as (_ & Hin & Hqe). done.
    + exists xv. split; [|done]. unfold live. simpl. by rewrite list_lookup_insert_ne.
  - intros x xv Hx Hxs. unfold live in Hx. simpl in Hx. destruct (decide (x = e)) as [->|Hne].
    + rewrite list_lookup_insert_eq in Hx by (by eapply live_lt). injection Hx as <-. by apply (Hsch e ev).
    + rewrite list_lookup_insert_ne in Hx by done. by apply (Hsch x xv).
Qed.

(** ** The public operations *)

Inductive ev_op :=
  | Schedule (self : Z) (e : ev_ptr) (t : Z) (global : bool)
  | Deschedule (self : Z) (e : ev_ptr)
  | Reschedule (self : Z) (e : ev_ptr) (t : Z) (always : bool)
  | Squash (e : ev_ptr)
  | NewEvent (p f : Z)
  | DeleteEvent (e : ev_ptr).
Definition run_op (op : ev_op) : M Sim unit :=
  match op with
  | Schedule self e t global => schedule self e t global
  | Deschedule self e => deschedule self e
  | Reschedule self e t always => reschedule self e t always
  | Squash e => squash e
  | NewEvent p f => Event_Event p f ;; mret tt
  | DeleteEvent e => delete_Event e
  end.

Definition ticks (s : Sim) : list Z := _curTick <$> mainEventQueue s.
(** the invariant, with the time of all queues *)
Definition at_times (T : list Z) (s : Sim) : Prop := ticks s = T ∧ ∃ ags, sim_ok s ags.
Definition no_loop : fault → Prop := λ f, f ≠ OutOfFuel.

Lemma stepped_ticks self q h hd s : mainEventQueue s !z self = Some q → ticks (stepped self q h hd (_curTick q) s) = ticks s.
Proof.
  intros Hq. unfold ticks, stepped. simpl. apply list_eq. intros i. rewrite !list_lookup_fmap.
  destruct (decide (Z.of_nat i = self)) as [<-|Hne].
  - rewrite <-!vlookup_nat. rewrite vlookup_vinsert_eq by (by eapply vlookup_Some_range). by rewrite Hq.
  - rewrite <-!vlookup_nat. by rewrite vlookup_vinsert_ne.
Qed.
Lemma at_times_step s ags self q ag ag' e h hd T : sim_ok s ags → mainEventQueue s !z self = Some q → ags !z self = Some ag →
  ticks s = T → queue_step s ags self q ag ag' e h hd (_curTick q) → at_times T (stepped self q h hd (_curTick q) s).
Proof.
  intros Hok Hq Hag HT Hs. split; [by rewrite stepped_ticks|]. eexists. by eapply sim_ok_step.
Qed.
Lemma queue_agenda s ags self q : sim_ok s ags → mainEventQueue s !z self = Some q → ∃ ag, ags !z self = Some ag.
Proof.
  intros [_ Hlen _ _] Hq. apply vlookup_is_Some. apply vlookup_Some_range in Hq. unfold zlength in *. by rewrite Hlen.
Qed.

Lemma event_at_dead e s : (∀ ev, ¬ live (events s) e ev) → event_at e s = Fault NullDeref.
Proof. unfold live, event_at. intros H. destruct (events s !! e) as [[ev|]|]; [by destruct (H ev)|done|done]. Qed.
Lemma on_eventq_out {A} self (m : M EventQueue A) s : mainEventQueue s !z self = None → on_eventq self m s = Fault OutOfRange.
Proof. intros Hq. unfold on_eventq, zoom, zoom_at. by rewrite Hq. Qed.
Lemma live_dec h e : (∃ ev, live h e ev) ∨ ∀ ev, ¬ live h e ev.
Proof. unfold live. destruct (h !! e) as [[ev|]|]; [left; by exists ev|right; intros ? [=]|right; intros ? [=]]. Qed.

(** an event of another queue is not removed *)
Lemma remove_foreign self e ev s : live (events s) e ev → ev_queue ev ≠ Some self →
  ∃ f, EventQueue_remove self e s = Fault f ∧ no_loop f.
Proof.
  intros He Hne. unfold EventQueue_remove. destruct (mainEventQueue s !z self) as [q|] eqn:Hq.
  - destruct (eq_head q) as [h|] eqn:Hh.
    + exists AssertFailed. split; [|done]. eapply bind_Ok; [by apply ask_eventq_run|]. rewrite Hh.
      eapply bind_Ok; [by apply event_at_run|]. by apply check_fails, bool_decide_false.
    + exists ExitCalled. split; [|done]. eapply bind_Ok; [by apply ask_eventq_run|]. by rewrite Hh.
  - exists OutOfRange. split; [|done]. by apply bind_Fault, on_eventq_out.
Qed.

Section operations.
Context (T : list Z).
Notation keeps m := (triple_or no_loop (at_times T) m (λ _, at_times T)).

Lemma or_fault {A} (m : M Sim A) (Q : A → Sim → Prop) s f : m s = Fault f → no_loop f →
  match m s with Ok (a, s') => Q a s' | Fault f => no_loop f end.
Proof. by intros ->. Qed.
Lemma or_ok {A} (m : M Sim A) (Q : A → Sim → Prop) s a s' : m s = Ok (a, s') → Q a s' →
  match m s with Ok (a, s') => Q a s' | Fault f => no_loop f end.
Proof. by intros ->. Qed.

Lemma keeps_schedule self e t global : keeps (schedule self e t global).
Proof.
  intros s [HT [ags Hok]]. destruct (mainEventQueue s !z self) as [q|] eqn:Hq.
  2: { eapply or_fault; [by apply bind_Fault, on_eventq_out|done]. }
  destruct (queue_agenda s ags self q Hok Hq) as [ag Hag].
  destruct (decide (_curTick q ≤ t)) as [Ht|Ht].
  2: { apply (or_fault _ _ _ AssertFailed); [|done]. eapply bind_Ok; [by apply ask_eventq_run|].
       apply check_fails, bool_decide_false. lia. }
  assert (Hstart : ∀ X k, (ev ← event_at e; check (negb (scheduled ev)) ;; check (initialized ev) ;; k ev) s = X →
    (now ← on_eventq self (gets _curTick); check (bool_decide (t >= now)) ;;
     ev ← event_at e; check (negb (scheduled ev)) ;; check (initialized ev) ;; k ev) s = X :> res (unit * Sim)).
  { intros X k HX. eapply bind_Ok; [by apply ask_eventq_run|]. apply check_run; [apply bool_decide_true; lia|done]. }
  destruct (live_dec (events s) e) as [[ev He]|He].
  2: { eapply or_fault; [by apply Hstart, bind_Fault, event_at_dead|done]. }
  destruct (scheduled ev) eqn:Hs.
  { apply (or_fault _ _ _ AssertFailed); [|done]. apply Hstart. eapply bind_Ok; [by apply event_at_run|]. apply check_fails. by rewrite Hs. }
  destruct (initialized ev) eqn:Hi.
  - destruct (schedule_run s ags self q ag e ev t global) as (h & hd & Hrun & Hstep & _); try done.
    eapply or_ok; [exact Hrun|]. by eapply at_times_step.
  - apply (or_fault _ _ _ AssertFailed); [|done]. apply Hstart. eapply bind_Ok; [by apply event_at_run|].
    apply check_run; [by rewrite Hs|]. by apply check_fails.
Qed.

Lemma keeps_deschedule self e : keeps (deschedule self e).
Proof.
  intros s [HT [ags Hok]]. destruct (live_dec (events s) e) as [[ev He]|He].
  2: { eapply or_fault; [by apply bind_Fault, event_at_dead|done]. }
  destruct (scheduled ev) eqn:Hs.
  2: { apply (or_fault _ _ _ AssertFailed); [|done]. eapply bind_Ok; [by apply event_at_run|]. by apply check_fails. }
  destruct (so_sched s ags Hok e ev He Hs) as (i & ag & Hqe & Hag & Hin).
  assert (∃ q, mainEventQueue s !z i = Some q) as [q Hq].
  { apply vlookup_is_Some. apply vlookup_Some_range in Hag. unfold zlength in *. by rewrite <-(so_length s ags Hok). }
  destruct (decide (i = self)) as [->|Hne].
  - destruct (deschedule_run s ags self q ag e ev) as (h & hd & Hrun & Hstep & _); try done.
    eapply or_ok; [exact Hrun|]. by eapply at_times_step.
  - destruct (agenda_event s ags i q ag e ev) as (_ & _ & Hi); try done.
    destruct (remove_foreign self e ev s He) as (f & Hf & Hl); [congruence|].
    apply (or_fault _ _ _ f); [|done]. eapply bind_Ok; [by apply event_at_run|]. do 2 (apply check_run; [done|]).
    eapply bind_Ok; [by apply may_touch_run, (so_serial s ags Hok)|]. apply check_run; [done|]. by apply bind_Fault.
Qed.

Lemma keeps_reschedule self e t always : keeps (reschedule self e t always).
Proof.
  intros s [HT [ags Hok]]. destruct (mainEventQueue s !z self) as [q|] eqn:Hq.
  2: { eapply or_fault; [by apply bind_Fault, on_eventq_out|done]. }
  destruct (queue_agenda s ags self q Hok Hq) as [ag Hag].
  destruct (decide (_curTick q ≤ t)) as [Ht|Ht].
  2: { apply (or_fault _ _ _ AssertFailed); [|done]. eapply bind_Ok; [by apply ask_eventq_run|].
       apply check_fails, bool_decide_false. lia. }
  assert (Hstart : ∀ X k, (ev ← event_at e; check (always || scheduled ev) ;; check (initialized ev) ;; k ev) s = X →
    (now ← on_eventq self (gets _curTick); check (bool_decide (t >= now)) ;;
     ev ← event_at e; check (always || scheduled ev) ;; check (initialized ev) ;; k ev) s = X :> res (unit * Sim)).
  { intros X k HX. eapply bind_Ok; [by apply ask_eventq_run|]. apply check_run; [apply bool_decide_true; lia|done]. }
  destruct (live_dec (events s) e) as [[ev He]|He].
  2: { eapply or_fault; [by apply Hstart, bind_Fault, event_at_dead|done]. }
  destruct (always || scheduled ev) eqn:Hal.
  2: { apply (or_fault _ _ _ AssertFailed); [|done]. apply Hstart. eapply bind_Ok; [by apply event_at_run|]. by apply check_fails. }
  destruct (initialized ev) eqn:Hi.
  2: { apply (or_fault _ _ _ AssertFailed); [|done]. apply Hstart. eapply bind_Ok; [by apply event_at_run|].
       apply check_run; [done|]. by apply check_fails. }
  destruct (decide (e ∈ ag.*2 ∨ (always = true ∧ scheduled ev = false))) as [Hc|Hc].
  - destruct (reschedule_run s ags self q ag e ev t always) as (h & hd & Hrun & Hstep); try done.
    eapply or_ok; [exact Hrun|]. by eapply at_times_step.
  - assert (Hs : scheduled ev = true).
    { destruct (scheduled ev) eqn:E; [done|]. exfalso. apply Hc. right. by destruct always. }
    destruct (so_sched s ags Hok e ev He Hs) as (i & ag2 & Hqe & Hag2 & Hin).
    destruct (remove_foreign self e ev s He) as (f & Hf & Hl).
    { intros Heq. assert (i = self) as -> by congruence. apply Hc. left. congruence. }
    apply (or_fault _ _ _ f); [|done]. apply Hstart. eapply bind_Ok; [by apply event_at_run|]. do 2 (apply check_run; [done|]).
    eapply bind_Ok; [by apply may_touch_run, (so_serial s ags Hok)|]. apply check_run; [done|]. rewrite Hs. by apply bind_Fault.
Qed.

Lemma keeps_delete e : keeps (delete_Event e).
Proof.
  intros s [HT [ags Hok]]. destruct (live_dec (events s) e) as [[ev He]|He].
  2: { eapply or_fault; [by apply bind_Fault, event_at_dead|done]. }
  destruct (scheduled ev) eqn:Hs.
  { apply (or_fault _ _ _ AssertFailed); [|done]. eapply bind_Ok; [by apply event_at_run|]. apply check_fails. by rewrite Hs. }
  eapply or_ok.
  - eapply bind_Ok; [by apply event_at_run|]. apply check_run; [by rewrite Hs|]. reflexivity.
  - split; [done|]. exists ags. by eapply sim_ok_off.
Qed.

Lemma new_unscheduled p f : Z.land f (Z.land 0xffff (Z.lnot PublicWrite)) = 0 →
  scheduled (mkEvent None None 0 p (flags_set f Initialized) None) = false.
Proof.
  intros Hb. assert (Hbit : Z.testbit f 1 = false).
  { apply (f_equal (λ z, Z.testbit z 1)) in Hb. by rewrite Z.land_spec, Z.bits_0, andb_true_r in Hb. }
  rewrite scheduled_bit. cbn -[Z.testbit Z.lor]. unfold flags_set. by rewrite Z.lor_spec, Hbit.
Qed.
Lemma keeps_new p f : keeps (Event_Event p f ;; mret tt).
Proof.
  intros s [HT [ags Hok]]. unfold Event_Event.
  set (b := bool_decide (Z.land f (Z.land 0xffff (Z.lnot PublicWrite)) = 0)). destruct b eqn:Hb.
  - eapply or_ok; [reflexivity|]. split; [done|]. exists ags. apply sim_ok_new; [done|].
    apply new_unscheduled. by apply bool_decide_eq_true in Hb.
  - by eapply or_fault.
Qed.

Lemma keeps_squash e : keeps (squash e).
Proof.
  intros s [HT [ags Hok]]. destruct (live_dec (events s) e) as [[ev He]|He].
  - eapply or_ok; [by apply (on_event_run e (modify (λ ev, ev.{flags ::= flags_set Squashed})) s ev tt (ev.{flags ::= flags_set Squashed}))|].
    split; [done|]. exists ags. by apply sim_ok_squash.
  - apply (or_fault _ _ _ NullDeref); [|done]. unfold squash, on_event. unfold live in He.
    destruct (events s !! e) as [[ev|]|]; [by destruct (He ev)|done|done].
Qed.

Lemma keeps_op op : keeps (run_op op).
Proof.
  destruct op; [apply keeps_schedule|apply keeps_deschedule|apply keeps_reschedule|apply keeps_squash|apply keeps_new|apply keeps_delete].
Qed.
End operations.

(** ** Servicing *)

Lemma flat_sorted bs : StronglySorted klt bs.*1 → StronglySorted (λ x y : ev_key * ev_ptr, kle x.1 y.1) (flat bs).
Proof.
  induction bs as [|[k b] bs IH]; intros Hs; [constructor|]. apply StronglySorted_inv in Hs as [Hs Hall].
  assert (Hlater : Forall (λ x, kle k x.1) (flat bs)).
  { apply (flat_all (kle k)). apply Forall_forall. intros x Hx. rewrite Forall_forall in Hall.
    assert (H : klt k x.1) by (apply Hall; by apply list_elem_of_fmap_2). unfold klt, kle in *. lia. }
  clear Hall. apply IH in Hs. rewrite flat_cons. unfold flat1. cbn [fst snd].
  induction b as [|e b IHb]; [done|]. rewrite fmap_cons. simpl. constructor; [exact IHb|].
  apply Forall_app_2; [|done]. apply Forall_fmap, Forall_forall. intros x _. unfold kle. simpl. lia.
Qed.
Lemma on_agenda_sorted h p ag : on_agenda h p ag → StronglySorted (λ x y, kle x.1 y.1) ag.
Proof. intros (bs & (_ & _ & Hs & _) & <-). by apply flat_sorted. Qed.
Lemma on_agenda_head h p k e ag : on_agenda h p ((k, e) :: ag) →
  p = Some e ∧ e ∉ ag.*2 ∧ (∃ ev, live h e ev ∧ ekey ev = k) ∧ Forall (λ x, k.1 ≤ x.1.1) ag.
Proof.
  intros Hon. pose proof (on_agenda_sorted _ _ _ Hon) as Hs. apply StronglySorted_inv in Hs as [_ Hs].
  destruct Hon as (bs & (Hb & Hk & _ & Hd) & Hf). destruct bs as [|[k' b] bs]; [done|].
  destruct Hb as (t & b' & tv & -> & -> & Ht & _ & _). rewrite Hf in Hk, Hd. injection Hf as -> -> Hf.
  apply Forall_cons in Hk as [Hk _]. apply NoDup_cons in Hd as [Hd _]. split; [done|]. split; [done|]. split; [exact Hk|].
  eapply Forall_impl; [exact Hs|]. intros x. unfold kle. clear. destruct k, x as [[? ?] ?]. simpl. lia.
Qed.
Lemma on_agenda_empty h p : on_agenda h p [] → p = None.
Proof.
  intros (bs & (Hb & _) & Hf). destruct bs as [|[k b] bs]; [done|]. destruct Hb as (e & b' & ev & -> & _). done.
Qed.

Section service.
Variable process : ev_ptr → M Sim unit.

(** what [serviceOne] does after the event is off the list *)
Definition service_rest (e : ev_ptr) : M Sim (option ev_ptr) :=
  process e ;;
  ev ← event_at e;
  if isExitEvent ev then
    check (negb (isManaged ev) || negb (isSet (flags ev) IsMainQueue)) ;;
    mret (Some e)
  else release e ;; mret None.
Definition squashed_rest (e : ev_ptr) : M Sim (option ev_ptr) :=
  on_event e (modify (λ e, e.{flags ::= flags_clear Squashed})) ;; release e ;; mret None.

(** the head is taken off as [EventQueue_remove] would do it *)
Lemma pop_is_remove self q e ev s : mainEventQueue s !z self = Some q → eq_head q = Some e → live (events s) e ev →
  ev_queue ev = Some self →
  (match nextInBin ev with
   | Some next =>
       on_event next (modify (λ e, e.{nextBin := nextBin ev})) ;;
       on_eventq self (modify (λ q, q.{eq_head := Some next}))
   | None => on_eventq self (modify (λ q, q.{eq_head := nextBin ev}))
   end) s = EventQueue_remove self e s.
Proof.
  intros Hq Hh He Hqe. symmetry. unfold EventQueue_remove. eapply bind_Ok; [by apply ask_eventq_run|]. rewrite Hh.
  eapply bind_Ok; [by apply event_at_run|]. apply check_run; [by apply bool_decide_true|].
  eapply bind_Ok; [by apply event_at_run|]. rewrite ev_eq_key, bool_decide_true by done.
  unfold removeItem, mbind, M_bind. rewrite (event_at_run _ _ _ He), decide_True by done.
  destruct (nextInBin ev) as [n|]; [|done]. by destruct (on_event n _ s) as [[[] s']|].
Qed.

Lemma serviceOne_eq s ags self q ag k e : sim_ok s ags → mainEventQueue s !z self = Some q → ags !z self = Some ((k, e) :: ag) →
  ∃ ev ev1 h hd, eq_head q = Some e ∧ live (events s) e ev ∧ ekey ev = k ∧ live h e ev1 ∧ (flags ev1 = flags (clear_sched ev) ∧ ekey ev1 = k) ∧
    serviceOne process self s =
      (if squashed ev then squashed_rest e (stepped self q h hd (_curTick q) s)
       else service_rest e (stepped self q h hd k.1 s)) ∧
    ∀ now, now ≤ k.1 → queue_step s ags self q ((k, e) :: ag) ag e h hd now.
Proof.
  intros Hok Hq Hag. destruct (so_queue s ags Hok self q _ Hq Hag) as [Hon Hev Htime _].
  destruct (on_agenda_head _ _ _ _ _ Hon) as (Hh & Hn & (ev & He & Hk) & Hlater).
  assert (Hin : e ∈ ((k, e) :: ag).*2) by by left.
  destruct (elem_other _ _ _ _ _ Hev Hin He) as (Hqe & Hs & Hi).
  set (h0 := <[e := Some (clear_sched ev)]> (events s)). set (s0 := s.{events := h0}).
  assert (He0 : live h0 e (clear_sched ev)) by (apply list_lookup_insert_eq; by eapply live_lt).
  destruct (dequeue_run s0 self q ((k, e) :: ag) e (clear_sched ev)) as (h & hd & ev1 & Hrun & Hon1 & He1 & Hu & Hc & Hf);
    [done|by apply on_agenda_flags|done|done|done|].
  rewrite ag_remove_here in Hon1 by done. apply unlinked_facts in Hu as (Hfl & _ & Hk1).
  destruct (clear_sched_flags ev) as (F1 & _ & _ & _).
  assert (Hs1 : scheduled ev1 = false) by (unfold scheduled in *; by rewrite Hfl).
  exists ev, ev1, h, hd. do 4 (split; [done|]). split; [split; [done|by rewrite Hk1]|]. split.
  - unfold serviceOne. eapply bind_Ok; [by apply ask_eventq_run|]. eapply bind_Ok; [by rewrite Hh|].
    eapply bind_Ok; [by apply event_at_run|].
    eapply bind_Ok; [by apply (on_event_run e (modify (λ e, e.{flags ::= flags_clear Scheduled})) s ev tt (clear_sched ev))|].
    change (nextInBin ev) with (nextInBin (clear_sched ev)). change (nextBin ev) with (nextBin (clear_sched ev)).
    eapply bind_Ok; [etrans; [by apply (pop_is_remove self q e (clear_sched ev) s0)|exact Hrun]|].
    destruct (squashed ev) eqn:Hsq; cbn [negb].
    + unfold stepped, with_head, s0. simpl. by destruct q.
    + eapply bind_Ok; [apply (on_eventq_run self _ (with_head self q h hd s0) (q.{eq_head := hd}) tt (q.{eq_head := hd}.{_curTick := _when ev}));
        [apply vlookup_vinsert_eq; by eapply vlookup_Some_range|done]|].
      unfold with_head. cbn [mainEventQueue]. subst k. unfold stepped, s0, service_rest. simpl. by rewrite vinsert_vinsert.
  - intros now Hnow. split.
    + done.
    + intros x Hx Hx'. rewrite Hf by done. by apply list_lookup_insert_ne.
    + intros x Hx. rewrite Hc. by apply contents_other.
    + intros x Hx. rewrite fmap_cons, elem_of_cons. naive_solver.
    + rewrite decide_False by done. intros ev' He'. assert (ev' = ev1) as -> by (unfold live in *; congruence). done.
    + by eapply only_agenda.
    + eapply Forall_impl; [exact Hlater|]. intros x Hx. simpl in Hx. lia.
Qed.
End service.
