(* ===== verification/EventTime.v ===== *)
(** * Simulated time

    What the event queue promises to the rest of the simulator: its pointers
    implement a sorted agenda, and time never goes backwards whatever the handlers
    of the events do through the public methods. *)

From S2P Require Import Prelude EventQueue EventLinks EventRun.

(** ** Handlers that use the public methods *)

Section scripts.
(** the operations the handler of an event performs, chosen from the state it finds *)
Variable script : ev_ptr → Sim → list ev_op.
Definition handler (e : ev_ptr) : M Sim unit := s ← get; for_each (script e s) run_op.

(** [n] calls of [serviceOne], with the events serviced and their times *)
Fixpoint history (n : nat) (self : Z) : M Sim (list (ev_ptr * Z)) :=
  match n with
  | O => mret []
  | S n =>
      hd ← on_eventq self (gets eq_head);
      match hd with
      | None => mret []
      | Some e =>
          ev ← event_at e;
          serviceOne handler self ;;
          l ← history n self;
          mret ((e, _when ev) :: l)
      end
  end.

Lemma keeps_handler T e : triple_or no_loop (at_times T) (handler e) (λ _, at_times T).
Proof.
  intros s Hs. unfold handler, mbind, M_bind, get. revert s Hs.
  enough (∀ l, triple_or no_loop (at_times T) (for_each l run_op) (λ _, at_times T)) as H by (intros s Hs; by apply H).
  intros l. apply triple_or_for_each. intros op _. apply keeps_op.
Qed.
Lemma keeps_release T e : triple_or no_loop (at_times T) (release e) (λ _, at_times T).
Proof.
  intros s [HT [ags Hok]]. destruct (live_dec (events s) e) as [[ev He]|He].
  2: { eapply or_fault; [by apply bind_Fault, event_at_dead|done]. }
  assert (Hs : s.{events := events s} = s) by by destruct s.
  pose proof (release_run _ e ev s He) as Hr. rewrite Hs in Hr. rewrite Hr.
  destruct (isManaged ev && negb (scheduled ev)) eqn:Hc; [|rewrite Hs; split; [done|by exists ags]].
  split; [done|]. exists ags. apply andb_true_iff in Hc as [_ Hc%negb_true_iff]. by eapply sim_ok_off.
Qed.
Lemma keeps_rest T e : triple_or no_loop (at_times T) (service_rest handler e) (λ _, at_times T).
Proof.
  unfold service_rest. eapply (triple_or_bind _ _ _ (λ _, at_times T)); [apply keeps_handler|]. intros [].
  eapply (triple_or_bind _ _ _ (λ _, at_times T)).
  { intros s Hs. destruct (live_dec (events s) e) as [[ev He]|He]; [by rewrite (event_at_run _ _ _ He)|].
    by rewrite (event_at_dead _ _ He). }
  intros ev. destruct (isExitEvent ev).
  - intros s Hs. destruct (negb (isManaged ev) || negb (isSet (flags ev) IsMainQueue)); [exact Hs|]. done.
  - eapply (triple_or_bind _ _ _ (λ _, at_times T)); [apply keeps_release|]. intros []. by intros s Hs.
Qed.

(** the events of the agenda of [self] are not before [b] *)
Definition not_before (b self : Z) (s : Sim) : Prop :=
  ∃ ags ag, sim_ok s ags ∧ ags !z self = Some ag ∧ Forall (λ x, b ≤ x.1.1) ag.

Lemma ticks_at s self q : mainEventQueue s !z self = Some q → ticks s !z self = Some (_curTick q).
Proof.
  unfold ticks, vlookup. case_decide; [|done]. rewrite list_lookup_fmap. by intros ->.
Qed.
Lemma at_times_not_before s T self b : at_times T s → T !z self = Some b → not_before b self s.
Proof.
  intros [<- [ags Hok]] Hb. assert (∃ q, mainEventQueue s !z self = Some q) as [q Hq].
  { apply vlookup_is_Some. apply vlookup_Some_range in Hb. unfold ticks, zlength in *. by rewrite length_fmap in Hb. }
  rewrite (ticks_at _ _ _ Hq) in Hb. injection Hb as <-. destruct (queue_agenda s ags self q Hok Hq) as [ag Hag].
  exists ags, ag. split; [done|]. split; [done|]. by apply (so_queue s ags Hok self q ag Hq Hag).
Qed.

Lemma serviceOne_time s ags self q ag k e : sim_ok s ags → mainEventQueue s !z self = Some q →
  ags !z self = Some ((k, e) :: ag) →
  match serviceOne handler self s with Ok (_, s') => not_before k.1 self s' | Fault f => no_loop f end.
Proof.
  intros Hok Hq Hag. destruct (serviceOne_eq handler s ags self q ag k e Hok Hq Hag)
    as (ev & ev1 & h & hd & Hh & He & Hk & He1 & (Hfl & Hk1) & -> & Hstep).
  destruct (clear_sched_flags ev) as (Hs1 & _). unfold scheduled in Hs1. rewrite <-Hfl in Hs1. fold (scheduled ev1) in Hs1.
  destruct (so_queue s ags Hok self q _ Hq Hag) as [Hon _ Htime _].
  destruct (on_agenda_head _ _ _ _ _ Hon) as (_ & _ & _ & Hlater).
  apply Forall_cons in Htime as [Hnow _]. simpl in Hnow. destruct (squashed ev).
  - set (s1 := stepped self q h hd (_curTick q) s).
    assert (Hok1 : sim_ok s1 (vinsert self ag ags)) by (eapply sim_ok_step; [done|done|done|by apply Hstep]).
    set (ev2 := clear_squashed ev1). set (h2 := <[e := Some ev2]> h). set (s2 := s1.{events := h2}).
    destruct (clear_squashed_flags ev1) as (F & _).
    assert (Hs2 : scheduled ev2 = false) by (unfold ev2; congruence).
    assert (Hok2 : sim_ok s2 (vinsert self ag ags)).
    { apply (sim_ok_off s1 _ e ev1 (Some ev2)); [done|done|done|by intros ? [= <-]]. }
    assert (He2 : live h2 e ev2) by (apply list_lookup_insert_eq; by eapply live_lt).
    unfold squashed_rest, mbind, M_bind.
    rewrite (on_event_run e (modify (λ e, e.{flags ::= flags_clear Squashed})) s1 ev1 tt ev2) by done.
    change (s1.{events := <[e := Some ev2]> (events s1)}) with (s1.{events := h2}). rewrite (release_run h2 e ev2 s1 He2).
    exists (vinsert self ag ags), ag. split; [|split; [apply vlookup_vinsert_eq; by eapply vlookup_Some_range|exact Hlater]].
    destruct (isManaged ev2 && negb (scheduled ev2)); [|exact Hok2].
    apply (sim_ok_off s2 _ e ev2 None); done.
  - set (s1 := stepped self q h hd k.1 s).
    assert (Hq1 : mainEventQueue s1 !z self = Some (q.{eq_head := hd}.{_curTick := k.1}))
      by (apply vlookup_vinsert_eq; by eapply vlookup_Some_range).
    assert (H1 : at_times (ticks s1) s1).
    { split; [done|]. exists (vinsert self ag ags). eapply sim_ok_step; [done|done|done|by apply Hstep]. }
    pose proof (keeps_rest (ticks s1) e s1 H1) as H. destruct (service_rest handler e s1) as [[r s']|f]; [|exact H].
    eapply at_times_not_before; [exact H|]. exact (ticks_at s1 self _ Hq1).
Qed.

Lemma history_sorted n self : ∀ s b, not_before b self s →
  match history n self s with
  | Ok (l, s') => StronglySorted Z.le (b :: l.*2) ∧ ∃ ags, sim_ok s' ags
  | Fault f => no_loop f
  end.
Proof.
  induction n as [|n IH]; intros s b (ags & ag & Hok & Hag & Hb).
  { simpl. split; [by repeat constructor|]. by exists ags. }
  assert (∃ q, mainEventQueue s !z self = Some q) as [q Hq].
  { apply vlookup_is_Some. apply vlookup_Some_range in Hag. unfold zlength in *. by rewrite <-(so_length s ags Hok). }
  destruct (so_queue s ags Hok self q ag Hq Hag) as [Hon _ _ _]. simpl. unfold mbind at 1, M_bind at 1.
  rewrite (ask_eventq_run self eq_head s q Hq). destruct ag as [|[k e] ag].
  { rewrite (on_agenda_empty _ _ Hon). split; [by repeat constructor|]. by exists ags. }
  destruct (on_agenda_head _ _ _ _ _ Hon) as (-> & _ & (ev & He & Hk) & _).
  unfold mbind at 1, M_bind at 1. rewrite (event_at_run _ _ _ He). unfold mbind at 1, M_bind at 1.
  pose proof (serviceOne_time s ags self q ag k e Hok Hq Hag) as H.
  destruct (serviceOne handler self s) as [[r s1]|f]; [|exact H]. specialize (IH s1 k.1 H).
  unfold mbind at 1, M_bind at 1. destruct (history n self s1) as [[l s']|f]; [|exact IH]. destruct IH as [IH Hok']. split; [|done].
  apply Forall_cons in Hb as [Hb _]. simpl in Hb. simpl. subst k. constructor; [exact IH|].
  apply StronglySorted_inv in IH as [_ IH]. constructor; [exact Hb|]. eapply Forall_impl; [exact IH|]. simpl in *. lia.
Qed.
End scripts.

(** ** The agenda as a specification *)

(** the calls the assertions of the methods let through *)
Definition allowed (s : Sim) (ags : list agenda) (op : ev_op) : Prop :=
  match op with
  | Schedule self e t _ => ∃ q ev, mainEventQueue s !z self = Some q ∧ live (events s) e ev ∧
      scheduled ev = false ∧ initialized ev = true ∧ _curTick q ≤ t
  | Deschedule self e => ∃ ag, ags !z self = Some ag ∧ e ∈ ag.*2
  | Reschedule self e t always => ∃ q ag ev, mainEventQueue s !z self = Some q ∧ ags !z self = Some ag ∧
      live (events s) e ev ∧ initialized ev = true ∧ _curTick q ≤ t ∧ (e ∈ ag.*2 ∨ (always = true ∧ scheduled ev = false))
  | Squash e => ∃ ev, live (events s) e ev
  | NewEvent _ f => Z.land f (Z.land 0xffff (Z.lnot PublicWrite)) = 0
  | DeleteEvent e => ∃ ev, live (events s) e ev ∧ scheduled ev = false
  end.
Definition priority_of (s : Sim) (e : ev_ptr) : Z :=
  match events s !! e with Some (Some ev) => _priority ev | _ => 0 end.
Definition spec_op (s : Sim) (op : ev_op) (ags : list agenda) : list agenda :=
  match op with
  | Schedule self e t _ => vinsert self (ag_insert (t, priority_of s e) e (vat [] ags self)) ags
  | Deschedule self e => vinsert self (ag_remove e (vat [] ags self)) ags
  | Reschedule self e t _ => vinsert self (ag_insert (t, priority_of s e) e (ag_remove e (vat [] ags self))) ags
  | _ => ags
  end.

Lemma vat_Some {A} (d x : A) l i : l !z i = Some x → vat d l i = x.
Proof. unfold vat. by intros ->. Qed.
Lemma priority_of_live s e ev : live (events s) e ev → priority_of s e = _priority ev.
Proof. unfold live, priority_of. by intros ->. Qed.
Lemma agenda_queue s ags self ag : sim_ok s ags → ags !z self = Some ag → ∃ q, mainEventQueue s !z self = Some q.
Proof.
  intros Hok Hag. apply vlookup_is_Some. apply vlookup_Some_range in Hag. unfold zlength in *. by rewrite <-(so_length s ags Hok).
Qed.
Lemma agenda_live s ags self ag e : sim_ok s ags → ags !z self = Some ag → e ∈ ag.*2 → ∃ ev, live (events s) e ev.
Proof.
  intros Hok Hag (x & -> & Hx)%list_elem_of_fmap. destruct (agenda_queue s ags self ag Hok Hag) as [q Hq].
  destruct (so_queue s ags Hok self q ag Hq Hag) as [_ Hev _ _]. rewrite Forall_forall in Hev.
  destruct (Hev x Hx) as (ev & He & _). by exists ev.
Qed.

(** a system whose events are all off the queues *)
Lemma sim_ok_fresh s : inParallelMode s = false → (∀ e ev, live (events s) e ev → scheduled ev = false) →
  Forall (λ q, eq_head q = None ∧ async_queue q = []) (mainEventQueue s) →
  sim_ok s (replicate (length (mainEventQueue s)) []).
Proof.
  intros Hp Hs Hq. split; [done|by rewrite length_replicate| |].
  - intros i q ag Hi Hag. apply vlookup_elem_of, elem_of_replicate in Hag as [-> _].
    destruct (Forall_vlookup _ _ _ _ Hq Hi) as [Hh Ha]. split; [|done|done|done]. rewrite Hh. exists [].
    split; [|done]. split; [done|]. split; [constructor|]. split; constructor.
  - intros e ev He Hse. by rewrite (Hs e ev He) in Hse.
Qed.

(** one event on the queue 0 and one off it *)
Definition one_scheduled (t p : Z) : Sim :=
  mkSim [Some (mkEvent None None t p 0x7a42 (Some 0)); Some (mkEvent None None 0 0 0x7a40 None)]
    [mkEventQueue (Some 0%nat) 0 []] false None.
Lemma one_scheduled_ok t p : 0 ≤ t → sim_ok (one_scheduled t p) [[((t, p), 0%nat)]].
Proof.
  intros Ht. split; [done|done| |].
  - intros i q ag Hq Hag. assert (i = 0) as -> by (apply vlookup_Some_range in Hq; unfold zlength in Hq; simpl in Hq; lia).
    injection Hq as <-. injection Hag as <-.
    assert (H0 : live (events (one_scheduled t p)) 0 (mkEvent None None t p 0x7a42 (Some 0))) by done.
    split; [| |by repeat constructor|done].
    + exists [((t, p), [0%nat])]. split; [|done]. split; [by eexists _, _, _|]. split; [|split; repeat constructor; set_solver].
      repeat constructor. by eexists.
    + repeat constructor. by eexists.
  - intros e ev He Hs. destruct e as [|[|e]]; unfold live in He; simpl in He; [|injection He as <-; done|done].
    injection He as <-. exists 0, [((t, p), 0%nat)]. split; [done|]. split; [done|]. by left.
Qed.

(** ** Properties *)

(** C4: The event queues implement agendas.  Every call of a public method
    that its assertions let through returns and changes the linked lists of
    its queue, and nothing else of any queue, as the agenda says: [schedule] puts the
    event before the first event that is not earlier in time and priority, so events of
    the same time and priority are last in, first out; [deschedule] takes exactly
    this event away and leaves the order of the others; [reschedule] does the one after the other. *)
Theorem scheduling_refines_agendas s ags op : sim_ok s ags → allowed s ags op →
  ∃ s', run_op op s = Ok (tt, s') ∧ sim_ok s' (spec_op s op ags) ∧ ticks s' = ticks s.
Proof.
  intros Hok Ha.
  assert (Hstep : ∀ self q ag ag' e h hd m, mainEventQueue s !z self = Some q → ags !z self = Some ag →
    m s = Ok (tt, stepped self q h hd (_curTick q) s) → queue_step s ags self q ag ag' e h hd (_curTick q) →
    ∃ s', m s = Ok (tt, s') ∧ sim_ok s' (vinsert self ag' ags) ∧ ticks s' = ticks s).
  { intros self q ag ag' e h hd m Hq Hag Hrun Hs. eexists. split; [exact Hrun|].
    split; [by eapply sim_ok_step|by apply stepped_ticks]. }
  destruct op as [self e t global|self e|self e t always|e|p f|e]; simpl in *.
  - destruct Ha as (q & ev & Hq & He & Hs & Hi & Ht). destruct (queue_agenda s ags self q Hok Hq) as [ag Hag].
    destruct (schedule_run s ags self q ag e ev t global) as (h & hd & Hrun & Hqs & _); try done.
    rewrite (vat_Some _ _ _ _ Hag), (priority_of_live _ _ _ He). by eapply Hstep.
  - destruct Ha as (ag & Hag & Hin). destruct (agenda_queue s ags self ag Hok Hag) as [q Hq].
    destruct (agenda_live s ags self ag e Hok Hag Hin) as [ev He].
    destruct (deschedule_run s ags self q ag e ev) as (h & hd & Hrun & Hqs & _); try done.
    rewrite (vat_Some _ _ _ _ Hag). by eapply Hstep.
  - destruct Ha as (q & ag & ev & Hq & Hag & He & Hi & Ht & Hc).
    destruct (reschedule_run s ags self q ag e ev t always) as (h & hd & Hrun & Hqs); try done.
    rewrite (vat_Some _ _ _ _ Hag), (priority_of_live _ _ _ He). by eapply Hstep.
  - destruct Ha as [ev He]. eexists. split; [|split; [by eapply sim_ok_squash|done]].
    by apply (on_event_run e (modify (λ ev, ev.{flags ::= flags_set Squashed})) s ev tt (ev.{flags ::= flags_set Squashed})).
  - unfold Event_Event. rewrite bool_decide_true by done. eexists. split; [reflexivity|]. split; [|done].
    apply sim_ok_new; [done|]. by apply new_unscheduled.
  - destruct Ha as (ev & He & Hs). eexists. split; [|split; [by eapply (sim_ok_off s ags e ev None)|done]].
    eapply bind_Ok; [by apply event_at_run|]. apply check_run; [by rewrite Hs|]. reflexivity.
Qed.

Lemma scheduling_refines_agendas_witness :
  ∃ s', run_op (Schedule 0 1 7 false) (one_scheduled 7 0) = Ok (tt, s') ∧
    sim_ok s' [[((7, 0), 1%nat); ((7, 0), 0%nat)]] ∧ ticks s' = [0].
Proof.
  apply (scheduling_refines_agendas (one_scheduled 7 0) [[((7, 0), 0%nat)]] (Schedule 0 1 7 false)).
  - apply one_scheduled_ok. lia.
  - eexists _, _. do 4 (split; [reflexivity|]). simpl. lia.
Defined.

(** C11: Time never goes backwards.  Whatever the handlers of the events
    schedule, deschedule, reschedule, squash, create and delete through the
    public methods, in any number of calls of [serviceOne] the events are
    serviced in the order of their times, none before the current time of the queue, and the
    queues stay sorted without losing or duplicating an event; a call can only fail where an assertion of
    the queue, a deleted event or a missing queue stops it, and no search in the linked lists runs on for ever. *)
Theorem time_never_goes_backwards script n self s ags q :
  sim_ok s ags → mainEventQueue s !z self = Some q →
  match history script n self s with
  | Ok (l, s') => StronglySorted Z.le (_curTick q :: l.*2) ∧ ∃ ags', sim_ok s' ags'
  | Fault f => f ≠ OutOfFuel
  end.
Proof.
  intros Hok Hq. destruct (queue_agenda s ags self q Hok Hq) as [ag Hag].
  pose proof (history_sorted script n self s (_curTick q)) as H. unfold no_loop in H. apply H.
  exists ags, ag. split; [done|]. split; [done|]. by apply (so_queue s ags Hok self q ag Hq Hag).
Qed.

(** the event 0 reschedules itself 5 ticks later each time, and once schedules the event 1 for now *)
Definition periodic (e : ev_ptr) (s : Sim) : list ev_op :=
  let now := vat 0 (ticks s) 0 in
  if decide (e = 0%nat) then Schedule 0 0 (now + 5) false :: (if decide (now = 7) then [Schedule 0 1 now false] else [])
  else [].
Lemma time_never_goes_backwards_witness :
  ∃ s', history periodic 4 0 (one_scheduled 7 0) = Ok ([(0%nat, 7); (1%nat, 7); (0%nat, 12); (0%nat, 17)], s') ∧
    StronglySorted Z.le [0; 7; 7; 12; 17].
Proof.
  pose proof (time_never_goes_backwards periodic 4 0 (one_scheduled 7 0) [[((7, 0), 0%nat)]] (mkEventQueue (Some 0%nat) 0 [])
    (one_scheduled_ok 7 0 ltac:(lia)) eq_refl) as H.
  destruct (history periodic 4 0 (one_scheduled 7 0)) as [[l s']|f] eqn:Hrun; vm_compute in Hrun; [|discriminate].
  injection Hrun as <- <-. eexists. split; [reflexivity|]. exact (proj1 H).
Defined.
