(* ===== verification/EventService.v ===== *)
(** * Servicing events up to a time

    [serviceEvents] calls the handler of every event that is due once, in the order of the
    agenda, whatever the handlers do to the agendas as long as they leave the events that are
    due alone. *)

From S2P Require Import Prelude EventQueue EventLinks EventRun EventTime.

(** an event that is live and off the queues may be changed or deleted *)
Lemma leave_run s ags e ev : sim_ok s ags → live (events s) e ev → scheduled ev = false →
  ∃ o, release e s = Ok (tt, s.{events := <[e := o]> (events s)}) ∧ sim_ok (s.{events := <[e := o]> (events s)}) ags ∧
    ∀ ev', o = Some ev' → ev' = ev.
Proof.
  intros Hok He Hs. pose proof (release_run (events s) e ev s He) as Hr.
  assert (Heq : s.{events := events s} = s) by by destruct s. rewrite Heq, Hs in Hr. rewrite Hr.
  destruct (isManaged ev); cbn [andb negb].
  - exists None. split; [done|]. split; [by eapply sim_ok_off|done].
  - exists (Some ev). rewrite (list_insert_id (events s) e (Some ev)) by exact He. split; [done|].
    split; [by rewrite Heq|by intros ? [= ->]].
Qed.

Section servicing.
Context (process : ev_ptr → M Sim unit) (self t : Z).
(** which events are squashed, and what the handler of an event does to the agendas *)
Context (sq : ev_ptr → bool) (effect : ev_key * ev_ptr → list agenda → list agenda).

Definition due (ag : agenda) : agenda := filter (λ x, x.1.1 ≤ t) ag.
(** no event that is due ends the simulation *)
Definition due_ok (h : heap) (ag : agenda) : Prop :=
  Forall (λ x, ∀ ev, live h x.2 ev → isExitEvent ev = false ∧ squashed ev = sq x.2) (due ag).

(** a handler returns, changes the agendas as [effect] says, and leaves the events that are due on the
    queue, and its own event, as far as they matter here *)
Definition handles : Prop :=
  ∀ x s ags q ag ev, sim_ok s ags → mainEventQueue s !z self = Some q → ags !z self = Some ag → _curTick q = x.1.1 →
    live (events s) x.2 ev → scheduled ev = false → initialized ev = true → ekey ev = x.1 → isExitEvent ev = false →
    x.1.1 ≤ t → due_ok (events s) ag →
    ∃ s' q' ag' ev', process x.2 s = Ok (tt, s') ∧ sim_ok s' (effect x ags) ∧ mainEventQueue s' !z self = Some q' ∧
      effect x ags !z self = Some ag' ∧ due ag' = due ag ∧ due_ok (events s') ag' ∧
      live (events s') x.2 ev' ∧ isExitEvent ev' = false.

(** the specification: the event is taken off its agenda, and handled unless it is squashed *)
Definition service_spec (ags : list agenda) (x : ev_key * ev_ptr) : list agenda :=
  let ags := vinsert self (tail (vat [] ags self)) ags in if sq x.2 then ags else effect x ags.

Lemma due_ok_frame h h' ag :
  (∀ x, x ∈ due ag → ∀ ev', live h' x.2 ev' → ∃ ev, live h x.2 ev ∧ flags ev' = flags ev) → due_ok h ag → due_ok h' ag.
Proof.
  intros Hf Hd. unfold due_ok in *. rewrite Forall_forall in Hd |- *. intros x Hx ev' Hev'.
  destruct (Hf x Hx ev' Hev') as (ev & Hev & Hfl). destruct (Hd x Hx ev Hev) as [H1 H2].
  unfold isExitEvent, squashed in *. by rewrite Hfl.
Qed.

Lemma due_ok_insert h ag e o : e ∉ (due ag).*2 → due_ok h ag → due_ok (<[e := o]> h) ag.
Proof.
  intros He. apply due_ok_frame. intros x Hx ev' Hev'. exists ev'. split; [|done]. unfold live in *.
  rewrite list_lookup_insert_ne in Hev'; [done|]. intros ->. apply He. by apply list_elem_of_fmap_2.
Qed.

Lemma unscheduled_not_due s ags e ev ag : sim_ok s ags → live (events s) e ev → scheduled ev = false →
  ags !z self = Some ag → e ∉ (due ag).*2.
Proof.
  intros Hok He Hs Hag Hin. apply (unscheduled_off s ags e ev self ag Hok He Hs Hag).
  apply list_elem_of_fmap in Hin as (x & -> & [_ Hx]%list_elem_of_filter). by apply list_elem_of_fmap_2.
Qed.

(** taking off an event that is due leaves the others due as they were *)
Lemma due_ok_step s ags q k e ag h hd now : due_ok (events s) ((k, e) :: ag) → e ∉ ag.*2 →
  queue_step s ags self q ((k, e) :: ag) ag e h hd now → due_ok h ag.
Proof.
  intros Hd Hn Hstep. apply (due_ok_frame (events s)).
  - intros x [_ Hx]%list_elem_of_filter ev' Hev'. assert (Hne : x.2 ≠ e) by (intros <-; by apply Hn, list_elem_of_fmap_2).
    destruct (contents_lookup _ _ _ (eq_sym (qs_contents _ _ _ _ _ _ _ _ _ _ Hstep x.2 Hne)) ev' Hev') as (ev & Hev & Hu).
    apply unlinked_facts in Hu as (Hfl & _). by exists ev.
  - unfold due_ok, due in *. rewrite filter_cons in Hd. case_decide; [|done]. by apply Forall_cons in Hd as [_ Hd].
Qed.

Lemma squashed_rest_run s ags e ev1 ag : sim_ok s ags → live (events s) e ev1 → scheduled ev1 = false → ags !z self = Some ag →
  due_ok (events s) ag → ∃ s', squashed_rest e s = Ok (None, s') ∧ sim_ok s' ags ∧ mainEventQueue s' = mainEventQueue s ∧
    due_ok (events s') ag.
Proof.
  intros Hok He Hs Hag Hd. set (ev2 := clear_squashed ev1). destruct (clear_squashed_flags ev1) as (F & _).
  set (s2 := s.{events := <[e := Some ev2]> (events s)}).
  assert (Hs2 : scheduled ev2 = false) by (unfold ev2; congruence).
  assert (Hok2 : sim_ok s2 ags) by (apply (sim_ok_off s ags e ev1); [done|done|done|by intros ? [= <-]]).
  assert (He2 : live (events s2) e ev2) by (apply list_lookup_insert_eq; by eapply live_lt).
  pose proof (unscheduled_not_due s ags e ev1 ag Hok He Hs Hag) as Hn.
  destruct (leave_run s2 ags e ev2 Hok2 He2 Hs2) as (o & Hrun & Hok' & _). eexists. split; [|split; [exact Hok'|split; [done|]]].
  - unfold squashed_rest.
    eapply bind_Ok; [by apply (on_event_run e (modify (λ e, e.{flags ::= flags_clear Squashed})) s ev1 tt ev2)|].
    by eapply bind_Ok; [exact Hrun|].
  - by apply due_ok_insert, due_ok_insert.
Qed.

Hypothesis Hhandles : handles.

Lemma service_rest_run x s ags q ag ev : sim_ok s ags → mainEventQueue s !z self = Some q → ags !z self = Some ag → _curTick q = x.1.1 →
  live (events s) x.2 ev → scheduled ev = false → initialized ev = true → ekey ev = x.1 → isExitEvent ev = false →
  x.1.1 ≤ t → due_ok (events s) ag →
  ∃ s' q' ag', service_rest process x.2 s = Ok (None, s') ∧ sim_ok s' (effect x ags) ∧ mainEventQueue s' !z self = Some q' ∧
    effect x ags !z self = Some ag' ∧ due ag' = due ag ∧ due_ok (events s') ag'.
Proof using Hhandles.
  intros Hok Hq Hag Hnow He Hs Hi Hk Hx Ht Hd.
  destruct (Hhandles x s ags q ag ev Hok Hq Hag Hnow He Hs Hi Hk Hx Ht Hd)
    as (s1 & q1 & ag1 & ev1 & Hrun & Hok1 & Hq1 & Hag1 & Hdue & Hd1 & He1 & Hx1).
  destruct (scheduled ev1) eqn:Hs1.
  - exists s1, q1, ag1. split; [|done]. unfold service_rest. eapply bind_Ok; [exact Hrun|].
    eapply bind_Ok; [by apply event_at_run|]. rewrite Hx1. assert (Hsame : s1.{events := events s1} = s1) by by destruct s1.
    pose proof (release_run (events s1) x.2 ev1 s1 He1) as Hr. rewrite Hsame, Hs1, andb_false_r, Hsame in Hr.
    by eapply bind_Ok; [exact Hr|].
  - destruct (leave_run s1 _ x.2 ev1 Hok1 He1 Hs1) as (o & Hrel & Hok2 & _).
    exists (s1.{events := <[x.2 := o]> (events s1)}), q1, ag1. split; [|split; [exact Hok2|split; [exact Hq1|split; [done|split; [done|]]]]].
    + unfold service_rest. eapply bind_Ok; [exact Hrun|]. eapply bind_Ok; [by apply event_at_run|]. rewrite Hx1.
      by eapply bind_Ok; [exact Hrel|].
    + apply due_ok_insert; [|exact Hd1]. by apply (unscheduled_not_due s1 (effect x ags) x.2 ev1).
Qed.

(** one event that is due *)
Lemma serviceOne_run s ags q x ag : sim_ok s ags → mainEventQueue s !z self = Some q → ags !z self = Some (x :: ag) →
  x.1.1 ≤ t → due_ok (events s) (x :: ag) →
  ∃ s' q' ag', serviceOne process self s = Ok (None, s') ∧ sim_ok s' (service_spec ags x) ∧
    mainEventQueue s' !z self = Some q' ∧ service_spec ags x !z self = Some ag' ∧ due ag' = due ag ∧ due_ok (events s') ag'.
Proof using Hhandles.
  destruct x as [k e]. intros Hok Hq Hag Ht Hd. destruct (serviceOne_eq process s ags self q ag k e Hok Hq Hag)
    as (ev & ev1 & h & hd & Hh & He & Hk & He1 & (Hfl & Hk1) & -> & Hstep).
  destruct (so_queue s ags Hok self q _ Hq Hag) as [Hon Hev Htime _]. apply Forall_cons in Htime as [Hnow _]. cbn in Hnow.
  destruct (on_agenda_head _ _ _ _ _ Hon) as (_ & Hn & _ & _).
  destruct (elem_other _ _ _ e ev Hev ltac:(by left) He) as (_ & _ & Hi).
  destruct (clear_sched_flags ev) as (Hs1 & Hsq1 & _ & Hi1). unfold scheduled in Hs1. rewrite <-Hfl in Hs1. fold (scheduled ev1) in Hs1.
  unfold initialized in Hi1. rewrite <-Hfl in Hi1. fold (initialized ev1) (initialized ev) in Hi1. rewrite Hi in Hi1.
  assert (Hev0 : isExitEvent ev = false ∧ squashed ev = sq e).
  { unfold due_ok, due in Hd. rewrite filter_cons_True in Hd by done. apply Forall_cons in Hd as [Hd _]. by apply Hd. }
  destruct Hev0 as [Hex Hsq].
  assert (Hex1 : isExitEvent ev1 = false).
  { rewrite exit_bit, Hfl. cbn -[Z.testbit Z.land Z.lnot]. unfold flags_clear.
    rewrite Z.land_spec, Z.lnot_spec, <-exit_bit, Hex by lia. done. }
  assert (Hags : vinsert self (tail (vat [] ags self)) ags = vinsert self ag ags) by (by rewrite (vat_Some _ _ _ _ Hag)).
  assert (Hag1 : vinsert self ag ags !z self = Some ag) by (apply vlookup_vinsert_eq; by eapply vlookup_Some_range).
  assert (Hat : ∀ now, mainEventQueue (stepped self q h hd now s) !z self = Some (q.{eq_head := hd}.{_curTick := now}))
    by (intros now; apply vlookup_vinsert_eq; by eapply vlookup_Some_range).
  assert (Hd1 : due_ok h ag) by (by eapply due_ok_step, (Hstep (_curTick q) Hnow)).
  unfold service_spec. cbn [fst snd]. rewrite Hags, <-Hsq. destruct (squashed ev).
  - destruct (squashed_rest_run (stepped self q h hd (_curTick q) s) (vinsert self ag ags) e ev1 ag) as (s' & Hrun & Hok' & Hqs & Hd');
      [eapply sim_ok_step; [done..|by apply Hstep]|done|done|done|done|].
    eexists s', _, ag. split; [exact Hrun|]. split; [exact Hok'|]. rewrite Hqs. done.
  - destruct (service_rest_run (k, e) (stepped self q h hd k.1 s) (vinsert self ag ags) (q.{eq_head := hd}.{_curTick := k.1}) ag ev1)
      as (s' & q' & ag' & H); [eapply sim_ok_step; [done..|apply Hstep; lia]|apply Hat|done..|].
    by exists s', q', ag'.
Qed.

Lemma due_cons k e ag h p : on_agenda h p ((k, e) :: ag) →
  due ((k, e) :: ag) = if decide (k.1 ≤ t) then (k, e) :: due ag else [].
Proof using.
  intros Hon. destruct (on_agenda_head _ _ _ _ _ Hon) as (_ & _ & _ & Hlater). unfold due. rewrite filter_cons. cbn [fst].
  case_decide as Ht; [done|]. apply filter_none. intros x Hx. rewrite Forall_forall in Hlater. specialize (Hlater x Hx). cbn in *. lia.
Qed.

Lemma service_loop_run : ∀ l fuel s ags q ag, due ag = l → sim_ok s ags → mainEventQueue s !z self = Some q →
  ags !z self = Some ag → due_ok (events s) ag → (length l < fuel)%nat →
  ∃ s' q' ag', service_loop process fuel self t s = Ok (tt, s') ∧ mainEventQueue s' !z self = Some q' ∧
    let ags' := foldl service_spec ags l in sim_ok s' ags' ∧ ags' !z self = Some ag' ∧ due ag' = [].
Proof using Hhandles.
  induction l as [|x l IH]; intros fuel s ags q ag Hl Hok Hq Hag Hd Hlen;
    (destruct fuel as [|fuel]; [cbn in Hlen; lia|]); destruct (so_queue s ags Hok self q _ Hq Hag) as [Hon _ _ _]; cbn [service_loop foldl].
  - exists s, q, ag. split; [|done]. eapply bind_Ok; [by apply ask_eventq_run|]. destruct ag as [|[k e] ag].
    { by rewrite (on_agenda_empty _ _ Hon). }
    destruct (on_agenda_head _ _ _ _ _ Hon) as (-> & _ & (ev & He & Hk) & _). rewrite (due_cons _ _ _ _ _ Hon) in Hl.
    case_decide as Ht; [done|]. eapply bind_Ok; [by apply event_at_run|]. rewrite decide_True; [done|]. subst k. cbn in Ht. lia.
  - destruct ag as [|[k e] ag]; [done|]. rewrite (due_cons _ _ _ _ _ Hon) in Hl. case_decide as Ht; [|done]. injection Hl as <- Hl.
    destruct (on_agenda_head _ _ _ _ _ Hon) as (Hh & _ & (ev & He & Hk) & _).
    destruct (serviceOne_run s ags q (k, e) ag Hok Hq Hag Ht Hd) as (s1 & q1 & ag1 & Hrun & Hok1 & Hq1 & Hag1 & Hdue & Hd1).
    destruct (IH fuel s1 (service_spec ags (k, e)) q1 ag1) as (s' & q' & ag' & Hrun' & H); [congruence|done..|cbn in Hlen; lia|].
    exists s', q', ag'. split; [|exact H]. eapply bind_Ok; [by apply ask_eventq_run|]. rewrite Hh.
    eapply bind_Ok; [by apply event_at_run|]. rewrite decide_False by (subst k; cbn in Ht; lia).
    eapply bind_Ok; [exact Hrun|exact Hrun'].
Qed.
End servicing.

(** the tick of a queue is set to a time that no event of it is before *)
Lemma set_tick_ok s ags self q ag t : sim_ok s ags → mainEventQueue s !z self = Some q → ags !z self = Some ag →
  Forall (λ x, t ≤ x.1.1) ag →
  ∃ s', on_eventq self (modify (λ q, q.{_curTick := t})) s = Ok (tt, s') ∧ ticks s' !z self = Some t ∧ sim_ok s' ags.
Proof.
  intros Hok Hq Hag Ht. set (q2 := q.{_curTick := t}). set (s2 := s.{mainEventQueue := vinsert self q2 (mainEventQueue s)}).
  assert (Hq2 : mainEventQueue s2 !z self = Some q2) by (apply vlookup_vinsert_eq; by eapply vlookup_Some_range).
  exists s2. split; [by apply (on_eventq_run self (modify (λ q, q.{_curTick := t})) s q tt q2)|]. split; [by apply (ticks_at s2 self q2)|].
  destruct Hok as [Hp Hl Hqs Hs]. split; [done|cbn; by rewrite (length_vinsert (mainEventQueue s))| |done].
  intros i q3 ag3 Hq3 Hag3. destruct (decide (i = self)) as [->|Hne].
  - rewrite Hq2 in Hq3. injection Hq3 as <-. destruct (Hqs self q ag3 Hq Hag3) as [H1 H2 _ H4]. assert (ag3 = ag) as -> by congruence. by split.
  - cbn in Hq3. rewrite vlookup_vinsert_ne in Hq3 by done. by apply (Hqs i q3 ag3).
Qed.

(** ** Handlers that schedule their own event again *)

Section rearming.
Context (again : ev_ptr → option Z) (self t : Z) (sq : ev_ptr → bool).

(** the handler of an event that schedules it at the time [again] gives, if any *)
Definition rearm (e : ev_ptr) : M Sim unit :=
  match again e with Some w => schedule self e w false | None => mret tt end.
Definition rearm_effect (x : ev_key * ev_ptr) (ags : list agenda) : list agenda :=
  match again x.2 with
  | Some w => vinsert self (ag_insert (w, x.1.2) x.2 (vat [] ags self)) ags
  | None => ags
  end.

Lemma due_insert_later k e ag : t < k.1 → due t (ag_insert k e ag) = due t ag.
Proof.
  intros Hk. unfold due. induction ag as [|x ag IH]; cbn [ag_insert]; [|case_decide].
  - by rewrite filter_cons_False by (cbn; lia).
  - rewrite !filter_cons. case_decide; by rewrite IH.
  - by rewrite (filter_cons_False _ (k, e)) by (cbn; lia).
Qed.

Lemma rearm_handles : (∀ e w, again e = Some w → t < w) → handles rearm self t sq rearm_effect.
Proof.
  intros Hlater [k e] s ags q ag ev Hok Hq Hag Hnow He Hs Hi Hk Hx Ht Hd. cbn [fst snd] in *. unfold rearm, rearm_effect. cbn [fst snd].
  destruct (again e) as [w|] eqn:Hw; [|by exists s, q, ag, ev]. specialize (Hlater e w Hw).
  destruct (schedule_run s ags self q ag e ev w false) as (h & hd & Hrun & Hstep & ev' & He' & Hx'); try done; [lia|].
  assert (Hp : _priority ev = k.2) by (by subst k). rewrite Hp in Hstep. rewrite (vat_Some _ _ _ _ Hag).
  assert (Hdue : due t (ag_insert (w, k.2) e ag) = due t ag) by (by apply due_insert_later).
  eexists _, _, _, ev'. split; [exact Hrun|]. split; [by eapply sim_ok_step|].
  split; [apply vlookup_vinsert_eq; by eapply vlookup_Some_range|]. split; [apply vlookup_vinsert_eq; by eapply vlookup_Some_range|].
  split; [exact Hdue|]. split; [|split; [done|congruence]]. unfold due_ok in *. rewrite Hdue.
  apply (due_ok_frame t sq (events s)); [|exact Hd]. intros x Hin ev2 Hev2.
  assert (Hne : x.2 ≠ e).
  { intros <-. by apply (unscheduled_not_due self t s ags x.2 ev ag Hok He Hs Hag), list_elem_of_fmap_2. }
  destruct (contents_lookup _ _ _ (eq_sym (qs_contents _ _ _ _ _ _ _ _ _ _ Hstep x.2 Hne)) ev2 Hev2) as (ev3 & Hev3 & Hu).
  apply unlinked_facts in Hu as (Hfl & _). by exists ev3.
Qed.
End rearming.

(** ** Property *)

(** C35: Servicing up to a time services all that is due, once and in
    order.  Let the handlers return, leave the other events that are due up to the time
    [t] on the queue as they are and add none that is (they may schedule, deschedule and create any later
    ones), and act on the agendas as [effect] says; and let no event that is due end the simulation.  Then [serviceEvents] takes the events that are due off the
    queue one after the other, in the order of their times and priorities, calls
    the handler of each that is not squashed once, at its own time, and of no
    other; it stops when nothing up to [t] is left, with the current time at [t]. *)
Theorem serviceEvents_services_until process self t sq effect fuel s ags q ag :
  handles process self t sq effect → sim_ok s ags → mainEventQueue s !z self = Some q → ags !z self = Some ag →
  due_ok t sq (events s) ag → (length (due t ag) < fuel)%nat →
  ∃ s' ag', serviceEvents process fuel self t s = Ok (tt, s') ∧ ticks s' !z self = Some t ∧
    let ags' := foldl (service_spec self sq effect) ags (due t ag) in
    sim_ok s' ags' ∧ ags' !z self = Some ag' ∧ Forall (λ x, t < x.1.1) ag'.
Proof.
  intros Hh Hok Hq Hag Hd Hfuel.
  destruct (service_loop_run process self t sq effect Hh (due t ag) fuel s ags q ag eq_refl Hok Hq Hag Hd Hfuel)
    as (s1 & q1 & ag1 & Hrun & Hq1 & Hok1 & Hag1 & Hdue).
  assert (Hlater : Forall (λ x, t < x.1.1) ag1).
  { apply Forall_forall. intros x Hx. destruct (decide (x.1.1 ≤ t)) as [Ht|Ht]; [|lia].
    assert (Hin : x ∈ due t ag1) by (by apply list_elem_of_filter). rewrite Hdue in Hin. by apply not_elem_of_nil in Hin. }
  destruct (set_tick_ok s1 _ self q1 ag1 t Hok1 Hq1 Hag1) as (s2 & Hset & Htick & Hok2); [|].
  { eapply Forall_impl; [exact Hlater|]. intros x Hx. cbn in *. lia. }
  exists s2, ag1. split; [by eapply bind_Ok|]. done.
Qed.

(** the event 0 is scheduled at 7 and its handler schedules it again at 12 *)
Lemma serviceEvents_services_until_witness :
  let again := λ e, if decide (e = 0%nat) then Some 12 else None in
  ∃ s', serviceEvents (rearm again 0) 2 0 9 (one_scheduled 7 0) = Ok (tt, s') ∧ ticks s' !z 0 = Some 9 ∧
    sim_ok s' [[((12, 0), 0%nat)]].
Proof.
  intros again.
  destruct (serviceEvents_services_until (rearm again 0) 0 9 (λ _, false) (rearm_effect again 0) 2 (one_scheduled 7 0) [[((7, 0), 0%nat)]]
    (mkEventQueue (Some 0%nat) 0 []) [((7, 0), 0%nat)]) as (s' & ag' & Hrun & Htick & Hok & _).
  - apply rearm_handles. intros e w. unfold again. case_decide; intros [= <-]; lia.
  - apply one_scheduled_ok. lia.
  - reflexivity.
  - reflexivity.
  - apply Forall_forall. intros x Hx ev Hev. apply list_elem_of_filter in Hx as [_ ->%list_elem_of_singleton].
    injection Hev as <-. by split.
  - simpl. lia.
  - by exists s'.
Defined.
