(* ===== verification/EventCheck.v ===== *)
(** * The checks and checkpoints of an event queue

    [debugVerify] compared with the invariant, cancelling an event,
    and what becomes of an event that is restored from a checkpoint. *)

From S2P Require Import Prelude EventQueue EventLinks EventRun EventTime.

(** ** The queue's own check *)

Lemma verify_bin_run k s : ∀ b fuel p seen last, (length b < fuel)%nat → stack (events s) p b →
  Forall (λ e, ∃ ev, live (events s) e ev ∧ ekey ev = k) b → NoDup b → (∀ e, e ∈ b → e ∉ seen) →
  b ≠ [] → verify_bin fuel p (seen, last.1, last.2) s =
    Ok (if decide (klt k last) then None else Some (reverse b ++ seen, k.1, k.2), s).
Proof.
  induction b as [|e b IH]; intros fuel p seen last Hlen Hst Hk Hd Hs Hne; [done|].
  destruct fuel as [|fuel]; [lia|]. destruct Hst as (-> & ev & He & Hst). apply Forall_cons in Hk as [(ev' & He' & Hkey) Hk].
  assert (ev' = ev) as -> by (unfold live in *; congruence). apply NoDup_cons in Hd as [Hn Hd].
  simpl verify_bin. eapply bind_Ok; [by apply event_at_run|].
  assert (Hw : _when ev = k.1 ∧ _priority ev = k.2) by by subst k. destruct Hw as [-> ->].
  destruct (decide (klt k last)) as [Hlt|Hlt]; unfold klt in Hlt.
  - destruct (decide (k.1 < last.1)); [done|]. by rewrite decide_True by lia.
  - rewrite decide_False, decide_False by lia. rewrite decide_False by (apply Hs; by left).
    destruct b as [|e2 b].
    + simpl in Hst. rewrite Hst. destruct fuel as [|fuel]; [simpl in Hlen; lia|]. done.
    + rewrite (IH fuel _ (e :: seen) k); try done.
      * rewrite decide_False by (unfold klt; lia). rewrite (reverse_cons _ e). by rewrite <-app_assoc.
      * simpl in *. lia.
      * intros x Hx. rewrite not_elem_of_cons. split; [|apply Hs; by right]. by intros ->.
Qed.

Lemma verify_bins_run s : ∀ bs fuel p seen last, (length bs < fuel)%nat → bseg (events s) p bs None →
  keyed (events s) (flat bs) → StronglySorted klt bs.*1 → NoDup (flat bs).*2 → (∀ e, e ∈ (flat bs).*2 → e ∉ seen) →
  verify_bins fuel p (seen, last.1, last.2) s =
    Ok (match bs with [] => true | (k, _) :: _ => bool_decide (¬ klt k last) end, s).
Proof.
  induction bs as [|[k b] bs IH]; intros fuel p seen last Hlen Hb Hk Hs Hd Hseen; (destruct fuel as [|fuel]; [lia|]).
  { simpl in Hb. by rewrite Hb. }
  rewrite flat_snd_cons in Hd, Hseen. apply NoDup_app in Hd as (Hd1 & Hdis & Hd2).
  unfold keyed in Hk. rewrite flat_cons, Forall_app in Hk. destruct Hk as [Hk1 Hk2].
  assert (Hkb : Forall (λ e, ∃ ev, live (events s) e ev ∧ ekey ev = k) b) by (unfold flat1 in Hk1; by rewrite Forall_fmap in Hk1).
  destruct Hb as (e & b' & ev & -> & -> & He & Hst & Hb). apply StronglySorted_inv in Hs as [Hs Hall].
  assert (Hst' : stack (events s) (Some e) (e :: b')) by (split; [done|]; by exists ev).
  assert (Hlen' : (length (e :: b') < S (length (events s)))%nat).
  { assert (length (e :: b') ≤ length (events s))%nat; [|lia]. apply short_list; [done|]. intros x Hx. by eapply stack_live. }
  simpl verify_bins. eapply bind_Ok; [done|]. eapply bind_Ok.
  { apply (verify_bin_run k s (e :: b')); [exact Hlen'|done|done|done| |done]. intros x Hx. apply Hseen, elem_of_app. by left. }
  destruct (decide (klt k last)) as [Hlt|Hlt]; [by rewrite bool_decide_false by tauto|]. rewrite bool_decide_true by done.
  eapply bind_Ok; [by apply event_at_run|]. rewrite (IH fuel _ _ k); try done.
  - destruct bs as [|[k2 b2] bs]; [done|]. apply Forall_cons in Hall as [Hall _]. simpl in Hall.
    rewrite bool_decide_true; [done|]. unfold klt in *. lia.
  - simpl in Hlen. lia.
  - intros x Hx. rewrite not_elem_of_app. split; [|apply Hseen, elem_of_app; by right].
    rewrite elem_of_reverse. intros Hx'. by apply (Hdis x).
Qed.

Lemma flat_first h p k e ag bs : bseg h p bs None → flat bs = (k, e) :: ag → ∃ b bs', bs = (k, b) :: bs'.
Proof.
  destruct bs as [|[k' b] bs]; [done|]. intros (t & b' & ev & -> & _) Hf. rewrite flat_cons in Hf. injection Hf as -> -> _.
  by exists (e :: b'), bs.
Qed.

(** ** Checkpoints *)

Lemma restored_flags f : 0 ≤ f < 2 ^ 15 →
  let g := flags_set Initialized (to_uint 16 (to_sint 16 f)) in Z.testbit g 0 = Z.testbit f 0 ∧ Z.testbit g 1 = Z.testbit f 1.
Proof.
  intros Hf. assert (H : to_uint 16 (to_sint 16 f) = f).
  { unfold to_sint. rewrite Z.mod_small by lia. rewrite decide_True by lia. unfold to_uint. by rewrite Z.mod_small by lia. }
  rewrite H. unfold flags_set. rewrite !Z.lor_spec. simpl. by rewrite !orb_false_r.
Qed.

Lemma unserialize_run s e ev saved : live (events s) e ev → scheduled ev = false → initialized ev = true →
  scheduled saved = true → 0 ≤ flags saved < 2 ^ 15 →
  ∃ h ev', unserialize e (serialize saved) s = Ok (tt, s.{events := h}) ∧ live h e ev' ∧ ekey ev' = ekey saved ∧
    scheduled ev' = squashed saved ∧ ∀ x, x ≠ e → h !! x = events s !! x.
Proof.
  intros He Hs Hi Hsv Hf. destruct (restored_flags (flags saved) Hf) as [B0 B1].
  set (ev1 := ev.{_when := _when saved}.{_priority := _priority saved}).
  set (ev2 := ev1.{flags := flags_set Initialized (to_uint 16 (to_sint 16 (flags saved)))}).
  set (h1 := <[e := Some ev1]> (events s)). set (h2 := <[e := Some ev2]> h1).
  assert (He1 : live h1 e ev1) by (apply list_lookup_insert_eq; by eapply live_lt).
  assert (He2 : live h2 e ev2) by (apply list_lookup_insert_eq; by eapply live_lt).
  assert (Hs2 : scheduled ev2 = true) by (rewrite scheduled_bit in Hsv |- *; by rewrite <-Hsv, <-B1).
  assert (Hq2 : squashed ev2 = squashed saved) by (rewrite !squashed_bit; by rewrite <-B0).
  set (ev3 := ev2.{flags ::= flags_clear (Z.lor Squashed Scheduled)}).
  assert (Hs3 : scheduled ev3 = false) by (unfold ev3; flag_bits; done).
  exists (if squashed saved then h2 else <[e := Some ev3]> h2), (if squashed saved then ev2 else ev3). split.
  - unfold unserialize. eapply bind_Ok; [by apply event_at_run|]. apply check_run; [by rewrite Hs|].
    eapply bind_Ok; [by apply (on_event_run e (modify (λ ev, ev.{_when := _when saved}.{_priority := _priority saved})) s ev tt ev1)|].
    set (s1 := s.{events := h1}). eapply bind_Ok; [by apply (event_at_run e s1 ev1)|]. apply check_run; [done|].
    eapply bind_Ok; [by apply (set_event_run e (λ ev, ev.{flags := flags_set Initialized (to_uint 16 (to_sint 16 (flags saved)))}) h1 ev1 s)|].
    set (s2 := s.{events := h2}). eapply bind_Ok; [by apply (event_at_run e s2 ev2)|]. rewrite Hs2, Hq2.
    destruct (squashed saved); [done|].
    by apply (set_event_run e (λ ev, ev.{flags ::= flags_clear (Z.lor Squashed Scheduled)}) h2 ev2 s).
  - destruct (squashed saved).
    + split; [done|]. split; [done|]. split; [done|]. intros x Hx. unfold h2, h1. by rewrite !list_lookup_insert_ne.
    + split; [apply list_lookup_insert_eq; by eapply live_lt|]. split; [done|]. split; [done|].
      intros x Hx. unfold h2, h1. by rewrite !list_lookup_insert_ne.
Qed.

(** ** Properties *)

(** The check [debugVerify] accepts exactly the states of the
    invariant but for one: it starts at time 0 and priority 0, so a correct
    queue whose first event is at tick 0 with a negative
    priority, as those of the debugger and of CPU switches have, is reported as having its priorities inverted. *)
Theorem debugVerify_accepts_agendas s ags self q ag : sim_ok s ags → mainEventQueue s !z self = Some q →
  ags !z self = Some ag → Forall (λ x, 0 ≤ x.1.1) ag →
  ∃ b, debugVerify self s = Ok (b, s) ∧ (b = false ↔ ∃ p e ag', ag = ((0, p), e) :: ag' ∧ p < 0).
Proof.
  intros Hok Hq Hag Hpos. destruct (so_queue s ags Hok self q ag Hq Hag) as [(bs & Hl & <-) _ _ _].
  pose proof (links_short _ _ _ Hl) as Hlen. destruct Hl as (Hb & Hk & Hs & Hd). eexists. split.
  { unfold debugVerify. eapply bind_Ok; [by apply ask_eventq_run|]. eapply bind_Ok; [done|].
    apply (verify_bins_run s bs _ _ [] (0, 0)); [lia|done|done|done|done|]. intros e _. by apply not_elem_of_nil. }
  destruct (flat bs) as [|[k e] ag] eqn:Hf.
  - destruct bs as [|[k b] bs]; [split; [done|by intros (? & ? & ? & ? & ?)]|].
    destruct Hb as (e & b' & ev & -> & _). done.
  - destruct (flat_first _ _ _ _ _ _ Hb Hf) as (b & bs' & ->). apply Forall_cons in Hpos as [Hpos _].
    destruct k as [w p]. simpl in Hpos. rewrite bool_decide_eq_false. split.
    + intros Hlt%dec_stable. unfold klt in Hlt. simpl in Hlt. assert (w = 0) as -> by lia. exists p, e, ag. split; [done|lia].
    + intros (p' & e' & ag' & [= -> -> -> ->] & Hp). intros Hlt. apply Hlt. unfold klt. simpl. lia.
Qed.

Lemma debugVerify_accepts_agendas_witness : debugVerify 0 (one_scheduled 0 (-100)) = Ok (false, one_scheduled 0 (-100)).
Proof.
  destruct (debugVerify_accepts_agendas (one_scheduled 0 (-100)) [[((0, -100), 0%nat)]] 0 (mkEventQueue (Some 0%nat) 0 [])
    [((0, -100), 0%nat)]) as (b & Hrun & Hb).
  - apply one_scheduled_ok. lia.
  - reflexivity.
  - reflexivity.
  - constructor; [simpl; lia|constructor].
  - rewrite Hrun. f_equal. f_equal. apply Hb. exists (-100), 0%nat, []. split; [reflexivity|lia].
Defined.

(** Scheduling an event and taking it off the queue again leaves the
    agendas of all queues as they were, whatever the time, the priority and the other events. *)
Theorem deschedule_undoes_schedule s ags self e t global : sim_ok s ags → allowed s ags (Schedule self e t global) →
  ∃ s', (schedule self e t global ;; deschedule self e) s = Ok (tt, s') ∧ sim_ok s' ags ∧ ticks s' = ticks s.
Proof.
  intros Hok (q & ev & Hq & He & Hs & Hi & Ht). destruct (queue_agenda s ags self q Hok Hq) as [ag Hag].
  destruct (schedule_run s ags self q ag e ev t global) as (h & hd & Hrun & Hstep & _); try done.
  set (s1 := stepped self q h hd (_curTick q) s) in *. set (ag1 := ag_insert (t, _priority ev) e ag) in *.
  assert (Hok1 : sim_ok s1 (vinsert self ag1 ags)) by by eapply sim_ok_step.
  set (q1 := q.{eq_head := hd}.{_curTick := _curTick q}).
  assert (Hq1 : mainEventQueue s1 !z self = Some q1) by (apply vlookup_vinsert_eq; by eapply vlookup_Some_range).
  assert (Hag1 : vinsert self ag1 ags !z self = Some ag1) by (apply vlookup_vinsert_eq; by eapply vlookup_Some_range).
  assert (Hin : e ∈ ag1.*2) by (apply ag_insert_elem; by left).
  destruct (agenda_live s1 _ self ag1 e Hok1 Hag1 Hin) as [ev1 He1].
  destruct (deschedule_run s1 _ self q1 ag1 e ev1 Hok1 Hq1 Hag1 He1 Hin) as (h2 & hd2 & Hrun2 & Hstep2 & _).
  eexists. split; [eapply bind_Ok; [exact Hrun|exact Hrun2]|]. split.
  - pose proof (sim_ok_step s1 _ self q1 ag1 _ e h2 hd2 (_curTick q1) Hok1 Hq1 Hag1 Hstep2) as H.
    unfold ag1 in H. rewrite ag_remove_insert, vinsert_vinsert, (vinsert_id _ _ _ Hag) in H; [exact H|].
    by apply (unscheduled_off s ags e ev self ag).
  - rewrite (stepped_ticks self q1 h2 hd2 s1 Hq1). by apply stepped_ticks.
Qed.

Lemma deschedule_undoes_schedule_witness :
  ∃ s', (schedule 0 1 7 false ;; deschedule 0 1) (one_scheduled 7 0) = Ok (tt, s') ∧ sim_ok s' [[((7, 0), 0%nat)]] ∧ ticks s' = [0].
Proof.
  apply (deschedule_undoes_schedule (one_scheduled 7 0) [[((7, 0), 0%nat)]] 0 1 7 false).
  - apply one_scheduled_ok. lia.
  - eexists _, _. do 4 (split; [reflexivity|]). simpl. lia.
Defined.

(** An event that was scheduled when the checkpoint was taken is not scheduled again
    by [unserialize] and [checkpointReschedule]: [unserialize] clears the flag that [checkpointReschedule] tests, and the
    queues stay as they are.  If the event was squashed, so that nothing should happen at its time, the flag
    stays and the event is put on the queue, at its old time and priority. *)
Theorem checkpoint_reschedules_squashed s ags self q ag e ev saved : sim_ok s ags → mainEventQueue s !z self = Some q →
  ags !z self = Some ag → live (events s) e ev → scheduled ev = false → initialized ev = true →
  scheduled saved = true → 0 ≤ flags saved < 2 ^ 15 →
  ∃ s', (unserialize e (serialize saved) ;; checkpointReschedule self e) s = Ok (tt, s') ∧
    if squashed saved
    then ∃ q', mainEventQueue s' !z self = Some q' ∧ on_agenda (events s') (eq_head q') (ag_insert (ekey saved) e ag)
    else mainEventQueue s' = mainEventQueue s ∧ sim_ok s' ags.
Proof.
  intros Hok Hq Hag He Hs Hi Hsv Hf. destruct (so_queue s ags Hok self q ag Hq Hag) as [(bs & Hl & <-) _ _ _].
  assert (Hn : e ∉ (flat bs).*2) by by apply (unscheduled_off s ags e ev self (flat bs)).
  destruct (unserialize_run s e ev saved He Hs Hi Hsv Hf) as (h & ev' & Hrun & He' & Hk & Hs' & Hfr).
  set (s1 := s.{events := h}) in *.
  assert (Hl1 : links h (eq_head q) bs) by (eapply links_frame; [|exact Hl]; intros x Hx; apply Hfr; by intros ->).
  destruct (squashed saved).
  - destruct (ev_insert_run self e ev' s1 q bs Hq Hl1 He' Hn) as (h' & hd & bs' & Hins & Hl' & Hfl & _).
    exists (with_head self q h' hd s1). split.
    + eapply bind_Ok; [exact Hrun|]. eapply bind_Ok; [by apply (event_at_run e s1 ev')|]. by rewrite Hs'.
    + exists (q.{eq_head := hd}). split; [apply vlookup_vinsert_eq; by eapply vlookup_Some_range|].
      exists bs'. split; [done|]. by rewrite Hfl, Hk.
  - exists s1. split; [eapply bind_Ok; [exact Hrun|]; eapply bind_Ok; [by apply (event_at_run e s1 ev')|]; by rewrite Hs'|].
    split; [done|]. apply sim_ok_heap; [done| |].
    + intros x xv Hx Hxs. apply Hfr. intros ->. assert (xv = ev) as -> by (unfold live in *; congruence). congruence.
    + intros x xv Hx Hxs. unfold live in *. rewrite <-Hfr; [done|]. intros ->. assert (xv = ev') as -> by congruence. congruence.
Qed.

Lemma checkpoint_reschedules_squashed_witness :
  ∃ s', (unserialize 1 (serialize (mkEvent None None 9 0 0x7a42 None)) ;; checkpointReschedule 0 1) (one_scheduled 7 0) = Ok (tt, s') ∧
    mainEventQueue s' = mainEventQueue (one_scheduled 7 0) ∧ sim_ok s' [[((7, 0), 0%nat)]].
Proof.
  apply (checkpoint_reschedules_squashed (one_scheduled 7 0) [[((7, 0), 0%nat)]] 0 (mkEventQueue (Some 0%nat) 0 []) [((7, 0), 0%nat)] 1
    (mkEvent None None 0 0 0x7a40 None) (mkEvent None None 9 0 0x7a42 None)).
  - apply one_scheduled_ok. lia.
  - reflexivity.
  - reflexivity.
  - reflexivity.
  - reflexivity.
  - reflexivity.
  - reflexivity.
  - simpl. lia.
Defined.
