(* ===== verification/Clock.v ===== *)
(** * Clocked objects ([sim/clocked_object.hh])

    A clocked object remembers the last clock edge it computed and brings it
    up to date when it is asked for a cycle.  The tick of the simulation
    ([curTick()]) and the period of the clock domain ([clockPeriod()]) are
    arguments. *)

From S2P Require Import Prelude IntMath.

Record Clocked := mkClocked {
  ck_tick : Z;    (* Tick *)
  ck_cycle : Z;   (* Cycles *)
}.
#[export] Instance Clocked_settable : Settable Clocked := λ r, mkClocked (ck_tick r) (ck_cycle r).

Definition new_Clocked : Clocked := mkClocked 0 0.

Section clocked.
Context (curTick clockPeriod : Z).

Definition update : M Clocked unit := λ c,
  if decide (curTick ≤ ck_tick c) then Ok (tt, c) else
  let c := mkClocked (u64 (ck_tick c + clockPeriod)) (u64 (ck_cycle c + 1)) in
  if decide (curTick ≤ ck_tick c) then Ok (tt, c) else
  elapsedCycles ← divCeil (u64 (curTick - ck_tick c)) clockPeriod;
  Ok (tt, mkClocked (u64 (ck_tick c + u64 (elapsedCycles * clockPeriod)))
                    (u64 (ck_cycle c + elapsedCycles))).

Definition resetClock : M Clocked unit :=
  elapsedCycles ← lift (divCeil curTick clockPeriod);
  put (mkClocked (u64 (elapsedCycles * clockPeriod)) elapsedCycles).

Definition clockEdge (cycles : Z) : M Clocked Z :=
  update ;; c ← get; mret (u64 (ck_tick c + u64 (clockPeriod * cycles))).

Definition curCycle : M Clocked Z := update ;; gets ck_cycle.

Definition nextCycle : M Clocked Z := clockEdge 1.

Definition ticksToCycles (t : Z) : res Z := divCeil t clockPeriod.
Definition cyclesToTicks (c : Z) : Z := u64 (clockPeriod * c).

(** ** Clock edges *)

Hypothesis Hperiod : 0 < clockPeriod.
(** neither the ticks nor the cycles leave 64 bits *)
Definition in_time (c : Clocked) : Prop :=
  0 ≤ curTick ∧ 0 ≤ ck_tick c ∧ 0 ≤ ck_cycle c ∧
  curTick + 2 * clockPeriod < 2 ^ 64 ∧ ck_tick c < 2 ^ 64 ∧ ck_cycle c + curTick + 1 < 2 ^ 64.

(** after an update the object stands on the first edge that is not in the
    past, and has counted the edges up to it *)
Lemma tick_update_run c : in_time c →
  ∃ k, update c = Ok (tt, mkClocked (ck_tick c + k * clockPeriod) (ck_cycle c + k)) ∧
    0 ≤ k ∧ (k = 0 ∧ curTick ≤ ck_tick c ∨
             curTick ≤ ck_tick c + k * clockPeriod < curTick + clockPeriod ∧ ck_tick c < curTick ∧ k ≤ curTick).
Proof.
  intros (Ht & Hk & Hc & Hm & Hm' & Hn). unfold update. case_decide as Hd.
  { exists 0. rewrite Z.mul_0_l, !Z.add_0_r. destruct c. split; [done|]. split; [done|]. by left. }
  rewrite (u64_small (ck_tick c + _)), (u64_small (ck_cycle c + 1)) by (unfold is_u64; lia). cbn [ck_tick ck_cycle].
  case_decide as Hd2; cbn [ck_tick ck_cycle] in Hd2 |- *.
  { exists 1. rewrite Z.mul_1_l. split; [done|]. split; [done|]. right. lia. }
  rewrite (u64_small (curTick - _)) by (unfold is_u64; lia).
  destruct (divCeil_run (curTick - (ck_tick c + clockPeriod)) clockPeriod) as (q & -> & Hq & Hq2); [lia..|].
  cbn [mbind res_bind]. assert (q ≤ q * clockPeriod) by nia.
  rewrite (u64_small (q * _)), !u64_small by (unfold is_u64; lia).
  exists (1 + q). split; [f_equal; f_equal; f_equal; lia|]. split; [lia|]. right. lia.
Qed.

Lemma resetClock_run c :
  0 ≤ curTick → curTick + clockPeriod < 2 ^ 64 →
  ∃ k, resetClock c = Ok (tt, mkClocked (k * clockPeriod) k) ∧ 0 ≤ k ∧
    curTick ≤ k * clockPeriod < curTick + clockPeriod.
Proof.
  intros Ht Hm. unfold resetClock, lift, res_bind.
  destruct (divCeil_run curTick clockPeriod) as (q & Hr & Hq & Hq2); [lia..|].
  unfold mbind, M_bind, put. rewrite Hr. rewrite u64_small by (unfold is_u64; lia). by exists q.
Qed.

Lemma clockEdge_run c n :
  in_time c → 0 ≤ n → (curTick + clockPeriod) `max` ck_tick c + clockPeriod * n < 2 ^ 64 →
  ∃ k c', clockEdge n c = Ok (ck_tick c' + clockPeriod * n, c') ∧
    c' = mkClocked (ck_tick c + k * clockPeriod) (ck_cycle c + k) ∧ 0 ≤ k ∧
    (k = 0 ∧ curTick ≤ ck_tick c ∨ curTick ≤ ck_tick c' < curTick + clockPeriod ∧ ck_tick c < curTick).
Proof.
  intros Hc Hn Hm. destruct (tick_update_run c Hc) as (k & Hr & Hk & Hcase). unfold clockEdge.
  unfold mbind, M_bind. rewrite Hr. cbn -[Z.mul Z.add u64]. exists k. eexists. split; [|split; [done|]].
  - f_equal. f_equal. destruct Hc as (? & ? & ? & ? & ? & ?).
    assert (0 ≤ clockPeriod * n) by nia. assert (0 ≤ k * clockPeriod) by nia.
    rewrite (u64_small (clockPeriod * n)), u64_small by (unfold is_u64; lia). done.
  - simpl. split; [done|]. destruct Hcase as [?|?]; [by left|right; lia].
Qed.
End clocked.

(** An object asked for a clock edge at the ticks of any sequence that does not
    decrease answers with the edges of one clock, however many edges it skipped: starting
    from a new object, every answer is the first multiple of the period that is not in the
    past, and the object's cycle counter is that multiple's number. *)
Theorem clock_edges_are_multiples (clockPeriod : Z) (ticks : list Z)
    (Hperiod : 0 < clockPeriod)
    (Hsorted : Sorted Z.le (0 :: ticks))
    (Hbound : Forall (λ t, t + 3 * clockPeriod < 2 ^ 63) ticks) :
  ∃ edges c, map_M (λ t, clockEdge t clockPeriod 0) ticks new_Clocked = Ok (edges, c) ∧
    Forall2 (λ t e, ∃ k, e = k * clockPeriod ∧ t ≤ e < t + clockPeriod) ticks edges ∧
    ck_tick c = ck_cycle c * clockPeriod.
Proof.
  assert (H : ∀ l c prev, 0 ≤ prev → Sorted Z.le (prev :: l) → Forall (λ t, t + 3 * clockPeriod < 2 ^ 63) l →
    0 ≤ ck_cycle c → ck_tick c = ck_cycle c * clockPeriod → ck_tick c < prev + clockPeriod →
    prev + 3 * clockPeriod < 2 ^ 63 ∨ l = [] ∨ prev = 0 →
    ∃ edges c', map_M (λ t, clockEdge t clockPeriod 0) l c = Ok (edges, c') ∧
      Forall2 (λ t e, ∃ k, e = k * clockPeriod ∧ t ≤ e < t + clockPeriod) l edges ∧
      ck_tick c' = ck_cycle c' * clockPeriod).
  { induction l as [|t l IH]; intros c prev Hp Hs Hb Hc Ht Hlt Hpb; [by exists [], c|].
    apply Sorted_inv in Hs as [Hs Hle%HdRel_inv]. apply Forall_cons in Hb as [Hb1 Hb].
    assert (ck_cycle c ≤ ck_tick c) by nia.
    destruct (clockEdge_run t clockPeriod Hperiod c 0) as (k & c' & Hr & Hc' & Hk & Hcase);
      [unfold in_time; lia|lia|lia|].
    assert (Ht' : ck_tick c' = ck_cycle c' * clockPeriod) by (subst c'; simpl; lia).
    destruct (IH c' t) as (edges & c2 & Hm & Hf & He);
      [lia|done|done|subst c'; simpl; lia|done| |by left|].
    { destruct Hcase as [[-> ?]|?]; [subst c'; simpl; lia|lia]. }
    exists (ck_tick c' + clockPeriod * 0 :: edges), c2. split; [|split; [|done]].
    - simpl. unfold mbind, M_bind. by rewrite Hr, Hm.
    - constructor; [|done]. exists (ck_cycle c'). split; [lia|].
      destruct Hcase as [[-> ?]|?]; [subst c'; simpl in *; lia|lia]. }
  destruct (H ticks new_Clocked 0) as (edges & c & ?); simpl; [lia|done|done|lia|lia|lia|by right; right|].
  by exists edges, c.
Qed.

Lemma clock_edges_are_multiples_witness :
  ∃ edges c, map_M (λ t, clockEdge t 500 0) [0; 1; 500; 501; 1700; 1700; 2000] new_Clocked = Ok (edges, c) ∧
    edges = [0; 500; 500; 1000; 2000; 2000; 2000] ∧ c = mkClocked 2000 4.
Proof.
  destruct (clock_edges_are_multiples 500 [0; 1; 500; 501; 1700; 1700; 2000]) as (e & c & H & _ & _);
    [done|by repeat constructor|by repeat constructor|].
  exists e, c. split; [exact H|]. vm_compute in H. injection H as <- <-. split; reflexivity.
Defined.
