(* ===== verification/AddrRange.v ===== *)
(** * Address ranges ([base/addr_range.hh])

    A range of addresses, possibly interleaved: of the addresses between its
    two ends it holds those whose interleaving bits, or the exclusive or of
    them with a second field of the address, have a given value. *)

From S2P Require Import Prelude IntMath.

Record AddrRange := mkAddrRange {
  _start : Z;          (* Addr *)
  _end : Z;
  intlvHighBit : Z;    (* uint8_t *)
  xorHighBit : Z;
  intlvBits : Z;
  intlvMatch : Z;
}.
#[export] Instance AddrRange_settable : Settable AddrRange := λ r,
  mkAddrRange (_start r) (_end r) (intlvHighBit r) (xorHighBit r) (intlvBits r) (intlvMatch r).
#[export] Instance AddrRange_eq_dec : EqDecision AddrRange.
Proof. solve_decision. Defined.

(** ** Constructors *)

Definition AddrRange_default : AddrRange := mkAddrRange 1 0 0 0 0 0.
Definition AddrRange_plain (start end_ : Z) : AddrRange := mkAddrRange start end_ 0 0 0 0.

(** [fatal_if(intlvBits && intlvMatch >= ULL(1) << intlvBits)] and the checks of the XOR bits *)
Definition AddrRange_full (start end_ intlv_high_bit xor_high_bit intlv_bits intlv_match : Z) :
    res AddrRange :=
  let r := mkAddrRange start end_ intlv_high_bit xor_high_bit intlv_bits intlv_match in
  if decide (intlv_bits = 0) then Ok r else
  n ← u64_shl 1 intlv_bits;
  if decide (n ≤ intlv_match) then Fault ExitCalled
  else if decide (xor_high_bit = 0) then Ok r
  else if decide (xor_high_bit = intlv_high_bit) then Fault ExitCalled
  else if decide (intlv_high_bit < xor_high_bit) then
    if decide (xor_high_bit - intlv_high_bit < intlv_bits) then Fault ExitCalled else Ok r
  else
    if decide (intlv_high_bit - xor_high_bit < intlv_bits) then Fault ExitCalled else Ok r.

Definition RangeEx (start end_ : Z) : AddrRange := AddrRange_plain start (u64 (end_ - 1)).
Definition RangeIn (start end_ : Z) : AddrRange := AddrRange_plain start end_.
Definition RangeSize (start size : Z) : AddrRange := AddrRange_plain start (u64 (start + size - 1)).

(** ** Tests *)

Definition interleaved (r : AddrRange) : bool := bool_decide (intlvBits r ≠ 0).
Definition hashed (r : AddrRange) : bool := interleaved r && bool_decide (xorHighBit r ≠ 0).
Definition granularity (r : AddrRange) : res Z := u64_shl 1 (intlvHighBit r - intlvBits r + 1).
Definition stripes (r : AddrRange) : res Z := n ← u64_shl 1 (intlvBits r); Ok (to_uint 32 n).
Definition ar_size (r : AddrRange) : res Z := u64_shr (u64 (_end r - _start r + 1)) (intlvBits r).
Definition valid (r : AddrRange) : bool := bool_decide (_start r ≤ _end r).

Definition mergesWith (t r : AddrRange) : bool :=
  bool_decide (_start r = _start t) && bool_decide (_end r = _end t)
  && bool_decide (intlvHighBit r = intlvHighBit t) && bool_decide (xorHighBit r = xorHighBit t)
  && bool_decide (intlvBits r = intlvBits t).

(** the field of an address that ends at bit [high] *)
Definition intlv_field (r : AddrRange) (high a : Z) : res Z := bits a high (high - intlvBits r + 1).

Definition contains (r : AddrRange) (a : Z) : res bool :=
  let in_range := bool_decide (_start r ≤ a) && bool_decide (a ≤ _end r) in
  if negb (interleaved r) then Ok in_range
  else if (in_range : bool) then
    b ← intlv_field r (intlvHighBit r) a;
    if negb (hashed r) then Ok (bool_decide (b = intlvMatch r))
    else x ← intlv_field r (xorHighBit r) a; Ok (bool_decide (Z.lxor b x = intlvMatch r))
  else Ok false.

(** [t.intersects(r)]; [panic] ends in [ExitCalled] *)
Definition intersects (t r : AddrRange) : res bool :=
  if decide (_start t > _end r ∨ _end t < _start r) then Ok false
  else if negb (interleaved t) && negb (interleaved r) then Ok true
  else
    n ← ar_size r;
    if decide (n = 1) then contains t (_start r)
    else if mergesWith t r then Ok (bool_decide (intlvMatch t = intlvMatch r))
    else Fault ExitCalled.

Definition isSubset (t r : AddrRange) : res bool :=
  if interleaved t then Fault ExitCalled
  else Ok (bool_decide (_start r ≤ _start t) && bool_decide (_end t ≤ _end r)).

(** [operator<] and [operator==] *)
Definition range_ltb (t r : AddrRange) : bool :=
  if decide (_start t ≠ _start r) then bool_decide (_start t < _start r)
  else bool_decide (intlvMatch t < intlvMatch r).
Definition range_eqb (t r : AddrRange) : bool :=
  bool_decide (_start t = _start r) && bool_decide (_end t = _end r)
  && bool_decide (intlvBits t = intlvBits r)
  && (bool_decide (intlvBits t = 0)
      || bool_decide (intlvHighBit t = intlvHighBit r) && bool_decide (intlvMatch t = intlvMatch r)).

(** ** Merging interleaved ranges

    the loop over the ranges; [match] is an [uint8_t] *)
Fixpoint check_merge (t : AddrRange) (ranges : list AddrRange) (match_ : Z) : res unit :=
  match ranges with
  | [] => Ok tt
  | r :: ranges =>
      if negb (mergesWith t r) then Fault ExitCalled
      else if decide (intlvMatch r ≠ match_) then Fault ExitCalled
      else check_merge t ranges (to_uint 8 (match_ + 1))
  end.

Definition AddrRange_merge (ranges : list AddrRange) : res AddrRange :=
  match ranges with
  | [] => Ok AddrRange_default
  | front :: _ =>
      let t := front.{intlvMatch := 0} in
      n ← u64_shl 1 (intlvBits t);
      if decide (zlength ranges ≠ n) then Fault ExitCalled else
      check_merge t ranges 0 ;;
      Ok (AddrRange_plain (_start t) (_end t))
  end.

(** ** Well-formed ranges

    The bits that an interleaved range looks at are inside an address. *)

Definition field_ok (n high : Z) : Prop := n ≤ high + 1 ∧ high < 64.

Record range_wf (r : AddrRange) : Prop := {
  wf_start : is_u64 (_start r);
  wf_end : is_u64 (_end r);
  wf_bits : 0 ≤ intlvBits r < 64;
  wf_match : 0 ≤ intlvMatch r;
  wf_field : intlvBits r ≠ 0 →
    field_ok (intlvBits r) (intlvHighBit r) ∧ (xorHighBit r = 0 ∨ field_ok (intlvBits r) (xorHighBit r));
}.

(** the number of the stripe an address belongs to *)
Definition bit_field (n high a : Z) : Z := Z.shiftr a (high - n + 1) `mod` 2 ^ n.
Definition stripe (r : AddrRange) (a : Z) : Z :=
  if decide (intlvBits r = 0) then 0
  else if decide (xorHighBit r = 0) then bit_field (intlvBits r) (intlvHighBit r) a
  else Z.lxor (bit_field (intlvBits r) (intlvHighBit r) a) (bit_field (intlvBits r) (xorHighBit r) a).

(** the address is in the range *)
Definition has (r : AddrRange) (a : Z) : Prop :=
  _start r ≤ a ≤ _end r ∧ (intlvBits r ≠ 0 → stripe r a = intlvMatch r).
#[export] Instance has_dec r a : Decision (has r a).
Proof. unfold has. solve_decision. Defined.

(** ** Lemmas *)

Lemma interleaved_spec r : interleaved r = true ↔ intlvBits r ≠ 0.
Proof. unfold interleaved. by rewrite bool_decide_eq_true. Qed.
Lemma interleaved_false r : interleaved r = false ↔ intlvBits r = 0.
Proof. unfold interleaved. rewrite bool_decide_eq_false. lia. Qed.

Lemma field_run r high a :
  0 < intlvBits r → field_ok (intlvBits r) high →
  intlv_field r high a = Ok (bit_field (intlvBits r) high a).
Proof.
  intros Hb [H1 H2]. unfold intlv_field. rewrite bits_run by lia. unfold bit_field. do 3 f_equal. lia.
Qed.

(** [contains] never shifts out of range on a well-formed range, and decides [has] *)
Lemma contains_run r a : range_wf r → contains r a = Ok (bool_decide (has r a)).
Proof.
  intros Hr. unfold contains. destruct (interleaved r) eqn:Hi; cbn [negb].
  2: { apply interleaved_false in Hi. f_equal. unfold has. rewrite <-bool_decide_and.
       apply bool_decide_ext. rewrite Hi. naive_solver. }
  pose proof Hi as Hn. rewrite interleaved_spec in Hn. pose proof (wf_bits r Hr).
  destruct (wf_field r Hr Hn) as [Hf Hx]. rewrite <-bool_decide_and.
  case_bool_decide as Hin; [|by rewrite (bool_decide_eq_false_2 (has r a)) by (intros [? _]; done)].
  rewrite (field_run r (intlvHighBit r)) by (done || lia). cbn [mbind res_bind]. unfold hashed. rewrite Hi. cbn [andb].
  assert (Hs : has r a ↔ stripe r a = intlvMatch r) by (unfold has; naive_solver).
  rewrite (bool_decide_ext _ _ Hs). unfold stripe. rewrite (decide_False (P:=intlvBits r = 0)) by done.
  case_bool_decide as Hx0; cbn [negb].
  - destruct Hx as [?|Hx]; [done|]. rewrite field_run by (done || lia). cbn [mbind res_bind].
    by rewrite decide_False.
  - by rewrite decide_True.
Qed.

Lemma contains_true r a : range_wf r → contains r a = Ok true ↔ has r a.
Proof. intros Hr. rewrite contains_run by done. split; [by intros [= H%bool_decide_eq_true]|intros ?; by rewrite bool_decide_true]. Qed.

(** a field has as many values as its bits allow *)
Lemma bit_field_bounds n high a : 0 ≤ n → 0 ≤ bit_field n high a < 2 ^ n.
Proof. intros. apply Z.mod_pos_bound. lia. Qed.

Lemma lxor_bounds n x y : 0 ≤ n → 0 ≤ x < 2 ^ n → 0 ≤ y < 2 ^ n → 0 ≤ Z.lxor x y < 2 ^ n.
Proof.
  intros Hn Hx Hy. rewrite <-(Z.mod_small x (2 ^ n)), <-(Z.mod_small y (2 ^ n)) by lia.
  rewrite <-!Z.land_ones by lia.
  replace (Z.lxor _ _) with (Z.land (Z.lxor x y) (Z.ones n)).
  { rewrite Z.land_ones by lia. apply Z.mod_pos_bound. lia. }
  apply Z.bits_inj'. intros i Hi. rewrite Z.lxor_spec, !Z.land_spec, Z.lxor_spec.
  by destruct (Z.testbit x i), (Z.testbit y i), (Z.testbit (Z.ones n) i).
Qed.

Lemma stripe_bounds r a : 0 ≤ intlvBits r → 0 ≤ stripe r a < 2 ^ intlvBits r.
Proof.
  intros Hb. unfold stripe. case_decide as H0; [rewrite H0; simpl; lia|].
  case_decide; [by apply bit_field_bounds|]. by apply lxor_bounds; try apply bit_field_bounds.
Qed.

Lemma mergesWith_spec t r :
  mergesWith t r = true ↔
  _start r = _start t ∧ _end r = _end t ∧ intlvHighBit r = intlvHighBit t
  ∧ xorHighBit r = xorHighBit t ∧ intlvBits r = intlvBits t.
Proof. unfold mergesWith. rewrite !andb_true_iff, !bool_decide_eq_true. tauto. Qed.

Lemma mergesWith_stripe t r a : mergesWith t r = true → stripe r a = stripe t a.
Proof. intros (_ & _ & Hh & Hx & Hb)%mergesWith_spec. unfold stripe. by rewrite Hh, Hx, Hb. Qed.

(** ranges that merge hold the same address only if their match values agree *)
Lemma has_merges_unique t r a :
  mergesWith t r = true → intlvBits t ≠ 0 → has t a → has r a → intlvMatch t = intlvMatch r.
Proof.
  intros Hm Ht [_ Hta] [_ Hra]. pose proof Hm as (_ & _ & _ & _ & Hb)%mergesWith_spec.
  rewrite <-Hta, <-Hra by congruence. symmetry. by apply mergesWith_stripe.
Qed.

(** *** Merging *)

Lemma check_merge_run t ranges m :
  0 ≤ m → m + zlength ranges ≤ 256 →
  check_merge t ranges m = Ok tt ↔
  ∀ (i : nat) r, ranges !! i = Some r → mergesWith t r = true ∧ intlvMatch r = m + Z.of_nat i.
Proof.
  revert m. induction ranges as [|r ranges IH]; intros m Hm Hl; [done|]. cbn [check_merge].
  unfold zlength in *. cbn [length] in Hl.
  destruct (mergesWith t r) eqn:Hr; cbn [negb].
  2: { split; [done|]. intros H. specialize (H 0%nat r eq_refl). destruct H; congruence. }
  case_decide as Hne.
  { split; [done|]. intros H. specialize (H 0%nat r eq_refl). lia. }
  destruct (decide (ranges = [])) as [->|Hnil].
  { cbn. split; [|done]. intros _ [|i] r' Hi; [|done]. injection Hi as <-. split; [done|simpl; lia]. }
  destruct ranges as [|r2 ranges]; [done|]. cbn [length] in *.
  assert (Hw : to_uint 8 (m + 1) = m + 1) by (apply to_uint_small; lia). rewrite Hw, IH by lia. split.
  - intros H [|i] r' Hi; [injection Hi as <-; split; [done|simpl; lia]|]. destruct (H i r' Hi). split; [done|lia].
  - intros H i r' Hi. destruct (H (S i) r' Hi). split; [done|lia].
Qed.

Lemma shl_one_inv n k : u64_shl 1 n = Ok k → 0 ≤ n < 64 ∧ k = 2 ^ n.
Proof.
  unfold u64_shl. case_decide as Hn; [|done]. intros [= <-]. split; [done|]. rewrite Z.shiftl_1_l.
  by apply u64_small, pow2_u64.
Qed.

(** the merge accepts exactly a complete set of stripes in the order of their match values *)
Lemma merge_inv front ranges m :
  intlvBits front ≤ 8 → AddrRange_merge (front :: ranges) = Ok m →
  m = AddrRange_plain (_start front) (_end front) ∧ 0 ≤ intlvBits front ∧
  zlength (front :: ranges) = 2 ^ intlvBits front ∧
  ∀ (i : nat) r, (front :: ranges) !! i = Some r → mergesWith front r = true ∧ intlvMatch r = Z.of_nat i.
Proof.
  intros Hb. unfold AddrRange_merge. change (intlvBits (front.{intlvMatch := 0})) with (intlvBits front).
  destruct (u64_shl 1 (intlvBits front)) as [n|] eqn:Hn; [|done]. cbn [mbind res_bind].
  apply shl_one_inv in Hn as [Hn ->]. case_decide as Hl; [done|].
  destruct (check_merge _ _ _) as [[]|] eqn:Hc; [|done]. intros [= <-]. split; [done|].
  assert (2 ^ intlvBits front ≤ 2 ^ 8) by (apply Z.pow_le_mono_r; lia).
  split; [lia|]. split; [done|]. rewrite check_merge_run in Hc by lia. exact Hc.
Qed.

(** ** Properties *)

(** C28: Merging is exact: when a crossbar merges a list of well-formed interleaved ranges (at most
    8 interleaving bits, so that the match value fits), the merged range contains an
    address if and only if one of the ranges does, and no two of them do:
    the ranges partition the merged range, with or without the XOR hash.  Every
    range reported upwards in their place thus stands for the same addresses. *)
Theorem merge_is_partition (ranges : list AddrRange) (m : AddrRange) (a : Z)
    (Hwf : Forall range_wf ranges) (Hne : ranges ≠ [])
    (Hbits : Forall (λ r, 0 < intlvBits r ≤ 8) ranges)
    (Hmerge : AddrRange_merge ranges = Ok m) :
  ∃ b, contains m a = Ok b ∧
    (b = true ↔ ∃ (i : nat) r, ranges !! i = Some r ∧ contains r a = Ok true) ∧
    (∀ (i j : nat) r s, ranges !! i = Some r → ranges !! j = Some s →
       contains r a = Ok true → contains s a = Ok true → i = j).
Proof.
  destruct ranges as [|front ranges]; [done|].
  assert (Hf : 0 < intlvBits front ≤ 8) by (by apply Forall_cons in Hbits as [? _]).
  destruct (merge_inv front ranges m ltac:(lia) Hmerge) as (-> & _ & Hlen & Hall).
  assert (Hw : range_wf front) by (by apply Forall_cons in Hwf as [? _]).
  assert (Hget : ∀ i r, (front :: ranges) !! i = Some r → range_wf r ∧ (contains r a = Ok true ↔
      _start front ≤ a ≤ _end front ∧ stripe front a = Z.of_nat i)).
  { intros i r Hi. pose proof (Forall_lookup_1 _ _ _ _ Hwf Hi) as Hr. split; [done|].
    destruct (Hall i r Hi) as [Hm Hmi]. rewrite contains_true by done. unfold has.
    rewrite (mergesWith_stripe _ _ _ Hm), Hmi. apply mergesWith_spec in Hm as (-> & -> & _ & _ & ->).
    intuition lia. }
  exists (bool_decide (_start front ≤ a ≤ _end front)). split; [|split].
  - rewrite contains_run; [|destruct Hw; split; by try lia]. f_equal. apply bool_decide_ext.
    unfold has. simpl. naive_solver.
  - rewrite bool_decide_eq_true. split; [|by intros (i & r & Hi & Hr); apply (Hget _ _ Hi) in Hr as [? _]].
    intros Ha. pose proof (stripe_bounds front a ltac:(lia)) as Hs. unfold zlength in Hlen.
    destruct (lookup_lt_is_Some_2 (front :: ranges) (Z.to_nat (stripe front a))) as [r Hr]; [lia|].
    exists (Z.to_nat (stripe front a)), r. split; [done|]. apply (Hget _ _ Hr). split; [done|lia].
  - intros i j r s Hi Hj Hr Hs. apply (Hget _ _ Hi) in Hr as [_ Hr]. apply (Hget _ _ Hj) in Hs as [_ Hs]. lia.
Qed.

(** four memory channels, hashed *)
Definition channel (k : Z) : AddrRange := mkAddrRange 0x80000000 0xffffffff 7 20 2 k.

Lemma channel_wf k : 0 ≤ k < 4 → range_wf (channel k).
Proof. intros. split; unfold is_u64, channel, field_ok; simpl; lia. Qed.

Lemma merge_is_partition_witness :
  ∃ b, contains (AddrRange_plain 0x80000000 0xffffffff) 0x80080040 = Ok b ∧ b = true.
Proof.
  destruct (merge_is_partition [channel 0; channel 1; channel 2; channel 3]
    (AddrRange_plain 0x80000000 0xffffffff) 0x80080040) as (b & Hb & Hiff & _).
  - repeat (apply Forall_cons; split; [apply channel_wf; lia|]). by apply Forall_nil.
  - discriminate.
  - repeat (apply Forall_cons; split; [simpl; lia|]). by apply Forall_nil.
  - reflexivity.
  - exists b. split; [exact Hb|]. apply Hiff. exists 0%nat, (channel 0). by split.
Defined.

Example ex_contains :
  contains (mkAddrRange 0 0xffff 7 0 2 1) 0x40 = Ok true
  ∧ contains (mkAddrRange 0 0xffff 7 0 2 1) 0x80 = Ok false
  ∧ contains (mkAddrRange 0 0xffff 7 20 2 1) 0x80040 = Ok false
  ∧ contains (mkAddrRange 0 0xfffff 7 20 2 0) 0x80040 = Ok true.
Proof. repeat split; reflexivity. Qed.
