(* ===== verification/AbstractMem.v ===== *)
(** * Memories ([AbstractMemory], [mem/abstract_mem.*])

    A contiguous block of memory: reads, writes and swaps of packets, and the
    records of load-locked accesses that decide whether a store-conditional
    succeeds.  The contents are a list of bytes, the start of the range first;
    a null memory has none. *)

From stdpp Require Import gmap.
From S2P Require Import Prelude IntMath AddrRange MemPacket.

(** ** State *)

Record LockedAddr := mkLockedAddr { la_addr : Z; la_contextId : Z }.
#[export] Instance LockedAddr_settable : Settable LockedAddr := λ r, mkLockedAddr (la_addr r) (la_contextId r).
#[export] Instance LockedAddr_eq_dec : EqDecision LockedAddr.
Proof. solve_decision. Defined.

Record MemStats := mkMemStats {
  bytesRead : gmap Z Z;            (* by master id *)
  bytesInstRead : gmap Z Z;
  bytesWritten : gmap Z Z;
  numReads : gmap Z Z;
  numWrites : gmap Z Z;
  numOther : gmap Z Z;
}.
#[export] Instance MemStats_settable : Settable MemStats := λ r,
  mkMemStats (bytesRead r) (bytesInstRead r) (bytesWritten r) (numReads r) (numWrites r) (numOther r).

(** [woken] records the contexts that were woken up, in order *)
Record AbstractMemory := mkAbstractMemory {
  mem_range : AddrRange;
  pmemAddr : option (list Z);
  confTableReported : bool;
  inAddrMap : bool;
  kvmMap : bool;
  lockedAddrList : list LockedAddr;
  mem_stats : MemStats;
  woken : list Z;
}.
#[export] Instance AbstractMemory_settable : Settable AbstractMemory := λ r,
  mkAbstractMemory (mem_range r) (pmemAddr r) (confTableReported r) (inAddrMap r) (kvmMap r)
    (lockedAddrList r) (mem_stats r) (woken r).

Definition AbstractMemory_new (range : AddrRange) (conf_table_reported in_addr_map kvm_map : bool) : AbstractMemory :=
  mkAbstractMemory range None conf_table_reported in_addr_map kvm_map [] (mkMemStats ∅ ∅ ∅ ∅ ∅ ∅) [].

Definition AbstractMemory_init (pageBytes : Z) : M AbstractMemory unit :=
  s ← get;
  n ← lift (ar_size (mem_range s));
  if decide (n `mod` pageBytes ≠ 0) then throw ExitCalled else mret tt.

Definition setBackingStore (pmem_addr : option (list Z)) : M AbstractMemory unit :=
  modify (λ s, s.{pmemAddr := pmem_addr}).
Definition addLockedAddr (l : LockedAddr) : M AbstractMemory unit :=
  modify (λ s, s.{lockedAddrList ::= λ ls, ls ++ [l] }).
Definition count (f : MemStats → MemStats) : M AbstractMemory unit := modify (λ s, s.{mem_stats ::= f}).

(** ** Locked addresses *)

Definition LockedAddr_mask (paddr : Z) : Z := Z.land paddr (u64_not 0xf).
Definition matchesContext (l : LockedAddr) (r : Request) : res bool :=
  c ← contextId r; Ok (bool_decide (la_contextId l = c)).
Definition LockedAddr_new (r : Request) : res LockedAddr :=
  a ← getPaddr r; c ← contextId r; Ok (mkLockedAddr (LockedAddr_mask a) c).

(** the record of the context of [r], moved to [paddr] *)
Fixpoint update_lock (r : Request) (paddr : Z) (l : list LockedAddr) : res (option (list LockedAddr)) :=
  match l with
  | [] => Ok None
  | i :: l =>
      b ← matchesContext i r;
      if (b : bool) then Ok (Some (i.{la_addr := paddr} :: l))
      else o ← update_lock r paddr l; Ok (option_map (cons i) o)
  end.

Definition trackLoadLocked (pkt : Packet) : M AbstractMemory unit :=
  a ← lift (getPaddr (req pkt));
  l ← gets lockedAddrList;
  o ← lift (update_lock (req pkt) (LockedAddr_mask a) l);
  match o with
  | Some l' => modify (λ s, s.{lockedAddrList := l'})
  | None => i ← lift (LockedAddr_new (req pkt)); modify (λ s, s.{lockedAddrList ::= cons i})
  end.

Fixpoint holds_lock (r : Request) (paddr : Z) (l : list LockedAddr) : res bool :=
  match l with
  | [] => Ok false
  | i :: l =>
      if decide (la_addr i = paddr) then
        b ← matchesContext i r; if (b : bool) then Ok true else holds_lock r paddr l
      else holds_lock r paddr l
  end.

Definition erase_locks (paddr : Z) : M AbstractMemory unit :=
  modify (λ s, s.{woken ::= λ w, w ++ (la_contextId <$> filter (λ i, la_addr i = paddr) (lockedAddrList s))}
                .{lockedAddrList ::= filter (λ i, la_addr i ≠ paddr)}).

Definition set_extra (e : Z) (pkt : Packet) : Packet := pkt.{req ::= setExtraData e}.

Definition checkLockedAddrList (pkt : Packet) : M AbstractMemory (bool * Packet) :=
  a ← lift (getPaddr (req pkt));
  let paddr := LockedAddr_mask a in
  l ← gets lockedAddrList;
  '(allowStore, pkt) ←
    (if isLLSC (pkt_cmd pkt) then
       b ← lift (holds_lock (req pkt) paddr l); mret (b, set_extra (if (b : bool) then 1 else 0) pkt)
     else mret (true, pkt) : M AbstractMemory (bool * Packet));
  when allowStore (erase_locks paddr) ;;
  mret (allowStore, pkt).

(** whether the store is done, and the packet *)
Definition writeOK (pkt : Packet) : M AbstractMemory (bool * Packet) :=
  l ← gets lockedAddrList;
  match l with
  | [] =>
      let llsc := isLLSC (pkt_cmd pkt) in
      mret (negb llsc, if llsc then set_extra 0 pkt else pkt)
  | _ => checkLockedAddrList pkt
  end.

(** ** Accesses *)

(** [memcpy(pkt->getPtr<uint8_t>(), hostAddr, pkt->getSize())] *)
Definition copy_out (mem : list Z) (off : Z) (pkt : Packet) : res Packet :=
  data ← getPtr pkt; n ← getSize pkt;
  data ← memcpy data 0 mem off n; Ok (pkt.{pkt_bytes := Some data}).

(** the bytes of an integer on a little-endian host *)
Definition le_bytes (n z : Z) : list Z := (λ i, Z.land (Z.shiftr z (8 * i)) 255) <$> seqZ 0 n.

(** [!memcmp(&condition, hostAddr, n)] *)
Definition same_bytes (mem : list Z) (off n : Z) (bytes : list Z) : res bool :=
  cur ← memcpy (replicate (Z.to_nat n) 0) 0 mem off n; Ok (bool_decide (cur = bytes)).

Definition condition_holds (mem : list Z) (off : Z) (pkt : Packet) : res bool :=
  if negb (isCondSwap (req pkt)) then Ok true else
  n ← getSize pkt;
  if decide (n = 8) then e ← getExtraData (req pkt); same_bytes mem off 8 (le_bytes 8 e)
  else if decide (n = 4) then e ← getExtraData (req pkt); same_bytes mem off 4 (le_bytes 4 (to_uint 32 e))
  else Fault ExitCalled.

Section access.
(** the functor of an atomic request, on the bytes from its address on *)
Context (atomic_op : nat → option (list Z → list Z)).

Definition swap_access (pkt : Packet) (off : Z) : M AbstractMemory Packet :=
  m ← gets pmemAddr;
  if isAtomic (req pkt) then
    match m with
    | None => mret pkt
    | Some mem =>
        pkt ← lift (copy_out mem off pkt);
        f ← lift (of_option AssertFailed (atomic_op (req_ptr (req pkt))));
        modify (λ s, s.{pmemAddr := Some (take (Z.to_nat off) mem ++ f (drop (Z.to_nat off) mem))}) ;; mret pkt
    end
  else
    match m with
    | None => throw ExitCalled
    | Some mem =>
        data ← lift (getPtr pkt); n ← lift (getSize pkt);
        overwrite_val ← lift (memcpy (replicate (Z.to_nat n) 0) 0 data 0 n);
        pkt ← lift (copy_out mem off pkt);
        overwrite_mem ← lift (condition_holds mem off pkt);
        when overwrite_mem
          (mem' ← lift (memcpy mem off overwrite_val 0 n); modify (λ s, s.{pmemAddr := Some mem'})) ;;
        check (negb (isInstFetch (req pkt))) ;;
        count (λ t, t.{numOther ::= bump (masterId (req pkt)) 1}) ;; mret pkt
    end.

Definition read_access (pkt : Packet) (off : Z) : M AbstractMemory Packet :=
  check (negb (isWrite (pkt_cmd pkt))) ;;
  when (isLLSC (pkt_cmd pkt)) (trackLoadLocked pkt) ;;
  m ← gets pmemAddr;
  pkt ← (match m with None => mret pkt | Some mem => lift (copy_out mem off pkt) end);
  n ← lift (getSize pkt);
  count (λ t, t.{numReads ::= bump (masterId (req pkt)) 1}.{bytesRead ::= bump (masterId (req pkt)) n}) ;;
  when (isInstFetch (req pkt)) (count (λ t, t.{bytesInstRead ::= bump (masterId (req pkt)) n})) ;;
  mret pkt.

Definition write_access (pkt : Packet) (off : Z) : M AbstractMemory Packet :=
  '(ok, pkt) ← writeOK pkt;
  when ok
    (m ← gets pmemAddr;
     (match m with
      | None => mret tt
      | Some mem => mem' ← lift (writeData pkt mem off); modify (λ s, s.{pmemAddr := Some mem'})
      end) ;;
     check (negb (isInstFetch (req pkt))) ;;
     n ← lift (getSize pkt);
     count (λ t, t.{numWrites ::= bump (masterId (req pkt)) 1}.{bytesWritten ::= bump (masterId (req pkt)) n})) ;;
  mret pkt.

Definition access (pkt : Packet) : M AbstractMemory Packet :=
  if cacheResponding pkt then mret pkt else
  if decide (pkt_cmd pkt = CleanEvict ∨ pkt_cmd pkt = WritebackClean) then mret pkt else
  s ← get;
  a ← lift (getAddr pkt); n ← lift (getSize pkt);
  inside ← lift (isSubset (AddrRange_plain a (u64 (a + to_uint 32 (n - 1)))) (mem_range s));
  check inside ;;
  let off := a - _start (mem_range s) in
  pkt ← (if decide (pkt_cmd pkt = SwapReq) then swap_access pkt off
         else if isRead (pkt_cmd pkt) then read_access pkt off
         else if isInvalidate (pkt_cmd pkt) then mret pkt
         else if isWrite (pkt_cmd pkt) then write_access pkt off
         else throw ExitCalled);
  if needsResponse (pkt_cmd pkt) then lift (makeResponse pkt) else mret pkt.
End access.

Definition functionalAccess (pkt : Packet) : M AbstractMemory Packet :=
  s ← get;
  a ← lift (getAddr pkt); n ← lift (getSize pkt);
  inside ← lift (isSubset (AddrRange_plain a (u64 (a + n - 1))) (mem_range s));
  check inside ;;
  let off := a - _start (mem_range s) in
  if isRead (pkt_cmd pkt) then
    pkt ← (match pmemAddr s with None => mret pkt | Some mem => lift (copy_out mem off pkt) end);
    lift (makeResponse pkt)
  else if isWrite (pkt_cmd pkt) then
    (match pmemAddr s with
     | None => mret tt
     | Some mem => mem' ← lift (writeData pkt mem off); modify (λ s, s.{pmemAddr := Some mem'})
     end) ;;
    lift (makeResponse pkt)
  else if isPrint (pkt_cmd pkt) then
    match pmemAddr s with None => throw NullDeref | Some mem => lift (vget mem off) ;; mret pkt end
  else throw ExitCalled.
