(* ===== verification/MemSpec.v ===== *)
(** * What a memory stores

    Memories against a specification: a function from addresses to bytes, and
    for every context the 16-byte granule it has a reservation on. *)

From stdpp Require Import gmap.
From S2P Require Import Prelude IntMath AddrRange MemPacket AbstractMem.

(** the records of context [c] moved to granule [g] *)
Definition relocked (c g : Z) (l : list LockedAddr) : list LockedAddr :=
  (λ i, if decide (la_contextId i = c) then mkLockedAddr g c else i) <$> l.

(** runs the computations at the head of the goal *)
Ltac mem_run :=
  unfold get, gets, modify, check, when, lift, mbind, M_bind, mret, M_ret, throw, count, res_bind;
  cbn -[LockedAddr_mask relocked u64 memcpy update_lock holds_lock bump le_bytes].

(** ** The specification *)

Record byte_mem := mkByteMem {
  bm_byte : Z → Z;                 (* by address *)
  bm_resv : Z → option Z;          (* by context *)
}.

Inductive mem_op :=
  | OpRead (a n : Z) (locked : option (Z * Z))                        (* context and granule *)
  | OpWrite (a : Z) (data : list Z) (granule : Z) (cond : option Z)   (* context *)
  | OpSwap (a : Z) (data : list Z) (expected : option (list Z)).

Definition bytes_at (m : byte_mem) (a n : Z) : list Z := bm_byte m <$> seqZ a n.
Definition put_bytes (a : Z) (data : list Z) (f : Z → Z) : Z → Z :=
  λ x, if decide (a ≤ x < a + zlength data) then vat 0 data (x - a) else f x.
Definition reserve (c g : Z) (r : Z → option Z) : Z → option Z := λ d, if decide (d = c) then Some g else r d.
Definition release (g : Z) (r : Z → option Z) : Z → option Z := λ d, if decide (r d = Some g) then None else r d.

(** the bytes that are read, whether the store is done, and the memory afterwards *)
Definition spec_op (op : mem_op) (m : byte_mem) : option (list Z) * bool * byte_mem :=
  match op with
  | OpRead a n locked =>
      (Some (bytes_at m a n), true,
       match locked with Some (c, g) => mkByteMem (bm_byte m) (reserve c g (bm_resv m)) | None => m end)
  | OpWrite a data g cond =>
      let ok := match cond with Some c => bool_decide (bm_resv m c = Some g) | None => true end in
      (None, ok, if ok then mkByteMem (put_bytes a data (bm_byte m)) (release g (bm_resv m)) else m)
  | OpSwap a data expected =>
      let old := bytes_at m a (zlength data) in
      let ok := match expected with Some e => bool_decide (old = e) | None => true end in
      (Some old, ok, if ok then mkByteMem (put_bytes a data (bm_byte m)) (bm_resv m) else m)
  end.

(** the operation a packet asks for; [None] for packets outside the specification *)
Definition op_of (pkt : Packet) : option mem_op :=
  let c := pkt_cmd pkt in let r := req pkt in
  a ← pkt_addr pkt; n ← pkt_size pkt; data ← pkt_bytes pkt;
  if decide (zlength data = n ∧ 0 < n < 2 ^ 32 ∧ isRequest c = true) then
    if decide (c = SwapReq) then
      if isAtomic r then None
      else if isCondSwap r then
        e ← req_extraData r;
        if decide (n = 8) then Some (OpSwap a data (Some (le_bytes 8 e)))
        else if decide (n = 4) then Some (OpSwap a data (Some (le_bytes 4 (to_uint 32 e))))
        else None
      else Some (OpSwap a data None)
    else if isRead c then
      if isLLSC c then ctx ← req_contextId r; p ← req_paddr r; Some (OpRead a n (Some (ctx, LockedAddr_mask p)))
      else Some (OpRead a n None)
    else if isWrite c then
      p ← req_paddr r;
      if isLLSC c then ctx ← req_contextId r; Some (OpWrite a data (LockedAddr_mask p) (Some ctx))
      else Some (OpWrite a data (LockedAddr_mask p) None)
    else None
  else None.

(** ** The relation *)

Section spec.
Context (start last : Z).

(** the packet is inside the memory, and is one that the memory answers *)
Definition op_inside (op : mem_op) : Prop :=
  match op with
  | OpRead a n _ => start ≤ a ∧ a + n - 1 ≤ last
  | OpWrite a data _ _ | OpSwap a data _ => start ≤ a ∧ a + zlength data - 1 ≤ last
  end.

Record access_ok (pkt : Packet) (op : mem_op) : Prop := {
  ok_op : op_of pkt = Some op;
  ok_inside : op_inside op;
  ok_cache : cacheResponding pkt = false;
  ok_clean : pkt_cmd pkt ≠ WritebackClean;
  ok_fetch : isWrite (pkt_cmd pkt) = true → isInstFetch (req pkt) = false;
}.

Record mem_abs (s : AbstractMemory) (m : byte_mem) : Prop := {
  abs_start : _start (mem_range s) = start;
  abs_end : _end (mem_range s) = last;
  abs_bytes : ∃ mem, pmemAddr s = Some mem ∧ represents mem (last - start + 1) (λ i, bm_byte m (start + i));
  abs_nodup : NoDup (la_contextId <$> lockedAddrList s);
  abs_resv c g : bm_resv m c = Some g ↔ mkLockedAddr g c ∈ lockedAddrList s;
}.

(** the response: the data, the command, and for a store-conditional its result *)
Definition answers (pkt : Packet) (read : option (list Z)) (ok : bool) (pkt' : Packet) : Prop :=
  pkt_bytes pkt' = match read with Some b => Some b | None => pkt_bytes pkt end ∧
  pkt_cmd pkt' = (if needsResponse (pkt_cmd pkt) then responseCommand (pkt_cmd pkt) else pkt_cmd pkt) ∧
  pkt_addr pkt' = pkt_addr pkt ∧ pkt_size pkt' = pkt_size pkt ∧
  (isLLSC (pkt_cmd pkt) = true → isWrite (pkt_cmd pkt) = true → req_extraData (req pkt') = Some (if ok then 1 else 0)).

(** what a reply may change of its request *)
Definition reply_to (pkt pkt' : Packet) : Prop :=
  ∃ x bytes cmd e, pkt' = pkt.{req := (req pkt).{req_extraData := x}}.{pkt_bytes := bytes}.{pkt_cmd := cmd}.{isExpressSnoop := e}.

(** ** Bytes *)

Lemma read_bytes dest mem len (f : Z → Z) off n :
  represents mem len f → zlength dest = n → 0 ≤ off → off + n ≤ len →
  memcpy dest 0 mem off n = Ok (f <$> seqZ off n).
Proof.
  intros [Hl Hm] <- Ho Hn. rewrite memcpy_whole by lia. f_equal. apply list_eq. intros i. unfold zlength in *.
  rewrite list_lookup_fmap. destruct (decide (i < length dest)%nat) as [Hi|Hi].
  - rewrite lookup_take_lt, lookup_drop by done.
    specialize (Hm (off + Z.of_nat i) ltac:(lia)). apply vlookup_Some in Hm as [_ Hm].
    replace (Z.to_nat off + i)%nat with (Z.to_nat (off + Z.of_nat i)) by lia. rewrite Hm.
    by rewrite (proj2 (lookup_seqZ _ _ _ (off + Z.of_nat i))) by lia.
  - rewrite !lookup_ge_None_2; [done|rewrite ?length_seqZ, ?length_take; lia..].
Qed.

Lemma write_bytes data mem len (f : Z → Z) off n :
  represents mem len f → zlength data = n → 0 ≤ off → off + n ≤ len →
  ∃ mem', memcpy mem off data 0 n = Ok mem' ∧
    represents mem' len (λ i, if decide (off ≤ i < off + n) then vat 0 data (i - off) else f i).
Proof.
  intros [Hl Hm] <- Ho Hn. pose proof (zlength_nonneg data). rewrite memcpy_run by lia. eexists. split; [done|].
  simpl. unfold zlength in *. rewrite Nat2Z.id, (take_ge data) by lia. split.
  - unfold zlength. rewrite !length_app, length_take, length_drop. lia.
  - intros i Hi. specialize (Hm i Hi). apply vlookup_Some in Hm as [_ Hm].
    apply vlookup_Some. split; [lia|]. case_decide as Hin.
    + rewrite lookup_app_r by (rewrite length_take; lia). rewrite length_take.
      rewrite lookup_app_l by lia.
      destruct (vlookup_in_range data (i - off) ltac:(unfold zlength; lia)) as [x Hx].
      unfold vat. rewrite Hx. apply vlookup_Some in Hx as [_ Hx]. simpl. rewrite <-Hx. f_equal. lia.
    + destruct (decide (i < off)).
      * rewrite lookup_app_l by (rewrite length_take; lia). rewrite lookup_take_lt by lia. done.
      * rewrite !lookup_app_r by (rewrite ?length_take; lia). rewrite lookup_drop, length_take, <-Hm.
        f_equal. lia.
Qed.

(** ** Locks *)

Section locks.
Context (r : Request) (c : Z) (Hc : req_contextId r = Some c).

Lemma matches_run l : matchesContext l r = Ok (bool_decide (la_contextId l = c)).
Proof using Hc. unfold matchesContext, contextId. by rewrite Hc. Qed.

Lemma holds_lock_run paddr l : holds_lock r paddr l = Ok (bool_decide (mkLockedAddr paddr c ∈ l)).
Proof using Hc.
  induction l as [|i l IH]; cbn [holds_lock].
  { by rewrite bool_decide_eq_false_2 by apply not_elem_of_nil. }
  destruct i as [a d]. cbn [la_addr]. rewrite matches_run, IH. cbn [mbind res_bind la_contextId].
  destruct (decide (a = paddr)) as [->|Ha].
  - destruct (decide (d = c)) as [->|Hd].
    + rewrite (bool_decide_eq_true_2 (c = c)) by done. by rewrite bool_decide_eq_true_2 by (apply elem_of_cons; auto).
    + rewrite (bool_decide_eq_false_2 (d = c)) by done. f_equal. apply bool_decide_ext.
      rewrite elem_of_cons. naive_solver.
  - f_equal. apply bool_decide_ext. rewrite elem_of_cons. naive_solver.
Qed.

(** the record of the context is replaced where it is *)
Lemma update_lock_run g l :
  update_lock r g l = Ok (if decide (c ∈ la_contextId <$> l)
                          then Some (relocked c g l)
                          else None) ∨ ¬ NoDup (la_contextId <$> l).
Proof using Hc.
  induction l as [|[a d] l IH]; cbn.
  { left. by rewrite decide_False by apply not_elem_of_nil. }
  destruct (decide (NoDup (d :: (la_contextId <$> l)))) as [Hn|]; [left|by right].
  apply NoDup_cons in Hn as [Hd Hn]. destruct IH as [->|]; [|done]. rewrite matches_run. cbn.
  case_bool_decide as Hdc; cbn.
  - subst d. rewrite decide_True by (apply elem_of_cons; auto). rewrite (decide_True (P := c = c)) by done. repeat f_equal.
    symmetry. unfold relocked. rewrite <-(list_fmap_id l) at 2. apply list_fmap_ext. intros i x Hx.
    rewrite decide_False; [done|]. intros He. apply Hd. apply list_elem_of_fmap. exists x.
    split; [done|]. by eapply list_elem_of_lookup_2.
  - rewrite (decide_False (P := d = c)) by done. destruct (decide (c ∈ la_contextId <$> l)) as [Hin|Hin]; simpl.
    + by rewrite decide_True by (apply elem_of_cons; auto).
    + rewrite decide_False; [done|]. rewrite elem_of_cons. naive_solver.
Qed.
End locks.

(** ** Operations *)

Definition lock_fits (r : Request) (llsc : bool) (lock : option (Z * Z)) : Prop :=
  match lock with
  | Some (c, g) => llsc = true ∧ req_contextId r = Some c ∧ ∃ p, req_paddr r = Some p ∧ g = LockedAddr_mask p
  | None => llsc = false
  end.

(** what a packet with bytes [data] at [a] looks like when it asks for [op] *)
Definition op_fits (pkt : Packet) (a : Z) (data : list Z) (op : mem_op) : Prop :=
  let r := req pkt in
  match op with
  | OpRead a' n lock =>
      a' = a ∧ n = zlength data ∧ pkt_cmd pkt ≠ SwapReq ∧ isRead (pkt_cmd pkt) = true ∧
      lock_fits r (isLLSC (pkt_cmd pkt)) lock
  | OpWrite a' data' g cond =>
      a' = a ∧ data' = data ∧ pkt_cmd pkt ≠ SwapReq ∧ isRead (pkt_cmd pkt) = false ∧ isWrite (pkt_cmd pkt) = true ∧
      (∃ p, req_paddr r = Some p ∧ g = LockedAddr_mask p) ∧
      lock_fits r (isLLSC (pkt_cmd pkt)) ((λ c, (c, g)) <$> cond)
  | OpSwap a' data' expected =>
      a' = a ∧ data' = data ∧ pkt_cmd pkt = SwapReq ∧ isAtomic r = false ∧
      match expected with
      | Some e => isCondSwap r = true ∧ ∃ x, req_extraData r = Some x ∧
          (zlength data = 8 ∧ e = le_bytes 8 x ∨ zlength data = 4 ∧ e = le_bytes 4 (to_uint 32 x))
      | None => isCondSwap r = false
      end
  end.

Lemma op_of_inv pkt op :
  op_of pkt = Some op →
  ∃ a data, pkt_addr pkt = Some a ∧ pkt_bytes pkt = Some data ∧ pkt_size pkt = Some (zlength data) ∧
    0 < zlength data < 2 ^ 32 ∧ isRequest (pkt_cmd pkt) = true ∧ op_fits pkt a data op.
Proof.
  unfold op_of. destruct (pkt_addr pkt) as [a|]; [|done]. destruct (pkt_size pkt) as [n|]; [|done].
  destruct (pkt_bytes pkt) as [data|]; [|done]. cbn [mbind option_bind].
  case_decide as Hw; [|done]. destruct Hw as (<- & Hn & Hreq). intros H. exists a, data. do 5 (split; [done|]).
  unfold op_fits, lock_fits. case_decide as Hs.
  - destruct (isAtomic (req pkt)); [done|]. destruct (isCondSwap (req pkt)); [|by simplify_eq].
    destruct (req_extraData (req pkt)) as [x|]; [|done]. cbn in H.
    repeat case_decide; simplify_eq; do 5 (split; [done|]); exists x; auto.
  - destruct (isRead (pkt_cmd pkt)).
    + destruct (isLLSC (pkt_cmd pkt)); [|by simplify_eq]. destruct (req_contextId (req pkt)); [|done].
      destruct (req_paddr (req pkt)) as [p|]; [|done]. cbn in H. simplify_eq. naive_solver.
    + destruct (isWrite (pkt_cmd pkt)); [|done]. destruct (req_paddr (req pkt)) as [p|]; [|done]. cbn in H.
      destruct (isLLSC (pkt_cmd pkt)); [|simplify_eq; naive_solver].
      destruct (req_contextId (req pkt)); [|done]. cbn in H. simplify_eq. naive_solver.
Qed.

Lemma abs_read s m a data pkt :
  mem_abs s m → start ≤ a → a + zlength data - 1 ≤ last → pkt_bytes pkt = Some data → pkt_size pkt = Some (zlength data) →
  ∃ mem, pmemAddr s = Some mem ∧
    copy_out mem (a - start) pkt = Ok (pkt.{pkt_bytes := Some (bytes_at m a (zlength data))}).
Proof.
  intros Ha H1 H2 Hb Hn. destruct (abs_bytes s m Ha) as (mem & Hm & Hr). exists mem. split; [done|].
  unfold copy_out, getPtr, getSize. rewrite Hb, Hn. cbn.
  rewrite (read_bytes data mem (last - start + 1) _ (a - start) (zlength data) Hr) by lia. cbn. do 2 f_equal.
  unfold bytes_at. f_equal. apply list_eq. intros i. rewrite !list_lookup_fmap.
  destruct (decide (Z.of_nat i < zlength data)).
  - rewrite (proj2 (lookup_seqZ _ _ _ (a - start + Z.of_nat i))), (proj2 (lookup_seqZ _ _ _ (a + Z.of_nat i))) by lia.
    cbn. do 2 f_equal. lia.
  - by rewrite !lookup_ge_None_2 by (rewrite length_seqZ; lia).
Qed.

(** writing [data] at [a], the locks becoming [l] *)
Lemma abs_write s m a data resv :
  mem_abs s m → start ≤ a → a + zlength data - 1 ≤ last → 
  ∃ mem mem', pmemAddr s = Some mem ∧ memcpy mem (a - start) data 0 (zlength data) = Ok mem' ∧
    ∀ s', mem_range s' = mem_range s → pmemAddr s' = Some mem' → NoDup (la_contextId <$> lockedAddrList s') →
      (∀ c g, resv c = Some g ↔ mkLockedAddr g c ∈ lockedAddrList s') →
      mem_abs s' (mkByteMem (put_bytes a data (bm_byte m)) resv).
Proof.
  intros Ha H1 H2. destruct (abs_bytes s m Ha) as (mem & Hm & Hr). exists mem.
  destruct (write_bytes data mem _ _ (a - start) (zlength data) Hr) as (mem' & Hrun & Hr'); [done|lia..|].
  exists mem'. do 2 (split; [done|]). intros s' Hrange Hmem Hnd Hl. split.
  - rewrite Hrange. by eapply abs_start.
  - rewrite Hrange. by eapply abs_end.
  - exists mem'. split; [done|]. eapply represents_ext; [exact Hr'|]. intros i Hi. cbn. unfold put_bytes.
    destruct (decide (a - start ≤ i < a - start + zlength data)); [rewrite decide_True by lia; f_equal; lia|].
    by rewrite decide_False by lia.
  - done.
  - done.
Qed.

(** *** Reservations *)

(** changing the records of the locks only *)
Lemma abs_locks s m l w resv :
  mem_abs s m → NoDup (la_contextId <$> l) → (∀ c g, resv c = Some g ↔ mkLockedAddr g c ∈ l) →
  mem_abs (s.{lockedAddrList := l}.{woken := w}) (mkByteMem (bm_byte m) resv).
Proof. intros [] Hn Hl. split; cbn; done. Qed.

Lemma lock_elem (l : list LockedAddr) c : c ∈ la_contextId <$> l ↔ ∃ g, mkLockedAddr g c ∈ l.
Proof.
  rewrite list_elem_of_fmap. split; [intros ([g d] & -> & H); by exists g|].
  intros [g H]. by exists (mkLockedAddr g c).
Qed.

Lemma track_run s m pkt c g :
  mem_abs s m → lock_fits (req pkt) true (Some (c, g)) →
  ∃ l, trackLoadLocked pkt s = Ok (tt, s.{lockedAddrList := l}) ∧
    mem_abs (s.{lockedAddrList := l}) (mkByteMem (bm_byte m) (reserve c g (bm_resv m))).
Proof.
  intros Ha (_ & Hc & p & Hp & Hg). unfold trackLoadLocked, LockedAddr_new, getPaddr, contextId. rewrite Hp, Hc. mem_run.
  rewrite <-Hg. destruct (update_lock_run _ c Hc g (lockedAddrList s)) as [->|H]; [|by destruct H, Ha].
  pose proof (abs_nodup s m Ha) as Hnd. pose proof (abs_resv s m Ha) as Hres.
  mem_run. case_decide as Hin; mem_run.
  - exists (relocked c g (lockedAddrList s)). split; [done|].
    apply (abs_locks s m (relocked c g (lockedAddrList s)) (woken s)); [done| |].
    + unfold relocked. rewrite <-list_fmap_compose. erewrite list_fmap_ext; [exact Hnd|]. intros i [b d] _. cbn.
      case_decide; by subst.
    + intros d h. unfold reserve, relocked. rewrite list_elem_of_fmap. case_decide as Hd.
      * subst d. apply lock_elem in Hin as [b Hb]. split.
        -- intros [= ->]. exists (mkLockedAddr b c). cbn. by rewrite decide_True.
        -- intros ([b' d'] & He & _). cbn in He. case_decide; congruence.
      * rewrite Hres. split.
        -- intros H. exists (mkLockedAddr h d). cbn. by rewrite decide_False.
        -- intros ([b' d'] & He & H). cbn in He. case_decide; congruence.
  - exists (mkLockedAddr g c :: lockedAddrList s). split; [by destruct s|].
    apply (abs_locks s m _ (woken s)); [done| |].
    + cbn. by apply NoDup_cons.
    + intros d h. unfold reserve. rewrite elem_of_cons. case_decide as Hd.
      * subst d. split; [intros [= ->]; auto|]. intros [[= ->]|H]; [done|]. exfalso; apply Hin. apply lock_elem. by exists h.
      * rewrite Hres. naive_solver.
Qed.

Lemma release_locks s m g :
  mem_abs s m → let l := filter (λ i, la_addr i ≠ g) (lockedAddrList s) in
  NoDup (la_contextId <$> l) ∧ ∀ c h, release g (bm_resv m) c = Some h ↔ mkLockedAddr h c ∈ l.
Proof.
  intros Ha l. pose proof (abs_nodup s m Ha) as Hnd. pose proof (abs_resv s m Ha) as Hres. split.
  - eapply sublist_NoDup; [exact Hnd|]. apply fmap_sublist, sublist_filter.
  - intros c h. unfold release, l. rewrite list_elem_of_filter, <-Hres. cbn. case_decide as Hg; naive_solver.
Qed.

Lemma same_request (r : Request) : ∃ x, r = r.{req_extraData := x}.
Proof. exists (req_extraData r). by destruct r. Qed.

(** whether a store goes ahead, its packet, and the locks that remain *)
Lemma writeOK_run s m pkt a data g cond :
  mem_abs s m → op_fits pkt a data (OpWrite a data g cond) →
  let ok := match cond with Some c => bool_decide (bm_resv m c = Some g) | None => true end in
  ∃ r' l w, writeOK pkt s = Ok ((ok, pkt.{req := r'}), s.{lockedAddrList := l}.{woken := w}) ∧
    (∃ x, r' = (req pkt).{req_extraData := x}) ∧
    (isLLSC (pkt_cmd pkt) = true → req_extraData r' = Some (if ok then 1 else 0)) ∧
    NoDup (la_contextId <$> l) ∧
    (∀ c h, (if ok then release g (bm_resv m) else bm_resv m) c = Some h ↔ mkLockedAddr h c ∈ l).
Proof.
  intros Ha (_ & _ & _ & _ & _ & (p & Hp & Hg) & Hl) ok. unfold writeOK, checkLockedAddrList, getPaddr. rewrite Hp. mem_run.
  pose proof (abs_nodup s m Ha) as Hnd. pose proof (abs_resv s m Ha) as Hres.
  destruct (release_locks s m g Ha) as [Hnd' Hres'].
  destruct (lockedAddrList s) as [|i0 l0] eqn:El.
  - assert (Hnone : ∀ c, bm_resv m c = None).
    { intros c. destruct (bm_resv m c) as [h|] eqn:E; [|done]. by apply Hres, not_elem_of_nil in E. }
    assert (ok = negb (isLLSC (pkt_cmd pkt))) as ->.
    { unfold ok. destruct cond as [c|]; cbn in Hl; [destruct Hl as [-> _]; by rewrite Hnone|by rewrite Hl]. }
    exists (req (if isLLSC (pkt_cmd pkt) then set_extra 0 pkt else pkt)), [], (woken s). rewrite <-El.
    split; [destruct s, pkt; cbn; by destruct (isLLSC _)|].
    assert (Hl0 : ∀ (b : bool) c h, (if b then release g (bm_resv m) else bm_resv m) c = Some h ↔ mkLockedAddr h c ∈ []).
    { intros b c h. rewrite elem_of_nil. unfold release. destruct b; rewrite Hnone; [by case_decide|done]. }
    rewrite El. split; [destruct (isLLSC _); [by exists (Some 0)|apply same_request]|]. split; [by intros ->|]. split; [by apply NoDup_nil|apply Hl0].
  - rewrite <-El in *. rewrite <-Hg. destruct cond as [c|]; cbn in Hl.
    + destruct Hl as (-> & Hc & _). rewrite (holds_lock_run _ c Hc). cbn.
      assert (Hok : bool_decide (mkLockedAddr g c ∈ lockedAddrList s) = ok) by (apply bool_decide_ext; by rewrite Hres).
      rewrite Hok. exists (setExtraData (if ok then 1 else 0) (req pkt)).
      destruct ok; [|exists (lockedAddrList s), (woken s); split; [by destruct s|split; [by eexists|done]]].
      eexists _, _. split; [reflexivity|]. split; [by eexists|done].
    + rewrite Hl. cbn. exists (req pkt). eexists _, _. split; [destruct pkt; reflexivity|]. split; [apply same_request|done].
Qed.

(** *** Accesses *)

Lemma abs_stats s m t : mem_abs s m → mem_abs (s.{mem_stats := t}) m.
Proof. by intros []. Qed.

Lemma read_access_run s m pkt a n lock :
  mem_abs s m → op_fits pkt a (default [] (pkt_bytes pkt)) (OpRead a n lock) → pkt_size pkt = Some n →
  is_Some (pkt_bytes pkt) → op_inside (OpRead a n lock) → isWrite (pkt_cmd pkt) = false →
  ∃ s', read_access pkt (a - start) s = Ok (pkt.{pkt_bytes := Some (bytes_at m a n)}, s') ∧
    mem_abs s' (spec_op (OpRead a n lock) m).2.
Proof.
  intros Ha (_ & Hn & _ & Hrd & Hl) Hsz [data Hdata] [H1 H2] Hw. rewrite Hdata in Hn. simpl in Hn. subst n.
  assert (Hlock : ∃ l, when (isLLSC (pkt_cmd pkt)) (trackLoadLocked pkt) s = Ok (tt, s.{lockedAddrList := l}) ∧
    mem_abs (s.{lockedAddrList := l}) (spec_op (OpRead a (zlength data) lock) m).2).
  { destruct lock as [[c g]|]; cbn in Hl.
    - rewrite (proj1 Hl). apply track_run; [done|]. destruct Hl as (_ & Hc & Hp). by split.
    - rewrite Hl. exists (lockedAddrList s). by destruct s, m. }
  destruct Hlock as (l & Hlock & Ha').
  destruct (abs_read s m a data pkt Ha H1 H2 Hdata Hsz) as (mem & Hm & Hcopy).
  unfold read_access. set (s1 := s.{lockedAddrList := l}) in *. rewrite Hw.
  destruct (isInstFetch (req pkt)) eqn:Hf; (eexists; split; [|by apply (abs_stats s1)]).
  all: eapply bind_Ok; [done|]; eapply bind_Ok; [done|]; eapply bind_Ok; [done|]; change (pmemAddr s1) with (pmemAddr s).
  all: rewrite Hm; eapply lift_run; [done|]; eapply (lift_run _ _ _ (zlength data)); [unfold getSize; cbn; by rewrite Hsz|].
  all: eapply bind_Ok; [done|]; cbn -[bump bytes_at]; rewrite Hf; reflexivity.
Qed.

Lemma write_access_run s m pkt a data g cond :
  mem_abs s m → op_fits pkt a data (OpWrite a data g cond) → pkt_size pkt = Some (zlength data) →
  pkt_bytes pkt = Some data → op_inside (OpWrite a data g cond) → isInstFetch (req pkt) = false →
  ∃ r' s', write_access pkt (a - start) s = Ok (pkt.{req := r'}, s') ∧
    (∃ x, r' = (req pkt).{req_extraData := x}) ∧
    let '(_, ok, m') := spec_op (OpWrite a data g cond) m in
    mem_abs s' m' ∧ (isLLSC (pkt_cmd pkt) = true → req_extraData r' = Some (if ok then 1 else 0)).
Proof.
  intros Ha Hfit Hsz Hdata [H1 H2] Hf.
  destruct (writeOK_run s m pkt a data g cond Ha Hfit) as (r' & l & w & Hrun & Hreq & Hx & Hnd & Hres).
  assert (Hf' : isInstFetch r' = isInstFetch (req pkt)) by (by destruct Hreq as [x ->]).
  cbn [spec_op]. set (ok := match cond with Some c => _ | None => true end) in *.
  exists r'. unfold write_access. set (s1 := s.{lockedAddrList := l}.{woken := w}) in *. destruct ok.
  - destruct (abs_write s m a data (release g (bm_resv m)) Ha H1 H2) as (mem & mem' & Hm & Hcopy & Hafter).
    eexists. split; [|split; [exact Hreq|split; [|exact Hx]]].
    + eapply bind_Ok; [exact Hrun|]. cbn [when]. eapply bind_Ok; [|done].
      eapply bind_Ok; [done|]. change (pmemAddr s1) with (pmemAddr s). rewrite Hm.
      eapply bind_Ok.
      { eapply lift_run; [|done]. unfold writeData, getPtr, getSize. cbn. rewrite Hdata, Hsz. exact Hcopy. }
      eapply check_run; [cbn; by rewrite Hf', Hf|]. eapply lift_run; [unfold getSize; cbn; by rewrite Hsz|]. done.
    + by apply abs_stats, Hafter.
  - exists s1. split; [by eapply bind_Ok; [exact Hrun|]|]. split; [exact Hreq|]. split; [|exact Hx].
    destruct m as [byte resv]. by apply (abs_locks s (mkByteMem byte resv) l w).
Qed.

Lemma condition_run s m mem pkt a data expected bytes :
  mem_abs s m → pmemAddr s = Some mem → op_fits pkt a data (OpSwap a data expected) →
  pkt_size pkt = Some (zlength data) → start ≤ a → a + zlength data - 1 ≤ last →
  condition_holds mem (a - start) (pkt.{pkt_bytes := bytes}) =
    Ok (match expected with Some e => bool_decide (bytes_at m a (zlength data) = e) | None => true end).
Proof.
  intros Ha Hm (_ & _ & _ & _ & He) Hsz H1 H2. unfold condition_holds.
  assert (Hsame : ∀ n e, zlength data = n → same_bytes mem (a - start) n e = Ok (bool_decide (bytes_at m a n = e))).
  { intros n e Hn. unfold same_bytes. pose proof (zlength_nonneg data).
    destruct (abs_read s m a (replicate (Z.to_nat n) 0)
      (pkt.{pkt_size := Some n}.{pkt_bytes := Some (replicate (Z.to_nat n) 0)}) Ha) as (mem0 & Hm0 & Hcopy);
      try (unfold zlength; rewrite length_replicate); [lia|lia|done|cbn; f_equal; lia|].
    assert (mem0 = mem) as -> by congruence. unfold copy_out, getPtr, getSize in Hcopy. cbn in Hcopy.
    destruct (memcpy _ _ _ _ _) as [b|]; [|done]. injection Hcopy as ->. cbn. unfold zlength. rewrite length_replicate.
    by rewrite Z2Nat.id by lia. }
  destruct expected as [e|]; cbn; [|by rewrite He].
  destruct He as (-> & x & Hx & Hcase). unfold getSize, getExtraData. cbn. rewrite Hsz, Hx. cbn.
  destruct Hcase as [[Hn ->]|[Hn ->]]; rewrite Hn.
  - by rewrite decide_True, Hsame by done.
  - by rewrite decide_False, decide_True, Hsame by done.
Qed.

Section access.
Context (atomic_op : nat → option (list Z → list Z)).

Lemma swap_access_run s m pkt a data expected :
  mem_abs s m → op_fits pkt a data (OpSwap a data expected) → pkt_size pkt = Some (zlength data) →
  pkt_bytes pkt = Some data → op_inside (OpSwap a data expected) → isInstFetch (req pkt) = false →
  ∃ s', swap_access atomic_op pkt (a - start) s = Ok (pkt.{pkt_bytes := Some (bytes_at m a (zlength data))}, s') ∧
    mem_abs s' (spec_op (OpSwap a data expected) m).2.
Proof.
  intros Ha Hfit Hsz Hdata [H1 H2] Hf. pose proof (zlength_nonneg data).
  destruct (abs_read s m a data pkt Ha H1 H2 Hdata Hsz) as (mem & Hm & Hcopy).
  destruct (abs_write s m a data (bm_resv m) Ha H1 H2) as (mem0 & mem' & Hm0 & Hput & Hafter).
  assert (mem0 = mem) as -> by congruence.
  assert (Hval : memcpy (replicate (Z.to_nat (zlength data)) 0) 0 data 0 (zlength data) = Ok data).
  { pose proof (memcpy_whole (replicate (Z.to_nat (zlength data)) 0) data 0) as Hc.
    unfold zlength in *. rewrite length_replicate, !Z2Nat.id, !Nat2Z.id in Hc by lia. rewrite Nat2Z.id.
    rewrite Hc by lia. cbn. by rewrite take_ge by done. }
  unfold swap_access. destruct Hfit as (Ea & Ed & Ec & Hat & He) eqn:Hfit'. rewrite Hat.
  pose proof (condition_run s m mem pkt a data expected (Some (bytes_at m a (zlength data))) Ha Hm
    (conj Ea (conj Ed (conj Ec (conj Hat He)))) Hsz H1 H2) as Hcond.
  cbn [spec_op]. set (ok := match expected with Some e => _ | None => true end) in *.
  eexists. split.
  - eapply bind_Ok; [done|]. rewrite Hm. eapply lift_run; [unfold getPtr; by rewrite Hdata|].
    eapply lift_run; [unfold getSize; by rewrite Hsz|]. eapply lift_run; [exact Hval|].
    eapply lift_run; [exact Hcopy|]. eapply lift_run; [exact Hcond|].
    eapply (bind_Ok _ _ _ tt (s.{pmemAddr := Some (if ok then mem' else mem)})).
    { destruct ok; [by eapply lift_run|]. cbn. do 2 f_equal. destruct s. cbn in *. by subst. }
    eapply check_run; [cbn; by rewrite Hf|]. eapply bind_Ok; [done|]. done.
  - apply abs_stats. destruct ok; [apply Hafter; try done; apply Ha|].
    replace (s.{pmemAddr := Some mem}) with s; [done|]. destruct s. cbn in *. by subst.
Qed.

Lemma request_responds c : needsResponse c = true → isRequest c = true.
Proof. by destruct c. Qed.

(** the part of [access] that depends on the command *)
Lemma access_body_run s m pkt a data op :
  mem_abs s m → op_fits pkt a data op → pkt_size pkt = Some (zlength data) → pkt_bytes pkt = Some data →
  isRequest (pkt_cmd pkt) = true → op_inside op → (isWrite (pkt_cmd pkt) = true → isInstFetch (req pkt) = false) →
  ∃ r' b s', (∀ X k, k (pkt.{req := r'}.{pkt_bytes := Some b}) s' = X →
    ((if decide (pkt_cmd pkt = SwapReq) then swap_access atomic_op pkt (a - start)
      else if isRead (pkt_cmd pkt) then read_access pkt (a - start)
      else if isInvalidate (pkt_cmd pkt) then mret pkt
      else if isWrite (pkt_cmd pkt) then write_access pkt (a - start)
      else throw ExitCalled) ≫= k : M AbstractMemory Packet) s = X) ∧
  (∃ x, r' = (req pkt).{req_extraData := x}) ∧
  let '(read, ok, m') := spec_op op m in
  mem_abs s' m' ∧ b = default data read ∧
  (isLLSC (pkt_cmd pkt) = true → isWrite (pkt_cmd pkt) = true → req_extraData r' = Some (if ok then 1 else 0)).
Proof.
  intros Ha Hfit Hsz Hdata Hreq Hin Hfetch.
  destruct op as [a' n lock|a' data' g cond|a' data' expected].
  - pose proof Hfit as (-> & -> & Hs & Hr & _). assert (isWrite (pkt_cmd pkt) = false) as Hw by (by destruct (pkt_cmd pkt)).
    destruct (read_access_run s m pkt a (zlength data) lock Ha) as (s' & Hrun & Ha'); try done; [by rewrite Hdata|].
    exists (req pkt), (bytes_at m a (zlength data)), s'. cbn [spec_op]. split; [|split; [apply same_request|by rewrite Hw]].
    intros X k Hk. rewrite decide_False, Hr by done. eapply bind_Ok; [exact Hrun|]. by destruct pkt.
  - pose proof Hfit as (-> & -> & Hs & Hr & Hw & _).
    destruct (write_access_run s m pkt a data g cond Ha Hfit Hsz Hdata Hin (Hfetch Hw)) as (r' & s' & Hrun & Hr' & Hout).
    exists r', data, s'. destruct (spec_op _ m) as [[read ok] m'] eqn:Hspec. destruct Hout as [Ha' Hx].
    injection Hspec as <- _ _. split; [|by auto]. intros X k Hk. rewrite decide_False, Hr by done.
    assert (isInvalidate (pkt_cmd pkt) = false) as -> by (by destruct (pkt_cmd pkt)). rewrite Hw.
    eapply bind_Ok; [exact Hrun|]. destruct pkt. cbn in *. by subst.
  - pose proof Hfit as (-> & -> & Hs & _).
    destruct (swap_access_run s m pkt a data expected Ha Hfit Hsz Hdata Hin) as (s' & Hrun & Ha'); [apply Hfetch; by rewrite Hs|].
    exists (req pkt), (bytes_at m a (zlength data)), s'. cbn [spec_op]. split; [|split; [apply same_request|by rewrite Hs]].
    intros X k Hk. rewrite decide_True by done. eapply bind_Ok; [exact Hrun|]. by destruct pkt.
Qed.

(** an access inside the memory is answered as the specification says; the rest of the packet does not change *)
Lemma access_run_kept s m pkt op :
  0 ≤ start → last < 2 ^ 64 → mem_abs s m → access_ok pkt op →
  ∃ pkt' s', access atomic_op pkt s = Ok (pkt', s') ∧ reply_to pkt pkt' ∧
    let '(read, ok, m') := spec_op op m in answers pkt read ok pkt' ∧ mem_abs s' m'.
Proof.
  intros Hlo Hhi Ha [Hop Hin Hcache Hclean Hfetch]. apply op_of_inv in Hop as (a & data & Haddr & Hdata & Hsz & Hn & Hreq & Hfit).
  assert (Hsub : start ≤ a ∧ a + zlength data - 1 ≤ last)
    by (destruct op; destruct Hfit as (-> & -> & _); exact Hin).
  destruct (access_body_run s m pkt a data op Ha Hfit Hsz Hdata Hreq Hin Hfetch) as (r' & b & s' & Hrun & Hout).
  destruct (spec_op op m) as [[read ok] m'].
  destruct Hout as ((x & Hr') & Ha' & -> & Hx). set (pkt1 := pkt.{req := r'}.{pkt_bytes := Some (default data read)}) in *.
  exists (if needsResponse (pkt_cmd pkt) then pkt1.{pkt_cmd := responseCommand (pkt_cmd pkt)}.{isExpressSnoop := false} else pkt1), s'.
  split.
  - unfold access. rewrite Hcache, decide_False.
    2: { intros [Hc|Hc]; [|done]. destruct op; destruct Hfit as (_ & _ & H1 & H2 & H3); rewrite Hc in *; first [done|by destruct H3]. }
    eapply bind_Ok; [done|]. eapply lift_run; [unfold getAddr; by rewrite Haddr|].
    eapply lift_run; [unfold getSize; by rewrite Hsz|].
    assert (Hu : u64 (a + to_uint 32 (zlength data - 1)) = a + zlength data - 1).
    { rewrite (to_uint_small 32) by lia. rewrite u64_small by (unfold is_u64; lia). lia. }
    eapply lift_run; [unfold isSubset; cbn; reflexivity|]. cbn [_start _end AddrRange_plain].
    rewrite Hu, (abs_start s m Ha), (abs_end s m Ha). eapply check_run.
    { rewrite !bool_decide_eq_true_2 by lia. done. }
    apply Hrun. cbn [pkt1 pkt_cmd set]. unfold makeResponse. cbn.
    destruct (needsResponse (pkt_cmd pkt)) eqn:Hneed; [|done]. cbn. by rewrite (request_responds _ Hneed).
  - split; [|split; [|done]].
    + unfold pkt1. rewrite Hr'. clear. destruct (needsResponse (pkt_cmd pkt)); [by eexists x, _, _, _|].
      exists x, (Some (default data read)), (pkt_cmd pkt), (isExpressSnoop pkt). by destruct pkt.
    + unfold answers. destruct (needsResponse (pkt_cmd pkt)); cbn; rewrite Hdata; by destruct read.
Qed.

Lemma access_run s m pkt op :
  0 ≤ start → last < 2 ^ 64 → mem_abs s m → access_ok pkt op →
  ∃ pkt' s', access atomic_op pkt s = Ok (pkt', s') ∧
    let '(read, ok, m') := spec_op op m in answers pkt read ok pkt' ∧ mem_abs s' m'.
Proof.
  intros Hlo Hhi Ha Hok. destruct (access_run_kept s m pkt op Hlo Hhi Ha Hok) as (pkt' & s' & Hrun & _ & Hout).
  by exists pkt', s'.
Qed.

(** ** Runs *)

Fixpoint run_accesses (pkts : list Packet) : M AbstractMemory (list Packet) :=
  match pkts with
  | [] => mret []
  | pkt :: pkts => resp ← access atomic_op pkt; resps ← run_accesses pkts; mret (resp :: resps)
  end.

Fixpoint spec_ops (ops : list mem_op) (m : byte_mem) : list (option (list Z) * bool) * byte_mem :=
  match ops with
  | [] => ([], m)
  | op :: ops => let '(r, m1) := spec_op op m in let '(rs, m2) := spec_ops ops m1 in (r :: rs, m2)
  end.

Definition answer (pkt : Packet) (r : option (list Z) * bool) (pkt' : Packet) : Prop := answers pkt r.1 r.2 pkt'.

Lemma accesses_run pkts ops s m :
  0 ≤ start → last < 2 ^ 64 → mem_abs s m → Forall2 access_ok pkts ops →
  ∃ resps s', run_accesses pkts s = Ok (resps, s') ∧ Forall3 answer pkts (spec_ops ops m).1 resps ∧
    mem_abs s' (spec_ops ops m).2.
Proof.
  intros Hlo Hhi Ha Hok. revert s m Ha. induction Hok as [|pkt op pkts ops Hp Hok IH]; intros s m Ha.
  { exists [], s. do 2 (split; [constructor|]). done. }
  destruct (access_run s m pkt op Hlo Hhi Ha Hp) as (pkt' & s1 & Hrun & Hout).
  destruct (spec_op op m) as [[read ok] m1] eqn:E. destruct Hout as [Hans Ha1].
  destruct (IH s1 m1 Ha1) as (resps & s' & Hruns & Hanss & Ha').
  exists (pkt' :: resps), s'. cbn [spec_ops]. rewrite E. destruct (spec_ops ops m1) as [rs m2]. cbn in *. split.
  - cbn [run_accesses]. eapply bind_Ok; [exact Hrun|]. by eapply bind_Ok; [exact Hruns|].
  - split; [by constructor|done].
Qed.

Lemma spec_ops_snoc ops op m :
  (spec_ops (ops ++ [op]) m) =
    let '(rs, m1) := spec_ops ops m in let '(r, m2) := spec_op op m1 in (rs ++ [r], m2).
Proof.
  revert m. induction ops as [|o ops IH]; intros m; cbn; [by destruct (spec_op op m)|].
  destruct (spec_op o m) as [r m1]. rewrite IH. destruct (spec_ops ops m1) as [rs m2].
  by destruct (spec_op op m2).
Qed.

Lemma length_spec_ops ops m : length (spec_ops ops m).1 = length ops.
Proof.
  revert m. induction ops as [|o ops IH]; intros m; cbn; [done|].
  destruct (spec_op o m) as [r m1]. specialize (IH m1). destruct (spec_ops ops m1). cbn in *. lia.
Qed.

(** ** Reservations along a run

    A run as a list of operations with their results. *)

Definition trace (ops : list mem_op) (m : byte_mem) : list (mem_op * bool) := zip ops (snd <$> (spec_ops ops m).1).

(** the context takes a reservation on [g]; on anything *)
Definition links_at (c g : Z) (x : mem_op * bool) : Prop :=
  match x.1 with OpRead _ _ (Some (c', g')) => c' = c ∧ g' = g | _ => False end.
Definition links (c : Z) (x : mem_op * bool) : Prop :=
  match x.1 with OpRead _ _ (Some (c', _)) => c' = c | _ => False end.
(** a store to the granule was done *)
Definition stored (g : Z) (x : mem_op * bool) : Prop :=
  match x with (OpWrite _ _ g' _, true) => g' = g | _ => False end.

(** the last time the context linked it linked [g], and no store to [g] was done since *)
Definition reserved (c g : Z) (l : list (mem_op * bool)) : Prop :=
  ∃ pre x mid, l = pre ++ x :: mid ∧ links_at c g x ∧ Forall (λ y, ¬ links c y ∧ ¬ stored g y) mid.

Lemma reserved_snoc c g l x :
  reserved c g (l ++ [x]) ↔ links_at c g x ∨ (¬ links c x ∧ ¬ stored g x ∧ reserved c g l).
Proof.
  split.
  - intros (pre & y & mid & He & Hy & Hm). destruct mid as [|z mid _] using rev_ind.
    + apply app_inj_tail in He as [_ ->]. by left.
    + rewrite app_comm_cons, app_assoc in He. apply app_inj_tail in He as [-> ->].
      apply Forall_app in Hm as [Hm Hz]. apply Forall_cons in Hz as [[H1 H2] _]. right. do 2 (split; [done|]).
      by exists pre, y, mid.
  - intros [Hx|(H1 & H2 & pre & y & mid & -> & Hy & Hm)].
    + exists l, x, []. done.
    + exists pre, y, (mid ++ [x]). rewrite <-app_assoc. do 2 (split; [done|]).
      apply Forall_app. split; [done|]. by apply Forall_cons.
Qed.

(** one operation changes the reservations as its place in the trace says *)
Lemma resv_step op m c g :
  let '(r, m') := spec_op op m in
  bm_resv m' c = Some g ↔
    links_at c g (op, r.2) ∨ (¬ links c (op, r.2) ∧ ¬ stored g (op, r.2) ∧ bm_resv m c = Some g).
Proof.
  destruct op as [a n [[c' g']|]|a data g' cond|a data expected]; cbn; unfold links_at, links, stored; cbn.
  - unfold reserve. case_decide; naive_solver.
  - naive_solver.
  - destruct (match cond with Some c0 => _ | None => true end); cbn; [|naive_solver].
    unfold release. case_decide; naive_solver.
  - destruct (match expected with Some e => _ | None => true end); naive_solver.
Qed.

Lemma resv_trace ops m c g :
  (∀ d, bm_resv m d = None) → bm_resv (spec_ops ops m).2 c = Some g ↔ reserved c g (trace ops m).
Proof.
  intros Hm. unfold trace. induction ops as [|op ops IH] using rev_ind.
  { cbn. rewrite Hm. split; [done|]. intros (pre & x & mid & He & _). by destruct pre. }
  rewrite spec_ops_snoc. pose proof (length_spec_ops ops m) as Hlen.
  destruct (spec_ops ops m) as [rs m1] eqn:E. cbn in Hlen, IH.
  pose proof (resv_step op m1 c g) as Hstep. destruct (spec_op op m1) as [r m2]. cbn.
  rewrite fmap_app, zip_with_app by (by rewrite length_fmap). cbn. rewrite reserved_snoc, <-IH. apply Hstep.
Qed.
End access.
End spec.

Lemma bytes_at_put a data f resv : bytes_at (mkByteMem (put_bytes a data f) resv) a (zlength data) = data.
Proof.
  unfold bytes_at. apply list_eq. intros i. rewrite list_lookup_fmap. unfold zlength in *.
  destruct (decide (i < length data)%nat) as [Hi|Hi].
  - rewrite (proj2 (lookup_seqZ _ _ _ (a + Z.of_nat i))) by lia. cbn. unfold put_bytes, zlength.
    rewrite decide_True by lia. replace (a + Z.of_nat i - a) with (Z.of_nat i) by lia. unfold vat.
    rewrite vlookup_nat. by apply lookup_lt_is_Some in Hi as [x ->].
  - by rewrite !lookup_ge_None_2 by (rewrite ?length_seqZ; lia).
Qed.

(** a memory that was just given its contents *)
Lemma mem_abs_new start last s mem :
  _start (mem_range s) = start → _end (mem_range s) = last → pmemAddr s = Some mem → zlength mem = last - start + 1 →
  lockedAddrList s = [] → mem_abs start last s (mkByteMem (λ x, vat 0 mem (x - start)) (λ _, None)).
Proof.
  intros Hs He Hm Hl Hk. split; [done..| | |].
  - exists mem. split; [done|]. split; [done|]. intros i Hi. cbn. replace (start + i - start) with i by lia.
    unfold vat. destruct (vlookup_in_range mem i ltac:(lia)) as [x ->]. done.
  - rewrite Hk. apply NoDup_nil_2.
  - intros c g. rewrite Hk, elem_of_nil. done.
Qed.

Lemma run_accesses_snoc atomic_op pkts pkt s resps s1 resp s' :
  run_accesses atomic_op pkts s = Ok (resps, s1) → access atomic_op pkt s1 = Ok (resp, s') →
  run_accesses atomic_op (pkts ++ [pkt]) s = Ok (resps ++ [resp], s').
Proof.
  revert s resps. induction pkts as [|p pkts IH]; intros s resps Hrun Hlast.
  - injection Hrun as <- <-. by eapply bind_Ok.
  - cbn [run_accesses app] in *. inv_step Hrun. inv_step Hrun. injection Hrun as <- <-.
    eapply bind_Ok; [exact Hstep|]. by eapply bind_Ok; [by apply IH|].
Qed.

Lemma fresh_resv start last s m : mem_abs start last s m → lockedAddrList s = [] → ∀ c, bm_resv m c = None.
Proof.
  intros Ha Hl c. destruct (bm_resv m c) as [g|] eqn:E; [|done].
  apply (abs_resv _ _ _ _ Ha) in E. rewrite Hl in E. by apply elem_of_nil in E.
Qed.

(** a store-conditional after a run that started without reservations *)
Lemma store_conditional_run atomic_op start last s m pkts ops pkt a data g c :
  0 ≤ start → last < 2 ^ 64 → mem_abs start last s m → (∀ d, bm_resv m d = None) →
  Forall2 (access_ok start last) pkts ops → access_ok start last pkt (OpWrite a data g (Some c)) →
  isLLSC (pkt_cmd pkt) = true → isWrite (pkt_cmd pkt) = true →
  ∃ resps resp s' ok m', run_accesses atomic_op (pkts ++ [pkt]) s = Ok (resps ++ [resp], s') ∧
    mem_abs start last s' m' ∧ req_extraData (req resp) = Some (if ok : bool then 1 else 0) ∧
    (ok = true ↔ reserved c g (trace ops m)) ∧
    bm_byte m' = if ok then put_bytes a data (bm_byte (spec_ops ops m).2) else bm_byte (spec_ops ops m).2.
Proof.
  intros Hlo Hhi Ha Hnone Hok Hp Hl Hw.
  destruct (accesses_run start last atomic_op _ _ s m Hlo Hhi Ha Hok) as (resps & s1 & Hrun & _ & Ha1).
  destruct (access_run start last atomic_op s1 _ _ _ Hlo Hhi Ha1 Hp) as (resp & s' & Hrun' & Hans & Ha').
  destruct Hans as (_ & _ & _ & _ & Hx). specialize (Hx Hl Hw).
  exists resps, resp, s'. eexists _, _. split; [by eapply run_accesses_snoc|]. split; [exact Ha'|].
  split; [exact Hx|]. split; [|by case_bool_decide]. rewrite bool_decide_eq_true. by apply resv_trace.
Qed.

(** ** Properties *)

(** C6: A memory is an array of bytes with one reservation per context.  Every sequence of
    accesses inside its range (reads, writes, swaps, conditional swaps, load-locked
    and store-conditional, of any size and alignment) is answered without a fault, each as
    the specification answers it: reads and swaps return the bytes at the addresses of the packet, a
    store that is done changes exactly these, and the packet becomes the response where
    the command needs one; and afterwards memory and specification still agree. *)
Theorem memory_refines_bytes (atomic_op : nat → option (list Z → list Z)) (start last : Z) (s : AbstractMemory)
    (m : byte_mem) (pkts : list Packet) (ops : list mem_op)
    (Hlo : 0 ≤ start) (Hhi : last < 2 ^ 64) (Habs : mem_abs start last s m)
    (Hok : Forall2 (access_ok start last) pkts ops) :
  ∃ resps s', run_accesses atomic_op pkts s = Ok (resps, s') ∧
    Forall3 answer pkts (spec_ops ops m).1 resps ∧ mem_abs start last s' (spec_ops ops m).2.
Proof. by apply accesses_run. Qed.

(** C16: A store-conditional is atomic with its load.  After any run of a memory that started
    without reservations, the store-conditional of a context succeeds, which the extra data of
    the response tells, exactly when the last load-locked access of this context was to the
    same granule and no store to the granule was done since then; when it
    succeeds its bytes are in the memory, and otherwise no byte changes. *)
Theorem store_conditional_is_atomic (atomic_op : nat → option (list Z → list Z)) (start last : Z) (s : AbstractMemory)
    (m : byte_mem) (pkts : list Packet) (ops : list mem_op) (pkt : Packet) (a : Z) (data : list Z) (g c : Z)
    (Hlo : 0 ≤ start) (Hhi : last < 2 ^ 64) (Habs : mem_abs start last s m) (Hfresh : lockedAddrList s = [])
    (Hok : Forall2 (access_ok start last) pkts ops) (Hp : access_ok start last pkt (OpWrite a data g (Some c)))
    (Hsc : isLLSC (pkt_cmd pkt) = true ∧ isWrite (pkt_cmd pkt) = true) :
  ∃ resps resp s' m', run_accesses atomic_op (pkts ++ [pkt]) s = Ok (resps ++ [resp], s') ∧ mem_abs start last s' m' ∧
    let before := (spec_ops ops m).2 in
    (req_extraData (req resp) = Some 1 ∧ reserved c g (trace ops m) ∧ bytes_at m' a (zlength data) = data) ∨
    (req_extraData (req resp) = Some 0 ∧ ¬ reserved c g (trace ops m) ∧ bm_byte m' = bm_byte before).
Proof.
  pose proof (fresh_resv _ _ _ _ Habs Hfresh) as Hnone.
  destruct (store_conditional_run atomic_op start last s m pkts ops pkt a data g c Hlo Hhi Habs Hnone Hok Hp)
    as (resps & resp & s' & ok & m' & Hrun & Ha' & Hx & Hiff & Hb); [apply Hsc..|].
  exists resps, resp, s', m'. do 2 (split; [done|]). destruct ok; [left|right]; (split; [done|]); cbn.
  - split; [by apply Hiff|]. destruct m' as [b r]. cbn in Hb. subst b. apply bytes_at_put.
  - split; [|done]. intros H%Hiff. done.
Qed.

(** no access that unlinks or that stores with its first address in the granule *)
Definition unnoticed (c g : Z) (op : mem_op) : Prop :=
  match op with
  | OpRead _ _ (Some (c', _)) => c' ≠ c
  | OpRead _ _ None | OpSwap _ _ _ => True
  | OpWrite _ _ g' _ => g' ≠ g
  end.

(** C38: Swaps, and stores that cover a granule without starting in it, go unnoticed.  A
    store-conditional succeeds after its load-locked access although in between other contexts swapped
    the very bytes that were loaded, or overwrote them with a store that starts in an earlier
    granule: the atomic accesses do not look at the locks, and a
    store clears only the locks of the granule of its first address. *)
Theorem swaps_keep_reservations (atomic_op : nat → option (list Z → list Z)) (start last : Z) (s : AbstractMemory)
    (m : byte_mem) (ll : Packet) (pkts : list Packet) (ops : list mem_op) (pkt : Packet) (a n : Z) (data : list Z) (g c : Z)
    (Hlo : 0 ≤ start) (Hhi : last < 2 ^ 64) (Habs : mem_abs start last s m) (Hfresh : lockedAddrList s = [])
    (Hll : access_ok start last ll (OpRead a n (Some (c, g)))) (Hok : Forall2 (access_ok start last) pkts ops)
    (Hbetween : Forall (unnoticed c g) ops) (Hp : access_ok start last pkt (OpWrite a data g (Some c)))
    (Hsc : isLLSC (pkt_cmd pkt) = true ∧ isWrite (pkt_cmd pkt) = true) :
  ∃ resps resp s' m', run_accesses atomic_op ((ll :: pkts) ++ [pkt]) s = Ok (resps ++ [resp], s') ∧
    mem_abs start last s' m' ∧ req_extraData (req resp) = Some 1 ∧ bytes_at m' a (zlength data) = data.
Proof.
  pose proof (fresh_resv _ _ _ _ Habs Hfresh) as Hnone.
  destruct (store_conditional_run atomic_op start last s m (ll :: pkts) (OpRead a n (Some (c, g)) :: ops) pkt a data g c
    Hlo Hhi Habs Hnone) as (resps & resp & s' & ok & m' & Hrun & Ha' & Hx & Hiff & Hb); [by constructor|done|apply Hsc..|].
  assert (ok = true) as ->.
  { apply Hiff. unfold trace. cbn. destruct (spec_ops ops _) as [rs m2] eqn:E. cbn.
    exists [], (OpRead a n (Some (c, g)), true), (zip ops (snd <$> rs)). split; [done|]. split; [done|].
    clear -Hbetween. revert rs. induction Hbetween as [|op ops Hop _ IH]; intros [|r rs]; cbn; try by constructor.
    constructor; [|apply IH]. unfold links, stored. destruct r as [o b]. cbn.
    destruct op as [? ? [[c' g']|]|? ? g' ?|? ? ?], b; cbn in *; naive_solver. }
  exists resps, resp, s', m'. do 3 (split; [done|]). destruct m' as [b r]. cbn in Hb. subst b. apply bytes_at_put.
Qed.

(** ** Witnesses *)

Definition ex_mem : AbstractMemory :=
  (AbstractMemory_new (RangeSize 0x1000 256) true true true).{pmemAddr := Some (replicate 256 0)}.
Definition ex_bytes : byte_mem := mkByteMem (λ x, vat 0 (replicate 256 0) (x - 0x1000)) (λ _, None).
Definition ex_access (cmd : Command) (a : Z) (data : list Z) (c : Z) : Packet :=
  (sample_packet cmd a data).{req := (plain_request c 0).{req_paddr := Some a}.{req_contextId := Some c} }.

Lemma ex_abs : mem_abs 0x1000 0x10ff ex_mem ex_bytes.
Proof. by apply mem_abs_new. Qed.

Ltac solve_access :=
  split; [vm_compute; reflexivity|split; vm_compute; discriminate|reflexivity|discriminate|by intros].

(** context 1 links granule 0x1010, context 2 overwrites it with a line that starts at 0x1000 and then swaps
    its first byte *)
Definition ex_link : Packet := ex_access LoadLockedReq 0x1010 [0; 0] 1.
Definition ex_foreign : list Packet :=
  [ex_access WriteReq 0x1000 (replicate 64 7) 2; ex_access SwapReq 0x1010 [9] 2].
Definition ex_foreign_ops : list mem_op := [OpWrite 0x1000 (replicate 64 7) 0x1000 None; OpSwap 0x1010 [9] None].
Definition ex_store (v : Z) : Packet := ex_access StoreCondReq 0x1010 [v; v] 1.

Lemma ex_foreign_ok : Forall2 (access_ok 0x1000 0x10ff) ex_foreign ex_foreign_ops.
Proof. repeat constructor; by vm_compute. Qed.

Lemma memory_refines_bytes_witness :
  ∃ resps s', run_accesses (λ _, None) (ex_link :: ex_foreign) ex_mem = Ok (resps, s') ∧
    mem_abs 0x1000 0x10ff s' (spec_ops (OpRead 0x1010 2 (Some (1, 0x1010)) :: ex_foreign_ops) ex_bytes).2 ∧
    (pkt_bytes <$> resps) !! 2%nat = Some (Some [7]).
Proof.
  destruct (memory_refines_bytes (λ _, None) 0x1000 0x10ff ex_mem ex_bytes (ex_link :: ex_foreign)
    (OpRead 0x1010 2 (Some (1, 0x1010)) :: ex_foreign_ops)) as (resps & s' & Hrun & Hans & Ha);
    [lia|lia|apply ex_abs|constructor; [solve_access|apply ex_foreign_ok]|].
  exists resps, s'. split; [exact Hrun|]. split; [exact Ha|]. vm_compute in Hrun. by injection Hrun as <- _.
Defined.

Lemma store_conditional_is_atomic_witness :
  ∃ resps resp s', run_accesses (λ _, None) ((ex_link :: ex_foreign ++ [ex_store 5]) ++ [ex_store 6]) ex_mem =
    Ok (resps ++ [resp], s') ∧ req_extraData (req resp) = Some 0.
Proof.
  destruct (store_conditional_is_atomic (λ _, None) 0x1000 0x10ff ex_mem ex_bytes (ex_link :: ex_foreign ++ [ex_store 5])
    (OpRead 0x1010 2 (Some (1, 0x1010)) :: ex_foreign_ops ++ [OpWrite 0x1010 [5; 5] 0x1010 (Some 1)]) (ex_store 6)
    0x1010 [6; 6] 0x1010 1) as (resps & resp & s' & m' & Hrun & _ & Hout);
    [lia|lia|apply ex_abs|done| |solve_access|done|].
  { constructor; [solve_access|]. apply Forall2_app; [apply ex_foreign_ok|]. constructor; [solve_access|constructor]. }
  exists resps, resp, s'. split; [exact Hrun|]. destruct Hout as [(Hx & _)|(Hx & _)]; [|exact Hx].
  vm_compute in Hrun. assert (Hlen : length resps = 4%nat).
  { injection Hrun as Hl _. apply (f_equal length) in Hl. rewrite length_app in Hl. cbn in Hl. lia. }
  destruct resps as [|? [|? [|? [|? []]]]]; try discriminate Hlen.
  injection Hrun as _ _ _ _ <- _. vm_compute in Hx. discriminate Hx.
Defined.

Lemma swaps_keep_reservations_witness :
  ∃ resps resp s', run_accesses (λ _, None) ((ex_link :: ex_foreign) ++ [ex_store 5]) ex_mem =
    Ok (resps ++ [resp], s') ∧ req_extraData (req resp) = Some 1.
Proof.
  destruct (swaps_keep_reservations (λ _, None) 0x1000 0x10ff ex_mem ex_bytes ex_link ex_foreign ex_foreign_ops (ex_store 5)
    0x1010 2 [5; 5] 0x1010 1) as (resps & resp & s' & m' & Hrun & _ & Hx & _);
    [lia|lia|apply ex_abs|done|solve_access|apply ex_foreign_ok| |solve_access|done|].
  { repeat constructor. vm_compute. discriminate. }
  exists resps, resp, s'. split; [exact Hrun|exact Hx].
Defined.
