(* ===== verification/AddrRangeMap.v ===== *)
(** * Maps from address ranges ([base/addr_range_map.hh])

    The map a crossbar decodes addresses with: a [std::map] ordered by the
    start and the match value of the ranges, as the list of its elements in order.
    An iterator is a position in the list, [None] the end. *)

From S2P Require Import Prelude IntMath AddrRange.

Section map.
Context {V : Type}.
Implicit Types tree : list (AddrRange * V).

(** [tree.upper_bound(r)]: the first element whose key is greater *)
Fixpoint upper_bound tree (r : AddrRange) : nat :=
  match tree with
  | [] => 0
  | (k, _) :: tree => if range_ltb r k then 0 else S (upper_bound tree r)
  end.

(** [i->first] *)
Definition key_at tree (i : nat) : res AddrRange := of_option OutOfRange ((tree !! i) ≫= λ e, Some e.1).

(** [while (i != tree.begin() && i->first.mergesWith(orig_range)) { --i; ... }] and the test after it *)
Fixpoint step_back tree (r orig_range : AddrRange) (i : nat) : res (option nat) :=
  k ← key_at tree i;
  match i with
  | S i' =>
      if mergesWith k orig_range then
        k' ← key_at tree i';
        b ← intersects k' r;
        if (b : bool) then Ok (Some i') else step_back tree r orig_range i'
      else
        b ← intersects k r; Ok (if (b : bool) then Some i else None)
  | O => b ← intersects k r; Ok (if (b : bool) then Some i else None)
  end.

Definition find tree (r : AddrRange) : res (option nat) :=
  if decide (tree = []) then Ok None else
  match upper_bound tree r with
  | O =>
      k ← key_at tree 0;
      b ← intersects k r; Ok (if (b : bool) then Some 0%nat else None)
  | S i =>
      k ← key_at tree i;
      b ← intersects k r;
      if (b : bool) then Ok (Some i)
      else if interleaved k then step_back tree r k i
      else Ok None
  end.

Definition find_addr tree (a : Z) : res (option nat) := find tree (RangeSize a 1).

Definition intersect tree (r : AddrRange) : res bool := o ← find tree r; Ok (bool_decide (o ≠ None)).

(** [tree.insert(make_pair(r, d)).first]: an element with an equivalent key stays *)
Fixpoint tree_insert tree (r : AddrRange) (d : V) : nat * list (AddrRange * V) :=
  match tree with
  | [] => (0%nat, [(r, d)])
  | (k, v) :: tree' =>
      if range_ltb r k then (0%nat, (r, d) :: tree)
      else if range_ltb k r then let '(i, t) := tree_insert tree' r d in (S i, (k, v) :: t)
      else (0%nat, tree)
  end.

Definition insert tree (r : AddrRange) (d : V) : res (option nat * list (AddrRange * V)) :=
  b ← intersect tree r;
  if (b : bool) then Ok (None, tree)
  else let '(i, t) := tree_insert tree r d in Ok (Some i, t).

(** [tree.erase(p)] *)
Definition erase tree (p : nat) : list (AddrRange * V) := delete p tree.
End map.
Arguments find {V} tree r.

(** ** The order of the keys *)

Definition key_lt (t r : AddrRange) : Prop :=
  _start t < _start r ∨ (_start t = _start r ∧ intlvMatch t < intlvMatch r).

Lemma range_ltb_spec t r : range_ltb t r = true ↔ key_lt t r.
Proof. unfold range_ltb, key_lt. case_decide; rewrite bool_decide_eq_true; lia. Qed.

Lemma key_lt_irrefl t : ¬ key_lt t t.
Proof. unfold key_lt. lia. Qed.

#[export] Instance key_lt_trans : Transitive key_lt.
Proof. unfold key_lt. intros ? ? ?. lia. Qed.

(** ** Well-formed maps

    Two ranges of a map are apart or stripes of the same chunk, as they are when the ranges
    describe the memories of one system. *)

Definition apart (t r : AddrRange) : Prop := _end t < _start r ∨ _end r < _start t.
Definition compatible (t r : AddrRange) : Prop :=
  apart t r ∨ (mergesWith t r = true ∧ intlvBits t ≠ 0 ∧ intlvMatch t ≠ intlvMatch r).

Section wf.
Context {V : Type}.
Implicit Types tree : list (AddrRange * V).

Record tree_ok tree : Prop := {
  tree_sorted : StronglySorted key_lt tree.*1;
  tree_wf : Forall (λ k, range_wf k ∧ _start k ≤ _end k) tree.*1;
  tree_apart : ∀ k k', k ∈ tree.*1 → k' ∈ tree.*1 → k = k' ∨ compatible k k';
}.

Lemma key_at_run tree i e : tree !! i = Some e → key_at tree i = Ok e.1.
Proof. intros Hi. unfold key_at. by rewrite Hi. Qed.

Lemma elem_of_keys tree i e : tree !! i = Some e → e.1 ∈ tree.*1.
Proof. intros Hi. apply list_elem_of_fmap_2. by apply list_elem_of_lookup_2 in Hi. Qed.

(** the order of the keys is the order of the positions *)
Lemma sorted_lookup tree i j e e' :
  StronglySorted key_lt tree.*1 → tree !! i = Some e → tree !! j = Some e' → (i < j)%nat → key_lt e.1 e'.1.
Proof.
  revert i j. induction tree as [|x tree IH]; intros i j Hs Hi Hj Hlt; [done|].
  apply StronglySorted_inv in Hs as [Hs Hall]. destruct j as [|j]; [lia|]. destruct i as [|i].
  - injection Hi as <-. eapply Forall_forall in Hall; [exact Hall|]. by eapply (elem_of_keys tree j).
  - apply (IH i j); [done..|lia].
Qed.

Lemma upper_bound_spec tree r i e :
  StronglySorted key_lt tree.*1 → tree !! i = Some e → (i < upper_bound tree r)%nat ↔ ¬ key_lt r e.1.
Proof.
  rewrite <-range_ltb_spec. revert i.
  induction tree as [|[k v] tree IH]; intros i Hs Hi; [done|]. cbn [upper_bound].
  apply StronglySorted_inv in Hs as [Hs Hall]. destruct (range_ltb r k) eqn:Hk.
  - split; [lia|]. intros Hn. exfalso. apply Hn. destruct i as [|i]; [by injection Hi as <-|].
    apply range_ltb_spec in Hk. apply range_ltb_spec. etrans; [exact Hk|].
    eapply Forall_forall in Hall; [exact Hall|]. by eapply (elem_of_keys tree i).
  - destruct i as [|i]; [injection Hi as <-; simpl; rewrite Hk; split; [done|lia]|].
    rewrite <-(IH i) by done. lia.
Qed.

Lemma upper_bound_le tree r : (upper_bound tree r ≤ length tree)%nat.
Proof. induction tree as [|[k v] tree IH]; simpl; [done|]. destruct (range_ltb r k); lia. Qed.

(** ** Looking up an address *)

Definition at_addr (a : Z) : AddrRange := AddrRange_plain a a.

Lemma RangeSize_one a : is_u64 a → RangeSize a 1 = at_addr a.
Proof. intros. unfold RangeSize, at_addr. rewrite Z.add_simpl_r. by rewrite u64_small. Qed.

Lemma intersects_addr k a : range_wf k → is_u64 a → intersects k (at_addr a) = Ok (bool_decide (has k a)).
Proof.
  intros Hk Ha. unfold intersects. case_decide as Hd; cbn [at_addr AddrRange_plain _start _end] in *.
  { rewrite bool_decide_eq_false_2; [done|]. unfold has. lia. }
  destruct (interleaved k) eqn:Hi; cbn [negb andb interleaved at_addr AddrRange_plain intlvBits bool_decide].
  - unfold ar_size. cbn [_start _end intlvBits at_addr AddrRange_plain]. rewrite u64_small by (unfold is_u64; lia).
    replace (a - a + 1) with 1 by lia. unfold u64_shr. rewrite decide_True by lia.
    cbn [mbind res_bind]. rewrite Z.shiftr_0_r, decide_True by done. by apply contains_run.
  - apply interleaved_false in Hi. rewrite (bool_decide_eq_true_2 (has k a)); [done|].
    split; [lia|done].
Qed.

(** the key of an address comes before the keys that start after it, and at
    the start of a chunk before all the stripes but the first *)
Lemma at_addr_lt a k : key_lt (at_addr a) k ↔ a < _start k ∨ (a = _start k ∧ 0 < intlvMatch k).
Proof. done. Qed.

Section lookup.
Context tree (Htree : tree_ok tree) (a : Z) (Ha : is_u64 a).

Lemma key_ok i e : tree !! i = Some e → range_wf e.1 ∧ _start e.1 ≤ _end e.1.
Proof. intros Hi%elem_of_keys. pose proof (tree_wf _ Htree) as Hwf. rewrite Forall_forall in Hwf. by apply Hwf. Qed.

Lemma key_intersects i e : tree !! i = Some e → intersects e.1 (at_addr a) = Ok (bool_decide (has e.1 a)).
Proof. intros [Hk _]%key_ok. by apply intersects_addr. Qed.

(** an address behind the start of a key is in no key before its chunk *)
Lemma not_before i j e e' :
  tree !! i = Some e → tree !! j = Some e' → (j ≤ i)%nat → _start e.1 ≤ a → has e'.1 a →
  e' = e ∨ (mergesWith e.1 e'.1 = true ∧ intlvBits e.1 ≠ 0).
Proof.
  intros Hi Hj Hle Hs [Hr _]. destruct (decide (j = i)) as [->|Hne]; [left; congruence|right].
  pose proof (sorted_lookup _ _ _ _ _ (tree_sorted _ Htree) Hj Hi ltac:(lia)) as Hlt.
  pose proof (key_ok _ _ Hi). destruct (tree_apart _ Htree e.1 e'.1) as [Heq|[Hap|[? [? _]]]];
    [by eapply elem_of_keys..| | |done].
  - rewrite Heq in Hlt. by apply key_lt_irrefl in Hlt.
  - unfold apart, key_lt in *. lia.
Qed.

Lemma step_back_run orig i0 i e :
  tree !! i0 = Some orig → _start orig.1 ≤ a → tree !! i = Some e → (i ≤ i0)%nat → ¬ has e.1 a →
  ∃ o, step_back tree (at_addr a) orig.1 i = Ok o ∧
    match o with
    | Some j => ∃ e', tree !! j = Some e' ∧ has e'.1 a
    | None => ∀ j e', (j ≤ i)%nat → tree !! j = Some e' → ¬ has e'.1 a
    end.
Proof.
  intros Hi0 Hs. revert e. induction i as [|i IH]; intros e Hi Hle Hn; cbn [step_back];
    rewrite (key_at_run _ _ _ Hi); cbn [mbind res_bind].
  { rewrite (key_intersects _ _ Hi), bool_decide_eq_false_2 by done. eexists. split; [done|].
    intros j e' Hj He'. assert (j = 0%nat) as -> by lia. congruence. }
  destruct (mergesWith e.1 orig.1) eqn:Hm.
  - destruct (lookup_lt_is_Some_2 tree i) as [e1 He1]; [apply lookup_lt_Some in Hi; lia|].
    rewrite (key_at_run _ _ _ He1). cbn [mbind res_bind]. rewrite (key_intersects _ _ He1).
    cbn [mbind res_bind]. case_bool_decide as Hh; [by eexists; split; [done|]; exists e1|].
    destruct (IH e1 He1 ltac:(lia) Hh) as (o & -> & Ho). exists o. split; [done|].
    destruct o as [j|]; [done|]. intros j e' Hj He'. destruct (decide (j = S i)) as [->|]; [congruence|].
    apply (Ho j e'); [lia|done].
  - rewrite (key_intersects _ _ Hi), bool_decide_eq_false_2 by done. eexists. split; [done|].
    intros j e' Hj He' Hh. destruct (not_before i0 j orig e') as [->|[Hm' Hb]]; [done|done|lia|done|done| |].
    + destruct (decide (j = i0)) as [->|]; [assert (i0 = S i) as -> by lia; congruence|].
      pose proof (sorted_lookup _ _ _ _ _ (tree_sorted _ Htree) He' Hi0 ltac:(lia)) as Hlt.
      by apply key_lt_irrefl in Hlt.
    + destruct (decide (j = S i)) as [->|]; [congruence|].
      pose proof (sorted_lookup _ _ _ _ _ (tree_sorted _ Htree) He' Hi ltac:(lia)) as Hlt.
      assert (Hlt2 : i0 = S i ∨ key_lt e.1 orig.1).
      { destruct (decide (i0 = S i)); [by left|right]. eapply sorted_lookup; [apply Htree|done|done|lia]. }
      apply mergesWith_spec in Hm' as (Hst & Hen & _). destruct Hlt2 as [->|Hlt2].
      { assert (e = orig) as -> by congruence. by rewrite (proj2 (mergesWith_spec _ _)) in Hm. }
      assert (Hse : _start e.1 = _start orig.1) by (unfold key_lt in *; lia).
      pose proof (key_ok _ _ Hi). pose proof (key_ok _ _ Hi0).
      destruct (tree_apart _ Htree e.1 orig.1) as [Heq|[Hap|[? _]]]; [by eapply elem_of_keys..| | |congruence].
      * rewrite Heq in Hm. by rewrite (proj2 (mergesWith_spec _ _)) in Hm.
      * unfold apart in Hap. lia.
Qed.

Lemma find_addr_run :
  ∃ o, find_addr tree a = Ok o ∧
    match o with
    | Some i => ∃ e, tree !! i = Some e ∧ has e.1 a
    | None => ∀ i e, tree !! i = Some e → has e.1 a → _start e.1 = a ∧ 0 < intlvMatch e.1
    end.
Proof.
  unfold find_addr, find. rewrite RangeSize_one by done. case_decide as Hnil.
  { exists None. split; [done|]. intros i e. by rewrite Hnil. }
  set (ub := upper_bound tree (at_addr a)).
  assert (Hafter : ∀ i e, tree !! i = Some e → (ub ≤ i)%nat → has e.1 a → _start e.1 = a ∧ 0 < intlvMatch e.1).
  { intros i e Hi Hub [Hr _]. pose proof (upper_bound_spec tree (at_addr a) i e (tree_sorted _ Htree) Hi) as Hu.
    fold ub in Hu. assert (Hlt : ¬ ¬ key_lt (at_addr a) e.1) by (rewrite <-Hu; lia).
    rewrite at_addr_lt in Hlt. lia. }
  destruct ub as [|i] eqn:Hub.
  - destruct (lookup_lt_is_Some_2 tree 0) as [e H0]; [by destruct tree; [|simpl; lia]|].
    rewrite (key_at_run _ _ _ H0). cbn [mbind res_bind]. rewrite (key_intersects _ _ H0). cbn [mbind res_bind].
    eexists. split; [done|]. case_bool_decide as Hh; [by exists e|]. intros j e' Hj. apply (Hafter j e' Hj). lia.
  - destruct (lookup_lt_is_Some_2 tree i) as [e He].
    { pose proof (upper_bound_le tree (at_addr a)). fold ub in H. lia. }
    rewrite (key_at_run _ _ _ He). cbn [mbind res_bind]. rewrite (key_intersects _ _ He). cbn [mbind res_bind].
    case_bool_decide as Hh; [by eexists; split; [done|]; exists e|].
    assert (Hs : _start e.1 ≤ a).
    { pose proof (upper_bound_spec tree (at_addr a) i e (tree_sorted _ Htree) He) as Hu. fold ub in Hu.
      assert (Hlt : ¬ key_lt (at_addr a) e.1) by (apply Hu; lia). rewrite at_addr_lt in Hlt. lia. }
    assert (Hnone : (∀ j e', (j ≤ i)%nat → tree !! j = Some e' → ¬ has e'.1 a) →
      ∀ j e', tree !! j = Some e' → has e'.1 a → _start e'.1 = a ∧ 0 < intlvMatch e'.1).
    { intros Hall j e' Hj Hh'. destruct (decide (j ≤ i)%nat); [by destruct (Hall j e')|].
      apply (Hafter j e' Hj); [lia|done]. }
    destruct (interleaved e.1) eqn:Hi.
    + destruct (step_back_run e i i e He Hs He ltac:(lia) Hh) as (o & Hr & Ho). exists o. split; [done|].
      destruct o; [done|]. by apply Hnone.
    + exists None. split; [done|]. apply Hnone. intros j e' Hj He' Hh'.
      destruct (not_before i j e e') as [->|[_ Hb]]; [done..|].
      apply interleaved_false in Hi. congruence.
Qed.

(** an address is in at most one element *)
Lemma has_unique i j e e' :
  tree !! i = Some e → tree !! j = Some e' → has e.1 a → has e'.1 a → i = j.
Proof.
  intros Hi Hj Hh Hh'. destruct (tree_apart _ Htree e.1 e'.1) as [Heq|[Hap|(Hm & Hb & Hne)]];
    [by eapply elem_of_keys..| | |].
  - destruct (decide (i = j)); [done|]. exfalso.
    destruct (decide (i < j)%nat);
      [pose proof (sorted_lookup _ i j _ _ (tree_sorted _ Htree) Hi Hj ltac:(lia)) as Hlt
      |pose proof (sorted_lookup _ j i _ _ (tree_sorted _ Htree) Hj Hi ltac:(lia)) as Hlt];
      rewrite Heq in Hlt; by apply key_lt_irrefl in Hlt.
  - destruct Hh as [? _], Hh' as [? _]. unfold apart in Hap. lia.
  - destruct Hne. by eapply has_merges_unique.
Qed.
End lookup.
End wf.

(** ** Inserting a range *)

Section insert.
Context {V : Type}.
Implicit Types tree : list (AddrRange * V).

Lemma apart_sym t r : apart t r → apart r t.
Proof. unfold apart. tauto. Qed.

Lemma compatible_sym t r : compatible t r → compatible r t.
Proof.
  intros [?|(Hm & Hb & Hne)]; [by left; apply apart_sym|right].
  apply mergesWith_spec in Hm as (? & ? & ? & ? & ?). split; [by apply mergesWith_spec|]. split; congruence.
Qed.

(** two compatible ranges are ordered *)
Lemma compatible_total t r :
  compatible t r → _start t ≤ _end t → _start r ≤ _end r → key_lt t r ∨ key_lt r t.
Proof.
  unfold key_lt. intros [?|(Hm & _ & Hne)] ? ?; [unfold apart in *; lia|].
  apply mergesWith_spec in Hm as (? & _). lia.
Qed.

Lemma compatible_intersects t r :
  range_wf r → ar_size r ≠ Ok 1 → compatible t r → intersects t r = Ok false.
Proof.
  intros Hr Hn Hc. unfold intersects. case_decide as Hd; [done|].
  destruct Hc as [?|(Hm & Hb & Hne)]; [unfold apart in *; lia|].
  rewrite (proj2 (interleaved_spec t)) by done. cbn [negb andb].
  unfold ar_size, u64_shr in *. pose proof (wf_bits r Hr). rewrite decide_True in Hn |- * by lia.
  cbn [mbind res_bind]. rewrite decide_False by congruence. rewrite Hm.
  by rewrite bool_decide_eq_false_2.
Qed.

Lemma step_back_none tree r orig i :
  (i < length tree)%nat → (∀ k, k ∈ tree.*1 → intersects k r = Ok false) → step_back tree r orig i = Ok None.
Proof.
  intros Hi Hall. induction i as [|i IH]; cbn [step_back];
    (destruct (lookup_lt_is_Some_2 tree _ Hi) as [e He]; rewrite (key_at_run _ _ _ He); cbn [mbind res_bind]).
  - by rewrite Hall by (by eapply elem_of_keys).
  - destruct (mergesWith e.1 orig); [|by rewrite Hall by (by eapply elem_of_keys)].
    destruct (lookup_lt_is_Some_2 tree i) as [e' He']; [lia|]. rewrite (key_at_run _ _ _ He'). cbn [mbind res_bind].
    rewrite Hall by (by eapply elem_of_keys). cbn [mbind res_bind]. apply IH. lia.
Qed.

Lemma find_none tree r : (∀ k, k ∈ tree.*1 → intersects k r = Ok false) → find tree r = Ok None.
Proof.
  intros Hall. unfold find. case_decide as Hnil; [done|]. pose proof (upper_bound_le tree r).
  assert (Hlen : (0 < length tree)%nat) by (destruct tree; [done|simpl; lia]).
  destruct (upper_bound tree r) as [|i].
  - destruct (lookup_lt_is_Some_2 tree 0 Hlen) as [e He]. rewrite (key_at_run _ _ _ He). cbn [mbind res_bind].
    by rewrite Hall by (by eapply elem_of_keys).
  - destruct (lookup_lt_is_Some_2 tree i) as [e He]; [lia|]. rewrite (key_at_run _ _ _ He). cbn [mbind res_bind].
    rewrite Hall by (by eapply elem_of_keys). cbn [mbind res_bind].
    destruct (interleaved e.1); [|done]. apply step_back_none; [lia|done].
Qed.

Lemma tree_insert_run tree r d :
  StronglySorted key_lt tree.*1 → (∀ k, k ∈ tree.*1 → key_lt k r ∨ key_lt r k) →
  let '(i, t) := tree_insert tree r d in
  StronglySorted key_lt t.*1 ∧ t ≡ₚ (r, d) :: tree ∧ t !! i = Some (r, d).
Proof.
  induction tree as [|[k v] tree IH]; intros Hs Htot; cbn [tree_insert].
  { split; [repeat constructor|done]. }
  rewrite fmap_cons in *. cbn [fst] in *. pose proof Hs as [Hs' Hall]%StronglySorted_inv.
  destruct (range_ltb r k) eqn:Hrk.
  - split; [|done]. apply range_ltb_spec in Hrk. constructor; [done|]. constructor; [done|].
    eapply Forall_impl; [exact Hall|]. intros x ?. by etrans.
  - destruct (range_ltb k r) eqn:Hkr.
    2: { exfalso. destruct (Htot k) as [H|H]; [by left|..]; apply range_ltb_spec in H; congruence. }
    apply range_ltb_spec in Hkr. specialize (IH Hs' (λ k' H, Htot k' (list_elem_of_further _ _ _ H))).
    destruct (tree_insert tree r d) as [i t]. destruct IH as (H1 & H2 & H3). split; [|split; [|done]].
    + rewrite fmap_cons. constructor; [done|]. rewrite H2. rewrite fmap_cons. by constructor.
    + rewrite H2. apply Permutation_swap.
Qed.
End insert.

(** ** Properties *)

(** A range that is apart from the ranges of a well-formed map or a new stripe
    of one of its chunks is inserted without a panic, at its place in the order, and the map
    stays well-formed with exactly this element added: building a map range by range keeps
    everything that decoding relies on.  (A stripe of one byte is the
    exception, which the test for an intersection takes for an address.) *)
Theorem map_insert_keeps_order (V : Type) (tree : list (AddrRange * V)) (r : AddrRange) (d : V)
    (Htree : tree_ok tree) (Hwf : range_wf r) (Hval : _start r ≤ _end r) (Hsize : ar_size r ≠ Ok 1)
    (Hnew : Forall (λ k, compatible k r) tree.*1) :
  ∃ i tree', insert tree r d = Ok (Some i, tree') ∧ tree_ok tree' ∧
    tree' ≡ₚ (r, d) :: tree ∧ tree' !! i = Some (r, d).
Proof.
  rewrite Forall_forall in Hnew. pose proof (tree_wf _ Htree) as Hall. rewrite Forall_forall in Hall.
  unfold insert, intersect. rewrite find_none by (intros k Hk; apply compatible_intersects; by try apply Hnew).
  cbn [mbind res_bind]. rewrite bool_decide_eq_false_2 by naive_solver.
  pose proof (tree_insert_run tree r d (tree_sorted _ Htree)) as Hins.
  destruct (tree_insert tree r d) as [i t]. destruct Hins as (Hs & Hp & Hi).
  { intros k Hk. destruct (Hall k Hk). apply compatible_total; [by apply Hnew|done|done]. }
  exists i, t. split; [done|]. split; [|done].
  assert (Hkeys : ∀ k, k ∈ t.*1 ↔ k = r ∨ k ∈ tree.*1).
  { intros k. rewrite Hp, fmap_cons. apply elem_of_cons. }
  split; [done| |].
  - apply Forall_forall. intros k [->|Hk]%Hkeys; [done|by apply Hall].
  - intros k k' [->|Hk]%Hkeys [->|Hk']%Hkeys; [by left| | |by apply (tree_apart _ Htree)]; right;
      [by apply compatible_sym, Hnew|by apply Hnew].
Qed.

(** C40: Decoding an address in a well-formed map (keys in order, ranges valid and either apart or
    different stripes of one chunk) always ends without a panic and is exact up to one gap:
    the element found is the only one that contains the address, and when
    nothing is found then no element contains it, except possibly a stripe
    with a nonzero match value for the very first address of its chunk. *)
Theorem map_lookup_decodes (V : Type) (tree : list (AddrRange * V)) (a : Z)
    (Htree : tree_ok tree) (Ha : is_u64 a) :
  ∃ o, find_addr tree a = Ok o ∧
    match o with
    | Some i => ∃ e, tree !! i = Some e ∧ contains e.1 a = Ok true ∧
        ∀ j e', tree !! j = Some e' → contains e'.1 a = Ok true → j = i
    | None => ∀ j e, tree !! j = Some e → contains e.1 a = Ok true → _start e.1 = a ∧ 0 < intlvMatch e.1
    end.
Proof.
  destruct (find_addr_run tree Htree a Ha) as (o & Hf & Ho). exists o. split; [done|].
  assert (Hc : ∀ j e, tree !! j = Some e → contains e.1 a = Ok true ↔ has e.1 a).
  { intros j e Hj. apply contains_true. by eapply key_ok. }
  destruct o as [i|].
  - destruct Ho as (e & He & Hh). exists e. split; [done|]. split; [by eapply Hc|].
    intros j e' Hj Hc'. apply (Hc j e' Hj) in Hc'. by eapply has_unique.
  - intros j e Hj Hc'. apply (Hc j e Hj) in Hc'. by eapply Ho.
Qed.


(** four channels of a memory at 1 MB with a hash that looks at bits 19 and 20 *)
Definition mem_channel (k : Z) : AddrRange := mkAddrRange 0x100000 0x1fffff 7 20 2 k.

Lemma mem_channel_wf k : 0 ≤ k < 4 → range_wf (mem_channel k).
Proof. intros. split; unfold is_u64, mem_channel, field_ok; simpl; lia. Qed.

Lemma mem_channel_compatible j k : j ≠ k → compatible (mem_channel j) (mem_channel k).
Proof. intros. right. by repeat split. Qed.

Definition mem_tree : list (AddrRange * Z) :=
  [(mem_channel 0, 0); (mem_channel 1, 1); (mem_channel 2, 2); (mem_channel 3, 3)].

Lemma mem_tree_keys k : k ∈ mem_tree.*1 → ∃ j, 0 ≤ j < 4 ∧ k = mem_channel j.
Proof.
  cbn. rewrite !elem_of_cons, elem_of_nil.
  intros [->|[->|[->|[->|[]]]]]; [exists 0|exists 1|exists 2|exists 3]; (split; [lia|done]).
Qed.

Lemma mem_tree_ok : tree_ok mem_tree.
Proof.
  split.
  - cbn. repeat constructor; right; simpl; lia.
  - apply Forall_forall. intros k (j & Hj & ->)%mem_tree_keys. split; [by apply mem_channel_wf|by unfold mem_channel; simpl].
  - intros k k' (i & Hi & ->)%mem_tree_keys (j & Hj & ->)%mem_tree_keys. destruct (decide (i = j)) as [->|]; [by left|right].
    by apply mem_channel_compatible.
Qed.

Lemma map_lookup_decodes_witness :
  ∃ o, find_addr mem_tree 0x100040 = Ok o ∧ o = Some 3%nat.
Proof.
  destruct (map_lookup_decodes Z mem_tree 0x100040 mem_tree_ok) as (o & Ho & _); [unfold is_u64; lia|].
  exists o. split; [exact Ho|]. vm_compute in Ho. by injection Ho as <-.
Defined.

Lemma map_insert_keeps_order_witness :
  ∃ i tree', insert mem_tree (AddrRange_plain 0 0xfff) 9 = Ok (Some i, tree') ∧ i = 0%nat ∧ tree_ok tree'.
Proof.
  destruct (map_insert_keeps_order Z mem_tree (AddrRange_plain 0 0xfff) 9 mem_tree_ok)
    as (i & tree' & Hi & Hok & _).
  - split; unfold is_u64; simpl; lia.
  - by simpl.
  - by vm_compute.
  - apply Forall_forall. intros k (j & Hj & ->)%mem_tree_keys. left. right. simpl. lia.
  - exists i, tree'. split; [exact Hi|]. split; [|exact Hok]. vm_compute in Hi. by injection Hi as <-.
Defined.

(** The two gaps of the map are real.  Four hashed channels that fill a memory
    at 1 MB are accepted one after the other, channel 2 contains the memory's
    first address, and looking this address up finds nothing.  And the
    test for conflicts looks only at the ranges before the new one: a range that
    covers a later range is accepted as if they were apart, and then an
    address that only the new range contains is not found. *)
Theorem map_misses_addresses :
  (insert [] (mem_channel 0) 0 = Ok (Some 0%nat, take 1 mem_tree)
   ∧ insert (take 1 mem_tree) (mem_channel 1) 1 = Ok (Some 1%nat, take 2 mem_tree)
   ∧ insert (take 2 mem_tree) (mem_channel 2) 2 = Ok (Some 2%nat, take 3 mem_tree)
   ∧ insert (take 3 mem_tree) (mem_channel 3) 3 = Ok (Some 3%nat, mem_tree)
   ∧ contains (mem_channel 2) 0x100000 = Ok true ∧ find_addr mem_tree 0x100000 = Ok None)
  ∧ (∀ lo hi : Z,
       let old := [(AddrRange_plain 0 9, lo); (AddrRange_plain 50 60, lo)] in
       let new := [(AddrRange_plain 0 9, lo); (AddrRange_plain 20 100, hi); (AddrRange_plain 50 60, lo)] in
       intersects (AddrRange_plain 50 60) (AddrRange_plain 20 100) = Ok true
       ∧ insert old (AddrRange_plain 20 100) hi = Ok (Some 1%nat, new)
       ∧ contains (AddrRange_plain 20 100) 70 = Ok true ∧ find_addr new 70 = Ok None).
Proof. split; [by vm_compute|]. intros lo hi. by vm_compute. Qed.

(** a plain range, then two channels, then a plain range *)
Definition ex_tree : list (AddrRange * Z) :=
  [(AddrRange_plain 0 0xfff, 0); (mkAddrRange 0x1000 0x1fff 6 0 1 0, 1);
   (mkAddrRange 0x1000 0x1fff 6 0 1 1, 2); (AddrRange_plain 0x3000 0x3fff, 3)].
Example ex_find :
  find_addr ex_tree 0x1080 = Ok (Some 1%nat) ∧ find_addr ex_tree 0x10c0 = Ok (Some 2%nat)
  ∧ find_addr ex_tree 0x2000 = Ok None ∧ find_addr ex_tree 0x3fff = Ok (Some 3%nat).
Proof. repeat split; reflexivity. Qed.
