(* ===== verification/XBarLayer.v ===== *)
(** * Layers of a crossbar ([BaseXBar::Layer], [mem/xbar.*])

    A layer is the arbitration point in front of one destination port: it
    lets one packet through at a time, keeps the ports it turned away in a
    queue and tells them when to try again.  A port is a number.  [sendRetry], which
    a layer calls on a source port, is an argument: the port may call the
    layer again before it returns.  [now] is [curTick()]. *)

From S2P Require Import Prelude.

Inductive DrainState := Running | Draining | Drained | Resuming.
#[export] Instance DrainState_eq_dec : EqDecision DrainState.
Proof. solve_decision. Defined.

Inductive State := IDLE | BUSY | RETRY.
#[export] Instance State_eq_dec : EqDecision State.
Proof. solve_decision. Defined.

Notation port := Z.

Record Layer := mkLayer {
  state : State;
  waitingForLayer : list port;      (* std::deque *)
  waitingForPeer : option port;
  releaseEvent : option Z;          (* the tick it is scheduled for *)
  occupancy : Z;
  drainState : DrainState;
}.
#[export] Instance Layer_settable : Settable Layer := λ r,
  mkLayer (state r) (waitingForLayer r) (waitingForPeer r) (releaseEvent r) (occupancy r) (drainState r).

Definition new_Layer : Layer := mkLayer IDLE [] None None 0 Running.

(** the part of [signalDrainDone] that changes the object *)
Definition signalDrainDone : M Layer unit :=
  s ← gets drainState;
  match s with
  | Draining => modify (λ l, l.{drainState := Drained})
  | Running | Drained | Resuming => mret tt
  end.

Section layer.
Context (now : Z).

(** [xbar.schedule(releaseEvent, until)] with the assertions of the event queue *)
Definition schedule_release (until : Z) : M Layer unit :=
  l ← get;
  check (bool_decide (now ≤ until)) ;;
  check (bool_decide (releaseEvent l = None)) ;;
  modify (λ l, l.{releaseEvent := Some until}).

Definition occupyLayer (until : Z) : M Layer unit :=
  l ← get;
  check (bool_decide (state l = BUSY)) ;;
  check (bool_decide (until ≠ 0)) ;;
  schedule_release until ;;
  modify (λ l, l.{occupancy ::= λ o, o + (until - now)}).

Definition tryTiming (src_port : port) : M Layer bool :=
  l ← get;
  if decide (state l = BUSY ∨ waitingForPeer l ≠ None) then
    check (bool_decide (src_port ∉ waitingForLayer l)) ;;
    modify (λ l, l.{waitingForLayer ::= λ q, q ++ [src_port] }) ;;
    mret false
  else
    modify (λ l, l.{state := BUSY}) ;; mret true.

Definition succeededTiming (busy_time : Z) : M Layer unit :=
  l ← get;
  check (bool_decide (state l = BUSY)) ;;
  occupyLayer busy_time.

Definition failedTiming (src_port : port) (busy_time : Z) : M Layer unit :=
  l ← get;
  check (bool_decide (waitingForPeer l = None)) ;;
  modify (λ l, l.{waitingForPeer := Some src_port}) ;;
  check (bool_decide (state l = BUSY)) ;;
  occupyLayer busy_time.

(** [sendRetry] and [xbar.clockEdge()] act on the whole crossbar [S], in which
    [at_layer] reaches this layer: the port that is told to retry may call the crossbar
    again before [sendRetry] returns *)
Section retry.
Context {S : Type} (at_layer : ∀ A, M Layer A → M S A).
Context (sendRetry : port → M S unit) (clockEdge : M S Z).
Arguments at_layer {A} _.

Definition retryWaiting : M S unit :=
  l ← at_layer get;
  match waitingForLayer l with
  | [] => throw AssertFailed
  | retryingPort :: rest =>
      check (bool_decide (state l = IDLE)) ;;
      at_layer (modify (λ l, l.{state := RETRY}.{waitingForLayer := rest})) ;;
      sendRetry retryingPort ;;
      l ← at_layer get;
      when (bool_decide (state l = RETRY))
        (at_layer (modify (λ l, l.{state := BUSY})) ;; e ← clockEdge; at_layer (occupyLayer e))
  end.

Definition releaseLayer : M S unit :=
  l ← at_layer get;
  check (bool_decide (state l = BUSY)) ;;
  check (bool_decide (releaseEvent l = None)) ;;
  at_layer (modify (λ l, l.{state := IDLE})) ;;
  if decide (waitingForLayer l ≠ []) then
    when (bool_decide (waitingForPeer l = None)) retryWaiting
  else
    when (bool_decide (waitingForPeer l = None) && bool_decide (drainState l = Draining))
      (at_layer signalDrainDone).

Definition recvRetry : M S unit :=
  l ← at_layer get;
  match waitingForPeer l with
  | None => throw AssertFailed
  | Some p =>
      at_layer (modify (λ l, l.{waitingForLayer ::= λ q, p :: q}.{waitingForPeer := None})) ;;
      l ← at_layer get;
      if decide (state l = IDLE) then retryWaiting
      else check (bool_decide (state l = BUSY))
  end.

(** the event queue runs [releaseEvent], which it has taken off its lists *)
Definition process_release : M S unit :=
  at_layer (modify (λ l, l.{releaseEvent := None})) ;; releaseLayer.
End retry.

(** [drain()]: the state that the drain manager stores *)
Definition drain : M Layer DrainState :=
  s ← gets state;
  if decide (s ≠ IDLE) then mret Draining else mret Drained.
End layer.

(** a layer by itself *)
Notation here := (λ A (m : M Layer A), m).

(** ** What a source port does with a layer

    A port that has a packet calls [tryTiming]; when it is let through it offers
    the packet to the destination, which accepts or refuses it, and reports the outcome with the
    tick until which the layer is taken. *)

Inductive outcome := Accepted (busy_time : Z) | Refused (busy_time : Z).

Definition attempt (now : Z) (src_port : port) (o : outcome) : M Layer bool :=
  ok ← tryTiming src_port;
  if (ok : bool) then
    match o with
    | Accepted t => succeededTiming now t
    | Refused t => failedTiming now src_port t
    end ;; mret true
  else mret false.

(** what the ports do in reaction to a retry, in zero time *)
Definition run_attempts (now : Z) (l : list (port * outcome)) : M Layer unit :=
  for_each l (λ a, attempt now a.1 a.2 ;; mret tt).

(** ** Lemmas *)

(** the ports that have been told to wait *)
Definition blocked (l : Layer) : list port := option_list (waitingForPeer l) ++ waitingForLayer l.

(** Between two calls the layer is idle or busy, busy exactly while its release is scheduled;
    no port waits twice; and an idle layer whose peer is not waited for
    has nobody in its queue: whoever was turned away will be told. *)
Record layer_ok (l : Layer) : Prop := {
  lk_state : state l = IDLE ∧ releaseEvent l = None ∨ state l = BUSY ∧ is_Some (releaseEvent l);
  lk_nodup : NoDup (blocked l);
  lk_no_lost : state l = IDLE → waitingForPeer l = None → waitingForLayer l = [];
}.

(** the same while a retry is being sent *)
Definition layer_retry (l : Layer) : Prop :=
  (state l = RETRY ∧ releaseEvent l = None ∧ waitingForPeer l = None
   ∨ state l = BUSY ∧ is_Some (releaseEvent l)) ∧ NoDup (blocked l).

Definition outcome_time (o : outcome) : Z := match o with Accepted t | Refused t => t end.

(** an attempt that keeps to the protocol *)
Definition allowed (now : Z) (l : Layer) (src_port : port) (o : outcome) : Prop :=
  src_port ∉ blocked l ∧ now ≤ outcome_time o ∧ outcome_time o ≠ 0.

(** run the next call or decide the next test *)
Ltac layer_run :=
  unfold get, gets, modify, check, when, mbind, M_bind, mret, M_ret, throw;
  repeat (progress cbn || (rewrite bool_decide_eq_true_2 by done) || (rewrite bool_decide_eq_false_2 by done)
    || (rewrite decide_True by (tauto || done)) || (rewrite decide_False by (tauto || done)));
  try reflexivity.

Lemma layer_new_ok : layer_ok new_Layer.
Proof. split; [by left|constructor|done]. Qed.

Lemma occupyLayer_run now until l :
  state l = BUSY → until ≠ 0 → now ≤ until → releaseEvent l = None →
  occupyLayer now until l = Ok (tt, l.{releaseEvent := Some until}.{occupancy ::= λ o, o + (until - now)}).
Proof.
  destruct l as [s q w r oc d]. cbn [state releaseEvent]. intros -> Hu Hn ->.
  unfold occupyLayer, schedule_release. layer_run.
Qed.

(** an attempt on a layer that is not busy and does not wait for its peer goes through *)
Lemma attempt_free now l p o :
  state l ≠ BUSY → waitingForPeer l = None → releaseEvent l = None → now ≤ outcome_time o → outcome_time o ≠ 0 →
  attempt now p o l = Ok (true, (l.{state := BUSY}.{waitingForPeer := match o with Accepted _ => None | Refused _ => Some p end}
    .{releaseEvent := Some (outcome_time o)}.{occupancy ::= λ x, x + (outcome_time o - now)})).
Proof.
  destruct l as [s q w r oc d]. cbn [state waitingForPeer releaseEvent]. intros Hs -> -> Hn H0.
  unfold attempt, tryTiming. layer_run. destruct o as [t|t]; cbn [outcome_time] in *;
    unfold succeededTiming, failedTiming; layer_run; by rewrite occupyLayer_run.
Qed.

Lemma attempt_blocked now l p o :
  state l = BUSY ∨ waitingForPeer l ≠ None → p ∉ waitingForLayer l →
  attempt now p o l = Ok (false, l.{waitingForLayer ::= λ q, q ++ [p] }).
Proof.
  intros Hb Hp. unfold attempt, tryTiming. layer_run.
Qed.

(** *** Attempts *)

Lemma blocked_push l p : blocked (l.{waitingForLayer ::= λ q, q ++ [p] }) = blocked l ++ [p].
Proof. unfold blocked. simpl. by rewrite app_assoc. Qed.

Lemma nodup_push (l : Layer) p : NoDup (blocked l) → p ∉ blocked l → NoDup (blocked l ++ [p]).
Proof.
  intros Hl Hp. apply NoDup_app. split; [done|]. split; [|apply NoDup_singleton].
  by intros x Hx ->%list_elem_of_singleton.
Qed.

Lemma not_blocked_queue l p : p ∉ blocked l → p ∉ waitingForLayer l.
Proof. unfold blocked. rewrite not_elem_of_app. tauto. Qed.

(** an attempt returns; it takes a free layer or queues the port *)
Lemma attempt_cases now l p o :
  allowed now l p o →
  (state l ≠ BUSY ∧ waitingForPeer l = None ∧ releaseEvent l = None) ∨ state l = BUSY ∨ waitingForPeer l ≠ None →
  ∃ b l', attempt now p o l = Ok (b, l') ∧ waitingForLayer l `prefix_of` waitingForLayer l' ∧
    (b = true ∧ state l ≠ BUSY ∧ state l' = BUSY ∧ releaseEvent l' = Some (outcome_time o) ∧
       blocked l' = match o with Accepted _ => [] | Refused _ => [p] end ++ waitingForLayer l
     ∨ b = false ∧ l' = l.{waitingForLayer ::= λ q, q ++ [p] }).
Proof.
  intros (Hp & Ht & H0) [(Hs & Hw & Hr)|Hb].
  - rewrite attempt_free by done. eexists _, _. split; [done|]. split; [done|]. left.
    repeat (split; [done|]). destruct o; [by unfold blocked|done].
  - rewrite attempt_blocked by (done || by apply not_blocked_queue). eexists _, _. split; [done|].
    split; [by apply prefix_app_r|]. by right.
Qed.

Lemma attempt_retry now l p o :
  layer_retry l → allowed now l p o →
  ∃ b l', attempt now p o l = Ok (b, l') ∧ layer_retry l' ∧ waitingForLayer l `prefix_of` waitingForLayer l'.
Proof.
  intros [Hs Hnd] Ha. destruct (attempt_cases now l p o Ha) as (b & l' & Hr & Hpre & Hc).
  { destruct Hs as [(-> & ? & ?)|[? ?]]; [by left|right; by left]. }
  exists b, l'. split; [done|]. split; [|done]. destruct Hc as [(_ & Hn & Hs' & Hr' & Hbl)|[-> ->]].
  - split; [right; split; [done|by eexists]|]. rewrite Hbl. destruct Hs as [(_ & _ & Hw)|[? _]]; [|done].
    destruct Ha as [Hp _]. unfold blocked in *. rewrite Hw in *. cbn in *.
    destruct o; [done|]. by constructor.
  - split; [|rewrite blocked_push; apply nodup_push; [done|apply Ha]].
    destruct Hs as [(H1 & H2 & H3)|H]; [|by right]. exfalso.
    rewrite attempt_free in Hr; [|by rewrite H1|done|done|apply Ha..]. discriminate Hr.
Qed.

Lemma attempt_ok now l p o :
  layer_ok l → allowed now l p o → ∃ b l', attempt now p o l = Ok (b, l') ∧ layer_ok l'.
Proof.
  intros [Hs Hnd Hlost] Ha. destruct (attempt_cases now l p o Ha) as (b & l' & Hr & _ & Hc).
  { destruct Hs as [(-> & ?)|[? ?]]; [|right; by left].
    destruct (waitingForPeer l) eqn:Hw; [right; by right|by left]. }
  exists b, l'. split; [done|]. destruct Hc as [(_ & Hn & Hs' & Hr' & Hbl)|[-> ->]].
  - split; [right; split; [done|by eexists]| |by rewrite Hs'].
    rewrite Hbl. destruct Ha as [Hp _]. apply NoDup_app in Hnd as (_ & _ & Hnd).
    destruct o; [done|]. constructor; [by apply not_blocked_queue|done].
  - split; [done|rewrite blocked_push; apply nodup_push; [done|apply Ha]|]. cbn. intros Hi Hw. exfalso.
    rewrite attempt_free in Hr; [discriminate Hr|by rewrite Hi|done| |apply Ha..].
    destruct Hs as [[_ ?]|[? _]]; [done|congruence].
Qed.

(** a sequence of attempts, each allowed when its turn comes *)
Fixpoint attempts_allowed (now : Z) (react : list (port * outcome)) (l : Layer) : Prop :=
  match react with
  | [] => True
  | (p, o) :: react =>
      allowed now l p o ∧ ∀ b l', attempt now p o l = Ok (b, l') → attempts_allowed now react l'
  end.

Lemma run_attempts_retry now react l :
  layer_retry l → attempts_allowed now react l →
  ∃ l', run_attempts now react l = Ok (tt, l') ∧ layer_retry l' ∧ waitingForLayer l `prefix_of` waitingForLayer l'.
Proof.
  unfold run_attempts. revert l. induction react as [|[p o] react IH]; intros l Hl Ha; cbn.
  { exists l. by split. }
  destruct Ha as [Ha Hrest]. destruct (attempt_retry now l p o Hl Ha) as (b & l1 & Hr & Hl1 & Hp1).
  destruct (IH l1 Hl1 (Hrest _ _ Hr)) as (l2 & Hr2 & Hl2 & Hp2).
  exists l2. split; [|split; [done|by etrans]]. unfold mbind, M_bind, mret, M_ret. by rewrite Hr.
Qed.

(** *** Retries *)

Section retries.
Context (now clockEdge : Z) (react : port → list (port * outcome)).
Hypothesis Hedge : now ≤ clockEdge ∧ clockEdge ≠ 0.

Notation sendRetry := (λ p, run_attempts now (react p)).

(** sending a retry leaves the layer busy, and the ports that were behind
    the retried one keep their places *)
Lemma retryWaiting_run l p rest :
  waitingForLayer l = p :: rest → state l = IDLE → releaseEvent l = None → waitingForPeer l = None → NoDup (blocked l) →
  attempts_allowed now (react p) (l.{state := RETRY}.{waitingForLayer := rest}) →
  ∃ l', retryWaiting now here sendRetry (mret clockEdge) l = Ok (tt, l') ∧ layer_ok l' ∧ state l' = BUSY ∧
    rest `prefix_of` waitingForLayer l'.
Proof.
  intros Hq Hs Hr Hw Hnd Ha. unfold retryWaiting. layer_run. rewrite Hq. layer_run.
  set (l0 := mkLayer _ _ _ _ _ _).
  assert (H0 : layer_retry l0).
  { split; [by left|]. unfold blocked in *. simpl. rewrite Hw, Hq in *. by apply NoDup_cons in Hnd as [_ ?]. }
  destruct (run_attempts_retry now (react p) l0 H0 Ha) as (l1 & -> & [Hs1 Hnd1] & Hp1). layer_run.
  destruct Hs1 as [(Hs1 & Hr1 & Hw1)|[Hs1 Hr1]].
  - rewrite bool_decide_eq_true_2 by done. rewrite occupyLayer_run by (done || tauto).
    eexists. split; [done|]. split; [|done]. split; [right; split; [done|by eexists]|done|done].
  - rewrite bool_decide_eq_false_2 by congruence. eexists. split; [done|]. split; [|done].
    split; [by right|done|congruence].
Qed.

(** the release of a busy layer *)
Lemma process_release_run l :
  layer_ok l → releaseEvent l = Some now →
  (∀ p rest, waitingForLayer l = p :: rest → waitingForPeer l = None →
     attempts_allowed now (react p) (l.{releaseEvent := None}.{state := RETRY}.{waitingForLayer := rest})) →
  ∃ l', process_release now here sendRetry (mret clockEdge) l = Ok (tt, l') ∧ layer_ok l' ∧
    match waitingForPeer l with
    | None => tail (waitingForLayer l) `prefix_of` waitingForLayer l' ∧
              (waitingForLayer l = [] ∨ state l' = BUSY)
    | Some _ => state l' = IDLE ∧ blocked l' = blocked l
    end.
Proof.
  intros [Hs Hnd Hlost] Hr Ha. destruct Hs as [[_ Hs]|[Hs _]]; [congruence|].
  destruct l as [s q w r oc d]. cbn [state releaseEvent waitingForPeer waitingForLayer] in *. subst s r.
  unfold process_release, releaseLayer. layer_run.
  assert (Hidle : q = [] ∨ w ≠ None → ∀ d', layer_ok (mkLayer IDLE q w None oc d')).
  { intros Hqw d'. split; [by left|exact Hnd|]. intros _ Hw. cbn in *. by destruct Hqw. }
  destruct q as [|p rest]; layer_run.
  - destruct w as [p|]; layer_run.
    + eexists. split; [done|]. split; [apply Hidle; by left|done].
    + case_bool_decide as Hd; layer_run.
      * unfold signalDrainDone. layer_run. rewrite Hd. layer_run. eexists. split; [done|].
        split; [apply Hidle; by left|split; [done|by left]].
      * eexists. split; [done|]. split; [apply Hidle; by left|split; [done|by left]].
  - destruct w as [p'|]; layer_run.
    + eexists. split; [done|]. split; [apply Hidle; by right|done].
    + destruct (retryWaiting_run (mkLayer IDLE (p :: rest) None None oc d) p rest)
        as (l' & Hrun & Hok & Hs' & Hp); [done..|by apply (Ha p rest)|].
      exists l'. split; [exact Hrun|]. split; [done|]. split; [done|by right].
Qed.

(** a retry from the peer of the destination port *)
Lemma recvRetry_run l p :
  layer_ok l → waitingForPeer l = Some p →
  (state l = IDLE → attempts_allowed now (react p) (l.{waitingForPeer := None}.{state := RETRY})) →
  ∃ l', recvRetry now here sendRetry (mret clockEdge) l = Ok (tt, l') ∧ layer_ok l' ∧ state l' = BUSY.
Proof.
  intros [Hs Hnd Hlost] Hw Ha. destruct l as [s q w r oc d].
  cbn [state releaseEvent waitingForPeer waitingForLayer] in *. subst w. unfold recvRetry. layer_run.
  destruct Hs as [[-> ->]|[-> Hr]]; layer_run.
  - destruct (retryWaiting_run (mkLayer IDLE (p :: q) None None oc d) p q) as (l' & Hrun & Hok & Hs' & _);
      [done..|by apply Ha|]. exists l'. split; [exact Hrun|done].
  - eexists. split; [done|]. split; [|done]. split; [by right|done|done].
Qed.
End retries.

(** ** The life of a layer *)

(** what can happen to a layer at a tick: a port tries to send, the release
    event runs, or the peer that refused a packet is ready; the last two carry
    the clock edge of the crossbar and the attempts each port makes when it is told to retry *)
Inductive layer_event :=
  | Send (src_port : port) (o : outcome)
  | Release (clockEdge : Z) (react : port → list (port * outcome))
  | PeerRetry (clockEdge : Z) (react : port → list (port * outcome)).

Definition run_event (now : Z) (e : layer_event) : M Layer unit :=
  match e with
  | Send p o => attempt now p o ;; mret tt
  | Release clockEdge react => process_release now here (λ p, run_attempts now (react p)) (mret clockEdge)
  | PeerRetry clockEdge react => recvRetry now here (λ p, run_attempts now (react p)) (mret clockEdge)
  end.

Definition edge_ok (now clockEdge : Z) : Prop := now ≤ clockEdge ∧ clockEdge ≠ 0.

(** the event keeps to the protocol: ports that wait do not call, the release runs when it is
    due, the peer sends a retry only after a refusal *)
Definition enabled (now : Z) (e : layer_event) (l : Layer) : Prop :=
  match e with
  | Send p o => allowed now l p o
  | Release clockEdge react =>
      edge_ok now clockEdge ∧ releaseEvent l = Some now ∧
      ∀ p rest, waitingForLayer l = p :: rest → waitingForPeer l = None →
        attempts_allowed now (react p) (l.{releaseEvent := None}.{state := RETRY}.{waitingForLayer := rest})
  | PeerRetry clockEdge react =>
      edge_ok now clockEdge ∧ ∃ p, waitingForPeer l = Some p ∧
        (state l = IDLE → attempts_allowed now (react p) (l.{waitingForPeer := None}.{state := RETRY}))
  end.

Inductive layer_reachable : Layer → Prop :=
  | reach_new : layer_reachable new_Layer
  | reach_step now e l l' :
      layer_reachable l → enabled now e l → run_event now e l = Ok (tt, l') → layer_reachable l'.

Lemma run_event_ok now e l :
  layer_ok l → enabled now e l → ∃ l', run_event now e l = Ok (tt, l') ∧ layer_ok l'.
Proof.
  intros Hl He. destruct e as [p o|ed react|ed react]; cbn in *.
  - destruct (attempt_ok now l p o Hl He) as (b & l' & Hr & Hok). exists l'. split; [|done].
    unfold mbind, M_bind. by rewrite Hr.
  - destruct He as (Hed & Hrel & Ha).
    destruct (process_release_run now ed react Hed l Hl Hrel Ha) as (l' & ? & ? & _). by exists l'.
  - destruct He as (Hed & p & Hw & Ha).
    destruct (recvRetry_run now ed react Hed l p Hl Hw Ha) as (l' & ? & ? & _). by exists l'.
Qed.

(** C15: No packet is left behind at a layer.  Whatever ports, peers and
    release events do, as long as ports that were told to wait wait, a layer never fails an assertion: not
    those on its states, not the double scheduling of its release.  And in every
    state it can reach between two events it is busy exactly while its release is
    scheduled, no port is queued twice, and if it is idle and does not wait for its
    peer then its queue is empty: a port that was turned away always has somebody who
    will tell it to retry, the release event or the peer. *)
Theorem layer_never_loses_a_port (l : Layer) (Hl : layer_reachable l) :
  (state l = IDLE ∧ releaseEvent l = None ∨ state l = BUSY ∧ is_Some (releaseEvent l))
  ∧ NoDup (blocked l)
  ∧ (state l = IDLE → waitingForPeer l = None → waitingForLayer l = [])
  ∧ ∀ now e, enabled now e l → ∃ l', run_event now e l = Ok (tt, l').
Proof.
  assert (Hok : layer_ok l).
  { induction Hl as [|now e l l' _ IH He Hr]; [apply layer_new_ok|].
    destruct (run_event_ok now e l IH He) as (l2 & Hr2 & Hok). congruence. }
  destruct Hok. repeat (split; [done|]). intros now e He.
  destruct (run_event_ok now e l ltac:(by split) He) as (l' & ? & _). by exists l'.
Qed.

Lemma layer_never_loses_a_port_witness :
  ∃ l, layer_reachable l ∧ waitingForLayer l = [2; 3] ∧ state l = BUSY ∧ NoDup (blocked l).
Proof.
  exists (mkLayer BUSY [2; 3] None (Some 10) 9 Running).
  assert (Hl : layer_reachable (mkLayer BUSY [2; 3] None (Some 10) 9 Running)).
  { apply (reach_step 1 (Send 3 (Accepted 20)) (mkLayer BUSY [2] None (Some 10) 9 Running)).
    - apply (reach_step 1 (Send 2 (Accepted 20)) (mkLayer BUSY [] None (Some 10) 9 Running)).
      + apply (reach_step 1 (Send 1 (Accepted 10)) new_Layer); [apply reach_new| |reflexivity].
        cbn. unfold allowed. cbn. split; [by apply not_elem_of_nil|lia].
      + cbn. unfold allowed. cbn. split; [by apply not_elem_of_nil|lia].
      + reflexivity.
    - cbn. unfold allowed. cbn. split; [by vm_compute; intros ?%list_elem_of_singleton|lia].
    - reflexivity. }
  destruct (layer_never_loses_a_port _ Hl) as (_ & Hnd & _). by repeat split.
Defined.

(** *** Fairness *)

(** releases at the given ticks, one after the other *)
Fixpoint releases (evs : list (Z * (Z * (port → list (port * outcome))))) : M Layer unit :=
  match evs with
  | [] => mret tt
  | (now, (clockEdge, react)) :: evs => run_event now (Release clockEdge react) ;; releases evs
  end.

(** each is due when its turn comes, and the peer has accepted what was sent since *)
Fixpoint releases_enabled (evs : list (Z * (Z * (port → list (port * outcome))))) (l : Layer) : Prop :=
  match evs with
  | [] => True
  | (now, (clockEdge, react)) :: evs =>
      enabled now (Release clockEdge react) l ∧ waitingForPeer l = None ∧
      ∀ l', run_event now (Release clockEdge react) l = Ok (tt, l') → releases_enabled evs l'
  end.

(** The queue of a layer is served in order: when the destination accepts what it is
    sent, a port at position [k] of the queue is at its head after [k] releases,
    whatever other ports, queued or new, attempt in the meantime; and the release of a
    layer sends the retry to the head of its queue, taken off the queue and with the layer
    in state [RETRY]; if this port does not call the layer, the layer stays taken until the next clock edge. *)
Theorem layer_serves_in_order (l : Layer) (evs : list (Z * (Z * (port → list (port * outcome))))) (p : port)
    (Hl : layer_ok l) (Hp : waitingForLayer l !! length evs = Some p) (Hevs : releases_enabled evs l) :
  (∃ l', releases evs l = Ok (tt, l') ∧ layer_ok l' ∧ head (waitingForLayer l') = Some p) ∧
  ∀ now sendRetry clockEdge l1 rest l2,
    state l1 = BUSY → waitingForPeer l1 = None → waitingForLayer l1 = p :: rest →
    sendRetry p (l1.{releaseEvent := None}.{state := RETRY}.{waitingForLayer := rest}) = Ok (tt, l2) →
    process_release now here sendRetry (mret clockEdge) l1 =
      if decide (state l2 = RETRY) then occupyLayer now clockEdge (l2.{state := BUSY}) else Ok (tt, l2).
Proof.
  split.
  - revert l Hl Hp Hevs. induction evs as [|[now [ed react]] evs IH]; intros l Hl Hp Hevs.
    { exists l. split; [done|]. split; [done|]. cbn in Hp. by destruct (waitingForLayer l). }
    destruct Hevs as ((Hed & Hrel & Ha) & Hw & Hrest).
    destruct (process_release_run now ed react Hed l Hl Hrel Ha) as (l1 & Hr & Hok & Hc).
    rewrite Hw in Hc. destruct Hc as [Hpre _].
    destruct (IH l1 Hok) as (l2 & Hr2 & Hok2 & Hh); [|by apply Hrest|].
    { cbn in Hp. destruct (waitingForLayer l) as [|p0 q]; [done|]. cbn in Hp, Hpre.
      by eapply prefix_lookup_Some. }
    exists l2. split; [|done]. cbn [releases run_event]. unfold mbind at 1, M_bind at 1. by rewrite Hr.
  - intros now sendRetry ed [s q w r oc d] rest l2. cbn [state waitingForPeer waitingForLayer].
    intros -> -> -> Hf. unfold process_release, releaseLayer. layer_run. unfold retryWaiting. layer_run.
    cbn in Hf. rewrite Hf. case_decide; layer_run.
Qed.

Lemma layer_serves_in_order_witness :
  ∃ l', releases [(10, (12, λ p, [(p, Accepted 20); (p, Accepted 30)]))]
          (mkLayer BUSY [2; 3] None (Some 10) 9 Running) = Ok (tt, l') ∧ waitingForLayer l' = [3; 2].
Proof.
  destruct (layer_serves_in_order (mkLayer BUSY [2; 3] None (Some 10) 9 Running)
    [(10, (12, λ p, [(p, Accepted 20); (p, Accepted 30)]))] 3) as [(l' & Hr & _) _].
  - split; [right; split; [done|by eexists]| |done]. apply (bool_decide_unpack _). by vm_compute.
  - done.
  - cbn. split; [|split; [done|done]]. split; [unfold edge_ok; lia|]. split; [done|].
    intros p rest [= <- <-] _. cbn. split; [split; [by vm_compute; intros ?%list_elem_of_singleton|cbn; lia]|].
    intros b l' [= <- <-]. split; [|done]. split; [by vm_compute; intros ?%list_elem_of_singleton|cbn; lia].
  - exists l'. split; [exact Hr|]. vm_compute in Hr. by injection Hr as <-.
Defined.
