(* ===== verification/SnoopFilter.v ===== *)
(** * The snoop filter of a crossbar ([mem/snoop_filter.*])

    For every cache line that a cache above the crossbar requested or holds the filter keeps two
    bit masks of ports.  It is asked which ports a request or a snoop must be
    forwarded to, and follows the requests and responses that pass by.  The hash
    map is a [gmap]; an iterator into it is the key it points to. *)

From S2P Require Import Prelude IntMath MemPacket.

(** ** State *)

(** a [SlavePort]: its id and whether the master connected to it snoops *)
Record SlavePort := mkSlavePort { port_id : Z; port_snooping : bool }.
#[export] Instance SlavePort_eq_dec : EqDecision SlavePort.
Proof. solve_decision. Defined.

Record SnoopItem := mkSnoopItem {
  requested : Z;    (* SnoopMask: uint64_t *)
  holder : Z;
}.
#[export] Instance SnoopItem_settable : Settable SnoopItem := λ r, mkSnoopItem (requested r) (holder r).
#[export] Instance SnoopItem_eq_dec : EqDecision SnoopItem.
Proof. solve_decision. Defined.

Record SnoopFilter := mkSnoopFilter {
  cachedLocations : gmap Z SnoopItem;
  reqLookupResult : option Z;          (* None: cachedLocations.end() *)
  retryItem : SnoopItem;
  sf_slavePorts : list SlavePort;
  localSlavePortIds : list Z;
  linesize : Z;
  lookupLatency : Z;
  maxEntryCount : Z;
  totRequests : Z;
  hitSingleRequests : Z;
  hitMultiRequests : Z;
  totSnoops : Z;
  hitSingleSnoops : Z;
  hitMultiSnoops : Z;
}.
#[export] Instance SnoopFilter_settable : Settable SnoopFilter := λ r,
  mkSnoopFilter (cachedLocations r) (reqLookupResult r) (retryItem r) (sf_slavePorts r)
    (localSlavePortIds r) (linesize r) (lookupLatency r) (maxEntryCount r) (totRequests r)
    (hitSingleRequests r) (hitMultiRequests r) (totSnoops r) (hitSingleSnoops r) (hitMultiSnoops r).

Definition InvalidPortID : Z := -1.
Definition LineSecure : Z := 1.

Definition SnoopFilter_new (cacheLineSize lookup_latency max_capacity : Z) : SnoopFilter :=
  mkSnoopFilter ∅ None (mkSnoopItem 0 0) [] [] cacheLineSize lookup_latency
    (max_capacity / cacheLineSize) 0 0 0 0 0 0.

(** ** Ports *)

(** the loop of [setSlavePorts]; [id] is an [int16_t] *)
Fixpoint add_ports (ports : list SlavePort) (id : Z) : M SnoopFilter unit :=
  match ports with
  | [] => mret tt
  | p :: ports =>
      if port_snooping p then
        f ← get;
        ids ← lift (vset (localSlavePortIds f) (port_id p) id);
        modify (λ f, f.{sf_slavePorts ::= λ l, l ++ [p] }.{localSlavePortIds := ids}) ;;
        add_ports ports (to_sint 16 (id + 1))
      else add_ports ports id
  end.

Definition setSlavePorts (slave_ports : list SlavePort) : M SnoopFilter unit :=
  modify (λ f, f.{localSlavePortIds := replicate (length slave_ports) InvalidPortID}) ;;
  add_ports slave_ports 0.

Definition portToMask (f : SnoopFilter) (port : SlavePort) : res Z :=
  if decide (port_id port = InvalidPortID) then Fault AssertFailed
  else if negb (port_snooping port) then Ok 0
  else i ← vget (localSlavePortIds f) (port_id port); u64_shl 1 i.

Fixpoint select_ports (f : SnoopFilter) (port_mask : Z) (ports : list SlavePort) : res (list SlavePort) :=
  match ports with
  | [] => Ok []
  | p :: ports =>
      m ← portToMask f p;
      l ← select_ports f port_mask ports;
      Ok (if decide (Z.land port_mask m = 0) then l else p :: l)
  end.
Definition maskToPortList (f : SnoopFilter) (port_mask : Z) : res (list SlavePort) :=
  select_ports f port_mask (sf_slavePorts f).

(** [snoopSelected(maskToPortList(m), lookupLatency)] and [snoopDown(lookupLatency)] *)
Definition snoopSelected (m : Z) : M SnoopFilter (list SlavePort * Z) :=
  f ← get; l ← lift (maskToPortList f m); mret (l, lookupLatency f).
Definition snoopDown : M SnoopFilter (list SlavePort * Z) :=
  f ← get; mret ([], lookupLatency f).

(** ** Entries *)

(** [cpkt->getBlockAddr(linesize)], with the low bit set for the secure space *)
Definition line_of (f : SnoopFilter) (cpkt : Packet) : res Z :=
  a ← getBlockAddr (linesize f) cpkt;
  s ← isSecure cpkt;
  Ok (if (s : bool) then Z.lor a LineSecure else a).

Definition set_item (line : Z) (i : SnoopItem) : M SnoopFilter unit :=
  modify (λ f, f.{cachedLocations ::= <[line := i]>}).

(** [sf_it] points to the entry of [line] *)
Definition eraseIfNullEntry (line : Z) : M SnoopFilter unit :=
  f ← get;
  match cachedLocations f !! line with
  | None => throw NullDeref
  | Some i =>
      when (bool_decide (Z.lor (requested i) (holder i) = 0))
        (modify (λ f, f.{cachedLocations ::= delete line}))
  end.

Definition panic_if {A} (b : bool) (m : M SnoopFilter A) : M SnoopFilter A :=
  if b then throw ExitCalled else m.

(** ** Requests from above *)

Definition lookupRequest (cpkt : Packet) (slave_port : SlavePort) : M SnoopFilter (list SlavePort * Z) :=
  let allocate := negb (isUncacheable (req cpkt)) && port_snooping slave_port && fromCache (pkt_cmd cpkt) in
  f ← get;
  line ← lift (line_of f cpkt);
  req_port ← lift (portToMask f slave_port);
  let found := cachedLocations f !! line in
  modify (λ f, f.{reqLookupResult := match found with Some _ => Some line | None => None end}) ;;
  if bool_decide (found = None) && negb allocate then snoopDown else
  let sf_item := default (mkSnoopItem 0 0) found in
  when (bool_decide (found = None))
    (set_item line sf_item ;; modify (λ f, f.{reqLookupResult := Some line})) ;;
  let interested := Z.lor (holder sf_item) (requested sf_item) in
  modify (λ f, f.{retryItem := sf_item}.{totRequests ::= Z.succ}) ;;
  when (bool_decide (found ≠ None))
    (if isPow2 interested then modify (λ f, f.{hitSingleRequests ::= Z.succ})
     else modify (λ f, f.{hitMultiRequests ::= Z.succ})) ;;
  let others := Z.land interested (u64_not req_port) in
  if negb allocate then snoopSelected others
  else if needsResponse (pkt_cmd cpkt) then
    if negb (cacheResponding cpkt) then
      panic_if (bool_decide (Z.land (requested sf_item) req_port ≠ 0))
        (set_item line (sf_item.{requested ::= λ m, Z.lor m req_port}) ;; snoopSelected others)
    else
      panic_if (bool_decide (Z.land (holder sf_item) req_port = 0)) (snoopSelected others)
  else
    check (isEviction (pkt_cmd cpkt)) ;;
    panic_if (bool_decide (Z.land (holder sf_item) req_port = 0))
      (when (negb (isBlockCached cpkt))
         (set_item line (sf_item.{holder ::= λ m, Z.land m (u64_not req_port)})) ;;
       snoopSelected others).

Definition finishRequest (will_retry : bool) (addr : Z) (is_secure : bool) : M SnoopFilter unit :=
  f ← get;
  match reqLookupResult f with
  | None => mret tt
  | Some line =>
      let line_addr := Z.land addr (u64_not (to_uint 32 (linesize f - 1))) in
      let line_addr := if is_secure then Z.lor line_addr LineSecure else line_addr in
      check (bool_decide (line = line_addr)) ;;
      when will_retry
        (if decide (cachedLocations f !! line = None) then throw NullDeref else set_item line (retryItem f)) ;;
      eraseIfNullEntry line
  end.

(** ** Snoops from below *)

Definition lookupSnoop (cpkt : Packet) : M SnoopFilter (list SlavePort * Z) :=
  check (isRequest (pkt_cmd cpkt)) ;;
  f ← get;
  line ← lift (line_of f cpkt);
  match cachedLocations f !! line with
  | None =>
      panic_if (bool_decide (maxEntryCount f ≤ Z.of_nat (size (cachedLocations f)))) snoopDown
  | Some sf_item =>
      let interested := Z.lor (holder sf_item) (requested sf_item) in
      modify (λ f, f.{totSnoops ::= Z.succ}) ;;
      (if isPow2 interested then modify (λ f, f.{hitSingleSnoops ::= Z.succ})
       else modify (λ f, f.{hitMultiSnoops ::= Z.succ})) ;;
      check (isWriteback (pkt_cmd cpkt) || isUncacheable (req cpkt)
             || Bool.eqb (isInvalidate (pkt_cmd cpkt)) (needsWritable (pkt_cmd cpkt))) ;;
      when (isInvalidate (pkt_cmd cpkt) && bool_decide (requested sf_item = 0))
        (set_item line (sf_item.{holder := 0})) ;;
      eraseIfNullEntry line ;;
      snoopSelected interested
  end.

(** ** Responses *)

Definition updateSnoopResponse (cpkt : Packet) (rsp_port req_port : SlavePort) : M SnoopFilter unit :=
  check (isResponse (pkt_cmd cpkt)) ;;
  check (cacheResponding cpkt) ;;
  if isUncacheable (req cpkt) || negb (port_snooping req_port) then mret tt else
  f ← get;
  line ← lift (line_of f cpkt);
  rsp_mask ← lift (portToMask f rsp_port);
  req_mask ← lift (portToMask f req_port);
  let sf_item := default (mkSnoopItem 0 0) (cachedLocations f !! line) in
  set_item line sf_item ;;
  panic_if (bool_decide (Z.land (holder sf_item) rsp_mask = 0))
  (panic_if (bool_decide (Z.land (requested sf_item) req_mask = 0))
  (let sf_item := if hasSharers cpkt then sf_item else sf_item.{holder := 0} in
   check (negb (isWriteback (pkt_cmd cpkt))) ;;
   let sf_item := sf_item.{holder ::= λ m, Z.lor m req_mask}
                    .{requested ::= λ m, Z.land m (u64_not req_mask)} in
   set_item line sf_item ;;
   check (bool_decide (Z.lor (requested sf_item) (holder sf_item) ≠ 0)))).

Definition updateSnoopForward (cpkt : Packet) : M SnoopFilter unit :=
  check (isResponse (pkt_cmd cpkt)) ;;
  check (cacheResponding cpkt) ;;
  f ← get;
  line ← lift (line_of f cpkt);
  match cachedLocations f !! line with
  | None => mret tt
  | Some sf_item =>
      when (negb (hasSharers cpkt)) (set_item line (sf_item.{holder := 0})) ;;
      eraseIfNullEntry line
  end.

Definition updateResponse (cpkt : Packet) (slave_port : SlavePort) : M SnoopFilter unit :=
  check (isResponse (pkt_cmd cpkt)) ;;
  if isUncacheable (req cpkt) || negb (port_snooping slave_port) then mret tt else
  f ← get;
  line ← lift (line_of f cpkt);
  match cachedLocations f !! line with
  | None => mret tt
  | Some sf_item =>
      slave_mask ← lift (portToMask f slave_port);
      panic_if (bool_decide (Z.land (requested sf_item) slave_mask = 0))
      (let sf_item := sf_item.{holder ::= λ m, Z.lor m slave_mask}
                        .{requested ::= λ m, Z.land m (u64_not slave_mask)} in
       set_item line sf_item ;;
       check (bool_decide (Z.lor (holder sf_item) (requested sf_item) ≠ 0)))
  end.

Definition ex_ports (n : nat) : list SlavePort := (λ i, mkSlavePort i true) <$> seqZ 0 (Z.of_nat n).
Definition ex_filter (n : nat) : res SnoopFilter :=
  match setSlavePorts (ex_ports n) (SnoopFilter_new 64 1 (8 * 2 ^ 20)) with Ok (_, f) => Ok f | Fault e => Fault e end.
Definition ex_request (c : Command) (a : Z) : Packet :=
  (Packet_new (plain_request 1 0) c).{pkt_addr := Some a}.

Example ex_lookup :
  (f ← ex_filter 3; lookupRequest (ex_request ReadSharedReq 0x1010) (mkSlavePort 1 true) f) ≫= (λ r, Ok (cachedLocations r.2 !! 0x1000))
  = Ok (Some (mkSnoopItem 2 0)).
Proof. reflexivity. Qed.

(** ** Lemmas: masks *)

Lemma land_not_ldiff m x : is_u64 m → Z.land m (u64_not x) = Z.ldiff m x.
Proof. intros Hm. unfold u64_not. rewrite land_u64 by done. by rewrite Z.ldiff_land. Qed.

Lemma land_pow2 m i : 0 ≤ i → Z.land m (2 ^ i) = 0 ↔ Z.testbit m i = false.
Proof.
  intros Hi. split.
  - intros H. assert (Hb : Z.testbit (Z.land m (2 ^ i)) i = false) by (by rewrite H, Z.bits_0).
    by rewrite Z.land_spec, Z.pow2_bits_true, andb_true_r in Hb by done.
  - intros H. apply Z.bits_inj'. intros j Hj. rewrite Z.land_spec, Z.pow2_bits_eqb, Z.bits_0 by done.
    destruct (Z.eqb_spec i j) as [->|]; [by rewrite H|by rewrite andb_false_r].
Qed.

(** a mask of [n] ports *)
Definition mask_in (n m : Z) : Prop := 0 ≤ m < 2 ^ n.

Lemma mask_in_u64 n m : 0 ≤ n ≤ 64 → mask_in n m → is_u64 m.
Proof. unfold mask_in, is_u64. intros Hn Hm. assert (2 ^ n ≤ 2 ^ 64) by (apply Z.pow_le_mono_r; lia). lia. Qed.

Lemma mask_in_bits n m : 0 ≤ n → mask_in n m ↔ 0 ≤ m ∧ ∀ i, n ≤ i → Z.testbit m i = false.
Proof.
  intros Hn. unfold mask_in. split.
  - intros Hm. split; [lia|]. intros i Hi. rewrite <-(Z.mod_small m (2 ^ n)) by lia.
    by apply Z.mod_pow2_bits_high; lia.
  - intros [Hm Hb]. destruct (decide (m = 0)) as [->|]; [lia|]. split; [done|].
    apply Z.log2_lt_pow2; [lia|]. destruct (decide (n ≤ Z.log2 m)) as [Hl|]; [|lia].
    specialize (Hb _ Hl). rewrite Z.bit_log2 in Hb by lia. done.
Qed.

Lemma mask_in_lor n x y : 0 ≤ n → mask_in n x → mask_in n y → mask_in n (Z.lor x y).
Proof.
  intros Hn [? Hx]%mask_in_bits [? Hy]%mask_in_bits; [|done..]. apply mask_in_bits; [done|].
  split; [by apply Z.lor_nonneg|]. intros i Hi. by rewrite Z.lor_spec, Hx, Hy.
Qed.

Lemma mask_in_ldiff n x y : 0 ≤ n → mask_in n x → mask_in n (Z.ldiff x y).
Proof.
  intros Hn [? Hx]%mask_in_bits; [|done]. apply mask_in_bits; [done|].
  split; [apply Z.ldiff_nonneg; by left|]. intros i Hi. by rewrite Z.ldiff_spec, Hx.
Qed.

Lemma mask_in_pow2 n i : 0 ≤ i < n → mask_in n (2 ^ i).
Proof. unfold mask_in. intros. split; [lia|]. apply Z.pow_lt_mono_r; lia. Qed.

(** ** Lemmas: ports *)

(** the ports are numbered in the order of the list, and a mask has room for them *)
Record ports_ok (f : SnoopFilter) : Prop := {
  po_ids : ∀ (i : nat) p, sf_slavePorts f !! i = Some p →
    port_snooping p = true ∧ 0 ≤ port_id p ∧ localSlavePortIds f !z port_id p = Some (Z.of_nat i);
  po_room : (length (sf_slavePorts f) ≤ 64)%nat;
}.

Notation nports f := (Z.of_nat (length (sf_slavePorts f))).

Lemma portToMask_run f i p : ports_ok f → sf_slavePorts f !! i = Some p → portToMask f p = Ok (2 ^ Z.of_nat i).
Proof.
  intros [Hids Hroom] Hi. destruct (Hids i p Hi) as (Hs & Hid & Hl). apply lookup_lt_Some in Hi.
  unfold portToMask, InvalidPortID. rewrite decide_False, Hs by lia. cbn [negb]. unfold vget. rewrite Hl.
  cbn [of_option mbind res_bind]. unfold u64_shl. rewrite decide_True by lia. f_equal.
  rewrite Z.shiftl_1_l. apply u64_small, pow2_u64. lia.
Qed.

Lemma portToMask_quiet f p : 0 ≤ port_id p → port_snooping p = false → portToMask f p = Ok 0.
Proof. intros Hp Hs. unfold portToMask, InvalidPortID. rewrite decide_False by lia. by rewrite Hs. Qed.

(** the ports of a mask *)
Fixpoint select (m : Z) (k : nat) (ports : list SlavePort) : list SlavePort :=
  match ports with
  | [] => []
  | p :: ports =>
      if Z.testbit m (Z.of_nat k) then p :: select m (S k) ports else select m (S k) ports
  end.

Lemma select_ports_run f m k ports :
  (∀ (j : nat) p, ports !! j = Some p → portToMask f p = Ok (2 ^ Z.of_nat (k + j))) →
  select_ports f m ports = Ok (select m k ports).
Proof.
  revert k. induction ports as [|p ports IH]; intros k Hp; [done|]. cbn [select_ports select].
  rewrite (Hp 0%nat p eq_refl), Nat.add_0_r. cbn [mbind res_bind]. rewrite (IH (S k)).
  2: { intros j q Hj. specialize (Hp (S j) q Hj). by rewrite Nat.add_succ_r in Hp. }
  cbn [mbind res_bind]. f_equal. destruct (Z.testbit m (Z.of_nat k)) eqn:Hb.
  - rewrite decide_False; [done|]. rewrite land_pow2 by lia. congruence.
  - rewrite decide_True; [done|]. rewrite land_pow2 by lia. done.
Qed.

Lemma maskToPortList_run f m : ports_ok f → maskToPortList f m = Ok (select m 0 (sf_slavePorts f)).
Proof. intros Hf. apply select_ports_run. intros j p Hj. by apply portToMask_run. Qed.

Lemma elem_of_select m k ports p :
  p ∈ select m k ports ↔ ∃ j : nat, ports !! j = Some p ∧ Z.testbit m (Z.of_nat (k + j)) = true.
Proof.
  revert k. induction ports as [|q ports IH]; intros k; cbn [select].
  { rewrite elem_of_nil. split; [done|]. by intros (j & ? & _). }
  assert (Htail : p ∈ select m (S k) ports ↔ ∃ j : nat, (q :: ports) !! S j = Some p ∧ Z.testbit m (Z.of_nat (k + S j)) = true).
  { rewrite IH. by setoid_rewrite Nat.add_succ_r. }
  destruct (Z.testbit m (Z.of_nat k)) eqn:Hb; rewrite ?elem_of_cons, Htail; split.
  - intros [->|(j & ? & ?)]; [exists 0%nat; by rewrite Nat.add_0_r|by exists (S j)].
  - intros ([|j] & Hj & Ht); [left; by injection Hj|right; by exists j].
  - intros (j & ? & ?). by exists (S j).
  - intros ([|j] & Hj & Ht); [rewrite Nat.add_0_r in Ht; congruence|by exists j].
Qed.

Lemma select_sublist m k ports : select m k ports `sublist_of` ports.
Proof.
  revert k. induction ports as [|p ports IH]; intros k; cbn [select]; [done|].
  destruct (Z.testbit _ _); by constructor.
Qed.

(** ** The invariant *)

Definition item_ok (n : Z) (i : SnoopItem) : Prop := mask_in n (requested i) ∧ mask_in n (holder i).
Definition null_item (i : SnoopItem) : Prop := Z.lor (requested i) (holder i) = 0.

(** every entry belongs to known ports, and to at least one *)
Record filter_ok (f : SnoopFilter) : Prop := {
  fo_ports : ports_ok f;
  fo_items : map_Forall (λ _ i, item_ok (nports f) i ∧ ¬ null_item i) (cachedLocations f);
}.

(** a port a request can come from *)
Definition known_port (f : SnoopFilter) (p : SlavePort) : Prop :=
  p ∈ sf_slavePorts f ∨ port_snooping p = false ∧ 0 ≤ port_id p.

Lemma known_mask f p : ports_ok f → known_port f p →
  ∃ m, portToMask f p = Ok m ∧ mask_in (nports f) m ∧
    (port_snooping p = false ∧ m = 0 ∨
     ∃ i : nat, sf_slavePorts f !! i = Some p ∧ m = 2 ^ Z.of_nat i ∧ port_snooping p = true).
Proof.
  intros Hf [[i Hi]%list_elem_of_lookup|[Hs Hid]].
  - exists (2 ^ Z.of_nat i). split; [by apply portToMask_run|]. split.
    + apply mask_in_pow2. apply lookup_lt_Some in Hi. lia.
    + right. exists i. destruct (po_ids f Hf i p Hi) as (? & _). done.
  - exists 0. split; [by apply portToMask_quiet|]. split; [unfold mask_in; lia|by left].
Qed.

(** the ports that a filter tracks for a line: outstanding requests and holders *)
Definition interested (f : SnoopFilter) (line : Z) : Z :=
  match cachedLocations f !! line with Some i => Z.lor (holder i) (requested i) | None => 0 end.
Definition tracked (f : SnoopFilter) (line : Z) (p : SlavePort) : Prop :=
  ∃ i : nat, sf_slavePorts f !! i = Some p ∧ Z.testbit (interested f line) (Z.of_nat i) = true.

Lemma elem_of_interested f line p :
  p ∈ select (interested f line) 0 (sf_slavePorts f) ↔ tracked f line p.
Proof. apply elem_of_select. Qed.

Lemma interested_in f line : filter_ok f → mask_in (nports f) (interested f line).
Proof.
  intros [Hp Hi]. unfold interested. destruct (cachedLocations f !! line) as [i|] eqn:Hl.
  - destruct (Hi line i Hl) as [[? ?] _]. apply mask_in_lor; [lia|done|done].
  - unfold mask_in. lia.
Qed.

Lemma nports_room f : ports_ok f → 0 ≤ nports f ≤ 64.
Proof. intros [_ ?]. lia. Qed.

(** ** Numbering the ports *)

Definition snooping (ports : list SlavePort) : list SlavePort := filter (λ p, port_snooping p = true) ports.

(** the numbers given so far: without the bound of 64 *)
Definition numbered (f : SnoopFilter) : Prop :=
  ∀ (i : nat) p, sf_slavePorts f !! i = Some p →
    port_snooping p = true ∧ 0 ≤ port_id p ∧ localSlavePortIds f !z port_id p = Some (Z.of_nat i).

Lemma numbered_push f p :
  numbered f → port_snooping p = true → 0 ≤ port_id p < zlength (localSlavePortIds f) →
  port_id p ∉ port_id <$> sf_slavePorts f →
  numbered (f.{sf_slavePorts ::= λ l, l ++ [p] }
             .{localSlavePortIds := vinsert (port_id p) (nports f) (localSlavePortIds f)}).
Proof.
  intros Hf Hs Hid Hnew i q. cbn. intros [Hi|[Hi Hq]]%lookup_app_Some.
  - destruct (Hf i q Hi) as (? & ? & ?). split; [done|]. split; [done|].
    rewrite vlookup_vinsert_ne; [done|]. intros Heq. apply Hnew. rewrite Heq.
    apply list_elem_of_fmap_2. by apply list_elem_of_lookup_2 in Hi.
  - apply list_lookup_singleton_Some in Hq as [Hz <-]. split; [done|]. split; [lia|].
    rewrite vlookup_vinsert_eq by done. f_equal. lia.
Qed.

Lemma add_ports_run ports f :
  numbered f → NoDup (port_id <$> sf_slavePorts f ++ ports) →
  Forall (λ p, 0 ≤ port_id p < zlength (localSlavePortIds f)) ports →
  nports f + zlength ports < 2 ^ 15 →
  ∃ ids, let f' := f.{sf_slavePorts ::= λ l, l ++ snooping ports}.{localSlavePortIds := ids} in
    add_ports ports (nports f) f = Ok (tt, f') ∧ numbered f'.
Proof.
  unfold zlength. revert f. induction ports as [|p ports IH]; intros f Hf Hnd Hall Hlen; cbn [add_ports].
  { exists (localSlavePortIds f). cbn. rewrite app_nil_r. by destruct f. }
  apply Forall_cons in Hall as [Hp Hall]. cbn [length] in Hlen. unfold snooping. rewrite filter_cons.
  destruct (port_snooping p) eqn:Hs.
  - rewrite decide_True by done. unfold get, lift, modify, mbind, M_bind.
    destruct (vlookup_in_range _ _ Hp) as [old Hold]. rewrite (vset_Some _ _ _ _ Hold).
    set (f1 := f.{sf_slavePorts ::= λ l, l ++ [p] }
                .{localSlavePortIds := vinsert (port_id p) (nports f) (localSlavePortIds f)}).
    assert (Hn : to_sint 16 (nports f + 1) = nports f1).
    { cbn. rewrite length_app. cbn. unfold to_sint. rewrite Z.mod_small by lia. rewrite decide_True by lia. lia. }
    rewrite Hn. destruct (IH f1) as (ids & Hr & Hnum).
    + apply numbered_push; [done..|]. rewrite fmap_app, fmap_cons in Hnd.
      apply NoDup_app in Hnd as (_ & Hnd & _). intros Hin. by apply (Hnd _ Hin), list_elem_of_here.
    + cbn. by rewrite <-app_assoc.
    + eapply Forall_impl; [exact Hall|]. intros q ?. cbn. by rewrite length_vinsert.
    + cbn. rewrite length_app. cbn. lia.
    + exists ids. cbn in *. rewrite <-app_assoc in Hr, Hnum. split; [exact Hr|exact Hnum].
  - rewrite decide_False by congruence. apply IH; [done| |done|lia].
    rewrite fmap_app in *. rewrite fmap_cons in Hnd.
    apply NoDup_app in Hnd as (H1 & H2 & H3). apply NoDup_app. split; [done|].
    apply NoDup_cons in H3 as [_ H3]. split; [|done]. intros x Hx Hin. by apply (H2 x Hx), list_elem_of_further.
Qed.

(** the slave ports of a crossbar: the id of a port is its position *)
Definition enumerated (ports : list SlavePort) : Prop :=
  ∀ (i : nat) p, ports !! i = Some p → port_id p = Z.of_nat i.

Lemma enumerated_ids ports : enumerated ports →
  NoDup (port_id <$> ports) ∧ Forall (λ p, 0 ≤ port_id p < zlength ports) ports.
Proof.
  intros He. split.
  - apply NoDup_alt. intros i j x Hi Hj. rewrite list_lookup_fmap in Hi, Hj.
    destruct (ports !! i) eqn:H1; [|done]. destruct (ports !! j) eqn:H2; [|done].
    apply He in H1, H2. simplify_eq/=. lia.
  - apply Forall_lookup. intros i p Hi. pose proof (He i p Hi). apply lookup_lt_Some in Hi. unfold zlength. lia.
Qed.

Lemma setSlavePorts_run ports ls lat cap :
  enumerated ports → zlength ports < 2 ^ 15 →
  ∃ f, setSlavePorts ports (SnoopFilter_new ls lat cap) = Ok (tt, f) ∧ numbered f ∧
    sf_slavePorts f = snooping ports ∧ cachedLocations f = ∅ ∧ linesize f = ls.
Proof.
  intros He Hlen. destruct (enumerated_ids ports He) as [Hnd Hall].
  unfold setSlavePorts, modify, mbind, M_bind.
  set (f0 := (SnoopFilter_new ls lat cap).{localSlavePortIds := replicate (length ports) InvalidPortID}).
  destruct (add_ports_run ports f0) as (ids & Hr & Hnum); [|exact Hnd| |cbn; lia|].
  - by intros i p.
  - eapply Forall_impl; [exact Hall|]. intros p ?. cbn. unfold zlength in *. by rewrite length_replicate.
  - eexists. split; [exact Hr|]. split; [exact Hnum|done].
Qed.

(** ** Lemmas: the operations *)

(** an operation changes neither the ports nor the parameters *)
Definition same_ports (f f' : SnoopFilter) : Prop :=
  sf_slavePorts f' = sf_slavePorts f ∧ localSlavePortIds f' = localSlavePortIds f ∧ linesize f' = linesize f
  ∧ lookupLatency f' = lookupLatency f ∧ maxEntryCount f' = maxEntryCount f.

Lemma same_ports_ok f f' : same_ports f f' → ports_ok f → ports_ok f'.
Proof. intros (H1 & H2 & _) [Hi Hr]. split; rewrite H1, ?H2; done. Qed.

Lemma same_ports_mask f f' p : same_ports f f' → portToMask f' p = portToMask f p.
Proof. intros (_ & H2 & _). unfold portToMask. by rewrite H2. Qed.

Definition line_addr (f : SnoopFilter) (a : Z) (sec : bool) : Z :=
  let l := Z.land a (u64_not (to_uint 32 (linesize f - 1))) in if sec then Z.lor l LineSecure else l.

Lemma line_of_run f pkt a : pkt_addr pkt = Some a → line_of f pkt = Ok (line_addr f a (_isSecure pkt)).
Proof. intros Ha. unfold line_of, getBlockAddr, isSecure, getAddr. by rewrite Ha. Qed.

Lemma snoopSelected_run f m :
  ports_ok f → snoopSelected m f = Ok ((select m 0 (sf_slavePorts f), lookupLatency f), f).
Proof. intros Hf. unfold snoopSelected, get, lift, mbind, M_bind. by rewrite maskToPortList_run. Qed.

Lemma eraseIfNullEntry_run f line i :
  cachedLocations f !! line = Some i →
  eraseIfNullEntry line f =
    Ok (tt, if decide (null_item i) then f.{cachedLocations ::= delete line} else f).
Proof.
  intros Hi. unfold eraseIfNullEntry, get, when, modify, mbind, M_bind, null_item. rewrite Hi.
  case_bool_decide as Hb; [by rewrite decide_True|by rewrite decide_False].
Qed.

(** what a lookup does to the entry *)
Definition request_item (pkt : Packet) (allocate : bool) (m : Z) (i : SnoopItem) : SnoopItem :=
  if negb allocate then i
  else if needsResponse (pkt_cmd pkt) then
    if negb (cacheResponding pkt) then i.{requested ::= λ r, Z.lor r m} else i
  else if negb (isBlockCached pkt) then i.{holder ::= λ h, Z.land h (u64_not m)} else i.

Definition allocates (pkt : Packet) (p : SlavePort) : bool :=
  negb (isUncacheable (req pkt)) && port_snooping p && fromCache (pkt_cmd pkt).

Definition item_of (f : SnoopFilter) (line : Z) : SnoopItem :=
  default (mkSnoopItem 0 0) (cachedLocations f !! line).

Section requests.
Context (f : SnoopFilter) (pkt : Packet) (p : SlavePort) (a m : Z).
Hypothesis Hf : filter_ok f.
Hypothesis Ha : pkt_addr pkt = Some a.
Hypothesis Hm : portToMask f p = Ok m.
Notation line := (line_addr f a (_isSecure pkt)).

(** a lookup that returns *)
Record looked_up (r : list SlavePort * Z) (f' : SnoopFilter) : Prop := {
  lu_ports : r = (select (Z.land (interested f line) (u64_not m)) 0 (sf_slavePorts f), lookupLatency f);
  lu_same : same_ports f f';
  lu_entry :
    cachedLocations f !! line = None ∧ allocates pkt p = false ∧
      reqLookupResult f' = None ∧ cachedLocations f' = cachedLocations f
    ∨ reqLookupResult f' = Some line ∧ retryItem f' = item_of f line ∧
      cachedLocations f' = <[line := request_item pkt (allocates pkt p) m (item_of f line)]> (cachedLocations f);
}.

(** every way through a lookup *)
Ltac lookup_cases :=
  repeat (case_match; unfold modify in *; simplify_eq/=; try discriminate);
  (rewrite snoopSelected_run by (eapply same_ports_ok; [|eassumption]; unfold same_ports; cbn; tauto));
  intros [= <- <-].

Lemma lookupRequest_inv r f' : lookupRequest pkt p f = Ok (r, f') → looked_up r f'.
Proof.
  pose proof (fo_ports _ Hf) as Hp. unfold lookupRequest. fold (allocates pkt p).
  unfold get, lift, modify, when, set_item, check, panic_if, throw, mbind, M_bind, mret, M_ret.
  rewrite (line_of_run _ _ _ Ha), Hm.
  assert (Hnone : cachedLocations f !! line = None → select (Z.land 0 (u64_not m)) 0 (sf_slavePorts f) = []).
  { intros _. rewrite Z.land_0_l. generalize (sf_slavePorts f) 0%nat. intros l.
    induction l as [|q l IH]; intros k; cbn; [done|]. by rewrite Z.bits_0. }
  destruct (cachedLocations f !! line) as [it|] eqn:Hl; cbn.
  - assert (Hid : <[line := it]> (cachedLocations f) = cachedLocations f) by (by apply insert_id).
    destruct (isPow2 _); destruct (allocates pkt p) eqn:Hal; cbn; lookup_cases;
      (split; [unfold interested; by rewrite Hl|unfold same_ports; cbn; tauto|right; cbn; split; [done|]]);
      unfold item_of, request_item; rewrite Hl, Hal; cbn; (split; [done|]);
      repeat case_match; try congruence; by rewrite ?Hid.
  - destruct (allocates pkt p) eqn:Hal; cbn.
    + lookup_cases;
        (split; [unfold interested; by rewrite Hl|unfold same_ports; cbn; tauto|right; cbn; split; [done|]]);
        unfold item_of, request_item; rewrite Hl, Hal; cbn; (split; [done|]);
        repeat case_match; try congruence; by rewrite ?insert_insert_eq.
    + unfold snoopDown, get, mbind, M_bind. intros [= <- <-].
      split; [unfold interested; by rewrite Hl, Hnone|unfold same_ports; cbn; tauto|left; by rewrite Hl].
Qed.

Lemma line_addr_same f' sec : same_ports f f' → line_addr f' a sec = line_addr f a sec.
Proof. intros (_ & _ & Hls & _). unfold line_addr. by rewrite Hls. Qed.

(** the item after an update is an entry of known ports *)
Lemma request_item_ok al i :
  mask_in (nports f) m → item_ok (nports f) i → item_ok (nports f) (request_item pkt al m i).
Proof.
  intros Hmi [Hr Hh]. pose proof (nports_room f (fo_ports _ Hf)). unfold request_item.
  repeat case_match; split; cbn; try done; [by apply mask_in_lor; try lia|].
  rewrite land_not_ldiff by (by eapply mask_in_u64; [|done]). apply mask_in_ldiff; [lia|done].
Qed.

Lemma item_of_ok line' : item_ok (nports f) (item_of f line').
Proof.
  unfold item_of. destruct (cachedLocations f !! line') as [i|] eqn:Hi; cbn.
  - by destruct (fo_items _ Hf _ _ Hi).
  - split; unfold mask_in; cbn; pose proof (nports_room f (fo_ports _ Hf)); lia.
Qed.

(** the end of a request: the entry is what the lookup left, or what it was before *)
Lemma finishRequest_run r f' (will_retry : bool) :
  looked_up r f' → reqLookupResult f' = Some line →
  let it := if will_retry then item_of f line
            else request_item pkt (allocates pkt p) m (item_of f line) in
  ∃ f'', finishRequest will_retry a (_isSecure pkt) f' = Ok (tt, f'') ∧ same_ports f f'' ∧
    cachedLocations f'' =
      if decide (null_item it) then delete line (cachedLocations f) else <[line := it]> (cachedLocations f).
Proof.
  intros [_ Hs He] Hsome it. destruct He as [(_ & _ & Hr & _)|(Hr & Hri & Hc)]; [congruence|].
  unfold finishRequest, get, when, mret, M_ret, mbind, M_bind. rewrite Hr. fold (line_addr f' a (_isSecure pkt)).
  rewrite (line_addr_same f') by done. unfold check. rewrite bool_decide_eq_true_2 by done. cbn.
  destruct will_retry.
  - rewrite decide_False by (rewrite Hc, lookup_insert_eq; done). unfold set_item, modify.
    erewrite eraseIfNullEntry_run by (cbn; by rewrite Hc, Hri, insert_insert_eq, lookup_insert_eq).
    eexists. split; [done|]. subst it. cbv beta iota. rewrite Hri.
    case_decide; cbn; (split; [exact Hs|]); rewrite Hc, insert_insert_eq; [|done].
    by rewrite delete_insert_eq.
  - erewrite eraseIfNullEntry_run by (by rewrite Hc, lookup_insert_eq).
    eexists. split; [done|]. subst it. case_decide; cbn; (split; [exact Hs|]); rewrite Hc; [|done].
    by rewrite delete_insert_eq.
Qed.
End requests.

(** *** Operations as updates of one entry *)

(** the entry of [line] is now [it], null entries being left out *)
Definition put_item (line : Z) (it : SnoopItem) (c : gmap Z SnoopItem) : gmap Z SnoopItem :=
  if decide (null_item it) then delete line c else <[line := it]> c.

Record updates (f f' : SnoopFilter) (line : Z) (it : SnoopItem) : Prop := {
  up_same : same_ports f f';
  up_item : cachedLocations f' = put_item line it (cachedLocations f);
}.

Lemma put_item_same f line : filter_ok f → put_item line (item_of f line) (cachedLocations f) = cachedLocations f.
Proof.
  intros [_ Hi]. unfold put_item, item_of. destruct (cachedLocations f !! line) as [it|] eqn:Hl; cbn.
  - destruct (Hi _ _ Hl) as [_ Hn]. rewrite decide_False by done. by apply insert_id.
  - by rewrite decide_True, delete_id.
Qed.

Lemma updates_same f f' line : filter_ok f → same_ports f f' → cachedLocations f' = cachedLocations f →
  updates f f' line (item_of f line).
Proof. intros Hf Hs Hc. split; [done|]. by rewrite put_item_same. Qed.

Lemma updates_ok f f' line it :
  filter_ok f → updates f f' line it → item_ok (nports f) it → filter_ok f'.
Proof.
  intros [Hp Hi] [Hs Hc] Hit. split; [by eapply same_ports_ok|]. destruct Hs as (-> & _). rewrite Hc.
  unfold put_item. case_decide; [by apply map_Forall_delete|]. by apply map_Forall_insert_2.
Qed.

Lemma updates_interested f f' line it line' :
  updates f f' line it →
  interested f' line' = if decide (line' = line) then Z.lor (holder it) (requested it) else interested f line'.
Proof.
  intros [_ Hc]. unfold interested. rewrite Hc. unfold put_item. case_decide as Hn; case_decide as Hl; subst.
  - rewrite lookup_delete_eq. unfold null_item in Hn. by rewrite Z.lor_comm.
  - by rewrite lookup_delete_ne.
  - by rewrite lookup_insert_eq.
  - by rewrite lookup_insert_ne.
Qed.

Lemma interested_item f line : interested f line = Z.lor (holder (item_of f line)) (requested (item_of f line)).
Proof. unfold interested, item_of. by destruct (cachedLocations f !! line). Qed.

Lemma eraseIfNullEntry_updates f f1 line it :
  same_ports f f1 → cachedLocations f1 = <[line := it]> (cachedLocations f) →
  ∃ f', eraseIfNullEntry line f1 = Ok (tt, f') ∧ updates f f' line it.
Proof.
  intros Hs Hc. erewrite eraseIfNullEntry_run by (by rewrite Hc, lookup_insert_eq).
  eexists. split; [done|]. unfold put_item. split; case_decide; cbn; try done;
    rewrite Hc; unfold put_item; [rewrite decide_True by done; by rewrite delete_insert_eq|by rewrite decide_False].
Qed.

(** *** Snoops and responses *)

Definition snoop_item (pkt : Packet) (i : SnoopItem) : SnoopItem :=
  if isInvalidate (pkt_cmd pkt) && bool_decide (requested i = 0) then i.{holder := 0} else i.

Lemma lookupSnoop_inv f pkt a r f' :
  filter_ok f → pkt_addr pkt = Some a → lookupSnoop pkt f = Ok (r, f') →
  let line := line_addr f a (_isSecure pkt) in
  r.1 = select (interested f line) 0 (sf_slavePorts f) ∧
  updates f f' line (snoop_item pkt (item_of f line)).
Proof.
  intros Hf Ha. unfold lookupSnoop, check. destruct (isRequest _); [|done].
  unfold get, lift, modify, set_item, when, mret, M_ret, mbind, M_bind. rewrite (line_of_run _ _ _ Ha).
  set (line := line_addr f a (_isSecure pkt)). unfold interested, item_of.
  destruct (cachedLocations f !! line) as [it|] eqn:Hl; cbn.
  - assert (Hgo : ∀ f1 m, same_ports f f1 → cachedLocations f1 = <[line := snoop_item pkt it]> (cachedLocations f) →
      match eraseIfNullEntry line f1 with Ok (_, s) => snoopSelected m s | Fault e => Fault e end = Ok (r, f') →
      r.1 = select m 0 (sf_slavePorts f) ∧ updates f f' line (snoop_item pkt it)).
    { intros f1 m Hs Hc. destruct (eraseIfNullEntry_updates f f1 line _ Hs Hc) as (f2 & -> & Hup).
      rewrite snoopSelected_run by (eapply same_ports_ok; [apply Hup|apply Hf]). intros [= <- <-].
      split; [|done]. cbn. by destruct (up_same _ _ _ _ Hup) as (-> & _). }
    destruct (isPow2 _); (destruct (isWriteback _ || _ || _); [|discriminate]); cbn;
      (destruct (isInvalidate (pkt_cmd pkt) && bool_decide (requested it = 0)) eqn:Hinv; cbn;
       intros Hr; (apply Hgo in Hr; [exact Hr|unfold same_ports; cbn; tauto|]);
       unfold snoop_item; rewrite Hinv; cbn; first [done | by rewrite insert_id]).
  - unfold panic_if, snoopDown, throw, get, mbind, M_bind. case_bool_decide; [done|]. intros [= <- <-]. split.
    + cbn. generalize (sf_slavePorts f) 0%nat. intros l.
      induction l as [|q l IH]; intros k; cbn; [done|]. by rewrite Z.bits_0.
    + replace (snoop_item pkt (mkSnoopItem 0 0)) with (item_of f line).
      2: { unfold item_of, snoop_item. rewrite Hl. cbn. by destruct (_ && _). }
      apply updates_same; [done|unfold same_ports; tauto|done].
Qed.

(** the response is for a cacheable request of a snooping port *)
Definition passes (pkt : Packet) (p : SlavePort) : bool :=
  negb (isUncacheable (req pkt)) && port_snooping p.

Lemma passes_negb pkt p : isUncacheable (req pkt) || negb (port_snooping p) = negb (passes pkt p).
Proof. unfold passes. by destruct (isUncacheable _), (port_snooping p). Qed.

Definition pass_item (m : Z) (i : SnoopItem) : SnoopItem :=
  i.{holder ::= λ h, Z.lor h m}.{requested ::= λ r, Z.land r (u64_not m)}.

Lemma updateResponse_inv f pkt p a f' :
  filter_ok f → pkt_addr pkt = Some a → updateResponse pkt p f = Ok (tt, f') →
  let line := line_addr f a (_isSecure pkt) in
  updates f f' line (item_of f line) ∧ (passes pkt p = false ∨ cachedLocations f !! line = None) ∨
  ∃ m, passes pkt p = true ∧ is_Some (cachedLocations f !! line) ∧
    portToMask f p = Ok m ∧ Z.land (requested (item_of f line)) m ≠ 0 ∧
    updates f f' line (pass_item m (item_of f line)).
Proof.
  intros Hf Ha. unfold updateResponse, check. destruct (isResponse _); [|done].
  unfold get, lift, set_item, panic_if, throw, modify, mret, M_ret, mbind, M_bind.
  rewrite passes_negb. destruct (passes pkt p) eqn:Hpass; cbn [negb].
  2: { intros [= <-]. left. split; [|by left]. apply updates_same; [done|unfold same_ports; tauto|done]. }
  rewrite (line_of_run _ _ _ Ha). set (line := line_addr f a (_isSecure pkt)).
  destruct (cachedLocations f !! line) as [it|] eqn:Hl.
  2: { intros [= <-]. left. split; [|by right]. apply updates_same; [done|unfold same_ports; tauto|done]. }
  destruct (portToMask f p) as [m|]; [|done]. case_bool_decide as Hr; [done|]. cbn.
  case_bool_decide as Hn; [|done]. intros [= <-]. right. exists m. split; [done|]. split; [done|]. split; [done|].
  assert (Hit : item_of f line = it) by (unfold item_of; by rewrite Hl). rewrite Hit. split; [done|].
  split; [unfold same_ports; cbn; tauto|]. unfold put_item.
  rewrite decide_False; [done|]. unfold null_item, pass_item. cbn. by rewrite Z.lor_comm.
Qed.

Definition dirty_item (pkt : Packet) (i : SnoopItem) : SnoopItem :=
  if hasSharers pkt then i else i.{holder := 0}.

Lemma updateSnoopForward_inv f pkt a f' :
  filter_ok f → pkt_addr pkt = Some a → updateSnoopForward pkt f = Ok (tt, f') →
  let line := line_addr f a (_isSecure pkt) in
  updates f f' line (dirty_item pkt (item_of f line)).
Proof.
  intros Hf Ha. unfold updateSnoopForward, check. destruct (isResponse _); [|done].
  destruct (cacheResponding _); [|done].
  unfold get, lift, set_item, when, modify, mret, M_ret, mbind, M_bind. rewrite (line_of_run _ _ _ Ha).
  set (line := line_addr f a (_isSecure pkt)). unfold dirty_item, item_of.
  destruct (cachedLocations f !! line) as [it|] eqn:Hl; cbn.
  - destruct (hasSharers pkt) eqn:Hsh; cbn; match goal with |- context [eraseIfNullEntry line ?f1] =>
      destruct (eraseIfNullEntry_updates f f1 line (dirty_item pkt it)) as (f2 & -> & Hup);
        [unfold same_ports; cbn; tauto|unfold dirty_item; rewrite Hsh; cbn; first [done | by rewrite insert_id]|] end;
      unfold dirty_item in Hup; rewrite Hsh in Hup; by intros [= <-].
  - intros [= <-]. replace (if hasSharers pkt then _ else _) with (item_of f line).
    2: { unfold item_of. rewrite Hl. by destruct (hasSharers pkt). }
    apply updates_same; [done|unfold same_ports; tauto|done].
Qed.

Lemma updateSnoopResponse_inv f pkt rsp p a f' :
  filter_ok f → pkt_addr pkt = Some a → updateSnoopResponse pkt rsp p f = Ok (tt, f') →
  let line := line_addr f a (_isSecure pkt) in
  updates f f' line (item_of f line) ∧ passes pkt p = false ∨
  ∃ m, passes pkt p = true ∧ portToMask f p = Ok m ∧ Z.land (requested (item_of f line)) m ≠ 0 ∧
    updates f f' line (pass_item m (dirty_item pkt (item_of f line))).
Proof.
  intros Hf Ha. unfold updateSnoopResponse, check. destruct (isResponse _); [|done].
  destruct (cacheResponding _); [|done].
  unfold get, lift, set_item, panic_if, throw, modify, mret, M_ret, mbind, M_bind.
  rewrite passes_negb. destruct (passes pkt p) eqn:Hpass; cbn [negb].
  2: { intros [= <-]. left. split; [|done]. apply updates_same; [done|unfold same_ports; tauto|done]. }
  rewrite (line_of_run _ _ _ Ha). set (line := line_addr f a (_isSecure pkt)).
  destruct (portToMask f rsp) as [m1|]; [|done]. destruct (portToMask f p) as [m|]; [|done].
  fold (item_of f line). case_bool_decide; [done|]. case_bool_decide as Hr; [done|].
  destruct (negb _); [|done]. fold (dirty_item pkt (item_of f line)). cbn.
  case_bool_decide as Hn; [|done]. intros [= <-]. right. exists m. split; [done|]. split; [done|]. split; [done|].
  split; [unfold same_ports; cbn; tauto|]. unfold put_item.
  rewrite decide_False by done. cbn. by rewrite insert_insert_eq.
Qed.

Lemma ex_ports_enumerated n : enumerated (ex_ports n).
Proof.
  intros i p Hp. unfold ex_ports in Hp. rewrite list_lookup_fmap in Hp.
  destruct (seqZ 0 (Z.of_nat n) !! i) as [z|] eqn:Hz; [|discriminate Hp]. apply lookup_seqZ in Hz as [-> _].
  injection Hp as <-. simpl. lia.
Qed.

Lemma numbered_ok f : numbered f → (length (sf_slavePorts f) ≤ 64)%nat → cachedLocations f = ∅ → filter_ok f.
Proof. intros Hn Hl Hc. split; [by split|]. rewrite Hc. apply map_Forall_empty. Qed.

(** a filter with three ports *)
Definition ex3 : SnoopFilter :=
  match setSlavePorts (ex_ports 3) (SnoopFilter_new 64 1 8388608) with Ok (_, f) => f | Fault _ => SnoopFilter_new 64 1 0 end.

Lemma ex3_ok : filter_ok ex3.
Proof.
  destruct (setSlavePorts_run (ex_ports 3) 64 1 8388608 (ex_ports_enumerated 3)) as (f & Hr & Hn & Hp & Hc & _); [done|].
  unfold ex3. rewrite Hr. apply numbered_ok; [done|rewrite Hp; vm_compute; lia|done].
Qed.

(** ** Properties *)

(** C39: The filter supports exactly 64 snooping ports and nothing checks it: the
    check of [setSlavePorts] for the width of the mask is commented out.  Up to 64 ports the numbering
    gives every port its own bit, and the new filter satisfies the invariant.  With more it still
    returns normally, but the mask of every port after the 64th is a shift by the width of
    the type or more, so that turning any mask into a list of ports, which every
    lookup that hits does, is undefined. *)
Theorem filter_supports_64_ports (ports : list SlavePort) (ls lat cap : Z)
    (Henum : enumerated ports) (Hlen : zlength ports < 2 ^ 15) :
  ∃ f, setSlavePorts ports (SnoopFilter_new ls lat cap) = Ok (tt, f) ∧
    ((length (snooping ports) ≤ 64)%nat → filter_ok f ∧
       ∀ (i : nat) p, snooping ports !! i = Some p → portToMask f p = Ok (2 ^ Z.of_nat i)) ∧
    ((64 < length (snooping ports))%nat →
       (∀ (i : nat) p, (64 ≤ i)%nat → snooping ports !! i = Some p → portToMask f p = Fault UndefinedOp) ∧
       ∀ m, maskToPortList f m = Fault UndefinedOp).
Proof.
  destruct (setSlavePorts_run ports ls lat cap Henum Hlen) as (f & Hr & Hnum & Hports & Hc & _).
  exists f. split; [done|]. rewrite <-Hports. split.
  - intros Hn. split; [by apply numbered_ok|]. intros i p. apply portToMask_run. by split.
  - intros Hn.
    assert (Hmask : ∀ (i : nat) p, sf_slavePorts f !! i = Some p →
      portToMask f p = if decide (Z.of_nat i < 64) then Ok (2 ^ Z.of_nat i) else Fault UndefinedOp).
    { intros i p Hi. destruct (Hnum i p Hi) as (Hs & Hid & Hl). unfold portToMask, InvalidPortID.
      rewrite decide_False, Hs by lia. cbn [negb]. unfold vget. rewrite Hl. cbn [of_option mbind res_bind].
      unfold u64_shl. case_decide as Hd; [rewrite decide_True by lia|by rewrite decide_False by lia].
      f_equal. rewrite Z.shiftl_1_l. apply u64_small, pow2_u64. lia. }
    split; [intros i p Hi Hp; rewrite (Hmask i p Hp); by rewrite decide_False by lia|].
    intros m. unfold maskToPortList.
    assert (H : ∀ l k, (∀ (j : nat) p, l !! j = Some p → sf_slavePorts f !! (k + j)%nat = Some p) →
      (k ≤ 64 < k + length l)%nat → select_ports f m l = Fault UndefinedOp).
    { induction l as [|p l IH]; intros k Hl Hk; cbn in Hk; [lia|]. cbn [select_ports].
      pose proof (Hl 0%nat p eq_refl) as Hp. rewrite Nat.add_0_r in Hp. rewrite (Hmask _ _ Hp).
      case_decide; [|done]. cbn [mbind res_bind]. rewrite (IH (S k)); [done| |lia].
      intros j q Hj. rewrite <-(Hl (S j) q Hj). f_equal. lia. }
    apply (H _ 0%nat); [by intros j p|lia].
Qed.

Lemma filter_supports_64_ports_witness :
  ∃ f, setSlavePorts (ex_ports 65) (SnoopFilter_new 64 1 8388608) = Ok (tt, f) ∧
    maskToPortList f 1 = Fault UndefinedOp.
Proof.
  destruct (filter_supports_64_ports (ex_ports 65) 64 1 8388608) as (f & Hf & _ & H65).
  - apply ex_ports_enumerated.
  - reflexivity.
  - exists f. split; [exact Hf|]. apply H65. vm_compute. lia.
Defined.

