(* ===== verification/SnoopTrack.v ===== *)
(** * What a snoop filter tracks

    The operations of [SnoopFilter] related to an abstract filter: for every
    line a set of ports that ask for it and a set of ports that hold it. *)

From S2P Require Import Prelude IntMath MemPacket SnoopFilter.

(** ** What the filter knows, as sets of ports *)

(** [q] has an outstanding request for the line; [q] holds the line *)
Definition asks (f : SnoopFilter) (line : Z) (q : SlavePort) : Prop :=
  ∃ i : nat, sf_slavePorts f !! i = Some q ∧ Z.testbit (requested (item_of f line)) (Z.of_nat i) = true.
Definition holds (f : SnoopFilter) (line : Z) (q : SlavePort) : Prop :=
  ∃ i : nat, sf_slavePorts f !! i = Some q ∧ Z.testbit (holder (item_of f line)) (Z.of_nat i) = true.

Lemma tracked_iff f line q : tracked f line q ↔ asks f line q ∨ holds f line q.
Proof.
  unfold tracked, asks, holds. rewrite interested_item. split.
  - intros (i & Hi & H). rewrite Z.lor_spec in H. apply orb_true_iff in H as [H|H]; [right|left]; by exists i.
  - intros [(i & Hi & H)|(i & Hi & H)]; exists i; (split; [done|]); rewrite Z.lor_spec, H; by rewrite ?orb_true_r.
Qed.

Lemma updates_item f f' line it l :
  updates f f' line it → mask_in (nports f) (requested it) → mask_in (nports f) (holder it) →
  item_of f' l = if decide (l = line) then it else item_of f l.
Proof.
  intros [_ Hc] Hr Hh. unfold item_of. rewrite Hc. unfold put_item. case_decide as Hn; case_decide as Hl; subst.
  - rewrite lookup_delete_eq. cbn. unfold null_item in Hn. apply Z.lor_eq_0_iff in Hn as [H1 H2].
    destruct it. cbn in *. by subst.
  - by rewrite lookup_delete_ne.
  - by rewrite lookup_insert_eq.
  - by rewrite lookup_insert_ne.
Qed.

(** a port has one bit *)
Lemma port_bit f i k q p :
  ports_ok f → sf_slavePorts f !! i = Some q → sf_slavePorts f !! k = Some p →
  Z.of_nat i = Z.of_nat k ↔ q = p.
Proof.
  intros [Hids _] Hi Hk. split; [intros; assert (i = k) as -> by lia; congruence|]. intros ->.
  destruct (Hids i p Hi) as (_ & _ & H1). destruct (Hids k p Hk) as (_ & _ & H2). congruence.
Qed.

Lemma testbit_pow2 k i : 0 ≤ k → Z.testbit (2 ^ k) i = bool_decide (i = k).
Proof.
  intros Hk. rewrite Z.pow2_bits_eqb by done. case_bool_decide as H; [by apply Z.eqb_eq|].
  apply Z.eqb_neq. congruence.
Qed.

(** ** The abstract filter

    Two sets of (line, port) pairs, and what each complete operation of the filter does to them. *)

Inductive sf_op :=
  | Request (pkt : Packet) (p : SlavePort) (will_retry : bool)
  | Snoop (pkt : Packet)
  | Response (pkt : Packet) (p : SlavePort)
  | SnoopResponse (pkt : Packet) (rsp p : SlavePort)
  | SnoopForward (pkt : Packet).

Definition run_op (op : sf_op) : M SnoopFilter unit :=
  match op with
  | Request pkt p will_retry =>
      lookupRequest pkt p ;;
      a ← lift (getAddr pkt); s ← lift (isSecure pkt); finishRequest will_retry a s
  | Snoop pkt => lookupSnoop pkt ;; mret tt
  | Response pkt p => updateResponse pkt p
  | SnoopResponse pkt rsp p => updateSnoopResponse pkt rsp p
  | SnoopForward pkt => updateSnoopForward pkt
  end.

Definition op_pkt (op : sf_op) : Packet :=
  match op with Request pkt _ _ | Snoop pkt | Response pkt _ | SnoopResponse pkt _ _ | SnoopForward pkt => pkt end.
Definition op_port (op : sf_op) : option SlavePort :=
  match op with Request _ p _ | Response _ p | SnoopResponse _ _ p => Some p | Snoop _ | SnoopForward _ => None end.

(** [Asks], [Holds]: the sets before; [here]: the pair is of the line of the operation *)
Definition spec_asks (op : sf_op) (known here : Prop) (q : SlavePort) (Asks : Prop) : Prop :=
  match op with
  | Request pkt p will_retry =>
      Asks ∨ (here ∧ will_retry = false ∧ allocates pkt p = true ∧ needsResponse (pkt_cmd pkt) = true
              ∧ cacheResponding pkt = false ∧ q = p)
  | Response pkt p => Asks ∧ ¬ (here ∧ passes pkt p = true ∧ known ∧ q = p)
  | SnoopResponse pkt rsp p => Asks ∧ ¬ (here ∧ passes pkt p = true ∧ q = p)
  | Snoop _ | SnoopForward _ => Asks
  end.

(** [nobody]: no port asks for the line *)
Definition spec_holds (op : sf_op) (known nobody here : Prop) (q : SlavePort) (Holds : Prop) : Prop :=
  match op with
  | Request pkt p will_retry =>
      Holds ∧ ¬ (here ∧ will_retry = false ∧ allocates pkt p = true ∧ needsResponse (pkt_cmd pkt) = false
                 ∧ isBlockCached pkt = false ∧ q = p)
  | Snoop pkt => Holds ∧ ¬ (here ∧ isInvalidate (pkt_cmd pkt) = true ∧ nobody)
  | Response pkt p => Holds ∨ (here ∧ passes pkt p = true ∧ known ∧ q = p)
  | SnoopResponse pkt rsp p =>
      (Holds ∧ ¬ (here ∧ passes pkt p = true ∧ hasSharers pkt = false)) ∨ (here ∧ passes pkt p = true ∧ q = p)
  | SnoopForward pkt => Holds ∧ ¬ (here ∧ hasSharers pkt = false)
  end.

(** every operation is an update of the entry of its line *)
Definition op_item (op : sf_op) (f : SnoopFilter) (line m : Z) : SnoopItem :=
  let i := item_of f line in
  match op with
  | Request pkt p will_retry => if will_retry then i else request_item pkt (allocates pkt p) m i
  | Snoop pkt => snoop_item pkt i
  | Response pkt p =>
      if passes pkt p && bool_decide (is_Some (cachedLocations f !! line)) then pass_item m i else i
  | SnoopResponse pkt rsp p => if passes pkt p then pass_item m (dirty_item pkt i) else i
  | SnoopForward pkt => dirty_item pkt i
  end.

Section ops.
Context (f : SnoopFilter) (Hf : filter_ok f).

Lemma request_absent pkt al m line :
  cachedLocations f !! line = None → al = false → request_item pkt al m (item_of f line) = item_of f line.
Proof. by intros _ ->. Qed.

Lemma run_op_updates op a f' :
  pkt_addr (op_pkt op) = Some a → (∀ p, op_port op = Some p → known_port f p) → run_op op f = Ok (tt, f') →
  let line := line_addr f a (_isSecure (op_pkt op)) in
  ∃ m, (∀ p, op_port op = Some p → portToMask f p = Ok m) ∧ updates f f' line (op_item op f line m).
Proof.
  intros Ha Hknown Hr line. destruct op as [pkt p wr|pkt|pkt p|pkt rsp p|pkt]; cbn in Ha, Hknown, Hr, line.
  - destruct (known_mask f p (fo_ports _ Hf) (Hknown p eq_refl)) as (m & Hm & _).
    exists m. split; [by intros ? [= <-]|]. unfold lift, mbind, M_bind in Hr. unfold isSecure, getAddr in Hr.
    rewrite Ha in Hr. cbn in Hr. destruct (lookupRequest pkt p f) as [[r f1]|] eqn:Hl; [|done].
    apply (lookupRequest_inv f pkt p a m Hf Ha Hm) in Hl. cbn [op_item].
    destruct (lu_entry _ _ _ _ _ _ _ Hl) as [(Hn & Hal & He & Hc)|(He & _ & _)].
    + unfold finishRequest, get, mbind, M_bind in Hr. rewrite He in Hr. injection Hr as <-.
      rewrite request_absent by done. replace (if wr then _ else _) with (item_of f line) by (by destruct wr).
      by apply updates_same; [|apply Hl|].
    + destruct (finishRequest_run f pkt p a m r f1 wr Hl He) as (f2 & Hfin & Hs & Hc).
      rewrite Hfin in Hr. injection Hr as <-. split; [done|]. exact Hc.
  - exists 0. split; [done|]. unfold mbind, M_bind in Hr. destruct (lookupSnoop pkt f) as [[r f1]|] eqn:Hl; [|done].
    injection Hr as <-. by apply (lookupSnoop_inv f pkt a r f1 Hf Ha) in Hl as [_ Hl].
  - cbn. destruct (known_mask f p (fo_ports _ Hf) (Hknown p eq_refl)) as (m & Hm & _).
    exists m. split; [by intros ? [= <-]|].
    apply (updateResponse_inv f pkt p a f' Hf Ha) in Hr as [[Hup Hor]|(m' & Hp & Hsome & Hm' & _ & Hup)].
    + destruct Hor as [->|Hn]; [done|]. cbn [op_item]. fold line in Hn. rewrite Hn, andb_false_r by done. done.
    + rewrite Hp, bool_decide_eq_true_2 by done. by assert (m' = m) as -> by congruence.
  - cbn. destruct (known_mask f p (fo_ports _ Hf) (Hknown p eq_refl)) as (m & Hm & _).
    exists m. split; [by intros ? [= <-]|].
    apply (updateSnoopResponse_inv f pkt rsp p a f' Hf Ha) in Hr as [[Hup ->]|(m' & -> & Hm' & _ & Hup)]; [done|].
    by assert (m' = m) as -> by congruence.
  - exists 0. split; [done|]. by apply updateSnoopForward_inv.
Qed.

Lemma pass_item_ok m it : mask_in (nports f) m → item_ok (nports f) it → item_ok (nports f) (pass_item m it).
Proof.
  intros Hm [Hr Hh]. pose proof (nports_room f (fo_ports _ Hf)). split; cbn.
  - rewrite land_not_ldiff by (by apply (mask_in_u64 (nports f))). apply mask_in_ldiff; [lia|done].
  - by apply mask_in_lor; try lia.
Qed.

Lemma no_holder_ok it : item_ok (nports f) it → item_ok (nports f) (it.{holder := 0}).
Proof. intros [Hr Hh]. split; cbn; [done|]. unfold mask_in. pose proof (nports_room f (fo_ports _ Hf)). lia. Qed.

Lemma op_item_ok op line m : mask_in (nports f) m → item_ok (nports f) (op_item op f line m).
Proof.
  intros Hm. pose proof (item_of_ok f Hf line) as Hi. destruct op as [pkt p [] | pkt | pkt p | pkt rsp p | pkt]; cbn [op_item].
  - done.
  - by apply (request_item_ok f pkt m Hf).
  - unfold snoop_item. case_match; [by apply no_holder_ok|done].
  - case_match; [by apply pass_item_ok|done].
  - case_match; [|done]. apply pass_item_ok; [done|]. unfold dirty_item. case_match; [done|by apply no_holder_ok].
  - unfold dirty_item. case_match; [done|by apply no_holder_ok].
Qed.

(** the bits of a port in the items after an operation *)
Section bits.
Context (q : SlavePort) (i : nat) (Hq : sf_slavePorts f !! i = Some q).

Lemma asks_bit l : asks f l q ↔ Z.testbit (requested (item_of f l)) (Z.of_nat i) = true.
Proof.
  split; [|by exists i]. intros (j & Hj & H).
  by rewrite (proj2 (port_bit f i j q q (fo_ports _ Hf) Hq Hj) eq_refl).
Qed.
Lemma holds_bit l : holds f l q ↔ Z.testbit (holder (item_of f l)) (Z.of_nat i) = true.
Proof.
  split; [|by exists i]. intros (j & Hj & H).
  by rewrite (proj2 (port_bit f i j q q (fo_ports _ Hf) Hq Hj) eq_refl).
Qed.

(** a mask tested at the bit of [q]: it is the mask of [p] *)
Lemma mask_bit p m : known_port f p → portToMask f p = Ok m →
  Z.testbit m (Z.of_nat i) = true ↔ port_snooping p = true ∧ q = p.
Proof.
  intros Hp Hm. destruct (known_mask f p (fo_ports _ Hf) Hp) as (m' & Hm' & _ & Hcase).
  assert (m' = m) as -> by congruence. destruct Hcase as [[Hs ->]|(k & Hk & -> & Hs)].
  - rewrite Z.bits_0, Hs. split; [done|]. by intros [? _].
  - rewrite testbit_pow2, bool_decide_eq_true by lia. rewrite (port_bit f i k q p (fo_ports _ Hf) Hq Hk). tauto.
Qed.

Lemma land_not_bit h m : mask_in (nports f) h →
  Z.testbit (Z.land h (u64_not m)) (Z.of_nat i) = true ↔
  Z.testbit h (Z.of_nat i) = true ∧ ¬ Z.testbit m (Z.of_nat i) = true.
Proof.
  intros Hh. pose proof (nports_room f (fo_ports _ Hf)).
  rewrite land_not_ldiff by (by apply (mask_in_u64 (nports f))).
  rewrite Z.ldiff_spec, andb_true_iff, negb_true_iff, not_true_iff_false. done.
Qed.

Lemma lor_bit h m :
  Z.testbit (Z.lor h m) (Z.of_nat i) = true ↔
  Z.testbit h (Z.of_nat i) = true ∨ Z.testbit m (Z.of_nat i) = true.
Proof. by rewrite Z.lor_spec, orb_true_iff. Qed.
End bits.

(** an empty set of requests is a zero mask *)
Lemma nobody_asks line : requested (item_of f line) = 0 ↔ ¬ ∃ q, asks f line q.
Proof.
  destruct (item_of_ok f Hf line) as [Hr _]. pose proof (nports_room f (fo_ports _ Hf)) as Hn. split.
  - intros H0 (q & i & _ & H). by rewrite H0, Z.bits_0 in H.
  - intros Hno. apply mask_in_bits in Hr as [Hr0 Hr]; [|lia]. apply Z.bits_inj'. intros i Hi. rewrite Z.bits_0.
    destruct (Z.testbit _ i) eqn:Hb; [|done]. destruct (decide (nports f ≤ i)); [by rewrite Hr in Hb by done|].
    destruct (lookup_lt_is_Some_2 (sf_slavePorts f) (Z.to_nat i)) as [q Hq]; [lia|].
    exfalso. apply Hno. exists q, (Z.to_nat i). split; [done|]. by rewrite Z2Nat.id.
Qed.

(** an entry exists for the lines that some port asks for or holds *)
Lemma entry_tracked line : is_Some (cachedLocations f !! line) ↔ ∃ q, tracked f line q.
Proof.
  pose proof (nports_room f (fo_ports _ Hf)) as Hn. split.
  - intros [it Hit]. destruct (fo_items _ Hf _ _ Hit) as [[Hr Hh] Hnull].
    assert (Hm : mask_in (nports f) (Z.lor (holder it) (requested it))) by (by apply mask_in_lor; try lia).
    apply mask_in_bits in Hm as [Hm0 Hm]; [|lia].
    assert (Hne : Z.lor (holder it) (requested it) ≠ 0) by (unfold null_item in Hnull; by rewrite Z.lor_comm).
    set (x := Z.lor (holder it) (requested it)) in *. pose proof (Z.log2_nonneg x).
    assert (Hb : Z.testbit x (Z.log2 x) = true) by (apply Z.bit_log2; lia).
    destruct (decide (nports f ≤ Z.log2 x)); [by rewrite Hm in Hb by done|].
    destruct (lookup_lt_is_Some_2 (sf_slavePorts f) (Z.to_nat (Z.log2 x))) as [q Hq]; [lia|].
    exists q, (Z.to_nat (Z.log2 x)). split; [done|]. unfold interested. rewrite Hit, Z2Nat.id by done. done.
  - intros (q & i & _ & H). unfold interested in H. destruct (cachedLocations f !! line); [done|].
    by rewrite Z.bits_0 in H.
Qed.

Lemma allocates_snooping pkt p : allocates pkt p = true → port_snooping p = true.
Proof. unfold allocates. intros [[_ ?]%andb_true_iff _]%andb_true_iff. done. Qed.
Lemma passes_snooping pkt p : passes pkt p = true → port_snooping p = true.
Proof. unfold passes. by intros [_ ?]%andb_true_iff. Qed.

(** the bits of a port after an operation, on the line of the operation *)
Section spec.
Context (q : SlavePort) (i : nat) (Hq : sf_slavePorts f !! i = Some q) (line m : Z).
Notation bit x := (Z.testbit x (Z.of_nat i) = true).
Notation known := (∃ r, tracked f line r).
Notation nobody := (¬ ∃ r, asks f line r).

Lemma request_bits pkt p wr :
  known_port f p → portToMask f p = Ok m →
  let it := op_item (Request pkt p wr) f line m in
  (bit (requested it) ↔ spec_asks (Request pkt p wr) known True q (bit (requested (item_of f line)))) ∧
  (bit (holder it) ↔ spec_holds (Request pkt p wr) known nobody True q (bit (holder (item_of f line)))).
Proof.
  intros Hp Hm. destruct (item_of_ok f Hf line) as [Hr Hh]. cbn [op_item spec_asks spec_holds].
  pose proof (mask_bit q i Hq p m Hp Hm) as Hb. pose proof (allocates_snooping pkt p) as Hs.
  unfold request_item. destruct wr; [intuition congruence|].
  destruct (allocates pkt p); cbn [negb]; [|intuition congruence].
  specialize (Hs eq_refl). destruct (needsResponse (pkt_cmd pkt)).
  - destruct (cacheResponding pkt); cbn; [intuition congruence|]. rewrite lor_bit, Hb. intuition congruence.
  - destruct (isBlockCached pkt); cbn; [intuition congruence|].
    rewrite (land_not_bit i), Hb by done. intuition congruence.
Qed.

Lemma response_bits pkt p :
  known_port f p → portToMask f p = Ok m →
  let it := op_item (Response pkt p) f line m in
  (bit (requested it) ↔ spec_asks (Response pkt p) known True q (bit (requested (item_of f line)))) ∧
  (bit (holder it) ↔ spec_holds (Response pkt p) known nobody True q (bit (holder (item_of f line)))).
Proof.
  intros Hp Hm. destruct (item_of_ok f Hf line) as [Hr Hh]. cbn [op_item spec_asks spec_holds].
  pose proof (mask_bit q i Hq p m Hp Hm) as Hb. pose proof (passes_snooping pkt p) as Hs.
  destruct (passes pkt p); cbn [andb]; [|intuition congruence]. specialize (Hs eq_refl).
  case_bool_decide as He; rewrite entry_tracked in He; [|tauto].
  cbn. rewrite lor_bit, (land_not_bit i), Hb by done. tauto.
Qed.

Lemma dirty_bits pkt :
  (bit (requested (dirty_item pkt (item_of f line))) ↔ bit (requested (item_of f line))) ∧
  (bit (holder (dirty_item pkt (item_of f line))) ↔ bit (holder (item_of f line)) ∧ hasSharers pkt = true).
Proof.
  unfold dirty_item. destruct (hasSharers pkt); cbn; [tauto|]. rewrite Z.bits_0. intuition congruence.
Qed.

Lemma snoopresponse_bits pkt rsp p :
  known_port f p → portToMask f p = Ok m →
  let it := op_item (SnoopResponse pkt rsp p) f line m in
  (bit (requested it) ↔ spec_asks (SnoopResponse pkt rsp p) known True q (bit (requested (item_of f line)))) ∧
  (bit (holder it) ↔ spec_holds (SnoopResponse pkt rsp p) known nobody True q (bit (holder (item_of f line)))).
Proof.
  intros Hp Hm. destruct (item_of_ok f Hf line) as [Hr Hh]. cbn [op_item spec_asks spec_holds].
  pose proof (mask_bit q i Hq p m Hp Hm) as Hb. pose proof (passes_snooping pkt p) as Hs.
  pose proof (dirty_bits pkt) as [Hd1 Hd2].
  destruct (passes pkt p); [|intuition congruence]. specialize (Hs eq_refl).
  cbn. rewrite lor_bit, (land_not_bit i), Hb, Hd1, Hd2.
  2: { unfold dirty_item. by destruct (hasSharers pkt). }
  destruct (hasSharers pkt); intuition congruence.
Qed.

Lemma snoop_bits pkt :
  let it := op_item (Snoop pkt) f line m in
  (bit (requested it) ↔ bit (requested (item_of f line))) ∧
  (bit (holder it) ↔ spec_holds (Snoop pkt) known nobody True q (bit (holder (item_of f line)))).
Proof.
  cbn [op_item spec_holds]. unfold snoop_item. rewrite <-nobody_asks.
  destruct (isInvalidate (pkt_cmd pkt)); cbn; [|intuition congruence].
  case_bool_decide; cbn; [|tauto]. rewrite Z.bits_0. intuition congruence.
Qed.

Lemma op_bits op :
  (∀ p, op_port op = Some p → known_port f p) → (∀ p, op_port op = Some p → portToMask f p = Ok m) →
  let it := op_item op f line m in
  (bit (requested it) ↔ spec_asks op known True q (bit (requested (item_of f line)))) ∧
  (bit (holder it) ↔ spec_holds op known nobody True q (bit (holder (item_of f line)))).
Proof.
  intros Hk Hm. destruct op as [pkt p wr|pkt|pkt p|pkt rsp p|pkt].
  - apply request_bits; [by apply Hk|by apply Hm].
  - apply snoop_bits.
  - apply response_bits; [by apply Hk|by apply Hm].
  - apply snoopresponse_bits; [by apply Hk|by apply Hm].
  - pose proof (dirty_bits pkt) as [H1 H2]. cbn [op_item spec_asks spec_holds]. split; [done|].
    rewrite H2. destruct (hasSharers pkt); intuition congruence.
Qed.
End spec.

(** elsewhere nothing happens *)
Lemma spec_elsewhere op known nobody here q A H :
  ¬ here → (spec_asks op known here q A ↔ A) ∧ (spec_holds op known nobody here q H ↔ H).
Proof. intros Hn. destruct op; cbn; tauto. Qed.

Lemma spec_here op known nobody here q A H :
  here → (spec_asks op known here q A ↔ spec_asks op known True q A) ∧
    (spec_holds op known nobody here q H ↔ spec_holds op known nobody True q H).
Proof. intros Hh. destruct op; cbn; tauto. Qed.

Lemma spec_proper op known nobody q A A' H H' :
  (A ↔ A') → (H ↔ H') →
  (spec_asks op known True q A ↔ spec_asks op known True q A') ∧
  (spec_holds op known nobody True q H ↔ spec_holds op known nobody True q H').
Proof. intros HA HH. destruct op; cbn; rewrite ?HA, ?HH; done. Qed.
End ops.

(** a request that will be retried leaves no trace in the map of the filter *)
Lemma retried_lookup (f : SnoopFilter) (pkt : Packet) (p : SlavePort) (a m : Z) :
  filter_ok f → pkt_addr pkt = Some a → portToMask f p = Ok m →
  ∀ r f', lookupRequest pkt p f = Ok (r, f') →
  ∃ f'', finishRequest true a (_isSecure pkt) f' = Ok (tt, f'') ∧
    cachedLocations f'' = cachedLocations f ∧ filter_ok f''.
Proof.
  intros Hf Ha Hm r f' Hr. apply (lookupRequest_inv f pkt p a m Hf Ha Hm) in Hr as Hl.
  set (line := line_addr f a (_isSecure pkt)) in *.
  destruct (lu_entry _ _ _ _ _ _ _ Hl) as [(Hn & Hal & He & Hc)|(He & _ & _)].
  - exists f'. unfold finishRequest, get, mbind, M_bind. rewrite He. split; [done|]. split; [done|].
    pose proof (lu_same _ _ _ _ _ _ _ Hl) as Hs. split; [by eapply same_ports_ok; [|apply Hf]|].
    destruct Hs as (-> & _). rewrite Hc. apply Hf.
  - destruct (finishRequest_run f pkt p a m r f' true Hl He) as (f2 & Hfin & Hs & Hc).
    assert (Hsame : cachedLocations f2 = cachedLocations f)
      by (etrans; [exact Hc|]; by apply (put_item_same f line)).
    exists f2. split; [done|]. split; [done|]. split; [by eapply same_ports_ok; [|apply Hf]|].
    destruct Hs as (-> & _). rewrite Hsame. apply Hf.
Qed.

(** ** Properties *)

(** C14: The filter implements two sets.  Every complete operation that returns (a request
    with its end, a snoop, a response, the two kinds of snoop responses) keeps the
    invariant, that every entry is nonempty and of known ports, and changes the set of ports that ask for
    a line and the set of ports that hold it exactly as the abstract
    operation says: nothing for other lines or other ports, a port is
    forgotten only when it evicts the line, when an invalidating snoop finds no request for the line
    outstanding, or when another cache passes the line on without sharers; and a request
    that will be retried changes nothing. *)
Theorem filter_implements_sets (f f' : SnoopFilter) (op : sf_op) (a : Z)
    (Hf : filter_ok f) (Ha : pkt_addr (op_pkt op) = Some a)
    (Hknown : ∀ p, op_port op = Some p → known_port f p)
    (Hrun : run_op op f = Ok (tt, f')) :
  filter_ok f' ∧
  ∀ l q, let line := line_addr f a (_isSecure (op_pkt op)) in
    q ∈ sf_slavePorts f →
    (asks f' l q ↔ spec_asks op (∃ r, tracked f line r) (l = line) q (asks f l q)) ∧
    (holds f' l q ↔ spec_holds op (∃ r, tracked f line r) (¬ ∃ r, asks f line r) (l = line) q (holds f l q)).
Proof.
  destruct (run_op_updates f Hf op a f' Ha Hknown Hrun) as (m & Hm & Hup).
  set (line := line_addr f a (_isSecure (op_pkt op))) in *.
  assert (Hmask : ∀ p, op_port op = Some p → mask_in (nports f) m).
  { intros p Hp. destruct (known_mask f p (fo_ports _ Hf) (Hknown p Hp)) as (m' & Hm' & Hin & _).
    rewrite (Hm p Hp) in Hm'. by injection Hm' as ->. }
  assert (Hit : item_ok (nports f) (op_item op f line m)).
  { destruct (op_port op) as [p|] eqn:Hp; [by eapply op_item_ok; [|by eapply Hmask]|].
    destruct op as [| pkt | | | pkt]; try discriminate Hp;
      [change (op_item _ f line m) with (op_item (Snoop pkt) f line 0)
      |change (op_item _ f line m) with (op_item (SnoopForward pkt) f line 0)];
      apply (op_item_ok f Hf); pose proof (nports_room f (fo_ports _ Hf)); unfold mask_in; lia. }
  pose proof (updates_ok _ _ _ _ Hf Hup Hit) as Hf'. split; [done|].
  intros l q. cbn. intros [i Hi]%list_elem_of_lookup.
  assert (Hi' : sf_slavePorts f' !! i = Some q) by (by destruct (up_same _ _ _ _ Hup) as (-> & _)).
  rewrite (asks_bit f' Hf' q i Hi'), (holds_bit f' Hf' q i Hi'), (updates_item _ _ _ _ l Hup) by apply Hit.
  pose proof (asks_bit f Hf q i Hi l) as HA. pose proof (holds_bit f Hf q i Hi l) as HH. case_decide as Hl.
  - subst l. destruct (op_bits f Hf q i Hi line m op Hknown Hm) as [-> ->].
    destruct (spec_proper op (∃ r, tracked f line r) (¬ ∃ r, asks f line r) q _ _ _ _ HA HH) as [<- <-].
    destruct (spec_here op (∃ r, tracked f line r) (¬ ∃ r, asks f line r) (line = line) q
      (asks f line q) (holds f line q) eq_refl) as [-> ->]. done.
  - rewrite <-HA, <-HH. destruct (spec_elsewhere op (∃ r, tracked f line r) (¬ ∃ r, asks f line r) (l = line) q
      (asks f l q) (holds f l q) Hl) as [-> ->]. done.
Qed.

(** the state after an operation that returns *)
Definition after {A} (m : M SnoopFilter A) (f : SnoopFilter) : SnoopFilter :=
  match m f with Ok (_, f') => f' | Fault _ => f end.

Notation ex_read := (ex_request ReadSharedReq 0x1010).
Notation ex_port := (mkSlavePort 1 true).

Lemma filter_implements_sets_witness :
  let op := Request ex_read ex_port false in
  let f' := after (run_op op) ex3 in
  run_op op ex3 = Ok (tt, f') ∧ filter_ok f' ∧ asks f' 0x1000 ex_port.
Proof.
  intros op f'. assert (Hr : run_op op ex3 = Ok (tt, f')) by (vm_compute; reflexivity).
  assert (Hp : ex_port ∈ sf_slavePorts ex3) by (apply (list_elem_of_lookup_2 _ 1%nat); reflexivity).
  destruct (filter_implements_sets ex3 f' op 0x1010) as [Hok Hsets];
    [apply ex3_ok|reflexivity|intros p [= <-]; left; exact Hp|exact Hr|].
  split; [exact Hr|]. split; [exact Hok|]. apply (Hsets 0x1000 ex_port Hp). right. by repeat split.
Defined.

(** The filter selects exactly the right ports.  A request that it
    lets through is forwarded, each once and in the order of the ports, to the ports that ask for or hold its
    line and are not its source; a snoop from below to all that ask for or hold the
    line; so no cache the filter knows of is left out.  And a request that cannot be sent on
    and will be retried leaves the map of the filter exactly as it was, down to the
    null entry it may have created. *)
Theorem lookups_select_tracked_ports (f : SnoopFilter) (pkt : Packet) (p : SlavePort) (a : Z)
    (Hf : filter_ok f) (Ha : pkt_addr pkt = Some a) (Hp : known_port f p) :
  let line := line_addr f a (_isSecure pkt) in
  (∀ l lat f', lookupRequest pkt p f = Ok ((l, lat), f') →
     l `sublist_of` sf_slavePorts f ∧ ∀ q, q ∈ l ↔ tracked f line q ∧ q ≠ p) ∧
  (∀ l lat f', lookupSnoop pkt f = Ok ((l, lat), f') →
     l `sublist_of` sf_slavePorts f ∧ ∀ q, q ∈ l ↔ tracked f line q) ∧
  (∀ r f', lookupRequest pkt p f = Ok (r, f') →
     ∃ f'', finishRequest true a (_isSecure pkt) f' = Ok (tt, f'') ∧
       cachedLocations f'' = cachedLocations f ∧ filter_ok f'').
Proof.
  intros line. destruct (known_mask f p (fo_ports _ Hf) Hp) as (m & Hm & Hin & _). split; [|split].
  - intros l lat f' Hr. apply (lookupRequest_inv f pkt p a m Hf Ha Hm) in Hr as [Hl _ _].
    injection Hl as -> _. split; [apply select_sublist|]. intros q. rewrite elem_of_select. fold line. split.
    + intros (i & Hi & Hb). cbn in Hb. rewrite (land_not_bit f Hf) in Hb by (by apply interested_in).
      destruct Hb as [Hb Hn]. split; [by exists i|]. intros ->.
      apply Hn, (mask_bit f Hf p i Hi p m Hp Hm). split; [|done]. by destruct (po_ids f (fo_ports _ Hf) i p Hi).
    + intros [(i & Hi & Hb) Hne]. exists i. split; [done|]. cbn.
      rewrite (land_not_bit f Hf) by (by apply interested_in). split; [done|].
      rewrite (mask_bit f Hf q i Hi p m Hp Hm). tauto.
  - intros l lat f' Hr. apply (lookupSnoop_inv f pkt a _ f' Hf Ha) in Hr as [Hl _]. cbn in Hl. subst l.
    split; [apply select_sublist|]. intros q. apply elem_of_select.
  - intros r f' Hr. by apply (retried_lookup f pkt p a m Hf Ha Hm r f').
Qed.

Lemma lookups_select_tracked_ports_witness :
  let f' := after (lookupRequest ex_read ex_port) ex3 in
  lookupRequest ex_read ex_port ex3 = Ok (([], 1), f') ∧ cachedLocations f' !! 0x1000 = Some (mkSnoopItem 2 0) ∧
  ∃ f'', finishRequest true 0x1010 false f' = Ok (tt, f'') ∧ cachedLocations f'' = ∅.
Proof.
  intros f'. assert (Hr : lookupRequest ex_read ex_port ex3 = Ok (([], 1), f')) by (vm_compute; reflexivity).
  split; [exact Hr|]. split; [reflexivity|].
  destruct (lookups_select_tracked_ports ex3 ex_read ex_port 0x1010 ex3_ok eq_refl) as (_ & _ & H).
  { left. apply (list_elem_of_lookup_2 _ 1%nat). reflexivity. }
  destruct (H _ _ Hr) as (f'' & Hf & Hc & _). exists f''. split; [exact Hf|]. exact Hc.
Defined.
