(* ===== verification/XBar.v ===== *)
(** * The crossbar's address decoding and timing ([BaseXBar], [mem/xbar.*])

    A crossbar learns the address ranges of the slaves behind its master
    ports, decodes addresses with a map of ranges and a small cache in front
    of it, reports the ranges of all its slaves upwards, and computes the delays of a packet. *)

From S2P Require Import Prelude IntMath Clock AddrRange AddrRangeMap MemPacket.

Notation PortID := Z.
Definition InvalidPortID : PortID := -1.

(** ** State *)

Record PortCache := mkPortCache { pc_valid : bool; pc_id : PortID; pc_range : AddrRange }.

Record BaseXBar := mkBaseXBar {
  portMap : list (AddrRange * PortID);
  portCache : PortCache * PortCache * PortCache;
  xbarRanges : list AddrRange;
  defaultRange : AddrRange;
  gotAddrRanges : list bool;
  gotAllAddrRanges : bool;
  defaultPortID : PortID;
  useDefaultRange : bool;
}.
#[export] Instance BaseXBar_settable : Settable BaseXBar := λ r,
  mkBaseXBar (portMap r) (portCache r) (xbarRanges r) (defaultRange r) (gotAddrRanges r)
    (gotAllAddrRanges r) (defaultPortID r) (useDefaultRange r).

(** [raw]: the contents of the port cache before it is cleared *)
Definition BaseXBar_new (raw : PortCache * PortCache * PortCache) (nmasters ndefault : nat)
    (use_default_range : bool) : BaseXBar :=
  mkBaseXBar [] raw [] AddrRange_default (replicate (ndefault + nmasters) false) false InvalidPortID
    use_default_range.

(** ** The port cache *)

Definition clearPortCache (x : BaseXBar) : BaseXBar :=
  let '(c0, c1, c2) := portCache x in
  let clear c := mkPortCache false (pc_id c) (pc_range c) in
  x.{portCache := (clear c0, clear c1, clear c2)}.

(** [if (c.valid && c.range.contains(addr)) return c.id;] *)
Definition check_entry (addr : Z) (c : PortCache) (rest : res PortID) : res PortID :=
  if pc_valid c then b ← contains (pc_range c) addr; if (b : bool) then Ok (pc_id c) else rest
  else rest.

Definition checkPortCache (x : BaseXBar) (addr : Z) : res PortID :=
  let '(c0, c1, c2) := portCache x in
  check_entry addr c0 (check_entry addr c1 (check_entry addr c2 (Ok InvalidPortID))).

Definition updatePortCache (id : PortID) (range : AddrRange) (x : BaseXBar) : BaseXBar :=
  let '(c0, c1, _) := portCache x in
  x.{portCache := (mkPortCache true id range, c0, c1)}.

(** ** Decoding *)

Definition findPort (addr : Z) : M BaseXBar PortID :=
  x ← get;
  check (gotAllAddrRanges x) ;;
  dest_id ← lift (checkPortCache x addr);
  if decide (dest_id ≠ InvalidPortID) then mret dest_id else
  i ← lift (find_addr (portMap x) addr);
  match i with
  | Some i =>
      e ← lift (of_option OutOfRange (portMap x !! i));
      modify (updatePortCache e.2 e.1) ;; mret e.2
  | None =>
      if useDefaultRange x then
        b ← lift (contains (defaultRange x) addr);
        if (b : bool) then mret (defaultPortID x) else throw ExitCalled
      else if decide (defaultPortID x ≠ InvalidPortID) then mret (defaultPortID x)
      else throw ExitCalled
  end.

(** ** A change of the ranges of a slave

    [ranges] is what [getAddrRanges()] of the port returns. *)

(** [gotAllAddrRanges &= *r++] until it is false *)
Definition all_got (l : list bool) : bool := forallb id l.

Fixpoint add_ranges (ranges : list AddrRange) (id : PortID) : M BaseXBar unit :=
  match ranges with
  | [] => mret tt
  | r :: ranges =>
      x ← get;
      o ← lift (AddrRangeMap.insert (portMap x) r id);
      match o.1 with
      | None => throw ExitCalled
      | Some _ => modify (λ x, x.{portMap := o.2}) ;; add_ranges ranges id
      end
  end.

(** the branches on [defaultPortID] *)
Definition register_ranges (master_port_id : PortID) (ranges : list AddrRange) : M BaseXBar unit :=
  x ← get;
  if decide (master_port_id = defaultPortID x) then
    when (useDefaultRange x)
      match ranges with
      | [r] => modify (λ x, x.{defaultRange := r})
      | _ => throw ExitCalled
      end
  else
    got ← lift (vget (gotAddrRanges x) master_port_id);
    when got (modify (λ x, x.{portMap ::= λ m, filter (λ e, e.2 ≠ master_port_id) m})) ;;
    add_ranges ranges master_port_id.

(** keep a range that is not a subset of the default *)
Definition push_range (r : AddrRange) : M BaseXBar unit :=
  x ← get;
  b ← lift (if useDefaultRange x then isSubset r (defaultRange x) else Ok false);
  when (negb b) (modify (λ x, x.{xbarRanges ::= λ l, l ++ [r] })).

(** merge the interleaved ranges that were saved *)
Definition push_merged (intlv_ranges : list AddrRange) : M BaseXBar unit :=
  r ← lift (AddrRange_merge intlv_ranges); push_range r.

Fixpoint merge_ranges (l : list AddrRange) (intlv_ranges : list AddrRange) : M BaseXBar unit :=
  match l with
  | [] => match intlv_ranges with [] => mret tt | _ => push_merged intlv_ranges end
  | r :: l =>
      if interleaved r then
        match last intlv_ranges with
        | Some b =>
            if negb (mergesWith b r) then push_merged intlv_ranges ;; merge_ranges l [r]
            else merge_ranges l (intlv_ranges ++ [r])
        | None => merge_ranges l [r]
        end
      else push_range r ;; merge_ranges l intlv_ranges
  end.

Fixpoint check_default (d : AddrRange) (l : list AddrRange) : res unit :=
  match l with
  | [] => Ok tt
  | r :: l =>
      i ← intersects r d;
      (if (i : bool) then s ← isSubset r d; if (s : bool) then Ok tt else Fault ExitCalled else Ok tt) ;;
      check_default d l
  end.

Definition aggregate_ranges : M BaseXBar unit :=
  modify (λ x, x.{xbarRanges := [] }) ;;
  x ← get;
  when (useDefaultRange x)
    (got ← lift (vget (gotAddrRanges x) (defaultPortID x));
     if (got : bool) then modify (λ x, x.{xbarRanges ::= λ l, l ++ [defaultRange x] }) else throw ExitCalled) ;;
  merge_ranges (portMap x).*1 [] ;;
  x ← get;
  when (useDefaultRange x) (lift (check_default (defaultRange x) (xbarRanges x))).

(** the slave ports are then told, with [sendRangeChange], that the ranges have changed *)
Definition recvRangeChange (master_port_id : PortID) (ranges : list AddrRange) : M BaseXBar unit :=
  x ← get;
  got ← lift (vset (gotAddrRanges x) master_port_id true);
  modify (λ x, x.{gotAddrRanges := got}) ;;
  modify (λ x, if gotAllAddrRanges x then x else x.{gotAllAddrRanges := all_got (gotAddrRanges x)}) ;;
  register_ranges master_port_id ranges ;;
  x ← get;
  when (gotAllAddrRanges x) aggregate_ranges ;;
  modify clearPortCache.

Definition getAddrRanges (x : BaseXBar) : res (list AddrRange) :=
  if gotAllAddrRanges x then Ok (xbarRanges x) else Fault AssertFailed.

(** ** Timing

    [clock] is the clock of the crossbar; [SimClock::Int::us] is the number of ticks in a microsecond. *)

Definition calcPacketTiming (curTick clockPeriod us width : Z) (pkt : Packet) (header_delay : Z) :
    M Clocked Packet :=
  edge ← clockEdge curTick clockPeriod 0;
  let offset := u64 (edge - curTick) in
  let pkt := pkt.{headerDelay ::= λ h, to_uint 32 (u64 (h + u64 (offset + header_delay)))} in
  if decide (us < headerDelay pkt) then throw ExitCalled
  else if hasData (pkt_cmd pkt) then
    n ← lift (getSize pkt);
    c ← lift (if decide (width = 0) then Fault UndefinedOp else Ok (to_uint 32 (n + width - 1) / width));
    mret (pkt.{payloadDelay ::= λ d, to_uint 32 (Z.max d (u64 (c * clockPeriod)))})
  else mret pkt.

(** ** Lemmas: decoding *)

Definition cached (x : BaseXBar) : list PortCache := let '(c0, c1, c2) := portCache x in [c0; c1; c2].

(** the map is well-formed, its ports are real, and the valid entries of the cache are
    elements of the map *)
Record xbar_ok (x : BaseXBar) : Prop := {
  xo_tree : tree_ok (portMap x);
  xo_ids : Forall (λ e, e.2 ≠ InvalidPortID) (portMap x);
  xo_cache : Forall (λ c, pc_valid c = true → (pc_range c, pc_id c) ∈ portMap x) (cached x);
  xo_default : range_wf (defaultRange x);
}.

(** the reference: search the ranges of the slaves, then the default *)
Definition decode (x : BaseXBar) (a : Z) : res PortID :=
  match filter (λ e, has e.1 a) (portMap x) with
  | e :: _ => Ok e.2
  | [] =>
      if useDefaultRange x then if decide (has (defaultRange x) a) then Ok (defaultPortID x) else Fault ExitCalled
      else if decide (defaultPortID x ≠ InvalidPortID) then Ok (defaultPortID x) else Fault ExitCalled
  end.

(** the first address of a chunk, in a stripe other than the first *)
Definition hidden (x : BaseXBar) (a : Z) : Prop :=
  ∃ e, e ∈ portMap x ∧ has e.1 a ∧ _start e.1 = a ∧ 0 < intlvMatch e.1.

Lemma elem_unique x a e e' :
  tree_ok (portMap x) → e ∈ portMap x → e' ∈ portMap x → has e.1 a → has e'.1 a → e = e'.
Proof.
  intros Ht [i Hi]%list_elem_of_lookup [j Hj]%list_elem_of_lookup H H'.
  assert (i = j) as -> by (by eapply (has_unique _ Ht a)). congruence.
Qed.

Lemma decode_elem x a e :
  tree_ok (portMap x) → e ∈ portMap x → has e.1 a → decode x a = Ok e.2.
Proof.
  intros Ht He Hh. unfold decode. destruct (filter _ _) as [|e' l] eqn:Hf.
  - exfalso. assert (Hin : e ∈ filter (λ e, has e.1 a) (portMap x)) by (by apply list_elem_of_filter).
    rewrite Hf in Hin. by apply elem_of_nil in Hin.
  - assert (Hin : e' ∈ filter (λ e, has e.1 a) (portMap x)) by (rewrite Hf; by left).
    apply list_elem_of_filter in Hin as [Hh' Hin]. by rewrite (elem_unique x a e e').
Qed.

Lemma decode_none x a : (∀ e, e ∈ portMap x → ¬ has e.1 a) → decode x a =
  if useDefaultRange x then if decide (has (defaultRange x) a) then Ok (defaultPortID x) else Fault ExitCalled
  else if decide (defaultPortID x ≠ InvalidPortID) then Ok (defaultPortID x) else Fault ExitCalled.
Proof.
  intros Hn. unfold decode. destruct (filter _ _) as [|e l] eqn:Hf; [done|]. exfalso.
  assert (Hin : e ∈ filter (λ e, has e.1 a) (portMap x)) by (rewrite Hf; by left).
  apply list_elem_of_filter in Hin as [Hh Hin]. by apply (Hn e).
Qed.

Section find.
Context (x : BaseXBar) (Hx : xbar_ok x) (a : Z) (Ha : is_u64 a).

Lemma elem_wf e : e ∈ portMap x → range_wf e.1.
Proof.
  intros He. pose proof (tree_wf _ (xo_tree _ Hx)) as Hw. rewrite Forall_forall in Hw.
  apply (Hw e.1). by apply list_elem_of_fmap_2.
Qed.

(** a check of one entry: a hit is the answer of the reference *)
Lemma check_entry_run c rest :
  (pc_valid c = true → (pc_range c, pc_id c) ∈ portMap x) →
  check_entry a c rest = rest ∨ (check_entry a c rest = Ok (pc_id c) ∧ decode x a = Ok (pc_id c) ∧ pc_id c ≠ InvalidPortID).
Proof.
  intros Hc. unfold check_entry. destruct (pc_valid c); [|by left]. specialize (Hc eq_refl).
  rewrite contains_run by (by apply (elem_wf (pc_range c, pc_id c))). cbn [mbind res_bind].
  case_bool_decide as Hh; [right|by left]. split; [done|].
  split; [by apply (decode_elem x a (pc_range c, pc_id c) (xo_tree _ Hx))|].
  pose proof (xo_ids _ Hx) as Hids. rewrite Forall_forall in Hids. by apply (Hids _ Hc).
Qed.

Lemma checkPortCache_run :
  ∃ id, checkPortCache x a = Ok id ∧ (id = InvalidPortID ∨ (id ≠ InvalidPortID ∧ decode x a = Ok id)).
Proof.
  pose proof (xo_cache _ Hx) as Hc. unfold cached in Hc. unfold checkPortCache.
  destruct (portCache x) as [[c0 c1] c2]. rewrite !Forall_cons in Hc. destruct Hc as (H0 & H1 & H2 & _).
  destruct (check_entry_run c0 (check_entry a c1 (check_entry a c2 (Ok InvalidPortID))) H0) as [->|(-> & ? & ?)];
    [|eexists; split; [done|by right]].
  destruct (check_entry_run c1 (check_entry a c2 (Ok InvalidPortID)) H1) as [->|(-> & ? & ?)];
    [|eexists; split; [done|by right]].
  destruct (check_entry_run c2 (Ok InvalidPortID) H2) as [->|(-> & ? & ?)];
    [eexists; split; [done|by left]|eexists; split; [done|by right]].
Qed.

Lemma updatePortCache_ok e : e ∈ portMap x → xbar_ok (updatePortCache e.2 e.1 x).
Proof.
  intros He. destruct Hx as [Ht Hi Hc Hd]. unfold updatePortCache, cached in *.
  destruct (portCache x) as [[c0 c1] c2] eqn:Hpc. rewrite !Forall_cons in Hc. destruct Hc as (H0 & H1 & H2 & _).
  split; [done|done| |done]. unfold cached. cbn. apply Forall_cons. split; [intros _; by destruct e|].
  repeat (apply Forall_cons; split; [done|]). by apply Forall_nil.
Qed.

Lemma findPort_run :
  gotAllAddrRanges x = true → ¬ hidden x a →
  match decode x a with
  | Ok id => ∃ x', findPort a x = Ok (id, x') ∧ xbar_ok x' ∧ portMap x' = portMap x ∧
      gotAllAddrRanges x' = true ∧ ∀ b, decode x' b = decode x b
  | Fault e => findPort a x = Fault e ∧ e = ExitCalled
  end.
Proof.
  intros Hg Hh. unfold findPort, get, lift, modify, check, mret, M_ret, mbind, M_bind. rewrite Hg. cbn.
  destruct checkPortCache_run as (id & -> & [->|[Hid Hdec]]).
  2: { rewrite decide_True by done. rewrite Hdec. by exists x. }
  rewrite decide_False by tauto. destruct (find_addr_run _ (xo_tree _ Hx) a Ha) as (o & -> & Ho).
  destruct o as [i|].
  - destruct Ho as (e & Hi & He). rewrite Hi. cbn [of_option]. apply list_elem_of_lookup_2 in Hi.
    rewrite (decode_elem x a e) by (done || apply Hx).
    exists (updatePortCache e.2 e.1 x). split; [done|]. split; [by apply updatePortCache_ok|].
    unfold updatePortCache. destruct (portCache x) as [[c0 c1] c2]. done.
  - rewrite decode_none.
    2: { intros e [i Hi]%list_elem_of_lookup He. apply Hh. destruct (Ho i e Hi He).
         exists e. split; [by apply list_elem_of_lookup_2 in Hi|done]. }
    destruct (useDefaultRange x).
    + rewrite contains_run by apply Hx. case_bool_decide; case_decide; try done. by exists x.
    + case_decide; [by exists x|done].
Qed.
End find.

(** ** Properties *)

(** C27: The port cache is invisible: with a well-formed map of ranges, whatever addresses are
    decoded one after the other, every answer is the one a search of all the ranges
    and then of the default gives, and the crossbar stops exactly when this reference finds
    no port; the cache then still holds elements of the map only.  The addresses are
    any but the first address of an interleaved chunk where it belongs to a stripe other than the first,
    which the map itself may miss. *)
Theorem port_cache_is_invisible (x : BaseXBar) (addrs : list Z)
    (Hx : xbar_ok x) (Hgot : gotAllAddrRanges x = true)
    (Haddrs : Forall (λ a, is_u64 a ∧ ¬ hidden x a) addrs) :
  match map_M findPort addrs x with
  | Ok (ids, x') => Forall2 (λ a id, decode x a = Ok id) addrs ids ∧ xbar_ok x' ∧ portMap x' = portMap x
  | Fault e => e = ExitCalled ∧ Exists (λ a, decode x a = Fault ExitCalled) addrs
  end.
Proof.
  assert (H : ∀ l y, xbar_ok y → gotAllAddrRanges y = true → portMap y = portMap x → (∀ b, decode y b = decode x b) →
    Forall (λ a, is_u64 a ∧ ¬ hidden x a) l →
    match map_M findPort l y with
    | Ok (ids, x') => Forall2 (λ a id, decode x a = Ok id) l ids ∧ xbar_ok x' ∧ portMap x' = portMap x
    | Fault e => e = ExitCalled ∧ Exists (λ a, decode x a = Fault ExitCalled) l
    end).
  { induction l as [|a l IH]; intros y Hy Hg Hm Hd Hl; [split; [constructor|done]|].
    apply Forall_cons in Hl as [[Ha Hh] Hl].
    assert (Hh' : ¬ hidden y a) by (intros (e & He & Hr); apply Hh; exists e; by rewrite <-Hm).
    pose proof (findPort_run y Hy a Ha Hg Hh') as Hr. rewrite Hd in Hr. simpl. unfold mbind, M_bind.
    destruct (decode x a) as [id|e] eqn:Hdec.
    - destruct Hr as (y' & -> & Hy' & Hm' & Hg' & Hd'). specialize (IH y' Hy' Hg').
      destruct (map_M findPort l y') as [[ids z]|e].
      + destruct IH as (? & ? & ?); [congruence|intros; by rewrite Hd'|done|]. split; [by constructor|done].
      + destruct IH as [-> ?]; [congruence|intros; by rewrite Hd'|done|]. split; [done|by right].
    - destruct Hr as [-> ->]. split; [done|by left]. }
  by apply H.
Qed.

Definition ex_xbar : res BaseXBar :=
  let c := mkPortCache true 7 (AddrRange_plain 0 100) in
  match (recvRangeChange 0 [mem_channel 0; mem_channel 2] ;; recvRangeChange 1 [mem_channel 1; mem_channel 3; AddrRange_plain 0 99])
    (BaseXBar_new (c, c, c) 2 0 false) with Ok (_, x) => Ok x | Fault e => Fault e end.
Example ex_ranges : (ex_xbar ≫= getAddrRanges) = Ok [AddrRange_plain 0 99; AddrRange_plain 0x100000 0x1fffff].
Proof. reflexivity. Qed.

(** a crossbar that has registered the four channels *)
Definition mem_xbar : BaseXBar :=
  let c := mkPortCache false 0 (AddrRange_plain 0 0) in
  mkBaseXBar mem_tree (c, c, c) [] (AddrRange_plain 0 0) [true; true; true; true] true InvalidPortID false.

Lemma mem_xbar_ok : xbar_ok mem_xbar.
Proof.
  split.
  - exact mem_tree_ok.
  - by repeat constructor.
  - by repeat constructor.
  - split; unfold is_u64; simpl; lia.
Qed.

Lemma port_cache_is_invisible_witness :
  ∃ ids x', map_M findPort [0x100040; 0x100041; 0x100080] mem_xbar = Ok (ids, x') ∧ xbar_ok x'
    ∧ ids = [3; 3; 0].
Proof.
  assert (Hh : ∀ a, 0x100000 < a → ¬ hidden mem_xbar a).
  { intros a Ha (e & He & _ & Hs & _).
    assert (He' : e.1 ∈ mem_tree.*1) by (by apply list_elem_of_fmap_2).
    apply mem_tree_keys in He' as (j & Hj & Hk). rewrite Hk in Hs. unfold mem_channel in Hs. simpl in Hs. lia. }
  assert (H := port_cache_is_invisible mem_xbar [0x100040; 0x100041; 0x100080] mem_xbar_ok eq_refl).
  destruct (map_M _ _ _) as [[ids x']|e] eqn:Hr.
  - exists ids, x'. destruct H as (_ & ? & _).
    { repeat (apply Forall_cons; split; [split; [unfold is_u64; lia|by apply Hh]|]). by apply Forall_nil. }
    split; [done|]. split; [done|]. vm_compute in Hr. by injection Hr as <- <-.
  - vm_compute in Hr. discriminate.
Defined.
