(* ===== verification/PacketQueue.v ===== *)
(** * Packet queues of ports ([PacketQueue], [mem/packet_queue.*])

    A queue holds packets until their tick has come and sends them through
    the port it belongs to.  [now] is [curTick()]; the port's [sendTiming] is an
    argument, which may put new packets into the queue before it returns. *)

From stdpp Require Import sorting.
From S2P Require Import Prelude IntMath MemPacket XBarLayer.

Definition MaxTick : Z := 2 ^ 64 - 1.

(** a [DeferredPacket]: its tick and the packet *)
Notation DeferredPacket := (Z * Packet)%type.

Record PacketQueue := mkPacketQueue {
  transmitList : list DeferredPacket;
  sendEvent : option Z;              (* the tick it is scheduled for *)
  _disableSanityCheck : bool;
  waitingOnRetry : bool;
  pq_drainState : DrainState;
}.
#[export] Instance PacketQueue_settable : Settable PacketQueue := λ r,
  mkPacketQueue (transmitList r) (sendEvent r) (_disableSanityCheck r) (waitingOnRetry r) (pq_drainState r).

Definition PacketQueue_new (disable_sanity_check : bool) : PacketQueue :=
  mkPacketQueue [] None disable_sanity_check false Running.

Definition disableSanityCheck : M PacketQueue unit := modify (λ q, q.{_disableSanityCheck := true}).

Definition pq_size (q : PacketQueue) : Z := zlength (transmitList q).

Definition deferredPacketReadyTime (q : PacketQueue) : Z :=
  match transmitList q with [] => MaxTick | dp :: _ => dp.1 end.

Definition pq_signalDrainDone : M PacketQueue unit :=
  s ← gets pq_drainState;
  match s with
  | Draining => modify (λ q, q.{pq_drainState := Drained})
  | Running | Drained | Resuming => mret tt
  end.

(** the state that the drain manager stores *)
Definition pq_drain : M PacketQueue DrainState :=
  l ← gets transmitList;
  match l with [] => mret Drained | _ => mret Draining end.

Fixpoint hasAddr_loop (l : list DeferredPacket) (addr : Z) : res bool :=
  match l with
  | [] => Ok false
  | p :: l => a ← getAddr p.2; if decide (a = addr) then Ok true else hasAddr_loop l addr
  end.
Definition hasAddr (q : PacketQueue) (addr : Z) : res bool := hasAddr_loop (transmitList q) addr.

(** the packet and the packets of the queue afterwards *)
Fixpoint checkFunctional_loop (pkt : Packet) (l : list DeferredPacket) :
    res (bool * Packet * list DeferredPacket) :=
  match l with
  | [] => Ok (false, pkt, [])
  | (t, other) :: l =>
      '(found, pkt, other) ← checkFunctional_packet pkt other;
      if (found : bool) then Ok (true, pkt, (t, other) :: l) else
      '(found, pkt, l) ← checkFunctional_loop pkt l;
      Ok (found, pkt, (t, other) :: l)
  end.
Definition pq_checkFunctional (pkt : Packet) : M PacketQueue (bool * Packet) :=
  q ← get;
  '(found, pkt, l) ← lift (checkFunctional_loop pkt (transmitList q));
  modify (λ q, q.{transmitList := l}) ;; mret (found, pkt).

Section queue.
Context (now : Z).

(** [deferredPacketReady()] *)
Definition deferredPacketReady (q : PacketQueue) : bool :=
  match transmitList q with [] => false | dp :: _ => bool_decide (dp.1 ≤ now) end.

(** [em.schedule] and [em.reschedule] on [sendEvent], with the assertions of the event queue *)
Definition schedule_send (t : Z) : M PacketQueue unit :=
  check (bool_decide (now ≤ t)) ;; modify (λ q, q.{sendEvent := Some t}).

Definition schedSendEvent (t : Z) : M PacketQueue unit :=
  q ← get;
  if waitingOnRetry q then check (bool_decide (sendEvent q = None))
  else if decide (t ≠ MaxTick) then
    let t := Z.max t (u64 (now + 1)) in
    match sendEvent q with
    | None => schedule_send t
    | Some s => when (bool_decide (t < s)) (schedule_send t)
    end
  else
    when (bool_decide (pq_drainState q = Draining) && bool_decide (transmitList q = [])
          && bool_decide (sendEvent q = None)) pq_signalDrainDone.

(** [force_order && i->pkt->getAddr() == pkt->getAddr()] *)
Definition same_addr (force_order : bool) (p pkt : Packet) : res bool :=
  if force_order then a ← getAddr p; b ← getAddr pkt; Ok (bool_decide (a = b)) else Ok false.

(** the search from the end: the position after which the packet belongs *)
Fixpoint search_back (l : list DeferredPacket) (pkt : Packet) (t : Z) (force_order : bool) (i : nat) : res nat :=
  match i with
  | O => Ok O
  | S i' =>
      p ← of_option OutOfRange (l !! i);
      if decide (t < p.1) then
        same ← same_addr force_order p.2 pkt;
        if (same : bool) then Ok i else search_back l pkt t force_order i'
      else Ok i
  end.

Definition schedSendTiming (pkt : Packet) (t : Z) (force_order : bool) : M PacketQueue unit :=
  check (bool_decide (now ≤ t)) ;;
  check (negb (isExpressSnoop pkt)) ;;
  q ← get;
  if negb (_disableSanityCheck q) && bool_decide (100 < pq_size q) then throw ExitCalled else
  match transmitList q with
  | [] => modify (λ q, q.{transmitList := [(t, pkt)] }) ;; schedSendEvent t
  | _ :: rest =>
      i ← lift (search_back (transmitList q) pkt t force_order (length rest));
      modify (λ q, q.{transmitList ::= λ l, take (S i) l ++ (t, pkt) :: drop (S i) l})
  end.

Section send.
Context (sendTiming : Packet → M PacketQueue bool).

Definition sendDeferredPacket : M PacketQueue unit :=
  q ← get;
  check (negb (waitingOnRetry q)) ;;
  check (deferredPacketReady q) ;;
  match transmitList q with
  | [] => throw OutOfRange
  | dp :: rest =>
      modify (λ q, q.{transmitList := rest}) ;;
      ok ← sendTiming dp.2;
      modify (λ q, q.{waitingOnRetry := negb ok}) ;;
      if (ok : bool) then t ← gets deferredPacketReadyTime; schedSendEvent t
      else modify (λ q, q.{transmitList ::= λ l, dp :: l})
  end.

Definition retry : M PacketQueue unit :=
  q ← get;
  check (waitingOnRetry q) ;;
  modify (λ q, q.{waitingOnRetry := false}) ;;
  sendDeferredPacket.

(** the event queue runs [sendEvent], which it has taken off its lists *)
Definition processSendEvent : M PacketQueue unit :=
  modify (λ q, q.{sendEvent := None}) ;;
  q ← get;
  check (negb (waitingOnRetry q)) ;;
  sendDeferredPacket.
End send.
End queue.

(** ** The life of a queue

    At a tick the owner of the port adds a packet, the send event runs, or the peer that
    refused a packet asks for it again.  When a packet is sent the
    peer accepts or refuses it, and one that accepts may cause further packets
    to be added at once. *)

Record enq := mkEnq { enq_pkt : Packet; enq_tick : Z; enq_force : bool }.

Inductive pq_event :=
  | Enqueue (e : enq)
  | Fire (accept : bool) (news : list enq)
  | Retry (accept : bool) (news : list enq).

Definition add_packet (now : Z) (e : enq) : M PacketQueue unit :=
  schedSendTiming now (enq_pkt e) (enq_tick e) (enq_force e).

Definition peer (now : Z) (accept : bool) (news : list enq) (_ : Packet) : M PacketQueue bool :=
  for_each news (add_packet now) ;; mret accept.

(** the packets that were sent *)
Definition run_pq (now : Z) (ev : pq_event) : M PacketQueue (list DeferredPacket) :=
  l ← gets transmitList;
  match ev with
  | Enqueue e => add_packet now e ;; mret []
  | Fire accept news =>
      processSendEvent now (peer now accept news) ;; mret (if accept then take 1 l else [])
  | Retry accept news =>
      retry now (peer now accept news) ;; mret (if accept then take 1 l else [])
  end.

(** the ticks at which the packets were sent *)
Fixpoint run_pqs (evs : list (Z * pq_event)) : M PacketQueue (list (Z * DeferredPacket)) :=
  match evs with
  | [] => mret []
  | (now, ev) :: evs => s ← run_pq now ev; r ← run_pqs evs; mret (((λ dp, (now, dp)) <$> s) ++ r)
  end.

Definition added (ev : pq_event) : list enq :=
  match ev with Enqueue e => [e] | Fire _ news | Retry _ news => news end.
Definition dp_of (e : enq) : DeferredPacket := (enq_tick e, enq_pkt e).

(** ** Lemmas *)

(** the new packet [dp] goes before [p] *)
Definition overtaken (force : bool) (dp p : DeferredPacket) : Prop :=
  dp.1 < p.1 ∧ ¬ (force = true ∧ pkt_addr p.2 = pkt_addr dp.2).

#[export] Instance overtaken_dec force dp p : Decision (overtaken force dp p).
Proof. unfold overtaken. apply _. Defined.

(** where the packet [dp] is added to the list: never first; behind the last packet it does not overtake *)
Inductive placed (force : bool) (dp : DeferredPacket) : list DeferredPacket → list DeferredPacket → Prop :=
  | placed_first : placed force dp [] [dp]
  | placed_behind h l1 l2 :
      Forall (overtaken force dp) l2 → (∀ p, last l1 = Some p → ¬ overtaken force dp p) →
      placed force dp (h :: l1 ++ l2) (h :: l1 ++ dp :: l2).

Inductive placed_all : list DeferredPacket → list enq → list DeferredPacket → Prop :=
  | placed_none l : placed_all l [] l
  | placed_next l e l' es l'' :
      placed (enq_force e) (dp_of e) l l' → placed_all l' es l'' → placed_all l (e :: es) l''.

Definition packet_ok (dp : DeferredPacket) : Prop := 0 ≤ dp.1 < MaxTick ∧ is_Some (pkt_addr dp.2).

Lemma same_addr_run force p pkt :
  is_Some (pkt_addr p) → is_Some (pkt_addr pkt) →
  same_addr force p pkt = Ok (bool_decide (force = true ∧ pkt_addr p = pkt_addr pkt)).
Proof.
  intros [a Ha] [b Hb]. unfold same_addr, getAddr. rewrite Ha, Hb. destruct force.
  - cbn. f_equal. apply bool_decide_ext. naive_solver.
  - by rewrite bool_decide_eq_false_2 by naive_solver.
Qed.

Lemma search_back_app l l' pkt t force i :
  (i < length l)%nat → search_back (l ++ l') pkt t force i = search_back l pkt t force i.
Proof.
  induction i as [|i IH]; intros Hi; [done|]. simpl search_back. rewrite lookup_app_l by lia.
  destruct (l !! S i) as [p|]; [|done]. cbn. by rewrite IH by lia.
Qed.

Lemma search_back_run h tl pkt t force :
  Forall packet_ok tl → is_Some (pkt_addr pkt) →
  ∃ l1 l2, tl = l1 ++ l2 ∧ search_back (h :: tl) pkt t force (length tl) = Ok (length l1)
    ∧ Forall (overtaken force (t, pkt)) l2 ∧ ∀ p, last l1 = Some p → ¬ overtaken force (t, pkt) p.
Proof.
  intros Hok Ha. induction tl as [|p tl IH] using rev_ind; [by exists [], []|].
  apply Forall_app in Hok as [Htl Hp]. apply Forall_singleton in Hp as [_ Hp]. specialize (IH Htl).
  rewrite length_app. simpl. replace (length tl + 1)%nat with (S (length tl)) by lia. simpl search_back.
  rewrite lookup_app_r, Nat.sub_diag by lia. cbn -[search_back]. rewrite same_addr_run by done.
  assert (Hov : overtaken force (t, pkt) p ↔ t < p.1 ∧ ¬ (force = true ∧ pkt_addr p.2 = pkt_addr pkt)) by done.
  destruct (decide (overtaken force (t, pkt) p)) as [Ho|Ho].
  - destruct (proj1 Hov Ho) as [Hlt Hne]. rewrite decide_True by done. rewrite bool_decide_eq_false_2 by done.
    cbn -[search_back]. rewrite (search_back_app (h :: tl) [p]) by (simpl; lia).
    destruct IH as (l1 & l2 & -> & Hs & Hf & Hl). exists l1, (l2 ++ [p]). rewrite app_assoc.
    repeat (split; [done|]). split; [|done]. by apply Forall_app_2; [|apply Forall_singleton].
  - exists (tl ++ [p]), []. rewrite app_nil_r, length_app. simpl. rewrite Nat.add_1_r. split; [done|]. split.
    + case_decide; [|done]. cbn. case_bool_decide; [done|]. by destruct Ho.
    + split; [done|]. rewrite last_snoc. by intros ? [= <-].
Qed.

(** *** Adding a packet *)

Section placed.
Context (force : bool) (dp : DeferredPacket) (l l' : list DeferredPacket) (Hpl : placed force dp l l').

Lemma placed_perm : l' ≡ₚ dp :: l.
Proof.
  destruct Hpl as [|h l1 l2 _ _]; [done|]. rewrite <-Permutation_middle. apply Permutation_swap.
Qed.

Lemma placed_ok : packet_ok dp → Forall packet_ok l → Forall packet_ok l'.
Proof. intros Hd Hl. rewrite placed_perm. by constructor. Qed.

Lemma placed_head h : head l = Some h → head l' = Some h.
Proof. by destruct Hpl. Qed.

(** packets for one address keep their order *)
Lemma placed_fifo a :
  force = true → filter (λ p, pkt_addr p.2 = a) l' = filter (λ p, pkt_addr p.2 = a) l ++ filter (λ p, pkt_addr p.2 = a) [dp].
Proof.
  intros ->. destruct Hpl as [|h l1 l2 Ho _]; [done|].
  change (h :: l1 ++ dp :: l2) with ((h :: l1) ++ [dp] ++ l2). change (h :: l1 ++ l2) with ((h :: l1) ++ l2).
  rewrite !filter_app, <-app_assoc. f_equal. destruct (decide (pkt_addr dp.2 = a)) as [Ha|Ha].
  - rewrite (filter_none _ l2); [by rewrite app_nil_r|]. rewrite Forall_forall in Ho. intros p [_ Hp]%Ho. naive_solver.
  - rewrite (filter_cons_False _ dp) by done. by rewrite app_nil_r.
Qed.

(** behind the head the list is sorted by tick, packets of one tick in the order they came *)
Lemma placed_sorted :
  force = false → StronglySorted (λ p q, p.1 ≤ q.1) (tail l) →
  StronglySorted (λ p q, p.1 ≤ q.1) (tail l') ∧
  (l ≠ [] → tail l' = filter (λ p, p.1 ≤ dp.1) (tail l) ++ dp :: filter (λ p, ¬ p.1 ≤ dp.1) (tail l)).
Proof.
  intros ->. destruct Hpl as [|h l1 l2 Ho Hl]; [by repeat constructor|]. simpl. intros Hs.
  assert (H2 : Forall (λ p, ¬ p.1 ≤ dp.1) l2) by (apply (Forall_impl _ _ _ Ho); intros p [? _]; lia).
  assert (H1 : Forall (λ p, p.1 ≤ dp.1) l1).
  { destruct l1 as [|p l1 _] using rev_ind; [done|].
    specialize (Hl p ltac:(by rewrite last_snoc)).
    assert (p.1 ≤ dp.1) by (destruct (decide (p.1 ≤ dp.1)); [done|destruct Hl; split; [lia|by intros []]]).
    apply Forall_app_2; [|by apply Forall_singleton]. apply Forall_forall. intros q Hq.
    pose proof (StronglySorted_app_1_elem_of _ _ _ q p (StronglySorted_app_1_l _ _ _ Hs) Hq ltac:(by left)) as Hqp.
    cbv beta in Hqp. lia. }
  split.
  - apply StronglySorted_app in Hs as (H12 & Hs1 & Hs2). rewrite Forall_forall in H1, H2.
    apply StronglySorted_app_2; [|done|].
    + intros p q Hp [->|Hq]%elem_of_cons; [by apply H1|by apply H12].
    + constructor; [done|]. apply Forall_forall. intros q Hq. specialize (H2 q Hq). lia.
  - intros _. rewrite !filter_app, (filter_keep (λ p, p.1 ≤ dp.1) l1), (filter_keep (λ p, ¬ p.1 ≤ dp.1) l2) by done.
    rewrite Forall_forall in H1, H2. rewrite !filter_none by naive_solver. by rewrite app_nil_r.
Qed.
End placed.

(** *** The state between two events and while a packet is being sent *)

(** the send event is scheduled for the head of the list *)
Definition due (now : Z) (q : PacketQueue) : Prop :=
  match transmitList q with
  | [] => sendEvent q = None
  | dp :: _ => ∃ t, sendEvent q = Some t ∧ now ≤ t ∧ dp.1 ≤ t ≤ Z.max dp.1 (now + 1)
  end.

Record pq_ok (now : Z) (q : PacketQueue) : Prop := {
  po_packets : Forall packet_ok (transmitList q);
  po_waiting : waitingOnRetry q = true → sendEvent q = None ∧ deferredPacketReady now q = true;
  po_due : waitingOnRetry q = false → due now q;
}.

(** between taking a packet off the list and scheduling the next *)
Record pq_sending (now : Z) (q : PacketQueue) : Prop := {
  ps_packets : Forall packet_ok (transmitList q);
  ps_waiting : waitingOnRetry q = false;
  ps_event : sendEvent q = None ∨ due now q;
}.

Definition room (q : PacketQueue) (n : nat) : Prop :=
  _disableSanityCheck q = true ∨ (length (transmitList q) + n ≤ 101)%nat.

(** a packet that may be added *)
Definition enq_ok (now : Z) (e : enq) : Prop :=
  now ≤ enq_tick e ∧ packet_ok (dp_of e) ∧ isExpressSnoop (enq_pkt e) = false.

Ltac pq_run :=
  unfold get, gets, modify, check, when, lift, mbind, M_bind, mret, M_ret, throw;
  repeat (progress cbn -[u64 search_back Z.max MaxTick take drop] || (rewrite bool_decide_eq_true_2 by done)
    || (rewrite bool_decide_eq_false_2 by done)
    || (rewrite decide_True by (tauto || done)) || (rewrite decide_False by (tauto || done))).

Section steps.
Context (now : Z) (Hnow : 0 ≤ now < MaxTick).

Lemma u64_next : u64 (now + 1) = now + 1.
Proof. apply u64_small. unfold is_u64, MaxTick in *. lia. Qed.

Lemma schedSendEvent_run q t :
  waitingOnRetry q = false → sendEvent q = None → t < MaxTick →
  schedSendEvent now t q = Ok (tt, q.{sendEvent := Some (Z.max t (now + 1))}).
Proof.
  destruct q as [l ev dis w d]. cbn. intros -> -> Ht. unfold schedSendEvent, schedule_send.
  assert (t ≠ MaxTick) by lia. assert (now ≤ Z.max t (now + 1)) by lia. pq_run. rewrite u64_next. by pq_run.
Qed.

Lemma room_guard q n : room q (S n) → negb (_disableSanityCheck q) && bool_decide (100 < pq_size q) = false.
Proof.
  unfold room, pq_size, zlength. intros [->|Hl]; [done|]. rewrite bool_decide_eq_false_2 by lia. by rewrite andb_false_r.
Qed.

(** adding a packet to a list that has a head, and to an empty one *)
Lemma add_packet_behind q e n h tl :
  Forall packet_ok (transmitList q) → enq_ok now e → room q (S n) → transmitList q = h :: tl →
  ∃ l', placed (enq_force e) (dp_of e) (transmitList q) l' ∧ add_packet now e q = Ok (tt, q.{transmitList := l'}).
Proof.
  intros Hl (Hn & Hp & Hx) Hroom%room_guard Hq. destruct e as [pkt t force]. unfold dp_of in *. simpl in *.
  rewrite Hq in Hl |- *. apply Forall_cons in Hl as [_ Hl].
  destruct (search_back_run h tl pkt t force Hl) as (l1 & l2 & -> & Hs & Ho & Hlast); [apply Hp|].
  exists (h :: l1 ++ (t, pkt) :: l2). split; [by constructor|].
  unfold add_packet, schedSendTiming. simpl. pq_run. rewrite Hx. pq_run. rewrite Hroom, Hq. pq_run. rewrite Hs.
  pq_run. rewrite Hq. cbn. by rewrite take_app_length, drop_app_length.
Qed.

Lemma add_packet_first q e n :
  enq_ok now e → room q (S n) → transmitList q = [] → waitingOnRetry q = false → sendEvent q = None →
  add_packet now e q = Ok (tt, q.{transmitList := [dp_of e] }.{sendEvent := Some (Z.max (enq_tick e) (now + 1))}).
Proof.
  intros (Hn & [Hp _] & Hx) Hroom%room_guard Hq Hw He. destruct e as [pkt t force]. unfold dp_of in *. simpl in *.
  unfold add_packet, schedSendTiming. simpl. pq_run. rewrite Hx. pq_run. rewrite Hroom, Hq. pq_run.
  rewrite schedSendEvent_run; [|done|done|lia]. by destruct q.
Qed.

(** a packet is added in both states *)
Definition extends (q : PacketQueue) (e : enq) (q' : PacketQueue) : Prop :=
  placed (enq_force e) (dp_of e) (transmitList q) (transmitList q') ∧
  _disableSanityCheck q' = _disableSanityCheck q ∧ waitingOnRetry q' = waitingOnRetry q.

Lemma add_packet_sending q e n :
  pq_sending now q → enq_ok now e → room q (S n) →
  ∃ q', add_packet now e q = Ok (tt, q') ∧ extends q e q' ∧ pq_sending now q' ∧ room q' n.
Proof.
  intros [Hl Hw He] Hok Hroom. pose proof Hok as (Hn & Hp & _).
  assert (Hext : ∀ q', extends q e q' → Forall packet_ok (transmitList q') ∧ waitingOnRetry q' = false ∧ room q' n).
  { intros q' (Hpl & Hd & Hw'). split; [by eapply placed_ok|]. split; [congruence|].
    unfold room in *. rewrite Hd, (placed_perm _ _ _ _ Hpl). simpl. destruct Hroom; [by left|right; lia]. }
  destruct (transmitList q) as [|h tl] eqn:Hq.
  - assert (Hev : sendEvent q = None) by (destruct He as [?|He]; [done|unfold due in He; by rewrite Hq in He]).
    rewrite (add_packet_first q e n) by done. eexists. split; [done|].
    assert (Hx : extends q e (q.{transmitList := [dp_of e] }.{sendEvent := Some (Z.max (enq_tick e) (now + 1))})).
    { split; [rewrite Hq; constructor|by destruct q]. }
    destruct (Hext _ Hx) as (? & ? & ?). split; [done|]. split; [|done]. split; [done|done|].
    right. unfold due. cbn. eexists. split; [done|]. lia.
  - rewrite <-Hq in Hl. destruct (add_packet_behind q e n h tl Hl Hok Hroom Hq) as (l' & Hpl & ->).
    eexists. split; [done|]. assert (Hx : extends q e (q.{transmitList := l'})) by (by destruct q).
    destruct (Hext _ Hx) as (? & ? & ?). split; [done|]. split; [|done]. split; [done|done|].
    pose proof (placed_head _ _ _ _ Hpl h ltac:(by rewrite Hq)) as Hh. destruct q as [l ev dis w d]. cbn in *.
    unfold due in *. cbn in *. subst l. by destruct l' as [|? l']; simplify_eq/=.
Qed.

Lemma add_packets_sending q es n :
  pq_sending now q → Forall (enq_ok now) es → room q (length es + n) →
  ∃ q', for_each es (add_packet now) q = Ok (tt, q') ∧ placed_all (transmitList q) es (transmitList q') ∧
    pq_sending now q' ∧ _disableSanityCheck q' = _disableSanityCheck q.
Proof.
  intros Hq Hes. revert q Hq. induction Hes as [|e es He Hes IH]; intros q Hq Hroom.
  { exists q. split; [done|]. split; [constructor|done]. }
  destruct (add_packet_sending q e (length es + n) Hq He Hroom) as (q1 & Hr & (Hpl & Hd & _) & Hq1 & Hroom1).
  destruct (IH q1 Hq1 Hroom1) as (q2 & Hr2 & Hpl2 & Hq2 & Hd2). exists q2. simpl. unfold mbind, M_bind. rewrite Hr.
  split; [done|]. split; [by econstructor|]. split; [done|congruence].
Qed.

(** the end of a send: the event is scheduled for the new head, or draining ends *)
Lemma next_send q :
  pq_sending now q →
  ∃ q', schedSendEvent now (deferredPacketReadyTime q) q = Ok (tt, q') ∧ transmitList q' = transmitList q ∧
    pq_ok now q' ∧ _disableSanityCheck q' = _disableSanityCheck q.
Proof.
  intros [Hl Hw He]. destruct q as [l ev dis w d]. cbn in *. subst w.
  destruct l as [|h tl]; unfold deferredPacketReadyTime; cbn [transmitList].
  - assert (ev = None) as -> by (by destruct He as [?|?]). unfold schedSendEvent, pq_signalDrainDone. pq_run.
    destruct d; pq_run; eexists; by repeat split.
  - pose proof Hl as [[Hh _] _]%Forall_cons. unfold due in He. cbn in He. destruct He as [->|(t & -> & Ht0 & Ht1 & Ht2)]; cbn in *.
    + rewrite schedSendEvent_run; [|done|done|lia]. eexists. split; [done|]. split; [done|]. split; [|done].
      split; [done|done|]. intros _. unfold due. cbn. eexists. split; [done|]. lia.
    + unfold schedSendEvent. assert (h.1 ≠ MaxTick) by lia. pq_run. rewrite u64_next.
      assert (¬ Z.max h.1 (now + 1) < t) by lia. pq_run. eexists. split; [done|]. split; [done|].
      split; [|done]. split; [done|done|]. intros _. unfold due. cbn. eexists. split; [done|]. lia.
Qed.

Lemma send_run q accept news :
  Forall packet_ok (transmitList q) → waitingOnRetry q = false → sendEvent q = None →
  deferredPacketReady now q = true → Forall (enq_ok now) news → room q (length news) → (accept = false → news = []) →
  ∃ q' l, sendDeferredPacket now (peer now accept news) q = Ok (tt, q') ∧
    transmitList q = (if accept then take 1 (transmitList q) else []) ++ l ∧
    placed_all l news (transmitList q') ∧ pq_ok now q' ∧ _disableSanityCheck q' = _disableSanityCheck q.
Proof.
  destruct q as [l ev dis w d]. cbn. intros Hl -> -> Hr Hn Hroom Hrej.
  destruct l as [|dp rest]; [done|]. pose proof Hl as [_ Hrest]%Forall_cons.
  apply bool_decide_eq_true in Hr as Hle. unfold sendDeferredPacket, deferredPacketReady, peer. pq_run. destruct accept.
  - destruct (add_packets_sending (mkPacketQueue rest None dis false d) news 0) as (q1 & Hr1 & Hpl & [Hl1 Hw1 He1] & Hd1);
      [by split; [done|done|left]|done|destruct Hroom; [by left|right; cbn in *; lia]|].
    pq_run. rewrite Hr1. pq_run. destruct q1 as [l1 ev1 dis1 w1 d1]. cbn in *. subst.
    destruct (next_send (mkPacketQueue l1 ev1 dis false d1)) as (q2 & Hr2 & Hl2 & Hok2 & Hd2); [done|].
    exists q2, rest. split; [exact Hr2|]. split; [done|]. rewrite Hl2. by split.
  - rewrite Hrej by done. pq_run. eexists _, (dp :: rest). split; [done|]. split; [done|]. split; [constructor|].
    split; [|done]. by split.
Qed.

Lemma add_packet_ok q e :
  pq_ok now q → enq_ok now e → room q 1 →
  ∃ q', add_packet now e q = Ok (tt, q') ∧ extends q e q' ∧ pq_ok now q'.
Proof.
  intros [Hl Hw Hd] He Hroom. destruct (transmitList q) as [|h tl] eqn:Hq.
  - assert (Hwait : waitingOnRetry q = false).
    { destruct (waitingOnRetry q); [|done]. destruct (Hw eq_refl) as [_ Hr]. unfold deferredPacketReady in Hr.
      by rewrite Hq in Hr. }
    assert (Hs : pq_sending now q) by (split; [by rewrite Hq|done|right; auto]).
    destruct (add_packet_sending q e 0 Hs He Hroom) as (q' & Hr & Hx & [Hl' Hw' He'] & _).
    exists q'. split; [done|]. split; [done|]. split; [done|by rewrite Hw'|]. intros _. destruct He' as [He'|]; [|done].
    specialize (Hd Hwait). unfold due in Hd. rewrite Hq in Hd.
    rewrite (add_packet_first q e 0) in Hr by done. injection Hr as <-. by destruct q.
  - rewrite <-Hq in Hl. destruct (add_packet_behind q e 0 h tl Hl He Hroom Hq) as (l' & Hpl & ->).
    eexists. split; [done|]. split; [by destruct q|].
    pose proof (placed_head _ _ _ _ Hpl h ltac:(by rewrite Hq)) as Hh.
    assert (Hl' : Forall packet_ok l') by (eapply placed_ok; [done|apply He|done]).
    destruct q as [l ev dis w d]. cbn in *. unfold due, deferredPacketReady in *. cbn in *. subst l.
    destruct l' as [|? l']; simplify_eq/=. by split.
Qed.

(** an event that keeps to the protocol: times are not passed over, a refusing peer adds nothing, and the
    sanity check leaves room for the packets that are added *)
Definition pq_enabled (ev : pq_event) (q : PacketQueue) : Prop :=
  (∀ t, sendEvent q = Some t → now ≤ t) ∧ Forall (enq_ok now) (added ev) ∧ room q (length (added ev)) ∧
  match ev with
  | Enqueue _ => True
  | Fire accept news => sendEvent q = Some now ∧ (accept = false → news = [])
  | Retry accept news => waitingOnRetry q = true ∧ (accept = false → news = [])
  end.

Lemma ok_later before q ev : before ≤ now → pq_ok before q → pq_enabled ev q → pq_ok now q.
Proof.
  intros Hb [Hl Hw Hd] [Ht _]. split; [done| |].
  - intros H. destruct (Hw H) as [? Hr]. split; [done|]. unfold deferredPacketReady in *.
    destruct (transmitList q); [done|]. apply bool_decide_eq_true in Hr. apply bool_decide_eq_true_2. lia.
  - intros H. specialize (Hd H). unfold due in *. destruct (transmitList q); [done|].
    destruct Hd as (t & He & ? & ?). exists t. split; [done|]. specialize (Ht t He). lia.
Qed.
End steps.

Lemma run_pq_run before now q ev :
  0 ≤ now < MaxTick → before ≤ now → pq_ok before q → pq_enabled now ev q →
  ∃ sent q' l, run_pq now ev q = Ok (sent, q') ∧ Forall (λ dp, dp.1 ≤ now) sent ∧
    transmitList q = sent ++ l ∧ placed_all l (added ev) (transmitList q') ∧
    pq_ok now q' ∧ _disableSanityCheck q' = _disableSanityCheck q.
Proof.
  intros Hnow Hb Hok He. pose proof (ok_later now before q ev Hb Hok He) as [Hl Hw Hd].
  destruct He as (Ht & Hes & Hroom & He).
  assert (Htake : deferredPacketReady now q = true → ∀ b : bool, Forall (λ dp, dp.1 ≤ now) (if b then take 1 (transmitList q) else [])).
  { unfold deferredPacketReady. destruct (transmitList q) as [|dp rest]; [done|]. intros H%bool_decide_eq_true [|]; [|done].
    by apply Forall_singleton. }
  destruct ev as [e|accept news|accept news]; cbn [added] in *.
  - apply Forall_cons in Hes as [Hes _].
    destruct (add_packet_ok now Hnow q e ltac:(done) Hes Hroom) as (q' & Hr & (Hpl & Hd' & _) & Hok').
    exists [], q', (transmitList q). unfold run_pq. pq_run. rewrite Hr. repeat (split; [done|]).
    split; [by repeat econstructor|done].
  - destruct He as [Hev Hrej]. destruct (waitingOnRetry q) eqn:Hwait; [by destruct (Hw eq_refl) as [? _]; congruence|].
    assert (Hr : deferredPacketReady now q = true).
    { specialize (Hd eq_refl). unfold due, deferredPacketReady in *. destruct (transmitList q); [congruence|].
      destruct Hd as (t & ? & ? & ?). simplify_eq. apply bool_decide_eq_true_2. lia. }
    destruct (send_run now Hnow (q.{sendEvent := None}) accept news) as (q' & l & Hs & Hl' & Hpl & Hok' & Hd'); [by destruct q..|].
    exists (if accept then take 1 (transmitList q) else []), q', l. split; [|by auto].
    destruct q. cbn in *. subst. unfold run_pq, processSendEvent. pq_run. unfold mbind, M_bind in Hs. by rewrite Hs.
  - destruct He as [Hwait Hrej]. destruct (Hw Hwait) as [Hev Hr].
    destruct (send_run now Hnow (q.{waitingOnRetry := false}) accept news) as (q' & l & Hs & Hl' & Hpl & Hok' & Hd'); [by destruct q..|].
    exists (if accept then take 1 (transmitList q) else []), q', l. split; [|by auto].
    destruct q. cbn in *. subst. unfold run_pq, retry. pq_run. unfold mbind, M_bind in Hs. by rewrite Hs.
Qed.

(** *** Runs *)

Fixpoint pqs_enabled (before : Z) (evs : list (Z * pq_event)) (q : PacketQueue) : Prop :=
  match evs with
  | [] => True
  | (now, ev) :: evs =>
      (before ≤ now < MaxTick) ∧ pq_enabled now ev q ∧
      ∀ s q', run_pq now ev q = Ok (s, q') → pqs_enabled now evs q'
  end.

(** what the runs do to the list: packets leave at the front, others are placed *)
Inductive transmitted : list DeferredPacket → list enq → list DeferredPacket → list DeferredPacket → Prop :=
  | tr_none l : transmitted l [] [] l
  | tr_step sent l0 es l1 es' sent' l2 :
      placed_all l0 es l1 → transmitted l1 es' sent' l2 →
      transmitted (sent ++ l0) (es ++ es') (sent ++ sent') l2.

Definition all_added (evs : list (Z * pq_event)) : list enq := evs ≫= λ x, added x.2.

Lemma run_pqs_run evs before q :
  0 ≤ before → pq_ok before q → pqs_enabled before evs q →
  ∃ sent q' now, run_pqs evs q = Ok (sent, q') ∧ Forall (λ s, s.2.1 ≤ s.1) sent ∧
    transmitted (transmitList q) (all_added evs) sent.*2 (transmitList q') ∧
    before ≤ now ∧ pq_ok now q' ∧ _disableSanityCheck q' = _disableSanityCheck q.
Proof.
  revert before q. induction evs as [|[now ev] evs IH]; intros before q Hb Hok He.
  { exists [], q, before. repeat (split; [done|]). split; [constructor|done]. }
  destruct He as (Hnow & He & Hrest).
  destruct (run_pq_run before now q ev ltac:(lia) ltac:(lia) Hok He)
    as (sent & q1 & l & Hr & Hs & Hl & Hpl & Hok1 & Hd1).
  destruct (IH now q1 ltac:(lia) Hok1 (Hrest _ _ Hr)) as (sent' & q2 & t & Hr2 & Hs2 & Htr & Ht & Hok2 & Hd2).
  exists (((λ dp, (now, dp)) <$> sent) ++ sent'), q2, t. simpl. unfold mbind, M_bind. rewrite Hr, Hr2.
  split; [done|]. split.
  { apply Forall_app_2; [|done]. by apply Forall_fmap. }
  split; [|split; [lia|by rewrite Hd2]].
  rewrite fmap_app, <-list_fmap_compose, Hl. unfold compose. cbn [snd]. rewrite list_fmap_id. by econstructor.
Qed.

Lemma pq_new_ok dis : pq_ok 0 (PacketQueue_new dis).
Proof. by repeat split. Qed.

Lemma placed_all_perm l es l' : placed_all l es l' → l' ≡ₚ l ++ (dp_of <$> es).
Proof.
  induction 1 as [l|l e l1 es l2 Hpl _ IH]; [by rewrite app_nil_r|]. rewrite IH, (placed_perm _ _ _ _ Hpl).
  csimpl. apply Permutation_middle.
Qed.

Lemma transmitted_perm l es sent l' : transmitted l es sent l' → sent ++ l' ≡ₚ l ++ (dp_of <$> es).
Proof.
  induction 1 as [l|s l0 es l1 es' sent l2 Hpl _ IH]; [by rewrite app_nil_r|].
  by rewrite <-!app_assoc, IH, (placed_all_perm _ _ _ Hpl), fmap_app, <-app_assoc.
Qed.

Notation to a := (filter (λ p : DeferredPacket, pkt_addr p.2 = a)).

Lemma placed_all_fifo a l es l' :
  placed_all l es l' → Forall (λ e, enq_force e = true) es → to a l' = to a l ++ to a (dp_of <$> es).
Proof.
  induction 1 as [l|l e l1 es l2 Hpl _ IH]; intros Hf; [by rewrite app_nil_r|].
  apply Forall_cons in Hf as [He Hf]. rewrite IH, (placed_fifo _ _ _ _ Hpl a He), <-app_assoc, <-filter_app by done.
  done.
Qed.

Lemma transmitted_fifo a l es sent l' :
  transmitted l es sent l' → Forall (λ e, enq_force e = true) es →
  to a sent ++ to a l' = to a l ++ to a (dp_of <$> es).
Proof.
  induction 1 as [l|s l0 es l1 es' sent l2 Hpl _ IH]; intros Hf; [by rewrite app_nil_r|].
  apply Forall_app in Hf as [Hf Hf']. rewrite fmap_app, !filter_app, <-!app_assoc, (IH Hf').
  by rewrite (placed_all_fifo a _ _ _ Hpl Hf), <-app_assoc.
Qed.

Notation sorted := (StronglySorted (λ p q : DeferredPacket, p.1 ≤ q.1)).

Lemma placed_all_sorted l es l' :
  placed_all l es l' → Forall (λ e, enq_force e = false) es → sorted (tail l) → sorted (tail l').
Proof.
  induction 1 as [l|l e l1 es l2 Hpl _ IH]; intros Hf Hs; [done|]. apply Forall_cons in Hf as [He Hf].
  apply IH; [done|]. by eapply placed_sorted.
Qed.

Lemma tail_suffix (s l : list DeferredPacket) : sorted (tail (s ++ l)) → sorted (tail l).
Proof.
  destruct s as [|p s]; [done|]. simpl. intros Hs%StronglySorted_app_1_r.
  destruct l; [done|]. by apply StronglySorted_inv in Hs as [? _].
Qed.

Lemma transmitted_sorted l es sent l' :
  transmitted l es sent l' → Forall (λ e, enq_force e = false) es → sorted (tail l) → sorted (tail l').
Proof.
  induction 1 as [l|s l0 es l1 es' sent l2 Hpl _ IH]; intros Hf Hs; [done|]. apply Forall_app in Hf as [Hf Hf'].
  apply IH; [done|]. eapply placed_all_sorted; [done..|]. by eapply tail_suffix.
Qed.

(** ** Properties *)

(** C19: A packet queue never fails an assertion and never forgets a packet.  Whatever packets its
    owner adds, at once or in reaction to a packet that was sent, and whatever the
    peer refuses: every packet that entered was sent exactly once, none before
    its tick, or is still in the list; and between two events a queue with packets either
    waits for the peer's retry, with a head that is ready and no event scheduled, or its
    send event is scheduled, for the tick of the head or, where that is past, for the next tick at the
    latest.  The owner leaves room below the limit of 100 packets that the queue checks, and a peer that refuses a packet
    adds none in the same call. *)
Theorem queue_never_stalls (evs : list (Z * pq_event)) (dis : bool)
    (Hevs : pqs_enabled 0 evs (PacketQueue_new dis)) :
  ∃ sent q now, run_pqs evs (PacketQueue_new dis) = Ok (sent, q) ∧
    Forall (λ s, s.2.1 ≤ s.1) sent ∧
    sent.*2 ++ transmitList q ≡ₚ dp_of <$> all_added evs ∧
    if waitingOnRetry q then sendEvent q = None ∧ deferredPacketReady now q = true
    else match transmitList q with
         | [] => sendEvent q = None
         | dp :: _ => ∃ t, sendEvent q = Some t ∧ now ≤ t ∧ dp.1 ≤ t ≤ Z.max dp.1 (now + 1)
         end.
Proof.
  destruct (run_pqs_run evs 0 _ ltac:(lia) (pq_new_ok dis) Hevs) as (sent & q & now & Hr & Hs & Htr & _ & [_ Hw Hd] & _).
  exists sent, q, now. split; [done|]. split; [done|]. split; [apply (transmitted_perm _ _ _ _ Htr)|].
  destruct (waitingOnRetry q); [by apply Hw|by apply Hd].
Qed.

(** The order of a packet queue.  When insertion order is forced, the packets for one
    address are sent in the order in which they were added, whatever their ticks.  When it is
    not, the list is sorted by tick behind its head, packets of one
    tick in the order they came; but nothing is ever placed before the head: a packet that
    is due before it is sent after it, and the send event stays where it was. *)
Theorem queue_order (evs : list (Z * pq_event)) (dis : bool)
    (Hevs : pqs_enabled 0 evs (PacketQueue_new dis)) :
  ∃ sent q now, run_pqs evs (PacketQueue_new dis) = Ok (sent, q) ∧
    (Forall (λ e, enq_force e = true) (all_added evs) → ∀ a,
       to a sent.*2 ++ to a (transmitList q) = to a (dp_of <$> all_added evs)) ∧
    (Forall (λ e, enq_force e = false) (all_added evs) → ∀ t e h tl,
       now ≤ t < MaxTick → enq_ok t e → enq_force e = false → room q 1 → transmitList q = h :: tl →
       sorted tl ∧
       add_packet t e q = Ok (tt, q.{transmitList := h :: filter (λ p, p.1 ≤ enq_tick e) tl
         ++ dp_of e :: filter (λ p, ¬ p.1 ≤ enq_tick e) tl})).
Proof.
  destruct (run_pqs_run evs 0 _ ltac:(lia) (pq_new_ok dis) Hevs) as (sent & q & now & Hr & _ & Htr & Hn & [Hl _ _] & _).
  exists sent, q, now. split; [done|]. split.
  - intros Hf a. apply (transmitted_fifo a _ _ _ _ Htr Hf).
  - intros Hf t e h tl Ht He Hef Hroom Hq.
    pose proof (transmitted_sorted _ _ _ _ Htr Hf ltac:(constructor)) as Hs. rewrite Hq in Hs. split; [done|].
    destruct (add_packet_behind t q e 0 h tl Hl He Hroom Hq) as (l' & Hpl & ->).
    pose proof (placed_head _ _ _ _ Hpl h ltac:(by rewrite Hq)) as Hh.
    destruct (placed_sorted _ _ _ _ Hpl Hef) as [_ Htl]; [by rewrite Hq|]. rewrite Hq in Htl.
    destruct l' as [|? l']; simplify_eq/=. by rewrite Htl.
Qed.

(** a packet due at tick 50 behind one due at tick 100 *)
Definition ex_enq (a t : Z) (force : bool) : enq := mkEnq (sample_packet ReadReq a []) t force.
Definition ex_evs (force : bool) : list (Z * pq_event) :=
  [(10, Enqueue (ex_enq 0x40 100 force)); (20, Enqueue (ex_enq 0x80 50 force));
   (100, Fire false []); (120, Retry true [ex_enq 0x40 200 force]); (121, Fire true [])].
Example ex_late :
  (match run_pqs (ex_evs false) (PacketQueue_new false) with
   | Ok (sent, q) => Ok ((λ s, (s.1, s.2.1)) <$> sent, (transmitList q).*1, sendEvent q) | Fault e => Fault e end)
  = Ok ([(120, 100); (121, 50)], [200], Some 200).
Proof. reflexivity. Qed.

Lemma ex_enq_ok now a t force : now ≤ t → 0 ≤ t < MaxTick → enq_ok now (ex_enq a t force).
Proof. intros ? ?. split; [done|]. split; [|done]. split; [done|]. by eexists. Qed.

Ltac next_state := let Hr := fresh in intros ? ? Hr; vm_compute in Hr; injection Hr as <- <-.

Lemma ex_evs_enabled force : pqs_enabled 0 (ex_evs force) (PacketQueue_new false).
Proof.
  assert (Hlt : 1000 < MaxTick) by (vm_compute; reflexivity).
  assert (Hroom : ∀ q n, (length (transmitList q) + n < 100)%nat → room q n) by (intros; right; lia).
  destruct force; (split; [lia|split; [|next_state]]);
    repeat match goal with
    | |- pqs_enabled _ ((_, _) :: _) _ => split; [lia|split; [|next_state]]
    | |- pqs_enabled _ [] _ => exact I
    end;
    (split; [by intros t [= <-]|split; [|split; [apply Hroom; cbn; lia|]]]);
    cbn [added]; repeat (apply Forall_cons; split; [apply ex_enq_ok; lia|]); try (by apply Forall_nil); by repeat split.
Qed.

Lemma queue_never_stalls_witness :
  ∃ sent q, run_pqs (ex_evs false) (PacketQueue_new false) = Ok (sent, q) ∧
    sent.*2 ++ transmitList q ≡ₚ dp_of <$> all_added (ex_evs false) ∧ length sent = 2%nat.
Proof.
  destruct (queue_never_stalls (ex_evs false) false (ex_evs_enabled false)) as (sent & q & now & Hr & _ & Hp & _).
  exists sent, q. split; [exact Hr|]. split; [exact Hp|]. vm_compute in Hr. by injection Hr as <- <-.
Defined.

Lemma queue_order_witness :
  ∃ sent q, run_pqs (ex_evs true) (PacketQueue_new false) = Ok (sent, q) ∧
    to (Some 0x40) sent.*2 ++ to (Some 0x40) (transmitList q)
      = [dp_of (ex_enq 0x40 100 true); dp_of (ex_enq 0x40 200 true)].
Proof.
  destruct (queue_order (ex_evs true) false (ex_evs_enabled true)) as (sent & q & now & Hr & Hf & _).
  exists sent, q. split; [exact Hr|]. rewrite (Hf ltac:(by repeat constructor) (Some 0x40)). reflexivity.
Defined.
