(* ===== verification/SimpleMem.v ===== *)
(** * The simple memory ([SimpleMemory], [mem/simple_mem.*])

    A memory controller with a port: it accepts one request at a time, limited
    by its bandwidth, does the access at once and holds the response for its
    latency.  [now] is [curTick()]; the peer of the port is an argument, which
    may send requests before it returns. *)

From stdpp Require Import gmap.
From S2P Require Import Prelude Double IntMath AddrRange MemPacket AbstractMem XBarLayer PacketQueue.

(** ** State *)

(** the parameters of the memory, and the values that [random_mt] draws from [0 .. latency_var] *)
Record SimpleMemoryParams := mkSimpleMemoryParams {
  latency : Z;
  latency_var : Z;
  bandwidth : double;
  random : nat → Z;
  atomic_op : nat → option (list Z → list Z);
}.

(** [draws] counts the values drawn; [accepted] is the history of the requests that were accepted, with
    their ticks, which the code does not keep *)
Record SimpleMemory := mkSimpleMemory {
  sm_mem : AbstractMemory;
  packetQueue : list DeferredPacket;
  isBusy : bool;
  retryReq : bool;
  retryResp : bool;
  releaseEvent : option Z;
  dequeueEvent : option Z;
  sm_drainState : DrainState;
  draws : nat;
  accepted : list (Z * Packet);
}.
#[export] Instance SimpleMemory_settable : Settable SimpleMemory := λ r,
  mkSimpleMemory (sm_mem r) (packetQueue r) (isBusy r) (retryReq r) (retryResp r) (releaseEvent r)
    (dequeueEvent r) (sm_drainState r) (draws r) (accepted r).

Definition SimpleMemory_new (mem : AbstractMemory) : SimpleMemory :=
  mkSimpleMemory mem [] false false false None None Running 0 [].

Section memory.
Context (P : SimpleMemoryParams) (now : Z).

Definition on_mem {A} (m : M AbstractMemory A) : M SimpleMemory A := zoom sm_mem (λ a s, s.{sm_mem := a}) m.

(** [schedule] and [reschedule] of an event, with the assertions of the event queue *)
Definition schedule_release (t : Z) : M SimpleMemory unit :=
  s ← get;
  check (bool_decide (releaseEvent s = None)) ;; check (bool_decide (now ≤ t)) ;;
  modify (λ s, s.{releaseEvent := Some t}).
Definition schedule_dequeue (t : Z) : M SimpleMemory unit :=
  s ← get;
  check (bool_decide (dequeueEvent s = None)) ;; check (bool_decide (now ≤ t)) ;;
  modify (λ s, s.{dequeueEvent := Some t}).
Definition reschedule_dequeue (t : Z) : M SimpleMemory unit :=
  check (bool_decide (now ≤ t)) ;; modify (λ s, s.{dequeueEvent := Some t}).

(** ** Accesses *)

Definition getLatency : M SimpleMemory Z :=
  if decide (latency_var P = 0) then mret (latency P)
  else
    k ← gets draws;
    modify (λ s, s.{draws := S k}) ;; mret (u64 (latency P + random P k)).

Definition sm_recvAtomic (pkt : Packet) : M SimpleMemory (Z * Packet) :=
  if cacheResponding pkt then throw ExitCalled else
  pkt ← on_mem (access (atomic_op P) pkt);
  l ← getLatency; mret (l, pkt).

Definition sm_recvFunctional (pkt : Packet) : M SimpleMemory Packet :=
  pkt ← on_mem (functionalAccess pkt);
  s ← get;
  r ← lift (checkFunctional_loop pkt (packetQueue s));
  modify (λ s, s.{packetQueue := r.2}) ;; mret r.1.2.

(** [Tick duration = pkt->getSize() * bandwidth] *)
Definition duration (pkt : Packet) : res Z := n ← getSize pkt; d_to_uint64 (d_of_Z n * bandwidth P)%D.

(** where a response goes in the queue: the search from the end, and [emplace] behind it.  On an empty list the
    code steps back from [end()], which the list of the library takes to [end()] again *)
Definition place_response (t : Z) (pkt : Packet) : M SimpleMemory unit :=
  l ← gets packetQueue;
  match l with
  | [] => modify (λ s, s.{packetQueue := [(t, pkt)] })
  | _ :: rest =>
      i ← lift (search_back l pkt t true (length rest));
      modify (λ s, s.{packetQueue := take (S i) l ++ (t, pkt) :: drop (S i) l})
  end.

(** the response is queued *)
Definition queue_response (pkt : Packet) (receive_delay : Z) : M SimpleMemory unit :=
  check (isResponse (pkt_cmd pkt)) ;;
  l ← getLatency;
  let when_to_send := u64 (u64 (now + receive_delay) + l) in
  place_response when_to_send pkt ;;
  s ← get;
  if negb (retryResp s) && bool_decide (dequeueEvent s = None) then
    match last (packetQueue s) with
    | None => throw OutOfRange
    | Some dp => schedule_dequeue dp.1
    end
  else mret tt.

(** ** Requests in timing mode: whether the request is accepted, and the packet *)
Definition sm_recvTimingReq (pkt : Packet) : M SimpleMemory (bool * Packet) :=
  if cacheResponding pkt then throw ExitCalled else
  if negb (isRead (pkt_cmd pkt) || isWrite (pkt_cmd pkt)) then throw ExitCalled else
  s ← get;
  if retryReq s then mret (false, pkt) else
  if isBusy s then modify (λ s, s.{retryReq := true}) ;; mret (false, pkt) else
  let receive_delay := to_uint 32 (headerDelay pkt + payloadDelay pkt) in
  modify (λ s, s.{accepted ::= λ l, l ++ [(now, pkt)] }) ;;
  let pkt := pkt.{headerDelay := 0}.{payloadDelay := 0} in
  d ← lift (duration pkt);
  (if decide (d ≠ 0) then schedule_release (u64 (now + d)) ;; modify (λ s, s.{isBusy := true}) else mret tt) ;;
  let needs := needsResponse (pkt_cmd pkt) in
  r ← sm_recvAtomic pkt;
  (if (needs : bool) then queue_response r.2 receive_delay else mret tt) ;;
  mret (true, r.2).

(** ** The events of the memory

    An event has been taken off its queue when it is run. *)

Definition sm_release (sendRetryReq : M SimpleMemory unit) : M SimpleMemory unit :=
  modify (λ s, s.{releaseEvent := None}) ;;
  s ← get;
  check (isBusy s) ;;
  modify (λ s, s.{isBusy := false}) ;;
  if retryReq s then modify (λ s, s.{retryReq := false}) ;; sendRetryReq else mret tt.

Definition sm_signalDrainDone : M SimpleMemory unit :=
  d ← gets sm_drainState;
  match d with
  | Draining => modify (λ s, s.{sm_drainState := Drained})
  | Running | Drained | Resuming => mret tt
  end.

Section send.
Context (sendTimingResp : Packet → M SimpleMemory bool).

Definition dequeue : M SimpleMemory unit :=
  l ← gets packetQueue;
  match l with
  | [] => throw AssertFailed
  | deferred_pkt :: _ =>
      ok ← sendTimingResp deferred_pkt.2;
      modify (λ s, s.{retryResp := negb ok}) ;;
      if (ok : bool) then
        modify (λ s, s.{packetQueue ::= tail}) ;;
        s ← get;
        match packetQueue s with
        | dp :: _ => reschedule_dequeue (Z.max dp.1 now)
        | [] => if decide (sm_drainState s = Draining) then sm_signalDrainDone else mret tt
        end
      else mret tt
  end.

Definition process_dequeue : M SimpleMemory unit :=
  modify (λ s, s.{dequeueEvent := None}) ;; dequeue.

Definition recvRespRetry : M SimpleMemory unit :=
  r ← gets retryResp; check r ;; dequeue.
End send.

Definition sm_drain : M SimpleMemory DrainState :=
  l ← gets packetQueue;
  match l with [] => mret Drained | _ => mret Draining end.
End memory.
