(* ===== verification/SimpleMemRun.v ===== *)
(** * Runs of the simple memory

    A peer sends requests and takes responses; every response is the one the
    specification of memories gives, is sent once, and not before its time. *)

From S2P Require Import Prelude Double IntMath AddrRange MemPacket AbstractMem MemSpec XBarLayer PacketQueue SimpleMem.

(** ** Events

    When the memory sends a response or asks for a retry the peer may send
    further requests before it returns. *)

Inductive sm_event :=
  | SRequest (pkt : Packet)
  | SRelease (news : list Packet)
  | SDequeue (accept : bool) (news : list Packet)
  | SRespRetry (accept : bool) (news : list Packet).

Section run.
Context (P : SimpleMemoryParams).

Definition requests (now : Z) (news : list Packet) : M SimpleMemory unit :=
  for_each news (λ pkt, sm_recvTimingReq P now pkt ;; mret tt).
Definition sm_peer (now : Z) (accept : bool) (news : list Packet) (_ : Packet) : M SimpleMemory bool :=
  requests now news ;; mret accept.

(** the responses that were sent *)
Definition run_sm (now : Z) (ev : sm_event) : M SimpleMemory (list DeferredPacket) :=
  l ← gets packetQueue;
  match ev with
  | SRequest pkt => sm_recvTimingReq P now pkt ;; mret []
  | SRelease news => sm_release (requests now news) ;; mret []
  | SDequeue accept news => process_dequeue now (sm_peer now accept news) ;; mret (if accept then take 1 l else [])
  | SRespRetry accept news => recvRespRetry now (sm_peer now accept news) ;; mret (if accept then take 1 l else [])
  end.

Fixpoint run_sms (evs : list (Z * sm_event)) : M SimpleMemory (list (Z * DeferredPacket)) :=
  match evs with
  | [] => mret []
  | (now, ev) :: evs => s ← run_sm now ev; r ← run_sms evs; mret (((λ dp, (now, dp)) <$> s) ++ r)
  end.

(** ** The specification of a run *)

Context (start last_addr : Z) (m0 : byte_mem).
Notation to a := (filter (λ p : DeferredPacket, pkt_addr p.2 = a)).

(** the requests accepted so far, with their ticks, the responses to them, each with the tick at which it is
    ready, and the bytes afterwards.  A request is accepted when the time that the one before it
    needs at the bandwidth of the memory has passed *)
Inductive served : list (Z * Packet) → list DeferredPacket → byte_mem → Prop :=
  | served_none : served [] [] m0
  | served_next acc resps m t pkt op resp r :
      served acc resps m → access_ok start last_addr pkt op →
      (∀ t0 pkt0 d0, last acc = Some (t0, pkt0) → duration P pkt0 = Ok d0 → t0 + d0 ≤ t) →
      answers pkt (spec_op op m).1.1 (spec_op op m).1.2 resp → 0 ≤ r ≤ latency_var P →
      served (acc ++ [(t, pkt)])
        (resps ++ if needsResponse (pkt_cmd pkt)
                  then [(t + to_uint 32 (headerDelay pkt + payloadDelay pkt) + latency P + r, resp)] else [])
        (spec_op op m).2.

(** ** Invariants *)

Definition busy_ok (now : Z) (s : SimpleMemory) : Prop :=
  match last (accepted s) with
  | None => isBusy s = false ∧ releaseEvent s = None
  | Some (t0, pkt0) => ∃ d, duration P pkt0 = Ok d ∧
      if isBusy s then releaseEvent s = Some (t0 + d) ∧ now ≤ t0 + d else releaseEvent s = None ∧ t0 + d ≤ now
  end.

(** what holds also while a response is being sent *)
Record sm_core (now : Z) (resps sent : list DeferredPacket) (s : SimpleMemory) : Prop := {
  core_served : ∃ m, served (accepted s) resps m ∧ mem_abs start last_addr (sm_mem s) m;
  core_perm : sent ++ packetQueue s ≡ₚ resps;
  core_fifo a : to a sent ++ to a (packetQueue s) = to a resps;
  core_packets : Forall packet_ok (packetQueue s);
  core_busy : busy_ok now s;
  core_retry : retryReq s = true → isBusy s = true;
}.

(** the response at the head waits for the peer, or its event is scheduled *)
Definition deq_ok (now : Z) (s : SimpleMemory) : Prop :=
  if retryResp s then dequeueEvent s = None ∧ ∃ dp, head (packetQueue s) = Some dp ∧ dp.1 ≤ now
  else match packetQueue s with
       | [] => dequeueEvent s = None
       | dp :: _ => ∃ t, dequeueEvent s = Some t ∧ now ≤ t ∧ dp.1 ≤ t ≤ Z.max dp.1 now
       end.

(** a request that the memory can serve *)
Definition req_ok (now : Z) (pkt : Packet) : Prop :=
  (∃ op, access_ok start last_addr pkt op) ∧ (∃ d, duration P pkt = Ok d ∧ now + d < 2 ^ 64) ∧
  now + to_uint 32 (headerDelay pkt + payloadDelay pkt) + latency P + latency_var P < MaxTick.

(** the parameters *)
Record params_ok : Prop := {
  par_latency : 0 ≤ latency P ∧ 0 ≤ latency_var P;
  par_random k : 0 ≤ random P k ≤ latency_var P;
  par_range : 0 ≤ start ∧ last_addr < 2 ^ 64;
}.
Context (HP : params_ok).

Lemma getLatency_run s :
  latency P + latency_var P < 2 ^ 64 →
  ∃ r k, getLatency P s = Ok (latency P + r, s.{draws := k}) ∧ 0 ≤ r ≤ latency_var P.
Proof using HP.
  intros Hb. destruct HP as [[? ?] Hr _]. unfold getLatency. case_decide as Hv.
  - exists 0, (draws s). split; [rewrite Z.add_0_r; by destruct s|lia].
  - exists (random P (draws s)), (S (draws s)). split; [|done]. eapply bind_Ok; [done|]. eapply bind_Ok; [done|].
    cbn. unfold mret, M_ret. do 2 f_equal. apply u64_small. specialize (Hr (draws s)). unfold is_u64. lia.
Qed.

Lemma duration_nonneg pkt d : duration P pkt = Ok d → 0 ≤ d.
Proof.
  unfold duration. intros (n & _ & H)%res_bind_inv. unfold d_to_uint64 in H.
  destruct (d_mul _ _); try done; [injection H as <-; lia|]. case_decide as Hd; [|done]. injection H as <-. lia.
Qed.

(** the new packet is the last one, or is due before it *)
Lemma placed_last force dp l l' : placed force dp l l' → ∃ p, last l' = Some p ∧ dp.1 ≤ p.1.
Proof.
  intros [|h l1 l2 Ho _]; [exists dp; cbn; split; [done|lia]|].
  assert (Hsplit : h :: l1 ++ dp :: l2 = (h :: l1) ++ [dp] ++ l2) by done. rewrite Hsplit, !last_app.
  destruct (last l2) as [p|] eqn:E; [|exists dp; cbn; split; [done|lia]].
  exists p. split; [done|]. apply last_Some in E as [l3 ->]. apply Forall_app in Ho as [_ Ho].
  apply Forall_cons in Ho as [[Hlt _] _]. lia.
Qed.

(** a response is put into the queue *)
Lemma queue_response_run now s resp delay :
  0 ≤ now → 0 ≤ delay → now + delay + latency P + latency_var P < MaxTick → isResponse (pkt_cmd resp) = true →
  is_Some (pkt_addr resp) → Forall packet_ok (packetQueue s) →
  ∃ r k l ev, let dp := (now + delay + latency P + r, resp) in
    queue_response P now resp delay s = Ok (tt, s.{draws := k}.{packetQueue := l}.{dequeueEvent := ev}) ∧
    0 ≤ r ≤ latency_var P ∧ packet_ok dp ∧ placed true dp (packetQueue s) l ∧
    ev = (if negb (retryResp s) && bool_decide (dequeueEvent s = None) then fst <$> last l else dequeueEvent s).
Proof using HP.
  intros Hn Hd Hmax Hresp Haddr Hq. unfold MaxTick in Hmax.
  destruct (getLatency_run s) as (r & k & Hlat & Hr); [destruct HP; lia|].
  pose proof (par_latency HP) as [Hl _].
  set (t := now + delay + latency P + r). exists r, k.
  assert (Ht : u64 (u64 (now + delay) + (latency P + r)) = t).
  { rewrite (u64_small (now + delay)) by (unfold is_u64; lia). rewrite u64_small by (unfold is_u64; lia). lia. }
  assert (Hok : packet_ok (t, resp)) by (split; [unfold MaxTick; cbn; lia|done]).
  assert (Hplace : ∃ l, placed true (t, resp) (packetQueue s) l ∧
    place_response t resp (s.{draws := k}) = Ok (tt, s.{draws := k}.{packetQueue := l})).
  { unfold place_response. destruct (packetQueue s) as [|h tl] eqn:E.
    - exists [(t, resp)]. split; [constructor|]. eapply bind_Ok; [done|]. change (packetQueue (s.{draws := k})) with (packetQueue s). rewrite E. done.
    - apply Forall_cons in Hq as [_ Hq].
      destruct (search_back_run h tl resp t true Hq Haddr) as (l1 & l2 & -> & Hs & Ho & Hlast).
      exists (h :: l1 ++ (t, resp) :: l2). split; [by constructor|]. eapply bind_Ok; [done|].
      change (packetQueue (s.{draws := k})) with (packetQueue s). rewrite E. eapply lift_run; [exact Hs|].
      unfold modify. do 2 f_equal. cbn.
      by rewrite take_app_length, drop_app_length. }
  destruct Hplace as (l & Hpl & Hplace). exists l. eexists. cbn zeta. split; [|split; [exact Hr|split; [done|split; [done|reflexivity]]]].
  unfold queue_response. eapply check_run; [done|]. eapply bind_Ok; [exact Hlat|]. rewrite Ht.
  eapply bind_Ok; [exact Hplace|]. eapply bind_Ok; [done|]. cbn.
  destruct (negb (retryResp s) && bool_decide (dequeueEvent s = None)) eqn:E; [|by destruct s].
  apply andb_true_iff in E as [_ E%bool_decide_eq_true].
  destruct (placed_last _ _ _ _ Hpl) as (p & Hlast & Hle). rewrite Hlast.
  unfold schedule_dequeue. eapply bind_Ok; [done|]. eapply check_run; [cbn; by rewrite E|].
  eapply check_run; [|done]. apply bool_decide_eq_true_2. cbn in Hle. lia.
Qed.

(** what a request does to the queue and its event *)
Definition queue_step (now : Z) (s s' : SimpleMemory) : Prop :=
  retryResp s' = retryResp s ∧ sm_drainState s' = sm_drainState s ∧
  (packetQueue s' = packetQueue s ∧ dequeueEvent s' = dequeueEvent s ∨
   ∃ dp, placed true dp (packetQueue s) (packetQueue s') ∧ now ≤ dp.1 ∧
     dequeueEvent s' = if negb (retryResp s) && bool_decide (dequeueEvent s = None) then fst <$> last (packetQueue s')
       else dequeueEvent s).

(** the head stays; what is scheduled stays right; a queue whose event was just run has it scheduled only when
    something was added *)
Lemma queue_step_head now s s' h : queue_step now s s' → head (packetQueue s) = Some h → head (packetQueue s') = Some h.
Proof. intros (_ & _ & [[-> _]|(dp & Hpl & _)]) Hh; [done|]. by eapply placed_head. Qed.

Lemma queue_step_deq now s s' : queue_step now s s' → deq_ok now s → deq_ok now s'.
Proof.
  intros (Hr & _ & Hq) Hok. unfold deq_ok in *. rewrite Hr. destruct Hq as [[-> ->]|(dp & Hpl & Hlt & He)]; [done|].
  destruct (retryResp s); cbn in He.
  - destruct Hok as (He' & h & Hhd & Hle). rewrite He, He'. split; [done|]. exists h. split; [by eapply placed_head|done].
  - destruct (packetQueue s) as [|h tl] eqn:Eq; rewrite ?Eq in Hpl.
    + assert (packetQueue s' = [dp]) as Hq' by (by inversion Hpl). rewrite Hok, Hq' in He. rewrite Hq'.
      exists dp.1. split; [exact He|]. lia.
    + destruct Hok as (t & Ht & Hok). rewrite Ht in He. cbn in He. rewrite He.
      pose proof (placed_head _ _ _ _ Hpl h eq_refl) as Hhd. destruct (packetQueue s'); [done|]. injection Hhd as ->. by exists t.
Qed.

Definition event_run (s : SimpleMemory) : Prop := dequeueEvent s = None ∨ (2 ≤ length (packetQueue s))%nat.
Lemma queue_step_event now s s' : queue_step now s s' → packetQueue s ≠ [] → event_run s → event_run s'.
Proof.
  unfold event_run. intros (_ & _ & [[-> ->]|(dp & Hpl & _)]) Hne He; [done|]. right.
  rewrite (placed_perm _ _ _ _ Hpl). destruct (packetQueue s); [done|]. cbn. lia.
Qed.

Lemma response_responds c : needsResponse c = true → isResponse (responseCommand c) = true.
Proof. by destruct c. Qed.

(** the release event for a request of duration [d] *)
Lemma sm_release_run now s d :
  0 ≤ now → 0 ≤ d → now + d < 2 ^ 64 → releaseEvent s = None → isBusy s = false →
  ∃ s', (if decide (d ≠ 0) then schedule_release now (u64 (now + d)) ;; modify (λ s, s.{isBusy := true}) else mret tt) s
      = Ok (tt, s') ∧ s' = s.{isBusy := isBusy s'}.{releaseEvent := releaseEvent s'} ∧
    if isBusy s' then releaseEvent s' = Some (now + d) ∧ now ≤ now + d else releaseEvent s' = None ∧ now + d ≤ now.
Proof.
  intros Hn Hd Hmax Hrel Hb. case_decide as H0.
  - eexists. split.
    + eapply bind_Ok; [|done]. unfold schedule_release. eapply bind_Ok; [done|].
      eapply check_run; [by rewrite Hrel|]. rewrite u64_small by (unfold is_u64; lia).
      eapply check_run; [apply bool_decide_eq_true_2; lia|]. done.
    + split; [by destruct s|]. cbn. split; [done|lia].
  - exists s. split; [done|]. split; [by destruct s|]. rewrite Hb. split; [done|]. lia.
Qed.

Lemma busy_free now s : busy_ok now s → isBusy s = false → releaseEvent s = None ∧
  ∀ t0 pkt0 d0, last (accepted s) = Some (t0, pkt0) → duration P pkt0 = Ok d0 → t0 + d0 ≤ now.
Proof.
  unfold busy_ok. destruct (last (accepted s)) as [[t0 pkt0]|].
  - intros (d & Hd & H) Hb. rewrite Hb in H. split; [apply H|]. intros ? ? d0 [= <- <-] Hd0. assert (d0 = d) as -> by congruence. apply H.
  - intros [_ H] _. done.
Qed.

(** the access of a request, and the draw of its latency *)
Lemma recvAtomic_run s m pkt op :
  mem_abs start last_addr (sm_mem s) m → access_ok start last_addr pkt op → latency P + latency_var P < 2 ^ 64 →
  ∃ l pkt' mem k, sm_recvAtomic P pkt s = Ok ((l, pkt'), s.{sm_mem := mem}.{draws := k}) ∧
    answers pkt (spec_op op m).1.1 (spec_op op m).1.2 pkt' ∧ mem_abs start last_addr mem (spec_op op m).2.
Proof using HP.
  intros Ha Hok Hlat. destruct HP as [_ _ [Hlo Hhi]].
  destruct (access_run start last_addr (atomic_op P) (sm_mem s) m pkt op Hlo Hhi Ha Hok) as (pkt' & mem & Hrun & Hout).
  destruct (spec_op op m) as [[read ok] m'].
  destruct (getLatency_run (s.{sm_mem := mem}) Hlat) as (r & k & Hl & _).
  exists (latency P + r), pkt', mem, k. split; [|done]. unfold sm_recvAtomic.
  rewrite (ok_cache _ _ _ _ Hok). eapply bind_Ok; [unfold on_mem, zoom; by rewrite Hrun|].
  eapply bind_Ok; [exact Hl|]. done.
Qed.

(** the response of an accepted request, if it needs one *)
Lemma respond_run now s pkt resp delay :
  0 ≤ now → 0 ≤ delay → now + delay + latency P + latency_var P < MaxTick →
  pkt_cmd resp = (if needsResponse (pkt_cmd pkt) then responseCommand (pkt_cmd pkt) else pkt_cmd pkt) →
  is_Some (pkt_addr resp) → Forall packet_ok (packetQueue s) →
  ∃ r s', let more := if needsResponse (pkt_cmd pkt) then [(now + delay + latency P + r, resp)] else [] in
    (if needsResponse (pkt_cmd pkt) then queue_response P now resp delay else mret tt) s = Ok (tt, s') ∧
    0 ≤ r ≤ latency_var P ∧ s' = s.{draws := draws s'}.{packetQueue := packetQueue s'}.{dequeueEvent := dequeueEvent s'} ∧
    queue_step now s s' ∧ Forall packet_ok (packetQueue s') ∧ packetQueue s' ≡ₚ packetQueue s ++ more ∧
    ∀ a, to a (packetQueue s') = to a (packetQueue s) ++ to a more.
Proof using HP.
  intros Hn Hd Hmax Hcmd Haddr Hq. destruct (needsResponse (pkt_cmd pkt)) eqn:Hneed.
  - destruct (queue_response_run now s resp delay Hn Hd Hmax) as (r & k & l & ev & Hrun & Hr & Hok & Hpl & Hev);
      [rewrite Hcmd; by apply response_responds|done..|].
    exists r, (s.{draws := k}.{packetQueue := l}.{dequeueEvent := ev}). split; [exact Hrun|]. split; [done|]. split; [done|]. cbn.
    split; [|split; [by eapply placed_ok|]].
    + split; [done|]. split; [done|]. right. eexists. split; [exact Hpl|]. split; [|exact Hev]. cbn. pose proof (par_latency HP). lia.
    + split; [rewrite (placed_perm _ _ _ _ Hpl); apply Permutation_cons_append|].
      intros a. exact (placed_fifo true _ _ _ Hpl a eq_refl).
  - exists 0, s. pose proof (par_latency HP). split; [done|]. split; [lia|]. split; [by destruct s|].
    split; [split; [done|split; [done|by left]]|]. split; [done|]. rewrite app_nil_r. split; [done|]. intros a. by rewrite app_nil_r.
Qed.

Lemma is_access pkt op : access_ok start last_addr pkt op → is_Some (pkt_addr pkt) ∧ isRead (pkt_cmd pkt) || isWrite (pkt_cmd pkt) = true.
Proof.
  intros Hacc. pose proof (op_of_inv _ _ (ok_op _ _ _ _ Hacc)) as (a & data & Haddr & _ & _ & _ & _ & Hfit).
  split; [by eexists|].
  destruct op; destruct Hfit as (_ & _ & H1 & H2 & H3); [by rewrite H2|destruct H3 as [-> _]; apply orb_true_r|by rewrite H1].
Qed.

(** a request that finds the memory idle *)
Lemma accept_run now s resps sent pkt :
  0 ≤ now → sm_core now resps sent s → req_ok now pkt → retryReq s = false → isBusy s = false →
  ∃ pkt' s' more, sm_recvTimingReq P now pkt s = Ok ((true, pkt'), s') ∧ sm_core now (resps ++ more) sent s' ∧
    queue_step now s s'.
Proof using HP.
  intros Hn [(m & Hserved & Ha) Hperm Hfifo Hok Hbusy Hretry] ((op & Hacc) & (d & Hd & Hdmax) & Hlat) Hrq Hb.
  pose proof (duration_nonneg _ _ Hd) as Hd0. destruct (is_access pkt op Hacc) as [Haddr Hrw].
  destruct (busy_free now s Hbusy Hb) as [Hrel Hfree].
  set (delay := to_uint 32 (headerDelay pkt + payloadDelay pkt)) in *.
  assert (Hdelay : 0 ≤ delay) by (unfold delay; pose proof (to_uint_range 32 (headerDelay pkt + payloadDelay pkt) ltac:(lia)); lia).
  set (pkt1 := pkt.{headerDelay := 0}.{payloadDelay := 0}). set (s1 := s.{accepted ::= λ l, l ++ [(now, pkt)] }).
  destruct (sm_release_run now s1 d Hn Hd0 Hdmax Hrel Hb) as (s2 & Hrun2 & Hf2 & Hb2).
  assert (Hacc1 : access_ok start last_addr pkt1 op) by (by destruct Hacc).
  destruct (recvAtomic_run s2 m pkt1 op) as (l & resp & mem & k & Hrun3 & Hans & Ha'); [by rewrite Hf2|done|unfold MaxTick in Hlat; lia|].
  set (s3 := s2.{sm_mem := mem}.{draws := k}) in *.
  destruct (respond_run now s3 pkt resp delay Hn Hdelay ltac:(lia)) as (r & s4 & Hrun4 & Hr & Hf4 & Hstep & Hok4 & Hperm4 & Hfifo4).
  { apply Hans. }
  { by destruct Hans as (_ & _ & -> & _). }
  { unfold s3. cbn. by rewrite Hf2. }
  set (more := if needsResponse (pkt_cmd pkt) then [(now + delay + latency P + r, resp)] else []) in *.
  assert (Hq3 : packetQueue s3 = packetQueue s) by (unfold s3; cbn; by rewrite Hf2). rewrite Hq3 in Hperm4, Hfifo4.
  assert (Hkeep : accepted s4 = accepted s ++ [(now, pkt)] ∧ sm_mem s4 = mem ∧ isBusy s4 = isBusy s2 ∧
    releaseEvent s4 = releaseEvent s2 ∧ retryReq s4 = false).
  { rewrite Hf4. unfold s3. cbn. rewrite Hf2. cbn. by rewrite Hrq. }
  destruct Hkeep as (Hacc4 & Hmem4 & Hb4 & Hrel4 & Hrq4).
  exists resp, s4, more. split; [|split].
  - unfold sm_recvTimingReq. rewrite (ok_cache _ _ _ _ Hacc), Hrw. cbn [negb]. eapply bind_Ok; [done|]. rewrite Hrq, Hb.
    eapply bind_Ok; [done|]. eapply lift_run; [exact Hd|]. eapply bind_Ok; [exact Hrun2|]. eapply bind_Ok; [exact Hrun3|].
    eapply bind_Ok; [exact Hrun4|]. done.
  - split; rewrite ?Hacc4, ?Hmem4.
    + exists (spec_op op m).2. split; [|done]. by apply served_next.
    + by rewrite Hperm4, app_assoc, Hperm.
    + intros a. by rewrite Hfifo4, filter_app, app_assoc, Hfifo.
    + done.
    + unfold busy_ok. rewrite Hacc4, last_snoc, Hb4, Hrel4. by exists d.
    + by rewrite Hrq4.
  - destruct Hstep as (H1 & H2 & H3). unfold s3 in H1, H2, H3. cbn in H1, H2, H3. rewrite Hf2 in H1, H2, H3. by repeat split.
Qed.

Lemma request_run now s resps sent pkt :
  0 ≤ now → sm_core now resps sent s → req_ok now pkt →
  ∃ b pkt' s' more, sm_recvTimingReq P now pkt s = Ok ((b, pkt'), s') ∧ sm_core now (resps ++ more) sent s' ∧
    queue_step now s s'.
Proof using HP.
  intros Hn Hcore Hreq. destruct (retryReq s) eqn:Hrq; [|destruct (isBusy s) eqn:Hb].
  3: { destruct (accept_run now s resps sent pkt Hn Hcore Hreq Hrq Hb) as (pkt' & s' & more & H). by exists true, pkt', s', more. }
  all: destruct Hreq as ((op & Hacc) & _); destruct (is_access pkt op Hacc) as [_ Hrw].
  all: assert (Hsame : queue_step now s s) by (split; [done|split; [done|by left]]).
  - exists false, pkt, s, []. rewrite app_nil_r. split; [|done]. unfold sm_recvTimingReq.
    rewrite (ok_cache _ _ _ _ Hacc), Hrw. eapply bind_Ok; [done|]. by rewrite Hrq.
  - exists false, pkt, (s.{retryReq := true}), []. rewrite app_nil_r. split; [|split; [by destruct Hcore|done]].
    unfold sm_recvTimingReq. rewrite (ok_cache _ _ _ _ Hacc), Hrw. eapply bind_Ok; [done|]. by rewrite Hrq, Hb.
Qed.

(** the requests that the peer sends before it returns *)
Lemma requests_run now s resps sent news :
  0 ≤ now → sm_core now resps sent s → Forall (req_ok now) news →
  ∃ s' more, requests now news s = Ok (tt, s') ∧ sm_core now (resps ++ more) sent s' ∧ rtc (queue_step now) s s'.
Proof using HP.
  intros Hn Hcore Hnews. revert s resps Hcore. induction Hnews as [|pkt news Hp _ IH]; intros s resps Hcore.
  { exists s, []. by rewrite app_nil_r. }
  destruct (request_run now s resps sent pkt Hn Hcore Hp) as (b & pkt' & s1 & more1 & Hrun1 & Hcore1 & Hstep).
  destruct (IH s1 _ Hcore1) as (s2 & more2 & Hrun2 & Hcore2 & Hsteps).
  exists s2, (more1 ++ more2). split; [|rewrite app_assoc; split; [done|by eapply rtc_l]].
  unfold requests. cbn [for_each]. eapply bind_Ok; [eapply bind_Ok; [exact Hrun1|done]|exact Hrun2].
Qed.

Lemma steps_keep now s s' :
  rtc (queue_step now) s s' →
  retryResp s' = retryResp s ∧ sm_drainState s' = sm_drainState s ∧ (deq_ok now s → deq_ok now s') ∧
  ∀ h, head (packetQueue s) = Some h → head (packetQueue s') = Some h ∧ (event_run s → event_run s').
Proof.
  induction 1 as [s|s s1 s2 Hstep _ (Hr & Hd & Hq & Hh)]; [by repeat split|].
  rewrite Hr, Hd. pose proof Hstep as (-> & -> & _). do 2 (split; [done|]). split.
  - intros Hok. by eapply Hq, queue_step_deq.
  - intros h Hhd. destruct (Hh h ltac:(by eapply queue_step_head)) as [H1 H2]. split; [done|]. intros He.
    apply H2. eapply queue_step_event; [done| |done]. intros E. by rewrite E in Hhd.
Qed.

(** *** Events *)

Definition sm_inv (now : Z) (resps sent : list DeferredPacket) (s : SimpleMemory) : Prop :=
  sm_core now resps sent s ∧ deq_ok now s.

Definition news_of (ev : sm_event) : list Packet :=
  match ev with SRequest pkt => [pkt] | SRelease news | SDequeue _ news | SRespRetry _ news => news end.

(** an event that keeps to the protocol: times are not passed over, the requests can be served, and a peer that
    refuses a response sends nothing *)
Definition sm_enabled (now : Z) (ev : sm_event) (s : SimpleMemory) : Prop :=
  (∀ t, releaseEvent s = Some t → now ≤ t) ∧ (∀ t, dequeueEvent s = Some t → now ≤ t) ∧
  Forall (req_ok now) (news_of ev) ∧
  match ev with
  | SRequest _ => True
  | SRelease _ => releaseEvent s = Some now
  | SDequeue accept news => dequeueEvent s = Some now ∧ (accept = false → news = [])
  | SRespRetry accept news => retryResp s = true ∧ (accept = false → news = [])
  end.

Lemma inv_later before now ev resps sent s :
  before ≤ now → sm_inv before resps sent s → sm_enabled now ev s → sm_inv now resps sent s.
Proof.
  intros Hb [[Hs Hp Hf Hok Hbusy Hr] Hdeq] (Ht1 & Ht2 & _). split; [split; try done|].
  - unfold busy_ok in *. destruct (last (accepted s)) as [[t0 pkt0]|]; [|done].
    destruct Hbusy as (d & Hd & H). exists d. split; [done|]. destruct (isBusy s); [|split; [apply H|lia]].
    destruct H as [H _]. split; [done|by apply Ht1].
  - unfold deq_ok in *. destruct (retryResp s).
    + destruct Hdeq as (? & h & ? & ?). split; [done|]. exists h. split; [done|lia].
    + destruct (packetQueue s); [done|]. destruct Hdeq as (t & Ht & ? & ?). exists t. split; [done|].
      specialize (Ht2 t Ht). lia.
Qed.

(** the peer took the response at the head *)
Lemma dequeue_pops now send s s1 h tl tl1 :
  packetQueue s = h :: tl → send h.2 s = Ok (true, s1) → packetQueue s1 = h :: tl1 → event_run s1 →
  ∃ ev d, dequeue now send s = Ok (tt,
      s1.{retryResp := false}.{packetQueue := tl1}.{dequeueEvent := ev}.{sm_drainState := d}) ∧
    match tl1 with [] => ev = None | dp :: _ => ev = Some (Z.max dp.1 now) end.
Proof.
  intros Hq Hpeer Hq1 Hev1. unfold dequeue. destruct tl1 as [|dp tl1].
  - exists (dequeueEvent s1), (if decide (sm_drainState s1 = Draining) then Drained else sm_drainState s1). split.
    + eapply bind_Ok; [done|]. rewrite Hq. eapply bind_Ok; [exact Hpeer|]. eapply bind_Ok; [done|].
      eapply bind_Ok; [done|]. eapply bind_Ok; [done|]. cbn. rewrite Hq1. cbn. case_decide as Hdr; [|by destruct s1].
      unfold sm_signalDrainDone. eapply bind_Ok; [done|]. cbn. rewrite Hdr. by destruct s1.
    + destruct Hev1 as [?|Hlen]; [done|]. rewrite Hq1 in Hlen. cbn in Hlen. lia.
  - exists (Some (Z.max dp.1 now)), (sm_drainState s1). split; [|done].
    eapply bind_Ok; [done|]. rewrite Hq. eapply bind_Ok; [exact Hpeer|]. eapply bind_Ok; [done|].
    eapply bind_Ok; [done|]. eapply bind_Ok; [done|]. cbn. rewrite Hq1. cbn. unfold reschedule_dequeue.
    eapply check_run; [apply bool_decide_eq_true_2; lia|]. by destruct s1.
Qed.

(** the response at the head of the queue is sent *)
Lemma sm_dequeue_run now s resps sent accept news h :
  0 ≤ now → sm_core now resps sent s → head (packetQueue s) = Some h → h.1 ≤ now → dequeueEvent s = None →
  Forall (req_ok now) news → (accept = false → news = []) →
  ∃ s' more, dequeue now (sm_peer now accept news) s = Ok (tt, s') ∧
    sm_inv now (resps ++ more) (sent ++ if accept then [h] else []) s'.
Proof using HP.
  intros Hn Hcore Hh Hle Hev Hnews Hrej.
  assert (Hq : ∃ tl, packetQueue s = h :: tl).
  { destruct (packetQueue s) as [|h' tl]; [done|]. injection Hh as ->. by exists tl. }
  destruct Hq as [tl Hq].
  destruct (requests_run now s resps sent news Hn Hcore Hnews) as (s1 & more & Hrun & Hcore1 & Hsteps).
  destruct (steps_keep _ _ _ Hsteps) as (Hr & Hd & _ & Hkeep). destruct (Hkeep h Hh) as [Hh1 Hev1].
  specialize (Hev1 (or_introl Hev)).
  assert (Hpeer : sm_peer now accept news h.2 s = Ok (accept, s1)) by (by eapply bind_Ok; [exact Hrun|]).
  destruct accept.
  - assert (Hq1 : ∃ tl, packetQueue s1 = h :: tl).
    { destruct (packetQueue s1) as [|h' tl']; [done|]. injection Hh1 as ->. by exists tl'. }
    destruct Hq1 as [tl1 Hq1]. destruct Hcore1 as [Hserved Hperm Hfifo Hok Hbusy Hretry]. rewrite Hq1 in Hperm, Hfifo, Hok.
    apply Forall_cons in Hok as [Hok1 Hok].
    assert (Hcore2 : ∀ ev d, sm_core now (resps ++ more) (sent ++ [h])
      (s1.{retryResp := false}.{packetQueue := tl1}.{dequeueEvent := ev}.{sm_drainState := d})).
    { intros ev d. split; try done; cbn; [by rewrite <-app_assoc|]. intros a. rewrite filter_app, <-app_assoc, <-filter_app. apply Hfifo. }
    destruct (dequeue_pops now (sm_peer now true news) s s1 h tl tl1 Hq Hpeer Hq1 Hev1) as (ev & d & Hend & Hevt).
    eexists _, more. split; [exact Hend|]. split; [apply Hcore2|].
    unfold deq_ok. cbn. destruct tl1 as [|dp tl1]; [done|]. exists (Z.max dp.1 now). split; [done|lia].
  - rewrite Hrej in * by done. injection Hrun as <-. exists (s.{retryResp := true}), more. split.
    + unfold dequeue. eapply bind_Ok; [done|]. rewrite Hq. eapply bind_Ok; [exact Hpeer|]. by eapply bind_Ok.
    + rewrite app_nil_r. split; [by destruct Hcore1|]. unfold deq_ok. cbn. split; [done|]. by exists h.
Qed.

Lemma release_event_run now s resps sent news :
  0 ≤ now → sm_inv now resps sent s → releaseEvent s = Some now → Forall (req_ok now) news →
  ∃ s' more, sm_release (requests now news) s = Ok (tt, s') ∧ sm_inv now (resps ++ more) sent s'.
Proof using HP.
  intros Hn [[Hserved Hperm Hfifo Hok Hbusy Hretry] Hdeq] Hrel Hnews.
  set (s1 := s.{releaseEvent := None}.{isBusy := false}.{retryReq := false}).
  assert (Hb : isBusy s = true ∧ busy_ok now s1).
  { unfold busy_ok in Hbusy. unfold busy_ok, s1. cbn. destruct (last (accepted s)) as [[t0 pkt0]|]; [|by destruct Hbusy; congruence].
    destruct Hbusy as (d & Hd & H). destruct (isBusy s); [|by destruct H; congruence]. split; [done|].
    exists d. split; [done|]. split; [done|]. destruct H. assert (t0 + d = now) by congruence. lia. }
  destruct Hb as [Hb Hbusy1]. assert (Hcore1 : sm_core now resps sent s1) by by split.
  unfold sm_release. destruct (retryReq s) eqn:Hrq.
  - destruct (requests_run now s1 resps sent news Hn Hcore1 Hnews) as (s2 & more & Hrun & Hcore2 & Hsteps).
    destruct (steps_keep _ _ _ Hsteps) as (_ & _ & Hdeq2 & _). exists s2, more. split; [|split; [done|by apply Hdeq2]].
    eapply bind_Ok; [done|]. eapply bind_Ok; [done|]. eapply check_run; [exact Hb|]. eapply bind_Ok; [done|].
    cbn. rewrite Hrq. eapply bind_Ok; [done|]. exact Hrun.
  - exists s1, []. rewrite app_nil_r. split; [|by split].
    eapply bind_Ok; [done|]. eapply bind_Ok; [done|]. eapply check_run; [exact Hb|]. eapply bind_Ok; [done|].
    cbn. rewrite Hrq. unfold s1. destruct s. cbn in *. by subst.
Qed.

Lemma run_sm_run before now ev s resps sent :
  0 ≤ now → before ≤ now → sm_inv before resps sent s → sm_enabled now ev s →
  ∃ out s' more, run_sm now ev s = Ok (out, s') ∧ Forall (λ dp, dp.1 ≤ now) out ∧
    sm_inv now (resps ++ more) (sent ++ out) s'.
Proof using HP.
  intros Hn Hb Hinv He. pose proof (inv_later _ _ _ _ _ _ Hb Hinv He) as [Hcore Hdeq].
  destruct He as (_ & _ & Hnews & He). destruct ev as [pkt|news|accept news|accept news]; cbn [news_of] in Hnews.
  - apply Forall_cons in Hnews as [Hp _].
    destruct (request_run now s resps sent pkt Hn Hcore Hp) as (b & pkt' & s1 & more & Hrun & Hcore1 & Hstep).
    exists [], s1, more. rewrite app_nil_r. split; [|split; [done|split; [done|by eapply queue_step_deq]]].
    unfold run_sm. eapply bind_Ok; [done|]. by eapply bind_Ok; [exact Hrun|].
  - destruct (release_event_run now s resps sent news Hn ltac:(by split) He Hnews) as (s1 & more & Hrun & Hinv1).
    exists [], s1, more. rewrite app_nil_r. split; [|done]. unfold run_sm. eapply bind_Ok; [done|]. by eapply bind_Ok; [exact Hrun|].
  - destruct He as [Hev Hrej]. unfold deq_ok in Hdeq. destruct (retryResp s); [by destruct Hdeq; congruence|].
    destruct (packetQueue s) as [|h tl] eqn:Hq; [congruence|]. destruct Hdeq as (t & Ht & Hle1 & Hle2).
    assert (t = now) as -> by congruence.
    destruct (sm_dequeue_run now (s.{dequeueEvent := None}) resps sent accept news h Hn) as (s1 & more & Hrun & Hinv1);
      [by destruct Hcore|cbn; by rewrite Hq|lia|done|done|done|].
    exists (if accept then [h] else []), s1, more. split; [|split; [destruct accept; repeat constructor; lia|done]].
    unfold run_sm. eapply bind_Ok; [done|]. eapply (bind_Ok _ _ _ tt); [by eapply bind_Ok; [|exact Hrun]|].
    rewrite Hq. by destruct accept.
  - destruct He as [Hr Hrej]. unfold deq_ok in Hdeq. rewrite Hr in Hdeq. destruct Hdeq as (Hev & h & Hh & Hle).
    destruct (sm_dequeue_run now s resps sent accept news h Hn Hcore Hh Hle Hev Hnews Hrej) as (s1 & more & Hrun & Hinv1).
    exists (if accept then [h] else []), s1, more. split; [|split; [destruct accept; repeat constructor; lia|done]].
    unfold run_sm. eapply bind_Ok; [done|]. eapply (bind_Ok _ _ _ tt).
    { unfold recvRespRetry. eapply bind_Ok; [done|]. eapply check_run; [exact Hr|exact Hrun]. }
    destruct (packetQueue s); [done|]. injection Hh as ->. by destruct accept.
Qed.

Fixpoint sms_enabled (before : Z) (evs : list (Z * sm_event)) (s : SimpleMemory) : Prop :=
  match evs with
  | [] => True
  | (now, ev) :: evs =>
      before ≤ now ∧ sm_enabled now ev s ∧ ∀ out s', run_sm now ev s = Ok (out, s') → sms_enabled now evs s'
  end.

Lemma run_sms_run evs before s resps sent :
  0 ≤ before → sm_inv before resps sent s → sms_enabled before evs s →
  ∃ out s' now more, run_sms evs s = Ok (out, s') ∧ Forall (λ x, x.2.1 ≤ x.1) out ∧ before ≤ now ∧
    sm_inv now (resps ++ more) (sent ++ out.*2) s'.
Proof using HP.
  revert before s resps sent. induction evs as [|[now ev] evs IH]; intros before s resps sent Hb Hinv He.
  { exists [], s, before, []. csimpl. rewrite !app_nil_r. do 2 (split; [done|]). split; [lia|done]. }
  destruct He as (Hle & He & Hrest).
  destruct (run_sm_run before now ev s resps sent ltac:(lia) Hle Hinv He) as (out & s1 & more & Hrun & Hout & Hinv1).
  destruct (IH now s1 _ _ ltac:(lia) Hinv1 (Hrest _ _ Hrun)) as (out2 & s2 & t & more2 & Hrun2 & Hout2 & Ht & Hinv2).
  exists (((λ dp, (now, dp)) <$> out) ++ out2), s2, t, (more ++ more2). split; [|split; [|split; [lia|]]].
  - cbn [run_sms]. eapply bind_Ok; [exact Hrun|]. by eapply bind_Ok; [exact Hrun2|].
  - apply Forall_app. split; [by apply Forall_fmap|done].
  - rewrite fmap_app, <-list_fmap_compose. unfold compose. cbn [snd]. by rewrite list_fmap_id, !app_assoc.
Qed.
End run.

(** ** Properties *)

(** C7: The simple memory answers every request it accepts, once and right.  Whatever requests a peer
    sends, at any time and in reaction to responses and retries, and whatever responses
    it refuses, no assertion fails and no event is scheduled twice or in the past.  The
    requests that were accepted were so far apart as the bandwidth asks; the
    responses to them are what the specification of the memory gives, and each was sent exactly once, not before
    its delay and the latency have passed, or is still queued; the responses for one address are sent
    in the order of their requests.  Between two events a response that is queued either waits for the
    peer's retry or has its event scheduled, and a peer that was turned away is told when the memory is free.
    The requests are well formed ([req_ok]), and a peer that refuses a response sends no request in that same call. *)
Theorem memory_answers_requests (P : SimpleMemoryParams) (start last_addr : Z) (m0 : byte_mem) (mem : AbstractMemory)
    (evs : list (Z * sm_event)) (HP : params_ok P start last_addr) (Habs : mem_abs start last_addr mem m0)
    (Hevs : sms_enabled P start last_addr 0 evs (SimpleMemory_new mem)) :
  ∃ sent s now resps m, run_sms P evs (SimpleMemory_new mem) = Ok (sent, s) ∧
    served P start last_addr m0 (accepted s) resps m ∧ mem_abs start last_addr (sm_mem s) m ∧
    sent.*2 ++ packetQueue s ≡ₚ resps ∧ Forall (λ x, x.2.1 ≤ x.1) sent ∧
    (∀ a, filter (λ dp, pkt_addr dp.2 = a) (sent.*2 ++ packetQueue s) = filter (λ dp, pkt_addr dp.2 = a) resps) ∧
    (packetQueue s ≠ [] → retryResp s = true ∨ ∃ t, dequeueEvent s = Some t ∧ now ≤ t) ∧
    (retryReq s = true → ∃ t, releaseEvent s = Some t ∧ now ≤ t).
Proof.
  destruct (run_sms_run P start last_addr m0 HP evs 0 (SimpleMemory_new mem) [] []) as (sent & s & now & resps & Hrun & Hout & _ & Hinv);
    [lia|by repeat split; try (exists m0; split; [constructor|done])|done|].
  destruct Hinv as [[(m & Hserved & Ha) Hperm Hfifo _ Hbusy Hretry] Hdeq]. cbn in Hserved, Hperm, Hfifo.
  exists sent, s, now, resps, m. do 5 (split; [done|]). split; [|split].
  - intros a. rewrite filter_app. apply Hfifo.
  - intros Hne. unfold deq_ok in Hdeq. destruct (retryResp s); [by left|right].
    destruct (packetQueue s); [done|]. destruct Hdeq as (t & ? & ? & _). by exists t.
  - intros Hr. specialize (Hretry Hr). unfold busy_ok in Hbusy. rewrite Hretry in Hbusy.
    destruct (last (accepted s)) as [[t0 pkt0]|]; [|by destruct Hbusy]. destruct Hbusy as (d & _ & ? & ?). by eexists.
Qed.

(** two ticks per byte; a latency of 30 and up to 5 ticks more *)
Definition ex_params : SimpleMemoryParams :=
  mkSimpleMemoryParams 30 5 (d_of_Z 2) (λ k, Z.of_nat k `mod` 6) (λ _, None).
Definition ex_read : Packet := ex_access ReadReq 0x1010 [0; 0] 1.
Definition ex_write : Packet := ex_access WriteReq 0x1010 [5; 6] 1.
(** the write is refused, and sent again when the memory asks for it; the response of the first read is refused,
    and a third request is sent with its retry *)
Definition ex_run : list (Z * sm_event) :=
  [(10, SRequest ex_read); (11, SRequest ex_write); (14, SRelease [ex_write]); (18, SRelease []);
   (41, SDequeue false []); (43, SRespRetry true [ex_read]); (47, SDequeue true [])].

Example ex_run_ticks :
  (match run_sms ex_params ex_run (SimpleMemory_new ex_mem) with
   | Ok (sent, s) => Ok ((λ x, (x.1, x.2.1, pkt_cmd x.2.2)) <$> sent, (λ x, (x.1, pkt_bytes x.2)) <$> packetQueue s)
   | Fault e => Fault e end)
  = Ok ([(43, 41, ReadResp); (47, 47, WriteResp)], [(78, Some [5; 6])]).
Proof. vm_compute. reflexivity. Qed.

Lemma ex_req_ok now : 0 ≤ now < 1000 → req_ok ex_params 0x1000 0x10ff now ex_read ∧ req_ok ex_params 0x1000 0x10ff now ex_write.
Proof.
  intros Hn. assert (Hd : ∀ p, pkt_size p = Some 2 → duration ex_params p = Ok 4).
  { intros p Hp. unfold duration, getSize. rewrite Hp. reflexivity. }
  split; (split; [|split; [exists 4; split; [by apply Hd|lia]|unfold MaxTick; change (to_uint 32 _) with 0; cbn [latency latency_var ex_params]; lia]]).
  - exists (OpRead 0x1010 2 None). solve_access.
  - exists (OpWrite 0x1010 [5; 6] 0x1010 None). solve_access.
Qed.

Lemma ex_run_enabled : sms_enabled ex_params 0x1000 0x10ff 0 ex_run (SimpleMemory_new ex_mem).
Proof.
  unfold ex_run. repeat match goal with
  | |- sms_enabled _ _ _ _ (_ :: _) _ => split; [lia|split; [|next_state]]
  | |- sms_enabled _ _ _ _ [] _ => exact I
  end;
    (split; [by intros t [= <-]|split; [by intros t [= <-]|split]]);
    cbn [news_of]; try (apply Forall_cons; split; [apply ex_req_ok; lia|]); first [by apply Forall_nil|by repeat split].
Qed.

Lemma memory_answers_requests_witness :
  ∃ sent s resps m, run_sms ex_params ex_run (SimpleMemory_new ex_mem) = Ok (sent, s) ∧
    served ex_params 0x1000 0x10ff ex_bytes (accepted s) resps m ∧ sent.*2 ++ packetQueue s ≡ₚ resps ∧
    length (accepted s) = 3%nat ∧ length sent = 2%nat.
Proof.
  destruct (memory_answers_requests ex_params 0x1000 0x10ff ex_bytes ex_mem ex_run) as (sent & s & now & resps & m & Hrun & Hs & _ & Hp & _).
  - split; [cbn; lia| |lia]. intros k. cbn. pose proof (Z.mod_pos_bound (Z.of_nat k) 6 ltac:(lia)). lia.
  - apply ex_abs.
  - apply ex_run_enabled.
  - exists sent, s, resps, m. split; [exact Hrun|]. split; [exact Hs|]. split; [exact Hp|].
    vm_compute in Hrun. by injection Hrun as <- <-.
Defined.
