(* ===== verification/CoherentXBar.v ===== *)
(** * The coherent crossbar ([CoherentXBar], [mem/coherent_xbar.*])

    The crossbar that the traffic manager hooks into: it composes the
    address decoding of [XBar], a layer per destination port, the snoop
    filter, and a queue of responses per slave port.  The ports' peers
    (caches, memories) are the class [Peers]: what they do with a
    packet is a computation on the crossbar, for they may call it again before they
    return.  A packet is passed by pointer in the code; the
    model passes it in and out. *)

From stdpp Require Import gmap.
From S2P Require Import Prelude IntMath Clock AddrRange AddrRangeMap NoCMain MemPacket TrafficManager.
From S2P Require Import XBarLayer SnoopFilter XBar PacketQueue.

(** ** State *)

Record XBarStats := mkXBarStats {
  pktCount : gmap (PortID * PortID) Z;
  pktSize : gmap (PortID * PortID) Z;
  transDist : gmap Z Z;
  snoops : Z;
  snoopTraffic : Z;
  snoopFanout : gmap Z Z;
}.
#[export] Instance XBarStats_settable : Settable XBarStats := λ r,
  mkXBarStats (pktCount r) (pktSize r) (transDist r) (snoops r) (snoopTraffic r) (snoopFanout r).

(** the members that are fixed when the crossbar is built; [sx_bypassCaches] is [system->bypassCaches()]
    and [sx_us] is [SimClock::Int::us] *)
Record XBarParams := mkXBarParams {
  frontendLatency : Z;
  forwardLatency : Z;
  responseLatency : Z;
  snoopResponseLatency : Z;
  width : Z;
  pointOfCoherency : bool;
  sx_bypassCaches : bool;
  sx_clockPeriod : Z;
  sx_us : Z;
}.

Record CoherentXBar := mkCoherentXBar {
  xb : BaseXBar;
  xb_clock : Clocked;
  routeTo : gmap nat PortID;         (* by RequestPtr *)
  outstandingSnoop : gset nat;
  reqLayers : list Layer;
  respLayers : list Layer;
  snoopLayers : list Layer;
  snoopFilter : option SnoopFilter;
  slavePorts : list SlavePort;
  respQueues : list PacketQueue;     (* of the slave ports *)
  snoopPorts : list SlavePort;
  trafficManager : TrafficManager;
  xb_stats : XBarStats;
}.
#[export] Instance CoherentXBar_settable : Settable CoherentXBar := λ r,
  mkCoherentXBar (xb r) (xb_clock r) (routeTo r) (outstandingSnoop r) (reqLayers r) (respLayers r)
    (snoopLayers r) (snoopFilter r) (slavePorts r) (respQueues r) (snoopPorts r) (trafficManager r) (xb_stats r).

(** [snooping i]: the master connected to slave port [i] snoops *)
Definition CoherentXBar_new (raw : PortCache * PortCache * PortCache) (nmasters ndefault nslaves : nat)
    (use_default_range : bool) (snooping : PortID → bool) (sf : option SnoopFilter) (tm : TrafficManager) : CoherentXBar :=
  let base := BaseXBar_new raw nmasters ndefault use_default_range in
  let base := if decide (ndefault ≠ 0%nat) then base.{defaultPortID := Z.of_nat nmasters} else base in
  let masters := (nmasters + if decide (ndefault ≠ 0%nat) then 1 else 0)%nat in
  mkCoherentXBar (clearPortCache base) new_Clocked ∅ ∅ (replicate masters new_Layer) (replicate nslaves new_Layer)
    (replicate masters new_Layer) sf ((λ i, mkSlavePort i (snooping i)) <$> seqZ 0 (Z.of_nat nslaves))
    (replicate nslaves (PacketQueue_new false)) [] tm (mkXBarStats ∅ ∅ ∅ 0 0 ∅).

(** ** Reaching the parts *)

Definition on_base {A} : M BaseXBar A → M CoherentXBar A := zoom xb (λ b x, x.{xb := b}).
Definition on_clock {A} : M Clocked A → M CoherentXBar A := zoom xb_clock (λ c x, x.{xb_clock := c}).
Definition on_req (i : PortID) A (m : M Layer A) : M CoherentXBar A :=
  zoom reqLayers (λ l x, x.{reqLayers := l}) (zoom_at i m).
Definition on_resp (i : PortID) A (m : M Layer A) : M CoherentXBar A :=
  zoom respLayers (λ l x, x.{respLayers := l}) (zoom_at i m).
Definition on_snoop (i : PortID) A (m : M Layer A) : M CoherentXBar A :=
  zoom snoopLayers (λ l x, x.{snoopLayers := l}) (zoom_at i m).
Definition on_queue {A} (i : PortID) (m : M PacketQueue A) : M CoherentXBar A :=
  zoom respQueues (λ l x, x.{respQueues := l}) (zoom_at i m).
Definition on_stats (f : XBarStats → XBarStats) : M CoherentXBar unit := modify (λ x, x.{xb_stats ::= f}).
(** [snoopFilter->...] *)
Definition on_filter {A} (m : M SnoopFilter A) : M CoherentXBar A := λ x,
  match snoopFilter x with
  | None => Fault NullDeref
  | Some f => match m f with Ok (a, f') => Ok (a, x.{snoopFilter := Some f'}) | Fault e => Fault e end
  end.
Definition slave_port (i : PortID) : M CoherentXBar SlavePort :=
  l ← gets slavePorts; lift (vget l i).

Definition count_packet (slave master : PortID) (pkt_size pkt_cmd : Z) : M CoherentXBar unit :=
  on_stats (λ s, s.{pktCount ::= bump (slave, master) 1}.{pktSize ::= bump (slave, master) pkt_size}
                  .{transDist ::= bump pkt_cmd 1}).
Definition count_snoop (pkt_size : Z) : M CoherentXBar unit :=
  on_stats (λ s, s.{snoops ::= Z.succ}.{snoopTraffic ::= Z.add pkt_size}).

(** [pkt->hasData() ? pkt->getSize() : 0] *)
Definition data_size (pkt : Packet) : res Z := if hasData (pkt_cmd pkt) then getSize pkt else Ok 0.

(** [init()] *)
Definition init : M CoherentXBar unit :=
  modify (λ x, x.{snoopPorts ::= λ l, l ++ filter (λ p, port_snooping p = true) (slavePorts x)}) ;;
  x ← get;
  if decide (snoopFilter x = None) then mret tt else on_filter (setSlavePorts (slavePorts x)).

(** ** The peers of the ports

    [sendTimingReq], [sendTimingSnoopResp], [sendAtomic], [sendFunctional] and [sendRetryResp] go through a
    master port, the others through a slave port. *)
Class Peers := {
  sendTimingReq : PortID → Packet → M CoherentXBar (bool * Packet);
  sendTimingSnoopReq : PortID → Packet → M CoherentXBar Packet;
  sendTimingSnoopResp : PortID → Packet → M CoherentXBar (bool * Packet);
  sendAtomic : PortID → Packet → M CoherentXBar (Z * Packet);
  sendAtomicSnoop : PortID → Packet → M CoherentXBar (Z * Packet);
  sendFunctional : PortID → Packet → M CoherentXBar Packet;
  sendFunctionalSnoop : PortID → Packet → M CoherentXBar Packet;
  sendRetryReq : PortID → M CoherentXBar unit;
  sendRetryResp : PortID → M CoherentXBar unit;
  sendRetrySnoopResp : PortID → M CoherentXBar unit;
}.

(** the [SnoopRespPort] that mirrors slave port [i], as a source of a response layer *)
Definition snoopRespPort (i : PortID) : port := -1 - i.

Section xbar.
Context (P : XBarParams) `{!Peers}.
(** [curTick()] *)
Context (now : Z).

(** [clockEdge(Cycles(n))] *)
Definition xb_clockEdge (n : Z) : M CoherentXBar Z := on_clock (clockEdge now (sx_clockPeriod P) n).

Definition xb_calcPacketTiming (pkt : Packet) (header_delay : Z) : M CoherentXBar Packet :=
  on_clock (calcPacketTiming now (sx_clockPeriod P) (sx_us P) (width P) pkt header_delay).

(** [cycles * clockPeriod()] *)
Definition delay_of (cycles : Z) : Z := u64 (u64 cycles * sx_clockPeriod P).

(** [clockEdge(Cycles(1)) + pkt->payloadDelay] *)
Definition finish_time (pkt : Packet) : M CoherentXBar Z :=
  edge ← xb_clockEdge 1; mret (u64 (edge + payloadDelay pkt)).

(** [pkt->headerDelay += d] *)
Definition add_header_delay (d : Z) (pkt : Packet) : Packet :=
  pkt.{headerDelay ::= λ h, to_uint 32 (u64 (h + d))}.

(** the snoop delay is added to the header delay and reset *)
Definition pay_snoop_delay (pkt : Packet) : Packet :=
  pkt.{headerDelay ::= λ h, to_uint 32 (h + snoopDelay pkt)}.{snoopDelay := 0}.

Definition sinkPacket (pkt : Packet) : res bool :=
  let c := pkt_cmd pkt in
  if pointOfCoherency P && cacheResponding pkt
     || pointOfCoherency P && negb (isRead c || isWrite c) && negb (needsResponse c)
     || isCleanEviction pkt && isBlockCached pkt
  then Ok true
  else if cacheResponding pkt then
    w ← pkt_needsWritable pkt; Ok (negb w || responderHadWritable pkt)
  else Ok false.

(** the test in the loops over the snoopers *)
Definition excluded (exclude_slave_port_id : PortID) (p : SlavePort) : bool :=
  bool_decide (exclude_slave_port_id ≠ InvalidPortID ∧ port_id p = exclude_slave_port_id).

(** ** Snoops in timing mode *)

Fixpoint snoop_timing (pkt : Packet) (exclude : PortID) (fanout : Z) (dests : list SlavePort) :
    M CoherentXBar (Packet * Z) :=
  match dests with
  | [] => mret (pkt, fanout)
  | p :: dests =>
      if excluded exclude p then snoop_timing pkt exclude fanout dests
      else pkt ← sendTimingSnoopReq (port_id p) pkt; snoop_timing pkt exclude (fanout + 1) dests
  end.

Definition forwardTiming (pkt : Packet) (exclude : PortID) (dests : list SlavePort) : M CoherentXBar Packet :=
  check (negb (sx_bypassCaches P)) ;;
  r ← snoop_timing pkt exclude 0 dests;
  on_stats (λ s, s.{snoopFanout ::= bump r.2 1}) ;; mret r.1.

(** the part of [recvTimingReq] that broadcasts the request to the snoopers *)
Definition snoop_request (pkt : Packet) (slave_port_id : PortID) (src_port : SlavePort) : M CoherentXBar Packet :=
  if sx_bypassCaches P then mret pkt else
  check (bool_decide (snoopDelay pkt = 0)) ;;
  x ← get;
  pkt ← (if decide (snoopFilter x = None) then forwardTiming pkt slave_port_id (snoopPorts x)
         else
           sf_res ← on_filter (lookupRequest pkt src_port);
           let pkt := add_header_delay (delay_of sf_res.2) pkt in
           if isEviction (pkt_cmd pkt) then
             mret (if decide (sf_res.1 = []) then pkt else setBlockCached pkt)
           else forwardTiming pkt slave_port_id sf_res.1);
  mret (pay_snoop_delay pkt).

(** [routeTo[req] = id] with the checks around it *)
Definition remember_route (r : nat) (id : PortID) : M CoherentXBar unit :=
  x ← get;
  check (bool_decide (routeTo x !! r = None)) ;;
  modify (λ x, x.{routeTo ::= <[r := id]>}).

Definition remember_request (r : nat) (slave_port_id : PortID) (expect_response expect_snoop_resp : bool) :
    M CoherentXBar unit :=
  when expect_snoop_resp
    (x ← get;
     check (bool_decide (r ∉ outstandingSnoop x)) ;;
     modify (λ x, x.{outstandingSnoop ::= λ s, {[r]} ∪ s}) ;;
     x ← get; if decide (512 < Z.of_nat (size (outstandingSnoop x))) then throw ExitCalled else mret tt) ;;
  when (expect_response || expect_snoop_resp)
    (remember_route r slave_port_id ;;
     x ← get; if decide (512 < Z.of_nat (size (routeTo x))) then throw ExitCalled else mret tt).

(** [if (snoopFilter && !system->bypassCaches()) m] *)
Definition if_filter (m : M SnoopFilter unit) : M CoherentXBar unit :=
  x ← get; if decide (snoopFilter x ≠ None ∧ sx_bypassCaches P = false) then on_filter m else mret tt.

(** the packet is sunk, sent on, or answered here: the result is whether the send
    succeeded, whether the crossbar answers, whether a response is expected, and the packet *)
Definition send_request (pkt : Packet) (master_port_id : PortID) (sink_packet expect_snoop_resp expect_response : bool) :
    M CoherentXBar (bool * bool * bool * Packet) :=
  if sink_packet then mret (true, false, expect_response, pkt)
  else if negb (pointOfCoherency P) || isRead (pkt_cmd pkt) || isWrite (pkt_cmd pkt) then
    r ← sendTimingReq master_port_id (if cacheResponding pkt then setExpressSnoop pkt else pkt);
    mret (r.1, false, expect_response, r.2)
  else
    check (needsResponse (pkt_cmd pkt)) ;;
    check (negb expect_snoop_resp) ;;
    mret (true, true, false, pkt).

(** the snoop filter inspects a response for slave port [id] *)
Definition tell_response (pkt : Packet) (id : PortID) : M CoherentXBar unit :=
  x ← get;
  if decide (snoopFilter x ≠ None ∧ sx_bypassCaches P = false) then
    p ← slave_port id; on_filter (updateResponse pkt p)
  else mret tt.

(** the crossbar answers the request itself *)
Definition respond (pkt : Packet) (slave_port_id : PortID) : M CoherentXBar Packet :=
  check (needsResponse (pkt_cmd pkt)) ;;
  pkt ← lift (makeResponse pkt);
  tell_response pkt slave_port_id ;;
  edge ← xb_clockEdge 0;
  let response_time := u64 (edge + headerDelay pkt) in
  let pkt := pkt.{headerDelay := 0} in
  on_queue slave_port_id (schedSendTiming now pkt response_time false) ;; mret pkt.

(** the request was refused by the peer, or went through: the state of the layer and the routes *)
Definition refused_request (pkt : Packet) (slave_port_id master_port_id : PortID) (old_header_delay : Z) :
    M CoherentXBar (bool * Packet) :=
  edge ← xb_clockEdge 1;
  on_req master_port_id _ (failedTiming now slave_port_id edge) ;;
  mret (false, pkt.{headerDelay := old_header_delay}).

Definition accepted_request (r : nat) (slave_port_id master_port_id : PortID)
    (expect_response expect_snoop_resp : bool) (packetFinishTime : Z) : M CoherentXBar unit :=
  remember_request r slave_port_id expect_response expect_snoop_resp ;;
  on_req master_port_id _ (succeededTiming now packetFinishTime).

(** ** Requests in timing mode: whether the request is accepted, and the packet *)
Definition recvTimingReq (pkt : Packet) (slave_port_id : PortID) : M CoherentXBar (bool * Packet) :=
  src_port ← slave_port slave_port_id;
  let r := req_ptr (req pkt) in
  let is_express_snoop := isExpressSnoop pkt in
  let cache_responding := cacheResponding pkt in
  check (bool_decide (is_express_snoop = cache_responding)) ;;
  a ← lift (getAddr pkt);
  master_port_id ← on_base (findPort a);
  free ← (if is_express_snoop then mret true else on_req master_port_id _ (tryTiming slave_port_id));
  if negb free then mret (false, pkt) else
  pkt_size ← lift (data_size pkt);
  let cmd := MemPacket.toInt (pkt_cmd pkt) in
  let old_header_delay := headerDelay pkt in
  pkt ← xb_calcPacketTiming pkt (delay_of (frontendLatency P + forwardLatency P));
  packetFinishTime ← finish_time pkt;
  pkt ← snoop_request pkt slave_port_id src_port;
  let expect_snoop_resp := negb cache_responding && cacheResponding pkt in
  let expect_response := needsResponse (pkt_cmd pkt) && negb (cacheResponding pkt) in
  sink_packet ← lift (sinkPacket pkt);
  addr ← lift (getAddr pkt);
  '(success, respond_directly, expect_response, pkt) ←
    send_request pkt master_port_id sink_packet expect_snoop_resp expect_response;
  if_filter (sec ← lift (isSecure pkt); finishRequest (negb success) addr sec) ;;
  if negb success then
    check (negb is_express_snoop) ;;
    refused_request pkt slave_port_id master_port_id old_header_delay
  else
    (if is_express_snoop then mret tt
     else accepted_request r slave_port_id master_port_id expect_response expect_snoop_resp packetFinishTime) ;;
    count_packet slave_port_id master_port_id pkt_size cmd ;;
    when is_express_snoop (count_snoop pkt_size) ;;
    pkt ← (if (respond_directly : bool) then respond pkt slave_port_id else mret pkt);
    mret (true, pkt).

(** [routeTo.find(pkt->req)] with the assertions after it *)
Definition route_of (r : nat) : M CoherentXBar PortID :=
  x ← get;
  match routeTo x !! r with
  | None => throw AssertFailed
  | Some id => check (bool_decide (id ≠ InvalidPortID)) ;; mret id
  end.

(** the response is queued at a slave port; outstanding header delay is paid *)
Definition deliver (pkt : Packet) (slave_port_id : PortID) : M CoherentXBar Packet :=
  let latency := headerDelay pkt in
  let pkt := pkt.{headerDelay := 0} in
  on_queue slave_port_id (schedSendTiming now pkt (u64 (now + latency)) false) ;; mret pkt.

(** ** Responses in timing mode *)
Definition recvTimingResp (pkt : Packet) (master_port_id : PortID) : M CoherentXBar (bool * Packet) :=
  slave_port_id ← route_of (req_ptr (req pkt));
  x ← get;
  check (bool_decide (slave_port_id < zlength (respLayers x))) ;;
  free ← on_resp slave_port_id _ (tryTiming master_port_id);
  if negb free then mret (false, pkt) else
  pkt_size ← lift (data_size pkt);
  let cmd := MemPacket.toInt (pkt_cmd pkt) in
  pkt ← xb_calcPacketTiming pkt (delay_of (responseLatency P));
  packetFinishTime ← finish_time pkt;
  tell_response pkt slave_port_id ;;
  pkt ← deliver pkt slave_port_id;
  modify (λ x, x.{routeTo ::= delete (req_ptr (req pkt))}) ;;
  on_resp slave_port_id _ (succeededTiming now packetFinishTime) ;;
  count_packet slave_port_id master_port_id pkt_size cmd ;;
  mret (true, pkt).

(** ** Snoops from below, in timing mode *)
Definition recvTimingSnoopReq (pkt : Packet) (master_port_id : PortID) : M CoherentXBar Packet :=
  pkt_size ← lift (data_size pkt);
  on_stats (λ s, s.{transDist ::= bump (MemPacket.toInt (pkt_cmd pkt)) 1}) ;;
  count_snoop pkt_size ;;
  check (isExpressSnoop pkt) ;;
  pkt ← xb_calcPacketTiming pkt (delay_of (forwardLatency P));
  let cache_responding := cacheResponding pkt in
  check (bool_decide (snoopDelay pkt = 0)) ;;
  x ← get;
  pkt ← (if decide (snoopFilter x = None) then forwardTiming pkt InvalidPortID (snoopPorts x)
         else
           sf_res ← on_filter (lookupSnoop pkt);
           forwardTiming (add_header_delay (delay_of sf_res.2) pkt) InvalidPortID sf_res.1);
  let pkt := pay_snoop_delay pkt in
  when (negb cache_responding && cacheResponding pkt) (remember_route (req_ptr (req pkt)) master_port_id) ;;
  a ← lift (getAddr pkt);
  id ← on_base (findPort a);
  check (bool_decide (master_port_id = id)) ;;
  mret pkt.

(** a snoop response is forwarded to the slave device whose snoop it answers *)
Definition forward_snoop_resp (pkt : Packet) (slave_port_id dest_port_id : PortID) (pkt_size finish : Z) :
    M CoherentXBar Packet :=
  x ← get;
  (if decide (snoopFilter x = None) then mret tt else on_filter (updateSnoopForward pkt)) ;;
  r ← sendTimingSnoopResp dest_port_id pkt;
  on_stats (λ s, s.{pktCount ::= bump (slave_port_id, dest_port_id) 1}
                  .{pktSize ::= bump (slave_port_id, dest_port_id) pkt_size}) ;;
  check r.1 ;;
  on_snoop dest_port_id _ (succeededTiming now finish) ;; mret r.2.

(** or turned into the normal response to a request from above *)
Definition snoop_resp_as_response (pkt : Packet) (slave_port_id dest_port_id : PortID) (finish : Z) :
    M CoherentXBar Packet :=
  modify (λ x, x.{outstandingSnoop ::= λ s, s ∖ {[req_ptr (req pkt)]}}) ;;
  check (bool_decide (slave_port_id ≠ dest_port_id)) ;;
  x ← get;
  (if decide (snoopFilter x = None) then mret tt
   else
     rsp_port ← slave_port slave_port_id; req_port ← slave_port dest_port_id;
     on_filter (updateSnoopResponse pkt rsp_port req_port)) ;;
  pkt ← deliver pkt dest_port_id;
  on_resp dest_port_id _ (succeededTiming now finish) ;; mret pkt.

Definition recvTimingSnoopResp (pkt : Packet) (slave_port_id : PortID) : M CoherentXBar (bool * Packet) :=
  slave_port slave_port_id ;;
  let r := req_ptr (req pkt) in
  dest_port_id ← route_of r;
  x ← get;
  let forwardAsSnoop := bool_decide (r ∉ outstandingSnoop x) in
  free ← (if forwardAsSnoop then
            check (bool_decide (dest_port_id < zlength (snoopLayers x))) ;;
            on_snoop dest_port_id _ (tryTiming slave_port_id)
          else
            check (bool_decide (dest_port_id < zlength (respLayers x))) ;;
            on_resp dest_port_id _ (tryTiming (snoopRespPort slave_port_id)));
  if negb free then mret (false, pkt) else
  pkt_size ← lift (data_size pkt);
  let cmd := MemPacket.toInt (pkt_cmd pkt) in
  check (negb (isExpressSnoop pkt)) ;;
  pkt ← xb_calcPacketTiming pkt (delay_of (if forwardAsSnoop then snoopResponseLatency P else responseLatency P));
  packetFinishTime ← finish_time pkt;
  pkt ← (if forwardAsSnoop then forward_snoop_resp pkt slave_port_id dest_port_id pkt_size packetFinishTime
         else snoop_resp_as_response pkt slave_port_id dest_port_id packetFinishTime);
  modify (λ x, x.{routeTo ::= delete r}) ;;
  on_stats (λ s, s.{transDist ::= bump cmd 1}) ;; count_snoop pkt_size ;;
  mret (true, pkt).

(** ** Retries, and the release events of the layers *)
Definition recvReqRetry (master_port_id : PortID) : M CoherentXBar unit :=
  recvRetry now (on_req master_port_id) sendRetryReq (xb_clockEdge 0).

(** [sendRetry] of the three kinds of layers *)
Definition resp_sendRetry (p : port) : M CoherentXBar unit :=
  if decide (0 ≤ p) then sendRetryResp p else sendRetrySnoopResp (-1 - p).
Definition release_req (i : PortID) : M CoherentXBar unit :=
  process_release now (on_req i) sendRetryReq (xb_clockEdge 0).
Definition release_resp (i : PortID) : M CoherentXBar unit :=
  process_release now (on_resp i) resp_sendRetry (xb_clockEdge 0).
Definition release_snoop (i : PortID) : M CoherentXBar unit :=
  process_release now (on_snoop i) sendRetrySnoopResp (xb_clockEdge 0).

(** ** Atomic mode

    [updateSnoop] is what the snoop filter is told when snooper [p] answers. *)
Definition atomic_response (pkt : Packet) (exclude source_master : PortID) (p : SlavePort) : M CoherentXBar unit :=
  x ← get;
  if decide (snoopFilter x = None) then mret tt
  else if decide (source_master ≠ InvalidPortID) then
    check (bool_decide (exclude = InvalidPortID)) ;;
    on_filter (updateSnoopForward pkt)
  else
    req_port ← slave_port exclude;
    on_filter (updateSnoopResponse pkt p req_port).

(** the loop over the snoopers; [resp] is the command and latency of the response so far *)
Fixpoint snoop_atomic (pkt : Packet) (orig_cmd : Command) (exclude source_master : PortID)
    (resp : Command * Z) (fanout : Z) (dests : list SlavePort) : M CoherentXBar (Packet * (Command * Z) * Z) :=
  match dests with
  | [] => mret (pkt, resp, fanout)
  | p :: dests =>
      if excluded exclude p then snoop_atomic pkt orig_cmd exclude source_master resp fanout dests
      else
        '(latency, pkt) ← sendAtomicSnoop (port_id p) pkt;
        if negb (isResponse (pkt_cmd pkt)) then
          snoop_atomic pkt orig_cmd exclude source_master resp (fanout + 1) dests
        else
          check (bool_decide (pkt_cmd pkt ≠ orig_cmd)) ;;
          check (cacheResponding pkt) ;;
          check (bool_decide (resp.1 = InvalidCmd)) ;;
          atomic_response pkt exclude source_master p ;;
          snoop_atomic (pkt.{pkt_cmd := orig_cmd}) orig_cmd exclude source_master (pkt_cmd pkt, latency)
            (fanout + 1) dests
  end.

Definition forwardAtomic (pkt : Packet) (exclude source_master : PortID) (dests : list SlavePort) :
    M CoherentXBar (Packet * (Command * Z)) :=
  check (negb (sx_bypassCaches P)) ;;
  '(pkt, resp, fanout) ← snoop_atomic pkt (pkt_cmd pkt) exclude source_master (InvalidCmd, 0) 0 dests;
  on_stats (λ s, s.{snoopFanout ::= bump fanout 1}) ;;
  mret (pkt, resp).

(** the part of [recvAtomic] that snoops: the command and the latency of a snoop response *)
Definition snoop_atomic_request (pkt : Packet) (slave_port_id : PortID) : M CoherentXBar (Packet * (Command * Z)) :=
  if sx_bypassCaches P then mret (pkt, (InvalidCmd, 0)) else
  x ← get;
  if decide (snoopFilter x = None) then
    '(pkt, resp) ← forwardAtomic pkt slave_port_id InvalidPortID (snoopPorts x);
    mret (pkt, (resp.1, u64 resp.2))
  else
    src_port ← slave_port slave_port_id;
    sf_res ← on_filter (lookupRequest pkt src_port);
    a ← lift (getAddr pkt);
    sec ← lift (isSecure pkt);
    on_filter (finishRequest false a sec) ;;
    '(pkt, resp) ← forwardAtomic pkt slave_port_id InvalidPortID sf_res.1;
    mret (pkt, (resp.1, u64 (delay_of sf_res.2 + resp.2))).

(** [raw_flit] and [raw] are the uninitialised storage of the traffic manager's handlers *)
Definition CoherentXBar_recvAtomic (raw_flit : nat → Flit) (raw : PacketNoC) (pkt : Packet) (slave_port_id : PortID) :
    M CoherentXBar (Z * Packet) :=
  zoom trafficManager (λ t x, x.{trafficManager := t}) (recvAtomic raw_flit raw pkt now) ;;
  pkt_size ← lift (data_size pkt);
  let cmd := MemPacket.toInt (pkt_cmd pkt) in
  '(pkt, (snoop_response_cmd, snoop_response_latency)) ← snoop_atomic_request pkt slave_port_id;
  sink_packet ← lift (sinkPacket pkt);
  a ← lift (getAddr pkt);
  master_port_id ← on_base (findPort a);
  '(response_latency, pkt) ←
    (if (sink_packet : bool) then mret (0, pkt)
     else if negb (pointOfCoherency P) || isRead (pkt_cmd pkt) || isWrite (pkt_cmd pkt) then
       sendAtomic master_port_id pkt
     else check (needsResponse (pkt_cmd pkt)) ;; pkt ← lift (makeResponse pkt); mret (0, pkt) : M CoherentXBar (Z * Packet));
  count_packet slave_port_id master_port_id pkt_size cmd ;;
  when (isResponse (pkt_cmd pkt))
    (tell_response pkt slave_port_id) ;;
  '(response_latency, pkt) ←
    (if decide (snoop_response_cmd ≠ InvalidCmd) then
       check (negb (isResponse (pkt_cmd pkt))) ;;
       mret (snoop_response_latency, pkt.{pkt_cmd := snoop_response_cmd})
     else mret (response_latency, pkt) : M CoherentXBar (Z * Packet));
  when (isResponse (pkt_cmd pkt))
    (n ← lift (data_size pkt); count_packet slave_port_id master_port_id n (MemPacket.toInt (pkt_cmd pkt))) ;;
  mret (response_latency, pkt.{payloadDelay := to_uint 32 response_latency}).

Definition recvAtomicSnoop (pkt : Packet) (master_port_id : PortID) : M CoherentXBar (Z * Packet) :=
  pkt_size ← lift (data_size pkt);
  count_snoop pkt_size ;;
  x ← get;
  '(pkt, (cmd, latency)) ←
    (if decide (snoopFilter x = None) then
       '(pkt, resp) ← forwardAtomic pkt InvalidPortID InvalidPortID (snoopPorts x);
       mret (pkt, (resp.1, u64 resp.2))
     else
       sf_res ← on_filter (lookupSnoop pkt);
       '(pkt, resp) ← forwardAtomic pkt InvalidPortID master_port_id sf_res.1;
       mret (pkt, (resp.1, u64 (delay_of sf_res.2 + resp.2))) : M CoherentXBar (Packet * (Command * Z)));
  let pkt := if decide (cmd ≠ InvalidCmd) then pkt.{pkt_cmd := cmd} else pkt in
  when (isResponse (pkt_cmd pkt)) (on_stats (λ s, s.{snoops ::= Z.succ})) ;;
  mret (latency, pkt.{payloadDelay := to_uint 32 latency}).

(** ** Functional accesses *)

Fixpoint snoop_functional (pkt : Packet) (exclude : PortID) (dests : list SlavePort) : M CoherentXBar Packet :=
  match dests with
  | [] => mret pkt
  | p :: dests =>
      pkt ← (if excluded exclude p then mret pkt else sendFunctionalSnoop (port_id p) pkt);
      if isResponse (pkt_cmd pkt) then mret pkt else snoop_functional pkt exclude dests
  end.

Definition forwardFunctional (pkt : Packet) (exclude : PortID) : M CoherentXBar Packet :=
  check (negb (sx_bypassCaches P)) ;;
  l ← gets snoopPorts; snoop_functional pkt exclude l.

(** the loop over the queues of the slave ports: whether one of them has the data *)
Fixpoint check_queues (pkt : Packet) (ports : list SlavePort) : M CoherentXBar (bool * Packet) :=
  match ports with
  | [] => mret (false, pkt)
  | p :: ports =>
      '(found, pkt) ← on_queue (port_id p) (pq_checkFunctional pkt);
      if (found : bool) then
        if needsResponse (pkt_cmd pkt) then pkt ← lift (makeResponse pkt); mret (true, pkt)
        else mret (true, pkt)
      else check_queues pkt ports
  end.

Definition recvFunctional (pkt : Packet) (slave_port_id : PortID) : M CoherentXBar Packet :=
  pkt ← (if sx_bypassCaches P then mret pkt else forwardFunctional pkt slave_port_id);
  if isResponse (pkt_cmd pkt) then mret pkt else
  l ← gets slavePorts;
  '(found, pkt) ← check_queues pkt l;
  if (found : bool) then mret pkt else
  a ← lift (getAddr pkt);
  dest_id ← on_base (findPort a);
  sendFunctional dest_id pkt.

Definition recvFunctionalSnoop (pkt : Packet) (master_port_id : PortID) : M CoherentXBar Packet :=
  l ← gets slavePorts;
  '(found, pkt) ← check_queues pkt l;
  if (found : bool) then mret pkt else forwardFunctional pkt InvalidPortID.
End xbar.
