(* ===== verification/XBarTiming.v ===== *)
(** * Requests and responses of the coherent crossbar in timing mode

    What [CoherentXBar::recvTimingReq] and [recvTimingResp] do to the state of the
    crossbar, when the peers do not call the crossbar back before they return. *)

From stdpp Require Import gmap.
From S2P Require Import Prelude IntMath Clock MemPacket XBarLayer SnoopFilter SnoopTrack XBar PacketQueue CoherentXBar.

(** ** Peers that do not call back *)

(** what a peer may not change of a packet *)
Definition same_packet (p p' : Packet) : Prop :=
  pkt_addr p' = pkt_addr p ∧ _isSecure p' = _isSecure p ∧ req p' = req p.

Class Quiet (peers : Peers) : Prop := {
  quiet_req i p x r x' : sendTimingReq i p x = Ok (r, x') → x' = x ∧ _isSecure r.2 = _isSecure p ∧ req r.2 = req p;
  quiet_snoop i p x p' x' :
    sendTimingSnoopReq i p x = Ok (p', x') → x' = x ∧ same_packet p p' ∧ pkt_cmd p' = pkt_cmd p;
}.

(** ** Lemmas *)

Ltac units := repeat match goal with u : unit |- _ => destruct u end.

Lemma same_packet_trans p q r : same_packet p q → same_packet q r → same_packet p r.
Proof. unfold same_packet. intros (?&?&?) (?&?&?). by repeat split; etrans. Qed.

(** only the decoding cache, the clock, the statistics and the snoop filter may differ *)
Definition frame (x x' : CoherentXBar) : Prop :=
  x' = x.{xb := xb x'}.{xb_clock := xb_clock x'}.{xb_stats := xb_stats x'}.{snoopFilter := snoopFilter x'}.

Lemma frame_refl x : frame x x.
Proof. by destruct x. Qed.
Lemma frame_trans x y z : frame x y → frame y z → frame x z.
Proof. unfold frame. destruct x, y, z. cbn. congruence. Qed.
Lemma frame_base x b : frame x (x.{xb := b}).
Proof. by destruct x. Qed.
Lemma frame_clock x c : frame x (x.{xb_clock := c}).
Proof. by destruct x. Qed.
Lemma frame_stats x f : frame x (x.{xb_stats ::= f}).
Proof. by destruct x. Qed.
Lemma frame_filter x f : frame x (x.{snoopFilter := f}).
Proof. by destruct x. Qed.
#[local] Hint Resolve frame_refl frame_base frame_clock frame_stats frame_filter : core.
#[local] Hint Extern 1 (frame _ _) => (unfold frame; match goal with x : CoherentXBar |- _ => by destruct x end) : core.

Lemma on_base_inv {A} (m : M BaseXBar A) x a x' :
  on_base m x = Ok (a, x') → ∃ b, m (xb x) = Ok (a, b) ∧ x' = x.{xb := b}.
Proof. apply zoom_inv. Qed.

Lemma on_clock_inv {A} (m : M Clocked A) x a x' :
  on_clock m x = Ok (a, x') → ∃ c, m (xb_clock x) = Ok (a, c) ∧ x' = x.{xb_clock := c}.
Proof. apply zoom_inv. Qed.

Lemma on_req_inv {A} i (m : M Layer A) x a x' :
  on_req i A m x = Ok (a, x') →
  ∃ l l', reqLayers x !z i = Some l ∧ m l = Ok (a, l') ∧ x' = x.{reqLayers := vinsert i l' (reqLayers x)}.
Proof.
  intros (t & H & ->)%zoom_inv. apply zoom_at_inv in H as (l & l' & ? & ? & ->). by exists l, l'.
Qed.

Lemma on_resp_inv {A} i (m : M Layer A) x a x' :
  on_resp i A m x = Ok (a, x') →
  ∃ l l', respLayers x !z i = Some l ∧ m l = Ok (a, l') ∧ x' = x.{respLayers := vinsert i l' (respLayers x)}.
Proof.
  intros (t & H & ->)%zoom_inv. apply zoom_at_inv in H as (l & l' & ? & ? & ->). by exists l, l'.
Qed.

Lemma on_queue_inv {A} i (m : M PacketQueue A) x a x' :
  on_queue i m x = Ok (a, x') →
  ∃ q q', respQueues x !z i = Some q ∧ m q = Ok (a, q') ∧ x' = x.{respQueues := vinsert i q' (respQueues x)}.
Proof.
  intros (t & H & ->)%zoom_inv. apply zoom_at_inv in H as (l & l' & ? & ? & ->). by exists l, l'.
Qed.

Lemma on_filter_inv {A} (m : M SnoopFilter A) x a x' :
  on_filter m x = Ok (a, x') →
  ∃ f f', snoopFilter x = Some f ∧ m f = Ok (a, f') ∧ x' = x.{snoopFilter := Some f'}.
Proof.
  unfold on_filter. destruct (snoopFilter x) as [f|]; [|done]. destruct (m f) as [[b f']|] eqn:Hm; [|done].
  intros [= <- <-]. by exists f, f'.
Qed.

Lemma slave_port_inv i x p x' : slave_port i x = Ok (p, x') → x' = x ∧ slavePorts x !z i = Some p.
Proof.
  unfold slave_port. intros H. inv_step H. apply lift_inv in H as [H ->]. split; [done|].
  unfold vget, of_option in H. destruct (slavePorts x !z i); naive_solver.
Qed.

Lemma getAddr_inv p a : getAddr p = Ok a → pkt_addr p = Some a.
Proof. unfold getAddr, of_option. destruct (pkt_addr p); naive_solver. Qed.

Section timing.
Context (P : XBarParams) (peers : Peers) {Hquiet : Quiet peers} (now : Z).

Lemma calc_inv pkt d x pkt' x' :
  xb_calcPacketTiming P now pkt d x = Ok (pkt', x') →
  frame x x' ∧ snoopFilter x' = snoopFilter x ∧ pkt' = pkt.{headerDelay := headerDelay pkt'}.{payloadDelay := payloadDelay pkt'}.
Proof.
  intros (c & H & ->)%on_clock_inv. split; [auto|]. split; [done|].
  unfold calcPacketTiming in H. inv_step H. case_decide; [done|]. destruct (hasData _).
  - inv_step H. inv_step H. inv_step H. by destruct pkt.
  - inv_step H. by destruct pkt.
Qed.

Lemma finish_inv pkt x t x' : finish_time P now pkt x = Ok (t, x') → frame x x' ∧ snoopFilter x' = snoopFilter x.
Proof.
  unfold finish_time, xb_clockEdge. intros H. inv_step H. inv_step H.
  apply on_clock_inv in Hstep as (c & _ & ->). split; [auto|done].
Qed.

Lemma snoop_timing_inv dests : ∀ pkt exclude n x r x',
  snoop_timing pkt exclude n dests x = Ok (r, x') → x' = x ∧ same_packet pkt r.1 ∧ pkt_cmd r.1 = pkt_cmd pkt.
Proof.
  induction dests as [|p dests IH]; intros pkt exclude n x r x' H; simpl in H.
  - inv_step H. by repeat split.
  - destruct (excluded _ _); [by eapply IH|]. inv_step H.
    apply quiet_snoop in Hstep as (-> & Hs & Hc). apply IH in H as (-> & Hs' & Hc').
    split; [done|]. split; [by eapply same_packet_trans|congruence].
Qed.

Lemma forwardTiming_inv pkt exclude dests x pkt' x' :
  forwardTiming P pkt exclude dests x = Ok (pkt', x') →
  frame x x' ∧ snoopFilter x' = snoopFilter x ∧ same_packet pkt pkt' ∧ pkt_cmd pkt' = pkt_cmd pkt.
Proof.
  unfold forwardTiming, on_stats. intros H. inv_step H. inv_step H. inv_step H. inv_step H.
  apply snoop_timing_inv in Hstep as (-> & Hs & Hc). split; [auto|done].
Qed.

(** the filter after the snoops of a request: untouched, or looked up for this line *)
Definition looked (pkt : Packet) (src : SlavePort) (f f' : option SnoopFilter) : Prop :=
  match f with
  | None => f' = None
  | Some g =>
      if sx_bypassCaches P then f' = f
      else ∃ g' pkt0 r, f' = Some g' ∧ same_packet pkt pkt0 ∧ lookupRequest pkt0 src g = Ok (r, g')
  end.

Lemma snoop_request_inv pkt id src x pkt' x' :
  snoop_request P pkt id src x = Ok (pkt', x') →
  frame x x' ∧ looked pkt src (snoopFilter x) (snoopFilter x') ∧ same_packet pkt pkt' ∧ pkt_cmd pkt' = pkt_cmd pkt.
Proof.
  unfold snoop_request, looked. destruct (sx_bypassCaches P) eqn:Hb; intros H.
  { inv_step H. split; [apply frame_refl|]. split; [by destruct (snoopFilter x)|by repeat split]. }
  inv_step H. inv_step H. inv_step H. inv_step H. unfold pay_snoop_delay. case_decide as Hf.
  - apply forwardTiming_inv in Hstep as (Hfr & Hf' & Hs & Hc). split; [done|]. rewrite Hf in *. by destruct Hs as (?&?&?).
  - inv_step Hstep. apply on_filter_inv in Hstep0 as (g & g' & Hg & Hl & ->). rewrite Hg.
    assert (Hd : ∀ d, same_packet pkt (add_header_delay d pkt)) by (by destruct pkt).
    destruct (isEviction _).
    + inv_step Hstep. split; [auto|]. split; [by eexists g', pkt, _|]. destruct (decide (_ = [])); by destruct pkt.
    + apply forwardTiming_inv in Hstep as (Hfr & Hf' & Hs & Hc). split; [eapply frame_trans; [apply frame_filter|done]|].
      rewrite Hf'. split; [by eexists g', pkt, _|]. split; [|done].
      destruct (same_packet_trans _ _ _ (Hd _) Hs) as (?&?&?). done.
Qed.

(** what was sent, sunk or answered *)
Lemma send_request_inv pkt m sink sresp resp x r x' :
  send_request P pkt m sink sresp resp x = Ok (r, x') →
  x' = x ∧ _isSecure r.2 = _isSecure pkt ∧ req r.2 = req pkt ∧
  (r.1.1.1 = false → r.1.1.2 = false) ∧
  (if r.1.1.2 then sresp = false ∧ r.1.2 = false ∧ pointOfCoherency P = true else r.1.2 = resp).
Proof.
  unfold send_request. destruct sink; intros H; [inv_step H; by repeat split|].
  destruct (negb (pointOfCoherency P) || _ || _) eqn:Hpoc.
  - inv_step H. inv_step H. apply quiet_req in Hstep as (-> & Hs & Hr). split; [done|]. cbn.
    destruct (cacheResponding pkt); [by destruct pkt|done].
  - inv_step H. inv_step H. inv_step H. apply negb_true_iff in Hchk0. subst. do 4 (split; [done|]).
    do 2 (split; [done|]). by destruct (pointOfCoherency P).
Qed.

Lemma if_filter_inv m x u x' :
  if_filter P m x = Ok (u, x') →
  (x' = x ∧ (snoopFilter x = None ∨ sx_bypassCaches P = true)) ∨
  ∃ f f', snoopFilter x = Some f ∧ sx_bypassCaches P = false ∧ m f = Ok (u, f') ∧ x' = x.{snoopFilter := Some f'}.
Proof.
  unfold if_filter. intros H. inv_step H. case_decide as Hc.
  - apply on_filter_inv in H as (f & f' & Hf & Hm & ->). right. exists f, f'. naive_solver.
  - inv_step H. left. split; [done|]. destruct (snoopFilter x), (sx_bypassCaches P); naive_solver.
Qed.

(** the filter is as it was, up to bookkeeping *)
Definition filter_restored (x x' : CoherentXBar) : Prop :=
  match snoopFilter x with
  | None => snoopFilter x' = None
  | Some f => ∃ f', snoopFilter x' = Some f' ∧ cachedLocations f' = cachedLocations f
  end.

(** looking up a request and ending it with a retry leaves the filter as it was *)
Lemma retry_restores pkt src x1 x2 a u x3 msec :
  (∀ f, snoopFilter x1 = Some f → filter_ok f ∧ known_port f src) →
  pkt_addr pkt = Some a → looked pkt src (snoopFilter x1) (snoopFilter x2) →
  (∀ sec, msec = Ok sec → sec = _isSecure pkt) →
  if_filter P (sec ← lift msec; finishRequest true a sec) x2 = Ok (u, x3) →
  filter_restored x1 x3.
Proof.
  intros Hok Ha Hl Hsec H. unfold filter_restored, looked in *. destruct (snoopFilter x1) as [g|].
  - destruct (Hok g eq_refl) as [Hg Hp]. destruct (known_mask g src (fo_ports _ Hg) Hp) as (m & Hm & _).
    destruct (sx_bypassCaches P) eqn:Hb.
    + apply if_filter_inv in H as [[-> _]|(f & f' & _ & Hc & _)]; [|congruence]. by exists g.
    + destruct Hl as (g' & pkt0 & r & Hg' & (Hsa & Hss & _) & Hl).
      apply if_filter_inv in H as [[_ [?|?]]|(f & f' & Hf & _ & Hfin & ->)]; [congruence..|].
      inv_step Hfin. apply Hsec in Hlift as ->. assert (f = g') as -> by congruence.
      destruct (retried_lookup g pkt0 src a m Hg ltac:(congruence) Hm r g' Hl) as (f2 & Hfin2 & Hc & _).
      rewrite Hss in Hfin2. exists f'. split; [done|]. congruence.
  - apply if_filter_inv in H as [[-> _]|(f & f' & Hc & _)]; [done|congruence].
Qed.

(** the result of a request that was accepted *)
Definition answerable (pkt : Packet) (id : PortID) (x x' : CoherentXBar) : Prop :=
  let r := req_ptr (req pkt) in
  (routeTo x !! r = None ∧ routeTo x' = <[r := id]> (routeTo x) ∧ respQueues x' = respQueues x) ∨
  (pointOfCoherency P = true ∧ routeTo x' = routeTo x ∧ ∃ q q' p t, respQueues x !z id = Some q ∧ isResponse (pkt_cmd p) = true ∧ req p = req pkt ∧
     schedSendTiming now p t false q = Ok (tt, q') ∧ respQueues x' = vinsert id q' (respQueues x)).

Lemma remember_request_inv r id er es x u x' :
  remember_request r id er es x = Ok (u, x') →
  x' = x.{routeTo := routeTo x'}.{outstandingSnoop := outstandingSnoop x'} ∧
  (if er || es then routeTo x !! r = None ∧ routeTo x' = <[r := id]> (routeTo x) else routeTo x' = routeTo x).
Proof.
  unfold remember_request. intros H. inv_step H.
  assert (Hs : s = x.{outstandingSnoop := outstandingSnoop s}).
  { destruct es; simpl in Hstep; [|inv_step Hstep; by destruct x]. repeat inv_step Hstep.
    case_decide; [done|]. inv_step Hstep. by destruct x. }
  clear Hstep. destruct (er || es); simpl in H.
  - inv_step H. unfold remember_route in Hstep. repeat inv_step Hstep. inv_step H. case_decide; [done|]. inv_step H.
    apply bool_decide_eq_true in Hchk. rewrite Hs in Hchk |- *. by destruct x.
  - inv_step H. rewrite Hs. by destruct x.
Qed.

Lemma accepted_request_inv r id m er es t x u x' :
  accepted_request now r id m er es t x = Ok (u, x') →
  ∃ l l', reqLayers x !z m = Some l ∧ succeededTiming now t l = Ok (tt, l') ∧
    x' = x.{routeTo := routeTo x'}.{outstandingSnoop := outstandingSnoop x'}.{reqLayers := vinsert m l' (reqLayers x)} ∧
    (if er || es then routeTo x !! r = None ∧ routeTo x' = <[r := id]> (routeTo x) else routeTo x' = routeTo x).
Proof.
  unfold accepted_request. intros H. inv_step H. apply remember_request_inv in Hstep as [Hs Hr].
  apply on_req_inv in H as (l & l' & Hl & Hrun & ->). units. exists l, l'. rewrite Hs in Hl, Hr |- *. by destruct x.
Qed.

Lemma refused_request_inv pkt id m d x r x' :
  refused_request P now pkt id m d x = Ok (r, x') →
  ∃ t l l', reqLayers x !z m = Some l ∧ failedTiming now id t l = Ok (tt, l') ∧
    frame (x.{reqLayers := vinsert m l' (reqLayers x)}) x' ∧ snoopFilter x' = snoopFilter x ∧
    r = (false, pkt.{headerDelay := d}).
Proof.
  unfold refused_request, xb_clockEdge. intros H. inv_step H. apply on_clock_inv in Hstep as (c & _ & ->).
  inv_step H. inv_step H. apply on_req_inv in Hstep as (l & l' & Hl & Hrun & ->). units.
  exists v, l, l'. destruct x. by repeat split.
Qed.

Lemma makeResponse_inv p p' : makeResponse p = Ok p' → isResponse (pkt_cmd p') = true ∧ req p' = req p.
Proof. unfold makeResponse. destruct p as [[]]; cbn; intros; by simplify_eq/=. Qed.

Lemma respond_inv pkt id x p x' :
  respond P now pkt id x = Ok (p, x') →
  reqLayers x' = reqLayers x ∧ routeTo x' = routeTo x ∧
  ∃ q q' p t, respQueues x !z id = Some q ∧ isResponse (pkt_cmd p) = true ∧ req p = req pkt ∧
    schedSendTiming now p t false q = Ok (tt, q') ∧ respQueues x' = vinsert id q' (respQueues x).
Proof.
  unfold respond, tell_response, xb_clockEdge. intros H. inv_step H. inv_step H. apply makeResponse_inv in Hlift as [Hr Hq].
  inv_step H.
  assert (Hs : ∃ f, s = x.{snoopFilter := f}).
  { inv_step Hstep. case_decide; [|inv_step Hstep; exists (snoopFilter x); by destruct x]. inv_step Hstep.
    apply slave_port_inv in Hstep0 as [-> _]. apply on_filter_inv in Hstep as (? & f & _ & _ & ->). by exists (Some f). }
  destruct Hs as [f ->]. inv_step H. apply on_clock_inv in Hstep0 as (c & _ & ->). inv_step H. inv_step H.
  apply on_queue_inv in Hstep0 as (q & q' & Hq' & Hrun & ->). units.
  split; [done|]. split; [done|]. eexists q, q', _, _. split; [done|]. split; [|split; [|split; [exact Hrun|done]]].
  - by destruct v0.
  - by destruct v0.
Qed.

(** *** A whole request *)

Lemma attempt_free_steps id (l l1 l2 : Layer) o :
  tryTiming id l = Ok (true, l1) →
  match o with Accepted t => succeededTiming now t | Refused t => failedTiming now id t end l1 = Ok (tt, l2) →
  attempt now id o l = Ok (true, l2).
Proof. intros H1 H2. unfold attempt. unfold mbind, M_bind. rewrite H1. by rewrite H2. Qed.

Lemma attempt_busy_steps id (l l1 : Layer) o :
  tryTiming id l = Ok (false, l1) → attempt now id o l = Ok (false, l1).
Proof. intros H1. unfold attempt. unfold mbind, M_bind. by rewrite H1. Qed.

Lemma refused_blocks id t l b l' : attempt now id (Refused t) l = Ok (b, l') → id ∈ blocked l'.
Proof.
  unfold attempt, tryTiming, failedTiming, occupyLayer, schedule_release. intros H. inv_step H. inv_step Hstep.
  case_decide; repeat inv_step Hstep.
  - inv_step H. unfold blocked. cbn. apply elem_of_app. right. apply elem_of_app. right. by left.
  - repeat inv_step H. repeat inv_step Hstep. repeat inv_step Hstep0. cbn. by left.
Qed.

(** the last part of an accepted request: statistics and a response of the crossbar's own *)
Lemma finish_request_inv pkt id m n cmd (respond_directly : bool) x r x' :
  (count_packet id m n cmd ;;
   when false (count_snoop n) ;;
   pkt ← (if respond_directly then respond P now pkt id else mret pkt);
   mret (true, pkt)) x = Ok (r, x') →
  r.1 = true ∧ reqLayers x' = reqLayers x ∧ routeTo x' = routeTo x ∧
  if respond_directly then
    ∃ q q' p t, respQueues x !z id = Some q ∧ isResponse (pkt_cmd p) = true ∧ req p = req pkt ∧
      schedSendTiming now p t false q = Ok (tt, q') ∧ respQueues x' = vinsert id q' (respQueues x)
  else respQueues x' = respQueues x.
Proof.
  unfold count_packet, on_stats, when. intros H. inv_step H. inv_step H. inv_step H. inv_step H.
  destruct respond_directly; [|by inv_step Hstep; destruct x].
  apply respond_inv in Hstep as (? & ? & Hq). by destruct x.
Qed.

(** the layer [m] of the destination, which became busy, and the other parts of the crossbar
    when the request has been sent *)
Record sending (id : PortID) (x : CoherentXBar) (m : PortID) (l l1 : Layer) (x1 : CoherentXBar) : Prop := {
  sd_layer : reqLayers x !z m = Some l;
  sd_try : tryTiming id l = Ok (true, l1);
  sd_frame : frame (x.{reqLayers := vinsert m l1 (reqLayers x)}) x1;
}.

Lemma sending_refused id x m l l1 x1 x2 pkt d r x' :
  sending id x m l l1 x1 → x2 = x1.{snoopFilter := snoopFilter x2} →
  refused_request P now pkt id m d x2 = Ok (r, x') →
  ∃ t l', attempt now id (Refused t) l = Ok (true, l') ∧ frame (x.{reqLayers := vinsert m l' (reqLayers x)}) x' ∧
    reqLayers x' = vinsert m l' (reqLayers x) ∧ snoopFilter x' = snoopFilter x2 ∧ r = (false, pkt.{headerDelay := d}).
Proof.
  intros [Hl Ht Hf] Hx2 H. apply refused_request_inv in H as (t & l2 & l' & Hl2 & Hfail & Hfr & Hsf & ->).
  assert (Hm : reqLayers x2 = vinsert m l1 (reqLayers x)) by (rewrite Hx2; unfold frame in Hf; rewrite Hf; by destruct x).
  rewrite Hm in Hl2, Hfr. assert (l2 = l1) as -> by (rewrite vlookup_vinsert_eq in Hl2 by (by eapply vlookup_Some_range); congruence).
  exists t, l'. split; [by eapply attempt_free_steps|]. rewrite vinsert_vinsert in Hfr.
  assert (Hall : frame (x.{reqLayers := vinsert m l' (reqLayers x)}) x').
  { unfold frame in *. rewrite Hfr, Hx2, Hf. by destruct x. }
  split; [done|]. split; [|done]. unfold frame in Hall. rewrite Hall. by destruct x.
Qed.

Lemma sending_accepted id x m l l1 x1 x2 x3 pkt pkt0 n cmd er es t u (respond_directly : bool) r x' :
  sending id x m l l1 x1 → x2 = x1.{snoopFilter := snoopFilter x2} → req pkt0 = req pkt →
  (respond_directly = true → er || es = false ∧ pointOfCoherency P = true) →
  accepted_request now (req_ptr (req pkt)) id m er es t x2 = Ok (u, x3) →
  (count_packet id m n cmd ;;
   when false (count_snoop n) ;;
   pkt ← (if respond_directly then respond P now pkt0 id else mret pkt0);
   mret (true, pkt)) x3 = Ok (r, x') →
  r.1 = true ∧ ∃ l', attempt now id (Accepted t) l = Ok (true, l') ∧ reqLayers x' = vinsert m l' (reqLayers x) ∧
    (er || es || respond_directly = true → answerable pkt id x x').
Proof.
  intros [Hl Ht Hf] Hx2 Hreq Hd Hacc H. apply accepted_request_inv in Hacc as (l2 & l' & Hl2 & Hs & Hx3 & Hroute).
  apply finish_request_inv in H as (Hr & Hlay & Hrt & Hq). split; [done|].
  assert (Hx : x2 = (x.{reqLayers := vinsert m l1 (reqLayers x)}).{xb := xb x2}.{xb_clock := xb_clock x2}
                     .{xb_stats := xb_stats x2}.{snoopFilter := snoopFilter x2}).
  { rewrite Hx2. unfold frame in Hf. rewrite Hf. by destruct x. }
  assert (Hm : reqLayers x2 = vinsert m l1 (reqLayers x)) by (rewrite Hx; by destruct x).
  assert (Hrt2 : routeTo x2 = routeTo x) by (rewrite Hx; by destruct x).
  assert (Hq2 : respQueues x3 = respQueues x) by (rewrite Hx3, Hx; by destruct x).
  assert (Hm3 : reqLayers x3 = vinsert m l' (reqLayers x2)) by (rewrite Hx3; by destruct x2).
  rewrite Hm in Hl2, Hm3. rewrite vinsert_vinsert in Hm3.
  assert (l2 = l1) as -> by (rewrite vlookup_vinsert_eq in Hl2 by (by eapply vlookup_Some_range); congruence).
  exists l'. split; [by eapply attempt_free_steps|]. split; [congruence|].
  unfold answerable. rewrite Hrt, <-Hq2, <-Hreq, <-Hrt2. destruct respond_directly.
  - intros _. destruct (Hd eq_refl) as [Hor Hpoc]. rewrite Hor in Hroute. right. by split; [|split].
  - rewrite orb_false_r. intros Hor. rewrite Hor, Hreq in *. left. naive_solver.
Qed.

Lemma recvTimingReq_inv pkt id x ok pkt' x' :
  isExpressSnoop pkt = false →
  (∀ f p, snoopFilter x = Some f → slavePorts x !z id = Some p → filter_ok f ∧ known_port f p) →
  recvTimingReq P now pkt id x = Ok ((ok, pkt'), x') →
  ∃ m l l' o b, reqLayers x !z m = Some l ∧ attempt now id o l = Ok (b, l') ∧
    reqLayers x' = vinsert m l' (reqLayers x) ∧
    if ok then b = true ∧ (∃ t, o = Accepted t) ∧ (needsResponse (pkt_cmd pkt) = true → answerable pkt id x x')
    else (∃ t, o = Refused t) ∧ frame (x.{reqLayers := vinsert m l' (reqLayers x)}) x' ∧ filter_restored x x' ∧
      headerDelay pkt' = headerDelay pkt.
Proof.
  intros Hex Hfilter H. unfold recvTimingReq in H. rewrite Hex in H. inv_step H. apply slave_port_inv in Hstep as [-> Hp].
  inv_step H. apply bool_decide_eq_true in Hchk. inv_step H. apply getAddr_inv in Hlift.
  inv_step H. apply on_base_inv in Hstep as (b & _ & ->). inv_step H.
  apply on_req_inv in Hstep as (l & l1 & Hl & Htry & ->). destruct v3; cbn [negb] in H.
  2: { inv_step H. exists v2, l, l1, (Refused 0), false. split; [exact Hl|]. split; [by apply attempt_busy_steps|].
       split; [done|]. split; [by eexists|]. split; [by destruct x|]. split; [|done].
       unfold filter_restored. cbn. destruct (snoopFilter x); [by eexists|done]. }
  inv_step H. inv_step H. apply calc_inv in Hstep as (Hf1 & Hs1 & Hpk1). inv_step H.
  apply finish_inv in Hstep as [Hf2 Hs2]. inv_step H. apply snoop_request_inv in Hstep as (Hf3 & Hlook & Hsame & Hcmd).
  inv_step H. inv_step H. inv_step H. apply send_request_inv in Hstep as (-> & Hsec & Hreq & Hns & Hsend).
  assert (Hpre : sending id x v2 l l1 s1).
  { split; [exact Hl|exact Htry|]. eapply frame_trans; [|exact Hf3]. eapply frame_trans; [|exact Hf2].
    eapply frame_trans; [|exact Hf1]. by destruct x. }
  assert (Hlk : looked pkt v (snoopFilter x) (snoopFilter s1)).
  { rewrite Hs2, Hs1 in Hlook. revert Hlook. unfold looked. cbn. destruct (snoopFilter x); [|done].
    destruct (sx_bypassCaches P); [done|]. intros (g' & p0 & r0 & ? & Hsp & ?). exists g', p0, r0. split; [done|]. split; [|done].
    rewrite Hpk1 in Hsp. by destruct pkt. }
  assert (Hsame' : same_packet pkt v6 ∧ pkt_cmd v6 = pkt_cmd pkt).
  { split; [|by rewrite Hcmd, Hpk1; destruct pkt]. eapply same_packet_trans; [|exact Hsame]. rewrite Hpk1. by destruct pkt. }
  destruct Hsame' as [(Ha' & Hs' & Hr') Hcmd']. apply getAddr_inv in Hlift2.
  destruct v9 as [[[success direct] er] pkt0]; cbn [fst snd] in *. inv_step H.
  assert (Hx2 : s2 = s1.{snoopFilter := snoopFilter s2}).
  { apply if_filter_inv in Hstep as [[-> _]|(f & f' & _ & _ & _ & ->)]; by destruct s1. }
  destruct success; cbn [negb] in *.
  - inv_step H. assert (Hd : direct = true → er || negb (cacheResponding pkt) && cacheResponding v6 = false ∧ pointOfCoherency P = true).
    { intros ->. by destruct Hsend as (-> & -> & ?). }
    destruct (sending_accepted id x v2 l l1 s1 s2 s3 pkt pkt0 _ _ _ _ _ _ direct _ _ Hpre Hx2 ltac:(congruence) Hd Hstep0 H)
      as (Hok & l' & Hatt & Hlay & Hans).
    cbn in Hok. subst ok. exists v2, l, l', (Accepted v5), true. split; [exact Hl|]. split; [done|]. split; [done|].
    split; [done|]. split; [by eexists|]. intros Hn. apply Hans. rewrite <-Hchk. cbn [negb andb].
    destruct direct; [by rewrite orb_true_r|]. rewrite Hsend, Hcmd', Hn. by destruct (cacheResponding v6).
  - inv_step H. destruct (sending_refused id x v2 l l1 s1 s2 pkt0 _ _ x' Hpre Hx2 H) as (t & l' & Hatt & Hfr & Hlay & Hf & Hres).
    injection Hres as -> ->. exists v2, l, l', (Refused t), true. split; [exact Hl|]. split; [done|]. split; [done|].
    split; [by eexists|]. split; [done|]. split; [|by destruct pkt0]. unfold filter_restored. rewrite Hf.
    apply (retry_restores pkt v x s1 v8 v9 s2 (isSecure pkt0)); [by auto|congruence|done| |exact Hstep].
    unfold isSecure. intros sec Hsecr. apply res_bind_inv in Hsecr as (? & _ & [= <-]). congruence.
Qed.

(** *** A response *)

Lemma route_of_inv r x id x' : route_of r x = Ok (id, x') → x' = x ∧ routeTo x !! r = Some id.
Proof.
  unfold route_of. intros H. inv_step H. destruct (routeTo x !! r); [|done]. inv_step H. by inv_step H.
Qed.

Lemma tell_response_inv pkt id x u x' : tell_response P pkt id x = Ok (u, x') → x' = x.{snoopFilter := snoopFilter x'}.
Proof.
  unfold tell_response. intros H. inv_step H. case_decide; [|inv_step H; by destruct x]. inv_step H.
  apply slave_port_inv in Hstep as [-> _]. apply on_filter_inv in H as (? & f & _ & _ & ->). by destruct x.
Qed.

(** the packet was put into the queue of port [id], all other queues are as before *)
Definition delivered (pkt : Packet) (id : PortID) (x x' : CoherentXBar) : Prop :=
  ∃ q q' p t, respQueues x !z id = Some q ∧ req p = req pkt ∧ pkt_cmd p = pkt_cmd pkt ∧
    schedSendTiming now p t false q = Ok (tt, q') ∧ respQueues x' = vinsert id q' (respQueues x).

Lemma deliver_inv pkt id x p x' :
  deliver now pkt id x = Ok (p, x') →
  delivered pkt id x x' ∧ req p = req pkt ∧ x' = x.{respQueues := respQueues x'}.
Proof.
  unfold deliver. intros H. inv_step H. inv_step H. apply on_queue_inv in Hstep as (q & q' & Hq & Hr & ->). units.
  split; [|by destruct x, pkt]. eexists q, q', _, _. split; [done|]. split; [|split; [|split; [exact Hr|done]]]; by destruct pkt.
Qed.

Lemma recvTimingResp_inv pkt m x (ok : bool) pkt' x' :
  recvTimingResp P now pkt m x = Ok ((ok, pkt'), x') →
  ∃ id l l', routeTo x !! req_ptr (req pkt) = Some id ∧ respLayers x !z id = Some l ∧
    respLayers x' = vinsert id l' (respLayers x) ∧
    if ok then (∃ t, attempt now m (Accepted t) l = Ok (true, l')) ∧ delivered pkt id x x' ∧
               routeTo x' = delete (req_ptr (req pkt)) (routeTo x)
    else pkt' = pkt ∧ x' = x.{respLayers := vinsert id l' (respLayers x)} ∧ m ∈ waitingForLayer l'.
Proof.
  unfold recvTimingResp. intros H. inv_step H. apply route_of_inv in Hstep as [-> Hroute]. inv_step H. inv_step H.
  inv_step H. apply on_resp_inv in Hstep as (l & l1 & Hl & Htry & ->). destruct v1; cbn [negb] in H.
  2: { inv_step H. exists v, l, l1. do 3 (split; [done|]). split; [done|]. split; [done|].
       unfold tryTiming in Htry. inv_step Htry. case_decide; repeat inv_step Htry. cbn. apply elem_of_app. right. by left. }
  inv_step H. inv_step H. apply calc_inv in Hstep as (Hf1 & _ & Hpk). inv_step H. apply finish_inv in Hstep as [Hf2 _].
  inv_step H. apply tell_response_inv in Hstep. inv_step H. apply deliver_inv in Hstep0 as (Hdel & Hreq & Hs2).
  assert (Hs : s1 = (x.{respLayers := vinsert v l1 (respLayers x)}).{xb := xb s1}.{xb_clock := xb_clock s1}
    .{xb_stats := xb_stats s1}.{snoopFilter := snoopFilter s1}).
  { rewrite Hstep. unfold frame in Hf1, Hf2. rewrite Hf2, Hf1. by destruct x. }
  inv_step H. inv_step H. apply on_resp_inv in Hstep0 as (l2 & l' & Hl2 & Hsucc & ->). units.
  assert (Hlay : respLayers s2 = vinsert v l1 (respLayers x)) by (rewrite Hs2, Hs; by destruct x).
  cbn [respLayers set rebuild] in Hl2. rewrite Hlay, vlookup_vinsert_eq in Hl2 by (by eapply vlookup_Some_range). injection Hl2 as <-.
  unfold count_packet, on_stats in H. inv_step H. inv_step H.
  exists v, l, l'. split; [done|]. split; [done|]. split; [cbn; by rewrite Hlay, vinsert_vinsert|]. split.
  { eexists. eapply attempt_free_steps; [exact Htry|exact Hsucc]. }
  assert (Hq : respQueues s1 = respQueues x) by (rewrite Hs; by destruct x).
  assert (Hr : routeTo s2 = routeTo x) by (rewrite Hs2, Hs; by destruct x).
  rewrite Hpk in Hreq. split; [|cbn; rewrite Hr, Hreq; by destruct pkt].
  unfold delivered in *. cbn. rewrite Hq in Hdel. rewrite Hpk in Hdel. by destruct pkt.
Qed.
End timing.

(** ** Properties *)

(** C18: A request that the crossbar does not accept leaves no route, queue entry or tracked line in
    the crossbar.  Whether the layer of its destination was taken or the peer behind it refused the packet, the
    routing table, the outstanding snoops, the queues, the other layers and the traffic manager are as they
    were (the caches of the decoding, the statistics and the clock are not compared), and the snoop filter
    tracks exactly what it tracked before the lookup; the layer, on which the request acted as an attempt that was
    refused, now has the source among the ports it will tell to retry.  Of the packet only the header delay
    is restored: its payload delay, which [calcPacketTiming] raises, and the flags that the snoops
    and [setBlockCached] set stay. *)
Theorem refused_request_keeps_crossbar (P : XBarParams) (peers : Peers) (Hquiet : Quiet peers) (now : Z)
    (pkt pkt' : Packet) (id : PortID) (x x' : CoherentXBar)
    (Hnormal : isExpressSnoop pkt = false)
    (Hfilter : ∀ f p, snoopFilter x = Some f → slavePorts x !z id = Some p → filter_ok f ∧ known_port f p)
    (Hrun : recvTimingReq P now pkt id x = Ok ((false, pkt'), x')) :
  ∃ m l l' t b, reqLayers x !z m = Some l ∧ attempt now id (Refused t) l = Ok (b, l') ∧ id ∈ blocked l' ∧
    x' = x.{reqLayers := vinsert m l' (reqLayers x)}.{xb := xb x'}.{xb_clock := xb_clock x'}.{xb_stats := xb_stats x'}
          .{snoopFilter := snoopFilter x'} ∧
    match snoopFilter x with
    | None => snoopFilter x' = None
    | Some f => ∃ f', snoopFilter x' = Some f' ∧ cachedLocations f' = cachedLocations f
    end ∧ headerDelay pkt' = headerDelay pkt.
Proof.
  destruct (recvTimingReq_inv P peers now pkt id x false pkt' x' Hnormal Hfilter Hrun)
    as (m & l & l' & o & b & Hl & Ha & _ & (t & ->) & Hf & Hsf & Hh).
  exists m, l, l', t, b. split; [done|]. split; [done|]. split; [by eapply refused_blocks|]. done.
Qed.

(** C12: Responses return to the port their request came from.  When a request that needs a
    response is accepted, its layer saw an accepted attempt, and either the crossbar, being the
    point of coherency, put its own response into the queue of the source port, or the routing table now maps
    the request to the source port, which no other request used; and as long as it does, a
    response to this request that the crossbar accepts is put into the queue of that port and into no
    other, and the route is forgotten; one that it does not accept only makes
    its sender wait at the layer of that port.  The peers ([Quiet]) do not change the request of a packet and do not
    call the crossbar from within a call. *)
Theorem responses_return_to_requester (P : XBarParams) (peers : Peers) (Hquiet : Quiet peers) (now : Z)
    (pkt pkt' : Packet) (id : PortID) (x x' : CoherentXBar)
    (Hnormal : isExpressSnoop pkt = false) (Hneeds : needsResponse (pkt_cmd pkt) = true)
    (Hfilter : ∀ f p, snoopFilter x = Some f → slavePorts x !z id = Some p → filter_ok f ∧ known_port f p)
    (Hrun : recvTimingReq P now pkt id x = Ok ((true, pkt'), x')) :
  let r := req_ptr (req pkt) in
  (∃ m l l' t, reqLayers x !z m = Some l ∧ attempt now id (Accepted t) l = Ok (true, l') ∧
     reqLayers x' = vinsert m l' (reqLayers x)) ∧
((pointOfCoherency P = true ∧ ∃ q q' p t, respQueues x !z id = Some q ∧ isResponse (pkt_cmd p) = true ∧
      req p = req pkt ∧ schedSendTiming now p t false q = Ok (tt, q') ∧ respQueues x' = vinsert id q' (respQueues x)) ∨
   (routeTo x !! r = None ∧ routeTo x' = <[r := id]> (routeTo x) ∧
    ∀ y later resp m ok resp' y', routeTo y !! r = Some id → req resp = req pkt →
      recvTimingResp P later resp m y = Ok ((ok, resp'), y') →
      if ok then delivered later resp id y y' ∧ routeTo y' = delete r (routeTo y)
      else resp' = resp ∧ ∃ l l', respLayers y !z id = Some l ∧ m ∈ waitingForLayer l' ∧
        y' = y.{respLayers := vinsert id l' (respLayers y)})).
Proof.
  intros r. destruct (recvTimingReq_inv P peers now pkt id x true pkt' x' Hnormal Hfilter Hrun)
    as (m & l & l' & o & b & Hl & Ha & Hlay & -> & (t & ->) & Hans).
  split; [by exists m, l, l', t|]. destruct (Hans Hneeds) as [(Hn & Hr & _)|(Hpoc & _ & Hq)]; [right|by left].
  split; [done|]. split; [done|]. intros y later resp m' ok resp' y' Hy Hreq H.
  apply recvTimingResp_inv in H as (id' & k & k' & Hid & Hk & _ & H). rewrite Hreq in Hid, H. subst r.
  assert (id' = id) as -> by congruence. destruct ok; [by destruct H as (_ & ? & ?)|].
  destruct H as (-> & -> & Hw). split; [done|]. by exists k, k'.
Qed.

(** a crossbar with three snooping masters and four memory channels behind it, and peers that accept or
    refuse everything *)
Definition idle_manager : TrafficManager.TrafficManager :=
  TrafficManager.mkTrafficManager 0 0 0
    (Network.mkNetworkNoC (Router.mkWorld [] [] []) [] [] [] [] [] 0 0 0 0 0) [] 0 []
    (Directory.mkMemSystem [] [] [] (Directory.mkENoCDir [] [] [] [] [] [] []) []) [] 0.
Definition ex_params : XBarParams := mkXBarParams 1 1 1 1 8 false false 500 1000000.
Definition ex_coherent : CoherentXBar :=
  mkCoherentXBar mem_xbar new_Clocked ∅ ∅ (replicate 4 new_Layer) (replicate 3 new_Layer) (replicate 4 new_Layer)
    (Some ex3) (ex_ports 3) (replicate 3 (PacketQueue_new false)) (ex_ports 3) idle_manager (mkXBarStats ∅ ∅ ∅ 0 0 ∅).
Definition ex_peers (ok : bool) : Peers := {|
  sendTimingReq _ p x := Ok ((ok, p), x);
  sendTimingSnoopReq _ p x := Ok (p, x);
  sendTimingSnoopResp _ p x := Ok ((true, p), x);
  sendAtomic _ p x := Ok ((0, p), x);
  sendAtomicSnoop _ p x := Ok ((0, p), x);
  sendFunctional _ p x := Ok (p, x);
  sendFunctionalSnoop _ p x := Ok (p, x);
  sendRetryReq _ x := Ok (tt, x);
  sendRetryResp _ x := Ok (tt, x);
  sendRetrySnoopResp _ x := Ok (tt, x);
|}.

Lemma ex_quiet ok : Quiet (ex_peers ok).
Proof. split; cbn; intros; simplify_eq; by repeat split. Qed.

Lemma ex_coherent_filter f p :
  snoopFilter ex_coherent = Some f → slavePorts ex_coherent !z 1 = Some p → filter_ok f ∧ known_port f p.
Proof.
  intros [= <-] [= <-]. split; [apply ex3_ok|]. left. apply (list_elem_of_lookup_2 _ 1%nat). reflexivity.
Qed.

Definition ex_read : Packet := (ex_request ReadSharedReq 0x100040).{pkt_size := Some 64}.

Lemma refused_request_keeps_crossbar_witness :
  ∃ pkt' x', recvTimingReq (H := ex_peers false) ex_params 1000 ex_read 1 ex_coherent = Ok ((false, pkt'), x')
    ∧ headerDelay pkt' = 0 ∧ waitingForPeer <$> reqLayers x' = [None; None; None; Some 1].
Proof.
  destruct (recvTimingReq (H := ex_peers false) ex_params 1000 ex_read 1 ex_coherent) as [[[ok pkt'] x']|e] eqn:Hr;
    [|vm_compute in Hr; discriminate].
  assert (ok = false) as -> by (vm_compute in Hr; by injection Hr as <- _ _).
  destruct (refused_request_keeps_crossbar ex_params (ex_peers false) (ex_quiet false) 1000 ex_read pkt' 1 ex_coherent x'
    eq_refl ex_coherent_filter Hr) as (m & l & l' & t & b & _ & _ & _ & _ & _ & Hh).
  exists pkt', x'. split; [done|]. split; [exact Hh|]. vm_compute in Hr. by injection Hr as _ <-.
Defined.

Definition ex_answer : Packet := ex_read.{pkt_cmd := ReadResp}.{pkt_bytes := Some (replicate 64 0)}.

Lemma responses_return_to_requester_witness :
  ∃ x' pkt' resp' y',
    recvTimingReq (H := ex_peers true) ex_params 1000 ex_read 1 ex_coherent = Ok ((true, pkt'), x') ∧
    recvTimingResp ex_params 9000 ex_answer 3 x' = Ok ((true, resp'), y') ∧
    delivered 9000 ex_answer 1 x' y' ∧ pq_size <$> respQueues y' = [0; 1; 0].
Proof.
  destruct (recvTimingReq (H := ex_peers true) ex_params 1000 ex_read 1 ex_coherent) as [[[ok pkt'] x']|e] eqn:Hr;
    [|vm_compute in Hr; discriminate].
  assert (ok = true) as -> by (vm_compute in Hr; by injection Hr as <- _ _).
  destruct (responses_return_to_requester ex_params (ex_peers true) (ex_quiet true) 1000 ex_read pkt' 1 ex_coherent x'
    eq_refl eq_refl ex_coherent_filter Hr) as [_ [[Hpoc _]|(_ & Hroute & Hans)]];
    [discriminate Hpoc|].
  destruct (recvTimingResp ex_params 9000 ex_answer 3 x') as [[[ok resp'] y']|e] eqn:Hr2.
  - specialize (Hans x' 9000 ex_answer 3 ok resp' y' ltac:(by rewrite Hroute, lookup_insert_eq) eq_refl Hr2).
    exists x', pkt', resp', y'. split; [done|].
    vm_compute in Hr. injection Hr as _ <-. vm_compute in Hr2. injection Hr2 as <- <- <-. split; [done|].
    split; [apply Hans|]. reflexivity.
  - exfalso. vm_compute in Hr. injection Hr as _ <-. vm_compute in Hr2. discriminate.
Defined.
