(* ===== verification/XBarAtomic.v ===== *)
(** * Atomic accesses through the coherent crossbar

    The snoops of an atomic access, against a reference that asks the
    snoopers one after the other, and the whole access with the hook of the traffic manager. *)

From stdpp Require Import gmap.
From S2P Require Import Prelude IntMath NoCMain FlitCoding Cache Directory TrafficManager.
From S2P Require Import MemPacket XBarLayer SnoopFilter XBar CoherentXBar XBarTiming.

(** ** Snoopers as functions

    [snooper i p] is the latency and the packet with which the master behind port [i] answers a snoop. *)
Class Snoopers (peers : Peers) (snooper : PortID → Packet → Z * Packet) : Prop := {
  snooper_run i p x : sendAtomicSnoop i p x = Ok (snooper i p, x);
  snooper_keeps i p : isResponse (pkt_cmd (snooper i p).2) = false → pkt_cmd (snooper i p).2 = pkt_cmd p;
  snooper_responds i p : isResponse (pkt_cmd (snooper i p).2) = true → cacheResponding (snooper i p).2 = true;
}.

(** the reference: every port is asked once, with the command of the request; the packet afterwards, and
    the responses *)
Fixpoint ask (snooper : PortID → Packet → Z * Packet) (pkt : Packet) (ports : list SlavePort) :
    Packet * list (Command * Z) :=
  match ports with
  | [] => (pkt, [])
  | p :: ports =>
      let '(latency, q) := snooper (port_id p) pkt in
      let '(r, resps) := ask snooper (q.{pkt_cmd := pkt_cmd pkt}) ports in
      (r, (if isResponse (pkt_cmd q) then [(pkt_cmd q, latency)] else []) ++ resps)
  end.

Definition asked (exclude : PortID) (dests : list SlavePort) : list SlavePort :=
  filter (λ p, excluded exclude p = false) dests.

(** what [forwardAtomic] returns for a list of responses *)
Definition sole_response (resps : list (Command * Z)) : option (Command * Z) :=
  match resps with [] => Some (InvalidCmd, 0) | [r] => Some r | _ => None end.

(** ** Lemmas *)

Lemma response_not_request c : isRequest c = true → isResponse c = true → False.
Proof. by destruct c. Qed.
Lemma response_valid c : isResponse c = true → c ≠ InvalidCmd.
Proof. by destruct c. Qed.

Section atomic.
Context (P : XBarParams) (peers : Peers) (snooper : PortID → Packet → Z * Packet) {Hs : Snoopers peers snooper}.

Lemma ask_cmd ports : ∀ pkt, pkt_cmd (ask snooper pkt ports).1 = pkt_cmd pkt.
Proof.
  induction ports as [|p ports IH]; intros pkt; simpl; [done|].
  destruct (snooper (port_id p) pkt) as [lat q]. specialize (IH (q.{pkt_cmd := pkt_cmd pkt})).
  destruct (ask _ _ _) as [r resps]. simpl in *. by rewrite IH; destruct q.
Qed.

(** the responses so far *)
Definition so_far (resp : Command * Z) : list (Command * Z) := if decide (resp.1 = InvalidCmd) then [] else [resp].
Definition outcome_of (resp : Command * Z) (resps : list (Command * Z)) : option (Command * Z) :=
  match so_far resp ++ resps with [] => Some resp | [r] => Some r | _ => None end.

Lemma outcome_next resp r resps :
  r.1 ≠ InvalidCmd →
  outcome_of resp (r :: resps) = if decide (resp.1 = InvalidCmd) then outcome_of r resps else None.
Proof.
  intros Hr. unfold outcome_of, so_far. rewrite (decide_False (P := r.1 = InvalidCmd)) by done.
  case_decide; [by destruct resps|]. by destruct resps.
Qed.

Lemma asked_cons exclude p dests :
  asked exclude (p :: dests) = if excluded exclude p then asked exclude dests else p :: asked exclude dests.
Proof.
  unfold asked. destruct (excluded exclude p) eqn:He; [by rewrite filter_cons_False by congruence|].
  by rewrite filter_cons_True.
Qed.

(** without a filter the loop is the reference; it fails exactly when two snoopers respond *)
Lemma snoop_atomic_run exclude src dests x :
  snoopFilter x = None → ∀ pkt resp n, isRequest (pkt_cmd pkt) = true →
  snoop_atomic pkt (pkt_cmd pkt) exclude src resp n dests x =
    let '(pkt', resps) := ask snooper pkt (asked exclude dests) in
    match outcome_of resp resps with
    | Some r => Ok ((pkt', r, n + zlength (asked exclude dests)), x)
    | None => Fault AssertFailed
    end.
Proof.
  intros Hf. induction dests as [|p dests IH]; intros pkt resp n Hreq; cbn [snoop_atomic].
  { cbn. unfold outcome_of, so_far. rewrite app_nil_r. unfold zlength. cbn. rewrite Z.add_0_r.
    by destruct (decide _). }
  rewrite asked_cons. destruct (excluded exclude p); [by apply IH|]. cbn [ask].
  unfold mbind at 1, M_bind at 1. rewrite snooper_run.
  destruct (snooper (port_id p) pkt) as [lat q] eqn:Hq.
  pose proof (snooper_keeps (port_id p) pkt) as Hk. pose proof (snooper_responds (port_id p) pkt) as Hr.
  rewrite Hq in Hk, Hr. cbn [fst snd] in Hk, Hr.
  assert (Hn : ∀ l : list SlavePort, n + zlength (p :: l) = (n + 1) + zlength l) by (intros; unfold zlength; simpl; lia).
  assert (Hq' : pkt_cmd (q.{pkt_cmd := pkt_cmd pkt}) = pkt_cmd pkt) by (by destruct q).
  rewrite Hn. destruct (isResponse (pkt_cmd q)) eqn:Hresp; cbn [negb].
  - assert (Hne : pkt_cmd q ≠ pkt_cmd pkt) by (intros He; rewrite He in Hresp; by eapply response_not_request).
    specialize (IH (q.{pkt_cmd := pkt_cmd pkt}) (pkt_cmd q, lat) (n + 1)). rewrite Hq' in IH. specialize (IH Hreq).
    unfold check, atomic_response, get, mbind, M_bind, mret, M_ret, throw in *.
    rewrite bool_decide_eq_true_2, Hr by done. destruct (ask _ _ _) as [pkt' resps]. cbn [app].
    rewrite outcome_next by (by apply response_valid). case_bool_decide; [|by rewrite decide_False].
    rewrite Hf, !decide_True by done. exact IH.
  - specialize (Hk eq_refl). assert (Hqq : q.{pkt_cmd := pkt_cmd pkt} = q) by (rewrite <-Hk; by destruct q).
    rewrite Hqq. rewrite <-Hk in *. rewrite IH by done. by destruct (ask _ _ _).
Qed.

Lemma atomic_response_inv pkt exclude src p x u x' :
  atomic_response pkt exclude src p x = Ok (u, x') → x' = x.{snoopFilter := snoopFilter x'}.
Proof.
  unfold atomic_response. intros H. inv_step H. case_decide; [inv_step H; by destruct x|]. case_decide.
  - inv_step H. apply on_filter_inv in H as (? & f & _ & _ & ->). by destruct x.
  - inv_step H. apply slave_port_inv in Hstep as [-> _]. apply on_filter_inv in H as (? & f & _ & _ & ->). by destruct x.
Qed.

(** with a filter, when no assertion of the filter fails *)
Lemma snoop_atomic_inv exclude src dests : ∀ x pkt resp n r x', isRequest (pkt_cmd pkt) = true →
  snoop_atomic pkt (pkt_cmd pkt) exclude src resp n dests x = Ok (r, x') →
  x' = x.{snoopFilter := snoopFilter x'} ∧
  let '(pkt', resps) := ask snooper pkt (asked exclude dests) in
  ∃ resp', outcome_of resp resps = Some resp' ∧ r = (pkt', resp', n + zlength (asked exclude dests)).
Proof.
  induction dests as [|p dests IH]; intros x pkt resp n r x' Hreq H; cbn [snoop_atomic] in H.
  { inv_step H. split; [by destruct x|]. cbn. exists resp. rewrite Z.add_0_r. unfold outcome_of, so_far.
    by destruct (decide _). }
  rewrite asked_cons. destruct (excluded exclude p); [by eapply IH|]. cbn [ask]. inv_step H.
  rewrite snooper_run in Hstep. injection Hstep as <- <-.
  destruct (snooper (port_id p) pkt) as [lat q] eqn:Hq.
  pose proof (snooper_keeps (port_id p) pkt) as Hk. rewrite Hq in Hk. cbn [fst snd] in Hk.
  assert (Hq' : pkt_cmd (q.{pkt_cmd := pkt_cmd pkt}) = pkt_cmd pkt) by (by destruct q).
  replace (n + zlength (p :: asked exclude dests)) with ((n + 1) + zlength (asked exclude dests))
    by (unfold zlength; simpl; lia).
  destruct (isResponse (pkt_cmd q)) eqn:Hresp; cbn [negb] in H.
  - inv_step H. inv_step H. inv_step H. apply bool_decide_eq_true in Hchk1. inv_step H.
    apply atomic_response_inv in Hstep. specialize (IH s (q.{pkt_cmd := pkt_cmd pkt})).
    rewrite Hq' in IH. apply IH in H as [Hx H]; [|done].
    split; [rewrite Hx, Hstep; by destruct x|]. destruct (ask _ _ _) as [pkt' resps]. cbn [app].
    rewrite outcome_next by (by apply response_valid). by rewrite decide_True.
  - specialize (Hk eq_refl). assert (Hqq : q.{pkt_cmd := pkt_cmd pkt} = q) by (rewrite <-Hk; by destruct q).
    rewrite Hqq. rewrite <-Hk in *. apply IH in H as [Hx H]; [|done]. split; [done|]. by destruct (ask _ _ _).
Qed.
End atomic.

(** ** Properties *)

(** C22: The snoops of an atomic access implement the reference: every snooper but the source
    is asked exactly once, in the order of the ports and with the command of the request,
    whatever the snoopers before it answered; the packet gets its command back; and the result is the one
    response there was, or none.  Without a snoop filter the access fails an
    assertion exactly when two snoopers respond; with one only the filter
    changes, and the result is the same whenever no assertion of the filter fails. *)
Theorem forwardAtomic_asks_each_once (P : XBarParams) (peers : Peers) (snooper : PortID → Packet → Z * Packet)
    (Hs : Snoopers peers snooper) (pkt : Packet) (exclude src : PortID) (dests : list SlavePort) (x : CoherentXBar)
    (Hreq : isRequest (pkt_cmd pkt) = true) (Hcaches : sx_bypassCaches P = false) :
  let '(pkt', resps) := ask snooper pkt (asked exclude dests) in
  let count := λ s, s.{snoopFanout ::= bump (zlength (asked exclude dests)) 1} in
  pkt_cmd pkt' = pkt_cmd pkt ∧
  (snoopFilter x = None →
   forwardAtomic P pkt exclude src dests x =
     match sole_response resps with
     | Some r => Ok ((pkt', r), x.{xb_stats ::= count})
     | None => Fault AssertFailed
     end) ∧
  ∀ r x', forwardAtomic P pkt exclude src dests x = Ok (r, x') →
    ∃ resp, sole_response resps = Some resp ∧ r = (pkt', resp) ∧
      x' = x.{xb_stats ::= count}.{snoopFilter := snoopFilter x'}.
Proof.
  pose proof (ask_cmd snooper (asked exclude dests) pkt) as Hcmd.
  assert (Hout : ∀ l, outcome_of (InvalidCmd, 0) l = sole_response l) by (by intros [|? []]).
  pose proof (snoop_atomic_run peers snooper exclude src dests x) as Hrun.
  pose proof (snoop_atomic_inv peers snooper exclude src dests x pkt (InvalidCmd, 0) 0) as Hinv.
  unfold forwardAtomic. destruct (ask snooper pkt (asked exclude dests)) as [pkt' resps] eqn:Ha. split; [done|]. split.
  - intros Hf. specialize (Hrun Hf pkt (InvalidCmd, 0) 0 Hreq). rewrite Ha, Hout in Hrun.
    rewrite Hcaches. unfold check, mbind, M_bind, mret, M_ret in *. cbn [negb]. rewrite Hrun.
    by destruct (sole_response resps).
  - intros r x' H. inv_step H. inv_step H. apply Hinv in Hstep as [Hx (resp & Hr & ->)]; [|done].
    unfold on_stats in H. inv_step H. inv_step H. exists resp. split; [by rewrite <-Hout|]. split; [done|].
    cbn. rewrite Hx. by destruct x.
Qed.

(** masters of which the one behind port 2 owns the line *)
Definition ex_snooper (i : PortID) (p : Packet) : Z * Packet :=
  if decide (i = 2) then (7, p.{pkt_cmd := ReadResp}.{cacheResponding := true})
  else (0, p.{cacheResponding := isResponse (pkt_cmd p) || cacheResponding p}).
Definition ex_snoop_peers : Peers := {|
  sendTimingReq _ p x := Ok ((true, p), x);
  sendTimingSnoopReq _ p x := Ok (p, x);
  sendTimingSnoopResp _ p x := Ok ((true, p), x);
  sendAtomic _ p x := Ok ((30, p), x);
  sendAtomicSnoop i p x := Ok (ex_snooper i p, x);
  sendFunctional _ p x := Ok (p, x);
  sendFunctionalSnoop _ p x := Ok (p, x);
  sendRetryReq _ x := Ok (tt, x);
  sendRetryResp _ x := Ok (tt, x);
  sendRetrySnoopResp _ x := Ok (tt, x);
|}.

Lemma ex_snoopers : Snoopers ex_snoop_peers ex_snooper.
Proof.
  split; [done| |]; intros i p; unfold ex_snooper; case_decide; cbn; try done. by intros ->.
Qed.

Lemma forwardAtomic_asks_each_once_witness :
  ∃ r x', forwardAtomic (H := ex_snoop_peers) ex_params ex_read 1 InvalidPortID (ex_ports 3)
      (ex_coherent.{snoopFilter := None}) = Ok (r, x')
    ∧ r.2 = (ReadResp, 7) ∧ pkt_cmd r.1 = ReadSharedReq.
Proof.
  pose proof (forwardAtomic_asks_each_once ex_params ex_snoop_peers ex_snooper ex_snoopers ex_read 1 InvalidPortID
    (ex_ports 3) (ex_coherent.{snoopFilter := None}) eq_refl eq_refl) as H.
  destruct (ask ex_snooper ex_read (asked 1 (ex_ports 3))) as [pkt' resps] eqn:Ha.
  destruct H as (Hc & Hrun & _). specialize (Hrun eq_refl). vm_compute in Ha. injection Ha as <- <-.
  eexists _, _. split; [exact Hrun|]. split; [reflexivity|exact Hc].
Defined.

(** ** The whole access *)

(** destinations that do not call back *)
Class QuietAtomic (peers : Peers) : Prop := {
  quiet_atomic i p x r x' : sendAtomic i p x = Ok (r, x') → x' = x;
}.

Section access.
Context (P : XBarParams) (peers : Peers) (snooper : PortID → Packet → Z * Packet) {Hs : Snoopers peers snooper}.
Context {Hq : QuietAtomic peers} (now : Z).

Lemma forwardAtomic_frame pkt exclude src dests x r x' :
  isRequest (pkt_cmd pkt) = true → forwardAtomic P pkt exclude src dests x = Ok (r, x') → frame x x'.
Proof.
  intros Hreq H. unfold forwardAtomic in H. inv_step H. inv_step H.
  apply (snoop_atomic_inv peers snooper) in Hstep as [Hx _]; [|done]. destruct v0 as [[? ?] ?].
  unfold on_stats in H. inv_step H. inv_step H. rewrite Hx. by destruct x.
Qed.

Lemma on_filter_frame {A} (m : M SnoopFilter A) x a x' : on_filter m x = Ok (a, x') → frame x x'.
Proof. intros (? & f & _ & _ & ->)%on_filter_inv. by destruct x. Qed.

Lemma snoop_atomic_request_frame pkt id x r x' :
  isRequest (pkt_cmd pkt) = true → snoop_atomic_request P pkt id x = Ok (r, x') → frame x x'.
Proof.
  intros Hreq H. unfold snoop_atomic_request in H. destruct (sx_bypassCaches P); [inv_step H; apply frame_refl|].
  inv_step H. case_decide.
  - inv_step H. apply forwardAtomic_frame in Hstep; [|done]. destruct v. by inv_step H.
  - inv_step H. apply slave_port_inv in Hstep as [-> _]. inv_step H. apply on_filter_frame in Hstep.
    inv_step H. inv_step H. inv_step H. apply on_filter_frame in Hstep0. inv_step H.
    apply forwardAtomic_frame in Hstep1; [|done]. destruct v4. inv_step H.
    eapply frame_trans; [done|]. by eapply frame_trans.
Qed.

Lemma count_packet_frame i j n c x u x' : count_packet i j n c x = Ok (u, x') → frame x x'.
Proof. unfold count_packet, on_stats. intros H. inv_step H. by destruct x. Qed.

Lemma tell_response_frame pkt id x u x' : tell_response P pkt id x = Ok (u, x') → frame x x'.
Proof. intros H. apply tell_response_inv in H. rewrite H. by destruct x. Qed.

(** the steps of an access after the hook: only caches of decoding, clock, statistics and filter change *)
Lemma recvAtomic_inv raw_flit raw pkt id x lat pkt' x' :
  isRequest (pkt_cmd pkt) = true →
  CoherentXBar_recvAtomic P now raw_flit raw pkt id x = Ok ((lat, pkt'), x') →
  ∃ tm pkt1 resp x1, TrafficManager.recvAtomic raw_flit raw pkt now (trafficManager x) = Ok (tt, tm) ∧
    snoop_atomic_request P pkt id (x.{trafficManager := tm}) = Ok ((pkt1, resp), x1) ∧
    frame (x.{trafficManager := tm}) x' ∧ payloadDelay pkt' = to_uint 32 lat ∧
    (resp.1 ≠ InvalidCmd → pkt_cmd pkt' = resp.1 ∧ lat = resp.2).
Proof.
  intros Hreq H. unfold CoherentXBar_recvAtomic in H. inv_step H. apply zoom_inv in Hstep as (tm & Htm & ->). units.
  inv_step H. inv_step H. destruct v0 as [pkt1 [rc rl]].
  pose proof (snoop_atomic_request_frame _ _ _ _ _ Hreq Hstep) as Hf1. inv_step H. inv_step H. inv_step H.
  apply on_base_inv in Hstep0 as (b & _ & ->). inv_step H.
  assert (Hsend : frame (s.{xb := b}) s0).
  { destruct v0; [inv_step Hstep0; apply frame_refl|]. destruct (_ || _).
    - apply quiet_atomic in Hstep0 as ->. apply frame_refl.
    - inv_step Hstep0. inv_step Hstep0. inv_step Hstep0. apply frame_refl. }
  destruct v3 as [lat0 pkt2]. inv_step H. apply count_packet_frame in Hstep1. inv_step H.
  assert (Ht : frame s1 s2).
  { unfold when in Hstep2. destruct (isResponse (pkt_cmd pkt2)); [by apply tell_response_frame in Hstep2|]. inv_step Hstep2. apply frame_refl. }
  inv_step H. destruct v5 as [lat1 pkt3]. inv_step H.
  assert (Hres : s3 = s2 ∧ (rc ≠ InvalidCmd → pkt_cmd pkt3 = rc ∧ lat1 = rl)).
  { case_decide; [inv_step Hstep3; inv_step Hstep3; split; [done|]; intros _; by destruct pkt2|]. by inv_step Hstep3. }
  destruct Hres as [-> Hres].
  assert (Hc : frame s2 s4).
  { unfold when in Hstep4. destruct (isResponse (pkt_cmd pkt3)); [|inv_step Hstep4; apply frame_refl]. inv_step Hstep4.
    by apply count_packet_frame in Hstep4. }
  inv_step H. exists tm, pkt1, (rc, rl), s. split; [done|]. split; [done|]. split.
  { eapply frame_trans; [exact Hf1|]. eapply frame_trans; [apply frame_base|]. eapply frame_trans; [exact Hsend|].
    eapply frame_trans; [exact Hstep1|]. eapply frame_trans; [exact Ht|exact Hc]. }
  split; [done|]. intros Hne. destruct (Hres Hne) as [<- <-]. by destruct pkt3.
Qed.

Lemma snoop_atomic_request_none pkt id x r x1 :
  isRequest (pkt_cmd pkt) = true → sx_bypassCaches P = false → snoopFilter x = None →
  snoop_atomic_request P pkt id x = Ok (r, x1) →
  ∃ resp, sole_response (ask snooper pkt (asked id (snoopPorts x))).2 = Some resp ∧ r.2 = (resp.1, u64 resp.2).
Proof.
  intros Hreq Hb Hf H. unfold snoop_atomic_request in H. rewrite Hb in H. inv_step H. rewrite decide_True in H by done.
  inv_step H. destruct v. inv_step H. unfold forwardAtomic in Hstep. inv_step Hstep. inv_step Hstep.
  apply (snoop_atomic_inv peers snooper) in Hstep0 as [_ Hx]; [|done].
  destruct (ask _ _ _) as [pkt' resps]. destruct Hx as (resp & Hr & ->). unfold on_stats in Hstep.
  inv_step Hstep. inv_step Hstep. exists resp. split; [|done]. rewrite <-Hr. by destruct resps as [|? []].
Qed.
End access.

(** C13: The hook comes first.  If the traffic manager faults on the packet, so does the access, before
    anything else of the crossbar changed.  Otherwise the access leaves the traffic manager exactly as
    the hook did; no route, queue, layer or outstanding snoop changes; the packet carries the
    latency that is returned as its payload delay; and in a crossbar without a snoop filter, when a snooper
    responded, the packet returns with this response and its latency, whatever the memory behind
    answered (with a filter only the first parts are stated). *)
Theorem atomic_access_through_hook (P : XBarParams) (peers : Peers) (snooper : PortID → Packet → Z * Packet)
    (Hs : Snoopers peers snooper) (Hq : QuietAtomic peers) (now : Z) (raw_flit : nat → NoCMain.Flit)
    (raw : NoCMain.PacketNoC) (pkt : Packet) (id : PortID) (x : CoherentXBar)
    (Hreq : isRequest (pkt_cmd pkt) = true) :
  match TrafficManager.recvAtomic raw_flit raw pkt now (trafficManager x) with
  | Fault e => CoherentXBar_recvAtomic P now raw_flit raw pkt id x = Fault e
  | Ok (_, tm) =>
      ∀ lat pkt' x', CoherentXBar_recvAtomic P now raw_flit raw pkt id x = Ok ((lat, pkt'), x') →
        x' = x.{trafficManager := tm}.{xb := xb x'}.{xb_clock := xb_clock x'}.{xb_stats := xb_stats x'}
              .{snoopFilter := snoopFilter x'} ∧
        payloadDelay pkt' = to_uint 32 lat ∧
        (sx_bypassCaches P = false → snoopFilter x = None →
         ∃ resp, sole_response (ask snooper pkt (asked id (snoopPorts x))).2 = Some resp ∧
           (resp.1 ≠ InvalidCmd → pkt_cmd pkt' = resp.1 ∧ lat = u64 resp.2))
  end.
Proof.
  destruct (TrafficManager.recvAtomic raw_flit raw pkt now (trafficManager x)) as [[u tm]|e] eqn:Htm.
  2: { unfold CoherentXBar_recvAtomic, zoom. unfold mbind at 1, M_bind at 1. by rewrite Htm. }
  intros lat pkt' x' H.
  destruct (recvAtomic_inv P peers snooper now raw_flit raw pkt id x lat pkt' x' Hreq H)
    as (tm' & pkt1 & resp & x1 & Htm' & Hsn & Hf & Hp & Hres).
  assert (tm' = tm) as -> by congruence. split; [exact Hf|]. split; [done|]. intros Hb Hnone.
  apply (snoop_atomic_request_none P peers snooper) in Hsn as (r & Hr & Hr2); [|done..].
  exists r. split; [exact Hr|]. intros Hne. cbn in Hr2. subst resp. by apply Hres.
Qed.

Lemma ex_quiet_atomic : QuietAtomic ex_snoop_peers.
Proof. split. cbn. by intros i p x r x' [= _ <-]. Qed.

(** a crossbar without a filter, whose traffic manager has caches without lines and no network *)
Definition small_manager : TrafficManager.TrafficManager :=
  let cs := replicate 2 (Cache.mkENoCCache 0 0 []) in
  idle_manager.{TrafficManager.sys := Directory.mkMemSystem cs cs cs (Directory.mkENoCDir [] [] [] [] [] [] []) [] }.
Definition ex_flush : Packet := (ex_request FlushReq 0x100040).{pkt_size := Some 8}.{pkt_bytes := Some (replicate 8 0)}.
Definition ex_small : CoherentXBar :=
  ex_coherent.{snoopFilter := None}.{trafficManager := small_manager}.

Lemma atomic_access_through_hook_witness :
  let flit := FlitCoding.coding_flit NoCMain.FLIT_TYPE_BODY 0 in
  ∃ lat pkt' x', CoherentXBar_recvAtomic (H := ex_snoop_peers) ex_params 1000 (λ _, flit) Directory.blank_packet ex_flush 1
      ex_small = Ok ((lat, pkt'), x') ∧ pkt_cmd pkt' = ReadResp ∧ lat = 7 ∧ payloadDelay pkt' = to_uint 32 lat.
Proof.
  intros flit.
  pose proof (atomic_access_through_hook ex_params ex_snoop_peers ex_snooper ex_snoopers ex_quiet_atomic 1000
    (λ _, flit) Directory.blank_packet ex_flush 1 ex_small eq_refl) as H.
  destruct (TrafficManager.recvAtomic (λ _, flit) Directory.blank_packet ex_flush 1000 (trafficManager ex_small)) as [[u tm]|e] eqn:Htm;
    [|vm_compute in Htm; discriminate].
  destruct (CoherentXBar_recvAtomic (H := ex_snoop_peers) ex_params 1000 (λ _, flit) Directory.blank_packet ex_flush 1 ex_small)
    as [[[lat pkt'] x']|e] eqn:Hr; [|vm_compute in Hr; discriminate].
  destruct (H lat pkt' x' eq_refl) as (_ & Hp & Hres). exists lat, pkt', x'. split; [done|].
  destruct (Hres eq_refl eq_refl) as ([c l] & Hsole & Hresp). vm_compute in Hsole. injection Hsole as <- <-.
  destruct Hresp as [Hc Hl]; [done|]. split; [done|]. split; [|done]. by rewrite Hl; vm_compute.
Defined.
