(* ===== verification/CacheBlk.v ===== *)
(** * Blocks of the classic caches ([CacheBlk], [mem/cache/blk.hh])

    A block has a tag, its state as an OR of status bits, its data and the list
    of the load-locked accesses to it, which decide whether a
    store-conditional succeeds. *)

From S2P Require Import Prelude IntMath MemPacket.

(** ** Status bits *)

Definition BlkValid : Z := 0x01.
Definition BlkWritable : Z := 0x02.
Definition BlkReadable : Z := 0x04.
Definition BlkDirty : Z := 0x08.
Definition BlkHWPrefetched : Z := 0x20.
Definition BlkSecure : Z := 0x40.

(** [ContextSwitchTaskId::Unknown], [Request::invldMasterId] *)
Definition Unknown_task : Z := 1024.
Definition invldMasterId : Z := 2 ^ 16 - 1.

(** ** State *)

Record Lock := mkLock { lk_contextId : Z; lowAddr : Z; highAddr : Z }.
#[export] Instance Lock_eq_dec : EqDecision Lock.
Proof. solve_decision. Defined.

Record CacheBlk := mkCacheBlk {
  task_id : Z;
  blk_tag : Z;
  blk_data : list Z;
  blk_status : Z;
  whenReady : Z;
  blk_set : Z;
  blk_way : Z;
  isTouched : bool;
  refCount : Z;
  srcMasterId : Z;
  tickInserted : Z;
  lockList : list Lock;
}.
#[export] Instance CacheBlk_settable : Settable CacheBlk := λ r,
  mkCacheBlk (task_id r) (blk_tag r) (blk_data r) (blk_status r) (whenReady r) (blk_set r) (blk_way r)
    (isTouched r) (refCount r) (srcMasterId r) (tickInserted r) (lockList r).

(** [data] is set by the owner of the block *)
Definition CacheBlk_new (data : list Z) : CacheBlk :=
  mkCacheBlk Unknown_task 0 data 0 0 (-1) (-1) false 0 invldMasterId 0 [].

Definition has_bits (b : CacheBlk) (needed_bits : Z) : bool := bool_decide (Z.land (blk_status b) needed_bits = needed_bits).
Definition has_bit (b : CacheBlk) (bit : Z) : bool := bool_decide (Z.land (blk_status b) bit ≠ 0).

Definition isWritable (b : CacheBlk) : bool := has_bits b (Z.lor BlkWritable BlkValid).
Definition isReadable (b : CacheBlk) : bool := has_bits b (Z.lor BlkReadable BlkValid).
Definition isValid (b : CacheBlk) : bool := has_bit b BlkValid.
Definition isDirty (b : CacheBlk) : bool := has_bit b BlkDirty.
Definition wasPrefetched (b : CacheBlk) : bool := has_bit b BlkHWPrefetched.
Definition blk_isSecure (b : CacheBlk) : bool := has_bit b BlkSecure.

(** [status |= bits] and [status &= ~bits] *)
Definition set_bits (bits : Z) (b : CacheBlk) : CacheBlk := b.{blk_status ::= Z.lor bits}.
Definition clear_bits (bits : Z) (b : CacheBlk) : CacheBlk := b.{blk_status ::= λ s, Z.ldiff s bits}.

Definition CacheBlk_invalidate (b : CacheBlk) : CacheBlk := b.{blk_status := 0}.{isTouched := false}.{lockList := [] }.

(** ** Locks *)

Definition req_range (r : Request) : res (Z * Z) :=
  low ← getPaddr r; n ← req_getSize r; Ok (low, u64 (low + n - 1)).

Definition lock_matches (l : Lock) (r : Request) : res bool :=
  '(req_low, req_high) ← req_range r;
  c ← contextId r;
  Ok (bool_decide (lk_contextId l = c ∧ req_low >= lowAddr l ∧ req_high <= highAddr l)).

Definition lock_intersects (l : Lock) (r : Request) : res bool :=
  '(req_low, req_high) ← req_range r;
  Ok (bool_decide (req_low <= highAddr l ∧ req_high >= lowAddr l)).

Definition Lock_new (r : Request) : res Lock :=
  c ← contextId r; '(low, high) ← req_range r; Ok (mkLock c low high).

(** a loop over the list that erases the locks for which [p] holds *)
Fixpoint erase_if (p : Lock → res bool) (l : list Lock) : res (list Lock) :=
  match l with
  | [] => Ok []
  | k :: l => b ← p k; l' ← erase_if p l; Ok (if (b : bool) then l' else k :: l')
  end.

(** the same loop that stops at the first *)
Fixpoint erase_first (p : Lock → res bool) (l : list Lock) : res (bool * list Lock) :=
  match l with
  | [] => Ok (false, [])
  | k :: l =>
      b ← p k;
      if (b : bool) then Ok (true, l) else '(found, l') ← erase_first p l; Ok (found, k :: l')
  end.

Definition CacheBlk_trackLoadLocked (pkt : Packet) (b : CacheBlk) : res CacheBlk :=
  if negb (isLLSC (pkt_cmd pkt)) then Fault AssertFailed else
  l ← erase_if (λ k, lock_intersects k (req pkt)) (lockList b);
  k ← Lock_new (req pkt); Ok (b.{lockList := k :: l}).

Definition clearLoadLocks (r : Request) (b : CacheBlk) : res CacheBlk :=
  l ← erase_if (λ k, i ← lock_intersects k r;
                     if (i : bool) then c ← contextId r; Ok (bool_decide (lk_contextId k ≠ c)) else Ok false)
               (lockList b);
  Ok (b.{lockList := l}).

(** whether the write should proceed, with the packet *)
Definition checkWrite (pkt : Packet) (b : CacheBlk) : res (bool * Packet * CacheBlk) :=
  if negb (isWrite (pkt_cmd pkt)) then Fault AssertFailed else
  if negb (isLLSC (pkt_cmd pkt)) && bool_decide (lockList b = []) then Ok (true, pkt, b) else
  if isLLSC (pkt_cmd pkt) then
    '(success, l) ← erase_first (λ k, lock_matches k (req pkt)) (lockList b);
    let pkt := pkt.{req ::= setExtraData (if (success : bool) then 1 else 0)} in
    b ← clearLoadLocks (req pkt) (b.{lockList := l});
    Ok (success, pkt, b)
  else b ← clearLoadLocks (req pkt) b; Ok (true, pkt, b).
