(* ===== verification/CacheTags.v ===== *)
(** * The tags of the classic caches ([mem/cache/tags])

    Set-associative tags ([BaseTags], [BaseSetAssoc], [CacheSet]) with the two
    replacement policies [LRU] and [RandomRepl].  A block is named by its
    index in the array [blks]; a set is the array of the names of its blocks. *)

From S2P Require Import Prelude IntMath Clock MemPacket CacheBlk.

(** ** State *)

Inductive policy := LRU | RandomRepl.
#[export] Instance policy_eq_dec : EqDecision policy.
Proof. solve_decision. Defined.

(** the parameters of the object, and what it uses of its owner: [cache->ticksToCycles], for its clock
    period, and [cache->system->maxMasters()].  [random k] is what the [k]-th call of
    [random_mt.random<int>(0, assoc - 1)] returns *)
Record TagParams := mkTagParams {
  tp_policy : policy;
  tp_size : Z;
  tp_block_size : Z;
  tp_assoc : Z;
  tag_latency : Z;
  data_latency : Z;
  sequential_access : bool;
  tp_clockPeriod : Z;
  maxMasters : Z;
  tp_random : nat → Z;
}.

Record TagStats := mkTagStats {
  replacements : Z;
  tagsInUse : Z;
  totalRefs : Z;
  sampledRefs : Z;
  warmupCycle : Z;
  occupancies : gmap Z Z;
  occupanciesTaskId : gmap Z Z;
  ageTaskId : gmap (Z * Z) Z;
  tagAccesses : Z;
  dataAccesses : Z;
}.
#[export] Instance TagStats_settable : Settable TagStats := λ r,
  mkTagStats (replacements r) (tagsInUse r) (totalRefs r) (sampledRefs r) (warmupCycle r) (occupancies r)
    (occupanciesTaskId r) (ageTaskId r) (tagAccesses r) (dataAccesses r).

Record CacheSet := mkCacheSet { set_assoc : Z; set_blks : list nat }.
#[export] Instance CacheSet_settable : Settable CacheSet := λ r, mkCacheSet (set_assoc r) (set_blks r).

Record Tags := mkTags {
  blkSize : Z;
  blkMask : Z;
  lookupLatency : Z;
  accessLatency : Z;
  warmupBound : Z;
  warmedUp : bool;
  numBlocks : Z;
  assoc : Z;
  allocAssoc : Z;
  numSets : Z;
  sets : list CacheSet;
  blks : list CacheBlk;
  setShift : Z;
  tagShift : Z;
  setMask : Z;
  tg_stats : TagStats;
  tg_draws : nat;
}.
#[export] Instance Tags_settable : Settable Tags := λ r,
  mkTags (blkSize r) (blkMask r) (lookupLatency r) (accessLatency r) (warmupBound r) (warmedUp r) (numBlocks r)
    (assoc r) (allocAssoc r) (numSets r) (sets r) (blks r) (setShift r) (tagShift r) (setMask r) (tg_stats r)
    (tg_draws r).

(** ** Construction *)

Definition TagStats_new : TagStats := mkTagStats 0 0 0 0 0 ∅ ∅ ∅ 0 0.

(** block [j] of set [i]; [data] is its part of the data storage *)
Definition new_block (i j : Z) (data : list Z) : CacheBlk :=
  (CacheBlk_invalidate (CacheBlk_new data)).{blk_tag := j}.{whenReady := 0}.{isTouched := false}
    .{blk_set := to_int i}.{blk_way := to_int j}.

(** [raw i] is what the [i]-th part of the data storage holds at first.  The size of the storage is
    computed as an [unsigned]: with 4 GiB or more it is too small for its parts *)
Definition BaseSetAssoc_new (P : TagParams) (raw : Z → list Z) : res Tags :=
  let blkSize := to_uint 32 (tp_block_size P) in
  let assoc := to_uint 32 (tp_assoc P) in
  way_size ← int_of (tp_block_size P * tp_assoc P);
  if decide (way_size = 0) then Fault UndefinedOp else
  let numSets := to_uint 32 (tp_size P `div` u64 way_size) in
  if decide (blkSize < 4) then Fault ExitCalled else
  if negb (isPowerOf2 blkSize) then Fault ExitCalled else
  if decide (numSets <= 0) then Fault ExitCalled else
  if negb (isPowerOf2 numSets) then Fault ExitCalled else
  if decide (assoc <= 0) then Fault ExitCalled else
  setShift ← floorLog2_u32 blkSize;
  setBits ← floorLog2_u32 numSets;
  let n := to_uint 32 (numSets * assoc) in
  if decide (numSets * assoc * blkSize >= 2 ^ 32) then Fault OutOfRange else
  Ok (mkTags blkSize (to_uint 32 (blkSize - 1)) (tag_latency P)
        (if sequential_access P then u64 (tag_latency P + data_latency P) else Z.max (tag_latency P) (data_latency P))
        (to_int n) false n assoc assoc numSets
        ((λ i, mkCacheSet (to_int assoc) ((λ j, Z.to_nat (i * assoc + j)) <$> seqZ 0 assoc)) <$> seqZ 0 numSets)
        ((λ k, new_block (k `div` assoc) (k `mod` assoc) (raw k)) <$> seqZ 0 n)
        setShift (setShift + setBits) (to_uint 32 (numSets - 1)) TagStats_new 0).

(** ** Addresses *)

Definition blkAlign (a : Z) (t : Tags) : Z := Z.land a (u64_not (blkMask t)).
Definition extractBlkOffset (a : Z) (t : Tags) : Z := to_int (Z.land a (blkMask t)).
Definition extractTag (a : Z) (t : Tags) : res Z := u64_shr a (tagShift t).
Definition extractSet (a : Z) (t : Tags) : res Z := s ← u64_shr a (setShift t); Ok (to_int (Z.land s (setMask t))).
Definition regenerateBlkAddr (tag set : Z) (t : Tags) : res Z :=
  hi ← u64_shl tag (tagShift t); lo ← u64_shl set (setShift t); Ok (Z.lor hi lo).

(** ** Sets *)

Definition block (t : Tags) (b : nat) : res CacheBlk := of_option OutOfRange (blks t !! b).

(** the ways from [i] on, of which there are [n] *)
Fixpoint findBlk_from (t : Tags) (l : list nat) (tag : Z) (is_secure : bool) (n : nat) (i : Z) : res (option nat * Z) :=
  match n with
  | O => Ok (None, i)
  | S n =>
      b ← vget l i; blk ← block t b;
      if bool_decide (blk_tag blk = tag) && isValid blk && Bool.eqb (blk_isSecure blk) is_secure then Ok (Some b, i)
      else findBlk_from t l tag is_secure n (i + 1)
  end.

(** the block and its [way_id] *)
Definition findBlk (t : Tags) (s : CacheSet) (tag : Z) (is_secure : bool) : res (option nat * Z) :=
  findBlk_from t (set_blks s) tag is_secure (Z.to_nat (set_assoc s)) 0.

(** the loop that writes [next] to the way [i] and what was there to the following way, until it
    meets [blk]; [n] ways are left before the assertion fails *)
Fixpoint shift_ways (step : Z) (blk : nat) (n : nat) (i : Z) (next : nat) (l : list nat) : res (list nat) :=
  match n with
  | O => Fault AssertFailed
  | S n =>
      x ← vget l i;
      let l := vinsert i next l in
      if decide (x = blk) then Ok l else shift_ways step blk n (i + step) x l
  end.

Definition moveToHead (blk : nat) (s : CacheSet) : res CacheSet :=
  x ← vget (set_blks s) 0;
  if decide (x = blk) then Ok s
  else l ← shift_ways 1 blk (Z.to_nat (set_assoc s)) 0 blk (set_blks s); Ok (s.{set_blks := l}).

Definition moveToTail (blk : nat) (s : CacheSet) : res CacheSet :=
  x ← vget (set_blks s) (set_assoc s - 1);
  if decide (x = blk) then Ok s
  else l ← shift_ways (-1) blk (Z.to_nat (set_assoc s)) (set_assoc s - 1) blk (set_blks s); Ok (s.{set_blks := l}).

(** ** The operations of both policies *)

Section tags.
Context (P : TagParams) (now : Z).

Definition on_blk (b : nat) (f : CacheBlk → CacheBlk) : M Tags unit :=
  t ← get; lift (block t b) ;; modify (λ t, t.{blks ::= alter f b}).
Definition on_set (i : Z) (f : CacheSet → res CacheSet) : M Tags unit :=
  t ← get; s ← lift (vget (sets t) i); s ← lift (f s); modify (λ t, t.{sets ::= vinsert i s}).
Definition tally (f : TagStats → TagStats) : M Tags unit := modify (λ t, t.{tg_stats ::= f}).

Definition findBlock (a : Z) (is_secure : bool) (t : Tags) : res (option nat) :=
  tag ← extractTag a t; set ← extractSet a t;
  s ← vget (sets t) set; r ← findBlk t s tag is_secure; Ok r.1.
Definition findBlockBySetAndWay (set way : Z) (t : Tags) : res nat := s ← vget (sets t) set; vget (set_blks s) way.

Definition base_invalidate (b : nat) : M Tags unit :=
  t ← get; blk ← lift (block t b);
  check (isValid blk) ;;
  tally (λ s, s.{tagsInUse ::= Z.pred}) ;;
  check (bool_decide (srcMasterId blk < maxMasters P)) ;;
  tally (λ s, s.{occupancies ::= bump (srcMasterId blk) (-1)}) ;;
  on_blk b (λ k, k.{srcMasterId := invldMasterId}.{task_id := Unknown_task}.{tickInserted := now}).

(** the latency of a hit *)
Definition hit_latency (blk : CacheBlk) (t : Tags) : res Z :=
  if decide (whenReady blk > now) then
    c ← ticksToCycles (tp_clockPeriod P) (whenReady blk - now);
    Ok (if decide (c > accessLatency t) then u64 (c + accessLatency t) else accessLatency t)
  else Ok (accessLatency t).

(** the block and the latency *)
Definition base_accessBlock (a : Z) (is_secure : bool) : M Tags (option nat * Z) :=
  t ← get;
  b ← lift (findBlock a is_secure t);
  tally (λ s, s.{tagAccesses ::= Z.add (allocAssoc t)}) ;;
  (if sequential_access P then
     when (bool_decide (b ≠ None)) (tally (λ s, s.{dataAccesses ::= Z.add 1}))
   else tally (λ s, s.{dataAccesses ::= Z.add (allocAssoc t)})) ;;
  match b with
  | Some b =>
      blk ← lift (block t b); lat ← lift (hit_latency blk t);
      on_blk b (λ k, k.{refCount ::= λ n, to_uint 32 (n + 1)}) ;; mret (Some b, lat)
  | None => mret (None, lookupLatency t)
  end.

(** the first block that is not valid among the [n] ways from [i] on, or the last of them *)
Fixpoint first_invalid (t : Tags) (l : list nat) (n : nat) (i : Z) (blk : option nat) : res (option nat) :=
  match n with
  | O => Ok blk
  | S n =>
      b ← vget l i; k ← block t b;
      if isValid k then first_invalid t l n (i + 1) (Some b) else Ok (Some b)
  end.
Definition base_findVictim (a : Z) (t : Tags) : res (option nat) :=
  set ← extractSet a t; s ← vget (sets t) set;
  first_invalid t (set_blks s) (Z.to_nat (allocAssoc t)) 0 None.

(** a block that is not touched counts as used from now on *)
Definition touch_block (b : nat) : M Tags unit :=
  tally (λ s, s.{tagsInUse ::= Z.succ}) ;;
  on_blk b (λ k, k.{isTouched := true}) ;;
  t ← get;
  when (negb (warmedUp t) && bool_decide (tagsInUse (tg_stats t) >= warmupBound t))
    (modify (λ t, t.{warmedUp := true}) ;; tally (λ s, s.{warmupCycle := now})).
(** the valid block [blk] leaves the statistics and is invalidated *)
Definition replace_block (b : nat) (blk : CacheBlk) : M Tags unit :=
  tally (λ s, s.{replacements ::= Z.succ}.{totalRefs ::= Z.add (refCount blk)}.{sampledRefs ::= Z.succ}) ;;
  on_blk b (λ k, k.{refCount := 0}) ;;
  check (bool_decide (srcMasterId blk < maxMasters P)) ;;
  tally (λ s, s.{occupancies ::= bump (srcMasterId blk) (-1)}) ;;
  on_blk b CacheBlk_invalidate.

Definition base_insertBlock (pkt : Packet) (b : nat) : M Tags unit :=
  a ← lift (getAddr pkt);
  let master_id := masterId (req pkt) in
  t ← get; blk ← lift (block t b);
  when (negb (isTouched blk)) (touch_block b) ;;
  when (isValid blk) (replace_block b blk) ;;
  tag ← lift (extractTag a t);
  on_blk b (λ k, k.{isTouched := true}.{blk_tag := tag}) ;;
  check (bool_decide (master_id < maxMasters P)) ;;
  tally (λ s, s.{occupancies ::= bump master_id 1}) ;;
  on_blk b (λ k, k.{srcMasterId := master_id}.{task_id := taskId (req pkt)}.{tickInserted := now}) ;;
  tally (λ s, s.{tagAccesses ::= Z.succ}.{dataAccesses ::= Z.succ}).

Definition setWayAllocationMax (ways : Z) : M Tags unit :=
  if decide (ways < 1) then throw ExitCalled else modify (λ t, t.{allocAssoc := ways}).
Definition getWayAllocationMax (t : Tags) : Z := to_int (allocAssoc t).

(** [forEachBlk]: the visitor, which may change more than the tags, is given the blocks in order until it returns
    [false] *)
Fixpoint visit_from {S} (visitor : nat → M S bool) (n : nat) (i : nat) : M S unit :=
  match n with
  | O => mret tt
  | S n => go ← visitor i; if (go : bool) then visit_from visitor n (Datatypes.S i) else mret tt
  end.
Definition forEachBlk {S} (t : Tags) (visitor : nat → M S bool) : M S unit :=
  visit_from visitor (Z.to_nat (to_uint 32 (numSets t * assoc t))) 0.

(** ** Statistics of the blocks *)

Definition cleanupRefs : M Tags unit :=
  t ← get;
  for_each (blks t) (λ blk,
    when (isValid blk) (tally (λ s, s.{totalRefs ::= Z.add (refCount blk)}.{sampledRefs ::= Z.succ}))).

(** [us] and [ms] are [SimClock::Int::us] and [ms]; a map without a key counts 0 *)
Definition age_index (us ms age : Z) : Z :=
  if decide (age `div` us < 10) then 0 else if decide (age `div` us < 100) then 1
  else if decide (age `div` ms < 1) then 2 else if decide (age `div` ms < 10) then 3 else 4.
Definition computeStats (us ms : Z) : M Tags unit :=
  tally (λ s, s.{occupanciesTaskId := ∅}.{ageTaskId := ∅}) ;;
  t ← get;
  for_each (blks t) (λ blk,
    when (isValid blk)
      (check (bool_decide (task_id blk < 1025)) ;;
       tally (λ s, s.{occupanciesTaskId ::= bump (task_id blk) 1}) ;;
       check (bool_decide (tickInserted blk <= now)) ;;
       tally (λ s, s.{ageTaskId ::= bump (task_id blk, age_index us ms (now - tickInserted blk)) 1}))).

(** ** The policies *)

Definition accessBlock (a : Z) (is_secure : bool) : M Tags (option nat * Z) :=
  r ← base_accessBlock a is_secure;
  match tp_policy P, r.1 with
  | LRU, Some b => t ← get; blk ← lift (block t b); on_set (blk_set blk) (moveToHead b) ;; mret r
  | _, _ => mret r
  end.

(** the ways [n - 1], ..., [0] *)
Fixpoint last_allocatable (t : Tags) (l : list nat) (n : nat) : res (option nat) :=
  match n with
  | O => Ok None
  | S n =>
      b ← vget l (Z.of_nat n); blk ← block t b;
      if decide (to_uint 32 (blk_way blk) < allocAssoc t) then Ok (Some b) else last_allocatable t l n
  end.

(** steps from way [idx] to the next that may be allocated; [n] bounds the steps *)
Fixpoint next_allocatable (t : Tags) (l : list nat) (n : nat) (idx : Z) : res nat :=
  b ← vget l idx; blk ← block t b;
  if decide (to_uint 32 (blk_way blk) < allocAssoc t) then Ok b
  else match n with O => Fault OutOfFuel | S n => next_allocatable t l n (Z.rem (idx + 1) (assoc t)) end.

Definition findVictim (a : Z) : M Tags (option nat) :=
  t ← get;
  match tp_policy P with
  | LRU =>
      set ← lift (extractSet a t); s ← lift (vget (sets t) set);
      lift (last_allocatable t (set_blks s) (Z.to_nat (assoc t)))
  | RandomRepl =>
      b ← lift (base_findVictim a t);
      set ← lift (extractSet a t);
      match b with
      | Some b =>
          blk ← lift (block t b);
          if isValid blk then
            let idx := tp_random P (tg_draws t) in
            modify (λ t, t.{tg_draws ::= S}) ;;
            s ← lift (vget (sets t) set);
            b ← lift (next_allocatable t (set_blks s) (Z.to_nat (assoc t)) idx); mret (Some b)
          else mret (Some b)
      | None => mret None
      end
  end.

Definition insertBlock (pkt : Packet) (b : nat) : M Tags unit :=
  base_insertBlock pkt b ;;
  match tp_policy P with
  | LRU => a ← lift (getAddr pkt); t ← get; set ← lift (extractSet a t); on_set set (moveToHead b)
  | RandomRepl => mret tt
  end.

Definition tags_invalidate (b : nat) : M Tags unit :=
  base_invalidate b ;;
  match tp_policy P with
  | LRU => t ← get; blk ← lift (block t b); on_set (blk_set blk) (moveToTail b)
  | RandomRepl => mret tt
  end.
End tags.
