(* ===== verification/LruSpec.v ===== *)
(** * What the LRU tags store

    The set-associative tags with least-recently-used replacement against a
    specification: for every set the list of the lines it holds, the one that was
    used last first, with at most as many lines as the set has ways. *)

From Stdlib Require Import ZifyBool.
From S2P Require Import Prelude IntMath Clock MemPacket CacheBlk CacheTags.

Lemma list_alter_insert {B} (f : B → B) (l : list B) i x : l !! i = Some x → alter f i l = <[i := f x]> l.
Proof.
  intros Hx. apply list_eq. intros j. destruct (decide (i = j)) as [->|Hne].
  - rewrite list_lookup_alter_eq, list_lookup_insert_eq, Hx by (by eapply lookup_lt_Some). done.
  - by rewrite list_lookup_alter_ne, list_lookup_insert_ne.
Qed.

(** ** Moving a block to an end of its set *)

Lemma shift_up b n next pre mid post :
  b ∉ mid → (length mid < n)%nat →
  shift_ways 1 b n (zlength pre) next (pre ++ mid ++ b :: post) = Ok (pre ++ next :: mid ++ post).
Proof.
  revert n next pre. induction mid as [|x mid IH]; intros n next pre Hb Hn; (destruct n as [|n]; [simpl in Hn; lia|]);
    cbn [shift_ways app].
  - unfold vget, zlength. rewrite vlookup_nat, list_lookup_middle by done. cbn.
    rewrite decide_True by done. unfold vinsert. rewrite decide_True by lia. rewrite Nat2Z.id.
    by rewrite insert_app_r_alt, Nat.sub_diag by done.
  - unfold vget, zlength. rewrite vlookup_nat, list_lookup_middle by done. cbn [of_option mbind res_bind].
    apply not_elem_of_cons in Hb as [Hne Hb]. rewrite decide_False by congruence.
    unfold vinsert. rewrite decide_True by lia. rewrite Nat2Z.id, insert_app_r_alt, Nat.sub_diag by done. cbn [list_insert].
    specialize (IH n x (pre ++ [next]) Hb ltac:(simpl in Hn; lia)).
    unfold zlength in IH. rewrite length_app in IH. cbn [length] in IH.
    replace (Z.of_nat (length pre) + 1) with (Z.of_nat (length pre + 1)) by lia.
    rewrite <-!app_assoc in IH. cbn [app] in IH. exact IH.
Qed.

Lemma shift_down b n next pre mid post :
  b ∉ mid → (length mid < n)%nat →
  shift_ways (-1) b n (zlength pre + zlength mid) next (pre ++ b :: mid ++ post) = Ok (pre ++ mid ++ next :: post).
Proof.
  revert n next post. induction mid as [|x mid IH] using rev_ind; intros n next post Hb Hn;
    (destruct n as [|n]; [simpl in Hn; lia|]); cbn [shift_ways app].
  - unfold vget, zlength. rewrite Z.add_0_r, vlookup_nat, list_lookup_middle by done. cbn.
    rewrite decide_True by done. unfold vinsert. rewrite decide_True by lia. rewrite Nat2Z.id.
    by rewrite insert_app_r_alt, Nat.sub_diag by done.
  - rewrite not_elem_of_app in Hb. destruct Hb as [Hb Hne]. rewrite length_app in Hn. cbn [length] in Hn.
    unfold zlength. rewrite length_app. cbn [length].
    replace (Z.of_nat (length pre) + Z.of_nat (length mid + 1)) with (Z.of_nat (length (pre ++ b :: mid)))
      by (rewrite length_app; cbn [length]; lia).
    replace (pre ++ b :: (mid ++ [x]) ++ post) with ((pre ++ b :: mid) ++ x :: post)
      by (by rewrite <-!app_assoc).
    unfold vget. rewrite vlookup_nat, list_lookup_middle by done. cbn [of_option mbind res_bind].
    rewrite decide_False by (intros ->; apply Hne; by left).
    unfold vinsert. rewrite decide_True by lia. rewrite Nat2Z.id, insert_app_r_alt, Nat.sub_diag by done. cbn [list_insert].
    specialize (IH n x (next :: post) Hb ltac:(lia)). unfold zlength in IH.
    replace (Z.of_nat (length (pre ++ b :: mid)) + -1) with (Z.of_nat (length pre) + Z.of_nat (length mid))
      by (rewrite length_app; cbn [length]; lia).
    rewrite <-app_assoc. cbn [app insert list_insert]. rewrite IH. by rewrite <-!app_assoc.
Qed.

Lemma vget_middle {B} (l1 l2 : list B) x i : i = zlength l1 → vget (l1 ++ x :: l2) i = Ok x.
Proof. intros ->. unfold vget, zlength. by rewrite vlookup_nat, list_lookup_middle. Qed.

Lemma moveToHead_run A b l1 l2 :
  A = zlength (l1 ++ b :: l2) → b ∉ l1 →
  moveToHead b (mkCacheSet A (l1 ++ b :: l2)) = Ok (mkCacheSet A (b :: l1 ++ l2)).
Proof.
  intros -> Hb. unfold moveToHead. cbn [set_blks set_assoc].
  destruct l1 as [|x l1]; cbn [app].
  - rewrite (vget_middle [] l2 b) by done. cbn. by rewrite decide_True.
  - rewrite (vget_middle [] (l1 ++ b :: l2) x) by done. apply not_elem_of_cons in Hb as [Hne Hb].
    cbn [mbind res_bind]. rewrite decide_False by congruence.
    pose proof (shift_up b (Z.to_nat (zlength (x :: l1 ++ b :: l2))) b [] (x :: l1) l2) as Hs. cbn [app] in Hs.
    change (zlength []) with 0 in Hs. rewrite Hs; [done| |].
    + by apply not_elem_of_cons.
    + unfold zlength. cbn [length]. rewrite length_app. cbn [length]. lia.
Qed.

Lemma moveToTail_run A b l1 l2 :
  A = zlength (l1 ++ b :: l2) → b ∉ l2 →
  moveToTail b (mkCacheSet A (l1 ++ b :: l2)) = Ok (mkCacheSet A (l1 ++ l2 ++ [b])).
Proof.
  intros -> Hb. unfold moveToTail. cbn [set_blks set_assoc].
  destruct l2 as [|y l2 _] using rev_ind.
  - rewrite vget_middle by (unfold zlength; rewrite length_app; cbn [length]; lia). cbn. by rewrite decide_True.
  - rewrite not_elem_of_app in Hb. destruct Hb as [Hb Hne].
    assert (Hlast : zlength (l1 ++ b :: l2 ++ [y]) - 1 = zlength l1 + zlength (l2 ++ [y])).
    { unfold zlength. rewrite !length_app. cbn [length]. rewrite !length_app. cbn [length]. lia. }
    rewrite Hlast. assert (Hy : vget (l1 ++ b :: l2 ++ [y]) (zlength l1 + zlength (l2 ++ [y])) = Ok y).
    { replace (l1 ++ b :: l2 ++ [y]) with ((l1 ++ b :: l2) ++ y :: []) by (by rewrite <-app_assoc).
      apply vget_middle. unfold zlength. rewrite !length_app. cbn [length]. lia. }
    rewrite Hy. cbn [mbind res_bind]. rewrite decide_False by (intros ->; apply Hne; by left).
    pose proof (shift_down b (Z.to_nat (zlength (l1 ++ b :: l2 ++ [y]))) b l1 (l2 ++ [y]) []) as Hs.
    rewrite app_nil_r in Hs. rewrite Hs; [done| |].
    + rewrite not_elem_of_app. done.
    + unfold zlength. rewrite !length_app. cbn [length]. rewrite length_app. cbn [length]. lia.
Qed.

(** ** The specification

    A line is named by the address of its first byte and the memory space it is in. *)

Definition entry : Type := Z * bool.

Definition lru_touch (e : entry) (l : list entry) : list entry := e :: filter (λ x, x ≠ e) l.
Definition lru_request (ways : nat) (e : entry) (l : list entry) : list entry := take ways (lru_touch e l).
(** the line that has to leave *)
Definition lru_evicted (ways : nat) (e : entry) (l : list entry) : option entry := lru_touch e l !! ways.
Definition lru_drop (e : entry) (l : list entry) : list entry := filter (λ x, x ≠ e) l.

Definition at_set (i : Z) (l : list entry) (S : Z → list entry) : Z → list entry :=
  λ j, if decide (j = i) then l else S j.

(** ** What a cache does with its tags *)

Inductive tag_op :=
  | TRequest (pkt : Packet)
  | TInvalidate (a : Z) (is_secure : bool).

Section ops.
Context (P : TagParams) (now : Z).

(** a request that allocates the line when it misses: whether it hit, and the line that was evicted *)
Definition request (pkt : Packet) : M Tags (bool * option entry) :=
  a ← lift (getAddr pkt); is_secure ← lift (isSecure pkt);
  r ← accessBlock P now a is_secure;
  match r.1 with
  | Some b => mret (true, None)
  | None =>
      v ← findVictim P a; b ← nonnull v;
      t ← get; blk ← lift (block t b);
      evicted ← (if isValid blk then
                   a' ← lift (regenerateBlkAddr (blk_tag blk) (to_uint 32 (blk_set blk)) t);
                   mret (Some (a', blk_isSecure blk))
                 else mret None : M Tags (option entry));
      insertBlock P now pkt b ;;
      on_blk b (set_bits (Z.lor BlkValid (Z.lor BlkReadable (if (is_secure : bool) then BlkSecure else 0)))) ;;
      mret (false, evicted)
  end.

Definition invalidate_line (a : Z) (is_secure : bool) : M Tags bool :=
  t ← get; b ← lift (findBlock a is_secure t);
  match b with
  | Some b => tags_invalidate P now b ;; on_blk b CacheBlk_invalidate ;; mret true
  | None => mret false
  end.

Definition run_tag_op (op : tag_op) : M Tags (bool * option entry) :=
  match op with
  | TRequest pkt => request pkt
  | TInvalidate a is_secure => b ← invalidate_line a is_secure; mret (b : bool, None)
  end.
End ops.

Fixpoint run_tag_ops (P : TagParams) (ops : list (Z * tag_op)) : M Tags (list (bool * option entry)) :=
  match ops with
  | [] => mret []
  | (now, op) :: ops => r ← run_tag_op P now op; rs ← run_tag_ops P ops; mret (r :: rs)
  end.

(** ** The relation *)

(** the geometry: lines of [2 ^ k] bytes, [2 ^ m] sets *)
Record params_ok (P : TagParams) (k m : Z) : Prop := {
  pk_policy : tp_policy P = LRU;
  pk_block : tp_block_size P = 2 ^ k;
  pk_size : tp_size P = 2 ^ m * (2 ^ k * tp_assoc P);
  pk_min : 2 ≤ k ∧ 0 ≤ m ∧ 0 < tp_assoc P;
  pk_max : 2 ^ m * (2 ^ k * tp_assoc P) < 2 ^ 31;
  pk_clock : tp_clockPeriod P ≠ 0;
}.

Section spec.
Context (P : TagParams) (k m : Z) (HP : params_ok P k m).
Notation A := (tp_assoc P).

Definition set_of (a : Z) : Z := (a / 2 ^ k) `mod` 2 ^ m.
Definition line_of (a : Z) : Z := a / 2 ^ k * 2 ^ k.

Definition spec_tag_op (op : tag_op) (S : Z → list entry) : bool * option entry * (Z → list entry) :=
  match op with
  | TRequest pkt =>
      let a := default 0 (pkt_addr pkt) in
      let e := (line_of a, _isSecure pkt) in let i := set_of a in
      (bool_decide (e ∈ S i), lru_evicted (Z.to_nat A) e (S i), at_set i (lru_request (Z.to_nat A) e (S i)) S)
  | TInvalidate a is_secure =>
      let e := (line_of a, is_secure) in let i := set_of a in
      (bool_decide (e ∈ S i), None, at_set i (lru_drop e (S i)) S)
  end.

Fixpoint spec_tag_ops (ops : list tag_op) (S : Z → list entry) : list (bool * option entry) * (Z → list entry) :=
  match ops with
  | [] => ([], S)
  | op :: ops => let r := spec_tag_op op S in let rs := spec_tag_ops ops r.2 in (r.1 :: rs.1, rs.2)
  end.

Definition geometry (t : Tags) : Prop :=
  (setShift t, tagShift t, setMask t, assoc t, allocAssoc t, blkMask t, numSets t) =
  (k, k + m, 2 ^ m - 1, A, A, 2 ^ k - 1, 2 ^ m).

Definition blk_of (t : Tags) (b : nat) : CacheBlk := default (CacheBlk_new []) (blks t !! b).
Definition entry_of (i : Z) (c : CacheBlk) : entry := (blk_tag c * 2 ^ (k + m) + i * 2 ^ k, blk_isSecure c).
Definition entries (t : Tags) (i : Z) (l : list nat) : list entry := (λ b, entry_of i (blk_of t b)) <$> l.
(** the blocks of set [i] *)
Definition ways (i : Z) : list nat := seq (Z.to_nat (i * A)) (Z.to_nat A).

(** set [i] holds valid blocks [L], the last used first, before the others *)
Record view (t : Tags) (i : Z) (L D : list nat) : Prop := {
  vw_set : sets t !z i = Some (mkCacheSet A (L ++ D));
  vw_ways : L ++ D ≡ₚ ways i;
  vw_live : Forall (λ b, isValid (blk_of t b) = true) L;
  vw_dead : Forall (λ b, isValid (blk_of t b) = false) D;
}.

Definition blk_ok (b : nat) (c : CacheBlk) : Prop :=
  blk_set c = Z.of_nat b / A ∧ blk_way c = Z.of_nat b `mod` A ∧
  (isValid c = true → srcMasterId c < maxMasters P ∧ 0 ≤ blk_tag c < 2 ^ (64 - k - m)) ∧
  (isValid c = false → blk_status c = 0 ∧ lockList c = []).

Record lru_abs (t : Tags) (S : Z → list entry) : Prop := {
  la_geometry : geometry t;
  la_sets : zlength (sets t) = 2 ^ m;
  la_length : zlength (blks t) = 2 ^ m * A;
  la_blks : ∀ b c, blks t !! b = Some c → blk_ok b c;
  la_view : ∀ i, 0 ≤ i < 2 ^ m → ∃ L D, view t i L D ∧ entries t i L = S i ∧ NoDup (S i);
}.

(** ** Addresses *)

Lemma sizes : 0 < A ∧ 0 < 2 ^ m ∧ 0 < 2 ^ k ∧ 2 ^ m < 2 ^ 31 ∧ 2 ^ m * A < 2 ^ 31 ∧ 2 ^ (k + m) = 2 ^ m * 2 ^ k ∧ k + m < 64.
Proof using HP.
  destruct (pk_min _ _ _ HP) as (Hk & Hm & HA). pose proof (pk_max _ _ _ HP).
  assert (0 < 2 ^ k) by (apply Z.pow_pos_nonneg; lia). assert (0 < 2 ^ m) by (apply Z.pow_pos_nonneg; lia).
  assert (Hp : 2 ^ (k + m) = 2 ^ m * 2 ^ k) by (rewrite Z.pow_add_r by lia; lia).
  assert (2 ^ (k + m) < 2 ^ 31) by nia. assert (k + m < 31) by (apply (Z.pow_lt_mono_r_iff 2); lia).
  repeat split; try lia; nia.
Qed.

Lemma set_range a : 0 ≤ set_of a < 2 ^ m.
Proof using HP. unfold set_of. pose proof sizes. apply Z.mod_pos_bound. lia. Qed.

Lemma extract_run t a :
  geometry t → 0 ≤ a → extractTag a t = Ok (a / 2 ^ (k + m)) ∧ extractSet a t = Ok (set_of a).
Proof using HP.
  intros [= Hs Ht Hm _ _ _ _] Ha. destruct (pk_min _ _ _ HP). pose proof sizes. pose proof (set_range a).
  unfold extractTag, extractSet, u64_shr. rewrite Hs, Ht, Hm, !decide_True by lia. cbn [mbind res_bind].
  rewrite !Z.shiftr_div_pow2 by lia. split; [done|]. f_equal. unfold set_of in *.
  replace (2 ^ m - 1) with (Z.ones m) by (rewrite Z.ones_equiv; lia). rewrite Z.land_ones by lia.
  apply to_int_small. lia.
Qed.

Lemma line_parts a : line_of a = a / 2 ^ (k + m) * 2 ^ (k + m) + set_of a * 2 ^ k.
Proof using HP.
  pose proof sizes. destruct (pk_min _ _ _ HP). unfold line_of, set_of. rewrite Z.pow_add_r by lia.
  rewrite <-Z.div_div by lia. pose proof (Z.div_mod (a / 2 ^ k) (2 ^ m)). nia.
Qed.

(** in one set the entry tells the tag *)
Lemma entry_is i c tag sec :
  entry_of i c = (tag * 2 ^ (k + m) + i * 2 ^ k, sec) ↔ blk_tag c = tag ∧ blk_isSecure c = sec.
Proof using HP.
  pose proof sizes. unfold entry_of. split; [|intros [-> ->]; done]. intros [= He Hsec]. split; [nia|done].
Qed.

(** the address of a block can be computed again from its tag and set *)
Lemma regenerate_run t i c :
  geometry t → 0 ≤ i < 2 ^ m → 0 ≤ blk_tag c < 2 ^ (64 - k - m) →
  regenerateBlkAddr (blk_tag c) (to_uint 32 i) t = Ok (entry_of i c).1.
Proof using HP.
  intros [= Hs Ht _ _ _ _ _] Hi Hc. pose proof sizes. destruct (pk_min _ _ _ HP).
  unfold regenerateBlkAddr, u64_shl. rewrite Hs, Ht, !decide_True by lia. cbn [mbind res_bind].
  rewrite to_uint_small by lia. rewrite !Z.shiftl_mul_pow2 by lia.
  assert (2 ^ (64 - k - m) * 2 ^ (k + m) = 2 ^ 64) by (rewrite <-Z.pow_add_r by lia; f_equal; lia).
  rewrite !u64_small by (unfold is_u64; nia). f_equal. cbn.
  rewrite <-Z.lxor_lor; [rewrite <-Z.add_nocarry_lxor; [done|]|]; (apply Z.bits_inj'; intros n Hn);
    rewrite Z.land_spec, Z.bits_0; (destruct (Z.ltb_spec n (k + m)); [by rewrite Z.mul_pow2_bits_low by lia|]);
    rewrite <-(Z.mod_small (i * 2 ^ k) (2 ^ (k + m))) by nia; by rewrite Z.mod_pow2_bits_high, andb_false_r by lia.
Qed.

(** ** Sets *)

Lemma elem_of_ways i b : 0 ≤ i → b ∈ ways i ↔ Z.of_nat b / A = i.
Proof using HP.
  intros Hi. pose proof sizes. unfold ways. rewrite elem_of_seq. split.
  - intros Hb. symmetry. apply (Z.div_unique _ _ _ (Z.of_nat b - i * A)); nia.
  - intros <-. pose proof (Z.div_mod (Z.of_nat b) A). pose proof (Z.mod_pos_bound (Z.of_nat b) A). nia.
Qed.

Lemma view_nodup t i L D : view t i L D → NoDup (L ++ D).
Proof. intros Hv. rewrite (vw_ways _ _ _ _ Hv). apply NoDup_seq. Qed.

Lemma view_length t i L D : view t i L D → A = zlength (L ++ D) ∧ length (L ++ D) = Z.to_nat A.
Proof using HP.
  intros Hv. unfold zlength. rewrite (vw_ways _ _ _ _ Hv). unfold ways. rewrite length_seq. pose proof sizes. lia.
Qed.

Lemma block_at t b c : blks t !! b = Some c → blk_of t b = c.
Proof. unfold blk_of. by intros ->. Qed.

Lemma way_block t i b :
  zlength (blks t) = 2 ^ m * A → 0 ≤ i < 2 ^ m → b ∈ ways i → blks t !! b = Some (blk_of t b).
Proof using HP.
  intros Hl Hi Hb. pose proof sizes. unfold ways in Hb. apply elem_of_seq in Hb.
  destruct (lookup_lt_is_Some_2 (blks t) b) as [c Hc]; [unfold zlength in Hl; nia|].
  by rewrite Hc, (block_at t b c).
Qed.

Lemma block_run t b c : blks t !! b = Some c → block t b = Ok c.
Proof. unfold block. by intros ->. Qed.

Definition hit (t : Tags) (tag : Z) (sec : bool) (b : nat) : Prop :=
  isValid (blk_of t b) = true ∧ blk_tag (blk_of t b) = tag ∧ blk_isSecure (blk_of t b) = sec.

Lemma findBlk_from_run t tag sec l pre :
  Forall (λ b, blks t !! b = Some (blk_of t b)) l →
  ∃ r, findBlk_from t (pre ++ l) tag sec (length l) (zlength pre) = Ok r ∧
    match r.1 with
    | Some b => ∃ l1 l2, l = l1 ++ b :: l2 ∧ hit t tag sec b
    | None => ∀ b, b ∈ l → ¬ hit t tag sec b
    end.
Proof.
  intros Hl. revert pre. induction Hl as [|b l Hb Hl IH]; intros pre; cbn [findBlk_from length].
  { eexists. split; [done|]. cbn. intros b Hb. by apply not_elem_of_nil in Hb. }
  rewrite vget_middle by done. cbn [mbind res_bind]. rewrite (block_run _ _ _ Hb). cbn [mbind res_bind].
  destruct (bool_decide (blk_tag (blk_of t b) = tag) && isValid (blk_of t b) && Bool.eqb (blk_isSecure (blk_of t b)) sec)
    eqn:Hhit.
  - apply andb_true_iff in Hhit as [[Htag Hv]%andb_true_iff Hsec]. apply bool_decide_eq_true in Htag.
    apply eqb_prop in Hsec. eexists. split; [done|]. exists [], l. by repeat split.
  - specialize (IH (pre ++ [b])). rewrite <-app_assoc in IH. cbn [app] in IH.
    replace (zlength (pre ++ [b])) with (zlength pre + 1) in IH
      by (unfold zlength; rewrite length_app; cbn [length]; lia).
    destruct IH as (r & Hr & Hspec). exists r. split; [done|]. destruct r.1 as [c|].
    + destruct Hspec as (l1 & l2 & -> & Hc). by exists (b :: l1), l2.
    + intros c [->|Hc]%elem_of_cons; [|by apply Hspec]. intros (Hv & <- & <-).
      rewrite bool_decide_eq_true_2, Hv, eqb_reflx in Hhit by done. done.
Qed.

(** where an address is in its set *)
Lemma findBlock_run t S a sec :
  lru_abs t S → 0 ≤ a →
  ∃ L D, view t (set_of a) L D ∧ entries t (set_of a) L = S (set_of a) ∧
    ((∃ b l1 l2, findBlock a sec t = Ok (Some b) ∧ L = l1 ++ b :: l2 ∧ entry_of (set_of a) (blk_of t b) = (line_of a, sec)) ∨
     (findBlock a sec t = Ok None ∧ (line_of a, sec) ∉ S (set_of a))).
Proof using HP.
  intros Habs Ha. destruct (extract_run t a (la_geometry _ _ Habs) Ha) as [Ht Hs].
  pose proof (set_range a) as Hi. destruct (la_view _ _ Habs _ Hi) as (L & D & Hv & He & Hnd).
  exists L, D. split; [done|]. split; [done|]. unfold findBlock. rewrite Ht, Hs. cbn [mbind res_bind].
  rewrite (vget_Some _ _ _ (vw_set _ _ _ _ Hv)). cbn [mbind res_bind]. unfold findBlk. cbn [set_blks set_assoc].
  destruct (findBlk_from_run t (a / 2 ^ (k + m)) sec (L ++ D) []) as (r & Hr & Hspec).
  { apply Forall_forall. intros b Hb. apply (way_block t (set_of a)); [by eapply la_length|done|].
    by rewrite <-(vw_ways _ _ _ _ Hv). }
  rewrite (proj2 (view_length _ _ _ _ Hv)) in Hr. cbn [app] in Hr. change (zlength []) with 0 in Hr.
  rewrite Hr. cbn [mbind res_bind]. rewrite line_parts. destruct r.1 as [b|].
  - left. destruct Hspec as (l1 & l2 & Heq & Hval & Htag & Hsec).
    assert (Hb : b ∈ L).
    { assert (Hin : b ∈ L ++ D) by (rewrite Heq; apply elem_of_app; right; by left).
      apply elem_of_app in Hin as [|Hin]; [done|].
      pose proof (proj1 (Forall_forall _ _) (vw_dead _ _ _ _ Hv) b Hin) as Hd. congruence. }
    apply list_elem_of_split in Hb as (k1 & k2 & ->). exists b, k1, k2. do 2 (split; [done|]).
    apply entry_is. done.
  - right. split; [done|]. rewrite <-He. unfold entries. intros (b & Heb & Hb)%list_elem_of_fmap.
    symmetry in Heb. apply entry_is in Heb as [Htag Hsec]. apply (Hspec b); [apply elem_of_app; by left|].
    split; [|done]. by apply (proj1 (Forall_forall _ _) (vw_live _ _ _ _ Hv)).
Qed.

(** ** Changing one block and the order of its set *)

Lemma blk_of_insert t t' b c x :
  is_Some (blks t !! b) → blks t' = <[b := c]> (blks t) → blk_of t' x = if decide (x = b) then c else blk_of t x.
Proof.
  intros Hb Ht. unfold blk_of. rewrite Ht. case_decide as Hx; [subst x|by rewrite list_lookup_insert_ne].
  by rewrite list_lookup_insert_eq by by apply lookup_lt_is_Some.
Qed.

Lemma entries_insert t t' b c i l :
  is_Some (blks t !! b) → blks t' = <[b := c]> (blks t) → b ∉ l → entries t' i l = entries t i l.
Proof.
  intros Hb Ht Hl. unfold entries. apply list_fmap_ext. intros j x Hx. rewrite (blk_of_insert t t' b c x Hb Ht).
  rewrite decide_False; [done|]. intros ->. apply Hl. by eapply list_elem_of_lookup_2.
Qed.

Lemma abs_update t S t' i b c L D L' D' :
  lru_abs t S → 0 ≤ i < 2 ^ m → view t i L D → b ∈ L ++ D →
  geometry t' → blks t' = <[b := c]> (blks t) → sets t' = vinsert i (mkCacheSet A (L' ++ D')) (sets t) →
  L' ++ D' ≡ₚ L ++ D → blk_ok b c →
  Forall (λ x, if decide (x = b) then isValid c = true else x ∈ L) L' →
  Forall (λ x, if decide (x = b) then isValid c = false else x ∈ D) D' →
  NoDup (entries t' i L') → lru_abs t' (at_set i (entries t' i L') S).
Proof using HP.
  intros Habs Hi Hv Hb Hgeo Hblks Hsets Hperm Hok HL HD Hnd.
  assert (Hbi : b ∈ ways i) by by rewrite <-(vw_ways _ _ _ _ Hv).
  pose proof (way_block t i b (la_length _ _ Habs) Hi Hbi) as Hb0.
  assert (Hof := λ x, blk_of_insert t t' b c x ltac:(by eexists) Hblks).
  split; [done| | | |].
  - rewrite Hsets, zlength_vinsert. by eapply la_sets.
  - rewrite Hblks. unfold zlength. rewrite length_insert. by eapply la_length.
  - intros x cx. rewrite Hblks. intros [(-> & -> & _)|[_ Hx]]%list_lookup_insert_Some; [done|]. by eapply la_blks.
  - intros j Hj. destruct (decide (j = i)) as [->|Hne].
    + exists L', D'. unfold at_set. rewrite decide_True by done. split; [|done]. split.
      * rewrite Hsets. apply vlookup_vinsert_eq. by rewrite (la_sets _ _ Habs).
      * rewrite Hperm. by eapply vw_ways.
      * eapply Forall_impl; [exact HL|]. intros x. cbn. rewrite Hof. case_decide; [done|].
        apply (proj1 (Forall_forall _ _) (vw_live _ _ _ _ Hv)).
      * eapply Forall_impl; [exact HD|]. intros x. cbn. rewrite Hof. case_decide; [done|].
        apply (proj1 (Forall_forall _ _) (vw_dead _ _ _ _ Hv)).
    + destruct (la_view _ _ Habs j Hj) as (Lj & Dj & Hvj & Hej & Hndj).
      assert (Hbj : ∀ x, x ∈ Lj ++ Dj → x ≠ b).
      { intros x Hx ->. rewrite (vw_ways _ _ _ _ Hvj) in Hx. apply elem_of_ways in Hx, Hbi; lia. }
      exists Lj, Dj. unfold at_set. rewrite decide_False by done. split; [split|split; [|done]].
      * rewrite Hsets, vlookup_vinsert_ne by congruence. by eapply vw_set.
      * by eapply vw_ways.
      * apply Forall_forall. intros x Hx. rewrite Hof, decide_False by (apply Hbj, elem_of_app; auto).
        by apply (proj1 (Forall_forall _ _) (vw_live _ _ _ _ Hvj)).
      * apply Forall_forall. intros x Hx. rewrite Hof, decide_False by (apply Hbj, elem_of_app; auto).
        by apply (proj1 (Forall_forall _ _) (vw_dead _ _ _ _ Hvj)).
      * rewrite (entries_insert t t' b c); [done|by eexists|done|].
        intros Hin. by apply (Hbj b); [apply elem_of_app; left|].
Qed.

(** ** The specification on a list that is known *)

Lemma filter_others (e : entry) l1 l2 : NoDup (l1 ++ e :: l2) → filter (λ x, x ≠ e) (l1 ++ e :: l2) = l1 ++ l2.
Proof.
  intros (_ & Hd & He%NoDup_cons)%NoDup_app. destruct He as [He _].
  rewrite filter_app, filter_cons_False by naive_solver. f_equal; apply filter_keep, Forall_forall; intros x Hx ->; [|done].
  apply (Hd e Hx). by left.
Qed.

Lemma filter_absent (e : entry) (l : list entry) : e ∉ l → filter (λ x, x ≠ e) l = l.
Proof. intros He. apply filter_keep, Forall_forall. by intros x Hx ->. Qed.

(** ** Running the operations *)

Lemma on_blk_run t b f c : blks t !! b = Some c → on_blk b f t = Ok (tt, t.{blks := <[b := f c]> (blks t)}).
Proof.
  intros Hb. unfold on_blk. eapply bind_Ok; [done|]. eapply lift_run; [by apply block_run|].
  unfold modify. do 2 f_equal. cbn. f_equal. by apply list_alter_insert.
Qed.

Lemma on_set_run t i f s s' :
  sets t !z i = Some s → f s = Ok s' → on_set i f t = Ok (tt, t.{sets := vinsert i s' (sets t)}).
Proof.
  intros Hs Hf. unfold on_set. eapply bind_Ok; [done|]. eapply lift_run; [by apply vget_Some|].
  eapply lift_run; [exact Hf|]. done.
Qed.

Lemma abs_same t t' S : geometry t' → blks t' = blks t → sets t' = sets t → lru_abs t S → lru_abs t' S.
Proof.
  intros Hg Hb Hs Habs. destruct Habs as [_ H1 H2 H3 H4]. split; rewrite ?Hb, ?Hs; [done..|].
  intros i Hi. destruct (H4 i Hi) as (L & D & [V1 V2 V3 V4] & He & Hnd). exists L, D.
  assert (Ho : ∀ b, blk_of t' b = blk_of t b) by (intros b; unfold blk_of; by rewrite Hb).
  split; [split; [by rewrite Hs|done| |]|split; [|done]].
  - eapply Forall_impl; [exact V3|]. intros b. cbn. by rewrite Ho.
  - eapply Forall_impl; [exact V4|]. intros b. cbn. by rewrite Ho.
  - rewrite <-He. unfold entries. apply list_fmap_ext. intros j b _. by rewrite Ho.
Qed.

Lemma abs_ext t S S' : lru_abs t S → (∀ i, S i = S' i) → lru_abs t S'.
Proof.
  intros [H0 H1 H2 H3 H4] He. split; [done..|]. intros i Hi. destruct (H4 i Hi) as (L & D & H). exists L, D.
  by rewrite <-He.
Qed.

Lemma hit_latency_run now c t : ∃ lat, hit_latency P now c t = Ok lat.
Proof using HP.
  unfold hit_latency, ticksToCycles, divCeil. case_decide; [|by eexists].
  rewrite decide_False by apply (pk_clock _ _ _ HP). by eexists.
Qed.

(** the access of both policies *)
Lemma base_access_run now a sec t o :
  findBlock a sec t = Ok o → (∀ b, o = Some b → is_Some (blks t !! b)) →
  ∃ lat st, base_accessBlock P now a sec t =
    Ok ((o, lat), t.{tg_stats := st}.{blks ::= match o with Some b => alter (λ c, c.{refCount ::= λ n, to_uint 32 (n + 1)}) b
                                                            | None => id end}).
Proof using HP.
  intros Ho Hb. unfold base_accessBlock.
  assert (Hst : ∃ st, (if sequential_access P then when (bool_decide (o ≠ None)) (tally (λ s, s.{dataAccesses ::= Z.add 1}))
      else tally (λ s, s.{dataAccesses ::= Z.add (allocAssoc t)}))
      (t.{tg_stats ::= λ s, s.{tagAccesses ::= Z.add (allocAssoc t)}}) = Ok (tt, t.{tg_stats := st})).
  { destruct (sequential_access P); [destruct (bool_decide (o ≠ None))|]; by eexists. }
  destruct Hst as [st Hst]. destruct o as [b|].
  - destruct (Hb b eq_refl) as [c Hc]. destruct (hit_latency_run now c t) as [lat Hlat]. exists lat, st.
    eapply bind_Ok; [done|]. eapply lift_run; [exact Ho|]. eapply bind_Ok; [done|]. eapply bind_Ok; [exact Hst|].
    eapply lift_run; [by apply block_run|]. eapply lift_run; [exact Hlat|].
    eapply bind_Ok; [eapply on_blk_run; exact Hc|]. unfold mret, M_ret. do 2 f_equal. cbn. f_equal.
    by rewrite (list_alter_insert _ (blks t) b c Hc).
  - exists (lookupLatency t), st. eapply bind_Ok; [done|]. eapply lift_run; [exact Ho|]. eapply bind_Ok; [done|].
    eapply bind_Ok; [exact Hst|]. done.
Qed.

Lemma entries_app t i l1 l2 : entries t i (l1 ++ l2) = entries t i l1 ++ entries t i l2.
Proof. apply fmap_app. Qed.

Lemma entries_cons t i b l : entries t i (b :: l) = entry_of i (blk_of t b) :: entries t i l.
Proof. done. Qed.

(** a block of a set *)
Lemma view_block t S i l1 b l2 L D :
  lru_abs t S → 0 ≤ i < 2 ^ m → view t i L D → L ++ D = l1 ++ b :: l2 →
  b ∈ ways i ∧ blks t !! b = Some (blk_of t b) ∧ blk_set (blk_of t b) = i ∧ b ∉ l1 ∧ b ∉ l2.
Proof using HP.
  intros Habs Hi Hv Heq. assert (Hb : b ∈ ways i).
  { rewrite <-(vw_ways _ _ _ _ Hv), Heq. apply elem_of_app. right. by left. }
  pose proof (way_block t i b (la_length _ _ Habs) Hi Hb) as Hc.
  destruct (la_blks _ _ Habs b _ Hc) as (Hset & _). pose proof (view_nodup _ _ _ _ Hv) as Hnd. rewrite Heq in Hnd.
  apply NoDup_app in Hnd as (_ & Hd & [Hn _]%NoDup_cons).
  split; [done|]. split; [done|]. split; [rewrite Hset; apply elem_of_ways in Hb; [done|lia]|].
  split; [|done]. intros Hb1. apply (Hd b Hb1). by left.
Qed.

(** the lists that [abs_update] asks for when a block changes its place *)
Lemma kept b (X : Prop) (L L' : list nat) :
  (∀ x, x ∈ L' → x = b ∨ x ∈ L) → (b ∈ L' → X) → Forall (λ x, if decide (x = b) then X else x ∈ L) L'.
Proof. intros HL Hb. apply Forall_forall. intros x Hx. case_decide; [subst; by apply Hb|]. by destruct (HL x Hx). Qed.

Lemma to_front t i b l1 l2 :
  sets t !z i = Some (mkCacheSet A (l1 ++ b :: l2)) → A = zlength (l1 ++ b :: l2) → b ∉ l1 →
  on_set i (moveToHead b) t = Ok (tt, t.{sets := vinsert i (mkCacheSet A (b :: l1 ++ l2)) (sets t)}).
Proof. intros Hs HA Hb. apply (on_set_run t i _ _ _ Hs). by rewrite (moveToHead_run A b l1 l2). Qed.

Lemma to_back t i b l1 l2 :
  sets t !z i = Some (mkCacheSet A (l1 ++ b :: l2)) → A = zlength (l1 ++ b :: l2) → b ∉ l2 →
  on_set i (moveToTail b) t = Ok (tt, t.{sets := vinsert i (mkCacheSet A (l1 ++ l2 ++ [b])) (sets t)}).
Proof. intros Hs HA Hb. apply (on_set_run t i _ _ _ Hs). by rewrite (moveToTail_run A b l1 l2). Qed.

(** a valid block goes to the front of its set *)
Lemma front_abs t S t' i l1 b l2 D c e :
  lru_abs t S → 0 ≤ i < 2 ^ m → view t i (l1 ++ b :: l2) D → entries t i (l1 ++ b :: l2) = S i →
  entry_of i c = e → entry_of i (blk_of t b) = e → isValid c = true → blk_ok b c →
  geometry t' → blks t' = <[b := c]> (blks t) →
  sets t' = vinsert i (mkCacheSet A ((b :: l1 ++ l2) ++ D)) (sets t) →
  lru_abs t' (at_set i (lru_touch e (S i)) S).
Proof using HP.
  intros Habs Hi Hv He Hc Heb Hval Hok Hg Hblks Hsets.
  destruct (view_block t S i l1 b (l2 ++ D) _ _ Habs Hi Hv) as (Hbi & Hb & Hset & Hb1 & Hb2); [by rewrite <-app_assoc|].
  rewrite not_elem_of_app in Hb2. destruct Hb2 as [Hb2 HbD].
  assert (Hins := λ l, entries_insert t t' b c i l ltac:(by eexists) Hblks).
  assert (Hc' : entry_of i (blk_of t' b) = e) by (rewrite (blk_of_insert t t' b c); [by rewrite decide_True|by eexists|done]).
  destruct (la_view _ _ Habs i Hi) as (_ & _ & _ & _ & HndS).
  assert (HS : S i = entries t i l1 ++ e :: entries t i l2) by by rewrite <-He, entries_app, entries_cons, Heb.
  rewrite HS in HndS |- *.
  assert (Hent : entries t' i (b :: l1 ++ l2) = lru_touch e (entries t i l1 ++ e :: entries t i l2)).
  { unfold lru_touch. rewrite filter_others by done. by rewrite entries_cons, Hc', entries_app, !Hins. }
  rewrite <-Hent. apply (abs_update t S t' i b c (l1 ++ b :: l2) D (b :: l1 ++ l2) D); try done.
  - apply elem_of_app. left. apply elem_of_app. right. by left.
  - by rewrite <-Permutation_middle.
  - apply kept; [|done]. intros x. rewrite elem_of_cons, !elem_of_app, elem_of_cons. tauto.
  - apply kept; [auto|done].
  - rewrite Hent. unfold lru_touch. rewrite filter_others by done. by rewrite <-Permutation_middle in HndS.
Qed.

(** the block that is used goes to the front *)
Lemma access_hit now a sec t S :
  lru_abs t S → 0 ≤ a → (line_of a, sec) ∈ S (set_of a) →
  ∃ b lat t' n, accessBlock P now a sec t = Ok ((Some b, lat), t') ∧ findBlock a sec t = Ok (Some b) ∧
    b ∈ ways (set_of a) ∧ isValid (blk_of t b) = true ∧ blks t' = <[b := (blk_of t b).{refCount := n}]> (blks t) ∧
    lru_abs t' (at_set (set_of a) (lru_touch (line_of a, sec) (S (set_of a))) S).
Proof using HP.
  intros Habs Ha Hin. pose proof (set_range a) as Hi.
  destruct (findBlock_run t S a sec Habs Ha) as (L & D & Hv & He & [(b & l1 & l2 & Hf & -> & Heb)|[_ Hno]]); [|done].
  set (i := set_of a) in *.
  destruct (view_block t S i l1 b (l2 ++ D) _ _ Habs Hi Hv) as (Hbi & Hb & Hset & Hb1 & Hb2); [by rewrite <-app_assoc|].
  assert (Hvalid : isValid (blk_of t b) = true).
  { apply (proj1 (Forall_forall _ _) (vw_live _ _ _ _ Hv)). apply elem_of_app. right. by left. }
  destruct (base_access_run now a sec t (Some b) Hf) as (lat & st & Hrun); [intros ? [= <-]; by eexists|].
  set (c := (blk_of t b).{refCount := to_uint 32 (refCount (blk_of t b) + 1)}).
  set (t1 := t.{tg_stats := st}.{blks := <[b := c]> (blks t)}).
  set (t2 := t1.{sets := vinsert i (mkCacheSet A ((b :: l1 ++ l2) ++ D)) (sets t)}).
  exists b, lat, t2, (to_uint 32 (refCount (blk_of t b) + 1)). split; [|do 4 (split; [done|])].
  - unfold accessBlock. rewrite (pk_policy _ _ _ HP). eapply bind_Ok; [exact Hrun|]. cbn [fst].
    eapply bind_Ok; [done|].
    assert (Hbc : blks t1 !! b = Some c) by (apply list_lookup_insert_eq; by eapply lookup_lt_Some).
    match goal with |- _ ?s = _ => replace s with t1 end.
    2:{ unfold t1. cbn. by rewrite (list_alter_insert _ (blks t) b _ Hb). }
    eapply lift_run; [by apply block_run|]. change (blk_set c) with (blk_set (blk_of t b)). rewrite Hset.
    assert (Hmove : on_set i (moveToHead b) t1 = Ok (tt, t2)); [|by eapply bind_Ok; [exact Hmove|]].
    unfold t2. cbn [app]. rewrite <-app_assoc. destruct (view_length _ _ _ _ Hv) as [Hlen _].
    pose proof (vw_set _ _ _ _ Hv) as Hs. rewrite <-app_assoc in Hs, Hlen. by apply (to_front t1).
  - by apply (front_abs t S t2 i l1 b l2 D c); try done; [exact (la_blks _ _ Habs b _ Hb)|exact (la_geometry _ _ Habs)].
Qed.

Lemma access_miss now a sec t S :
  lru_abs t S → 0 ≤ a → (line_of a, sec) ∉ S (set_of a) →
  ∃ lat st, accessBlock P now a sec t = Ok ((None, lat), t.{tg_stats := st}) ∧ findBlock a sec t = Ok None ∧
    lru_abs (t.{tg_stats := st}) S.
Proof using HP.
  intros Habs Ha Hno.
  destruct (findBlock_run t S a sec Habs Ha) as (L & D & Hv & He & [(b & l1 & l2 & Hf & -> & Heb)|[Hf _]]).
  { exfalso. apply Hno. rewrite <-He, entries_app, entries_cons, Heb. apply elem_of_app. right. by left. }
  destruct (base_access_run now a sec t None Hf) as (lat & st & Hrun); [done|].
  exists lat, st. split; [|split; [done|]].
  - unfold accessBlock. eapply bind_Ok; [exact Hrun|]. by destruct (tp_policy P).
  - apply (abs_same t); [exact (la_geometry _ _ Habs)|done|done|done].
Qed.

(** changes of a block that the tags do not see *)
Lemma abs_modify t t' S b c :
  lru_abs t S → blks t !! b = Some (blk_of t b) → geometry t' → sets t' = sets t → blks t' = <[b := c]> (blks t) →
  blk_set c = blk_set (blk_of t b) → blk_way c = blk_way (blk_of t b) → blk_tag c = blk_tag (blk_of t b) →
  isValid c = isValid (blk_of t b) → blk_isSecure c = blk_isSecure (blk_of t b) →
  srcMasterId c = srcMasterId (blk_of t b) → (isValid c = false → blk_status c = 0 ∧ lockList c = []) → lru_abs t' S.
Proof.
  intros Habs Hb Hg Hs Hbl H1 H2 H3 H4 H5 H6 H7.
  assert (Hof := λ x, blk_of_insert t t' b c x ltac:(by eexists) Hbl).
  split; [done|by rewrite Hs; eapply la_sets|by rewrite Hbl; unfold zlength; rewrite length_insert; eapply la_length| |].
  - intros x cx. rewrite Hbl. intros [(-> & -> & _)|[_ Hx]]%list_lookup_insert_Some; [|by eapply la_blks].
    destruct (la_blks _ _ Habs _ _ Hb) as (B1 & B2 & B3 & B4). unfold blk_ok. rewrite H1, H2, H3, H4, H6. split; [done|]. split; [done|]. split; [done|]. by rewrite <-H4.
  - intros i Hi. destruct (la_view _ _ Habs i Hi) as (L & D & [V1 V2 V3 V4] & He & Hnd). exists L, D.
    split; [split; [by rewrite Hs|done| |]|split; [|done]].
    + eapply Forall_impl; [exact V3|]. intros x. cbn. rewrite Hof. case_decide; [subst|done]. by rewrite H4.
    + eapply Forall_impl; [exact V4|]. intros x. cbn. rewrite Hof. case_decide; [subst|done]. by rewrite H4.
    + rewrite <-He. unfold entries. apply list_fmap_ext. intros j x _. rewrite Hof. case_decide; [subst|done].
      unfold entry_of. by rewrite H3, H5.
Qed.

(** a valid block is invalidated: it becomes the first to be replaced *)
Lemma invalidate_abs t S t' i l1 b l2 D c e :
  lru_abs t S → 0 ≤ i < 2 ^ m → view t i (l1 ++ b :: l2) D → entries t i (l1 ++ b :: l2) = S i →
  entry_of i (blk_of t b) = e → blk_ok b c → isValid c = false →
  geometry t' → blks t' = <[b := c]> (blks t) →
  sets t' = vinsert i (mkCacheSet A ((l1 ++ l2) ++ D ++ [b])) (sets t) →
  lru_abs t' (at_set i (lru_drop e (S i)) S).
Proof using HP.
  intros Habs Hi Hv He Heb Hok Hval Hg Hblks Hsets.
  destruct (view_block t S i l1 b (l2 ++ D) _ _ Habs Hi Hv) as (Hbi & Hb & Hset & Hb1 & Hb2); [by rewrite <-app_assoc|].
  rewrite not_elem_of_app in Hb2. destruct Hb2 as [Hb2 HbD].
  assert (Hins := λ l, entries_insert t t' b c i l ltac:(by eexists) Hblks).
  destruct (la_view _ _ Habs i Hi) as (_ & _ & _ & _ & HndS).
  assert (HS : S i = entries t i l1 ++ e :: entries t i l2) by by rewrite <-He, entries_app, entries_cons, Heb.
  rewrite HS in HndS |- *.
  assert (Hent : entries t' i (l1 ++ l2) = lru_drop e (entries t i l1 ++ e :: entries t i l2)).
  { unfold lru_drop. rewrite filter_others by done. by rewrite entries_app, !Hins. }
  rewrite <-Hent. apply (abs_update t S t' i b c (l1 ++ b :: l2) D (l1 ++ l2) (D ++ [b])); try done.
  - apply elem_of_app. left. apply elem_of_app. right. by left.
  - rewrite <-!app_assoc. cbn [app]. apply Permutation_app_head. rewrite app_assoc, Permutation_app_comm. done.
  - apply kept; [|rewrite elem_of_app; tauto]. intros x. rewrite !elem_of_app, elem_of_cons. tauto.
  - apply kept; [|done]. intros x. rewrite elem_of_app, list_elem_of_singleton. tauto.
  - rewrite Hent. unfold lru_drop. rewrite filter_others by done.
    rewrite <-Permutation_middle in HndS. by apply NoDup_cons in HndS as [_ ?].
Qed.

Lemma base_invalidate_run now t b c :
  blks t !! b = Some c → isValid c = true → srcMasterId c < maxMasters P →
  ∃ st, base_invalidate P now b t = Ok (tt, t.{tg_stats := st}
    .{blks := <[b := c.{srcMasterId := invldMasterId}.{task_id := Unknown_task}.{tickInserted := now}]> (blks t)}).
Proof.
  intros Hb Hv Hm. exists ((tg_stats t).{tagsInUse ::= Z.pred}.{occupancies ::= bump (srcMasterId c) (-1)}).
  unfold base_invalidate. eapply bind_Ok; [done|]. eapply lift_run; [by apply block_run|]. eapply check_run; [done|].
  eapply bind_Ok; [done|]. eapply check_run; [by apply bool_decide_eq_true|]. eapply bind_Ok; [done|].
  rewrite (on_blk_run _ b _ c); [done|exact Hb].
Qed.

(** [Cache::invalidateBlock] of a block of the cache *)
Lemma invalidate_run now t S b i :
  lru_abs t S → 0 ≤ i < 2 ^ m → b ∈ ways i → isValid (blk_of t b) = true →
  ∃ t1 t' c, tags_invalidate P now b t = Ok (tt, t1) ∧ on_blk b CacheBlk_invalidate t1 = Ok (tt, t') ∧
    blks t' = <[b := CacheBlk_invalidate c]> (blks t) ∧ blk_data c = blk_data (blk_of t b) ∧
    lru_abs t' (at_set i (lru_drop (entry_of i (blk_of t b)) (S i)) S).
Proof using HP.
  intros Habs Hi Hbi Hval. destruct (la_view _ _ Habs i Hi) as (L & D & Hv & He & Hnd).
  assert (Hin : b ∈ L).
  { rewrite <-(vw_ways _ _ _ _ Hv) in Hbi. apply elem_of_app in Hbi as [|Hd]; [done|].
    pose proof (proj1 (Forall_forall _ _) (vw_dead _ _ _ _ Hv) b Hd) as Hf. cbn in Hf. congruence. }
  apply list_elem_of_split in Hin as (l1 & l2 & ->).
  destruct (view_block t S i l1 b (l2 ++ D) _ _ Habs Hi Hv) as (_ & Hb & Hset & Hb1 & Hb2); [by rewrite <-app_assoc|].
  destruct (la_blks _ _ Habs b _ Hb) as (Hs & Hw & Hm & _). destruct (Hm Hval) as [Hmaster _].
  destruct (base_invalidate_run now t b _ Hb Hval Hmaster) as [st Hrun].
  set (c := (blk_of t b).{srcMasterId := invldMasterId}.{task_id := Unknown_task}.{tickInserted := now}) in *.
  set (t0 := t.{tg_stats := st}.{blks := <[b := c]> (blks t)}) in *.
  set (t1 := t0.{sets := vinsert i (mkCacheSet A ((l1 ++ l2) ++ D ++ [b])) (sets t)}).
  set (t' := t1.{blks := <[b := CacheBlk_invalidate c]> (blks t)}).
  assert (Hlt := lookup_lt_Some _ _ _ Hb).
  assert (Hb0 : blks t0 !! b = Some c) by by apply list_lookup_insert_eq.
  exists t1, t', c. split; [|split; [|split; [done|split; [done|]]]].
  - unfold tags_invalidate. eapply bind_Ok; [exact Hrun|]. rewrite (pk_policy _ _ _ HP).
    eapply bind_Ok; [done|]. eapply lift_run; [by apply block_run|].
    change (blk_set c) with (blk_set (blk_of t b)). rewrite Hset. unfold t1. rewrite <-app_assoc.
    pose proof (vw_set _ _ _ _ Hv) as Hsi. destruct (view_length _ _ _ _ Hv) as [Hlen _].
    rewrite <-app_assoc in Hsi, Hlen. cbn [app] in Hsi, Hlen. rewrite (app_assoc l2). by apply (to_back t0).
  - rewrite (on_blk_run t1 b CacheBlk_invalidate c) by done. unfold t'. do 2 f_equal. cbn. f_equal.
    by rewrite list_insert_insert_eq.
  - by apply (invalidate_abs t S t' i l1 b l2 D (CacheBlk_invalidate c)); try done; exact (la_geometry _ _ Habs).
Qed.

(** ** Allocation *)

Lemma victim_run a t S i l b L D :
  lru_abs t S → 0 ≤ a → i = set_of a → view t i L D → L ++ D = l ++ [b] → findVictim P a t = Ok (Some b, t).
Proof using HP.
  intros Habs Ha -> Hv Heq. pose proof (set_range a) as Hi. set (i := set_of a) in *.
  destruct (view_block t S i l b [] _ _ Habs Hi Hv Heq) as (_ & Hb & _).
  destruct (la_blks _ _ Habs b _ Hb) as (_ & Hw & _). destruct (extract_run t a (la_geometry _ _ Habs) Ha) as [_ Hs].
  pose proof (vw_set _ _ _ _ Hv) as Hset. destruct (view_length _ _ _ _ Hv) as [_ Hlen]. rewrite Heq in Hset, Hlen.
  assert (Hgeo := la_geometry _ _ Habs). injection Hgeo as _ _ _ Has Hal _ _. pose proof sizes.
  unfold findVictim. rewrite (pk_policy _ _ _ HP). eapply bind_Ok; [done|]. eapply lift_run; [exact Hs|].
  eapply lift_run; [by apply vget_Some|]. unfold lift. rewrite Has. cbn [set_blks].
  rewrite length_app in Hlen. cbn [length] in Hlen. replace (Z.to_nat A) with (Datatypes.S (length l)) by lia.
  cbn [last_allocatable]. rewrite (vget_middle l [] b) by done. cbn [mbind res_bind].
  rewrite (block_run _ _ _ Hb). cbn [mbind res_bind]. rewrite decide_True; [done|].
  rewrite Hw, Hal. pose proof (Z.mod_pos_bound (Z.of_nat b) A). rewrite to_uint_small by nia. lia.
Qed.

(** what [insertBlock] makes of a block *)
Record inserted (pkt : Packet) (now tag : Z) (c c' : CacheBlk) : Prop := {
  in_status : blk_status c' = 0;
  in_tag : blk_tag c' = tag;
  in_set : blk_set c' = blk_set c;
  in_way : blk_way c' = blk_way c;
  in_master : srcMasterId c' = masterId (req pkt);
  in_data : blk_data c' = blk_data c;
  in_locks : lockList c' = [];
}.

(** a state that differs from [t] in statistics and in block [b] *)
Notation with_blk t st w b c := (t.{tg_stats := st}.{warmedUp := w}.{blks := <[b := c]> (blks t)}).

Lemma on_with_blk t st w b c0 c f :
  blks t !! b = Some c0 → on_blk b f (with_blk t st w b c) = Ok (tt, with_blk t st w b (f c)).
Proof.
  intros Hb. assert (Hlt := lookup_lt_Some _ _ _ Hb). rewrite (on_blk_run _ b f c) by by apply list_lookup_insert_eq.
  cbn. by rewrite list_insert_insert_eq.
Qed.

Lemma touch_block_run now t b c :
  blks t !! b = Some c →
  ∃ st w, when (negb (isTouched c)) (touch_block now b) t =
    Ok (tt, with_blk t st w b (c.{isTouched := true})).
Proof.
  intros Hb. unfold when at 1. destruct (isTouched c) eqn:Ht; cbn [negb].
  - exists (tg_stats t), (warmedUp t). replace (c.{isTouched := true}) with c by (by destruct c; cbn in *; rewrite Ht).
    unfold mret, M_ret. do 2 f_equal. rewrite (list_insert_id (blks t)) by done. by destruct t.
  - set (st := (tg_stats t).{tagsInUse ::= Z.succ}).
    assert (Hon : on_blk b (λ k, k.{isTouched := true}) (t.{tg_stats := st}) =
      Ok (tt, t.{tg_stats := st}.{blks := <[b := c.{isTouched := true}]> (blks t)})) by (by rewrite (on_blk_run _ b _ c)).
    destruct (negb (warmedUp t) && bool_decide (tagsInUse st >= warmupBound t)) eqn:Hw.
    + exists (st.{warmupCycle := now}), true. eapply bind_Ok; [done|]. eapply bind_Ok; [exact Hon|].
      eapply bind_Ok; [done|]. match goal with |- when ?x _ _ = _ => replace x with true by by rewrite <-Hw end. done.
    + exists st, (warmedUp t). eapply bind_Ok; [done|]. eapply bind_Ok; [exact Hon|].
      eapply bind_Ok; [done|]. match goal with |- when ?x _ _ = _ => replace x with false by by rewrite <-Hw end. done.
Qed.

(** the block that is replaced leaves the statistics *)
Lemma replace_run t st w b c0 c x :
  blks t !! b = Some c0 → (isValid c = true → srcMasterId c < maxMasters P) →
  (isValid c = false → blk_status c = 0 ∧ lockList c = []) →
  ∃ st' c', when (isValid c) (replace_block P b c) (with_blk t st w b (c.{isTouched := x})) = Ok (tt, with_blk t st' w b c') ∧
    blk_status c' = 0 ∧ lockList c' = [] ∧ blk_set c' = blk_set c ∧ blk_way c' = blk_way c ∧ blk_data c' = blk_data c.
Proof.
  intros Hb Hm Hn. unfold when. destruct (isValid c).
  - specialize (Hm eq_refl). set (st1 := st.{replacements ::= Z.succ}.{totalRefs ::= Z.add (refCount c)}.{sampledRefs ::= Z.succ}).
    exists (st1.{occupancies ::= bump (srcMasterId c) (-1)}), (CacheBlk_invalidate (c.{isTouched := x}.{refCount := 0})).
    split; [|done]. eapply bind_Ok; [done|]. eapply bind_Ok; [by apply (on_with_blk t st1 w b c0)|].
    eapply check_run; [by apply bool_decide_eq_true|]. eapply bind_Ok; [done|].
    by apply (on_with_blk t (st1.{occupancies ::= bump (srcMasterId c) (-1)}) w b c0).
  - exists st, (c.{isTouched := x}). destruct (Hn eq_refl). done.
Qed.

Lemma base_insert_run now pkt b t a tag c :
  getAddr pkt = Ok a → extractTag a t = Ok tag → blks t !! b = Some c → masterId (req pkt) < maxMasters P →
  (isValid c = true → srcMasterId c < maxMasters P) → (isValid c = false → blk_status c = 0 ∧ lockList c = []) →
  ∃ st w c', base_insertBlock P now pkt b t = Ok (tt, with_blk t st w b c') ∧ inserted pkt now tag c c'.
Proof.
  intros Ha Ht Hb Hm Hv Hn. unfold base_insertBlock. destruct (touch_block_run now t b c Hb) as (st0 & w & H0).
  destruct (replace_run t st0 w b c c true Hb Hv Hn) as (st1 & c1 & H1 & E1 & E2 & E3 & E4 & E5).
  set (c2 := c1.{isTouched := true}.{blk_tag := tag}).
  exists (st1.{occupancies ::= bump (masterId (req pkt)) 1}.{tagAccesses ::= Z.succ}.{dataAccesses ::= Z.succ}), w,
    (c2.{srcMasterId := masterId (req pkt)}.{task_id := taskId (req pkt)}.{tickInserted := now}).
  split; [|by split].
  eapply lift_run; [exact Ha|]. eapply bind_Ok; [done|]. eapply lift_run; [by apply block_run|].
  eapply bind_Ok; [exact H0|]. eapply bind_Ok; [exact H1|]. eapply lift_run; [exact Ht|].
  eapply bind_Ok; [by apply (on_with_blk t st1 w b c)|]. eapply check_run; [by apply bool_decide_eq_true|].
  eapply bind_Ok; [done|]. set (st2 := st1.{occupancies ::= bump (masterId (req pkt)) 1}).
  eapply bind_Ok; [by apply (on_with_blk t st2 w b c)|]. done.
Qed.

(** the block that is allocated goes to the front, and pushes the last one out of a full set *)
Lemma fill_abs t S t' i b l L D c e :
  lru_abs t S → 0 ≤ i < 2 ^ m → view t i L D → L ++ D = l ++ [b] → entries t i L = S i → e ∉ S i →
  entry_of i c = e → isValid c = true → blk_ok b c →
  geometry t' → blks t' = <[b := c]> (blks t) → sets t' = vinsert i (mkCacheSet A (b :: l)) (sets t) →
  lru_abs t' (at_set i (lru_request (Z.to_nat A) e (S i)) S) ∧
  lru_evicted (Z.to_nat A) e (S i) = (if isValid (blk_of t b) then Some (entry_of i (blk_of t b)) else None).
Proof using HP.
  intros Habs Hi Hv Heq He Hno Hc Hval Hok Hg Hblks Hsets. pose proof sizes.
  destruct (view_block t S i l b [] _ _ Habs Hi Hv Heq) as (Hbi & Hb & _ & Hbl & _).
  assert (Hins := λ l, entries_insert t t' b c i l ltac:(by eexists) Hblks).
  assert (Hc' : entry_of i (blk_of t' b) = e) by (rewrite (blk_of_insert t t' b c); [by rewrite decide_True|by eexists|done]).
  destruct (la_view _ _ Habs i Hi) as (_ & _ & _ & _ & HndS). destruct (view_length _ _ _ _ Hv) as [_ Hlen].
  unfold lru_request, lru_evicted, lru_touch. rewrite filter_absent by done. rewrite <-He in *.
  destruct D as [|d D _] using rev_ind.
  - rewrite app_nil_r in Heq, Hlen. subst L. rewrite length_app in Hlen. cbn [length] in Hlen.
    replace (Z.to_nat A) with (Datatypes.S (length l)) by lia.
    assert (Hvb : isValid (blk_of t b) = true).
    { apply (proj1 (Forall_forall _ _) (vw_live _ _ _ _ Hv)). apply elem_of_app. right. by left. }
    rewrite Hvb, entries_app in *. cbn [take]. rewrite take_app_length' by (by unfold entries; rewrite length_fmap). split.
    + assert (Hent : entries t' i (b :: l) = e :: entries t i l) by by rewrite entries_cons, Hc', Hins.
      rewrite <-Hent. apply (abs_update t S t' i b c (l ++ [b]) [] (b :: l) []); try done.
      * rewrite app_nil_r. apply elem_of_app. right. by left.
      * by rewrite !app_nil_r.
      * rewrite !app_nil_r. by rewrite Permutation_app_comm.
      * apply kept; [|done]. intros x. rewrite elem_of_cons, elem_of_app. tauto.
      * rewrite Hent. apply NoDup_cons. split; [|by apply NoDup_app in HndS as (? & _)].
        intros Hin. apply Hno, elem_of_app. by left.
    + change ((entries t i l ++ [entry_of i (blk_of t b)]) !! length l = Some (entry_of i (blk_of t b))).
      by rewrite list_lookup_middle by (unfold entries; by rewrite length_fmap).
  - rewrite app_assoc in Heq. apply app_inj_tail in Heq as [<- ->]. rewrite !length_app in Hlen. cbn [length] in Hlen.
    assert (Hvb : isValid (blk_of t b) = false).
    { apply (proj1 (Forall_forall _ _) (vw_dead _ _ _ _ Hv)). apply elem_of_app. right. by left. }
    rewrite Hvb. rewrite not_elem_of_app in Hbl. destruct Hbl as [HbL HbD].
    rewrite take_ge by (cbn [length]; unfold entries; rewrite length_fmap; lia). split.
    + assert (Hent : entries t' i (b :: L) = e :: entries t i L) by by rewrite entries_cons, Hc', Hins.
      rewrite <-Hent. apply (abs_update t S t' i b c L (D ++ [b]) (b :: L) D); try done.
      * rewrite !elem_of_app. right. right. by left.
      * rewrite (app_assoc L D). cbn [app]. by rewrite (Permutation_app_comm (L ++ D) [b]).
      * apply kept; [|done]. intros x. rewrite elem_of_cons. tauto.
      * apply kept; [|done]. intros x. rewrite elem_of_app. tauto.
      * rewrite Hent. by apply NoDup_cons.
    + apply lookup_ge_None_2. cbn [length]. unfold entries. rewrite length_fmap. lia.
Qed.

(** an insertion, up to the status that the caller sets *)
Lemma insert_run now pkt a t S b l L D :
  lru_abs t S → getAddr pkt = Ok a → 0 ≤ a < 2 ^ 64 → masterId (req pkt) < maxMasters P →
  view t (set_of a) L D → L ++ D = l ++ [b] →
  ∃ t1 c, insertBlock P now pkt b t = Ok (tt, t1) ∧ inserted pkt now (a / 2 ^ (k + m)) (blk_of t b) c ∧
    geometry t1 ∧ blks t1 = <[b := c]> (blks t) ∧ sets t1 = vinsert (set_of a) (mkCacheSet A (b :: l)) (sets t).
Proof using HP.
  intros Habs Ha Hr Hm Hv Heq. pose proof (set_range a) as Hi. set (i := set_of a) in *.
  destruct (view_block t S i l b [] _ _ Habs Hi Hv Heq) as (Hbi & Hb & Hset & Hbl & _).
  destruct (la_blks _ _ Habs b _ Hb) as (_ & _ & Hval & Hinv).
  destruct (extract_run t a (la_geometry _ _ Habs)) as [Htag Hs]; [lia|].
  destruct (base_insert_run now pkt b t a _ _ Ha Htag Hb Hm) as (st & w & c & Hrun & Hins); [naive_solver|done|].
  set (t0 := with_blk t st w b c) in *.
  exists (t0.{sets := vinsert i (mkCacheSet A (b :: l)) (sets t)}), c.
  split; [|split; [done|split; [exact (la_geometry _ _ Habs)|done]]].
  unfold insertBlock. eapply bind_Ok; [exact Hrun|]. rewrite (pk_policy _ _ _ HP).
  eapply lift_run; [exact Ha|]. eapply bind_Ok; [done|]. eapply lift_run; [exact Hs|].
  pose proof (vw_set _ _ _ _ Hv) as Hsi. destruct (view_length _ _ _ _ Hv) as [Hlen _]. rewrite Heq in Hsi, Hlen.
  pose proof (to_front t0 i b l [] Hsi Hlen Hbl) as Hf. rewrite app_nil_r in Hf. exact Hf.
Qed.

(** ** The operations *)

Lemma touch_length e l : e ∈ l → NoDup l → length (lru_touch e l) = length l.
Proof.
  intros (l1 & l2 & ->)%list_elem_of_split Hnd. unfold lru_touch. rewrite filter_others by done.
  cbn [length]. rewrite !length_app. cbn [length]. lia.
Qed.

Lemma set_length t S i : lru_abs t S → 0 ≤ i < 2 ^ m → (length (S i) ≤ Z.to_nat A)%nat.
Proof using HP.
  intros Habs Hi. destruct (la_view _ _ Habs i Hi) as (L & D & Hv & <- & _).
  destruct (view_length _ _ _ _ Hv) as [_ Hl]. rewrite length_app in Hl. unfold entries. rewrite length_fmap. lia.
Qed.

Lemma secure_run pkt a : pkt_addr pkt = Some a → isSecure pkt = Ok (_isSecure pkt).
Proof. intros Ha. unfold isSecure, getAddr. by rewrite Ha. Qed.

Lemma last_way t i L D : view t i L D → ∃ l b, L ++ D = l ++ [b].
Proof using HP.
  intros Hv. destruct (view_length _ _ _ _ Hv) as [Hl _]. pose proof sizes.
  destruct (exists_last (l := L ++ D)) as (l & b & Heq); [|by exists l, b].
  intros Hnil. rewrite Hnil in Hl. unfold zlength in Hl. cbn in Hl. lia.
Qed.

(** the line that leaves *)
Lemma evicted_run t S i b c :
  lru_abs t S → 0 ≤ i < 2 ^ m → b ∈ ways i → c = blk_of t b → isValid c = true →
  regenerateBlkAddr (blk_tag c) (to_uint 32 (blk_set c)) t = Ok (entry_of i c).1.
Proof using HP.
  intros Habs Hi Hb -> Hval. pose proof (way_block t i b (la_length _ _ Habs) Hi Hb) as Hc.
  destruct (la_blks _ _ Habs b _ Hc) as (Hs & _ & Hv & _). destruct (Hv Hval) as [_ Htag].
  apply elem_of_ways in Hb; [|lia]. rewrite Hs, Hb. by apply regenerate_run; [exact (la_geometry _ _ Habs)|..].
Qed.

(** a line that is missing is allocated *)
Lemma allocate_run now pkt a t S :
  lru_abs t S → pkt_addr pkt = Some a → 0 ≤ a < 2 ^ 64 → masterId (req pkt) < maxMasters P →
  let i := set_of a in let e := (line_of a, _isSecure pkt) in e ∉ S i →
  ∃ b c t1 t', findVictim P a t = Ok (Some b, t) ∧ b ∈ ways i ∧ blks t !! b = Some (blk_of t b) ∧
    lru_evicted (Z.to_nat A) e (S i) = (if isValid (blk_of t b) then Some (entry_of i (blk_of t b)) else None) ∧
    insertBlock P now pkt b t = Ok (tt, t1) ∧
    blks t1 = <[b := c]> (blks t) ∧ inserted pkt now (a / 2 ^ (k + m)) (blk_of t b) c ∧
    on_blk b (set_bits (Z.lor BlkValid (Z.lor BlkReadable (if _isSecure pkt then BlkSecure else 0)))) t1 = Ok (tt, t') ∧
    lru_abs t' (at_set i (lru_request (Z.to_nat A) e (S i)) S).
Proof using HP.
  intros Habs Ha Hr Hm i e Hno. pose proof (set_range a) as Hi. fold i in Hi.
  destruct (la_view _ _ Habs i Hi) as (L & D & Hv & He & _). destruct (last_way _ _ _ _ Hv) as (l & b & Heq).
  destruct (view_block t S i l b [] _ _ Habs Hi Hv Heq) as (Hbi & Hb & Hset & _).
  destruct (la_blks _ _ Habs b _ Hb) as (Hbset & Hbway & _).
  destruct (insert_run now pkt a t S b l L D Habs) as (t1 & c & Hins & HI & Hg1 & Hb1 & Hs1);
    [by unfold getAddr; rewrite Ha|done..|]. pose proof HI as [I1 I2 I3 I4 I5 I6 I7].
  set (bits := Z.lor BlkValid (Z.lor BlkReadable (if _isSecure pkt then BlkSecure else 0))).
  set (t' := t1.{blks := <[b := set_bits bits c]> (blks t)}).
  assert (Hstat : isValid (set_bits bits c) = true ∧ blk_isSecure (set_bits bits c) = _isSecure pkt).
  { unfold bits, set_bits, isValid, blk_isSecure, has_bit. cbn. rewrite I1. by destruct (_isSecure pkt). }
  assert (Hentry : entry_of i (set_bits bits c) = e).
  { unfold e. rewrite line_parts. apply entry_is. split; [exact I2|apply Hstat]. }
  assert (Htag : 0 ≤ a / 2 ^ (k + m) < 2 ^ (64 - k - m)).
  { pose proof sizes. split; [apply Z.div_pos; lia|]. apply Z.div_lt_upper_bound; [lia|].
    rewrite <-Z.pow_add_r by (destruct (pk_min _ _ _ HP); lia). replace (k + m + (64 - k - m)) with 64 by lia. lia. }
  destruct (fill_abs t S t' i b l L D (set_bits bits c) e) as [Habs' Hev]; try done.
  { apply Hstat. }
  { split; [cbn; by rewrite I3|]. split; [cbn; by rewrite I4|]. split; [intros _; cbn; by rewrite I5, I2|].
    intros Hf. destruct Hstat. congruence. }
  exists b, c, t1, t'. split; [apply (victim_run a t S i l b L D); (done || lia)|]. do 6 (split; [done|]). split; [|done].
  rewrite (on_blk_run t1 b _ c) by (rewrite Hb1; apply list_lookup_insert_eq; by eapply lookup_lt_Some).
  rewrite Hb1, list_insert_insert_eq. done.
Qed.

Lemma tag_request_run now pkt a t S :
  lru_abs t S → pkt_addr pkt = Some a → 0 ≤ a < 2 ^ 64 → masterId (req pkt) < maxMasters P →
  ∃ t', request P now pkt t = Ok ((spec_tag_op (TRequest pkt) S).1, t') ∧ lru_abs t' (spec_tag_op (TRequest pkt) S).2.
Proof using HP.
  intros Habs Ha Hr Hm. cbn [spec_tag_op fst snd]. rewrite Ha. change (default 0 (Some a)) with a.
  pose proof (set_range a) as Hi. set (i := set_of a) in *. set (e := (line_of a, _isSecure pkt)).
  destruct (la_view _ _ Habs i Hi) as (_ & _ & _ & _ & Hnd). pose proof (set_length t S i Habs Hi) as Hlen.
  assert (Hga : getAddr pkt = Ok a) by (unfold getAddr; by rewrite Ha). pose proof (secure_run pkt a Ha) as Hsec.
  destruct (decide (e ∈ S i)) as [Hin|Hno].
  - destruct (access_hit now a (_isSecure pkt) t S Habs) as (b & lat & t' & n & Hrun & _ & _ & _ & _ & Habs'); [lia|done|].
    exists t'. pose proof (touch_length e (S i) Hin Hnd) as Htl. unfold lru_request, lru_evicted.
    rewrite bool_decide_eq_true_2 by done. unfold entry in *. rewrite lookup_ge_None_2, take_ge by lia. split; [|done].
    eapply lift_run; [exact Hga|]. eapply lift_run; [exact Hsec|]. eapply bind_Ok; [exact Hrun|]. done.
  - destruct (access_miss now a (_isSecure pkt) t S Habs) as (lat & st & Hrun & _ & Habs1); [lia|done|].
    set (t1 := t.{tg_stats := st}) in *.
    destruct (allocate_run now pkt a t1 S Habs1 Ha Hr Hm Hno) as (b & c & t2 & t3 & Hvic & Hbi & Hb & Hev & Hins & _ & _ & Hon & Habs3).
    change (lru_evicted (Z.to_nat A) e (S i) = if isValid (blk_of t1 b) then Some (entry_of i (blk_of t1 b)) else None) in Hev.
    exists t3. rewrite bool_decide_eq_false_2, Hev by done. split; [|done].
    eapply lift_run; [exact Hga|]. eapply lift_run; [exact Hsec|]. eapply bind_Ok; [exact Hrun|]. cbn [fst].
    eapply bind_Ok; [exact Hvic|]. eapply lift_run; [done|]. eapply bind_Ok; [done|].
    eapply lift_run; [by apply block_run|]. destruct (isValid (blk_of t1 b)) eqn:Hval.
    + eapply bind_Ok; [eapply lift_run; [by apply (evicted_run t1 S i b)|reflexivity]|].
      eapply bind_Ok; [exact Hins|]. eapply bind_Ok; [exact Hon|]. done.
    + eapply bind_Ok; [done|]. eapply bind_Ok; [exact Hins|]. eapply bind_Ok; [exact Hon|]. done.
Qed.

Lemma invalidate_line_run now a sec t S :
  lru_abs t S → 0 ≤ a →
  ∃ t', invalidate_line P now a sec t = Ok ((spec_tag_op (TInvalidate a sec) S).1.1, t') ∧
    lru_abs t' (spec_tag_op (TInvalidate a sec) S).2.
Proof using HP.
  intros Habs Ha. cbn [spec_tag_op fst snd]. pose proof (set_range a) as Hi.
  destruct (findBlock_run t S a sec Habs Ha) as (L & D & Hv & He & [(b & l1 & l2 & Hf & -> & Heb)|[Hf Hno]]).
  - assert (Hin : b ∈ (l1 ++ b :: l2) ++ D) by (rewrite !elem_of_app, elem_of_cons; tauto).
    rewrite (vw_ways _ _ _ _ Hv) in Hin.
    destruct (invalidate_run now t S b (set_of a) Habs Hi Hin) as (t1 & t' & c & H1 & H2 & _ & _ & Habs').
    { apply (proj1 (Forall_forall _ _) (vw_live _ _ _ _ Hv)). apply elem_of_app. right. by left. }
    rewrite Heb in Habs'. exists t'. rewrite bool_decide_eq_true_2.
    2:{ rewrite <-He, entries_app, entries_cons, Heb. apply elem_of_app. right. by left. }
    split; [|done]. eapply bind_Ok; [done|]. eapply lift_run; [exact Hf|].
    eapply bind_Ok; [exact H1|]. eapply bind_Ok; [exact H2|]. done.
  - exists t. rewrite bool_decide_eq_false_2 by done. unfold lru_drop. rewrite filter_absent by done. split.
    + eapply bind_Ok; [done|]. eapply lift_run; [exact Hf|]. done.
    + apply (abs_ext t S); [done|]. intros j. unfold at_set. case_decide; [by subst|done].
Qed.

(** ** Construction *)

Lemma pow2_tests n : 0 ≤ n < 32 → floorLog2_u32 (2 ^ n) = Ok n ∧ isPowerOf2 (2 ^ n) = true.
Proof.
  intros Hn. assert (Hall : Forall (λ n, floorLog2_u32 (2 ^ n) = Ok n ∧ isPowerOf2 (2 ^ n) = true) (seqZ 0 32)).
  { repeat (apply Forall_cons; split; [by vm_compute|]). by apply Forall_nil. }
  apply (proj1 (Forall_forall _ _) Hall). apply elem_of_seqZ. lia.
Qed.

Lemma ways_eq i : 0 ≤ i → (λ j, Z.to_nat (i * A + j)) <$> seqZ 0 A = ways i.
Proof using HP.
  intros Hi. pose proof sizes. unfold ways. apply list_eq. intros j. rewrite list_lookup_fmap.
  destruct (decide (Z.of_nat j < A)).
  - rewrite (proj2 (lookup_seqZ _ _ _ (Z.of_nat j))) by lia. rewrite (proj2 (lookup_seq _ _ _ (Z.to_nat (i * A) + j))) by lia.
    cbn. f_equal. nia.
  - rewrite !lookup_ge_None_2 by (rewrite ?length_seqZ, ?length_seq; lia). done.
Qed.

Definition first_tags (raw : Z → list Z) : Tags :=
  mkTags (2 ^ k) (2 ^ k - 1) (tag_latency P)
    (if sequential_access P then u64 (tag_latency P + data_latency P) else Z.max (tag_latency P) (data_latency P))
    (to_int (2 ^ m * A)) false (2 ^ m * A) A A (2 ^ m)
    ((λ i, mkCacheSet A ((λ j, Z.to_nat (i * A + j)) <$> seqZ 0 A)) <$> seqZ 0 (2 ^ m))
    ((λ b, new_block (b / A) (b `mod` A) (raw b)) <$> seqZ 0 (2 ^ m * A))
    k (k + m) (2 ^ m - 1) TagStats_new 0.

Lemma new_run raw : BaseSetAssoc_new P raw = Ok (first_tags raw).
Proof using HP.
  pose proof sizes as (HA & H2m & H2k & Hm31 & HmA & Hkm & _). destruct (pk_min _ _ _ HP) as (Hk & Hm & _).
  pose proof (pk_max _ _ _ HP) as Hmax.
  assert (Hk31 : 2 ^ k < 2 ^ 31) by nia. assert (HkA : 0 < 2 ^ k * A < 2 ^ 31) by nia.
  assert (HA31 : A < 2 ^ 31) by nia. assert (k < 31) by (apply (Z.pow_lt_mono_r_iff 2); lia).
  assert (m < 31) by (apply (Z.pow_lt_mono_r_iff 2); lia). assert (2 ^ 2 ≤ 2 ^ k) by (apply Z.pow_le_mono_r; lia).
  destruct (pow2_tests k) as [Hlk Hpk]; [lia|]. destruct (pow2_tests m) as [Hlm Hpm]; [lia|].
  unfold BaseSetAssoc_new. rewrite (pk_block _ _ _ HP), (pk_size _ _ _ HP), !(to_uint_small 32 A), !(to_uint_small 32 (2 ^ k)) by lia.
  rewrite int_of_run by lia. cbn [mbind res_bind]. rewrite decide_False by lia.
  rewrite (u64_small (2 ^ k * A)) by (unfold is_u64; lia). rewrite Z.div_mul by lia.
  rewrite (to_uint_small 32 (2 ^ m)) by lia. rewrite decide_False, Hpk by lia. cbn [negb].
  rewrite decide_False, Hpm by lia. cbn [negb]. rewrite decide_False, Hlk by lia. cbn [mbind res_bind].
  rewrite Hlm. cbn [mbind res_bind]. rewrite decide_False by nia. unfold first_tags.
  rewrite (to_uint_small 32 (2 ^ m * A)), (to_int_small A), (to_uint_small 32 (2 ^ m - 1)), (to_uint_small 32 (2 ^ k - 1)) by lia. done.
Qed.

Lemma first_block raw b c :
  blks (first_tags raw) !! b = Some c → c = new_block (Z.of_nat b / A) (Z.of_nat b `mod` A) (raw (Z.of_nat b)) ∧
  0 ≤ Z.of_nat b / A < 2 ^ 31 ∧ 0 ≤ Z.of_nat b `mod` A < 2 ^ 31.
Proof using HP.
  intros (x & -> & Hx)%list_lookup_fmap_Some. apply lookup_seqZ in Hx as [-> Hb]. pose proof sizes.
  rewrite Z.add_0_l. split; [done|]. pose proof (Z.mod_pos_bound (Z.of_nat b) A ltac:(lia)).
  pose proof (Z.div_mod (Z.of_nat b) A ltac:(lia)). split; [split; [apply Z.div_pos; lia|]|nia]. nia.
Qed.

Lemma first_abs raw : lru_abs (first_tags raw) (λ _, []).
Proof using HP.
  pose proof sizes. split.
  - done.
  - cbn. unfold zlength. rewrite length_fmap, length_seqZ. lia.
  - cbn. unfold zlength. rewrite length_fmap, length_seqZ. nia.
  - intros b c (-> & Hs & Hw)%first_block. unfold blk_ok. cbn. rewrite !to_int_small by lia. done.
  - intros i Hi. exists [], (ways i). split; [|split; [done|apply NoDup_nil_2]]. split; [|done|by apply Forall_nil|].
    + apply vlookup_Some. split; [lia|]. cbn. rewrite list_lookup_fmap, (proj2 (lookup_seqZ _ _ _ i)) by lia.
      cbn. by rewrite ways_eq by lia.
    + apply Forall_forall. intros b Hb. unfold blk_of. destruct (blks (first_tags raw) !! b) as [c|] eqn:Hc; [|done].
      by apply first_block in Hc as [-> _].
Qed.

(** ** The theorem *)

Definition tag_op_ok (op : tag_op) : Prop :=
  match op with
  | TRequest pkt => (∃ a, pkt_addr pkt = Some a ∧ 0 ≤ a < 2 ^ 64) ∧ masterId (req pkt) < maxMasters P
  | TInvalidate a _ => 0 ≤ a < 2 ^ 64
  end.

Lemma tag_op_run now op t S :
  lru_abs t S → tag_op_ok op →
  ∃ t', run_tag_op P now op t = Ok ((spec_tag_op op S).1, t') ∧ lru_abs t' (spec_tag_op op S).2.
Proof using HP.
  intros Habs Hok. destruct op as [pkt|a sec]; cbn [run_tag_op].
  - destruct Hok as [(a & Ha & Hr) Hm]. by apply (tag_request_run now pkt a).
  - destruct (invalidate_line_run now a sec t S Habs) as (t' & Hrun & Habs'); [by destruct Hok|].
    exists t'. split; [|done]. eapply bind_Ok; [exact Hrun|]. done.
Qed.

Lemma tag_ops_run ops t S :
  lru_abs t S → Forall (λ o, tag_op_ok o.2) ops →
  ∃ t', run_tag_ops P ops t = Ok ((spec_tag_ops (ops.*2) S).1, t') ∧ lru_abs t' (spec_tag_ops (ops.*2) S).2.
Proof using HP.
  intros Habs Hok. revert t S Habs. induction Hok as [|[now op] ops Ho _ IH]; intros t S Habs; [by exists t|].
  destruct (tag_op_run now op t S Habs Ho) as (t1 & Hrun & Habs1). destruct (IH t1 _ Habs1) as (t2 & Hrun2 & Habs2).
  exists t2. split; [|done]. cbn [run_tag_ops]. eapply bind_Ok; [exact Hrun|]. eapply bind_Ok; [exact Hrun2|]. done.
Qed.
End spec.

(** C9: The LRU tags of a cache are recency lists.  From construction on, for every geometry of
    lines, sets and ways below 2 GiB, every sequence of requests (each of which allocates its line when it misses) and
    invalidations runs without a fault; a request hits exactly when its line is in the list of its set, the
    line goes to the front of that list, a full set evicts the line at the end, whose address is computed again
    from its tag and set, and an invalidated line leaves its list.  The blocks of every set end up in the order of the list,
    the valid ones first, no line twice. *)
Theorem lru_tags_are_recency_lists (P : TagParams) (k m : Z) (raw : Z → list Z) (ops : list (Z * tag_op))
    (HP : params_ok P k m) (Hops : Forall (λ o, tag_op_ok P o.2) ops) :
  ∃ t0 t, BaseSetAssoc_new P raw = Ok t0 ∧
    run_tag_ops P ops t0 = Ok ((spec_tag_ops P k m (ops.*2) (λ _, [])).1, t) ∧
    lru_abs P k m t (spec_tag_ops P k m (ops.*2) (λ _, [])).2.
Proof.
  destruct (tag_ops_run P k m HP ops _ _ (first_abs P k m HP raw) Hops) as (t & Hrun & Habs).
  exists (first_tags P k m raw), t. split; [by apply new_run|]. done.
Qed.

Definition ex_tags : TagParams := mkTagParams LRU 32 4 2 1 2 false 1 8 (λ _, 0).
Definition ex_request (a : Z) : tag_op :=
  TRequest ((Packet_new (plain_request 3 0) ReadReq).{pkt_addr := Some a}).

Lemma lru_tags_are_recency_lists_witness :
  let ops := (0, ex_request 0) :: (1, ex_request 17) :: (2, ex_request 2) :: (3, ex_request 32) :: (4, TInvalidate 0 false)
    :: (5, ex_request 48) :: [] in
  (spec_tag_ops ex_tags 2 2 (ops.*2) (λ _, [])).1 =
    [(false, None); (false, None); (true, None); (false, Some (16, false)); (true, None); (false, None)] ∧
  ∃ t0 t, BaseSetAssoc_new ex_tags (λ _, [0; 0; 0; 0]) = Ok t0 ∧
    run_tag_ops ex_tags ops t0 = Ok ((spec_tag_ops ex_tags 2 2 (ops.*2) (λ _, [])).1, t) ∧
    lru_abs ex_tags 2 2 t (spec_tag_ops ex_tags 2 2 (ops.*2) (λ _, [])).2.
Proof.
  split; [by vm_compute|]. apply (lru_tags_are_recency_lists ex_tags 2 2).
  - split; vm_compute; done.
  - repeat (apply Forall_cons; split; [|]); try (by apply Forall_nil); cbn; (split; [eexists; split; [done|lia]|lia]) || lia.
Defined.
