(* ===== verification/CacheQueue.v ===== *)
(** * The queues of the classic caches ([mem/cache/queue.hh], [write_queue*], [mshr*])

    A queue keeps its entries in an array and names them by their index; three
    lists tell which are allocated, which wait to be sent, and which are free.
    [Queue] is a template: the class [QEntry] is what it needs of an entry. *)

From S2P Require Import Prelude MemPacket XBarLayer.

(** ** Entries *)

Record QueueEntry := mkQueueEntry {
  readyTime : Z;
  qe_isUncacheable : bool;
  inService : bool;
  order : Z;
  blkAddr : Z;
  qe_blkSize : Z;
  qe_isSecure : bool;
}.
#[export] Instance QueueEntry_settable : Settable QueueEntry := λ r,
  mkQueueEntry (readyTime r) (qe_isUncacheable r) (inService r) (order r) (blkAddr r) (qe_blkSize r) (qe_isSecure r).

Definition QueueEntry_new : QueueEntry := mkQueueEntry 0 false false 0 0 0 false.

(** [entry_checkFunctional]: whether the packet is satisfied, the packet and the entry afterwards *)
Class QEntry (E : Type) := {
  base : E → QueueEntry;
  set_base : QueueEntry → E → E;
  entry_deallocate : E → res E;
  entry_checkFunctional : Packet → E → res (bool * Packet * E);
}.

(** ** The queue *)

Record Queue (E : Type) := mkQueue {
  numEntries : Z;
  numReserve : Z;
  entries : list E;
  allocatedList : list nat;
  readyList : list nat;
  freeList : list nat;
  _numInService : Z;
  allocated : Z;
  q_drainState : DrainState;
}.
Arguments mkQueue {E}.
Arguments numEntries {E}. Arguments numReserve {E}. Arguments entries {E}. Arguments allocatedList {E}.
Arguments readyList {E}. Arguments freeList {E}. Arguments _numInService {E}. Arguments allocated {E}.
Arguments q_drainState {E}.
#[export] Instance Queue_settable {E} : Settable (Queue E) := λ r,
  mkQueue (numEntries r) (numReserve r) (entries r) (allocatedList r) (readyList r) (freeList r) (_numInService r)
    (allocated r) (q_drainState r).

(** [MaxTick] *)
Definition MaxTick : Z := 2 ^ 64 - 1.

Section queue.
Context {E : Type} `{!QEntry E}.

Definition Queue_new (e : E) (num_entries reserve : Z) : Queue E :=
  let n := num_entries + reserve in
  mkQueue n reserve (replicate (Z.to_nat n) e) [] [] (seq 0 (Z.to_nat n)) 0 0 Running.

Definition get_entry (i : nat) (q : Queue E) : res E := of_option OutOfRange (entries q !! i).
Definition put_entry (i : nat) (e : E) : M (Queue E) unit := modify (λ q, q.{entries ::= <[i := e]>}).
(** [list.erase(iterator)] of the element [i] *)
Definition erase_entry (i : nat) (l : list nat) : res (list nat) :=
  if decide (i ∈ l) then Ok (filter (λ j, j ≠ i) l) else Fault OutOfRange.

Definition entry_time (q : Queue E) (i : nat) : res Z := e ← get_entry i q; Ok (readyTime (base e)).

(** the list with [i] before the first element that is ready later than [t] *)
Fixpoint insert_ready (q : Queue E) (i : nat) (t : Z) (l : list nat) : res (list nat) :=
  match l with
  | [] => Fault AssertFailed
  | j :: l => u ← entry_time q j; if decide (u > t) then Ok (i :: j :: l) else l ← insert_ready q i t l; Ok (j :: l)
  end.

Definition addToReadyList (i : nat) : M (Queue E) unit :=
  q ← get; t ← lift (entry_time q i);
  l ← lift (match last (readyList q) with
            | None => Ok [i]
            | Some b => u ← entry_time q b;
                        if decide (u <= t) then Ok (readyList q ++ [i]) else insert_ready q i t (readyList q)
            end);
  modify (λ q, q.{readyList := l}).

Definition isEmpty (q : Queue E) : bool := bool_decide (allocated q = 0).
Definition isFull (q : Queue E) : bool := bool_decide (allocated q >= numEntries q - numReserve q).
Definition numInService (q : Queue E) : Z := _numInService q.

(** the first entry of a list that has a property *)
Fixpoint first_entry (q : Queue E) (p : QueueEntry → bool) (l : list nat) : res (option nat) :=
  match l with
  | [] => Ok None
  | i :: l => e ← get_entry i q; if p (base e) then Ok (Some i) else first_entry q p l
  end.

Definition findMatch (blk_addr : Z) (is_secure : bool) (q : Queue E) : res (option nat) :=
  first_entry q (λ e, negb (qe_isUncacheable e) && bool_decide (blkAddr e = blk_addr) && Bool.eqb (qe_isSecure e) is_secure)
    (allocatedList q).
Definition findPending (blk_addr : Z) (is_secure : bool) (q : Queue E) : res (option nat) :=
  first_entry q (λ e, bool_decide (blkAddr e = blk_addr) && Bool.eqb (qe_isSecure e) is_secure) (readyList q).

Definition getNext (now : Z) (q : Queue E) : res (option nat) :=
  match readyList q with
  | [] => Ok None
  | i :: _ => t ← entry_time q i; Ok (if decide (t > now) then None else Some i)
  end.
Definition nextReadyTime (q : Queue E) : res Z :=
  match readyList q with [] => Ok MaxTick | i :: _ => entry_time q i end.

Fixpoint checkFunctional_in (pkt : Packet) (blk_addr : Z) (l : list nat) : M (Queue E) (bool * Packet) :=
  match l with
  | [] => mret (false, pkt)
  | i :: l =>
      q ← get; e ← lift (get_entry i q);
      if decide (blkAddr (base e) = blk_addr) then
        '(done, pkt, e) ← lift (entry_checkFunctional pkt e);
        put_entry i e ;;
        if (done : bool) then mret (true, pkt) else checkFunctional_in pkt blk_addr l
      else checkFunctional_in pkt blk_addr l
  end.
Definition Queue_checkFunctional (pkt : Packet) (blk_addr : Z) : M (Queue E) (bool * Packet) :=
  q ← get; checkFunctional_in pkt blk_addr (allocatedList q).

Definition q_signalDrainDone : M (Queue E) unit :=
  d ← gets q_drainState;
  match d with
  | Draining => modify (λ q, q.{q_drainState := Drained})
  | Running | Drained | Resuming => mret tt
  end.

Definition Queue_deallocate (i : nat) : M (Queue E) unit :=
  q ← get;
  l ← lift (erase_entry i (allocatedList q));
  modify (λ q, q.{allocatedList := l}.{freeList ::= cons i}.{allocated ::= Z.pred}) ;;
  e ← lift (get_entry i q);
  (if inService (base e) then modify (λ q, q.{_numInService ::= Z.pred})
   else r ← lift (erase_entry i (readyList q)); modify (λ q, q.{readyList := r})) ;;
  e ← lift (entry_deallocate e); put_entry i e ;;
  q ← get;
  when (bool_decide (q_drainState q = Draining) && bool_decide (allocated q = 0)) q_signalDrainDone.

Definition Queue_drain (q : Queue E) : DrainState := if decide (allocated q = 0) then Drained else Draining.

(** an entry is taken from the free list, filled in, and waits *)
Definition take_entry (fill : E → res E) : M (Queue E) nat :=
  q ← get;
  match freeList q with
  | [] => throw AssertFailed
  | i :: free =>
      e ← lift (get_entry i q); e ← lift (fill e);
      modify (λ q, q.{freeList := free}) ;; put_entry i e ;;
      modify (λ q, q.{allocatedList ::= λ l, l ++ [i] }) ;;
      addToReadyList i ;;
      modify (λ q, q.{allocated ::= Z.succ}) ;; mret i
  end.
End queue.

(** ** The write queue *)

Record Target := mkTarget {
  t_recvTime : Z;
  t_readyTime : Z;
  t_order : Z;
  t_pkt : Packet;
}.
#[export] Instance Target_settable : Settable Target := λ r,
  mkTarget (t_recvTime r) (t_readyTime r) (t_order r) (t_pkt r).

Record WriteQueueEntry := mkWriteQueueEntry { wq_base : QueueEntry; wq_targets : list Target }.
#[export] Instance WriteQueueEntry_settable : Settable WriteQueueEntry := λ r,
  mkWriteQueueEntry (wq_base r) (wq_targets r).

(** the targets until one satisfies the packet *)
Fixpoint targets_checkFunctional (pkt : Packet) (l : list Target) : res (bool * Packet * list Target) :=
  match l with
  | [] => Ok (false, pkt, [])
  | t :: l =>
      '(done, pkt, other) ← checkFunctional_packet pkt (t_pkt t);
      let t := t.{t_pkt := other} in
      if (done : bool) then Ok (true, pkt, t :: l)
      else '(done, pkt, l) ← targets_checkFunctional pkt l; Ok (done, pkt, t :: l)
  end.

Definition wq_allocate (now blk_addr blk_size : Z) (target : Packet) (when_ready order : Z) (e : WriteQueueEntry) :
    res WriteQueueEntry :=
  sec ← isSecure target;
  let uncacheable := isUncacheable (req target) in
  if negb uncacheable && bool_decide (wq_targets e ≠ []) then Fault ExitCalled else
  if negb (isWrite (pkt_cmd target) && uncacheable || isEviction (pkt_cmd target) && negb uncacheable)
  then Fault ExitCalled else
  Ok (mkWriteQueueEntry (mkQueueEntry when_ready uncacheable false order blk_addr blk_size sec)
        (wq_targets e ++ [mkTarget now when_ready order target])).

Definition wq_deallocate (e : WriteQueueEntry) : res WriteQueueEntry :=
  if decide (wq_targets e = []) then Ok (e.{wq_base ::= λ b, b.{inService := false} }) else Fault AssertFailed.

(** the printing of [PrintReq] has no other effect *)
Definition wq_checkFunctional (pkt : Packet) (e : WriteQueueEntry) : res (bool * Packet * WriteQueueEntry) :=
  if isPrint (pkt_cmd pkt) then Ok (false, pkt, e)
  else '(done, pkt, l) ← targets_checkFunctional pkt (wq_targets e); Ok (done, pkt, e.{wq_targets := l}).

#[export] Instance WriteQueueEntry_entry : QEntry WriteQueueEntry := {
  base := wq_base;
  set_base := λ b e, e.{wq_base := b};
  entry_deallocate := wq_deallocate;
  entry_checkFunctional := wq_checkFunctional;
}.

Definition getNumTargets (e : WriteQueueEntry) : Z := zlength (wq_targets e).
Definition getTarget (e : WriteQueueEntry) : res Target := of_option AssertFailed (head (wq_targets e)).
(** [list::pop_front], which is undefined on an empty list *)
Definition popTarget (e : WriteQueueEntry) : res WriteQueueEntry :=
  match wq_targets e with [] => Fault UndefinedOp | _ :: l => Ok (e.{wq_targets := l}) end.

Definition WriteQueue : Type := Queue WriteQueueEntry.
Definition WriteQueue_new (num_entries reserve : Z) : WriteQueue :=
  Queue_new (mkWriteQueueEntry QueueEntry_new []) num_entries reserve.

Definition WriteQueue_allocate (now blk_addr blk_size : Z) (pkt : Packet) (when_ready order : Z) : M WriteQueue nat :=
  take_entry (λ e, if decide (getNumTargets e = 0) then wq_allocate now blk_addr blk_size pkt when_ready order e
                   else Fault AssertFailed).
Definition WriteQueue_markInService (i : nat) : M WriteQueue unit :=
  q ← get; e ← lift (get_entry i q); e ← lift (popTarget e); put_entry i e ;; Queue_deallocate i.
