(* ===== verification/MSHR.v ===== *)
(** * Outstanding misses of the classic caches ([mem/cache/mshr.*], [mem/cache/mshr_queue.*])

    An [MSHR] holds the requests that wait for one line, those that its
    request serves and those that were deferred to a further one.  A
    request may carry an [MSHR] of a cache above in its sender state; what happens to
    that one is the class [Upstream], with its own state [W]. *)

From S2P Require Import Prelude MemPacket CacheQueue.

(** ** State *)

Inductive Source := FromCPU | FromSnoop | FromPrefetcher.
#[export] Instance Source_eq_dec : EqDecision Source.
Proof. solve_decision. Defined.

Record MTarget := mkMTarget {
  mt_recvTime : Z;
  mt_readyTime : Z;
  mt_order : Z;
  mt_pkt : Packet;
  source : Source;
  markedPending : bool;
  mt_allocOnFill : bool;
}.
#[export] Instance MTarget_settable : Settable MTarget := λ r,
  mkMTarget (mt_recvTime r) (mt_readyTime r) (mt_order r) (mt_pkt r) (source r) (markedPending r) (mt_allocOnFill r).

Record TargetList := mkTargetList {
  tl : list MTarget;
  tl_needsWritable : bool;
  hasUpgrade : bool;
  tl_allocOnFill : bool;
}.
#[export] Instance TargetList_settable : Settable TargetList := λ r,
  mkTargetList (tl r) (tl_needsWritable r) (hasUpgrade r) (tl_allocOnFill r).

Record MSHR := mkMSHR {
  ms_base : QueueEntry;
  downstreamPending : bool;
  pendingModified : bool;
  postInvalidate : bool;
  postDowngrade : bool;
  isForward : bool;
  targets : TargetList;
  deferredTargets : TargetList;
}.
#[export] Instance MSHR_settable : Settable MSHR := λ r,
  mkMSHR (ms_base r) (downstreamPending r) (pendingModified r) (postInvalidate r) (postDowngrade r) (isForward r)
    (targets r) (deferredTargets r).

Definition TargetList_new : TargetList := mkTargetList [] false false false.
Definition MSHR_new : MSHR := mkMSHR QueueEntry_new false false false false false TargetList_new TargetList_new.

(** what happens to the [MSHR] that the sender state of a packet names: [mark_pending] sets its
    [downstreamPending] and tells whether there is one, [clear_pending] is its [clearDownstreamPending()] *)
Class Upstream (W : Type) := {
  mark_pending : Packet → M W bool;
  clear_pending : Packet → M W unit;
}.

(** ** Lists of targets *)

Definition resetFlags (l : TargetList) : TargetList := l.{tl_needsWritable := false}.{hasUpgrade := false}.{tl_allocOnFill := false}.
Definition isReset (l : TargetList) : bool := negb (tl_needsWritable l) && negb (hasUpgrade l) && negb (tl_allocOnFill l).

Definition updateFlags (pkt : Packet) (s : Source) (alloc_on_fill : bool) (l : TargetList) : res TargetList :=
  if decide (s = FromSnoop) then Ok l else
  w ← pkt_needsWritable pkt;
  let l := if (w : bool) then l.{tl_needsWritable := true} else l in
  let l := if isUpgrade (pkt_cmd pkt) || bool_decide (pkt_cmd pkt = StoreCondReq) then l.{hasUpgrade := true} else l in
  Ok (l.{tl_allocOnFill ::= λ b, b || alloc_on_fill}).

Definition populateFlags (l : TargetList) : res TargetList :=
  fold_res (λ t l, updateFlags (mt_pkt t) (source t) (mt_allocOnFill t) l) (tl l) (resetFlags l).

(** [raw n]: what [new uint8_t\[n\]] holds *)
Definition replaceUpgrade (raw : Z → list Z) (pkt : Packet) : res Packet :=
  let has_data := hasData (pkt_cmd pkt) || hasRespData pkt in
  let pkt :=
    if decide (pkt_cmd pkt = UpgradeReq) then pkt.{pkt_cmd := ReadExReq}
    else if decide (pkt_cmd pkt = SCUpgradeReq) then pkt.{pkt_cmd := SCUpgradeFailReq}
    else if decide (pkt_cmd pkt = StoreCondReq) then pkt.{pkt_cmd := StoreCondFailReq}
    else pkt in
  if (has_data : bool) then Ok pkt else
  if hasData (pkt_cmd pkt) then Fault AssertFailed else
  if hasRespData pkt then allocate raw pkt else Ok pkt.

Fixpoint map_targets (f : MTarget → res MTarget) (l : list MTarget) : res (list MTarget) :=
  match l with
  | [] => Ok []
  | t :: l => t ← f t; l ← map_targets f l; Ok (t :: l)
  end.
Definition replaceUpgrades (raw : Z → list Z) (l : TargetList) : res TargetList :=
  if negb (hasUpgrade l) then Ok l else
  ts ← map_targets (λ t, p ← replaceUpgrade raw (mt_pkt t); Ok (t.{mt_pkt := p})) (tl l);
  Ok (l.{tl := ts}.{hasUpgrade := false}).

Fixpoint check_targets (pkt : Packet) (l : list MTarget) : res (bool * Packet * list MTarget) :=
  match l with
  | [] => Ok (false, pkt, [])
  | t :: l =>
      '(done, pkt, other) ← checkFunctional_packet pkt (mt_pkt t);
      let t := t.{mt_pkt := other} in
      if (done : bool) then Ok (true, pkt, t :: l)
      else '(done, pkt, l) ← check_targets pkt l; Ok (done, pkt, t :: l)
  end.

Section upstream.
Context {W : Type} `{!Upstream W}.
(** [curTick()] *)
Context (now : Z) (raw : Z → list Z).

Definition TargetList_add (pkt : Packet) (ready order : Z) (s : Source) (markPending alloc_on_fill : bool)
    (l : TargetList) : M W TargetList :=
  l ← lift (updateFlags pkt s alloc_on_fill l);
  marked ← (if markPending then mark_pending pkt else mret false);
  mret (l.{tl ::= λ ts, ts ++ [mkMTarget now ready order pkt s marked alloc_on_fill] }).

Fixpoint clear_targets (l : list MTarget) : M W (list MTarget) :=
  match l with
  | [] => mret []
  | t :: l =>
      t ← (if markedPending t then clear_pending (mt_pkt t) ;; mret (t.{markedPending := false}) else mret t);
      l ← clear_targets l; mret (t :: l)
  end.
Definition TargetList_clearDownstreamPending (l : TargetList) : M W TargetList :=
  ts ← clear_targets (tl l); mret (l.{tl := ts}).

(** ** The entry: its state is the first part, what is above the second *)

Definition on_mshr (f : MSHR → MSHR) : M (MSHR * W) unit := modify (λ s, (f s.1, s.2)).
Definition this : M (MSHR * W) MSHR := gets fst.
Definition on_list (get : MSHR → TargetList) (put : TargetList → MSHR → MSHR) (f : TargetList → M W TargetList) : M (MSHR * W) unit :=
  λ s, match f (get s.1) s.2 with Ok (l, w) => Ok (tt, (put l s.1, w)) | Fault e => Fault e end.
Definition on_targets : (TargetList → M W TargetList) → M (MSHR * W) unit := on_list targets (λ l m, m.{targets := l}).
Definition on_deferred : (TargetList → M W TargetList) → M (MSHR * W) unit :=
  on_list deferredTargets (λ l m, m.{deferredTargets := l}).

Definition isPendingModified (m : MSHR) : res bool := if inService (ms_base m) then Ok (pendingModified m) else Fault AssertFailed.
Definition hasPostInvalidate (m : MSHR) : res bool := if inService (ms_base m) then Ok (postInvalidate m) else Fault AssertFailed.
Definition hasPostDowngrade (m : MSHR) : res bool := if inService (ms_base m) then Ok (postDowngrade m) else Fault AssertFailed.

Definition MSHR_allocate (blk_addr blk_size : Z) (target : Packet) (when_ready order : Z) (alloc_on_fill : bool) : M (MSHR * W) unit :=
  sec ← lift (isSecure target);
  m ← this;
  on_mshr (λ m, m.{ms_base := mkQueueEntry when_ready (isUncacheable (req target)) false order blk_addr blk_size sec}
                 .{isForward := false}.{downstreamPending := false}) ;;
  check (isReset (targets m)) ;;
  let s := if decide (pkt_cmd target = HardPFReq) then FromPrefetcher else FromCPU in
  on_targets (TargetList_add target when_ready order s true alloc_on_fill) ;;
  check (isReset (deferredTargets m)).

Definition MSHR_clearDownstreamPending : M (MSHR * W) unit :=
  m ← this; check (downstreamPending m) ;;
  on_mshr (λ m, m.{downstreamPending := false}) ;;
  on_targets TargetList_clearDownstreamPending.

Definition MSHR_markInService (pending_modified_resp : bool) : M (MSHR * W) unit :=
  m ← this; check (negb (inService (ms_base m))) ;;
  on_mshr (λ m, m.{ms_base ::= λ b, b.{inService := true} }
                 .{pendingModified := tl_needsWritable (targets m) || pending_modified_resp}
                 .{postInvalidate := false}.{postDowngrade := false}) ;;
  when (negb (downstreamPending m)) (on_targets TargetList_clearDownstreamPending).

Definition MSHR_deallocate (m : MSHR) : res MSHR :=
  match tl (targets m) with
  | [] => if isReset (deferredTargets m) then Ok (m.{targets ::= resetFlags}.{ms_base ::= λ b, b.{inService := false} })
          else Fault AssertFailed
  | _ => Fault AssertFailed
  end.

(** [a && b && ...] of tests that can fail an assertion *)
Definition res_and (a : bool) (b : res bool) : res bool := if a then b else Ok false.
Definition res_or (a : bool) (b : res bool) : res bool := if a then Ok true else b.

(** whether a new target has to wait for a further request *)
Definition must_defer (pkt : Packet) (m : MSHR) : res bool :=
  res_and (inService (ms_base m))
    (res_or (bool_decide (tl (deferredTargets m) ≠ []))
       (inv ← hasPostInvalidate m;
        res_or inv
          (w ← pkt_needsWritable pkt;
           res_and w (p ← isPendingModified m; d ← hasPostDowngrade m; Ok (negb p || d || isForward m))))).

Definition MSHR_allocateTarget (pkt : Packet) (whenReady order : Z) (alloc_on_fill : bool) : M (MSHR * W) unit :=
  m ← this;
  check (bool_decide (pkt_cmd pkt ≠ HardPFReq)) ;;
  check (negb (qe_isUncacheable (ms_base m))) ;;
  defer ← lift (must_defer pkt m);
  if (defer : bool) then
    inv ← lift (hasPostInvalidate m);
    pkt ← lift (if (inv : bool) then replaceUpgrade raw pkt else Ok pkt);
    on_deferred (TargetList_add pkt whenReady order FromCPU true alloc_on_fill)
  else on_targets (TargetList_add pkt whenReady order FromCPU (negb (inService (ms_base m))) alloc_on_fill).

(** whether the snoop waits in the entry, and the packet; [new_req] is the address of a copied request, [blkSize]
    the size of a line *)
Definition MSHR_handleSnoop (new_req : nat) (pkt : Packet) (order : Z) : M (MSHR * W) (bool * Packet) :=
  w ← lift (pkt_needsWritable pkt);
  if negb (Bool.eqb w (isInvalidate (pkt_cmd pkt))) then throw ExitCalled else
  m ← this;
  let upgrades (l : TargetList) := lift (replaceUpgrades raw l) : M W TargetList in
  if negb (inService (ms_base m)) || isExpressSnoop pkt && downstreamPending m then
    when w (on_targets upgrades ;; on_deferred upgrades) ;; mret (false, pkt)
  else
  when w (on_deferred upgrades) ;;
  inv ← lift (hasPostInvalidate m);
  if (inv : bool) then mret (true, pkt) else
  pm ← lift (isPendingModified m);
  pkt ← (if pm || isInvalidate (pkt_cmd pkt) then
           let will_respond := pm && needsResponse (pkt_cmd pkt) in
           cp_pkt ← lift (if will_respond then Packet_copy raw pkt true true
                          else Ok (Packet_block (req pkt).{req_ptr := new_req} (pkt_cmd pkt) (qe_blkSize (ms_base m))));
           pkt ← lift (if will_respond then p ← setCacheResponding pkt; setResponderHadWritable p else Ok pkt);
           on_targets (TargetList_add cp_pkt now order FromSnoop
                         (downstreamPending m && tl_needsWritable (targets m)) false) ;;
           when w (on_mshr (λ m, m.{postInvalidate := true})) ;; mret pkt
         else mret pkt : M (MSHR * W) Packet);
  if negb w && negb (isUncacheable (req pkt)) then
    on_mshr (λ m, m.{postDowngrade := true}) ;; mret (true, setHasSharers pkt)
  else mret (true, pkt).

(** the deferred targets are served by the response after all, if it is writable *)
Definition promoteWritable : M (MSHR * W) unit :=
  m ← this;
  go ← lift (res_and (tl_needsWritable (deferredTargets m))
               (inv ← hasPostInvalidate m; keep ← res_or inv (hasPostDowngrade m); Ok (negb keep)));
  if (go : bool) then
    check (negb (tl_needsWritable (targets m))) ;;
    on_mshr (λ m, m.{targets ::= λ l, l.{tl_needsWritable := true} }) ;;
    check (negb (downstreamPending m)) ;;
    on_deferred TargetList_clearDownstreamPending ;;
    on_mshr (λ m, m.{targets ::= λ l, l.{tl ::= λ ts, ts ++ tl (deferredTargets m)} }
                   .{deferredTargets ::= λ l, resetFlags (l.{tl := [] }) })
  else mret tt.
End upstream.

(** the first target, the others that are not from the processor, and those that remain *)
Fixpoint split_snoops (l : list MTarget) : res (list MTarget * list MTarget) :=
  match l with
  | [] => Ok ([], [])
  | t :: l =>
      '(ready, rest) ← split_snoops l;
      if decide (source t = FromCPU) then Ok (ready, t :: rest)
      else if decide (source t = FromSnoop) then Ok (t :: ready, rest) else Fault AssertFailed
  end.
Definition extractServiceableTargets (pkt : Packet) : M MSHR TargetList :=
  m ← get;
  r ← (if decide (pkt_cmd pkt = ReadRespWithInvalidate) then
         match tl (targets m) with
         | [] => throw UndefinedOp
         | t :: l =>
             check (bool_decide (source t = FromCPU ∨ source t = FromPrefetcher)) ;;
             '(ready, rest) ← lift (split_snoops l);
             r ← lift (populateFlags (TargetList_new.{tl := t :: ready}));
             modify (λ m, m.{targets ::= λ ts, ts.{tl := rest} }) ;; mret r
         end
       else modify (λ m, m.{targets := TargetList_new}) ;; mret (targets m) : M MSHR TargetList);
  m ← get;
  ts ← lift (populateFlags (targets m)); modify (λ m, m.{targets := ts}) ;; mret r.

Definition promoteDeferredTargets (now : Z) : M MSHR bool :=
  m ← get;
  match tl (targets m), tl (deferredTargets m) with
  | [], [] => mret false
  | ts, ds =>
      l ← lift (match ts with
                | [] => Ok (deferredTargets m)
                | _ => populateFlags ((targets m).{tl := ts ++ ds})
                end);
      let d := match ts with [] => targets m | _ => (deferredTargets m).{tl := [] } end in
      modify (λ m, m.{targets := l}.{deferredTargets := resetFlags d}) ;;
      match tl l with
      | [] => throw UndefinedOp
      | t :: _ =>
          modify (λ m, m.{ms_base ::= λ b, b.{order := mt_order t}.{readyTime := Z.max now (mt_readyTime t)} }) ;; mret true
      end
  end.

Definition MSHR_getNumTargets (m : MSHR) : Z := zlength (tl (targets m)) + zlength (tl (deferredTargets m)).
Definition MSHR_hasTargets (m : MSHR) : bool := bool_decide (tl (targets m) ≠ []).
Definition MSHR_getTarget (m : MSHR) : res MTarget := of_option AssertFailed (head (tl (targets m))).
Definition MSHR_popTarget (m : MSHR) : res MSHR :=
  match tl (targets m) with [] => Fault UndefinedOp | _ :: l => Ok (m.{targets ::= λ ts, ts.{tl := l} }) end.

Definition MSHR_checkFunctional (pkt : Packet) (m : MSHR) : res (bool * Packet * MSHR) :=
  if isPrint (pkt_cmd pkt) then Ok (false, pkt, m) else
  '(done, pkt, l) ← check_targets pkt (tl (targets m));
  let m := m.{targets ::= λ t, t.{tl := l} } in
  if (done : bool) then Ok (true, pkt, m) else
  '(done, pkt, l) ← check_targets pkt (tl (deferredTargets m));
  Ok (done, pkt, m.{deferredTargets ::= λ t, t.{tl := l} }).

#[export] Instance MSHR_entry : QEntry MSHR := {
  base := ms_base;
  set_base := λ b m, m.{ms_base := b};
  entry_deallocate := MSHR_deallocate;
  entry_checkFunctional := MSHR_checkFunctional;
}.

(** ** The queue of misses: its state is the first part *)

Definition MSHRQueue : Type := Queue MSHR.
Definition MSHRQueue_new (num_entries reserve : Z) : MSHRQueue := Queue_new MSHR_new num_entries reserve.

Section mshr_queue.
Context {W : Type} `{!Upstream W}.
Context (now : Z) (raw : Z → list Z).

Definition on_mq {A} (m : M MSHRQueue A) : M (MSHRQueue * W) A := zoom fst (λ q s, (q, s.2)) m.
(** run a method of the entry [i] *)
Definition on_entry {A} (i : nat) (m : M (MSHR * W) A) : M (MSHRQueue * W) A := λ s,
  match entries s.1 !! i with
  | None => Fault OutOfRange
  | Some e => match m (e, s.2) with
              | Ok (a, (e', w)) => Ok (a, ((s.1).{entries ::= <[i := e']>}, w))
              | Fault f => Fault f
              end
  end.

Definition MSHRQueue_allocate (blk_addr blk_size : Z) (pkt : Packet) (when_ready order : Z) (alloc_on_fill : bool) :
    M (MSHRQueue * W) nat :=
  q ← gets fst;
  match freeList q with
  | [] => throw AssertFailed
  | i :: free =>
      e ← lift (get_entry i q);
      check (bool_decide (MSHR_getNumTargets e = 0)) ;;
      on_mq (modify (λ q, q.{freeList := free})) ;;
      on_entry i (MSHR_allocate now blk_addr blk_size pkt when_ready order alloc_on_fill) ;;
      on_mq (modify (λ q, q.{allocatedList ::= λ l, l ++ [i] })) ;;
      on_mq (addToReadyList i) ;;
      on_mq (modify (λ q, q.{allocated ::= Z.succ})) ;; mret i
  end.

Definition moveToFront (i : nat) : M MSHRQueue unit :=
  q ← get; e ← lift (get_entry i q);
  if inService (ms_base e) then mret tt
  else l ← lift (erase_entry i (readyList q)); modify (λ q, q.{readyList := i :: l}).

Definition MSHRQueue_markInService (i : nat) (pending_modified_resp : bool) : M (MSHRQueue * W) unit :=
  on_entry i (MSHR_markInService pending_modified_resp) ;;
  q ← gets fst; l ← lift (erase_entry i (readyList q));
  on_mq (modify (λ q, q.{readyList := l}.{_numInService ::= Z.succ})).

Definition markPending (i : nat) : M MSHRQueue unit :=
  q ← get; e ← lift (get_entry i q);
  check (inService (ms_base e)) ;;
  put_entry i (e.{ms_base ::= λ b, b.{inService := false} }) ;;
  modify (λ q, q.{_numInService ::= Z.pred}) ;;
  addToReadyList i.

Definition forceDeallocateTarget (i : nat) : M MSHRQueue bool :=
  q ← get; let was_full := isFull q in
  e ← lift (get_entry i q);
  check (MSHR_hasTargets e) ;;
  e ← lift (MSHR_popTarget e); put_entry i e ;;
  (if MSHR_hasTargets e then mret tt
   else
     '(promoted, e) ← lift (promoteDeferredTargets now e); put_entry i e ;;
     if (promoted : bool) then mret tt else Queue_deallocate i) ;;
  q ← get; mret (was_full && negb (isFull q)).
End mshr_queue.
