(* ===== verification/QueueRun.v ===== *)
(** * What the queues of the classic caches do

    The lists of a queue always name the entries they should, whatever is done to them, and the write
    queue is a list of entries of which the one that is ready first is sent first. *)

From stdpp Require Import sorting.
From S2P Require Import Prelude MemPacket XBarLayer CacheQueue MSHR.

(** ** Placing into a list that is sorted by time *)

Section place.
Context {A : Type} (f : A → Z).

Fixpoint place (x : A) (l : list A) : list A :=
  match l with [] => [x] | y :: l' => if decide (f y > f x) then x :: l else y :: place x l' end.
Lemma sorted_ext (g : A → Z) l :
  (∀ x, x ∈ l → g x = f x) → StronglySorted (λ a b, f a ≤ f b) l → StronglySorted (λ a b, g a ≤ g b) l.
Proof.
  intros Hg. induction 1 as [|x l Hl IH Hx]; [constructor|]. constructor; [apply IH; intros y Hy; apply Hg; by right|].
  rewrite Forall_forall in Hx |- *. intros y Hy. rewrite !Hg by (first [by left|by right]). by apply Hx.
Qed.

(** a stable sort *)
Definition isort (l : list A) : list A := fold_left (λ acc x, place x acc) l [].

Lemma isort_snoc l x : isort (l ++ [x]) = place x (isort l).
Proof. unfold isort. by rewrite fold_left_app. Qed.

Lemma place_perm x l : place x l ≡ₚ x :: l.
Proof. induction l as [|y l IH]; cbn; [done|]. case_decide; [done|]. rewrite IH. constructor. Qed.

Lemma isort_perm l : isort l ≡ₚ l.
Proof.
  induction l as [|x l IH] using rev_ind; [done|]. rewrite isort_snoc, place_perm, IH. by rewrite Permutation_app_comm.
Qed.

Lemma place_sorted x l : StronglySorted (λ a b, f a ≤ f b) l → StronglySorted (λ a b, f a ≤ f b) (place x l).
Proof.
  induction 1 as [|y l Hl IH Hy]; cbn; [by repeat constructor|]. case_decide.
  - constructor; [by constructor|]. constructor; [lia|]. eapply Forall_impl; [exact Hy|]. cbn. lia.
  - constructor; [done|]. rewrite place_perm. constructor; [lia|done].
Qed.
Lemma isort_sorted l : StronglySorted (λ a b, f a ≤ f b) (isort l).
Proof. induction l as [|x l IH] using rev_ind; [constructor|]. rewrite isort_snoc. by apply place_sorted. Qed.

Lemma place_head x l : Forall (λ y, f y > f x) l → place x l = x :: l.
Proof. destruct 1; cbn; [done|]. by rewrite decide_True. Qed.
Lemma place_last x l : Forall (λ y, f y ≤ f x) l → place x l = l ++ [x].
Proof. induction 1; cbn; [done|]. rewrite decide_False by lia. by f_equal. Qed.

Lemma filter_place (P : A → Prop) `{!∀ a, Decision (P a)} x l :
  StronglySorted (λ a b, f a ≤ f b) l →
  filter P (place x l) = if decide (P x) then place x (filter P l) else filter P l.
Proof.
  induction 1 as [|y l Hl IH Hy]; [done|]. cbn [place]. destruct (decide (f y > f x)) as [Hyx|Hyx].
  - rewrite (filter_cons _ x). destruct (decide (P x)); [|done]. symmetry. apply place_head.
    apply Forall_forall. intros z [_ [->|Hz]%elem_of_cons]%list_elem_of_filter; [done|].
    rewrite Forall_forall in Hy. specialize (Hy z Hz). lia.
  - rewrite !(filter_cons _ y), IH. case_decide as Hp; case_decide; cbn [place]; rewrite ?decide_False; done.
Qed.

Lemma filter_isort (P : A → Prop) `{!∀ a, Decision (P a)} l : filter P (isort l) = isort (filter P l).
Proof.
  induction l as [|x l IH] using rev_ind; [done|]. rewrite isort_snoc, filter_place, IH by apply isort_sorted.
  rewrite filter_app, filter_cons, filter_nil. case_decide; [by rewrite isort_snoc|by rewrite app_nil_r].
Qed.

(** the first element: it comes before everything that is as early, in time or in the list *)
Lemma isort_head l x r : isort l = x :: r →
  ∃ l1 l2, l = l1 ++ x :: l2 ∧ Forall (λ y, f x < f y) l1 ∧ Forall (λ y, f x ≤ f y) l2.
Proof.
  revert x r. induction l as [|k l IH] using rev_ind; intros x r; [done|]. rewrite isort_snoc.
  destruct (isort l) as [|j r'] eqn:Hs; cbn [place].
  - intros [= <- <-]. pose proof (isort_perm l) as Hp. rewrite Hs in Hp. apply Permutation_nil in Hp as ->. by exists [], [].
  - destruct (IH j r' eq_refl) as (l1 & l2 & -> & H1 & H2). case_decide; intros [= <- <-].
    + exists (l1 ++ j :: l2), []. split; [done|]. split; [|done]. apply Forall_app. split; [|constructor; [lia|]].
      * eapply Forall_impl; [exact H1|]. cbn. lia.
      * eapply Forall_impl; [exact H2|]. cbn. lia.
    + exists l1, (l2 ++ [k]). rewrite <-app_assoc. split; [done|]. split; [done|]. apply Forall_app. split; [done|].
      constructor; [lia|done].
Qed.
End place.

(** ** The lists of a queue *)

Section queue.
Context {E : Type} `{!QEntry E}.
Implicit Types (q : Queue E) (i j : nat) (e : E).

Definition serving (q : Queue E) (i : nat) : bool :=
  match entries q !! i with Some e => inService (base e) | None => false end.
Definition ready_at (q : Queue E) (i : nat) : Z := match entries q !! i with Some e => readyTime (base e) | None => 0 end.

(** every entry is allocated or free, and an allocated one is in service or waits *)
Record queue_ok (q : Queue E) : Prop := {
  qo_partition : allocatedList q ++ freeList q ≡ₚ seq 0 (length (entries q));
  qo_entries : numEntries q = zlength (entries q);
  qo_allocated : allocated q = zlength (allocatedList q);
  qo_ready : readyList q ≡ₚ filter (λ i, serving q i = false) (allocatedList q);
  qo_serving : _numInService q = zlength (filter (λ i, serving q i = true) (allocatedList q));
}.

Lemma queue_nodup q : queue_ok q → NoDup (allocatedList q ++ freeList q).
Proof. intros Hok. rewrite (qo_partition _ Hok). apply NoDup_seq. Qed.
Lemma allocated_nodup q : queue_ok q → NoDup (allocatedList q).
Proof. intros Hok. apply queue_nodup in Hok. by apply NoDup_app in Hok as (? & _ & _). Qed.
Lemma ready_nodup q : queue_ok q → NoDup (readyList q).
Proof. intros Hok. rewrite (qo_ready _ Hok). by apply NoDup_filter, allocated_nodup. Qed.

Lemma entry_there q i : queue_ok q → i ∈ allocatedList q ++ freeList q → ∃ e, entries q !! i = Some e.
Proof. intros Hok Hi. rewrite (qo_partition _ Hok) in Hi. apply elem_of_seq in Hi as [_ Hi]. apply lookup_lt_is_Some_2. lia. Qed.
Lemma allocated_there q i : queue_ok q → i ∈ allocatedList q → ∃ e, entries q !! i = Some e.
Proof. intros Hok Hi. apply entry_there; [done|]. apply elem_of_app. by left. Qed.
Lemma ready_iff q i : queue_ok q → i ∈ readyList q ↔ i ∈ allocatedList q ∧ serving q i = false.
Proof. intros Hok. rewrite (qo_ready _ Hok), list_elem_of_filter. tauto. Qed.

Lemma get_entry_run q i e : entries q !! i = Some e → get_entry i q = Ok e.
Proof. unfold get_entry. by intros ->. Qed.
Lemma entry_time_run q i e : entries q !! i = Some e → entry_time q i = Ok (ready_at q i).
Proof. intros H. unfold entry_time, ready_at. by rewrite (get_entry_run _ _ _ H), H. Qed.

Lemma erase_entry_run i (l : list nat) : i ∈ l → erase_entry i l = Ok (filter (λ j, j ≠ i) l).
Proof. intros H. unfold erase_entry. by rewrite decide_True. Qed.
Lemma erase_entry_inv i (l l' : list nat) : erase_entry i l = Ok l' → i ∈ l ∧ l' = filter (λ j, j ≠ i) l.
Proof. unfold erase_entry. case_decide; [|done]. by intros [= <-]. Qed.

Lemma filter_ne_absent (i : nat) (l : list nat) : i ∉ l → filter (λ j, j ≠ i) l = l.
Proof.
  intros Hn. induction l as [|j l IH]; [done|]. apply not_elem_of_cons in Hn as [Hne Hn]. rewrite filter_cons.
  rewrite decide_True by done. by rewrite IH.
Qed.
Lemma filter_ne_perm (i : nat) (l : list nat) : NoDup l → i ∈ l → l ≡ₚ i :: filter (λ j, j ≠ i) l.
Proof.
  intros Hnd Hi. apply list_elem_of_split in Hi as (l1 & l2 & ->). apply NoDup_app in Hnd as (_ & Hd & [Hn _]%NoDup_cons).
  rewrite filter_app, filter_cons. rewrite decide_False by tauto. rewrite !filter_ne_absent; [by rewrite Permutation_middle|done|].
  intros H. by destruct (Hd i H); left.
Qed.

(** *** Waiting *)

Lemma insert_ready_run q i t l :
  (∀ j, j ∈ l → ∃ e, entries q !! j = Some e) → Exists (λ j, ready_at q j > t) l → t = ready_at q i →
  insert_ready q i t l = Ok (place (ready_at q) i l).
Proof.
  intros Hl Hex ->. induction l as [|j l IH]; [by apply Exists_nil in Hex|]. cbn [insert_ready place].
  destruct (Hl j ltac:(by left)) as (e & He). rewrite (entry_time_run _ _ _ He). cbn [mbind res_bind].
  case_decide; [done|]. rewrite IH; [done|intros k Hk; apply Hl; by right|]. by apply Exists_cons in Hex as [?|?].
Qed.

Lemma addToReadyList_run q i e :
  entries q !! i = Some e → (∀ j, j ∈ readyList q → ∃ e, entries q !! j = Some e) →
  ∃ l, addToReadyList i q = Ok (tt, q.{readyList := l}) ∧ l ≡ₚ i :: readyList q ∧
    (StronglySorted (λ j k, ready_at q j ≤ ready_at q k) (readyList q) → l = place (ready_at q) i (readyList q)).
Proof.
  intros He Hl.
  assert (H : ∃ l, match last (readyList q) with
              | None => Ok [i]
              | Some b => u ← entry_time q b;
                          if decide (u <= ready_at q i) then Ok (readyList q ++ [i])
                          else insert_ready q i (ready_at q i) (readyList q)
              end = Ok l ∧ l ≡ₚ i :: readyList q ∧
    (StronglySorted (λ j k, ready_at q j ≤ ready_at q k) (readyList q) → l = place (ready_at q) i (readyList q))).
  { destruct (last (readyList q)) as [b|] eqn:Hlast.
    2:{ apply last_None in Hlast as ->. by exists [i]. }
    apply last_Some in Hlast as (l0 & Hq). rewrite Hq in *.
    destruct (Hl b ltac:(apply elem_of_app; right; by left)) as (eb & Hb). rewrite (entry_time_run _ _ _ Hb). cbn [mbind res_bind].
    case_decide as Ht.
    - eexists. split; [reflexivity|]. split; [by rewrite Permutation_app_comm|]. intros Hs. symmetry. apply place_last.
      apply StronglySorted_app in Hs as (Hs & _ & _). apply Forall_app. split; [|by constructor].
      apply Forall_forall. intros j Hj. specialize (Hs j b Hj ltac:(by left)). cbn in Hs. lia.
    - rewrite (insert_ready_run q i _ (l0 ++ [b])) by (first [done|apply Exists_app; right; constructor; lia]).
      eexists. split; [reflexivity|]. split; [apply place_perm|done]. }
  destruct H as (l & Hrun & Hl'). exists l. split; [|exact Hl']. unfold addToReadyList. eapply bind_Ok; [done|].
  eapply lift_run; [by eapply entry_time_run|]. eapply lift_run; [exact Hrun|]. done.
Qed.

(** *** The operations *)

Definition enlist (i : nat) (free : list nat) (e' : E) (l : list nat) (q : Queue E) : Queue E :=
  q.{freeList := free}.{entries := <[i := e']> (entries q)}.{allocatedList := allocatedList q ++ [i] }
   .{readyList := l}.{allocated := allocated q + 1}.
Definition delist (i : nat) (e' : E) (q : Queue E) : Queue E :=
  q.{allocatedList := filter (λ j, j ≠ i) (allocatedList q)}.{freeList := i :: freeList q}.{allocated := allocated q - 1}
   .{readyList := filter (λ j, j ≠ i) (readyList q)}
   .{_numInService := _numInService q - (if serving q i then 1 else 0)}.{entries := <[i := e']> (entries q)}.
(** the entry [i] waits, or is served, and the ready list is [l] *)
Definition toggle (i : nat) (e' : E) (n : Z) (l : list nat) (q : Queue E) : Queue E :=
  q.{entries := <[i := e']> (entries q)}.{readyList := l}.{_numInService := n}.

Lemma serving_insert q q' i e' j :
  entries q' = <[i := e']> (entries q) → is_Some (entries q !! i) →
  serving q' j = if decide (j = i) then inService (base e') else serving q j.
Proof.
  intros Hq [e He]. unfold serving. rewrite Hq. case_decide as Hj.
  - subst. rewrite list_lookup_insert_eq by (by eapply lookup_lt_Some). done.
  - by rewrite list_lookup_insert_ne.
Qed.

Lemma filter_ext_in (P Q : nat → Prop) `{!∀ x, Decision (P x)} `{!∀ x, Decision (Q x)} (l : list nat) :
  (∀ x, x ∈ l → P x ↔ Q x) → filter P l = filter Q l.
Proof.
  induction l as [|x l IH]; intros HPQ; [done|]. rewrite !filter_cons, IH by (intros y Hy; apply HPQ; by right).
  pose proof (HPQ x ltac:(by left)). case_decide; case_decide; tauto.
Qed.

Lemma enlist_ok i free e' l q :
  queue_ok q → freeList q = i :: free → inService (base e') = false → l ≡ₚ i :: readyList q → queue_ok (enlist i free e' l q).
Proof.
  intros Hok Hf Hs Hl. pose proof (queue_nodup _ Hok) as Hnd. rewrite Hf in Hnd.
  assert (Hi : is_Some (entries q !! i)).
  { destruct (entry_there q i Hok) as (e & He); [|by exists e]. rewrite Hf. apply elem_of_app. right. by left. }
  apply NoDup_app in Hnd as (_ & Hd & _).
  assert (Hsrv : ∀ b, filter (λ j, serving (enlist i free e' l q) j = b) (allocatedList q) = filter (λ j, serving q j = b) (allocatedList q)).
  { intros b. apply filter_ext_in. intros j Hj. rewrite (serving_insert q (enlist i free e' l q) i e' j eq_refl Hi). rewrite decide_False; [done|].
    intros ->. apply (Hd i Hj). by left. }
  pose proof (serving_insert q (enlist i free e' l q) i e' i eq_refl Hi) as Hsi. rewrite decide_True, Hs in Hsi by done.
  destruct Hok as [Hp He Ha Hr Hn]. split.
  - cbn. rewrite length_insert, <-Hp, Hf. by rewrite <-app_assoc.
  - cbn. unfold zlength in *. by rewrite length_insert.
  - cbn. unfold zlength in *. rewrite length_app. cbn. lia.
  - change (l ≡ₚ filter (λ j, serving (enlist i free e' l q) j = false) (allocatedList q ++ [i])).
    rewrite filter_app, Hsrv, filter_cons, decide_True, filter_nil by done. rewrite Hl, Hr. by rewrite Permutation_app_comm.
  - change (_numInService q = zlength (filter (λ j, serving (enlist i free e' l q) j = true) (allocatedList q ++ [i]))).
    rewrite filter_app, Hsrv, filter_cons, decide_False, filter_nil, app_nil_r by congruence. done.
Qed.

Definition others (i : nat) (q : Queue E) : list nat := filter (λ j, j ≠ i) (allocatedList q).

(** the books of [i], apart from those of the other entries *)
Lemma queue_books i q :
  queue_ok q → i ∈ allocatedList q →
  allocatedList q ≡ₚ i :: others i q ∧ is_Some (entries q !! i) ∧
  filter (λ j, j ≠ i) (readyList q) ≡ₚ filter (λ j, serving q j = false) (others i q) ∧
  (serving q i = false → readyList q ≡ₚ i :: filter (λ j, j ≠ i) (readyList q)) ∧
  (serving q i = true → filter (λ j, j ≠ i) (readyList q) = readyList q) ∧
  _numInService q = zlength (filter (λ j, serving q j = true) (others i q)) + (if serving q i then 1 else 0).
Proof.
  intros Hok Hi. pose proof (filter_ne_perm i _ (allocated_nodup _ Hok) Hi) as Hp.
  pose proof (allocated_there _ _ Hok Hi) as (e & He).
  split; [exact Hp|]. split; [by exists e|]. split.
  { rewrite (qo_ready _ Hok). unfold others. rewrite !list_filter_filter. apply reflexive_eq, filter_ext_in. tauto. }
  split. { intros Hs. apply filter_ne_perm; [by apply ready_nodup|]. by apply ready_iff. }
  split. { intros Hs. apply filter_ne_absent. intros H. apply ready_iff in H as [_ H]; [|done]. congruence. }
  rewrite (qo_serving _ Hok). fold (others i q) in Hp. unfold zlength. rewrite Hp at 1. rewrite filter_cons.
  case_decide as Hs; destruct (serving q i); try congruence; cbn [length]; lia.
Qed.

Lemma others_serving i e' q q' b :
  entries q' = <[i := e']> (entries q) → is_Some (entries q !! i) →
  filter (λ j, serving q' j = b) (others i q) = filter (λ j, serving q j = b) (others i q).
Proof.
  intros Hq Hi. apply filter_ext_in. intros j [Hj _]%list_elem_of_filter. rewrite (serving_insert q q' i e' j Hq Hi).
  by rewrite decide_False.
Qed.

Lemma delist_ok i e' q : queue_ok q → i ∈ allocatedList q → queue_ok (delist i e' q).
Proof.
  intros Hok Hi. destruct (queue_books i q Hok Hi) as (Hp & Hsome & Hr & _ & _ & Hn).
  pose proof (λ b, others_serving i e' q (delist i e' q) b eq_refl Hsome) as Hs. destruct Hok as [Hpart He Ha _ _]. split.
  - change (others i q ++ i :: freeList q ≡ₚ seq 0 (length (<[i := e']> (entries q)))).
    rewrite length_insert, <-Hpart, Hp. cbn. by rewrite Permutation_middle.
  - cbn. unfold zlength in *. by rewrite length_insert.
  - cbn. fold (others i q). rewrite Ha. unfold zlength. rewrite Hp. cbn [length]. lia.
  - change (filter (λ j, j ≠ i) (readyList q) ≡ₚ filter (λ j, serving (delist i e' q) j = false) (others i q)). by rewrite Hs.
  - change (_numInService q - (if serving q i then 1 else 0) = zlength (filter (λ j, serving (delist i e' q) j = true) (others i q))).
    rewrite Hs. lia.
Qed.

(** the entry [i] is changed; it may start or stop being served *)
Lemma toggle_ok i e' n l q :
  queue_ok q → i ∈ allocatedList q →
  l ≡ₚ (if inService (base e') then [] else [i]) ++ filter (λ j, j ≠ i) (readyList q) →
  n = _numInService q - (if serving q i then 1 else 0) + (if inService (base e') then 1 else 0) →
  queue_ok (toggle i e' n l q).
Proof.
  intros Hok Hi Hl ->. destruct (queue_books i q Hok Hi) as (Hp & Hsome & Hr & _ & _ & Hn).
  set (q' := toggle i e' _ l q).
  pose proof (λ b, others_serving i e' q q' b eq_refl Hsome) as Hs.
  pose proof (serving_insert q q' i e' i eq_refl Hsome) as Hsi. rewrite decide_True in Hsi by done.
  destruct Hok as [Hpart He Ha _ _]. split; [cbn; by rewrite length_insert|cbn; unfold zlength in *; by rewrite length_insert|exact Ha|..].
  - change (l ≡ₚ filter (λ j, serving q' j = false) (allocatedList q)). rewrite Hl, Hp, Hr, filter_cons, Hs, Hsi.
    by case_decide; destruct (inService (base e')); try congruence.
  - change (_numInService q - (if serving q i then 1 else 0) + (if inService (base e') then 1 else 0) =
      zlength (filter (λ j, serving q' j = true) (allocatedList q))).
    unfold zlength in *. rewrite Hp, filter_cons, Hs, Hsi.
    case_decide; destruct (inService (base e')); try congruence; cbn [length]; lia.
Qed.

Lemma lists_there q j : queue_ok q → j ∈ readyList q → ∃ e, entries q !! j = Some e.
Proof. intros Hok Hj. apply ready_iff in Hj as [Hj _]; [|done]. by apply allocated_there. Qed.

Lemma first_entry_run q p l :
  (∀ j, j ∈ l → ∃ e, entries q !! j = Some e) →
  first_entry q p l = Ok (find (λ j, match entries q !! j with Some e => p (base e) | None => false end) l).
Proof.
  intros Hl. induction l as [|j l IH]; [done|]. cbn [first_entry find]. destruct (Hl j ltac:(by left)) as (e & He).
  rewrite (get_entry_run _ _ _ He), He. cbn [mbind res_bind]. destruct (p (base e)); [done|]. apply IH.
  intros k Hk. apply Hl. by right.
Qed.

(** the part of an allocation that is common to the two queues *)
Lemma enlist_run i free e' q :
  queue_ok q → freeList q = i :: free → 
  ∃ l, l ≡ₚ i :: readyList q ∧
    (StronglySorted (λ j k, ready_at q j ≤ ready_at q k) (readyList q) → l = place (ready_at (enlist i free e' l q)) i (readyList q)) ∧
    addToReadyList i (q.{freeList := free}.{entries := <[i := e']> (entries q)}.{allocatedList := allocatedList q ++ [i] }) =
      Ok (tt, q.{freeList := free}.{entries := <[i := e']> (entries q)}.{allocatedList := allocatedList q ++ [i] }.{readyList := l}).
Proof.
  intros Hok Hf. set (q1 := q.{freeList := free}.{entries := _}.{allocatedList := _}).
  destruct (entry_there q i Hok) as (e & He); [rewrite Hf; apply elem_of_app; right; by left|].
  pose proof (queue_nodup _ Hok) as Hnd. rewrite Hf in Hnd. apply NoDup_app in Hnd as (_ & Hd & _).
  assert (Hat : ∀ j, j ∈ readyList q → entries q1 !! j = entries q !! j).
  { intros j Hj. cbn. apply list_lookup_insert_ne. intros ->. apply ready_iff in Hj as [Hj _]; [|done]. apply (Hd j Hj). by left. }
  destruct (addToReadyList_run q1 i e') as (l & Hrun & Hl & Hplace).
  { cbn. apply list_lookup_insert_eq. by eapply lookup_lt_Some. }
  { intros j Hj. rewrite Hat by done. by apply lists_there. }
  exists l. split; [exact Hl|]. split; [|exact Hrun]. intros Hsort. apply Hplace. change (readyList q1) with (readyList q).
  eapply sorted_ext; [|exact Hsort]. intros j Hj. unfold ready_at. by rewrite Hat.
Qed.

Lemma take_entry_run i free e e' q (fill : E → res E) :
  queue_ok q → freeList q = i :: free → entries q !! i = Some e → fill e = Ok e' → inService (base e') = false →
  ∃ l, take_entry fill q = Ok (i, enlist i free e' l q) ∧ queue_ok (enlist i free e' l q) ∧
    (StronglySorted (λ j k, ready_at q j ≤ ready_at q k) (readyList q) → l = place (ready_at (enlist i free e' l q)) i (readyList q)).
Proof.
  intros Hok Hf He Hfill Hs. destruct (enlist_run i free e' q Hok Hf) as (l & Hl & Hplace & Hrun). exists l.
  split; [|split; [by apply enlist_ok|exact Hplace]]. unfold take_entry. eapply bind_Ok; [done|]. rewrite Hf.
  eapply lift_run; [by apply get_entry_run|]. eapply lift_run; [exact Hfill|]. do 3 (eapply bind_Ok; [reflexivity|]).
  eapply bind_Ok; [exact Hrun|]. done.
Qed.

Lemma Queue_deallocate_run i e q :
  queue_ok q → i ∈ allocatedList q → entries q !! i = Some e →
  Queue_deallocate i q =
    match entry_deallocate e with
    | Ok e' => Ok (tt, (delist i e' q).{q_drainState := if bool_decide (q_drainState q = Draining) && bool_decide (allocated q - 1 = 0)
                                                        then Drained else q_drainState q})
    | Fault f => Fault f
    end.
Proof.
  intros Hok Hi He. unfold Queue_deallocate. eapply bind_Ok; [done|]. eapply lift_run; [by apply erase_entry_run|].
  eapply bind_Ok; [reflexivity|]. eapply lift_run; [by apply get_entry_run|].
  destruct (queue_books i q Hok Hi) as (_ & _ & _ & _ & Hserved & _).
  assert (Hs : serving q i = inService (base e)) by (unfold serving; by rewrite He).
  set (q2 := q.{allocatedList := filter (λ j, j ≠ i) (allocatedList q)}.{freeList := i :: freeList q}.{allocated := allocated q - 1}
     .{readyList := filter (λ j, j ≠ i) (readyList q)}.{_numInService := _numInService q - (if serving q i then 1 else 0)}).
  eapply (bind_Ok _ _ _ tt q2).
  { destruct (inService (base e)) eqn:Hie.
    - unfold modify. do 2 f_equal. unfold q2. rewrite Hs, Hserved by done. done.
    - eapply lift_run; [apply erase_entry_run; apply ready_iff; [exact Hok|by split]|]. unfold modify, q2. rewrite Hs, Z.sub_0_r. done. }
  destruct (entry_deallocate e) as [e'|f]; [|reflexivity]. eapply lift_run; [reflexivity|]. eapply bind_Ok; [reflexivity|].
  eapply bind_Ok; [reflexivity|]. change (q_drainState (set entries _ q2)) with (q_drainState q).
  change (allocated (set entries _ q2)) with (allocated q - 1). unfold when. destruct (bool_decide (q_drainState q = Draining)) eqn:Hd; cbn [andb].
  - destruct (bool_decide (allocated q - 1 = 0)); [|by destruct q]. unfold q_signalDrainDone. eapply bind_Ok; [reflexivity|].
    change (q_drainState (set entries _ q2)) with (q_drainState q). apply bool_decide_eq_true in Hd. by rewrite Hd.
  - by destruct q.
Qed.
End queue.

(** ** The write queue is a list of entries *)

Inductive wq_op :=
  | WAllocate (now blk_addr blk_size : Z) (pkt : Packet) (when_ready order : Z)
  | WSend (now : Z)
  | WFind (blk_addr : Z) (is_secure : bool).

(** what the cache does with its queue: [WSend] sends the entry that is next, if one is *)
Definition run_wq_op (op : wq_op) : M WriteQueue (option WriteQueueEntry) :=
  match op with
  | WAllocate now a size pkt ready order => WriteQueue_allocate now a size pkt ready order ;; mret None
  | WSend now =>
      q ← get; o ← lift (getNext now q);
      match o with
      | None => mret None
      | Some i => e ← lift (get_entry i q); WriteQueue_markInService i ;; mret (Some e)
      end
  | WFind a sec =>
      q ← get; o ← lift (findMatch a sec q);
      match o with None => mret None | Some i => e ← lift (get_entry i q); mret (Some e) end
  end.
Fixpoint run_wq_ops (ops : list wq_op) : M WriteQueue (list (option WriteQueueEntry)) :=
  match ops with [] => mret [] | op :: ops => o ← run_wq_op op; os ← run_wq_ops ops; mret (o :: os) end.

Definition acceptable (op : wq_op) : Prop :=
  match op with
  | WAllocate _ _ _ pkt _ _ =>
      is_Ok (isSecure pkt) ∧
      (isWrite (pkt_cmd pkt) && isUncacheable (req pkt) || isEviction (pkt_cmd pkt) && negb (isUncacheable (req pkt))) = true
  | _ => True
  end.

Definition wq_entry (now a size : Z) (pkt : Packet) (ready order : Z) (sec : bool) : WriteQueueEntry :=
  mkWriteQueueEntry (mkQueueEntry ready (isUncacheable (req pkt)) false order a size sec) [mkTarget now ready order pkt].
Definition wq_time (e : WriteQueueEntry) : Z := readyTime (wq_base e).
Definition wq_matches (a : Z) (sec : bool) (e : QueueEntry) : bool :=
  negb (qe_isUncacheable e) && bool_decide (blkAddr e = a) && Bool.eqb (qe_isSecure e) sec.

(** the specification: the entries in the order in which they were allocated *)
Inductive wq_spec : list WriteQueueEntry → wq_op → option WriteQueueEntry → list WriteQueueEntry → Prop :=
  | wq_spec_allocate l now a size pkt ready order sec :
      isSecure pkt = Ok sec → wq_spec l (WAllocate now a size pkt ready order) None (l ++ [wq_entry now a size pkt ready order sec])
  | wq_spec_send l1 e l2 now :
      wq_time e ≤ now → Forall (λ e', wq_time e < wq_time e') l1 → Forall (λ e', wq_time e ≤ wq_time e') l2 →
      wq_spec (l1 ++ e :: l2) (WSend now) (Some e) (l1 ++ l2)
  | wq_spec_idle l now : Forall (λ e, now < wq_time e) l → wq_spec l (WSend now) None l
  | wq_spec_find l a sec : wq_spec l (WFind a sec) (find (λ e, wq_matches a sec (wq_base e)) l) l.
Inductive wq_specs : list WriteQueueEntry → list wq_op → list (option WriteQueueEntry) → list WriteQueueEntry → Prop :=
  | wq_specs_nil l : wq_specs l [] [] l
  | wq_specs_cons l op o l' ops os l'' : wq_spec l op o l' → wq_specs l' ops os l'' → wq_specs l (op :: ops) (o :: os) l''.

Definition holds_entry (q : WriteQueue) (i : nat) (e : WriteQueueEntry) : Prop :=
  entries q !! i = Some e ∧ inService (wq_base e) = false ∧ ∃ t, wq_targets e = [t].

Record wq_abs (n r : Z) (q : WriteQueue) (l : list WriteQueueEntry) : Prop := {
  wa_ok : queue_ok q;
  wa_size : numEntries q = n ∧ numReserve q = r;
  wa_ready : readyList q = isort (ready_at q) (allocatedList q);
  wa_entries : Forall2 (holds_entry q) (allocatedList q) l;
  wa_free : Forall (λ i, ∃ e, entries q !! i = Some e ∧ wq_targets e = []) (freeList q);
}.

Lemma isort_ext {A} (f g : A → Z) l : (∀ x, x ∈ l → f x = g x) → isort f l = isort g l.
Proof.
  induction l as [|x l IH] using rev_ind; intros Hfg; [done|]. rewrite !isort_snoc, IH by (intros y Hy; apply Hfg; apply elem_of_app; by left).
  assert (Hin : ∀ y, y ∈ isort g l → y ∈ l) by (intros y; by rewrite isort_perm).
  clear IH. induction (isort g l) as [|y s IHs]; [done|]. cbn [place]. rewrite !Hfg by (apply elem_of_app; first [by right; left|left; apply Hin; by left]).
  case_decide; [done|]. f_equal. apply IHs. intros z Hz. apply Hin. by right.
Qed.

Section write_queue.
Context (n r : Z).
Notation wq_abs := (wq_abs n r).

Lemma holds_update q q' i e' js l :
  entries q' = <[i := e']> (entries q) → i ∉ js → Forall2 (holds_entry q) js l → Forall2 (holds_entry q') js l.
Proof.
  intros Hq Hi HF. induction HF as [|j e js l (Hj & Hrest) HF IH]; [constructor|]. apply not_elem_of_cons in Hi as [Hne Hi].
  constructor; [|by apply IH]. split; [|done]. rewrite Hq. by rewrite list_lookup_insert_ne.
Qed.

Lemma free_update q q' i e' js :
  entries q' = <[i := e']> (entries q) → i ∉ js →
  Forall (λ i, ∃ e, entries q !! i = Some e ∧ wq_targets e = []) js → Forall (λ i, ∃ e, entries q' !! i = Some e ∧ wq_targets e = []) js.
Proof.
  intros Hq Hi HF. apply Forall_forall. intros j Hj. rewrite Forall_forall in HF. destruct (HF j Hj) as (e & He & Ht).
  exists e. split; [|done]. rewrite Hq, list_lookup_insert_ne; [done|]. by intros ->.
Qed.

Lemma wq_length q l : wq_abs q l → zlength l = allocated q ∧ length (freeList q) = Z.to_nat (n - zlength l).
Proof.
  intros [Hok [Hn _] _ HF _]. pose proof (Permutation_length (qo_partition _ Hok)) as Hlen. rewrite length_app, length_seq in Hlen.
  rewrite (qo_allocated _ Hok). apply Forall2_length in HF. pose proof (qo_entries _ Hok). unfold zlength in *. lia.
Qed.

Lemma allocate_entry now a size pkt ready order e sec :
  wq_targets e = [] → isSecure pkt = Ok sec →
  (isWrite (pkt_cmd pkt) && isUncacheable (req pkt) || isEviction (pkt_cmd pkt) && negb (isUncacheable (req pkt))) = true →
  (if decide (getNumTargets e = 0) then wq_allocate now a size pkt ready order e else Fault AssertFailed) =
    Ok (wq_entry now a size pkt ready order sec).
Proof.
  intros Ht Hs Hc. unfold getNumTargets. rewrite Ht. cbn [zlength]. rewrite decide_True by done. unfold wq_allocate.
  rewrite Hs, Ht. cbn [mbind res_bind]. rewrite (bool_decide_eq_false_2 ([] ≠ [])) by tauto. by rewrite andb_false_r, Hc.
Qed.

Lemma wq_allocate_run q l now a size pkt ready order :
  wq_abs q l → acceptable (WAllocate now a size pkt ready order) →
  (zlength l = n ∧ run_wq_op (WAllocate now a size pkt ready order) q = Fault AssertFailed) ∨
  ∃ q' l', run_wq_op (WAllocate now a size pkt ready order) q = Ok (None, q') ∧
    wq_spec l (WAllocate now a size pkt ready order) None l' ∧ wq_abs q' l'.
Proof.
  intros Habs ((sec & Hs) & Hc). destruct (wq_length _ _ Habs) as [Hlen Hflen]. destruct Habs as [Hok Hsize Hready HF Hfree].
  destruct (freeList q) as [|i free] eqn:Hf.
  { left. pose proof (qo_allocated _ Hok). pose proof (qo_entries _ Hok). pose proof (Permutation_length (qo_partition _ Hok)) as Hl.
    rewrite Hf, app_nil_r, length_seq in Hl. split; [unfold zlength in *; lia|]. unfold run_wq_op. apply bind_Fault.
    unfold WriteQueue_allocate, take_entry. eapply bind_Ok; [reflexivity|]. by rewrite Hf. }
  right. apply Forall_cons in Hfree as [(e & He & Ht) Hfree]. pose proof (queue_nodup _ Hok) as Hnd. rewrite Hf in Hnd.
  apply NoDup_app in Hnd as (_ & Hd & [Hifree _]%NoDup_cons).
  assert (Hia : i ∉ allocatedList q) by (intros H; apply (Hd i H); by left).
  destruct (take_entry_run i free e _ q
    (λ e, if decide (getNumTargets e = 0) then wq_allocate now a size pkt ready order e else Fault AssertFailed)
    Hok Hf He (allocate_entry now a size pkt ready order e sec Ht Hs Hc) eq_refl)
    as (lr & Hrun & Hok' & Hplace).
  set (e' := wq_entry now a size pkt ready order sec) in *. set (q' := enlist i free e' lr q) in *.
  assert (Hat : ∀ j, j ∈ allocatedList q → ready_at q' j = ready_at q j).
  { intros j Hj. unfold ready_at. cbn. rewrite list_lookup_insert_ne; [done|]. by intros ->. }
  exists q', (l ++ [e']). split; [by eapply bind_Ok|]. split; [by constructor|]. split; [exact Hok'|exact Hsize|..].
  - change (lr = isort (ready_at q') (allocatedList q ++ [i])). rewrite isort_snoc, (isort_ext _ _ _ Hat), <-Hready.
    apply Hplace. rewrite Hready. apply isort_sorted.
  - change (allocatedList q') with (allocatedList q ++ [i]). apply Forall2_app; [by eapply holds_update|].
    apply Forall2_cons. split; [|constructor]. split; [|by split; [|eexists]]. cbn. apply list_lookup_insert_eq. by eapply lookup_lt_Some.
  - by eapply (free_update q q').
Qed.

Lemma wq_remove_run q l i e :
  wq_abs q l → i ∈ allocatedList q → holds_entry q i e → ∃ q',
    WriteQueue_markInService i q = Ok (tt, q') ∧ queue_ok q' ∧ numEntries q' = n ∧ numReserve q' = r ∧
    allocatedList q' = filter (λ j, j ≠ i) (allocatedList q) ∧ readyList q' = filter (λ j, j ≠ i) (readyList q) ∧
    freeList q' = i :: freeList q ∧ ∃ e', entries q' = <[i := e']> (entries q) ∧ wq_targets e' = [].
Proof.
  intros Habs Hi (He & Hs & t & Ht). destruct Habs as [Hok [Hn Hr] _ _ _].
  set (e1 := e.{wq_targets := [] }). set (q1 := q.{entries := <[i := e1]> (entries q)}).
  assert (Hok1 : queue_ok q1).
  { assert (Hsi : serving q i = false) by (unfold serving; rewrite He; exact Hs).
    replace q1 with (toggle i e1 (_numInService q) (readyList q) q) by (by destruct q).
    destruct (queue_books i q Hok Hi) as (_ & _ & _ & Hw & _ & _).
    apply toggle_ok; [done|done|..]; change (inService (base e1)) with (inService (wq_base e)); rewrite Hs; [by apply Hw|].
    rewrite Hsi. lia. }
  assert (He1 : entries q1 !! i = Some e1) by (apply list_lookup_insert_eq; by eapply lookup_lt_Some).
  assert (Hrun : WriteQueue_markInService i q = Queue_deallocate i q1).
  { unfold WriteQueue_markInService. eapply bind_Ok; [done|]. eapply lift_run; [by apply get_entry_run|].
    eapply lift_run; [unfold popTarget; by rewrite Ht|]. by eapply bind_Ok; [reflexivity|]. }
  rewrite Hrun, (Queue_deallocate_run i e1 q1 Hok1 Hi He1). cbn [entry_deallocate WriteQueueEntry_entry].
  unfold wq_deallocate. change (wq_targets e1) with (@nil Target). rewrite decide_True by done.
  set (e2 := e1.{wq_base ::= _}). eexists. split; [reflexivity|]. split; [|split; [exact Hn|]; split; [exact Hr|]].
  { by destruct (delist_ok i e2 q1 Hok1 Hi). }
  do 3 (split; [reflexivity|]). exists e2. split; [|done]. cbn. by rewrite list_insert_insert_eq.
Qed.

Lemma entries_there q l : wq_abs q l → ∀ j, j ∈ allocatedList q → ∃ e, entries q !! j = Some e ∧ e ∈ l.
Proof.
  intros [_ _ _ HF _] j Hj. induction HF as [|i e js l' (Hi & _) HF IH]; [by apply elem_of_nil in Hj|].
  apply elem_of_cons in Hj as [->|Hj]; [exists e; split; [done|by left]|]. destruct (IH Hj) as (e' & ? & ?). exists e'. split; [done|by right].
Qed.

Lemma times_at q js l (P : Z → Prop) :
  Forall2 (holds_entry q) js l → Forall (λ j, P (ready_at q j)) js → Forall (λ e, P (wq_time e)) l.
Proof.
  induction 1 as [|j e js l (Hj & _) HF IH]; intros HP; [constructor|]. apply Forall_cons in HP as [Hp HP].
  constructor; [|by apply IH]. unfold ready_at in Hp. rewrite Hj in Hp. exact Hp.
Qed.

Lemma removed_abs q q' l1 e l2 i rest a1 a2 e' :
  wq_abs q (l1 ++ e :: l2) → allocatedList q = a1 ++ i :: a2 → isort (ready_at q) (allocatedList q) = i :: rest →
  Forall2 (holds_entry q) a1 l1 → Forall2 (holds_entry q) a2 l2 → entries q !! i = Some e →
  queue_ok q' → numEntries q' = n → numReserve q' = r → allocatedList q' = filter (λ j, j ≠ i) (allocatedList q) →
  readyList q' = filter (λ j, j ≠ i) (readyList q) → freeList q' = i :: freeList q →
  entries q' = <[i := e']> (entries q) → wq_targets e' = [] → wq_abs q' (l1 ++ l2).
Proof.
  intros [Hok _ Hready _ Hfree] Ha Hs HF1 HF2 He Hok' Hn Hr Ha' Hr' Hf' He' Ht'.
  pose proof (queue_nodup _ Hok) as Hnd. rewrite Ha in Hnd. apply NoDup_app in Hnd as (Hnd & Hd & _).
  assert (Hfr : i ∉ freeList q) by (apply Hd; apply elem_of_app; right; by left).
  apply NoDup_app in Hnd as (_ & Hd1 & [Hi2 _]%NoDup_cons).
  assert (Hi1 : i ∉ a1) by (intros H; apply (Hd1 i H); by left).
  assert (Hall : allocatedList q' = a1 ++ a2).
  { rewrite Ha', Ha, filter_app, filter_cons, decide_False by tauto. by rewrite !filter_ne_absent. }
  split; [done|done|..].
  - rewrite Hr', Hready, filter_isort, <-Ha'. apply isort_ext. intros j Hj. rewrite Ha' in Hj.
    apply list_elem_of_filter in Hj as [Hj _]. unfold ready_at. rewrite He'. by rewrite list_lookup_insert_ne.
  - rewrite Hall. apply Forall2_app; by eapply holds_update.
  - rewrite Hf'. constructor; [|by eapply free_update]. exists e'. split; [|done]. rewrite He'.
    apply list_lookup_insert_eq. by eapply lookup_lt_Some.
Qed.

Lemma wq_send_run q l now : wq_abs q l →
  ∃ o q' l', run_wq_op (WSend now) q = Ok (o, q') ∧ wq_spec l (WSend now) o l' ∧ wq_abs q' l'.
Proof.
  intros Habs. pose proof Habs as [Hok Hsize Hready HF Hfree]. unfold run_wq_op, getNext.
  destruct (readyList q) as [|i rest] eqn:Hq.
  { exists None, q, l. split; [eapply bind_Ok; [reflexivity|]; eapply lift_run; [by rewrite Hq|done]|]. split; [|done]. apply wq_spec_idle.
    pose proof (isort_perm (ready_at q) (allocatedList q)) as Hp. rewrite <-Hready in Hp. apply Permutation_nil in Hp as Hnil.
    rewrite Hnil in HF. apply Forall2_nil_inv_l in HF as ->. constructor. }
  symmetry in Hready. destruct (isort_head _ _ _ _ Hready) as (a1 & a2 & Ha & H1 & H2).
  rewrite Ha in HF. apply Forall2_app_inv_l in HF as (l1 & l2' & HF1 & HF2 & ->).
  apply Forall2_cons_inv_l in HF2 as (e & l2 & Hh & HF2 & ->). pose proof Hh as (He & _).
  assert (Ht : ready_at q i = wq_time e) by (unfold ready_at; by rewrite He).
  destruct (decide (wq_time e > now)) as [Hlate|Hdue].
  { exists None, q, (l1 ++ e :: l2). split; [|split; [|done]].
    - eapply bind_Ok; [reflexivity|]. eapply lift_run; [rewrite Hq, (entry_time_run _ _ _ He), Ht; cbn; by rewrite decide_True|done].
    - apply wq_spec_idle. apply Forall_app. split; [|constructor; [lia|]].
      + eapply times_at; [exact HF1|]. eapply Forall_impl; [exact H1|]. cbn. lia.
      + eapply times_at; [exact HF2|]. eapply Forall_impl; [exact H2|]. cbn. lia. }
  assert (Hi : i ∈ allocatedList q) by (rewrite Ha; apply elem_of_app; right; by left).
  destruct (wq_remove_run q _ i e Habs Hi Hh) as (q' & Hrun & Hok' & Hn & Hr & Ha' & Hr' & Hf' & e' & He' & Ht').
  exists (Some e), q', (l1 ++ l2). split; [|split].
  - eapply bind_Ok; [reflexivity|]. eapply lift_run; [rewrite Hq, (entry_time_run _ _ _ He), Ht; cbn; by rewrite decide_False by lia|].
    eapply lift_run; [by apply get_entry_run|]. by eapply bind_Ok; [exact Hrun|].
  - apply wq_spec_send; [lia|..].
    + rewrite Ht in H1. eapply times_at; [exact HF1|exact H1].
    + rewrite Ht in H2. eapply times_at; [exact HF2|exact H2].
  - by eapply removed_abs.
Qed.

Lemma wq_find_run q l a sec : wq_abs q l →
  ∃ o, run_wq_op (WFind a sec) q = Ok (o, q) ∧ wq_spec l (WFind a sec) o l.
Proof.
  intros Habs. exists (find (λ e, wq_matches a sec (wq_base e)) l). split; [|constructor].
  unfold run_wq_op, findMatch. eapply bind_Ok; [reflexivity|].
  assert (Hl : ∀ j, j ∈ allocatedList q → ∃ e, entries q !! j = Some e).
  { intros j Hj. by apply allocated_there; [apply wa_ok in Habs|]. }
  eapply lift_run; [by apply (first_entry_run q (wq_matches a sec))|]. clear Hl.
  pose proof (wa_entries _ _ _ _ Habs) as HF. clear Habs. induction HF as [|j e js l' (He & _) HF IH]; [done|]. cbn [find]. rewrite He.
  change (base e) with (wq_base e). destruct (wq_matches a sec (wq_base e)); [|exact IH].
  eapply lift_run; [by apply get_entry_run|]. done.
Qed.

Lemma wq_op_run q l op : wq_abs q l → acceptable op →
  (zlength l = n ∧ (∃ now a size pkt ready order, op = WAllocate now a size pkt ready order) ∧ run_wq_op op q = Fault AssertFailed) ∨
  ∃ o q' l', run_wq_op op q = Ok (o, q') ∧ wq_spec l op o l' ∧ wq_abs q' l'.
Proof.
  intros Habs Hop. destruct op as [now a size pkt ready order|now|a sec].
  - destruct (wq_allocate_run q l now a size pkt ready order Habs Hop) as [[Hl Hf]|(q' & l' & ?)].
    + left. split; [done|]. split; [by repeat eexists|done].
    + right. by exists None, q', l'.
  - right. by apply wq_send_run.
  - right. destruct (wq_find_run q l a sec Habs) as (o & ? & ?). by exists o, q, l.
Qed.

Lemma wq_ops_run ops q l : wq_abs q l → Forall acceptable ops →
  match run_wq_ops ops q with
  | Ok (outs, q') => ∃ l', wq_specs l ops outs l' ∧ wq_abs q' l'
  | Fault f => f = AssertFailed ∧ ∃ ops1 now a size pkt ready order ops2 outs l',
      ops = ops1 ++ WAllocate now a size pkt ready order :: ops2 ∧ wq_specs l ops1 outs l' ∧ zlength l' = n
  end.
Proof.
  intros Habs Hops. revert q l Habs. induction Hops as [|op ops Hop Hops IH]; intros q l Habs.
  { exists l. split; [constructor|done]. }
  cbn [run_wq_ops]. destruct (wq_op_run q l op Habs Hop) as [(Hl & (now & a & size & pkt & ready & order & ->) & Hrun)|(o & q1 & l1 & Hrun & Hspec & Habs1)].
  - rewrite (bind_Fault _ _ _ _ Hrun). split; [done|]. exists [], now, a, size, pkt, ready, order, ops, [], l.
    split; [done|]. split; [constructor|done].
  - erewrite bind_Ok; [|exact Hrun|reflexivity]. specialize (IH q1 l1 Habs1).
    destruct (run_wq_ops ops q1) as [[outs q2]|f] eqn:Hruns.
    + erewrite bind_Ok; [|exact Hruns|reflexivity]. cbn. destruct IH as (l' & Hspecs & Habs'). exists l'. split; [by econstructor|done].
    + rewrite (bind_Fault _ _ _ _ Hruns). destruct IH as (-> & ops1 & now & a & size & pkt & ready & order & ops2 & outs & l' & -> & Hspecs & Hl).
      split; [done|]. exists (op :: ops1), now, a, size, pkt, ready, order, ops2, (o :: outs), l'. split; [done|]. split; [by econstructor|done].
Qed.

Lemma wq_new_abs : 0 ≤ n - r → 0 ≤ r → wq_abs (WriteQueue_new (n - r) r) [].
Proof.
  intros Hn Hr. unfold WriteQueue_new, Queue_new. replace (n - r + r) with n by lia. split.
  - split; cbn; rewrite ?length_replicate; unfold zlength; rewrite ?length_replicate; try done; lia.
  - done.
  - done.
  - constructor.
  - cbn. apply Forall_forall. intros i Hi. apply elem_of_seq in Hi. exists (mkWriteQueueEntry QueueEntry_new []).
    split; [|done]. apply lookup_replicate_2. lia.
Qed.
End write_queue.

(** C20: the write queue of a cache implements a list of entries in the order of their allocation, each with
    one packet.  For all sizes and all sequences of operations with packets that a write queue takes,
    the only fault is the assertion of an allocation when every entry, reserved ones included, is used.
    A send takes the entry that is ready first, of several the one allocated first, or none when none is due; a
    search finds the first cacheable entry of the line; and the queue reports that it is
    full when only the reserved entries are left. *)
Theorem write_queue_implements_list num_entries reserve ops :
  0 ≤ num_entries → 0 ≤ reserve → Forall acceptable ops →
  match run_wq_ops ops (WriteQueue_new num_entries reserve) with
  | Ok (outs, q) => ∃ l, wq_specs [] ops outs l ∧ isFull q = bool_decide (num_entries ≤ zlength l) ∧
      isEmpty q = bool_decide (l = [])
  | Fault f => f = AssertFailed ∧ ∃ ops1 now a size pkt ready order ops2 outs l,
      ops = ops1 ++ WAllocate now a size pkt ready order :: ops2 ∧ wq_specs [] ops1 outs l ∧
      zlength l = num_entries + reserve
  end.
Proof.
  intros Hn Hr Hops. pose proof (wq_new_abs (num_entries + reserve) reserve ltac:(lia) Hr) as Habs.
  replace (num_entries + reserve - reserve) with num_entries in Habs by lia.
  pose proof (wq_ops_run _ _ ops _ _ Habs Hops) as H. destruct (run_wq_ops ops _) as [[outs q]|f]; [|exact H].
  destruct H as (l & Hspecs & Hq). exists l. split; [exact Hspecs|]. destruct (wq_length _ _ _ _ Hq) as [Hlen _].
  pose proof (wa_size _ _ _ _ Hq) as [Hs Hres]. unfold isFull, isEmpty. split; apply bool_decide_ext; [lia|].
  rewrite <-Hlen. unfold zlength. destruct l; cbn; split; intros; first [done|lia].
Qed.

(** a writeback, an eviction that is ready before it, and a queue of one entry with one in reserve *)
Definition ex_writeback (a t : Z) : wq_op :=
  let rq := (plain_request 3 0).{req_paddr := Some a}.{req_size := Some 64} in
  WAllocate 5 a 64 ((Packet_new rq WritebackDirty).{pkt_bytes := Some (replicate 64 7)}) t 1.
Definition ex_wq_ops : list wq_op :=
  [ex_writeback 128 20; ex_writeback 192 10; WFind 192 false; WSend 9; WSend 10; WSend 30; WSend 30].

Lemma write_queue_implements_list_witness :
  Forall acceptable ex_wq_ops ∧
  (∃ outs q, run_wq_ops ex_wq_ops (WriteQueue_new 1 1) = Ok (outs, q) ∧
     map (option_map (λ e, blkAddr (wq_base e))) outs = [None; None; Some 192; None; Some 192; Some 128; None]) ∧
  run_wq_ops (ex_writeback 256 1 :: ex_wq_ops) (WriteQueue_new 1 1) = Fault AssertFailed ∧
  match run_wq_ops ex_wq_ops (WriteQueue_new 1 1) with
  | Ok (outs, q) => ∃ l, wq_specs [] ex_wq_ops outs l ∧ isFull q = bool_decide (1 ≤ zlength l) ∧ isEmpty q = bool_decide (l = [])
  | Fault f => f = AssertFailed ∧ ∃ ops1 now a size pkt ready order ops2 outs l,
      ex_wq_ops = ops1 ++ WAllocate now a size pkt ready order :: ops2 ∧ wq_specs [] ops1 outs l ∧ zlength l = 1 + 1
  end.
Proof.
  assert (H : Forall acceptable ex_wq_ops) by (repeat (apply Forall_cons; split; [try done; by split; [eexists|]|]); constructor).
  split; [exact H|]. split; [eexists _, _; split; vm_compute; reflexivity|]. split; [vm_compute; reflexivity|].
  exact (write_queue_implements_list 1 1 ex_wq_ops ltac:(lia) ltac:(lia) H).
Defined.
