(* ===== verification/MSHRRun.v ===== *)
(** * What the queue of outstanding misses keeps

    Whatever a cache does to its misses, the lists of their queue name the entries they should. *)

From S2P Require Import Prelude MemPacket XBarLayer CacheQueue MSHR QueueRun.

Section mshr_queue.
Context {W : Type} `{!Upstream W}.
Context (now : Z) (raw : Z → list Z).

(** ** Methods of an entry that leave it in service, or not *)

Definition keeps {A} (m : M (MSHR * W) A) : Prop :=
  ∀ s a s', m s = Ok (a, s') → inService (ms_base s'.1) = inService (ms_base s.1).

Lemma serving_kept_bind {A B} (m : M (MSHR * W) A) (k : A → M (MSHR * W) B) : keeps m → (∀ a, keeps (k a)) → keeps (m ≫= k).
Proof.
  intros Hm Hk s b s' (a & s1 & H1 & H2)%bind_inv. rewrite (Hk a _ _ _ H2). by eapply Hm.
Qed.
Lemma serving_kept_state {A} (m : M (MSHR * W) A) : (∀ s a s', m s = Ok (a, s') → s' = s) → keeps m.
Proof. intros Hm s a s' H. by rewrite (Hm _ _ _ H). Qed.
Lemma serving_kept_ret {A} (a : A) : keeps (mret a).
Proof. apply serving_kept_state. by intros s a' s' [= _ <-]. Qed.
Lemma serving_kept_throw {A} f : keeps (throw f : M (MSHR * W) A).
Proof. by intros s a s' H. Qed.
Lemma serving_kept_lift {A} (m : res A) : keeps (lift m).
Proof. apply serving_kept_state. by intros s a s' [_ ->]%lift_inv. Qed.
Lemma serving_kept_check b : keeps (check b).
Proof. apply serving_kept_state. by intros s a s' [_ ->]%check_inv. Qed.
Lemma serving_kept_this : keeps (this (W := W)).
Proof. apply serving_kept_state. by intros s a s' [= _ <-]. Qed.
Lemma keeps_on_mshr f : (∀ m, inService (ms_base (f m)) = inService (ms_base m)) → keeps (on_mshr f).
Proof. intros Hf s a s' H. injection H as _ <-. apply Hf. Qed.
Lemma keeps_on_targets f : keeps (on_targets f).
Proof. intros [m w] a s' H. unfold on_targets, on_list in H. destruct (f _ _) as [[l w']|]; [|done]. by injection H as _ <-. Qed.
Lemma keeps_on_deferred f : keeps (on_deferred f).
Proof. intros [m w] a s' H. unfold on_deferred, on_list in H. destruct (f _ _) as [[l w']|]; [|done]. by injection H as _ <-. Qed.
Lemma serving_kept_when b (m : M (MSHR * W) unit) : keeps m → keeps (when b m).
Proof. intros Hm. destruct b; [exact Hm|apply serving_kept_ret]. Qed.

Ltac keeps_steps :=
  repeat first
    [ apply serving_kept_ret | apply serving_kept_throw | apply serving_kept_lift | apply serving_kept_check | apply serving_kept_this | apply serving_kept_when
    | apply keeps_on_targets | apply keeps_on_deferred | (apply keeps_on_mshr; done)
    | (apply serving_kept_bind; [|intros ?]) | progress cbv zeta | case_match ].

Lemma keeps_allocateTarget pkt t order alloc : keeps (MSHR_allocateTarget now raw pkt t order alloc).
Proof. unfold MSHR_allocateTarget. keeps_steps. Qed.
Lemma keeps_handleSnoop new_req pkt order : keeps (MSHR_handleSnoop now raw new_req pkt order).
Proof. unfold MSHR_handleSnoop. keeps_steps. Qed.
Lemma keeps_promoteWritable : keeps promoteWritable.
Proof. unfold promoteWritable. keeps_steps. Qed.
Lemma keeps_clearDownstreamPending : keeps MSHR_clearDownstreamPending.
Proof. unfold MSHR_clearDownstreamPending. keeps_steps. Qed.

Lemma MSHR_allocate_idle a size pkt t order alloc s u s' :
  MSHR_allocate now a size pkt t order alloc s = Ok (u, s') → inService (ms_base s'.1) = false.
Proof.
  unfold MSHR_allocate. intros H. inv_step H. apply bind_inv in H as (m & s1 & Hm & H). injection Hm as _ <-.
  apply bind_inv in H as (u' & s2 & Hset & H). injection Hset as _ <-.
  revert H. match goal with |- ?run ?s0 = _ → _ => assert (Hk : keeps run) by keeps_steps; intros H; by rewrite (Hk _ _ _ H) end.
Qed.

Lemma MSHR_markInService_served pm s u s' :
  MSHR_markInService pm s = Ok (u, s') → inService (ms_base s.1) = false ∧ inService (ms_base s'.1) = true.
Proof.
  unfold MSHR_markInService. intros H. apply bind_inv in H as (m & s1 & Hm & H). injection Hm as <- <-.
  apply bind_inv in H as (u' & s2 & Hc & H). apply check_inv in Hc as [Hc ->]. apply negb_true_iff in Hc. split; [exact Hc|].
  apply bind_inv in H as (u'' & s3 & Hset & H). injection Hset as _ <-.
  assert (Hk : keeps (when (negb (downstreamPending s.1)) (on_targets TargetList_clearDownstreamPending))) by keeps_steps.
  by rewrite (Hk _ _ _ H).
Qed.

Lemma extract_keeps pkt m l m' : extractServiceableTargets pkt m = Ok (l, m') → inService (ms_base m') = inService (ms_base m).
Proof.
  unfold extractServiceableTargets. intros H. inv_step H. apply bind_inv in H as (ts & m1 & H1 & H).
  inv_step H. inv_step H. inv_step H. injection H as _ <-. change (inService (ms_base m1) = inService (ms_base m)).
  case_decide; [|by injection H1 as _ <-]. destruct (tl (targets m)) as [|t r]; [done|]. inv_step H1. inv_step H1.
  destruct v1 as [ready rest]. do 2 inv_step H1. by injection H1 as _ <-.
Qed.

Lemma promote_keeps m b m' : promoteDeferredTargets now m = Ok (b, m') → inService (ms_base m') = inService (ms_base m).
Proof.
  unfold promoteDeferredTargets. intros H. inv_step H.
  destruct (tl (targets m)) as [|t ts] eqn:E1, (tl (deferredTargets m)) as [|d ds] eqn:E2; [by injection H as _ <-|..];
    inv_step H; inv_step H; destruct (tl _) in H; [done| |done| |done|]; inv_step H; by injection H as _ <-.
Qed.

(** ** The books of the queue *)

Lemma on_entry_inv {A} i (m : M (MSHR * W) A) s a s' :
  on_entry i m s = Ok (a, s') → ∃ e e', entries s.1 !! i = Some e ∧ m (e, s.2) = Ok (a, (e', s'.2)) ∧
    s'.1 = s.1.{entries := <[i := e']> (entries s.1)}.
Proof.
  unfold on_entry. destruct (entries s.1 !! i) as [e|]; [|done]. destruct (m (e, s.2)) as [[a' [e' w']]|] eqn:Hm; [|done].
  intros [= <- <-]. by exists e, e'.
Qed.

Lemma zoom_fst_inv {A} (m : M MSHRQueue A) (s : MSHRQueue * W) a s' : on_mq m s = Ok (a, s') → m s.1 = Ok (a, s'.1) ∧ s'.2 = s.2.
Proof. intros (q & Hq & ->)%zoom_inv. done. Qed.

(** an entry changes, but not whether it is served *)
Lemma update_ok (q : MSHRQueue) i e e' :
  queue_ok q → entries q !! i = Some e → inService (base e') = inService (base e) → queue_ok (q.{entries := <[i := e']> (entries q)}).
Proof.
  intros Hok He Hs. set (q' := q.{entries := _}).
  assert (Hsrv : ∀ j, serving q' j = serving q j).
  { intros j. rewrite (serving_insert q q' i e' j eq_refl) by (by eexists). case_decide as Hj; [|done].
    subst. unfold serving. by rewrite He. }
  destruct Hok as [Hp Hn Ha Hr Hc]. split; [cbn; by rewrite length_insert|cbn; unfold zlength in *; by rewrite length_insert|exact Ha|..].
  - change (readyList q ≡ₚ filter (λ j, serving q' j = false) (allocatedList q)). rewrite Hr.
    apply reflexive_eq, filter_ext_in. intros j _. by rewrite Hsrv.
  - change (_numInService q = zlength (filter (λ j, serving q' j = true) (allocatedList q))). rewrite Hc. f_equal.
    apply filter_ext_in. intros j _. by rewrite Hsrv.
Qed.

Lemma keeps_entry_ok {A} i (m : M (MSHR * W) A) (s : MSHRQueue * W) a s' :
  keeps m → queue_ok s.1 → on_entry i m s = Ok (a, s') → queue_ok s'.1.
Proof.
  intros Hm Hok (e & e' & He & Hrun & ->)%on_entry_inv. eapply update_ok; [done..|]. exact (Hm _ _ _ Hrun).
Qed.

Lemma deallocate_ok i (q : MSHRQueue) u q' : queue_ok q → Queue_deallocate i q = Ok (u, q') → queue_ok q'.
Proof.
  intros Hok H. pose proof H as H0. unfold Queue_deallocate in H0. inv_step H0. inv_step H0.
  apply erase_entry_inv in Hlift as [Hi _]. destruct (allocated_there _ _ Hok Hi) as (e & He).
  rewrite (Queue_deallocate_run i e q Hok Hi He) in H. destruct (entry_deallocate e) as [e'|]; [|done]. injection H as _ <-.
  by destruct (delist_ok i e' q Hok Hi).
Qed.

Lemma mq_allocate_ok (s : MSHRQueue * W) a size pkt t order alloc i s' :
  queue_ok s.1 → MSHRQueue_allocate now a size pkt t order alloc s = Ok (i, s') → queue_ok s'.1.
Proof.
  intros Hok H. unfold MSHRQueue_allocate in H. inv_step H. destruct (freeList s.1) as [|j free] eqn:Hf; [discriminate H|].
  inv_step H. inv_step H. apply bind_inv in H as (u & s1 & [H1 _]%zoom_fst_inv & H). injection H1 as _ H1.
  apply bind_inv in H as (u' & s2 & (e & e' & He & Hrun & Hs2)%on_entry_inv & H). apply MSHR_allocate_idle in Hrun.
  apply bind_inv in H as (u2 & s3 & [H3 _]%zoom_fst_inv & H). injection H3 as _ H3.
  apply bind_inv in H as (u3 & s4 & [H4 _]%zoom_fst_inv & H).
  apply bind_inv in H as (u4 & s5 & [H5 _]%zoom_fst_inv & H). injection H5 as _ H5. injection H as _ <-.
  destruct (enlist_run j free e' s.1 Hok Hf) as (l & Hl & _ & Hadd).
  assert (Hs3 : s3.1 = s.1.{freeList := free}.{entries := <[j := e']> (entries s.1)}.{allocatedList := allocatedList s.1 ++ [j] }).
  { rewrite <-H3, Hs2, <-H1. by destruct s as [[] ?]. }
  rewrite Hs3, Hadd in H4. injection H4 as _ H4. rewrite <-H5, <-H4.
  by destruct (enlist_ok j free e' l s.1 Hok Hf Hrun Hl).
Qed.

Lemma mq_serve_ok i pm (s : MSHRQueue * W) u s' : queue_ok s.1 → MSHRQueue_markInService i pm s = Ok (u, s') → queue_ok s'.1.
Proof.
  intros Hok H. unfold MSHRQueue_markInService in H.
  apply bind_inv in H as (u' & s1 & (e & e' & He & [Hw Hs]%MSHR_markInService_served & Hs1)%on_entry_inv & H).
  inv_step H. inv_step H. apply erase_entry_inv in Hlift as [Hi ->]. rewrite Hs1 in Hi. cbn in Hi.
  apply zoom_fst_inv in H as [H _]. injection H as _ H. rewrite <-H, Hs1.
  apply ready_iff in Hi as [Hi Hwait]; [|done].
  assert (Hok' : queue_ok (toggle i e' (_numInService s.1 + 1) (filter (λ j, j ≠ i) (readyList s.1)) s.1)).
  { apply toggle_ok; [done|done|..]; change (base e') with (ms_base e'); cbn in Hs; rewrite Hs; [done|]. rewrite Hwait. lia. }
  by destruct Hok'.
Qed.

Lemma mq_pending_ok i q u q' : queue_ok q → i ∈ allocatedList q → markPending i q = Ok (u, q') → queue_ok q'.
Proof.
  intros Hok Hi H. unfold markPending in H. inv_step H. inv_step H. inv_step H. inv_step H. inv_step H.
  destruct (allocated_there _ _ Hok Hi) as (e & He). rewrite (get_entry_run _ _ _ He) in Hlift. injection Hlift as <-.
  set (e' := e.{ms_base ::= λ b, b.{inService := false} }) in *.
  set (q1 := q.{entries := <[i := e']> (entries q)}.{_numInService := Z.pred (_numInService q)}).
  assert (Hq1 : addToReadyList i q1 = Ok (u, q')) by (rewrite <-H; by injection Hstep as _ <-). clear H Hstep.
  assert (Hs : serving q i = true) by (unfold serving; by rewrite He).
  destruct (queue_books i q Hok Hi) as (_ & _ & _ & _ & Hserved & _).
  destruct (addToReadyList_run q1 i e') as (l & Hrun & Hl & _).
  { cbn. apply list_lookup_insert_eq. by eapply lookup_lt_Some. }
  { intros j Hj. destruct (lists_there q j Hok Hj) as (ej & Hej). destruct (decide (j = i)) as [->|Hne].
    - exists e'. cbn. apply list_lookup_insert_eq. by eapply lookup_lt_Some.
    - exists ej. cbn. by rewrite list_lookup_insert_ne. }
  rewrite Hrun in Hq1. injection Hq1 as _ <-.
  assert (Hok' : queue_ok (toggle i e' (_numInService q - 1) l q)).
  { apply toggle_ok; [done|done|..]; change (inService (base e')) with false; [by rewrite Hserved|]. rewrite Hs. lia. }
  by destruct Hok'.
Qed.

Lemma mq_front_ok i q u q' : queue_ok q → moveToFront i q = Ok (u, q') → queue_ok q'.
Proof.
  intros Hok H. unfold moveToFront in H. inv_step H. inv_step H. destruct (inService (ms_base v)); [by injection H as _ <-|].
  inv_step H. apply erase_entry_inv in Hlift0 as [Hi ->]. injection H as _ <-.
  pose proof (filter_ne_perm i _ (ready_nodup _ Hok) Hi) as Hp. destruct Hok as [Hpart Hn Ha Hr Hc]. split; [done..| |done].
  change (i :: filter (λ j, j ≠ i) (readyList q) ≡ₚ filter (λ i, serving q i = false) (allocatedList q)). by rewrite <-Hp.
Qed.

Lemma get_entry_inv i (q : MSHRQueue) e : get_entry i q = Ok e → entries q !! i = Some e.
Proof. unfold get_entry, of_option. destruct (entries q !! i); [by intros [= ->]|done]. Qed.

Lemma put_entry_ok i e e' (q : MSHRQueue) u q' :
  queue_ok q → get_entry i q = Ok e → inService (ms_base e') = inService (ms_base e) → put_entry i e' q = Ok (u, q') →
  queue_ok q' ∧ get_entry i q' = Ok e'.
Proof.
  intros Hok He%get_entry_inv Hs H. injection H as _ <-. split; [by eapply update_ok|]. apply get_entry_run. cbn.
  apply list_lookup_insert_eq. by eapply lookup_lt_Some.
Qed.

Lemma mq_force_ok i q b q' : queue_ok q → forceDeallocateTarget now i q = Ok (b, q') → queue_ok q'.
Proof.
  intros Hok H. unfold forceDeallocateTarget in H. inv_step H. inv_step H. inv_step H. inv_step H. inv_step H.
  assert (Hs : inService (ms_base v1) = inService (ms_base v)).
  { unfold MSHR_popTarget in Hlift0. destruct (tl (targets v)); [done|]. by injection Hlift0 as <-. }
  destruct (put_entry_ok _ _ _ _ _ _ Hok Hlift Hs Hstep) as [Hok1 He1].
  apply bind_inv in H as (u & q2 & H2 & H). inv_step H. injection H as _ <-.
  destruct (MSHR_hasTargets v1); [by injection H2 as _ <-|].
  inv_step H2. destruct v3 as [promoted e2]. inv_step H2. apply promote_keeps in Hlift1.
  destruct (put_entry_ok _ _ _ _ _ _ Hok1 He1 Hlift1 Hstep0) as [Hok2 _].
  destruct promoted; [by injection H2 as _ <-|]. by eapply deallocate_ok.
Qed.

(** ** What a cache does to its misses *)

Inductive mq_step : MSHRQueue * W → MSHRQueue * W → Prop :=
  | mq_allocate a size pkt t order alloc i s s' : MSHRQueue_allocate now a size pkt t order alloc s = Ok (i, s') → mq_step s s'
  | mq_serve i pm s s' : MSHRQueue_markInService i pm s = Ok (tt, s') → mq_step s s'
  | mq_pending i s s' : i ∈ allocatedList s.1 → on_mq (markPending i) s = Ok (tt, s') → mq_step s s'
  | mq_front i s s' : on_mq (moveToFront i) s = Ok (tt, s') → mq_step s s'
  | mq_force i b s s' : on_mq (forceDeallocateTarget now i) s = Ok (b, s') → mq_step s s'
  | mq_deallocate i s s' : on_mq (Queue_deallocate i) s = Ok (tt, s') → mq_step s s'
  | mq_target i pkt t order alloc s s' : on_entry i (MSHR_allocateTarget now raw pkt t order alloc) s = Ok (tt, s') → mq_step s s'
  | mq_snoop i new_req pkt order r s s' : on_entry i (MSHR_handleSnoop now raw new_req pkt order) s = Ok (r, s') → mq_step s s'
  | mq_writable i s s' : on_entry i promoteWritable s = Ok (tt, s') → mq_step s s'
  | mq_clear i s s' : on_entry i MSHR_clearDownstreamPending s = Ok (tt, s') → mq_step s s'
  | mq_extract i pkt l s s' :
      on_entry i (zoom fst (λ m s, (m, s.2)) (extractServiceableTargets pkt)) s = Ok (l, s') → mq_step s s'
  | mq_promote i b s s' :
      on_entry i (zoom fst (λ m s, (m, s.2)) (promoteDeferredTargets now)) s = Ok (b, s') → mq_step s s'
  | mq_satisfied pkt a r s s' : on_mq (Queue_checkFunctional pkt a) s = Ok (r, s') → mq_step s s'.

Lemma check_targets_ok pkt e r pkt' e' : MSHR_checkFunctional pkt e = Ok (r, pkt', e') → inService (ms_base e') = inService (ms_base e).
Proof.
  unfold MSHR_checkFunctional. destruct (isPrint _); [by intros [= _ _ <-]|].
  intros ([[done1 p1] l1] & _ & H)%res_bind_inv. destruct done1; [by injection H as _ _ <-|].
  apply res_bind_inv in H as ([[done2 p2] l2] & _ & H). by injection H as _ _ <-.
Qed.

Lemma checkFunctional_in_ok a l : ∀ pkt (q : MSHRQueue) r q', queue_ok q → checkFunctional_in pkt a l q = Ok (r, q') → queue_ok q'.
Proof.
  induction l as [|i l IH]; intros pkt q r q' Hok H; cbn [checkFunctional_in] in H; [by injection H as _ <-|].
  inv_step H. inv_step H. case_decide; [|by eapply IH]. inv_step H. destruct v0 as [[done pkt'] e']. inv_step H.
  destruct (put_entry_ok i v e' q v0 s Hok Hlift (check_targets_ok _ _ _ _ _ Hlift0) Hstep) as [Hok' _].
  destruct done; [by injection H as _ <-|]. by eapply IH.
Qed.

Lemma keeps_zoom {A} (m : M MSHR A) :
  (∀ e a e', m e = Ok (a, e') → inService (ms_base e') = inService (ms_base e)) → keeps (zoom fst (λ m s, (m, s.2)) m).
Proof. intros Hm s a s' (e' & Hrun & ->)%zoom_inv. by eapply Hm. Qed.

Lemma mq_step_ok s s' : queue_ok s.1 → mq_step s s' → queue_ok s'.1.
Proof.
  intros Hok Hstep. destruct Hstep.
  - by eapply mq_allocate_ok.
  - by eapply mq_serve_ok.
  - apply zoom_fst_inv in H0 as [H0 _]. by eapply mq_pending_ok.
  - apply zoom_fst_inv in H as [H _]. by eapply mq_front_ok.
  - apply zoom_fst_inv in H as [H _]. by eapply mq_force_ok.
  - apply zoom_fst_inv in H as [H _]. by eapply deallocate_ok.
  - eapply keeps_entry_ok; [apply keeps_allocateTarget|done|exact H].
  - eapply keeps_entry_ok; [apply keeps_handleSnoop|done|exact H].
  - eapply keeps_entry_ok; [apply keeps_promoteWritable|done|exact H].
  - eapply keeps_entry_ok; [apply keeps_clearDownstreamPending|done|exact H].
  - eapply keeps_entry_ok; [|done|exact H]. apply keeps_zoom. apply extract_keeps.
  - eapply keeps_entry_ok; [|done|exact H]. apply keeps_zoom. apply promote_keeps.
  - apply zoom_fst_inv in H as [H _]. unfold Queue_checkFunctional in H. inv_step H. by eapply checkFunctional_in_ok.
Qed.
End mshr_queue.

(** ** The books are kept *)

Section theorem.
Context {W : Type} `{!Upstream W}.

(** the time and the contents of fresh storage may be different at every step *)
Definition mq_steps : MSHRQueue * W → MSHRQueue * W → Prop := rtc (λ s s', ∃ now raw, mq_step now raw s s').

Lemma mq_new_ok n r : queue_ok (MSHRQueue_new n r) ∨ n + r < 0.
Proof.
  destruct (decide (n + r < 0)); [by right|left]. unfold MSHRQueue_new, Queue_new.
  split; cbn; unfold zlength; rewrite ?length_replicate; try done; lia.
Qed.

Lemma mq_steps_ok s s' : queue_ok s.1 → mq_steps s s' → queue_ok s'.1.
Proof. intros Hok Hsteps. induction Hsteps as [|s1 s2 s3 (now & raw & Hstep) _ IH]; [done|]. apply IH. by eapply mq_step_ok. Qed.

Lemma getNext_run now (q : MSHRQueue) : queue_ok q →
  ∃ o, getNext now q = Ok o ∧ ∀ i, o = Some i → ∃ e, entries q !! i = Some e ∧ i ∈ readyList q ∧ readyTime (ms_base e) ≤ now.
Proof.
  intros Hok. unfold getNext. destruct (readyList q) as [|i l] eqn:Hq; [by exists None|].
  destruct (lists_there q i Hok) as (e & He); [rewrite Hq; by left|]. rewrite (entry_time_run _ _ _ He). cbn [mbind res_bind].
  eexists. split; [reflexivity|]. intros j Hj. case_decide as Ht; [done|]. injection Hj as <-. exists e. split; [done|].
  split; [by left|]. unfold ready_at in Ht. rewrite He in Ht. cbn in Ht. lia.
Qed.

(** C21: Whatever a cache does with its queue of misses through the methods of the queue and of its entries, at any times and with any effects on the caches
    above, every entry is in exactly one of the lists of allocated and free entries, the counters count them, and
    the ready list holds exactly the allocated entries that are not in service.  So the queue is not
    full only if more entries are free than are reserved, [findMatch] and [getNext] do not fault, [findMatch] finds the
    first allocated entry that it looks for, and the entry that is next is due, is not in service, and can be put in service
    if its own marking succeeds. *)
Theorem mshr_queue_keeps_books n r w s :
  0 ≤ n + r → mq_steps (MSHRQueue_new n r, w) s →
  let q := s.1 in
  allocatedList q ++ freeList q ≡ₚ seq 0 (length (entries q)) ∧
  allocated q = zlength (allocatedList q) ∧
  numInService q = zlength (filter (λ i, serving q i = true) (allocatedList q)) ∧
  readyList q ≡ₚ filter (λ i, serving q i = false) (allocatedList q) ∧
  (isFull q = false → numReserve q < zlength (freeList q)) ∧
  (∀ a sec, findMatch a sec q =
     Ok (find (λ i, match entries q !! i with Some e => wq_matches a sec (ms_base e) | None => false end) (allocatedList q))) ∧
  ∀ now, ∃ o, getNext now q = Ok o ∧ ∀ i, o = Some i → ∃ e, entries q !! i = Some e ∧ i ∈ allocatedList q ∧
    inService (ms_base e) = false ∧ readyTime (ms_base e) ≤ now ∧
    ∀ pm s1, MSHR_markInService pm (e, s.2) = Ok (tt, s1) → is_Ok (MSHRQueue_markInService i pm s).
Proof.
  intros Hnr Hsteps q. assert (Hok : queue_ok q).
  { eapply mq_steps_ok; [|exact Hsteps]. destruct (mq_new_ok n r); [done|lia]. }
  split; [apply Hok|]. split; [apply Hok|]. split; [apply Hok|]. split; [apply Hok|]. split; [|split].
  - unfold isFull. intros Hf%bool_decide_eq_false. pose proof (qo_entries _ Hok). pose proof (qo_allocated _ Hok).
    pose proof (Permutation_length (qo_partition _ Hok)) as Hl. rewrite length_app, length_seq in Hl. unfold zlength in *. lia.
  - intros a sec. unfold findMatch. fold (wq_matches a sec).
    rewrite (first_entry_run q (wq_matches a sec)); [done|]. intros j Hj. by apply allocated_there.
  - intros now. destruct (getNext_run now q Hok) as (o & Ho & Hnext). exists o. split; [done|]. intros i Hi.
    destruct (Hnext i Hi) as (e & He & Hr & Ht). exists e. split; [done|]. pose proof Hr as Hr'. apply ready_iff in Hr' as [Ha Hs]; [|done].
    split; [done|]. split; [unfold serving in Hs; by rewrite He in Hs|]. split; [done|]. intros pm [e1 w1] Hm.
    unfold MSHRQueue_markInService. eexists. unfold on_entry at 1. unfold mbind, M_bind. fold q. rewrite He, Hm. cbn -[erase_entry].
    unfold lift, gets. cbn -[erase_entry]. change (readyList (fst _)) with (readyList q). rewrite (erase_entry_run _ _ Hr). reflexivity.
Qed.
End theorem.

(** *** A run: two misses, the first is sent, refused and sent again *)

#[local] Instance no_upstream : Upstream unit := { mark_pending _ := mret false; clear_pending _ := mret tt }.

Definition ex_miss (a : Z) : Packet :=
  let rq := (plain_request 3 0).{req_paddr := Some a}.{req_size := Some 64} in Packet_new rq ReadExReq.
Definition ex_run : res (list (option nat) * (MSHRQueue * unit)) :=
  (MSHRQueue_allocate 5 128 64 (ex_miss 128) 20 1 true ;;
   MSHRQueue_allocate 6 192 64 (ex_miss 192) 10 2 true ;;
   q ← gets fst; a ← lift (getNext 30 q);
   MSHRQueue_markInService 1 false ;;
   q ← gets fst; b ← lift (getNext 30 q);
   on_mq (markPending 1) ;;
   q ← gets fst; c ← lift (getNext 30 q); mret [a; b; c]) (MSHRQueue_new 4 1, tt).

Lemma mshr_queue_keeps_books_witness : ∃ s,
  ex_run = Ok ([Some 1%nat; Some 0%nat; Some 1%nat], s) ∧ mq_steps (MSHRQueue_new 4 1, tt) s ∧
  allocatedList s.1 = [0%nat; 1%nat] ∧ allocatedList s.1 ++ freeList s.1 ≡ₚ seq 0 (length (entries s.1)).
Proof.
  eexists. split; [vm_compute; reflexivity|]. match goal with |- ?P ∧ _ => assert (Hs : P) end.
  { eapply rtc_l; [exists 5, (λ _, []); apply (mq_allocate _ _ 128 64 (ex_miss 128) 20 1 true 0%nat); vm_compute; reflexivity|].
    eapply rtc_l; [exists 6, (λ _, []); apply (mq_allocate _ _ 192 64 (ex_miss 192) 10 2 true 1%nat); vm_compute; reflexivity|].
    eapply rtc_l; [exists 30, (λ _, []); apply (mq_serve _ _ 1%nat false); vm_compute; reflexivity|].
    eapply rtc_l; [exists 30, (λ _, []); apply (mq_pending _ _ 1%nat); [by right; left|vm_compute; reflexivity]|]. apply rtc_refl. }
  split; [exact Hs|]. split; [reflexivity|]. by destruct (mshr_queue_keeps_books 4 1 tt _ ltac:(lia) Hs).
Defined.
