(* ===== verification/ClassicCache.v ===== *)
(** * The classic cache in atomic and functional mode ([Cache], [mem/cache/cache.*])

    The cache with its tags, blocks and queues, and what it does with a packet
    that is passed by [sendAtomic] or [sendFunctional].  The peers of its two ports are the class
    [CachePeers]: they have a state [W] of their own, and may call the cache again
    before they return.  The packet is passed in and out. *)

From S2P Require Import Prelude IntMath Clock AddrRange MemPacket AbstractMem CacheBlk CacheTags CacheQueue MSHR.

(** ** State *)

(** the members that are fixed when the cache is built.  [gp_bypassCaches] is [system->bypassCaches()];
    [new_req k] is the address of the [k]-th request that the cache allocates, [raw n] what
    [new uint8_t\[n\]] holds *)
Record CacheParams := mkCacheParams {
  gp_tags : TagParams;
  gp_blkSize : Z;
  gp_lookupLatency : Z;
  fillLatency : Z;
  doFastWrites : bool;
  mostly_excl : bool;              (* clusivity == Enums::mostly_excl *)
  writebackClean : bool;
  isReadOnly : bool;
  addrRanges : list AddrRange;
  gp_bypassCaches : bool;
  gp_clockPeriod : Z;
  new_req : nat → nat;
  raw : Z → list Z;
}.

Record CacheStats := mkCacheStats {
  hits : gmap (Z * Z) Z;           (* by command and master *)
  misses : gmap (Z * Z) Z;
  cs_writebacks : gmap Z Z;
  unusedPrefetches : Z;
  blocked_cycles : gmap Z Z;
}.
#[export] Instance CacheStats_settable : Settable CacheStats := λ r,
  mkCacheStats (hits r) (misses r) (cs_writebacks r) (unusedPrefetches r) (blocked_cycles r).

(** [cpuSidePort]: whether it is blocked, owes a retry, and when the event is due that sends it *)
Record CacheSlavePort := mkCacheSlavePort {
  port_blocked : bool;
  mustSendRetry : bool;
  sendRetryEvent : option Z;
}.
#[export] Instance CacheSlavePort_settable : Settable CacheSlavePort := λ r,
  mkCacheSlavePort (port_blocked r) (mustSendRetry r) (sendRetryEvent r).

(** [gc_requests] counts the requests that were allocated; [exitRequested] is set by [exitSimLoop] *)
Record GemCache := mkGemCache {
  tags : Tags;
  tempBlock : CacheBlk;
  tempBlockWriteback : option Packet;
  writebackTempBlockEvent : option Z;
  mshrQueue : MSHRQueue;
  writeBuffer : WriteQueue;
  cpuSidePort : CacheSlavePort;
  gc_forwardSnoops : bool;
  blocked : Z;
  blockedCycle : Z;
  missCount : Z;
  gc_clock : Clocked;
  gc_stats : CacheStats;
  gc_requests : nat;
  exitRequested : bool;
}.
#[export] Instance GemCache_settable : Settable GemCache := λ r,
  mkGemCache (tags r) (tempBlock r) (tempBlockWriteback r) (writebackTempBlockEvent r) (mshrQueue r) (writeBuffer r)
    (cpuSidePort r) (gc_forwardSnoops r) (blocked r) (blockedCycle r) (missCount r) (gc_clock r) (gc_stats r)
    (gc_requests r) (exitRequested r).

(** [Blocked_NoWBBuffers] *)
Definition Blocked_NoWBBuffers : Z := 1.

Definition GemCache_new (P : CacheParams) (mshrs write_buffers max_miss_count : Z) (forward_snoops : bool)
    (temp_data : list Z) (raw_data : Z → list Z) : res GemCache :=
  t ← BaseSetAssoc_new (gp_tags P) raw_data;
  Ok (mkGemCache t (CacheBlk_new temp_data) None None (MSHRQueue_new mshrs 0) (WriteQueue_new write_buffers mshrs)
        (mkCacheSlavePort false false None) forward_snoops 0 0 max_miss_count new_Clocked (mkCacheStats ∅ ∅ ∅ 0 ∅) 0 false).

(** a block of the tags, or the temporary one *)
Inductive blk_ref := Way (b : nat) | Temp.
#[export] Instance blk_ref_eq_dec : EqDecision blk_ref.
Proof. solve_decision. Defined.

Section cache.
Context (P : CacheParams).
(** [curTick()] *)
Context (now : Z).

(** ** Reaching the parts *)

Definition on_tags {A} (m : M Tags A) : M GemCache A := zoom tags (λ t c, c.{tags := t}) m.
Definition on_wb {A} (m : M WriteQueue A) : M GemCache A := zoom writeBuffer (λ q c, c.{writeBuffer := q}) m.
Definition on_cstats (f : CacheStats → CacheStats) : M GemCache unit := modify (λ c, c.{gc_stats ::= f}).
Definition get_blk (r : blk_ref) : M GemCache CacheBlk :=
  c ← get; match r with Temp => mret (tempBlock c) | Way b => lift (block (tags c) b) end.
Definition on_ref (r : blk_ref) (f : CacheBlk → CacheBlk) : M GemCache unit :=
  match r with Temp => modify (λ c, c.{tempBlock ::= f}) | Way b => on_tags (on_blk b f) end.
Definition put_blk (r : blk_ref) (k : CacheBlk) : M GemCache unit := on_ref r (λ _, k).
Definition new_Request (a size : Z) (secure : bool) (master : Z) : M GemCache Request :=
  k ← gets gc_requests; modify (λ c, c.{gc_requests ::= S}) ;;
  mret ((plain_request master now).{req_ptr := new_req P k}.{req_paddr := Some a}.{req_size := Some size}
          .{req_isSecure := secure}).

(** ** Statistics of the base class *)

Definition cmdToIndex (pkt : Packet) : Z := toInt (pkt_cmd pkt).

Definition incMissCount (pkt : Packet) : M GemCache Packet :=
  check (bool_decide (masterId (req pkt) < maxMasters (gp_tags P))) ;;
  on_cstats (λ s, s.{misses ::= bump (cmdToIndex pkt, masterId (req pkt)) 1}) ;;
  c ← get;
  (if decide (missCount c = 0) then mret tt
   else modify (λ c, c.{missCount ::= Z.pred}) ;;
        c ← get; when (bool_decide (missCount c = 0)) (modify (λ c, c.{exitRequested := true}))) ;;
  mret (pkt.{req ::= incAccessDepth}).

Definition incHitCount (pkt : Packet) : M GemCache unit :=
  check (bool_decide (masterId (req pkt) < maxMasters (gp_tags P))) ;;
  on_cstats (λ s, s.{hits ::= bump (cmdToIndex pkt, masterId (req pkt)) 1}).

Definition inRange (a : Z) : res bool :=
  fold_res (λ r b, if (b : bool) then Ok true else contains r a) (addrRanges P) false.

(** *** The end of a blocking *)

Definition port_clearBlocked : M GemCache unit :=
  c ← get;
  check (port_blocked (cpuSidePort c)) ;;
  modify (λ c, c.{cpuSidePort ::= λ p, p.{port_blocked := false} }) ;;
  if mustSendRetry (cpuSidePort c) then
    check (bool_decide (sendRetryEvent (cpuSidePort c) = None)) ;;
    modify (λ c, c.{cpuSidePort ::= λ p, p.{sendRetryEvent := Some (u64 (now + 1))} })
  else mret tt.

Definition clearBlocked (cause : Z) : M GemCache unit :=
  modify (λ c, c.{blocked ::= λ b, Z.ldiff b (Z.shiftl 1 cause)}) ;;
  c ← get;
  if decide (blocked c = 0) then
    n ← zoom gc_clock (λ k c, c.{gc_clock := k}) (curCycle now (gp_clockPeriod P));
    on_cstats (λ s, s.{blocked_cycles ::= bump cause (n - blockedCycle c)}) ;; port_clearBlocked
  else mret tt.

(** [BaseCache::markInService] of an entry of the write buffer *)
Definition markInService (i : nat) : M GemCache unit :=
  c ← get; let wasFull := isFull (writeBuffer c) in
  on_wb (WriteQueue_markInService i) ;;
  c ← get; when (wasFull && negb (isFull (writeBuffer c))) (clearBlocked Blocked_NoWBBuffers).

(** ** Blocks *)

Definition invalidateBlock (r : blk_ref) : M GemCache unit :=
  match r with Temp => mret tt | Way b => on_tags (tags_invalidate (gp_tags P) now b) end ;;
  on_ref r CacheBlk_invalidate.

(** the address of a block *)
Definition blk_address (k : CacheBlk) : M GemCache Z :=
  c ← get; lift (regenerateBlkAddr (blk_tag k) (to_uint 32 (blk_set k)) (tags c)).

Definition writebackBlk (r : blk_ref) : M GemCache Packet :=
  if isReadOnly P && negb (writebackClean P) then throw ExitCalled else
  k ← get_blk r;
  check (isValid k && (isDirty k || writebackClean P)) ;;
  on_cstats (λ s, s.{cs_writebacks ::= bump 0 1}) ;;
  a ← blk_address k;
  rq ← new_Request a (gp_blkSize P) (blk_isSecure k) 0;
  let pkt := Packet_new (rq.{taskId := task_id k}) (if isDirty k then WritebackDirty else WritebackClean) in
  let pkt := if isWritable k then pkt else setHasSharers pkt in
  put_blk r ((if isWritable k then clear_bits BlkWritable k else k).{task_id := Unknown_task}.{tickInserted := now}) ;;
  on_ref r (clear_bits BlkDirty) ;;
  pkt ← lift (allocate (raw P) pkt);
  lift (data ← getPtr pkt; data ← memcpy data 0 (blk_data k) 0 (gp_blkSize P); Ok (pkt.{pkt_bytes := Some data})).

Definition cleanEvictBlk (r : blk_ref) : M GemCache Packet :=
  k ← get_blk r;
  check (negb (writebackClean P)) ;; check (isValid k && negb (isDirty k)) ;;
  a ← blk_address k;
  rq ← new_Request a (gp_blkSize P) (blk_isSecure k) 0;
  on_ref r (λ k, k.{task_id := Unknown_task}.{tickInserted := now}) ;;
  lift (allocate (raw P) (Packet_new (rq.{taskId := task_id k}) CleanEvict)).

(** [(blk->isDirty() || writebackClean) ? writebackBlk(blk) : cleanEvictBlk(blk)] *)
Definition evictBlk (r : blk_ref) : M GemCache Packet :=
  k ← get_blk r; if isDirty k || writebackClean P then writebackBlk r else cleanEvictBlk r.

(** the block, if there is one, and the packets to write back *)
Definition allocateBlock (a : Z) : M GemCache (option blk_ref * list Packet) :=
  v ← on_tags (findVictim (gp_tags P) a);
  match v with
  | None => mret (None, [])
  | Some b =>
      k ← get_blk (Way b);
      if isValid k then
        repl_addr ← blk_address k;
        c ← get;
        o ← lift (findMatch repl_addr (blk_isSecure k) (mshrQueue c));
        match o with
        | Some i =>
            m ← lift (get_entry i (mshrQueue c));
            check (negb (isWritable k) || isDirty k) ;;
            check (tl_needsWritable (targets m)) ;;
            mret (None, [])
        | None =>
            when (wasPrefetched k) (on_cstats (λ s, s.{unusedPrefetches ::= Z.succ})) ;;
            pkt ← evictBlk (Way b); mret (Some (Way b), [pkt])
        end
      else mret (Some (Way b), [])
  end.

Definition maintainClusivity (from_cache : bool) (blk : option blk_ref) : M GemCache unit :=
  match blk with
  | None => mret tt
  | Some r =>
      k ← get_blk r;
      when (from_cache && isValid k && negb (isDirty k) && mostly_excl P) (invalidateBlock r)
  end.

(** ** Serving a request from a block *)

(** the packet exchanges its bytes with the block: the old bytes are returned, and the new ones are written if
    the condition of a conditional swap holds *)
Definition cmpAndSwap (r : blk_ref) (pkt : Packet) : M GemCache Packet :=
  check (isRequest (pkt_cmd pkt)) ;;
  c ← get; k ← get_blk r;
  a ← lift (getAddr pkt); n ← lift (getSize pkt);
  let offset := extractBlkOffset a (tags c) in
  check (bool_decide (8 >= n)) ;;
  overwrite_val ← lift (writeData pkt (replicate 8 0) 0);
  pkt ← lift (setData false (blk_data k) offset pkt);
  overwrite_mem ← lift (condition_holds (blk_data k) offset pkt);
  if (overwrite_mem : bool) then
    data ← lift (memcpy (blk_data k) offset overwrite_val 0 n);
    on_ref r (λ k, set_bits BlkDirty (k.{blk_data := data})) ;; mret pkt
  else mret pkt.

(** a read by a cache above: what it may do with the line *)
Definition satisfy_cache_read (pkt : Packet) (r : blk_ref) (deferred_response pending_downgrade : bool) : M GemCache Packet :=
  k ← get_blk r; n ← lift (getSize pkt);
  check (bool_decide (n = gp_blkSize P)) ;;
  w ← lift (pkt_needsWritable pkt);
  if (w : bool) then
    check (bool_decide (pkt_cmd pkt = ReadExReq ∨ pkt_cmd pkt = SCUpgradeFailReq)) ;;
    check (negb (hasSharers pkt)) ;;
    if isDirty k then pkt ← lift (setCacheResponding pkt); on_ref r (clear_bits BlkDirty) ;; mret pkt else mret pkt
  else if isWritable k && negb pending_downgrade && negb (hasSharers pkt) && bool_decide (pkt_cmd pkt ≠ ReadCleanReq) then
    if isDirty k then
      if negb deferred_response then
        pkt ← lift (setCacheResponding pkt); on_ref r (clear_bits BlkDirty) ;; mret pkt
      else mret (setHasSharers pkt)
    else mret pkt
  else mret (setHasSharers pkt).

Definition satisfyRequest (pkt : Packet) (r : blk_ref) (deferred_response pending_downgrade : bool) : M GemCache Packet :=
  check (isRequest (pkt_cmd pkt)) ;;
  k ← get_blk r;
  check (isValid k) ;;
  off ← lift (getOffset (gp_blkSize P) pkt); n ← lift (getSize pkt);
  check (bool_decide (u64 (off + n) <= gp_blkSize P)) ;;
  if decide (pkt_cmd pkt = SwapReq) then cmpAndSwap r pkt
  else if isWrite (pkt_cmd pkt) then
    check (isWritable k) ;;
    '(go, pkt, k) ← lift (checkWrite pkt k);
    data ← lift (if (go : bool) then writeDataToBlock pkt (blk_data k) (gp_blkSize P) else Ok (blk_data k));
    put_blk r (set_bits BlkDirty (k.{blk_data := data})) ;; mret pkt
  else if isRead (pkt_cmd pkt) then
    when (isLLSC (pkt_cmd pkt)) (k ← lift (CacheBlk_trackLoadLocked pkt k); put_blk r k) ;;
    check (hasRespData pkt) ;;
    pkt ← lift (setDataFromBlock (blk_data k) (gp_blkSize P) pkt);
    if fromCache (pkt_cmd pkt) then satisfy_cache_read pkt r deferred_response pending_downgrade else mret pkt
  else if isUpgrade (pkt_cmd pkt) then
    check (negb (hasSharers pkt)) ;;
    if isDirty k then pkt ← lift (setCacheResponding pkt); on_ref r (clear_bits BlkDirty) ;; mret pkt else mret pkt
  else check (isInvalidate (pkt_cmd pkt)) ;; invalidateBlock r ;; mret pkt.

(** ** The access: whether it is satisfied, the block, the latency, the packets to write back, and the packet *)

Definition access_result : Type := bool * option blk_ref * Z * list Packet * Packet.

Definition access_uncacheable (pkt : Packet) : M GemCache access_result :=
  a ← lift (getAddr pkt); sec ← lift (isSecure pkt);
  c ← get; old ← lift (findBlock a sec (tags c));
  wbs ← (match old with
         | None => mret []
         | Some b =>
             k ← get_blk (Way b);
             if isValid k then wb ← evictBlk (Way b); invalidateBlock (Way b) ;; mret [wb] else mret []
         end : M GemCache (list Packet));
  mret (false, None, gp_lookupLatency P, wbs, pkt).

(** an eviction from above meets a writeback of this cache in the write buffer: whether it is dropped *)
Definition meet_writeback (pkt : Packet) : M GemCache bool :=
  a ← lift (getAddr pkt); sec ← lift (isSecure pkt);
  c ← get; o ← lift (findMatch a sec (writeBuffer c));
  match o with
  | None => mret false
  | Some i =>
      e ← lift (get_entry i (writeBuffer c));
      check (bool_decide (getNumTargets e = 1)) ;;
      t ← lift (getTarget e);
      check (isWriteback (pkt_cmd (t_pkt t))) ;;
      if isCleanEviction pkt then
        on_wb (put_entry i (e.{wq_targets := (t.{t_pkt ::= clearBlockCached}) :: tail (wq_targets e)})) ;; mret true
      else check (bool_decide (pkt_cmd pkt = WritebackDirty)) ;; markInService i ;; mret false
  end.

(** a writeback from above is written into the block *)
Definition write_back_into (pkt : Packet) (r : blk_ref) : M GemCache unit :=
  when (bool_decide (pkt_cmd pkt = WritebackDirty)) (on_ref r (set_bits BlkDirty)) ;;
  when (negb (hasSharers pkt)) (on_ref r (set_bits BlkWritable)) ;;
  check (negb (needsResponse (pkt_cmd pkt))) ;;
  k ← get_blk r;
  data ← lift (src ← getPtr pkt; memcpy (blk_data k) 0 src 0 (gp_blkSize P));
  on_ref r (λ k, k.{blk_data := data}) ;;
  incHitCount pkt.

Definition access_writeback (pkt : Packet) (blk : option blk_ref) (lat : Z) : M GemCache access_result :=
  n ← lift (getSize pkt); a ← lift (getAddr pkt); sec ← lift (isSecure pkt);
  check (bool_decide (gp_blkSize P = n)) ;;
  c ← get; o ← lift (findMatch a sec (mshrQueue c));
  if decide (pkt_cmd pkt = WritebackClean ∧ o ≠ None) then mret (true, blk, lat, [], pkt) else
  match blk with
  | Some r => write_back_into pkt r ;; mret (true, blk, lat, [], pkt)
  | None =>
      '(blk, wbs) ← allocateBlock a;
      match blk with
      | None => pkt ← incMissCount pkt; mret (false, None, lat, wbs, pkt)
      | Some r =>
          match r with Way b => on_tags (insertBlock (gp_tags P) now pkt b) | Temp => mret tt end ;;
          on_ref r (λ k, k.{blk_status := Z.lor BlkValid BlkReadable}) ;;
          when sec (on_ref r (set_bits BlkSecure)) ;;
          write_back_into pkt r ;; mret (true, blk, lat, wbs, pkt)
      end
  end.

Definition access (pkt : Packet) : M GemCache access_result :=
  check (isRequest (pkt_cmd pkt)) ;;
  if isReadOnly P && isWrite (pkt_cmd pkt) then throw ExitCalled else
  if isUncacheable (req pkt) then access_uncacheable pkt else
  a ← lift (getAddr pkt); sec ← lift (isSecure pkt);
  r ← on_tags (accessBlock (gp_tags P) now a sec);
  let blk := option_map Way r.1 in let lat := r.2 in
  dropped ← (if isEviction (pkt_cmd pkt) then meet_writeback pkt else mret false);
  if (dropped : bool) then mret (true, blk, lat, [], pkt) else
  if isWriteback (pkt_cmd pkt) then access_writeback pkt blk lat
  else if decide (pkt_cmd pkt = CleanEvict) then mret (bool_decide (blk ≠ None), blk, lat, [], pkt)
  else
    ok ← (match blk with
          | None => mret false
          | Some r => k ← get_blk r; w ← lift (pkt_needsWritable pkt); mret (if (w : bool) then isWritable k else isReadable k)
          end : M GemCache bool);
    match blk, ok with
    | Some r, true =>
        incHitCount pkt ;;
        pkt ← satisfyRequest pkt r false false;
        maintainClusivity (fromCache (pkt_cmd pkt)) blk ;; mret (true, blk, lat, [], pkt)
    | _, _ =>
        pkt ← incMissCount pkt;
        if bool_decide (blk = None) && isLLSC (pkt_cmd pkt) && isWrite (pkt_cmd pkt)
        then mret (true, blk, lat, [], set_extra 0 pkt)
        else mret (false, blk, lat, [], pkt)
    end.

(** ** Misses *)

Definition allocOnFill (cmd : Command) : bool :=
  negb (mostly_excl P) || bool_decide (cmd = WriteLineReq ∨ cmd = ReadReq ∨ cmd = WriteReq) || isPrefetch cmd || isLLSC cmd.

Definition promoteWholeLineWrites (pkt : Packet) : res Packet :=
  if negb (doFastWrites P && bool_decide (pkt_cmd pkt = WriteReq)) then Ok pkt else
  n ← getSize pkt;
  if decide (n ≠ gp_blkSize P) then Ok pkt else
  off ← getOffset (gp_blkSize P) pkt;
  Ok (if decide (off = 0) then pkt.{pkt_cmd := WriteLineReq} else pkt).

(** the request to send below; [None] when the packet itself is passed on *)
Definition createMissPacket (cpu_pkt : Packet) (blk : option blk_ref) (needsWritable : bool) : M GemCache (option Packet) :=
  check (negb (isEviction (pkt_cmd cpu_pkt))) ;;
  k ← (match blk with None => mret (CacheBlk_new []) | Some r => get_blk r end : M GemCache CacheBlk);
  let blkValid := isValid k in
  let c := pkt_cmd cpu_pkt in
  if isUncacheable (req cpu_pkt) || negb blkValid && isUpgrade c || bool_decide (c = InvalidateReq) then mret None else
  check (needsResponse c) ;;
  cmd ← (if decide (c = WriteLineReq) then check (negb blkValid || negb (isWritable k)) ;; mret InvalidateReq
         else if blkValid then
           check needsWritable ;; check (negb (isWritable k)) ;; mret (if isLLSC c then SCUpgradeReq else UpgradeReq)
         else if decide (c = SCUpgradeFailReq ∨ c = StoreCondFailReq) then mret SCUpgradeFailReq
         else mret (if needsWritable then ReadExReq else if isReadOnly P then ReadCleanReq else ReadSharedReq)
         : M GemCache Command);
  let pkt := Packet_block (req cpu_pkt) cmd (gp_blkSize P) in
  let pkt := if hasSharers cpu_pkt && negb needsWritable then setHasSharers pkt else pkt in
  a ← lift (getAddr pkt); b ← lift (getBlockAddr (gp_blkSize P) pkt);
  check (bool_decide (a = b)) ;;
  pkt ← lift (allocate (raw P) pkt); mret (Some pkt).

(** the block that the line of [pkt] is put into, and what has to be written back for it *)
Definition fill_target (pkt : Packet) (blk : option blk_ref) (allocate : bool) : M GemCache (blk_ref * list Packet) :=
  a ← lift (getAddr pkt); c ← get;
  tag ← lift (extractTag a (tags c)); set ← lift (extractSet a (tags c));
  match blk with
  | Some r =>
      k ← get_blk r;
      check (bool_decide (blk_tag k = tag)) ;;
      check (hasData (pkt_cmd pkt) || isValid k) ;; mret (r, [])
  | None =>
      check (hasData (pkt_cmd pkt)) ;;
      check (isRead (pkt_cmd pkt) || bool_decide (pkt_cmd pkt = WriteLineReq)) ;;
      '(blk, wbs) ← (if allocate then allocateBlock a else mret (None, []) : M GemCache (option blk_ref * list Packet));
      r ← (match blk with
           | Some (Way b) => on_tags (insertBlock (gp_tags P) now pkt b) ;; mret (Way b)
           | _ =>
               check (negb (isValid (tempBlock c))) ;;
               on_ref Temp (λ k, k.{blk_set := set}.{blk_tag := tag}) ;; mret Temp
           end : M GemCache blk_ref);
      k ← get_blk r; check (negb (isValid k)) ;; mret (r, wbs)
  end.

Definition handleFill (pkt : Packet) (blk : option blk_ref) (allocate : bool) : M GemCache (blk_ref * list Packet) :=
  check (isResponse (pkt_cmd pkt) || bool_decide (pkt_cmd pkt = WriteLineReq)) ;;
  a ← lift (getAddr pkt); is_secure ← lift (isSecure pkt);
  b ← lift (getBlockAddr (gp_blkSize P) pkt); check (bool_decide (a = b)) ;;
  c ← get; o ← lift (findMatch a is_secure (writeBuffer c)); check (bool_decide (o = None)) ;;
  '(r, wbs) ← fill_target pkt blk allocate;
  when is_secure (on_ref r (set_bits BlkSecure)) ;;
  on_ref r (set_bits (Z.lor BlkValid BlkReadable)) ;;
  when (bool_decide (pkt_cmd pkt = WriteLineReq)) (check (negb (hasSharers pkt))) ;;
  (if negb (hasSharers pkt) then
     on_ref r (set_bits BlkWritable) ;;
     if cacheResponding pkt then
       on_ref r (set_bits BlkDirty) ;; if isReadOnly P then throw ExitCalled else mret tt
     else mret tt
   else mret tt) ;;
  (if isRead (pkt_cmd pkt) then
     check (hasData (pkt_cmd pkt)) ;;
     n ← lift (getSize pkt); check (bool_decide (n = gp_blkSize P)) ;;
     k ← get_blk r; data ← lift (src ← getPtr pkt; memcpy (blk_data k) 0 src 0 (gp_blkSize P));
     on_ref r (λ k, k.{blk_data := data})
   else mret tt) ;;
  edge ← zoom gc_clock (λ k c, c.{gc_clock := k}) (clockEdge now (gp_clockPeriod P) 0);
  on_ref r (λ k, k.{whenReady := u64 (edge + fillLatency P * gp_clockPeriod P + payloadDelay pkt)}) ;;
  mret (r, wbs).

Definition any_dirty (c : GemCache) : res bool :=
  r ← forEachBlk (tags c) (λ b d, k ← block (tags c) b; Ok (if isDirty k then (false, true) else (true, d))) false;
  Ok r.2.
End cache.

(** ** The peers

    [mem_sendAtomic] and [mem_sendFunctional] go through the memory-side port, [cpu_sendAtomicSnoop] and
    [cpu_sendFunctionalSnoop] through the processor-side port, whose queues [cpu_checkFunctional] and
    [mem_checkFunctional] look at.  The ticks of a snoop are not used. *)

Class CachePeers (W : Type) := {
  mem_sendAtomic : Packet → M (GemCache * W) (Z * Packet);
  mem_sendFunctional : Packet → M (GemCache * W) Packet;
  cpu_sendAtomicSnoop : Packet → M (GemCache * W) Packet;
  cpu_sendFunctionalSnoop : Packet → M (GemCache * W) Packet;
  cpu_isSnooping : bool;
  cpu_checkFunctional : Packet → M (GemCache * W) (bool * Packet);
  mem_checkFunctional : Packet → M (GemCache * W) (bool * Packet);
}.

Section peers.
Context {W : Type} `{!CachePeers W} (P : CacheParams) (now : Z).

Definition on_cache {A} (m : M GemCache A) : M (GemCache * W) A := zoom fst (λ c s, (c, s.2)) m.
Definition the_cache : M (GemCache * W) GemCache := gets fst.

(** whether a cache above has the line; the packet is told *)
Definition isCachedAbove_atomic (pkt : Packet) : M (GemCache * W) (bool * Packet) :=
  c ← the_cache;
  if gc_forwardSnoops c then pkt ← cpu_sendAtomicSnoop pkt; mret (isBlockCached pkt, pkt) else mret (false, pkt).

Fixpoint doWritebacksAtomic (writebacks : list Packet) : M (GemCache * W) unit :=
  match writebacks with
  | [] => mret tt
  | wbPkt :: writebacks =>
      '(above, wbPkt) ← isCachedAbove_atomic wbPkt;
      (if (above : bool) then
         if decide (pkt_cmd wbPkt = WritebackDirty) then mem_sendAtomic wbPkt ;; mret tt else mret tt
       else mem_sendAtomic wbPkt ;; mret tt) ;;
      doWritebacksAtomic writebacks
  end.

Definition writebackTempBlockAtomic : M (GemCache * W) unit :=
  c ← the_cache;
  match tempBlockWriteback c with
  | None => throw AssertFailed
  | Some pkt => doWritebacksAtomic [pkt] ;; on_cache (modify (λ c, c.{tempBlockWriteback := None}))
  end.
(** the event, which has been taken off its queue *)
Definition process_writebackTempBlock : M (GemCache * W) unit :=
  on_cache (modify (λ c, c.{writebackTempBlockEvent := None})) ;; writebackTempBlockAtomic.

Definition ticks (pkt : Packet) : M (GemCache * W) (Z * Packet) :=
  '(t, pkt) ← mem_sendAtomic pkt; n ← lift (ticksToCycles (gp_clockPeriod P) t); mret (n, pkt).

(** the response to [bus_pkt], the request that was sent for [pkt]: the block, what has to be written back,
    [is_invalidate], and the packet *)
Definition take_response (pkt bus_pkt : Packet) (blk : option blk_ref) : M GemCache (option blk_ref * list Packet * bool * Packet) :=
  let is_invalidate := isInvalidate (pkt_cmd bus_pkt) in
  if negb (needsResponse (pkt_cmd pkt)) then mret (blk, [], is_invalidate, pkt) else
  check (isResponse (pkt_cmd bus_pkt)) ;;
  if isError (pkt_cmd bus_pkt) then
    pkt ← lift (p ← makeResponse pkt; copyError p bus_pkt); mret (blk, [], is_invalidate, pkt)
  else if decide (pkt_cmd pkt = WriteLineReq) then
    '(r, wbs) ← handleFill P now pkt blk (allocOnFill P (pkt_cmd pkt));
    pkt ← satisfyRequest P now pkt r false false; mret (Some r, wbs, false, pkt)
  else if isRead (pkt_cmd bus_pkt) || bool_decide (pkt_cmd bus_pkt = UpgradeResp) then
    '(r, wbs) ← handleFill P now bus_pkt blk (allocOnFill P (pkt_cmd pkt));
    pkt ← satisfyRequest P now pkt r false false;
    maintainClusivity P now (fromCache (pkt_cmd pkt)) (Some r) ;; mret (Some r, wbs, is_invalidate, pkt)
  else pkt ← lift (makeResponse pkt); mret (blk, [], is_invalidate, pkt).

(** the miss: the latency, the block, what has to be written back, and the packet *)
Definition atomic_miss (pkt : Packet) (blk : option blk_ref) (lat : Z) : M (GemCache * W) (Z * option blk_ref * list Packet * Packet) :=
  w ← lift (pkt_needsWritable pkt);
  o ← on_cache (createMissPacket P pkt blk w);
  '(n, bus_pkt) ← ticks (default pkt o);
  let lat := u64 (lat + n) in
  '(blk, wbs, is_invalidate, pkt) ←
    (match o with
     | None => mret (blk, [], isInvalidate (pkt_cmd bus_pkt), bus_pkt)
     | Some _ => on_cache (take_response pkt bus_pkt blk)
     end : M (GemCache * W) (option blk_ref * list Packet * bool * Packet));
  match blk with
  | Some r =>
      k ← on_cache (get_blk r);
      when (is_invalidate && isValid k) (on_cache (invalidateBlock P now r)) ;; mret (lat, blk, wbs, pkt)
  | None => mret (lat, blk, wbs, pkt)
  end.

(** the temporary block is given up when the access is over *)
Definition release_temp : M (GemCache * W) unit :=
  c ← the_cache;
  (match tempBlockWriteback c with
   | Some _ => writebackTempBlockAtomic
   | None =>
       check (bool_decide (writebackTempBlockEvent c = None)) ;;
       on_cache (modify (λ c, c.{writebackTempBlockEvent := Some now}))
   end) ;;
  wb ← on_cache (evictBlk P now Temp);
  on_cache (modify (λ c, c.{tempBlockWriteback := Some wb})) ;;
  on_cache (invalidateBlock P now Temp).

(** the end of an access *)
Definition finish_atomic (pkt : Packet) (blk : option blk_ref) (lat : Z) (writebacks : list Packet) : M (GemCache * W) (Z * Packet) :=
  doWritebacksAtomic writebacks ;;
  c ← the_cache;
  (if decide (blk = Some Temp ∧ isValid (tempBlock c) = true) then release_temp else mret tt) ;;
  pkt ← lift (if needsResponse (pkt_cmd pkt) then makeResponse pkt else Ok pkt);
  mret (u64 (lat * gp_clockPeriod P), pkt).

Definition recvAtomic (pkt : Packet) : M (GemCache * W) (Z * Packet) :=
  if gp_bypassCaches P then ticks pkt else
  pkt ← lift (promoteWholeLineWrites P pkt);
  if cacheResponding pkt then
    w ← lift (pkt_needsWritable pkt);
    check (w && negb (responderHadWritable pkt)) ;;
    '(n, pkt) ← ticks pkt; mret (u64 (u64 (gp_lookupLatency P + n) * gp_clockPeriod P), pkt)
  else
  '(satisfied, blk, lat, writebacks, pkt) ← on_cache (access P now pkt);
  doWritebacksAtomic writebacks ;;
  if (satisfied : bool) then finish_atomic pkt blk lat []
  else if isEviction (pkt_cmd pkt) || isUncacheable (req pkt) && isWrite (pkt_cmd pkt) then
    '(n, pkt) ← ticks pkt; mret (u64 (u64 (lat + n) * gp_clockPeriod P), pkt)
  else
    '(lat, blk, writebacks, pkt) ← atomic_miss pkt blk lat;
    finish_atomic pkt blk lat writebacks.

(** ** Snoops in atomic mode *)

(** the cache answers with its dirty line *)
Definition respond_atomic (pkt : Packet) (k : CacheBlk) (have_writable invalidate : bool) : res Packet :=
  pkt ← setCacheResponding pkt;
  pkt ← (if have_writable then setResponderHadWritable pkt else Ok pkt);
  if negb invalidate && negb (hasSharers pkt) then Fault ExitCalled else
  pkt ← makeResponse pkt;
  if hasData (pkt_cmd pkt) then setDataFromBlock (blk_data k) (gp_blkSize P) pkt else Ok pkt.

(** [handleSnoop(pkt, blk, false, false, false)]; its delay is 0 *)
Definition handleSnoop_atomic (pkt : Packet) (blk : option nat) : M (GemCache * W) Packet :=
  check (isRequest (pkt_cmd pkt)) ;;
  let invalidate := isInvalidate (pkt_cmd pkt) in
  needs_writable ← lift (pkt_needsWritable pkt);
  if invalidate && isUncacheable (req pkt) then throw ExitCalled else
  c ← the_cache;
  pkt ← (if gc_forwardSnoops c then
           let alreadyResponded := cacheResponding pkt in
           pkt ← cpu_sendAtomicSnoop pkt;
           (if negb alreadyResponded && cacheResponding pkt then check (isResponse (pkt_cmd pkt)) else mret tt) ;; mret pkt
         else mret pkt : M (GemCache * W) Packet);
  match blk with
  | None => mret pkt
  | Some b =>
      k ← on_cache (get_blk (Way b));
      if negb (isValid k) then mret pkt else
      if isReadOnly P && isDirty k then throw ExitCalled else
      let respond := isDirty k && needsResponse (pkt_cmd pkt) in
      let have_writable := isWritable k in
      if mustCheckAbove pkt then mret (setBlockCached pkt) else
      pkt ← (if isRead (pkt_cmd pkt) && negb invalidate then
               check (negb needs_writable) ;;
               when (negb (isUncacheable (req pkt))) (on_cache (on_ref (Way b) (clear_bits BlkWritable))) ;;
               mret (setHasSharers pkt)
             else mret pkt : M (GemCache * W) Packet);
      pkt ← lift (if respond then respond_atomic pkt k have_writable invalidate else Ok pkt);
      when invalidate (on_cache (invalidateBlock P now (Way b))) ;; mret pkt
  end.

Definition recvAtomicSnoop (pkt : Packet) : M (GemCache * W) (Z * Packet) :=
  check (negb (gp_bypassCaches P)) ;;
  a ← lift (getAddr pkt); inside ← lift (inRange P a);
  if negb inside then mret (0, pkt) else
  sec ← lift (isSecure pkt); c ← the_cache; b ← lift (findBlock a sec (tags c));
  pkt ← handleSnoop_atomic pkt b;
  mret (u64 (gp_lookupLatency P * gp_clockPeriod P), pkt).

(** ** Functional accesses *)

Definition functionalAccess_cache (pkt : Packet) (fromCpuSide : bool) : M (GemCache * W) Packet :=
  if gp_bypassCaches P then check fromCpuSide ;; mem_sendFunctional pkt else
  blk_addr ← lift (getBlockAddr (gp_blkSize P) pkt); is_secure ← lift (isSecure pkt);
  a ← lift (getAddr pkt); c ← the_cache;
  o ← lift (findBlock a is_secure (tags c));
  m ← lift (findMatch blk_addr is_secure (mshrQueue c));
  '(have_data, dirty, pkt) ←
    (match o with
     | None => mret (false, false, pkt)
     | Some b =>
         k ← on_cache (get_blk (Way b));
         if negb (isValid k) then mret (false, false, pkt) else
         '(d, pkt, data) ← lift (checkFunctional pkt blk_addr is_secure (gp_blkSize P) (Some (blk_data k)));
         on_cache (on_ref (Way b) (λ k, k.{blk_data := default (blk_data k) data})) ;; mret (d, isDirty k, pkt)
     end : M (GemCache * W) (bool * bool * Packet));
  pending ← lift (match m with
                  | None => Ok false
                  | Some i => e ← get_entry i (mshrQueue c);
                              if inService (ms_base e) then isPendingModified e else Ok false
                  end);
  let or_else (r : bool * Packet) (next : Packet → M (GemCache * W) (bool * Packet)) :=
    if r.1 : bool then mret r else next r.2 in
  r ← or_else (have_data && (dirty || pending), pkt) cpu_checkFunctional;
  r ← or_else r (λ p, on_cache (zoom mshrQueue (λ q c, c.{mshrQueue := q}) (Queue_checkFunctional p blk_addr)));
  r ← or_else r (λ p, on_cache (on_wb (Queue_checkFunctional p blk_addr)));
  '(done, pkt) ← or_else r mem_checkFunctional;
  if (done : bool) then lift (makeResponse pkt)
  else if fromCpuSide then mem_sendFunctional pkt
  else if cpu_isSnooping then cpu_sendFunctionalSnoop pkt
  else mret pkt.

(** ** Flushing *)

(** the packet shares the bytes of the block, which the peer does not change for a write *)
Definition writebackVisitor (b : nat) : M (GemCache * W) bool :=
  k ← on_cache (get_blk (Way b));
  if isDirty k then
    check (isValid k) ;;
    a ← on_cache (blk_address k);
    rq ← on_cache (new_Request P now a (gp_blkSize P) (blk_isSecure k) 1);
    mem_sendFunctional ((Packet_new (rq.{taskId := task_id k}) WriteReq).{pkt_bytes := Some (blk_data k)}.{pkt_static := true}) ;;
    on_cache (on_ref (Way b) (clear_bits BlkDirty)) ;; mret true
  else mret true.
Definition memWriteback : M (GemCache * W) unit := c ← the_cache; forEachBlk (tags c) writebackVisitor.

Definition invalidateVisitor (b : nat) : M GemCache bool :=
  k ← get_blk (Way b);
  if isValid k then check (negb (isDirty k)) ;; invalidateBlock P now (Way b) ;; mret true else mret true.
Definition memInvalidate : M GemCache unit := c ← get; forEachBlk (tags c) invalidateVisitor.
End peers.
