(* ===== verification/BlkLocks.v ===== *)
(** * The reservations of a cache block

    The list of load locks of a block, run over any history of load-locked reads, stores and
    store-conditionals of several contexts that share the cache. *)

From S2P Require Import Prelude IntMath MemPacket CacheBlk CacheTags ClassicCache.

(** ** What the cache does with the locks of a block ([Cache::satisfyRequest]) *)

Definition lock_access (pkt : Packet) (b : CacheBlk) : res (bool * Packet * CacheBlk) :=
  if isWrite (pkt_cmd pkt) then checkWrite pkt b
  else if isRead (pkt_cmd pkt) && isLLSC (pkt_cmd pkt) then
    b ← CacheBlk_trackLoadLocked pkt b; Ok (true, pkt, b)
  else Ok (true, pkt, b).

Fixpoint lock_accesses (pkts : list Packet) (b : CacheBlk) : res (list bool * CacheBlk) :=
  match pkts with
  | [] => Ok ([], b)
  | pkt :: pkts =>
      r ← lock_access pkt b; rs ← lock_accesses pkts r.2; Ok (r.1.1 :: rs.1, rs.2)
  end.

(** ** Events: the context, and the first and last byte *)

Inductive lock_kind := Link | Store | Cond.
Record lock_event := mkLockEvent { le_kind : lock_kind; le_context : Z; le_low : Z; le_high : Z }.

Definition event_lock (e : lock_event) : Lock := mkLock (le_context e) (le_low e) (le_high e).

Record asks_event (pkt : Packet) (e : lock_event) : Prop := {
  ae_cmd : pkt_cmd pkt = match le_kind e with Link => LoadLockedReq | Store => WriteReq | Cond => StoreCondReq end;
  ae_context : req_contextId (req pkt) = Some (le_context e);
  ae_low : req_paddr (req pkt) = Some (le_low e);
  ae_size : req_size (req pkt) = Some (le_high e - le_low e + 1);
  ae_range : 0 ≤ le_low e ≤ le_high e ∧ le_high e < 2 ^ 64;
}.

Definition overlaps (l : Lock) (e : lock_event) : Prop := le_low e ≤ highAddr l ∧ lowAddr l ≤ le_high e.
#[export] Instance overlaps_dec l e : Decision (overlaps l e).
Proof. unfold overlaps. apply _. Defined.
Definition covers (l : Lock) (e : lock_event) : Prop :=
  lk_contextId l = le_context e ∧ lowAddr l ≤ le_low e ∧ le_high e ≤ highAddr l.
#[export] Instance covers_dec l e : Decision (covers l e).
Proof. unfold covers. apply _. Defined.

(** the event ends the reservation: any link to its bytes, a store of another context to them, whether it is
    conditional or not, done or not, or the store-conditional that uses it *)
Definition breaks (l : Lock) (e : lock_event) : Prop :=
  match le_kind e with
  | Link => overlaps l e
  | Store => overlaps l e ∧ lk_contextId l ≠ le_context e
  | Cond => overlaps l e ∧ lk_contextId l ≠ le_context e ∨ covers l e
  end.
#[export] Instance breaks_dec l e : Decision (breaks l e).
Proof. unfold breaks. destruct (le_kind e); apply _. Defined.

(** the reservation [l] was made and is not broken *)
Definition held (h : list lock_event) (l : Lock) : Prop :=
  ∃ h1 e h2, h = h1 ++ e :: h2 ∧ le_kind e = Link ∧ event_lock e = l ∧ Forall (λ e, ¬ breaks l e) h2.

Lemma held_snoc h e l : held (h ++ [e]) l ↔ (le_kind e = Link ∧ event_lock e = l) ∨ (held h l ∧ ¬ breaks l e).
Proof.
  split.
  - intros (h1 & e0 & h2 & Heq & Hk & Hl & Hall). destruct h2 as [|e1 h2 _] using rev_ind.
    + apply app_inj_tail in Heq as [<- <-]. by left.
    + right. rewrite app_comm_cons, app_assoc in Heq. apply app_inj_tail in Heq as [-> <-].
      apply Forall_app in Hall as [Hall [Hb _]%Forall_cons]. split; [by exists h1, e0, h2|exact Hb].
  - intros [[Hk Hl]|[(h1 & e0 & h2 & -> & Hk & Hl & Hall) Hb]].
    + by exists h, e, [].
    + exists h1, e0, (h2 ++ [e]). rewrite <-app_assoc. split; [done|]. split; [done|]. split; [done|].
      apply Forall_app. split; [done|]. by apply Forall_singleton.
Qed.

(** ** The cache treats its blocks so *)

Section cache.
Context (P : CacheParams) (now : Z).

Lemma get_blk_inv b c k c' : get_blk (Way b) c = Ok (k, c') → blks (tags c) !! b = Some k ∧ c' = c.
Proof.
  intros H. unfold get_blk in H. inv_step H. apply lift_inv in H as [H ->]. unfold block, of_option in H.
  destruct (blks (tags c) !! b); [|done]. by injection H as ->.
Qed.

Lemma put_blk_inv b k0 k c u c' :
  blks (tags c) !! b = Some k0 → put_blk (Way b) k c = Ok (u, c') → blks (tags c') !! b = Some k.
Proof.
  intros Hb H. unfold put_blk, on_ref, on_tags in H. apply zoom_inv in H as (t & H & ->). unfold on_blk in H.
  inv_step H. inv_step H. inv_step H. cbn. by rewrite list_lookup_alter_eq, Hb.
Qed.

Lemma checkWrite_data pkt k ok pkt1 k1 : checkWrite pkt k = Ok (ok, pkt1, k1) → blk_data k1 = blk_data k.
Proof.
  unfold checkWrite, clearLoadLocks. destruct (isWrite _); [|done]. intros H. cbn [negb] in H.
  destruct (negb _ && _); [by injection H as _ _ <-|].
  destruct (isLLSC (pkt_cmd pkt)).
  - apply res_bind_inv in H as ([ok' ls] & _ & H). apply res_bind_inv in H as (k' & Hk & [= _ _ <-]).
    by apply res_bind_inv in Hk as (ls' & _ & [= <-]).
  - apply res_bind_inv in H as (k' & Hk & [= _ _ <-]). by apply res_bind_inv in Hk as (ls' & _ & [= <-]).
Qed.

(** a request that the cache satisfies from a block does to its locks what [lock_access] says, and a store
    that is not done leaves the data alone *)
Lemma satisfyRequest_locks pkt e b k c pkt' c' :
  asks_event pkt e → blks (tags c) !! b = Some k →
  satisfyRequest P now pkt (Way b) false false c = Ok (pkt', c') →
  ∃ ok pkt1 k1 k', lock_access pkt k = Ok (ok, pkt1, k1) ∧ blks (tags c') !! b = Some k' ∧
    lockList k' = lockList k1 ∧ (ok = false → blk_data k' = blk_data k).
Proof.
  intros He Hb H. pose proof (ae_cmd _ _ He) as Hcmd. unfold satisfyRequest in H. unfold lock_access.
  do 2 inv_step H. apply get_blk_inv in Hstep as [Hk ->]. rewrite Hb in Hk. injection Hk as <-.
  do 4 inv_step H. rewrite decide_False in H by (rewrite Hcmd; by destruct (le_kind e)).
  assert (Hstore : isWrite (pkt_cmd pkt) = true → ∃ ok pkt1 k1 k', checkWrite pkt k = Ok (ok, pkt1, k1) ∧
    blks (tags c') !! b = Some k' ∧ lockList k' = lockList k1 ∧ (ok = false → blk_data k' = blk_data k)).
  { intros Hw. rewrite Hw in H. inv_step H. inv_step H. destruct v5 as [[ok pkt1] k1]. inv_step H. inv_step H.
    eapply put_blk_inv in Hstep; [|exact Hb]. injection H as _ <-. eexists ok, pkt1, k1, _. split; [done|]. split; [exact Hstep|].
    split; [done|]. intros ->. injection Hlift2 as <-. by apply checkWrite_data in Hlift1. }
  destruct (le_kind e); rewrite Hcmd in H, Hstore |- *; [|by apply Hstore..].
  change (isWrite LoadLockedReq) with false in *. change (isRead LoadLockedReq) with true in *.
  change (isLLSC LoadLockedReq) with true in *. cbn iota in H. cbn [andb].
  inv_step H. apply bind_inv in Hstep as (k1 & c1 & Ht & Hput). apply lift_inv in Ht as [Ht ->].
  eapply put_blk_inv in Hput; [|exact Hb]. rewrite Ht.
  do 2 inv_step H. unfold setDataFromBlock in Hlift1. apply res_bind_inv in Hlift1 as (off & _ & Hd).
  replace c' with s. { eexists true, pkt, k1, k1. by repeat split. }
  unfold setData in Hd. do 3 (apply res_bind_inv in Hd as (? & _ & Hd)). injection Hd as <-.
  change (pkt_cmd (pkt.{pkt_bytes := _})) with (pkt_cmd pkt) in H. rewrite Hcmd in H. by injection H.
Qed.

End cache.

(** ** One event *)

Definition lock_disjoint (l1 l2 : Lock) : Prop := highAddr l1 < lowAddr l2 ∨ highAddr l2 < lowAddr l1.
Definition locks_ok (ls : list Lock) : Prop := ForallOrdPairs lock_disjoint ls ∧ Forall (λ l, lowAddr l ≤ highAddr l) ls.

Section event.
Context (pkt : Packet) (e : lock_event) (He : asks_event pkt e).

Lemma range_run : req_range (req pkt) = Ok (le_low e, le_high e).
Proof using He.
  destruct He as [_ _ Hl Hs Hr]. unfold req_range, getPaddr, req_getSize. rewrite Hl, Hs. cbn [of_option mbind res_bind].
  do 2 f_equal. rewrite u64_small by (unfold is_u64; lia). lia.
Qed.

Lemma context_run : contextId (req pkt) = Ok (le_context e).
Proof using He. destruct He as [_ Hc _ _ _]. unfold contextId. by rewrite Hc. Qed.

Lemma intersects_run l : lock_intersects l (req pkt) = Ok (bool_decide (overlaps l e)).
Proof using He.
  unfold lock_intersects. rewrite range_run. cbn [mbind res_bind]. f_equal. apply bool_decide_ext. unfold overlaps. lia.
Qed.

Lemma covers_run l : lock_matches l (req pkt) = Ok (bool_decide (covers l e)).
Proof using He.
  unfold lock_matches. rewrite range_run. cbn [mbind res_bind]. rewrite context_run. cbn [mbind res_bind].
  f_equal. apply bool_decide_ext. unfold covers. lia.
Qed.

Lemma erase_if_run (p : Lock → res bool) (Pr : Lock → Prop) `{!∀ l, Decision (Pr l)} ls :
  (∀ l, p l = Ok (bool_decide (Pr l))) → erase_if p ls = Ok (filter (λ l, ¬ Pr l) ls).
Proof.
  intros Hp. induction ls as [|l ls IH]; cbn [erase_if]; [done|]. rewrite Hp, IH. cbn [mbind res_bind].
  rewrite filter_cons. case_bool_decide; case_decide; done.
Qed.

Lemma clear_run ls :
  erase_if (λ k, i ← lock_intersects k (req pkt);
                 if (i : bool) then c ← contextId (req pkt); Ok (bool_decide (lk_contextId k ≠ c)) else Ok false) ls =
    Ok (filter (λ l, ¬ (overlaps l e ∧ lk_contextId l ≠ le_context e)) ls).
Proof using He.
  apply (erase_if_run _ (λ l, overlaps l e ∧ lk_contextId l ≠ le_context e)). intros l.
  rewrite intersects_run. cbn [mbind res_bind]. case_bool_decide as H.
  - rewrite context_run. cbn [mbind res_bind]. f_equal. apply bool_decide_ext. tauto.
  - by rewrite bool_decide_eq_false_2 by tauto.
Qed.

(** at most one lock covers the bytes *)
Lemma erase_first_run ls :
  locks_ok ls → le_low e ≤ le_high e →
  erase_first (λ k, lock_matches k (req pkt)) ls =
    Ok (bool_decide (Exists (λ l, covers l e) ls), filter (λ l, ¬ covers l e) ls).
Proof using He.
  intros [Hd Hv] Hr. induction Hd as [|l ls Hl Hd IH]; cbn [erase_first]; [done|].
  apply Forall_cons in Hv as [Hlv Hv]. rewrite covers_run. cbn [mbind res_bind]. rewrite filter_cons.
  destruct (decide (covers l e)) as [Hc|Hc].
  - rewrite bool_decide_eq_true_2 by done. rewrite decide_False by tauto.
    rewrite bool_decide_eq_true_2 by (by apply Exists_cons_hd). do 2 f_equal. symmetry. apply filter_keep.
    apply Forall_forall. intros l' Hl' Hc'. rewrite Forall_forall in Hl. specialize (Hl l' Hl').
    unfold lock_disjoint, covers in *. lia.
  - rewrite bool_decide_eq_false_2 by done. rewrite decide_True by done. rewrite (IH Hv). cbn [mbind res_bind].
    do 2 f_equal. apply bool_decide_ext. rewrite Exists_cons. tauto.
Qed.

Lemma filter_Forall (Pr Qr : Lock → Prop) `{!∀ l, Decision (Pr l)} ls : Forall Qr ls → Forall Qr (filter Pr ls).
Proof. rewrite !Forall_forall. intros Hall l [_ Hl]%list_elem_of_filter. auto. Qed.

Lemma filter_locks_ok (Pr : Lock → Prop) `{!∀ l, Decision (Pr l)} ls : locks_ok ls → locks_ok (filter Pr ls).
Proof.
  intros [Hd Hv]. split.
  - induction Hd as [|l ls Hl Hd IH]; [constructor|]. apply Forall_cons in Hv as [_ Hv]. rewrite filter_cons.
    case_decide; [|auto]. constructor; [|auto]. by apply filter_Forall.
  - by apply filter_Forall.
Qed.

End event.

(** what an event makes of the locks, and whether a store is done *)
Lemma lock_access_run pkt e b :
  asks_event pkt e →
  locks_ok (lockList b) →
  ∃ pkt' ls, lock_access pkt b = Ok (match le_kind e with Cond => bool_decide (Exists (λ l, covers l e) (lockList b)) | _ => true end,
      pkt', b.{lockList := ls}) ∧ locks_ok ls ∧
    ∀ l, l ∈ ls ↔ (le_kind e = Link ∧ event_lock e = l) ∨ (l ∈ lockList b ∧ ¬ breaks l e).
Proof.
  intros He Hok. pose proof (ae_cmd _ _ He) as Hcmd. pose proof (ae_range _ _ He) as Hr. unfold lock_access, breaks.
  destruct (le_kind e); rewrite Hcmd; cbn [isWrite isRead isLLSC testCmdAttrib].
  - unfold CacheBlk_trackLoadLocked, Lock_new. rewrite Hcmd. change (isLLSC LoadLockedReq) with true. cbn [negb].
    rewrite (erase_if_run _ (λ l, overlaps l e)) by (intros l; by apply intersects_run). cbn [mbind res_bind].
    rewrite (context_run pkt e He). cbn [mbind res_bind]. rewrite (range_run pkt e He). cbn [mbind res_bind].
    eexists _, _. split; [reflexivity|]. split.
    + destruct (filter_locks_ok (λ l, ¬ overlaps l e) _ Hok) as [Hd Hv]. split; [|by apply Forall_cons; split; [cbn; lia|]].
      constructor; [|done]. apply Forall_forall. intros l (Hno & _)%list_elem_of_filter. unfold lock_disjoint, overlaps in *. cbn. lia.
    + intros l. rewrite elem_of_cons, list_elem_of_filter. unfold event_lock. naive_solver.
  - unfold checkWrite. rewrite Hcmd. change (isWrite WriteReq) with true. change (isLLSC WriteReq) with false. cbn [negb andb].
    destruct (bool_decide (lockList b = [])) eqn:Hnil.
    + apply bool_decide_eq_true in Hnil. eexists pkt, []. split; [destruct b; cbn in *; by subst|]. split; [by split; constructor|].
      intros l. rewrite Hnil, elem_of_nil. naive_solver.
    + unfold clearLoadLocks. rewrite (clear_run pkt e He). cbn [mbind res_bind]. eexists pkt, _. split; [reflexivity|].
      split; [by apply filter_locks_ok|]. intros l. rewrite list_elem_of_filter. naive_solver.
  - unfold checkWrite. rewrite Hcmd. change (isWrite StoreCondReq) with true. change (isLLSC StoreCondReq) with true. cbn [negb andb].
    rewrite (erase_first_run pkt e He _ Hok) by lia. cbn [mbind res_bind].
    unfold clearLoadLocks. set (ok := bool_decide _). set (pkt' := pkt.{req ::= setExtraData (if ok then 1 else 0)}).
    assert (He' : asks_event pkt' e) by (by destruct He).
    rewrite (clear_run pkt' e He'). cbn [mbind res_bind]. exists pkt'. eexists. split; [reflexivity|].
    split; [by apply filter_locks_ok, filter_locks_ok|]. intros l. rewrite list_elem_of_filter. cbn [lockList set]. change (lockList (b.{lockList := _})) with (filter (λ l0 : Lock, ¬ covers l0 e) (lockList b)). rewrite list_elem_of_filter. split; [intros (? & ? & ?); right; tauto|intros [[? _]|?]; [discriminate|tauto]].
Qed.

(** ** Histories *)

(** the results: for a store-conditional whether its context holds a reservation of all its bytes *)
Fixpoint spec_results (h : list lock_event) (es : list lock_event) : list Prop :=
  match es with
  | [] => []
  | e :: es =>
      (le_kind e = Cond → ∃ l, held h l ∧ covers l e) :: spec_results (h ++ [e]) es
  end.

Lemma lock_accesses_run pkts es h b :
  Forall2 asks_event pkts es → locks_ok (lockList b) → (∀ l, l ∈ lockList b ↔ held h l) →
  ∃ oks b', lock_accesses pkts b = Ok (oks, b') ∧ Forall2 (λ ok (p : Prop), ok = true ↔ p) oks (spec_results h es) ∧
    locks_ok (lockList b') ∧ ∀ l, l ∈ lockList b' ↔ held (h ++ es) l.
Proof.
  intros Hall. revert h b. induction Hall as [|pkt e pkts es He Hall IH]; intros h b Hok Hl.
  { exists [], b. rewrite app_nil_r. split; [done|]. split; [constructor|]. by split. }
  destruct (lock_access_run pkt e b He Hok) as (pkt' & ls & Hrun & Hok' & Hl').
  destruct (IH (h ++ [e]) (b.{lockList := ls})) as (oks & b' & Hruns & Hres & Hokb & Hheld); [exact Hok'|..].
  { intros l. cbn. rewrite Hl', held_snoc. by rewrite Hl. }
  rewrite <-app_assoc in Hheld. cbn [lock_accesses]. rewrite Hrun. cbn [mbind res_bind fst snd]. rewrite Hruns.
  eexists _, b'. split; [reflexivity|]. split; [|done]. cbn [spec_results]. constructor; [|exact Hres].
  destruct (le_kind e) eqn:Hk; [split; [by intros _ ?|done]..|]. rewrite bool_decide_eq_true, Exists_exists. split.
  - intros (l & Hin & Hc) _. exists l. by rewrite <-Hl.
  - intros H. destruct (H eq_refl) as (l & Hin & Hc). exists l. by rewrite Hl.
Qed.

(** C17: From a block without reservations, every history of load-locked reads, stores and
    store-conditionals of any contexts to any bytes runs without a fault; a store is always done, and a
    store-conditional is done exactly when a load-locked read of its context covered all its bytes and
    nothing that came later broke that reservation: a load-locked read of overlapping bytes, a store of
    another context to overlapping bytes, a store-conditional of another context to overlapping bytes
    even if it was not done, or a store-conditional of its own to covered bytes.  (A comment beside the code says
    that a write clears all locks if any of them is of another context; locks on other bytes stay.) *)
Theorem store_conditional_needs_reservation pkts es b :
  Forall2 asks_event pkts es → lockList b = [] →
  ∃ oks b', lock_accesses pkts b = Ok (oks, b') ∧
    Forall2 (λ ok (p : Prop), ok = true ↔ p) oks (spec_results [] es) ∧
    ∀ l, l ∈ lockList b' ↔ held es l.
Proof.
  intros Hall Hb. destruct (lock_accesses_run pkts es [] b Hall) as (oks & b' & Hrun & Hres & _ & Hl).
  - rewrite Hb. by split; constructor.
  - intros l. rewrite Hb, elem_of_nil. split; [done|]. by intros ([|??] & ? & ? & ? & _).
  - by exists oks, b'.
Qed.

(** ** A history *)

Definition ex_request (k : lock_kind) (c lo hi : Z) : Packet :=
  let r := plain_request 3 0 in
  Packet_new (r.{req_paddr := Some lo}.{req_size := Some (hi - lo + 1)}.{req_contextId := Some c})
    (match k with Link => LoadLockedReq | Store => WriteReq | Cond => StoreCondReq end).
Definition ex_request_of (e : lock_event) : Packet := ex_request (le_kind e) (le_context e) (le_low e) (le_high e).

Lemma ex_request_asks e : 0 ≤ le_low e ≤ le_high e ∧ le_high e < 2 ^ 64 → asks_event (ex_request_of e) e.
Proof. intros Hr. by split. Qed.

(** context 2 writes next to the bytes that context 1 has linked, context 1 stores, and stores again *)
Definition ex_history : list lock_event :=
  [mkLockEvent Link 1 64 71; mkLockEvent Store 2 72 79; mkLockEvent Cond 1 64 67; mkLockEvent Cond 1 64 67].

Lemma store_conditional_needs_reservation_witness :
  Forall2 asks_event (ex_request_of <$> ex_history) ex_history ∧
  (∃ b', lock_accesses (ex_request_of <$> ex_history) (CacheBlk_new []) = Ok ([true; true; true; false], b')) ∧
  ∃ oks b', lock_accesses (ex_request_of <$> ex_history) (CacheBlk_new []) = Ok (oks, b') ∧
    Forall2 (λ ok (p : Prop), ok = true ↔ p) oks (spec_results [] ex_history) ∧
    ∀ l, l ∈ lockList b' ↔ held ex_history l.
Proof.
  assert (H : Forall2 asks_event (ex_request_of <$> ex_history) ex_history).
  { repeat (apply Forall2_cons; split; [apply ex_request_asks; cbn; lia|]). by apply Forall2_nil. }
  split; [exact H|]. split; [eexists; vm_compute; reflexivity|].
  exact (store_conditional_needs_reservation _ _ (CacheBlk_new []) H eq_refl).
Defined.

(** ** Two contexts in lockstep *)

Section lockstep.
Context (c1 c2 lo hi : Z) (Hc : c1 ≠ c2) (Hr : 0 ≤ lo ≤ hi ∧ hi < 2 ^ 64).

(** both link the same bytes, then both store *)
Definition lockstep_round : list lock_event :=
  [mkLockEvent Link c1 lo hi; mkLockEvent Link c2 lo hi; mkLockEvent Cond c1 lo hi; mkLockEvent Cond c2 lo hi].
Fixpoint lockstep (n : nat) : list lock_event := match n with O => [] | S n => lockstep_round ++ lockstep n end.
Fixpoint all_fail (n : nat) : list bool := match n with O => [] | S n => [true; true; false; false] ++ all_fail n end.

Definition unreserved (ls : list Lock) : Prop := ∀ l, l ∈ ls → ¬ (lo ≤ highAddr l ∧ lowAddr l ≤ hi).

Lemma lock_accesses_cons pkt pkts b ok pkt' b' oks b'' :
  lock_access pkt b = Ok (ok, pkt', b') → lock_accesses pkts b' = Ok (oks, b'') →
  lock_accesses (pkt :: pkts) b = Ok (ok :: oks, b'').
Proof. intros H1 H2. cbn [lock_accesses]. rewrite H1. cbn [mbind res_bind fst snd]. by rewrite H2. Qed.

Lemma no_cover (ls : list Lock) e : (∀ l, l ∈ ls → ¬ covers l e) → bool_decide (Exists (λ l, covers l e) ls) = false.
Proof. intros H. apply bool_decide_eq_false. rewrite Exists_exists. intros (l & Hin & Hl). by eapply H. Qed.

(** an event of the round: it is done, or it fails, and it leaves the reservations it leaves *)
Lemma lockstep_event pkt e b :
  asks_event pkt e → locks_ok (lockList b) → (∀ l, l ∈ lockList b → ¬ covers l e) →
  ∃ pkt' ls, lock_access pkt b = Ok (match le_kind e with Cond => false | _ => true end, pkt', b.{lockList := ls}) ∧
    locks_ok ls ∧ ∀ l, l ∈ ls ↔ (le_kind e = Link ∧ event_lock e = l) ∨ (l ∈ lockList b ∧ ¬ breaks l e).
Proof.
  intros He Hok Hno. destruct (lock_access_run pkt e b He Hok) as (pkt' & ls & Hrun & Hl).
  exists pkt', ls. split; [|exact Hl]. rewrite Hrun. destruct (le_kind e); [done..|]. by rewrite (no_cover _ _ Hno).
Qed.

Lemma lockstep_round_run p1 p2 p3 p4 pkts b oks :
  Forall2 asks_event [p1; p2; p3; p4] lockstep_round → locks_ok (lockList b) → unreserved (lockList b) →
  (∀ b1, locks_ok (lockList b1) → unreserved (lockList b1) → ∃ b', lock_accesses pkts b1 = Ok (oks, b')) →
  ∃ b', lock_accesses (p1 :: p2 :: p3 :: p4 :: pkts) b = Ok ([true; true; false; false] ++ oks, b').
Proof using Hc Hr.
  intros (H1 & (H2 & (H3 & (H4 & _)%Forall2_cons)%Forall2_cons)%Forall2_cons)%Forall2_cons Hok Hun Hrest.
  destruct (lockstep_event p1 _ b H1 Hok) as (q1 & ls1 & R1 & Hok1 & L1).
  { intros l Hl (_ & ? & ?). apply (Hun l Hl). cbn in *. lia. }
  destruct (lockstep_event p2 _ (b.{lockList := ls1}) H2) as (q2 & ls2 & R2 & Hok2 & L2); [exact Hok1|..].
  { intros l [[_ <-]|[Hl _]]%L1 (Hctx & ? & ?); [by apply Hc|]. apply (Hun l Hl). cbn in *. lia. }
  assert (U2 : ∀ l, l ∈ ls2 → l = mkLock c2 lo hi ∨ (l ∈ lockList b ∧ ¬ (lo ≤ highAddr l ∧ lowAddr l ≤ hi))).
  { intros l [[_ <-]|[[[_ <-]|[Hl _]]%L1 Hb]]%L2; [by left|destruct Hb; unfold breaks, overlaps; cbn; lia|right; split; [done|exact Hb]]. }
  destruct (lockstep_event p3 _ (b.{lockList := ls2}) H3) as (q3 & ls3 & R3 & Hok3 & L3); [exact Hok2|..].
  { intros l [->|[_ Hl]]%U2 (Hctx & ? & ?); [by apply Hc|cbn in *; lia]. }
  assert (U3 : unreserved ls3).
  { intros l [[? _]|[[->|[_ Hl]]%U2 Hb]]%L3; [done| |exact Hl]. destruct Hb. left. unfold overlaps. cbn. by split; [lia|intros Heq; apply Hc]. }
  destruct (lockstep_event p4 _ (b.{lockList := ls3}) H4) as (q4 & ls4 & R4 & Hok4 & L4); [exact Hok3|..].
  { intros l Hl (_ & ? & ?). apply (U3 l Hl). cbn in *. lia. }
  destruct (Hrest (b.{lockList := ls4})) as (b' & Hb'); [exact Hok4|by intros l [[? _]|[Hl _]]%L4; [|apply U3]|].
  exists b'. eapply lock_accesses_cons; [exact R1|]. eapply lock_accesses_cons; [exact R2|].
  eapply lock_accesses_cons; [exact R3|]. eapply lock_accesses_cons; [exact R4|]. exact Hb'.
Qed.

Lemma lockstep_runs n : ∀ pkts b,
  Forall2 asks_event pkts (lockstep n) → locks_ok (lockList b) → unreserved (lockList b) →
  ∃ b', lock_accesses pkts b = Ok (all_fail n, b').
Proof using Hc Hr.
  induction n as [|n IH]; intros pkts b Hall Hok Hun; cbn [lockstep all_fail] in *.
  { apply Forall2_nil_inv_r in Hall as ->. by exists b. }
  apply Forall2_app_inv_r in Hall as (ps & rest & Hps & Hrest & ->).
  pose proof (Forall2_length _ _ _ Hps) as Hlen. destruct ps as [|p1 [|p2 [|p3 [|p4 [|]]]]]; try discriminate Hlen.
  cbn [app]. apply lockstep_round_run; [done..|]. intros b1 Hok1 Hun1. by apply IH.
Qed.

End lockstep.

(** C36: two contexts of one cache that in each round both link the same bytes and then both try
    to store to them never succeed, in any number of rounds: the link of the second erases the
    reservation of the first, and the failed store of the first erases that of the second. *)
Theorem lockstep_contexts_starve c1 c2 lo hi n pkts b :
  c1 ≠ c2 → 0 ≤ lo ≤ hi ∧ hi < 2 ^ 64 → lockList b = [] → Forall2 asks_event pkts (lockstep c1 c2 lo hi n) →
  ∃ b', lock_accesses pkts b = Ok (all_fail n, b').
Proof.
  intros Hc Hr Hb Hall. eapply lockstep_runs; [exact Hc|exact Hr|exact Hall|rewrite Hb; by split; constructor|].
  intros l Hl. rewrite Hb in Hl. by apply not_elem_of_nil in Hl.
Qed.

Lemma lockstep_contexts_starve_witness :
  Forall2 asks_event (ex_request_of <$> lockstep 1 2 64 71 3) (lockstep 1 2 64 71 3) ∧
  ∃ b', lock_accesses (ex_request_of <$> lockstep 1 2 64 71 3) (CacheBlk_new []) = Ok (all_fail 3, b').
Proof.
  assert (H : Forall2 asks_event (ex_request_of <$> lockstep 1 2 64 71 3) (lockstep 1 2 64 71 3)).
  { cbn [lockstep lockstep_round app]. repeat (apply Forall2_cons; split; [apply ex_request_asks; cbn; lia|]). by apply Forall2_nil. }
  split; [exact H|]. apply (lockstep_contexts_starve 1 2 64 71 3 _ (CacheBlk_new [])); [lia|lia|reflexivity|exact H].
Defined.
