(* ===== verification/CacheRun.v ===== *)
(** * Running the steps of the classic cache

    Rules that run a computation one step after the other, and with them the
    steps of a cache with LRU tags and nothing outstanding: reading and changing a block, evicting one,
    allocating one, filling it from a response, and serving a request from it. *)

From S2P Require Import Prelude IntMath Clock AddrRange MemPacket AbstractMem MemSpec CacheBlk CacheTags CacheQueue MSHR LruSpec ClassicCache.

(** ** Rules *)

(** [m] started in [s] returns, and [Q] holds of the result and the state *)
Definition runs {S A} (m : M S A) (s : S) (Q : A → S → Prop) : Prop := ∃ a s', m s = Ok (a, s') ∧ Q a s'.

Section rules.
Context {S : Type}.

Lemma runs_ret {A} (a : A) s (Q : A → S → Prop) : Q a s → runs (mret a) s Q.
Proof. by exists a, s. Qed.

Lemma runs_bind {A B} (m : M S A) (k : A → M S B) s Q : runs m s (λ a s', runs (k a) s' Q) → runs (m ≫= k) s Q.
Proof. intros (a & s' & Hm & b & s'' & Hk & HQ). exists b, s''. split; [|done]. by eapply bind_Ok; [exact Hm|]. Qed.

Lemma runs_mono {A} (m : M S A) s (Q Q' : A → S → Prop) : runs m s Q → (∀ a s', Q a s' → Q' a s') → runs m s Q'.
Proof. intros (a & s' & Hm & HQ) H. exists a, s'. auto. Qed.

Lemma runs_lift {A} (m : res A) s a (Q : A → S → Prop) : m = Ok a → Q a s → runs (lift m) s Q.
Proof. intros -> HQ. by exists a, s. Qed.

Lemma runs_check b s (Q : unit → S → Prop) : b = true → Q tt s → runs (check b) s Q.
Proof. intros -> HQ. by exists tt, s. Qed.

Lemma runs_when b (m : M S unit) s (Q : unit → S → Prop) :
  (b = true → runs m s Q) → (b = false → Q tt s) → runs (when b m) s Q.
Proof. intros Ht Hf. destruct b; [by apply Ht|]. by apply runs_ret, Hf. Qed.

Lemma runs_get s (Q : S → S → Prop) : Q s s → runs get s Q.
Proof. by exists s, s. Qed.

Lemma runs_gets {A} (f : S → A) s (Q : A → S → Prop) : Q (f s) s → runs (gets f) s Q.
Proof. by exists (f s), s. Qed.

Lemma runs_modify (f : S → S) s (Q : unit → S → Prop) : Q tt (f s) → runs (modify f) s Q.
Proof. by exists tt, (f s). Qed.

Lemma runs_zoom {T A} (g : S → T) st (m : M T A) s Q :
  runs m (g s) (λ a t, Q a (st t s)) → runs (zoom g st m) s Q.
Proof. intros (a & t & Hm & HQ). exists a, (st t s). split; [|done]. unfold zoom. by rewrite Hm. Qed.
End rules.

(** the next step of a run whose result is known *)
Ltac step_lift := apply runs_bind; eapply runs_lift; [|cbn beta].
Ltac step_check := apply runs_bind, runs_check.

(** ** Status bits *)

Lemma land_ldiff s a b : Z.land (Z.ldiff s a) b = Z.land s (Z.ldiff b a).
Proof.
  apply Z.bits_inj'. intros n Hn. rewrite !Z.land_spec, !Z.ldiff_spec.
  destruct (Z.testbit s n), (Z.testbit a n), (Z.testbit b n); done.
Qed.

Lemma has_bit_clear m k bit : has_bit (clear_bits m k) bit = has_bit k (Z.ldiff bit m).
Proof. unfold has_bit, clear_bits. cbn. by rewrite land_ldiff. Qed.

(** the bit that is tested is not among those that are cleared *)
Lemma has_bit_keep m k bit : Z.ldiff bit m = bit → has_bit (clear_bits m k) bit = has_bit k bit.
Proof. intros H. by rewrite has_bit_clear, H. Qed.

Lemma has_bit_gone bit k : has_bit (clear_bits bit k) bit = false.
Proof. rewrite has_bit_clear. unfold has_bit. by rewrite Z.ldiff_diag, Z.land_0_r. Qed.

Lemma has_bit_set m k bit : has_bit (set_bits m k) bit = bool_decide (Z.land m bit ≠ 0) || has_bit k bit.
Proof.
  unfold has_bit, set_bits. cbn. rewrite Z.land_lor_distr_l. apply eq_bool_prop_intro.
  rewrite orb_True, !bool_decide_spec, Z.lor_eq_0_iff.
  destruct (decide (Z.land m bit = 0)), (decide (Z.land (blk_status k) bit = 0)); tauto.
Qed.

Lemma has_bits_set m k bits : has_bits k bits = true → has_bits (set_bits m k) bits = true.
Proof.
  unfold has_bits, set_bits. cbn. rewrite !bool_decide_eq_true. intros H.
  rewrite Z.land_lor_distr_l, H. apply Z.bits_inj'. intros n Hn. rewrite Z.lor_spec, Z.land_spec.
  by destruct (Z.testbit m n), (Z.testbit bits n).
Qed.

(** ** The state *)

(** no transaction is outstanding, and nothing above has to be asked *)
Definition idle (c : GemCache) : Prop :=
  allocatedList (mshrQueue c) = [] ∧ allocatedList (writeBuffer c) = [] ∧ isValid (tempBlock c) = false ∧
  gc_forwardSnoops c = false.

(** the tags of an idle cache *)
Definition at_tags (t : Tags) (c : GemCache) : Prop := tags c = t ∧ idle c.

Definition put_block (t : Tags) (b : nat) (k : CacheBlk) : Tags := t.{blks ::= <[b := k]>}.

Lemma put_put t b k k' : put_block (put_block t b k) b k' = put_block t b k'.
Proof. unfold put_block. cbn. by rewrite list_insert_insert_eq. Qed.

Lemma put_id t b k : blks t !! b = Some k → put_block t b k = t.
Proof. intros Hb. unfold put_block. destruct t. cbn in *. by rewrite list_insert_id. Qed.

Lemma put_at t b k : is_Some (blks t !! b) → blks (put_block t b k) !! b = Some k.
Proof. intros [x Hx]. apply list_lookup_insert_eq. by eapply lookup_lt_Some. Qed.

Section cache.
Context (P : CacheParams) (now : Z).

(** ** Blocks *)

Lemma runs_get_blk t b k c Q :
  at_tags t c → blks t !! b = Some k → Q k c → runs (get_blk (Way b)) c Q.
Proof.
  intros [Ht _] Hb HQ. unfold get_blk. apply runs_bind, runs_get. eapply runs_lift; [|exact HQ].
  rewrite Ht. by apply block_run.
Qed.

Lemma runs_on_ref t b k f c Q :
  at_tags t c → blks t !! b = Some k → (∀ c', at_tags (put_block t b (f k)) c' → Q tt c') →
  runs (on_ref (Way b) f) c Q.
Proof.
  intros [<- Hi] Hb HQ. unfold on_ref, on_tags. apply runs_zoom. eexists _, _.
  split; [by apply (on_blk_run _ b f k)|]. apply HQ. split; [|done]. unfold put_block. by destruct c.
Qed.

Lemma runs_on_put t b k f c Q :
  at_tags (put_block t b k) c → is_Some (blks t !! b) → (∀ c', at_tags (put_block t b (f k)) c' → Q tt c') →
  runs (on_ref (Way b) f) c Q.
Proof.
  intros Ha Hb HQ. eapply runs_on_ref; [exact Ha|by apply put_at|]. by rewrite put_put.
Qed.

Lemma runs_on_cstats t f c Q : at_tags t c → (∀ c', at_tags t c' → Q tt c') → runs (on_cstats f) c Q.
Proof. intros Ha HQ. apply runs_modify, HQ. exact Ha. Qed.

Lemma runs_new_Request t a n sec ms c Q :
  at_tags t c →
  (∀ p c', at_tags t c' →
     Q ((plain_request ms now).{req_ptr := p}.{req_paddr := Some a}.{req_size := Some n}.{req_isSecure := sec}) c') →
  runs (new_Request P now a n sec ms) c Q.
Proof.
  intros Ha HQ. unfold new_Request. apply runs_bind, runs_gets. apply runs_bind, runs_modify. by apply runs_ret, HQ.
Qed.

Lemma runs_incHitCount t pkt c Q :
  at_tags t c → masterId (req pkt) < maxMasters (gp_tags P) → (∀ c', at_tags t c' → Q tt c') →
  runs (incHitCount P pkt) c Q.
Proof.
  intros Ha Hm HQ. unfold incHitCount. step_check; [by apply bool_decide_eq_true|]. by eapply runs_on_cstats.
Qed.

Lemma runs_incMissCount t pkt c Q :
  at_tags t c → masterId (req pkt) < maxMasters (gp_tags P) →
  (∀ c', at_tags t c' → Q (pkt.{req ::= incAccessDepth}) c') → runs (incMissCount P pkt) c Q.
Proof.
  intros Ha Hm HQ. unfold incMissCount. step_check; [by apply bool_decide_eq_true|].
  apply runs_bind. eapply runs_on_cstats; [exact Ha|]. intros c1 Ha1. apply runs_bind, runs_get. case_decide.
  - apply runs_bind, runs_ret. by apply runs_ret, HQ.
  - apply runs_bind, runs_bind, runs_modify, runs_bind, runs_get. apply runs_when; [|intros _; by apply runs_ret, HQ].
    intros _. apply runs_modify. by apply runs_ret, HQ.
Qed.

Lemma runs_maintainClusivity b c Q : Q tt c → is_Some (blks (tags c) !! b) → runs (maintainClusivity P now false (Some (Way b))) c Q.
Proof.
  intros HQ [k Hk]. unfold maintainClusivity. apply runs_bind, runs_bind, runs_get. eapply runs_lift; [by apply block_run|].
  by apply runs_ret.
Qed.

(** ** Evictions *)

(** what the cache is built with: LRU tags of [2 ^ m] sets, lines of [2 ^ lg] bytes *)
Record cache_params_ok (lg m : Z) : Prop := {
  cp_tags : params_ok (gp_tags P) lg m;
  cp_line : gp_blkSize P = 2 ^ lg;
  cp_clock : 0 < gp_clockPeriod P;
  cp_caches : gp_bypassCaches P = false;
  cp_writes : isReadOnly P = false;
  cp_raw n : 0 ≤ n → zlength (raw P n) = n;
}.

Context (lg m : Z) (HP : cache_params_ok lg m).

(** what the tags know of a block, and its data, do not change *)
Record same_line (k k' : CacheBlk) : Prop := {
  sl_data : blk_data k' = blk_data k;
  sl_tag : blk_tag k' = blk_tag k;
  sl_set : blk_set k' = blk_set k;
  sl_way : blk_way k' = blk_way k;
  sl_master : srcMasterId k' = srcMasterId k;
  sl_locks : lockList k' = lockList k;
  sl_valid : isValid k' = isValid k;
  sl_secure : blk_isSecure k' = blk_isSecure k;
}.

(** the packet writes the line [a] back *)
Record writes_back (a : Z) (data : list Z) (pkt : Packet) : Prop := {
  wb_cmd : pkt_cmd pkt = WritebackDirty;
  wb_addr : pkt_addr pkt = Some a;
  wb_size : pkt_size pkt = Some (zlength data);
  wb_bytes : pkt_bytes pkt = Some data;
  wb_paddr : req_paddr (req pkt) = Some a;
  wb_fetch : isInstFetch (req pkt) = false;
  wb_free : cacheResponding pkt = false;
}.
Definition quiet (pkt : Packet) : Prop :=
  (pkt_cmd pkt = CleanEvict ∨ pkt_cmd pkt = WritebackClean) ∧ cacheResponding pkt = false.

(** the packets to send, and the line whose data is in one of them only *)
Inductive pends : list Packet → option (Z * list Z) → Prop :=
  | pends_none : pends [] None
  | pends_quiet pkt : quiet pkt → pends [pkt] None
  | pends_dirty pkt a data : writes_back a data pkt → pends [pkt] (Some (a, data)).


Lemma runs_blk_address t k a c Q :
  at_tags t c → regenerateBlkAddr (blk_tag k) (to_uint 32 (blk_set k)) t = Ok a → Q a c → runs (blk_address k) c Q.
Proof. intros [<- _] Ha HQ. unfold blk_address. apply runs_bind, runs_get. by eapply runs_lift. Qed.

Lemma runs_writebackBlk t b k a c Q :
  at_tags t c → blks t !! b = Some k → isValid k = true → isDirty k || writebackClean P = true →
  blk_isSecure k = false → zlength (blk_data k) = gp_blkSize P →
  regenerateBlkAddr (blk_tag k) (to_uint 32 (blk_set k)) t = Ok a →
  (∀ pkt k' c', at_tags (put_block t b k') c' → same_line k k' →
     pends [pkt] (if isDirty k then Some (a, blk_data k) else None) → Q pkt c') →
  runs (writebackBlk P now (Way b)) c Q.
Proof using HP.
  intros Ha Hb Hv Hd Hs Hl Hreg HQ. unfold writebackBlk. rewrite (cp_writes _ _ HP). cbn [andb].
  apply runs_bind. eapply runs_get_blk; [done..|]. step_check; [by rewrite Hv, Hd|].
  apply runs_bind. eapply runs_on_cstats; [exact Ha|]. intros c1 Ha1. apply runs_bind.
  eapply runs_blk_address; [done..|]. apply runs_bind. eapply runs_new_Request; [exact Ha1|]. intros p c2 Ha2. cbv zeta.
  set (k1 := (if isWritable k then clear_bits BlkWritable k else k).{task_id := Unknown_task}.{tickInserted := now}).
  apply runs_bind. eapply (runs_on_ref t b k); [exact Ha2|done|]. intros c3 Ha3.
  apply runs_bind. eapply runs_on_put; [exact Ha3|by eexists|]. intros c4 Ha4.
  assert (Hget : ∀ rq, req_size rq = Some (gp_blkSize P) → ∀ cmd f, hasData cmd = true →
    allocate (raw P) (if f : bool then Packet_new rq cmd else setHasSharers (Packet_new rq cmd)) =
      Ok ((if f then Packet_new rq cmd else setHasSharers (Packet_new rq cmd)).{pkt_bytes := Some (raw P (gp_blkSize P))})).
  { intros rq Hsz cmd f Hc. unfold allocate. assert (pkt_cmd (if f then Packet_new rq cmd else setHasSharers (Packet_new rq cmd)) = cmd)
      as -> by (by destruct f). rewrite Hc. destruct f; cbn; unfold getSize; cbn; by rewrite Hsz. }
  step_lift; [apply Hget; [done|by destruct (isDirty k)]|].
  assert (Hcopy : memcpy (raw P (gp_blkSize P)) 0 (blk_data k) 0 (gp_blkSize P) = Ok (blk_data k)).
  { pose proof (zlength_nonneg (blk_data k)). pose proof (cp_raw _ _ HP (gp_blkSize P) ltac:(lia)) as Hr. rewrite <-Hr at 2.
    rewrite memcpy_whole by lia. f_equal. unfold zlength in *. cbn. apply take_ge. lia. }
  eapply runs_lift; [unfold getPtr; cbn; by rewrite Hcopy|]. eapply HQ; [exact Ha4| |].
  - unfold k1. split; try (by destruct (isWritable k)).
    + unfold isValid. rewrite has_bit_keep by done. by destruct (isWritable k); [apply has_bit_keep|].
    + unfold blk_isSecure. rewrite has_bit_keep by done. by destruct (isWritable k); [apply has_bit_keep|].
  - destruct (isDirty k).
    + apply pends_dirty. split; try (by destruct (isWritable k)). destruct (isWritable k); cbn; by rewrite Hl.
    + apply pends_quiet. split; [right|]; by destruct (isWritable k).
Qed.

Lemma runs_cleanEvictBlk t b k a c Q :
  at_tags t c → blks t !! b = Some k → isValid k = true → isDirty k = false → writebackClean P = false →
  blk_isSecure k = false → regenerateBlkAddr (blk_tag k) (to_uint 32 (blk_set k)) t = Ok a →
  (∀ pkt k' c', at_tags (put_block t b k') c' → same_line k k' → pends [pkt] None → Q pkt c') →
  runs (cleanEvictBlk P now (Way b)) c Q.
Proof.
  intros Ha Hb Hv Hd Hw Hs Hreg HQ. unfold cleanEvictBlk. apply runs_bind. eapply runs_get_blk; [done..|].
  step_check; [by rewrite Hw|]. step_check; [by rewrite Hv, Hd|]. apply runs_bind. eapply runs_blk_address; [done..|].
  apply runs_bind. eapply runs_new_Request; [exact Ha|]. intros p c2 Ha2.
  apply runs_bind. eapply runs_on_ref; [exact Ha2|done|]. intros c3 Ha3.
  eapply runs_lift; [done|]. eapply HQ; [exact Ha3|by split|]. apply pends_quiet. split; [by left|done].
Qed.

(** the packet carries the data of a dirty line, and of no other *)
Lemma runs_evictBlk t b k a c Q :
  at_tags t c → blks t !! b = Some k → isValid k = true →
  blk_isSecure k = false → zlength (blk_data k) = gp_blkSize P →
  regenerateBlkAddr (blk_tag k) (to_uint 32 (blk_set k)) t = Ok a →
  (∀ pkt k' c', at_tags (put_block t b k') c' → same_line k k' →
     pends [pkt] (if isDirty k then Some (a, blk_data k) else None) → Q pkt c') →
  runs (evictBlk P now (Way b)) c Q.
Proof using HP.
  intros Ha Hb Hv Hs Hl Hreg HQ. unfold evictBlk. apply runs_bind. eapply runs_get_blk; [done..|].
  destruct (isDirty k || writebackClean P) eqn:E; [by eapply runs_writebackBlk|].
  apply orb_false_iff in E as [Hd Hw]. rewrite Hd in HQ. by eapply runs_cleanEvictBlk.
Qed.

(** ** Filling a block *)

Notation T := (gp_tags P).
Notation abs := (lru_abs T lg m).

(** the address of the first byte of a block *)
Definition line_addr (k : CacheBlk) : Z := blk_tag k * 2 ^ (lg + m) + blk_set k * 2 ^ lg.

Lemma clock_edge_runs c (Q : Z → Clocked → Prop) :
  (∀ e c', Q e c') → runs (clockEdge now (gp_clockPeriod P) 0) c Q.
Proof using HP.
  intros HQ. unfold clockEdge. apply runs_bind. assert (Hu : ∃ c', update now (gp_clockPeriod P) c = Ok (tt, c')).
  { unfold update. case_decide; [by eexists|]. cbv zeta. case_decide; [by eexists|]. unfold divCeil.
    rewrite decide_False by (pose proof (cp_clock _ _ HP); lia). by eexists. }
  destruct Hu as [c' Hu]. exists tt, c'. split; [exact Hu|]. apply runs_bind, runs_get. by apply runs_ret.
Qed.

Lemma no_match {E} `{!QEntry E} a sec (q : Queue E) : allocatedList q = [] → findMatch a sec q = Ok None.
Proof. intros Hq. unfold findMatch. by rewrite Hq. Qed.

(** where a block is, and how it is named *)
Lemma block_place t S b k :
  abs t S → blks t !! b = Some k → let i := Z.of_nat b / tp_assoc T in
  0 ≤ i < 2 ^ m ∧ blk_set k = i ∧ b ∈ ways T i ∧ entry_of lg m i k = (line_addr k, blk_isSecure k).
Proof using HP.
  intros Habs Hb i. pose proof (sizes T lg m (cp_tags _ _ HP)) as (HA & Hm & _). pose proof (lookup_lt_Some _ _ _ Hb) as Hlt.
  destruct (la_blks _ _ _ _ _ Habs b k Hb) as (Hs & _). pose proof (la_length _ _ _ _ _ Habs) as Hl. unfold zlength in Hl.
  assert (0 ≤ i < 2 ^ m) by (split; [apply Z.div_pos; lia|apply Z.div_lt_upper_bound; nia]).
  split; [done|]. split; [done|]. split; [by apply (elem_of_ways T lg m (cp_tags _ _ HP)); lia|].
  unfold entry_of, line_addr. by rewrite Hs.
Qed.

Lemma block_regenerate t S b k :
  abs t S → blks t !! b = Some k → isValid k = true →
  regenerateBlkAddr (blk_tag k) (to_uint 32 (blk_set k)) t = Ok (line_addr k).
Proof using HP.
  intros Habs Hb Hv. destruct (block_place t S b k Habs Hb) as (Hi & Hs & Hw & He).
  rewrite (evicted_run T lg m (cp_tags _ _ HP) t S _ b k Habs Hi Hw); [by rewrite He|by rewrite (block_at t b k)|done].
Qed.

(** a change of a block that its tag does not see *)
Lemma abs_same_line t S b k k' :
  abs t S → blks t !! b = Some k → same_line k k' → isValid k = true → abs (put_block t b k') S.
Proof.
  intros Habs Hb Hsame Hv. pose proof (block_at t b k Hb) as Hk.
  apply (abs_modify T lg m t _ S b k'); rewrite ?Hk; try (by destruct Hsame); [exact (la_geometry _ _ _ _ _ Habs)|].
  intros Hf. rewrite (sl_valid _ _ Hsame) in Hf. congruence.
Qed.

Lemma same_ways t b k k' a :
  blks t !! b = Some k → blk_way k' = blk_way k → tp_policy T = LRU → findVictim T a t = Ok (Some b, t) →
  findVictim T a (put_block t b k') = Ok (Some b, put_block t b k').
Proof.
  intros Hb Hw Hp. unfold findVictim. rewrite Hp. unfold get, lift, mbind, M_bind, mret, M_ret.
  change (extractSet a (put_block t b k')) with (extractSet a t). change (sets (put_block t b k')) with (sets t).
  destruct (extractSet a t) as [s|]; [|done]. destruct (vget (sets t) s) as [x|]; [|done].
  change (assoc (put_block t b k')) with (assoc t).
  assert (Hsame : ∀ l n, last_allocatable (put_block t b k') l n = last_allocatable t l n).
  { intros l n. induction n as [|n IH]; cbn [last_allocatable]; [done|]. destruct (vget l (Z.of_nat n)) as [d|]; [|done].
    cbn [mbind res_bind]. destruct (decide (d = b)) as [->|Hd].
    - unfold block. rewrite put_at, Hb by by eexists. cbn [of_option mbind res_bind]. by rewrite Hw, IH.
    - unfold block. change (blks (put_block t b k')) with (<[b := k']> (blks t)). rewrite list_lookup_insert_ne by done.
      destruct (blks t !! d); [cbn [of_option mbind res_bind]; by rewrite IH|done]. }
  rewrite Hsame. destruct (last_allocatable _ _ _) as [[d|]|]; [|done..]. by intros [= ->].
Qed.

(** the blocks that hold a line *)
Definition blocks_ok (t : Tags) : Prop :=
  ∀ b k, blks t !! b = Some k → zlength (blk_data k) = 2 ^ lg ∧ (isValid k = true → blk_isSecure k = false).

(** the data that the eviction of a block leaves in a packet *)
Definition evicted (k : CacheBlk) : option (Z * list Z) :=
  if isValid k && isDirty k then Some (line_addr k, blk_data k) else None.

Lemma runs_allocateBlock t S a b c Q :
  at_tags t c → abs t S → blocks_ok t → findVictim T a t = Ok (Some b, t) → is_Some (blks t !! b) →
  (∀ k k' pkts c', blks t !! b = Some k → at_tags (put_block t b k') c' → abs (put_block t b k') S →
     findVictim T a (put_block t b k') = Ok (Some b, put_block t b k') → blk_data k' = blk_data k →
     pends pkts (evicted k) → Q (Some (Way b), pkts) c') →
  runs (allocateBlock P now a) c Q.
Proof using HP.
  intros Ha Habs Hok Hv [k Hb] HQ. unfold allocateBlock. pose proof Ha as [Ht (Hm & Hw & Hi)].
  apply runs_bind. unfold on_tags. apply runs_zoom. rewrite Ht. exists (Some b), t. split; [exact Hv|].
  replace (c.{tags := t}) with c by (rewrite <-Ht; by destruct c). cbn beta iota.
  apply runs_bind. eapply runs_get_blk; [done..|]. destruct (Hok b k Hb) as [Hl Hs].
  specialize (HQ k). unfold evicted in HQ. destruct (isValid k) eqn:Hval.
  - specialize (Hs eq_refl). pose proof (block_regenerate t S b k Habs Hb Hval) as Hreg.
    apply runs_bind. eapply runs_blk_address; [done..|]. apply runs_bind, runs_get.
    step_lift; [by apply no_match|]. apply runs_bind. apply runs_when; [intros _|intros _].
    1: eapply runs_on_cstats; [exact Ha|]; intros c1 Ha1.
    2: rename c into c1; rename Ha into Ha1.
    all: apply runs_bind; eapply runs_evictBlk; [done..| | |]; [by rewrite (cp_line _ _ HP)|done|].
    all: intros pkt k' c2 Ha2 Hsame Hp; apply runs_ret; eapply HQ; [done|exact Ha2|by eapply abs_same_line| | |exact Hp].
    1, 3: eapply same_ways; [done|by eapply sl_way|apply HP|done].
    all: by eapply sl_data.
  - apply runs_ret. eapply (HQ k); [done|by rewrite put_id|by rewrite put_id|by rewrite put_id|done|apply pends_none].
Qed.

(** the packet brings the line [a], or is going to overwrite all of it *)
Record fills (a : Z) (pkt : Packet) (src : option (list Z)) : Prop := {
  fi_addr : pkt_addr pkt = Some a;
  fi_range : line_of lg a = a ∧ 0 ≤ a < 2 ^ 64;
  fi_secure : _isSecure pkt = false;
  fi_master : masterId (req pkt) < maxMasters T;
  fi_sharers : hasSharers pkt = false;
  fi_free : cacheResponding pkt = false;
  fi_src : match src with
           | Some data => isResponse (pkt_cmd pkt) = true ∧ isRead (pkt_cmd pkt) = true ∧ hasData (pkt_cmd pkt) = true ∧
                          pkt_size pkt = Some (2 ^ lg) ∧ pkt_bytes pkt = Some data ∧ zlength data = 2 ^ lg
           | None => pkt_cmd pkt = WriteLineReq
           end;
}.

(** a block that was just filled *)
Record fresh (a : Z) (data : list Z) (k : CacheBlk) : Prop := {
  fr_data : blk_data k = data;
  fr_addr : line_addr k = a;
  fr_valid : isValid k = true;
  fr_writable : isWritable k = true;
  fr_readable : isReadable k = true;
  fr_clean : isDirty k = false;
  fr_secure : blk_isSecure k = false;
  fr_locks : lockList k = [];
}.

(** the tags are as they should be once block [b] has become [k] *)
Definition tags_fit (t : Tags) (b : nat) (k0 : CacheBlk) : Prop :=
  ∀ k, blk_tag k = blk_tag k0 → blk_set k = blk_set k0 → blk_way k = blk_way k0 → srcMasterId k = srcMasterId k0 →
    isValid k = true → blk_isSecure k = false → ∃ S, abs (put_block t b k) S.

Lemma inserted_fits t2 t3 S' b k2 bits :
  blks t2 !! b = Some k2 → blk_status k2 = 0 → on_blk b (set_bits bits) t2 = Ok (tt, t3) → abs t3 S' →
  bits = Z.lor BlkValid (Z.lor BlkReadable 0) → tags_fit t2 b k2.
Proof.
  intros Hb2 I1 Hon Habs3 -> kf H1 H2 H3 H4 Hv Hs. rewrite (on_blk_run t2 b _ k2 Hb2) in Hon. injection Hon as <-.
  set (bits := Z.lor BlkValid (Z.lor BlkReadable 0)) in *. set (t3 := t2.{blks := <[b := set_bits bits k2]> (blks t2)}) in *.
  assert (Hb3 : blks t3 !! b = Some (set_bits bits k2)) by (apply (put_at t2 b); by eexists).
  pose proof (block_at t3 b _ Hb3) as Hk3.
  assert (Hst : isValid (set_bits bits k2) = true ∧ blk_isSecure (set_bits bits k2) = false).
  { unfold bits, set_bits, isValid, blk_isSecure, has_bit. cbn. by rewrite I1. }
  exists S'. apply (abs_modify T lg m t3 _ _ b kf Habs3); rewrite ?Hk3; try done; [exact (la_geometry _ _ _ _ _ Habs3)| | | |].
  + cbn. symmetry. apply list_insert_insert_eq.
  + by rewrite Hv, (proj1 Hst).
  + by rewrite Hs, (proj2 Hst).
  + by rewrite Hv.
Qed.

Lemma runs_fill_target t S a pkt src c Q :
  at_tags t c → abs t S → blocks_ok t → fills a pkt src → (a, false) ∉ S (set_of lg m a) →
  (∀ b k k2 t2 pkts c', blks t !! b = Some k → at_tags t2 c' → blks t2 = <[b := k2]> (blks t) →
     blk_status k2 = 0 → lockList k2 = [] → blk_data k2 = blk_data k → line_addr k2 = a → tags_fit t2 b k2 →
     pends pkts (evicted k) → Q (Way b, pkts) c') →
  runs (fill_target P now pkt None true) c Q.
Proof using HP.
  intros Ha Habs Hok [Fa [Fl Fr] Fs Fm _ _ Fsrc] Hno HQ. pose proof (cp_tags _ _ HP) as HT.
  assert (Hga : getAddr pkt = Ok a) by (unfold getAddr; by rewrite Fa).
  assert (Hno' : (line_of lg a, _isSecure pkt) ∉ S (set_of lg m a)) by (by rewrite Fl, Fs).
  destruct (allocate_run T lg m HT now pkt a t S Habs Fa Fr Fm Hno') as (b & _ & _ & _ & Hvic & _ & Hb & _).
  unfold fill_target. step_lift; [exact Hga|]. apply runs_bind, runs_get. pose proof Ha as [Ht _]. rewrite Ht.
  destruct (extract_run T lg m HT t a (la_geometry _ _ _ _ _ Habs)) as [Etag Eset]; [lia|].
  step_lift; [exact Etag|]. step_lift; [exact Eset|]. step_check; [destruct src; [apply Fsrc|by rewrite Fsrc]|].
  step_check; [destruct src; [by rewrite (proj1 (proj2 Fsrc))|by rewrite Fsrc, orb_true_r]|].
  apply runs_bind. eapply runs_allocateBlock; [exact Ha|exact Habs|exact Hok|exact Hvic|by eexists|].
  intros k k' pkts c1 Hbk Ha1 Habs1 Hvic1 Hdata Hp. set (t1 := put_block t b k') in *.
  destruct (allocate_run T lg m HT now pkt a t1 S Habs1 Fa Fr Fm Hno')
    as (b1 & k2 & t2 & t3 & Hvic2 & Hw & Hb1 & _ & Hins & Hblks & [I1 I2 I3 I4 I5 I6 I7] & Hon & Habs3).
  assert (b1 = b) as -> by congruence. pose proof (put_at t b k' ltac:(by eexists)) as Hk'.
  pose proof (block_at t1 b k' Hk') as Hk'2. rewrite Hk'2 in *.
  assert (Hb2 : blks t2 !! b = Some k2).
  { rewrite Hblks. apply list_lookup_insert_eq. by eapply lookup_lt_Some. }
  apply runs_bind, runs_bind. unfold on_tags at 1. apply runs_zoom. rewrite (proj1 Ha1). eexists _, _. split; [exact Hins|].
  apply runs_ret. assert (Ha2 : at_tags t2 (c1.{tags := t2})) by (split; [done|apply Ha1]).
  apply runs_bind. eapply runs_get_blk; [exact Ha2|exact Hb2|].
  step_check; [unfold isValid, has_bit; by rewrite I1|]. apply runs_ret.
  eapply (HQ b k k2 t2); [exact Hbk|exact Ha2| |done|done|congruence| | |exact Hp].
  - rewrite Hblks. apply list_insert_insert_eq.
  - transitivity (line_of lg a); [|done]. rewrite (line_parts T lg m HT). unfold line_addr. rewrite I2, I3.
    destruct (block_place t1 S b k' Habs1 Hk') as (_ & -> & _).
    apply (elem_of_ways T lg m HT) in Hw; [|apply (set_range T lg m HT)]. by rewrite Hw.
  - rewrite Fs in Hon. by eapply inserted_fits.
Qed.

Lemma line_bounds : 2 ≤ lg ∧ lg < 31 ∧ 0 < 2 ^ lg < 2 ^ 31.
Proof using HP.
  pose proof (sizes T lg m (cp_tags _ _ HP)). pose proof (pk_max _ _ _ (cp_tags _ _ HP)).
  destruct (pk_min _ _ _ (cp_tags _ _ HP)). assert (2 ^ lg < 2 ^ 31) by nia.
  assert (lg < 31) by (apply (Z.pow_lt_mono_r_iff 2); lia). lia.
Qed.

Lemma block_mask a : 0 ≤ a < 2 ^ 64 → Z.land a (u64_not (to_uint 32 (gp_blkSize P - 1))) = line_of lg a.
Proof using HP.
  intros Ha. pose proof line_bounds. rewrite (cp_line _ _ HP), to_uint_small by lia.
  rewrite land_not_low by (unfold is_u64; lia). unfold line_of. pose proof (Z.div_mod a (2 ^ lg)). lia.
Qed.

Lemma offset_mask a : 0 ≤ a < 2 ^ 64 → Z.land a (to_uint 32 (gp_blkSize P - 1)) = a - line_of lg a.
Proof using HP.
  intros Ha. pose proof line_bounds. rewrite (cp_line _ _ HP), to_uint_small by lia.
  replace (2 ^ lg - 1) with (Z.ones lg) by (rewrite Z.ones_equiv; lia). rewrite Z.land_ones by lia.
  unfold line_of. pose proof (Z.div_mod a (2 ^ lg)). lia.
Qed.

Lemma fresh_made a k2 data when_ready :
  blk_status k2 = 0 → lockList k2 = [] → line_addr k2 = a →
  fresh a data ((set_bits BlkWritable (set_bits (Z.lor BlkValid BlkReadable) k2)).{blk_data := data}.{whenReady := when_ready}).
Proof.
  intros Hs Hl Ha. split; try done; unfold isValid, isWritable, isReadable, isDirty, blk_isSecure, has_bit, has_bits, set_bits;
    cbn; by rewrite Hs.
Qed.

(** the data of the response is copied into the block *)
Lemma runs_copy_line t b k2 k3 a pkt src c :
  at_tags (put_block t b k3) c → is_Some (blks t !! b) → fills a pkt src → zlength (blk_data k2) = 2 ^ lg →
  blk_data k3 = blk_data k2 →
  runs (if isRead (pkt_cmd pkt) then
          check (hasData (pkt_cmd pkt)) ;;
          n ← lift (getSize pkt); check (bool_decide (n = gp_blkSize P)) ;;
          k ← get_blk (Way b); data ← lift (src ← getPtr pkt; memcpy (blk_data k) 0 src 0 (gp_blkSize P));
          on_ref (Way b) (λ k, k.{blk_data := data})
        else mret tt) c
    (λ _ c', at_tags (put_block t b (k3.{blk_data := default (blk_data k2) src})) c').
Proof using HP.
  intros Ha Hb [_ _ _ _ _ _ Fsrc] Hl Hd. destruct src as [data|].
  - destruct Fsrc as (_ & -> & -> & Hsz & Hbytes & Hdata). step_check; [done|].
    step_lift; [unfold getSize; by rewrite Hsz|]. step_check; [by rewrite (cp_line _ _ HP), bool_decide_eq_true|].
    apply runs_bind. eapply runs_get_blk; [exact Ha|by apply put_at|]. step_lift.
    + unfold getPtr. rewrite Hbytes. cbn [of_option mbind res_bind]. rewrite (cp_line _ _ HP), Hd, <-Hl, (memcpy_whole (blk_data k2) data 0); [|done|by rewrite Hl, Hdata].
      change (drop (Z.to_nat 0) data) with data. rewrite take_ge by (unfold zlength in *; lia). done.
    + eapply runs_on_put; [exact Ha|done|]. by intros c' Hc'.
  - rewrite Fsrc. apply runs_ret. change (default (blk_data k2) None) with (blk_data k2). replace (k3.{blk_data := blk_data k2}) with k3 by (rewrite <-Hd; by destruct k3). done.
Qed.

Lemma runs_handleFill t S a pkt src c Q :
  at_tags t c → abs t S → blocks_ok t → fills a pkt src → (a, false) ∉ S (set_of lg m a) →
  (∀ b k kf tf pkts c', blks t !! b = Some k → at_tags tf c' → blks tf = <[b := kf]> (blks t) → (∃ S', abs tf S') →
     fresh a (default (blk_data k) src) kf → pends pkts (evicted k) → Q (Way b, pkts) c') →
  runs (handleFill P now pkt None true) c Q.
Proof using HP.
  intros Ha Habs Hok Hfill Hno HQ. pose proof Hfill as [Fa [Fl Fr] Fs Fm Fsh Ff Fsrc].
  assert (Hga : getAddr pkt = Ok a) by (unfold getAddr; by rewrite Fa).
  unfold handleFill. step_check; [destruct src; [by rewrite (proj1 Fsrc)|by rewrite Fsrc]|].
  step_lift; [exact Hga|]. step_lift; [by eapply secure_run|].
  step_lift; [unfold getBlockAddr; rewrite Hga; cbn; by rewrite (block_mask a Fr)|].
  step_check; [by rewrite Fl; apply bool_decide_eq_true|]. apply runs_bind, runs_get.
  step_lift; [apply no_match, Ha|]. step_check; [done|].
  apply runs_bind. eapply runs_fill_target; [done..|].
  intros b k k2 t2 pkts c1 Hb Ha1 Hblks Hst Hlk Hdata Hline Hfit Hp. cbn beta iota. rewrite Fs.
  assert (Hb2 : blks t2 !! b = Some k2) by (rewrite Hblks; apply list_lookup_insert_eq; by eapply lookup_lt_Some).
  apply runs_bind, runs_ret. apply runs_bind. eapply runs_on_ref; [exact Ha1|exact Hb2|]. intros c2 Ha2.
  rewrite Fsh, Ff. apply runs_bind. exists tt, c2. split; [by destruct (bool_decide _)|]. cbn [negb].
  apply runs_bind, runs_bind. eapply runs_on_put; [exact Ha2|by eexists|]. intros c3 Ha3. apply runs_ret.
  set (k3 := set_bits BlkWritable (set_bits (Z.lor BlkValid BlkReadable) k2)) in *.
  apply runs_bind. eapply runs_mono; [apply (runs_copy_line t2 b k2 k3 a pkt src); [done|by eexists|done| |done]|].
  { rewrite Hdata. by destruct (Hok b k Hb). }
  intros [] c4 Ha4. apply runs_bind, runs_zoom, clock_edge_runs. intros e ck.
  apply runs_bind. eapply runs_on_put; [split; [apply Ha4|apply Ha4]|by eexists|]. intros c5 Ha5. apply runs_ret.
  pose proof (fresh_made a k2 (default (blk_data k2) src)
    (u64 (e + fillLatency P * gp_clockPeriod P + payloadDelay pkt)) Hst Hlk Hline) as Hfresh.
  eapply HQ; [exact Hb|exact Ha5| | |rewrite <-Hdata; exact Hfresh|exact Hp].
  - unfold put_block. cbn. rewrite Hblks. apply list_insert_insert_eq.
  - apply Hfit; try done; apply Hfresh.
Qed.

(** ** Serving a request *)

(** the requests of a processor that a cache serves without reservations *)
Definition served : list Command := [ReadReq; SoftPFReq; WriteReq; WriteLineReq; SwapReq].

(** the bytes of a line, which starts at [l] *)
Lemma bytes_line bm l a n : (λ i, bm_byte bm (l + i)) <$> seqZ (a - l) n = bytes_at bm a n.
Proof.
  unfold bytes_at. apply list_eq. intros i. rewrite !list_lookup_fmap. destruct (decide (Z.of_nat i < n)).
  - rewrite (proj2 (lookup_seqZ _ _ _ (a - l + Z.of_nat i))), (proj2 (lookup_seqZ _ _ _ (a + Z.of_nat i))) by lia.
    cbn. do 2 f_equal. lia.
  - by rewrite !lookup_ge_None_2 by (rewrite length_seqZ; lia).
Qed.

Lemma op_cases op :
  (∃ a n lock, op = OpRead a n lock) ∨ (∃ a data g cond, op = OpWrite a data g cond) ∨
  (∃ a data expected, op = OpSwap a data expected).
Proof. destruct op; [left|right; left|right; right]; by repeat eexists. Qed.

(** a packet that asks for [op] on the bytes [data] at [a], all in the line of [k] *)
Record asks (k : CacheBlk) (pkt : Packet) (op : mem_op) (a : Z) (data : list Z) : Prop := {
  as_cmd : pkt_cmd pkt ∈ served;
  as_addr : pkt_addr pkt = Some a;
  as_bytes : pkt_bytes pkt = Some data;
  as_size : pkt_size pkt = Some (zlength data);
  as_op : op_fits pkt a data op;
  as_range : 0 ≤ a < 2 ^ 64;
  as_line : line_of lg a = line_addr k;
  as_inside : 0 < zlength data ∧ a - line_of lg a + zlength data ≤ 2 ^ lg;
  as_whole : pkt_cmd pkt = WriteLineReq → zlength data = 2 ^ lg;
  as_swap : pkt_cmd pkt = SwapReq → zlength data ≤ 8;
}.

Section serving.
Context (k : CacheBlk) (pkt : Packet) (op : mem_op) (a : Z) (data : list Z) (Hask : asks k pkt op a data).
Context (bm : byte_mem).
Notation off := (a - line_addr k).

Lemma ask_range : 0 ≤ off ∧ off + zlength data ≤ 2 ^ lg ∧ 0 < zlength data ∧ off < 2 ^ lg.
Proof using HP Hask.
  pose proof Hask as [_ _ _ _ _ Hr Hl Hi _ _]. rewrite <-Hl. unfold line_of in *. pose proof line_bounds.
  pose proof (Z.div_mod a (2 ^ lg)). pose proof (Z.mod_pos_bound a (2 ^ lg)). lia.
Qed.

Lemma ask_offset : getOffset (gp_blkSize P) pkt = Ok off.
Proof using HP Hask.
  pose proof Hask as [_ Ha _ _ _ Hr Hl _ _ _]. unfold getOffset, getAddr. rewrite Ha. cbn [of_option mbind res_bind].
  by rewrite (offset_mask a Hr), Hl.
Qed.

Lemma ask_read :
  represents (blk_data k) (2 ^ lg) (λ i, bm_byte bm (line_addr k + i)) →
  setData false (blk_data k) off pkt = Ok (pkt.{pkt_bytes := Some (bytes_at bm a (zlength data))}).
Proof using HP Hask.
  intros Hr. pose proof ask_range. pose proof Hask as [_ _ Hb Hs _ _ _ _ _ _]. unfold setData, getPtr, getSize.
  rewrite Hb, Hs. cbn [of_option mbind res_bind].
  rewrite (read_bytes data (blk_data k) _ _ off (zlength data) Hr) by lia. by rewrite bytes_line.
Qed.

(** the bytes of the packet, written over the line *)
Lemma ask_write f :
  represents (blk_data k) (2 ^ lg) f →
  (∀ i, 0 ≤ i < 2 ^ lg → off ≤ i < off + zlength data ∨ f i = bm_byte bm (line_addr k + i)) →
  ∃ d, memcpy (blk_data k) off data 0 (zlength data) = Ok d ∧
    represents d (2 ^ lg) (λ i, put_bytes a data (bm_byte bm) (line_addr k + i)).
Proof using HP Hask.
  intros Hr Hf. pose proof ask_range.
  destruct (write_bytes data (blk_data k) _ f off (zlength data) Hr) as (d & Hd & Hrep); [done|lia..|].
  exists d. split; [done|]. eapply represents_ext; [exact Hrep|]. intros i Hi. cbn. unfold put_bytes.
  destruct (decide (off ≤ i < off + zlength data)).
  - rewrite decide_True by lia. f_equal. lia.
  - rewrite decide_False by lia. destruct (Hf i Hi); [done|done].
Qed.

Lemma memcpy_prefix dest doff src rest :
  0 ≤ doff → doff + zlength src ≤ zlength dest →
  memcpy dest doff (src ++ rest) 0 (zlength src) = memcpy dest doff src 0 (zlength src).
Proof.
  intros H1 H2. pose proof (zlength_nonneg src). rewrite !memcpy_run by (unfold zlength in *; rewrite ?length_app; lia).
  do 3 f_equal. change (drop (Z.to_nat 0) (src ++ rest)) with (src ++ rest). change (drop (Z.to_nat 0) src) with src.
  unfold zlength. rewrite Nat2Z.id, take_app_length. by rewrite take_ge.
Qed.

Lemma ask_condition expected bytes :
  op = OpSwap a data expected → represents (blk_data k) (2 ^ lg) (λ i, bm_byte bm (line_addr k + i)) →
  condition_holds (blk_data k) off (pkt.{pkt_bytes := bytes}) =
    Ok (match expected with Some e => bool_decide (bytes_at bm a (zlength data) = e) | None => true end).
Proof using HP Hask.
  intros Hop Hr. pose proof ask_range. pose proof Hask as [_ _ _ Hs Hfit _ _ _ _ _]. rewrite Hop in Hfit.
  destruct Hfit as (_ & _ & _ & _ & He). unfold condition_holds.
  assert (Hsame : ∀ n e, zlength data = n → same_bytes (blk_data k) off n e = Ok (bool_decide (bytes_at bm a n = e))).
  { intros n e Hn. unfold same_bytes. rewrite (read_bytes _ (blk_data k) _ _ off n Hr); [|..|lia].
    - cbn [mbind res_bind]. by rewrite bytes_line.
    - unfold zlength. rewrite length_replicate. lia.
    - lia. }
  destruct expected as [e|]; cbn; [|by rewrite He].
  destruct He as (-> & x & Hx & Hcase). unfold getSize, getExtraData. cbn. rewrite Hs, Hx. cbn.
  destruct Hcase as [[Hn ->]|[Hn ->]]; rewrite Hn.
  - by rewrite decide_True, Hsame by done.
  - by rewrite decide_False, decide_True, Hsame by done.
Qed.

(** the block after a request: it is dirty when the request has changed the memory *)
Record served_block (k' : CacheBlk) : Prop := {
  sv_data : represents (blk_data k') (2 ^ lg) (λ i, bm_byte (spec_op op bm).2 (line_addr k + i));
  sv_outside x : line_of lg x ≠ line_addr k → bm_byte (spec_op op bm).2 x = bm_byte bm x;
  sv_dirty : k' = k ∧ (∀ x, bm_byte (spec_op op bm).2 x = bm_byte bm x) ∨
             ∃ d, k' = set_bits BlkDirty (k.{blk_data := d});
}.

Lemma put_outside x : line_of lg x ≠ line_addr k → put_bytes a data (bm_byte bm) x = bm_byte bm x.
Proof using HP Hask.
  intros Hx. pose proof ask_range. pose proof line_bounds. unfold put_bytes. rewrite decide_False; [done|].
  intros Hin. apply Hx. pose proof Hask as [_ _ _ _ _ _ Hl _ _ _]. rewrite <-Hl. unfold line_of in *.
  pose proof (Z.div_mod a (2 ^ lg)). pose proof (Z.mod_pos_bound a (2 ^ lg)). f_equal.
  symmetry. apply (Z.div_unique _ _ _ (x - line_addr k)); nia.
Qed.

Lemma checkWrite_run : isWrite (pkt_cmd pkt) = true → isLLSC (pkt_cmd pkt) = false → lockList k = [] → checkWrite pkt k = Ok (true, pkt, k).
Proof. intros Hw Hl Hk. unfold checkWrite. by rewrite Hw, Hl, Hk. Qed.

Lemma runs_cmpAndSwap t b c Q expected :
  op = OpSwap a data expected → at_tags t c → blkMask t = 2 ^ lg - 1 → blks t !! b = Some k →
  pkt_cmd pkt = SwapReq → represents (blk_data k) (2 ^ lg) (λ i, bm_byte bm (line_addr k + i)) →
  (∀ k' c', at_tags (put_block t b k') c' → served_block k' →
     Q (pkt.{pkt_bytes := Some (default data (spec_op op bm).1.1)}) c') →
  runs (cmpAndSwap (Way b) pkt) c Q.
Proof using HP Hask.
  intros Hop Ha Hmask Hb Hcmd Hr HQ. pose proof ask_range as (Hoff & Hend & Hn & Hlt). pose proof line_bounds.
  pose proof Hask as [_ Haddr Hbytes Hsize _ Hrange Hline _ _ Hsw]. specialize (Hsw Hcmd).
  unfold cmpAndSwap. step_check; [by rewrite Hcmd|]. apply runs_bind, runs_get. apply runs_bind. eapply runs_get_blk; [done..|].
  step_lift; [unfold getAddr; by rewrite Haddr|]. step_lift; [unfold getSize; by rewrite Hsize|]. cbv zeta.
  assert (Hx : extractBlkOffset a (tags c) = a - line_addr k).
  { rewrite (proj1 Ha). unfold extractBlkOffset. rewrite Hmask. pose proof (offset_mask a Hrange) as Ho.
    rewrite (cp_line _ _ HP), to_uint_small, Hline in Ho by lia. rewrite Ho. apply to_int_small. lia. }
  rewrite Hx. step_check; [apply bool_decide_eq_true; lia|].
  assert (Hval : memcpy (replicate 8 0) 0 data 0 (zlength data) = Ok (data ++ replicate (Z.to_nat (8 - zlength data)) 0)).
  { rewrite memcpy_run; [|lia|lia|change (zlength (replicate 8 0)) with 8; lia|lia|lia]. f_equal. unfold zlength in *.
    replace (Z.to_nat (0 + Z.of_nat (length data))) with (length data) by lia. rewrite Nat2Z.id.
    change (take (Z.to_nat 0) (replicate 8 0)) with (@nil Z). change (drop (Z.to_nat 0) data) with data.
    rewrite take_ge by done. rewrite drop_replicate. cbn [app]. do 2 f_equal. lia. }
  step_lift; [unfold writeData, getPtr, getSize; rewrite Hbytes, Hsize; exact Hval|].
  step_lift; [by apply ask_read|]. step_lift; [by apply ask_condition|].
  assert (Hread : (spec_op op bm).1.1 = Some (bytes_at bm a (zlength data))) by (by rewrite Hop). rewrite Hread in HQ.
  change (default data (Some (bytes_at bm a (zlength data)))) with (bytes_at bm a (zlength data)) in HQ.
  set (ok := match expected with Some e => bool_decide (bytes_at bm a (zlength data) = e) | None => true end).
  assert (Hm' : bm_byte (spec_op op bm).2 = if ok then put_bytes a data (bm_byte bm) else bm_byte bm).
  { rewrite Hop. cbn [spec_op snd]. fold ok. by destruct ok. }
  destruct ok.
  - destruct (ask_write _ Hr) as (d & Hd & Hrep); [by right|].
    step_lift; [rewrite memcpy_prefix; [exact Hd|lia|destruct Hr as [-> _]; lia]|].
    apply runs_bind. eapply runs_on_ref; [exact Ha|exact Hb|]. intros c1 Ha1. apply runs_ret. eapply HQ; [exact Ha1|].
    split; [by rewrite Hm'|rewrite Hm'; apply put_outside|right; by exists d].
  - apply runs_ret. eapply (HQ k); [by rewrite put_id|]. split; rewrite Hm'; [exact Hr|done|by left].
Qed.

Lemma runs_served_write t b c f Q g :
  op = OpWrite a data g None → at_tags t c → blks t !! b = Some k → isWrite (pkt_cmd pkt) = true → isLLSC (pkt_cmd pkt) = false →
  isWritable k = true → lockList k = [] → represents (blk_data k) (2 ^ lg) f →
  (∀ i, 0 ≤ i < 2 ^ lg → pkt_cmd pkt = WriteLineReq ∨ f i = bm_byte bm (line_addr k + i)) →
  (∀ k' c', at_tags (put_block t b k') c' → served_block k' →
     Q (pkt.{pkt_bytes := Some (default data (spec_op op bm).1.1)}) c') →
  runs (check (isWritable k) ;;
        '(go, pkt, k) ← lift (checkWrite pkt k);
        data ← lift (if (go : bool) then writeDataToBlock pkt (blk_data k) (gp_blkSize P) else Ok (blk_data k));
        put_blk (Way b) (set_bits BlkDirty (k.{blk_data := data})) ;; mret pkt) c Q.
Proof using HP Hask.
  intros Hop Ha Hb Hwr Hll Hw Hlk Hr Hf HQ. pose proof ask_range as (Hoff & Hend & Hn & Hlt).
  pose proof Hask as [_ _ Hbytes Hsize _ _ _ _ Hwhole _].
  step_check; [done|]. step_lift; [by apply checkWrite_run|]. cbn beta iota.
  destruct (ask_write _ Hr) as (d & Hd & Hd').
  { intros i Hi. destruct (Hf i Hi) as [Hl|Hl]; [left|by right]. specialize (Hwhole Hl). lia. }
  step_lift.
  { unfold writeDataToBlock. rewrite ask_offset. cbn [mbind res_bind]. unfold writeData, getPtr, getSize.
    rewrite Hbytes, Hsize. exact Hd. }
  apply runs_bind. eapply runs_on_ref; [exact Ha|exact Hb|]. intros c1 Ha1. apply runs_ret.
  assert (Hpkt : pkt.{pkt_bytes := Some (default data (spec_op op bm).1.1)} = pkt).
  { rewrite Hop. cbn. rewrite <-Hbytes. by destruct pkt. }
  rewrite Hpkt in HQ. eapply HQ; [exact Ha1|]. split; rewrite ?Hop; [exact Hd'|apply put_outside|right; by exists d].
Qed.

(** a request to a valid block is served as the specification says.  The block need not hold what it should where the
    request overwrites it *)
Lemma runs_satisfyRequest t b c f Q :
  at_tags t c → blkMask t = 2 ^ lg - 1 → blks t !! b = Some k →
  isValid k = true → isWritable k = true → lockList k = [] → represents (blk_data k) (2 ^ lg) f →
  (∀ i, 0 ≤ i < 2 ^ lg → pkt_cmd pkt = WriteLineReq ∨ f i = bm_byte bm (line_addr k + i)) →
  (∀ k' c', at_tags (put_block t b k') c' → served_block k' →
     Q (pkt.{pkt_bytes := Some (default data (spec_op op bm).1.1)}) c') →
  runs (satisfyRequest P now pkt (Way b) false false) c Q.
Proof using HP Hask.
  intros Ha Hmask Hb Hv Hw Hlk Hr Hf HQ. pose proof ask_range as (Hoff & Hend & Hn & Hlt). pose proof line_bounds.
  pose proof Hask as [Hcmd Haddr Hbytes Hsize Hfit _ _ _ Hwhole _].
  assert (Hreq : isRequest (pkt_cmd pkt) = true ∧ isLLSC (pkt_cmd pkt) = false ∧ fromCache (pkt_cmd pkt) = false).
  { unfold served in Hcmd. rewrite !elem_of_cons, elem_of_nil in Hcmd. by destruct Hcmd as [->|[->|[->|[->|[->|[]]]]]]. }
  destruct Hreq as (Hreq & Hll & Hfc).
  unfold satisfyRequest. step_check; [done|]. apply runs_bind. eapply runs_get_blk; [done..|]. step_check; [done|].
  step_lift; [exact ask_offset|]. step_lift; [unfold getSize; by rewrite Hsize|].
  step_check; [apply bool_decide_eq_true; rewrite (cp_line _ _ HP), u64_small by (unfold is_u64; lia); lia|].
  assert (Hrep : pkt_cmd pkt ≠ WriteLineReq → represents (blk_data k) (2 ^ lg) (λ i, bm_byte bm (line_addr k + i))).
  { intros Hne. eapply represents_ext; [exact Hr|]. intros i Hi. by destruct (Hf i Hi). }
  destruct (decide (pkt_cmd pkt = SwapReq)) as [Hs|Hs].
  { destruct (op_cases op) as [(a' & n & lock & Hop)|[(a' & data' & g & cond & Hop)|(a' & data' & expected & Hop)]];
      rewrite Hop in Hfit; [by destruct Hfit as (_ & _ & Hs' & _)..|].
    pose proof Hfit as (-> & -> & _). eapply runs_cmpAndSwap; [exact Hop|exact Ha|done..| |exact HQ].
    apply Hrep. by rewrite Hs. }
  destruct (op_cases op) as [(a' & n & lock & Hop)|[(a' & data' & g & cond & Hop)|(a' & data' & expected & Hop)]];
    rewrite Hop in Hfit; [| |by destruct Hfit as (_ & _ & Hs' & _)].
  - pose proof Hfit as (-> & -> & _ & Hrd & Hlock). rewrite Hll in Hlock. destruct lock as [[]|]; [by destruct Hlock|].
    assert (Hnw : isWrite (pkt_cmd pkt) = false ∧ hasRespData pkt = true ∧ pkt_cmd pkt ≠ WriteLineReq).
    { unfold hasRespData. unfold served in Hcmd. rewrite !elem_of_cons, elem_of_nil in Hcmd.
      destruct Hcmd as [E|[E|[E|[E|[E|[]]]]]]; rewrite E in *; done. }
    destruct Hnw as (-> & Hresp & Hne). rewrite Hrd.
    assert (Hread : default data (spec_op op bm).1.1 = bytes_at bm a (zlength data)) by (by rewrite Hop).
    rewrite Hread in HQ. apply runs_bind, runs_when; [by rewrite Hll|intros _].
    step_check; [exact Hresp|].
    step_lift; [unfold setDataFromBlock; rewrite ask_offset; by apply ask_read, Hrep|].
    cbn [pkt_cmd set]. change (fromCache (pkt_cmd (pkt.{pkt_bytes := Some (bytes_at bm a (zlength data))})))
      with (fromCache (pkt_cmd pkt)). rewrite Hfc. apply runs_ret. eapply (HQ k); [by rewrite put_id|].
    split; rewrite ?Hop; [by apply Hrep|done|by left].
  - pose proof Hfit as (-> & -> & _ & Hrd & Hwr & _ & Hlock). rewrite Hll in Hlock. destruct cond; [by destruct Hlock|].
    rewrite Hwr. by eapply runs_served_write.
Qed.
End serving.
End cache.
