(* ===== verification/CacheTransparent.v ===== *)
(** * The classic cache is transparent

    A cache with LRU tags in atomic mode, in front of anything that answers like an
    array of bytes: what is above the cache cannot tell that it is there. *)

From S2P Require Import Prelude IntMath Clock AddrRange MemPacket AbstractMem MemSpec CacheBlk CacheTags CacheQueue MSHR LruSpec ClassicCache CacheRun.

(** ** What is below

    The peer of the memory-side port answers accesses between [start] and [last] as an array
    of bytes does, whatever the cache looks like, and does not call it back; it drops clean evictions. *)

Class MemoryBelow (W : Type) `{!CachePeers W} (start last : Z) := {
  holds_bytes : W → byte_mem → Prop;
  below_serves c w bm pkt op :
    holds_bytes w bm → access_ok start last pkt op →
    ∃ lat pkt' w', mem_sendAtomic pkt (c, w) = Ok ((lat, pkt'), (c, w')) ∧ reply_to pkt pkt' ∧
      answers pkt (spec_op op bm).1.1 (spec_op op bm).1.2 pkt' ∧ holds_bytes w' (spec_op op bm).2;
  below_drops c w bm pkt :
    holds_bytes w bm → quiet pkt →
    ∃ lat pkt' w', mem_sendAtomic pkt (c, w) = Ok ((lat, pkt'), (c, w')) ∧ holds_bytes w' bm;
  below_invalidates c w bm pkt a n :
    holds_bytes w bm → pkt_cmd pkt = InvalidateReq → pkt_addr pkt = Some a → pkt_size pkt = Some n →
    0 < n < 2 ^ 32 → start ≤ a → a + n - 1 ≤ last → cacheResponding pkt = false →
    ∃ lat pkt' w', mem_sendAtomic pkt (c, w) = Ok ((lat, pkt'), (c, w')) ∧ reply_to pkt pkt' ∧
      pkt_cmd pkt' = InvalidateResp ∧ holds_bytes w' bm;
  below_writes c w bm pkt a data :
    holds_bytes w bm → pkt_cmd pkt = WriteReq → pkt_addr pkt = Some a → pkt_size pkt = Some (zlength data) →
    pkt_bytes pkt = Some data → 0 < zlength data → start ≤ a → a + zlength data - 1 ≤ last →
    ∃ pkt' w', mem_sendFunctional pkt (c, w) = Ok (pkt', (c, w')) ∧
      holds_bytes w' (mkByteMem (put_bytes a data (bm_byte bm)) (bm_resv bm));
}.

(** ** Coherence of the blocks, a pending packet and the memory *)

Section coherence.
Context (P : CacheParams) (lg m : Z) (HP : cache_params_ok P lg m) (start last : Z).
Notation T := (gp_tags P).
Notation abs := (lru_abs T lg m).
Notation addr := (line_addr lg m).

(** the memory is made of whole lines *)
Record lines_ok : Prop := {
  ln_start : start `mod` 2 ^ lg = 0;
  ln_last : (last + 1) `mod` 2 ^ lg = 0;
  ln_range : 0 ≤ start ∧ last < 2 ^ 64;
}.

(** a valid block *)
Record block_good (k : CacheBlk) : Prop := {
  bg_writable : isWritable k = true;
  bg_readable : isReadable k = true;
  bg_secure : blk_isSecure k = false;
  bg_locks : lockList k = [];
  bg_inside : start ≤ addr k ∧ addr k + 2 ^ lg - 1 ≤ last;
}.

(** the blocks, the memory [mb] and the line that is on its way to the memory together hold the bytes [f].
    Block [ex] need not hold its line: it is about to be overwritten *)
Record coherent (t : Tags) (mb f : Z → Z) (p : option (Z * list Z)) (ex : option nat) : Prop := {
  co_blocks b k : blks t !! b = Some k → zlength (blk_data k) = 2 ^ lg ∧
    (isValid k = true → block_good k ∧ (ex = Some b ∨ represents (blk_data k) (2 ^ lg) (λ i, f (addr k + i))));
  co_memory x : start ≤ x ≤ last →
    (∀ b k, blks t !! b = Some k → isValid k = true → isDirty k = true → line_of lg x ≠ addr k) →
    (∀ a d, p = Some (a, d) → line_of lg x ≠ a) → mb x = f x;
  co_pending a d : p = Some (a, d) →
    start ≤ a ∧ a + 2 ^ lg - 1 ≤ last ∧ line_of lg a = a ∧ represents d (2 ^ lg) (λ i, f (a + i)) ∧
    ∀ b k, blks t !! b = Some k → isValid k = true → addr k ≠ a;
}.

Lemma line_in a x : line_of lg a = a → a ≤ x < a + 2 ^ lg → line_of lg x = a.
Proof using HP.
  unfold line_of. intros Ha Hx. pose proof (line_bounds P lg m HP). rewrite <-Ha. f_equal.
  symmetry. apply (Z.div_unique _ _ _ (x - a)); lia.
Qed.

Lemma line_le x : line_of lg x ≤ x < line_of lg x + 2 ^ lg.
Proof using HP.
  unfold line_of. pose proof (line_bounds P lg m HP). pose proof (Z.div_mod x (2 ^ lg)).
  pose proof (Z.mod_pos_bound x (2 ^ lg)). lia.
Qed.

Lemma line_range a : 0 ≤ a < 2 ^ 64 → 0 ≤ line_of lg a < 2 ^ 64.
Proof using HP.
  intros Ha. pose proof (line_le a). pose proof (line_bounds P lg m HP). split; [|lia].
  unfold line_of. pose proof (Z.div_pos a (2 ^ lg)). nia.
Qed.

Lemma line_idem x : line_of lg (line_of lg x) = line_of lg x.
Proof using HP. unfold line_of. pose proof (line_bounds P lg m HP). by rewrite Z.div_mul by lia. Qed.

Lemma line_addr_line k : line_of lg (addr k) = addr k.
Proof using HP.
  pose proof (line_bounds P lg m HP). pose proof (sizes T lg m (cp_tags _ _ _ HP)) as (_ & _ & _ & _ & _ & Hp & _).
  unfold line_of, line_addr. rewrite Hp.
  replace (blk_tag k * (2 ^ m * 2 ^ lg) + blk_set k * 2 ^ lg) with ((blk_tag k * 2 ^ m + blk_set k) * 2 ^ lg) by lia.
  by rewrite Z.div_mul by lia.
Qed.

Lemma line_inside x : lines_ok → start ≤ x ≤ last → start ≤ line_of lg x ∧ line_of lg x + 2 ^ lg - 1 ≤ last.
Proof using HP.
  intros [Hs Hl _] Hx. pose proof (line_bounds P lg m HP). pose proof (line_le x).
  pose proof (Z.div_mod start (2 ^ lg)). pose proof (Z.div_mod (last + 1) (2 ^ lg)). unfold line_of in *.
  set (q := x / 2 ^ lg) in *. set (s := start / 2 ^ lg) in *. set (l := (last + 1) / 2 ^ lg) in *.
  assert (s ≤ q) by nia. assert (q < l) by nia. nia.
Qed.

Lemma same_set t1 i1 t2 i2 :
  0 ≤ i1 < 2 ^ m → 0 ≤ i2 < 2 ^ m →
  t1 * 2 ^ (lg + m) + i1 * 2 ^ lg = t2 * 2 ^ (lg + m) + i2 * 2 ^ lg → i1 = i2.
Proof using HP.
  intros H1 H2 H. pose proof (sizes T lg m (cp_tags _ _ _ HP)) as (_ & Hm & Hl & _ & _ & Hp & _). rewrite Hp in H.
  apply (Z.div_mod_unique (2 ^ m) t1 t2 i1 i2); [by left|by left|]. nia.
Qed.

(** two valid blocks hold different lines *)
Lemma line_unique t S b1 b2 k1 k2 :
  abs t S → blks t !! b1 = Some k1 → blks t !! b2 = Some k2 → isValid k1 = true → isValid k2 = true →
  blk_isSecure k1 = blk_isSecure k2 → addr k1 = addr k2 → b1 = b2.
Proof using HP.
  intros Habs H1 H2 V1 V2 Hs Ha. pose proof (cp_tags _ _ _ HP) as HT.
  destruct (block_place P lg m HP t S b1 k1 Habs H1) as (I1 & S1 & W1 & E1).
  destruct (block_place P lg m HP t S b2 k2 Habs H2) as (I2 & S2 & W2 & E2).
  set (i1 := Z.of_nat b1 / tp_assoc T) in *. set (i2 := Z.of_nat b2 / tp_assoc T) in *.
  assert (i1 = i2) as Hi.
  { unfold line_addr in Ha. rewrite S1, S2 in Ha. by eapply same_set. }
  destruct (la_view _ _ _ _ _ Habs i1 I1) as (L & D & Hv & He & Hnd).
  assert (Hin : ∀ b k, blks t !! b = Some k → b ∈ ways T i1 → isValid k = true → b ∈ L).
  { intros b k Hb Hw Hval. rewrite <-(vw_ways _ _ _ _ _ Hv) in Hw. apply elem_of_app in Hw as [|Hd]; [done|].
    pose proof (proj1 (Forall_forall _ _) (vw_dead _ _ _ _ _ Hv) b Hd) as Hf. cbn in Hf.
    rewrite (block_at t b k Hb) in Hf. congruence. }
  pose proof (Hin b1 k1 H1 W1 V1) as L1. pose proof (Hin b2 k2 H2 ltac:(by rewrite Hi) V2) as L2.
  apply list_elem_of_lookup in L1 as [j1 L1]. apply list_elem_of_lookup in L2 as [j2 L2].
  rewrite <-He in Hnd. assert (j1 = j2) as ->; [|congruence].
  apply (NoDup_lookup _ _ _ (entry_of lg m i1 k1) Hnd); unfold entries; rewrite list_lookup_fmap.
  - rewrite L1. cbn. by rewrite (block_at t b1 k1 H1).
  - rewrite L2. cbn. rewrite (block_at t b2 k2 H2). rewrite Hi, E2, <-Hi, E1. by rewrite Ha, Hs.
Qed.

(** where the tags do not find a line, no block holds it *)
Lemma absent_line t S a b k :
  abs t S → (line_of lg a, false) ∉ S (set_of lg m a) → blks t !! b = Some k → isValid k = true →
  blk_isSecure k = false → addr k ≠ line_of lg a.
Proof using HP.
  intros Habs Hno Hb Hv Hs Ha. pose proof (cp_tags _ _ _ HP) as HT. apply Hno.
  destruct (block_place P lg m HP t S b k Habs Hb) as (I & Sk & W & E). set (i := Z.of_nat b / tp_assoc T) in *.
  pose proof (set_range T lg m HT a) as Hr. pose proof (line_parts T lg m HT a) as Hl.
  assert (i = set_of lg m a) as <-.
  { rewrite <-Ha in Hl. unfold line_addr in Hl. rewrite Sk in Hl. by eapply same_set. }
  destruct (la_view _ _ _ _ _ Habs i I) as (L & D & Hvw & He & _). rewrite <-He.
  unfold entries. apply list_elem_of_fmap. exists b. rewrite (block_at t b k Hb), E, Ha, Hs. split; [done|].
  rewrite <-(vw_ways _ _ _ _ _ Hvw) in W. apply elem_of_app in W as [|Hd]; [done|].
  pose proof (proj1 (Forall_forall _ _) (vw_dead _ _ _ _ _ Hvw) b Hd) as Hf. cbn in Hf.
  rewrite (block_at t b k Hb) in Hf. congruence.
Qed.

(** ** Steps that keep the coherence *)

Lemma coherent_blocks_ok t mb f p ex : coherent t mb f p ex → blocks_ok lg t.
Proof. intros Hc b k Hb. destruct (co_blocks _ _ _ _ _ Hc b k Hb) as [Hl Hv]. split; [done|]. intros Hval. by destruct (Hv Hval) as [[] _]. Qed.

(** nothing that matters is changed *)
Lemma coherent_same t t' mb f p ex b k k' :
  coherent t mb f p ex → blks t !! b = Some k → blks t' = <[b := k']> (blks t) →
  blk_data k' = blk_data k → blk_tag k' = blk_tag k → blk_set k' = blk_set k → blk_status k' = blk_status k →
  lockList k' = lockList k → coherent t' mb f p ex.
Proof.
  intros Hc Hb Ht H1 H2 H3 H4 H5.
  assert (Hof : ∀ d x, blks t' !! d = Some x → ∃ y, blks t !! d = Some y ∧ blk_data x = blk_data y ∧ addr x = addr y ∧
    isValid x = isValid y ∧ isDirty x = isDirty y ∧ (block_good y → block_good x)).
  { intros d x. rewrite Ht. intros [(<- & <- & _)|[_ Hx]]%list_lookup_insert_Some; [|by exists x]. exists k.
    unfold isValid, isDirty, has_bit, line_addr. rewrite H1, H2, H3, H4. do 5 (split; [done|]).
    intros []. split; unfold isWritable, isReadable, blk_isSecure, has_bits, has_bit, line_addr in *; by rewrite ?H2, ?H3, ?H4, ?H5. }
  split.
  - intros d x (y & Hy & E1 & E2 & E3 & E4 & E5)%Hof. destruct (co_blocks _ _ _ _ _ Hc d y Hy) as [Hl Hv].
    rewrite E1, E2, E3. split; [done|]. intros Hval. destruct (Hv Hval). auto.
  - intros x Hx Hd. apply (co_memory _ _ _ _ _ Hc x Hx). intros d y Hy Hv Hdy.
    destruct (decide (d = b)) as [->|Hne].
    + assert (y = k) as -> by congruence. replace (addr k) with (addr k') by (unfold line_addr; by rewrite H2, H3).
      apply (Hd b k'); [rewrite Ht; apply list_lookup_insert_eq; by eapply lookup_lt_Some|..];
        unfold isValid, isDirty, has_bit in *; by rewrite H4.
    + apply (Hd d y); [by rewrite Ht, list_lookup_insert_ne|done|done].
  - intros a d Hp. destruct (co_pending _ _ _ _ _ Hc a d Hp) as (Q1 & Q2 & Q3 & Q4 & Q5). do 4 (split; [done|]).
    intros e x (y & Hy & _ & -> & -> & _)%Hof. by eapply Q5.
Qed.

(** a block is evicted, and what becomes of it is another line or nothing *)
Lemma coherent_replace t S t' mb f b k k' ex :
  abs t S → coherent t mb f None None → blks t !! b = Some k → blks t' = <[b := k']> (blks t) →
  zlength (blk_data k') = 2 ^ lg →
  (isValid k' = true → block_good k' ∧ isDirty k' = false ∧ (ex = Some b ∨ represents (blk_data k') (2 ^ lg) (λ i, f (addr k' + i))) ∧
     ∀ b k, blks t !! b = Some k → isValid k = true → addr k' ≠ addr k) →
  coherent t' mb f (evicted lg m k) ex.
Proof using HP.
  intros Habs Hc Hb Ht Hl Hk'.
  assert (Hgood : ∀ d x, blks t !! d = Some x → isValid x = true → block_good x ∧ represents (blk_data x) (2 ^ lg) (λ i, f (addr x + i))).
  { intros d x Hx Hv. destruct (proj2 (co_blocks _ _ _ _ _ Hc d x Hx) Hv) as [? [|]]; done. }
  split.
  - intros d x. rewrite Ht. intros [(<- & <- & _)|[Hne Hx]]%list_lookup_insert_Some.
    + split; [done|]. intros Hv. destruct (Hk' Hv) as (? & _ & ? & _). done.
    + destruct (co_blocks _ _ _ _ _ Hc d x Hx) as [Hlx _]. split; [done|]. intros Hv. destruct (Hgood d x Hx Hv). auto.
  - intros x Hx Hd Hp. apply (co_memory _ _ _ _ _ Hc x Hx); [|done]. intros d y Hy Hv Hdy.
    destruct (decide (d = b)) as [->|Hne].
    + assert (y = k) as -> by congruence. apply (Hp (addr k) (blk_data k)). unfold evicted. by rewrite Hv, Hdy.
    + apply (Hd d y); [by rewrite Ht, list_lookup_insert_ne|done|done].
  - intros a d. unfold evicted. destruct (isValid k) eqn:Hv; [|done]. destruct (isDirty k); [|done]. intros [= <- <-].
    destruct (Hgood b k Hb Hv) as [[_ _ Hsec _ Hin] Hr]. do 2 (split; [apply Hin|]). split; [apply line_addr_line|].
    split; [done|]. intros e x. rewrite Ht. intros [(<- & <- & _)|[Hne Hx]]%list_lookup_insert_Some Hvx.
    + destruct (Hk' Hvx) as (_ & _ & _ & H). by apply (H b).
    + intros Ha. apply Hne. apply (line_unique t S b e k x); try done.
      destruct (Hgood e x Hx Hvx) as [[_ _ Hs _ _] _]. by rewrite Hs.
Qed.

(** the line that is on its way arrives *)
Lemma coherent_settle t mb f a d ex :
  coherent t mb f (Some (a, d)) ex → coherent t (put_bytes a d mb) f None ex.
Proof using HP.
  intros Hc. destruct (co_pending _ _ _ _ _ Hc a d eq_refl) as (H1 & H2 & H3 & [H4 H5] & H6). split; [apply Hc| |done].
  intros x Hx Hd _. unfold put_bytes. rewrite H4. case_decide as Hin.
  - destruct (vlookup_in_range d (x - a)) as [y Hy]; [lia|]. rewrite (H5 (x - a)) in Hy by lia.
    unfold vat. rewrite H5 by lia. cbn. f_equal. lia.
  - apply (co_memory _ _ _ _ _ Hc x Hx Hd). intros a' d' [= <- <-] Hl. apply Hin. pose proof (line_le x). lia.
Qed.

(** a request is served by a block *)
Lemma coherent_serve t S t' bm mb op p ex b k k' :
  abs t S → coherent t mb (bm_byte bm) p ex → (ex = None ∨ ex = Some b) → blks t !! b = Some k → isValid k = true →
  served_block lg m k op bm k' → blks t' = <[b := k']> (blks t) →
  coherent t' mb (bm_byte (spec_op op bm).2) p None.
Proof using HP.
  intros Habs Hc Hex Hb Hv [V1 V2 V3] Ht. set (f := bm_byte bm) in *. set (f' := bm_byte (spec_op op bm).2) in *.
  destruct (co_blocks _ _ _ _ _ Hc b k Hb) as [Hlen Hgk]. destruct (Hgk Hv) as [Hgood _].
  assert (Hk' : addr k' = addr k ∧ isValid k' = true ∧ block_good k' ∧ (isDirty k' = true ∨ k' = k ∧ ∀ x, f' x = f x)).
  { destruct V3 as [[-> ?]|[d ->]]; [do 3 (split; [done|]); by right|]. split; [done|]. split; [unfold isValid; rewrite has_bit_set; apply orb_true_iff; by right|].
    destruct Hgood as [G1 G2 G3 G4 G5]. split; [split; try done|].
    - apply has_bits_set. exact G1.
    - apply has_bits_set. exact G2.
    - unfold blk_isSecure. rewrite has_bit_set. exact G3.
    - left. unfold isDirty. by rewrite has_bit_set. }
  destruct Hk' as (Ha' & Hv' & Hg' & Hdirty).
  assert (Hother : ∀ d x, b ≠ d → blks t !! d = Some x → isValid x = true →
    block_good x ∧ represents (blk_data x) (2 ^ lg) (λ i, f' (addr x + i)) ∧ addr x ≠ addr k).
  { intros d x Hne Hx Hvx. destruct (proj2 (co_blocks _ _ _ _ _ Hc d x Hx) Hvx) as [Hgx [Hr|Hr]]; [destruct Hex; congruence|].
    assert (addr x ≠ addr k) as Hna.
    { intros He. apply Hne. apply (line_unique t S b d k x); try done. by rewrite (bg_secure _ Hgood), (bg_secure _ Hgx). }
    split; [done|]. split; [|done]. eapply represents_ext; [exact Hr|]. intros i Hi. cbn. unfold f'. symmetry. apply V2.
    rewrite (line_in (addr x)); [done|apply line_addr_line|lia]. }
  split.
  - intros d x. rewrite Ht. intros [(<- & <- & _)|[Hne Hx]]%list_lookup_insert_Some.
    + split; [destruct V1 as [Hl _]; exact Hl|]. intros _. rewrite Ha'. auto.
    + split; [by apply (co_blocks _ _ _ _ _ Hc d x Hx)|]. intros Hvx. destruct (Hother d x Hne Hx Hvx) as (? & ? & _). auto.
  - intros x Hx Hd Hp. assert (Hdb : isDirty k' = true → line_of lg x ≠ addr k).
    { intros Hdk. rewrite <-Ha'. apply (Hd b); [rewrite Ht; apply list_lookup_insert_eq; by eapply lookup_lt_Some|done|done]. }
    assert (Heq : f' x = f x).
    { destruct Hdirty as [Hdk|[_ Heq]]; [|apply Heq]. apply V2. by apply Hdb. }
    rewrite Heq. apply (co_memory _ _ _ _ _ Hc x Hx); [|done]. intros d y Hy Hvy Hdy. destruct (decide (b = d)) as [->|Hne].
    + assert (y = k) as -> by congruence. apply Hdb. by destruct Hdirty as [|[-> _]].
    + apply (Hd d y); [by rewrite Ht, list_lookup_insert_ne|done|done].
  - intros a d Hp. destruct (co_pending _ _ _ _ _ Hc a d Hp) as (Q1 & Q2 & Q3 & Q4 & Q5). do 3 (split; [done|]).
    pose proof (Q5 b k Hb Hv) as Hna. split.
    + eapply represents_ext; [exact Q4|]. intros i Hi. cbn. unfold f'. symmetry. apply V2.
      rewrite (line_in a); [congruence|done|lia].
    + intros e x. rewrite Ht. intros [(<- & <- & _)|[Hne Hx]]%list_lookup_insert_Some; [by rewrite Ha'|by eapply Q5].
Qed.

(** ** Requests *)

(** a request of a processor: a read, a write or a swap inside a line, of the memory space that is not secure *)
Record cpu_ok (pkt : Packet) (op : mem_op) : Prop := {
  cu_access : access_ok start last pkt op;
  cu_cmd : pkt_cmd pkt ∈ served;
  cu_line a n : pkt_addr pkt = Some a → pkt_size pkt = Some n → a - line_of lg a + n ≤ 2 ^ lg;
  cu_whole : pkt_cmd pkt = WriteLineReq → pkt_size pkt = Some (2 ^ lg);
  cu_swap n : pkt_cmd pkt = SwapReq → pkt_size pkt = Some n → n ≤ 8;
  cu_fill : allocOnFill P (pkt_cmd pkt) = true;
  cu_paddr : req_paddr (req pkt) = pkt_addr pkt;
  cu_secure : _isSecure pkt = false ∧ req_isSecure (req pkt) = false;
  cu_master : masterId (req pkt) < maxMasters T;
  cu_sharers : hasSharers pkt = false;
}.

Lemma served_cmd c :
  c ∈ served → isRequest c = true ∧ isLLSC c = false ∧ fromCache c = false ∧ isEviction c = false ∧ isWriteback c = false ∧
    c ≠ CleanEvict ∧ needsResponse c = true ∧ isUpgrade c = false ∧ c ≠ InvalidateReq ∧ c ≠ SCUpgradeFailReq ∧ c ≠ StoreCondFailReq.
Proof.
  unfold served. rewrite !elem_of_cons, elem_of_nil. intros [->|[->|[->|[->|[->|[]]]]]]; repeat split; done.
Qed.

(** the bytes that a request is about *)
Lemma cpu_asks pkt op :
  lines_ok → cpu_ok pkt op → ∃ a data,
    (∀ k, line_of lg a = addr k → asks lg m k pkt op a data) ∧
    (start ≤ a ∧ a + zlength data - 1 ≤ last) ∧ a - line_of lg a + zlength data ≤ 2 ^ lg ∧ 0 < zlength data ∧
    pkt_addr pkt = Some a ∧ pkt_bytes pkt = Some data ∧ op_fits pkt a data op.
Proof.
  intros [_ _ [Hlo Hhi]] [[Hop Hin _ _ _] Hcmd Hline Hwhole Hswap _ _ _ _ _].
  apply op_of_inv in Hop as (a & data & Ha & Hb & Hs & Hn & _ & Hfit).
  assert (Hr : start ≤ a ∧ a + zlength data - 1 ≤ last) by (destruct op; destruct Hfit as (-> & -> & _); exact Hin).
  pose proof (Hline a (zlength data) Ha Hs). exists a, data. split; [|split; [done|split; [done|split; [lia|done]]]].
  intros k Hk. split; try done; try lia.
  - intros H1. specialize (Hwhole H1). congruence.
  - intros H1. by apply (Hswap (zlength data)).
Qed.

(** ** A request that goes past the cache *)

Lemma spec_agree pkt a data op g h :
  op_fits pkt a data op → isLLSC (pkt_cmd pkt) = false → (∀ x, a ≤ x < a + zlength data → bm_byte g x = bm_byte h x) →
  (spec_op op g).1 = (spec_op op h).1 ∧
  (∀ x, bm_byte g x = bm_byte h x → bm_byte (spec_op op g).2 x = bm_byte (spec_op op h).2 x) ∧
  (∀ x, ¬ a ≤ x < a + zlength data → bm_byte (spec_op op g).2 x = bm_byte g x).
Proof.
  intros Hfit Hll Heq.
  assert (Hbytes : bytes_at g a (zlength data) = bytes_at h a (zlength data)).
  { unfold bytes_at. apply list_fmap_ext. intros i x Hx. apply lookup_seqZ in Hx as [-> Hi]. apply Heq. lia. }
  destruct op as [a' n lock|a' data' gr cond|a' data' expected]; cbn.
  - destruct Hfit as (-> & -> & _ & _ & Hl). rewrite Hll in Hl. destruct lock as [[]|]; [by destruct Hl|]. by rewrite Hbytes.
  - destruct Hfit as (-> & -> & _ & _ & _ & _ & Hl). rewrite Hll in Hl. destruct cond; [by destruct Hl|]. cbn.
    split; [done|]. unfold put_bytes. split; intros x Hx; case_decide; done.
  - destruct Hfit as (-> & -> & _). rewrite Hbytes. split; [done|].
    destruct (match expected with Some e => _ | None => true end); cbn; [|done].
    unfold put_bytes. split; intros x Hx; case_decide; done.
Qed.

Lemma coherent_direct t mb bm pkt a data op :
  coherent t (bm_byte mb) (bm_byte bm) None None → op_fits pkt a data op → isLLSC (pkt_cmd pkt) = false →
  start ≤ a ∧ a + zlength data - 1 ≤ last → a - line_of lg a + zlength data ≤ 2 ^ lg →
  (∀ b k, blks t !! b = Some k → isValid k = true → addr k ≠ line_of lg a) →
  (spec_op op mb).1 = (spec_op op bm).1 ∧
  coherent t (bm_byte (spec_op op mb).2) (bm_byte (spec_op op bm).2) None None.
Proof using HP.
  intros Hc Hfit Hll Hin Hline Hno.
  assert (Hl : ∀ x, a ≤ x < a + zlength data → line_of lg x = line_of lg a).
  { intros x Hx. apply line_in; [apply line_idem|]. pose proof (line_le a). lia. }
  assert (Heq : ∀ x, a ≤ x < a + zlength data → bm_byte mb x = bm_byte bm x).
  { intros x Hx. apply (co_memory _ _ _ _ _ Hc); [lia| |done]. intros b k Hb Hv _. rewrite (Hl x Hx).
    intros He. by apply (Hno b k Hb Hv). }
  destruct (spec_agree pkt a data op mb bm Hfit Hll Heq) as (H1 & H2 & _).
  destruct (spec_agree pkt a data op bm bm Hfit Hll) as (_ & _ & H3); [done|]. split; [done|]. split.
  - intros b k Hb. destruct (co_blocks _ _ _ _ _ Hc b k Hb) as [Hlen Hk]. split; [done|]. intros Hv.
    destruct (Hk Hv) as [Hg [|Hr]]; [done|]. split; [done|]. right. eapply represents_ext; [exact Hr|].
    intros i Hi. cbn. symmetry. apply H3. intros Hx. apply (Hno b k Hb Hv). rewrite <-(Hl _ Hx).
    symmetry. apply line_in; [apply line_addr_line|lia].
  - intros x Hx Hd Hp. apply H2. by apply (co_memory _ _ _ _ _ Hc).
  - done.
Qed.

(** ** The access *)

Context (now : Z) (Hln : lines_ok).

Lemma geometry_mask t S : abs t S → blkMask t = 2 ^ lg - 1.
Proof. intros Habs. pose proof (la_geometry _ _ _ _ _ Habs) as [= _ _ _ _ _ -> _]. done. Qed.

Lemma abs_served t S b k bm op k' :
  abs t S → blks t !! b = Some k → isValid k = true → served_block lg m k op bm k' → abs (put_block t b k') S.
Proof.
  intros Habs Hb Hv [_ _ [[-> _]|[d ->]]]; [by rewrite put_id|]. pose proof (block_at t b k Hb) as Hk.
  assert (Hv' : isValid (set_bits BlkDirty (k.{blk_data := d})) = isValid k) by (unfold isValid; by rewrite has_bit_set).
  apply (abs_modify T lg m t _ S b (set_bits BlkDirty (k.{blk_data := d}))); rewrite ?Hk; try done.
  - exact (la_geometry _ _ _ _ _ Habs).
  - unfold blk_isSecure. by rewrite has_bit_set.
  - rewrite Hv'. congruence.
Qed.

(** the block that the tags find has the line *)
Lemma found_line t S a b l1 l2 L D :
  abs t S → view T t (set_of lg m a) L D → L = l1 ++ b :: l2 →
  entry_of lg m (set_of lg m a) (blk_of t b) = (line_of lg a, false) →
  blks t !! b = Some (blk_of t b) ∧ isValid (blk_of t b) = true ∧ line_of lg a = addr (blk_of t b).
Proof using HP.
  intros Habs Hvw HL He. pose proof (cp_tags _ _ _ HP) as HT. pose proof (set_range T lg m HT a) as Hr.
  assert (Hw : b ∈ ways T (set_of lg m a)) by (rewrite <-(vw_ways _ _ _ _ _ Hvw), HL, !elem_of_app, elem_of_cons; tauto).
  pose proof (way_block T lg m HT t _ b (la_length _ _ _ _ _ Habs) Hr Hw) as Hb. split; [done|]. split.
  - apply (proj1 (Forall_forall _ _) (vw_live _ _ _ _ _ Hvw)). rewrite HL, elem_of_app, elem_of_cons. tauto.
  - destruct (block_place P lg m HP t S b _ Habs Hb) as (_ & Hset & _). apply (elem_of_ways T lg m HT) in Hw; [|lia].
    unfold entry_of in He. injection He as He _. rewrite <-He. unfold line_addr. by rewrite Hset, Hw.
Qed.

Lemma hit_block t S a :
  abs t S → 0 ≤ a → (line_of lg a, false) ∈ S (set_of lg m a) →
  ∃ b k n lat t' S', accessBlock T now a false t = Ok ((Some b, lat), t') ∧ blks t !! b = Some k ∧ isValid k = true ∧
    blks t' = <[b := k.{refCount := n}]> (blks t) ∧ abs t' S' ∧ line_of lg a = addr k.
Proof using HP.
  intros Habs Ha Hyes. pose proof (cp_tags _ _ _ HP) as HT.
  destruct (access_hit T lg m HT now a false t S Habs) as (b & lat & t' & n & Hrun & Hfind & Hw & Hv & Hblks & Habs'); [done..|].
  destruct (findBlock_run T lg m HT t S a false Habs) as (L & D & Hvw & _ & [(b' & l1 & l2 & Hf' & HL & He)|[Hf' _]]);
    [done| |congruence]. assert (b' = b) as -> by congruence.
  destruct (found_line t S a b l1 l2 L D Habs Hvw HL He) as (Hb & _ & Hline).
  by eexists b, (blk_of t b), n, lat, t', _.
Qed.

(** what a request to a cacheable line finds: the line, which serves it, or that the line is not there *)
Lemma runs_access t S c bm mb pkt op Q :
  at_tags t c → abs t S → coherent t mb (bm_byte bm) None None → cpu_ok pkt op → isUncacheable (req pkt) = false →
  (∀ b lat t' c' S', at_tags t' c' → abs t' S' → coherent t' mb (bm_byte (spec_op op bm).2) None None →
     Q (true, Some (Way b), lat, [], pkt.{pkt_bytes := Some (default (default [] (pkt_bytes pkt)) (spec_op op bm).1.1)}) c') →
  (∀ a lat t' c', at_tags t' c' → abs t' S → coherent t' mb (bm_byte bm) None None → pkt_addr pkt = Some a →
     (line_of lg a, false) ∉ S (set_of lg m a) → Q (false, None, lat, [], pkt.{req ::= incAccessDepth}) c') →
  runs (access P now pkt) c Q.
Proof using HP Hln.
  intros Ha Habs Hc Hok Hun Hhit Hmiss. pose proof (cp_tags _ _ _ HP) as HT.
  destruct (cpu_asks pkt op Hln Hok) as (a & data & Hask & Hin & Hend & Hpos & Haddr & Hbytes & Hfit).
  destruct (served_cmd _ (cu_cmd _ _ Hok)) as (Hreq & Hll & Hfc & Hev & Hwb & Hce & _). pose proof (ln_range Hln) as [Hlo Hhi].
  unfold access. step_check; [done|]. rewrite (cp_writes _ _ _ HP), Hun. cbn [andb].
  step_lift; [unfold getAddr; by rewrite Haddr|]. step_lift; [by eapply secure_run|]. rewrite (proj1 (cu_secure _ _ Hok)).
  apply runs_bind. unfold on_tags at 1. apply runs_zoom. pose proof Ha as [Htags _]. rewrite Htags.
  destruct (decide ((line_of lg a, false) ∈ S (set_of lg m a))) as [Hyes|Hno].
  - destruct (hit_block t S a Habs) as (b & k & n & lat & t' & S' & Hrun & Hb & Hv & Hblks & Habs' & Hline); [lia|done|].
    set (k' := k.{refCount := n}) in *.
    exists (Some b, lat), t'. split; [exact Hrun|]. cbn beta iota. rewrite Hev. apply runs_bind, runs_ret. cbn beta iota. rewrite Hwb.
    rewrite decide_False by done. assert (Ha' : at_tags t' (c.{tags := t'})) by (split; [done|apply Ha]).
    assert (Hb' : blks t' !! b = Some k') by (rewrite Hblks; apply list_lookup_insert_eq; by eapply lookup_lt_Some).
    pose proof (coherent_same t t' _ _ _ _ b k k' Hc Hb Hblks eq_refl eq_refl eq_refl eq_refl eq_refl) as Hc'.
    destruct (co_blocks _ _ _ _ _ Hc' b k' Hb') as [Hlen Hg]. destruct (Hg Hv) as [[G1 G2 G3 G4 G5] [|Hrep]]; [done|].
    cbn [fst snd option_map]. apply runs_bind, runs_bind. eapply runs_get_blk; [exact Ha'|exact Hb'|].
    step_lift; [unfold pkt_needsWritable; by rewrite Hreq|]. apply runs_ret. rewrite G1, G2.
    assert (Htrue : (if needsWritable (pkt_cmd pkt) then true else true) = true) by by destruct (needsWritable _).
    rewrite Htrue. apply runs_bind. eapply runs_incHitCount; [exact Ha'|by apply Hok|]. intros c1 Ha1.
    apply runs_bind. eapply (runs_satisfyRequest P now lg m HP k' pkt op a data (Hask k' Hline) bm t' b c1);
      [exact Ha1|by eapply geometry_mask|exact Hb'|exact Hv|exact G1|exact G4|exact Hrep|by right|].
    intros k2 c2 Ha2 Hsv. change (fromCache (pkt_cmd (pkt.{pkt_bytes := _}))) with (fromCache (pkt_cmd pkt)). rewrite Hfc.
    apply runs_bind. apply runs_maintainClusivity.
    2:{ rewrite (proj1 Ha2). eexists. apply put_at. by eexists. }
    apply runs_ret. replace data with (default [] (pkt_bytes pkt)) by by rewrite Hbytes.
    eapply Hhit; [exact Ha2|by eapply abs_served|].
    by apply (coherent_serve t' _ _ bm mb op None None b k' k2 Habs' Hc'); [left|..].
  - destruct (access_miss T lg m HT now a false t S Habs) as (lat & st & Hrun & _ & Habs'); [lia|done|].
    eexists _, _. split; [exact Hrun|]. cbn beta iota. rewrite Hev. apply runs_bind, runs_ret. cbn beta iota. rewrite Hwb.
    rewrite decide_False by done. cbn [fst snd option_map]. apply runs_bind, runs_ret.
    apply runs_bind. eapply runs_incMissCount; [split; [reflexivity|apply Ha]|by apply Hok|]. intros c1 Ha1.
    change (isLLSC (pkt_cmd (pkt.{req ::= incAccessDepth}))) with (isLLSC (pkt_cmd pkt)). rewrite Hll, andb_false_r.
    cbn [andb]. apply runs_ret. eapply Hmiss; [exact Ha1|exact Habs'| |done|done].
    destruct Hc as [C1 C2 C3]. by split.
Qed.

Lemma runs_invalidateBlock t S b k i c Q :
  at_tags t c → abs t S → blks t !! b = Some k → isValid k = true → i = Z.of_nat b / tp_assoc T →
  (∀ t' k' c' S', at_tags t' c' → abs t' S' → blks t' = <[b := k']> (blks t) → isValid k' = false →
     blk_data k' = blk_data k → Q tt c') →
  runs (invalidateBlock P now (Way b)) c Q.
Proof using HP.
  intros Ha Habs Hb Hv -> HQ. destruct (block_place P lg m HP t S b k Habs Hb) as (Hi & _ & Hw & _).
  pose proof (block_at t b k Hb) as Hk.
  destruct (invalidate_run T lg m (cp_tags _ _ _ HP) now t S b _ Habs Hi Hw) as (t1 & t2 & k1 & H1 & H2 & Hblks & Hd & Habs2);
    [by rewrite Hk|]. rewrite Hk in Hd.
  unfold invalidateBlock, on_ref, on_tags. apply runs_bind, runs_zoom. rewrite (proj1 Ha). exists tt, t1. split; [exact H1|].
  apply runs_zoom. exists tt, t2. split; [exact H2|]. eapply (HQ t2 (CacheBlk_invalidate k1)); [|exact Habs2|exact Hblks|done|done].
  split; [done|apply Ha].
Qed.

(** the line of an uncacheable request leaves the cache *)
Lemma runs_access_uncacheable t S c mb f pkt op Q :
  at_tags t c → abs t S → coherent t mb f None None → cpu_ok pkt op → isUncacheable (req pkt) = true →
  (∀ a t' c' S' wbs p, at_tags t' c' → abs t' S' → coherent t' mb f p None → pends wbs p → pkt_addr pkt = Some a →
     (∀ b k, blks t' !! b = Some k → isValid k = true → addr k ≠ line_of lg a) →
     Q (false, None, gp_lookupLatency P, wbs, pkt) c') →
  runs (access P now pkt) c Q.
Proof using HP Hln.
  intros Ha Habs Hc Hok Hun HQ. pose proof (cp_tags _ _ _ HP) as HT.
  destruct (cpu_asks pkt op Hln Hok) as (a & data & _ & Hin & _ & Hpos & Haddr & _).
  destruct (served_cmd _ (cu_cmd _ _ Hok)) as (Hreq & _). pose proof (ln_range Hln) as [Hlo Hhi].
  unfold access. step_check; [done|]. rewrite (cp_writes _ _ _ HP), Hun. cbn [andb]. unfold access_uncacheable.
  step_lift; [unfold getAddr; by rewrite Haddr|]. step_lift; [by eapply secure_run|]. rewrite (proj1 (cu_secure _ _ Hok)).
  apply runs_bind, runs_get. rewrite (proj1 Ha).
  destruct (findBlock_run T lg m HT t S a false Habs) as (L & D & Hvw & He & [(b & l1 & l2 & Hf & HL & Heb)|[Hf Hno]]); [lia|..].
  - destruct (found_line t S a b l1 l2 L D Habs Hvw HL Heb) as (Hb & Hv & Hline). set (k := blk_of t b) in *.
    destruct (co_blocks _ _ _ _ _ Hc b k Hb) as [Hlen Hg]. destruct (Hg Hv) as [Hgood _].
    step_lift; [exact Hf|]. apply runs_bind, runs_bind. eapply runs_get_blk; [exact Ha|exact Hb|]. rewrite Hv.
    apply runs_bind. eapply (runs_evictBlk P now lg m HP t b k); [exact Ha|exact Hb|exact Hv|apply Hgood| | |].
    { by rewrite (cp_line _ _ _ HP). } { by eapply block_regenerate. }
    intros wb k' c1 Ha1 Hsame Hp. pose proof (abs_same_line P lg m t S b k k' Habs Hb Hsame Hv) as Habs1.
    apply runs_bind. eapply runs_invalidateBlock; [exact Ha1|exact Habs1|by apply put_at; eexists| |done|].
    { by rewrite (sl_valid _ _ Hsame). }
    intros t2 k2 c2 S2 Ha2 Habs2 Hblks Hv2 Hd2. apply runs_ret, runs_ret.
    assert (Hblks' : blks t2 = <[b := k2]> (blks t)) by (rewrite Hblks; apply list_insert_insert_eq).
    eapply (HQ a t2 c2 S2 [wb] (evicted lg m k)); [exact Ha2|exact Habs2| |unfold evicted; by rewrite Hv|done|].
    + eapply coherent_replace; [exact Habs|exact Hc|exact Hb|exact Hblks'| |by rewrite Hv2].
      by rewrite Hd2, (sl_data _ _ Hsame).
    + intros b' x. rewrite Hblks'. intros [(<- & <- & _)|[Hne Hx]]%list_lookup_insert_Some Hvx; [congruence|].
      intros Hax. apply Hne. eapply (line_unique t S b b' k x); try done; [|congruence].
      destruct (proj2 (co_blocks _ _ _ _ _ Hc b' x Hx) Hvx) as [Hgx _]. by rewrite (bg_secure _ Hgx), (bg_secure _ Hgood).
  - step_lift; [exact Hf|]. apply runs_bind, runs_ret, runs_ret.
    eapply (HQ a t c S [] None); [done..|apply pends_none|done|].
    intros b k Hb Hv. eapply absent_line; [done..|]. destruct (proj2 (co_blocks _ _ _ _ _ Hc b k Hb) Hv) as [Hg _]. apply Hg.
Qed.

(** ** The miss *)

(** what is sent below for a request that misses *)
Record miss_packet (a : Z) (pkt mp : Packet) : Prop := {
  mp_addr : pkt_addr mp = Some (line_of lg a);
  mp_size : pkt_size mp = Some (2 ^ lg);
  mp_secure : _isSecure mp = false;
  mp_req : req mp = req pkt;
  mp_sharers : hasSharers mp = false;
  mp_free : cacheResponding mp = false;
  mp_cmd : pkt_cmd pkt = WriteLineReq ∧ pkt_cmd mp = InvalidateReq ∨
           pkt_cmd pkt ≠ WriteLineReq ∧ (pkt_cmd mp = ReadExReq ∨ pkt_cmd mp = ReadSharedReq) ∧
           ∃ d, pkt_bytes mp = Some d ∧ zlength d = 2 ^ lg;
}.

Lemma runs_createMissPacket pkt op a c w Q :
  cpu_ok pkt op → isUncacheable (req pkt) = false → pkt_addr pkt = Some a → 0 ≤ a < 2 ^ 64 →
  (∀ mp, miss_packet a pkt mp → Q (Some mp) c) → runs (createMissPacket P pkt None w) c Q.
Proof using HP.
  intros Hok Hun Ha Hr HQ. pose proof (line_bounds P lg m HP).
  destruct (served_cmd _ (cu_cmd _ _ Hok)) as (_ & Hll & _ & Hev & _ & _ & Hnr & Hup & Hni & Hsf & Hcf).
  unfold createMissPacket. step_check; [by rewrite Hev|]. apply runs_bind, runs_ret. cbv zeta.
  change (isValid (CacheBlk_new [])) with false. cbn [negb andb orb]. rewrite Hun, Hup, bool_decide_eq_false_2 by done.
  cbn [orb]. step_check; [done|].
  assert (Hblock : ∀ cmd, pkt_addr (Packet_block (req pkt) cmd (gp_blkSize P)) = Some (line_of lg a)).
  { intros cmd. cbn. rewrite (cu_paddr _ _ Hok), Ha. cbn. f_equal. rewrite (cp_line _ _ _ HP), to_int_small by lia.
    pose proof (block_mask P lg m HP a Hr) as Hm. unfold u64_not in Hm. rewrite (cp_line _ _ _ HP), to_uint_small in Hm by lia. done. }
  assert (Hfinal : ∀ cmd,
    (pkt_cmd pkt = WriteLineReq ∧ cmd = InvalidateReq ∨ pkt_cmd pkt ≠ WriteLineReq ∧ (cmd = ReadExReq ∨ cmd = ReadSharedReq)) →
    runs (pkt ← mret (if hasSharers pkt && negb w then setHasSharers (Packet_block (req pkt) cmd (gp_blkSize P))
                      else Packet_block (req pkt) cmd (gp_blkSize P));
          a ← lift (getAddr pkt); b ← lift (getBlockAddr (gp_blkSize P) pkt); check (bool_decide (a = b)) ;;
          pkt ← lift (allocate (raw P) pkt); mret (Some pkt)) c Q).
  { intros cmd Hcmd. apply runs_bind, runs_ret. rewrite (cu_sharers _ _ Hok). cbn [andb].
    set (mp := Packet_block (req pkt) cmd (gp_blkSize P)) in *.
    assert (Hga : getAddr mp = Ok (line_of lg a)) by (unfold getAddr; unfold mp; by rewrite Hblock).
    step_lift; [exact Hga|]. step_lift; [unfold getBlockAddr; rewrite Hga; cbn [mbind res_bind];
      rewrite (block_mask P lg m HP), line_idem; [done|by apply line_range]|].
    step_check; [by apply bool_decide_eq_true|].
    destruct Hcmd as [[Hc ->]|[Hc Hcmd]].
    - step_lift; [reflexivity|]. apply runs_ret, HQ. split; try done; [by apply Hblock|cbn; by rewrite (cp_line _ _ _ HP)| |by left].
      cbn. by rewrite (proj2 (cu_secure _ _ Hok)), andb_false_r.
    - step_lift; [unfold allocate; destruct Hcmd as [-> | ->]; reflexivity|]. apply runs_ret, HQ.
      split; try done; [by apply Hblock|cbn; by rewrite (cp_line _ _ _ HP)| |].
      + cbn. by rewrite (proj2 (cu_secure _ _ Hok)), andb_false_r.
      + right. split; [done|]. split; [done|]. eexists. split; [reflexivity|]. rewrite (cp_raw _ _ _ HP); rewrite (cp_line _ _ _ HP); lia. }
  case_decide as Hwl.
  - apply runs_bind, runs_bind, runs_check; [done|]. apply runs_ret. apply (Hfinal InvalidateReq). by left.
  - rewrite decide_False by naive_solver. apply runs_bind, runs_ret. rewrite (cp_writes _ _ _ HP).
    apply Hfinal. right. split; [done|]. destruct w; auto.
Qed.

(** what comes back for it: nothing when the line is going to be overwritten, and otherwise its bytes *)
Definition line_reply (f : Z → Z) (a : Z) (pkt mp bp : Packet) : Prop :=
  reply_to mp bp ∧
  if decide (pkt_cmd pkt = WriteLineReq) then pkt_cmd bp = InvalidateResp
  else (pkt_cmd bp = ReadExResp ∨ pkt_cmd bp = ReadResp) ∧
       ∃ d, pkt_bytes bp = Some d ∧ represents d (2 ^ lg) (λ i, f (line_of lg a + i)).

Lemma fills_reply f a pkt op mp bp :
  cpu_ok pkt op → miss_packet a pkt mp → line_reply f a pkt mp bp → pkt_addr pkt = Some a → 0 ≤ a < 2 ^ 64 →
  if decide (pkt_cmd pkt = WriteLineReq) then fills P lg (line_of lg a) pkt None
  else ∃ d, fills P lg (line_of lg a) bp (Some d) ∧ represents d (2 ^ lg) (λ i, f (line_of lg a + i)).
Proof using HP.
  intros Hok [M1 M2 M3 M4 M5 M6 M7] [(x & by' & cmd & e & ->) Hr] Ha Hrange. case_decide as Hwl.
  - pose proof (cu_line _ _ Hok a (2 ^ lg) Ha (cu_whole _ _ Hok Hwl)) as Hl. pose proof (line_le a).
    assert (line_of lg a = a) as -> by lia. split; try done.
    + split; [|done]. lia.
    + apply Hok.
    + apply Hok.
    + apply Hok.
    + apply (ok_cache _ _ _ _ (cu_access _ _ Hok)).
  - destruct Hr as (Hc & d & Hd & Hrep). exists d. split; [|done]. cbn in Hc, Hd. split; try done.
    + split; [apply line_idem|by apply line_range].
    + cbn. rewrite M4. apply Hok.
    + cbn. destruct Hrep as [Hl _]. by destruct Hc as [-> | ->].
Qed.

(** the line is brought in, and serves the request *)
Lemma runs_fill_serve t S c bm mb pkt op a fp src Q :
  at_tags t c → abs t S → coherent t mb (bm_byte bm) None None → cpu_ok pkt op →
  fills P lg (line_of lg a) fp src → pkt_addr pkt = Some a → (line_of lg a, false) ∉ S (set_of lg m a) →
  match src with Some d => represents d (2 ^ lg) (λ i, bm_byte bm (line_of lg a + i)) | None => pkt_cmd pkt = WriteLineReq end →
  (∀ b t' c' S' wbs p, at_tags t' c' → abs t' S' → is_Some (blks t' !! b) →
     coherent t' mb (bm_byte (spec_op op bm).2) p None → pends wbs p →
     Q (Way b, wbs) (pkt.{pkt_bytes := Some (default (default [] (pkt_bytes pkt)) (spec_op op bm).1.1)}) c') →
  runs (handleFill P now fp None true) c
    (λ r c1, runs (satisfyRequest P now pkt r.1 false false) c1 (λ pkt' c', Q r pkt' c')).
Proof using HP Hln.
  intros Ha Habs Hc Hok Hf Haddr Hno Hsrc HQ.
  destruct (cpu_asks pkt op Hln Hok) as (a' & data & Hask & Hin & Hend & Hpos & Ha' & Hbytes & Hfit).
  assert (a' = a) as -> by congruence. clear Ha'. pose proof (coherent_blocks_ok _ _ _ _ _ Hc) as Hblocks.
  assert (Hno' : (line_of lg a, false) ∉ S (set_of lg m (line_of lg a))).
  { replace (set_of lg m (line_of lg a)) with (set_of lg m a); [done|]. unfold set_of, line_of.
    pose proof (line_bounds P lg m HP). by rewrite Z.div_mul by lia. }
  eapply (runs_handleFill P now lg m HP t S); [exact Ha|exact Habs|exact Hblocks|exact Hf|exact Hno'|].
  intros b k kf tf pkts c1 Hb Ha1 Htf [S1 Habs1] Hfresh Hp. pose proof Hfresh as [F1 F2 F3 F4 F5 F6 F7 F8].
  assert (Hbf : blks tf !! b = Some kf) by (rewrite Htf; apply list_lookup_insert_eq; by eapply lookup_lt_Some).
  destruct (line_inside a Hln) as [L1 L2]; [lia|].
  assert (Hgood : block_good kf) by (split; try done; rewrite F2; by split).
  assert (Hlen : zlength (blk_data kf) = 2 ^ lg).
  { rewrite F1. destruct src as [d|]; cbn; [apply Hsrc|by apply (Hblocks b k)]. }
  set (ex := match src with Some _ => None | None => Some b end).
  assert (Hc1 : coherent tf mb (bm_byte bm) (evicted lg m k) ex).
  { eapply (coherent_replace t S tf mb _ b k kf); [exact Habs|exact Hc|exact Hb|exact Htf|exact Hlen|].
    intros _. split; [done|]. split; [done|]. split.
    - unfold ex. destruct src as [d|]; [right|by left]. rewrite F1, F2. exact Hsrc.
    - intros b' x Hx Hv He. rewrite F2 in He. symmetry in He. revert He. apply (absent_line t S a b' x); [done..|].
      destruct (proj2 (co_blocks _ _ _ _ _ Hc b' x Hx) Hv) as [Hg _]. apply Hg. }
  eapply (runs_satisfyRequest P now lg m HP kf pkt op a data (Hask kf ltac:(by rewrite F2)) bm tf b c1
    (match src with Some _ => λ i, bm_byte bm (line_of lg a + i) | None => vat 0 (blk_data kf) end));
    [exact Ha1|by eapply geometry_mask|exact Hbf|exact F3|exact F4|exact F8| | |].
  - destruct src as [d|]; [rewrite F1; exact Hsrc|by apply represents_vat].
  - intros i Hi. destruct src as [d|]; [right; by rewrite F2|by left].
  - intros k2 c2 Ha2 Hsv. replace data with (default [] (pkt_bytes pkt)) by by rewrite Hbytes.
    eapply HQ; [exact Ha2|by eapply abs_served|eexists; apply put_at; by eexists| |exact Hp].
    eapply (coherent_serve tf S1 _ bm mb op _ ex b kf k2); [exact Habs1|exact Hc1| |exact Hbf|exact F3|exact Hsv|done].
    unfold ex. destruct src; auto.
Qed.

Lemma runs_take_response t S c bm mb pkt op a mp bp Q :
  at_tags t c → abs t S → coherent t mb (bm_byte bm) None None → cpu_ok pkt op → miss_packet a pkt mp →
  line_reply (bm_byte bm) a pkt mp bp → pkt_addr pkt = Some a → (line_of lg a, false) ∉ S (set_of lg m a) →
  (∀ b t' c' S' wbs p, at_tags t' c' → abs t' S' → is_Some (blks t' !! b) →
     coherent t' mb (bm_byte (spec_op op bm).2) p None → pends wbs p →
     Q (Some (Way b), wbs, false, pkt.{pkt_bytes := Some (default (default [] (pkt_bytes pkt)) (spec_op op bm).1.1)}) c') →
  runs (take_response P now pkt bp None) c Q.
Proof using HP Hln.
  intros Ha Habs Hc Hok Hmp Hreply Haddr Hno HQ. pose proof (ln_range Hln) as [Hlo Hhi].
  destruct (cpu_asks pkt op Hln Hok) as (a' & data & _ & Hin & _ & Hpos & Ha' & _).
  assert (a' = a) as -> by congruence. clear Ha'.
  pose proof (fills_reply (bm_byte bm) a pkt op mp bp Hok Hmp Hreply Haddr ltac:(lia)) as Hfill.
  destruct (served_cmd _ (cu_cmd _ _ Hok)) as (_ & _ & Hfc & _ & _ & _ & Hnr & _).
  unfold take_response. rewrite Hnr. cbn [negb]. destruct Hreply as [_ Hr]. case_decide as Hwl.
  - step_check; [by rewrite Hr|]. rewrite Hr. change (isError InvalidateResp) with false. cbn iota.
    rewrite (cu_fill _ _ Hok). apply runs_bind.
    eapply runs_mono; [eapply (runs_fill_serve t S c bm mb pkt op a pkt None (λ r pkt' c', Q (Some r.1, r.2, false, pkt') c')); try done|].
    intros [r wbs] c1 H1. cbn beta iota in *. apply runs_bind. eapply runs_mono; [exact H1|]. intros pkt' c' HK. by apply runs_ret.
  - destruct Hr as [Hcmd _]. destruct Hfill as (d & Hfill & Hd).
    assert (Hbp : isResponse (pkt_cmd bp) = true ∧ isError (pkt_cmd bp) = false ∧ isRead (pkt_cmd bp) = true ∧
      isInvalidate (pkt_cmd bp) = false) by (by destruct Hcmd as [-> | ->]).
    destruct Hbp as (R1 & R2 & R3 & R4). step_check; [done|]. rewrite R2, R3, R4. cbn [orb]. rewrite (cu_fill _ _ Hok).
    apply runs_bind. eapply runs_mono; [eapply (runs_fill_serve t S c bm mb pkt op a bp (Some d)
      (λ r pkt' c', fromCache (pkt_cmd pkt') = false ∧
         runs (maintainClusivity P now false (Some r.1)) c' (λ _ c'', Q (Some r.1, r.2, false, pkt') c''))); try done|].
    + intros b t' c' S' wbs p Ha' Habs' Hb' Hc' Hp'. split; [done|].
      apply runs_maintainClusivity; [by eapply HQ|by rewrite (proj1 Ha')].
    + intros [r wbs] c1 H1. cbn beta iota in *. apply runs_bind. eapply runs_mono; [exact H1|]. intros pkt' c' [Hf HK].
      rewrite Hf. apply runs_bind. eapply runs_mono; [exact HK|]. intros [] c2 H2. by apply runs_ret.
Qed.

(** ** The cache and what is below *)

Section below.
Context {W : Type} `{CPs : !CachePeers W} `{Hmem : !MemoryBelow W start last}.

(** the cache and what is below it together hold the bytes of [bm] *)
Definition cache_abs (s : GemCache * W) (bm : byte_mem) : Prop :=
  ∃ t S mb, at_tags t s.1 ∧ abs t S ∧ holds_bytes s.2 mb ∧ coherent t (bm_byte mb) (bm_byte bm) None None.

Lemma runs_on_cache {A} (mm : M GemCache A) c (w : W) Q :
  runs mm c (λ a c', Q a (c', w)) → runs (on_cache mm) (c, w) Q.
Proof. intros H. by apply runs_zoom. Qed.

Lemma runs_the_cache c (w : W) Q : Q c (c, w) → runs the_cache (c, w) Q.
Proof. exact (runs_gets fst (c, w) Q). Qed.

Lemma writes_back_ok f pkt a d :
  writes_back a d pkt → start ≤ a → a + 2 ^ lg - 1 ≤ last → represents d (2 ^ lg) f →
  access_ok start last pkt (OpWrite a d (LockedAddr_mask a) None).
Proof using HP.
  intros [B1 B2 B3 B4 B5 B6 B7] H1 H2 [Hl _]. pose proof (line_bounds P lg m HP). split; try done.
  - unfold op_of. rewrite B1, B2, B3, B4. cbn -[zlength]. rewrite decide_True by (split; [done|split; [lia|done]]).
    rewrite decide_False by done. by rewrite B5.
  - cbn. lia.
  - by rewrite B1.
Qed.

Lemma runs_writebacks t c w mb f p ex wbs Q :
  at_tags t c → holds_bytes w mb → coherent t (bm_byte mb) f p ex → pends wbs p →
  (∀ w' mb', holds_bytes w' mb' → coherent t (bm_byte mb') f None ex → Q tt (c, w')) →
  runs (doWritebacksAtomic wbs) (c, w) Q.
Proof using HP Hmem.
  intros Ha Hw Hc Hp HQ. pose proof Ha as [_ (_ & _ & _ & Hsnoop)].
  assert (Habove : ∀ pkt, isCachedAbove_atomic pkt (c, w) = Ok ((false, pkt), (c, w))).
  { intros pkt. unfold isCachedAbove_atomic, the_cache, gets, mbind, M_bind, mret, M_ret. cbn. by rewrite Hsnoop. }
  destruct Hp as [|pkt Hq|pkt a d Hb]; cbn [doWritebacksAtomic].
  - apply runs_ret. by eapply HQ.
  - apply runs_bind. eexists _, _. split; [apply Habove|]. cbn beta iota.
    destruct (below_drops c w mb pkt Hw Hq) as (lat & pkt' & w' & Hrun & Hw').
    apply runs_bind, runs_bind. eexists _, _. split; [exact Hrun|]. apply runs_ret, runs_ret. by eapply HQ.
  - apply runs_bind. eexists _, _. split; [apply Habove|]. cbn beta iota.
    destruct (co_pending _ _ _ _ _ Hc a d eq_refl) as (H1 & H2 & _ & Hrep & _).
    pose proof (writes_back_ok _ pkt a d Hb H1 H2 Hrep) as Hok.
    destruct (below_serves c w mb pkt _ Hw Hok) as (lat & pkt' & w' & Hrun & _ & _ & Hw').
    apply runs_bind, runs_bind. eexists _, _. split; [exact Hrun|]. apply runs_ret, runs_ret. eapply HQ; [exact Hw'|].
    by apply coherent_settle.
Qed.

Lemma runs_ticks c (w : W) pkt lat pkt' s' Q :
  mem_sendAtomic pkt (c, w) = Ok ((lat, pkt'), s') → (∀ n, Q (n, pkt') s') → runs (ticks P pkt) (c, w) Q.
Proof using HP.
  intros Hrun HQ. unfold ticks. apply runs_bind. eexists _, _. split; [exact Hrun|]. cbn beta iota.
  unfold ticksToCycles, divCeil. rewrite decide_False by (pose proof (cp_clock _ _ _ HP); lia).
  apply runs_bind. eapply runs_lift; [done|]. apply runs_ret, HQ.
Qed.

(** the line comes from below *)
Lemma below_line c w mb bm t pkt op a mp :
  holds_bytes w mb → coherent t (bm_byte mb) (bm_byte bm) None None → cpu_ok pkt op → miss_packet a pkt mp →
  start ≤ a ≤ last → (∀ b k, blks t !! b = Some k → isValid k = true → addr k ≠ line_of lg a) →
  ∃ lat bp w' mb', mem_sendAtomic mp (c, w) = Ok ((lat, bp), (c, w')) ∧ holds_bytes w' mb' ∧
    bm_byte mb' = bm_byte mb ∧ line_reply (bm_byte bm) a pkt mp bp.
Proof using HP Hln Hmem.
  intros Hw Hc Hok Hmp Hin Hno. pose proof Hmp as [M1 M2 M3 M4 M5 M6 M7]. pose proof (line_bounds P lg m HP).
  destruct (line_inside a Hln Hin) as [L1 L2]. unfold line_reply. destruct M7 as [[Hwl Hcmd]|(Hwl & Hcmd & d & Hd & Hl)].
  - destruct (below_invalidates c w mb mp (line_of lg a) (2 ^ lg) Hw Hcmd M1 M2) as (lat & bp & w' & Hrun & Hr & Hc' & Hw');
      [lia|done|done|done|].
    exists lat, bp, w', mb. do 3 (split; [done|]). split; [done|]. by rewrite decide_True.
  - assert (Hacc : access_ok start last mp (OpRead (line_of lg a) (2 ^ lg) None)).
    { split; [|by split|done| |].
      - unfold op_of. rewrite M1, M2, Hd. cbn -[zlength]. destruct Hcmd as [-> | ->]; by rewrite decide_True by (split; [done|split; [lia|done]]).
      - by destruct Hcmd as [-> | ->].
      - by destruct Hcmd as [-> | ->]. }
    destruct (below_serves c w mb mp _ Hw Hacc) as (lat & bp & w' & Hrun & Hr & (A1 & A2 & _) & Hw').
    exists lat, bp, w', mb. do 3 (split; [done|]). split; [done|]. rewrite decide_False by done.
    split; [destruct Hcmd as [Hc' | Hc']; rewrite Hc' in A2; auto|]. eexists. split; [exact A1|].
    unfold bytes_at. split; [unfold zlength; rewrite length_fmap, length_seqZ; lia|].
    intros i Hi. apply vlookup_Some. split; [lia|]. rewrite list_lookup_fmap, (proj2 (lookup_seqZ _ _ _ (line_of lg a + i))) by lia.
    cbn. f_equal. apply (co_memory _ _ _ _ _ Hc); [lia| |done]. intros b k Hb Hv _.
    rewrite (line_in (line_of lg a)); [|apply line_idem|lia]. intros He. by apply (Hno b k Hb Hv).
Qed.

Lemma runs_miss t S c w bm mb pkt op a lat Q :
  at_tags t c → abs t S → holds_bytes w mb → coherent t (bm_byte mb) (bm_byte bm) None None → cpu_ok pkt op →
  isUncacheable (req pkt) = false → pkt_addr pkt = Some a → (line_of lg a, false) ∉ S (set_of lg m a) →
  (∀ b lat' t' c' w' S' mb' wbs p, at_tags t' c' → abs t' S' → holds_bytes w' mb' →
     coherent t' (bm_byte mb') (bm_byte (spec_op op bm).2) p None → pends wbs p →
     Q (lat', Some (Way b), wbs, pkt.{pkt_bytes := Some (default (default [] (pkt_bytes pkt)) (spec_op op bm).1.1)}) (c', w')) →
  runs (atomic_miss P now pkt None lat) (c, w) Q.
Proof using HP Hln Hmem.
  intros Ha Habs Hw Hc Hok Hun Haddr Hno HQ. pose proof (ln_range Hln) as [Hlo Hhi].
  destruct (cpu_asks pkt op Hln Hok) as (a' & data & _ & Hin & _ & Hpos & Ha' & _). assert (a' = a) as -> by congruence. clear Ha'.
  destruct (served_cmd _ (cu_cmd _ _ Hok)) as (Hreq & _). unfold atomic_miss.
  step_lift; [unfold pkt_needsWritable; by rewrite Hreq|]. apply runs_bind, runs_on_cache.
  eapply runs_createMissPacket; [exact Hok|done|exact Haddr|lia|]. intros mp Hmp.
  assert (Habsent : ∀ b k, blks t !! b = Some k → isValid k = true → addr k ≠ line_of lg a).
  { intros b k Hb Hv. apply (absent_line t S a b k); try done. by destruct (proj2 (co_blocks _ _ _ _ _ Hc b k Hb) Hv) as [[] _]. }
  destruct (below_line c w mb bm t pkt op a mp Hw Hc Hok Hmp ltac:(lia) Habsent) as (l1 & bp & w' & mb' & Hrun & Hw' & Hmb & Hreply).
  apply runs_bind. change (default pkt (Some mp)) with mp. eapply runs_ticks; [exact Hrun|]. intros n. cbn beta iota zeta.
  apply runs_bind, runs_on_cache. rewrite <-Hmb in Hc.
  eapply (runs_take_response t S c bm (bm_byte mb') pkt op a mp bp); [done..|].
  intros b t' c' S' wbs p Ha' Habs' [k Hb'] Hc' Hp. cbn beta iota. apply runs_bind, runs_on_cache.
  eapply runs_get_blk; [exact Ha'|exact Hb'|]. cbn [andb when]. apply runs_bind, runs_ret, runs_ret. by eapply HQ.
Qed.

(** the end of an access to a block or past the cache *)
Lemma runs_finish t S c w bm mb p wbs pkt blk lat Q :
  at_tags t c → abs t S → holds_bytes w mb → coherent t (bm_byte mb) (bm_byte bm) p None → pends wbs p →
  blk ≠ Some Temp → (needsResponse (pkt_cmd pkt) = true → isRequest (pkt_cmd pkt) = true) →
  (∀ l w', cache_abs (c, w') bm →
     Q (l, if needsResponse (pkt_cmd pkt) then pkt.{pkt_cmd := responseCommand (pkt_cmd pkt)}.{isExpressSnoop := false} else pkt) (c, w')) →
  runs (finish_atomic P now pkt blk lat wbs) (c, w) Q.
Proof using HP Hmem.
  intros Ha Habs Hw Hc Hp Hblk Hnr HQ. unfold finish_atomic. apply runs_bind.
  eapply runs_writebacks; [exact Ha|exact Hw|exact Hc|exact Hp|]. intros w' mb' Hw' Hc'.
  apply runs_bind, runs_the_cache. rewrite decide_False by tauto. apply runs_bind, runs_ret.
  set (resp := if needsResponse (pkt_cmd pkt) then pkt.{pkt_cmd := responseCommand (pkt_cmd pkt)}.{isExpressSnoop := false} else pkt) in *.
  step_lift; [|apply runs_ret, HQ; by exists t, S, mb'].
  unfold resp. destruct (needsResponse (pkt_cmd pkt)) eqn:E; [|done].
  unfold makeResponse. by rewrite E, (Hnr eq_refl).
Qed.

Lemma answers_cmd pkt c r ok resp :
  answers (pkt.{pkt_cmd := c}) r ok resp → isLLSC (pkt_cmd pkt) = false →
  needsResponse c = needsResponse (pkt_cmd pkt) → responseCommand c = responseCommand (pkt_cmd pkt) →
  needsResponse c = true → answers pkt r ok resp.
Proof. intros (H1 & H2 & H3 & H4 & _) Hll Hn Hr Hy. cbn in H2. unfold answers. rewrite <-Hn, Hy, <-Hr. rewrite Hy in H2. by rewrite Hll. Qed.

(** what the last step makes of the packet is the answer *)
Lemma answers_finish pkt pkt' op bm :
  pkt_cmd pkt ∈ served → (∃ data, pkt_bytes pkt = Some data) → pkt_cmd pkt' = pkt_cmd pkt → pkt_addr pkt' = pkt_addr pkt →
  pkt_size pkt' = pkt_size pkt → pkt_bytes pkt' = Some (default (default [] (pkt_bytes pkt)) (spec_op op bm).1.1) →
  answers pkt (spec_op op bm).1.1 (spec_op op bm).1.2
    (if needsResponse (pkt_cmd pkt') then pkt'.{pkt_cmd := responseCommand (pkt_cmd pkt')}.{isExpressSnoop := false} else pkt').
Proof.
  intros Hs [data Hd] H1 H2 H3 H4. destruct (served_cmd _ Hs) as (_ & Hll & _ & _ & _ & _ & Hn & _). rewrite H1, Hn. unfold answers.
  cbn. rewrite Hn, Hll, H4, Hd. by destruct (spec_op op bm).1.1.
Qed.

(** a write of a whole line becomes another command, but the same operation *)
Lemma promote_run pkt op :
  cpu_ok pkt op → ∃ pkt', promoteWholeLineWrites P pkt = Ok pkt' ∧ cpu_ok pkt' op ∧ req pkt' = req pkt ∧
    ∀ r ok resp, answers pkt' r ok resp → answers pkt r ok resp.
Proof using HP Hln.
  intros Hok. destruct (cpu_asks pkt op Hln Hok) as (a & data & _ & Hin & _ & _ & Ha & Hb & _).
  pose proof (ln_range Hln). pose proof Hok as [[Hop Hi1 Hf1 Hc1 Hw1] C2 C3 C4 C5 C6 C7 C8 C9 C10].
  destruct (op_of_inv pkt op Hop) as (a' & data' & Ha' & Hb' & Hs & _). assert (data' = data) as -> by congruence.
  unfold promoteWholeLineWrites. destruct (doFastWrites P && bool_decide (pkt_cmd pkt = WriteReq)) eqn:E; cbn [negb];
    [|by exists pkt]. apply andb_true_iff in E as [_ E%bool_decide_eq_true].
  unfold getSize, getOffset, getAddr. rewrite Hs, Ha. cbn [of_option mbind res_bind].
  case_decide as Hl; [by exists pkt|]. rewrite (cp_line _ _ _ HP) in Hl.
  case_decide as Hoff; [|by exists pkt]. exists (pkt.{pkt_cmd := WriteLineReq}). split; [done|]. split; [|split; [done|]].
  - split; try done.
    + split; try done. * rewrite <-Hop. unfold op_of. cbn. by rewrite E. * intros _. apply Hw1. by rewrite E.
    + unfold served. rewrite !elem_of_cons. tauto.
    + intros _. cbn. by rewrite Hs, Hl.
    + unfold allocOnFill. rewrite (bool_decide_eq_true_2 (pkt_cmd _ = WriteLineReq ∨ _)) by (by left). by rewrite orb_true_r.
  - intros r ok resp Hans. eapply answers_cmd; [exact Hans|by rewrite E..|done].
Qed.

Lemma runs_cacheable c w bm pkt op Q :
  cache_abs (c, w) bm → cpu_ok pkt op → isUncacheable (req pkt) = false →
  (∀ l resp c' w', cache_abs (c', w') (spec_op op bm).2 → answers pkt (spec_op op bm).1.1 (spec_op op bm).1.2 resp →
     Q (l, resp) (c', w')) →
  runs ('(satisfied, blk, lat, writebacks, pkt) ← on_cache (access P now pkt);
        doWritebacksAtomic writebacks ;;
        if (satisfied : bool) then finish_atomic P now pkt blk lat []
        else if isEviction (pkt_cmd pkt) || isUncacheable (req pkt) && isWrite (pkt_cmd pkt) then
          '(n, pkt) ← ticks P pkt; mret (u64 (u64 (lat + n) * gp_clockPeriod P), pkt)
        else
          '(lat, blk, writebacks, pkt) ← atomic_miss P now pkt blk lat;
          finish_atomic P now pkt blk lat writebacks) (c, w) Q.
Proof using HP Hln Hmem.
  intros (t & S & mb & Ha & Habs & Hw & Hc) Hok Hun HQ. cbn [fst snd] in *.
  destruct (cpu_asks pkt op Hln Hok) as (a & data & _ & _ & _ & _ & Haddr & Hbytes & _).
  destruct (served_cmd _ (cu_cmd _ _ Hok)) as (Hreq & _ & _ & Hev & _).
  assert (Hdata : ∃ data, pkt_bytes pkt = Some data) by by exists data.
  apply runs_bind, runs_on_cache. eapply runs_access; [exact Ha|exact Habs|exact Hc|exact Hok|exact Hun| |].
  - intros b lat t' c' S' Ha' Habs' Hc'. cbn beta iota. apply runs_bind.
    eapply runs_writebacks; [exact Ha'|exact Hw|exact Hc'|apply pends_none|]. intros w1 mb1 Hw1 Hc1.
    eapply runs_finish; [exact Ha'|exact Habs'|exact Hw1|exact Hc1|apply pends_none|done|done|].
    intros l w2 Habs2. apply HQ; [done|]. apply answers_finish; [apply Hok|done..].
  - intros a' lat t' c' Ha' Habs' Hc' Haddr' Hno. cbn beta iota. apply runs_bind.
    eapply runs_writebacks; [exact Ha'|exact Hw|exact Hc'|apply pends_none|]. intros w1 mb1 Hw1 Hc1.
    change (pkt_cmd (pkt.{req ::= incAccessDepth})) with (pkt_cmd pkt).
    change (isUncacheable (req (pkt.{req ::= incAccessDepth}))) with (isUncacheable (req pkt)).
    rewrite Hev, Hun. cbn [orb andb]. set (pkt2 := pkt.{req ::= incAccessDepth}).
    assert (Hok2 : cpu_ok pkt2 op) by (destruct Hok as [[] ? ? ? ? ? ? ? ? ?]; by split; [split|..]).
    apply runs_bind. eapply (runs_miss t' S c' w1 bm mb1 pkt2 op a'); [done..|].
    intros b lat' t2 c2 w2 S2 mb2 wbs p Ha2 Habs2 Hw2 Hc2 Hp. cbn beta iota.
    eapply runs_finish; [exact Ha2|exact Habs2|exact Hw2|exact Hc2|exact Hp|done|done|].
    intros l w3 Habs3. apply HQ; [done|]. apply answers_finish; [apply Hok|done..].
Qed.

(** a request that goes past the cache is answered below *)
Lemma below_direct t S c w bm mb pkt op a :
  at_tags t c → abs t S → holds_bytes w mb → coherent t (bm_byte mb) (bm_byte bm) None None → cpu_ok pkt op →
  pkt_addr pkt = Some a → (∀ b k, blks t !! b = Some k → isValid k = true → addr k ≠ line_of lg a) →
  ∃ lat resp w', mem_sendAtomic pkt (c, w) = Ok ((lat, resp), (c, w')) ∧ cache_abs (c, w') (spec_op op bm).2 ∧
    answers pkt (spec_op op bm).1.1 (spec_op op bm).1.2 resp.
Proof using HP Hln Hmem.
  intros Ha Habs Hw Hc Hok Haddr Hno.
  destruct (cpu_asks pkt op Hln Hok) as (a' & data & _ & Hin & Hend & _ & Ha' & _ & Hfit).
  assert (a' = a) as -> by congruence. destruct (served_cmd _ (cu_cmd _ _ Hok)) as (_ & Hll & _).
  destruct (coherent_direct t mb bm pkt a data op Hc Hfit Hll Hin Hend Hno) as [Heq Hc'].
  destruct (below_serves c w mb pkt op Hw (cu_access _ _ Hok)) as (lat & resp & w' & Hrun & _ & Hans & Hw').
  exists lat, resp, w'. split; [done|]. rewrite <-Heq. split; [|done]. by exists t, S, (spec_op op mb).2.
Qed.

Lemma runs_uncacheable c w bm pkt op Q :
  cache_abs (c, w) bm → cpu_ok pkt op → isUncacheable (req pkt) = true →
  (∀ l resp c' w', cache_abs (c', w') (spec_op op bm).2 → answers pkt (spec_op op bm).1.1 (spec_op op bm).1.2 resp →
     Q (l, resp) (c', w')) →
  runs ('(satisfied, blk, lat, writebacks, pkt) ← on_cache (access P now pkt);
        doWritebacksAtomic writebacks ;;
        if (satisfied : bool) then finish_atomic P now pkt blk lat []
        else if isEviction (pkt_cmd pkt) || isUncacheable (req pkt) && isWrite (pkt_cmd pkt) then
          '(n, pkt) ← ticks P pkt; mret (u64 (u64 (lat + n) * gp_clockPeriod P), pkt)
        else
          '(lat, blk, writebacks, pkt) ← atomic_miss P now pkt blk lat;
          finish_atomic P now pkt blk lat writebacks) (c, w) Q.
Proof using HP Hln Hmem.
  intros (t & S & mb & Ha & Habs & Hw & Hc) Hok Hun HQ. cbn [fst snd] in *.
  destruct (served_cmd _ (cu_cmd _ _ Hok)) as (Hreq & _ & _ & Hev & _ & _ & Hnr & _).
  apply runs_bind, runs_on_cache. eapply runs_access_uncacheable; [exact Ha|exact Habs|exact Hc|exact Hok|exact Hun|].
  intros a t' c' S' wbs p Ha' Habs' Hc' Hp Haddr Hno. cbn beta iota. apply runs_bind.
  eapply runs_writebacks; [exact Ha'|exact Hw|exact Hc'|exact Hp|]. intros w1 mb1 Hw1 Hc1.
  destruct (below_direct t' S' c' w1 bm mb1 pkt op a Ha' Habs' Hw1 Hc1 Hok Haddr Hno) as (lat & resp & w2 & Hrun & Habs2 & Hans).
  rewrite Hev, Hun. cbn [orb andb]. destruct (isWrite (pkt_cmd pkt)).
  - apply runs_bind. eapply runs_ticks; [exact Hrun|]. intros n. cbn beta iota. by apply runs_ret, HQ.
  - unfold atomic_miss. apply runs_bind. step_lift; [unfold pkt_needsWritable; by rewrite Hreq|].
    apply runs_bind, runs_on_cache. unfold createMissPacket. step_check; [by rewrite Hev|]. apply runs_bind, runs_ret.
    cbv zeta. rewrite Hun. cbn [orb]. apply runs_ret. apply runs_bind. eapply runs_ticks; [exact Hrun|]. intros n. cbn beta iota zeta.
    apply runs_bind, runs_ret. cbn beta iota. apply runs_ret. destruct Habs2 as (t2 & S2 & mb2 & Ha2 & Habs2 & Hw2 & Hc2).
    destruct Hans as (A1 & A2 & A3). rewrite Hnr in A2.
    assert (Hresp : needsResponse (pkt_cmd resp) = false).
    { rewrite A2. pose proof (cu_cmd _ _ Hok) as Hs. unfold served in Hs. rewrite !elem_of_cons, elem_of_nil in Hs.
      by destruct Hs as [-> |[-> |[-> |[-> |[-> |[]]]]]]. }
    eapply runs_finish; [exact Ha2|exact Habs2|exact Hw2|exact Hc2|apply pends_none|done|by rewrite Hresp|].
    rewrite Hresp. intros l w3 Habs3. apply HQ; [done|]. unfold answers. by rewrite Hnr.
Qed.

Lemma runs_recvAtomic c w bm pkt op :
  cache_abs (c, w) bm → cpu_ok pkt op →
  runs (recvAtomic P now pkt) (c, w) (λ r s', cache_abs s' (spec_op op bm).2 ∧ answers pkt (spec_op op bm).1.1 (spec_op op bm).1.2 r.2).
Proof using HP Hln Hmem.
  intros Habs Hok. destruct (promote_run pkt op Hok) as (pkt1 & Hpro & Hok1 & Hreq & Hans).
  unfold recvAtomic. rewrite (cp_caches _ _ _ HP). step_lift; [exact Hpro|].
  rewrite (ok_cache _ _ _ _ (cu_access _ _ Hok1)). destruct (isUncacheable (req pkt1)) eqn:Hun.
  - eapply runs_uncacheable; [exact Habs|exact Hok1|exact Hun|]. intros l resp c' w' H1 H2. split; [done|]. by apply Hans.
  - eapply runs_cacheable; [exact Habs|exact Hok1|exact Hun|]. intros l resp c' w' H1 H2. split; [done|]. by apply Hans.
Qed.
End below.
End coherence.

(** ** Runs of requests *)

(** each with the tick at which it is made *)
Fixpoint run_requests {W} `{CPs : !CachePeers W} (P : CacheParams) (reqs : list (Z * Packet)) : M (GemCache * W) (list Packet) :=
  match reqs with
  | [] => mret []
  | (now, pkt) :: reqs => r ← recvAtomic P now pkt; resps ← run_requests P reqs; mret (r.2 :: resps)
  end.

Section requests.
Context (P : CacheParams) (lg m : Z) (HP : cache_params_ok P lg m) (start last : Z) (Hln : lines_ok lg start last).
Context {W : Type} `{CPs : !CachePeers W} `{Hmem : !MemoryBelow W start last}.
Notation cache_abs := (cache_abs P lg m start last).

Lemma cache_requests_run reqs ops s bm :
  cache_abs s bm → Forall2 (cpu_ok P lg start last) (reqs.*2) ops →
  ∃ resps s', run_requests P reqs s = Ok (resps, s') ∧ Forall3 answer (reqs.*2) (spec_ops ops bm).1 resps ∧
    cache_abs s' (spec_ops ops bm).2.
Proof using HP Hln.
  intros Habs Hok. revert ops s bm Habs Hok. induction reqs as [|[now pkt] reqs IH]; intros ops s bm Habs Hok; cbn in Hok.
  { apply Forall2_nil_inv_l in Hok as ->. exists [], s. do 2 (split; [constructor|]). done. }
  apply Forall2_cons_inv_l in Hok as (op & ops' & Hop & Hok & ->). destruct s as [c w].
  destruct (runs_recvAtomic P lg m HP start last now Hln c w bm pkt op Habs Hop) as ([l resp] & s1 & Hrun & Habs1 & Hans).
  destruct (IH ops' s1 _ Habs1 Hok) as (resps & s' & Hruns & Hall & Habs').
  exists (resp :: resps), s'. cbn [spec_ops]. destruct (spec_op op bm) as [r m1]. cbn in Hans, Habs1, Hall, Habs'.
  destruct (spec_ops ops' m1) as [rs m2]. cbn in Hall, Habs'. split; [|split; [by constructor|done]].
  cbn [run_requests]. eapply bind_Ok; [exact Hrun|]. by eapply bind_Ok; [exact Hruns|].
Qed.

(** a new cache holds nothing *)
Lemma new_cache mshrs write_buffers max_misses temp raw_data (w : W) bm :
  (∀ i, zlength (raw_data i) = 2 ^ lg) → holds_bytes w bm →
  ∃ c, GemCache_new P mshrs write_buffers max_misses false temp raw_data = Ok c ∧ cache_abs (c, w) bm.
Proof using HP.
  intros Hraw Hw. pose proof (cp_tags _ _ _ HP) as HT. unfold GemCache_new.
  rewrite (new_run (gp_tags P) lg m HT raw_data). cbn [mbind res_bind]. eexists. split; [done|].
  exists (first_tags (gp_tags P) lg m raw_data), (λ _, []), bm. split; [by split|]. split; [by apply first_abs|].
  split; [done|]. split; [|done|done]. intros b k (-> & _)%first_block; [|done]. split; [apply Hraw|done].
Qed.
End requests.
