(* ===== verification/CacheFlush.v ===== *)
(** * Flushing the classic cache

    [memWriteback] makes the memory below hold what the cache and it hold together, and
    [memInvalidate] empties the cache. *)

From S2P Require Import Prelude IntMath Clock AddrRange MemPacket AbstractMem MemSpec CacheBlk CacheTags CacheQueue MSHR LruSpec ClassicCache CacheRun CacheTransparent.

(** a loop over all blocks whose visitor never stops it *)
Lemma visit_runs {S} (visitor : nat → M S bool) (I : nat → S → Prop) n i s :
  I i s → (∀ j s, (i ≤ j < i + n)%nat → I j s → runs (visitor j) s (λ go s', go = true ∧ I (j + 1)%nat s')) →
  runs (visit_from visitor n i) s (λ _ s', I (i + n)%nat s').
Proof.
  revert i s. induction n as [|n IH]; intros i s Hi Hstep; cbn [visit_from].
  { apply runs_ret. by rewrite Nat.add_0_r. }
  apply runs_bind. eapply runs_mono; [apply Hstep; [lia|exact Hi]|]. intros go s1 [-> H1]. cbn iota.
  eapply runs_mono; [apply IH|].
  - rewrite Nat.add_1_r in H1. exact H1.
  - intros j s2 Hj. apply Hstep. lia.
  - intros [] s2. replace (Datatypes.S i + n)%nat with (i + Datatypes.S n)%nat by lia. done.
Qed.

Section flush.
Context (P : CacheParams) (lg m : Z) (HP : cache_params_ok P lg m) (start last : Z) (Hln : lines_ok lg start last).
Context (now : Z).
Context {W : Type} `{CPs : !CachePeers W} `{Hmem : !MemoryBelow W start last}.
Notation T := (gp_tags P).
Notation abs := (lru_abs T lg m).
Notation addr := (line_addr lg m).
Notation coherent := (coherent lg m start last).

(** a dirty line is written to the memory, and is clean *)
Lemma coherent_clean t S mb f b k :
  abs t S → coherent t mb f None None → blks t !! b = Some k → isValid k = true →
  coherent (put_block t b (clear_bits BlkDirty k)) (put_bytes (addr k) (blk_data k) mb) f None None.
Proof using HP Hln.
  intros Habs Hc Hb Hv. set (k' := clear_bits BlkDirty k).
  assert (Hk' : isValid k' = true ∧ (block_good lg m start last k → block_good lg m start last k')).
  { split; [unfold isValid, k'; by rewrite has_bit_keep|]. intros [G1 G2 G3 G4 G5]. split; try done.
    - unfold isWritable, has_bits, k', clear_bits in *. cbn. by rewrite land_ldiff.
    - unfold isReadable, has_bits, k', clear_bits in *. cbn. by rewrite land_ldiff.
    - unfold blk_isSecure, k'. by rewrite has_bit_keep. }
  destruct (co_blocks _ _ _ _ _ _ _ _ _ Hc b k Hb) as [Hlen Hg]. destruct (Hg Hv) as [Hgood [|Hrep]]; [done|].
  split; [| |done].
  - intros d x. unfold put_block. cbn. intros [(<- & <- & _)|[Hne Hx]]%list_lookup_insert_Some.
    + split; [done|]. intros _. split; [by apply Hk'|]. right. exact Hrep.
    + by apply (co_blocks _ _ _ _ _ _ _ _ _ Hc d x Hx).
  - intros x Hx Hd _. unfold put_bytes. rewrite Hlen. case_decide as Hin.
    + unfold vat. destruct Hrep as [_ Hrep]. rewrite Hrep by lia. cbn. f_equal. lia.
    + apply (co_memory _ _ _ _ _ _ _ _ _ Hc x Hx); [|done]. intros d y Hy Hvy Hdy. destruct (decide (b = d)) as [<-|Hne].
      * assert (y = k) as -> by congruence. intros Hl. apply Hin. pose proof (line_le P lg m HP x). lia.
      * apply (Hd d y); [|done|done]. unfold put_block. cbn. by rewrite list_lookup_insert_ne.
Qed.

(** the blocks before [i] are clean *)
Definition clean_upto (bm : byte_mem) (i : nat) (s : GemCache * W) : Prop :=
  ∃ t S mb, at_tags t s.1 ∧ abs t S ∧ holds_bytes s.2 mb ∧ coherent t (bm_byte mb) (bm_byte bm) None None ∧
    ∀ j k, (j < i)%nat → blks t !! j = Some k → isDirty k = false.

(** the block is there *)
Lemma nth_block t S j : abs t S → (j < Z.to_nat (2 ^ m * tp_assoc T))%nat → ∃ k, blks t !! j = Some k.
Proof using HP.
  intros Habs Hj. pose proof (la_length _ _ _ _ _ Habs) as Hl. unfold zlength in Hl.
  destruct (lookup_lt_is_Some_2 (blks t) j) as [k Hk]; [lia|by exists k].
Qed.

Lemma dirty_valid t S b k : abs t S → blks t !! b = Some k → isDirty k = true → isValid k = true.
Proof.
  intros Habs Hb Hd. destruct (la_blks _ _ _ _ _ Habs b k Hb) as (_ & _ & _ & Hinv). destruct (isValid k); [done|].
  destruct (Hinv eq_refl) as [Hs _]. unfold isDirty, has_bit in Hd. by rewrite Hs in Hd.
Qed.

Lemma writebackVisitor_runs bm j s :
  (j < Z.to_nat (2 ^ m * tp_assoc T))%nat → clean_upto bm j s →
  runs (writebackVisitor P now j) s (λ go s', go = true ∧ clean_upto bm (j + 1) s').
Proof using HP Hln Hmem.
  destruct s as [c w]. intros Hj (t & S & mb & Ha & Habs & Hw & Hc & Hclean). cbn [fst snd] in *.
  destruct (nth_block t S j Habs Hj) as [k Hk]. unfold writebackVisitor. apply runs_bind, runs_on_cache.
  eapply runs_get_blk; [exact Ha|exact Hk|]. destruct (isDirty k) eqn:Hd.
  - pose proof (dirty_valid t S j k Habs Hk Hd) as Hv. step_check; [done|].
    apply runs_bind, runs_on_cache. eapply runs_blk_address; [exact Ha|by eapply block_regenerate|].
    apply runs_bind, runs_on_cache. eapply runs_new_Request; [exact Ha|]. intros p c1 Ha1.
    destruct (co_blocks _ _ _ _ _ _ _ _ _ Hc j k Hk) as [Hlen Hg]. destruct (Hg Hv) as [[_ _ _ _ Hin] _].
    pose proof (line_bounds P lg m HP).
    set (pkt := (Packet_new _ WriteReq).{pkt_bytes := Some (blk_data k)}.{pkt_static := true}).
    destruct (below_writes c1 w mb pkt (addr k) (blk_data k) Hw) as (pkt' & w' & Hrun & Hw');
      [done|done|cbn; by rewrite Hlen, (cp_line _ _ _ HP)|done|lia|lia|lia|].
    apply runs_bind. exists pkt', (c1, w'). split; [exact Hrun|]. apply runs_bind, runs_on_cache.
    eapply runs_on_ref; [exact Ha1|exact Hk|]. intros c2 Ha2. apply runs_ret. split; [done|].
    exists (put_block t j (clear_bits BlkDirty k)), S, (mkByteMem (put_bytes (addr k) (blk_data k) (bm_byte mb)) (bm_resv mb)).
    split; [done|]. split; [|split; [done|split]].
    + pose proof (block_at t j k Hk) as Hk2. assert (Hv' : isValid (clear_bits BlkDirty k) = true) by (unfold isValid; by rewrite has_bit_keep).
      apply (abs_modify T lg m t _ S j (clear_bits BlkDirty k)); rewrite ?Hk2; try done; [exact (la_geometry _ _ _ _ _ Habs)|by rewrite Hv, Hv'| |].
      * unfold blk_isSecure. by rewrite has_bit_keep.
      * by rewrite Hv'.
    + by eapply coherent_clean.
    + intros i x Hi. unfold put_block. cbn. intros [(<- & <- & _)|[Hne Hx]]%list_lookup_insert_Some; [apply has_bit_gone|].
      apply (Hclean i); [lia|done].
  - apply runs_ret. split; [done|]. exists t, S, mb. do 4 (split; [done|]). intros i x Hi Hx.
    destruct (decide (i = j)) as [->|Hne]; [congruence|]. apply (Hclean i); [lia|done].
Qed.

(** no block is valid before [i], and none is dirty *)
Definition empty_upto (i : nat) (c : GemCache) : Prop :=
  ∃ t S, at_tags t c ∧ abs t S ∧ ∀ j k, blks t !! j = Some k →
    zlength (blk_data k) = 2 ^ lg ∧ isDirty k = false ∧ ((j < i)%nat → isValid k = false).

Lemma invalidateVisitor_runs j c :
  (j < Z.to_nat (2 ^ m * tp_assoc T))%nat → empty_upto j c →
  runs (invalidateVisitor P now j) c (λ go c', go = true ∧ empty_upto (j + 1) c').
Proof using HP.
  intros Hj (t & S & Ha & Habs & Hall). destruct (nth_block t S j Habs Hj) as [k Hk]. unfold invalidateVisitor.
  apply runs_bind. eapply runs_get_blk; [exact Ha|exact Hk|]. destruct (Hall j k Hk) as (Hl & Hd & _).
  destruct (isValid k) eqn:Hv.
  - step_check; [by rewrite Hd|]. apply runs_bind.
    eapply (runs_invalidateBlock P lg m HP now t S j k); [exact Ha|exact Habs|exact Hk|exact Hv|done|].
    intros t' k' c' S' Ha' Habs' Hblks Hv' Hdata. apply runs_ret. split; [done|]. exists t', S'. do 2 (split; [done|]).
    assert (Hj' : blks t' !! j = Some k') by (rewrite Hblks; apply list_lookup_insert_eq; by eapply lookup_lt_Some).
    intros i x. rewrite Hblks. intros [(<- & <- & _)|[Hne Hx]]%list_lookup_insert_Some.
    + rewrite Hdata. split; [done|]. split; [|done]. destruct (isDirty k') eqn:E; [|done].
      pose proof (dirty_valid t' S' j k' Habs' Hj' E). congruence.
    + destruct (Hall i x Hx) as (? & ? & Hi). do 2 (split; [done|]). intros Hlt. apply Hi. lia.
  - apply runs_ret. split; [done|]. exists t, S. do 2 (split; [done|]). intros i x Hx.
    destruct (Hall i x Hx) as (? & ? & Hi). do 2 (split; [done|]). intros Hlt.
    destruct (decide (i = j)) as [->|Hne]; [congruence|]. apply Hi. lia.
Qed.

(** ** Both *)

Definition flush : M (GemCache * W) unit := memWriteback P now ;; on_cache (memInvalidate P now).

Lemma block_count t S : abs t S → Z.to_nat (to_uint 32 (numSets t * assoc t)) = Z.to_nat (2 ^ m * tp_assoc T).
Proof using HP.
  intros Habs. pose proof (sizes T lg m (cp_tags _ _ _ HP)). pose proof (la_geometry _ _ _ _ _ Habs) as [= _ _ _ -> _ _ ->].
  by rewrite to_uint_small by nia.
Qed.

Lemma flush_runs s bm :
  cache_abs P lg m start last s bm →
  runs flush s (λ _ s', cache_abs P lg m start last s' bm ∧
    (∃ mb, holds_bytes s'.2 mb ∧ ∀ x, start ≤ x ≤ last → bm_byte mb x = bm_byte bm x) ∧
    ∀ b k, blks (tags s'.1) !! b = Some k → isValid k = false).
Proof using HP Hln Hmem.
  destruct s as [c w]. intros (t & S & mb & Ha & Habs & Hw & Hc). cbn [fst snd] in *. unfold flush, memWriteback.
  apply runs_bind, runs_bind, runs_the_cache. rewrite (proj1 Ha). unfold forEachBlk. rewrite (block_count t S Habs).
  eapply runs_mono; [apply (visit_runs _ (clean_upto bm))|].
  { exists t, S, mb. do 4 (split; [done|]). lia. }
  { intros j s Hj. apply writebackVisitor_runs. lia. }
  intros [] [c1 w1] (t1 & S1 & mb1 & Ha1 & Habs1 & Hw1 & Hc1 & Hclean). cbn [fst snd] in *.
  assert (Hdirty : ∀ b k, blks t1 !! b = Some k → isDirty k = false).
  { intros b k Hb. apply (Hclean b); [|done]. pose proof (lookup_lt_Some _ _ _ Hb). pose proof (la_length _ _ _ _ _ Habs1) as Hl.
    unfold zlength in Hl. lia. }
  assert (Hmb : ∀ x, start ≤ x ≤ last → bm_byte mb1 x = bm_byte bm x).
  { intros x Hx. apply (co_memory _ _ _ _ _ _ _ _ _ Hc1 x Hx); [|done]. intros b k Hb _ Hd. by rewrite (Hdirty b k Hb) in Hd. }
  apply runs_on_cache. unfold memInvalidate. apply runs_bind, runs_get. rewrite (proj1 Ha1). unfold forEachBlk.
  rewrite (block_count t1 S1 Habs1). eapply runs_mono; [apply (visit_runs _ empty_upto)|].
  { exists t1, S1. do 2 (split; [done|]). intros j k Hk. split; [by apply (co_blocks _ _ _ _ _ _ _ _ _ Hc1 j k Hk)|].
    split; [by eapply Hdirty|lia]. }
  { intros j s Hj. apply invalidateVisitor_runs. lia. }
  intros [] c2 (t2 & S2 & Ha2 & Habs2 & Hall). cbn [fst snd].
  assert (Hinv : ∀ b k, blks t2 !! b = Some k → isValid k = false).
  { intros b k Hb. apply (Hall b k Hb). pose proof (lookup_lt_Some _ _ _ Hb). pose proof (la_length _ _ _ _ _ Habs2) as Hl.
    unfold zlength in Hl. lia. }
  split; [|split; [by exists mb1|by rewrite (proj1 Ha2)]].
  exists t2, S2, mb1. do 3 (split; [done|]). split; [|by intros x Hx _ _; apply Hmb|done].
  intros b k Hb. destruct (Hall b k Hb) as (Hl & _). split; [done|]. by rewrite (Hinv b k Hb).
Qed.
End flush.
