(* ===== verification/CacheMemory.v ===== *)
(** * A classic cache in front of the simple memory

    The simple memory is what the cache expects below it, so that a
    processor that accesses the memory through the cache gets what the memory alone would answer. *)

From S2P Require Import Prelude IntMath Clock AddrRange MemPacket AbstractMem MemSpec CacheBlk CacheTags CacheQueue MSHR LruSpec ClassicCache CacheRun CacheTransparent CacheFlush SimpleMem.

Section memory.
Context (Pm : SimpleMemoryParams).

Definition on_below {W A} (m : M W A) : M (GemCache * W) A := zoom snd (λ w s, (s.1, w)) m.

(** nothing above the cache snoops, and no packet waits in the queues of its ports *)
#[local] Instance memory_peers : CachePeers SimpleMemory := {
  mem_sendAtomic pkt := on_below (sm_recvAtomic Pm pkt);
  mem_sendFunctional pkt := on_below (sm_recvFunctional pkt);
  cpu_sendAtomicSnoop pkt := mret pkt;
  cpu_sendFunctionalSnoop pkt := mret pkt;
  cpu_isSnooping := false;
  cpu_checkFunctional pkt := mret (false, pkt);
  mem_checkFunctional pkt := mret (false, pkt);
}.

Context (start last : Z) (Hlo : 0 ≤ start) (Hhi : last < 2 ^ 64).

Definition memory_holds (s : SimpleMemory) (bm : byte_mem) : Prop :=
  mem_abs start last (sm_mem s) bm ∧ packetQueue s = [].

Lemma latency_drawn s : ∃ l k, getLatency Pm s = Ok (l, s.{draws := k}).
Proof.
  unfold getLatency. case_decide.
  - exists (latency Pm), (draws s). by destruct s.
  - by exists (u64 (latency Pm + random Pm (draws s))), (Datatypes.S (draws s)).
Qed.

Lemma memory_atomic s c pkt pkt' mem :
  cacheResponding pkt = false → AbstractMem.access (atomic_op Pm) pkt (sm_mem s) = Ok (pkt', mem) →
  ∃ l k, mem_sendAtomic pkt (c, s) = Ok ((l, pkt'), (c, s.{sm_mem := mem}.{draws := k})).
Proof.
  intros Hf Hrun. destruct (latency_drawn (s.{sm_mem := mem})) as (l & k & Hl). exists l, k. cbn [mem_sendAtomic memory_peers].
  assert (Hs : sm_recvAtomic Pm pkt s = Ok ((l, pkt'), s.{sm_mem := mem}.{draws := k})).
  { unfold sm_recvAtomic. rewrite Hf. eapply bind_Ok; [unfold on_mem, zoom; by rewrite Hrun|]. eapply bind_Ok; [exact Hl|]. done. }
  unfold on_below, zoom. cbn [snd fst]. by rewrite Hs.
Qed.

(** a packet inside the memory passes its check of addresses *)
Lemma inside_run s bm a n :
  mem_abs start last s bm → start ≤ a → a + n - 1 ≤ last → 0 < n < 2 ^ 32 →
  isSubset (AddrRange_plain a (u64 (a + to_uint 32 (n - 1)))) (mem_range s) = Ok true ∧
  isSubset (AddrRange_plain a (u64 (a + n - 1))) (mem_range s) = Ok true.
Proof using Hlo Hhi.
  intros Ha H1 H2 Hn. rewrite (to_uint_small 32) by lia. replace (a + (n - 1)) with (a + n - 1) by lia.
  rewrite u64_small by (unfold is_u64; lia). unfold isSubset. cbn.
  rewrite (abs_start _ _ s bm Ha), (abs_end _ _ s bm Ha). by rewrite !bool_decide_eq_true_2 by lia.
Qed.

(** the bytes of a functional write are put where they belong *)
Lemma memory_functional s bm pkt a data :
  mem_abs start last s bm → pkt_cmd pkt = WriteReq → pkt_addr pkt = Some a → pkt_size pkt = Some (zlength data) →
  pkt_bytes pkt = Some data → 0 < zlength data → start ≤ a → a + zlength data - 1 ≤ last →
  ∃ pkt' s', functionalAccess pkt s = Ok (pkt', s') ∧
    mem_abs start last s' (mkByteMem (put_bytes a data (bm_byte bm)) (bm_resv bm)).
Proof using Hlo Hhi.
  intros Ha Hc Haddr Hsz Hb Hpos H1 H2.
  destruct (abs_write start last s bm a data (bm_resv bm) Ha H1 H2) as (mem & mem' & Hm & Hcopy & Hafter).
  assert (Hin : isSubset (AddrRange_plain a (u64 (a + zlength data - 1))) (mem_range s) = Ok true).
  { rewrite u64_small by (unfold is_u64; lia). unfold isSubset. cbn.
    rewrite (abs_start _ _ s bm Ha), (abs_end _ _ s bm Ha). by rewrite !bool_decide_eq_true_2 by lia. }
  exists (pkt.{pkt_cmd := WriteResp}.{isExpressSnoop := false}), (s.{pmemAddr := Some mem'}). split.
  - unfold functionalAccess. eapply bind_Ok; [done|]. eapply lift_run; [unfold getAddr; by rewrite Haddr|].
    eapply lift_run; [unfold getSize; by rewrite Hsz|]. eapply lift_run; [exact Hin|]. eapply check_run; [done|].
    rewrite Hc. change (isRead WriteReq) with false. change (isWrite WriteReq) with true. cbn iota. rewrite Hm.
    eapply bind_Ok.
    { eapply lift_run; [|done]. unfold writeData, getPtr, getSize. rewrite Hb, Hsz. rewrite (abs_start _ _ s bm Ha); exact Hcopy. }
    unfold lift, makeResponse. by rewrite Hc.
  - apply Hafter; [done|done|exact (abs_nodup _ _ s bm Ha)|exact (abs_resv _ _ s bm Ha)].
Qed.

(** the interface *)
#[local] Instance memory_below : MemoryBelow SimpleMemory start last.
Proof using Hlo Hhi.
  refine {| holds_bytes := memory_holds |}.
  - intros c s bm pkt op [Ha Hq] Hok.
    destruct (access_run_kept start last (atomic_op Pm) (sm_mem s) bm pkt op Hlo Hhi Ha Hok) as (pkt' & mem & Hrun & Hr & Hout).
    destruct (spec_op op bm) as [[read ok] m']. destruct Hout as [Hans Ha'].
    destruct (memory_atomic s c pkt pkt' mem (ok_cache _ _ _ _ Hok) Hrun) as (l & k & Hsend).
    exists l, pkt', (s.{sm_mem := mem}.{draws := k}). split; [exact Hsend|]. split; [exact Hr|]. split; [exact Hans|by split].
  - intros c s bm pkt [Ha Hq] [Hcmd Hf].
    assert (Hrun : AbstractMem.access (atomic_op Pm) pkt (sm_mem s) = Ok (pkt, sm_mem s)).
    { unfold AbstractMem.access. by rewrite Hf, decide_True. }
    destruct (memory_atomic s c pkt pkt _ Hf Hrun) as (l & k & Hsend). eexists l, pkt, _. split; [exact Hsend|by split].
  - intros c s bm pkt a n [Ha Hq] Hcmd Haddr Hsz Hn H1 H2 Hf.
    assert (Hrun : AbstractMem.access (atomic_op Pm) pkt (sm_mem s) =
      Ok (pkt.{pkt_cmd := InvalidateResp}.{isExpressSnoop := false}, sm_mem s)).
    { unfold AbstractMem.access. rewrite Hf, Hcmd, decide_False by (intros [|]; discriminate).
      eapply bind_Ok; [done|]. eapply lift_run; [unfold getAddr; by rewrite Haddr|].
      eapply lift_run; [unfold getSize; by rewrite Hsz|]. eapply lift_run; [by apply (inside_run _ bm)|].
      eapply check_run; [done|]. cbv zeta. rewrite decide_False by discriminate. change (isRead InvalidateReq) with false.
      change (isInvalidate InvalidateReq) with true. cbn iota. eapply bind_Ok; [done|]. rewrite Hcmd.
      unfold lift, makeResponse. by rewrite Hcmd. }
    destruct (memory_atomic s c pkt _ _ Hf Hrun) as (l & k & Hsend). eexists l, _, _. split; [exact Hsend|].
    split; [|split; [done|by split]]. exists (req_extraData (req pkt)), (pkt_bytes pkt), InvalidateResp, false. by destruct pkt as [? []].
  - intros c s bm pkt a data [Ha Hq] Hcmd Haddr Hsz Hb Hpos H1 H2.
    destruct (memory_functional (sm_mem s) bm pkt a data Ha Hcmd Haddr Hsz Hb Hpos H1 H2) as (pkt' & mem & Hrun & Ha').
    assert (Hs : sm_recvFunctional pkt s = Ok (pkt', s.{sm_mem := mem}.{packetQueue := [] })).
    { unfold sm_recvFunctional. eapply bind_Ok; [unfold on_mem, zoom; by rewrite Hrun|]. eapply bind_Ok; [done|].
      eapply lift_run; [cbn; by rewrite Hq|]. done. }
    exists pkt', (s.{sm_mem := mem}.{packetQueue := [] }). cbn [mem_sendFunctional memory_peers]. unfold on_below, zoom. cbn [snd fst].
    rewrite Hs. split; [done|by split].
Defined.
End memory.

(** ** The cache cannot be noticed *)

(** two responses that a processor cannot tell apart *)
Definition same_reply (r1 r2 : Packet) : Prop :=
  pkt_cmd r1 = pkt_cmd r2 ∧ pkt_bytes r1 = pkt_bytes r2 ∧ pkt_addr r1 = pkt_addr r2 ∧ pkt_size r1 = pkt_size r2.

Lemma same_replies pkts rs resps1 resps2 :
  Forall3 answer pkts rs resps1 → Forall3 answer pkts rs resps2 → Forall2 same_reply resps1 resps2.
Proof.
  intros H1. revert resps2. induction H1 as [|pkt r p1 pkts rs l1 (A1 & A2 & A3 & A4 & _) _ IH]; intros resps2 H2.
  - inversion H2. constructor.
  - inversion H2 as [|? ? p2 ? ? l2 (B1 & B2 & B3 & B4 & _) H3]; subst.
    constructor; [|by apply IH]. split; [congruence|]. split; [by rewrite A1, B1|]. split; congruence.
Qed.

Section composition.
Context (P : CacheParams) (Pm : SimpleMemoryParams) (lg m : Z) (HP : cache_params_ok P lg m).
Context (start last : Z) (Hln : lines_ok lg start last).
Context (mshrs write_buffers max_misses : Z) (temp : list Z) (raw_data : Z → list Z) (Hraw : ∀ i, zlength (raw_data i) = 2 ^ lg).

Lemma composed_run mem bm reqs ops :
  memory_holds start last mem bm → Forall2 (cpu_ok P lg start last) (reqs.*2) ops →
  ∃ c0 resps s, GemCache_new P mshrs write_buffers max_misses false temp raw_data = Ok c0 ∧
    run_requests (CPs := memory_peers Pm) P reqs (c0, mem) = Ok (resps, s) ∧
    Forall3 answer (reqs.*2) (spec_ops ops bm).1 resps ∧
    cache_abs (CPs := memory_peers Pm) (Hmem := memory_below Pm start last (proj1 (ln_range _ _ _ Hln)) (proj2 (ln_range _ _ _ Hln)))
      P lg m start last s (spec_ops ops bm).2.
Proof using HP Hraw.
  intros Hm Hok.
  destruct (new_cache (CPs := memory_peers Pm)
    (Hmem := memory_below Pm start last (proj1 (ln_range _ _ _ Hln)) (proj2 (ln_range _ _ _ Hln)))
    P lg m HP start last mshrs write_buffers max_misses temp raw_data mem bm Hraw Hm) as (c0 & Hnew & Habs).
  destruct (cache_requests_run (CPs := memory_peers Pm) P lg m HP start last Hln reqs ops (c0, mem) bm Habs Hok) as (resps & s & Hrun & Hall & Habs').
  by exists c0, resps, s.
Qed.

(** the same, followed by a flush *)
Lemma composed_flush mem bm reqs ops now :
  memory_holds start last mem bm → Forall2 (cpu_ok P lg start last) (reqs.*2) ops →
  ∃ c0 resps s c' mem' mb, GemCache_new P mshrs write_buffers max_misses false temp raw_data = Ok c0 ∧
    run_requests (CPs := memory_peers Pm) P reqs (c0, mem) = Ok (resps, s) ∧
    flush (CPs := memory_peers Pm) P now s = Ok (tt, (c', mem')) ∧
    memory_holds start last mem' mb ∧ (∀ x, start ≤ x ≤ last → bm_byte mb x = bm_byte (spec_ops ops bm).2 x) ∧
    ∀ b k, blks (tags c') !! b = Some k → isValid k = false.
Proof using HP Hraw Hln.
  intros Hm Hok. destruct (composed_run mem bm reqs ops Hm Hok) as (c0 & resps & s & Hnew & Hrun & _ & Habs).
  destruct (flush_runs (CPs := memory_peers Pm) P lg m HP start last Hln now s _ Habs)
    as ([] & [c' mem'] & Hflush & _ & (mb & Hmb & Heq) & Hinv).
  exists c0, resps, s, c', mem', mb. do 3 (split; [done|]). split; [exact Hmb|]. by split.
Qed.
End composition.

(** C5: A classic cache cannot be noticed.  In front of the simple memory, a cache with LRU tags in
    atomic mode - of any size below 2 GiB, any line size and associativity, with or without fast writes and clean
    writebacks - answers every sequence of reads, writes, swaps and conditional swaps inside one
    line, cacheable or not, at any ticks, from construction on and without a fault, with the responses that the memory alone
    would give: the same commands and bytes.  (The requests are to the non-secure space, without load-locked and
    store-conditional accesses, and their responses may allocate.)  Whatever lines the cache has evicted, written back or
    still holds dirty, it and the memory together hold what the operations make of the bytes. *)
Theorem cache_is_transparent (P : CacheParams) (Pm : SimpleMemoryParams) (lg m start last : Z) (mem : SimpleMemory)
    (bm : byte_mem) (mshrs write_buffers max_misses : Z) (temp : list Z) (raw_data : Z → list Z)
    (reqs : list (Z * Packet)) (ops : list mem_op)
    (HP : cache_params_ok P lg m) (Hln : lines_ok lg start last) (Hraw : ∀ i, zlength (raw_data i) = 2 ^ lg)
    (Hmem : memory_holds start last mem bm) (Hok : Forall2 (cpu_ok P lg start last) (reqs.*2) ops) :
  ∃ c0 resps s direct mem', GemCache_new P mshrs write_buffers max_misses false temp raw_data = Ok c0 ∧
    run_requests (CPs := memory_peers Pm) P reqs (c0, mem) = Ok (resps, s) ∧
    Forall3 answer (reqs.*2) (spec_ops ops bm).1 resps ∧
    run_accesses (atomic_op Pm) (reqs.*2) (sm_mem mem) = Ok (direct, mem') ∧ Forall2 same_reply resps direct.
Proof.
  destruct (composed_run P Pm lg m HP start last Hln mshrs write_buffers max_misses temp raw_data Hraw mem bm reqs ops Hmem Hok)
    as (c0 & resps & s & Hnew & Hrun & Hall & _).
  assert (Hacc : Forall2 (access_ok start last) (reqs.*2) ops) by (eapply Forall2_impl; [exact Hok|]; by intros ? ? []).
  destruct (accesses_run start last (atomic_op Pm) (reqs.*2) ops (sm_mem mem) bm (proj1 (ln_range _ _ _ Hln))
    (proj2 (ln_range _ _ _ Hln)) (proj1 Hmem) Hacc) as (direct & mem' & Hdirect & Hall' & _).
  exists c0, resps, s, direct, mem'. do 4 (split; [done|]). by eapply same_replies.
Qed.

(** C8: A flush leaves the memory right and the cache empty.  After any such sequence of requests,
    [memWriteback] followed by [memInvalidate] runs without a fault, every byte of the memory is what the
    operations have made of it, and no block of the cache is valid. *)
Theorem flush_leaves_memory_right (P : CacheParams) (Pm : SimpleMemoryParams) (lg m start last : Z) (mem : SimpleMemory)
    (bm : byte_mem) (mshrs write_buffers max_misses : Z) (temp : list Z) (raw_data : Z → list Z)
    (reqs : list (Z * Packet)) (ops : list mem_op) (now : Z)
    (HP : cache_params_ok P lg m) (Hln : lines_ok lg start last) (Hraw : ∀ i, zlength (raw_data i) = 2 ^ lg)
    (Hmem : memory_holds start last mem bm) (Hok : Forall2 (cpu_ok P lg start last) (reqs.*2) ops) :
  ∃ c0 resps s c' mem' mb, GemCache_new P mshrs write_buffers max_misses false temp raw_data = Ok c0 ∧
    run_requests (CPs := memory_peers Pm) P reqs (c0, mem) = Ok (resps, s) ∧
    flush (CPs := memory_peers Pm) P now s = Ok (tt, (c', mem')) ∧
    memory_holds start last mem' mb ∧ (∀ x, start ≤ x ≤ last → bm_byte mb x = bm_byte (spec_ops ops bm).2 x) ∧
    ∀ b k, blks (tags c') !! b = Some k → isValid k = false.
Proof.
  by apply (composed_flush P Pm lg m HP start last Hln mshrs write_buffers max_misses temp raw_data Hraw).
Qed.

(** ** Witnesses: a direct-mapped cache of two lines of 16 bytes *)

Definition ex_cache : CacheParams :=
  mkCacheParams (mkTagParams LRU 32 16 1 2 2 false 500 8 (λ _, 0)) 16 2 1 true false false false [] false 500 (λ k, k)
    (λ n, replicate (Z.to_nat n) 0).
Definition ex_sm : SimpleMemoryParams := mkSimpleMemoryParams 30 0 (Double.d_of_Z 1) (λ _, 0) (λ _, None).
Definition ex_uncached (pkt : Packet) : Packet := pkt.{req ::= λ r, r.{isUncacheable := true} }.

(** a write that misses, reads of another line of its set that evict it, a swap, a whole line, and an uncacheable read of it *)
Definition ex_reqs : list (Z * Packet) :=
  [(0, ex_access WriteReq 0x1012 [5; 6] 1); (500, ex_access ReadReq 0x1030 [0; 0] 1); (1000, ex_access ReadReq 0x1011 [0; 0; 0] 1);
   (1500, ex_access SwapReq 0x1013 [9] 2); (2000, ex_access WriteReq 0x1020 (replicate 16 7) 1);
   (2500, ex_uncached (ex_access ReadReq 0x1012 [0; 0] 1)); (3000, ex_uncached (ex_access ReadReq 0x102e [0; 0] 1))].
Definition ex_ops : list mem_op :=
  [OpWrite 0x1012 [5; 6] 0x1010 None; OpRead 0x1030 2 None; OpRead 0x1011 3 None; OpSwap 0x1013 [9] None;
   OpWrite 0x1020 (replicate 16 7) 0x1020 None; OpRead 0x1012 2 None; OpRead 0x102e 2 None].

Lemma ex_cache_ok : cache_params_ok ex_cache 4 1.
Proof. split; try done. intros n Hn. unfold zlength. cbn. rewrite length_replicate. lia. Qed.

Lemma ex_lines_ok : lines_ok 4 0x1000 0x10ff.
Proof. by split. Qed.

Ltac solve_cpu :=
  split; [solve_access|apply (bool_decide_unpack _); by vm_compute|intros ? ? [= <-] [= <-]; vm_compute; discriminate
    |intros Hc; first [discriminate Hc|reflexivity]|intros ? Hc [= <-]; first [discriminate Hc|vm_compute; discriminate]
    |reflexivity|reflexivity|by split|reflexivity|reflexivity].

Lemma ex_reqs_ok : Forall2 (cpu_ok ex_cache 4 0x1000 0x10ff) (ex_reqs.*2) ex_ops.
Proof. repeat (apply Forall2_cons; split; [solve_cpu|]). by apply Forall2_nil. Qed.

Lemma ex_memory_holds : memory_holds 0x1000 0x10ff (SimpleMemory_new ex_mem) ex_bytes.
Proof. split; [apply ex_abs|done]. Qed.

Lemma cache_is_transparent_witness :
  ∃ c0 resps s, GemCache_new ex_cache 4 8 0 false [] (λ _, replicate 16 0) = Ok c0 ∧
    run_requests (CPs := memory_peers ex_sm) ex_cache ex_reqs (c0, SimpleMemory_new ex_mem) = Ok (resps, s) ∧
    pkt_bytes <$> resps = [Some [5; 6]; Some [0; 0]; Some [0; 5; 6]; Some [6]; Some (replicate 16 7); Some [5; 9]; Some [7; 7]].
Proof.
  destruct (cache_is_transparent ex_cache ex_sm 4 1 0x1000 0x10ff (SimpleMemory_new ex_mem) ex_bytes 4 8 0 [] (λ _, replicate 16 0)
    ex_reqs ex_ops ex_cache_ok ex_lines_ok (λ _, eq_refl) ex_memory_holds ex_reqs_ok)
    as (c0 & resps & s & direct & mem' & Hnew & Hrun & _).
  exists c0, resps, s. do 2 (split; [done|]). vm_compute in Hnew. injection Hnew as <-.
  vm_compute in Hrun. injection Hrun as <- _. by vm_compute.
Defined.

Lemma flush_leaves_memory_right_witness :
  ∃ c0 resps s c' mem', GemCache_new ex_cache 4 8 0 false [] (λ _, replicate 16 0) = Ok c0 ∧
    run_requests (CPs := memory_peers ex_sm) ex_cache ex_reqs (c0, SimpleMemory_new ex_mem) = Ok (resps, s) ∧
    flush (CPs := memory_peers ex_sm) ex_cache 4000 s = Ok (tt, (c', mem')) ∧
    (mem ← pmemAddr (sm_mem mem'); Some (take 4 (drop 17 mem))) = Some [0; 5; 9; 0].
Proof.
  destruct (flush_leaves_memory_right ex_cache ex_sm 4 1 0x1000 0x10ff (SimpleMemory_new ex_mem) ex_bytes 4 8 0 [] (λ _, replicate 16 0)
    ex_reqs ex_ops 4000 ex_cache_ok ex_lines_ok (λ _, eq_refl) ex_memory_holds ex_reqs_ok)
    as (c0 & resps & s & c' & mem' & mb & Hnew & Hrun & Hflush & _).
  exists c0, resps, s, c', mem'. do 3 (split; [done|]). vm_compute in Hnew. injection Hnew as <-.
  vm_compute in Hrun. injection Hrun as _ <-. vm_compute in Hflush. injection Hflush as _ <-. by vm_compute.
Defined.
